(* ===== verification/_CoqProject ===== *)
-Q . S2P
Prelude.v
GoStrings.v
Utf8.v
Float64.v
GoSort.v
Rounding.v
Domain.v
RepKey.v
Signals.v
Score.v
ScoreProps.v
RepConfig.v
RepStorage.v
RepService.v
RepServiceProps.v
RepServiceSpec.v
TieredSelector.v
Selection.v
SelectionProps.v
WaterFill.v
CircuitBreaker.v
CircuitBreakerProps.v
BlockConsensus.v
EvmQoS.v
EvmQoSProps.v
CardGuard.v
Json.v
JsonProps.v
JsonRpc.v
BatchProps.v
RPCTypes.v
Heuristic.v
HeuristicProps.v
MethodLabel.v
RelayPolicy.v
RelaySelect.v
RelayLoop.v
RelayLoopProps.v
RelayParallel.v
RelaySingleProps.v
Hedge.v
SubRegistry.v
Bridge.v
BridgeProps.v
BridgeRebind.v
PoolGuards.v
PoolGuardsProps.v
ShannonPool.v
ShannonPoolProps.v
ErrorClass.v
ErrorClassProps.v
RpcDetect.v
SolanaQoS.v
SolanaQoSProps.v
CosmosQoS.v
CosmosQoSProps.v
Redis.v
RedisStorage.v
RedisStorageProps.v
RedisLimits.v
WsRegistry.v
WsRegistryProps.v
Leader.v
HealthConfig.v
HealthCheck.v
HealthCycle.v
HealthCycleProps.v
HealthCheckProps.v
HealthJobProps.v
HealthDemo.v
ServiceConfig.v
ServiceConfigProps.v
RelayTransport.v
ShannonRelay.v
ShannonRelayProps.v
Sessions.v
SessionsProps.v
EvmExtract.v
ObsQueue.v
ChainExtract.v
