(* ===== verification/Prelude.v ===== *)
(** * PATH: a verification development of the gateway

    PATH is a gateway that relays JSON-RPC, REST and WebSocket requests to
    endpoints staked by independent suppliers.  For each request it must find out
    what is asked, choose an endpoint that is healthy, relay and retry, judge the
    answer, remember how every endpoint behaved, probe endpoints that get no
    traffic, and keep the processes of a fleet in agreement.  This library models
    that core of the program (the Go code under reputation/, qos/, gateway/,
    protocol/shannon/, websockets/ and part of metrics/ and network/) and proves
    what makes it correct.

    ** How the parts interact

    A request's RPC type is detected and checked against its service
    (RpcDetect.v).  The Shannon protocol builds the pool of endpoints from the
    sessions: operator lists, blacklists, exhaustion marks, scores and tiers
    (ShannonPool.v); the QoS of the chain filters it by what endpoints reported
    (EvmQoS.v, SolanaQoS.v, CosmosQoS.v) and picks under a concentration cap
    (Selection.v).  The gateway relays, hedges, retries and rotates (RelayLoop.v,
    Hedge.v), each relay runs in a request context (ShannonRelay.v) over the HTTP
    client (RelayTransport.v), its answer is judged by the heuristics
    (Heuristic.v) and its failure classified (ErrorClass.v).  The outcome becomes
    a signal; the reputation service turns signals into scores, strikes and
    cooldowns and writes them behind to a storage shared by the fleet, from which
    every process refreshes (RepService.v, RepStorage.v, RedisStorage.v).  Failing
    hosts are taken out by a circuit breaker shared through Redis
    (CircuitBreaker.v); one elected leader probes endpoints (Leader.v,
    HealthCycle.v); sampled answers are mined for chain data (ObsQueue.v).
    WebSocket connections are bridged and rebound with their subscriptions
    (Bridge.v, SubRegistry.v).  Settings come from the unified service
    configuration (ServiceConfig.v).

    ** Files

    Foundations
    - Prelude.v: results, 64-bit integers, time, draws, tactics and hint
      databases, list sums.
    - GoStrings.v, Utf8.v: the functions of strings, strconv, fmt and
      unicode/utf8 the code calls.  Case mapping beyond ASCII is the class
      UnicodeCase.
    - Float64.v, Rounding.v: float64 as the Standard Library's binary64
      specification (SpecFloat), its order and NaN lemmas, and bounds on rounded
      sums and products.  Nothing is idealised to real numbers unless a statement
      says so (WaterFill.v).
    - GoSort.v: the two sorts of package sort; the unstable one is the class
      SliceSort with its documented contract.
    - Json.v, JsonProps.v: encoding/json as the code uses it: scanning, field
      matching, decoding, quoting and marshalling.

    Reputation
    - Domain.v: metrics/protocol/shannon/domain.go and domain_diversity.go.  URL
      parsing and the public-suffix list are the class DomainLib.
    - RepKey.v: protocol/endpoint.go, reputation/key.go.  The RPC type
      enumeration, generated code of another module, is the class RPCTypeEnum.
    - Signals.v, Score.v, RepConfig.v: reputation/signals.go, the score record
      and the stages of RecordSignal, configuration, defaults and validation.
    - RepStorage.v: the Storage interface as a class of state-passing operations
      and the in-memory storage.
    - RepService.v: reputation/service.go and admin_drain.go; background loops
      by their ticks, the non-blocking send by try_send.
    - Redis.v, RedisStorage.v: Redis as a class with the documented effect of the
      commands, and reputation/storage/redis.go over it.
    - TieredSelector.v: reputation/selector.go.
    - ScoreProps.v, RepServiceProps.v, RepServiceSpec.v, RedisStorageProps.v,
      RedisLimits.v: their theorems.

    Selection and block heights
    - Selection.v, SelectionProps.v, WaterFill.v: qos/selector.  A computation
      that would panic yields None.
    - BlockConsensus.v: qos/evm/block_consensus.go and the plausibility rules;
      heights are uint64 with wrap-around.
    - EvmQoS.v, SolanaQoS.v, CosmosQoS.v with their ...Props.v: endpoint stores,
      validation, selection, updates and the exchange with the reputation
      service.  Goroutines are tasks run in any order.
    - EvmExtract.v, ObsQueue.v: the archival heuristic, the extractor and the
      observation queue; ChainExtract.v: the Solana and Cosmos extractors.
      gjson is the class Gjson.

    Requests and answers
    - RPCTypes.v, RpcDetect.v: gateway/rpc_type_detector.go, rpctype_mapper.go and
      rpc_type_validator.go.
    - JsonRpc.v, BatchProps.v: qos/jsonrpc: ids, requests, responses, batches.
    - Heuristic.v, HeuristicProps.v: qos/heuristic.
    - RelayPolicy.v, RelaySelect.v, RelayLoop.v, RelayParallel.v with
      RelayLoopProps.v, RelaySingleProps.v: the retry loops of
      gateway/http_request_context_handle_request.go in a small error and state
      monad over the class RelayEnv (protocol, QoS context, breaker, clock).
    - Hedge.v: gateway/hedge.go as a machine over arrivals, timers and the
      context.
    - CircuitBreaker.v, CircuitBreakerProps.v: gateway/domain_circuit_breaker.go.

    The Shannon protocol
    - PoolGuards.v, ShannonPool.v with their ...Props.v: blacklist, exhaustion,
      blocklist, policy, the reputation filter and the pool.
    - Sessions.v, SessionsProps.v: the sessions a request may use: gateway
      modes, rollover and both full nodes behind the class FullNode.
    - ErrorClass.v, ErrorClassProps.v: error_classification.go; an error is its
      text and the sentinels in its chain.
    - RelayTransport.v: network/http and fullnode_account_fetcher.go.
    - ShannonRelay.v, ShannonRelayProps.v: context.go and observation.go; what
      the signer, the SDK and net/http do during a relay is its relay_world.

    WebSockets
    - SubRegistry.v, Bridge.v, BridgeProps.v, BridgeRebind.v: websockets/, the
      bridge as a machine over events.
    - WsRegistry.v, WsRegistryProps.v: the connection limiter, registry and
      tumble.

    Health checks and configuration
    - Leader.v: the election as a step relation of a fleet over Redis: ticks,
      timeouts of attempts and releases, stops, crashes and time.
    - HealthConfig.v, HealthCheck.v, HealthCycle.v with HealthCheckProps.v,
      HealthCycleProps.v, HealthJobProps.v, HealthDemo.v: the checks, their
      judgement, the cycle and its jobs.
    - ServiceConfig.v, ServiceConfigProps.v: gateway/unified_service_config.go
      and latency_config.go.

    Metrics
    - CardGuard.v, MethodLabel.v: the cardinality guard and label sanitizers.

    ** What the theorems show

    - Scores and service: bounds as an invariant of any run over any storage that
      satisfies ScoreStorageLaws; sustained failures bench an endpoint; a step
      relation over every operation (svc_step) with invariants by rule induction;
      the archival index equals the scan it replaces; the write-behind queue
      refines sequential writes; drains reach every replica.
    - Storage: read-after-write, a perceived height that converges; the Redis
      storage refines the in-memory one to the second.
    - Selection: every pick is total and stays in the pool, the cap conserves
      weight and respects the ceilings, selections are without replacement.
    - QoS: a strict majority bounds the perceived height; filtering accepts
      exactly the acceptable endpoints; selection is total; a lagging endpoint is
      rejected by the whole fleet.
    - Requests: ids and batches round-trip; a request returned without error
      passed the success check; retries end and rotate over endpoints and
      operators (the branch a hedge race adds is its own); a hedge race returns
      the best result; a request is given only a type its service lists.
    - Protocol: a served endpoint passed every operator rule; scores never empty
      the pool of an unpinned request that is not ranked by tiers; the blacklist
      and exhaustion marks refine their histories; a relay records exactly its
      signals; a supplier's own fault moves no score; sessions belong to apps
      that delegate and are never older than the grace period; the responses of a
      batch line up with its payloads.
    - WebSockets: close frames are legible, shutdown happens once, and while no
      supplier answers a subscribe with an empty id, the indexes of the
      subscription registry stay sound and a client keeps its subscription ids.
    - Health checks: at most one confirmed leader among the instances that were
      not stopped, leadership recovers in an undisturbed fleet, services are
      checked on their interval, over the runs of a service every supplier is
      probed in rotation, what is found counts for the whole backend, and a job
      marks endpoints archival only for an archival check that passed.
    - Configuration: merged settings read the same however often they are merged,
      hydration leaves nothing open, validated routes are unambiguous.
    - Metrics: the guard keeps the number of series under its limit and labels
      are short and safe.
    - Theorems under "Departures" and those named for a fault record where the
      code does something other than its comments say.

    ** Conventions and bounds

    Go's int, int64 and time.Duration are integers kept at 64 bits where a result
    can leave the range (wrap64, saturating Time.Sub); counters that cannot reach
    2^63 in the life of a process are unbounded.  Every operation takes the
    instant it runs at; a Go map that is ranged over is a finite map, or a list
    when the order of iteration matters, and statements hold for every order.
    Logging and tracing return nothing and are left out, as are metrics except
    where they are the subject (CardGuard.v, MethodLabel.v, the relay metric of
    ShannonRelay.v); locks are left out because each modelled operation runs
    under the lock the source takes.  Concurrency is explicit where the code
    allows it: tasks in any order, step relations, machines over events.

    Fuel is used where recursion is not structural, with a proof that it is
    enough: the JSON scanner (twice the length of the text; parse_fuel), the
    printing of integers (their number of bits), the unwrapping of heuristic
    reasons (the length of the text; classify_malformed_fuel) and the pages of a
    Redis scan (their number is part of the statement).  The relay loops recurse
    on the number of attempts the source allows, the water-filling makes one pass
    per operator.  The rate gate is compared with its exact ratio for windows of
    up to 100 outcomes, by evaluation.

    ** Not modelled

    - protocol/shannon/websocket_context.go and signer.go: wiring of sockets and
      the SDK's signing; the parts with a logic of their own (bridge, registry)
      are modelled.  gRPC and the cache library are left out of the full nodes.
    - The request contexts of qos/evm, qos/solana and qos/cosmos: assembly of
      parsed requests and of HTTP responses from the modelled parts.
    - metrics/metrics.go beyond its labels: declarations of collectors.
    - portal-db/ and the .pb.go files: generated code.
    - router/, request/, health/, config/ and cmd/: HTTP and YAML glue. *)

From Stdlib Require Import ZArith Lia Bool List.
From stdpp Require Import base decidable list gmap strings.

(** ** Scopes and notations *)

Declare Scope go_scope.
Delimit Scope go_scope with go.

Open Scope Z_scope.

(** ** Results: Go's [(value, error)] pairs

    A Go function that returns [(T, error)] is modelled by [result E T]: the
    value is meaningful exactly when the error is nil. *)

Inductive result (E A : Type) : Type :=
| Ok (a : A)
| Err (e : E).
Arguments Ok {E A} a.
Arguments Err {E A} e.

Definition is_ok {E A} (r : result E A) : bool :=
  match r with Ok _ => true | Err _ => false end.

Notation "'let!' x ':=' c 'in' k" :=
  (match c with Ok x => k | Err e => Err e end)
  (at level 10, x pattern, c at level 100, k at level 200) : go_scope.

(** ** Machine integers

    [int], [int64] and [time.Duration] are 64-bit two's complement on every
    platform the gateway ships for; [uint64] is unsigned modulo 2^64. *)

Definition min_int64 : Z := - 2 ^ 63.
Definition max_int64 : Z := 2 ^ 63 - 1.
Definition max_uint64 : Z := 2 ^ 64 - 1.

Definition wrap64 (z : Z) : Z := (z + 2 ^ 63) mod 2 ^ 64 - 2 ^ 63.
Definition wrapu64 (z : Z) : Z := z mod 2 ^ 64.

Definition in_int64 (z : Z) : Prop := min_int64 <= z <= max_int64.
Definition in_uint64 (z : Z) : Prop := 0 <= z <= max_uint64.

Lemma wrap64_id z : in_int64 z -> wrap64 z = z.
Proof.
  unfold in_int64, min_int64, max_int64, wrap64. intros H.
  rewrite Z.mod_small; lia.
Qed.

Lemma wrap64_range z : in_int64 (wrap64 z).
Proof.
  unfold in_int64, min_int64, max_int64, wrap64.
  pose proof (Z.mod_pos_bound (z + 2 ^ 63) (2 ^ 64) ltac:(lia)). lia.
Qed.

Lemma wrapu64_id z : in_uint64 z -> wrapu64 z = z.
Proof. unfold in_uint64, max_uint64, wrapu64. intros H. apply Z.mod_small. lia. Qed.

(** ** Time

    [time.Time] is an instant in nanoseconds relative to the Unix epoch; Go's
    zero [time.Time] is 1 January of year 1.  [time.Duration] is an [int64]
    count of nanoseconds, and [Time.Sub] saturates instead of wrapping. *)

Definition Time := Z.
Definition Duration := Z.

Definition time_zero : Time := -62135596800 * 10 ^ 9.

Definition nanosecond : Duration := 1.
Definition millisecond : Duration := 10 ^ 6.
Definition second : Duration := 10 ^ 9.
Definition minute : Duration := 60 * second.
Definition hour : Duration := 60 * minute.

Definition time_is_zero (t : Time) : bool := t =? time_zero.
Definition time_before (t u : Time) : bool := t <? u.
Definition time_after (t u : Time) : bool := u <? t.
Definition time_add (t : Time) (d : Duration) : Time := t + d.
Definition time_sub (t u : Time) : Duration := Z.max min_int64 (Z.min max_int64 (t - u)).
Definition time_unix (t : Time) : Z := t / second.

Lemma time_sub_exact t u : in_int64 (t - u) -> time_sub t u = t - u.
Proof. unfold time_sub, in_int64. lia. Qed.

(** ** Random draws

    A call [rand.Intn(n)] is modelled by a [draw]: a function of [n] supplied by
    the caller.  [good_draw] is what math/rand documents of it. *)

Definition draw := Z -> Z.
Definition good_draw (d : draw) : Prop := forall n, 0 < n -> 0 <= d n < n.

(** The draw that returns [k] wherever [k] is a legal answer. *)
Definition const_draw (k : Z) : draw := fun n => k mod n.

Lemma const_draw_good k : good_draw (const_draw k).
Proof. intros n Hn. unfold const_draw. apply Z.mod_pos_bound. lia. Qed.

(** ** Tactics *)

(** Turn boolean comparisons on Z in the context into propositions. *)
Ltac breflect :=
  repeat match goal with
    | H : (_ && _)%bool = true |- _ => apply andb_true_iff in H; destruct H
    | H : (_ || _)%bool = false |- _ => apply orb_false_iff in H; destruct H
    | H : negb _ = true |- _ => apply negb_true_iff in H
    | H : negb _ = false |- _ => apply negb_false_iff in H
    | H : (_ <? _) = true |- _ => apply Z.ltb_lt in H
    | H : (_ <? _) = false |- _ => apply Z.ltb_ge in H
    | H : (_ <=? _) = true |- _ => apply Z.leb_le in H
    | H : (_ <=? _) = false |- _ => apply Z.leb_gt in H
    | H : (_ =? _) = true |- _ => apply Z.eqb_eq in H
    | H : (_ =? _) = false |- _ => apply Z.eqb_neq in H
    end.

(** Split on every [if] over a boolean that occurs in the goal. *)
Ltac case_if :=
  match goal with
  | |- context [if ?b then _ else _] =>
      lazymatch type of b with bool => destruct b eqn:? end
  end.
Ltac case_ifs := repeat (case_if; simpl).

Create HintDb go discriminated.
#[export] Hint Resolve const_draw_good wrap64_range : go.

(** ** List lemmas shared by the components *)

Section Lists.
Context {A : Type}.

Lemma fold_left_add_shift (f : A -> Z) (l : list A) (a : Z) :
  fold_left (fun acc x => acc + f x) l a = a + fold_left (fun acc x => acc + f x) l 0.
Proof.
  revert a. induction l as [|x l IH]; intros a; cbn [fold_left]; [lia|].
  rewrite (IH (a + f x)), (IH (0 + f x)). lia.
Qed.
End Lists.

(** The sum of [f] over a list, the shape of Go's accumulation loops. *)
Definition zsum {A} (f : A -> Z) (l : list A) : Z := fold_left (fun acc x => acc + f x) l 0.

Lemma zsum_nil {A} (f : A -> Z) : zsum f [] = 0.
Proof. reflexivity. Qed.

Lemma zsum_cons {A} (f : A -> Z) x l : zsum f (x :: l) = f x + zsum f l.
Proof. unfold zsum. cbn [fold_left]. rewrite fold_left_add_shift. lia. Qed.

Lemma zsum_app {A} (f : A -> Z) l1 l2 : zsum f (l1 ++ l2) = zsum f l1 + zsum f l2.
Proof.
  induction l1 as [|x l1 IH]; [rewrite zsum_nil; simpl; lia|].
  simpl. rewrite !zsum_cons, IH. lia.
Qed.

Lemma zsum_nonneg {A} (f : A -> Z) l : (forall x, In x l -> 0 <= f x) -> 0 <= zsum f l.
Proof.
  induction l as [|x l IH]; intros H; [rewrite zsum_nil; lia|].
  rewrite zsum_cons. pose proof (H x (or_introl eq_refl)).
  assert (0 <= zsum f l) by (apply IH; intros y Hy; apply H; now right). lia.
Qed.

Lemma zsum_ext {A} (f g : A -> Z) l : (forall x, In x l -> f x = g x) -> zsum f l = zsum g l.
Proof.
  induction l as [|x l IH]; intros H; [reflexivity|].
  rewrite !zsum_cons, (H x (or_introl eq_refl)), IH; [reflexivity|].
  intros y Hy. apply H. now right.
Qed.
