(* ===== verification/GoStrings.v ===== *)
(** * The functions of Go's [strings], [strconv] and [fmt] packages the gateway uses

    Strings are byte strings ([String.string]); an index is a [nat], and a Go
    function that returns -1 for "not found" returns [None] here.  Case mapping
    and space trimming are those of ASCII: every string the modelled code lowers
    (hosts, RPC type names, URLs) is ASCII. *)

From S2P Require Import Prelude.
From Stdlib Require Import ZArith Lia Bool Ascii String.
From stdpp Require Import base list strings.

Open Scope string_scope.
Open Scope Z_scope.

#[local] Arguments String.append !s1 s2 / : simpl nomatch.

(** ** Slicing, searching *)

(** [s[:n]] *)
Fixpoint str_take (n : nat) (s : string) : string :=
  match n, s with
  | S n', String c s' => String c (str_take n' s')
  | _, _ => EmptyString
  end.

(** [s[n:]] *)
Fixpoint str_drop (n : nat) (s : string) : string :=
  match n, s with
  | S n', String _ s' => str_drop n' s'
  | O, _ => s
  | S _, EmptyString => EmptyString
  end.

(** [strings.IndexByte(s, c)] *)
Fixpoint index_byte (c : ascii) (s : string) : option nat :=
  match s with
  | EmptyString => None
  | String a s' =>
      if Ascii.eqb a c then Some O else option_map S (index_byte c s')
  end.

(** [strings.LastIndex(s, string(c))] for a one-byte separator *)
Fixpoint last_index_byte (c : ascii) (s : string) : option nat :=
  match s with
  | EmptyString => None
  | String a s' =>
      match last_index_byte c s' with
      | Some n => Some (S n)
      | None => if Ascii.eqb a c then Some O else None
      end
  end.

Definition contains_byte (c : ascii) (s : string) : bool :=
  match index_byte c s with Some _ => true | None => false end.

(** [strings.HasPrefix(s, p)] *)
Fixpoint has_prefix (p s : string) : bool :=
  match p, s with
  | EmptyString, _ => true
  | String a p', String b s' => Ascii.eqb a b && has_prefix p' s'
  | String _ _, EmptyString => false
  end.

(** [strings.Index(s, p)] *)
Fixpoint str_index (p s : string) : option nat :=
  if has_prefix p s then Some O
  else match s with
       | EmptyString => None
       | String _ s' => option_map S (str_index p s')
       end.

Definition str_contains (s p : string) : bool :=
  match str_index p s with Some _ => true | None => false end.

Fixpoint str_rev_acc (s acc : string) : string :=
  match s with
  | EmptyString => acc
  | String c s' => str_rev_acc s' (String c acc)
  end.
Definition str_rev (s : string) : string := str_rev_acc s EmptyString.

(** [strings.HasSuffix(s, p)] *)
Definition has_suffix (p s : string) : bool := has_prefix (str_rev p) (str_rev s).

Fixpoint trim_left_while (f : ascii -> bool) (s : string) : string :=
  match s with
  | EmptyString => EmptyString
  | String c s' => if f c then trim_left_while f s' else s
  end.

(** Drop the longest suffix whose bytes all satisfy [f]. *)
Fixpoint trim_right_while (f : ascii -> bool) (s : string) : string :=
  match s with
  | EmptyString => EmptyString
  | String c s' =>
      match trim_right_while f s' with
      | EmptyString => if f c then EmptyString else String c EmptyString
      | t => String c t
      end
  end.

Definition is_space (c : ascii) : bool :=
  let n := nat_of_ascii c in
  (Nat.eqb n 32 || (Nat.leb 9 n && Nat.leb n 13))%bool.

(** [strings.TrimSpace] *)
Definition trim_space (s : string) : string :=
  trim_right_while is_space (trim_left_while is_space s).

(** [strings.TrimRight(s, "/")] *)
Definition trim_right_slash (s : string) : string :=
  trim_right_while (fun c => Ascii.eqb c "/"%char) s.

(** ** Case mapping *)

Definition lower_ascii (c : ascii) : ascii :=
  let n := nat_of_ascii c in
  if (Nat.leb 65 n && Nat.leb n 90)%bool then ascii_of_nat (n + 32) else c.

Definition upper_ascii (c : ascii) : ascii :=
  let n := nat_of_ascii c in
  if (Nat.leb 97 n && Nat.leb n 122)%bool then ascii_of_nat (n - 32) else c.

Fixpoint str_map (f : ascii -> ascii) (s : string) : string :=
  match s with
  | EmptyString => EmptyString
  | String c s' => String (f c) (str_map f s')
  end.

Definition to_lower : string -> string := str_map lower_ascii.
Definition to_upper : string -> string := str_map upper_ascii.

(** ** Splitting on a one-byte separator *)

(** [strings.Split(s, string(c))]; the list is never empty. *)
Fixpoint split_byte (c : ascii) (s : string) : list string :=
  match s with
  | EmptyString => [""]
  | String a s' =>
      if Ascii.eqb a c then "" :: split_byte c s'
      else match split_byte c s' with
           | p :: ps => String a p :: ps
           | [] => [String a ""]
           end
  end.

(** [strings.SplitN(s, string(c), n)] for [n >= 1] *)
Fixpoint splitn (n : nat) (c : ascii) (s : string) : list string :=
  match n with
  | O => []
  | S O => [s]
  | S n' =>
      match index_byte c s with
      | None => [s]
      | Some i => str_take i s :: splitn n' c (str_drop (S i) s)
      end
  end.

(** ** Decimal integers *)

Definition digit_of (d : Z) : ascii := ascii_of_nat (48 + Z.to_nat d).

Definition digit_val (c : ascii) : option Z :=
  let n := Z.of_nat (nat_of_ascii c) in
  if (48 <=? n) && (n <=? 57) then Some (n - 48) else None.

Fixpoint fmt_digits (fuel : nat) (n : Z) : string :=
  match fuel with
  | O => EmptyString
  | S f =>
      if n <? 10 then String (digit_of n) EmptyString
      else fmt_digits f (n / 10) +:+ String (digit_of (n mod 10)) EmptyString
  end.

(** [fmt.Sprintf("%d", z)] *)
Definition fmt_int (z : Z) : string :=
  if z <? 0 then String "-"%char (fmt_digits (S (Z.to_nat (Z.log2 (- z)))) (- z))
  else fmt_digits (S (Z.to_nat (Z.log2 z))) z.

Fixpoint parse_digits (acc : Z) (s : string) : option Z :=
  match s with
  | EmptyString => Some acc
  | String c s' =>
      match digit_val c with
      | Some d => parse_digits (acc * 10 + d) s'
      | None => None
      end
  end.

Definition parse_nonempty_digits (s : string) : option Z :=
  match s with EmptyString => None | _ => parse_digits 0 s end.

(** [strconv.ParseInt(s, 10, 64)] (and [strconv.Atoi] on a 64-bit platform):
    an optional sign, at least one digit, and a value in the [int64] range. *)
Definition parse_int (s : string) : option Z :=
  let v :=
    match s with
    | String c s' =>
        if Ascii.eqb c "-"%char then option_map Z.opp (parse_nonempty_digits s')
        else if Ascii.eqb c "+"%char then parse_nonempty_digits s'
        else parse_nonempty_digits s
    | EmptyString => None
    end in
  match v with
  | Some z => if (min_int64 <=? z) && (z <=? max_int64) then Some z else None
  | None => None
  end.

(** ** [strconv.ParseUint(s, 0, 64)]: the base comes from the prefix (0b, 0o, 0x,
    or 0 for octal) and underscores may separate digits. *)

(** The value of a digit or letter in any base up to 36. *)
Definition base_digit (c : ascii) : option Z :=
  let n := Z.of_nat (nat_of_ascii c) in
  let l := Z.of_nat (nat_of_ascii (lower_ascii c)) in
  if (48 <=? n) && (n <=? 57) then Some (n - 48)
  else if (97 <=? l) && (l <=? 122) then Some (l - 97 + 10)
  else None.

Fixpoint parse_base (base acc : Z) (s : string) : option Z :=
  match s with
  | EmptyString => Some acc
  | String c s' =>
      if Ascii.eqb c "_"%char then parse_base base acc s'
      else match base_digit c with
           | Some d =>
               if base <=? d then None
               else if max_uint64 <? acc * base + d then None
               else parse_base base (acc * base + d) s'
           | None => None
           end
  end.

(** strconv's underscoreOK: [saw] is the kind of the last character seen. *)
Inductive saw_kind := SawStart | SawDigit | SawUnderscore | SawOther.

Fixpoint underscore_scan (hex : bool) (saw : saw_kind) (s : string) : bool :=
  match s with
  | EmptyString => match saw with SawUnderscore => false | _ => true end
  | String c s' =>
      let d := match base_digit c with Some d => (d <? 10) || (hex && (d <? 16)) | None => false end in
      if d then underscore_scan hex SawDigit s'
      else if Ascii.eqb c "_"%char then
        match saw with SawDigit => underscore_scan hex SawUnderscore s' | _ => false end
      else match saw with SawUnderscore => false | _ => underscore_scan hex SawOther s' end
  end.

Definition is_sign (c : ascii) : bool := Ascii.eqb c "-"%char || Ascii.eqb c "+"%char.

(** The base a two-character prefix announces. *)
Definition prefix_base (c : ascii) : option Z :=
  let l := lower_ascii c in
  if Ascii.eqb l "b"%char then Some 2
  else if Ascii.eqb l "o"%char then Some 8
  else if Ascii.eqb l "x"%char then Some 16
  else None.

Definition underscore_ok (s : string) : bool :=
  let s := match s with String c s' => if is_sign c then s' else s | _ => s end in
  match s with
  | String "0" (String c s') =>
      match prefix_base c with
      | Some b => underscore_scan (b =? 16) SawDigit s'
      | None => underscore_scan false SawStart s
      end
  | _ => underscore_scan false SawStart s
  end.

Definition parse_uint_auto (s : string) : option Z :=
  let v :=
    match s with
    | EmptyString => None
    | String "0" s1 =>
        match s1 with
        | String c ((String _ _) as s2) =>
            match prefix_base c with Some b => parse_base b 0 s2 | None => parse_base 8 0 s1 end
        | _ => parse_base 8 0 s1
        end
    | _ => parse_base 10 0 s
    end in
  if contains_byte "_"%char s && negb (underscore_ok s) then None else v.

(** ** Lemmas *)

Lemma str_app_assoc (a b c : string) : (a +:+ b) +:+ c = a +:+ (b +:+ c).
Proof. induction a as [|x a IH]; simpl; [reflexivity|]. now rewrite IH. Qed.

Lemma str_app_nil_r (a : string) : a +:+ "" = a.
Proof. induction a as [|x a IH]; simpl; [reflexivity|]. now rewrite IH. Qed.

Lemma str_take_app (a b : string) : str_take (String.length a) (a +:+ b) = a.
Proof. induction a as [|x a IH]; simpl; [now destruct b|]. now rewrite IH. Qed.

Lemma str_drop_app (a b : string) : str_drop (String.length a) (a +:+ b) = b.
Proof. induction a as [|x a IH]; simpl; [now destruct b|]. exact IH. Qed.

Lemma str_drop_app_S (a : string) c (b : string) :
  str_drop (S (String.length a)) (a +:+ String c b) = b.
Proof. induction a as [|x a IH]; simpl; [now destruct b|]. exact IH. Qed.

Lemma index_byte_None c s : contains_byte c s = false <-> index_byte c s = None.
Proof. unfold contains_byte. destruct (index_byte c s); split; congruence. Qed.

Lemma contains_byte_cons c a s :
  contains_byte c (String a s) = Ascii.eqb a c || contains_byte c s.
Proof.
  unfold contains_byte. simpl. destruct (Ascii.eqb a c); [reflexivity|].
  now destruct (index_byte c s).
Qed.

Lemma contains_byte_app c a b :
  contains_byte c (a +:+ b) = contains_byte c a || contains_byte c b.
Proof.
  induction a as [|x a IH]; [reflexivity|].
  change (String x a +:+ b) with (String x (a +:+ b)).
  rewrite !contains_byte_cons, IH. now rewrite orb_assoc.
Qed.

Lemma index_byte_app c a b :
  contains_byte c a = false -> index_byte c (a +:+ String c b) = Some (String.length a).
Proof.
  induction a as [|x a IH]; simpl; intros H.
  - now rewrite Ascii.eqb_refl.
  - rewrite contains_byte_cons in H. apply orb_false_iff in H as [H1 H2].
    now rewrite H1, IH.
Qed.

Lemma index_byte_take c s i : index_byte c s = Some i -> contains_byte c (str_take i s) = false.
Proof.
  revert i. induction s as [|x s IH]; intros i; simpl; [discriminate|].
  destruct (Ascii.eqb x c) eqn:E; [now intros [= <-]|].
  destruct (index_byte c s) as [j|]; [|discriminate]. intros [= <-]. simpl.
  rewrite contains_byte_cons, E. now apply IH.
Qed.

Lemma last_index_byte_None c s :
  contains_byte c s = false -> last_index_byte c s = None.
Proof.
  induction s as [|x s IH]; [reflexivity|].
  rewrite contains_byte_cons. intros H. apply orb_false_iff in H as [H1 H2].
  simpl. now rewrite IH, H1.
Qed.

Lemma last_index_byte_app c a b :
  contains_byte c b = false ->
  last_index_byte c (a +:+ String c b) = Some (String.length a).
Proof.
  intros H. induction a as [|x a IH]; simpl.
  - rewrite last_index_byte_None by assumption. now rewrite Ascii.eqb_refl.
  - now rewrite IH.
Qed.

Lemma has_prefix_app p s : has_prefix p (p +:+ s) = true.
Proof. induction p as [|c p IH]; [reflexivity|]. simpl. now rewrite Ascii.eqb_refl. Qed.

Lemma has_prefix_spec p s : has_prefix p s = true <-> exists t, s = p +:+ t.
Proof.
  split.
  - revert s. induction p as [|c p IH]; intros s H; [now exists s|].
    destruct s as [|d s]; [discriminate|]. simpl in H.
    apply andb_true_iff in H as [H1 H2]. apply Ascii.eqb_eq in H1 as <-.
    destruct (IH s H2) as [t ->]. now exists t.
  - intros [t ->]. apply has_prefix_app.
Qed.

Lemma str_map_app f a b : str_map f (a +:+ b) = str_map f a +:+ str_map f b.
Proof. induction a as [|x a IH]; simpl; [reflexivity|]. now rewrite IH. Qed.

Lemma str_map_length f s : String.length (str_map f s) = String.length s.
Proof. induction s as [|x s IH]; simpl; [reflexivity|]. now rewrite IH. Qed.

Lemma lower_ascii_idem c : lower_ascii (lower_ascii c) = lower_ascii c.
Proof. destruct c as [[] [] [] [] [] [] [] []]; reflexivity. Qed.

Lemma to_lower_idem s : to_lower (to_lower s) = to_lower s.
Proof.
  unfold to_lower. induction s as [|c s IH]; simpl; [reflexivity|].
  now rewrite lower_ascii_idem, IH.
Qed.

Lemma digit_val_of d : 0 <= d < 10 -> digit_val (digit_of d) = Some d.
Proof.
  intros H.
  assert (Hd : d = 0 \/ d = 1 \/ d = 2 \/ d = 3 \/ d = 4 \/ d = 5 \/ d = 6 \/ d = 7 \/ d = 8 \/ d = 9) by lia.
  destruct Hd as [-> | [-> | [-> | [-> | [-> | [-> | [-> | [-> | [-> | ->]]]]]]]]]; reflexivity.
Qed.

Lemma parse_digits_app acc a b :
  parse_digits acc (a +:+ b) =
  match parse_digits acc a with Some v => parse_digits v b | None => None end.
Proof.
  revert acc. induction a as [|c a IH]; intros acc; simpl; [reflexivity|].
  destruct (digit_val c); [apply IH|reflexivity].
Qed.

Lemma parse_fmt_digits fuel n :
  0 <= n < 2 ^ Z.of_nat fuel -> parse_digits 0 (fmt_digits fuel n) = Some n.
Proof.
  revert n. induction fuel as [|f IH]; intros n Hn; [cbn; f_equal; simpl in Hn; lia|].
  cbn [fmt_digits]. destruct (n <? 10) eqn:E; breflect.
  - cbn [parse_digits]. rewrite digit_val_of by lia. f_equal; lia.
  - rewrite parse_digits_app, IH.
    + cbn [parse_digits]. rewrite digit_val_of by (apply Z.mod_pos_bound; lia).
      f_equal. pose proof (Z.div_mod n 10). lia.
    + rewrite Nat2Z.inj_succ, Z.pow_succ_r in Hn by lia.
      split; [apply Z.div_pos; lia|]. apply Z.div_lt_upper_bound; lia.
Qed.

Lemma fmt_digits_head fuel n :
  0 <= n < 2 ^ Z.of_nat fuel -> fuel <> O ->
  exists d s, fmt_digits fuel n = String (digit_of d) s /\ 0 <= d < 10.
Proof.
  revert n. induction fuel as [|f IH]; intros n Hn Hf; [congruence|].
  cbn [fmt_digits]. destruct (n <? 10) eqn:E; breflect.
  - exists n, EmptyString. split; [reflexivity|lia].
  - rewrite Nat2Z.inj_succ, Z.pow_succ_r in Hn by lia.
    assert (Hq : 1 <= n / 10 < 2 ^ Z.of_nat f)
      by (split; [apply Z.div_le_lower_bound; lia | apply Z.div_lt_upper_bound; lia]).
    assert (f <> O) by (intros ->; simpl in Hq; lia).
    destruct (IH (n / 10) ltac:(lia) ltac:(assumption)) as (d & s & -> & Hd).
    exists d, (s +:+ String (digit_of (n mod 10)) EmptyString). split; [reflexivity|lia].
Qed.

Lemma digit_of_not_sign d :
  0 <= d < 10 -> Ascii.eqb (digit_of d) "-" = false /\ Ascii.eqb (digit_of d) "+" = false /\ Ascii.eqb (digit_of d) ":" = false.
Proof.
  intros H.
  assert (Hd : d = 0 \/ d = 1 \/ d = 2 \/ d = 3 \/ d = 4 \/ d = 5 \/ d = 6 \/ d = 7 \/ d = 8 \/ d = 9) by lia.
  destruct Hd as [-> | [-> | [-> | [-> | [-> | [-> | [-> | [-> | [-> | ->]]]]]]]]]; repeat split; reflexivity.
Qed.

Lemma fmt_digits_no_colon fuel n : 0 <= n -> contains_byte ":" (fmt_digits fuel n) = false.
Proof.
  revert n. induction fuel as [|f IH]; intros n Hn; [reflexivity|].
  cbn [fmt_digits]. destruct (n <? 10) eqn:E; breflect.
  - rewrite contains_byte_cons. destruct (digit_of_not_sign n) as (_ & _ & ->); [lia|reflexivity].
  - rewrite contains_byte_app, IH by (apply Z.div_pos; lia).
    rewrite contains_byte_cons.
    destruct (digit_of_not_sign (n mod 10)) as (_ & _ & ->); [apply Z.mod_pos_bound; lia|reflexivity].
Qed.

Lemma log2_fuel n : 0 <= n -> 0 <= n < 2 ^ Z.of_nat (S (Z.to_nat (Z.log2 n))).
Proof.
  intros H. split; [lia|]. rewrite Nat2Z.inj_succ, Z2Nat.id by apply Z.log2_nonneg.
  destruct (Z.eq_dec n 0) as [->|]; [reflexivity|]. apply Z.log2_spec. lia.
Qed.

Lemma fmt_int_no_colon z : contains_byte ":" (fmt_int z) = false.
Proof.
  unfold fmt_int. destruct (z <? 0) eqn:E; breflect.
  - rewrite contains_byte_cons. rewrite fmt_digits_no_colon by lia. reflexivity.
  - apply fmt_digits_no_colon. lia.
Qed.

Lemma int64_guard z : in_int64 z -> (min_int64 <=? z) && (z <=? max_int64) = true.
Proof. unfold in_int64. intros H. apply andb_true_iff. rewrite !Z.leb_le. lia. Qed.

(** Printing an [int64] in decimal and parsing it gives it back. *)
Lemma parse_fmt_int z : in_int64 z -> parse_int (fmt_int z) = Some z.
Proof.
  intros Hz. unfold parse_int, fmt_int.
  destruct (z <? 0) eqn:E; breflect.
  - rewrite Ascii.eqb_refl.
    destruct (fmt_digits_head _ (- z) (log2_fuel (- z) ltac:(lia)) ltac:(discriminate)) as (d & s & Hs & Hd).
    pose proof (parse_fmt_digits _ (- z) (log2_fuel (- z) ltac:(lia))) as Hp.
    rewrite Hs in Hp |- *. unfold parse_nonempty_digits. rewrite Hp. simpl option_map.
    rewrite Z.opp_involutive. now rewrite int64_guard.
  - destruct (fmt_digits_head _ z (log2_fuel z ltac:(lia)) ltac:(discriminate)) as (d & s & Hs & Hd).
    pose proof (parse_fmt_digits _ z (log2_fuel z ltac:(lia))) as Hp.
    rewrite Hs in Hp |- *. destruct (digit_of_not_sign d Hd) as (-> & -> & _).
    unfold parse_nonempty_digits. rewrite Hp. now rewrite int64_guard.
Qed.

(** [SplitN] in front of the separators. *)
Lemma splitn_step n c a b :
  contains_byte c a = false ->
  splitn (S (S n)) c (a +:+ String c b) = a :: splitn (S n) c b.
Proof.
  intros H. cbn [splitn]. rewrite index_byte_app by assumption.
  now rewrite str_take_app, str_drop_app_S.
Qed.

Lemma splitn_none n c s : contains_byte c s = false -> splitn (S n) c s = [s].
Proof.
  intros H. apply index_byte_None in H. cbn [splitn]. rewrite H. now destruct n.
Qed.

Create HintDb gostr discriminated.
Create Rewrite HintDb gostr_rw.
#[export] Hint Rewrite str_app_assoc str_take_app str_drop_app str_drop_app_S : gostr_rw.
#[export] Hint Resolve fmt_int_no_colon : gostr.
