(* ===== verification/Utf8.v ===== *)
(** * UTF-8 as Go's [unicode/utf8], [strings] and [bytes] packages read it

    A byte string is cut into chunks: a well-formed encoding of a rune, or one
    byte that does not start one.  Case mapping, space trimming and replacement of
    invalid bytes are functions on chunks, as Go defines them on runes.  The
    lower-case table of the Unicode Character Database is the class
    [UnicodeCase]; on ASCII it is not consulted. *)

From S2P Require Import Prelude GoStrings.
From Stdlib Require Import ZArith Lia Bool Ascii String.
From stdpp Require Import base list strings.

Open Scope string_scope.
Open Scope Z_scope.

Definition byte_val (c : ascii) : Z := Z.of_N (N_of_ascii c).
Definition byte_chr (z : Z) : ascii := ascii_of_N (Z.to_N z).

Lemma byte_val_range c : 0 <= byte_val c < 256.
Proof. unfold byte_val. pose proof (N_ascii_bounded c). lia. Qed.

Lemma byte_chr_val z : 0 <= z < 256 -> byte_val (byte_chr z) = z.
Proof. intros H. unfold byte_val, byte_chr. rewrite N_ascii_embedding; lia. Qed.

Lemma byte_val_chr c : byte_chr (byte_val c) = c.
Proof. unfold byte_val, byte_chr. now rewrite N2Z.id, ascii_N_embedding. Qed.

(** ** Chunks *)

Inductive chunk :=
| Rune (r : Z) (bytes : string)
| Bad (c : ascii).

Definition in_range (lo hi : Z) (c : ascii) : bool := (lo <=? byte_val c) && (byte_val c <=? hi).
Definition is_cont : ascii -> bool := in_range 128 191.

(** The range of the second byte after each first byte of a longer encoding:
    utf8's table of accept ranges. *)
Definition second2 (c0 c1 : ascii) : bool := in_range 194 223 c0 && is_cont c1.
Definition second3 (c0 c1 : ascii) : bool :=
  if byte_val c0 =? 224 then in_range 160 191 c1
  else if byte_val c0 =? 237 then in_range 128 159 c1
  else in_range 225 239 c0 && is_cont c1.
Definition second4 (c0 c1 : ascii) : bool :=
  if byte_val c0 =? 240 then in_range 144 191 c1
  else if byte_val c0 =? 244 then in_range 128 143 c1
  else in_range 241 243 c0 && is_cont c1.

Definition low6 (c : ascii) : Z := Z.land (byte_val c) 63.
Definition rune2 (c0 c1 : ascii) : Z := Z.land (byte_val c0) 31 * 64 + low6 c1.
Definition rune3 (c0 c1 c2 : ascii) : Z := (Z.land (byte_val c0) 15 * 64 + low6 c1) * 64 + low6 c2.
Definition rune4 (c0 c1 c2 c3 : ascii) : Z := ((Z.land (byte_val c0) 7 * 64 + low6 c1) * 64 + low6 c2) * 64 + low6 c3.

Definition str2 (a b : ascii) : string := String a (String b "").
Definition str3 (a b c : ascii) : string := String a (str2 b c).
Definition str4 (a b c d : ascii) : string := String a (str3 b c d).

(** [utf8.DecodeRune] iterated. *)
Fixpoint chunks (s : string) : list chunk :=
  match s with
  | EmptyString => []
  | String c0 s0 =>
      if byte_val c0 <? 128 then Rune (byte_val c0) (String c0 "") :: chunks s0
      else match s0 with
           | String c1 s1 =>
               if second2 c0 c1 then Rune (rune2 c0 c1) (str2 c0 c1) :: chunks s1
               else match s1 with
                    | String c2 s2 =>
                        if second3 c0 c1 && is_cont c2 then Rune (rune3 c0 c1 c2) (str3 c0 c1 c2) :: chunks s2
                        else match s2 with
                             | String c3 s3 =>
                                 if second4 c0 c1 && is_cont c2 && is_cont c3
                                 then Rune (rune4 c0 c1 c2 c3) (str4 c0 c1 c2 c3) :: chunks s3
                                 else Bad c0 :: chunks s0
                             | EmptyString => Bad c0 :: chunks s0
                             end
                    | EmptyString => Bad c0 :: chunks s0
                    end
           | EmptyString => Bad c0 :: chunks s0
           end
  end.

Definition chunk_bytes (k : chunk) : string := match k with Rune _ b => b | Bad c => String c "" end.
Definition is_rune (k : chunk) : bool := match k with Rune _ _ => true | Bad _ => false end.
Definition str_concat (l : list string) : string := fold_right String.append "" l.

(** [utf8.ValidString] *)
Definition valid_utf8 (s : string) : bool := forallb is_rune (chunks s).

Definition is_ascii_byte (c : ascii) : bool := byte_val c <? 128.
Fixpoint is_ascii (s : string) : bool :=
  match s with EmptyString => true | String c s' => is_ascii_byte c && is_ascii s' end.

(** ** Encoding *)

Definition rune_error : Z := 65533.
Definition rune_error_str : string := String "239" (String "191" (String "189" "")).

(** [utf8.AppendRune] *)
Definition encode_rune (r : Z) : string :=
  if (r <? 0) || (1114111 <? r) || ((55296 <=? r) && (r <=? 57343)) then rune_error_str
  else if r <? 128 then String (byte_chr r) ""
  else if r <? 2048 then str2 (byte_chr (192 + r / 64)) (byte_chr (128 + r mod 64))
  else if r <? 65536 then str3 (byte_chr (224 + r / 4096)) (byte_chr (128 + r / 64 mod 64)) (byte_chr (128 + r mod 64))
  else str4 (byte_chr (240 + r / 262144)) (byte_chr (128 + r / 4096 mod 64)) (byte_chr (128 + r / 64 mod 64)) (byte_chr (128 + r mod 64)).

Definition chunk_rune (k : chunk) : Z := match k with Rune r _ => r | Bad _ => rune_error end.

(** [strings.Map] and [bytes.Map]: a negative rune is dropped. *)
Definition map_runes (f : Z -> Z) (s : string) : string :=
  str_concat (map (fun k => let r := f (chunk_rune k) in if r <? 0 then "" else encode_rune r) (chunks s)).

Class UnicodeCase := { lower_rune : Z -> Z }.

Definition unicode_to_lower `{UnicodeCase} (r : Z) : Z :=
  if r <? 128 then (if (65 <=? r) && (r <=? 90) then r + 32 else r) else lower_rune r.

(** [strings.ToLower] and [bytes.ToLower] *)
Definition to_lower_u `{UnicodeCase} (s : string) : string :=
  if is_ascii s then to_lower s else map_runes unicode_to_lower s.

(** [strings.ToValidUTF8]: each run of invalid bytes becomes one replacement. *)
Fixpoint replace_bad (rep : string) (in_run : bool) (l : list chunk) : string :=
  match l with
  | [] => ""
  | Rune _ b :: l' => b ++ replace_bad rep false l'
  | Bad _ :: l' => (if in_run then "" else rep) ++ replace_bad rep true l'
  end.

Definition to_valid_utf8 (rep s : string) : string := replace_bad rep false (chunks s).

(** ** Spaces *)

(** [unicode.IsSpace] *)
Definition unicode_is_space (r : Z) : bool :=
  ((9 <=? r) && (r <=? 13)) || (r =? 32) || (r =? 133) || (r =? 160) || (r =? 5760) ||
  ((8192 <=? r) && (r <=? 8202)) || (r =? 8232) || (r =? 8233) || (r =? 8239) || (r =? 8287) || (r =? 12288).

Definition chunk_space (k : chunk) : bool := match k with Rune r _ => unicode_is_space r | Bad _ => false end.

Fixpoint drop_while {A} (f : A -> bool) (l : list A) : list A :=
  match l with x :: l' => if f x then drop_while f l' else l | [] => [] end.

(** [strings.TrimSpace] and [bytes.TrimSpace] *)
Definition trim_space_u (s : string) : string :=
  str_concat (map chunk_bytes (rev (drop_while chunk_space (rev (drop_while chunk_space (chunks s)))))).

(** ** Lemmas *)

(** Induction along the chunks: each case of [chunks] consumes a non-empty prefix. *)
Lemma chunks_cases s :
  s = "" \/ exists k s', s = chunk_bytes k +:+ s' /\ chunks s = k :: chunks s' /\ (String.length s' < String.length s)%nat.
Proof.
  destruct s as [|c0 s0]; [now left|right]. cbn [chunks].
  destruct (byte_val c0 <? 128); [now exists (Rune (byte_val c0) (String c0 "")), s0; cbn; auto with arith|].
  assert (exists k s', String c0 s0 = chunk_bytes k +:+ s' /\ Bad c0 :: chunks s0 = k :: chunks s' /\
    (String.length s' < String.length (String c0 s0))%nat) as Hbad by (exists (Bad c0), s0; cbn; auto with arith).
  destruct s0 as [|c1 s1]; [exact Hbad|].
  destruct (second2 c0 c1); [exists (Rune (rune2 c0 c1) (str2 c0 c1)), s1; repeat split; cbn; lia|].
  destruct s1 as [|c2 s2]; [exact Hbad|].
  destruct (second3 c0 c1 && is_cont c2); [exists (Rune (rune3 c0 c1 c2) (str3 c0 c1 c2)), s2; repeat split; cbn; lia|].
  destruct s2 as [|c3 s3]; [exact Hbad|].
  destruct (second4 c0 c1 && is_cont c2 && is_cont c3); [|exact Hbad].
  exists (Rune (rune4 c0 c1 c2 c3) (str4 c0 c1 c2 c3)), s3. repeat split; cbn; lia.
Qed.

Lemma chunks_ind (P : string -> Prop) :
  P "" -> (forall k s s', s = chunk_bytes k +:+ s' -> chunks s = k :: chunks s' -> P s' -> P s) -> forall s, P s.
Proof.
  intros H0 HS s. remember (String.length s) as n eqn:En. revert s En.
  induction n as [n IH] using lt_wf_ind. intros s ->.
  destruct (chunks_cases s) as [->|(k & s' & E & Ec & Hl)]; [exact H0|].
  apply (HS k s s' E Ec). now apply (IH (String.length s')).
Qed.

(** The chunks make up the string. *)
Lemma chunks_join s : str_concat (map chunk_bytes (chunks s)) = s.
Proof. induction s as [|k s s' E Ec IH] using chunks_ind; [reflexivity|]. rewrite Ec.
  change (chunk_bytes k +:+ str_concat (map chunk_bytes (chunks s')) = s). now rewrite IH. Qed.

Lemma str_length_app a b : String.length (a +:+ b) = (String.length a + String.length b)%nat.
Proof. induction a as [|c a IH]; [reflexivity|]. change (S (String.length (a +:+ b)) = S (String.length a) + String.length b)%nat. lia. Qed.

Lemma is_ascii_app a b : is_ascii (a +:+ b) = is_ascii a && is_ascii b.
Proof. induction a as [|c a IH]; [reflexivity|]. change (is_ascii_byte c && is_ascii (a +:+ b) = is_ascii_byte c && is_ascii a && is_ascii b). now rewrite IH, andb_assoc. Qed.

(** On ASCII a chunk is a byte, and spaces and case are those of GoStrings. *)
Lemma chunks_ascii s : is_ascii s = true -> chunks s = map (fun c => Rune (byte_val c) (String c "")) (list_ascii_of_string s).
Proof.
  induction s as [|c s IH]; [reflexivity|]. cbn [is_ascii]. intros [Hc Hs]%andb_true_iff.
  cbn [chunks]. unfold is_ascii_byte in Hc. rewrite Hc. cbn. now rewrite IH.
Qed.

Lemma chunk_bytes_ascii_rune k s s' : s = chunk_bytes k +:+ s' -> chunks s = k :: chunks s' ->
  is_ascii (chunk_bytes k) = true -> is_rune k = true.
Proof.
  intros E Ec Hk. destruct k as [|c]; [reflexivity|]. cbn in *. subst s. exfalso.
  rewrite andb_true_r in Hk. unfold is_ascii_byte in Hk. change (String c "" +:+ s') with (String c s') in Ec.
  cbn [chunks] in Ec. rewrite Hk in Ec. discriminate.
Qed.

(** ** Validity *)

(** A rune that was read once is read again whatever follows it. *)
Lemma chunks_rune_app r b s l t :
  chunks s = Rune r b :: l -> chunks (b +:+ t) = Rune r b :: chunks t.
Proof.
  destruct s as [|c0 s0]; [discriminate|]. cbn [chunks].
  destruct (byte_val c0 <? 128) eqn:E0.
  { intros [= <- <- _]. change (String c0 "" +:+ t) with (String c0 t). cbn [chunks]. now rewrite E0. }
  destruct s0 as [|c1 s1]; [discriminate|]. destruct (second2 c0 c1) eqn:E2.
  { intros [= <- <- _]. change (str2 c0 c1 +:+ t) with (String c0 (String c1 t)). cbn [chunks]. now rewrite E0, E2. }
  destruct s1 as [|c2 s2]; [discriminate|]. destruct (second3 c0 c1 && is_cont c2) eqn:E3.
  { intros [= <- <- _]. change (str3 c0 c1 c2 +:+ t) with (String c0 (String c1 (String c2 t))). cbn [chunks]. now rewrite E0, E2, E3. }
  destruct s2 as [|c3 s3]; [discriminate|]. destruct (second4 c0 c1 && is_cont c2 && is_cont c3) eqn:E4; [|discriminate].
  intros [= <- <- _]. change (str4 c0 c1 c2 c3 +:+ t) with (String c0 (String c1 (String c2 (String c3 t)))).
  cbn [chunks]. now rewrite E0, E2, E3, E4.
Qed.

Lemma valid_utf8_app a b : valid_utf8 a = true -> chunks (a +:+ b) = (chunks a ++ chunks b)%list.
Proof.
  unfold valid_utf8. induction a as [|k s s' E Ec IH] using chunks_ind; [reflexivity|].
  rewrite Ec. cbn [forallb app]. intros [Hk Hs]%andb_true_iff. destruct k as [r bs|]; [|discriminate].
  rewrite E. cbn [chunk_bytes]. rewrite str_app_assoc, (chunks_rune_app r bs s _ _ Ec). now rewrite IH.
Qed.

Lemma valid_app a b : valid_utf8 a = true -> valid_utf8 b = true -> valid_utf8 (a +:+ b) = true.
Proof. intros Ha Hb. unfold valid_utf8 in *. rewrite valid_utf8_app by exact Ha. now rewrite forallb_app, Ha, Hb. Qed.

(** Replacing the invalid bytes by a valid string gives a valid string. *)
Lemma replace_bad_valid rep s : valid_utf8 rep = true -> forall run, valid_utf8 (replace_bad rep run (chunks s)) = true.
Proof.
  intros Hrep. induction s as [|k s s' E Ec IH] using chunks_ind; intros run; [reflexivity|].
  rewrite Ec. destruct k as [r bs|c]; cbn [replace_bad].
  - apply valid_app; [|apply IH]. unfold valid_utf8.
    pose proof (chunks_rune_app r bs s _ "" Ec) as Hc. rewrite str_app_nil_r in Hc. now rewrite Hc.
  - apply valid_app; [now destruct run|apply IH].
Qed.

Lemma to_valid_utf8_valid rep s : valid_utf8 rep = true -> valid_utf8 (to_valid_utf8 rep s) = true.
Proof. intros H. now apply replace_bad_valid. Qed.

Lemma is_ascii_valid s : is_ascii s = true -> valid_utf8 s = true.
Proof. intros H. unfold valid_utf8. rewrite chunks_ascii by exact H. now induction (list_ascii_of_string s). Qed.

(** The encoding of a rune is read back, so mapping runes gives valid strings. *)
Lemma byte_chr_range lo hi z : 0 <= lo -> hi < 256 -> lo <= z <= hi -> in_range lo hi (byte_chr z) = true.
Proof. intros Hl Hh Hz. unfold in_range. rewrite byte_chr_val by lia. apply andb_true_iff. split; apply Z.leb_le; lia. Qed.

Lemma cont_chr z : is_cont (byte_chr (128 + z mod 64)) = true.
Proof. pose proof (Z.mod_pos_bound z 64). apply byte_chr_range; lia. Qed.

Lemma encode_rune_valid r : valid_utf8 (encode_rune r) = true.
Proof.
  unfold encode_rune. destruct ((r <? 0) || (1114111 <? r) || _) eqn:E; [reflexivity|]. breflect.
  destruct (r <? 128) eqn:E1; [|destruct (r <? 2048) eqn:E2; [|destruct (r <? 65536) eqn:E3]]; breflect;
    unfold valid_utf8, str4, str3, str2; cbn [chunks].
  - rewrite byte_chr_val by lia. apply Z.ltb_lt in E1. now rewrite E1.
  - assert (2 <= r / 64 < 32) by (split; [apply Z.div_le_lower_bound|apply Z.div_lt_upper_bound]; lia).
    unfold second2. rewrite !cont_chr, byte_chr_range by lia. rewrite byte_chr_val by lia.
    destruct (Z.ltb_spec (192 + r / 64) 128); [lia|reflexivity].
  - assert (0 <= r / 4096 < 16) by (split; [apply Z.div_le_lower_bound|apply Z.div_lt_upper_bound]; lia).
    assert (r / 64 / 64 = r / 4096) as Hd by (rewrite Z.div_div by lia; reflexivity).
    pose proof (Z.div_mod (r / 64) 64 ltac:(lia)) as Hq. pose proof (Z.mod_pos_bound (r / 64) 64 ltac:(lia)).
    pose proof (Z.div_mod r 64 ltac:(lia)) as Hr. pose proof (Z.mod_pos_bound r 64 ltac:(lia)). rewrite Hd in Hq.
    rewrite byte_chr_val by lia. destruct (Z.ltb_spec (224 + r / 4096) 128); [lia|].
    assert (second2 (byte_chr (224 + r / 4096)) (byte_chr (128 + r / 64 mod 64)) = false) as ->.
    { unfold second2, in_range at 1. rewrite byte_chr_val by lia. destruct (Z.leb_spec (224 + r / 4096) 223); [lia|]. now rewrite andb_false_r. }
    rewrite cont_chr, andb_true_r. unfold second3. rewrite byte_chr_val by lia.
    destruct (Z.eqb_spec (224 + r / 4096) 224); [rewrite byte_chr_range by lia; reflexivity|].
    destruct (Z.eqb_spec (224 + r / 4096) 237); [rewrite byte_chr_range by lia; reflexivity|].
    rewrite cont_chr, byte_chr_range by lia. reflexivity.
  - assert (0 <= r / 262144 < 5) by (split; [apply Z.div_le_lower_bound|apply Z.div_lt_upper_bound]; lia).
    assert (r / 4096 / 64 = r / 262144) as Hd by (rewrite Z.div_div by lia; reflexivity).
    pose proof (Z.div_mod (r / 4096) 64 ltac:(lia)) as Hq. pose proof (Z.mod_pos_bound (r / 4096) 64 ltac:(lia)). rewrite Hd in Hq.
    pose proof (Z.div_mod r 4096 ltac:(lia)) as Hr. pose proof (Z.mod_pos_bound r 4096 ltac:(lia)).
    rewrite byte_chr_val by lia. destruct (Z.ltb_spec (240 + r / 262144) 128); [lia|].
    assert (second2 (byte_chr (240 + r / 262144)) (byte_chr (128 + r / 4096 mod 64)) = false) as ->.
    { unfold second2, in_range at 1. rewrite byte_chr_val by lia. destruct (Z.leb_spec (240 + r / 262144) 223); [lia|]. now rewrite andb_false_r. }
    assert (second3 (byte_chr (240 + r / 262144)) (byte_chr (128 + r / 4096 mod 64)) = false) as ->.
    { unfold second3. rewrite byte_chr_val by lia. destruct (Z.eqb_spec (240 + r / 262144) 224); [lia|].
      destruct (Z.eqb_spec (240 + r / 262144) 237); [lia|]. unfold in_range at 1. rewrite byte_chr_val by lia.
      destruct (Z.leb_spec (240 + r / 262144) 239); [lia|]. now rewrite andb_false_r. }
    rewrite !cont_chr, !andb_true_r. cbn [andb]. unfold second4. rewrite byte_chr_val by lia.
    destruct (Z.eqb_spec (240 + r / 262144) 240); [rewrite byte_chr_range by lia; reflexivity|].
    destruct (Z.eqb_spec (240 + r / 262144) 244); [rewrite byte_chr_range by lia; reflexivity|].
    rewrite cont_chr, byte_chr_range by lia. reflexivity.
Qed.

Lemma map_runes_valid f s : valid_utf8 (map_runes f s) = true.
Proof.
  unfold map_runes. induction (chunks s) as [|k l IH]; [reflexivity|].
  change (str_concat (map ?g (k :: l))) with (g k +:+ str_concat (map g l)). apply valid_app; [|exact IH].
  cbv zeta. case_if; [reflexivity|apply encode_rune_valid].
Qed.

Lemma lower_ascii_is_ascii c : is_ascii_byte (lower_ascii c) = is_ascii_byte c.
Proof. destruct c as [[] [] [] [] [] [] [] []]; reflexivity. Qed.

Lemma to_lower_is_ascii s : is_ascii (to_lower s) = is_ascii s.
Proof. induction s as [|c s IH]; [reflexivity|]. cbn. now rewrite lower_ascii_is_ascii, IH. Qed.

Lemma to_lower_u_valid `{UnicodeCase} s : valid_utf8 (to_lower_u s) = true.
Proof.
  unfold to_lower_u. destruct (is_ascii s) eqn:E; [|apply map_runes_valid].
  apply is_ascii_valid. now rewrite to_lower_is_ascii.
Qed.

(** *** Truncation of a valid string *)

Lemma str_take_app_ge n a b : (String.length a <= n)%nat -> str_take n (a +:+ b) = a +:+ str_take (n - String.length a) b.
Proof.
  revert a. induction n as [|n IH]; intros [|c a] H; cbn in H; try lia; [now destruct b|now destruct b|].
  change (String c a +:+ b) with (String c (a +:+ b)). cbn [str_take String.length Nat.sub].
  rewrite IH by lia. reflexivity.
Qed.

Lemma str_take_app_lt n a b : (n < String.length a)%nat -> str_take n (a +:+ b) = str_take n a.
Proof.
  revert a. induction n as [|n IH]; intros [|c a] H; cbn in H; try lia; [reflexivity|].
  change (String c a +:+ b) with (String c (a +:+ b)). cbn [str_take]. rewrite IH by lia. reflexivity.
Qed.

Lemma str_take_length n s : (String.length (str_take n s) <= n)%nat.
Proof. revert s. induction n as [|n IH]; intros [|c s]; cbn; try lia. specialize (IH s). lia. Qed.

Definition is_bad (k : chunk) : bool := negb (is_rune k).

Lemma second3_cont c0 c1 : second3 c0 c1 = true -> is_cont c1 = true.
Proof. unfold second3, is_cont, in_range. intros H. repeat case_match; breflect; apply andb_true_iff; split; apply Z.leb_le; lia. Qed.
Lemma second4_cont c0 c1 : second4 c0 c1 = true -> is_cont c1 = true.
Proof. unfold second4, is_cont, in_range. intros H. repeat case_match; breflect; apply andb_true_iff; split; apply Z.leb_le; lia. Qed.

(** A continuation byte starts no rune. *)
Lemma cont_bad c s : is_cont c = true -> chunks (String c s) = Bad c :: chunks s.
Proof.
  unfold is_cont, in_range. intros H. breflect. cbn [chunks].
  destruct (Z.ltb_spec (byte_val c) 128); [lia|]. destruct s as [|c1 s1]; [reflexivity|].
  assert (second2 c c1 = false) as ->.
  { unfold second2, in_range at 1. destruct (Z.leb_spec 194 (byte_val c)); [lia|reflexivity]. }
  destruct s1 as [|c2 s2]; [reflexivity|].
  assert (second3 c c1 = false) as ->.
  { unfold second3, in_range. destruct (Z.eqb_spec (byte_val c) 224); [lia|]. destruct (Z.eqb_spec (byte_val c) 237); [lia|].
    destruct (Z.leb_spec 225 (byte_val c)); [lia|reflexivity]. }
  destruct s2 as [|c3 s3]; [reflexivity|].
  assert (second4 c c1 = false) as ->; [|reflexivity].
  unfold second4, in_range. destruct (Z.eqb_spec (byte_val c) 240); [lia|]. destruct (Z.eqb_spec (byte_val c) 244); [lia|].
  destruct (Z.leb_spec 241 (byte_val c)); [lia|reflexivity].
Qed.

Lemma chunks_two c0 c1 : (byte_val c0 <? 128) = false -> second2 c0 c1 = false ->
  chunks (String c0 (String c1 "")) = Bad c0 :: chunks (String c1 "").
Proof.
  intros E0 E2. change (chunks (String c0 (String c1 ""))) with
    (if byte_val c0 <? 128 then Rune (byte_val c0) (String c0 "") :: chunks (String c1 "")
     else if second2 c0 c1 then Rune (rune2 c0 c1) (str2 c0 c1) :: chunks "" else Bad c0 :: chunks (String c1 "")).
  now rewrite E0, E2.
Qed.

(** A proper prefix of one encoding is made of bad bytes. *)
Lemma rune_prefix_bad r b s l n :
  chunks s = Rune r b :: l -> (n < String.length b)%nat -> forallb is_bad (chunks (str_take n b)) = true.
Proof.
  destruct s as [|c0 s0]; [discriminate|]. cbn [chunks].
  destruct (byte_val c0 <? 128) eqn:E0.
  { intros [= <- <- _] Hn. cbn in Hn. now replace n with O by lia. }
  destruct s0 as [|c1 s1]; [discriminate|]. destruct (second2 c0 c1) eqn:E2.
  { intros [= <- <- _] Hn. cbn in Hn. destruct n as [|n]; [reflexivity|]. replace n with O by lia. cbn. now rewrite E0. }
  destruct s1 as [|c2 s2]; [discriminate|]. destruct (second3 c0 c1 && is_cont c2) eqn:E3.
  { intros [= <- <- _] Hn. cbn in Hn. apply andb_true_iff in E3 as [Es3 _]. pose proof (second3_cont _ _ Es3) as Hc1.
    destruct n as [|[|n]]; [reflexivity|cbn; now rewrite E0|]. replace n with O by lia.
    cbn [str_take str3 str2]. rewrite (chunks_two c0 c1 E0 E2), (cont_bad c1 "" Hc1). reflexivity. }
  destruct s2 as [|c3 s3]; [discriminate|]. destruct (second4 c0 c1 && is_cont c2 && is_cont c3) eqn:E4; [|discriminate].
  intros [= <- <- _] Hn. cbn in Hn. apply andb_true_iff in E4 as [[Es4 Hc2]%andb_true_iff _].
  pose proof (second4_cont _ _ Es4) as Hc1.
  destruct n as [|[|[|n]]]; [reflexivity|cbn; now rewrite E0| |].
  - cbn [str_take str4 str3 str2]. rewrite (chunks_two c0 c1 E0 E2), (cont_bad c1 "" Hc1). reflexivity.
  - replace n with O by lia. cbn [str_take str4 str3 str2].
    change (chunks (String c0 (String c1 (String c2 "")))) with
      (if byte_val c0 <? 128 then Rune (byte_val c0) (String c0 "") :: chunks (String c1 (String c2 ""))
       else if second2 c0 c1 then Rune (rune2 c0 c1) (str2 c0 c1) :: chunks (String c2 "")
       else if second3 c0 c1 && is_cont c2 then Rune (rune3 c0 c1 c2) (str3 c0 c1 c2) :: chunks ""
       else Bad c0 :: chunks (String c1 (String c2 ""))).
    rewrite E0, E2, E3, (cont_bad c1 _ Hc1), (cont_bad c2 _ Hc2). reflexivity.
Qed.

(** A truncated valid string is runes followed by bad bytes. *)
Lemma truncated_chunks s : valid_utf8 s = true -> forall n,
  exists l bads, chunks (str_take n s) = (l ++ bads)%list /\ forallb is_rune l = true /\ forallb is_bad bads = true.
Proof.
  unfold valid_utf8. induction s as [|k s s' E Ec IH] using chunks_ind; intros Hv n.
  { exists [], []. now destruct n. }
  rewrite Ec in Hv. cbn in Hv. apply andb_true_iff in Hv as [Hk Hs]. destruct k as [r b|]; [|discriminate].
  cbn [chunk_bytes] in E. destruct (Nat.ltb_spec n (String.length b)) as [Hn|Hn].
  - exists [], (chunks (str_take n s)). repeat split. rewrite E, str_take_app_lt by exact Hn.
    exact (rune_prefix_bad r b s _ n Ec Hn).
  - destruct (IH Hs (n - String.length b)%nat) as (l & bads & El & Hl & Hb). exists (Rune r b :: l), bads.
    rewrite E, str_take_app_ge by exact Hn. rewrite (chunks_rune_app r b s _ _ Ec), El. now repeat split.
Qed.

Lemma replace_bad_bads rep bads : forallb is_bad bads = true -> replace_bad rep true bads = "".
Proof. induction bads as [|[] l IH]; cbn; auto; discriminate. Qed.

Lemma replace_bad_runes rep l bads : forallb is_rune l = true -> forall run, forallb is_bad bads = true ->
  replace_bad rep run (l ++ bads) = str_concat (map chunk_bytes l) +:+ replace_bad rep (if l is [] then run else false) bads.
Proof.
  induction l as [|[r b|] l IH]; intros Hl run Hb; [reflexivity| |discriminate].
  cbn [app replace_bad]. rewrite IH by assumption.
  change (str_concat (map chunk_bytes (Rune r b :: l))) with (b +:+ str_concat (map chunk_bytes l)). rewrite str_app_assoc. now destruct l.
Qed.

Lemma join_app l1 l2 : str_concat (l1 ++ l2)%list = str_concat l1 +:+ str_concat l2.
Proof. induction l1 as [|x l IH]; [reflexivity|]. change (x +:+ str_concat (l ++ l2)%list = (x +:+ str_concat l) +:+ str_concat l2). now rewrite IH, str_app_assoc. Qed.

(** Repairing a truncated valid string can add two bytes, and no more. *)
Lemma repaired_length s n : valid_utf8 s = true ->
  (String.length (to_valid_utf8 rune_error_str (str_take n s)) <= n + 2)%nat.
Proof.
  intros Hv. destruct (truncated_chunks s Hv n) as (l & bads & El & Hl & Hb).
  unfold to_valid_utf8. rewrite El, replace_bad_runes by assumption. rewrite str_length_app.
  pose proof (chunks_join (str_take n s)) as Hj. rewrite El, map_app, join_app in Hj.
  pose proof (str_take_length n s) as Hn. rewrite <- Hj, str_length_app in Hn.
  destruct bads as [|[r b|c] bads]; [cbn [replace_bad map]; change (String.length "") with 0%nat; lia|discriminate|].
  cbn in Hb. cbn [replace_bad]. rewrite str_length_app.
  change (str_concat (map chunk_bytes (Bad c :: bads))) with (String c "" +:+ str_concat (map chunk_bytes bads)) in Hn.
  rewrite str_length_app in Hn. rewrite replace_bad_bads by exact Hb. change (String.length (String c "")) with 1%nat in Hn.
  assert (String.length (if match l with [] => false | _ => false end then "" else rune_error_str) = 3)%nat by now destruct l.
  change (String.length "") with 0%nat. lia.
Qed.

(** ** Encoding is the inverse of decoding *)

Lemma in_range_spec lo hi c : in_range lo hi c = true -> lo <= byte_val c <= hi.
Proof. unfold in_range. intros H. breflect. lia. Qed.

Lemma cont_low6 c : is_cont c = true -> byte_chr (128 + low6 c) = c /\ 0 <= low6 c < 64.
Proof. destruct c as [[] [] [] [] [] [] [] []]; cbv; intros H; try discriminate H; repeat split; discriminate. Qed.

Lemma lead2 c : in_range 194 223 c = true -> byte_chr (192 + Z.land (byte_val c) 31) = c /\ 2 <= Z.land (byte_val c) 31 < 32.
Proof. destruct c as [[] [] [] [] [] [] [] []]; cbv; intros H; try discriminate H; repeat split; discriminate. Qed.

Lemma lead3 c : in_range 224 239 c = true -> byte_chr (224 + Z.land (byte_val c) 15) = c /\ 0 <= Z.land (byte_val c) 15 < 16 /\ Z.land (byte_val c) 15 = byte_val c - 224.
Proof. destruct c as [[] [] [] [] [] [] [] []]; cbv; intros H; try discriminate H; repeat split; discriminate. Qed.

Lemma lead4 c : in_range 240 244 c = true -> byte_chr (240 + Z.land (byte_val c) 7) = c /\ 0 <= Z.land (byte_val c) 7 < 8 /\ Z.land (byte_val c) 7 = byte_val c - 240.
Proof. destruct c as [[] [] [] [] [] [] [] []]; cbv; intros H; try discriminate H; repeat split; discriminate. Qed.

Lemma low6_ge c lo : in_range lo 191 c = true -> 128 <= lo -> lo - 128 <= low6 c.
Proof.
  intros H Hlo. apply in_range_spec in H. destruct (cont_low6 c) as [E Hr].
  - unfold is_cont, in_range. apply andb_true_iff. split; apply Z.leb_le; lia.
  - assert (byte_val c = 128 + low6 c) as Hv by (rewrite <- E at 1; apply byte_chr_val; lia). lia.
Qed.

Lemma low6_le c hi : in_range 128 hi c = true -> hi <= 191 -> low6 c <= hi - 128.
Proof.
  intros H Hhi. apply in_range_spec in H. destruct (cont_low6 c) as [E Hr].
  - unfold is_cont, in_range. apply andb_true_iff. split; apply Z.leb_le; lia.
  - assert (byte_val c = 128 + low6 c) as Hv by (rewrite <- E at 1; apply byte_chr_val; lia). lia.
Qed.

Lemma divmod64 q x : 0 <= x < 64 -> (q * 64 + x) / 64 = q /\ (q * 64 + x) mod 64 = x.
Proof. intros H. split; [symmetry; apply (Z.div_unique _ _ _ x); lia|symmetry; apply (Z.mod_unique _ _ q); lia]. Qed.

Lemma encode_rune2 c0 c1 : second2 c0 c1 = true -> encode_rune (rune2 c0 c1) = str2 c0 c1.
Proof.
  unfold second2. intros [H0 H1]%andb_true_iff. destruct (lead2 c0 H0) as [E0 R0], (cont_low6 c1 H1) as [E1 R1].
  unfold rune2. set (a := Z.land (byte_val c0) 31) in *. set (x := low6 c1) in *.
  destruct (divmod64 a x R1) as [D1 M1]. unfold encode_rune.
  destruct (Z.ltb_spec (a * 64 + x) 0); [lia|]. destruct (Z.ltb_spec 1114111 (a * 64 + x)); [lia|].
  destruct (Z.leb_spec 55296 (a * 64 + x)); [lia|]. cbn [orb andb].
  destruct (Z.ltb_spec (a * 64 + x) 128); [lia|]. destruct (Z.ltb_spec (a * 64 + x) 2048); [|lia].
  now rewrite D1, M1, E0, E1.
Qed.

Lemma second3_lead c0 c1 : second3 c0 c1 = true -> in_range 224 239 c0 = true.
Proof.
  unfold second3. destruct (Z.eqb_spec (byte_val c0) 224) as [E|]; [intros _; unfold in_range; now rewrite E|].
  destruct (Z.eqb_spec (byte_val c0) 237) as [E|]; [intros _; unfold in_range; now rewrite E|].
  intros [H _]%andb_true_iff. apply in_range_spec in H. unfold in_range. apply andb_true_iff. split; apply Z.leb_le; lia.
Qed.

Lemma second4_lead c0 c1 : second4 c0 c1 = true -> in_range 240 244 c0 = true.
Proof.
  unfold second4. destruct (Z.eqb_spec (byte_val c0) 240) as [E|]; [intros _; unfold in_range; now rewrite E|].
  destruct (Z.eqb_spec (byte_val c0) 244) as [E|]; [intros _; unfold in_range; now rewrite E|].
  intros [H _]%andb_true_iff. apply in_range_spec in H. unfold in_range. apply andb_true_iff. split; apply Z.leb_le; lia.
Qed.

Lemma encode_rune3 c0 c1 c2 : second3 c0 c1 = true -> is_cont c2 = true -> encode_rune (rune3 c0 c1 c2) = str3 c0 c1 c2.
Proof.
  intros H01 H2. pose proof (second3_cont c0 c1 H01) as H1. destruct (lead3 c0 (second3_lead c0 c1 H01)) as (E0 & R0 & V0).
  destruct (cont_low6 c1 H1) as [E1 R1], (cont_low6 c2 H2) as [E2 R2].
  assert (Z.land (byte_val c0) 15 = 0 -> 32 <= low6 c1) as Hlo.
  { intros Hz. unfold second3 in H01. rewrite V0 in Hz. replace (byte_val c0) with 224 in H01 by lia. cbn in H01. now apply (low6_ge c1 160). }
  assert (Z.land (byte_val c0) 15 = 13 -> low6 c1 <= 31) as Hhi.
  { intros Hz. unfold second3 in H01. rewrite V0 in Hz. replace (byte_val c0) with 237 in H01 by lia. cbn in H01. now apply (low6_le c1 159). }
  unfold rune3. set (a := Z.land (byte_val c0) 15) in *. set (x := low6 c1) in *. set (y := low6 c2) in *.
  destruct (divmod64 a x R1) as [D1 M1], (divmod64 (a * 64 + x) y R2) as [D2 M2].
  assert (((a * 64 + x) * 64 + y) / 4096 = a) as D3 by (change 4096 with (64 * 64); rewrite <- Z.div_div, D2 by lia; exact D1).
  unfold encode_rune. set (r := (a * 64 + x) * 64 + y) in *.
  destruct (Z.ltb_spec r 0); [lia|]. destruct (Z.ltb_spec 1114111 r); [lia|].
  assert ((55296 <=? r) && (r <=? 57343) = false) as ->.
  { destruct (Z.leb_spec 55296 r), (Z.leb_spec r 57343); try reflexivity. exfalso. lia. }
  cbn [orb]. destruct (Z.ltb_spec r 128); [lia|]. destruct (Z.ltb_spec r 2048); [lia|]. destruct (Z.ltb_spec r 65536); [|lia].
  now rewrite D3, D2, M1, M2, E0, E1, E2.
Qed.

Lemma encode_rune4 c0 c1 c2 c3 : second4 c0 c1 = true -> is_cont c2 = true -> is_cont c3 = true ->
  encode_rune (rune4 c0 c1 c2 c3) = str4 c0 c1 c2 c3.
Proof.
  intros H01 H2 H3. pose proof (second4_cont c0 c1 H01) as H1. destruct (lead4 c0 (second4_lead c0 c1 H01)) as (E0 & R0 & V0).
  destruct (cont_low6 c1 H1) as [E1 R1], (cont_low6 c2 H2) as [E2 R2], (cont_low6 c3 H3) as [E3 R3].
  assert (Z.land (byte_val c0) 7 = 0 -> 16 <= low6 c1) as Hlo.
  { intros Hz. unfold second4 in H01. rewrite V0 in Hz. replace (byte_val c0) with 240 in H01 by lia. cbn in H01. now apply (low6_ge c1 144). }
  assert (Z.land (byte_val c0) 7 <= 4 /\ (Z.land (byte_val c0) 7 = 4 -> low6 c1 <= 15)) as [Hle Hhi].
  { pose proof (in_range_spec _ _ _ (second4_lead c0 c1 H01)). split; [lia|]. intros Hz. unfold second4 in H01. rewrite V0 in Hz.
    replace (byte_val c0) with 244 in H01 by lia. cbn in H01. now apply (low6_le c1 143). }
  unfold rune4. set (a := Z.land (byte_val c0) 7) in *. set (x := low6 c1) in *. set (y := low6 c2) in *. set (z := low6 c3) in *.
  destruct (divmod64 a x R1) as [D1 M1], (divmod64 (a * 64 + x) y R2) as [D2 M2], (divmod64 ((a * 64 + x) * 64 + y) z R3) as [D3 M3].
  set (r := ((a * 64 + x) * 64 + y) * 64 + z) in *.
  assert (r / 4096 = a * 64 + x) as D4 by (change 4096 with (64 * 64); rewrite <- Z.div_div, D3 by lia; exact D2).
  assert (r / 262144 = a) as D5 by (change 262144 with (4096 * 64); rewrite <- Z.div_div, D4 by lia; exact D1).
  unfold encode_rune. destruct (Z.ltb_spec r 0); [lia|]. destruct (Z.ltb_spec 1114111 r); [lia|].
  destruct (Z.leb_spec 55296 r); [|lia]. destruct (Z.leb_spec r 57343); [lia|]. cbn [orb andb].
  destruct (Z.ltb_spec r 128); [lia|]. destruct (Z.ltb_spec r 2048); [lia|]. destruct (Z.ltb_spec r 65536); [lia|].
  now rewrite D5, D4, D3, M1, M2, M3, E0, E1, E2, E3.
Qed.

Lemma encode_decoded r b s l : chunks s = Rune r b :: l -> encode_rune r = b.
Proof.
  destruct s as [|c0 s0]; [discriminate|]. cbn [chunks]. destruct (byte_val c0 <? 128) eqn:E0.
  { intros [= <- <- _]. unfold encode_rune. pose proof (byte_val_range c0). breflect.
    destruct (Z.ltb_spec (byte_val c0) 0); [lia|]. destruct (Z.ltb_spec 1114111 (byte_val c0)); [lia|].
    destruct (Z.leb_spec 55296 (byte_val c0)); [lia|]. cbn [orb andb]. destruct (Z.ltb_spec (byte_val c0) 128); [|lia]. now rewrite byte_val_chr. }
  destruct s0 as [|c1 s1]; [discriminate|]. destruct (second2 c0 c1) eqn:E2; [intros [= <- <- _]; now apply encode_rune2|].
  destruct s1 as [|c2 s2]; [discriminate|]. destruct (second3 c0 c1 && is_cont c2) eqn:E3.
  { intros [= <- <- _]. apply andb_true_iff in E3 as [? ?]. now apply encode_rune3. }
  destruct s2 as [|c3 s3]; [discriminate|]. destruct (second4 c0 c1 && is_cont c2 && is_cont c3) eqn:E4; [|discriminate].
  intros [= <- <- _]. apply andb_true_iff in E4 as [[? ?]%andb_true_iff ?]. now apply encode_rune4.
Qed.

(** The chunks of a string, as runes with their encodings. *)
Lemma chunks_encoded s : Forall (fun k => match k with Rune r b => encode_rune r = b | Bad _ => True end) (chunks s).
Proof.
  induction s as [|k s s' E Ec IH] using chunks_ind; [constructor|]. rewrite Ec. constructor; [|exact IH].
  destruct k as [r b|]; [|exact I]. now apply (encode_decoded r b s (chunks s')).
Qed.

(** Text written with single quotes for the double quotes of JSON. *)
Definition dq (s : string) : string := str_map (fun c => if Ascii.eqb c "'" then "034" else c)%char s.
