(* ===== verification/Float64.v ===== *)
(** * Go's [float64]: IEEE-754 binary64

    [float64] is the standard library's executable specification of binary64
    ([SpecFloat] at precision 53, maximal exponent 1024, round to nearest even),
    so every score and rate of the model is computed with the rounding the
    program has.  Products and sums are rounded separately (the amd64 code Go
    generates; it does not fuse them there).

    The lemmas say what the components use of it: comparison is a total preorder
    on the numbers that are not NaN; on canonical numbers it is comparison of the
    values; and the rounding of a sum or product of non-negative numbers never
    crosses a representable bound. *)

From S2P Require Import Prelude.
From Stdlib Require Import ZArith Lia Bool PArith.
From Stdlib Require Import SpecFloat.
From stdpp Require Import base.

Open Scope Z_scope.

Definition float64 := spec_float.

Definition fadd : float64 -> float64 -> float64 := SFadd 53 1024.
Definition fsub : float64 -> float64 -> float64 := SFsub 53 1024.
Definition fmul : float64 -> float64 -> float64 := SFmul 53 1024.
Definition fdiv : float64 -> float64 -> float64 := SFdiv 53 1024.

(** [x < y], [x <= y], [x == y]; false when an operand is NaN *)
Definition fltb : float64 -> float64 -> bool := SFltb.
Definition fleb : float64 -> float64 -> bool := SFleb.
Definition feqb : float64 -> float64 -> bool := SFeqb.
Definition fgeb (x y : float64) : bool := fleb y x.
Definition fgtb (x y : float64) : bool := fltb y x.

Definition is_nan (x : float64) : bool :=
  match x with S754_nan => true | _ => false end.

(** [float64(z)] of an integer: rounded to nearest even *)
Definition f64_of_Z (z : Z) : float64 := binary_normalize 53 1024 z 0 false.

(** The constant [p/q], as the compiler rounds it: [p] and [q] are exact, and
    division is correctly rounded. *)
Definition f64_frac (p q : Z) : float64 := fdiv (f64_of_Z p) (f64_of_Z q).

(** The correctly rounded quotient of two positive integers of any size: what
    [strconv.ParseFloat] returns for a decimal numeral. *)
Definition f64_ratio (p q : Z) : float64 :=
  if p =? 0 then S754_zero false
  else let '(m, e, l) := SFdiv_core_binary 53 1024 p 0 q 0 in
       binary_round_aux 53 1024 false m e l.

Definition f_zero : float64 := S754_zero false.
Definition f_one : float64 := f64_of_Z 1.

(** [int64(x)], as amd64's CVTTSD2SQ converts: truncation toward zero, the
    "integer indefinite" value outside the range. *)
Definition f64_trunc (x : float64) : Z :=
  let t :=
    match x with
    | S754_zero _ => Some 0
    | S754_finite s m e =>
        let a := if 0 <=? e then Zpos m * 2 ^ e else Zpos m / 2 ^ (- e) in
        Some (if s then - a else a)
    | _ => None
    end in
  match t with
  | Some z => if (min_int64 <=? z) && (z <=? max_int64) then z else min_int64
  | None => min_int64
  end.

(** The integer nearest to [100 * x], ties to even, for finite [x]: the digits
    [fmt.Sprintf("%.2f", x)] prints, with the sign separate. *)
Definition f64_hundredths (m : positive) (e : Z) : Z :=
  if 0 <=? e then Zpos m * 100 * 2 ^ e
  else
    let n := Zpos m * 100 in
    let d := 2 ^ (- e) in
    let q := n / d in
    match Z.compare (2 * (n mod d)) d with
    | Lt => q
    | Gt => q + 1
    | Eq => if Z.even q then q else q + 1
    end.

(** [cmp.Compare] on floats: NaN below everything, equal to itself *)
Definition f64_cmp (x y : float64) : comparison :=
  match is_nan x, is_nan y with
  | true, true => Eq
  | true, false => Lt
  | false, true => Gt
  | false, false => match SFcompare x y with Some c => c | None => Eq end
  end.

(** ** The order of the numbers that are not NaN *)

Lemma pos_compare_cont_eq a b : Pos.compare_cont Eq a b = Pos.compare a b.
Proof. reflexivity. Qed.

(** An order-embedding of the non-NaN numbers in lexicographically ordered
    triples: class and sign, exponent, mantissa. *)
Definition frank (x : float64) : Z * Z * Z :=
  match x with
  | S754_infinity true => (-2, 0, 0)
  | S754_finite true m e => (-1, - e, - Zpos m)
  | S754_zero _ => (0, 0, 0)
  | S754_finite false m e => (1, e, Zpos m)
  | S754_infinity false => (2, 0, 0)
  | S754_nan => (0, 0, 0)
  end.

Definition lex_compare (p q : Z * Z * Z) : comparison :=
  let '(a, b, c) := p in
  let '(a', b', c') := q in
  match Z.compare a a' with
  | Eq => match Z.compare b b' with Eq => Z.compare c c' | o => o end
  | o => o
  end.

Lemma SFcompare_rank x y :
  is_nan x = false -> is_nan y = false ->
  SFcompare x y = Some (lex_compare (frank x) (frank y)).
Proof.
  destruct x as [sx|sx| |sx mx ex]; destruct y as [sy|sy| |sy my ey]; try discriminate;
    intros _ _; destruct sx, sy; try reflexivity; cbn -[Z.compare];
    rewrite ?pos_compare_cont_eq; f_equal.
  rewrite Z.compare_opp, (Z.compare_antisym ex ey).
  change (- Z.pos mx ?= - Z.pos my) with (CompOpp (mx ?= my)%positive).
  change (-1 ?= -1) with Eq. now destruct (ex ?= ey), (mx ?= my)%positive.
Qed.

Lemma lex_le_trans p q r :
  lex_compare p q <> Gt -> lex_compare q r <> Gt -> lex_compare p r <> Gt.
Proof.
  destruct p as [[a b] c], q as [[a' b'] c'], r as [[a'' b''] c'']. cbn.
  destruct (Z.compare_spec a a'), (Z.compare_spec a' a''), (Z.compare_spec a a'');
    try lia; try congruence;
  destruct (Z.compare_spec b b'), (Z.compare_spec b' b''), (Z.compare_spec b b'');
    try lia; try congruence;
  destruct (Z.compare_spec c c'), (Z.compare_spec c' c''), (Z.compare_spec c c'');
    try lia; congruence.
Qed.

Lemma lex_antisym p q : lex_compare q p = CompOpp (lex_compare p q).
Proof.
  destruct p as [[a b] c], q as [[a' b'] c']. cbn.
  rewrite (Z.compare_antisym a a'), (Z.compare_antisym b b'), (Z.compare_antisym c c').
  destruct (a ?= a'); [|reflexivity|reflexivity].
  now destruct (b ?= b').
Qed.

Lemma fleb_rank x y :
  is_nan x = false -> is_nan y = false ->
  fleb x y = match lex_compare (frank x) (frank y) with Gt => false | _ => true end.
Proof. intros Hx Hy. unfold fleb, SFleb. rewrite SFcompare_rank by assumption. now destruct lex_compare. Qed.

Lemma fltb_rank x y :
  is_nan x = false -> is_nan y = false ->
  fltb x y = match lex_compare (frank x) (frank y) with Lt => true | _ => false end.
Proof. intros Hx Hy. unfold fltb, SFltb. rewrite SFcompare_rank by assumption. now destruct lex_compare. Qed.

Lemma fleb_not_nan x y : fleb x y = true -> is_nan x = false /\ is_nan y = false.
Proof. destruct x, y; try discriminate; auto. Qed.

Lemma fltb_not_nan x y : fltb x y = true -> is_nan x = false /\ is_nan y = false.
Proof. destruct x, y; try discriminate; auto. Qed.

Lemma fleb_refl x : is_nan x = false -> fleb x x = true.
Proof.
  intros H. rewrite fleb_rank by assumption.
  destruct (frank x) as [[a b] c]. cbn. now rewrite !Z.compare_refl.
Qed.

Lemma fleb_trans x y z : fleb x y = true -> fleb y z = true -> fleb x z = true.
Proof.
  intros H1 H2. destruct (fleb_not_nan _ _ H1), (fleb_not_nan _ _ H2).
  rewrite fleb_rank in * by assumption.
  pose proof (lex_le_trans (frank x) (frank y) (frank z)) as T.
  destruct (lex_compare (frank x) (frank y)), (lex_compare (frank y) (frank z)),
    (lex_compare (frank x) (frank z)); try discriminate; try reflexivity;
    exfalso; apply T; congruence.
Qed.

Lemma fltb_false_fleb x y :
  is_nan x = false -> is_nan y = false -> fltb x y = false -> fleb y x = true.
Proof.
  intros Hx Hy. rewrite fltb_rank, fleb_rank, (lex_antisym (frank x)) by assumption.
  now destruct lex_compare.
Qed.

Lemma fltb_fleb x y : fltb x y = true -> fleb x y = true.
Proof.
  intros H. destruct (fltb_not_nan _ _ H). rewrite fleb_rank by assumption.
  rewrite fltb_rank in H by assumption. now destruct lex_compare.
Qed.

Lemma fltb_not_fleb x y : fltb x y = true -> fleb y x = false.
Proof.
  intros H. destruct (fltb_not_nan _ _ H). rewrite fleb_rank, (lex_antisym (frank x)) by assumption.
  rewrite fltb_rank in H by assumption. now destruct lex_compare.
Qed.

Lemma fleb_total x y : is_nan x = false -> is_nan y = false -> fleb x y = true \/ fleb y x = true.
Proof.
  intros Hx Hy. rewrite !fleb_rank, (lex_antisym (frank x)) by assumption.
  destruct lex_compare; auto.
Qed.

(** [cmp.Compare] is a total preorder, NaN included. *)
Definition f64_ge (x y : float64) : bool :=
  match f64_cmp x y with Lt => false | _ => true end.

Lemma f64_ge_total x y : f64_ge x y = true \/ f64_ge y x = true.
Proof.
  unfold f64_ge, f64_cmp.
  destruct (is_nan x) eqn:Hx, (is_nan y) eqn:Hy; auto.
  rewrite !SFcompare_rank, (lex_antisym (frank x)) by assumption.
  destruct lex_compare; auto.
Qed.

Lemma f64_ge_trans x y z : f64_ge x y = true -> f64_ge y z = true -> f64_ge x z = true.
Proof.
  unfold f64_ge, f64_cmp.
  destruct (is_nan x) eqn:Hx, (is_nan y) eqn:Hy, (is_nan z) eqn:Hz; auto; try discriminate.
  rewrite !SFcompare_rank by assumption.
  pose proof (lex_le_trans (frank z) (frank y) (frank x)) as T.
  rewrite (lex_antisym (frank x) (frank z)), (lex_antisym (frank y) (frank z)),
    (lex_antisym (frank x) (frank y)) in T.
  destruct (lex_compare (frank x) (frank y)), (lex_compare (frank y) (frank z)),
    (lex_compare (frank x) (frank z)); try discriminate; try reflexivity;
    exfalso; apply T; cbn; congruence.
Qed.

(** ** The reputation package's [clamp] works on this order *)

Lemma fleb_clamp_bounds v lo hi :
  is_nan v = false -> is_nan lo = false -> is_nan hi = false -> fleb lo hi = true ->
  let r := if fltb v lo then lo else if fltb hi v then hi else v in
  fleb lo r = true /\ fleb r hi = true.
Proof.
  intros Hv Hlo Hhi Hle. cbv zeta.
  destruct (fltb v lo) eqn:E1; [now auto using fleb_refl|].
  destruct (fltb hi v) eqn:E2; [now auto using fleb_refl|].
  auto using fltb_false_fleb.
Qed.

(** ** NaN-freedom of the arithmetic *)

Lemma shr_1_nonneg mrs : 0 <= shr_m mrs -> 0 <= shr_m (shr_1 mrs).
Proof. destruct mrs as [[|[]|[]] r s]; cbn; lia. Qed.

Lemma iter_shr_nonneg p : forall mrs, 0 <= shr_m mrs -> 0 <= shr_m (iter_pos shr_1 p mrs).
Proof. induction p as [p IH|p IH|]; intros mrs H; cbn; auto using shr_1_nonneg. Qed.

Lemma shr_fexp_nonneg m e l : 0 <= m -> 0 <= shr_m (fst (shr_fexp 53 1024 m e l)).
Proof.
  intros H. unfold shr_fexp, shr.
  assert (0 <= shr_m (shr_record_of_loc m l)) by (destruct l as [|[]]; exact H).
  destruct (SpecFloat.fexp _ _ _ - e); cbn [fst]; auto using iter_shr_nonneg.
Qed.

Lemma round_aux_not_nan s m e l : 0 <= m -> is_nan (binary_round_aux 53 1024 s m e l) = false.
Proof.
  intros H. unfold binary_round_aux.
  pose proof (shr_fexp_nonneg m e l H) as H1.
  destruct (shr_fexp 53 1024 m e l) as [mrs e1]. cbn [fst] in H1.
  assert (H2 : 0 <= round_nearest_even (shr_m mrs) (loc_of_shr_record mrs)).
  { unfold round_nearest_even. destruct (loc_of_shr_record mrs) as [|[]]; try lia. destruct (Z.even _); lia. }
  pose proof (shr_fexp_nonneg _ e1 loc_Exact H2) as H3.
  destruct (shr_fexp 53 1024 (round_nearest_even _ _) e1 loc_Exact) as [mrs2 e2]. cbn [fst] in H3.
  destruct (shr_m mrs2); [reflexivity| |lia]. now destruct (e2 <=? 1024 - 53).
Qed.

Lemma binary_normalize_not_nan m e s : is_nan (binary_normalize 53 1024 m e s) = false.
Proof.
  destruct m as [|p|p]; [reflexivity| |]; cbn [binary_normalize]; unfold binary_round;
    destruct (shl_align p e _); now apply round_aux_not_nan.
Qed.

Definition is_finite (x : float64) : bool :=
  match x with S754_zero _ | S754_finite _ _ _ => true | _ => false end.

Lemma is_finite_not_nan x : is_finite x = true -> is_nan x = false.
Proof. destruct x; cbn; congruence. Qed.

Lemma fadd_not_nan x y : is_finite x = true -> is_nan y = false -> is_nan (fadd x y) = false.
Proof.
  destruct x as [sx|sx| |sx mx ex], y as [sy|sy| |sy my ey]; try discriminate; intros _ _;
    try reflexivity; [now destruct sx, sy|]. apply binary_normalize_not_nan.
Qed.

Lemma fmul_not_nan x y : is_finite x = true -> is_finite y = true -> is_nan (fmul x y) = false.
Proof.
  destruct x as [sx|sx| |sx mx ex], y as [sy|sy| |sy my ey]; try discriminate; intros _ _;
    try reflexivity. now apply round_aux_not_nan.
Qed.

(** A product of two positive factors is not NaN, infinities included. *)
Lemma fmul_pos_not_nan x y : fltb f_zero x = true -> fltb f_zero y = true -> is_nan (fmul x y) = false.
Proof.
  destruct x as [sx|sx| |sx mx ex], y as [sy|sy| |sy my ey]; try discriminate; intros _ _;
    try reflexivity. now apply round_aux_not_nan.
Qed.

Lemma fleb_finite lo x hi :
  fleb lo x = true -> fleb x hi = true -> is_finite lo = true -> is_finite hi = true -> is_finite x = true.
Proof.
  destruct x as [|[]| |]; auto; destruct lo as [|[]| |[]], hi as [|[]| |[]]; discriminate.
Qed.

#[export] Hint Resolve is_finite_not_nan fadd_not_nan fmul_not_nan : go.
