(* ===== verification/GoSort.v ===== *)
(** * Sorting: the two sorts of package sort the gateway calls

    [sort.SliceStable] is insertion from the right, which is stable; its result
    is the only stable one.  [sort.Slice] promises no order between equal
    elements, so it is the class [SliceSort]: a function, and what the package
    documents of it for a strict weak order. *)

From S2P Require Import Prelude GoStrings Float64.
From Stdlib Require Import ZArith Lia Bool Ascii String SpecFloat.
From stdpp Require Import sorting base list.

Open Scope Z_scope.

(** The [less] argument both functions ask for: a strict weak ordering. *)
Record weak_order {A} (less : A -> A -> bool) : Prop := {
  wo_asym : forall x y, less x y = true -> less y x = false;
  wo_trans : forall x y z, less x y = false -> less y z = false -> less x z = false;
}.

(** No element is less than one before it. *)
Definition sorted_by {A} (less : A -> A -> bool) : list A -> Prop :=
  StronglySorted (fun x y => less y x = false).

Class SliceSort := slice_sort : forall {A : Type}, (A -> A -> bool) -> list A -> list A.

Class SliceSortLaws `{SliceSort} : Prop := {
  slice_sort_perm : forall A (less : A -> A -> bool) l, slice_sort less l ≡ₚ l;
  slice_sort_sorted : forall A (less : A -> A -> bool) l, weak_order less -> sorted_by less (slice_sort less l);
}.

Section Stable.
Context {A : Type}.
Implicit Types (less : A -> A -> bool) (l : list A).

(** Insert before the first element that is not less than [x]: an equal element
    of the list, which came after [x], stays after it. *)
Fixpoint insert_by less (x : A) l : list A :=
  match l with
  | [] => [x]
  | y :: l' => if less y x then y :: insert_by less x l' else x :: l
  end.

Definition slice_stable less l : list A := fold_right (insert_by less) [] l.

Lemma insert_by_perm less x l : insert_by less x l ≡ₚ x :: l.
Proof.
  induction l as [|y l IH]; [reflexivity|]. cbn. destruct (less y x); [|reflexivity].
  rewrite IH. apply Permutation_swap.
Qed.

Lemma slice_stable_perm less l : slice_stable less l ≡ₚ l.
Proof. induction l as [|x l IH]; [reflexivity|]. cbn. now rewrite insert_by_perm, IH. Qed.

Lemma insert_by_sorted less x l : weak_order less -> sorted_by less l -> sorted_by less (insert_by less x l).
Proof.
  intros W. induction 1 as [|y l Hs IH Hy]; cbn.
  - repeat constructor.
  - destruct (less y x) eqn:E.
    + constructor; [exact IH|]. rewrite insert_by_perm. constructor; [now apply (wo_asym _ W)|exact Hy].
    + constructor; [now constructor|]. constructor; [exact E|].
      eapply Forall_impl; [exact Hy|]. cbn. intros z Hz. now apply (wo_trans _ W) with y.
Qed.

Lemma slice_stable_sorted less l : weak_order less -> sorted_by less (slice_stable less l).
Proof. intros W. induction l; cbn; [constructor|now apply insert_by_sorted]. Qed.

(** A prefix of a sorted list is not worse than any element left out. *)
Lemma sorted_take_drop less l n x y :
  sorted_by less l -> In x (take n l) -> In y (drop n l) -> less y x = false.
Proof.
  intros Hs. revert n. induction Hs as [|z l Hs IH Hz]; intros [|n]; cbn; try tauto.
  intros [->|Hx] Hy; [|eauto].
  rewrite Forall_forall in Hz. apply Hz, list_elem_of_In.
  rewrite <- (take_drop n l). apply in_or_app. now right.
Qed.
End Stable.

(** An order by an integer key is a weak order, in both directions. *)
Lemma weak_order_key {A} (key : A -> Z) : weak_order (fun x y => key x <? key y).
Proof. split; intros; breflect; [apply Z.ltb_ge|apply Z.ltb_ge]; lia. Qed.

Lemma weak_order_key_desc {A} (key : A -> Z) : weak_order (fun x y => key y <? key x).
Proof. split; intros; breflect; [apply Z.ltb_ge|apply Z.ltb_ge]; lia. Qed.

(** Two sorted lists of integers with the same elements are equal, so on
    integers the unstable sort is as determined as the stable one. *)
Lemma sorted_Z_unique (l1 l2 : list Z) :
  sorted_by Z.ltb l1 -> sorted_by Z.ltb l2 -> l1 ≡ₚ l2 -> l1 = l2.
Proof.
  intros H1. revert l2. induction H1 as [|x l1 Hs IH Hx]; intros l2 H2 HP.
  - symmetry. now apply Permutation_nil.
  - destruct H2 as [|y l2 Hs2 Hy]; [now apply Permutation_sym, Permutation_nil in HP|].
    assert (x = y) as ->.
    { assert (In y (x :: l1)) as Iy by (rewrite HP; now left).
      assert (In x (y :: l2)) as Ix by (rewrite <- HP; now left).
      rewrite Forall_forall in Hx, Hy.
      destruct Iy as [|Iy]; [assumption|]. destruct Ix as [|Ix]; [now symmetry|].
      apply list_elem_of_In in Iy, Ix. apply Hx in Iy. apply Hy in Ix. breflect. lia. }
    f_equal. apply IH; [assumption|]. now apply Permutation_cons_inv in HP.
Qed.

(** The instance used to evaluate the model. *)
#[export] Instance stable_SliceSort : SliceSort | 100 := fun A less l => slice_stable less l.

#[export] Instance stable_SliceSortLaws : @SliceSortLaws stable_SliceSort.
Proof. split; intros; [apply slice_stable_perm|now apply slice_stable_sorted]. Qed.

(** ** Three-way comparisons and the weak orders they give

    A less function of several keys is a strict weak order when each key's comparison is sound:
    comparisons of integers, floats and strings, their inverses and lexicographic combinations. *)

Open Scope Z_scope.

Record good_cmp {A} (cmp : A -> A -> comparison) : Prop := {
  gc_antisym : forall x y, cmp y x = CompOpp (cmp x y);
  gc_trans : forall x y z, cmp x y <> Gt -> cmp y z <> Gt -> cmp x z <> Gt;
}.

Definition cmp_less {A} (cmp : A -> A -> comparison) (x y : A) : bool := match cmp x y with Lt => true | _ => false end.

Lemma weak_order_cmp {A} (cmp : A -> A -> comparison) : good_cmp cmp -> weak_order (cmp_less cmp).
Proof.
  intros [Ha Ht]. unfold cmp_less. split.
  - intros x y. rewrite (Ha x y). by destruct (cmp x y).
  - intros x y z Hxy Hyz. pose proof (Ht z y x) as T. rewrite (Ha y z), (Ha x y), (Ha x z) in T.
    destruct (cmp x y), (cmp y z), (cmp x z); try done; exfalso; by apply T.
Qed.

Definition cmp_on {A B} (f : A -> B) (cmp : B -> B -> comparison) (x y : A) : comparison := cmp (f x) (f y).
Definition cmp_inv {A} (cmp : A -> A -> comparison) (x y : A) : comparison := cmp y x.
Definition cmp_lex {A} (c1 c2 : A -> A -> comparison) (x y : A) : comparison :=
  match c1 x y with Eq => c2 x y | o => o end.

Lemma good_on {A B} (f : A -> B) cmp : good_cmp cmp -> good_cmp (cmp_on f cmp).
Proof. intros [Ha Ht]. split; unfold cmp_on; intros *; [apply Ha|apply Ht]. Qed.

Lemma good_inv {A} (cmp : A -> A -> comparison) : good_cmp cmp -> good_cmp (cmp_inv cmp).
Proof. intros [Ha Ht]. split; unfold cmp_inv; [intros x y; apply Ha|intros x y z H1 H2; by apply (Ht z y x)]. Qed.

Lemma good_lex {A} (c1 c2 : A -> A -> comparison) : good_cmp c1 -> good_cmp c2 -> good_cmp (cmp_lex c1 c2).
Proof.
  intros [Ha1 Ht1] [Ha2 Ht2]. split; unfold cmp_lex.
  - intros x y. rewrite (Ha1 x y), (Ha2 x y). by destruct (c1 x y).
  - intros x y z. pose proof (Ht1 x y z) as T. pose proof (Ht1 z y x) as T'. rewrite (Ha1 y z), (Ha1 x y), (Ha1 x z) in T'.
    pose proof (Ht1 y z x) as U. pose proof (Ht1 z x y) as U'. rewrite (Ha1 x z), (Ha1 x y) in U. rewrite (Ha1 x z), (Ha1 y z) in U'.
    specialize (Ht2 x y z).
    destruct (c1 x y), (c1 y z), (c1 x z); cbn in *; try done; try (by intros; apply Ht2); naive_solver.
Qed.

Lemma good_Z : good_cmp Z.compare.
Proof. split; [intros x y; apply Z.compare_antisym|]. intros x y z. rewrite !Z.compare_gt_iff. lia. Qed.

Lemma good_float : good_cmp (cmp_on frank lex_compare).
Proof. apply good_on. split; [intros x y; apply lex_antisym|apply lex_le_trans]. Qed.

Lemma good_string : good_cmp String.compare.
Proof.
  split; [intros x y; apply String.compare_antisym|].
  intros x. induction x as [|a x IH]; intros [|b y] [|c z]; cbn; try done. unfold Ascii.compare.
  destruct (N.compare_spec (N_of_ascii a) (N_of_ascii b)), (N.compare_spec (N_of_ascii b) (N_of_ascii c)),
    (N.compare_spec (N_of_ascii a) (N_of_ascii c)); try done; try lia. apply IH.
Qed.

(** ** Less functions that test for equality first *)

Lemma feqb_rank x y : is_nan x = false -> is_nan y = false ->
  feqb x y = match lex_compare (frank x) (frank y) with Eq => true | _ => false end.
Proof. intros Hx Hy. unfold feqb, SFeqb. by rewrite SFcompare_rank. Qed.

(** [if a != b { return a > b }] on floats. *)
Lemma float_desc_first {A} (f : A -> float64) (rest : A -> A -> comparison) x y :
  is_nan (f x) = false -> is_nan (f y) = false ->
  (if negb (feqb (f x) (f y)) then fltb (f y) (f x) else cmp_less rest x y) =
  cmp_less (cmp_lex (cmp_inv (cmp_on f (cmp_on frank lex_compare))) rest) x y.
Proof.
  intros Hx Hy. unfold cmp_less, cmp_lex, cmp_inv, cmp_on. rewrite feqb_rank, fltb_rank by done.
  rewrite (lex_antisym (frank (f x)) (frank (f y))). by destruct (lex_compare (frank (f x)) (frank (f y))).
Qed.

Lemma int_desc_first {A} (f : A -> Z) (rest : A -> A -> comparison) x y :
  (if negb (f x =? f y) then f y <? f x else cmp_less rest x y) =
  cmp_less (cmp_lex (cmp_inv (cmp_on f Z.compare)) rest) x y.
Proof.
  unfold cmp_less, cmp_lex, cmp_inv, cmp_on. destruct (Z.compare_spec (f y) (f x)) as [E|E|E].
  - by rewrite (proj2 (Z.eqb_eq _ _)) by lia.
  - rewrite (proj2 (Z.eqb_neq _ _)) by lia. cbn. by apply Z.ltb_lt.
  - rewrite (proj2 (Z.eqb_neq _ _)) by lia. cbn. apply Z.ltb_ge. lia.
Qed.

(** Sorting looks at the elements of the list only. *)
Lemma slice_stable_ext {A} (less less' : A -> A -> bool) l :
  (forall x y, In x l -> In y l -> less x y = less' x y) -> slice_stable less l = slice_stable less' l.
Proof.
  assert (Hins : forall x l, (forall y, In y l -> less y x = less' y x) -> insert_by less x l = insert_by less' x l).
  { intros x l0. induction l0 as [|y l0 IH]; intros Heq; [done|]. cbn. rewrite (Heq y (or_introl eq_refl)).
    destruct (less' y x); [|done]. f_equal. apply IH. intros z Hz. apply Heq. by right. }
  induction l as [|x l IH]; intros Heq; [done|].
  change (slice_stable less (x :: l)) with (insert_by less x (slice_stable less l)).
  change (slice_stable less' (x :: l)) with (insert_by less' x (slice_stable less' l)). rewrite <- IH by (intros; apply Heq; by right).
  apply Hins. intros y Hy. apply Heq; [|by left]. right. revert Hy. apply Permutation_in, slice_stable_perm.
Qed.
