(* ===== verification/Rounding.v ===== *)
(** * Rounding of binary64 sums and products

    [fz x] is the value of a finite [float64] in units of 2^-1074, the smallest
    positive number: every canonical finite number is an integer multiple of it.
    The results of this file bound the rounded sum and product of non-negative
    numbers: if the exact result is at most (at least) a representable number,
    so is the rounded one, and it is again canonical and finite. *)

From S2P Require Import Prelude Float64.
From Stdlib Require Import ZArith Lia Bool PArith.
From Stdlib Require Import SpecFloat.
From stdpp Require Import base.

Open Scope Z_scope.

Abbreviation fexp64 := (SpecFloat.fexp 53 1024).

(** A canonical number ([valid_binary] of the standard library) *)
Definition fvalid (x : float64) : bool := valid_binary 53 1024 x.

(** Non-negative and finite *)
Definition fnonneg (x : float64) : bool :=
  match x with S754_zero false | S754_finite false _ _ => true | _ => false end.

(** Canonical, finite, non-negative: the numbers rates and weights live in. *)
Definition fpos_ok (x : float64) : bool := fnonneg x && fvalid x.

Definition fz (x : float64) : Z :=
  match x with
  | S754_finite s m e => cond_Zopp s (Zpos m) * 2 ^ (e + 1074)
  | _ => 0
  end.

(** ** Digits *)

Lemma digits2_pos_bounds p :
  2 ^ (Zpos (digits2_pos p) - 1) <= Zpos p < 2 ^ Zpos (digits2_pos p).
Proof.
  induction p as [p IH|p IH|]; cbn [digits2_pos]; rewrite ?Pos2Z.inj_succ.
  - rewrite Z.pow_succ_r by lia.
    replace (Z.succ (Z.pos (digits2_pos p)) - 1) with (Z.succ (Z.pos (digits2_pos p) - 1)) by lia.
    rewrite Z.pow_succ_r by lia. lia.
  - rewrite Z.pow_succ_r by lia.
    replace (Z.succ (Z.pos (digits2_pos p)) - 1) with (Z.succ (Z.pos (digits2_pos p) - 1)) by lia.
    rewrite Z.pow_succ_r by lia. lia.
  - cbn. lia.
Qed.

(** The digit count is determined by a power-of-two bracket. *)
Lemma digits2_pos_unique p d :
  0 < d -> 2 ^ (d - 1) <= Zpos p < 2 ^ d -> Zpos (digits2_pos p) = d.
Proof.
  intros Hd Hp. pose proof (digits2_pos_bounds p) as Hb.
  destruct (Z.lt_trichotomy (Z.pos (digits2_pos p)) d) as [H|[H|H]]; [|assumption|].
  - assert (2 ^ Z.pos (digits2_pos p) <= 2 ^ (d - 1)) by (apply Z.pow_le_mono_r; lia). lia.
  - assert (2 ^ d <= 2 ^ (Z.pos (digits2_pos p) - 1)) by (apply Z.pow_le_mono_r; lia). lia.
Qed.

Lemma fexp64_unfold e : fexp64 e = Z.max (e - 53) (-1074).
Proof. unfold SpecFloat.fexp, SpecFloat.emin. lia. Qed.

Lemma bounded_iff m e :
  bounded 53 1024 m e = true <->
  Zpos m < 2 ^ 53 /\ -1074 <= e <= 971 /\ (e = -1074 \/ 2 ^ 52 <= Zpos m).
Proof.
  unfold bounded, canonical_mantissa. rewrite andb_true_iff, Z.eqb_eq, Z.leb_le, fexp64_unfold.
  pose proof (digits2_pos_bounds m) as Hd. split.
  - intros [H1 H2].
    assert (Z.pos (digits2_pos m) <= 53) by lia.
    assert (2 ^ Z.pos (digits2_pos m) <= 2 ^ 53) by (apply Z.pow_le_mono_r; lia).
    repeat split; try lia.
    destruct (Z.eq_dec e (-1074)); [now left|right].
    assert (E : Z.pos (digits2_pos m) = 53) by lia. rewrite E in Hd. exact (proj1 Hd).
  - intros (H1 & H2 & H3).
    assert (Z.pos (digits2_pos m) <= 53).
    { destruct (Z.le_gt_cases (Z.pos (digits2_pos m)) 53); [assumption|].
      assert (2 ^ 53 <= 2 ^ (Z.pos (digits2_pos m) - 1)) by (apply Z.pow_le_mono_r; lia). lia. }
    destruct H3 as [->|H3]; [lia|].
    rewrite (digits2_pos_unique m 53) by lia. lia.
Qed.

(** ** Shifting right with a sticky bit *)

(** [v] shifted right [k] places is the record's mantissa, and the record is
    exact only when nothing was lost. *)
Definition shr_inv (mrs : shr_record) (v k : Z) : Prop :=
  0 <= shr_m mrs /\
  shr_m mrs * 2 ^ k <= v < (shr_m mrs + 1) * 2 ^ k /\
  (shr_r mrs || shr_s mrs = true -> shr_m mrs * 2 ^ k < v).

Lemma shr_1_inv mrs v k : 0 <= k -> shr_inv mrs v k -> shr_inv (shr_1 mrs) v (k + 1).
Proof.
  intros Hk. destruct mrs as [m r s]. unfold shr_inv. cbn [shr_m shr_r shr_s].
  rewrite Z.pow_add_r by lia. change (2 ^ 1) with 2.
  intros (H0 & H1 & H2).
  destruct m as [|[p|p|]|p]; cbn [shr_1 shr_m shr_r shr_s];
    repeat split; try nia; try discriminate;
    intros E; destruct r, s; try discriminate; try specialize (H2 eq_refl); nia.
Qed.

Lemma iter_shr_inv p : forall mrs v k,
  0 <= k -> shr_inv mrs v k -> shr_inv (iter_pos shr_1 p mrs) v (k + Zpos p).
Proof.
  induction p as [p IH|p IH|]; intros mrs v k Hk H; cbn [iter_pos].
  - replace (k + Z.pos p~1) with (((k + 1) + Z.pos p) + Z.pos p) by lia.
    apply IH; [lia|]. apply IH; [lia|]. now apply shr_1_inv.
  - replace (k + Z.pos p~0) with ((k + Z.pos p) + Z.pos p) by lia.
    apply IH; [lia|]. now apply IH.
  - now apply shr_1_inv.
Qed.

Lemma shr_fexp_inv m e :
  0 <= m -> e <= fexp64 (Zdigits2 m + e) ->
  let '(mrs, e') := shr_fexp 53 1024 m e loc_Exact in
  e' = fexp64 (Zdigits2 m + e) /\ shr_inv mrs m (e' - e).
Proof.
  intros Hm He. unfold shr_fexp, shr. cbn [shr_record_of_loc].
  destruct (fexp64 (Zdigits2 m + e) - e) as [|p|p] eqn:E; [| |lia].
  - split; [lia|]. replace (e - e) with 0 by lia. unfold shr_inv. cbn.
    repeat split; try lia; discriminate.
  - split; [lia|]. replace (e + Z.pos p - e) with (0 + Z.pos p) by lia.
    apply iter_shr_inv; [lia|]. unfold shr_inv. cbn.
    repeat split; try lia; discriminate.
Qed.

Lemma round_nearest_even_cases mrs v k :
  shr_inv mrs v k ->
  let r := round_nearest_even (shr_m mrs) (loc_of_shr_record mrs) in
  r = shr_m mrs \/ (r = shr_m mrs + 1 /\ shr_m mrs * 2 ^ k < v).
Proof.
  unfold shr_inv. destruct mrs as [m [] []]; cbn; intros (_ & _ & H); auto.
  destruct (Z.even m); auto.
Qed.

(** ** The rounding function *)

(** What remains once the mantissa is rounded to [mr] at exponent [e1]: a carry
    out of the 53 bits moves the exponent, and too large an exponent overflows. *)
Definition finish (sx : bool) (mr e1 : Z) : float64 :=
  if mr =? 0 then S754_zero sx
  else if mr =? 2 ^ 53 then
    (if e1 + 1 <=? 971 then S754_finite sx (2 ^ 52) (e1 + 1) else S754_infinity sx)
  else (if e1 <=? 971 then S754_finite sx (Z.to_pos mr) e1 else S754_infinity sx).

(** [m1] is the exact value truncated to exponent [e1], [mr] its rounding. *)
Definition rounded (v ex e1 m1 mr : Z) : Prop :=
  0 <= m1 < 2 ^ 53 /\ -1074 <= e1 /\ ex <= e1 /\
  m1 * 2 ^ (e1 - ex) <= v < (m1 + 1) * 2 ^ (e1 - ex) /\
  (mr = m1 \/ (mr = m1 + 1 /\ m1 * 2 ^ (e1 - ex) < v)) /\
  (e1 = -1074 \/ 2 ^ 52 <= m1).

Lemma second_shift mr e1 sx :
  0 <= mr <= 2 ^ 53 -> -1074 <= e1 -> (e1 = -1074 \/ 2 ^ 52 <= mr) ->
  (let '(mrs'', e'') := shr_fexp 53 1024 mr e1 loc_Exact in
   match shr_m mrs'' with
   | Z0 => S754_zero sx
   | Zpos m => if e'' <=? 1024 - 53 then S754_finite sx m e'' else S754_infinity sx
   | Zneg _ => S754_nan
   end) = finish sx mr e1.
Proof.
  intros Hm He Hc. unfold finish.
  destruct (Z.eqb_spec mr 0) as [->|Hn0].
  { unfold shr_fexp, shr. rewrite fexp64_unfold. cbn [Zdigits2 shr_record_of_loc].
    destruct (Z.max (0 + e1 - 53) (-1074) - e1) as [|p|p] eqn:E; try reflexivity. lia. }
  destruct mr as [|p|p]; try lia.
  destruct (Z.eqb_spec (Z.pos p) (2 ^ 53)) as [Hp|Hp].
  - unfold shr_fexp, shr. rewrite fexp64_unfold, Hp.
    replace (Z.max (Zdigits2 (2 ^ 53) + e1 - 53) (-1074) - e1) with 1
      by (change (Zdigits2 (2 ^ 53)) with 54; lia).
    reflexivity.
  - unfold shr_fexp, shr. rewrite fexp64_unfold.
    replace (Z.max (Zdigits2 (Z.pos p) + e1 - 53) (-1074) - e1) with 0; [reflexivity|].
    cbn [Zdigits2]. pose proof (digits2_pos_bounds p) as Hd.
    assert (Z.pos (digits2_pos p) <= 53).
    { destruct (Z.le_gt_cases (Z.pos (digits2_pos p)) 53); [assumption|].
      assert (2 ^ 53 <= 2 ^ (Z.pos (digits2_pos p) - 1)) by (apply Z.pow_le_mono_r; lia). lia. }
    destruct Hc as [->|Hc]; [lia|].
    rewrite (digits2_pos_unique p 53) by lia. lia.
Qed.

Lemma round_aux_spec sx p ex :
  ex <= fexp64 (Zpos (digits2_pos p) + ex) ->
  exists m1 mr, let e1 := fexp64 (Zpos (digits2_pos p) + ex) in
  rounded (Zpos p) ex e1 m1 mr /\
  binary_round_aux 53 1024 sx (Zpos p) ex loc_Exact = finish sx mr e1.
Proof.
  intros Hex. unfold binary_round_aux.
  pose proof (shr_fexp_inv (Z.pos p) ex ltac:(lia) Hex) as Hs.
  destruct (shr_fexp 53 1024 (Z.pos p) ex loc_Exact) as [mrs e1] eqn:E.
  cbn [Zdigits2] in Hs. destruct Hs as [-> Hinv].
  pose proof (round_nearest_even_cases _ _ _ Hinv) as Hr. cbv zeta in Hr.
  set (e1 := fexp64 (Z.pos (digits2_pos p) + ex)) in *.
  set (mr := round_nearest_even (shr_m mrs) (loc_of_shr_record mrs)) in *.
  exists (shr_m mrs), mr. cbv zeta.
  destruct Hinv as (H0 & H1 & _). pose proof (digits2_pos_bounds p) as Hd.
  assert (He1 : e1 = Z.max (Z.pos (digits2_pos p) + ex - 53) (-1074)) by (subst e1; apply fexp64_unfold).
  assert (Hup : shr_m mrs < 2 ^ 53).
  { destruct (Z.lt_ge_cases (shr_m mrs) (2 ^ 53)); [assumption|exfalso].
    assert (2 ^ 53 * 2 ^ (e1 - ex) <= shr_m mrs * 2 ^ (e1 - ex))
      by (apply Z.mul_le_mono_nonneg_r; lia).
    rewrite <- Z.pow_add_r in H2 by lia.
    assert (2 ^ Z.pos (digits2_pos p) <= 2 ^ (53 + (e1 - ex))) by (apply Z.pow_le_mono_r; lia). lia. }
  assert (Hlo : e1 = -1074 \/ 2 ^ 52 <= shr_m mrs).
  { destruct (Z.eq_dec e1 (-1074)); [now left|right].
    assert (E1 : Z.pos (digits2_pos p) - 1 = 52 + (e1 - ex)) by lia.
    rewrite E1, Z.pow_add_r in Hd by lia.
    destruct (Z.lt_ge_cases (shr_m mrs) (2 ^ 52)); [exfalso|lia].
    assert ((shr_m mrs + 1) * 2 ^ (e1 - ex) <= 2 ^ 52 * 2 ^ (e1 - ex))
      by (apply Z.mul_le_mono_nonneg_r; lia). lia. }
  split; [unfold rounded; repeat split; try assumption; lia|].
  apply second_shift; lia.
Qed.

(** ** Rounding does not cross a representable number *)

Lemma pow2_pos a : 0 <= a -> 0 < 2 ^ a.
Proof. intros. apply Z.pow_pos_nonneg; lia. Qed.

(** Rebase a power of two on a smaller exponent. *)
Lemma pow2_rebase a b : 0 <= b <= a -> 2 ^ a = 2 ^ (a - b) * 2 ^ b.
Proof. intros. rewrite <- Z.pow_add_r by lia. f_equal. lia. Qed.

Section Bounds.
Context (v ex e1 m1 mr : Z) (mb : positive) (eb K : Z).
Hypothesis Hr : rounded v ex e1 m1 mr.
Hypothesis Hb : bounded 53 1024 mb eb = true.
Hypothesis HK : 0 <= ex + K /\ 0 <= eb + K.

(** A bound below the exponent of the result is below its leading bit. *)
Lemma small_bound : eb < e1 -> Zpos mb * 2 ^ (eb + K) < 2 ^ 52 * 2 ^ (e1 + K) /\ 2 ^ 52 <= m1.
Proof using Hr Hb HK.
  intros Hlt. apply bounded_iff in Hb as (B1 & B2 & B3).
  destruct Hr as (R1 & R2 & R3 & R4 & R5 & R6).
  split; [|lia].
  rewrite (pow2_rebase (e1 + K) (eb + K + 1)) by lia.
  rewrite (pow2_rebase (eb + K + 1) (eb + K)) by lia.
  replace (eb + K + 1 - (eb + K)) with 1 by lia.
  pose proof (pow2_pos (e1 + K - (eb + K + 1)) ltac:(lia)).
  pose proof (pow2_pos (eb + K) ltac:(lia)).
  assert (Zpos mb * 2 ^ (eb + K) < 2 ^ 53 * 2 ^ (eb + K)) by (apply Z.mul_lt_mono_pos_r; lia).
  nia.
Qed.

(** The exact value against the truncation, at a common scale. *)
Lemma scale_up a : a * 2 ^ (e1 - ex) * 2 ^ (ex + K) = a * 2 ^ (e1 + K).
Proof using Hr HK.
  destruct Hr as (R1 & R2 & R3 & _).
  rewrite (pow2_rebase (e1 + K) (ex + K)) by lia.
  replace (e1 + K - (ex + K)) with (e1 - ex) by lia. lia.
Qed.

Lemma rounded_le : v * 2 ^ (ex + K) <= Zpos mb * 2 ^ (eb + K) ->
  mr * 2 ^ (e1 + K) <= Zpos mb * 2 ^ (eb + K).
Proof using Hr Hb HK.
  intros Hv. pose proof (scale_up m1) as S1.
  pose proof Hr as (R1 & R2 & R3 & R4 & R5 & R6).
  pose proof (pow2_pos (ex + K) ltac:(lia)) as P1.
  pose proof (pow2_pos (e1 + K) ltac:(lia)) as P2.
  assert (Hm1 : m1 * 2 ^ (e1 + K) <= v * 2 ^ (ex + K))
    by (rewrite <- S1; apply Z.mul_le_mono_nonneg_r; lia).
  destruct (Z.lt_ge_cases eb e1) as [Hlt|Hge].
  - destruct (small_bound Hlt) as [Hs Hm].
    assert (2 ^ 52 * 2 ^ (e1 + K) <= m1 * 2 ^ (e1 + K)) by (apply Z.mul_le_mono_nonneg_r; lia). lia.
  - rewrite (pow2_rebase (eb + K) (e1 + K)), Z.mul_assoc in Hv |- * by lia.
    apply Z.mul_le_mono_nonneg_r; [lia|].
    destruct R5 as [->|[-> Hlt]].
    + apply (Z.mul_le_mono_pos_r _ _ (2 ^ (e1 + K))); lia.
    + enough (m1 < Z.pos mb * 2 ^ (eb + K - (e1 + K))) by lia.
      apply (Z.mul_lt_mono_pos_r (2 ^ (e1 + K))); [lia|].
      assert (m1 * 2 ^ (e1 + K) < v * 2 ^ (ex + K))
        by (rewrite <- S1; apply Z.mul_lt_mono_pos_r; lia). lia.
Qed.

Lemma rounded_ge : Zpos mb * 2 ^ (eb + K) <= v * 2 ^ (ex + K) ->
  Zpos mb * 2 ^ (eb + K) <= mr * 2 ^ (e1 + K).
Proof using Hr Hb HK.
  intros Hv. pose proof (scale_up (m1 + 1)) as S1.
  pose proof Hr as (R1 & R2 & R3 & R4 & R5 & R6).
  pose proof (pow2_pos (ex + K) ltac:(lia)) as P1.
  pose proof (pow2_pos (e1 + K) ltac:(lia)) as P2.
  assert (Hmr : m1 * 2 ^ (e1 + K) <= mr * 2 ^ (e1 + K)) by (apply Z.mul_le_mono_nonneg_r; lia).
  destruct (Z.lt_ge_cases eb e1) as [Hlt|Hge].
  - destruct (small_bound Hlt) as [Hs Hm].
    assert (2 ^ 52 * 2 ^ (e1 + K) <= m1 * 2 ^ (e1 + K)) by (apply Z.mul_le_mono_nonneg_r; lia). lia.
  - enough (Zpos mb * 2 ^ (eb + K) <= m1 * 2 ^ (e1 + K)) by lia.
    rewrite (pow2_rebase (eb + K) (e1 + K)), Z.mul_assoc in Hv |- * by lia.
    apply Z.mul_le_mono_nonneg_r; [lia|]. apply Z.lt_succ_r.
    apply (Z.mul_lt_mono_pos_r (2 ^ (e1 + K))); [lia|].
    assert (v * 2 ^ (ex + K) < (m1 + 1) * 2 ^ (e1 + K))
      by (rewrite <- S1; apply Z.mul_lt_mono_pos_r; lia). lia.
Qed.

(** Below a representable bound there is no overflow, and the result is the
    rounded mantissa. *)
Lemma finish_ok : mr * 2 ^ (e1 + K) <= Zpos mb * 2 ^ (eb + K) ->
  fpos_ok (finish false mr e1) = true /\ fz (finish false mr e1) = mr * 2 ^ (e1 + 1074).
Proof using Hr Hb HK.
  intros Hle. pose proof Hr as (R1 & R2 & R3 & R4 & R5 & R6).
  apply bounded_iff in Hb as (B1 & B2 & B3).
  assert (Hmax : Zpos mb * 2 ^ (eb + K) < 2 ^ 53 * 2 ^ (971 + K)).
  { assert (2 ^ (eb + K) <= 2 ^ (971 + K)) by (apply Z.pow_le_mono_r; lia).
    pose proof (pow2_pos (eb + K) ltac:(lia)). nia. }
  assert (Hexp : forall a e', 2 ^ 52 <= a -> 972 <= e' -> 2 ^ 53 * 2 ^ (971 + K) <= a * 2 ^ (e' + K)).
  { intros a e' Ha He'.
    assert (2 ^ (972 + K) <= 2 ^ (e' + K)) by (apply Z.pow_le_mono_r; lia).
    rewrite (pow2_rebase (972 + K) (971 + K)) in H by lia.
    replace (972 + K - (971 + K)) with 1 in H by lia.
    pose proof (pow2_pos (971 + K) ltac:(lia)). nia. }
  unfold finish, fpos_ok, fz.
  destruct (Z.eqb_spec mr 0) as [->|Hn0]; [cbn; auto|].
  destruct (Z.eqb_spec mr (2 ^ 53)) as [Hc|Hc].
  - destruct (e1 + 1 <=? 971) eqn:E; breflect.
    + split; [cbn [fnonneg andb]; apply bounded_iff; lia|]. cbn [cond_Zopp].
      rewrite Hc. replace (e1 + 1 + 1074) with (1 + (e1 + 1074)) by lia.
      rewrite Z.pow_add_r by lia. lia.
    + exfalso. specialize (Hexp (2 ^ 52) (e1 + 1) ltac:(lia) ltac:(lia)).
      rewrite Hc in Hle. replace (e1 + 1 + K) with (1 + (e1 + K)) in Hexp by lia.
      rewrite (Z.pow_add_r 2 1 (e1 + K)) in Hexp by lia. lia.
  - destruct (e1 <=? 971) eqn:E; breflect.
    + split.
      * cbn [fnonneg andb]. apply bounded_iff. rewrite Z2Pos.id by lia. lia.
      * cbn [cond_Zopp]. now rewrite Z2Pos.id by lia.
    + exfalso. specialize (Hexp mr e1 ltac:(lia) ltac:(lia)). lia.
Qed.
End Bounds.

Lemma fpos_ok_cases x :
  fpos_ok x = true ->
  x = S754_zero false \/ exists m e, x = S754_finite false m e /\ bounded 53 1024 m e = true.
Proof.
  unfold fpos_ok. destruct x as [[]|s| |[] m e]; cbn; try discriminate; [now left|].
  intros H. right. now exists m, e.
Qed.

Lemma fz_nonneg x : fpos_ok x = true -> 0 <= fz x.
Proof.
  intros H. destruct (fpos_ok_cases x H) as [->|(m & e & -> & _)]; cbn; [lia|].
  apply Z.mul_nonneg_nonneg; [lia|]. apply Z.pow_nonneg. lia.
Qed.

Lemma fz_scale m e : bounded 53 1024 m e = true ->
  fz (S754_finite false m e) * 2 ^ 1074 = Zpos m * 2 ^ (e + 2148).
Proof.
  intros H. apply bounded_iff in H as (_ & H & _). cbn [fz cond_Zopp].
  rewrite <- Z.mul_assoc, <- Z.pow_add_r by lia. do 2 f_equal. lia.
Qed.

Lemma scale_cancel a b : a * 2 ^ 1074 <= b * 2 ^ 1074 -> a <= b.
Proof. intros H. apply (Z.mul_le_mono_pos_r a b (2 ^ 1074)); [apply pow2_pos; lia|exact H]. Qed.

(** Rounding a positive exact value keeps it between any two representable
    numbers it lies between. *)
Lemma round_between p ex l u :
  ex <= fexp64 (Zpos (digits2_pos p) + ex) -> -2148 <= ex ->
  fpos_ok l = true -> fpos_ok u = true ->
  fz l * 2 ^ 1074 <= Zpos p * 2 ^ (ex + 2148) <= fz u * 2 ^ 1074 ->
  let r := binary_round_aux 53 1024 false (Zpos p) ex loc_Exact in
  fpos_ok r = true /\ fz l <= fz r <= fz u.
Proof.
  intros Hex Hlo Hl Hu [H1 H2].
  destruct (round_aux_spec false p ex Hex) as (m1 & mr & Hr & ->). cbv zeta in *.
  set (e1 := fexp64 _) in *.
  destruct (fpos_ok_cases u Hu) as [->|(mu & eu & -> & Bu)].
  { exfalso. pose proof (pow2_pos (ex + 2148) ltac:(lia)). cbn [fz] in H2. nia. }
  pose proof (proj1 (bounded_iff _ _) Bu) as (_ & Bu' & _).
  rewrite fz_scale in H2 by assumption.
  pose proof (rounded_le _ _ _ _ _ mu eu 2148 Hr Bu ltac:(lia) H2) as Hle.
  destruct (finish_ok _ _ _ _ _ mu eu 2148 Hr Bu ltac:(lia) Hle) as [Hok Hfz].
  assert (Hsc : fz (finish false mr e1) * 2 ^ 1074 = mr * 2 ^ (e1 + 2148)).
  { rewrite Hfz, <- Z.mul_assoc, <- Z.pow_add_r by (destruct Hr as (_ & ? & _); lia).
    do 2 f_equal. lia. }
  split; [exact Hok|]. split; apply scale_cancel; rewrite Hsc; [|now rewrite fz_scale].
  destruct (fpos_ok_cases l Hl) as [->|(ml & el & -> & Bl)].
  - cbn [fz]. destruct Hr as (R1 & R2 & R3 & R4 & R5 & R6).
    pose proof (pow2_pos (e1 + 2148) ltac:(lia)). nia.
  - pose proof (proj1 (bounded_iff _ _) Bl) as (_ & Bl' & _).
    rewrite fz_scale in H1 |- * by assumption.
    now apply (rounded_ge _ _ _ _ _ ml el 2148 Hr Bl ltac:(lia)).
Qed.

Lemma digits_at_least m d : 0 < d -> 2 ^ (d - 1) <= Zpos m -> d <= Zpos (digits2_pos m).
Proof.
  intros Hd H. pose proof (digits2_pos_bounds m).
  destruct (Z.le_gt_cases d (Z.pos (digits2_pos m))); [assumption|].
  assert (2 ^ Z.pos (digits2_pos m) <= 2 ^ (d - 1)) by (apply Z.pow_le_mono_r; lia). lia.
Qed.

Lemma fmul_between a b l u :
  fpos_ok a = true -> fpos_ok b = true -> fpos_ok l = true -> fpos_ok u = true ->
  fz l * 2 ^ 1074 <= fz a * fz b <= fz u * 2 ^ 1074 ->
  fpos_ok (fmul a b) = true /\ fz l <= fz (fmul a b) <= fz u.
Proof.
  intros Ha Hb Hl Hu H.
  assert (Hz : forall x, fz x = 0 -> fmul a b = S754_zero false -> fz a * fz b = 0 ->
                fpos_ok (fmul a b) = true /\ fz l <= fz (fmul a b) <= fz u).
  { intros x _ -> E. rewrite E in H. split; [reflexivity|].
    split; apply scale_cancel; cbn [fz]; lia. }
  destruct (fpos_ok_cases a Ha) as [->|(ma & ea & -> & Ba)].
  { apply (Hz (S754_zero false)); [reflexivity| |reflexivity].
    now destruct (fpos_ok_cases b Hb) as [->|(mb & eb & -> & _)]. }
  destruct (fpos_ok_cases b Hb) as [->|(mb & eb & -> & Bb)].
  { apply (Hz (S754_zero false)); [reflexivity|reflexivity|]. cbn [fz]. lia. }
  pose proof (proj1 (bounded_iff _ _) Ba) as (A1 & A2 & A3).
  pose proof (proj1 (bounded_iff _ _) Bb) as (B1 & B2 & B3).
  unfold fmul, SFmul. cbn [xorb].
  apply round_between; try assumption; [|lia|].
  - rewrite fexp64_unfold.
    destruct A3 as [->|A3]; [destruct B3 as [->|B3]; [lia|]|];
      assert (53 <= Z.pos (digits2_pos (ma * mb))) by (apply digits_at_least; [lia|rewrite Pos2Z.inj_mul; nia]); lia.
  - replace (Z.pos (ma * mb) * 2 ^ (ea + eb + 2148))
      with (fz (S754_finite false ma ea) * fz (S754_finite false mb eb)); [exact H|].
    cbn [fz cond_Zopp]. rewrite Pos2Z.inj_mul.
    replace (ea + eb + 2148) with ((ea + 1074) + (eb + 1074)) by lia.
    rewrite (Z.pow_add_r 2 (ea + 1074)) by lia. ring.
Qed.

Lemma shl_align_fst m e ez : ez <= e -> Zpos (fst (shl_align m e ez)) = Zpos m * 2 ^ (e - ez).
Proof.
  intros H. unfold shl_align. destruct (ez - e) as [|p|p] eqn:E; [|lia|].
  - cbn. replace (e - ez) with 0 by lia. lia.
  - cbn [fst]. replace (e - ez) with (Z.pos p) by lia.
    clear. induction p as [|p IH] using Pos.peano_ind; [cbn; lia|].
    rewrite Pos.iter_succ. change (Z.pos (Pos.iter xO m p)~0) with (2 * Z.pos (Pos.iter xO m p)).
    rewrite IH, Pos2Z.inj_succ, Z.pow_succ_r by lia. ring.
Qed.

Lemma fadd_between a b l u :
  fpos_ok a = true -> fpos_ok b = true -> fpos_ok l = true -> fpos_ok u = true ->
  fz l <= fz a + fz b <= fz u ->
  fpos_ok (fadd a b) = true /\ fz l <= fz (fadd a b) <= fz u.
Proof.
  intros Ha Hb Hl Hu H.
  destruct (fpos_ok_cases a Ha) as [->|(ma & ea & -> & Ba)].
  { destruct (fpos_ok_cases b Hb) as [->|(mb & eb & -> & Bb)]; split; try assumption; reflexivity || lia. }
  destruct (fpos_ok_cases b Hb) as [->|(mb & eb & -> & Bb)].
  { split; [assumption|]. cbn [fadd SFadd fz] in *. lia. }
  pose proof (proj1 (bounded_iff _ _) Ba) as (A1 & A2 & A3).
  pose proof (proj1 (bounded_iff _ _) Bb) as (B1 & B2 & B3).
  unfold fadd, SFadd. cbn [cond_Zopp].
  pose proof (shl_align_fst ma ea (Z.min ea eb) ltac:(lia)) as Sa.
  pose proof (shl_align_fst mb eb (Z.min ea eb) ltac:(lia)) as Sb.
  set (ez := Z.min ea eb) in *.
  set (pa := fst (shl_align ma ea ez)) in *. set (pb := fst (shl_align mb eb ez)) in *.
  change (Z.pos pa + Z.pos pb) with (Z.pos (pa + pb)).
  assert (Hval : Z.pos (pa + pb) * 2 ^ (ez + 2148) = (fz (S754_finite false ma ea) + fz (S754_finite false mb eb)) * 2 ^ 1074).
  { rewrite Z.mul_add_distr_r, !fz_scale by assumption. rewrite Pos2Z.inj_add, Sa, Sb.
    rewrite (pow2_rebase (ea + 2148) (ez + 2148)), (pow2_rebase (eb + 2148) (ez + 2148)) by lia.
    replace (ea + 2148 - (ez + 2148)) with (ea - ez) by lia.
    replace (eb + 2148 - (ez + 2148)) with (eb - ez) by lia. ring. }
  assert (Hdig : ez <= fexp64 (Z.pos (digits2_pos (pa + pb)) + ez)).
  { rewrite fexp64_unfold. destruct (Z.eq_dec ez (-1074)); [lia|].
    assert (53 <= Z.pos (digits2_pos (pa + pb))); [|lia].
    apply digits_at_least; [lia|]. rewrite Pos2Z.inj_add.
    destruct (Z.min_spec ea eb) as [[Hm He]|[Hm He]]; fold ez in He; rewrite He in *.
    - replace (ea - ea) with 0 in Sa by lia. lia.
    - replace (eb - eb) with 0 in Sb by lia. lia. }
  unfold binary_normalize, binary_round.
  replace (shl_align (pa + pb) ez (fexp64 (Z.pos (digits2_pos (pa + pb)) + ez))) with (pa + pb, ez)%positive.
  - apply round_between; try assumption; [lia|]. rewrite Hval.
    split; apply Z.mul_le_mono_nonneg_r; try lia; apply Z.pow_nonneg; lia.
  - unfold shl_align. destruct (fexp64 _ - ez) eqn:E; try reflexivity. lia.
Qed.

(** ** On canonical numbers, comparison is comparison of values *)

Lemma fleb_fz a b : fpos_ok a = true -> fpos_ok b = true -> fleb a b = (fz a <=? fz b).
Proof.
  intros Ha Hb.
  destruct (fpos_ok_cases a Ha) as [->|(ma & ea & -> & Ba)].
  { pose proof (fz_nonneg b Hb). change (fz (S754_zero false)) with 0.
    replace (0 <=? fz b) with true by (symmetry; apply Z.leb_le; lia).
    now destruct (fpos_ok_cases b Hb) as [->|(mb & eb & -> & Bb)]. }
  pose proof (proj1 (bounded_iff _ _) Ba) as (A1 & A2 & A3).
  pose proof (pow2_pos (ea + 1074) ltac:(lia)) as Pa.
  destruct (fpos_ok_cases b Hb) as [->|(mb & eb & -> & Bb)].
  { symmetry. apply Z.leb_gt. cbn [fz cond_Zopp]. nia. }
  pose proof (proj1 (bounded_iff _ _) Bb) as (B1 & B2 & B3).
  pose proof (pow2_pos (eb + 1074) ltac:(lia)) as Pb.
  unfold fleb, SFleb, SFcompare. cbn [fz cond_Zopp].
  destruct (Z.compare_spec ea eb) as [->|Hlt|Hgt].
  - rewrite pos_compare_cont_eq.
    destruct (Pos.compare_spec ma mb) as [->|Hp|Hp].
    + symmetry. apply Z.leb_le. lia.
    + symmetry. apply Z.leb_le. nia.
    + symmetry. apply Z.leb_gt. nia.
  - symmetry. apply Z.leb_le.
    rewrite (pow2_rebase (eb + 1074) (ea + 1074)) by lia.
    assert (2 ^ 1 <= 2 ^ (eb + 1074 - (ea + 1074))) by (apply Z.pow_le_mono_r; lia).
    set (X := 2 ^ (eb + 1074 - (ea + 1074))) in *. change (2 ^ 1) with 2 in *.
    assert (Z.pos ma <= Z.pos mb * X) by (destruct B3; nia). nia.
  - symmetry. apply Z.leb_gt.
    rewrite (pow2_rebase (ea + 1074) (eb + 1074)) by lia.
    assert (2 ^ 1 <= 2 ^ (ea + 1074 - (eb + 1074))) by (apply Z.pow_le_mono_r; lia).
    set (X := 2 ^ (ea + 1074 - (eb + 1074))) in *. change (2 ^ 1) with 2 in *.
    assert (Z.pos mb < Z.pos ma * X) by (destruct A3; nia). nia.
Qed.

Lemma fpos_ok_not_nan x : fpos_ok x = true -> is_nan x = false.
Proof. destruct x as [[]|s| |[] m e]; cbn; congruence. Qed.

(** ** Differences *)

Lemma digits2_pos_shift m k : Zpos (digits2_pos (Pos.iter xO m k)) = Zpos (digits2_pos m) + Zpos k.
Proof.
  induction k as [|k IH] using Pos.peano_ind; [cbn; lia|].
  rewrite Pos.iter_succ. cbn [digits2_pos]. rewrite !Pos2Z.inj_succ, IH. lia.
Qed.

Lemma binary_round_between p ex l u :
  -1074 <= ex -> fpos_ok l = true -> fpos_ok u = true ->
  fz l * 2 ^ 1074 <= Zpos p * 2 ^ (ex + 2148) <= fz u * 2 ^ 1074 ->
  let r := binary_round 53 1024 false p ex in
  fpos_ok r = true /\ fz l <= fz r <= fz u.
Proof.
  intros Hex Hl Hu H. cbv zeta. unfold binary_round.
  set (ez := fexp64 (Z.pos (digits2_pos p) + ex)). assert (Hez : ez = Z.max (Z.pos (digits2_pos p) + ex - 53) (-1074)) by apply fexp64_unfold.
  destruct (Z.le_gt_cases ex ez) as [Hle|Hgt].
  - replace (shl_align p ex ez) with (p, ex); [apply round_between; auto; fold ez; lia|].
    unfold shl_align. destruct (ez - ex) eqn:E; try reflexivity. lia.
  - pose proof (shl_align_fst p ex ez ltac:(lia)) as Hs. unfold shl_align in Hs |- *.
    destruct (ez - ex) as [|k|k] eqn:E; try lia. cbn [fst] in Hs. apply round_between; auto.
    + rewrite digits2_pos_shift, fexp64_unfold. lia.
    + lia.
    + rewrite Hs, <- Z.mul_assoc, <- Z.pow_add_r by lia. replace (ex - ez + (ez + 2148)) with (ex + 2148) by lia. exact H.
Qed.

(** A number rounded with the negative sign is at most zero. *)
Lemma round_negative m e : fleb (binary_round 53 1024 true m e) f_zero = true.
Proof.
  unfold binary_round. destruct (shl_align _ _ _) as [p e0]. unfold binary_round_aux.
  pose proof (shr_fexp_nonneg (Zpos p) e0 loc_Exact ltac:(lia)) as N1.
  destruct (shr_fexp 53 1024 (Z.pos p) e0 loc_Exact) as [mrs e1]. cbn [fst] in N1.
  assert (N : 0 <= round_nearest_even (shr_m mrs) (loc_of_shr_record mrs)).
  { unfold round_nearest_even. destruct (loc_of_shr_record mrs) as [|[]]; try lia. destruct (Z.even _); lia. }
  pose proof (shr_fexp_nonneg _ e1 loc_Exact N) as N2.
  destruct (shr_fexp 53 1024 (round_nearest_even _ _) e1 loc_Exact) as [mrs2 e2]. cbn [fst] in N2.
  destruct (shr_m mrs2); [reflexivity| |lia]. now destruct (e2 <=? 1024 - 53).
Qed.

Lemma fpos_zero_le x : fpos_ok x = true -> fleb f_zero x = true.
Proof. intros Hx. now destruct (fpos_ok_cases x Hx) as [->|(m & e & -> & _)]. Qed.

(** Taking a non-negative number away never rounds to more than the minuend. *)
Lemma fsub_le a b : fpos_ok a = true -> fpos_ok b = true -> fleb (fsub a b) a = true.
Proof.
  intros Ha Hb.
  destruct (fpos_ok_cases b Hb) as [->|(mb & eb & -> & Bb)].
  { destruct (fpos_ok_cases a Ha) as [->|(ma & ea & -> & Ba)]; [reflexivity|]. apply fleb_refl; reflexivity. }
  destruct (fpos_ok_cases a Ha) as [->|(ma & ea & -> & Ba)]; [reflexivity|].
  pose proof (proj1 (bounded_iff _ _) Ba) as (_ & A2 & _). pose proof (proj1 (bounded_iff _ _) Bb) as (_ & B2 & _).
  unfold fsub, SFsub. cbn [cond_Zopp].
  pose proof (shl_align_fst ma ea (Z.min ea eb) ltac:(lia)) as Sa.
  pose proof (shl_align_fst mb eb (Z.min ea eb) ltac:(lia)) as Sb.
  set (ez := Z.min ea eb) in *. assert (Hez : -1074 <= ez <= ea) by (unfold ez; lia).
  set (pa := fst (shl_align ma ea ez)) in *. set (pb := fst (shl_align mb eb ez)) in *.
  destruct (Z.pos pa - Z.pos pb) as [|d|d] eqn:Ed; cbn [binary_normalize].
  - reflexivity.
  - set (a := S754_finite false ma ea) in *.
    destruct (binary_round_between d ez f_zero a) as [Hok Hr]; auto; [lia| |].
    + unfold a. rewrite fz_scale by assumption. split; [cbn [fz f_zero]; nia|].
      rewrite (pow2_rebase (ea + 2148) (ez + 2148)) by lia.
      replace (ea + 2148 - (ez + 2148)) with (ea - ez) by lia.
      rewrite Z.mul_assoc, <- Sa.
      apply Z.mul_le_mono_nonneg_r; [apply Z.pow_nonneg; lia|lia].
    + rewrite fleb_fz by assumption. apply Z.leb_le. lia.
  - apply (fleb_trans _ f_zero); [apply round_negative|now apply fpos_zero_le].
Qed.

#[export] Hint Resolve fpos_ok_not_nan fz_nonneg : go.

(** ** Integers are exact up to 2^53 *)

Lemma exact_float n : 0 < n < 2 ^ 53 -> exists x, fpos_ok x = true /\ fz x = n * 2 ^ 1074.
Proof.
  intros Hn. destruct n as [|p|]; try lia. set (d := Zpos (digits2_pos p)). pose proof (digits2_pos_bounds p) as Hd. fold d in Hd.
  assert (Hd53 : d <= 53).
  { destruct (Z.le_gt_cases d 53) as [H|H]; [exact H|].
    assert (2 ^ 53 <= 2 ^ (d - 1)) by (apply Z.pow_le_mono_r; lia). lia. }
  assert (Hdpos : 1 <= d) by (unfold d; lia).
  assert (Hk : 0 < 2 ^ (53 - d)) by (apply pow2_pos; lia).
  assert (Hm : 2 ^ 52 <= Zpos p * 2 ^ (53 - d) < 2 ^ 53).
  { replace (2 ^ 52) with (2 ^ (d - 1) * 2 ^ (53 - d)) by (rewrite <- Z.pow_add_r by lia; f_equal; lia).
    replace (2 ^ 53) with (2 ^ d * 2 ^ (53 - d)) by (rewrite <- Z.pow_add_r by lia; f_equal; lia). nia. }
  exists (S754_finite false (Z.to_pos (Zpos p * 2 ^ (53 - d))) (d - 53)). split.
  - unfold fpos_ok, fvalid. cbn [fnonneg valid_binary andb]. apply bounded_iff. rewrite Z2Pos.id by lia. lia.
  - cbn [fz cond_Zopp]. rewrite Z2Pos.id by lia. rewrite <- Z.mul_assoc, <- Z.pow_add_r by lia. do 2 f_equal. lia.
Qed.

Lemma f64_of_Z_exact n : 0 <= n < 2 ^ 53 -> fpos_ok (f64_of_Z n) = true /\ fz (f64_of_Z n) = n * 2 ^ 1074.
Proof.
  intros Hn. destruct n as [|p|]; [split; reflexivity| |lia].
  destruct (exact_float (Zpos p) ltac:(lia)) as (x & Hx & Ex).
  destruct (binary_round_between p 0 x x) as [Hok Hr]; auto; [lia| |].
  - rewrite Ex, <- Z.mul_assoc, <- Z.pow_add_r by lia. cbn [Z.add]. lia.
  - unfold f64_of_Z, binary_normalize. split; [exact Hok|]. lia.
Qed.

(** So comparisons of such integers as doubles are the integers' own. *)
Lemma fltb_of_Z a b : 0 <= a < 2 ^ 53 -> 0 <= b < 2 ^ 53 -> fltb (f64_of_Z a) (f64_of_Z b) = (a <? b).
Proof.
  intros Ha Hb. destruct (f64_of_Z_exact a Ha) as [Oa Ea], (f64_of_Z_exact b Hb) as [Ob Eb].
  pose proof (fleb_fz _ _ Ob Oa) as Hle. rewrite Ea, Eb in Hle. pose proof (pow2_pos 1074 ltac:(lia)) as Hp.
  destruct (Z.ltb_spec a b) as [Hlt|Hge].
  - replace (b * 2 ^ 1074 <=? a * 2 ^ 1074) with false in Hle by (symmetry; apply Z.leb_gt; nia).
    destruct (fltb (f64_of_Z a) (f64_of_Z b)) eqn:E; [reflexivity|].
    apply fltb_false_fleb in E; [congruence|now apply fpos_ok_not_nan..].
  - replace (b * 2 ^ 1074 <=? a * 2 ^ 1074) with true in Hle by (symmetry; apply Z.leb_le; nia).
    destruct (fltb (f64_of_Z a) (f64_of_Z b)) eqn:E; [|reflexivity]. apply fltb_not_fleb in E. congruence.
Qed.
