(* ===== verification/Domain.v ===== *)
(** * Domain extraction: metrics/protocol/shannon/domain.go

    [extractDomainOrHost] maps an endpoint URL to its operator domain, and
    [ExtractDomainOrHost] memoizes it in a process-wide, size-capped cache.  URL
    parsing, IP parsing, UTF-8 validation and the public-suffix list are library
    code: the class [DomainLib] is what the extraction calls of them. *)

From S2P Require Import Prelude GoStrings.
From Stdlib Require Import ZArith Lia Bool Ascii String.
From stdpp Require Import base list gmap strings.

Open Scope string_scope.
Open Scope Z_scope.

(** The library functions: [url.Parse(s)] followed by [Hostname()] ([None] when
    parsing fails), [net.ParseIP(h) != nil], [utf8.ValidString] and
    [publicsuffix.EffectiveTLDPlusOne]. *)
Class DomainLib := {
  url_hostname : string -> option string;
  is_ip : string -> bool;
  utf8_valid : string -> bool;
  etld_plus_one : string -> option string;
}.

Inductive domain_error :=
| EmptyURL | MalformedURL | EmptyHost | InvalidUTF8Host.

(** [strings.Split(s, ".")] *)
Fixpoint split_dots_acc (s cur : string) : list string :=
  match s with
  | EmptyString => [cur]
  | String c s' =>
      if Ascii.eqb c "."%char then cur :: split_dots_acc s' ""
      else split_dots_acc s' (cur +:+ String c "")
  end.
Definition split_dots (s : string) : list string := split_dots_acc s "".

Definition isLocalhost (host : string) : bool :=
  let lowercase := to_lower host in
  (lowercase =? "localhost")%string || (lowercase =? "localhost.localdomain")%string ||
  has_prefix "localhost." lowercase.

Definition internalTLDs : list string := [".local"; ".internal"; ".corp"; ".home"; ".lan"].

Definition isPrivateOrInternalDomain (host : string) : bool :=
  let lowercase := to_lower host in
  existsb (fun tld => has_suffix tld lowercase) internalTLDs || negb (contains_byte "." host).

Definition fallbackDomainExtraction (host : string) : string :=
  let parts := split_dots host in
  let n := List.length parts in
  if Nat.eqb n 1 then host
  else if Nat.leb 2 n then
    match skipn (n - 2) parts with
    | [a; b] => a +:+ "." +:+ b
    | _ => host
    end
  else host.

Section Extract.
Context `{DomainLib}.

Definition extractDomainOrHost (rawURL : string) : result domain_error string :=
  if (rawURL =? "")%string then Err EmptyURL
  else
    let urlToParse := if str_contains rawURL "://" then rawURL else "https://" +:+ rawURL in
    match url_hostname urlToParse with
    | None => Err MalformedURL
    | Some host =>
        if (host =? "")%string then Err EmptyHost
        else if negb (utf8_valid host) then Err InvalidUTF8Host
        else if is_ip host then Ok host
        else if isLocalhost host then Ok host
        else if isPrivateOrInternalDomain host then Ok host
        else match etld_plus_one host with
             | Some etld => Ok etld
             | None => Ok (fallbackDomainExtraction host)
             end
    end.

(** The memoization state: the [sync.Map] and its entry counter. *)
Record domain_cache := {
  dc_entries : gmap string string;
  dc_count : Z;
}.

Definition maxDomainCacheEntries : Z := Z.shiftl 1 16.

Definition ExtractDomainOrHost (c : domain_cache) (rawURL : string)
  : result domain_error string * domain_cache :=
  match dc_entries c !! rawURL with
  | Some cached => (Ok cached, c)
  | None =>
      match extractDomainOrHost rawURL with
      | Err e => (Err e, c)
      | Ok domain =>
          if dc_count c <? maxDomainCacheEntries then
            (Ok domain, {| dc_entries := <[rawURL := domain]> (dc_entries c);
                           dc_count := dc_count c + 1 |})
          else (Ok domain, c)
      end
  end.

(** The cache holds extraction results only, and never more than its cap. *)
Record domain_cache_ok (c : domain_cache) : Prop := {
  dco_sound : forall u d, dc_entries c !! u = Some d -> extractDomainOrHost u = Ok d;
  dco_count : dc_count c = Z.of_nat (size (dc_entries c));
  dco_cap : dc_count c <= maxDomainCacheEntries;
}.

Definition empty_domain_cache : domain_cache := {| dc_entries := ∅; dc_count := 0 |}.

Lemma empty_domain_cache_ok : domain_cache_ok empty_domain_cache.
Proof.
  split; cbn; [|now rewrite map_size_empty|discriminate].
  intros u d. rewrite lookup_empty. discriminate.
Qed.

Lemma ExtractDomainOrHost_correct c u :
  domain_cache_ok c ->
  fst (ExtractDomainOrHost c u) = extractDomainOrHost u /\
  domain_cache_ok (snd (ExtractDomainOrHost c u)).
Proof.
  intros Hc. pose proof Hc as [Hs Hn Hm]. unfold ExtractDomainOrHost.
  destruct (dc_entries c !! u) as [d|] eqn:E; cbn; [split; [symmetry; eauto|assumption]|].
  destruct (extractDomainOrHost u) as [d|e] eqn:Ex; cbn; [|auto].
  destruct (dc_count c <? maxDomainCacheEntries) eqn:L; cbn; breflect; [|auto].
  split; [reflexivity|]. split; cbn; [| |lia].
  - intros u' d' Hl. destruct (decide (u = u')) as [<-|Hne].
    + rewrite lookup_insert_eq in Hl. congruence.
    + rewrite lookup_insert_ne in Hl by assumption. eauto.
  - rewrite map_size_insert_None by assumption. lia.
Qed.

(** A run of extractions from an empty cache. *)
Fixpoint extract_all (c : domain_cache) (us : list string)
  : list (result domain_error string) * domain_cache :=
  match us with
  | [] => ([], c)
  | u :: us' =>
      let '(r, c1) := ExtractDomainOrHost c u in
      let '(rs, c2) := extract_all c1 us' in
      (r :: rs, c2)
  end.

Lemma extract_all_correct us : forall c,
  domain_cache_ok c ->
  fst (extract_all c us) = map extractDomainOrHost us /\ domain_cache_ok (snd (extract_all c us)).
Proof.
  induction us as [|u us IH]; intros c Hc; cbn; [auto|].
  destruct (ExtractDomainOrHost_correct c u Hc) as [H1 H2].
  destruct (ExtractDomainOrHost c u) as [r c1]; cbn in *.
  destruct (IH c1 H2) as [H3 H4]. destruct (extract_all c1 us) as [rs c2]; cbn in *.
  split; [now rewrite H1, H3|assumption].
Qed.

(** [strings.FieldsFunc] with the separators dash, underscore and space *)
Definition is_field_sep (c : ascii) : bool :=
  Ascii.eqb c "-"%char || Ascii.eqb c "_"%char || Ascii.eqb c " "%char.

Fixpoint fields_acc (s cur : string) : list string :=
  match s with
  | EmptyString => if (cur =? "")%string then [] else [cur]
  | String c s' =>
      if is_field_sep c
      then (if (cur =? "")%string then fields_acc s' "" else cur :: fields_acc s' "")
      else fields_acc s' (cur +:+ String c "")
  end.

Fixpoint first_domain_like (parts : list string) : string :=
  match parts with
  | [] => ""
  | part :: rest =>
      if contains_byte "." part && negb (has_prefix "http" part) then
        match extractDomainOrHost ("https://" +:+ part) with
        | Ok etld => etld
        | Err _ => first_domain_like rest
        end
      else first_domain_like rest
  end.

(** The operator (eTLD+1) of an endpoint address, the empty string when it
    cannot be determined.  The memoized extraction is replaced by the plain
    one, which [ExtractDomainOrHost_correct] justifies. *)
Definition ExtractTLDFromEndpointAddr (addr : string) : string :=
  match extractDomainOrHost addr with
  | Ok etld => etld
  | Err _ =>
      let from_parts := first_domain_like (fields_acc addr "") in
      match str_index "http" addr with
      | Some idx =>
          match extractDomainOrHost (str_drop idx addr) with
          | Ok etld => etld
          | Err _ => from_parts
          end
      | None => from_parts
      end
  end.

Definition GetEndpointTLDs (endpoints : list string) : gmap string string :=
  fold_left (fun m ep => <[ep := ExtractTLDFromEndpointAddr ep]> m) endpoints ∅.

Lemma GetEndpointTLDs_lookup endpoints ep :
  GetEndpointTLDs endpoints !! ep =
  if decide (ep ∈ endpoints) then Some (ExtractTLDFromEndpointAddr ep) else None.
Proof.
  unfold GetEndpointTLDs.
  assert (G : forall l (m : gmap string string),
    fold_left (fun m ep => <[ep := ExtractTLDFromEndpointAddr ep]> m) l m !! ep =
    if decide (ep ∈ l) then Some (ExtractTLDFromEndpointAddr ep) else m !! ep).
  { induction l as [|x l IH]; intros m; cbn [fold_left].
    - now rewrite decide_False by apply not_elem_of_nil.
    - rewrite IH. destruct (decide (ep ∈ l)) as [Hin|Hin].
      + rewrite decide_True by (now right). reflexivity.
      + destruct (decide (x = ep)) as [->|Hne].
        * rewrite lookup_insert_eq, decide_True by (now left). reflexivity.
        * rewrite lookup_insert_ne by assumption. rewrite decide_False; [reflexivity|].
          intros Hc. apply elem_of_cons in Hc as [->|]; congruence. }
  rewrite G, lookup_empty. reflexivity.
Qed.
End Extract.
