(* ===== verification/RepKey.v ===== *)
(** * Endpoint addresses and reputation keys

    protocol/endpoint.go (the ["supplier-url"] address format) and, from
    package reputation, [EndpointKey] with its string form and parser
    (reputation.go) and the key builders of the four granularities (key.go). *)

From S2P Require Import Prelude GoStrings Domain.
From Stdlib Require Import ZArith Lia Bool Ascii String.
From stdpp Require Import base list gmap strings countable.

Open Scope string_scope.
Open Scope Z_scope.

Abbreviation ServiceID := string (only parsing).
Abbreviation EndpointAddr := string (only parsing).

(** ** protocol.EndpointAddr *)

(** The error both accessors return: no dash in the address. *)
Inductive addr_error := NoDashSeparator (addr : string).

Definition GetURL (e : EndpointAddr) : result addr_error string :=
  match index_byte "-" e with
  | None => Err (NoDashSeparator e)
  | Some i => Ok (str_drop (S i) e)
  end.

Definition GetAddress (e : EndpointAddr) : result addr_error string :=
  match index_byte "-" e with
  | None => Err (NoDashSeparator e)
  | Some i => Ok (str_take i e)
  end.

Lemma GetURL_GetAddress_join supplier url :
  contains_byte "-" supplier = false ->
  GetAddress (supplier +:+ "-" +:+ url) = Ok supplier /\
  GetURL (supplier +:+ "-" +:+ url) = Ok url.
Proof.
  intros H. unfold GetAddress, GetURL. change ("-" +:+ url) with (String "-" url).
  rewrite index_byte_app by assumption. now autorewrite with gostr_rw.
Qed.

(** ** The RPC type enumeration

    [sharedtypes.RPCType] is generated code of the poktroll module: its
    [String()] and its [RPCType_value] map (0 for an absent name). *)
Class RPCTypeEnum := {
  rpc_String : Z -> string;
  rpc_value : string -> Z;
}.

(** What the key format relies on, for the members of the enumeration: a name
    is looked up in upper case, and holds no colon. *)
Class RPCTypeLaws `{RPCTypeEnum} (known : Z -> Prop) : Prop := {
  rpc_value_String : forall t, known t -> rpc_value (to_upper (to_lower (rpc_String t))) = t;
  rpc_String_no_colon : forall t, known t -> contains_byte ":" (to_lower (rpc_String t)) = false;
}.

(** ** reputation.EndpointKey *)

Record EndpointKey := NewEndpointKey {
  key_ServiceID : ServiceID;
  key_EndpointAddr : EndpointAddr;
  key_RPCType : Z;
}.

#[export] Instance EndpointKey_eq_dec : EqDecision EndpointKey.
Proof. solve_decision. Defined.

#[export] Instance EndpointKey_countable : Countable EndpointKey.
Proof.
  apply (inj_countable'
    (fun k => (key_ServiceID k, key_EndpointAddr k, key_RPCType k))
    (fun '(s, a, t) => NewEndpointKey s a t)).
  now intros [].
Defined.

Section Keys.
Context `{RPCTypeEnum}.

(** [EndpointKey.String]: ["serviceID:endpointAddr:rpcType"] *)
Definition key_String (k : EndpointKey) : string :=
  key_ServiceID k +:+ ":" +:+ key_EndpointAddr k +:+ ":" +:+ to_lower (rpc_String (key_RPCType k)).

Definition ParseEndpointKeyString (s : string) : option EndpointKey :=
  match last_index_byte ":" s with
  | None | Some O => None
  | Some lastColon =>
      let rpcTypeStr := str_drop (S lastColon) s in
      let rest := str_take lastColon s in
      match index_byte ":" rest with
      | None | Some O => None
      | Some firstColon =>
          let serviceID := str_take firstColon rest in
          let endpointAddr := str_drop (S firstColon) rest in
          if (endpointAddr =? "")%string then None
          else Some (NewEndpointKey serviceID endpointAddr (rpc_value (to_upper rpcTypeStr)))
      end
  end.

(** The keys whose string form can be read back. *)
Record key_wf (known : Z -> Prop) (k : EndpointKey) : Prop := {
  kwf_service : key_ServiceID k <> "" /\ contains_byte ":" (key_ServiceID k) = false;
  kwf_addr : key_EndpointAddr k <> "";
  kwf_rpc : known (key_RPCType k);
}.

Context {known : Z -> Prop} `{!RPCTypeLaws known}.

Lemma parse_String k : key_wf known k -> ParseEndpointKeyString (key_String k) = Some k.
Proof.
  intros [[Hs1 Hs2] Ha Hr]. destruct k as [s a t]. cbn in *.
  unfold ParseEndpointKeyString, key_String. cbn [key_ServiceID key_EndpointAddr key_RPCType].
  set (r := to_lower (rpc_String t)).
  replace (s +:+ ":" +:+ a +:+ ":" +:+ r) with ((s +:+ String ":" a) +:+ String ":" r)
    by (rewrite str_app_assoc; reflexivity).
  rewrite last_index_byte_app by (now apply rpc_String_no_colon).
  destruct (String.length (s +:+ String ":" a)) eqn:L1.
  { destruct s; [congruence|discriminate]. }
  rewrite <- L1, str_take_app, str_drop_app_S, index_byte_app by assumption.
  destruct (String.length s) eqn:L2; [destruct s; [congruence|discriminate]|].
  rewrite <- L2, str_take_app, str_drop_app_S.
  destruct (String.eqb_spec a ""); [contradiction|].
  subst r. now rewrite rpc_value_String.
Qed.

(** So the string form identifies the key. *)
Lemma key_String_inj k1 k2 :
  key_wf known k1 -> key_wf known k2 -> key_String k1 = key_String k2 -> k1 = k2.
Proof.
  intros H1 H2 E. apply parse_String in H1, H2. rewrite E in H1. congruence.
Qed.
End Keys.

(** ** Key builders (key.go) *)

Inductive KeyBuilder :=
| EndpointKeyBuilder | URLKeyBuilder | DomainKeyBuilder | SupplierKeyBuilder.

Definition KeyGranularityEndpoint := "per-endpoint".
Definition KeyGranularityURL := "per-url".
Definition KeyGranularityDomain := "per-domain".
Definition KeyGranularitySupplier := "per-supplier".

Definition NewKeyBuilder (granularity : string) : KeyBuilder :=
  if (granularity =? KeyGranularityURL)%string then URLKeyBuilder
  else if (granularity =? KeyGranularityDomain)%string then DomainKeyBuilder
  else if (granularity =? KeyGranularitySupplier)%string then SupplierKeyBuilder
  else if (granularity =? KeyGranularityEndpoint)%string then EndpointKeyBuilder
  else URLKeyBuilder.

Section BuildKey.
Context `{DomainLib}.

Definition EndpointKeyBuilder_BuildKey (s : ServiceID) (e : EndpointAddr) (t : Z) : EndpointKey :=
  NewEndpointKey s e t.

Definition URLKeyBuilder_BuildKey (s : ServiceID) (e : EndpointAddr) (t : Z) : EndpointKey :=
  match GetURL e with
  | Err _ => NewEndpointKey s e t
  | Ok endpointURL => NewEndpointKey s endpointURL t
  end.

Definition DomainKeyBuilder_BuildKey (s : ServiceID) (e : EndpointAddr) (t : Z) : EndpointKey :=
  match GetURL e with
  | Err _ => NewEndpointKey s e t
  | Ok endpointURL =>
      match extractDomainOrHost endpointURL with
      | Err _ => NewEndpointKey s e t
      | Ok domain => NewEndpointKey s domain t
      end
  end.

Definition SupplierKeyBuilder_BuildKey (s : ServiceID) (e : EndpointAddr) (t : Z) : EndpointKey :=
  match GetAddress e with
  | Err _ => NewEndpointKey s e t
  | Ok supplierAddr => NewEndpointKey s supplierAddr t
  end.

Definition BuildKey (b : KeyBuilder) : ServiceID -> EndpointAddr -> Z -> EndpointKey :=
  match b with
  | EndpointKeyBuilder => EndpointKeyBuilder_BuildKey
  | URLKeyBuilder => URLKeyBuilder_BuildKey
  | DomainKeyBuilder => DomainKeyBuilder_BuildKey
  | SupplierKeyBuilder => SupplierKeyBuilder_BuildKey
  end.

(** A well-formed address: a supplier without a dash, a dash, the URL. *)
Definition mk_addr (supplier url : string) : EndpointAddr := supplier +:+ "-" +:+ url.

(** What each granularity groups together, on well-formed addresses. *)
Lemma BuildKey_groups b s t sup1 url1 sup2 url2 :
  contains_byte "-" sup1 = false -> contains_byte "-" sup2 = false ->
  (BuildKey b s (mk_addr sup1 url1) t = BuildKey b s (mk_addr sup2 url2) t <->
   match b with
   | EndpointKeyBuilder => mk_addr sup1 url1 = mk_addr sup2 url2
   | URLKeyBuilder => url1 = url2
   | SupplierKeyBuilder => sup1 = sup2
   | DomainKeyBuilder =>
       match extractDomainOrHost url1, extractDomainOrHost url2 with
       | Ok d1, Ok d2 => d1 = d2
       | Ok d1, Err _ => d1 = mk_addr sup2 url2
       | Err _, Ok d2 => mk_addr sup1 url1 = d2
       | Err _, Err _ => mk_addr sup1 url1 = mk_addr sup2 url2
       end
   end).
Proof.
  intros H1 H2.
  destruct (GetURL_GetAddress_join sup1 url1 H1) as [A1 U1].
  destruct (GetURL_GetAddress_join sup2 url2 H2) as [A2 U2].
  unfold mk_addr.
  destruct b; cbn [BuildKey]; unfold EndpointKeyBuilder_BuildKey, URLKeyBuilder_BuildKey,
    DomainKeyBuilder_BuildKey, SupplierKeyBuilder_BuildKey; rewrite ?A1, ?A2, ?U1, ?U2;
    try destruct (extractDomainOrHost url1), (extractDomainOrHost url2);
    split; intros E; try injection E; congruence.
Qed.
End BuildKey.

(** ** The properties *)

(** An endpoint key survives its string form: a key whose service ID holds no
    colon is parsed back from its string, colons in the endpoint address
    included, so distinct keys have distinct strings. *)
Theorem endpoint_key_roundtrip `{RPCTypeEnum} (known : Z -> Prop) (laws : RPCTypeLaws known) (k1 k2 : EndpointKey) :
  key_wf known k1 -> key_wf known k2 ->
  ParseEndpointKeyString (key_String k1) = Some k1 /\ (key_String k1 = key_String k2 -> k1 = k2).
Proof. intros H1 H2. split; [now apply (parse_String (known := known))|now apply (key_String_inj (known := known))]. Qed.

(** ** Witnesses, at a concrete RPC type table *)

#[export] Instance demo_rpc : RPCTypeEnum := {
  rpc_String t := if t =? 3 then "JSON_RPC" else if t =? 2 then "WEBSOCKET" else "UNKNOWN_RPC";
  rpc_value s := if (s =? "JSON_RPC")%string then 3 else if (s =? "WEBSOCKET")%string then 2 else 0;
}.

#[export] Instance demo_rpc_laws : RPCTypeLaws (fun t => t = 2 \/ t = 3).
Proof. split; intros t [->| ->]; reflexivity. Qed.

Definition demo_key : EndpointKey := NewEndpointKey "eth" "https://node.example.com" 3.

Lemma endpoint_key_roundtrip_witness :
  ParseEndpointKeyString "eth:https://node.example.com:json_rpc" = Some demo_key /\
  (key_String demo_key = key_String (NewEndpointKey "eth" "n:1" 2) -> demo_key = NewEndpointKey "eth" "n:1" 2).
Proof.
  apply (endpoint_key_roundtrip (fun t => t = 2 \/ t = 3) demo_rpc_laws demo_key);
    split; cbn; auto; split; (discriminate || reflexivity).
Defined.
