(* ===== verification/Signals.v ===== *)
(** * Reputation signals and their score impact: reputation/signals.go, and the
    latency and impact configuration of reputation/reputation.go *)

From S2P Require Import Prelude GoStrings Float64.
From Stdlib Require Import ZArith Lia Bool Ascii String SpecFloat.
From stdpp Require Import base list gmap strings.

Open Scope string_scope.
Open Scope Z_scope.

(** ** Data *)

Inductive SignalType :=
| SignalTypeSuccess
| SignalTypeMinorError
| SignalTypeMajorError
| SignalTypeCriticalError
| SignalTypeFatalError
| SignalTypeRecoverySuccess
| SignalTypeSlowResponse
| SignalTypeVerySlowResponse
| SignalTypeOther (s : string). (** any other value of the string type *)

#[export] Instance SignalType_eq_dec : EqDecision SignalType.
Proof. solve_decision. Defined.

Record Signal := mkSignal {
  sig_Type : SignalType;
  sig_Timestamp : Time;
  sig_Latency : Duration;
  sig_Reason : string;
  sig_IsHealthCheck : bool;
  sig_IsProtocolViolation : bool;
  sig_Metadata : option (gmap string string); (** [None] is the nil map *)
}.

Definition basic_signal (t : SignalType) (now : Time) (latency : Duration) (reason : string) : Signal :=
  mkSignal t now latency reason false false None.

Definition NewSuccessSignal (now : Time) (latency : Duration) := basic_signal SignalTypeSuccess now latency "".
Definition NewMinorErrorSignal (now : Time) (reason : string) := basic_signal SignalTypeMinorError now 0 reason.
Definition NewMajorErrorSignal (now : Time) (reason : string) (latency : Duration) :=
  basic_signal SignalTypeMajorError now latency reason.
Definition NewCriticalErrorSignal (now : Time) (reason : string) (latency : Duration) :=
  basic_signal SignalTypeCriticalError now latency reason.
Definition NewFatalErrorSignal (now : Time) (reason : string) := basic_signal SignalTypeFatalError now 0 reason.
Definition NewRecoverySuccessSignal (now : Time) (latency : Duration) :=
  basic_signal SignalTypeRecoverySuccess now latency "".
Definition NewSlowResponseSignal (now : Time) (latency : Duration) :=
  basic_signal SignalTypeSlowResponse now latency "slow response".
Definition NewVerySlowResponseSignal (now : Time) (latency : Duration) :=
  basic_signal SignalTypeVerySlowResponse now latency "very slow response".

Record LatencyProfile := mkLatencyProfile {
  lp_Name : string;
  lp_Description : string;
  lp_FastThreshold : Duration;
  lp_NormalThreshold : Duration;
  lp_SlowThreshold : Duration;
  lp_PenaltyThreshold : Duration;
  lp_SevereThreshold : Duration;
}.

Record LatencyConfig := mkLatencyConfig {
  lc_Enabled : bool;
  lc_FastThreshold : Duration;
  lc_NormalThreshold : Duration;
  lc_SlowThreshold : Duration;
  lc_PenaltyThreshold : Duration;
  lc_SevereThreshold : Duration;
  lc_FastBonus : float64;
  lc_SlowPenalty : float64;
  lc_VerySlowPenalty : float64;
  lc_ServiceProfiles : gmap string LatencyProfile;
}.

Record SignalImpactsConfig := mkSignalImpactsConfig {
  si_Success : float64;
  si_MinorError : float64;
  si_MajorError : float64;
  si_CriticalError : float64;
  si_FatalError : float64;
  si_RecoverySuccess : float64;
  si_SlowResponse : float64;
  si_VerySlowResponse : float64;
}.

(** ** Impacts *)

Definition DefaultSignalImpacts : SignalImpactsConfig :=
  {| si_Success := f64_of_Z 1;
     si_MinorError := f64_of_Z (-3);
     si_MajorError := f64_of_Z (-10);
     si_CriticalError := f64_of_Z (-25);
     si_FatalError := f64_of_Z (-50);
     si_RecoverySuccess := f64_of_Z 5;
     si_SlowResponse := f64_of_Z (-1);
     si_VerySlowResponse := f64_of_Z (-3) |}.

(** [if v != 0 { return v }; return d] ([!=] holds of NaN) *)
Definition or_default (v d : float64) : float64 := if feqb v f_zero then d else v.

Definition GetImpact (c : SignalImpactsConfig) (t : SignalType) : float64 :=
  let defaults := DefaultSignalImpacts in
  match t with
  | SignalTypeSuccess => or_default (si_Success c) (si_Success defaults)
  | SignalTypeMinorError => or_default (si_MinorError c) (si_MinorError defaults)
  | SignalTypeMajorError => or_default (si_MajorError c) (si_MajorError defaults)
  | SignalTypeCriticalError => or_default (si_CriticalError c) (si_CriticalError defaults)
  | SignalTypeFatalError => or_default (si_FatalError c) (si_FatalError defaults)
  | SignalTypeRecoverySuccess => or_default (si_RecoverySuccess c) (si_RecoverySuccess defaults)
  | SignalTypeSlowResponse => or_default (si_SlowResponse c) (si_SlowResponse defaults)
  | SignalTypeVerySlowResponse => or_default (si_VerySlowResponse c) (si_VerySlowResponse defaults)
  | SignalTypeOther _ => f_zero
  end.

(** The unexported [scoreImpact] map and [GetScoreImpact]. *)
Definition GetScoreImpact (t : SignalType) : float64 :=
  match t with
  | SignalTypeSuccess => f64_of_Z 1
  | SignalTypeMinorError => f64_of_Z (-3)
  | SignalTypeMajorError => f64_of_Z (-10)
  | SignalTypeCriticalError => f64_of_Z (-25)
  | SignalTypeFatalError => f64_of_Z (-50)
  | SignalTypeRecoverySuccess => f64_of_Z 5
  | SignalTypeSlowResponse => f64_of_Z (-1)
  | SignalTypeVerySlowResponse => f64_of_Z (-3)
  | SignalTypeOther _ => f_zero
  end.

Definition GetDefaultImpact (s : Signal) : float64 := GetScoreImpact (sig_Type s).
Definition IsPositive (s : Signal) : bool := fgtb (GetDefaultImpact s) f_zero.
Definition IsNegative (s : Signal) : bool := fltb (GetDefaultImpact s) f_zero.

(** ** Latency-aware impact *)

Inductive LatencyCategory := CatFast | CatNormal | CatSlow | CatVerySlow | CatSkipped.

Record LatencyImpactResult := mkLatencyImpactResult {
  lir_FinalImpact : float64;
  lir_BaseImpact : float64;
  lir_Modifier : float64;
  lir_LatencyCategory : LatencyCategory;
  lir_Latency : Duration;
  lir_Config : LatencyConfig;
}.

Definition latency_modifier (latency : Duration) (config : LatencyConfig) : float64 * LatencyCategory :=
  if latency <? lc_FastThreshold config then (lc_FastBonus config, CatFast)
  else if latency <? lc_NormalThreshold config then (f_one, CatNormal)
  else if latency <? lc_SlowThreshold config then (lc_SlowPenalty config, CatSlow)
  else (lc_VerySlowPenalty config, CatVerySlow).

Definition CalculateLatencyAwareImpactWithConfig (s : Signal) (config : LatencyConfig) (baseImpact : float64)
  : LatencyImpactResult :=
  if fleb baseImpact f_zero || (sig_Latency s =? 0) || negb (lc_Enabled config) then
    mkLatencyImpactResult baseImpact baseImpact f_one CatSkipped (sig_Latency s) config
  else
    let '(modifier, latencyCategory) := latency_modifier (sig_Latency s) config in
    mkLatencyImpactResult (fmul baseImpact modifier) baseImpact modifier latencyCategory (sig_Latency s) config.

Definition CalculateLatencyAwareImpactWithDetails (s : Signal) (config : LatencyConfig) : LatencyImpactResult :=
  CalculateLatencyAwareImpactWithConfig s config (GetDefaultImpact s).

Definition CalculateLatencyAwareImpact (s : Signal) (config : LatencyConfig) : float64 :=
  lir_FinalImpact (CalculateLatencyAwareImpactWithDetails s config).

Definition ClassifyLatency (latency : Duration) (config : LatencyConfig) : option SignalType :=
  if negb (lc_Enabled config) || (latency =? 0) then None
  else if lc_SevereThreshold config <=? latency then Some SignalTypeVerySlowResponse
  else if lc_PenaltyThreshold config <=? latency then Some SignalTypeSlowResponse
  else None.

(** ** The recovery multiplier carried in the metadata *)

Definition two_digits (n : Z) : string :=
  String (digit_of (n / 10)) (String (digit_of (n mod 10)) "").

(** [fmt.Sprintf("%.2f", x)] *)
Definition fmt_f2 (x : float64) : string :=
  let body n := fmt_int (n / 100) +:+ "." +:+ two_digits (n mod 100) in
  match x with
  | S754_nan => "NaN"
  | S754_infinity s => if s then "-Inf" else "+Inf"
  | S754_zero s => if s then "-0.00" else "0.00"
  | S754_finite s m e =>
      let b := body (f64_hundredths m e) in
      if s then "-" +:+ b else b
  end.

(** [strconv.ParseFloat(s, 64)] on what [fmt_f2], the only writer of the
    metadata entry, prints for a positive number: a decimal numeral "d+[.d*]" or
    "+Inf".  The other spellings are rejected here, which the reader of the
    multiplier cannot tell from a number that is not positive. *)
Definition parse_float (s : string) : option float64 :=
  if (s =? "+Inf")%string then Some (S754_infinity false) else
  match index_byte "." s with
  | None => option_map (fun n => f64_ratio n 1) (parse_nonempty_digits s)
  | Some i =>
      let ip := str_take i s in
      let fp := str_drop (S i) s in
      match parse_nonempty_digits ip, parse_digits 0 fp with
      | Some a, Some b =>
          let k := 10 ^ Z.of_nat (String.length fp) in
          Some (f64_ratio (a * k + b) k)
      | _, _ => None
      end
  end.

Definition WithMultiplier (s : Signal) (multiplier : float64) : Signal :=
  let md := match sig_Metadata s with Some m => m | None => ∅ end in
  mkSignal (sig_Type s) (sig_Timestamp s) (sig_Latency s) (sig_Reason s)
    (sig_IsHealthCheck s) (sig_IsProtocolViolation s)
    (Some (<["recovery_multiplier" := fmt_f2 multiplier]> md)).

Definition GetRecoveryMultiplier (s : Signal) : float64 :=
  match sig_Metadata s with
  | None => f_one
  | Some md =>
      match md !! "recovery_multiplier" with
      | Some multiplierStr =>
          match parse_float multiplierStr with
          | Some multiplier => if fgtb multiplier f_zero then multiplier else f_one
          | None => f_one
          end
      | None => f_one
      end
  end.

(** ** Latency profiles *)

Definition LatencyProfileEVM := "evm".
Definition LatencyProfileCosmos := "cosmos".
Definition LatencyProfileSolana := "solana".
Definition LatencyProfileLLM := "llm".
Definition LatencyProfileGeneric := "generic".

Definition DefaultLatencyProfiles : gmap string LatencyProfile :=
  list_to_map [
    (LatencyProfileEVM, mkLatencyProfile LatencyProfileEVM
       "EVM-compatible blockchains (Ethereum, Base, Polygon, etc.)"
       (50 * millisecond) (200 * millisecond) (500 * millisecond) (1000 * millisecond) (3000 * millisecond));
    (LatencyProfileCosmos, mkLatencyProfile LatencyProfileCosmos
       "Cosmos SDK chains (CosmosHub, Osmosis, etc.)"
       (100 * millisecond) (500 * millisecond) (1000 * millisecond) (2000 * millisecond) (5000 * millisecond));
    (LatencyProfileSolana, mkLatencyProfile LatencyProfileSolana
       "Solana blockchain"
       (100 * millisecond) (300 * millisecond) (800 * millisecond) (1500 * millisecond) (4000 * millisecond));
    (LatencyProfileLLM, mkLatencyProfile LatencyProfileLLM
       "LLM inference services (slow by nature)"
       (2 * second) (10 * second) (30 * second) (60 * second) (120 * second));
    (LatencyProfileGeneric, mkLatencyProfile LatencyProfileGeneric
       "Generic/unknown services (conservative defaults)"
       (500 * millisecond) (2 * second) (5 * second) (10 * second) (30 * second))].

Definition GetProfileForService (c : LatencyConfig) (serviceID profileName : string) : LatencyProfile :=
  let global := mkLatencyProfile "default" "Global default thresholds"
                  (lc_FastThreshold c) (lc_NormalThreshold c) (lc_SlowThreshold c)
                  (lc_PenaltyThreshold c) (lc_SevereThreshold c) in
  match lc_ServiceProfiles c !! serviceID with
  | Some profile => profile
  | None =>
      if (profileName =? "")%string then global
      else match lc_ServiceProfiles c !! profileName with
           | Some profile => profile
           | None => match DefaultLatencyProfiles !! profileName with
                     | Some profile => profile
                     | None => global
                     end
           end
  end.

Definition ToLatencyConfig (p : LatencyProfile) (base : LatencyConfig) : LatencyConfig :=
  {| lc_Enabled := lc_Enabled base;
     lc_FastThreshold := lp_FastThreshold p;
     lc_NormalThreshold := lp_NormalThreshold p;
     lc_SlowThreshold := lp_SlowThreshold p;
     lc_PenaltyThreshold := lp_PenaltyThreshold p;
     lc_SevereThreshold := lp_SevereThreshold p;
     lc_FastBonus := lc_FastBonus base;
     lc_SlowPenalty := lc_SlowPenalty base;
     lc_VerySlowPenalty := lc_VerySlowPenalty base;
     lc_ServiceProfiles := ∅ |}.

(** ** Lemmas *)

(** The two default tables (the map of signals.go and the configuration
    defaults of reputation.go) agree. *)
Lemma GetImpact_default t : GetImpact DefaultSignalImpacts t = GetScoreImpact t.
Proof. destruct t; reflexivity. Qed.

Definition impacts_finite (c : SignalImpactsConfig) : Prop :=
  is_finite (si_Success c) = true /\ is_finite (si_MinorError c) = true /\
  is_finite (si_MajorError c) = true /\ is_finite (si_CriticalError c) = true /\
  is_finite (si_FatalError c) = true /\ is_finite (si_RecoverySuccess c) = true /\
  is_finite (si_SlowResponse c) = true /\ is_finite (si_VerySlowResponse c) = true.

Lemma GetImpact_finite c t : impacts_finite c -> is_finite (GetImpact c t) = true.
Proof.
  intros (H1 & H2 & H3 & H4 & H5 & H6 & H7 & H8).
  destruct t; cbn [GetImpact]; unfold or_default; try (destruct (feqb _ f_zero)); auto.
Qed.

Definition latency_finite (c : LatencyConfig) : Prop :=
  is_finite (lc_FastBonus c) = true /\ is_finite (lc_SlowPenalty c) = true /\
  is_finite (lc_VerySlowPenalty c) = true.

Lemma latency_modifier_finite l c : latency_finite c -> is_finite (fst (latency_modifier l c)) = true.
Proof. intros (H1 & H2 & H3). unfold latency_modifier. case_ifs; auto. Qed.

Lemma IsPositive_cases s :
  IsPositive s = true <-> sig_Type s = SignalTypeSuccess \/ sig_Type s = SignalTypeRecoverySuccess.
Proof. unfold IsPositive, GetDefaultImpact. destruct (sig_Type s); cbn; split; intros H; auto; try discriminate; destruct H; discriminate. Qed.
