(* ===== verification/Score.v ===== *)
(** * The reputation score of one endpoint

    [Score] and [LatencyMetrics] of reputation/reputation.go, and the score
    transition of [service.RecordSignal] (reputation/service.go): the additive
    score, the strike system and the two rate detectors.  A call is modelled at
    one instant [now]; the successive [time.Now()] readings of the source fall
    inside one mutex-protected call. *)

From S2P Require Import Prelude GoStrings Float64 Rounding Signals.
From Stdlib Require Import ZArith Lia Bool SpecFloat.
From stdpp Require Import base list gmap.

Open Scope Z_scope.

(** ** Data *)

Record LatencyMetrics := mkLatencyMetrics {
  lm_LastLatency : Duration;
  lm_AvgLatency : Duration;
  lm_MinLatency : Duration;
  lm_MaxLatency : Duration;
  lm_SampleCount : Z;
  lm_LastUpdated : Time;
}.

Record Score := mkScore {
  sc_Value : float64;
  sc_LastUpdated : Time;
  sc_SuccessCount : Z;
  sc_ErrorCount : Z;
  sc_LatencyMetrics : LatencyMetrics;
  sc_CriticalStrikes : Z;
  sc_CooldownUntil : Time;
  sc_RecentCriticalRate : float64;
  sc_RateCooldownCount : Z;
  sc_RateCooldownUntil : Time;
  sc_RecentInvalidRate : float64;
  sc_InvalidRateCooldownCount : Z;
  sc_InvalidRateCooldownUntil : Time;
  sc_IsArchival : bool;
  sc_ArchivalExpiresAt : Time;
}.

Definition zero_latency_metrics : LatencyMetrics := mkLatencyMetrics 0 0 0 0 0 time_zero.

(** Go's zero [Score{}] with the two fields every fresh score sets. *)
Definition fresh_score (value : float64) (lastUpdated : Time) : Score :=
  mkScore value lastUpdated 0 0 zero_latency_metrics 0 time_zero f_zero 0 time_zero f_zero 0 time_zero
    false time_zero.

(** ** Constants *)

Definition MinScore : float64 := f64_of_Z 0.
Definition MaxScore : float64 := f64_of_Z 100.
Definition InitialScore : float64 := f64_of_Z 80.
Definition DefaultMinThreshold : float64 := f64_of_Z 30.

Definition DefaultStrikeThreshold : Z := 5.
Definition DefaultBaseCooldown : Duration := 5 * minute.
Definition DefaultMaxCooldown : Duration := 1 * hour.
Definition DefaultStrikeDecayPerSuccess : Z := 3.

Definition CriticalRateEWMAAlpha : float64 := f64_frac 5 100.
Definition CriticalRateKeep : float64 := f64_frac 95 100. (** the constant [1-CriticalRateEWMAAlpha] *)
Definition CriticalRateThreshold : float64 := f64_frac 30 100.
Definition CriticalRateMinObservations : Z := 20.
Definition DefaultRateCooldown : Duration := 10 * minute.

Definition InvalidRateEWMAAlpha : float64 := f64_frac 1 1000.
Definition InvalidRateKeep : float64 := f64_frac 999 1000. (** the constant [1-InvalidRateEWMAAlpha] *)
Definition InvalidRateThreshold : float64 := f64_frac 5 1000.
Definition InvalidRateMinObservations : Z := 1000.

(** ** Latency metrics *)

Definition UpdateLatency (m : LatencyMetrics) (now : Time) (latency : Duration) : LatencyMetrics :=
  {| lm_LastLatency := latency;
     lm_SampleCount := wrap64 (lm_SampleCount m + 1);
     lm_LastUpdated := now;
     lm_MinLatency := if (lm_MinLatency m =? 0) || (latency <? lm_MinLatency m) then latency else lm_MinLatency m;
     lm_MaxLatency := if lm_MaxLatency m <? latency then latency else lm_MaxLatency m;
     lm_AvgLatency :=
       if lm_AvgLatency m =? 0 then latency
       else f64_trunc (fadd (fmul (f64_of_Z (lm_AvgLatency m)) (f64_frac 9 10))
                            (fmul (f64_of_Z latency) (f64_frac 1 10))) |}.

(** ** Queries on a score *)

Definition IsValid (s : Score) : bool := fgeb (sc_Value s) MinScore && fleb (sc_Value s) MaxScore.

Definition IsInCooldown (s : Score) (now : Time) : bool :=
  negb (time_is_zero (sc_CooldownUntil s)) && time_before now (sc_CooldownUntil s).

Definition CooldownRemaining (s : Score) (now : Time) : Duration :=
  if time_is_zero (sc_CooldownUntil s) then 0
  else let remaining := time_sub (sc_CooldownUntil s) now in
       if remaining <? 0 then 0 else remaining.

Definition IsArchivalCapable (s : Score) (now : Time) : bool :=
  if negb (sc_IsArchival s) then false
  else if time_is_zero (sc_ArchivalExpiresAt s) then false
  else time_before now (sc_ArchivalExpiresAt s).

Definition ArchivalRemaining (s : Score) (now : Time) : Duration :=
  if time_is_zero (sc_ArchivalExpiresAt s) then 0
  else let remaining := time_sub (sc_ArchivalExpiresAt s) now in
       if remaining <? 0 then 0 else remaining.

Definition clamp (value min max : float64) : float64 :=
  if fltb value min then min else if fgtb value max then max else value.

(** ** Field updates *)

Definition with_value (s : Score) (v : float64) (t : Time) : Score :=
  mkScore v t (sc_SuccessCount s) (sc_ErrorCount s) (sc_LatencyMetrics s) (sc_CriticalStrikes s)
    (sc_CooldownUntil s) (sc_RecentCriticalRate s) (sc_RateCooldownCount s) (sc_RateCooldownUntil s)
    (sc_RecentInvalidRate s) (sc_InvalidRateCooldownCount s) (sc_InvalidRateCooldownUntil s)
    (sc_IsArchival s) (sc_ArchivalExpiresAt s).

Definition with_counts (s : Score) (succ err strikes : Z) : Score :=
  mkScore (sc_Value s) (sc_LastUpdated s) succ err (sc_LatencyMetrics s) strikes
    (sc_CooldownUntil s) (sc_RecentCriticalRate s) (sc_RateCooldownCount s) (sc_RateCooldownUntil s)
    (sc_RecentInvalidRate s) (sc_InvalidRateCooldownCount s) (sc_InvalidRateCooldownUntil s)
    (sc_IsArchival s) (sc_ArchivalExpiresAt s).

Definition with_strikes (s : Score) (strikes : Z) (until : Time) : Score :=
  mkScore (sc_Value s) (sc_LastUpdated s) (sc_SuccessCount s) (sc_ErrorCount s) (sc_LatencyMetrics s) strikes
    until (sc_RecentCriticalRate s) (sc_RateCooldownCount s) (sc_RateCooldownUntil s)
    (sc_RecentInvalidRate s) (sc_InvalidRateCooldownCount s) (sc_InvalidRateCooldownUntil s)
    (sc_IsArchival s) (sc_ArchivalExpiresAt s).

Definition with_rate (s : Score) (until : Time) (rate : float64) (cnt : Z) (rateUntil : Time) : Score :=
  mkScore (sc_Value s) (sc_LastUpdated s) (sc_SuccessCount s) (sc_ErrorCount s) (sc_LatencyMetrics s)
    (sc_CriticalStrikes s) until rate cnt rateUntil
    (sc_RecentInvalidRate s) (sc_InvalidRateCooldownCount s) (sc_InvalidRateCooldownUntil s)
    (sc_IsArchival s) (sc_ArchivalExpiresAt s).

Definition with_invalid_rate (s : Score) (until : Time) (rate : float64) (cnt : Z) (rateUntil : Time) : Score :=
  mkScore (sc_Value s) (sc_LastUpdated s) (sc_SuccessCount s) (sc_ErrorCount s) (sc_LatencyMetrics s)
    (sc_CriticalStrikes s) until (sc_RecentCriticalRate s) (sc_RateCooldownCount s) (sc_RateCooldownUntil s)
    rate cnt rateUntil (sc_IsArchival s) (sc_ArchivalExpiresAt s).

Definition with_latency (s : Score) (m : LatencyMetrics) : Score :=
  mkScore (sc_Value s) (sc_LastUpdated s) (sc_SuccessCount s) (sc_ErrorCount s) m
    (sc_CriticalStrikes s) (sc_CooldownUntil s) (sc_RecentCriticalRate s) (sc_RateCooldownCount s)
    (sc_RateCooldownUntil s) (sc_RecentInvalidRate s) (sc_InvalidRateCooldownCount s)
    (sc_InvalidRateCooldownUntil s) (sc_IsArchival s) (sc_ArchivalExpiresAt s).

Definition with_archival (s : Score) (b : bool) (expires now : Time) : Score :=
  mkScore (sc_Value s) now (sc_SuccessCount s) (sc_ErrorCount s) (sc_LatencyMetrics s)
    (sc_CriticalStrikes s) (sc_CooldownUntil s) (sc_RecentCriticalRate s) (sc_RateCooldownCount s)
    (sc_RateCooldownUntil s) (sc_RecentInvalidRate s) (sc_InvalidRateCooldownCount s)
    (sc_InvalidRateCooldownUntil s) b expires.

(** ** The steps of RecordSignal on the score *)

(** Apply the impact and clamp. *)
Definition apply_impact (s : Score) (impact : float64) (now : Time) : Score :=
  with_value s (clamp (fadd (sc_Value s) impact) MinScore MaxScore) now.

(** Count the signal; a positive one decays the strikes. *)
Definition count_signal (s : Score) (signal : Signal) : Score :=
  if IsPositive signal then
    let strikes :=
      if 0 <? sc_CriticalStrikes s then
        let c := sc_CriticalStrikes s - DefaultStrikeDecayPerSuccess in if c <? 0 then 0 else c
      else sc_CriticalStrikes s in
    with_counts s (wrap64 (sc_SuccessCount s + 1)) (sc_ErrorCount s) strikes
  else if IsNegative signal then
    with_counts s (sc_SuccessCount s) (wrap64 (sc_ErrorCount s + 1)) (sc_CriticalStrikes s)
  else s.

Definition is_critical (signal : Signal) : bool :=
  match sig_Type signal with
  | SignalTypeCriticalError | SignalTypeFatalError => true
  | _ => false
  end.

Definition strike_cooldown (strikes : Z) : Duration :=
  let exponent := strikes - DefaultStrikeThreshold in
  let exponent := if 7 <? exponent then 7 else exponent in
  let cooldownDuration := wrap64 (DefaultBaseCooldown * Z.shiftl 1 exponent) in
  if DefaultMaxCooldown <? cooldownDuration then DefaultMaxCooldown else cooldownDuration.

(** The strike system. *)
Definition strike_step (s : Score) (signal : Signal) (now : Time) : Score :=
  if is_critical signal then
    let strikes := wrap64 (sc_CriticalStrikes s + 1) in
    if DefaultStrikeThreshold <=? strikes then
      with_strikes s strikes (time_add now (strike_cooldown strikes))
    else with_strikes s strikes (sc_CooldownUntil s)
  else s.

Definition ewma (keep alpha rate indicator : float64) : float64 :=
  fadd (fmul rate keep) (fmul alpha indicator).

(** The escalation both rate detectors share: the new consecutive-trip count. *)
Definition escalate (count : Z) (prevUntil now : Time) : Z :=
  if negb (time_is_zero prevUntil) && (time_sub now prevUntil <? DefaultMaxCooldown)
  then wrap64 (count + 1) else 1.

Definition rate_cooldown_duration (count : Z) : Duration :=
  let d := wrap64 (DefaultRateCooldown * count) in
  if DefaultMaxCooldown <? d then DefaultMaxCooldown else d.

Definition extend_cooldown (current until : Time) : Time :=
  if time_after until current then until else current.

Definition observations (s : Score) : Z := wrap64 (sc_SuccessCount s + sc_ErrorCount s).

(** The critical-rate detector. *)
Definition rate_step (s : Score) (signal : Signal) (now : Time) : Score :=
  let criticalIndicator := if is_critical signal then f_one else f_zero in
  let rate := ewma CriticalRateKeep CriticalRateEWMAAlpha (sc_RecentCriticalRate s) criticalIndicator in
  if fgeb rate CriticalRateThreshold && (CriticalRateMinObservations <=? observations s) then
    let count := escalate (sc_RateCooldownCount s) (sc_RateCooldownUntil s) now in
    let until := time_add now (rate_cooldown_duration count) in
    with_rate s (extend_cooldown (sc_CooldownUntil s) until) f_zero count until
  else
    with_rate s (sc_CooldownUntil s) rate (sc_RateCooldownCount s) (sc_RateCooldownUntil s).

(** The protocol-violation detector. *)
Definition invalid_step (s : Score) (signal : Signal) (now : Time) : Score :=
  let invalidIndicator := if sig_IsProtocolViolation signal then f_one else f_zero in
  let rate := ewma InvalidRateKeep InvalidRateEWMAAlpha (sc_RecentInvalidRate s) invalidIndicator in
  if fgeb rate InvalidRateThreshold && (InvalidRateMinObservations <=? observations s) then
    let count := escalate (sc_InvalidRateCooldownCount s) (sc_InvalidRateCooldownUntil s) now in
    let until := time_add now (rate_cooldown_duration count) in
    with_invalid_rate s (extend_cooldown (sc_CooldownUntil s) until) f_zero count until
  else
    with_invalid_rate s (sc_CooldownUntil s) rate (sc_InvalidRateCooldownCount s) (sc_InvalidRateCooldownUntil s).

Definition detector_steps (s : Score) (signal : Signal) (now : Time) : Score :=
  if sig_IsHealthCheck signal then s
  else invalid_step (rate_step s signal now) signal now.

Definition latency_step (s : Score) (signal : Signal) (now : Time) : Score :=
  if 0 <? sig_Latency signal then with_latency s (UpdateLatency (sc_LatencyMetrics s) now (sig_Latency signal))
  else s.

(** The score transition of [RecordSignal], in the order of the source. *)
Definition score_after_signal (s : Score) (signal : Signal) (impact : float64) (now : Time) : Score :=
  let s := apply_impact s impact now in
  let s := count_signal s signal in
  let s := strike_step s signal now in
  let s := detector_steps s signal now in
  latency_step s signal now.
