(* ===== verification/ScoreProps.v ===== *)
(** * Correctness of the score transition

    The invariant of a score (value in [0,100], both failure rates in [0,1], no
    negative strikes) is preserved by every signal, in binary64 arithmetic; the
    strike back-off equals its specification; the two rate detectors only extend
    a cooldown, escalate independently of every other mechanism, trip on
    sustained failure and never on clean traffic. *)

From S2P Require Import Prelude GoStrings Float64 Rounding Signals Score.
From Stdlib Require Import ZArith Lia Bool SpecFloat String.
From stdpp Require Import base list gmap strings.

Open Scope string_scope.
Open Scope Z_scope.

(** ** The exponentially weighted rate *)

(** A rate: a canonical non-negative number at most 1. *)
Definition unit_rate (r : float64) : Prop := fpos_ok r = true /\ fz r <= fz f_one.

Lemma fz_one : fz f_one = 2 ^ 1074.
Proof. vm_compute. reflexivity. Qed.

(** The smoothing constants of a detector: they sum to at most 1. *)
Record ewma_consts (keep alpha : float64) : Prop := {
  ec_keep : fpos_ok keep = true;
  ec_alpha : fpos_ok alpha = true;
  ec_sum : fz keep + fz alpha <= fz f_one;
}.

Lemma critical_consts : ewma_consts CriticalRateKeep CriticalRateEWMAAlpha.
Proof. split; [reflexivity|reflexivity|]. apply Z.leb_le. vm_compute. reflexivity. Qed.

Lemma invalid_consts : ewma_consts InvalidRateKeep InvalidRateEWMAAlpha.
Proof. split; [reflexivity|reflexivity|]. apply Z.leb_le. vm_compute. reflexivity. Qed.

Lemma unit_rate_zero : unit_rate f_zero.
Proof. split; [reflexivity|]. rewrite fz_one. cbn. apply Z.pow_nonneg. lia. Qed.

Lemma unit_rate_one : unit_rate f_one.
Proof. split; [reflexivity|lia]. Qed.

#[export] Hint Resolve unit_rate_zero unit_rate_one critical_consts invalid_consts : go.

Section Ewma.
Context (keep alpha : float64) (HC : ewma_consts keep alpha).

(** A product with a factor in [0,1] is at most the other factor. *)
Lemma fmul_unit_le x r :
  fpos_ok x = true -> unit_rate r ->
  fpos_ok (fmul x r) = true /\ 0 <= fz (fmul x r) <= fz x.
Proof.
  intros Hx [Hr1 Hr2]. pose proof (fz_nonneg _ Hx). pose proof (fz_nonneg _ Hr1).
  apply (fmul_between x r f_zero x); try assumption; [reflexivity|].
  rewrite <- fz_one. change (fz f_zero) with 0. nia.
Qed.

Lemma fmul_unit_le_l x r :
  fpos_ok x = true -> unit_rate r ->
  fpos_ok (fmul r x) = true /\ 0 <= fz (fmul r x) <= fz x.
Proof.
  intros Hx [Hr1 Hr2]. pose proof (fz_nonneg _ Hx). pose proof (fz_nonneg _ Hr1).
  apply (fmul_between r x f_zero x); try assumption; [reflexivity|].
  rewrite <- fz_one. change (fz f_zero) with 0. nia.
Qed.

Lemma ewma_unit r i : unit_rate r -> unit_rate i -> unit_rate (ewma keep alpha r i).
Proof using HC.
  intros Hr Hi. destruct HC as [Hk Ha Hs].
  destruct (fmul_unit_le_l keep r Hk Hr) as [H1 H2].
  destruct (fmul_unit_le alpha i Ha Hi) as [H3 H4].
  destruct (fadd_between (fmul r keep) (fmul alpha i) f_zero f_one) as [H5 H6];
    try assumption; try reflexivity; [change (fz f_zero) with 0; lia|].
  split; [assumption|unfold ewma; lia].
Qed.

(** With the indicator at 0 the rate does not grow. *)
Lemma ewma_zero_le r : unit_rate r -> fz (ewma keep alpha r f_zero) <= fz r.
Proof using HC.
  intros Hr. pose proof Hr as [Hr1 Hr2]. destruct HC as [Hk Ha Hs].
  assert (Hku : unit_rate keep) by (split; [assumption|pose proof (fz_nonneg _ Ha); lia]).
  destruct (fmul_unit_le r keep Hr1 Hku) as [H1 H2].
  destruct (fmul_unit_le alpha f_zero Ha unit_rate_zero) as [H3 H4].
  assert (fz (fmul alpha f_zero) = 0) as E by (clear -Ha; destruct alpha as [[]|[]| |[]]; cbn in Ha; try discriminate; reflexivity).
  destruct (fadd_between (fmul r keep) (fmul alpha f_zero) f_zero r) as [H5 H6];
    try assumption; try reflexivity; [change (fz f_zero) with 0; lia|].
  unfold ewma. lia.
Qed.

(** With the indicator at 1 it is at least any representable [n] that an exact
    step from a lower bound reaches. *)
Lemma ewma_one_ge r lo m n :
  unit_rate r -> fz lo <= fz r ->
  fpos_ok m = true -> fpos_ok n = true ->
  0 <= fz lo -> fz m * 2 ^ 1074 <= fz lo * fz keep -> fz n <= fz m + fz alpha ->
  fz n <= fz (ewma keep alpha r f_one).
Proof using HC.
  intros Hr Hlo Hm Hn H0 Hstep Hend. pose proof Hr as [Hr1 Hr2]. destruct HC as [Hk Ha Hs].
  pose proof (fz_nonneg _ Hk) as Pk. pose proof (fz_nonneg _ Ha) as Pa.
  assert (Hku : unit_rate keep) by (split; [assumption|lia]).
  assert (Hau : unit_rate alpha) by (split; [assumption|lia]).
  destruct (fmul_between r keep m keep) as [H1 H2]; try assumption.
  { rewrite <- fz_one. rewrite <- fz_one in Hstep. split; nia. }
  destruct (fmul_between alpha f_one alpha alpha) as [H3 H4]; try assumption; try reflexivity.
  { rewrite <- fz_one. lia. }
  destruct (fadd_between (fmul r keep) (fmul alpha f_one) n f_one) as [H5 H6];
    try assumption; try reflexivity; [lia|].
  unfold ewma. lia.
Qed.
End Ewma.

(** ** The score invariant *)

Record score_ok (s : Score) : Prop := {
  so_value : fleb MinScore (sc_Value s) = true /\ fleb (sc_Value s) MaxScore = true;
  so_rate : unit_rate (sc_RecentCriticalRate s);
  so_invalid : unit_rate (sc_RecentInvalidRate s);
  so_strikes : 0 <= sc_CriticalStrikes s;
}.

Lemma clamp_bounds v :
  is_nan v = false -> fleb MinScore (clamp v MinScore MaxScore) = true /\ fleb (clamp v MinScore MaxScore) MaxScore = true.
Proof. intros H. now apply fleb_clamp_bounds. Qed.

Lemma fresh_score_ok v t :
  fleb MinScore v = true -> fleb v MaxScore = true -> score_ok (fresh_score v t).
Proof. intros H1 H2. split; cbn; auto with go. lia. Qed.

Lemma apply_impact_ok s impact now :
  score_ok s -> is_nan impact = false -> score_ok (apply_impact s impact now).
Proof.
  intros [[V1 V2] R I S] Hi. split; cbn; auto. apply clamp_bounds.
  apply fadd_not_nan; [|assumption]. now apply (fleb_finite MinScore _ MaxScore).
Qed.

Lemma count_signal_ok s signal : score_ok s -> score_ok (count_signal s signal).
Proof.
  intros [V R I S]. unfold count_signal.
  destruct (IsPositive signal); [|destruct (IsNegative signal)]; split; cbn; auto.
  destruct (0 <? sc_CriticalStrikes s); [|assumption].
  destruct (_ <? 0) eqn:E; breflect; lia.
Qed.

Lemma strike_step_ok s signal now :
  score_ok s -> sc_CriticalStrikes s < max_int64 -> score_ok (strike_step s signal now).
Proof.
  intros [V R I S] Hlt. unfold strike_step. destruct (is_critical signal); [|split; auto].
  assert (E : wrap64 (sc_CriticalStrikes s + 1) = sc_CriticalStrikes s + 1)
    by (apply wrap64_id; unfold in_int64, min_int64 in *; lia).
  rewrite E. destruct (DefaultStrikeThreshold <=? _); split; cbn; auto; lia.
Qed.

Lemma indicator_unit (b : bool) : unit_rate (if b then f_one else f_zero).
Proof. destruct b; auto with go. Qed.

Lemma rate_step_ok s signal now : score_ok s -> score_ok (rate_step s signal now).
Proof.
  intros [V R I S]. unfold rate_step.
  pose proof (ewma_unit _ _ critical_consts _ _ R (indicator_unit (is_critical signal))).
  destruct (_ && _); split; cbn; auto with go.
Qed.

Lemma invalid_step_ok s signal now : score_ok s -> score_ok (invalid_step s signal now).
Proof.
  intros [V R I S]. unfold invalid_step.
  pose proof (ewma_unit _ _ invalid_consts _ _ I (indicator_unit (sig_IsProtocolViolation signal))).
  destruct (_ && _); split; cbn; auto with go.
Qed.

Lemma detector_steps_ok s signal now : score_ok s -> score_ok (detector_steps s signal now).
Proof.
  intros H. unfold detector_steps.
  destruct (sig_IsHealthCheck signal); auto using rate_step_ok, invalid_step_ok.
Qed.

Lemma latency_step_ok s signal now : score_ok s -> score_ok (latency_step s signal now).
Proof. intros [V R I S]. unfold latency_step. destruct (0 <? sig_Latency signal); split; auto. Qed.

#[export] Hint Resolve fresh_score_ok apply_impact_ok count_signal_ok strike_step_ok
  detector_steps_ok latency_step_ok : go.

Lemma count_signal_strikes s signal :
  0 <= sc_CriticalStrikes s -> 0 <= sc_CriticalStrikes (count_signal s signal) <= sc_CriticalStrikes s.
Proof.
  intros H. unfold count_signal, DefaultStrikeDecayPerSuccess.
  destruct (IsPositive signal); [|destruct (IsNegative signal)]; cbn; try lia.
  destruct (0 <? sc_CriticalStrikes s) eqn:E; [|lia].
  destruct (_ <? 0) eqn:E2; breflect; lia.
Qed.

Lemma score_after_signal_inv s signal impact now :
  score_ok s -> is_nan impact = false -> sc_CriticalStrikes s < max_int64 ->
  score_ok (score_after_signal s signal impact now).
Proof.
  intros Hs Hi Hk. unfold score_after_signal.
  apply latency_step_ok, detector_steps_ok, strike_step_ok; [auto with go|].
  pose proof (count_signal_strikes (apply_impact s impact now) signal) as Hc.
  destruct Hs as [_ _ _ S]. cbn in Hc. specialize (Hc S). lia.
Qed.

(** ** Sequences of signals *)

Record event := mkEvent { ev_signal : Signal; ev_impact : float64; ev_now : Time }.

Definition score_step (s : Score) (e : event) : Score :=
  score_after_signal s (ev_signal e) (ev_impact e) (ev_now e).

Definition score_run (s : Score) (es : list event) : Score := fold_left score_step es s.

(** The states a run goes through, each with the event about to be applied. *)
Fixpoint score_trace (s : Score) (es : list event) : list (Score * event) :=
  match es with
  | [] => []
  | e :: es' => (s, e) :: score_trace (score_step s e) es'
  end.

Lemma rate_step_fields s signal now :
  sc_CriticalStrikes (rate_step s signal now) = sc_CriticalStrikes s /\
  sc_SuccessCount (rate_step s signal now) = sc_SuccessCount s /\
  sc_ErrorCount (rate_step s signal now) = sc_ErrorCount s.
Proof. unfold rate_step. destruct (_ && _); auto. Qed.

Lemma invalid_step_fields s signal now :
  sc_CriticalStrikes (invalid_step s signal now) = sc_CriticalStrikes s /\
  sc_RecentCriticalRate (invalid_step s signal now) = sc_RecentCriticalRate s /\
  sc_SuccessCount (invalid_step s signal now) = sc_SuccessCount s /\
  sc_ErrorCount (invalid_step s signal now) = sc_ErrorCount s.
Proof. unfold invalid_step. destruct (_ && _); auto. Qed.

Lemma latency_step_fields s signal now :
  sc_CriticalStrikes (latency_step s signal now) = sc_CriticalStrikes s /\
  sc_RecentCriticalRate (latency_step s signal now) = sc_RecentCriticalRate s /\
  sc_SuccessCount (latency_step s signal now) = sc_SuccessCount s /\
  sc_ErrorCount (latency_step s signal now) = sc_ErrorCount s.
Proof. unfold latency_step. destruct (0 <? _); auto. Qed.

Lemma detector_steps_strikes s signal now :
  sc_CriticalStrikes (detector_steps s signal now) = sc_CriticalStrikes s.
Proof.
  unfold detector_steps. destruct (sig_IsHealthCheck signal); [reflexivity|].
  destruct (invalid_step_fields (rate_step s signal now) signal now) as (-> & _).
  apply rate_step_fields.
Qed.

Lemma strike_step_le s signal now :
  0 <= sc_CriticalStrikes s < max_int64 ->
  sc_CriticalStrikes (strike_step s signal now) <= sc_CriticalStrikes s + 1.
Proof.
  intros H. unfold strike_step. destruct (is_critical signal); [|lia].
  rewrite wrap64_id by (unfold in_int64, min_int64; lia).
  destruct (DefaultStrikeThreshold <=? _); cbn; lia.
Qed.

Lemma score_step_strikes s e :
  0 <= sc_CriticalStrikes s < max_int64 ->
  sc_CriticalStrikes (score_step s e) <= sc_CriticalStrikes s + 1.
Proof.
  intros H. unfold score_step, score_after_signal.
  destruct (latency_step_fields
    (detector_steps (strike_step (count_signal (apply_impact s (ev_impact e) (ev_now e)) (ev_signal e))
       (ev_signal e) (ev_now e)) (ev_signal e) (ev_now e)) (ev_signal e) (ev_now e)) as (-> & _).
  rewrite detector_steps_strikes.
  pose proof (count_signal_strikes (apply_impact s (ev_impact e) (ev_now e)) (ev_signal e)) as Hc.
  cbn in Hc. specialize (Hc ltac:(lia)).
  pose proof (strike_step_le (count_signal (apply_impact s (ev_impact e) (ev_now e)) (ev_signal e))
    (ev_signal e) (ev_now e) ltac:(lia)). lia.
Qed.

Lemma score_run_ok es : forall s,
  score_ok s -> Forall (fun e => is_nan (ev_impact e) = false) es ->
  sc_CriticalStrikes s + Z.of_nat (List.length es) <= max_int64 ->
  score_ok (score_run s es).
Proof.
  induction es as [|e es IH]; intros s Hs Hn Hl; [exact Hs|].
  inversion Hn as [|? ? H1 H2]; subst. cbn [length] in Hl.
  pose proof (so_strikes _ Hs).
  apply IH; [|assumption|].
  - apply score_after_signal_inv; [assumption|assumption|lia].
  - pose proof (score_step_strikes s e ltac:(lia)). lia.
Qed.

(** ** The cooldowns *)

Lemma extend_cooldown_ge c u : c <= extend_cooldown c u /\ u <= extend_cooldown c u.
Proof. unfold extend_cooldown, time_after. destruct (c <? u) eqn:E; breflect; lia. Qed.

Lemma rate_step_extends s signal now : sc_CooldownUntil s <= sc_CooldownUntil (rate_step s signal now).
Proof. unfold rate_step. destruct (_ && _); cbn; [apply extend_cooldown_ge|lia]. Qed.

Lemma invalid_step_extends s signal now : sc_CooldownUntil s <= sc_CooldownUntil (invalid_step s signal now).
Proof. unfold invalid_step. destruct (_ && _); cbn; [apply extend_cooldown_ge|lia]. Qed.

(** What the strike system promises: the base cooldown doubled for every strike
    over the threshold, at most the maximum. *)
Definition strike_cooldown_ref (strikes : Z) : Duration :=
  Z.min (DefaultBaseCooldown * 2 ^ (strikes - DefaultStrikeThreshold)) DefaultMaxCooldown.

Lemma strike_cooldown_eq strikes :
  DefaultStrikeThreshold <= strikes -> strike_cooldown strikes = strike_cooldown_ref strikes.
Proof.
  intros H. unfold strike_cooldown, strike_cooldown_ref, DefaultStrikeThreshold in *.
  rewrite Z.shiftl_1_l. destruct (7 <? strikes - 5) eqn:E; breflect.
  - replace (wrap64 (DefaultBaseCooldown * 2 ^ 7)) with (DefaultBaseCooldown * 2 ^ 7) by reflexivity.
    assert (2 ^ 7 <= 2 ^ (strikes - 5)) by (apply Z.pow_le_mono_r; lia).
    change (DefaultMaxCooldown <? DefaultBaseCooldown * 2 ^ 7) with true. cbv iota.
    unfold DefaultBaseCooldown, DefaultMaxCooldown, hour, minute, second in *. lia.
  - assert (Hp : 1 <= 2 ^ (strikes - 5) <= 2 ^ 7).
    { split; [|apply Z.pow_le_mono_r; lia]. pose proof (Z.pow_pos_nonneg 2 (strikes - 5)). lia. }
    rewrite wrap64_id.
    + destruct (_ <? _) eqn:E2; breflect; lia.
    + unfold in_int64, min_int64, max_int64, DefaultBaseCooldown, minute, second. lia.
Qed.

(** The specification of the rate detectors' back-off: linear, capped. *)
Lemma rate_cooldown_duration_eq count :
  1 <= count <= 10 ^ 6 ->
  rate_cooldown_duration count = Z.min (DefaultRateCooldown * count) DefaultMaxCooldown.
Proof.
  intros H. unfold rate_cooldown_duration. rewrite wrap64_id.
  - destruct (_ <? _) eqn:E; breflect; lia.
  - unfold in_int64, min_int64, max_int64, DefaultRateCooldown, minute, second. lia.
Qed.

(** ** When the critical-rate detector trips *)

Definition rate_trips (s : Score) (signal : Signal) : bool :=
  fgeb (ewma CriticalRateKeep CriticalRateEWMAAlpha (sc_RecentCriticalRate s)
          (if is_critical signal then f_one else f_zero)) CriticalRateThreshold
  && (CriticalRateMinObservations <=? observations s).

Lemma rate_step_trip s signal now :
  rate_trips s signal = true ->
  now + DefaultRateCooldown <= sc_RateCooldownUntil (rate_step s signal now) \/
  ~ (0 <= sc_RateCooldownCount s < 10 ^ 6).
Proof.
  unfold rate_trips, rate_step. intros ->.
  destruct (decide (0 <= sc_RateCooldownCount s < 10 ^ 6)) as [Hc|Hc]; [left|right; assumption].
  cbn [with_rate sc_RateCooldownUntil]. unfold time_add.
  rewrite rate_cooldown_duration_eq.
  - unfold escalate, DefaultMaxCooldown, DefaultRateCooldown, hour, minute, second.
    destruct (_ && _); [|lia]. rewrite wrap64_id; [lia|]. unfold in_int64, min_int64, max_int64. lia.
  - unfold escalate. destruct (_ && _); [|lia].
    rewrite wrap64_id; [lia|]. unfold in_int64, min_int64, max_int64. lia.
Qed.

(** Lower bounds on the rate after 0, 1, 2, ... consecutive critical signals, on
    a grid of 2^-40: each is an exact step below the previous one. *)
Definition floor_prod (n : Z) : Z := Z.max 0 (n * 95 / 100 - 1).
Definition floor_next (n : Z) : Z := floor_prod n + 2 ^ 40 * 5 / 100 - 1.
Definition floor_grid (n : Z) : float64 := f64_frac n (2 ^ 40).
Definition rate_floor (k : nat) : Z := Nat.iter k floor_next 0.

Definition floor_step_ok (n : Z) : bool :=
  let lo := floor_grid n in
  let m := floor_grid (floor_prod n) in
  let r := floor_grid (floor_next n) in
  fpos_ok lo && fpos_ok m && fpos_ok r &&
  (fz m * 2 ^ 1074 <=? fz lo * fz CriticalRateKeep) &&
  (fz r <=? fz m + fz CriticalRateEWMAAlpha).

Lemma rate_floor_steps : forallb (fun k => floor_step_ok (rate_floor k)) (seq 0 7) = true.
Proof. vm_compute. reflexivity. Qed.

Lemma rate_floor_reaches : fz CriticalRateThreshold <= fz (floor_grid (rate_floor 7)).
Proof. apply Z.leb_le. vm_compute. reflexivity. Qed.

Lemma rate_floor_step k r :
  (k < 7)%nat -> unit_rate r -> fz (floor_grid (rate_floor k)) <= fz r ->
  fz (floor_grid (rate_floor (S k))) <= fz (ewma CriticalRateKeep CriticalRateEWMAAlpha r f_one).
Proof.
  intros Hk Hr Hle. pose proof rate_floor_steps as F.
  rewrite forallb_forall in F. specialize (F k ltac:(apply in_seq; lia)).
  unfold floor_step_ok in F. rewrite !andb_true_iff, !Z.leb_le in F.
  destruct F as ((((F1 & F2) & F3) & F4) & F5).
  change (rate_floor (S k)) with (floor_next (rate_floor k)).
  apply (ewma_one_ge _ _ critical_consts r (floor_grid (rate_floor k)) (floor_grid (floor_prod (rate_floor k))));
    auto. now apply fz_nonneg.
Qed.

(** The state the detectors see. *)
Definition pre_detectors (s : Score) (e : event) : Score :=
  strike_step (count_signal (apply_impact s (ev_impact e) (ev_now e)) (ev_signal e)) (ev_signal e) (ev_now e).

Definition trips_at (p : Score * event) : bool :=
  negb (sig_IsHealthCheck (ev_signal (snd p))) && rate_trips (pre_detectors (fst p) (snd p)) (ev_signal (snd p)).

Definition user_critical (e : event) : Prop :=
  is_critical (ev_signal e) = true /\ sig_IsHealthCheck (ev_signal e) = false.

Lemma is_critical_negative signal : is_critical signal = true -> IsPositive signal = false /\ IsNegative signal = true.
Proof. unfold is_critical, IsPositive, IsNegative, GetDefaultImpact. destruct (sig_Type signal); try discriminate; auto. Qed.

Lemma pre_detectors_critical s e :
  user_critical e ->
  let p := pre_detectors s e in
  sc_RecentCriticalRate p = sc_RecentCriticalRate s /\ sc_RateCooldownCount p = sc_RateCooldownCount s /\
  sc_SuccessCount p = sc_SuccessCount s /\ sc_ErrorCount p = wrap64 (sc_ErrorCount s + 1).
Proof.
  intros [Hc _]. destruct (is_critical_negative _ Hc) as [Hp Hn]. cbv zeta.
  unfold pre_detectors, strike_step, count_signal. rewrite Hc, Hp, Hn.
  destruct (DefaultStrikeThreshold <=? _); auto.
Qed.

(** Enough observations for the detector, and room to count [n] more errors. *)
Record observed (s : Score) (n : nat) : Prop := {
  ob_succ : 0 <= sc_SuccessCount s;
  ob_err : 0 <= sc_ErrorCount s;
  ob_min : CriticalRateMinObservations <= sc_SuccessCount s + sc_ErrorCount s;
  ob_room : sc_SuccessCount s + sc_ErrorCount s + Z.of_nat n <= max_int64;
}.

Lemma observed_pre s e n :
  user_critical e -> observed s (S n) ->
  (CriticalRateMinObservations <=? observations (pre_detectors s e)) = true /\
  sc_ErrorCount (pre_detectors s e) = sc_ErrorCount s + 1.
Proof.
  intros He [H1 H2 H3 H4]. destruct (pre_detectors_critical s e He) as (_ & _ & E1 & E2).
  unfold observations. rewrite E1, E2. unfold CriticalRateMinObservations in *.
  rewrite (wrap64_id (sc_ErrorCount s + 1)) by (unfold in_int64, min_int64; lia).
  split; [|reflexivity]. rewrite wrap64_id by (unfold in_int64, min_int64; lia).
  apply Z.leb_le. lia.
Qed.

Lemma score_step_unfold s e :
  score_step s e = latency_step (detector_steps (pre_detectors s e) (ev_signal e) (ev_now e)) (ev_signal e) (ev_now e).
Proof. reflexivity. Qed.

(** A trip benches the endpoint for at least the base cooldown. *)
Lemma trip_benches s e :
  trips_at (s, e) = true -> user_critical e -> 0 <= sc_RateCooldownCount s < 10 ^ 6 ->
  ev_now e + DefaultRateCooldown <= sc_CooldownUntil (score_step s e).
Proof.
  intros Ht He Hc. unfold trips_at in Ht. cbn [fst snd] in Ht. apply andb_true_iff in Ht as [Hh Ht].
  destruct (pre_detectors_critical s e He) as (_ & Ec & _).
  rewrite score_step_unfold. unfold detector_steps. rewrite (proj2 He).
  set (p := pre_detectors s e) in *. set (sg := ev_signal e) in *. set (now := ev_now e) in *.
  assert (Hr : now + DefaultRateCooldown <= sc_CooldownUntil (rate_step p sg now)).
  { destruct (rate_step_trip p sg now Ht) as [H|H]; [|rewrite Ec in H; contradiction].
    unfold rate_step in *. unfold rate_trips in Ht. rewrite Ht in *. cbn in *.
    pose proof (extend_cooldown_ge (sc_CooldownUntil p)
      (time_add now (rate_cooldown_duration (escalate (sc_RateCooldownCount p) (sc_RateCooldownUntil p) now)))). lia. }
  pose proof (invalid_step_extends (rate_step p sg now) sg now).
  replace (sc_CooldownUntil (latency_step (invalid_step (rate_step p sg now) sg now) sg now))
    with (sc_CooldownUntil (invalid_step (rate_step p sg now) sg now)); [lia|].
  unfold latency_step. now destruct (0 <? sig_Latency sg).
Qed.

(** An event that does not trip leaves the exact average behind. *)
Lemma no_trip_step s e n :
  trips_at (s, e) = false -> user_critical e -> observed s (S n) ->
  sc_RecentCriticalRate (score_step s e) =
    ewma CriticalRateKeep CriticalRateEWMAAlpha (sc_RecentCriticalRate s) f_one /\
  sc_RateCooldownCount (score_step s e) = sc_RateCooldownCount s /\
  observed (score_step s e) n.
Proof.
  intros Ht He Ho. destruct (pre_detectors_critical s e He) as (Er & Ec & E1 & E2).
  destruct (observed_pre s e n He Ho) as [Hobs Eerr].
  unfold trips_at in Ht. cbn [fst snd] in Ht. rewrite (proj2 He) in Ht. cbn [negb andb] in Ht.
  rewrite score_step_unfold. unfold detector_steps. rewrite (proj2 He).
  set (p := pre_detectors s e) in *. set (sg := ev_signal e) in *. set (now := ev_now e) in *.
  destruct (latency_step_fields (invalid_step (rate_step p sg now) sg now) sg now) as (_ & -> & S1 & S2).
  assert (Lc : sc_RateCooldownCount (latency_step (invalid_step (rate_step p sg now) sg now) sg now)
               = sc_RateCooldownCount (rate_step p sg now)).
  { unfold latency_step, invalid_step. destruct (0 <? _), (_ && _); reflexivity. }
  destruct (invalid_step_fields (rate_step p sg now) sg now) as (_ & -> & I1 & I2).
  destruct (rate_step_fields p sg now) as (_ & R1 & R2).
  rewrite Lc. unfold rate_trips in Ht. split; [|split].
  - unfold rate_step. rewrite Ht. cbn. subst sg. now rewrite (proj1 He), Er.
  - unfold rate_step. rewrite Ht. exact Ec.
  - destruct Ho as [O1 O2 O3 O4].
    split; rewrite ?S1, ?S2, ?I1, ?I2, ?R1, ?R2, ?E1, ?Eerr; unfold CriticalRateMinObservations in *; lia.
Qed.

Lemma floor_run es : forall k s,
  (k + List.length es = 7)%nat -> es <> [] -> Forall user_critical es ->
  unit_rate (sc_RecentCriticalRate s) -> fz (floor_grid (rate_floor k)) <= fz (sc_RecentCriticalRate s) ->
  observed s (List.length es) ->
  exists p, In p (score_trace s es) /\ trips_at p = true /\
            sc_RateCooldownCount (fst p) = sc_RateCooldownCount s /\ user_critical (snd p).
Proof.
  induction es as [|e es IH]; intros k s Hk Hne Hall Hu Hf Ho; [congruence|].
  inversion Hall as [|? ? He Hes]; subst. cbn [length score_trace] in *.
  destruct (trips_at (s, e)) eqn:Ht.
  { exists (s, e). repeat split; auto; try apply He. now left. }
  destruct (no_trip_step s e _ Ht He Ho) as (Er & Ec & Ho').
  pose proof (rate_floor_step k _ ltac:(lia) Hu Hf) as Hf'. rewrite <- Er in Hf'.
  assert (Hu' : unit_rate (sc_RecentCriticalRate (score_step s e)))
    by (rewrite Er; apply (ewma_unit _ _ critical_consts); auto with go).
  destruct es as [|e2 es].
  - exfalso. cbn in Hk. replace (S k) with 7%nat in Hf' by lia.
    assert (Hge : fgeb (sc_RecentCriticalRate (score_step s e)) CriticalRateThreshold = true).
    { unfold fgeb. rewrite fleb_fz by (try apply Hu'; reflexivity).
      apply Z.leb_le. pose proof rate_floor_reaches. lia. }
    destruct (observed_pre s e 0 He Ho) as [Hobs _].
    destruct (pre_detectors_critical s e He) as (Er' & _).
    unfold trips_at in Ht. cbn [fst snd] in Ht. rewrite (proj2 He) in Ht. unfold rate_trips in Ht.
    rewrite (proj1 He), Er', Hobs, <- Er, Hge in Ht. discriminate.
  - assert (Hk' : (S k + List.length (e2 :: es) = 7)%nat) by (cbn in *; lia).
    destruct (IH (S k) (score_step s e) Hk' ltac:(congruence) Hes Hu' Hf' Ho') as (p & Hp & Ht' & Hc & Hs').
    exists p. repeat split; try apply Hs'; [now right|assumption|congruence].
Qed.

(** ** The properties *)

(** Over any sequence of signals (fewer than 2^63 of them) whose impacts are
    not NaN, an endpoint that starts in bounds keeps a score in [0,100], both
    exponentially weighted failure rates in [0,1] as binary64 numbers, and a
    non-negative strike count. *)
Theorem score_run_invariant (v : float64) (t : Time) (es : list event) :
  fleb MinScore v = true -> fleb v MaxScore = true ->
  Forall (fun e => is_nan (ev_impact e) = false) es ->
  Z.of_nat (List.length es) <= max_int64 ->
  score_ok (score_run (fresh_score v t) es).
Proof. intros H1 H2 H3 H4. apply score_run_ok; auto with go. Qed.

Definition demo_events : list event :=
  [ mkEvent (NewCriticalErrorSignal 5 "http 502" 900) (f64_of_Z (-25)) 5;
    mkEvent (NewSuccessSignal 6 (30 * millisecond)) (f64_of_Z 2) 6;
    mkEvent (NewFatalErrorSignal 7 "misconfigured") (f64_of_Z (-50)) 7 ].

Lemma score_run_invariant_witness :
  score_ok (score_run (fresh_score InitialScore 0) demo_events).
Proof.
  apply score_run_invariant; [reflexivity|reflexivity| |apply Z.leb_le; reflexivity].
  repeat constructor.
Defined.

(** The strike system's back-off, with its capped exponent and 64-bit
    arithmetic, is exactly "base cooldown times 2 for every strike over the
    threshold, at most the maximum cooldown". *)
Theorem strike_cooldown_refines (strikes : Z) :
  DefaultStrikeThreshold <= strikes ->
  strike_cooldown strikes = Z.min (DefaultBaseCooldown * 2 ^ (strikes - DefaultStrikeThreshold)) DefaultMaxCooldown.
Proof. apply strike_cooldown_eq. Qed.

Lemma strike_cooldown_refines_witness :
  strike_cooldown 7 = Z.min (DefaultBaseCooldown * 2 ^ (7 - DefaultStrikeThreshold)) DefaultMaxCooldown.
Proof. apply strike_cooldown_refines. unfold DefaultStrikeThreshold. lia. Defined.

(** The two rate detectors never shorten a cooldown that is already set,
    whatever signal they process. *)
Theorem detectors_only_extend (s : Score) (signal : Signal) (now : Time) :
  sc_CooldownUntil s <= sc_CooldownUntil (detector_steps s signal now).
Proof.
  unfold detector_steps. destruct (sig_IsHealthCheck signal); [lia|].
  pose proof (rate_step_extends s signal now).
  pose proof (invalid_step_extends (rate_step s signal now) signal now). lia.
Qed.

(** The critical-rate detector escalates on its own history only.  Two scores
    that agree on its fields and on the observation counts give the same rate,
    trip count and trip expiry, however their shared cooldown, strikes, score
    value or invalid-rate fields differ. *)
Theorem rate_detector_independent (s1 s2 : Score) (signal : Signal) (now : Time) :
  sc_RecentCriticalRate s1 = sc_RecentCriticalRate s2 ->
  sc_RateCooldownCount s1 = sc_RateCooldownCount s2 ->
  sc_RateCooldownUntil s1 = sc_RateCooldownUntil s2 ->
  sc_SuccessCount s1 = sc_SuccessCount s2 -> sc_ErrorCount s1 = sc_ErrorCount s2 ->
  let d1 := detector_steps s1 signal now in
  let d2 := detector_steps s2 signal now in
  sc_RecentCriticalRate d1 = sc_RecentCriticalRate d2 /\
  sc_RateCooldownCount d1 = sc_RateCooldownCount d2 /\
  sc_RateCooldownUntil d1 = sc_RateCooldownUntil d2.
Proof.
  intros H1 H2 H3 H4 H5. cbv zeta. unfold detector_steps.
  destruct (sig_IsHealthCheck signal); [auto|].
  assert (G : forall s, let r := rate_step s signal now in let d := invalid_step r signal now in
     sc_RecentCriticalRate d = sc_RecentCriticalRate r /\ sc_RateCooldownCount d = sc_RateCooldownCount r /\
     sc_RateCooldownUntil d = sc_RateCooldownUntil r).
  { intros s. cbv zeta. unfold invalid_step. destruct (_ && _); auto. }
  destruct (G s1) as (-> & -> & ->), (G s2) as (-> & -> & ->).
  unfold rate_step, observations. rewrite H1, H2, H3, H4, H5.
  destruct (_ && _); auto.
Qed.

Lemma rate_detector_independent_witness :
  let s1 := fresh_score InitialScore 0 in
  let s2 := with_strikes (fresh_score MinScore 0) 9 (3 * hour) in
  let d1 := detector_steps s1 (NewFatalErrorSignal 0 "") 0 in
  let d2 := detector_steps s2 (NewFatalErrorSignal 0 "") 0 in
  sc_RecentCriticalRate d1 = sc_RecentCriticalRate d2 /\
  sc_RateCooldownCount d1 = sc_RateCooldownCount d2 /\
  sc_RateCooldownUntil d1 = sc_RateCooldownUntil d2.
Proof. cbv zeta. apply rate_detector_independent; reflexivity. Defined.

(** C4: seven consecutive critical errors of user traffic always bench an
    endpoint that has the minimum number of observations, from whatever rate it
    starts: some event of the run sets a cooldown of at least the base rate
    cooldown.  The rounding of the average is the one of binary64. *)
Theorem sustained_criticals_bench (s : Score) (es : list event) :
  List.length es = 7%nat -> Forall user_critical es ->
  unit_rate (sc_RecentCriticalRate s) -> observed s 7 ->
  0 <= sc_RateCooldownCount s < 10 ^ 6 ->
  exists si e, In (si, e) (score_trace s es) /\
               ev_now e + DefaultRateCooldown <= sc_CooldownUntil (score_step si e).
Proof.
  intros Hl Hall Hu Ho Hc.
  destruct (floor_run es 0 s) as ([si e] & Hin & Ht & Hcnt & He); auto.
  - intros ->. discriminate.
  - apply fz_nonneg, Hu.
  - now rewrite Hl.
  - cbn [fst snd] in *. exists si, e. split; [assumption|].
    apply trip_benches; [assumption|assumption|lia].
Qed.

Definition crit_event (t : Time) : event := mkEvent (NewCriticalErrorSignal t "5xx" 0) (f64_of_Z (-25)) t.
Definition busy_score : Score := with_counts (fresh_score InitialScore 0) 40 0 0.

Lemma sustained_criticals_bench_witness :
  exists si e, In (si, e) (score_trace busy_score (map crit_event [1; 2; 3; 4; 5; 6; 7])) /\
               ev_now e + DefaultRateCooldown <= sc_CooldownUntil (score_step si e).
Proof.
  apply sustained_criticals_bench.
  - reflexivity.
  - repeat constructor.
  - apply unit_rate_zero.
  - split; cbn; try lia; apply Z.leb_le; reflexivity.
  - cbn. lia.
Defined.

(** Traffic without critical errors never trips the critical-rate detector:
    from a rate under the threshold, a signal that is neither critical nor fatal
    does not trip it and leaves the rate under the threshold and no larger. *)
Theorem clean_traffic_never_trips (s : Score) (signal : Signal) (now : Time) :
  unit_rate (sc_RecentCriticalRate s) ->
  fz (sc_RecentCriticalRate s) < fz CriticalRateThreshold ->
  is_critical signal = false ->
  rate_trips s signal = false /\
  fz (sc_RecentCriticalRate (rate_step s signal now)) <= fz (sc_RecentCriticalRate s) /\
  sc_CooldownUntil (rate_step s signal now) = sc_CooldownUntil s.
Proof.
  intros Hu Hlt Hc.
  pose proof (ewma_unit _ _ critical_consts _ _ Hu unit_rate_zero) as Hu'.
  pose proof (ewma_zero_le _ _ critical_consts _ Hu) as Hle.
  assert (Ht : rate_trips s signal = false).
  { unfold rate_trips. rewrite Hc. apply andb_false_iff. left. unfold fgeb.
    rewrite fleb_fz by (try apply Hu'; reflexivity). apply Z.leb_gt. lia. }
  split; [exact Ht|]. unfold rate_trips in Ht. unfold rate_step. rewrite Ht. cbn.
  rewrite Hc. split; [exact Hle|reflexivity].
Qed.

Lemma clean_traffic_never_trips_witness :
  rate_trips busy_score (NewSuccessSignal 9 5) = false /\
  fz (sc_RecentCriticalRate (rate_step busy_score (NewSuccessSignal 9 5) 9)) <= fz (sc_RecentCriticalRate busy_score) /\
  sc_CooldownUntil (rate_step busy_score (NewSuccessSignal 9 5) 9) = sc_CooldownUntil busy_score.
Proof.
  apply clean_traffic_never_trips.
  - apply unit_rate_zero.
  - apply Z.ltb_lt. vm_compute. reflexivity.
  - reflexivity.
Defined.

(** Five failed probes in a row: a critical signal marked as a health check. *)
Definition probe_failure (t : Time) : event :=
  mkEvent (mkSignal SignalTypeCriticalError t 0 "probe" true false None) (f64_of_Z (-25)) t.

(** Health-check signals never touch the fields of the rate detectors, and
    yet five failed probes on their own put an endpoint in cooldown for the base
    strike cooldown: the strike system does not look at [IsHealthCheck]. *)
Theorem health_checks_skip_rates_but_strike :
  (forall s signal now, sig_IsHealthCheck signal = true -> detector_steps s signal now = s) /\
  let s := score_run (fresh_score InitialScore 0) (map probe_failure [1; 2; 3; 4; 5]) in
  IsInCooldown s 5 = true /\ CooldownRemaining s 5 = DefaultBaseCooldown.
Proof.
  split; [|vm_compute; auto].
  intros s signal now H. unfold detector_steps. now rewrite H.
Qed.

(** An endpoint benched by the rate detector for 40 more minutes, one strike
    below the threshold. *)
Definition benched_score : Score := with_strikes (fresh_score InitialScore 0) 4 (40 * minute).

(** Unlike the detectors, the strike system overwrites the shared cooldown:
    a failed probe on an endpoint benched for 40 more minutes shortens the bench
    to the base strike cooldown. *)
Theorem strike_can_shorten_bench :
  CooldownRemaining benched_score 5 = 40 * minute - 5 /\
  CooldownRemaining (score_step benched_score (probe_failure 5)) 5 = DefaultBaseCooldown /\
  DefaultBaseCooldown < 40 * minute - 5.
Proof. vm_compute. auto. Qed.
