(* ===== verification/RepConfig.v ===== *)
(** * Configuration of the reputation system: reputation/reputation.go

    Defaults, hydration, validation and the recovery-conflict rules.  Maps are
    finite maps; YAML decoding is not modelled. *)

From S2P Require Import Prelude GoStrings Float64 Signals Score RepKey.
From Stdlib Require Import ZArith Lia Bool String SpecFloat.
From stdpp Require Import base list gmap strings.

Open Scope string_scope.
Open Scope Z_scope.

(** ** Records *)

Record SyncConfig := mkSyncConfig {
  sy_RefreshInterval : Duration;
  sy_WriteBufferSize : Z;
  sy_FlushInterval : Duration;
}.

Record ProbationConfig := mkProbationConfig {
  pb_Enabled : bool;
  pb_Threshold : float64;
  pb_TrafficPercent : float64;
  pb_RecoveryMultiplier : float64;
}.

Record TieredSelectionConfig := mkTieredSelectionConfig {
  ts_Enabled : bool;
  ts_Tier1Threshold : float64;
  ts_Tier2Threshold : float64;
  ts_Probation : ProbationConfig;
}.

Record ServiceConfig := mkServiceConfig {
  sv_KeyGranularity : string;
  sv_InitialScore : float64;
  sv_MinThreshold : float64;
  sv_RecoveryTimeout : Duration;
  sv_HealthChecksEnabled : bool;
  sv_ProbationEnabled : bool;
}.

Record Config := mkConfig {
  cf_Enabled : bool;
  cf_InitialScore : float64;
  cf_MinThreshold : float64;
  cf_RecoveryTimeout : Duration;
  cf_StorageType : string;
  cf_KeyGranularity : string;
  cf_ServiceOverrides : gmap string ServiceConfig;
  cf_SyncConfig : SyncConfig;
  cf_TieredSelection : TieredSelectionConfig;
  cf_Latency : LatencyConfig;
  cf_SignalImpacts : SignalImpactsConfig;
}.

Record RedisConfig := mkRedisConfig {
  rd_Address : string;
  rd_Password : string;
  rd_DB : Z;
  rd_KeyPrefix : string;
  rd_PoolSize : Z;
  rd_DialTimeout : Duration;
  rd_ReadTimeout : Duration;
  rd_WriteTimeout : Duration;
}.

(** ** Defaults *)

Definition DefaultRecoveryTimeout : Duration := 5 * minute.
Definition DefaultRefreshInterval : Duration := 5 * second.
Definition DefaultWriteBufferSize : Z := 1000.
Definition DefaultFlushInterval : Duration := 100 * millisecond.

Definition DefaultLatencyFastThreshold : Duration := 100 * millisecond.
Definition DefaultLatencyNormalThreshold : Duration := 500 * millisecond.
Definition DefaultLatencySlowThreshold : Duration := 1000 * millisecond.
Definition DefaultLatencyPenaltyThreshold : Duration := 2000 * millisecond.
Definition DefaultLatencySevereThreshold : Duration := 5000 * millisecond.
Definition DefaultFastBonus : float64 := f64_of_Z 2.
Definition DefaultSlowPenalty : float64 := f64_frac 5 10.
Definition DefaultVerySlowPenalty : float64 := f64_of_Z 0.

Definition DefaultRedisConfig : RedisConfig :=
  {| rd_Address := "localhost:6379"; rd_Password := ""; rd_DB := 0;
     rd_KeyPrefix := "path:reputation:"; rd_PoolSize := 10;
     rd_DialTimeout := 5 * second; rd_ReadTimeout := 3 * second; rd_WriteTimeout := 3 * second |}.

Definition DefaultSyncConfig : SyncConfig :=
  {| sy_RefreshInterval := DefaultRefreshInterval;
     sy_WriteBufferSize := DefaultWriteBufferSize;
     sy_FlushInterval := DefaultFlushInterval |}.

Definition DefaultLatencyConfig : LatencyConfig :=
  {| lc_Enabled := true;
     lc_FastThreshold := DefaultLatencyFastThreshold;
     lc_NormalThreshold := DefaultLatencyNormalThreshold;
     lc_SlowThreshold := DefaultLatencySlowThreshold;
     lc_PenaltyThreshold := DefaultLatencyPenaltyThreshold;
     lc_SevereThreshold := DefaultLatencySevereThreshold;
     lc_FastBonus := DefaultFastBonus;
     lc_SlowPenalty := DefaultSlowPenalty;
     lc_VerySlowPenalty := DefaultVerySlowPenalty;
     lc_ServiceProfiles := ∅ |}.

(** Go's zero values of the nested structs. *)
Definition zero_impacts : SignalImpactsConfig :=
  mkSignalImpactsConfig f_zero f_zero f_zero f_zero f_zero f_zero f_zero f_zero.
Definition zero_tiered : TieredSelectionConfig :=
  mkTieredSelectionConfig false f_zero f_zero (mkProbationConfig false f_zero f_zero f_zero).

Definition DefaultConfig : Config :=
  {| cf_Enabled := true;
     cf_InitialScore := InitialScore;
     cf_MinThreshold := DefaultMinThreshold;
     cf_RecoveryTimeout := DefaultRecoveryTimeout;
     cf_StorageType := "memory";
     cf_KeyGranularity := KeyGranularityURL;
     cf_ServiceOverrides := ∅;
     cf_SyncConfig := DefaultSyncConfig;
     cf_TieredSelection := zero_tiered;
     cf_Latency := DefaultLatencyConfig;
     cf_SignalImpacts := zero_impacts |}.

(** ** Hydration *)

Definition z_or (v d : Z) : Z := if v =? 0 then d else v.
Definition s_or (v d : string) : string := if (v =? "")%string then d else v.

Definition RedisConfig_HydrateDefaults (c : RedisConfig) : RedisConfig :=
  let d := DefaultRedisConfig in
  {| rd_Address := s_or (rd_Address c) (rd_Address d);
     rd_Password := rd_Password c;
     rd_DB := rd_DB c;
     rd_KeyPrefix := s_or (rd_KeyPrefix c) (rd_KeyPrefix d);
     rd_PoolSize := z_or (rd_PoolSize c) (rd_PoolSize d);
     rd_DialTimeout := z_or (rd_DialTimeout c) (rd_DialTimeout d);
     rd_ReadTimeout := z_or (rd_ReadTimeout c) (rd_ReadTimeout d);
     rd_WriteTimeout := z_or (rd_WriteTimeout c) (rd_WriteTimeout d) |}.

Definition SyncConfig_HydrateDefaults (s : SyncConfig) : SyncConfig :=
  {| sy_RefreshInterval := z_or (sy_RefreshInterval s) DefaultRefreshInterval;
     sy_WriteBufferSize := z_or (sy_WriteBufferSize s) DefaultWriteBufferSize;
     sy_FlushInterval := z_or (sy_FlushInterval s) DefaultFlushInterval |}.

Definition LatencyConfig_HydrateDefaults (l : LatencyConfig) : LatencyConfig :=
  {| lc_Enabled := lc_Enabled l;
     lc_FastThreshold := z_or (lc_FastThreshold l) DefaultLatencyFastThreshold;
     lc_NormalThreshold := z_or (lc_NormalThreshold l) DefaultLatencyNormalThreshold;
     lc_SlowThreshold := z_or (lc_SlowThreshold l) DefaultLatencySlowThreshold;
     lc_PenaltyThreshold := z_or (lc_PenaltyThreshold l) DefaultLatencyPenaltyThreshold;
     lc_SevereThreshold := z_or (lc_SevereThreshold l) DefaultLatencySevereThreshold;
     lc_FastBonus := or_default (lc_FastBonus l) DefaultFastBonus;
     lc_SlowPenalty := or_default (lc_SlowPenalty l) DefaultSlowPenalty;
     lc_VerySlowPenalty := lc_VerySlowPenalty l;
     lc_ServiceProfiles := lc_ServiceProfiles l |}.

Definition Config_HydrateDefaults (c : Config) : Config :=
  {| cf_Enabled := cf_Enabled c;
     cf_InitialScore := or_default (cf_InitialScore c) InitialScore;
     cf_MinThreshold := or_default (cf_MinThreshold c) DefaultMinThreshold;
     cf_RecoveryTimeout := z_or (cf_RecoveryTimeout c) DefaultRecoveryTimeout;
     cf_StorageType := s_or (cf_StorageType c) "memory";
     cf_KeyGranularity := s_or (cf_KeyGranularity c) KeyGranularityURL;
     cf_ServiceOverrides := cf_ServiceOverrides c;
     cf_SyncConfig := SyncConfig_HydrateDefaults (cf_SyncConfig c);
     cf_TieredSelection := cf_TieredSelection c;
     cf_Latency := LatencyConfig_HydrateDefaults (cf_Latency c);
     cf_SignalImpacts := cf_SignalImpacts c |}.

(** ** Validation *)

Inductive config_error :=
| InitialScoreOutOfBounds | MinThresholdOutOfBounds | InitialBelowMin | NegativeRecoveryTimeout.

Definition Config_Validate (c : Config) : option config_error :=
  if fltb (cf_InitialScore c) MinScore || fgtb (cf_InitialScore c) MaxScore then Some InitialScoreOutOfBounds
  else if fltb (cf_MinThreshold c) MinScore || fgtb (cf_MinThreshold c) MaxScore then Some MinThresholdOutOfBounds
  else if fltb (cf_InitialScore c) (cf_MinThreshold c) then Some InitialBelowMin
  else if cf_RecoveryTimeout c <? 0 then Some NegativeRecoveryTimeout
  else None.

Inductive recovery_message := NoMessage | TimeoutIgnored | NoRecoveryMechanism.

Record RecoveryConflictResult := mkRecoveryConflictResult {
  rc_HasConflict : bool;
  rc_HasNoRecovery : bool;
  rc_OriginalRecoveryTimeout : Duration;
  rc_Message : recovery_message;
}.

Definition ValidateRecoveryConfig (c : Config) (healthChecksEnabled : bool) : RecoveryConflictResult :=
  let probationEnabled := pb_Enabled (ts_Probation (cf_TieredSelection c)) in
  let hasSignalBasedRecovery := healthChecksEnabled || probationEnabled in
  let hasTimeBasedRecovery := 0 <? cf_RecoveryTimeout c in
  if hasSignalBasedRecovery && hasTimeBasedRecovery then
    mkRecoveryConflictResult true false (cf_RecoveryTimeout c) TimeoutIgnored
  else if negb hasSignalBasedRecovery && negb hasTimeBasedRecovery then
    mkRecoveryConflictResult false true (cf_RecoveryTimeout c) NoRecoveryMechanism
  else mkRecoveryConflictResult false false (cf_RecoveryTimeout c) NoMessage.

Definition with_recovery_timeout (c : Config) (t : Duration) : Config :=
  mkConfig (cf_Enabled c) (cf_InitialScore c) (cf_MinThreshold c) t (cf_StorageType c) (cf_KeyGranularity c)
    (cf_ServiceOverrides c) (cf_SyncConfig c) (cf_TieredSelection c) (cf_Latency c) (cf_SignalImpacts c).

Definition ResolveRecoveryConflict (c : Config) (healthChecksEnabled : bool) : Config :=
  let probationEnabled := pb_Enabled (ts_Probation (cf_TieredSelection c)) in
  let hasSignalBasedRecovery := healthChecksEnabled || probationEnabled in
  if hasSignalBasedRecovery && (0 <? cf_RecoveryTimeout c) then with_recovery_timeout c 0 else c.

(** ** Lemmas *)

Lemma z_or_idem v d : d <> 0 -> z_or (z_or v d) d = z_or v d.
Proof. intros H. unfold z_or. destruct (v =? 0) eqn:E; [|now rewrite E]. now apply Z.eqb_neq in H as ->. Qed.

Lemma s_or_idem v d : d <> "" -> s_or (s_or v d) d = s_or v d.
Proof. intros H. unfold s_or. destruct (v =? "")%string eqn:E; [|now rewrite E]. now apply String.eqb_neq in H as ->. Qed.

Lemma or_default_idem v d : feqb d f_zero = false -> or_default (or_default v d) d = or_default v d.
Proof. intros H. unfold or_default. destruct (feqb v f_zero) eqn:E; [now rewrite H|now rewrite E]. Qed.

Lemma Config_HydrateDefaults_idem c :
  Config_HydrateDefaults (Config_HydrateDefaults c) = Config_HydrateDefaults c.
Proof.
  unfold Config_HydrateDefaults, SyncConfig_HydrateDefaults, LatencyConfig_HydrateDefaults. cbn.
  rewrite !z_or_idem, !s_or_idem, !or_default_idem by (try reflexivity; try discriminate).
  reflexivity.
Qed.

(** A configuration that validates and whose numbers are numbers has its scores
    in bounds. *)
Lemma Config_Validate_bounds c :
  is_nan (cf_InitialScore c) = false -> is_nan (cf_MinThreshold c) = false -> Config_Validate c = None ->
  fleb MinScore (cf_InitialScore c) = true /\ fleb (cf_InitialScore c) MaxScore = true /\
  fleb MinScore (cf_MinThreshold c) = true /\ fleb (cf_MinThreshold c) (cf_InitialScore c) = true.
Proof.
  intros N1 N2. unfold Config_Validate, fgtb.
  destruct (fltb (cf_InitialScore c) MinScore) eqn:E1; [discriminate|].
  destruct (fltb MaxScore (cf_InitialScore c)) eqn:E2; [discriminate|].
  destruct (fltb (cf_MinThreshold c) MinScore) eqn:E3; [discriminate|].
  destruct (fltb MaxScore (cf_MinThreshold c)) eqn:E4; [discriminate|].
  destruct (fltb (cf_InitialScore c) (cf_MinThreshold c)) eqn:E5; [discriminate|].
  intros _. auto using fltb_false_fleb.
Qed.

(** ** The recovery conflict and hydration *)

(** Resolving the recovery conflict zeroes the recovery timeout, and hydrating
    the defaults (as NewService does) turns the zero back into the default: the
    resolution does not survive hydration. *)
Lemma hydrate_undoes_resolution (c : Config) (healthChecksEnabled : bool) :
  rc_HasConflict (ValidateRecoveryConfig c healthChecksEnabled) = true ->
  cf_RecoveryTimeout (ResolveRecoveryConflict c healthChecksEnabled) = 0 /\
  cf_RecoveryTimeout (Config_HydrateDefaults (ResolveRecoveryConflict c healthChecksEnabled)) = DefaultRecoveryTimeout.
Proof.
  unfold ValidateRecoveryConfig, ResolveRecoveryConflict.
  destruct ((healthChecksEnabled || _) && (0 <? cf_RecoveryTimeout c)) eqn:E; [cbn; auto|].
  intros H. exfalso. revert H. case_ifs; discriminate.
Qed.
