(* ===== verification/RepStorage.v ===== *)
(** * Reputation storage: reputation/storage.go and reputation/storage/memory.go

    The [Storage] interface is a class of state-passing operations (each takes
    the instant it runs at; an operation that fails leaves the storage as it
    was), and [MemoryStorage] its in-memory implementation. *)

From S2P Require Import Prelude GoStrings Float64 Signals Score RepKey.
From Stdlib Require Import ZArith Lia Bool Ascii String.
From stdpp Require Import countable base list gmap strings fin_maps sorting.

Open Scope string_scope.
Open Scope Z_scope.

(** [ErrBackend] is any error a backend wraps: a failed command, a malformed record. *)
Inductive storage_error := ErrNotFound | ErrStorageClosed | ErrBackend.

(** An admin drain is keyed by the operator it benches (admin_drain.go). *)
Record DrainKey := mkDrainKey {
  dk_ServiceID : string;
  dk_Domain : string;
  dk_RPCType : string;
}.

#[export] Instance DrainKey_eq_dec : EqDecision DrainKey.
Proof. solve_decision. Defined.

#[export] Instance DrainKey_countable : Countable DrainKey.
Proof.
  apply (inj_countable'
    (fun k => (dk_ServiceID k, dk_Domain k, dk_RPCType k))
    (fun '(s, d, t) => mkDrainKey s d t)).
  now intros [].
Defined.

(** ** The interface *)

Class Storage (St : Type) := {
  st_Get : St -> Time -> EndpointKey -> result storage_error Score;
  st_GetMultiple : St -> Time -> list EndpointKey -> result storage_error (gmap EndpointKey Score);
  st_Set : St -> Time -> EndpointKey -> Score -> result storage_error St;
  st_SetMultiple : St -> Time -> gmap EndpointKey Score -> result storage_error St;
  st_Delete : St -> EndpointKey -> result storage_error St;
  st_List : St -> Time -> string -> result storage_error (list EndpointKey);
  st_SetPerceivedBlockNumber : St -> string -> Z -> result storage_error St;
  st_GetPerceivedBlockNumber : St -> string -> result storage_error Z;
  st_DeletePerceivedBlockNumber : St -> string -> result storage_error St;
  st_SetEndpointBlockHeight : St -> string -> string -> Z -> result storage_error St;
  st_GetEndpointBlockHeights : St -> string -> result storage_error (gmap string Z);
  st_RemoveEndpointBlockHeights : St -> string -> list string -> result storage_error St;
  st_SetDrain : St -> DrainKey -> Time -> result storage_error St;
  st_DeleteDrain : St -> DrainKey -> result storage_error St;
  st_ListDrains : St -> Time -> result storage_error (gmap DrainKey Time * St);
}.

(** The optional interface of a storage that can drop its expired entries. *)
Class Cleaner (St : Type) := { cl_Cleanup : St -> Time -> St }.

(** ** MemoryStorage *)

Record scoreEntry := mkScoreEntry {
  se_score : Score;
  se_expiresAt : Time; (** zero means no expiration *)
}.

Definition isExpired (e : scoreEntry) (now : Time) : bool :=
  if time_is_zero (se_expiresAt e) then false else time_after now (se_expiresAt e).

Record MemoryStorage := mkMemoryStorage {
  ms_scores : gmap string scoreEntry;
  ms_perceivedBlocks : gmap string Z;
  ms_endpointBlocks : gmap string (gmap string Z);
  ms_ttl : Duration;
  ms_closed : bool;
  ms_drains : gmap DrainKey Time;
}.

Definition NewMemoryStorage (ttl : Duration) : MemoryStorage :=
  mkMemoryStorage ∅ ∅ ∅ ttl false ∅.

Definition ms_with_scores (m : MemoryStorage) (sc : gmap string scoreEntry) : MemoryStorage :=
  mkMemoryStorage sc (ms_perceivedBlocks m) (ms_endpointBlocks m) (ms_ttl m) (ms_closed m) (ms_drains m).
Definition ms_with_perceived (m : MemoryStorage) (p : gmap string Z) : MemoryStorage :=
  mkMemoryStorage (ms_scores m) p (ms_endpointBlocks m) (ms_ttl m) (ms_closed m) (ms_drains m).
Definition ms_with_blocks (m : MemoryStorage) (b : gmap string (gmap string Z)) : MemoryStorage :=
  mkMemoryStorage (ms_scores m) (ms_perceivedBlocks m) b (ms_ttl m) (ms_closed m) (ms_drains m).
Definition ms_with_drains (m : MemoryStorage) (d : gmap DrainKey Time) : MemoryStorage :=
  mkMemoryStorage (ms_scores m) (ms_perceivedBlocks m) (ms_endpointBlocks m) (ms_ttl m) (ms_closed m) d.

(** Every operation but Close and Cleanup starts by refusing a closed storage. *)
Definition guard_open {A} (m : MemoryStorage) (k : result storage_error A) : result storage_error A :=
  if ms_closed m then Err ErrStorageClosed else k.

Section Memory.
Context `{RPCTypeEnum}.

Definition ms_Get (m : MemoryStorage) (now : Time) (key : EndpointKey) : result storage_error Score :=
  guard_open m
    match ms_scores m !! key_String key with
    | None => Err ErrNotFound
    | Some entry => if isExpired entry now then Err ErrNotFound else Ok (se_score entry)
    end.

Definition ms_GetMultiple (m : MemoryStorage) (now : Time) (keys : list EndpointKey)
  : result storage_error (gmap EndpointKey Score) :=
  guard_open m (Ok (fold_left (fun res key =>
    match ms_scores m !! key_String key with
    | Some entry => if isExpired entry now then res else <[key := se_score entry]> res
    | None => res
    end) keys ∅)).

Definition ms_entry (m : MemoryStorage) (now : Time) (score : Score) : scoreEntry :=
  mkScoreEntry score (if 0 <? ms_ttl m then time_add now (ms_ttl m) else time_zero).

Definition ms_Set (m : MemoryStorage) (now : Time) (key : EndpointKey) (score : Score)
  : result storage_error MemoryStorage :=
  guard_open m (Ok (ms_with_scores m (<[key_String key := ms_entry m now score]> (ms_scores m)))).

(** The loop of [SetMultiple], over the entries in iteration order. *)
Definition ms_insert_all (m : MemoryStorage) (now : Time) (l : list (EndpointKey * Score))
  (sc : gmap string scoreEntry) : gmap string scoreEntry :=
  fold_left (fun sc p => <[key_String p.1 := ms_entry m now p.2]> sc) l sc.

Definition ms_SetMultiple (m : MemoryStorage) (now : Time) (scores : gmap EndpointKey Score)
  : result storage_error MemoryStorage :=
  guard_open m (Ok (ms_with_scores m (ms_insert_all m now (map_to_list scores) (ms_scores m)))).

Definition ms_Delete (m : MemoryStorage) (key : EndpointKey) : result storage_error MemoryStorage :=
  guard_open m (Ok (ms_with_scores m (delete (key_String key) (ms_scores m)))).

(** The key [List] reconstructs from a stored key string: it splits at the
    first two colons and looks the last part up as it stands. *)
Definition ms_list_key (keyStr : string) : option EndpointKey :=
  match splitn 3 ":" keyStr with
  | [s; a; r] => Some (NewEndpointKey s a (rpc_value r))
  | _ => None
  end.

Definition ms_List (m : MemoryStorage) (now : Time) (serviceID : string)
  : result storage_error (list EndpointKey) :=
  let prefix := if (serviceID =? "")%string then "" else serviceID +:+ ":" in
  guard_open m (Ok (omap (fun '(keyStr, entry) =>
    if isExpired entry now then None
    else if negb (prefix =? "")%string && negb (has_prefix prefix keyStr) then None
    else ms_list_key keyStr) (map_to_list (ms_scores m)))).

Definition ms_Close (m : MemoryStorage) : MemoryStorage :=
  mkMemoryStorage ∅ (ms_perceivedBlocks m) (ms_endpointBlocks m) (ms_ttl m) true (ms_drains m).

Definition ms_Len (m : MemoryStorage) (now : Time) : Z :=
  if ms_closed m then 0
  else Z.of_nat (List.length (List.filter (fun p => negb (isExpired p.2 now)) (map_to_list (ms_scores m)))).

Definition ms_Cleanup (m : MemoryStorage) (now : Time) : MemoryStorage :=
  if ms_closed m then m
  else ms_with_scores m (filter (fun p => isExpired p.2 now = false) (ms_scores m)).

Definition ms_SetPerceivedBlockNumber (m : MemoryStorage) (serviceID : string) (blockNumber : Z)
  : result storage_error MemoryStorage :=
  guard_open m
    (let current := default 0 (ms_perceivedBlocks m !! serviceID) in
     if current <? blockNumber
     then Ok (ms_with_perceived m (<[serviceID := blockNumber]> (ms_perceivedBlocks m)))
     else Ok m).

Definition ms_GetPerceivedBlockNumber (m : MemoryStorage) (serviceID : string) : result storage_error Z :=
  guard_open m (Ok (default 0 (ms_perceivedBlocks m !! serviceID))).

Definition ms_DeletePerceivedBlockNumber (m : MemoryStorage) (serviceID : string)
  : result storage_error MemoryStorage :=
  guard_open m (Ok (ms_with_perceived m (delete serviceID (ms_perceivedBlocks m)))).

Definition ms_SetEndpointBlockHeight (m : MemoryStorage) (serviceID addr : string) (height : Z)
  : result storage_error MemoryStorage :=
  guard_open m
    (let blocks := default ∅ (ms_endpointBlocks m !! serviceID) in
     Ok (ms_with_blocks m (<[serviceID := <[addr := height]> blocks]> (ms_endpointBlocks m)))).

Definition ms_RemoveEndpointBlockHeights (m : MemoryStorage) (serviceID : string) (addrs : list string)
  : result storage_error MemoryStorage :=
  guard_open m
    match ms_endpointBlocks m !! serviceID with
    | None => Ok m
    | Some blocks =>
        Ok (ms_with_blocks m (<[serviceID := fold_left (fun b a => delete a b) addrs blocks]> (ms_endpointBlocks m)))
    end.

Definition ms_GetEndpointBlockHeights (m : MemoryStorage) (serviceID : string)
  : result storage_error (gmap string Z) :=
  guard_open m (Ok (default ∅ (ms_endpointBlocks m !! serviceID))).

Definition ms_SetDrain (m : MemoryStorage) (key : DrainKey) (until : Time) : result storage_error MemoryStorage :=
  guard_open m (Ok (ms_with_drains m (<[key := until]> (ms_drains m)))).

Definition ms_DeleteDrain (m : MemoryStorage) (key : DrainKey) : result storage_error MemoryStorage :=
  guard_open m (Ok (ms_with_drains m (delete key (ms_drains m)))).

(** [ListDrains] reaps the expired drains and returns the others. *)
Definition live_drains (now : Time) (d : gmap DrainKey Time) : gmap DrainKey Time :=
  filter (fun p => now < p.2) d.

Definition ms_ListDrains (m : MemoryStorage) (now : Time)
  : result storage_error (gmap DrainKey Time * MemoryStorage) :=
  guard_open m
    (let out := live_drains now (ms_drains m) in Ok (out, ms_with_drains m out)).

#[export] Instance MemoryStorage_Storage : Storage MemoryStorage := {
  st_Get := ms_Get;
  st_GetMultiple := ms_GetMultiple;
  st_Set := ms_Set;
  st_SetMultiple := ms_SetMultiple;
  st_Delete := ms_Delete;
  st_List := ms_List;
  st_SetPerceivedBlockNumber := ms_SetPerceivedBlockNumber;
  st_GetPerceivedBlockNumber := ms_GetPerceivedBlockNumber;
  st_DeletePerceivedBlockNumber := ms_DeletePerceivedBlockNumber;
  st_SetEndpointBlockHeight := ms_SetEndpointBlockHeight;
  st_GetEndpointBlockHeights := ms_GetEndpointBlockHeights;
  st_RemoveEndpointBlockHeights := ms_RemoveEndpointBlockHeights;
  st_SetDrain := ms_SetDrain;
  st_DeleteDrain := ms_DeleteDrain;
  st_ListDrains := ms_ListDrains;
}.
End Memory.

#[export] Instance MemoryStorage_Cleaner : Cleaner MemoryStorage := { cl_Cleanup := ms_Cleanup }.

(** ** Correctness of the in-memory reputation storage

    The laws the reputation service relies on, as classes the implementation
    discharges, and the properties of [MemoryStorage]: reads see the last write
    until it expires, clean-up is unobservable, the perceived block number is a
    maximum however updates are ordered, and [List] does not return the stored
    keys. *)

Open Scope string_scope.
Open Scope Z_scope.

(** ** What the drains need of a storage *)

Class DrainStorageLaws (St : Type) `{Storage St} (ok : St -> Prop) (drains_of : St -> gmap DrainKey Time) : Prop := {
  dsl_set : forall s k u, ok s ->
    exists s', st_SetDrain s k u = Ok s' /\ ok s' /\ drains_of s' = <[k := u]> (drains_of s);
  dsl_delete : forall s k, ok s ->
    exists s', st_DeleteDrain s k = Ok s' /\ ok s' /\ drains_of s' = delete k (drains_of s);
  dsl_list : forall s now, ok s ->
    exists s', st_ListDrains s now = Ok (live_drains now (drains_of s), s') /\ ok s' /\
               drains_of s' = live_drains now (drains_of s);
}.

Definition ms_open (m : MemoryStorage) : Prop := ms_closed m = false.

#[export] Instance MemoryStorage_drain_laws `{RPCTypeEnum} : DrainStorageLaws MemoryStorage ms_open ms_drains.
Proof.
  split; intros s *; unfold ms_open; intros Hs; cbn;
    unfold ms_SetDrain, ms_DeleteDrain, ms_ListDrains, guard_open; rewrite Hs; eauto.
Qed.

(** ** What the score bounds need of a storage: it returns what was stored *)

Class ScoreStorageLaws (St : Type) `{Storage St} (holds : (Score -> Prop) -> St -> Prop) : Prop := {
  ssl_mono : forall (P Q : Score -> Prop) st, (forall sc, P sc -> Q sc) -> holds P st -> holds Q st;
  ssl_Get : forall P st now k sc, holds P st -> st_Get st now k = Ok sc -> P sc;
  ssl_GetMultiple : forall P st now ks m, holds P st -> st_GetMultiple st now ks = Ok m ->
    forall k sc, m !! k = Some sc -> P sc;
  ssl_Set : forall (P : Score -> Prop) st now k sc st', holds P st -> P sc -> st_Set st now k sc = Ok st' -> holds P st';
  ssl_SetMultiple : forall (P : Score -> Prop) st now m st', holds P st -> (forall k sc, m !! k = Some sc -> P sc) ->
    st_SetMultiple st now m = Ok st' -> holds P st';
  ssl_SetPerceived : forall P st s n st', holds P st -> st_SetPerceivedBlockNumber st s n = Ok st' -> holds P st';
  ssl_DeletePerceived : forall P st s st', holds P st -> st_DeletePerceivedBlockNumber st s = Ok st' -> holds P st';
  ssl_SetHeight : forall P st s a h st', holds P st -> st_SetEndpointBlockHeight st s a h = Ok st' -> holds P st';
  ssl_RemoveHeights : forall P st s l st', holds P st -> st_RemoveEndpointBlockHeights st s l = Ok st' -> holds P st';
  ssl_SetDrain : forall P st k u st', holds P st -> st_SetDrain st k u = Ok st' -> holds P st';
  ssl_DeleteDrain : forall P st k st', holds P st -> st_DeleteDrain st k = Ok st' -> holds P st';
  ssl_ListDrains : forall P st now d st', holds P st -> st_ListDrains st now = Ok (d, st') -> holds P st';
}.

Definition ms_holds (P : Score -> Prop) (m : MemoryStorage) : Prop :=
  forall s e, ms_scores m !! s = Some e -> P (se_score e).

Section MemoryLaws.
Context `{RPCTypeEnum}.

Lemma guard_open_Ok {A} (m : MemoryStorage) (r : result storage_error A) a :
  guard_open m r = Ok a -> r = Ok a.
Proof. unfold guard_open. now destruct (ms_closed m). Qed.

Lemma ms_insert_all_holds (P : Score -> Prop) m now l : forall (sc : gmap string scoreEntry),
  (forall s e, sc !! s = Some e -> P (se_score e)) -> Forall (fun p => P p.2) l ->
  forall s e, ms_insert_all m now l sc !! s = Some e -> P (se_score e).
Proof.
  induction l as [|[k x] l IH]; intros sc Hsc Hl; [exact Hsc|].
  inversion Hl as [|? ? Hx Hl']; subst. apply IH; [|assumption].
  intros s e. cbn. destruct (decide (key_String k = s)) as [<-|Hne].
  - rewrite lookup_insert_eq. intros [= <-]. exact Hx.
  - rewrite lookup_insert_ne by assumption. apply Hsc.
Qed.

Lemma ms_GetMultiple_holds (P : Score -> Prop) m now ks : ms_holds P m ->
  forall (res : gmap EndpointKey Score), (forall k sc, res !! k = Some sc -> P sc) ->
  forall k sc, fold_left (fun (res : gmap EndpointKey Score) key =>
    match ms_scores m !! key_String key with
    | Some entry => if isExpired entry now then res else <[key := se_score entry]> res
    | None => res
    end) ks res !! k = Some sc -> P sc.
Proof.
  intros Hm. induction ks as [|k0 ks IH]; intros res Hres; [exact Hres|]. apply IH.
  destruct (ms_scores m !! key_String k0) as [e|] eqn:E; [|exact Hres].
  destruct (isExpired e now); [exact Hres|]. intros k sc.
  destruct (decide (k0 = k)) as [<-|Hne].
  - rewrite lookup_insert_eq. intros [= <-]. eapply Hm. exact E.
  - rewrite lookup_insert_ne by assumption. apply Hres.
Qed.

#[export] Instance MemoryStorage_score_laws : ScoreStorageLaws MemoryStorage ms_holds.
Proof.
  split; cbn; unfold ms_holds.
  - eauto.
  - intros P st now k sc Hp E. apply guard_open_Ok in E.
    destruct (ms_scores st !! key_String k) as [e|] eqn:El; [|discriminate].
    destruct (isExpired e now); [discriminate|]. injection E as <-. eauto.
  - intros P st now ks m Hp E. apply guard_open_Ok in E. injection E as <-.
    apply (ms_GetMultiple_holds P st now ks Hp). intros k sc. now rewrite lookup_empty.
  - intros P st now k sc st' Hp Hsc E. apply guard_open_Ok in E. injection E as <-.
    intros s e. cbn. destruct (decide (key_String k = s)) as [<-|Hne].
    + rewrite lookup_insert_eq. now intros [= <-].
    + rewrite lookup_insert_ne by assumption. apply Hp.
  - intros P st now m st' Hp Hm E. apply guard_open_Ok in E. injection E as <-.
    apply ms_insert_all_holds; [exact Hp|]. apply Forall_forall. intros [k sc] Hin.
    apply elem_of_map_to_list in Hin. eauto.
  - intros P st s n st' Hp E. apply guard_open_Ok in E. revert E. cbv zeta. case_if; intros [= <-]; exact Hp.
  - intros P st s st' Hp E. apply guard_open_Ok in E. injection E as <-. exact Hp.
  - intros P st s a h st' Hp E. apply guard_open_Ok in E. injection E as <-. exact Hp.
  - intros P st s l st' Hp E. apply guard_open_Ok in E.
    destruct (ms_endpointBlocks st !! s); injection E as <-; exact Hp.
  - intros P st k u st' Hp E. apply guard_open_Ok in E. injection E as <-. exact Hp.
  - intros P st k st' Hp E. apply guard_open_Ok in E. injection E as <-. exact Hp.
  - intros P st now d st' Hp E. apply guard_open_Ok in E. injection E as <- <-. exact Hp.
Qed.
End MemoryLaws.

Lemma live_drains_lookup now d k u :
  live_drains now d !! k = Some u <-> d !! k = Some u /\ now < u.
Proof. unfold live_drains. now rewrite map_lookup_filter_Some. Qed.

Lemma live_drains_mono now now' d :
  now <= now' -> live_drains now' (live_drains now d) = live_drains now' d.
Proof.
  intros Hle. apply map_eq. intros k. apply option_eq. intros u.
  rewrite !live_drains_lookup. split; [tauto|]. intros [H1 H2]. repeat split; auto. lia.
Qed.

Section Props.
Context `{RPCTypeEnum}.

Lemma ms_Get_open m now k :
  ms_open m -> ms_Get m now k =
    match ms_scores m !! key_String k with
    | None => Err ErrNotFound
    | Some entry => if isExpired entry now then Err ErrNotFound else Ok (se_score entry)
    end.
Proof. unfold ms_open, ms_Get, guard_open. now intros ->. Qed.

(** Reads after a write, up to the entry's expiry. *)
Lemma ms_get_set m now k sc :
  ms_open m ->
  exists m', ms_Set m now k sc = Ok m' /\ ms_open m' /\
    (forall now', now' <= now + ms_ttl m \/ ms_ttl m <= 0 -> ms_Get m' now' k = Ok sc) /\
    (forall now' k', key_String k' <> key_String k -> ms_Get m' now' k' = ms_Get m now' k').
Proof.
  intros Ho. eexists. unfold ms_Set, guard_open. rewrite Ho.
  split; [reflexivity|]. split; [exact Ho|]. split.
  - intros now' Hn. rewrite ms_Get_open by exact Ho. cbn [ms_with_scores ms_scores].
    rewrite lookup_insert_eq. unfold ms_entry, isExpired, time_is_zero, time_after, time_add. cbn.
    destruct (0 <? ms_ttl m) eqn:E; breflect.
    + destruct (now + ms_ttl m =? time_zero); [reflexivity|].
      destruct (now + ms_ttl m <? now') eqn:E2; breflect; [lia|reflexivity].
    + reflexivity.
  - intros now' k' Hne. rewrite !ms_Get_open by exact Ho. cbn [ms_with_scores ms_scores].
    now rewrite lookup_insert_ne by congruence.
Qed.

(** *** Clean-up *)

Lemma isExpired_mono e now now' : now <= now' -> isExpired e now = true -> isExpired e now' = true.
Proof.
  unfold isExpired, time_after. destruct (time_is_zero _); [discriminate|].
  rewrite !Z.ltb_lt. lia.
Qed.

Lemma ms_Cleanup_lookup m now s :
  ms_scores (ms_Cleanup m now) !! s =
  if ms_closed m then ms_scores m !! s
  else match ms_scores m !! s with
       | Some e => if isExpired e now then None else Some e
       | None => None
       end.
Proof.
  unfold ms_Cleanup. destruct (ms_closed m); [reflexivity|]. cbn [ms_with_scores ms_scores].
  rewrite map_lookup_filter. destruct (ms_scores m !! s) as [e|]; [|reflexivity]. cbn.
  destruct (isExpired e now) eqn:E; case_guard; try congruence; reflexivity.
Qed.

(** *** The perceived block number *)

Lemma ms_SetPerceived_spec m s n :
  ms_open m -> 0 <= n ->
  exists m', ms_SetPerceivedBlockNumber m s n = Ok m' /\ ms_open m' /\
    (forall s', 0 <= default 0 (ms_perceivedBlocks m !! s') ->
      default 0 (ms_perceivedBlocks m' !! s') =
      if decide (s = s') then Z.max (default 0 (ms_perceivedBlocks m !! s')) n
      else default 0 (ms_perceivedBlocks m !! s')).
Proof.
  intros Ho Hn. unfold ms_SetPerceivedBlockNumber, guard_open. rewrite Ho.
  destruct (_ <? n) eqn:E; breflect; eexists; (split; [reflexivity|]; split; [exact Ho|]);
    intros s' Hs'; destruct (decide (s = s')) as [<-|Hne]; cbn.
  - rewrite lookup_insert_eq. cbn. lia.
  - now rewrite lookup_insert_ne by assumption.
  - lia.
  - reflexivity.
Qed.

(** Apply a sequence of updates, each (service, height). *)
Fixpoint perceive_all (m : MemoryStorage) (us : list (string * Z)) : result storage_error MemoryStorage :=
  match us with
  | [] => Ok m
  | (s, n) :: us' =>
      match ms_SetPerceivedBlockNumber m s n with
      | Ok m' => perceive_all m' us'
      | Err e => Err e
      end
  end.

Definition heights_for (s : string) (us : list (string * Z)) : list Z :=
  map snd (List.filter (fun p => (p.1 =? s)%string) us).

Definition perceived (m : MemoryStorage) (s : string) : Z := default 0 (ms_perceivedBlocks m !! s).

Lemma perceive_all_max us : forall m,
  ms_open m -> Forall (fun p => 0 <= p.2) us -> (forall s, 0 <= perceived m s) ->
  exists m', perceive_all m us = Ok m' /\ ms_open m' /\
    forall s, perceived m' s = fold_right Z.max (perceived m s) (heights_for s us).
Proof.
  induction us as [|[s n] us IH]; intros m Ho Hall Hm.
  { exists m. cbn. auto. }
  inversion Hall as [|? ? Hn Hall']; subst. cbn in Hn.
  destruct (ms_SetPerceived_spec m s n Ho Hn) as (m1 & E1 & Ho1 & Hs1).
  assert (Hm1 : forall s', perceived m1 s' = if decide (s = s') then Z.max (perceived m s') n else perceived m s')
    by (intros s'; apply Hs1, Hm).
  destruct (IH m1 Ho1 Hall') as (m2 & E2 & Ho2 & Hs2).
  { intros s'. rewrite Hm1. specialize (Hm s'). destruct (decide (s = s')); lia. }
  exists m2. cbn [perceive_all]. rewrite E1. repeat split; auto.
  intros s'. rewrite Hs2, Hm1. unfold heights_for. cbn [List.filter fst].
  destruct (decide (s = s')) as [<-|Hne].
  - rewrite String.eqb_refl. cbn [map fold_right snd].
    clear. induction (map snd _) as [|x l IHl]; cbn; lia.
  - apply String.eqb_neq in Hne. now rewrite Hne.
Qed.

Lemma fold_max_perm l1 l2 b : l1 ≡ₚ l2 -> fold_right Z.max b l1 = fold_right Z.max b l2.
Proof. induction 1; cbn; lia. Qed.

Lemma filter_perm {A} (f : A -> bool) (l1 l2 : list A) : l1 ≡ₚ l2 -> List.filter f l1 ≡ₚ List.filter f l2.
Proof.
  induction 1 as [|x l l' H1 IH|x y l|l l' l'' H1 IH1 H2 IH2]; cbn; [done| | |now rewrite IH1].
  - destruct (f x); [now constructor|assumption].
  - destruct (f x), (f y); try reflexivity; constructor.
Qed.

Lemma heights_for_perm s us1 us2 : us1 ≡ₚ us2 -> heights_for s us1 ≡ₚ heights_for s us2.
Proof. intros Hp. unfold heights_for. now apply Permutation_map, filter_perm. Qed.

(** *** What [List] reconstructs *)

Lemma ms_list_key_no_colon s k :
  ms_list_key s = Some k -> contains_byte ":" (key_EndpointAddr k) = false.
Proof.
  unfold ms_list_key. cbn [splitn].
  destruct (index_byte ":" s) as [i|]; [|discriminate].
  destruct (index_byte ":" (str_drop (S i) s)) as [j|] eqn:E; [|discriminate].
  intros [= <-]. cbn. now apply index_byte_take.
Qed.

Lemma ms_List_In m now k' :
  ms_open m -> forall l, ms_List m now "" = Ok l -> In k' l ->
  exists s e, ms_scores m !! s = Some e /\ isExpired e now = false /\ ms_list_key s = Some k'.
Proof.
  unfold ms_open, ms_List, guard_open. intros -> l E Hin. injection E as <-.
  apply list_elem_of_In, list_elem_of_omap in Hin as ([s e] & H1 & H2).
  apply elem_of_map_to_list in H1. exists s, e.
  destruct (isExpired e now) eqn:Ee; [discriminate|]. auto.
Qed.
(** ** The properties *)

(** A read after a write returns the written score until the entry expires
    (forever without a TTL), and a write leaves the reads of every key with a
    different string form unchanged. *)
Theorem memory_read_after_write (m : MemoryStorage) (now : Time) (k : EndpointKey) (sc : Score) :
  ms_closed m = false ->
  exists m', ms_Set m now k sc = Ok m' /\ ms_closed m' = false /\
    (forall now', now' <= now + ms_ttl m \/ ms_ttl m <= 0 -> ms_Get m' now' k = Ok sc) /\
    (forall now' k', key_String k' <> key_String k -> ms_Get m' now' k' = ms_Get m now' k').
Proof. apply ms_get_set. Qed.

(** Clean-up is unobservable: it changes no read at the same or a later
    instant. *)
Theorem memory_cleanup_unobservable (m : MemoryStorage) (now now' : Time) (k : EndpointKey) :
  now <= now' -> ms_Get (ms_Cleanup m now) now' k = ms_Get m now' k.
Proof.
  intros Hle. unfold ms_Get, guard_open.
  replace (ms_closed (ms_Cleanup m now)) with (ms_closed m)
    by (unfold ms_Cleanup; destruct (ms_closed m) eqn:E; rewrite ?E; auto).
  destruct (ms_closed m) eqn:Ec; [reflexivity|]. rewrite ms_Cleanup_lookup, Ec.
  destruct (ms_scores m !! key_String k) as [e|]; [|reflexivity].
  destruct (isExpired e now) eqn:E; [|reflexivity]. now rewrite (isExpired_mono _ _ _ Hle E).
Qed.

(** The perceived block number of a service converges: however replicas
    interleave their reports, every update succeeds and the stored number is
    the largest one reported (or held before). *)
Theorem perceived_block_converges (m : MemoryStorage) (us1 us2 : list (string * Z)) :
  ms_closed m = false -> us1 ≡ₚ us2 -> Forall (fun p => 0 <= p.2) us1 ->
  (forall s, 0 <= perceived m s) ->
  exists m1 m2, perceive_all m us1 = Ok m1 /\ perceive_all m us2 = Ok m2 /\
    forall s, perceived m1 s = fold_right Z.max (perceived m s) (heights_for s us1) /\
              perceived m2 s = perceived m1 s.
Proof.
  intros Ho Hp Hall Hm.
  destruct (perceive_all_max us1 m Ho Hall Hm) as (m1 & E1 & _ & H1).
  destruct (perceive_all_max us2 m Ho) as (m2 & E2 & _ & H2); auto.
  { now rewrite <- Hp. }
  exists m1, m2. repeat split; auto. rewrite H1, H2.
  apply fold_max_perm. symmetry. now apply heights_for_perm.
Qed.

(** [List] never returns a key whose endpoint address holds a colon, so no
    URL-keyed endpoint survives the List/GetMultiple round of a cache refresh:
    the key string is split at its first two colons. *)
Theorem memory_List_drops_url_keys (m : MemoryStorage) (now : Time) (service : string) (l : list EndpointKey) (k : EndpointKey) :
  ms_List m now service = Ok l -> contains_byte ":" (key_EndpointAddr k) = true -> ~ In k l.
Proof.
  unfold ms_List, guard_open. destruct (ms_closed m); [discriminate|].
  intros E Hk Hin. injection E as <-.
  apply list_elem_of_In, list_elem_of_omap in Hin as ([s e] & H1 & H2).
  destruct (isExpired e now); [discriminate|].
  destruct (negb _ && negb _); [discriminate|].
  apply ms_list_key_no_colon in H2. congruence.
Qed.
End Props.

(** ** Witnesses *)

Definition demo_store : MemoryStorage :=
  ms_with_scores (NewMemoryStorage (5 * minute))
    {[ key_String demo_key := mkScoreEntry (fresh_score InitialScore 0) (5 * minute) ]}.

Lemma memory_read_after_write_witness :
  exists m', ms_Set demo_store 7 demo_key (fresh_score MaxScore 7) = Ok m' /\ ms_closed m' = false /\
    (forall now', now' <= 7 + ms_ttl demo_store \/ ms_ttl demo_store <= 0 ->
       ms_Get m' now' demo_key = Ok (fresh_score MaxScore 7)) /\
    (forall now' k', key_String k' <> key_String demo_key -> ms_Get m' now' k' = ms_Get demo_store now' k').
Proof. apply memory_read_after_write. reflexivity. Defined.

Lemma memory_cleanup_unobservable_witness :
  ms_Get (ms_Cleanup demo_store (4 * minute)) (6 * minute) demo_key = ms_Get demo_store (6 * minute) demo_key.
Proof. apply memory_cleanup_unobservable. unfold minute, second. lia. Defined.

Lemma perceived_block_converges_witness :
  exists m1 m2, perceive_all demo_store [("eth", 10); ("eth", 12); ("xrpl", 3)] = Ok m1 /\
    perceive_all demo_store [("eth", 12); ("eth", 10); ("xrpl", 3)] = Ok m2 /\
    forall s, perceived m1 s = fold_right Z.max (perceived demo_store s) (heights_for s [("eth", 10); ("eth", 12); ("xrpl", 3)]) /\
              perceived m2 s = perceived m1 s.
Proof.
  apply perceived_block_converges.
  - reflexivity.
  - apply perm_swap.
  - repeat constructor; cbn; lia.
  - intros s. unfold perceived. change (ms_perceivedBlocks demo_store) with (∅ : gmap string Z).
    rewrite lookup_empty. cbn. lia.
Defined.

Lemma memory_List_drops_url_keys_witness :
  exists l, ms_List demo_store 9 "" = Ok l /\ ~ In demo_key l /\ is_ok (ms_Get demo_store 9 demo_key) = true.
Proof.
  eexists. split; [reflexivity|]. split; [|reflexivity].
  apply (memory_List_drops_url_keys demo_store 9 ""); reflexivity.
Defined.
