(* ===== verification/RepService.v ===== *)
(** * The reputation service: reputation/service.go and reputation/admin_drain.go

    The state of [service] (local cache, archival index, drains, the buffered
    write channel and the write loop's pending map) and every operation of it.
    The model is parametric in the storage ([Storage] class); the storage is
    never nil, as every caller of NewService passes one.  Logging and metrics
    calls are left out: they return nothing. *)

From S2P Require Import Prelude GoStrings Float64 Signals Score RepKey RepConfig RepStorage.
From Stdlib Require Import ZArith Lia Bool Ascii String.
From stdpp Require Import base list gmap strings fin_maps.

Open Scope string_scope.
Open Scope Z_scope.

Record writeRequest := mkWriteRequest { wr_key : EndpointKey; wr_score : Score }.

(** ** State *)

Record service (St : Type) := mkService {
  svc_config : Config;
  svc_storage : St;
  svc_defaultKeyBuilder : KeyBuilder;
  svc_serviceKeyBuilders : gmap string KeyBuilder;
  svc_serviceConfigs : gmap string ServiceConfig;
  svc_latencyProfiles : gmap string LatencyConfig;
  svc_cache : gmap EndpointKey Score;
  svc_archivalIndex : gmap string (gset EndpointKey);
  svc_drainedDomains : gmap DrainKey Time;
  svc_writeCh : list writeRequest;           (** the buffered channel, oldest first *)
  svc_pending : gmap string writeRequest;    (** the write loop's coalescing map *)
  svc_started : bool;
}.
Arguments mkService {St}.
Arguments svc_config {St}. Arguments svc_storage {St}. Arguments svc_defaultKeyBuilder {St}.
Arguments svc_serviceKeyBuilders {St}. Arguments svc_serviceConfigs {St}. Arguments svc_latencyProfiles {St}.
Arguments svc_cache {St}. Arguments svc_archivalIndex {St}. Arguments svc_drainedDomains {St}.
Arguments svc_writeCh {St}. Arguments svc_pending {St}. Arguments svc_started {St}.

Section Service.
Context {St : Type} `{RPCTypeEnum} `{!Storage St}.
Implicit Types (s : service St) (key : EndpointKey) (now : Time).

Definition set_cache s c i : service St :=
  mkService (svc_config s) (svc_storage s) (svc_defaultKeyBuilder s) (svc_serviceKeyBuilders s)
    (svc_serviceConfigs s) (svc_latencyProfiles s) c i (svc_drainedDomains s) (svc_writeCh s)
    (svc_pending s) (svc_started s).
Definition set_queue s q p : service St :=
  mkService (svc_config s) (svc_storage s) (svc_defaultKeyBuilder s) (svc_serviceKeyBuilders s)
    (svc_serviceConfigs s) (svc_latencyProfiles s) (svc_cache s) (svc_archivalIndex s)
    (svc_drainedDomains s) q p (svc_started s).
Definition set_storage s st : service St :=
  mkService (svc_config s) st (svc_defaultKeyBuilder s) (svc_serviceKeyBuilders s)
    (svc_serviceConfigs s) (svc_latencyProfiles s) (svc_cache s) (svc_archivalIndex s)
    (svc_drainedDomains s) (svc_writeCh s) (svc_pending s) (svc_started s).
Definition set_drains s d : service St :=
  mkService (svc_config s) (svc_storage s) (svc_defaultKeyBuilder s) (svc_serviceKeyBuilders s)
    (svc_serviceConfigs s) (svc_latencyProfiles s) (svc_cache s) (svc_archivalIndex s) d
    (svc_writeCh s) (svc_pending s) (svc_started s).
Definition set_service_configs s c b : service St :=
  mkService (svc_config s) (svc_storage s) (svc_defaultKeyBuilder s) b c (svc_latencyProfiles s)
    (svc_cache s) (svc_archivalIndex s) (svc_drainedDomains s) (svc_writeCh s) (svc_pending s)
    (svc_started s).
Definition set_latency_profiles s p : service St :=
  mkService (svc_config s) (svc_storage s) (svc_defaultKeyBuilder s) (svc_serviceKeyBuilders s)
    (svc_serviceConfigs s) p (svc_cache s) (svc_archivalIndex s) (svc_drainedDomains s)
    (svc_writeCh s) (svc_pending s) (svc_started s).
Definition set_started s b : service St :=
  mkService (svc_config s) (svc_storage s) (svc_defaultKeyBuilder s) (svc_serviceKeyBuilders s)
    (svc_serviceConfigs s) (svc_latencyProfiles s) (svc_cache s) (svc_archivalIndex s)
    (svc_drainedDomains s) (svc_writeCh s) (svc_pending s) b.

(** ** Construction *)

Definition NewService (config : Config) (store : St) : service St :=
  let config := Config_HydrateDefaults config in
  let serviceKeyBuilders :=
    omap (fun sc => if (sv_KeyGranularity sc =? "")%string then None else Some (NewKeyBuilder (sv_KeyGranularity sc)))
         (cf_ServiceOverrides config) in
  mkService config store (NewKeyBuilder (cf_KeyGranularity config)) serviceKeyBuilders
    ∅ ∅ ∅ ∅ ∅ [] ∅ false.

(** ** Per-service configuration *)

Definition KeyBuilderForService s (serviceID : string) : KeyBuilder :=
  match svc_serviceKeyBuilders s !! serviceID with
  | Some b => b
  | None => svc_defaultKeyBuilder s
  end.

Definition SetServiceConfig s (serviceID : string) (config : ServiceConfig) : service St :=
  set_service_configs s (<[serviceID := config]> (svc_serviceConfigs s))
    (if (sv_KeyGranularity config =? "")%string then svc_serviceKeyBuilders s
     else <[serviceID := NewKeyBuilder (sv_KeyGranularity config)]> (svc_serviceKeyBuilders s)).

Definition GetInitialScoreForService s (serviceID : string) : float64 :=
  match svc_serviceConfigs s !! serviceID with
  | Some c => if fgtb (sv_InitialScore c) f_zero then sv_InitialScore c else cf_InitialScore (svc_config s)
  | None => cf_InitialScore (svc_config s)
  end.

Definition GetMinThresholdForService s (serviceID : string) : float64 :=
  match svc_serviceConfigs s !! serviceID with
  | Some c => if fgtb (sv_MinThreshold c) f_zero then sv_MinThreshold c else cf_MinThreshold (svc_config s)
  | None => cf_MinThreshold (svc_config s)
  end.

Definition GetRecoveryTimeoutForService s (serviceID : string) : Duration :=
  match svc_serviceConfigs s !! serviceID with
  | Some c => if 0 <? sv_RecoveryTimeout c then sv_RecoveryTimeout c else cf_RecoveryTimeout (svc_config s)
  | None => cf_RecoveryTimeout (svc_config s)
  end.

Definition SetLatencyProfile s (serviceID : string) (c : LatencyConfig) : service St :=
  set_latency_profiles s (<[serviceID := c]> (svc_latencyProfiles s)).

Definition GetLatencyConfigForService s (serviceID : string) : LatencyConfig :=
  match svc_latencyProfiles s !! serviceID with
  | Some c => c
  | None => cf_Latency (svc_config s)
  end.

Definition calculateImpact s (serviceID : string) (signal : Signal) : float64 :=
  let latencyConfig := GetLatencyConfigForService s serviceID in
  let baseImpact := GetImpact (cf_SignalImpacts (svc_config s)) (sig_Type signal) in
  let impact :=
    if negb (lc_Enabled latencyConfig) || (sig_Latency signal =? 0) then baseImpact
    else lir_FinalImpact (CalculateLatencyAwareImpactWithConfig signal latencyConfig baseImpact) in
  if fgtb impact f_zero then fmul impact (GetRecoveryMultiplier signal) else impact.

(** ** Cache and queue *)

Definition setScoreLocked s key (score : Score) : service St :=
  let sid := key_ServiceID key in
  set_cache s (<[key := score]> (svc_cache s))
    (if sc_IsArchival score then
       <[sid := {[key]} ∪ default ∅ (svc_archivalIndex s !! sid)]> (svc_archivalIndex s)
     else match svc_archivalIndex s !! sid with
          | Some idx => <[sid := idx ∖ {[key]}]> (svc_archivalIndex s)
          | None => svc_archivalIndex s
          end).

(** The non-blocking send: [None] when the buffer is full. *)
Definition try_send s (r : writeRequest) : option (service St) :=
  if Z.of_nat (List.length (svc_writeCh s)) <? sy_WriteBufferSize (cf_SyncConfig (svc_config s))
  then Some (set_queue s (svc_writeCh s ++ [r]) (svc_pending s))
  else None.

Definition send_or_drop s (r : writeRequest) : service St := default s (try_send s r).

(** Set the cached score of a key and queue the write. *)
Definition store_score s key (score : Score) : service St :=
  send_or_drop (setScoreLocked s key score) (mkWriteRequest key score).

(** ** Signals and scores *)

Definition cached_or_fresh s key now : Score :=
  match svc_cache s !! key with
  | Some score => score
  | None => fresh_score (GetInitialScoreForService s (key_ServiceID key)) now
  end.

Definition RecordSignal s now key (signal : Signal) : service St :=
  if negb (cf_Enabled (svc_config s)) then s
  else
    let impact := calculateImpact s (key_ServiceID key) signal in
    store_score s key (score_after_signal (cached_or_fresh s key now) signal impact now).

Definition shouldRecover s now (score : Score) (serviceID : string) : bool :=
  if fgeb (sc_Value score) (GetMinThresholdForService s serviceID) then false
  else
    let handled := match svc_serviceConfigs s !! serviceID with
                   | Some c => sv_HealthChecksEnabled c || sv_ProbationEnabled c
                   | None => false
                   end in
    if handled then false
    else GetRecoveryTimeoutForService s serviceID <=? time_sub now (sc_LastUpdated score).

Definition recoverScore s now key : Score * service St :=
  let score := fresh_score (GetInitialScoreForService s (key_ServiceID key)) now in
  (score, store_score s key score).

(** [Score{Value: v}]: the zero time in [LastUpdated]. *)
Definition bare_score (v : float64) : Score := fresh_score v time_zero.

Definition GetScore s now key : result storage_error Score * service St :=
  if negb (cf_Enabled (svc_config s)) then
    (Ok (bare_score (GetInitialScoreForService s (key_ServiceID key))), s)
  else match svc_cache s !! key with
       | None => (Err ErrNotFound, s)
       | Some score =>
           if shouldRecover s now score (key_ServiceID key) then
             let '(score', s') := recoverScore s now key in (Ok score', s')
           else (Ok score, s)
       end.

Definition GetScores s (keys : list EndpointKey) : gmap EndpointKey Score :=
  if negb (cf_Enabled (svc_config s)) then
    fold_left (fun res key => <[key := bare_score (GetInitialScoreForService s (key_ServiceID key))]> res) keys ∅
  else
    fold_left (fun res key => match svc_cache s !! key with Some score => <[key := score]> res | None => res end) keys ∅.

(** The score an endpoint is ranked by. *)
Definition rank_score s key : float64 :=
  match svc_cache s !! key with
  | Some score => sc_Value score
  | None => GetInitialScoreForService s (key_ServiceID key)
  end.

(** [slices.SortStableFunc] with [cmp.Compare(b.score, a.score)]: the stable
    descending order is unique, and insertion from the right computes it. *)
Fixpoint insert_desc (x : EndpointKey * float64) (l : list (EndpointKey * float64)) :=
  match l with
  | [] => [x]
  | y :: l' => if f64_ge x.2 y.2 then x :: y :: l' else y :: insert_desc x l'
  end.
Definition sort_stable_desc (l : list (EndpointKey * float64)) := fold_right insert_desc [] l.

Definition RankEndpointsByScore s (keys : list EndpointKey) : list EndpointKey :=
  match keys with
  | [] => []
  | _ => map fst (sort_stable_desc (map (fun key => (key, rank_score s key)) keys))
  end.

Record keyScore := mkKeyScore { ks_key : EndpointKey; ks_score : option Score; ks_needRecovery : bool }.

Definition snapshot s now key : keyScore :=
  let score := svc_cache s !! key in
  mkKeyScore key score
    (match score with Some sc => shouldRecover s now sc (key_ServiceID key) | None => false end).

(** The second pass: recover what needs it, in order. *)
Fixpoint recover_all s now (l : list keyScore) : list keyScore * service St :=
  match l with
  | [] => ([], s)
  | ks :: l' =>
      let '(ks', s1) :=
        if ks_needRecovery ks then
          let '(sc, s1) := recoverScore s now (ks_key ks) in
          (mkKeyScore (ks_key ks) (Some sc) true, s1)
        else (ks, s) in
      let '(l2, s2) := recover_all s1 now l' in
      (ks' :: l2, s2)
  end.

Definition passes s (minThreshold : float64) (ks : keyScore) : bool :=
  match ks_score ks with
  | None => fgeb (GetInitialScoreForService s (key_ServiceID (ks_key ks))) minThreshold
  | Some sc => fgeb (sc_Value sc) minThreshold
  end.

Definition FilterByScore s now (keys : list EndpointKey) (minThreshold : float64)
  : list EndpointKey * service St :=
  if negb (cf_Enabled (svc_config s)) then (keys, s)
  else
    let '(l, s') := recover_all s now (map (snapshot s now) keys) in
    (map ks_key (List.filter (passes s' minThreshold) l), s').

Definition ResetScore s now key : service St :=
  if negb (cf_Enabled (svc_config s)) then s
  else store_score s key (fresh_score (GetInitialScoreForService s (key_ServiceID key)) now).

(** ** Archival status *)

Definition SetArchivalStatus s now key (isArchival : bool) (archivalTTL : Duration)
  : option storage_error * service St :=
  let score := cached_or_fresh s key now in
  let expires := if isArchival then time_add now archivalTTL else time_zero in
  let score := with_archival score isArchival expires now in
  let s1 := setScoreLocked s key score in
  match try_send s1 (mkWriteRequest key score) with
  | Some s2 => (None, s2)
  | None =>
      match st_Set (svc_storage s1) now key score with
      | Ok st => (None, set_storage s1 st)
      | Err e => (Some e, s1)
      end
  end.

Definition svc_IsArchivalCapable s now key : bool * service St :=
  match svc_cache s !! key with
  | Some score => (IsArchivalCapable score now, s)
  | None =>
      match st_Get (svc_storage s) now key with
      | Ok stored => (IsArchivalCapable stored now, setScoreLocked s key stored)
      | Err _ => (false, s)
      end
  end.

Definition archival_now s now key : bool :=
  match svc_cache s !! key with Some score => IsArchivalCapable score now | None => false end.

Definition GetArchivalEndpoints s now (serviceID : string) : list EndpointKey :=
  List.filter (archival_now s now) (elements (default ∅ (svc_archivalIndex s !! serviceID))).

(** ** Block numbers (delegated to the storage) *)

Definition store_result s (r : result storage_error St) : option storage_error * service St :=
  match r with Ok st => (None, set_storage s st) | Err e => (Some e, s) end.

Definition SetPerceivedBlockNumber s (serviceID : string) (n : Z) :=
  store_result s (st_SetPerceivedBlockNumber (svc_storage s) serviceID n).
Definition DeletePerceivedBlockNumber s (serviceID : string) :=
  store_result s (st_DeletePerceivedBlockNumber (svc_storage s) serviceID).
Definition GetPerceivedBlockNumber s (serviceID : string) : Z :=
  match st_GetPerceivedBlockNumber (svc_storage s) serviceID with Ok n => n | Err _ => 0 end.
Definition SetEndpointBlockHeight s (serviceID addr : string) (h : Z) :=
  store_result s (st_SetEndpointBlockHeight (svc_storage s) serviceID addr h).
Definition GetEndpointBlockHeights s (serviceID : string) : gmap string Z :=
  match st_GetEndpointBlockHeights (svc_storage s) serviceID with Ok h => h | Err _ => ∅ end.
Definition RemoveEndpointBlockHeights s (serviceID : string) (addrs : list string) :=
  store_result s (st_RemoveEndpointBlockHeights (svc_storage s) serviceID addrs).

(** ** Admin drains *)

Record DrainRequest := mkDrainRequest {
  dr_ServiceID : string;
  dr_Domain : string;
  dr_Duration : Duration;
  dr_RPCType : string;
  dr_DryRun : bool;
}.

Record DrainResult := mkDrainResult {
  dres_ServiceID : string;
  dres_Domain : string;
  dres_RPCType : string;
  dres_Applied : bool;
  dres_Released : bool;
  dres_DrainedUntil : option Time;                     (** formatted in the source *)
  dres_ActiveDrains : list (string * string * Time);   (** domain, RPC type or "all", expiry *)
  dres_PropagationError : option storage_error;
  dres_DryRun : bool;
}.

Definition activeDrainsFor s now (serviceID : string) : list (string * string * Time) :=
  omap (fun '(k, until) =>
    if negb (dk_ServiceID k =? serviceID)%string || negb (time_before now until) then None
    else Some (dk_Domain k, if (dk_RPCType k =? "")%string then "all" else dk_RPCType k, until))
    (map_to_list (svc_drainedDomains s)).

Definition drain_key (req : DrainRequest) : DrainKey :=
  mkDrainKey (dr_ServiceID req) (to_lower (trim_space (dr_Domain req))) (to_lower (trim_space (dr_RPCType req))).

Definition DrainDomain s now (req : DrainRequest) : DrainResult * service St :=
  let key := drain_key req in
  let domain := dk_Domain key in
  let rpcType := dk_RPCType key in
  if negb (cf_Enabled (svc_config s)) || (domain =? "")%string then
    (mkDrainResult (dr_ServiceID req) domain rpcType false false None
       (activeDrainsFor s now (dr_ServiceID req)) None (dr_DryRun req), s)
  else
    let releasing := dr_Duration req <=? 0 in
    let until := time_add now (dr_Duration req) in
    let '(err, s') :=
      if dr_DryRun req then (None, s)
      else
        let live := live_drains now (svc_drainedDomains s) in
        let s1 := set_drains s (if releasing then delete key live else <[key := until]> live) in
        store_result s1
          (if releasing then st_DeleteDrain (svc_storage s1) key else st_SetDrain (svc_storage s1) key until) in
    (mkDrainResult (dr_ServiceID req) domain rpcType (negb releasing) releasing
       (if negb releasing && negb (dr_DryRun req) then Some until else None)
       (activeDrainsFor s' now (dr_ServiceID req)) err (dr_DryRun req), s').

Definition IsDomainDrained s now (serviceID domain rpcType : string) : bool :=
  if (domain =? "")%string then false
  else
    let domain := to_lower domain in
    let rpcType := to_lower rpcType in
    if bool_decide (svc_drainedDomains s = ∅) then false
    else existsb (fun k => match svc_drainedDomains s !! k with
                           | Some until => time_before now until
                           | None => false
                           end)
           [mkDrainKey serviceID domain rpcType; mkDrainKey serviceID domain ""].

Definition refreshDrains s now : service St :=
  match st_ListDrains (svc_storage s) now with
  | Err _ => s
  | Ok (drains, st) => set_drains (set_storage s st) drains
  end.

(** ** Background work *)

(** Load every listed score, then the drains; an error stops the refresh. *)
Definition refreshFromStorage s now : option storage_error * service St :=
  match st_List (svc_storage s) now "" with
  | Err e => (Some e, s)
  | Ok [] => (None, s)
  | Ok keys =>
      match st_GetMultiple (svc_storage s) now keys with
      | Err e => (Some e, s)
      | Ok scores =>
          let s1 := fold_left (fun s '(k, sc) => setScoreLocked s k sc) (map_to_list scores) s in
          (None, refreshDrains s1 now)
      end
  end.

Definition Start s now : service St :=
  if negb (cf_Enabled (svc_config s)) then s
  else if svc_started s then s
  else snd (refreshFromStorage (set_started s true) now).

(** The write loop: receive one request, flush the pending ones, and the drain
    of the channel at shutdown. *)
Definition write_receive s : service St :=
  match svc_writeCh s with
  | [] => s
  | r :: q => set_queue s q (<[key_String (wr_key r) := r]> (svc_pending s))
  end.

Definition pending_scores (pending : gmap string writeRequest) : gmap EndpointKey Score :=
  fold_left (fun m '(_, r) => <[wr_key r := wr_score r]> m) (map_to_list pending) ∅.

Definition write_flush s now : service St :=
  if bool_decide (svc_pending s = ∅) then s
  else
    let st := match st_SetMultiple (svc_storage s) now (pending_scores (svc_pending s)) with
              | Ok st => st
              | Err _ => svc_storage s
              end in
    set_queue (set_storage s st) (svc_writeCh s) ∅.

Definition coalesce (q : list writeRequest) (pending : gmap string writeRequest) : gmap string writeRequest :=
  fold_left (fun p r => <[key_String (wr_key r) := r]> p) q pending.

(** The drain loop at shutdown: receive until the channel is empty, flush. *)
Definition write_stop s now : service St :=
  write_flush (set_queue s [] (coalesce (svc_writeCh s) (svc_pending s))) now.

Definition Stop s now : service St :=
  if negb (cf_Enabled (svc_config s)) then s
  else if negb (svc_started s) then s
  else write_stop s now.

(** One tick of the cleanup loop, on a storage that can be cleaned. *)
Definition cleanup_tick `{!Cleaner St} s now : service St :=
  set_storage s (cl_Cleanup (svc_storage s) now).
End Service.
