(* ===== verification/RepServiceProps.v ===== *)
(** * Correctness of the reputation service

    A step relation over every operation and background action of the service,
    with its invariants by rule induction: the archival index mirrors the cache
    (so the indexed lookup equals the full scan it replaced) and every cached,
    queued and stored score is in bounds.  Ranking, filtering, write coalescing
    and the fleet-wide drains have functional specifications. *)

From S2P Require Import Prelude GoStrings Float64 Rounding Signals Score ScoreProps RepKey RepConfig RepStorage RepService.
From Stdlib Require Import ZArith Lia Bool Ascii String Sorted.
From stdpp Require Import base list gmap strings fin_maps sorting.

Open Scope string_scope.
Open Scope Z_scope.

Create HintDb svc_index discriminated.

Section Steps.
Context {St : Type} `{RPCTypeEnum} `{!Storage St}.
Implicit Types (s : service St) (key : EndpointKey) (now : Time).

(** One operation or background action, at some instant. *)
Inductive svc_step : service St -> service St -> Prop :=
| step_RecordSignal s now key signal : svc_step s (RecordSignal s now key signal)
| step_GetScore s now key : svc_step s (snd (GetScore s now key))
| step_FilterByScore s now keys t : svc_step s (snd (FilterByScore s now keys t))
| step_ResetScore s now key : svc_step s (ResetScore s now key)
| step_SetServiceConfig s sid c : svc_step s (SetServiceConfig s sid c)
| step_SetLatencyProfile s sid c : svc_step s (SetLatencyProfile s sid c)
| step_SetArchivalStatus s now key b ttl : svc_step s (snd (SetArchivalStatus s now key b ttl))
| step_IsArchivalCapable s now key : svc_step s (snd (svc_IsArchivalCapable s now key))
| step_SetPerceived s sid n : svc_step s (snd (SetPerceivedBlockNumber s sid n))
| step_DeletePerceived s sid : svc_step s (snd (DeletePerceivedBlockNumber s sid))
| step_SetEndpointHeight s sid a h : svc_step s (snd (SetEndpointBlockHeight s sid a h))
| step_RemoveEndpointHeights s sid l : svc_step s (snd (RemoveEndpointBlockHeights s sid l))
| step_DrainDomain s now req : svc_step s (snd (DrainDomain s now req))
| step_Start s now : svc_step s (Start s now)
| step_refresh s now : svc_step s (snd (refreshFromStorage s now))
| step_receive s : svc_step s (write_receive s)
| step_flush s now : svc_step s (write_flush s now)
| step_Stop s now : svc_step s (Stop s now).

Inductive svc_reach (s0 : service St) : service St -> Prop :=
| reach_refl : svc_reach s0 s0
| reach_step s s' : svc_reach s0 s -> svc_step s s' -> svc_reach s0 s'.

(** ** The archival index *)

Definition archival_flag s key : Prop := exists sc, svc_cache s !! key = Some sc /\ sc_IsArchival sc = true.

Definition index_ok s : Prop :=
  forall sid key, key ∈ default ∅ (svc_archivalIndex s !! sid) <-> key_ServiceID key = sid /\ archival_flag s key.

Lemma index_ok_ext s s' :
  svc_cache s' = svc_cache s -> svc_archivalIndex s' = svc_archivalIndex s -> index_ok s -> index_ok s'.
Proof. unfold index_ok, archival_flag. now intros -> ->. Qed.

Lemma archival_flag_insert s key0 score key idx :
  archival_flag (set_cache s (<[key0 := score]> (svc_cache s)) idx) key <->
  (key = key0 /\ sc_IsArchival score = true) \/ (key <> key0 /\ archival_flag s key).
Proof.
  unfold archival_flag. cbn. destruct (decide (key = key0)) as [->|Hne].
  - rewrite lookup_insert_eq. naive_solver.
  - rewrite lookup_insert_ne by congruence. naive_solver.
Qed.

Lemma setScoreLocked_index s key0 score : index_ok s -> index_ok (setScoreLocked s key0 score).
Proof.
  intros Hok sid key. unfold setScoreLocked. rewrite archival_flag_insert.
  specialize (Hok sid key). cbn [set_cache svc_archivalIndex].
  destruct (sc_IsArchival score) eqn:Ea.
  - destruct (decide (key_ServiceID key0 = sid)) as [<-|Hs].
    + rewrite lookup_insert_eq. cbn [from_option id]. rewrite elem_of_union, elem_of_singleton, Hok.
      destruct (decide (key = key0)); naive_solver.
    + rewrite lookup_insert_ne by assumption. rewrite Hok. naive_solver.
  - assert (G : key ∈ default ∅ (svc_archivalIndex s !! sid) <-> key_ServiceID key = sid /\ archival_flag s key) by exact Hok.
    destruct (svc_archivalIndex s !! key_ServiceID key0) as [idx|] eqn:Ei.
    + destruct (decide (key_ServiceID key0 = sid)) as [<-|Hs].
      * rewrite lookup_insert_eq. cbn [from_option id]. rewrite Ei in G. cbn [from_option id] in G.
        rewrite elem_of_difference, elem_of_singleton, G. naive_solver.
      * rewrite lookup_insert_ne by assumption. rewrite G. naive_solver.
    + rewrite G. split; [|naive_solver]. intros [H1 H2]. split; [assumption|right].
      split; [|assumption]. intros ->. subst sid. rewrite Ei in G.
      apply (not_elem_of_empty (C:=gset EndpointKey) key0). apply G. auto.
Qed.

Lemma try_send_fields s r s' :
  try_send s r = Some s' ->
  svc_cache s' = svc_cache s /\ svc_archivalIndex s' = svc_archivalIndex s /\
  svc_config s' = svc_config s /\ svc_serviceConfigs s' = svc_serviceConfigs s /\
  svc_storage s' = svc_storage s /\ svc_pending s' = svc_pending s /\ svc_writeCh s' = (svc_writeCh s ++ [r])%list.
Proof. unfold try_send. destruct (_ <? _); [|discriminate]. intros [= <-]. cbn. auto 10. Qed.

Lemma send_or_drop_cases s r : send_or_drop s r = s \/ try_send s r = Some (send_or_drop s r).
Proof. unfold send_or_drop. destruct (try_send s r); auto. Qed.

Lemma store_score_index s key score : index_ok s -> index_ok (store_score s key score).
Proof.
  intros Hok. unfold store_score.
  destruct (send_or_drop_cases (setScoreLocked s key score) (mkWriteRequest key score)) as [->|E];
    [now apply setScoreLocked_index|].
  apply try_send_fields in E as (E1 & E2 & _).
  eapply index_ok_ext; eauto using setScoreLocked_index.
Qed.

Lemma recover_all_index l : forall s now, index_ok s -> index_ok (snd (recover_all s now l)).
Proof.
  induction l as [|ks l IH]; intros s now Hok; [exact Hok|]. cbn [recover_all].
  destruct (ks_needRecovery ks); cbn [recoverScore].
  - set (s1 := store_score s _ _).
    pose proof (IH s1 now (store_score_index s _ _ Hok)). now destruct (recover_all s1 now l).
  - pose proof (IH s now Hok). now destruct (recover_all s now l).
Qed.

Lemma fold_set_index (l : list (EndpointKey * Score)) : forall s,
  index_ok s -> index_ok (fold_left (fun s '(k, sc) => setScoreLocked s k sc) l s).
Proof. induction l as [|[k sc] l IH]; intros s Hok; [exact Hok|]. apply IH. now apply setScoreLocked_index. Qed.

Lemma refreshDrains_index s now : index_ok s -> index_ok (refreshDrains s now).
Proof.
  intros Hok. unfold refreshDrains. destruct (st_ListDrains _ now) as [[d st]|e]; [|exact Hok].
  now apply (index_ok_ext s).
Qed.

Lemma refresh_index s now : index_ok s -> index_ok (snd (refreshFromStorage s now)).
Proof.
  intros Hok. unfold refreshFromStorage.
  destruct (st_List _ now "") as [[|k ks]|e]; try exact Hok.
  destruct (st_GetMultiple _ now _) as [scores|e]; [|exact Hok].
  cbn [snd]. apply refreshDrains_index. now apply fold_set_index.
Qed.

Lemma store_result_index s r : index_ok s -> index_ok (snd (store_result s r)).
Proof. intros Hok. destruct r; [now apply (index_ok_ext s)|exact Hok]. Qed.

Lemma write_flush_index s now : index_ok s -> index_ok (write_flush s now).
Proof. intros Hok. unfold write_flush. case_bool_decide; [exact Hok|now apply (index_ok_ext s)]. Qed.

Hint Resolve store_score_index setScoreLocked_index recover_all_index refresh_index
  store_result_index write_flush_index : svc_index.

Lemma svc_step_index s s' : svc_step s s' -> index_ok s -> index_ok s'.
Proof.
  intros Hstep Hok. destruct Hstep; try (now apply (index_ok_ext s));
    try (now apply store_result_index); auto with svc_index.
  - unfold RecordSignal. destruct (negb _); auto with svc_index.
  - unfold GetScore. destruct (negb _); [exact Hok|]. destruct (svc_cache s !! key); [|exact Hok].
    destruct (shouldRecover _ _ _ _); cbn; auto with svc_index.
  - unfold FilterByScore. destruct (negb _); [exact Hok|].
    pose proof (recover_all_index (map (snapshot s now) keys) s now Hok).
    now destruct (recover_all _ _ _).
  - unfold ResetScore. destruct (negb _); auto with svc_index.
  - unfold SetArchivalStatus. destruct (try_send _ _) as [s2|] eqn:E.
    + apply try_send_fields in E as (E1 & E2 & _). eapply index_ok_ext; eauto with svc_index.
    + destruct (st_Set _ _ _ _); cbn [snd]; [|auto with svc_index].
      eapply (index_ok_ext (setScoreLocked s key _)); [reflexivity|reflexivity|auto with svc_index].
  - unfold svc_IsArchivalCapable. destruct (svc_cache s !! key); [exact Hok|].
    destruct (st_Get _ _ _); cbn; auto with svc_index.
  - unfold DrainDomain. destruct (_ || _); [exact Hok|]. destruct (dr_DryRun req); [exact Hok|].
    match goal with |- context [store_result ?a ?b] =>
      assert (Hs : index_ok (snd (store_result a b))) by (apply store_result_index; now apply (index_ok_ext s));
      destruct (store_result a b) end. exact Hs.
  - unfold Start. destruct (negb _); [exact Hok|]. destruct (svc_started s); [exact Hok|].
    apply refresh_index. now apply (index_ok_ext s).
  - unfold write_receive. destruct (svc_writeCh s); [exact Hok|now apply (index_ok_ext s)].
  - unfold Stop. destruct (negb _); [exact Hok|]. destruct (negb _); [exact Hok|].
    unfold write_stop. apply write_flush_index. now apply (index_ok_ext s).
Qed.

Lemma NewService_index c st : index_ok (NewService c st).
Proof.
  intros sid key. cbn. rewrite lookup_empty. cbn [from_option id]. unfold archival_flag. cbn.
  split; [intros Hc; now apply not_elem_of_empty in Hc|].
  intros [_ (sc & Hl & _)]. now rewrite lookup_empty in Hl.
Qed.

Lemma svc_reach_index s0 s : index_ok s0 -> svc_reach s0 s -> index_ok s.
Proof. intros H0. induction 1; eauto using svc_step_index. Qed.

Lemma GetArchivalEndpoints_members s now sid key :
  index_ok s ->
  (In key (GetArchivalEndpoints s now sid) <-> key_ServiceID key = sid /\ archival_now s now key = true).
Proof.
  intros Hok. unfold GetArchivalEndpoints. rewrite filter_In, <- list_elem_of_In, elem_of_elements.
  rewrite (Hok sid key). unfold archival_flag, archival_now. split; [tauto|].
  destruct (svc_cache s !! key) as [sc|] eqn:E; [|naive_solver]. intros [-> Ha].
  repeat split; auto. exists sc. split; [reflexivity|].
  unfold IsArchivalCapable in Ha. now destruct (sc_IsArchival sc).
Qed.
End Steps.

(** ** Score bounds *)

Section Bounds.
Context {St : Type} `{RPCTypeEnum} `{!Storage St} {holds : (Score -> Prop) -> St -> Prop}
  `{!ScoreStorageLaws St holds}.
Implicit Types (s : service St) (key : EndpointKey) (now : Time).

Definition in_bounds (v : float64) : Prop := fleb MinScore v = true /\ fleb v MaxScore = true.

(** The configuration in force is made of numbers, with initial scores in
    bounds: what Config.Validate checks, and no NaN or infinity. *)
Record configs_ok s : Prop := {
  co_initial : in_bounds (cf_InitialScore (svc_config s));
  co_impacts : impacts_finite (cf_SignalImpacts (svc_config s));
  co_latency : latency_finite (cf_Latency (svc_config s));
  co_service : forall sid c, svc_serviceConfigs s !! sid = Some c ->
    fgtb (sv_InitialScore c) f_zero = true -> fleb (sv_InitialScore c) MaxScore = true;
  co_profile : forall sid c, svc_latencyProfiles s !! sid = Some c -> latency_finite c;
}.

(** A score in bounds, after at most [n] signals. *)
Definition score_good (n : Z) (sc : Score) : Prop := score_ok sc /\ sc_CriticalStrikes sc <= n.

Record scores_good (n : Z) s : Prop := {
  sg_cache : forall key sc, svc_cache s !! key = Some sc -> score_good n sc;
  sg_queue : Forall (fun r => score_good n (wr_score r)) (svc_writeCh s);
  sg_pending : forall k r, svc_pending s !! k = Some r -> score_good n (wr_score r);
  sg_storage : holds (score_good n) (svc_storage s);
}.

Lemma score_good_mono n m sc : n <= m -> score_good n sc -> score_good m sc.
Proof. intros Hle [H1 H2]. split; [assumption|lia]. Qed.

Lemma scores_good_mono n m s : n <= m -> scores_good n s -> scores_good m s.
Proof.
  intros Hle [H1 H2 H3 H4]. split.
  - intros key sc Hk. eauto using score_good_mono.
  - eapply Forall_impl; [exact H2|]. eauto using score_good_mono.
  - intros k r Hk. eauto using score_good_mono.
  - eapply ssl_mono; [|exact H4]. eauto using score_good_mono.
Qed.

Lemma initial_in_bounds s sid : configs_ok s -> in_bounds (GetInitialScoreForService s sid).
Proof.
  intros [Hi _ _ Hs _]. unfold GetInitialScoreForService.
  destruct (svc_serviceConfigs s !! sid) as [c|] eqn:E; [|exact Hi].
  destruct (fgtb (sv_InitialScore c) f_zero) eqn:Ec; [|exact Hi].
  split; [|eauto]. now apply fltb_fleb.
Qed.

Lemma fresh_good n s sid now : 0 <= n -> configs_ok s -> score_good n (fresh_score (GetInitialScoreForService s sid) now).
Proof. intros Hn Hc. destruct (initial_in_bounds s sid Hc). split; [now apply fresh_score_ok|exact Hn]. Qed.

Lemma cached_or_fresh_good n s key now :
  0 <= n -> configs_ok s -> scores_good n s -> score_good n (cached_or_fresh s key now).
Proof.
  intros Hn Hc Hs. unfold cached_or_fresh. destruct (svc_cache s !! key) eqn:E; [|auto using fresh_good].
  eapply sg_cache; eauto.
Qed.

Lemma multiplier_pos signal : fltb f_zero (GetRecoveryMultiplier signal) = true.
Proof.
  unfold GetRecoveryMultiplier. destruct (sig_Metadata signal) as [md|]; [|reflexivity].
  destruct (md !! "recovery_multiplier") as [v|]; [|reflexivity].
  destruct (parse_float v) as [x|]; [|reflexivity]. unfold fgtb.
  destruct (fltb f_zero x) eqn:E; [exact E|reflexivity].
Qed.

Lemma calculateImpact_not_nan s sid signal : configs_ok s -> is_nan (calculateImpact s sid signal) = false.
Proof.
  intros [_ Hi Hl _ Hp]. unfold calculateImpact.
  assert (Hlat : latency_finite (GetLatencyConfigForService s sid)).
  { unfold GetLatencyConfigForService. destruct (svc_latencyProfiles s !! sid) eqn:E; eauto. }
  pose proof (GetImpact_finite _ (sig_Type signal) Hi) as Hb.
  set (base := GetImpact _ _) in *. set (lc := GetLatencyConfigForService s sid) in *.
  set (impact := if _ || _ then _ else _).
  assert (Hn : is_nan impact = false).
  { unfold impact. destruct (_ || _); [now apply is_finite_not_nan|].
    unfold CalculateLatencyAwareImpactWithConfig. destruct (_ || _); [now apply is_finite_not_nan|].
    pose proof (latency_modifier_finite (sig_Latency signal) lc Hlat) as Hm.
    destruct (latency_modifier (sig_Latency signal) lc) as [m cat]. now apply fmul_not_nan. }
  unfold fgtb. destruct (fltb f_zero impact) eqn:E; [|exact Hn].
  apply fmul_pos_not_nan; [exact E|apply multiplier_pos].
Qed.

Lemma setScoreLocked_good n s key sc : scores_good n s -> score_good n sc -> scores_good n (setScoreLocked s key sc).
Proof.
  intros [H1 H2 H3 H4] Hsc. split; cbn; auto. intros k x.
  destruct (decide (key = k)) as [<-|Hne].
  - rewrite lookup_insert_eq. now intros [= <-].
  - rewrite lookup_insert_ne by assumption. apply H1.
Qed.

Lemma try_send_good n s r s' :
  try_send s r = Some s' -> scores_good n s -> score_good n (wr_score r) -> scores_good n s'.
Proof.
  unfold try_send. destruct (_ <? _); [|discriminate]. intros [= <-] [H1 H2 H3 H4] Hr.
  split; cbn; auto. apply Forall_app. auto.
Qed.

Lemma store_score_good n s key sc : scores_good n s -> score_good n sc -> scores_good n (store_score s key sc).
Proof.
  intros Hs Hsc. unfold store_score.
  pose proof (setScoreLocked_good n s key sc Hs Hsc) as Hl.
  destruct (send_or_drop_cases (setScoreLocked s key sc) (mkWriteRequest key sc)) as [->|E]; [exact Hl|].
  eapply try_send_good; eauto.
Qed.

(** Only the write path changes under [store_score]: the configuration stays. *)
Lemma store_score_configs s key sc : configs_ok s -> configs_ok (store_score s key sc).
Proof.
  intros [H1 H2 H3 H4 H5]. unfold store_score, send_or_drop, try_send.
  destruct (_ <? _); split; cbn; auto.
Qed.

Lemma record_good n s now key signal :
  0 <= n < max_int64 -> configs_ok s -> scores_good n s -> scores_good (n + 1) (RecordSignal s now key signal).
Proof.
  intros Hn Hc Hs. pose proof (scores_good_mono n (n + 1) s ltac:(lia) Hs) as Hs'.
  unfold RecordSignal. destruct (negb _); [exact Hs'|]. apply store_score_good; [exact Hs'|].
  destruct (cached_or_fresh_good n s key now ltac:(lia) Hc Hs) as [G1 G2].
  pose proof (so_strikes _ G1).
  pose proof (calculateImpact_not_nan s (key_ServiceID key) signal Hc).
  split; [apply score_after_signal_inv; auto; lia|].
  pose proof (score_step_strikes (cached_or_fresh s key now)
    (mkEvent signal (calculateImpact s (key_ServiceID key) signal) now) ltac:(lia)) as Hk.
  unfold score_step in Hk. cbn in Hk. lia.
Qed.

Lemma recover_all_good n l : forall s now,
  0 <= n -> configs_ok s -> scores_good n s -> scores_good n (snd (recover_all s now l)).
Proof.
  induction l as [|ks l IH]; intros s now Hn Hc Hs; [exact Hs|]. cbn [recover_all].
  destruct (ks_needRecovery ks); cbn [recoverScore].
  - set (s1 := store_score s _ _).
    assert (scores_good n s1) by (apply store_score_good; auto using fresh_good).
    assert (configs_ok s1) by now apply store_score_configs.
    pose proof (IH s1 now Hn). destruct (recover_all s1 now l). cbn in *. auto.
  - pose proof (IH s now Hn Hc Hs). now destruct (recover_all s now l).
Qed.

Lemma fold_set_good n (l : list (EndpointKey * Score)) : forall s,
  scores_good n s -> Forall (fun p => score_good n p.2) l ->
  scores_good n (fold_left (fun s '(k, sc) => setScoreLocked s k sc) l s).
Proof.
  induction l as [|[k sc] l IH]; intros s Hs Hl; [exact Hs|].
  inversion Hl; subst. apply IH; auto using setScoreLocked_good.
Qed.

Lemma set_storage_good n s st : scores_good n s -> holds (score_good n) st -> scores_good n (set_storage s st).
Proof. intros [H1 H2 H3 H4] Hst. split; auto. Qed.

Lemma refreshDrains_good n s now : scores_good n s -> scores_good n (refreshDrains s now).
Proof.
  intros Hs. unfold refreshDrains. destruct (st_ListDrains _ now) as [[d st]|e] eqn:E; [|exact Hs].
  apply (ssl_ListDrains (score_good n)) in E; [|apply Hs]. destruct Hs as [H1 H2 H3 H4]. split; auto.
Qed.

Lemma refresh_good n s now : scores_good n s -> scores_good n (snd (refreshFromStorage s now)).
Proof.
  intros Hs. unfold refreshFromStorage.
  destruct (st_List _ now "") as [[|k ks]|e]; try exact Hs.
  destruct (st_GetMultiple _ now _) as [scores|e] eqn:E; [|exact Hs].
  cbn [snd]. apply refreshDrains_good, fold_set_good; [exact Hs|].
  apply Forall_forall. intros [k' sc] Hin. apply elem_of_map_to_list in Hin.
  eapply ssl_GetMultiple; [apply Hs|exact E|exact Hin].
Qed.

Lemma pending_scores_values (P : Score -> Prop) (pending : gmap string writeRequest) :
  (forall k r, pending !! k = Some r -> P (wr_score r)) ->
  forall key sc, pending_scores pending !! key = Some sc -> P sc.
Proof.
  intros Hp. unfold pending_scores.
  assert (Hl : Forall (fun p => P (wr_score p.2)) (map_to_list pending))
    by (apply Forall_forall; intros [k r] Hin; apply elem_of_map_to_list in Hin; eauto).
  assert (H0 : forall key sc, (∅ : gmap EndpointKey Score) !! key = Some sc -> P sc)
    by (intros key sc; now rewrite lookup_empty).
  revert H0. generalize (∅ : gmap EndpointKey Score).
  induction Hl as [|[k r] l Hr Hl IH]; intros m Hm; [exact Hm|]. apply IH. intros key sc.
  destruct (decide (wr_key r = key)) as [<-|Hne].
  - rewrite lookup_insert_eq. now intros [= <-].
  - rewrite lookup_insert_ne by assumption. apply Hm.
Qed.

Lemma write_flush_good n s now : scores_good n s -> scores_good n (write_flush s now).
Proof.
  intros Hs. unfold write_flush. case_bool_decide; [exact Hs|]. destruct Hs as [H1 H2 H3 H4].
  split; cbn; auto; [intros k r; now rewrite lookup_empty|].
  destruct (st_SetMultiple _ now _) as [st|e] eqn:E; [|exact H4].
  eapply ssl_SetMultiple; [exact H4| |exact E]. now apply pending_scores_values.
Qed.

Lemma coalesce_values (P : writeRequest -> Prop) q : forall pending,
  Forall P q -> (forall k r, pending !! k = Some r -> P r) ->
  forall k r, coalesce q pending !! k = Some r -> P r.
Proof.
  induction q as [|r0 q IH]; intros pending Hq Hp; [exact Hp|].
  inversion Hq; subst. apply IH; [assumption|]. intros k r.
  destruct (decide (key_String (wr_key r0) = k)) as [<-|Hne].
  - rewrite lookup_insert_eq. now intros [= <-].
  - rewrite lookup_insert_ne by assumption. apply Hp.
Qed.

Lemma store_result_good n s r :
  scores_good n s -> (forall st, r = Ok st -> holds (score_good n) st) -> scores_good n (snd (store_result s r)).
Proof. intros Hs Hr. destruct r; [apply set_storage_good; auto|exact Hs]. Qed.

Lemma with_archival_good n sc b e now : score_good n sc -> score_good n (with_archival sc b e now).
Proof. intros [[H1 H2 H3 H4] H5]. split; [split; auto|exact H5]. Qed.

Lemma SetArchivalStatus_good n s now key b ttl :
  0 <= n -> configs_ok s -> scores_good n s -> scores_good n (snd (SetArchivalStatus s now key b ttl)).
Proof.
  intros Hn Hc Hs. unfold SetArchivalStatus.
  set (sc := with_archival _ _ _ _).
  assert (Hsc : score_good n sc) by (apply with_archival_good; auto using cached_or_fresh_good).
  pose proof (setScoreLocked_good n s key sc Hs Hsc) as Hl.
  destruct (try_send _ _) as [s2|] eqn:E; [eapply try_send_good; eauto|].
  destruct (st_Set _ _ _ _) as [st|e] eqn:Es; cbn [snd]; [|exact Hl].
  apply set_storage_good; [exact Hl|]. eapply ssl_Set; eauto. apply Hl.
Qed.

Lemma DrainDomain_good n s now req : scores_good n s -> scores_good n (snd (DrainDomain s now req)).
Proof.
  intros Hs. unfold DrainDomain. destruct (_ || _); [exact Hs|]. destruct (dr_DryRun req); [exact Hs|].
  match goal with |- context [store_result ?a ?b] =>
    assert (Hr : scores_good n (snd (store_result a b))) end.
  { apply store_result_good; [destruct Hs; split; auto|].
    intros st. destruct Hs as [_ _ _ H4].
    destruct (dr_Duration req <=? 0); [apply (ssl_DeleteDrain (score_good n))|apply (ssl_SetDrain (score_good n))]; exact H4. }
  destruct (store_result _ _). exact Hr.
Qed.

Lemma write_stop_good n s now : scores_good n s -> scores_good n (write_stop s now).
Proof.
  intros [H1 H2 H3 H4]. unfold write_stop. apply write_flush_good. split; cbn; auto.
  apply (coalesce_values (fun r => score_good n (wr_score r))); assumption.
Qed.

Lemma svc_step_good n s s' :
  svc_step s s' -> 0 <= n < max_int64 -> configs_ok s -> scores_good n s -> scores_good (n + 1) s'.
Proof.
  intros Hstep Hn Hc Hs.
  destruct Hstep; [now apply record_good|..]; apply (scores_good_mono n); try lia;
    try (apply store_result_good; [exact Hs|]; intros st;
         (apply (ssl_SetPerceived (score_good n)) || apply (ssl_DeletePerceived (score_good n)) ||
          apply (ssl_SetHeight (score_good n)) || apply (ssl_RemoveHeights (score_good n))); apply Hs);
    auto using DrainDomain_good, refresh_good, write_flush_good.
  - unfold GetScore. destruct (negb _); [exact Hs|]. destruct (svc_cache s !! key); [|exact Hs].
    destruct (shouldRecover _ _ _ _); [|exact Hs]. apply store_score_good; [exact Hs|]. apply fresh_good; [lia|exact Hc].
  - unfold FilterByScore. destruct (negb _); [exact Hs|].
    pose proof (recover_all_good n (map (snapshot s now) keys) s now ltac:(lia) Hc Hs).
    now destruct (recover_all _ _ _).
  - unfold ResetScore. destruct (negb _); [exact Hs|]. apply store_score_good; [exact Hs|]. apply fresh_good; [lia|exact Hc].
  - destruct Hs; split; auto.
  - destruct Hs; split; auto.
  - apply SetArchivalStatus_good; auto; lia.
  - unfold svc_IsArchivalCapable. destruct (svc_cache s !! key); [exact Hs|].
    destruct (st_Get _ _ _) as [sc|e] eqn:E; [|exact Hs]. apply setScoreLocked_good; [exact Hs|].
    eapply ssl_Get; [apply Hs|exact E].
  - unfold Start. destruct (negb _); [exact Hs|]. destruct (svc_started s); [exact Hs|].
    apply refresh_good. destruct Hs; split; auto.
  - unfold write_receive. destruct Hs as [H1 H2 H3 H4]. destruct (svc_writeCh s) as [|r q] eqn:E; split; rewrite ?E; auto.
    + now inversion H2.
    + inversion H2; subst. apply (coalesce_values (fun r => score_good n (wr_score r)) [r]); auto.
  - unfold Stop. destruct (negb _); [exact Hs|]. destruct (negb _); [exact Hs|]. now apply write_stop_good.
Qed.

(** Runs of [k] steps through states whose configuration is valid. *)
Inductive svc_run (s0 : service St) : nat -> service St -> Prop :=
| run_start : svc_run s0 0 s0
| run_next k s s' : svc_run s0 k s -> configs_ok s -> svc_step s s' -> svc_run s0 (S k) s'.

Lemma svc_run_good s0 k s :
  scores_good 0 s0 -> svc_run s0 k s -> Z.of_nat k <= max_int64 -> scores_good (Z.of_nat k) s.
Proof.
  intros H0. induction 1 as [|k s s' Hr IH Hc Hstep]; intros Hk; [exact H0|].
  replace (Z.of_nat (S k)) with (Z.of_nat k + 1) by lia.
  eapply svc_step_good; eauto; [lia|]. apply IH. lia.
Qed.

Lemma NewService_good c st : holds (score_good 0) st -> scores_good 0 (NewService c st).
Proof. intros Hst. split; cbn; [intros ? ?|constructor|intros ? ?|exact Hst]; now rewrite lookup_empty. Qed.
End Bounds.
