(* ===== verification/RepServiceSpec.v ===== *)
(** * What the reputation service promises

    The functional specifications of ranking, filtering, the write-behind queue
    and the admin drains, and the properties of the service over its reachable
    states. *)

From S2P Require Import Prelude GoStrings Float64 Rounding Signals Score ScoreProps RepKey RepConfig RepStorage RepService RepServiceProps.
From Stdlib Require Import ZArith Lia Bool Ascii String Sorted.
From stdpp Require Import base list gmap strings fin_maps sorting.

Open Scope string_scope.
Open Scope Z_scope.

(** ** Ranking *)

Section Ranking.
Context {St : Type} `{RPCTypeEnum} `{!Storage St}.
Implicit Types (s : service St).

Abbreviation scored := (EndpointKey * float64)%type.

Definition desc (x y : scored) : Prop := f64_ge x.2 y.2 = true.

Lemma insert_desc_perm x l : insert_desc x l ≡ₚ x :: l.
Proof.
  induction l as [|y l IH]; [reflexivity|]. cbn. destruct (f64_ge x.2 y.2); [reflexivity|].
  rewrite IH. apply perm_swap.
Qed.

Lemma sort_desc_perm l : sort_stable_desc l ≡ₚ l.
Proof. induction l as [|x l IH]; [reflexivity|]. cbn. now rewrite insert_desc_perm, IH. Qed.

Lemma insert_desc_sorted x l : StronglySorted desc l -> StronglySorted desc (insert_desc x l).
Proof.
  induction 1 as [|y l Hs IH Hy]; cbn; [repeat constructor|].
  destruct (f64_ge x.2 y.2) eqn:E.
  - constructor; [now constructor|]. constructor; [exact E|].
    eapply Forall_impl; [exact Hy|]. intros z Hz. unfold desc in *. eapply f64_ge_trans; eauto.
  - constructor; [exact IH|]. rewrite insert_desc_perm. constructor; [|exact Hy].
    unfold desc. destruct (f64_ge_total x.2 y.2); congruence.
Qed.

Lemma sort_desc_sorted l : StronglySorted desc (sort_stable_desc l).
Proof. induction l; cbn; [constructor|now apply insert_desc_sorted]. Qed.

(** Equal scores, as [cmp.Compare] sees them. *)
Definition same_score (v w : float64) : bool := f64_ge v w && f64_ge w v.

Lemma insert_desc_stable v x l :
  List.filter (fun p => same_score v p.2) (insert_desc x l) = List.filter (fun p => same_score v p.2) (x :: l).
Proof.
  induction l as [|y l IH]; [reflexivity|]. cbn [insert_desc]. destruct (f64_ge x.2 y.2) eqn:E; [reflexivity|].
  cbn [List.filter] in *. rewrite IH.
  destruct (same_score v x.2) eqn:Ex, (same_score v y.2) eqn:Ey; try reflexivity.
  unfold same_score in *. breflect. rewrite (f64_ge_trans x.2 v y.2) in E; auto. discriminate.
Qed.

Lemma sort_desc_stable v l :
  List.filter (fun p => same_score v p.2) (sort_stable_desc l) = List.filter (fun p => same_score v p.2) l.
Proof.
  induction l as [|x l IH]; [reflexivity|].
  change (sort_stable_desc (x :: l)) with (insert_desc x (sort_stable_desc l)).
  rewrite insert_desc_stable. cbn [List.filter]. now rewrite IH.
Qed.

Lemma rank_map s keys :
  RankEndpointsByScore s keys = map fst (sort_stable_desc (map (fun key => (key, rank_score s key)) keys)).
Proof. now destruct keys. Qed.

(** Every pair of the sorted list carries its key's score. *)
Lemma sort_desc_scored s keys :
  Forall (fun p => p.2 = rank_score s p.1) (sort_stable_desc (map (fun key => (key, rank_score s key)) keys)).
Proof. rewrite sort_desc_perm. apply Forall_map, Forall_forall. auto. Qed.

Lemma StronglySorted_fst s (l : list scored) :
  Forall (fun p => p.2 = rank_score s p.1) l -> StronglySorted desc l ->
  StronglySorted (fun a b => f64_ge (rank_score s a) (rank_score s b) = true) (map fst l).
Proof.
  intros Hf Hs. induction Hs as [|x l Hs IH Hx]; cbn; [constructor|].
  inversion Hf as [|? ? Hx2 Hf']; subst. constructor; [auto|]. apply Forall_map, Forall_forall.
  rewrite Forall_forall in Hx, Hf'. intros y Hy. cbn.
  rewrite <- Hx2, <- (Hf' y Hy). now apply Hx.
Qed.

Lemma filter_fst s v (l : list scored) :
  Forall (fun p => p.2 = rank_score s p.1) l ->
  List.filter (fun key => same_score v (rank_score s key)) (map fst l) =
  map fst (List.filter (fun p => same_score v p.2) l).
Proof.
  induction 1 as [|p l Hp Hl IH]; [reflexivity|]. cbn. rewrite Hp, IH.
  now destruct (same_score v _).
Qed.

Lemma map_fst_scored s keys : map fst (map (fun key => (key, rank_score s key)) keys) = keys.
Proof. rewrite map_map. apply map_id. Qed.
End Ranking.

(** ** Filtering *)

Section Filtering.
Context {St : Type} `{RPCTypeEnum} `{!Storage St}.
Implicit Types (s : service St).

(** The score a filter judges an endpoint by: the initial score when it is
    unknown or has earned time-based recovery, its cached score otherwise. *)
Definition effective_score s now key : float64 :=
  match svc_cache s !! key with
  | Some sc => if shouldRecover s now sc (key_ServiceID key)
               then GetInitialScoreForService s (key_ServiceID key) else sc_Value sc
  | None => GetInitialScoreForService s (key_ServiceID key)
  end.

Definition recovers s now key : bool :=
  match svc_cache s !! key with Some sc => shouldRecover s now sc (key_ServiceID key) | None => false end.

Lemma store_score_cache s key sc : svc_cache (store_score s key sc) = <[key := sc]> (svc_cache s).
Proof. unfold store_score, send_or_drop, try_send. now destruct (_ <? _). Qed.

Lemma store_score_initial s key sc sid :
  GetInitialScoreForService (store_score s key sc) sid = GetInitialScoreForService s sid.
Proof. unfold store_score, send_or_drop, try_send. now destruct (_ <? _). Qed.

(** The recovery pass: what each entry becomes, and the cache it leaves. *)
Definition recovered_entry s now (ks : keyScore) : keyScore :=
  if ks_needRecovery ks
  then mkKeyScore (ks_key ks) (Some (fresh_score (GetInitialScoreForService s (key_ServiceID (ks_key ks))) now)) true
  else ks.

Definition recover_cache s now (c : gmap EndpointKey Score) (ks : keyScore) : gmap EndpointKey Score :=
  if ks_needRecovery ks
  then <[ks_key ks := fresh_score (GetInitialScoreForService s (key_ServiceID (ks_key ks))) now]> c
  else c.

Lemma recover_all_spec now l : forall s,
  fst (recover_all s now l) = map (recovered_entry s now) l /\
  svc_cache (snd (recover_all s now l)) = fold_left (recover_cache s now) l (svc_cache s) /\
  (forall sid, GetInitialScoreForService (snd (recover_all s now l)) sid = GetInitialScoreForService s sid).
Proof.
  induction l as [|ks l IH]; intros s; [cbn; auto|]. cbn [recover_all map fold_left].
  unfold recovered_entry at 1, recover_cache at 2. destruct (ks_needRecovery ks); cbn [recoverScore].
  - set (s1 := store_score s _ _). destruct (IH s1) as (I1 & I2 & I3).
    assert (Hi : forall sid, GetInitialScoreForService s1 sid = GetInitialScoreForService s sid)
      by apply store_score_initial.
    destruct (recover_all s1 now l) as [l2 s2]. cbn [fst snd] in *.
    split; [f_equal; rewrite I1; apply map_ext; intros k; unfold recovered_entry; now rewrite Hi|].
    split; [|intros sid; now rewrite I3].
    rewrite I2. unfold s1 at 2. rewrite store_score_cache.
    clear -Hi. generalize (<[ks_key ks := fresh_score (GetInitialScoreForService s (key_ServiceID (ks_key ks))) now]> (svc_cache s)).
    induction l as [|k l IHl]; intros c; [reflexivity|]. cbn. rewrite IHl. unfold recover_cache at 2 4. now rewrite Hi.
  - destruct (IH s) as (I1 & I2 & I3). destruct (recover_all s now l). cbn [fst snd] in *. now rewrite I1.
Qed.

Lemma fold_recover_lookup s now keys : forall c key,
  fold_left (recover_cache s now) (map (snapshot s now) keys) c !! key =
  if bool_decide (key ∈ keys) && recovers s now key
  then Some (fresh_score (GetInitialScoreForService s (key_ServiceID key)) now)
  else c !! key.
Proof.
  induction keys as [|k keys IH]; intros c key; [reflexivity|]. cbn [map fold_left]. rewrite IH.
  unfold recover_cache. cbn [snapshot ks_needRecovery ks_key]. fold (recovers s now k).
  destruct (decide (key = k)) as [->|Hne].
  - rewrite (bool_decide_eq_true_2 (k ∈ k :: keys)) by constructor.
    destruct (recovers s now k) eqn:E; cbn [andb]; [|now rewrite andb_false_r].
    rewrite andb_true_r, lookup_insert_eq. now destruct (bool_decide _).
  - replace (bool_decide (key ∈ k :: keys)) with (bool_decide (key ∈ keys))
      by (apply bool_decide_ext; set_solver).
    destruct (_ && _); [reflexivity|]. destruct (recovers s now k); [|reflexivity].
    now rewrite lookup_insert_ne by congruence.
Qed.

Lemma passes_snapshot s s' now t key :
  (forall sid, GetInitialScoreForService s' sid = GetInitialScoreForService s sid) ->
  passes s' t (recovered_entry s now (snapshot s now key)) = fgeb (effective_score s now key) t.
Proof.
  intros Hi. unfold passes, recovered_entry, effective_score, snapshot. cbn.
  destruct (svc_cache s !! key) as [sc|]; cbn; [|now rewrite Hi].
  now destruct (shouldRecover _ _ _ _).
Qed.

Lemma filter_recovered s s' now t keys :
  (forall sid, GetInitialScoreForService s' sid = GetInitialScoreForService s sid) ->
  map ks_key (List.filter (passes s' t) (map (recovered_entry s now) (map (snapshot s now) keys))) =
  List.filter (fun key => fgeb (effective_score s now key) t) keys.
Proof.
  intros Hi. induction keys as [|k keys IH]; [reflexivity|]. cbn [map List.filter].
  rewrite passes_snapshot by exact Hi. destruct (fgeb _ t); [|exact IH]. cbn [map]. rewrite IH. f_equal.
  unfold recovered_entry, snapshot. cbn.
  destruct (svc_cache s !! k) as [sc|]; [now destruct (shouldRecover _ _ _ _)|reflexivity].
Qed.
End Filtering.

(** ** The write-behind queue *)

Section WriteBehind.
Context `{RPCTypeEnum}.
Implicit Types (s : service MemoryStorage).

(** The reference: one [Set] per request, in order. *)
Fixpoint set_each (m : MemoryStorage) (now : Time) (rs : list writeRequest) : result storage_error MemoryStorage :=
  match rs with
  | [] => Ok m
  | r :: rs' => match ms_Set m now (wr_key r) (wr_score r) with
                | Ok m' => set_each m' now rs'
                | Err e => Err e
                end
  end.

Lemma set_each_scores now rs : forall m, ms_closed m = false ->
  set_each m now rs = Ok (ms_with_scores m
    (fold_left (fun sc r => <[key_String (wr_key r) := ms_entry m now (wr_score r)]> sc) rs (ms_scores m))).
Proof.
  induction rs as [|r rs IH]; intros m Hm; [now destruct m|].
  cbn [set_each fold_left]. unfold ms_Set, guard_open. rewrite Hm. rewrite IH by exact Hm. reflexivity.
Qed.

(** The newest request of a key string, over what is already pending. *)
Lemma coalesce_lookup m now q : forall (pending : gmap string writeRequest) (sc : gmap string scoreEntry) ks,
  fold_left (fun sc r => <[key_String (wr_key r) := ms_entry m now (wr_score r)]> sc) q sc !! ks =
  match coalesce q ∅ !! ks with
  | Some r => Some (ms_entry m now (wr_score r))
  | None => sc !! ks
  end /\
  coalesce q pending !! ks = match coalesce q ∅ !! ks with Some r => Some r | None => pending !! ks end.
Proof.
  unfold coalesce. induction q as [|r q IH]; intros pending sc ks; cbn [fold_left];
    [now rewrite lookup_empty|].
  destruct (IH (<[key_String (wr_key r) := r]> pending) (<[key_String (wr_key r) := ms_entry m now (wr_score r)]> sc) ks) as [-> ->].
  destruct (IH (<[key_String (wr_key r) := r]> ∅) sc ks) as [_ ->].
  destruct (fold_left _ q ∅ !! ks); [auto|].
  destruct (decide (key_String (wr_key r) = ks)) as [<-|Hne]; [now rewrite !lookup_insert_eq|].
  now rewrite !(lookup_insert_ne _ (key_String (wr_key r)) ks) by assumption.
Qed.

(** Folding the entries of a map whose values name their own key. *)
Lemma fold_by_key m now (l : list (string * writeRequest)) : forall (sc : gmap string scoreEntry) ks,
  NoDup (l.*1) -> Forall (fun p => key_String (wr_key p.2) = p.1) l ->
  fold_left (fun sc r => <[key_String (wr_key r) := ms_entry m now (wr_score r)]> sc) l.*2 sc !! ks =
  match (list_to_map l : gmap string writeRequest) !! ks with
  | Some r => Some (ms_entry m now (wr_score r))
  | None => sc !! ks
  end.
Proof.
  induction l as [|[k r] l IH]; intros sc ks Hnd Hl; [now cbn; rewrite lookup_empty|].
  cbn [fmap list_fmap] in Hnd. apply NoDup_cons in Hnd as [Hk Hnd]. inversion Hl as [|? ? Hr Hl']; subst. cbn in Hr, Hk.
  cbn [fmap list_fmap fold_left snd list_to_map foldr]. rewrite IH by assumption. cbn. rewrite Hr.
  destruct (decide (k = ks)) as [<-|Hne].
  - rewrite lookup_insert_eq. rewrite not_elem_of_list_to_map_1 by exact Hk. now rewrite lookup_insert_eq.
  - now rewrite !lookup_insert_ne by assumption.
Qed.

(** The pending map is keyed by the key string of the request it holds. *)
Definition own_key (pending : gmap string writeRequest) : Prop :=
  forall ks r, pending !! ks = Some r -> key_String (wr_key r) = ks.

Lemma pending_scores_lookup (pending : gmap string writeRequest) key sc :
  own_key pending ->
  (pending_scores pending !! key = Some sc <-> pending !! key_String key = Some (mkWriteRequest key sc)).
Proof.
  intros Hown. unfold pending_scores.
  rewrite <- (list_to_map_to_list pending) at 2.
  assert (Hl : Forall (fun p => key_String (wr_key p.2) = p.1) (map_to_list pending))
    by (apply Forall_forall; intros [k r] Hin; apply elem_of_map_to_list in Hin; now apply Hown).
  pose proof (NoDup_fst_map_to_list pending) as Hnd. revert Hnd Hl.
  assert (G : forall (l : list (string * writeRequest)) (m : gmap EndpointKey Score),
    NoDup l.*1 -> Forall (fun p => key_String (wr_key p.2) = p.1) l ->
    fold_left (fun m '(_, r) => <[wr_key r := wr_score r]> m) l m !! key = Some sc <->
    (list_to_map l : gmap string writeRequest) !! key_String key = Some (mkWriteRequest key sc) \/
    (m !! key = Some sc /\ forall r, (list_to_map l : gmap string writeRequest) !! key_String key = Some r -> wr_key r <> key)).
  { induction l as [|[k r] l IH]; intros m Hnd Hl.
    - cbn. rewrite lookup_empty. split; [intros E; right; split; [exact E|discriminate]|]. now intros [?|[? _]].
    - cbn [fmap list_fmap] in Hnd. apply NoDup_cons in Hnd as [Hk Hnd]. inversion Hl as [|? ? Hr Hl']; subst. cbn in Hr, Hk.
      cbn [fold_left list_to_map foldr]. rewrite IH by assumption. cbn. subst k.
      destruct (decide (wr_key r = key)) as [<-|Hne].
      + rewrite !lookup_insert_eq, (not_elem_of_list_to_map_1 _ _ Hk). destruct r as [rk rs]. cbn. naive_solver.
      + rewrite (lookup_insert_ne m) by assumption.
        destruct (decide (key_String (wr_key r) = key_String key)) as [He|Hne2];
          [|now rewrite lookup_insert_ne by assumption].
        rewrite He in Hk |- *. rewrite lookup_insert_eq, (not_elem_of_list_to_map_1 _ _ Hk). naive_solver. }
  intros Hnd Hl. rewrite G by assumption. rewrite lookup_empty. naive_solver.
Qed.

Lemma ms_insert_all_none m now l ks : forall (sc : gmap string scoreEntry),
  (forall k x, (k, x) ∈ l -> key_String k <> ks) -> ms_insert_all m now l sc !! ks = sc !! ks.
Proof.
  induction l as [|[k x] l IH]; intros sc Hl; [reflexivity|]. cbn. unfold ms_insert_all in IH.
  rewrite IH by (intros k' x' Hin; apply (Hl k' x'); now right).
  apply lookup_insert_ne. apply (Hl k x). left.
Qed.

Lemma ms_insert_all_some m now l ks x0 : forall (sc : gmap string scoreEntry),
  (forall k x, (k, x) ∈ l -> key_String k = ks -> x = x0) ->
  sc !! ks = Some (ms_entry m now x0) \/ (exists k x, (k, x) ∈ l /\ key_String k = ks) ->
  ms_insert_all m now l sc !! ks = Some (ms_entry m now x0).
Proof.
  induction l as [|[k x] l IH]; intros sc Hl Hex.
  { destruct Hex as [?|(? & ? & Hin & _)]; [assumption|]. now apply not_elem_of_nil in Hin. }
  cbn. unfold ms_insert_all in IH. apply IH; [intros k' x' Hin; apply Hl; now right|].
  destruct (decide (key_String k = ks)) as [<-|Hne].
  - left. rewrite lookup_insert_eq. cbn. rewrite (Hl k x); [reflexivity|left|reflexivity].
  - rewrite lookup_insert_ne by assumption. destruct Hex as [?|(k' & x' & Hin & He)]; [auto|right].
    exists k', x'. split; [|exact He]. apply elem_of_cons in Hin as [[= -> ->]|Hin]; [contradiction|exact Hin].
Qed.

Lemma flush_lookup m now (pending : gmap string writeRequest) (sc : gmap string scoreEntry) ks :
  own_key pending ->
  ms_insert_all m now (map_to_list (pending_scores pending)) sc !! ks =
  match pending !! ks with
  | Some r => Some (ms_entry m now (wr_score r))
  | None => sc !! ks
  end.
Proof.
  intros Hown.
  assert (Hin : forall k x, (k, x) ∈ map_to_list (pending_scores pending) ->
    pending !! key_String k = Some (mkWriteRequest k x))
    by (intros k x Hm; apply elem_of_map_to_list in Hm; now apply pending_scores_lookup).
  destruct (pending !! ks) as [[rk rs]|] eqn:E.
  - pose proof (Hown _ _ E) as Hk. cbn in Hk. apply ms_insert_all_some; [|right].
    + intros k x Hm He. apply Hin in Hm. rewrite He, E in Hm. now injection Hm.
    + exists rk, rs. split; [|exact Hk]. apply elem_of_map_to_list, pending_scores_lookup; [exact Hown|]. now rewrite Hk.
  - apply ms_insert_all_none. intros k x Hm <-. apply Hin in Hm. congruence.
Qed.

Lemma coalesce_own q (pending : gmap string writeRequest) : own_key pending -> own_key (coalesce q pending).
Proof.
  revert pending. induction q as [|r q IH]; intros pending Hp; [exact Hp|]. apply IH. intros ks r0.
  destruct (decide (key_String (wr_key r) = ks)) as [<-|Hne].
  - rewrite lookup_insert_eq. now intros [= <-].
  - rewrite lookup_insert_ne by assumption. apply Hp.
Qed.

(** Flushing the coalesced map is the same as one [Set] per request. *)
Lemma write_stop_sequential s now :
  ms_closed (svc_storage s) = false -> own_key (svc_pending s) ->
  set_each (svc_storage s) now ((map_to_list (svc_pending s)).*2 ++ svc_writeCh s) =
  Ok (svc_storage (write_stop s now)).
Proof.
  intros Ho Hown. rewrite set_each_scores by exact Ho. f_equal.
  set (m := svc_storage s). set (p := coalesce (svc_writeCh s) (svc_pending s)).
  assert (Hp : own_key p) by now apply coalesce_own.
  assert (Hs : svc_storage (write_stop s now) =
    ms_with_scores m (ms_insert_all m now (map_to_list (pending_scores p)) (ms_scores m))).
  { unfold write_stop, write_flush. cbn [set_queue svc_pending svc_storage]. fold p. case_bool_decide as Hd.
    - rewrite Hd. unfold pending_scores. rewrite map_to_list_empty. cbn [fold_left]. rewrite map_to_list_empty.
      cbn. unfold m. now destruct (svc_storage s).
    - cbn. unfold ms_SetMultiple, guard_open. rewrite Ho. reflexivity. }
  rewrite Hs. f_equal. apply map_eq. intros ks. rewrite flush_lookup by exact Hp.
  rewrite fold_left_app.
  destruct (coalesce_lookup m now (svc_writeCh s) (svc_pending s)
    (fold_left (fun sc r => <[key_String (wr_key r) := ms_entry m now (wr_score r)]> sc)
       (map_to_list (svc_pending s)).*2 (ms_scores m)) ks) as [-> E2].
  unfold p. rewrite E2. destruct (coalesce (svc_writeCh s) ∅ !! ks); [reflexivity|].
  rewrite fold_by_key.
  - now rewrite list_to_map_to_list.
  - apply NoDup_fst_map_to_list.
  - apply Forall_forall. intros [k r] Hin. apply elem_of_map_to_list in Hin. now apply Hown.
Qed.
End WriteBehind.

Section PendingKeys.
Context {St : Type} `{RPCTypeEnum} `{!Storage St}.
Implicit Types (s : service St).

Lemma store_score_pending s key sc : svc_pending (store_score s key sc) = svc_pending s.
Proof. unfold store_score, send_or_drop, try_send. now destruct (_ <? _). Qed.

Lemma recover_all_pending now l : forall s, svc_pending (snd (recover_all s now l)) = svc_pending s.
Proof.
  induction l as [|ks l IH]; intros s; [reflexivity|]. cbn [recover_all].
  destruct (ks_needRecovery ks); cbn [recoverScore].
  - set (s1 := store_score s _ _). pose proof (IH s1) as I. destruct (recover_all s1 now l).
    cbn in *. rewrite I. apply store_score_pending.
  - pose proof (IH s) as I. now destruct (recover_all s now l).
Qed.

Lemma fold_set_pending (l : list (EndpointKey * Score)) : forall s,
  svc_pending (fold_left (fun s '(k, sc) => setScoreLocked s k sc) l s) = svc_pending s.
Proof. induction l as [|[k sc] l IH]; intros s; [reflexivity|]. cbn [fold_left]. now rewrite IH. Qed.

Lemma refresh_pending s now : svc_pending (snd (refreshFromStorage s now)) = svc_pending s.
Proof.
  unfold refreshFromStorage. destruct (st_List _ now "") as [[|k ks]|e]; try reflexivity.
  destruct (st_GetMultiple _ now _) as [scores|e]; [|reflexivity]. cbn [snd]. unfold refreshDrains.
  destruct (st_ListDrains _ now) as [[d st]|e]; cbn; apply fold_set_pending.
Qed.

Lemma write_flush_own s now : own_key (svc_pending s) -> own_key (svc_pending (write_flush s now)).
Proof. intros Hs. unfold write_flush. case_bool_decide; [exact Hs|]. intros ks r. cbn. now rewrite lookup_empty. Qed.

Lemma svc_step_own s s' : svc_step s s' -> own_key (svc_pending s) -> own_key (svc_pending s').
Proof.
  intros Hstep Hs. destruct Hstep; try exact Hs; auto using write_flush_own.
  - unfold RecordSignal. destruct (negb _); [exact Hs|]. now rewrite store_score_pending.
  - unfold GetScore. destruct (negb _); [exact Hs|]. destruct (svc_cache s !! key); [|exact Hs].
    destruct (shouldRecover _ _ _ _); cbn; [|exact Hs]. now rewrite store_score_pending.
  - unfold FilterByScore. destruct (negb _); [exact Hs|].
    pose proof (recover_all_pending now (map (snapshot s now) keys) s) as Hp.
    destruct (recover_all _ _ _). cbn in *. now rewrite Hp.
  - unfold ResetScore. destruct (negb _); [exact Hs|]. now rewrite store_score_pending.
  - unfold SetArchivalStatus. destruct (try_send _ _) as [s2|] eqn:E.
    + apply try_send_fields in E as (_ & _ & _ & _ & _ & E & _). cbn [snd]. now rewrite E.
    + now destruct (st_Set _ _ _ _).
  - unfold svc_IsArchivalCapable. destruct (svc_cache s !! key); [exact Hs|]. now destruct (st_Get _ _ _).
  - unfold SetPerceivedBlockNumber. now destruct (st_SetPerceivedBlockNumber _ _ _).
  - unfold DeletePerceivedBlockNumber. now destruct (st_DeletePerceivedBlockNumber _ _).
  - unfold SetEndpointBlockHeight. now destruct (st_SetEndpointBlockHeight _ _ _ _).
  - unfold RemoveEndpointBlockHeights. now destruct (st_RemoveEndpointBlockHeights _ _ _).
  - unfold DrainDomain. destruct (_ || _); [exact Hs|]. destruct (dr_DryRun req); [exact Hs|].
    unfold store_result. now destruct (if dr_Duration req <=? 0 then _ else _).
  - unfold Start. destruct (negb _); [exact Hs|]. destruct (svc_started s); [exact Hs|]. now rewrite refresh_pending.
  - now rewrite refresh_pending.
  - unfold write_receive. destruct (svc_writeCh s) as [|r q]; [exact Hs|]. now apply (coalesce_own [r]).
  - unfold Stop. destruct (negb _); [exact Hs|]. destruct (negb _); [exact Hs|].
    unfold write_stop. apply write_flush_own. cbn. now apply coalesce_own.
Qed.

Lemma svc_reach_own c st s : svc_reach (NewService c st) s -> own_key (svc_pending s).
Proof. induction 1; [intros ks r; cbn; now rewrite lookup_empty|eauto using svc_step_own]. Qed.
End PendingKeys.

(** ** Admin drains *)

Section Drains.
Context {St : Type} `{RPCTypeEnum} `{!Storage St} {ok : St -> Prop} {drains_of : St -> gmap DrainKey Time}
  `{!DrainStorageLaws St ok drains_of}.
Implicit Types (s : service St).

(** A drain in force for an operator: one of its RPC type, or one for all. *)
Definition drained_by (d : gmap DrainKey Time) (now : Time) (sid dom rpc : string) : Prop :=
  exists (k : DrainKey) (until : Time), d !! k = Some until /\ now < until /\
    (k = mkDrainKey sid dom rpc \/ k = mkDrainKey sid dom "").

Lemma IsDomainDrained_spec s now sid dom rpc :
  dom <> "" ->
  IsDomainDrained s now sid dom rpc = true <->
  drained_by (svc_drainedDomains s) now sid (to_lower dom) (to_lower rpc).
Proof.
  intros Hd. unfold IsDomainDrained, drained_by. apply String.eqb_neq in Hd. rewrite Hd.
  case_bool_decide as He.
  - split; [discriminate|]. intros (k & u & Hl & _). rewrite He, lookup_empty in Hl. discriminate.
  - rewrite existsb_exists. split.
    + intros (k & Hin & Hk). destruct (svc_drainedDomains s !! k) as [u|] eqn:E; [|discriminate].
      unfold time_before in Hk. breflect. exists k, u. destruct Hin as [<-|[<-|[]]]; auto.
    + intros (k & u & Hl & Hu & Hk). exists k.
      split; [destruct Hk as [-> | ->]; cbn; auto|]. rewrite Hl. now apply Z.ltb_lt.
Qed.

Lemma refreshDrains_spec s now : ok (svc_storage s) ->
  svc_drainedDomains (refreshDrains s now) = live_drains now (drains_of (svc_storage s)) /\
  svc_cache (refreshDrains s now) = svc_cache s.
Proof.
  intros Hok. unfold refreshDrains. destruct (dsl_list (svc_storage s) now Hok) as (st & -> & _ & _). auto.
Qed.

Lemma drained_by_live d now sid dom rpc : drained_by (live_drains now d) now sid dom rpc <-> drained_by d now sid dom rpc.
Proof. unfold drained_by. setoid_rewrite live_drains_lookup. naive_solver. Qed.

(** What a drain request leaves in the storage. *)
Lemma DrainDomain_storage s now req :
  cf_Enabled (svc_config s) = true -> dk_Domain (drain_key req) <> "" -> dr_DryRun req = false ->
  ok (svc_storage s) ->
  let s' := snd (DrainDomain s now req) in
  ok (svc_storage s') /\ svc_cache s' = svc_cache s /\
  dres_PropagationError (fst (DrainDomain s now req)) = None /\
  drains_of (svc_storage s') =
    if dr_Duration req <=? 0 then delete (drain_key req) (drains_of (svc_storage s))
    else <[drain_key req := now + dr_Duration req]> (drains_of (svc_storage s)).
Proof.
  intros He Hd Hdry Hok. unfold DrainDomain. cbv zeta. rewrite He. apply String.eqb_neq in Hd. rewrite Hd, Hdry.
  cbn [negb orb]. destruct (dr_Duration req <=? 0).
  - cbn [set_drains svc_storage]. destruct (dsl_delete (svc_storage s) (drain_key req) Hok) as (st & -> & Hst & Hd'). cbn. auto.
  - cbn [set_drains svc_storage].
    destruct (dsl_set (svc_storage s) (drain_key req) (time_add now (dr_Duration req)) Hok) as (st & -> & Hst & Hd'). cbn. auto.
Qed.
End Drains.

(** ** The properties *)

Section Claims.
Context {St : Type} `{RPCTypeEnum} `{!Storage St}.

(** C19: the archival index is exact: in every state the service can reach, the
    indexed lookup returns exactly the keys of the service that a scan of the
    whole cache would find archival-capable. *)
Theorem archival_index_exact (c : Config) (st : St) (s : service St) (now : Time) (sid : string) (key : EndpointKey) :
  svc_reach (NewService c st) s ->
  (In key (GetArchivalEndpoints s now sid) <->
   key_ServiceID key = sid /\ exists sc, svc_cache s !! key = Some sc /\ IsArchivalCapable sc now = true).
Proof.
  intros Hr. rewrite GetArchivalEndpoints_members by (eapply svc_reach_index; [apply NewService_index|exact Hr]).
  unfold archival_now. destruct (svc_cache s !! key); naive_solver.
Qed.

(** C1: every score of the service stays in bounds.  Over any storage that
    returns what was stored in it, after any number of operations (below 2^63)
    made under valid configurations, every score in the cache, in the write
    queue, in the write loop's pending map and in the storage is in [0,100],
    with both failure rates in [0,1] and a non-negative strike count. *)
Theorem service_scores_bounded (holds : (Score -> Prop) -> St -> Prop) (laws : ScoreStorageLaws St holds)
    (c : Config) (st : St) (k : nat) (s : service St) :
  holds (score_good 0) st -> svc_run (NewService c st) k s -> Z.of_nat k <= max_int64 ->
  (forall key sc, svc_cache s !! key = Some sc -> score_ok sc) /\
  Forall (fun r => score_ok (wr_score r)) (svc_writeCh s) /\
  (forall ks r, svc_pending s !! ks = Some r -> score_ok (wr_score r)) /\
  holds score_ok (svc_storage s).
Proof.
  intros Hst Hr Hk. destruct (svc_run_good _ _ _ (NewService_good c st Hst) Hr Hk) as [H1 H2 H3 H4].
  assert (G : forall sc, score_good (Z.of_nat k) sc -> score_ok sc) by (now intros sc [? _]).
  split; [eauto|]. split; [eapply Forall_impl; [exact H2|]; eauto|]. split; [eauto|].
  eapply (ssl_mono (holds := holds)); eauto.
Qed.

(** Ranking returns every endpoint exactly once, in descending order of
    score, and endpoints whose scores compare equal keep the caller's order. *)
Theorem rank_sorted_stable (s : service St) (keys : list EndpointKey) :
  RankEndpointsByScore s keys ≡ₚ keys /\
  StronglySorted (fun a b => f64_ge (rank_score s a) (rank_score s b) = true) (RankEndpointsByScore s keys) /\
  forall v, List.filter (fun k => same_score v (rank_score s k)) (RankEndpointsByScore s keys) =
            List.filter (fun k => same_score v (rank_score s k)) keys.
Proof.
  rewrite rank_map. pose proof (sort_desc_scored s keys) as Hf. repeat split.
  - rewrite sort_desc_perm. now rewrite map_fst_scored.
  - apply StronglySorted_fst; [exact Hf|apply sort_desc_sorted].
  - intros v. rewrite filter_fst by exact Hf. rewrite sort_desc_stable.
    rewrite <- (filter_fst s v) by (apply Forall_map, Forall_forall; auto). now rewrite map_fst_scored.
Qed.

(** Filtering keeps, in order, the endpoints whose effective score reaches
    the threshold, and its only effect on the cache is to reset the listed
    endpoints that earned time-based recovery to their initial score. *)
Theorem filter_by_score_spec (s : service St) (now : Time) (keys : list EndpointKey) (t : float64) :
  cf_Enabled (svc_config s) = true ->
  fst (FilterByScore s now keys t) = List.filter (fun key => fgeb (effective_score s now key) t) keys /\
  forall key, svc_cache (snd (FilterByScore s now keys t)) !! key =
    if bool_decide (key ∈ keys) && recovers s now key
    then Some (fresh_score (GetInitialScoreForService s (key_ServiceID key)) now)
    else svc_cache s !! key.
Proof.
  intros He. unfold FilterByScore. rewrite He. cbn [negb].
  destruct (recover_all_spec now (map (snapshot s now) keys) s) as (R1 & R2 & R3).
  destruct (recover_all s now (map (snapshot s now) keys)) as [l s']. cbn [fst snd] in *.
  split; [rewrite R1; now apply filter_recovered|]. intros key. rewrite R2. apply fold_recover_lookup.
Qed.

(** A signal recorded while the write buffer is full never reaches the
    storage: the cache has the new score, but the shutdown flush stores exactly
    what it would have stored without the signal. *)
Theorem full_buffer_loses_write (s : service St) (now flush : Time) (key : EndpointKey) (signal : Signal) :
  cf_Enabled (svc_config s) = true ->
  sy_WriteBufferSize (cf_SyncConfig (svc_config s)) <= Z.of_nat (List.length (svc_writeCh s)) ->
  let s' := RecordSignal s now key signal in
  svc_cache s' !! key =
    Some (score_after_signal (cached_or_fresh s key now) signal (calculateImpact s (key_ServiceID key) signal) now) /\
  svc_storage (write_stop s' flush) = svc_storage (write_stop s flush) /\
  svc_storage (write_flush s' flush) = svc_storage (write_flush s flush).
Proof.
  intros He Hfull. cbv zeta. unfold RecordSignal. rewrite He. cbn [negb].
  split; [rewrite store_score_cache; apply lookup_insert_eq|].
  unfold store_score, send_or_drop, try_send. cbn [setScoreLocked set_cache svc_writeCh svc_config].
  apply Z.ltb_ge in Hfull. rewrite Hfull. cbn [from_option id].
  unfold write_stop, write_flush. cbn [set_queue set_cache svc_pending svc_writeCh svc_storage].
  split; now destruct (bool_decide _).
Qed.

(** A drain issued on one replica takes effect on every replica that
    refreshes its drains from the shared storage before it expires: the
    operator is drained there, for the requested RPC type or for all of them,
    and the replica's scores are untouched. *)
Theorem drain_reaches_fleet (ok : St -> Prop) (drains_of : St -> gmap DrainKey Time)
    (laws : DrainStorageLaws St ok drains_of) (a b : service St) (now now' : Time) (req : DrainRequest) (dom rpc : string) :
  cf_Enabled (svc_config a) = true -> dr_DryRun req = false -> 0 < dr_Duration req ->
  ok (svc_storage a) -> svc_storage b = svc_storage (snd (DrainDomain a now req)) ->
  dom <> "" -> to_lower dom = dk_Domain (drain_key req) -> dk_Domain (drain_key req) <> "" ->
  dk_RPCType (drain_key req) = "" \/ dk_RPCType (drain_key req) = to_lower rpc ->
  now' < now + dr_Duration req ->
  IsDomainDrained (refreshDrains b now') now' (dr_ServiceID req) dom rpc = true /\
  svc_cache (refreshDrains b now') = svc_cache b.
Proof.
  intros He Hdry Hdur Hok Hb Hd Hdom Hne Hrpc Hnow.
  destruct (DrainDomain_storage a now req He Hne Hdry Hok) as (Hok' & _ & _ & Hds).
  rewrite <- Hb in Hok', Hds. destruct (refreshDrains_spec b now' Hok') as [Hr Hc].
  split; [|exact Hc]. apply IsDomainDrained_spec; [exact Hd|]. rewrite Hr, drained_by_live, Hds.
  destruct (dr_Duration req <=? 0) eqn:E; breflect; [lia|].
  exists (drain_key req), (now + dr_Duration req). rewrite lookup_insert_eq. split; [reflexivity|]. split; [exact Hnow|].
  rewrite Hdom. destruct (drain_key req) as [sid d r] eqn:Ek. cbn in *.
  assert (sid = dr_ServiceID req) as -> by (unfold drain_key in Ek; congruence).
  destruct Hrpc as [-> | ->]; auto.
Qed.

(** A release issued on one replica is seen by every replica that refreshes
    its drains: the released operator and RPC type stay drained only through
    another drain of the storage. *)
Theorem release_reaches_fleet (ok : St -> Prop) (drains_of : St -> gmap DrainKey Time)
    (laws : DrainStorageLaws St ok drains_of) (a b : service St) (now now' : Time) (req : DrainRequest)
    (sid dom rpc : string) :
  cf_Enabled (svc_config a) = true -> dr_DryRun req = false -> dr_Duration req <= 0 ->
  ok (svc_storage a) -> svc_storage b = svc_storage (snd (DrainDomain a now req)) ->
  dom <> "" -> dk_Domain (drain_key req) <> "" ->
  IsDomainDrained (refreshDrains b now') now' sid dom rpc = true <->
  drained_by (delete (drain_key req) (drains_of (svc_storage a))) now' sid (to_lower dom) (to_lower rpc).
Proof.
  intros He Hdry Hdur Hok Hb Hd Hne.
  destruct (DrainDomain_storage a now req He Hne Hdry Hok) as (Hok' & _ & _ & Hds).
  rewrite <- Hb in Hok', Hds. destruct (refreshDrains_spec b now' Hok') as [Hr _].
  rewrite IsDomainDrained_spec by exact Hd. rewrite Hr, drained_by_live, Hds.
  destruct (dr_Duration req <=? 0) eqn:E; breflect; [reflexivity|lia].
Qed.
End Claims.

Section MemoryClaims.
Context `{RPCTypeEnum}.

(** Coalescing loses nothing: in every reachable state over an open
    in-memory storage, the shutdown flush leaves the storage exactly as one
    [Set] per pending and queued request, oldest first, would. *)
Theorem write_behind_sequential (c : Config) (st : MemoryStorage) (s : service MemoryStorage) (now : Time) :
  svc_reach (NewService c st) s -> ms_closed (svc_storage s) = false ->
  set_each (svc_storage s) now ((map_to_list (svc_pending s)).*2 ++ svc_writeCh s) =
  Ok (svc_storage (write_stop s now)).
Proof. intros Hr Ho. apply write_stop_sequential; [exact Ho|]. eapply svc_reach_own. exact Hr. Qed.
End MemoryClaims.

(** ** Witnesses *)

Definition demo_service : service MemoryStorage := NewService DefaultConfig (NewMemoryStorage (5 * minute)).
Definition demo_service1 : service MemoryStorage := RecordSignal demo_service 5 demo_key (NewCriticalErrorSignal 5 "http 502" 0).
Definition demo_service2 : service MemoryStorage := snd (SetArchivalStatus demo_service1 6 demo_key true hour).

Lemma archival_index_exact_witness :
  GetArchivalEndpoints demo_service2 7 "eth" = [demo_key] /\
  (In demo_key (GetArchivalEndpoints demo_service2 7 "eth") <->
   key_ServiceID demo_key = "eth" /\ exists sc, svc_cache demo_service2 !! demo_key = Some sc /\ IsArchivalCapable sc 7 = true).
Proof.
  split; [vm_compute; reflexivity|].
  apply (archival_index_exact DefaultConfig (NewMemoryStorage (5 * minute))).
  eapply reach_step; [eapply reach_step; [apply reach_refl|apply (step_RecordSignal _ 5 demo_key)]|].
  apply (step_SetArchivalStatus demo_service1 6 demo_key true hour).
Defined.

Lemma demo_service_configs : configs_ok demo_service.
Proof. split; try (repeat split; reflexivity); intros sid c; cbn; now rewrite lookup_empty. Qed.

Lemma service_scores_bounded_witness :
  exists sc, svc_cache demo_service1 !! demo_key = Some sc /\ score_ok sc.
Proof.
  eexists. split; [reflexivity|].
  apply (service_scores_bounded ms_holds _ DefaultConfig (NewMemoryStorage (5 * minute)) 1 demo_service1) with (key := demo_key).
  - intros k e. cbn. now rewrite lookup_empty.
  - eapply run_next; [apply run_start|apply demo_service_configs|apply (step_RecordSignal _ 5 demo_key)].
  - apply Z.leb_le. reflexivity.
  - reflexivity.
Defined.

Lemma filter_by_score_spec_witness :
  fst (FilterByScore demo_service1 8 [demo_key] (f64_of_Z 60)) =
    List.filter (fun key => fgeb (effective_score demo_service1 8 key) (f64_of_Z 60)) [demo_key] /\
  fst (FilterByScore demo_service1 8 [demo_key] (f64_of_Z 60)) = [].
Proof.
  split; [|vm_compute; reflexivity].
  apply (filter_by_score_spec demo_service1 8 [demo_key] (f64_of_Z 60) eq_refl).
Defined.

(** A service whose buffer takes one write, with that write queued. *)
Definition tight_config : Config :=
  {| cf_Enabled := true; cf_InitialScore := InitialScore; cf_MinThreshold := DefaultMinThreshold;
     cf_RecoveryTimeout := DefaultRecoveryTimeout; cf_StorageType := "memory";
     cf_KeyGranularity := KeyGranularityURL; cf_ServiceOverrides := ∅;
     cf_SyncConfig := mkSyncConfig DefaultRefreshInterval 1 DefaultFlushInterval;
     cf_TieredSelection := zero_tiered; cf_Latency := DefaultLatencyConfig; cf_SignalImpacts := zero_impacts |}.
Definition tight_service : service MemoryStorage :=
  RecordSignal (NewService tight_config (NewMemoryStorage 0)) 5 demo_key (NewSuccessSignal 5 0).

Lemma full_buffer_loses_write_witness :
  let s' := RecordSignal tight_service 6 demo_key (NewFatalErrorSignal 6 "misconfigured") in
  svc_storage (write_stop s' 9) = svc_storage (write_stop tight_service 9).
Proof.
  destruct (full_buffer_loses_write tight_service 6 9 demo_key (NewFatalErrorSignal 6 "misconfigured"))
    as (_ & E & _); [reflexivity|apply Z.leb_le; reflexivity|exact E].
Defined.

Definition demo_drain : DrainRequest := mkDrainRequest "eth" " Node.Example.com" hour "" false.
Definition demo_release : DrainRequest := mkDrainRequest "eth" "node.example.com" 0 "" false.
Definition replica_b : service MemoryStorage :=
  set_storage demo_service (svc_storage (snd (DrainDomain demo_service1 10 demo_drain))).

Lemma drain_reaches_fleet_witness :
  IsDomainDrained (refreshDrains replica_b 20) 20 "eth" "NODE.example.com" "json_rpc" = true /\
  svc_cache (refreshDrains replica_b 20) = svc_cache replica_b.
Proof.
  apply (drain_reaches_fleet ms_open ms_drains _ demo_service1 replica_b 10 20 demo_drain);
    try reflexivity; try discriminate; try (now left); vm_compute; reflexivity.
Defined.

Lemma release_reaches_fleet_witness :
  let a := refreshDrains replica_b 20 in
  let b := set_storage demo_service (svc_storage (snd (DrainDomain a 30 demo_release))) in
  IsDomainDrained (refreshDrains b 40) 40 "eth" "node.example.com" "json_rpc" = true <->
  drained_by (delete (drain_key demo_release) (ms_drains (svc_storage a))) 40 "eth" "node.example.com" "json_rpc".
Proof.
  cbv zeta. apply (release_reaches_fleet ms_open ms_drains _ (refreshDrains replica_b 20) _ 30 40 demo_release "eth" "node.example.com" "json_rpc");
    try reflexivity; try discriminate; vm_compute; discriminate.
Defined.

Lemma write_behind_sequential_witness :
  set_each (svc_storage demo_service2) 9 ((map_to_list (svc_pending demo_service2)).*2 ++ svc_writeCh demo_service2) =
  Ok (svc_storage (write_stop demo_service2 9)).
Proof.
  apply (write_behind_sequential DefaultConfig (NewMemoryStorage (5 * minute))); [|reflexivity].
  eapply reach_step; [eapply reach_step; [apply reach_refl|apply (step_RecordSignal _ 5 demo_key)]|].
  apply (step_SetArchivalStatus demo_service1 6 demo_key true hour).
Defined.

(** A storage that holds a live drain and no score. *)
Definition drained_store : MemoryStorage :=
  ms_with_drains (NewMemoryStorage 0) {[ mkDrainKey "eth" "node.example.com" "" := hour ]}.

(** The periodic refresh skips the drains when the storage lists no score:
    a service over a storage with a live drain and no score refreshes without
    error and still routes to the drained operator, although refreshing the
    drains alone would bench it. *)
Theorem refresh_without_scores_skips_drains :
  let s := NewService DefaultConfig drained_store in
  fst (refreshFromStorage s 5) = None /\
  IsDomainDrained (snd (refreshFromStorage s 5)) 5 "eth" "node.example.com" "json_rpc" = false /\
  IsDomainDrained (refreshDrains s 5) 5 "eth" "node.example.com" "json_rpc" = true.
Proof. vm_compute. auto. Qed.
