(* ===== verification/TieredSelector.v ===== *)
(** * Tiered selection and probation: reputation/selector.go

    A Go map that is ranged over is a list of its entries, in the order the
    iteration visits them: every statement holds for every order. *)

From S2P Require Import Prelude GoStrings Float64 Signals Score RepKey RepConfig.
From Stdlib Require Import ZArith Lia Bool String.
From stdpp Require Import base list gmap strings.

Open Scope Z_scope.

Record TieredSelector := mkTieredSelector {
  tsel_config : TieredSelectionConfig;
  tsel_minThreshold : float64;
  tsel_probation : gmap EndpointKey bool;
}.

Definition NewTieredSelector (config : TieredSelectionConfig) (minThreshold : float64) : TieredSelector :=
  mkTieredSelector config minThreshold ∅.

Inductive selector_error := ErrNoEndpointsAvailable.

Definition TierForScore (s : TieredSelector) (score : float64) : Z :=
  if fgeb score (ts_Tier1Threshold (tsel_config s)) then 1
  else if fgeb score (ts_Tier2Threshold (tsel_config s)) then 2
  else if fgeb score (tsel_minThreshold s) then 3
  else 0.

(** The loop of [GroupByTier], appending to the three slices. *)
Definition group_step (s : TieredSelector) (t : list EndpointKey * list EndpointKey * list EndpointKey)
  (e : EndpointKey * float64) : list EndpointKey * list EndpointKey * list EndpointKey :=
  let '(tier1, tier2, tier3) := t in
  let '(key, score) := e in
  if fgeb score (ts_Tier1Threshold (tsel_config s)) then (tier1 ++ [key], tier2, tier3)
  else if fgeb score (ts_Tier2Threshold (tsel_config s)) then (tier1, tier2 ++ [key], tier3)
  else if fgeb score (tsel_minThreshold s) then (tier1, tier2, tier3 ++ [key])
  else (tier1, tier2, tier3).

Definition GroupByTier (s : TieredSelector) (endpoints : list (EndpointKey * float64))
  : list EndpointKey * list EndpointKey * list EndpointKey :=
  fold_left (group_step s) endpoints ([], [], []).

(** [keys[rand.Intn(len(keys))]]: an index out of range would panic, here [None]. *)
Definition pick (d : draw) (keys : list EndpointKey) : option EndpointKey :=
  keys !! Z.to_nat (d (Z.of_nat (List.length keys))).

(** [None] is a panic. *)
Definition SelectEndpoint (s : TieredSelector) (d : draw) (endpoints : list (EndpointKey * float64))
  : option (result selector_error (EndpointKey * Z)) :=
  let from tier keys := option_map (fun k => Ok (k, tier)) (pick d keys) in
  if (List.length endpoints =? 0)%nat then Some (Err ErrNoEndpointsAvailable)
  else if negb (ts_Enabled (tsel_config s)) then from 0 (map fst endpoints)
  else
    let '(tier1, tier2, tier3) := GroupByTier s endpoints in
    if (0 <? List.length tier1)%nat then from 1 tier1
    else if (0 <? List.length tier2)%nat then from 2 tier2
    else if (0 <? List.length tier3)%nat then from 3 tier3
    else Some (Err ErrNoEndpointsAvailable).

Definition IsInProbation (s : TieredSelector) (key : EndpointKey) : bool :=
  default false (tsel_probation s !! key).

Definition in_probation_band (s : TieredSelector) (score : float64) : bool :=
  fltb score (pb_Threshold (ts_Probation (tsel_config s))) && fgeb score (tsel_minThreshold s).

Definition probation_step (s : TieredSelector) (acc : list EndpointKey * gmap EndpointKey bool)
  (e : EndpointKey * float64) : list EndpointKey * gmap EndpointKey bool :=
  let '(inProbation, m) := acc in
  let '(key, score) := e in
  let wasInProbation := default false (m !! key) in
  if in_probation_band s score then (inProbation ++ [key], <[key := true]> m)
  else if wasInProbation then (inProbation, delete key m)
  else (inProbation, m).

Definition UpdateProbationStatus (s : TieredSelector) (endpoints : list (EndpointKey * float64))
  : list EndpointKey * TieredSelector :=
  if negb (pb_Enabled (ts_Probation (tsel_config s))) then ([], s)
  else
    let '(l, m) := fold_left (probation_step s) endpoints ([], tsel_probation s) in
    (l, mkTieredSelector (tsel_config s) (tsel_minThreshold s) m).

Definition ShouldRouteToProbation (s : TieredSelector) (d : draw) : bool :=
  if negb (pb_Enabled (ts_Probation (tsel_config s))) then false
  else fltb (f64_of_Z (d 100)) (pb_TrafficPercent (ts_Probation (tsel_config s))).

(** ** Lemmas *)

Lemma group_fold s (l : list (EndpointKey * float64)) : forall t1 t2 t3,
  fold_left (group_step s) l (t1, t2, t3) =
  (t1 ++ map fst (List.filter (fun e => TierForScore s e.2 =? 1) l),
   t2 ++ map fst (List.filter (fun e => TierForScore s e.2 =? 2) l),
   t3 ++ map fst (List.filter (fun e => TierForScore s e.2 =? 3) l)).
Proof.
  induction l as [|[key score] l IH]; intros t1 t2 t3; cbn [fold_left List.filter map].
  { now rewrite !app_nil_r. }
  cbn [group_step snd fst].
  assert (Ht : TierForScore s score = TierForScore s score) by reflexivity.
  unfold TierForScore in Ht at 2.
  destruct (fgeb score (ts_Tier1Threshold (tsel_config s))); [|destruct (fgeb score (ts_Tier2Threshold (tsel_config s)));
    [|destruct (fgeb score (tsel_minThreshold s))]]; rewrite IH, Ht; cbn [Z.eqb Pos.eqb map fst]; now rewrite <- ?app_assoc.
Qed.

Lemma GroupByTier_spec s l :
  GroupByTier s l =
  (map fst (List.filter (fun e => TierForScore s e.2 =? 1) l),
   map fst (List.filter (fun e => TierForScore s e.2 =? 2) l),
   map fst (List.filter (fun e => TierForScore s e.2 =? 3) l)).
Proof. unfold GroupByTier. now rewrite group_fold. Qed.

Lemma pick_good d keys : good_draw d -> keys <> [] -> exists k, pick d keys = Some k /\ In k keys.
Proof.
  intros Hd Hne. unfold pick.
  assert (Hl : (0 < List.length keys)%nat) by (destruct keys; cbn; [congruence|lia]).
  pose proof (Hd (Z.of_nat (List.length keys)) ltac:(lia)).
  destruct (keys !! Z.to_nat (d (Z.of_nat (List.length keys)))) as [k|] eqn:E.
  - exists k. split; [reflexivity|]. apply list_elem_of_In. eapply list_elem_of_lookup_2. exact E.
  - apply lookup_ge_None in E. lia.
Qed.

(** The keys of a tier, and the key picked from it. *)
Lemma tier_In s (l : list (EndpointKey * float64)) tier k :
  In k (map fst (List.filter (fun e => TierForScore s e.2 =? tier) l)) <->
  exists v, In (k, v) l /\ TierForScore s v = tier.
Proof.
  rewrite in_map_iff. setoid_rewrite filter_In. split.
  - intros ([k' v] & <- & Hin & E). breflect. eauto.
  - intros (v & Hin & E). exists (k, v). cbn [fst snd]. rewrite E, Z.eqb_refl. auto.
Qed.

Lemma length_pos {A} (l : list A) : (0 <? List.length l)%nat = negb (bool_decide (l = [])).
Proof. destruct l; [reflexivity|]. symmetry. apply negb_true_iff, bool_decide_eq_false_2. discriminate. Qed.

Lemma probation_fold s (l : list (EndpointKey * float64)) : forall ps m,
  NoDup (l.*1) ->
  let r := fold_left (probation_step s) l (ps, m) in
  fst r = (ps ++ map fst (List.filter (fun e => in_probation_band s e.2) l))%list /\
  (forall k v, In (k, v) l -> default false (snd r !! k) = in_probation_band s v) /\
  (forall k, ~ In k l.*1 -> snd r !! k = m !! k).
Proof.
  induction l as [|[key score] l IH]; intros ps m Hnd; cbv zeta.
  { cbn. rewrite app_nil_r. repeat split; intros; auto; contradiction. }
  cbn [fmap list_fmap fst] in Hnd. apply NoDup_cons in Hnd as [Hk Hnd].
  assert (Hk' : ~ In key l.*1) by (intros Hin; now apply Hk, list_elem_of_In).
  cbn [fold_left]. set (acc := probation_step s (ps, m) (key, score)).
  assert (Hacc : fst acc = (ps ++ if in_probation_band s score then [key] else [])%list /\
                 default false (snd acc !! key) = in_probation_band s score /\
                 forall k, k <> key -> snd acc !! k = m !! k).
  { unfold acc, probation_step. destruct (in_probation_band s score); cbn.
    - rewrite lookup_insert_eq. repeat split; auto. intros k Hne. now rewrite lookup_insert_ne by congruence.
    - destruct (default false (m !! key)) eqn:E; cbn; rewrite ?app_nil_r.
      + rewrite lookup_delete_eq. repeat split; auto. intros k Hne. now rewrite lookup_delete_ne by congruence.
      + auto. }
  destruct acc as [ps' m']. cbn [fst snd] in Hacc. destruct Hacc as (-> & Ha & Ho).
  destruct (IH (ps ++ if in_probation_band s score then [key] else [])%list m' Hnd) as (I1 & I2 & I3). repeat split.
  - rewrite I1. cbn [List.filter snd]. destruct (in_probation_band s score); cbn; now rewrite <- app_assoc.
  - intros k v [[= -> ->]|Hin]; [|now apply I2]. now rewrite I3, Ha.
  - intros k Hn. cbn [fmap list_fmap fst] in Hn. rewrite I3 by (intros Hin; apply Hn; now right).
    apply Ho. intros ->. apply Hn. now left.
Qed.

(** ** The properties *)

(** The best tier that holds one of the endpoints. *)
Definition best_tier (s : TieredSelector) (endpoints : list (EndpointKey * float64)) (tier : Z) : Prop :=
  (exists k v, In (k, v) endpoints /\ TierForScore s v = tier) /\
  forall k v, In (k, v) endpoints -> TierForScore s v = 0 \/ tier <= TierForScore s v.

Lemma TierForScore_range s v : 0 <= TierForScore s v <= 3.
Proof. unfold TierForScore. case_ifs; lia. Qed.

Lemma tier_empty s (l : list (EndpointKey * float64)) tier :
  map fst (List.filter (fun e => TierForScore s e.2 =? tier) l) = [] ->
  forall k v, In (k, v) l -> TierForScore s v <> tier.
Proof.
  intros E k v Hin Ht. assert (Hk : In k (map fst (List.filter (fun e => TierForScore s e.2 =? tier) l)))
    by (apply tier_In; eauto). now rewrite E in Hk.
Qed.

(** Picking from the first tier that is not empty. *)
Lemma pick_best s d (l : list (EndpointKey * float64)) tier :
  good_draw d -> 1 <= tier <= 3 ->
  (forall j, 1 <= j < tier -> map fst (List.filter (fun e => TierForScore s e.2 =? j) l) = []) ->
  map fst (List.filter (fun e => TierForScore s e.2 =? tier) l) <> [] ->
  exists k, pick d (map fst (List.filter (fun e => TierForScore s e.2 =? tier) l)) = Some k /\
    best_tier s l tier /\ exists v, In (k, v) l /\ TierForScore s v = tier.
Proof.
  intros Hd Ht Hlow Hne. destruct (pick_good d _ Hd Hne) as (k & -> & Hk). exists k. split; [reflexivity|].
  apply tier_In in Hk as (v & Hv & Hvt). split; [|eauto]. split; [eauto|]. intros k' v' Hk'.
  pose proof (TierForScore_range s v') as Hr.
  destruct (decide (1 <= TierForScore s v' < tier)) as [Hj|Hj]; [|lia].
  exfalso. exact (tier_empty s l _ (Hlow _ Hj) k' v' Hk' eq_refl).
Qed.

(** Tiered selection never panics and cascades: with tiering on, it returns
    an endpoint of the best tier that has any, and reports that tier; it fails
    exactly when every endpoint is below the minimum threshold (or there is
    none). *)
Theorem tiered_selection_cascades (s : TieredSelector) (d : draw) (endpoints : list (EndpointKey * float64)) :
  good_draw d -> ts_Enabled (tsel_config s) = true ->
  match SelectEndpoint s d endpoints with
  | None => False
  | Some (Err _) => forall k v, In (k, v) endpoints -> TierForScore s v = 0
  | Some (Ok (key, tier)) =>
      1 <= tier <= 3 /\ best_tier s endpoints tier /\ exists v, In (key, v) endpoints /\ TierForScore s v = tier
  end.
Proof.
  intros Hd He. unfold SelectEndpoint. rewrite He. cbn [negb].
  destruct (List.length endpoints =? 0)%nat eqn:El.
  { apply Nat.eqb_eq, length_zero_iff_nil in El. subst. cbn. tauto. }
  rewrite GroupByTier_spec, !length_pos.
  set (t j := map fst (List.filter (fun e => TierForScore s e.2 =? j) endpoints)). fold (t 1) (t 2) (t 3).
  assert (Hbest : forall tier, 1 <= tier <= 3 -> (forall j, 1 <= j < tier -> t j = []) -> t tier <> [] ->
    match option_map (fun k => Ok (E := selector_error) (k, tier)) (pick d (t tier)) with
    | Some (Ok (key, tier)) =>
        1 <= tier <= 3 /\ best_tier s endpoints tier /\ exists v, In (key, v) endpoints /\ TierForScore s v = tier
    | _ => False
    end).
  { intros tier Ht Hlow Hne. destruct (pick_best s d endpoints tier Hd Ht Hlow Hne) as (k & Hp & Hb & Hv).
    unfold t. rewrite Hp. cbn. auto. }
  destruct (decide (t 1 = [])) as [E1|E1]; [rewrite bool_decide_eq_true_2 by exact E1|
    rewrite bool_decide_eq_false_2 by exact E1; cbn [negb];
    specialize (Hbest 1 ltac:(lia) ltac:(lia) E1); now destruct (option_map _ _) as [[[]|]|]].
  destruct (decide (t 2 = [])) as [E2|E2]; [rewrite bool_decide_eq_true_2 by exact E2|
    rewrite bool_decide_eq_false_2 by exact E2; cbn [negb];
    assert (L2 : forall j, 1 <= j < 2 -> t j = []) by (intros j Hj; now replace j with 1 by lia);
    specialize (Hbest 2 ltac:(lia) L2 E2); now destruct (option_map _ _) as [[[]|]|]].
  destruct (decide (t 3 = [])) as [E3|E3]; [rewrite bool_decide_eq_true_2 by exact E3|
    rewrite bool_decide_eq_false_2 by exact E3; cbn [negb];
    assert (L3 : forall j, 1 <= j < 3 -> t j = []) by (intros j Hj; destruct (decide (j = 1)) as [->|]; [exact E1|]; now replace j with 2 by lia);
    specialize (Hbest 3 ltac:(lia) L3 E3); now destruct (option_map _ _) as [[[]|]|]].
  cbn [negb]. intros k v Hk. pose proof (tier_empty s endpoints) as Hemp.
  pose proof (Hemp 1 E1 k v Hk). pose proof (Hemp 2 E2 k v Hk). pose proof (Hemp 3 E3 k v Hk).
  pose proof (TierForScore_range s v). lia.
Qed.

(** After an update the probation set agrees with the scores on every listed
    endpoint, the returned list is exactly the listed endpoints in probation, in
    order, and endpoints that are not listed keep their status. *)
Theorem probation_tracks_scores (s : TieredSelector) (endpoints : list (EndpointKey * float64)) :
  pb_Enabled (ts_Probation (tsel_config s)) = true -> NoDup (endpoints.*1) ->
  let '(listed, s') := UpdateProbationStatus s endpoints in
  listed = map fst (List.filter (fun e => in_probation_band s e.2) endpoints) /\
  (forall k v, In (k, v) endpoints -> IsInProbation s' k = in_probation_band s v) /\
  (forall k, ~ In k endpoints.*1 -> IsInProbation s' k = IsInProbation s k).
Proof.
  intros He Hnd. unfold UpdateProbationStatus. rewrite He. cbn [negb].
  destruct (probation_fold s endpoints [] (tsel_probation s) Hnd) as (F1 & F2 & F3).
  destruct (fold_left _ _ _) as [l m]. cbn [fst snd] in *. subst l. repeat split; [exact F2|].
  intros k Hk. unfold IsInProbation. cbn. now rewrite F3.
Qed.

(** A traffic percentage of [p] (a whole number) routes to probation on
    exactly [p] of the 100 values the generator draws. *)
Theorem probation_traffic_share (s : TieredSelector) (p : Z) :
  pb_Enabled (ts_Probation (tsel_config s)) = true ->
  pb_TrafficPercent (ts_Probation (tsel_config s)) = f64_of_Z p -> 0 <= p <= 100 ->
  List.length (List.filter (fun r => ShouldRouteToProbation s (const_draw r)) (map Z.of_nat (seq 0 100))) = Z.to_nat p.
Proof.
  intros He Hp Hr. unfold ShouldRouteToProbation. rewrite He, Hp. cbn [negb].
  assert (G : forallb (fun q => Nat.eqb (List.length (List.filter (fun r => fltb (f64_of_Z (const_draw r 100)) (f64_of_Z (Z.of_nat q)))
    (map Z.of_nat (seq 0 100)))) q) (seq 0 101) = true) by (vm_compute; reflexivity).
  rewrite forallb_forall in G. specialize (G (Z.to_nat p)). rewrite Z2Nat.id in G by lia.
  apply Nat.eqb_eq, G, in_seq. lia.
Qed.

(** ** Witnesses *)

Definition demo_tiers : TieredSelector :=
  NewTieredSelector (mkTieredSelectionConfig true (f64_of_Z 70) (f64_of_Z 50)
    (mkProbationConfig true (f64_of_Z 40) (f64_of_Z 10) (f64_of_Z 2))) (f64_of_Z 30).
Definition tier_key (n : string) : EndpointKey := NewEndpointKey "eth" n 3.
Definition demo_endpoints : list (EndpointKey * float64) :=
  [(tier_key "a", f64_of_Z 35); (tier_key "b", f64_of_Z 55); (tier_key "c", f64_of_Z 12)].

Lemma tiered_selection_cascades_witness :
  SelectEndpoint demo_tiers (const_draw 0) demo_endpoints = Some (Ok (tier_key "b", 2)) /\
  match SelectEndpoint demo_tiers (const_draw 0) demo_endpoints with
  | None => False
  | Some (Err _) => forall k v, In (k, v) demo_endpoints -> TierForScore demo_tiers v = 0
  | Some (Ok (key, tier)) =>
      1 <= tier <= 3 /\ best_tier demo_tiers demo_endpoints tier /\
      exists v, In (key, v) demo_endpoints /\ TierForScore demo_tiers v = tier
  end.
Proof. split; [reflexivity|]. apply tiered_selection_cascades; [apply const_draw_good|reflexivity]. Defined.

Lemma probation_tracks_scores_witness :
  let '(listed, s') := UpdateProbationStatus demo_tiers demo_endpoints in
  listed = map fst (List.filter (fun e => in_probation_band demo_tiers e.2) demo_endpoints) /\
  (forall k v, In (k, v) demo_endpoints -> IsInProbation s' k = in_probation_band demo_tiers v) /\
  (forall k, ~ In k demo_endpoints.*1 -> IsInProbation s' k = IsInProbation demo_tiers k).
Proof.
  apply probation_tracks_scores; [reflexivity|]. cbn. apply NoDup_ListNoDup.
  repeat constructor; cbn; intuition discriminate.
Defined.

Lemma probation_traffic_share_witness :
  List.length (List.filter (fun r => ShouldRouteToProbation demo_tiers (const_draw r)) (map Z.of_nat (seq 0 100))) = 10%nat.
Proof. apply (probation_traffic_share demo_tiers 10); [reflexivity|reflexivity|lia]. Defined.
