(* ===== verification/Selection.v ===== *)
(** * Endpoint selection: qos/selector/concentration_cap.go and multiple_selection.go

    Grouping of a pool into operators and backends, the per-operator
    concentration cap with its water-filling, the weighted picks, the retry band
    pick, the Fisher-Yates selection and the selection with TLD diversity.

    Randomness is a source passed along ([RandSource]); a run that would panic
    (a draw from an empty range, an index out of range) yields [None].  Metrics
    and logging calls return nothing and are left out.  The package's atomics are
    the record [settings], read by every selection. *)

From S2P Require Import Prelude GoStrings Float64 Domain RepKey.
From Stdlib Require Import ZArith Lia Bool String.
From stdpp Require Import base list gmap strings.

Open Scope string_scope.
Open Scope Z_scope.

(** ** Randomness: math/rand *)

Class RandSource (R : Type) := {
  src_Intn : R -> Z -> Z * R;
  src_Float64 : R -> float64 * R;
}.

(** What math/rand documents: [Intn(n)] is in [0,n), [Float64()] in [0,1). *)
Class RandLaws (R : Type) `{RandSource R} : Prop := {
  Intn_range : forall r n, 0 < n -> 0 <= fst (src_Intn r n) < n;
  Float64_range : forall r, fleb f_zero (fst (src_Float64 r)) = true /\ fltb (fst (src_Float64 r)) f_one = true;
}.

(** A computation that draws and may panic. *)
Definition rnd (R A : Type) := R -> option (A * R).

Definition rret {R A} (a : A) : rnd R A := fun r => Some (a, r).
Definition rpanic {R A} : rnd R A := fun _ => None.
Definition rbind {R A B} (m : rnd R A) (k : A -> rnd R B) : rnd R B :=
  fun r => match m r with Some (a, r') => k a r' | None => None end.
Notation "'let?' x ':=' m 'in' k" := (rbind m (fun x => k))
  (at level 10, x pattern, m at level 100, k at level 200) : go_scope.
Open Scope go_scope.

Definition rand_Intn {R} `{RandSource R} (n : Z) : rnd R Z :=
  fun r => if n <=? 0 then None else Some (src_Intn r n).
Definition rand_Float64 {R} `{RandSource R} : rnd R float64 := fun r => Some (src_Float64 r).

(** [s[i]] *)
Definition at_index {R A} (l : list A) (i : Z) : rnd R A :=
  if i <? 0 then rpanic
  else match l !! Z.to_nat i with Some a => rret a | None => rpanic end.

Abbreviation len l := (Z.of_nat (List.length l)).

(** ** Settings *)

Record serviceSelectionSettings := mkServiceSelectionSettings {
  sss_backendWeightCap : Z;      (** 0: unset *)
  sss_maxOperatorShare : float64;
}.

Record settings := mkSettings {
  g_dedupeOperatorShareByBackendURL : bool;
  g_backendWeightCap : Z;
  g_applyOperatorCapOnBackendPick : bool;
  g_capInfeasibleForcesUniform : bool;
  g_serviceSettings : gmap string serviceSelectionSettings;
  g_defaultMaxOperatorShare : float64;
}.

Definition concentrationCapEpsilon : float64 := f64_frac 1 (10 ^ 9).
Definition DefaultBackendRegistrationWeightCap : Z := 0.
Definition DefaultMaxOperatorShareFallback : float64 := f64_frac 1 2.
Definition infeasibleCapFallbackShare : float64 := f64_frac 65 100.
Definition DefaultDisplacementCeilingMultiple : float64 := f64_of_Z 3.

(** [init] *)
Definition initial_settings : settings :=
  mkSettings true DefaultBackendRegistrationWeightCap true false ∅ DefaultMaxOperatorShareFallback.

(** [int32(k)] *)
Definition wrap32 (z : Z) : Z := (z + 2 ^ 31) mod 2 ^ 32 - 2 ^ 31.

Definition SetBackendRegistrationWeightCap (g : settings) (k : Z) : settings :=
  let k := if k <? 0 then 0 else k in
  mkSettings (g_dedupeOperatorShareByBackendURL g) (wrap32 k) (g_applyOperatorCapOnBackendPick g)
    (g_capInfeasibleForcesUniform g) (g_serviceSettings g) (g_defaultMaxOperatorShare g).

Definition SetBackendPickOperatorCap (g : settings) (enabled : bool) : settings :=
  mkSettings (g_dedupeOperatorShareByBackendURL g) (g_backendWeightCap g) enabled
    (g_capInfeasibleForcesUniform g) (g_serviceSettings g) (g_defaultMaxOperatorShare g).

Definition SetCapInfeasibleForcesUniform (g : settings) (enabled : bool) : settings :=
  mkSettings (g_dedupeOperatorShareByBackendURL g) (g_backendWeightCap g) (g_applyOperatorCapOnBackendPick g)
    enabled (g_serviceSettings g) (g_defaultMaxOperatorShare g).

Definition SetDefaultMaxOperatorShare (g : settings) (share : float64) : settings :=
  mkSettings (g_dedupeOperatorShareByBackendURL g) (g_backendWeightCap g) (g_applyOperatorCapOnBackendPick g)
    (g_capInfeasibleForcesUniform g) (g_serviceSettings g) share.

Definition SetOperatorShareBackendURLDedup (g : settings) (enabled : bool) : settings :=
  mkSettings enabled (g_backendWeightCap g) (g_applyOperatorCapOnBackendPick g)
    (g_capInfeasibleForcesUniform g) (g_serviceSettings g) (g_defaultMaxOperatorShare g).

Definition SetServiceSelectionSettings (g : settings) (serviceID : string) (weightCap : Z) (maxOperatorShare : float64) : settings :=
  mkSettings (g_dedupeOperatorShareByBackendURL g) (g_backendWeightCap g) (g_applyOperatorCapOnBackendPick g)
    (g_capInfeasibleForcesUniform g)
    (<[serviceID := mkServiceSelectionSettings weightCap maxOperatorShare]> (g_serviceSettings g))
    (g_defaultMaxOperatorShare g).

Definition ResetServiceSelectionSettings (g : settings) : settings :=
  mkSettings (g_dedupeOperatorShareByBackendURL g) (g_backendWeightCap g) (g_applyOperatorCapOnBackendPick g)
    (g_capInfeasibleForcesUniform g) ∅ (g_defaultMaxOperatorShare g).

Definition selectionSettingsFor (g : settings) (serviceID : string) : Z * float64 :=
  match g_serviceSettings g !! serviceID with
  | Some s => (if 0 <? sss_backendWeightCap s then sss_backendWeightCap s else g_backendWeightCap g,
               sss_maxOperatorShare s)
  | None => (g_backendWeightCap g, g_defaultMaxOperatorShare g)
  end.

Definition effectiveWeightCap (g : settings) (serviceID : string) : Z :=
  if negb (g_dedupeOperatorShareByBackendURL g) then 0 else fst (selectionSettingsFor g serviceID).

Definition backendWeight (registrations weightCap : Z) : Z :=
  if registrations <=? 0 then 0
  else if (weightCap <=? 0) || (registrations <? weightCap) then registrations
  else weightCap.

(** ** Grouping *)

(** The key of [byBackend] is kept in the group, the key of [byOperator] is the
    pool's own. *)
Record backendGroup := mkBackendGroup {
  bg_key : string;
  bg_endpoints : list EndpointAddr;
  bg_weight : Z;
}.

Record operatorPool := mkOperatorPool {
  op_key : string;
  op_backends : list backendGroup;
  op_entries : Z;
  op_units : Z;
}.

Definition backendKey (ep : EndpointAddr) : string :=
  match str_index "http" ep with
  | None => ep
  | Some idx =>
      let url := trim_right_slash (to_lower (str_drop idx ep)) in
      if (url =? "")%string then ep else url
  end.

Fixpoint add_backend (bKey : string) (ep : EndpointAddr) (bs : list backendGroup) : list backendGroup :=
  match bs with
  | [] => [mkBackendGroup bKey [ep] 0]
  | b :: bs' =>
      if (bg_key b =? bKey)%string then mkBackendGroup (bg_key b) (bg_endpoints b ++ [ep]) (bg_weight b) :: bs'
      else b :: add_backend bKey ep bs'
  end.

Fixpoint add_endpoint (opKey bKey : string) (ep : EndpointAddr) (ps : list operatorPool) : list operatorPool :=
  match ps with
  | [] => [mkOperatorPool opKey (add_backend bKey ep []) 1 0]
  | p :: ps' =>
      if (op_key p =? opKey)%string
      then mkOperatorPool (op_key p) (add_backend bKey ep (op_backends p)) (op_entries p + 1) (op_units p) :: ps'
      else p :: add_endpoint opKey bKey ep ps'
  end.

(** The second loop of [groupPoolKeyed]. *)
Definition weigh_backend (weightCap : Z) (b : backendGroup) : backendGroup :=
  mkBackendGroup (bg_key b) (bg_endpoints b) (backendWeight (len (bg_endpoints b)) weightCap).

Definition weigh_pool (weightCap : Z) (p : operatorPool) : operatorPool :=
  let backends := map (weigh_backend weightCap) (op_backends p) in
  mkOperatorPool (op_key p) backends (op_entries p) (op_units p + zsum bg_weight backends).

(** ** Water-filling

    [waterFillToCap] is written over a class of numbers: the program runs it on
    binary64 ([Num_float64]); the same text runs on the rationals, where its
    properties are stated without rounding (WaterFill.v). *)

Class Num (N : Type) := {
  n_zero : N;
  n_one : N;
  n_eps : N;        (** concentrationCapEpsilon *)
  n_multiple : N;   (** DefaultDisplacementCeilingMultiple *)
  n_add : N -> N -> N;
  n_sub : N -> N -> N;
  n_mul : N -> N -> N;
  n_div : N -> N -> N;
  n_ltb : N -> N -> bool;
  n_leb : N -> N -> bool;
}.

#[export] Instance Num_float64 : Num float64 := {
  n_zero := f_zero;
  n_one := f_one;
  n_eps := concentrationCapEpsilon;
  n_multiple := DefaultDisplacementCeilingMultiple;
  n_add := fadd;
  n_sub := fsub;
  n_mul := fmul;
  n_div := fdiv;
  n_ltb := fltb;
  n_leb := fleb;
}.

Section WaterFill.
Context {N : Type} `{Num N}.

(** Each weight is paired with its operator's entitlement ([None]: the nil
    slice, no ceiling). *)
Definition ceiling (w : N) (entitlement : option N) : N :=
  match entitlement with
  | None => n_one
  | Some e => let c := n_mul e n_multiple in if n_ltb c w then w else c
  end.

Definition over (maxShare w : N) : bool := n_ltb (n_add maxShare n_eps) w.

(** What a provider may still be given: its room under the cap and its ceiling. *)
Definition room (maxShare w : N) (entitlement : option N) : N :=
  let c := ceiling w entitlement in
  let limit := if n_ltb c maxShare then c else maxShare in
  n_sub limit w.

(** The first loop of a pass: excess, room, and whether a weight is over. *)
Definition measure_step (maxShare : N) (acc : N * N * bool) (x : N * option N) : N * N * bool :=
  let '(excess, roomSum, anyOver) := acc in
  let '(w, e) := x in
  if over maxShare w then (n_add excess (n_sub w maxShare), roomSum, true)
  else
    let r := room maxShare w e in
    if n_ltb n_eps r then (excess, n_add roomSum r, anyOver) else (excess, roomSum, anyOver).

Definition measure_pass (maxShare : N) (ws : list (N * option N)) : N * N * bool :=
  fold_left (measure_step maxShare) ws (n_zero, n_zero, false).

(** The second loop of a pass, on one weight. *)
Definition refill (maxShare excess roomSum absorbed : N) (x : N * option N) : N * option N :=
  let '(w, e) := x in
  if over maxShare w then
    (n_add maxShare (n_div (n_mul (n_sub w maxShare) (n_sub excess absorbed)) excess), e)
  else
    let r := room maxShare w e in
    if n_ltb n_eps r then (n_add w (n_mul absorbed (n_div r roomSum)), e) else (w, e).

(** One pass: [None] when the loop returns. *)
Definition fill_pass (maxShare : N) (ws : list (N * option N)) : option (list (N * option N)) :=
  let '(excess, roomSum, anyOver) := measure_pass maxShare ws in
  if negb anyOver then None
  else if n_leb roomSum n_zero then None
  else
    let absorbed := if n_ltb roomSum excess then roomSum else excess in
    Some (map (refill maxShare excess roomSum absorbed) ws).

Fixpoint fill_passes (passes : nat) (maxShare : N) (ws : list (N * option N)) : list (N * option N) :=
  match passes with
  | O => ws
  | S n => match fill_pass maxShare ws with
           | None => ws
           | Some ws' => fill_passes n maxShare ws'
           end
  end.

(** At most one pass per weight. *)
Definition waterFillToCap (maxShare : N) (ws : list (N * option N)) : list N :=
  map fst (fill_passes (List.length ws) maxShare ws).
End WaterFill.

Section Select.
Context `{DomainLib}.

Definition operatorKey (ep : EndpointAddr) : string :=
  let k := ExtractTLDFromEndpointAddr ep in if (k =? "")%string then ep else k.

Definition resolveOperatorKey (ep : EndpointAddr) (operatorKeys : option (gmap EndpointAddr string)) : string :=
  match operatorKeys with
  | Some m =>
      match m !! ep with
      | Some k => if (k =? "")%string then ep else k
      | None => operatorKey ep
      end
  | None => operatorKey ep
  end.

Definition groupPoolKeyed (validEndpoints : list EndpointAddr) (weightCap : Z)
  (operatorKeys : option (gmap EndpointAddr string)) : list operatorPool * Z * Z :=
  let grouped := fold_left (fun ps ep => add_endpoint (resolveOperatorKey ep operatorKeys) (backendKey ep) ep ps)
                           validEndpoints [] in
  let pools := map (weigh_pool weightCap) grouped in
  (pools, zsum op_units pools,
   fold_left (fun m p => if m <? op_units p then op_units p else m) pools 0).

Definition groupPool (validEndpoints : list EndpointAddr) (weightCap : Z) := groupPoolKeyed validEndpoints weightCap None.

(** ** Picks *)

Context {R : Type} `{RandSource R}.

(** [backendGroup.pick] *)
Definition bg_pick (b : backendGroup) : rnd R EndpointAddr :=
  let? i := rand_Intn (len (bg_endpoints b)) in at_index (bg_endpoints b) i.

(** The loop of [pickEndpoint]: the backend that holds unit [idx]. *)
Fixpoint backend_at (idx : Z) (bs : list backendGroup) : option backendGroup :=
  match bs with
  | [] => None
  | b :: bs' => if idx <? bg_weight b then Some b else backend_at (idx - bg_weight b) bs'
  end.

Definition pickEndpoint (p : operatorPool) : rnd R EndpointAddr :=
  let pick_last := let? b := at_index (op_backends p) (len (op_backends p) - 1) in bg_pick b in
  if len (op_backends p) =? 0 then rret ""
  else if op_units p <=? 0 then pick_last
  else
    let? idx := rand_Intn (op_units p) in
    match backend_at idx (op_backends p) with
    | Some b => bg_pick b
    | None => pick_last
    end.

(** The loop of [pickUniformOverUnits]: the operator that holds unit [idx]. *)
Fixpoint pool_at (idx : Z) (ps : list operatorPool) : option operatorPool :=
  match ps with
  | [] => None
  | p :: ps' => if idx <? op_units p then Some p else pool_at (idx - op_units p) ps'
  end.

Definition pickUniformOverUnits (pools : list operatorPool) (totalUnits : Z) : rnd R (EndpointAddr * string) :=
  if (totalUnits <=? 0) || (len pools =? 0) then rret ("", "")
  else
    let? idx := rand_Intn totalUnits in
    let? p := match pool_at idx pools with
              | Some p => rret p
              | None => at_index pools (len pools - 1)
              end in
    let? ep := pickEndpoint p in rret (ep, op_key p).

(** [weightedPick]: the first index whose cumulative weight exceeds the target. *)
Fixpoint cumulative_index (target cum : float64) (i : Z) (weights : list float64) : option Z :=
  match weights with
  | [] => None
  | w :: ws => let cum := fadd cum w in
               if fltb target cum then Some i else cumulative_index target cum (i + 1) ws
  end.

Definition weightedPick (weights : list float64) : rnd R Z :=
  let total := fold_left fadd weights f_zero in
  let? x := rand_Float64 in
  match cumulative_index (fmul x total) f_zero 0 weights with
  | Some i => rret i
  | None => rret (len weights - 1)
  end.

Definition starting_weights (pools : list operatorPool) (totalUnits : Z) : list (float64 * option float64) :=
  let totalRegistrations := zsum op_entries pools in
  map (fun p => (fdiv (f64_of_Z (op_units p)) (f64_of_Z totalUnits),
                 Some (if 0 <? totalRegistrations
                       then fdiv (f64_of_Z (op_entries p)) (f64_of_Z totalRegistrations) else f_zero))) pools.

(** [pools[weightedPick(weights)]], then its endpoint. *)
Definition pick_by_weights (pools : list operatorPool) (weights : list float64) : rnd R (EndpointAddr * string * bool) :=
  let? i := weightedPick weights in
  let? chosen := at_index pools i in
  let? ep := pickEndpoint chosen in
  rret (ep, op_key chosen, true).

Definition pickWeightedFromPools (g : settings) (pools : list operatorPool) (totalUnits maxUnits : Z)
  (maxOperatorShare : float64) : rnd R (EndpointAddr * string * bool) :=
  let m := len pools in
  if (m =? 0) || (totalUnits <=? 0) then rret ("", "", false)
  else
    let capEnabled := (1 <? m) && fgtb maxOperatorShare f_zero && fltb maxOperatorShare f_one in
    let infeasible := capEnabled && fleb (fmul maxOperatorShare (f64_of_Z m)) f_one in
    if infeasible && g_capInfeasibleForcesUniform g then
      pick_by_weights pools (map (fun _ => fdiv f_one (f64_of_Z m)) pools)
    else
      let maxOperatorShare := if infeasible then infeasibleCapFallbackShare else maxOperatorShare in
      if negb capEnabled || fleb (f64_of_Z maxUnits) (fmul maxOperatorShare (f64_of_Z totalUnits)) then
        let? (sel, key) := pickUniformOverUnits pools totalUnits in rret (sel, key, false)
      else
        pick_by_weights pools (waterFillToCap maxOperatorShare (starting_weights pools totalUnits)).

Definition SelectWithConcentrationCap (g : settings) (serviceID : string) (validEndpoints : list EndpointAddr)
  (maxOperatorShare : float64) : rnd R EndpointAddr :=
  let n := len validEndpoints in
  if n =? 0 then rret ""
  else if (n =? 1) || fleb maxOperatorShare f_zero || fgeb maxOperatorShare f_one then
    let? i := rand_Intn n in at_index validEndpoints i
  else
    let '(pools, totalUnits, maxUnits) := groupPool validEndpoints (effectiveWeightCap g serviceID) in
    let? (selected, _, _) := pickWeightedFromPools g pools totalUnits maxUnits maxOperatorShare in
    rret selected.

Definition SelectOperatorUniform (g : settings) (serviceID : string) (validEndpoints : list EndpointAddr)
  : rnd R EndpointAddr :=
  let n := len validEndpoints in
  if n =? 0 then rret ""
  else if n =? 1 then at_index validEndpoints 0
  else
    let '(pools, _, _) := groupPool validEndpoints (effectiveWeightCap g serviceID) in
    let? i := rand_Intn (len pools) in
    let? p := at_index pools i in
    pickEndpoint p.

Record backendPick := mkBackendPick {
  bp_selected : EndpointAddr;
  bp_operator : string;
  bp_operatorUnits : gmap string Z;
  bp_totalUnits : Z;
  bp_capReshaped : bool;
}.

Definition pickBackend (g : settings) (serviceID : string) (endpoints : list EndpointAddr)
  (operatorKeys : option (gmap EndpointAddr string)) (applyOperatorCap : bool) : rnd R backendPick :=
  if len endpoints =? 0 then rret (mkBackendPick "" "" ∅ 0 false)
  else
    let dedupOn := g_dedupeOperatorShareByBackendURL g in
    let maxOperatorShare :=
      if dedupOn && applyOperatorCap && g_applyOperatorCapOnBackendPick g
      then snd (selectionSettingsFor g serviceID) else f_zero in
    let '(pools, totalUnits, maxUnits) := groupPoolKeyed endpoints (effectiveWeightCap g serviceID) operatorKeys in
    let? (selected, operator, reshaped) := pickWeightedFromPools g pools totalUnits maxUnits maxOperatorShare in
    let counts := fold_left (fun m p => <[op_key p := op_units p]> m) pools ∅ in
    rret (mkBackendPick selected operator counts totalUnits reshaped).

Definition PickBackendUniform (g : settings) (endpoints : list EndpointAddr) : rnd R EndpointAddr :=
  let? p := pickBackend g "" endpoints None false in rret (bp_selected p).

Definition PickBackendUniformForService (g : settings) (serviceID : string) (endpoints : list EndpointAddr)
  : rnd R EndpointAddr :=
  let? p := pickBackend g serviceID endpoints None true in rret (bp_selected p).

Inductive BandCapOutcome := BandCapNoCandidates | BandCapDisabled | BandCapNoRoom | BandCapNoOp | BandCapReshaped.

Definition BandCapOutcome_String (o : BandCapOutcome) : string :=
  match o with
  | BandCapNoCandidates => "no_candidates"
  | BandCapDisabled => "disabled"
  | BandCapNoRoom => "degraded_no_room"
  | BandCapNoOp => "no_op"
  | BandCapReshaped => "reshaped"
  end.

Definition SelectBandWithConcentrationCap (g : settings) (band : list EndpointAddr) (maxOperatorShare : float64)
  : rnd R (EndpointAddr * BandCapOutcome) :=
  let uncapped o := let? ep := PickBackendUniform g band in rret (ep, o) in
  let n := len band in
  if n =? 0 then rret ("", BandCapNoCandidates)
  else if fleb maxOperatorShare f_zero || fgeb maxOperatorShare f_one then uncapped BandCapDisabled
  else if n =? 1 then let? ep := at_index band 0 in rret (ep, BandCapNoRoom)
  else
    let '(pools, totalUnits, maxUnits) := groupPool band (effectiveWeightCap g "") in
    if len pools <=? 1 then uncapped BandCapNoRoom
    else
      let? (selected, _, reshaped) := pickWeightedFromPools g pools totalUnits maxUnits maxOperatorShare in
      if (selected =? "")%string then uncapped BandCapNoRoom
      else rret (selected, if (reshaped : bool) then BandCapReshaped else BandCapNoOp).

Definition CountDistinctBackends (endpoints : list EndpointAddr) : Z :=
  Z.of_nat (size (fold_left (fun m ep => {[backendKey ep]} ∪ m) endpoints (∅ : gset string))).

(** ** Selecting several endpoints *)

(** The Fisher-Yates loop: [fuel] counts the iterations left. *)
Fixpoint shuffle_loop (fuel : nat) (i : Z) (copy : list EndpointAddr) (selected : list EndpointAddr)
  : rnd R (list EndpointAddr) :=
  match fuel with
  | O => rret selected
  | S fuel' =>
      let? k := rand_Intn (len copy - i) in
      let j := k + i in
      let? a := at_index copy i in
      let? b := at_index copy j in
      let copy := <[Z.to_nat j := a]> (<[Z.to_nat i := b]> copy) in
      let? x := at_index copy i in
      shuffle_loop fuel' (i + 1) copy (selected ++ [x])
  end.

Definition RandomSelectMultiple (endpoints : list EndpointAddr) (numEndpoints : Z) : rnd R (list EndpointAddr) :=
  let n := wrap64 numEndpoints in
  if len endpoints <=? n then rret endpoints
  else shuffle_loop (Z.to_nat n) 0 endpoints [].

Definition different_tld (endpointTLDs : gmap EndpointAddr string) (usedTLDs : gset string) (ep : EndpointAddr) : bool :=
  match endpointTLDs !! ep with
  | Some tld => negb (bool_decide (tld ∈ usedTLDs))
  | None => true
  end.

(** [None] inside: no endpoint with another TLD. *)
Definition selectEndpointWithDifferentTLD (g : settings) (serviceID : string) (available : list EndpointAddr)
  (endpointTLDs : gmap EndpointAddr string) (usedTLDs : gset string) : rnd R (option EndpointAddr) :=
  let candidates := List.filter (different_tld endpointTLDs usedTLDs) available in
  if len candidates =? 0 then rret None
  else let? p := pickBackend g serviceID candidates (Some endpointTLDs) false in rret (Some (bp_selected p)).

(** The loop, from iteration [i], with [fuel] iterations left. *)
Fixpoint diversity_loop (fuel : nat) (i : Z) (g : settings) (serviceID : string)
  (endpointTLDs : gmap EndpointAddr string) (usedTLDs : gset string)
  (remaining selected : list EndpointAddr) : rnd R (list EndpointAddr) :=
  match fuel with
  | O => rret selected
  | S fuel' =>
      if negb (0 <? len remaining) then rret selected
      else
        let? ep :=
          (if (0 <? i) && negb (bool_decide (usedTLDs = ∅)) then
             let? r := selectEndpointWithDifferentTLD g serviceID remaining endpointTLDs usedTLDs in
             match r with
             | Some ep => rret ep
             | None => let? p := pickBackend g serviceID remaining (Some endpointTLDs) false in rret (bp_selected p)
             end
           else let? p := pickBackend g serviceID remaining (Some endpointTLDs) true in rret (bp_selected p)) in
        let usedTLDs := match endpointTLDs !! ep with Some tld => {[tld]} ∪ usedTLDs | None => usedTLDs end in
        diversity_loop fuel' (i + 1) g serviceID endpointTLDs usedTLDs
          (List.filter (fun e => negb (e =? ep)%string) remaining) (selected ++ [ep])
  end.

Definition SelectEndpointsWithDiversity (g : settings) (serviceID : string) (available : list EndpointAddr)
  (numEndpoints : Z) : rnd R (list EndpointAddr) :=
  diversity_loop (Z.to_nat (wrap64 numEndpoints)) 0 g serviceID (GetEndpointTLDs available) ∅ available [].
End Select.
