(* ===== verification/SelectionProps.v ===== *)
(** * Correctness of endpoint selection

    Grouping partitions the pool by operator and backend; every pick is total
    (it never panics, whatever the draws) and returns an endpoint of the pool it
    was given; shares are exact in the weighting currency; the Fisher-Yates and
    the TLD-diverse selections choose without replacement. *)

From S2P Require Import Prelude GoStrings Float64 Domain RepKey Selection.
From Stdlib Require Import ZArith Lia Bool Ascii String.
From stdpp Require Import base list gmap strings.

Open Scope string_scope.
Open Scope Z_scope.
Open Scope go_scope.

(** ** Total computations *)

(** The computation never panics, and its value satisfies [P]. *)
Definition always {R A} (m : rnd R A) (P : A -> Prop) : Prop :=
  forall r, exists a r', m r = Some (a, r') /\ P a.

Create HintDb always discriminated.

Section Always.
Context {R : Type} `{RandLaws R}.

Lemma always_ret {A} (a : A) (P : A -> Prop) : P a -> always (R := R) (rret a) P.
Proof. intros Ha r. exists a, r. auto. Qed.

Lemma always_bind {A B} (m : rnd R A) (k : A -> rnd R B) (P : A -> Prop) (Q : B -> Prop) :
  always m P -> (forall a, P a -> always (k a) Q) -> always (rbind m k) Q.
Proof.
  intros Hm Hk r. destruct (Hm r) as (a & r1 & E & Ha). destruct (Hk a Ha r1) as (b & r2 & E2 & Hb).
  exists b, r2. unfold rbind. now rewrite E.
Qed.

Lemma always_mono {A} (m : rnd R A) (P Q : A -> Prop) : always m P -> (forall a, P a -> Q a) -> always m Q.
Proof. intros Hm HPQ r. destruct (Hm r) as (a & r' & E & Ha). eauto 6. Qed.

Lemma always_Intn n : 0 < n -> always (R := R) (rand_Intn n) (fun i => 0 <= i < n).
Proof.
  intros Hn r. unfold rand_Intn. destruct (n <=? 0) eqn:E; breflect; [lia|].
  pose proof (Intn_range r n Hn) as Hr. destruct (src_Intn r n) as [i r']. cbn in Hr. eauto.
Qed.

Lemma always_index {A} (l : list A) i : 0 <= i < len l -> always (R := R) (at_index l i) (fun a => l !! Z.to_nat i = Some a).
Proof.
  intros Hi. unfold at_index. destruct (i <? 0) eqn:E; breflect; [lia|].
  destruct (lookup_lt_is_Some_2 l (Z.to_nat i)) as [a Ha]; [lia|]. rewrite Ha. now apply always_ret.
Qed.

Lemma always_index_In {A} (l : list A) i : 0 <= i < len l -> always (R := R) (at_index l i) (fun a => In a l).
Proof.
  intros Hi. eapply always_mono; [now apply always_index|]. intros a Ha.
  apply list_elem_of_In. eapply list_elem_of_lookup_2. exact Ha.
Qed.
End Always.

(** ** Grouping *)

Definition pool_endpoints (p : operatorPool) : list EndpointAddr := concat (map bg_endpoints (op_backends p)).
Definition pools_endpoints (ps : list operatorPool) : list EndpointAddr := concat (map pool_endpoints ps).

(** A backend group under construction or complete: its members share its key. *)
Record backend_ok (f : EndpointAddr -> string) (opKey : string) (b : backendGroup) : Prop := {
  bo_ne : bg_endpoints b <> [];
  bo_key : Forall (fun ep => backendKey ep = bg_key b /\ f ep = opKey) (bg_endpoints b);
}.

Record pool_ok (f : EndpointAddr -> string) (p : operatorPool) : Prop := {
  po_ne : op_backends p <> [];
  po_keys : NoDup (map bg_key (op_backends p));
  po_backends : Forall (backend_ok f (op_key p)) (op_backends p);
  po_entries : op_entries p = len (pool_endpoints p);
  po_units : op_units p = 0;
}.

Record pools_ok (f : EndpointAddr -> string) (ps : list operatorPool) : Prop := {
  pso_keys : NoDup (map op_key ps);
  pso_pools : Forall (pool_ok f) ps;
}.

Lemma add_backend_endpoints bKey ep bs :
  concat (map bg_endpoints (add_backend bKey ep bs)) ≡ₚ ep :: concat (map bg_endpoints bs).
Proof.
  induction bs as [|b bs IH]; [reflexivity|]. cbn. destruct (bg_key b =? bKey)%string; cbn.
  - rewrite <- app_assoc. cbn. symmetry. apply Permutation_middle.
  - rewrite IH. symmetry. apply Permutation_middle.
Qed.

Lemma add_backend_keys bKey ep bs :
  map bg_key (add_backend bKey ep bs) =
  if bool_decide (bKey ∈ map bg_key bs) then map bg_key bs else (map bg_key bs ++ [bKey])%list.
Proof.
  induction bs as [|b bs IH]; [reflexivity|]. cbn. destruct (String.eqb_spec (bg_key b) bKey) as [E|E]; cbn.
  - rewrite bool_decide_eq_true_2 by (rewrite E; left). reflexivity.
  - rewrite IH. destruct (decide (bKey ∈ map bg_key bs)).
    + rewrite !bool_decide_eq_true_2 by (try right; auto). reflexivity.
    + rewrite !bool_decide_eq_false_2 by (rewrite ?elem_of_cons; naive_solver). reflexivity.
Qed.

Lemma NoDup_snoc {A} (l : list A) x : NoDup l -> x ∉ l -> NoDup (l ++ [x]).
Proof.
  intros Hl Hx. apply NoDup_app. repeat split; [exact Hl| |apply NoDup_singleton].
  intros y Hy Hyx. apply list_elem_of_singleton in Hyx as ->. contradiction.
Qed.

Lemma add_backend_NoDup bKey ep bs : NoDup (map bg_key bs) -> NoDup (map bg_key (add_backend bKey ep bs)).
Proof. rewrite add_backend_keys. case_bool_decide; auto using NoDup_snoc. Qed.

Lemma add_backend_ok f opKey ep bs :
  f ep = opKey -> Forall (backend_ok f opKey) bs -> Forall (backend_ok f opKey) (add_backend (backendKey ep) ep bs).
Proof.
  intros Hf Hbs. induction Hbs as [|b bs Hb Hbs IH]; cbn.
  - repeat constructor; cbn; auto.
  - destruct (String.eqb_spec (bg_key b) (backendKey ep)) as [E|E]; constructor; auto.
    destruct Hb as [H1 H2]. split; cbn; [now destruct (bg_endpoints b)|].
    apply Forall_app. repeat constructor; auto.
Qed.

Lemma add_backend_ne bKey ep bs : add_backend bKey ep bs <> [].
Proof. destruct bs as [|b bs]; cbn; [discriminate|]. now destruct (_ =? _)%string. Qed.

Lemma add_endpoint_endpoints opKey bKey ep ps :
  pools_endpoints (add_endpoint opKey bKey ep ps) ≡ₚ ep :: pools_endpoints ps.
Proof.
  unfold pools_endpoints. induction ps as [|p ps IH]; [reflexivity|]. cbn. destruct (op_key p =? opKey)%string; cbn.
  - unfold pool_endpoints at 1. cbn [op_backends]. now rewrite add_backend_endpoints.
  - rewrite IH. symmetry. apply Permutation_middle.
Qed.

Lemma add_endpoint_keys opKey bKey ep ps :
  map op_key (add_endpoint opKey bKey ep ps) =
  if bool_decide (opKey ∈ map op_key ps) then map op_key ps else (map op_key ps ++ [opKey])%list.
Proof.
  induction ps as [|b bs IH]; [reflexivity|]. cbn. destruct (String.eqb_spec (op_key b) opKey) as [E|E]; cbn.
  - rewrite bool_decide_eq_true_2 by (rewrite E; left). reflexivity.
  - rewrite IH. destruct (decide (opKey ∈ map op_key bs)).
    + rewrite !bool_decide_eq_true_2 by (try right; auto). reflexivity.
    + rewrite !bool_decide_eq_false_2 by (rewrite ?elem_of_cons; naive_solver). reflexivity.
Qed.

Lemma add_endpoint_ok f ep ps :
  pools_ok f ps -> pools_ok f (add_endpoint (f ep) (backendKey ep) ep ps).
Proof.
  intros [Hk Hp]. split.
  - rewrite add_endpoint_keys. case_bool_decide; auto using NoDup_snoc.
  - clear Hk. induction Hp as [|p ps [P1 P2 P3 P4 P5] Hps IH]; cbn.
    + constructor; [|constructor]. split; cbn; [discriminate|apply NoDup_singleton| |reflexivity|reflexivity].
      constructor; [|constructor]. split; cbn; [discriminate|auto].
    + destruct (String.eqb_spec (op_key p) (f ep)) as [E|E]; constructor; auto; [|split; auto].
      split; cbn.
      * apply add_backend_ne.
      * now apply add_backend_NoDup.
      * rewrite E in *. now apply add_backend_ok.
      * rewrite P4. unfold pool_endpoints. cbn. rewrite add_backend_endpoints. cbn. lia.
      * exact P5.
Qed.

Section Grouping.
Context `{DomainLib}.

Lemma grouped_ok f eps :
  let ps := fold_left (fun ps ep => add_endpoint (f ep) (backendKey ep) ep ps) eps [] in
  pools_ok f ps /\ pools_endpoints ps ≡ₚ eps.
Proof.
  cbv zeta.
  assert (G : forall ps, pools_ok f ps ->
    pools_ok f (fold_left (fun ps ep => add_endpoint (f ep) (backendKey ep) ep ps) eps ps) /\
    pools_endpoints (fold_left (fun ps ep => add_endpoint (f ep) (backendKey ep) ep ps) eps ps) ≡ₚ (eps ++ pools_endpoints ps)%list).
  { induction eps as [|ep eps IH]; intros ps Hps; [auto|]. cbn [fold_left].
    destruct (IH _ (add_endpoint_ok f ep ps Hps)) as [I1 I2]. split; [exact I1|].
    rewrite I2, add_endpoint_endpoints. symmetry. apply Permutation_middle. }
  destruct (G []) as [G1 G2]; [split; constructor|]. split; [exact G1|].
  rewrite G2. cbn. now rewrite app_nil_r.
Qed.

(** A complete pool: positive backend weights, and units that are their sum. *)
Record weighed (f : EndpointAddr -> string) (weightCap : Z) (p : operatorPool) : Prop := {
  we_ne : op_backends p <> [];
  we_backends : Forall (backend_ok f (op_key p)) (op_backends p);
  we_weights : Forall (fun b => bg_weight b = backendWeight (len (bg_endpoints b)) weightCap /\ 1 <= bg_weight b) (op_backends p);
  we_units : op_units p = zsum bg_weight (op_backends p);
  we_entries : op_entries p = len (pool_endpoints p);
}.

Lemma backendWeight_pos n k : 0 < n -> 1 <= backendWeight n k <= n.
Proof. unfold backendWeight. intros Hn. case_ifs; breflect; try lia. Qed.

Lemma length_ne {A} (l : list A) : l <> [] -> 0 < len l.
Proof. destruct l; cbn; [congruence|lia]. Qed.

Lemma weigh_pool_ok f k p : pool_ok f p -> weighed f k (weigh_pool k p).
Proof.
  intros [P1 P2 P3 P4 P5]. split; cbn [weigh_pool op_backends op_units op_entries op_key].
  - destruct (op_backends p); cbn; congruence.
  - apply Forall_map. eapply Forall_impl; [exact P3|]. intros b [B1 B2]. split; auto.
  - apply Forall_map. eapply Forall_impl; [exact P3|]. intros b [B1 B2]. cbn. split; [reflexivity|].
    apply backendWeight_pos. now apply length_ne.
  - rewrite P5. lia.
  - rewrite P4. unfold pool_endpoints. cbn. now rewrite map_map.
Qed.

Lemma zsum_ge_one {A} (f : A -> Z) l : l <> [] -> (forall x, In x l -> 1 <= f x) -> 1 <= zsum f l.
Proof.
  destruct l as [|x l]; [congruence|]. intros _ Hf. rewrite zsum_cons.
  pose proof (Hf x (or_introl eq_refl)).
  pose proof (zsum_nonneg f l (fun y Hy => Z.le_trans _ _ _ Z.le_0_1 (Hf y (or_intror Hy)))). lia.
Qed.

Lemma weighed_units f k p : weighed f k p -> 1 <= op_units p.
Proof.
  intros [W1 W2 W3 W4 W5]. rewrite W4. apply zsum_ge_one; [exact W1|].
  rewrite Forall_forall in W3. intros b Hb. now apply W3, list_elem_of_In.
Qed.

Lemma fold_max_spec l : forall m0,
  let m := fold_left (fun m p => if m <? op_units p then op_units p else m) l m0 in
  m0 <= m /\ Forall (fun p => op_units p <= m) l /\ (m = m0 \/ Exists (fun p => op_units p = m) l).
Proof.
  induction l as [|p l IH]; intros m0; cbv zeta; cbn [fold_left]; [repeat split; auto; lia|].
  destruct (IH (if m0 <? op_units p then op_units p else m0)) as (I1 & I2 & I3). cbv zeta in *.
  set (m := fold_left _ l _) in *. destruct (m0 <? op_units p) eqn:E; breflect.
  - repeat split; [lia|constructor; [lia|exact I2]|]. right. destruct I3 as [->|I3]; [now left|now right].
  - repeat split; [lia|constructor; [lia|exact I2]|]. destruct I3 as [->|I3]; [now left|right; now right].
Qed.

(** What [groupPoolKeyed] returns. *)
Record grouping (f : EndpointAddr -> string) (weightCap : Z) (eps : list EndpointAddr)
    (pools : list operatorPool) (totalUnits maxUnits : Z) : Prop := {
  gr_partition : pools_endpoints pools ≡ₚ eps;
  gr_keys : NoDup (map op_key pools);
  gr_pools : Forall (weighed f weightCap) pools;
  gr_total : totalUnits = zsum op_units pools;
  gr_max : Forall (fun p => op_units p <= maxUnits) pools /\ (eps <> [] -> Exists (fun p => op_units p = maxUnits) pools);
}.

Lemma groupPoolKeyed_spec eps k keys :
  let '(pools, totalUnits, maxUnits) := groupPoolKeyed eps k keys in
  grouping (fun ep => resolveOperatorKey ep keys) k eps pools totalUnits maxUnits.
Proof.
  unfold groupPoolKeyed. set (f ep := resolveOperatorKey ep keys).
  destruct (grouped_ok f eps) as [[G1 G2] G3]. cbv zeta in *. set (ps := fold_left _ eps []) in *.
  assert (Hw : Forall (weighed f k) (map (weigh_pool k) ps))
    by (apply Forall_map; eapply Forall_impl; [exact G2|]; intros p Hp; now apply weigh_pool_ok).
  assert (Hp : pools_endpoints (map (weigh_pool k) ps) = pools_endpoints ps).
  { unfold pools_endpoints. rewrite map_map. f_equal. apply map_ext. intros p. unfold pool_endpoints. cbn. now rewrite map_map. }
  destruct (fold_max_spec (map (weigh_pool k) ps) 0) as (M1 & M2 & M3). cbv zeta in *.
  split; auto.
  - now rewrite Hp.
  - rewrite map_map. exact G1.
  - split; [exact M2|]. intros Hne. destruct M3 as [M3|M3]; [|exact M3].
    destruct ps as [|p ps'].
    { cbn in G3. apply Permutation_nil_l in G3. congruence. }
    cbn in M2 |- *. inversion M2; subst. inversion Hw; subst. pose proof (weighed_units _ _ _ H4). cbn in M3. lia.
Qed.
End Grouping.

(** ** Picks *)

Lemma concat_In {A} (l : list A) (ls : list (list A)) x : In l ls -> In x l -> In x (concat ls).
Proof. intros H1 H2. apply in_concat. eauto. Qed.

Lemma last_index {A} (l : list A) : l <> [] -> 0 <= len l - 1 < len l.
Proof. intros Hl. apply length_ne in Hl. lia. Qed.

Section Picks.
Context `{DomainLib} {R : Type} `{RandSource R} `{!RandLaws R}.
Context (f : EndpointAddr -> string) (weightCap : Z).

Lemma bg_pick_always b : bg_endpoints b <> [] -> always (bg_pick (R := R) b) (fun ep => In ep (bg_endpoints b)).
Proof.
  intros Hne. eapply always_bind; [apply always_Intn; now apply length_ne|].
  intros i Hi. now apply always_index_In.
Qed.

Lemma backend_at_In bs : forall idx b, backend_at idx bs = Some b -> In b bs.
Proof.
  induction bs as [|b0 bs IH]; intros idx b; cbn; [discriminate|].
  destruct (idx <? bg_weight b0); [intros [= <-]; auto|eauto].
Qed.

Lemma pick_of_backend p b :
  weighed f weightCap p -> In b (op_backends p) -> always (bg_pick (R := R) b) (fun ep => In ep (pool_endpoints p)).
Proof.
  intros Hw Hb. eapply always_mono.
  - apply bg_pick_always. pose proof (we_backends _ _ _ Hw) as Hf. rewrite Forall_forall in Hf.
    now apply Hf, list_elem_of_In.
  - intros ep Hep. eapply concat_In; [|exact Hep]. now apply in_map.
Qed.

Lemma pickEndpoint_always p : weighed f weightCap p -> always (pickEndpoint (R := R) p) (fun ep => In ep (pool_endpoints p)).
Proof.
  intros Hw. pose proof (we_ne _ _ _ Hw) as Hne. pose proof (length_ne _ Hne) as Hlen.
  pose proof (weighed_units _ _ _ Hw) as Hu. unfold pickEndpoint.
  destruct (len (op_backends p) =? 0) eqn:E; breflect; [lia|].
  assert (Hlast : always (let? b := at_index (op_backends p) (len (op_backends p) - 1) in bg_pick (R := R) b)
                    (fun ep => In ep (pool_endpoints p))).
  { eapply always_bind; [apply always_index_In; lia|]. intros b Hb. now apply pick_of_backend. }
  destruct (op_units p <=? 0); [exact Hlast|].
  eapply always_bind; [apply always_Intn; lia|]. intros idx _.
  destruct (backend_at idx (op_backends p)) as [b|] eqn:Eb; [|exact Hlast].
  apply pick_of_backend; [exact Hw|]. eapply backend_at_In. exact Eb.
Qed.

Lemma pool_at_In ps : forall idx p, pool_at idx ps = Some p -> In p ps.
Proof.
  induction ps as [|p0 ps IH]; intros idx p; cbn; [discriminate|].
  destruct (idx <? op_units p0); [intros [= <-]; auto|eauto].
Qed.

Lemma weighed_In pools p : Forall (weighed f weightCap) pools -> In p pools -> weighed f weightCap p.
Proof. rewrite Forall_forall. intros Hf Hp. now apply Hf, list_elem_of_In. Qed.

(** An endpoint of a pool of the list, with its operator. *)
Definition of_pools (pools : list operatorPool) (ep : EndpointAddr) (key : string) : Prop :=
  exists p, In p pools /\ op_key p = key /\ In ep (pool_endpoints p).

Lemma pickUniformOverUnits_always pools total :
  Forall (weighed f weightCap) pools -> pools <> [] -> 0 < total ->
  always (pickUniformOverUnits (R := R) pools total) (fun '(ep, key) => of_pools pools ep key).
Proof.
  intros Hw Hne Ht. unfold pickUniformOverUnits. pose proof (length_ne _ Hne).
  destruct ((total <=? 0) || (len pools =? 0)) eqn:E; [apply orb_true_iff in E as [E|E]; breflect; lia|].
  eapply always_bind; [now apply always_Intn|]. intros idx _.
  eapply (always_bind _ _ (fun p => In p pools)).
  - destruct (pool_at idx pools) as [p|] eqn:Ep; [apply always_ret; eauto using pool_at_In|].
    apply always_index_In. lia.
  - intros p Hp. eapply always_bind; [apply pickEndpoint_always; eauto using weighed_In|].
    intros ep Hep. apply always_ret. exists p. auto.
Qed.

Lemma cumulative_index_range ws : forall target cum i j,
  cumulative_index target cum i ws = Some j -> i <= j < i + len ws.
Proof.
  induction ws as [|w ws IH]; intros target cum i j; cbn; [discriminate|].
  destruct (fltb target (fadd cum w)); [intros [= <-]; lia|]. intros E. apply IH in E. lia.
Qed.

Lemma weightedPick_always ws : ws <> [] -> always (weightedPick (R := R) ws) (fun i => 0 <= i < len ws).
Proof.
  intros Hne. pose proof (length_ne _ Hne). unfold weightedPick.
  eapply (always_bind _ _ (fun _ => True)).
  - intros r. unfold rand_Float64. destruct (src_Float64 r). eauto.
  - intros x _. destruct (cumulative_index _ _ _ _) as [i|] eqn:E; apply always_ret; [|lia].
    apply cumulative_index_range in E. lia.
Qed.

Lemma pick_by_weights_always pools ws :
  Forall (weighed f weightCap) pools -> pools <> [] -> List.length ws = List.length pools ->
  always (pick_by_weights (R := R) pools ws) (fun '(ep, key, _) => of_pools pools ep key).
Proof.
  intros Hw Hne Hl. pose proof (length_ne _ Hne).
  eapply always_bind; [apply weightedPick_always; intros ->; cbn in Hl; lia|]. intros i Hi. cbv beta in Hi.
  eapply always_bind; [apply always_index_In; lia|]. intros p Hp.
  eapply always_bind; [apply pickEndpoint_always; eauto using weighed_In|]. intros ep Hep.
  apply always_ret. exists p. auto.
Qed.

Lemma fill_passes_length {N} `{Num N} n cap : forall ws : list (N * option N), List.length (fill_passes n cap ws) = List.length ws.
Proof.
  induction n as [|n IH]; intros ws; cbn; [reflexivity|]. unfold fill_pass.
  destruct (measure_pass cap ws) as [[e r] o]. destruct (negb o); [reflexivity|].
  destruct (n_leb r n_zero); [reflexivity|]. now rewrite IH, length_map.
Qed.

Lemma pickWeightedFromPools_always g eps pools total mx share :
  grouping f weightCap eps pools total mx -> eps <> [] ->
  always (pickWeightedFromPools (R := R) g pools total mx share) (fun '(ep, key, _) => of_pools pools ep key).
Proof.
  intros [G1 G2 G3 G4 G5] Hne.
  assert (Hp : pools <> []) by (intros ->; cbn in G1; apply Permutation_nil_l in G1; congruence).
  pose proof (length_ne _ Hp).
  assert (Ht : 0 < total).
  { assert (1 <= zsum op_units pools); [|lia]. apply zsum_ge_one; [exact Hp|]. intros p Hin.
    eapply weighed_units, weighed_In; eauto. }
  unfold pickWeightedFromPools.
  destruct ((len pools =? 0) || (total <=? 0)) eqn:E; [apply orb_true_iff in E as [E|E]; breflect; lia|].
  set (enabled := (1 <? len pools) && fgtb share f_zero && fltb share f_one).
  set (infeasible := enabled && fleb _ f_one). cbv zeta.
  destruct (infeasible && g_capInfeasibleForcesUniform g).
  { apply pick_by_weights_always; auto. now rewrite length_map. }
  destruct (negb enabled || _).
  - eapply always_bind; [now apply pickUniformOverUnits_always|]. intros [ep key] Hep. now apply always_ret.
  - apply pick_by_weights_always; auto. unfold waterFillToCap, starting_weights.
    now rewrite length_map, fill_passes_length, length_map.
Qed.
End Picks.

Lemma of_pools_In f k eps pools total mx ep key :
  grouping f k eps pools total mx -> of_pools pools ep key -> In ep eps /\ f ep = key.
Proof.
  intros [G1 _ G3 _ _] (p & Hp & <- & Hep). split.
  - eapply Permutation_in; [exact G1|]. eapply concat_In; [|exact Hep]. now apply in_map.
  - pose proof (weighed_In f k pools p G3 Hp) as Hw. unfold pool_endpoints in Hep.
    apply in_concat in Hep as (l & Hl & Hep). apply in_map_iff in Hl as (b & <- & Hb).
    pose proof (we_backends _ _ _ Hw) as Hf. rewrite Forall_forall in Hf.
    destruct (Hf b) as [_ Hk]; [now apply list_elem_of_In|]. rewrite Forall_forall in Hk.
    now apply Hk, list_elem_of_In.
Qed.

Section Selectors.
Context `{DomainLib} {R : Type} `{RandSource R} `{!RandLaws R}.

Lemma len_zero {A} (l : list A) : l <> [] -> (len l =? 0) = false.
Proof. intros Hl. apply Z.eqb_neq. apply length_ne in Hl. lia. Qed.

Lemma pickBackend_always g sid eps keys cap :
  eps <> [] ->
  always (pickBackend (R := R) g sid eps keys cap)
    (fun bp => In (bp_selected bp) eps /\ bp_operator bp = resolveOperatorKey (bp_selected bp) keys).
Proof.
  intros Hne. unfold pickBackend. rewrite len_zero by exact Hne.
  pose proof (groupPoolKeyed_spec eps (effectiveWeightCap g sid) keys) as Hg.
  destruct (groupPoolKeyed eps (effectiveWeightCap g sid) keys) as [[pools total] mx].
  eapply always_bind; [apply (pickWeightedFromPools_always _ _ g eps pools total mx _ Hg Hne)|].
  intros [[ep key] b] Hep. apply always_ret. cbn.
  destruct (of_pools_In _ _ _ _ _ _ _ _ Hg Hep) as [? <-]. auto.
Qed.

Lemma pick_selected_always g sid eps keys cap :
  eps <> [] -> always (let? p := pickBackend (R := R) g sid eps keys cap in rret (bp_selected p)) (fun ep => In ep eps).
Proof.
  intros Hne. eapply always_bind; [now apply pickBackend_always|]. intros bp [Hin _]. now apply always_ret.
Qed.

Lemma band_always g band share :
  band <> [] -> always (SelectBandWithConcentrationCap (R := R) g band share) (fun '(ep, o) => In ep band /\ o <> BandCapNoCandidates).
Proof.
  intros Hne. unfold SelectBandWithConcentrationCap. rewrite len_zero by exact Hne. cbv zeta.
  assert (Hun : forall o, o <> BandCapNoCandidates ->
    always (let? ep := PickBackendUniform (R := R) g band in rret (ep, o)) (fun '(ep, o) => In ep band /\ o <> BandCapNoCandidates)).
  { intros o Ho. eapply always_bind; [now apply (pick_selected_always g "" band None false)|].
    intros ep Hep. now apply always_ret. }
  destruct (_ || _); [now apply Hun|].
  destruct (len band =? 1) eqn:E1; breflect.
  { eapply always_bind; [apply always_index_In; lia|]. intros ep Hep. apply always_ret. now split. }
  pose proof (groupPoolKeyed_spec band (effectiveWeightCap g "") None) as Hg. unfold groupPool.
  destruct (groupPoolKeyed band (effectiveWeightCap g "") None) as [[pools total] mx].
  destruct (len pools <=? 1); [now apply Hun|].
  eapply always_bind; [apply (pickWeightedFromPools_always _ _ g band pools total mx _ Hg Hne)|].
  intros [[ep key] b] Hep. destruct (ep =? "")%string; [now apply Hun|]. apply always_ret.
  destruct (of_pools_In _ _ _ _ _ _ _ _ Hg Hep). split; [assumption|now destruct b].
Qed.

Lemma capped_always g sid eps share :
  eps <> [] -> always (SelectWithConcentrationCap (R := R) g sid eps share) (fun ep => In ep eps).
Proof.
  intros Hne. unfold SelectWithConcentrationCap. rewrite len_zero by exact Hne. cbv zeta.
  destruct (_ || _).
  { eapply always_bind; [apply always_Intn; now apply length_ne|]. intros i Hi. now apply always_index_In. }
  pose proof (groupPoolKeyed_spec eps (effectiveWeightCap g sid) None) as Hg. unfold groupPool.
  destruct (groupPoolKeyed eps (effectiveWeightCap g sid) None) as [[pools total] mx].
  eapply always_bind; [apply (pickWeightedFromPools_always _ _ g eps pools total mx _ Hg Hne)|].
  intros [[ep key] b] Hep. apply always_ret. eapply of_pools_In; eauto.
Qed.

Lemma operator_uniform_always g sid eps :
  eps <> [] -> always (SelectOperatorUniform (R := R) g sid eps) (fun ep => In ep eps).
Proof.
  intros Hne. unfold SelectOperatorUniform. rewrite len_zero by exact Hne. cbv zeta.
  destruct (len eps =? 1) eqn:E1; breflect; [apply always_index_In; lia|].
  pose proof (groupPoolKeyed_spec eps (effectiveWeightCap g sid) None) as Hg. unfold groupPool.
  destruct (groupPoolKeyed eps (effectiveWeightCap g sid) None) as [[pools total] mx].
  assert (Hp : pools <> []) by (intros ->; pose proof (gr_partition _ _ _ _ _ _ Hg) as G; cbn in G;
    apply Permutation_nil_l in G; congruence).
  eapply always_bind; [apply always_Intn; now apply length_ne|]. intros i Hi.
  eapply always_bind; [now apply always_index_In|]. intros p Hin. cbv beta in Hin.
  eapply always_mono; [eapply (pickEndpoint_always _ _ p), weighed_In; [apply Hg|exact Hin]|].
  intros ep Hep. cbv beta in Hep. eapply of_pools_In; [exact Hg|]. exists p. auto.
Qed.

(** ** Shares *)

(** The values of a range that a predicate accepts. *)
Definition count_upto (n : Z) (P : Z -> bool) : Z := Z.of_nat (List.length (List.filter P (map Z.of_nat (seq 0 (Z.to_nat n))))).

Lemma count_split (a b : Z) P : 0 <= a -> 0 <= b -> count_upto (a + b) P = count_upto a P + count_upto b (fun i => P (i + a)).
Proof.
  intros Ha Hb. unfold count_upto. rewrite Z2Nat.inj_add by assumption. rewrite seq_app, map_app, List.filter_app, length_app.
  rewrite Nat2Z.inj_add. f_equal. f_equal. rewrite <- (Nat.add_0_l (Z.to_nat a)). cbn [Nat.add].
  rewrite <- (Nat.add_0_r (Z.to_nat a)). rewrite <- fmap_add_seq, map_map.
  generalize (seq 0 (Z.to_nat b)). intros l. induction l as [|x l IH]; [reflexivity|]. cbn.
  replace (Z.of_nat (Z.to_nat a + x)) with (Z.of_nat x + a) by lia. destruct (P (Z.of_nat x + a)); cbn; lia.
Qed.

Lemma count_const n (P : Z -> bool) (b : bool) : 0 <= n -> (forall i, 0 <= i < n -> P i = b) -> count_upto n P = if b then n else 0.
Proof.
  intros Hn HP. unfold count_upto.
  assert (E : forall l, Forall (fun x => P x = b) l -> List.length (List.filter P l) = if b then List.length l else 0%nat).
  { induction 1 as [|x l Hx Hl IH]; [now destruct b|]. cbn. rewrite Hx. destruct b; cbn; lia. }
  rewrite E.
  - destruct b; [|reflexivity]. rewrite length_map, length_seq. lia.
  - apply Forall_map, Forall_forall. intros x Hx%elem_of_seq. apply HP. lia.
Qed.

Lemma count_ext n P Q : (forall i, 0 <= i < n -> P i = Q i) -> count_upto n P = count_upto n Q.
Proof.
  intros HPQ. unfold count_upto. f_equal. f_equal. apply filter_ext_in. intros i Hi.
  apply in_map_iff in Hi as (x & <- & Hx%in_seq). apply HPQ. lia.
Qed.

Definition drawn_key (pools : list operatorPool) (key : string) (idx : Z) : bool :=
  match pool_at idx pools with Some p => (op_key p =? key)%string | None => false end.

Definition units_of (key : string) (pools : list operatorPool) : Z :=
  zsum (fun p => if (op_key p =? key)%string then op_units p else 0) pools.

(** Of the units of the pool, exactly those of an operator select it. *)
Lemma drawn_share pools key :
  Forall (fun p => 0 <= op_units p) pools ->
  count_upto (zsum op_units pools) (drawn_key pools key) = units_of key pools.
Proof.
  unfold units_of. induction 1 as [|p pools Hp Hps IH]; [reflexivity|]. rewrite !zsum_cons.
  assert (Hn : 0 <= zsum op_units pools).
  { apply zsum_nonneg. rewrite Forall_forall in Hps. intros q Hq. now apply Hps, list_elem_of_In. }
  rewrite count_split by assumption. f_equal.
  - rewrite (count_const _ _ (op_key p =? key)%string); [reflexivity|assumption|].
    intros i Hi. unfold drawn_key. cbn. destruct (i <? op_units p) eqn:E; breflect; [reflexivity|lia].
  - rewrite <- IH. apply count_ext. intros i Hi. unfold drawn_key. cbn.
    destruct (i + op_units p <? op_units p) eqn:E; breflect; [lia|]. now replace (i + op_units p - op_units p) with i by lia.
Qed.

(** With the shipped (uncapped) weights an operator's units are its
    registrations. *)
Lemma concat_length {A} (ls : list (list A)) : len (concat ls) = zsum (fun l => len l) ls.
Proof. induction ls as [|l ls IH]; [reflexivity|]. cbn [concat]. rewrite length_app, zsum_cons, <- IH. lia. Qed.

Lemma zsum_map {A B} (g : A -> B) (h : B -> Z) l : zsum h (map g l) = zsum (fun x => h (g x)) l.
Proof. induction l as [|x l IH]; [reflexivity|]. cbn [map]. now rewrite !zsum_cons, IH. Qed.

Lemma uncapped_units f p : weighed f 0 p -> op_units p = len (pool_endpoints p).
Proof.
  intros [W1 W2 W3 W4 W5]. rewrite W4. unfold pool_endpoints. rewrite concat_length, zsum_map.
  apply zsum_ext. intros b Hb. rewrite Forall_forall in W2, W3.
  destruct (W3 b) as [-> _]; [now apply list_elem_of_In|].
  destruct (W2 b) as [Hne _]; [now apply list_elem_of_In|]. apply length_ne in Hne.
  unfold backendWeight. case_ifs; breflect; try lia.
Qed.

Definition registrations (f : EndpointAddr -> string) (key : string) (eps : list EndpointAddr) : Z :=
  len (List.filter (fun ep => (f ep =? key)%string) eps).

Lemma filter_const {A} (P : A -> bool) b l : Forall (fun x => P x = b) l -> List.filter P l = if b then l else [].
Proof. induction 1 as [|x l Hx Hl IH]; [now destruct b|]. cbn. rewrite Hx, IH. now destruct b. Qed.

Lemma pool_members f k p : weighed f k p -> Forall (fun ep => f ep = op_key p) (pool_endpoints p).
Proof.
  intros Hw. apply Forall_concat, Forall_map. eapply Forall_impl; [apply Hw|]. intros b [_ Hb].
  eapply Forall_impl; [exact Hb|]. now intros ep [_ ?].
Qed.

Lemma units_registrations f key pools :
  Forall (weighed f 0) pools -> units_of key pools = registrations f key (pools_endpoints pools).
Proof.
  unfold units_of, registrations, pools_endpoints. induction 1 as [|p pools Hp Hps IH]; [reflexivity|].
  rewrite zsum_cons, IH. cbn [map concat]. rewrite List.filter_app, length_app, Nat2Z.inj_add. f_equal.
  rewrite (filter_const _ (op_key p =? key)%string); [rewrite (uncapped_units f) by exact Hp; now destruct (_ =? _)%string|].
  eapply Forall_impl; [exact (pool_members f 0 p Hp)|]. intros ep Hep. cbv beta in Hep |- *. now rewrite Hep.
Qed.

Lemma registrations_perm f key l1 l2 : l1 ≡ₚ l2 -> registrations f key l1 = registrations f key l2.
Proof.
  unfold registrations. induction 1 as [|x l l' Hl IH|x y l|l l' l'' H1' IH1 H2' IH2]; cbn; [reflexivity| | |congruence].
  - destruct (_ =? _)%string; cbn; lia.
  - destruct (f x =? key)%string, (f y =? key)%string; cbn; lia.
Qed.

(** ** Selection without replacement *)

Lemma insert_exchange {A} (l : list A) i a b : l !! i = Some a -> a :: <[i := b]> l ≡ₚ b :: l.
Proof.
  intros Hi. rewrite <- (take_drop_middle l i a Hi) at 2.
  rewrite insert_take_drop by (eapply lookup_lt_Some; exact Hi).
  rewrite <- !Permutation_middle. apply perm_swap.
Qed.

Lemma swap_perm {A} (l : list A) i j a b :
  l !! i = Some a -> l !! j = Some b -> <[j := a]> (<[i := b]> l) ≡ₚ l.
Proof.
  intros Hi Hj. apply (Permutation_cons_inv (a := b)).
  assert (Hj' : (<[i := b]> l) !! j = Some b).
  { destruct (decide (i = j)) as [->|Hne]; [|now rewrite list_lookup_insert_ne].
    apply list_lookup_insert_eq. eapply lookup_lt_Some. exact Hi. }
  rewrite (insert_exchange _ j b a Hj'). now apply insert_exchange.
Qed.

Lemma shuffle_always endpoints fuel : forall i copy,
  copy ≡ₚ endpoints -> 0 <= i -> i + Z.of_nat fuel <= len endpoints ->
  always (shuffle_loop (R := R) fuel i copy (take (Z.to_nat i) copy))
    (fun l => exists copy', copy' ≡ₚ endpoints /\ l = take (Z.to_nat (i + Z.of_nat fuel)) copy').
Proof.
  induction fuel as [|fuel IH]; intros i copy Hp Hi Hl.
  { apply always_ret. exists copy. now rewrite Z.add_0_r. }
  assert (Hc : len copy = len endpoints) by (now rewrite Hp). cbn [shuffle_loop].
  eapply always_bind; [apply always_Intn; lia|]. intros k Hk. cbv beta in Hk.
  eapply always_bind; [apply always_index; lia|]. intros a Ha.
  eapply always_bind; [apply always_index; lia|]. intros b Hb. cbv beta in Ha, Hb.
  set (copy' := <[Z.to_nat (k + i) := a]> (<[Z.to_nat i := b]> copy)).
  assert (Hp' : copy' ≡ₚ copy) by (now apply swap_perm).
  assert (Hc' : len copy' = len copy) by (now rewrite Hp').
  assert (Htake : take (Z.to_nat i) copy' = take (Z.to_nat i) copy)
    by (unfold copy'; rewrite !take_insert_ge by lia; reflexivity).
  eapply always_bind; [apply always_index; lia|]. intros x Hx. cbv beta in Hx.
  eapply always_mono.
  - replace (take (Z.to_nat i) copy ++ [x])%list with (take (Z.to_nat (i + 1)) copy').
    + apply IH; [now rewrite Hp'|lia|lia].
    + rewrite <- Htake. replace (Z.to_nat (i + 1)) with (S (Z.to_nat i)) by lia. now apply take_S_r.
  - intros l (c & Hc1 & ->). exists c. split; [exact Hc1|]. f_equal. lia.
Qed.
End Selectors.

Section Diversity.
Context `{DomainLib} {R : Type} `{RandSource R} `{!RandLaws R}.
Context (g : settings) (sid : string) (available : list EndpointAddr).

Abbreviation tld := ExtractTLDFromEndpointAddr.

(** Each endpoint after the first has a TLD of its own whenever one was left. *)
Definition diverse (l : list EndpointAddr) : Prop :=
  forall i ep, l !! i = Some ep -> (0 < i)%nat ->
    (exists e, In e available /\ ~ In e (take i l) /\ ~ In (tld e) (map tld (take i l))) ->
    ~ In (tld ep) (map tld (take i l)).

Record div_inv (used : gset string) (remaining selected : list EndpointAddr) : Prop := {
  di_nodup : NoDup selected;
  di_sub : forall e, In e selected -> In e available;
  di_rem : forall e, In e remaining <-> In e available /\ ~ In e selected;
  di_used : forall t, t ∈ used <-> In t (map tld selected);
  di_diverse : diverse selected;
}.

Lemma tld_lookup e : In e available -> GetEndpointTLDs available !! e = Some (tld e).
Proof. intros He. rewrite GetEndpointTLDs_lookup, decide_True by (now apply list_elem_of_In). reflexivity. Qed.

Lemma diverse_snoc l ep :
  diverse l ->
  ((0 < List.length l)%nat -> (exists e, In e available /\ ~ In e l /\ ~ In (tld e) (map tld l)) -> ~ In (tld ep) (map tld l)) ->
  diverse (l ++ [ep]).
Proof.
  intros Hl Hep i x Hx Hi Hex.
  destruct (decide (i < List.length l)%nat) as [Hlt|Hge].
  - rewrite take_app_le in Hex |- * by lia. rewrite lookup_app_l in Hx by exact Hlt. eapply Hl; eauto.
  - assert (i = List.length l) as ->.
    { apply lookup_lt_Some in Hx. rewrite length_app in Hx. cbn in Hx. lia. }
    rewrite take_app_length in Hex |- *. rewrite lookup_app_r in Hx by lia.
    rewrite Nat.sub_diag in Hx. injection Hx as <-. auto.
Qed.

Lemma div_inv_step used remaining selected ep :
  div_inv used remaining selected -> In ep remaining ->
  ((0 < List.length selected)%nat ->
   (exists e, In e available /\ ~ In e selected /\ ~ In (tld e) (map tld selected)) -> ~ In (tld ep) (map tld selected)) ->
  div_inv ({[tld ep]} ∪ used) (List.filter (fun e => negb (e =? ep)%string) remaining) (selected ++ [ep]).
Proof.
  intros [D1 D2 D3 D4 D5] Hep Hdiv. apply D3 in Hep as [Ha Hn]. split.
  - apply NoDup_snoc; [exact D1|]. now rewrite list_elem_of_In.
  - intros e [He|[<-|[]]]%in_app_or; auto.
  - intros e. rewrite filter_In, D3, in_app_iff, negb_true_iff, String.eqb_neq. cbn. naive_solver.
  - intros t. rewrite elem_of_union, elem_of_singleton, D4, map_app, in_app_iff. cbn. naive_solver.
  - now apply diverse_snoc.
Qed.

(** The pick of one iteration: from the remaining endpoints, and of a new TLD
    when there is one. *)
Lemma diversity_pick i used remaining selected :
  div_inv used remaining selected -> i = len selected -> remaining <> [] ->
  always (R := R)
    (if (0 <? i) && negb (bool_decide (used = ∅)) then
       let? r := selectEndpointWithDifferentTLD g sid remaining (GetEndpointTLDs available) used in
       match r with
       | Some ep => rret ep
       | None => let? p := pickBackend g sid remaining (Some (GetEndpointTLDs available)) false in rret (bp_selected p)
       end
     else let? p := pickBackend g sid remaining (Some (GetEndpointTLDs available)) true in rret (bp_selected p))
    (fun ep => In ep remaining /\
      ((0 < List.length selected)%nat ->
       (exists e, In e available /\ ~ In e selected /\ ~ In (tld e) (map tld selected)) -> ~ In (tld ep) (map tld selected))).
Proof.
  intros [D1 D2 D3 D4 D5] Hi Hne.
  destruct ((0 <? i) && negb (bool_decide (used = ∅))) eqn:E.
  - unfold selectEndpointWithDifferentTLD.
    set (cands := List.filter (different_tld (GetEndpointTLDs available) used) remaining).
    assert (Hc : forall e, In e cands <-> In e remaining /\ ~ In (tld e) (map tld selected)).
    { intros e. unfold cands. rewrite filter_In. split; intros [H1 H2]; (split; [exact H1|]);
        unfold different_tld in *; rewrite tld_lookup in * by (now apply D3 in H1).
      - apply negb_true_iff, bool_decide_eq_false_1 in H2. now rewrite <- D4.
      - apply negb_true_iff, bool_decide_eq_false_2. now rewrite D4. }
    destruct (len cands =? 0) eqn:El.
    + breflect. assert (Hnil : cands = []) by (destruct cands; [reflexivity|cbn in El; lia]).
      eapply (always_bind _ _ (fun r => r = None)); [now apply always_ret|]. intros r ->.
      eapply always_mono; [now apply pick_selected_always|]. intros ep Hep. split; [exact Hep|].
      intros _ (e & He1 & He2 & He3). exfalso.
      assert (Hin : In e cands) by (apply Hc; split; [now apply D3|exact He3]). now rewrite Hnil in Hin.
    + breflect. assert (Hcne : cands <> []) by (intros Hn; rewrite Hn in El; now apply El).
      eapply (always_bind _ _ (fun r => exists ep, r = Some ep /\ In ep cands)).
      { eapply always_bind; [now apply pickBackend_always|]. intros bp [Hin _]. apply always_ret. eauto. }
      intros r (ep & -> & Hep). apply always_ret. apply Hc in Hep as [J1 J2]. auto.
  - eapply always_mono; [now apply pick_selected_always|]. intros ep Hep. split; [exact Hep|].
    intros Hpos. exfalso. apply andb_false_iff in E as [E|E]; breflect; [lia|].
    apply bool_decide_eq_true_1 in E. destruct selected as [|x selected]; [cbn in Hpos; lia|].
    assert (Hx : tld x ∈ used) by (apply D4; now left). rewrite E in Hx. now apply not_elem_of_empty in Hx.
Qed.

Lemma diversity_always fuel : forall i used remaining selected,
  div_inv used remaining selected -> i = len selected ->
  always (diversity_loop (R := R) fuel i g sid (GetEndpointTLDs available) used remaining selected)
    (fun l => NoDup l /\ (forall e, In e l -> In e available) /\ diverse l /\
      (List.length l = (List.length selected + fuel)%nat \/
       (List.length l <= List.length selected + fuel)%nat /\ forall e, In e available -> In e l)).
Proof.
  induction fuel as [|fuel IH]; intros i used remaining selected Hinv Hi.
  { apply always_ret. destruct Hinv. repeat split; auto; left; lia. }
  cbn [diversity_loop]. destruct (negb (0 <? len remaining)) eqn:E.
  { apply always_ret. destruct Hinv as [D1 D2 D3 D4 D5]. repeat split; auto. right. split; [lia|]. intros e He.
    breflect. destruct (in_dec String.string_dec e selected) as [|Hn]; [assumption|].
    assert (Hin : In e remaining) by (now apply D3). destruct remaining; [contradiction|cbn in E; lia]. }
  breflect. eapply always_bind; [apply diversity_pick; [exact Hinv|exact Hi|intros ->; cbn in E; lia]|].
  intros ep [Hep Hdiv]. cbv beta in Hep, Hdiv.
  rewrite tld_lookup by (apply (di_rem _ _ _ Hinv) in Hep; tauto).
  eapply always_mono; [apply IH; [now apply div_inv_step|rewrite length_app; cbn; lia]|].
  intros l (H1 & H2 & H3 & H4). rewrite length_app in H4. cbn in H4. repeat split; auto.
  destruct H4 as [H4|[H4 H5]]; [left; lia|right; split; [lia|exact H5]].
Qed.
End Diversity.

(** ** The properties *)

Section Claims.
Context `{DomainLib}.

(** Grouping partitions the pool: every endpoint lands in exactly one
    backend of exactly one operator, operators are distinct, the members of a
    backend share its URL identity and its operator, each backend weighs
    min(registrations, cap) and the unit totals are the sums of the weights. *)
Theorem grouping_partitions (eps : list EndpointAddr) (weightCap : Z) (keys : option (gmap EndpointAddr string)) :
  let '(pools, totalUnits, maxUnits) := groupPoolKeyed eps weightCap keys in
  pools_endpoints pools ≡ₚ eps /\
  NoDup (map op_key pools) /\
  Forall (weighed (fun ep => resolveOperatorKey ep keys) weightCap) pools /\
  totalUnits = zsum op_units pools /\
  Forall (fun p => op_units p <= maxUnits) pools.
Proof.
  pose proof (groupPoolKeyed_spec eps weightCap keys) as Hg.
  destruct (groupPoolKeyed eps weightCap keys) as [[pools total] mx].
  destruct Hg as [G1 G2 G3 G4 [G5 _]]. auto.
Qed.

(** Shares are registrations: with the shipped weights (no per-backend cap)
    the pool has one unit per registration, and of the values the unit draw can
    take exactly as many select an operator as it has registrations. *)
Theorem uncapped_share_is_registrations (eps : list EndpointAddr) (keys : option (gmap EndpointAddr string)) (operator : string) :
  let '(pools, totalUnits, _) := groupPoolKeyed eps 0 keys in
  totalUnits = len eps /\
  count_upto totalUnits (drawn_key pools operator) = registrations (fun ep => resolveOperatorKey ep keys) operator eps.
Proof.
  pose proof (groupPoolKeyed_spec eps 0 keys) as Hg.
  destruct (groupPoolKeyed eps 0 keys) as [[pools total] mx]. destruct Hg as [G1 G2 G3 G4 _]. split.
  - rewrite G4, <- G1. unfold pools_endpoints. rewrite concat_length, zsum_map. apply zsum_ext.
    intros p Hp. eapply uncapped_units, weighed_In; eauto.
  - rewrite G4, drawn_share.
    + rewrite (units_registrations _ _ _ G3). now apply registrations_perm.
    + eapply Forall_impl; [exact G3|]. intros p Hp. apply weighed_units in Hp. lia.
Qed.

Context {R : Type} `{RandSource R} (laws : RandLaws R).

(** The serving pick is total: for any settings, any cap value (NaN and
    infinities included) and any draws, picking from a non-empty pool never
    panics and returns an endpoint of the pool with its own operator. *)
Theorem serving_pick_total (g : settings) (sid : string) (eps : list EndpointAddr)
    (keys : option (gmap EndpointAddr string)) (applyCap : bool) :
  eps <> [] ->
  always (pickBackend (R := R) g sid eps keys applyCap)
    (fun bp => In (bp_selected bp) eps /\ bp_operator bp = resolveOperatorKey (bp_selected bp) keys).
Proof. apply pickBackend_always. Qed.

(** The concentration cap never starves a retry: for any band, cap value
    and draws, the band pick never panics; on a non-empty band it returns a
    member of it, and it reports "no candidates" exactly on the empty band. *)
Theorem band_pick_never_starves (g : settings) (band : list EndpointAddr) (share : float64) :
  always (SelectBandWithConcentrationCap (R := R) g band share)
    (fun '(ep, outcome) => (band <> [] -> In ep band) /\ (outcome = BandCapNoCandidates <-> band = [])).
Proof.
  destruct (decide (band = [])) as [->|Hne].
  - apply always_ret. split; [congruence|tauto].
  - eapply always_mono; [now apply band_always|]. intros [ep o] [H1' H2']. split; [auto|]. split; congruence.
Qed.

Lemma random_select_always (endpoints : list EndpointAddr) (n : Z) :
  0 <= n <= max_int64 ->
  always (RandomSelectMultiple (R := R) endpoints n)
    (fun l => exists perm, perm ≡ₚ endpoints /\ l = take (Z.to_nat n) perm).
Proof.
  intros Hn. unfold RandomSelectMultiple. rewrite wrap64_id by (unfold in_int64, min_int64; lia). cbv zeta.
  destruct (len endpoints <=? n) eqn:E; breflect.
  - apply always_ret. exists endpoints. split; [reflexivity|]. rewrite take_ge by lia. reflexivity.
  - eapply always_mono; [apply (shuffle_always endpoints (Z.to_nat n) 0 endpoints); [reflexivity|lia|lia]|].
    intros l (c & Hc & ->). exists c. split; [exact Hc|]. f_equal. lia.
Qed.

(** The Fisher-Yates selection is a selection without replacement: it never
    panics and returns the first [min(n, length)] elements of some permutation
    of the endpoints. *)
Theorem random_select_without_replacement (endpoints : list EndpointAddr) (n : Z) :
  0 <= n <= max_int64 ->
  always (RandomSelectMultiple (R := R) endpoints n)
    (fun l => exists perm, perm ≡ₚ endpoints /\ l = take (Z.to_nat n) perm).
Proof. apply random_select_always. Qed.

Lemma diverse_select_always (g : settings) (sid : string) (available : list EndpointAddr) (n : Z) :
  0 <= n <= max_int64 ->
  always (SelectEndpointsWithDiversity (R := R) g sid available n)
    (fun l => NoDup l /\ (forall e, In e l -> In e available) /\ diverse available l /\
      (len l = n \/ len l <= n /\ forall e, In e available -> In e l)).
Proof.
  intros Hn. unfold SelectEndpointsWithDiversity. rewrite wrap64_id by (unfold in_int64, min_int64; lia).
  eapply always_mono; [apply diversity_always; [|reflexivity]|].
  - split; [constructor|intros e []|intros e; cbn; tauto| |intros i ep; now rewrite lookup_nil].
    intros t. cbn. split; [intros Ht; now apply not_elem_of_empty in Ht|tauto].
  - intros l (L1 & L2 & L3 & L4). cbn in L4. repeat split; auto.
    destruct L4 as [L4|[L4 L5]]; [left; lia|right; split; [lia|exact L5]].
Qed.

(** The TLD-diverse selection never panics; it returns distinct endpoints
    of the pool, as many as asked for unless it returns all of them, and each
    one after the first has a TLD not used before it whenever the endpoints
    left at that point had such a TLD. *)
Theorem diverse_selection (g : settings) (sid : string) (available : list EndpointAddr) (n : Z) :
  0 <= n <= max_int64 ->
  always (SelectEndpointsWithDiversity (R := R) g sid available n)
    (fun l => NoDup l /\ (forall e, In e l -> In e available) /\ diverse available l /\
      (len l = n \/ len l <= n /\ forall e, In e available -> In e l)).
Proof. apply diverse_select_always. Qed.
End Claims.

(** ** Witnesses: a counting source, and hosts with two-label operators *)

#[export] Instance counter_source : RandSource Z := {
  src_Intn r n := (r mod n, r + 1);
  src_Float64 r := (f64_frac 1 2, r + 1);
}.

#[export] Instance counter_laws : RandLaws Z.
Proof.
  split; [intros r n Hn; cbn; now apply Z.mod_pos_bound|intros r; split; reflexivity].
Qed.

#[export] Instance demo_domains : DomainLib := {
  url_hostname s := if has_prefix "https://" s then Some (str_drop 8 s) else None;
  is_ip _ := false;
  utf8_valid _ := true;
  etld_plus_one h := if contains_byte "."%char h then Some (fallbackDomainExtraction h) else None;
}.

Definition demo_pool : list EndpointAddr :=
  ["pokt1a-https://n1.big.com"; "pokt1b-https://n1.big.com"; "pokt1c-https://n2.big.com"; "pokt1d-https://x.small.io"].

Lemma serving_pick_total_witness :
  always (pickBackend (R := Z) initial_settings "eth" demo_pool None true)
    (fun bp => In (bp_selected bp) demo_pool /\ bp_operator bp = resolveOperatorKey (bp_selected bp) None) /\
  option_map (fun x => bp_operator x.1) (pickBackend (R := Z) initial_settings "eth" demo_pool None true 0) = Some "big.com".
Proof. split; [apply (serving_pick_total counter_laws); discriminate|vm_compute; reflexivity]. Defined.

Lemma band_pick_never_starves_witness :
  always (SelectBandWithConcentrationCap (R := Z) initial_settings demo_pool (f64_frac 1 2))
    (fun '(ep, outcome) => (demo_pool <> [] -> In ep demo_pool) /\ (outcome = BandCapNoCandidates <-> demo_pool = [])).
Proof. apply (band_pick_never_starves counter_laws). Defined.

Lemma random_select_without_replacement_witness :
  always (RandomSelectMultiple (R := Z) demo_pool 2)
    (fun l => exists perm, perm ≡ₚ demo_pool /\ l = take 2 perm).
Proof. apply (random_select_without_replacement counter_laws demo_pool 2). unfold max_int64. lia. Defined.

Lemma diverse_selection_witness :
  always (SelectEndpointsWithDiversity (R := Z) initial_settings "eth" demo_pool 2)
    (fun l => NoDup l /\ (forall e, In e l -> In e demo_pool) /\ diverse demo_pool l /\
      (len l = 2 \/ len l <= 2 /\ forall e, In e demo_pool -> In e l)) /\
  option_map fst (SelectEndpointsWithDiversity (R := Z) initial_settings "eth" demo_pool 2 0) =
    Some ["pokt1a-https://n1.big.com"; "pokt1d-https://x.small.io"].
Proof. split; [apply (diverse_selection counter_laws); unfold max_int64; lia|vm_compute; reflexivity]. Defined.
