(* ===== verification/WaterFill.v ===== *)
(** * The concentration cap, in exact arithmetic

    [waterFillToCap] (qos/selector/concentration_cap.go) run on the rationals:
    the program's text (Selection.v) with no rounding.  It conserves the total
    weight, never pushes a provider above its ceiling nor pulls one below the
    cap, and either enforces the cap or leaves nobody room to absorb more. *)

From S2P Require Import Prelude Float64 Selection.
From Stdlib Require Import ZArith QArith Lqa Bool List.
From stdpp Require Import base list.

Open Scope Q_scope.

#[export] Instance Num_Q : Num Q := {
  n_zero := 0;
  n_one := 1;
  n_eps := 1 # 1000000000;
  n_multiple := 3;
  n_add := Qplus;
  n_sub := Qminus;
  n_mul := Qmult;
  n_div := Qdiv;
  n_ltb x y := negb (Qle_bool y x);
  n_leb := Qle_bool;
}.

Abbreviation eps := (1 # 1000000000)%Q.

Lemma Qltb_true (x y : Q) : negb (Qle_bool y x) = true <-> x < y.
Proof.
  rewrite negb_true_iff, <- not_true_iff_false, Qle_bool_iff. split; [apply Qnot_le_lt|apply Qlt_not_le].
Qed.

Lemma Qltb_false (x y : Q) : negb (Qle_bool y x) = false <-> y <= x.
Proof. rewrite negb_false_iff. apply Qle_bool_iff. Qed.

(** Turn the boolean comparisons of the context into propositions. *)
Ltac qreflect :=
  repeat match goal with
    | H : negb (Qle_bool _ _) = true |- _ => apply Qltb_true in H
    | H : negb (Qle_bool _ _) = false |- _ => apply Qltb_false in H
    | H : Qle_bool _ _ = true |- _ => apply Qle_bool_iff in H
    end.

(** A fraction of a non-negative amount. *)
Lemma fraction_bounds (x y z : Q) : 0 <= x -> 0 <= y <= z -> 0 < z -> 0 <= x * y / z <= x.
Proof.
  intros Hx [Hy Hyz] Hz. split.
  - apply Qle_shift_div_l; [exact Hz|]. nra.
  - apply Qle_shift_div_r; [exact Hz|]. nra.
Qed.

Section Pass.
Context (cap : Q).
Abbreviation entry := (Q * option Q)%type.

Fixpoint total (ws : list entry) : Q := match ws with [] => 0 | x :: ws' => x.1 + total ws' end.

(** The sums of the first loop, in closed form. *)
Fixpoint excess_of (ws : list entry) : Q :=
  match ws with [] => 0 | x :: ws' => (if over cap x.1 then x.1 - cap else 0) + excess_of ws' end.
Fixpoint room_of (ws : list entry) : Q :=
  match ws with
  | [] => 0
  | x :: ws' => (if over cap x.1 then 0 else if n_ltb eps (room cap x.1 x.2) then room cap x.1 x.2 else 0) + room_of ws'
  end.

Lemma measure_fold ws : forall ex rs o,
  let '(ex', rs', o') := fold_left (measure_step cap) ws (ex, rs, o) in
  ex' == ex + excess_of ws /\ rs' == rs + room_of ws /\ o' = o || existsb (fun x => over cap x.1) ws.
Proof.
  induction ws as [|[w e] ws IH]; intros ex rs o; cbn [fold_left].
  { cbn. rewrite orb_false_r. repeat split; lra. }
  cbn [measure_step excess_of room_of existsb fst snd].
  destruct (over cap w).
  - specialize (IH (n_add ex (n_sub w cap)) rs true). destruct (fold_left _ ws _) as [[ex' rs'] o'].
    destruct IH as (I1 & I2 & ->). cbn in I1. rewrite orb_true_r. repeat split; lra.
  - change (n_ltb n_eps (room cap w e)) with (n_ltb eps (room cap w e)).
    destruct (n_ltb eps (room cap w e)).
    + specialize (IH ex (n_add rs (room cap w e)) o). destruct (fold_left _ ws _) as [[ex' rs'] o'].
      destruct IH as (I1 & I2 & ->). cbn [n_add Num_Q] in I2. repeat split; lra.
    + specialize (IH ex rs o). destruct (fold_left _ ws _) as [[ex' rs'] o'].
      destruct IH as (I1 & I2 & ->). repeat split; lra.
Qed.

Lemma measure_pass_spec ws :
  let '(ex, rs, o) := measure_pass cap ws in
  ex == excess_of ws /\ rs == room_of ws /\ o = existsb (fun x => over cap x.1) ws.
Proof.
  unfold measure_pass. pose proof (measure_fold ws n_zero n_zero false) as Hm.
  destruct (fold_left _ ws _) as [[ex rs] o]. destruct Hm as (H1 & H2 & H3). cbn in H1, H2. repeat split; [lra|lra|exact H3].
Qed.

Lemma over_iff w : over cap w = true <-> cap + eps < w.
Proof. unfold over. cbn. apply Qltb_true. Qed.
Lemma over_false w : over cap w = false <-> w <= cap + eps.
Proof. unfold over. cbn. apply Qltb_false. Qed.

(** A weight over the cap is an excess. *)
Lemma excess_pos ws : 0 <= excess_of ws /\ (existsb (fun x => over cap x.1) ws = true -> 0 < excess_of ws).
Proof.
  induction ws as [|[w e] ws [IH1 IH2]]; cbn [excess_of existsb fst]; [split; [lra|discriminate]|].
  destruct (over cap w) eqn:E; cbn [orb].
  - apply over_iff in E. split; [lra|intros _; lra].
  - split; [lra|]. intros Ho. specialize (IH2 Ho). lra.
Qed.

(** The limit a weight may be filled to, and its room. *)
Lemma room_le w e : room cap w e <= cap - w.
Proof. unfold room. cbn [n_ltb n_sub Num_Q]. destruct (negb _) eqn:E; qreflect; lra. Qed.

Lemma room_of_nonneg ws : 0 <= room_of ws /\
  (room_of ws <= 0 -> Forall (fun x => over cap x.1 = false -> room cap x.1 x.2 <= eps) ws).
Proof.
  induction ws as [|[w e] ws [IH1 IH2]]; cbn [room_of fst snd]; [split; [lra|constructor]|].
  destruct (over cap w) eqn:E.
  { split; [lra|]. intros H. constructor; [cbn [fst]; congruence|apply IH2; lra]. }
  destruct (n_ltb eps (room cap w e)) eqn:Er; cbn [n_ltb Num_Q] in Er; qreflect.
  - split; [lra|]. intros H. lra.
  - split; [lra|]. intros H. constructor; [intros _; exact Er|apply IH2; lra].
Qed.

(** Filling conserves the total. *)
Lemma total_refill ex rs ab ws :
  total (map (refill cap ex rs ab) ws) ==
  total ws - excess_of ws + excess_of ws * ((ex - ab) / ex) + ab * (room_of ws / rs).
Proof.
  induction ws as [|[w e] ws IH]; [cbn; unfold Qdiv; ring|].
  cbn [map total excess_of room_of fst snd]. rewrite IH. unfold refill.
  change (n_ltb n_eps (room cap w e)) with (n_ltb eps (room cap w e)).
  destruct (over cap w); [|destruct (n_ltb eps (room cap w e))];
    cbn [fst n_add n_sub n_mul n_div Num_Q]; unfold Qdiv; ring.
Qed.

Lemma total_pass ws ws' : fill_pass cap ws = Some ws' -> total ws' == total ws.
Proof.
  unfold fill_pass. pose proof (measure_pass_spec ws) as Hm. destruct (measure_pass cap ws) as [[ex rs] o].
  destruct Hm as (He & Hr & Ho). destruct (negb o) eqn:Eo; [discriminate|]. destruct (n_leb rs n_zero) eqn:El; [discriminate|].
  intros [= <-]. rewrite total_refill. apply negb_false_iff in Eo. rewrite Eo in Ho.
  pose proof (proj2 (excess_pos ws) (eq_sym Ho)) as Hpos.
  assert (Hrs : ~ rs == 0). { intros Hz. cbn in El. apply not_true_iff_false in El. apply El, Qle_bool_iff. lra. }
  rewrite <- He, <- Hr. field. split; [exact Hrs|lra].
Qed.

(** What may happen to one weight: an over-cap weight only comes down, and not
    below the cap; the others only go up, and not above the cap nor above the
    multiple of their entitlement. *)
Definition share_ceiling (e : option Q) : Q := match e with None => 1 | Some q => q * 3 end.

Definition moved (x x' : entry) : Prop :=
  x'.2 = x.2 /\
  (if over cap x.1 then cap <= x'.1 <= x.1
   else x.1 <= x'.1 /\ (x'.1 == x.1 \/ (x'.1 <= cap /\ x'.1 <= share_ceiling x.2))).

Lemma room_pos w e : 0 < room cap w e -> w + room cap w e <= cap /\ w + room cap w e <= share_ceiling e.
Proof.
  intros Hr. pose proof (room_le w e). split; [lra|]. unfold room, ceiling, share_ceiling in *.
  cbn [n_ltb n_sub n_mul n_one n_multiple Num_Q] in *. destruct e as [q|].
  - destruct (negb (Qle_bool w (q * 3))) eqn:E1; qreflect; destruct (negb _) eqn:E2 in Hr |- *; qreflect; lra.
  - destruct (negb _) eqn:E2 in Hr |- *; qreflect; lra.
Qed.

(** A weight filled up to its limit has no room left. *)
Lemma room_filled w e w' : 0 < room cap w e -> w' == w + room cap w e -> room cap w' e <= 0.
Proof.
  intros Hr Hw. unfold room, ceiling in *. cbn [n_ltb n_sub n_mul n_one n_multiple Num_Q] in *. destruct e as [q|].
  - destruct (negb (Qle_bool w (q * 3))) eqn:E1; qreflect;
    destruct (negb (Qle_bool w' (q * 3))) eqn:E3; qreflect;
    destruct (negb _) eqn:E2 in Hr, Hw; qreflect; destruct (negb _) eqn:E4; qreflect; lra.
  - destruct (negb _) eqn:E2 in Hr, Hw; qreflect; destruct (negb _) eqn:E4; qreflect; lra.
Qed.

Section Refill.
Context (ex rs ab : Q) (Hex : 0 < ex) (Hrs : 0 < rs) (Hab : 0 <= ab) (Hab1 : ab <= ex) (Hab2 : ab <= rs).

Lemma refill_over w e : over cap w = true ->
  exists w', refill cap ex rs ab (w, e) = (w', e) /\ cap <= w' <= w /\ (ab == ex -> w' == cap).
Proof.
  intros Ho. unfold refill. rewrite Ho. eexists. split; [reflexivity|]. apply over_iff in Ho.
  cbn [n_add n_sub n_mul n_div Num_Q].
  destruct (fraction_bounds (w - cap) (ex - ab) ex) as [F1 F2]; [lra|lra|lra|]. split; [lra|].
  intros ->. field. lra.
Qed.

Lemma refill_under w e : over cap w = false ->
  exists w', refill cap ex rs ab (w, e) = (w', e) /\ w <= w' /\
    ((room cap w e <= eps /\ w' = w) \/
     (eps < room cap w e /\ w' <= w + room cap w e /\ (ab == rs -> w' == w + room cap w e))).
Proof.
  intros Ho. unfold refill. rewrite Ho. change (n_ltb n_eps (room cap w e)) with (negb (Qle_bool (room cap w e) eps)).
  destruct (negb (Qle_bool (room cap w e) eps)) eqn:Er; qreflect; eexists; (split; [reflexivity|]).
  - cbn [n_add n_mul n_div Num_Q]. set (r := room cap w e) in *.
    destruct (fraction_bounds r ab rs) as [F1 F2]; [lra|lra|lra|].
    assert (Heq : ab * (r / rs) == r * ab / rs) by (unfold Qdiv; ring).
    split; [lra|]. right. split; [exact Er|]. split; [lra|]. intros ->. field. lra.
  - split; [lra|]. left. auto.
Qed.

Lemma refill_moved x : moved x (refill cap ex rs ab x).
Proof.
  destruct x as [w e]. unfold moved. cbn [fst snd]. destruct (over cap w) eqn:Ho.
  - destruct (refill_over w e Ho) as (w' & -> & Hw & _). auto.
  - destruct (refill_under w e Ho) as (w' & -> & Hw & [[_ ->]|(Hr & Hle & _)]); cbn [fst snd].
    + split; [reflexivity|]. split; [lra|]. left. reflexivity.
    + split; [reflexivity|]. split; [exact Hw|]. right. destruct (room_pos w e); [lra|]. split; lra.
Qed.

(** When all the excess was absorbed, no weight is over the cap; when all the
    room was used, nobody has room left. *)
Lemma refill_capped x : ab == ex -> over cap (refill cap ex rs ab x).1 = false.
Proof.
  intros He. destruct x as [w e]. destruct (over cap w) eqn:Ho.
  - destruct (refill_over w e Ho) as (w' & -> & _ & Hc). specialize (Hc He). apply over_false. cbn [fst]. lra.
  - destruct (refill_under w e Ho) as (w' & -> & Hw & [[_ ->]|(Hr & Hle & _)]); cbn [fst]; [exact Ho|].
    apply over_false. pose proof (room_le w e). lra.
Qed.

Lemma refill_settled x : ab == rs ->
  over cap (refill cap ex rs ab x).1 = false ->
  room cap (refill cap ex rs ab x).1 (refill cap ex rs ab x).2 <= eps.
Proof.
  intros He. destruct x as [w e]. destruct (over cap w) eqn:Ho.
  - destruct (refill_over w e Ho) as (w' & -> & Hw & _). intros _. cbn [fst snd]. pose proof (room_le w' e). lra.
  - destruct (refill_under w e Ho) as (w' & -> & Hw & [[Hr ->]|(Hr & _ & Hw')]); intros _; cbn [fst snd]; [exact Hr|].
    specialize (Hw' He). pose proof (room_filled w e w' ltac:(lra) Hw'). lra.
Qed.
End Refill.

Definition capped (ws : list entry) : Prop := Forall (fun x => over cap x.1 = false) ws.
Definition settled (ws : list entry) : Prop := Forall (fun x => over cap x.1 = false -> room cap x.1 x.2 <= eps) ws.

Lemma settled_room ws : settled ws -> room_of ws == 0.
Proof.
  induction 1 as [|[w e] ws Hx Hws IH]; cbn [room_of fst snd]; [reflexivity|]. cbn [fst snd] in Hx.
  destruct (over cap w); [lra|]. specialize (Hx eq_refl).
  destruct (n_ltb eps (room cap w e)) eqn:E; cbn [n_ltb Num_Q] in E; qreflect; lra.
Qed.

Lemma existsb_capped ws : existsb (fun x => over cap x.1) ws = false <-> capped ws.
Proof.
  unfold capped. rewrite <- not_true_iff_false, existsb_exists, Forall_forall. split.
  - intros Hn x Hx. apply not_true_iff_false. intros Ho. apply Hn. exists x. split; [now apply list_elem_of_In|exact Ho].
  - intros Hc (x & Hx & Ho). rewrite Hc in Ho; [discriminate|now apply list_elem_of_In].
Qed.

(** A pass that stops leaves the cap enforced or nobody with room. *)
Lemma pass_stops ws : fill_pass cap ws = None <-> capped ws \/ settled ws.
Proof.
  unfold fill_pass. pose proof (measure_pass_spec ws) as Hm. destruct (measure_pass cap ws) as [[ex rs] o].
  destruct Hm as (He & Hr & ->). rewrite <- existsb_capped.
  destruct (existsb (fun x => over cap x.1) ws) eqn:Eo; cbn [negb]; [|tauto].
  cbn [n_leb n_zero Num_Q]. destruct (Qle_bool rs 0) eqn:El.
  - split; [|reflexivity]. intros _. right. apply (room_of_nonneg ws). qreflect. lra.
  - split; [discriminate|]. intros [H|H]; [discriminate|]. apply settled_room in H.
    apply not_true_iff_false in El. exfalso. apply El, Qle_bool_iff. lra.
Qed.

(** A pass that moves weight moves each one as allowed, and the next one stops. *)
Lemma pass_moves ws ws' : fill_pass cap ws = Some ws' ->
  Forall2 moved ws ws' /\ (capped ws' \/ settled ws').
Proof.
  unfold fill_pass. pose proof (measure_pass_spec ws) as Hm. destruct (measure_pass cap ws) as [[ex rs] o].
  destruct Hm as (He & Hr & ->). destruct (existsb (fun x => over cap x.1) ws) eqn:Eo; [|discriminate]. cbn [negb].
  pose proof (proj2 (excess_pos ws) Eo) as Hex. cbn [n_leb n_zero n_ltb Num_Q].
  destruct (Qle_bool rs 0) eqn:El; [discriminate|]. intros [= <-].
  assert (Hrs : 0 < rs) by (apply Qnot_le_lt; intros Hle; apply Qle_bool_iff in Hle; congruence).
  set (ab := if negb (Qle_bool ex rs) then rs else ex).
  assert (Hab : 0 <= ab /\ ab <= ex /\ ab <= rs /\ (ab == ex \/ ab == rs)).
  { unfold ab. destruct (negb (Qle_bool ex rs)) eqn:E; qreflect; repeat split; try lra. }
  destruct Hab as (A1 & A2 & A3 & A4). split.
  - assert (Hex' : 0 < ex) by lra. clearbody ab. clear He Hr Eo Hex. induction ws as [|x ws' IH]; cbn [map]; constructor; auto. apply refill_moved; lra.
  - destruct A4 as [A4|A4]; [left|right]; apply Forall_map, Forall_forall; intros x _; [apply refill_capped|apply refill_settled]; lra.
Qed.
End Pass.

(** ** The properties *)

(** C20: in exact arithmetic the concentration cap does what it promises: for any
    non-empty pool, filling conserves the total weight; an over-cap operator only
    comes down, and not below the cap; every other operator only goes up, and
    neither above the cap nor above the ceiling multiple of its registrations'
    share; and at the end either no operator is over the cap (up to the epsilon)
    or no operator under it has room to absorb more. *)
Theorem water_fill_caps_and_conserves (cap : Q) (ws : list (Q * option Q)) :
  ws <> [] ->
  let ws' := fill_passes (List.length ws) cap ws in
  waterFillToCap cap ws = map fst ws' /\
  total ws' == total ws /\
  Forall2 (moved cap) ws ws' /\
  (capped cap ws' \/ settled cap ws').
Proof.
  intros Hne. cbv zeta. split; [reflexivity|].
  destruct ws as [|x ws0]; [congruence|]. set (ws := x :: ws0) in *.
  change (List.length ws) with (S (List.length ws0)). cbn [fill_passes].
  destruct (fill_pass cap ws) as [ws1|] eqn:E.
  - destruct (pass_moves cap ws ws1 E) as [Hm Hend].
    assert (Hstop : fill_passes (List.length ws0) cap ws1 = ws1).
    { destruct (List.length ws0); cbn [fill_passes]; [reflexivity|].
      now rewrite (proj2 (pass_stops cap ws1) Hend). }
    rewrite Hstop. split; [now apply (total_pass cap)|]. auto.
  - apply pass_stops in E. split; [reflexivity|]. split; [|exact E].
    clearbody ws. clear. induction ws as [|[w e] ws IH]; constructor; auto. unfold moved. cbn [fst snd].
    destruct (over cap w) eqn:Ho; [apply over_iff in Ho|]; (split; [reflexivity|]); [lra|]. split; [lra|]. now left.
Qed.

(** A 49-versus-1 pool capped at 65%: the small provider is handed three times
    its registrations' share and the rest stays with the large one. *)
Definition skewed_pool : list (Q * option Q) := [(49 # 50, Some (49 # 50)); (1 # 50, Some (1 # 50))].

Lemma water_fill_caps_and_conserves_witness :
  (let ws' := fill_passes 2 (65 # 100) skewed_pool in
   waterFillToCap (65 # 100) skewed_pool = map fst ws' /\ total ws' == total skewed_pool /\
   Forall2 (moved (65 # 100)) skewed_pool ws' /\ (capped (65 # 100) ws' \/ settled (65 # 100) ws')) /\
  map Qred (waterFillToCap (65 # 100) skewed_pool) = [47 # 50; 3 # 50].
Proof. split; [apply (water_fill_caps_and_conserves (65 # 100) skewed_pool); discriminate|vm_compute; reflexivity]. Defined.
