(* ===== verification/CircuitBreaker.v ===== *)
(** * Domain circuit breaker: gateway/domain_circuit_breaker.go

    The breaker of one gateway process: the failure-rate gate over sliding
    windows, the local cache of broken domains and their exchange through a
    Redis hash shared by the fleet.  Redis is a parameter ([RedisHash]); metrics
    and logging calls return nothing and are left out.  Each operation reads the
    clock once ([now]). *)

From S2P Require Import Prelude GoStrings Float64 Domain RepKey.
From Stdlib Require Import ZArith Lia Bool Ascii String.
From stdpp Require Import base list gmap strings fin_maps.

Open Scope string_scope.
Open Scope Z_scope.

(** ** Redis: the hash commands the breaker issues

    [rh_HGetAll] may fail ([None]); the writes are fire-and-forget. *)
Class RedisHash (Rd : Type) := {
  rh_HSet : Rd -> string -> string -> string -> Rd;
  rh_HGetAll : Rd -> string -> option (gmap string string);
  rh_HDel : Rd -> string -> list string -> Rd;
  rh_Del : Rd -> string -> Rd;
}.

(** The documented effect of the commands on a reachable server. *)
Class RedisHashLaws (Rd : Type) `{RedisHash Rd} (hash : Rd -> string -> gmap string string) : Prop := {
  rhl_get : forall r k, rh_HGetAll r k = Some (hash r k);
  rhl_set : forall r k f v k', hash (rh_HSet r k f v) k' = if decide (k = k') then <[f := v]> (hash r k') else hash r k';
  rhl_hdel : forall r k fs k', hash (rh_HDel r k fs) k' =
    if decide (k = k') then filter (fun p => p.1 ∉ fs) (hash r k') else hash r k';
  rhl_del : forall r k k', hash (rh_Del r k) k' = if decide (k = k') then ∅ else hash r k';
}.

(** ** State *)

Record domainOutcomeWindow := mkWindow {
  w_windowStart : Time;
  w_failures : Z;
  w_successes : Z;
  w_lastEpisodeAt : Time;
  w_lastHitCount : Z;
}.

Record brokenDomainState := mkBroken {
  bd_expiry : Time;
  bd_hitCount : Z;
  bd_reason : string;
}.

Record circuitCacheEntry := mkCircuitCacheEntry {
  ce_domains : gmap string brokenDomainState;
  ce_refreshAt : Time;
}.

Record DomainCircuitBreaker (Rd : Type) := mkBreaker {
  cb_redis : option Rd;          (** [None]: local-only mode *)
  cb_keyPrefix : string;
  cb_defaultTTL : Duration;
  cb_maxTTL : Duration;
  cb_cacheTTL : Duration;
  cb_cache : gmap string circuitCacheEntry;
  cb_failureWindow : Duration;
  cb_minFailures : Z;
  cb_failureRateThreshold : float64;
  cb_rebreakMargin : float64;
  cb_escalationMemory : Duration;
  cb_stats : gmap string (gmap string domainOutcomeWindow);
}.
Arguments mkBreaker {Rd}.
Arguments cb_redis {Rd}. Arguments cb_keyPrefix {Rd}. Arguments cb_defaultTTL {Rd}.
Arguments cb_maxTTL {Rd}. Arguments cb_cacheTTL {Rd}. Arguments cb_cache {Rd}.
Arguments cb_failureWindow {Rd}. Arguments cb_minFailures {Rd}. Arguments cb_failureRateThreshold {Rd}.
Arguments cb_rebreakMargin {Rd}. Arguments cb_escalationMemory {Rd}. Arguments cb_stats {Rd}.

Definition defaultMaxTTL : Duration := 30 * minute.
Definition defaultFailureWindow : Duration := 30 * second.
Definition defaultMinFailures : Z := 5.
Definition defaultFailureRateThreshold : float64 := f64_frac 20 100.
Definition defaultEscalationMemory : Duration := 60 * minute.
Definition defaultRebreakMargin : float64 := f64_frac 15 100.

Section Breaker.
Context {Rd : Type} `{RedisHash Rd}.
Implicit Types (cb : DomainCircuitBreaker Rd) (now : Time).

Definition NewDomainCircuitBreaker (redisClient : option Rd) : DomainCircuitBreaker Rd :=
  mkBreaker redisClient "path:gw:circuit:" (1 * minute) defaultMaxTTL (5 * second) ∅
    defaultFailureWindow defaultMinFailures defaultFailureRateThreshold defaultRebreakMargin
    defaultEscalationMemory ∅.

Definition cb_with_stats cb s : DomainCircuitBreaker Rd :=
  mkBreaker (cb_redis cb) (cb_keyPrefix cb) (cb_defaultTTL cb) (cb_maxTTL cb) (cb_cacheTTL cb) (cb_cache cb)
    (cb_failureWindow cb) (cb_minFailures cb) (cb_failureRateThreshold cb) (cb_rebreakMargin cb)
    (cb_escalationMemory cb) s.
Definition cb_with_cache cb c r : DomainCircuitBreaker Rd :=
  mkBreaker r (cb_keyPrefix cb) (cb_defaultTTL cb) (cb_maxTTL cb) (cb_cacheTTL cb) c
    (cb_failureWindow cb) (cb_minFailures cb) (cb_failureRateThreshold cb) (cb_rebreakMargin cb)
    (cb_escalationMemory cb) (cb_stats cb).

(** ** The failure-rate gate *)

Definition fresh_window (now : Time) : domainOutcomeWindow := mkWindow now 0 0 time_zero 0.

(** The window [windowLocked] returns, and where a caller's update is stored. *)
Definition windowLocked cb (serviceID domain : string) now : domainOutcomeWindow :=
  match default ∅ (cb_stats cb !! serviceID) !! domain with
  | None => fresh_window now
  | Some w =>
      if cb_failureWindow cb <? time_sub now (w_windowStart w)
      then mkWindow now 0 0 (w_lastEpisodeAt w) (w_lastHitCount w)
      else w
  end.

Definition store_window cb (serviceID domain : string) (w : domainOutcomeWindow) : DomainCircuitBreaker Rd :=
  cb_with_stats cb (<[serviceID := <[domain := w]> (default ∅ (cb_stats cb !! serviceID))]> (cb_stats cb)).

Definition RecordSuccess cb now (serviceID domain : string) : DomainCircuitBreaker Rd :=
  if (domain =? "")%string then cb
  else
    let w := windowLocked cb serviceID domain now in
    store_window cb serviceID domain
      (mkWindow (w_windowStart w) (w_failures w) (w_successes w + 1) (w_lastEpisodeAt w) (w_lastHitCount w)).

Definition recently_broken cb now (w : domainOutcomeWindow) : bool :=
  negb (time_is_zero (w_lastEpisodeAt w)) && (time_sub now (w_lastEpisodeAt w) <=? cb_escalationMemory cb).

Definition break_threshold cb now (w : domainOutcomeWindow) : float64 :=
  if recently_broken cb now w then fadd (cb_failureRateThreshold cb) (cb_rebreakMargin cb)
  else cb_failureRateThreshold cb.

Definition shouldBreak cb (serviceID domain : string) now : bool * Z * DomainCircuitBreaker Rd :=
  let w0 := windowLocked cb serviceID domain now in
  let w := mkWindow (w_windowStart w0) (w_failures w0 + 1) (w_successes w0) (w_lastEpisodeAt w0) (w_lastHitCount w0) in
  let total := w_failures w + w_successes w in
  if (w_failures w <? cb_minFailures cb) || (total =? 0) then (false, 0, store_window cb serviceID domain w)
  else if fltb (fdiv (f64_of_Z (w_failures w)) (f64_of_Z total)) (break_threshold cb now w) then
    (false, 0, store_window cb serviceID domain w)
  else
    let hitCount := if recently_broken cb now w then w_lastHitCount w + 1 else 1 in
    (true, hitCount, store_window cb serviceID domain (mkWindow now 0 0 now hitCount)).

Definition escalatedTTL cb (hitCount : Z) : Duration :=
  if hitCount <=? 1 then cb_defaultTTL cb
  else
    let shift := hitCount - 1 in
    let shift := if 5 <? shift then 5 else shift in
    let ttl := wrap64 (cb_defaultTTL cb * Z.shiftl 1 shift) in
    if cb_maxTTL cb <? ttl then cb_maxTTL cb else ttl.

(** ** Marking and reading broken domains *)

Definition already_broken cb now (serviceID domain : string) : bool :=
  match cb_cache cb !! serviceID with
  | Some entry => match ce_domains entry !! domain with
                  | Some existing => time_after (bd_expiry existing) now
                  | None => false
                  end
  | None => false
  end.

(** ["%d:%d:%s"] with the reason cut at 500 bytes. *)
Definition redis_value (expiry : Time) (hitCount : Z) (reason : string) : string :=
  let truncatedReason := if 500 <? Z.of_nat (String.length reason) then str_take 500 reason else reason in
  fmt_int (time_unix expiry) +:+ ":" +:+ fmt_int hitCount +:+ ":" +:+ truncatedReason.

Definition MarkBroken cb now (serviceID domain reason : string) : DomainCircuitBreaker Rd :=
  if already_broken cb now serviceID domain then cb
  else
    match shouldBreak cb serviceID domain now with
    | (false, _, cb1) => cb1
    | (true, hitCount, cb1) =>
        let entry := match cb_cache cb1 !! serviceID with
                     | Some entry => entry
                     | None => mkCircuitCacheEntry ∅ (time_add now (cb_cacheTTL cb1))
                     end in
        let expiry := time_add now (escalatedTTL cb1 hitCount) in
        let entry := mkCircuitCacheEntry (<[domain := mkBroken expiry hitCount reason]> (ce_domains entry)) (ce_refreshAt entry) in
        cb_with_cache cb1 (<[serviceID := entry]> (cb_cache cb1))
          (option_map (fun r => rh_HSet r (cb_keyPrefix cb1 +:+ serviceID) domain (redis_value expiry hitCount reason))
             (cb_redis cb1))
    end.

(** The broken domains still in force. *)
Definition live_domains now (domains : gmap string brokenDomainState) : gmap string brokenDomainState :=
  filter (fun p => now < bd_expiry p.2) domains.

(** [map[string]bool] results hold only [true]: they are sets of names. *)
Definition filterExpiredDomains now (domains : gmap string brokenDomainState) : gset string :=
  dom (live_domains now domains).

Definition refreshLocal cb now (serviceID : string) : gset string * DomainCircuitBreaker Rd :=
  match cb_cache cb !! serviceID with
  | None => (∅, cb)
  | Some entry =>
      let domains := live_domains now (ce_domains entry) in
      (dom domains,
       cb_with_cache cb (<[serviceID := mkCircuitCacheEntry domains (time_add now (cb_cacheTTL cb))]> (cb_cache cb)) (cb_redis cb))
  end.

Definition parseRedisValue (val : string) : option (Z * Z * string) :=
  match splitn 3 ":" val with
  | [a; b; c] =>
      match parse_int a, parse_int b with Some expiry, Some hits => Some (expiry, hits, c) | _, _ => None end
  | [a; b] =>
      match parse_int a, parse_int b with Some expiry, Some hits => Some (expiry, hits, "") | _, _ => None end
  | _ => match parse_int val with Some expiry => Some (expiry, 1, "") | None => None end
  end.

(** The state a Redis field stands for, when it is still in force. *)
Definition redis_state (nowUnix : Z) (redisVal : string) : option brokenDomainState :=
  match parseRedisValue redisVal with
  | None => None
  | Some (expiryUnix, hitCount, reason) =>
      if nowUnix <? expiryUnix then Some (mkBroken (expiryUnix * second) hitCount reason) else None
  end.

(** Local entries in force win over Redis when they expire later. *)
Definition merge_state (local redis : option brokenDomainState) : option brokenDomainState :=
  match local, redis with
  | Some l, Some r => if time_after (bd_expiry l) (bd_expiry r) then Some l else Some r
  | Some l, None => Some l
  | None, r => r
  end.

Definition refreshFromRedis cb (r : Rd) now (serviceID : string) : gset string * DomainCircuitBreaker Rd :=
  let key := cb_keyPrefix cb +:+ serviceID in
  match rh_HGetAll r key with
  | None => refreshLocal cb now serviceID
  | Some vals =>
      let nowUnix := time_unix now in
      let domains := omap (redis_state nowUnix) vals in
      let expiredFields := (map_to_list (filter (fun p => redis_state nowUnix p.2 = None) vals)).*1 in
      let r' := if (0 <? List.length expiredFields)%nat then rh_HDel r key expiredFields else r in
      let local := match cb_cache cb !! serviceID with
                   | Some entry => live_domains now (ce_domains entry)
                   | None => ∅
                   end in
      let merged := merge merge_state local domains in
      (dom merged,
       cb_with_cache cb (<[serviceID := mkCircuitCacheEntry merged (time_add now (cb_cacheTTL cb))]> (cb_cache cb)) (Some r'))
  end.

Definition GetBrokenDomains cb now (serviceID : string) : gset string * DomainCircuitBreaker Rd :=
  let stale := match cb_redis cb with
               | None => refreshLocal cb now serviceID
               | Some r => refreshFromRedis cb r now serviceID
               end in
  match cb_cache cb !! serviceID with
  | Some entry => if time_before now (ce_refreshAt entry) then (filterExpiredDomains now (ce_domains entry), cb) else stale
  | None => stale
  end.

Definition ClearService cb (serviceID : string) : Z * DomainCircuitBreaker Rd :=
  let count := match cb_cache cb !! serviceID with
               | Some entry => Z.of_nat (size (ce_domains entry))
               | None => 0
               end in
  (count,
   cb_with_stats
     (cb_with_cache cb (delete serviceID (cb_cache cb))
        (option_map (fun r => rh_Del r (cb_keyPrefix cb +:+ serviceID)) (cb_redis cb)))
     (delete serviceID (cb_stats cb))).
End Breaker.

(** ** The metric category of a reason *)

Definition classifyCircuitBreakReason (reason : string) : string :=
  if has_prefix "parallel_retry" reason then "parallel_retry"
  else if has_prefix "batch_transport" reason then "batch_transport"
  else if has_prefix "batch_heuristic" reason then "batch_heuristic"
  else if has_prefix "retry" reason then "retry"
  else if has_prefix "heuristic" reason then "heuristic"
  else "unknown".

(** ** Filtering a pool (the host of an endpoint is memoized in the source) *)

Definition rawURLFromEndpoint (endpoint : EndpointAddr) : option string :=
  let from i := Some (str_drop (S i) endpoint) in
  match str_index "-http" endpoint with
  | Some i => from i
  | None => match str_index "-wss" endpoint with
            | Some i => from i
            | None => match str_index "-ws" endpoint with Some i => from i | None => None end
            end
  end.

Section Hosts.
Context `{DomainLib}.

Definition computeDomainFromEndpoint (endpoint : EndpointAddr) : string :=
  match rawURLFromEndpoint endpoint with
  | None => ""
  | Some rawURL => match url_hostname rawURL with Some h => h | None => "" end
  end.

Definition filterEndpointsByBrokenDomains (endpoints : list EndpointAddr) (brokenDomains : gset string) : list EndpointAddr :=
  List.filter (fun ep => let domain := computeDomainFromEndpoint ep in
                         negb (negb (domain =? "")%string && bool_decide (domain ∈ brokenDomains))) endpoints.
End Hosts.
