(* ===== verification/CircuitBreakerProps.v ===== *)
(** * Correctness of the domain circuit breaker

    The back-off table, the rate gate and its hysteresis, one escalation per
    episode, exact reads, the Redis codec and the propagation of a break to the
    other processes of the fleet. *)

From S2P Require Import Prelude GoStrings Float64 Domain RepKey CircuitBreaker.
From Stdlib Require Import ZArith Lia Bool Ascii String.
From stdpp Require Import base list gmap strings fin_maps.

Open Scope string_scope.
Open Scope Z_scope.

#[local] Arguments String.append !s1 s2 / : simpl nomatch.

Section Breaker.
Context {Rd : Type} `{RedisHash Rd}.
Implicit Types (cb : DomainCircuitBreaker Rd) (now : Time).

(** The broken state of a domain in force at an instant. *)
Definition live_state cb now (sid dom : string) : option brokenDomainState :=
  match cb_cache cb !! sid with
  | Some e => match ce_domains e !! dom with
              | Some st => if now <? bd_expiry st then Some st else None
              | None => None
              end
  | None => None
  end.

Lemma already_broken_live cb now sid dom :
  already_broken cb now sid dom = match live_state cb now sid dom with Some _ => true | None => false end.
Proof.
  unfold already_broken, live_state, time_after. destruct (cb_cache cb !! sid) as [e|]; [|reflexivity].
  destruct (ce_domains e !! dom) as [st|]; [|reflexivity]. now destruct (now <? bd_expiry st).
Qed.

Lemma live_domains_lookup now (ds : gmap string brokenDomainState) d :
  live_domains now ds !! d = match ds !! d with
                             | Some st => if now <? bd_expiry st then Some st else None
                             | None => None
                             end.
Proof.
  unfold live_domains. rewrite map_lookup_filter. destruct (ds !! d) as [st|]; [|reflexivity]. cbn.
  destruct (now <? bd_expiry st) eqn:E; breflect; case_guard; try lia; reflexivity.
Qed.

(** The window a failure is counted in, and the break decision on it. *)
Definition failed_window cb now (sid dom : string) : domainOutcomeWindow :=
  let w := windowLocked cb sid dom now in
  mkWindow (w_windowStart w) (w_failures w + 1) (w_successes w) (w_lastEpisodeAt w) (w_lastHitCount w).

Definition gate cb now (w : domainOutcomeWindow) : bool :=
  (cb_minFailures cb <=? w_failures w) && negb (w_failures w + w_successes w =? 0) &&
  negb (fltb (fdiv (f64_of_Z (w_failures w)) (f64_of_Z (w_failures w + w_successes w))) (break_threshold cb now w)).

Definition next_hit cb now (w : domainOutcomeWindow) : Z := if recently_broken cb now w then w_lastHitCount w + 1 else 1.

Lemma shouldBreak_spec cb sid dom now :
  let w := failed_window cb now sid dom in
  shouldBreak cb sid dom now =
  if gate cb now w
  then (true, next_hit cb now w, store_window cb sid dom (mkWindow now 0 0 now (next_hit cb now w)))
  else (false, 0, store_window cb sid dom w).
Proof.
  cbv zeta. unfold shouldBreak, gate. fold (failed_window cb now sid dom). cbv zeta.
  set (w := failed_window cb now sid dom).
  rewrite (Z.leb_antisym (w_failures w) (cb_minFailures cb)).
  destruct (w_failures w <? cb_minFailures cb); cbn [orb negb andb]; [reflexivity|].
  destruct (w_failures w + w_successes w =? 0); cbn [negb andb]; [reflexivity|].
  now destruct (fltb _ _).
Qed.

Lemma store_window_lookup cb sid dom w sid' dom' :
  default ∅ (cb_stats (store_window cb sid dom w) !! sid') !! dom' =
  if bool_decide (sid = sid' /\ dom = dom') then Some w else default ∅ (cb_stats cb !! sid') !! dom'.
Proof.
  cbn. destruct (decide (sid = sid')) as [<-|Hs].
  - rewrite lookup_insert_eq. cbn [from_option id]. destruct (decide (dom = dom')) as [<-|Hd].
    + rewrite lookup_insert_eq. now rewrite bool_decide_eq_true_2.
    + rewrite lookup_insert_ne by assumption. now rewrite bool_decide_eq_false_2 by naive_solver.
  - rewrite lookup_insert_ne by assumption. now rewrite bool_decide_eq_false_2 by naive_solver.
Qed.

(** What marking a domain does. *)
Lemma MarkBroken_cases cb now sid dom reason :
  let cb' := MarkBroken cb now sid dom reason in
  let w := failed_window cb now sid dom in
  if already_broken cb now sid dom then cb' = cb
  else if gate cb now w then
    let st := mkBroken (now + escalatedTTL cb (next_hit cb now w)) (next_hit cb now w) reason in
    (exists e, cb_cache cb' !! sid = Some e /\ ce_domains e !! dom = Some st) /\
    cb_redis cb' = option_map (fun r => rh_HSet r (cb_keyPrefix cb +:+ sid) dom (redis_value (bd_expiry st) (bd_hitCount st) reason)) (cb_redis cb) /\
    windowLocked cb' sid dom now = mkWindow now 0 0 now (next_hit cb now w)
  else cb' = store_window cb sid dom w.
Proof.
  cbv zeta. unfold MarkBroken. destruct (already_broken cb now sid dom); [reflexivity|].
  rewrite shouldBreak_spec. set (w := failed_window cb now sid dom).
  destruct (gate cb now w); [|reflexivity]. set (h := next_hit cb now w).
  split; [|split; [reflexivity|]].
  - eexists. split; [cbn; apply lookup_insert_eq|]. cbn. apply lookup_insert_eq.
  - unfold windowLocked. cbn [cb_stats cb_with_cache cb_failureWindow].
    change (default ∅ (_ !! sid) !! dom) with
      (default ∅ (cb_stats (store_window cb sid dom (mkWindow now 0 0 now h)) !! sid) !! dom).
    rewrite store_window_lookup, bool_decide_eq_true_2 by auto. cbn.
    case_if; reflexivity.
Qed.

Lemma escalatedTTL_eq cb h :
  cb_defaultTTL cb = 1 * minute -> cb_maxTTL cb = 30 * minute ->
  escalatedTTL cb h = Z.min (30 * minute) (2 ^ Z.max 0 (Z.min 5 (h - 1)) * minute).
Proof.
  intros E1 E2. unfold escalatedTTL. rewrite E1, E2.
  destruct (h <=? 1) eqn:Eh; breflect.
  { replace (Z.max 0 (Z.min 5 (h - 1))) with 0 by lia. reflexivity. }
  set (n := if 5 <? h - 1 then 5 else h - 1).
  assert (Hn : Z.max 0 (Z.min 5 (h - 1)) = n /\ 1 <= n <= 5).
  { unfold n. destruct (5 <? h - 1) eqn:E; breflect; lia. }
  destruct Hn as [-> Hn]. clearbody n.
  assert (Hc : n = 1 \/ n = 2 \/ n = 3 \/ n = 4 \/ n = 5) by lia.
  destruct Hc as [->|[->|[->|[->| ->]]]]; reflexivity.
Qed.

(** ** Episode memory *)

Definition episode cb (sid dom : string) : Time * Z :=
  match default ∅ (cb_stats cb !! sid) !! dom with
  | Some w => (w_lastEpisodeAt w, w_lastHitCount w)
  | None => (time_zero, 0)
  end.

Lemma windowLocked_episode cb sid dom now :
  (w_lastEpisodeAt (windowLocked cb sid dom now), w_lastHitCount (windowLocked cb sid dom now)) = episode cb sid dom.
Proof.
  unfold windowLocked, episode. destruct (default ∅ (cb_stats cb !! sid) !! dom) as [w|]; [|reflexivity].
  now destruct (cb_failureWindow cb <? _).
Qed.

(** Operations that are not a break of the domain. *)
Inductive quiet (sid dom : string) : DomainCircuitBreaker Rd -> DomainCircuitBreaker Rd -> Prop :=
| quiet_refl cb : quiet sid dom cb cb
| quiet_success cb cb' now sid' dom' :
    quiet sid dom cb cb' -> quiet sid dom cb (RecordSuccess cb' now sid' dom')
| quiet_mark cb cb' now sid' dom' reason :
    quiet sid dom cb cb' ->
    (sid', dom') <> (sid, dom) \/ already_broken cb' now sid dom = true \/ gate cb' now (failed_window cb' now sid dom) = false ->
    quiet sid dom cb (MarkBroken cb' now sid' dom' reason)
| quiet_read cb cb' now sid' :
    quiet sid dom cb cb' -> quiet sid dom cb (snd (GetBrokenDomains cb' now sid')).

Lemma episode_ext cb cb' sid dom : cb_stats cb' = cb_stats cb -> episode cb' sid dom = episode cb sid dom.
Proof. unfold episode. now intros ->. Qed.

Lemma episode_store cb sid dom sid' dom' w :
  (sid' = sid /\ dom' = dom -> (w_lastEpisodeAt w, w_lastHitCount w) = episode cb sid dom) ->
  episode (store_window cb sid' dom' w) sid dom = episode cb sid dom.
Proof.
  intros Hw. unfold episode at 1. rewrite store_window_lookup.
  destruct (decide (sid' = sid /\ dom' = dom)) as [He|Hne].
  - rewrite bool_decide_eq_true_2 by exact He. auto.
  - now rewrite bool_decide_eq_false_2 by exact Hne.
Qed.

Lemma read_stats cb now sid : cb_stats (snd (GetBrokenDomains cb now sid)) = cb_stats cb /\
  cb_escalationMemory (snd (GetBrokenDomains cb now sid)) = cb_escalationMemory cb.
Proof.
  unfold GetBrokenDomains, refreshFromRedis, refreshLocal.
  destruct (cb_cache cb !! sid) as [e|]; [destruct (time_before now (ce_refreshAt e)); [auto|]|];
    (destruct (cb_redis cb) as [r|]; [destruct (rh_HGetAll r _); auto|auto]).
Qed.

Lemma mark_stats cb now sid dom reason :
  cb_escalationMemory (MarkBroken cb now sid dom reason) = cb_escalationMemory cb /\
  (cb_stats (MarkBroken cb now sid dom reason) = cb_stats cb \/
   exists w, cb_stats (MarkBroken cb now sid dom reason) = cb_stats (store_window cb sid dom w)).
Proof.
  unfold MarkBroken. destruct (already_broken cb now sid dom); [auto|]. rewrite shouldBreak_spec. cbv zeta.
  destruct (gate cb now _); (split; [reflexivity|]); right; eauto.
Qed.

Lemma quiet_episode sid dom cb cb' :
  quiet sid dom cb cb' -> episode cb' sid dom = episode cb sid dom /\ cb_escalationMemory cb' = cb_escalationMemory cb.
Proof.
  induction 1 as [cb|cb cb' now sid' dom' Hq [IH1 IH2]|cb cb' now sid' dom' reason Hq [IH1 IH2] Hc|cb cb' now sid' Hq [IH1 IH2]]; [auto|..].
  - unfold RecordSuccess. destruct (dom' =? "")%string; [auto|]. split; [|exact IH2].
    rewrite episode_store; [exact IH1|]. intros [-> ->]. cbn. apply windowLocked_episode.
  - destruct (mark_stats cb' now sid' dom' reason) as [Hm _]. rewrite Hm. split; [|exact IH2]. rewrite <- IH1.
    destruct (decide ((sid', dom') = (sid, dom))) as [[= -> ->]|Hne].
    + pose proof (MarkBroken_cases cb' now sid dom reason) as Hmb. cbv zeta in Hmb.
      destruct (already_broken cb' now sid dom) eqn:Ea; [now rewrite Hmb|].
      destruct Hc as [Hc|[Hc|Hc]]; [now destruct Hc|discriminate|]. rewrite Hc in Hmb. rewrite Hmb.
      apply episode_store. intros _. cbn. apply windowLocked_episode.
    + destruct (mark_stats cb' now sid' dom' reason) as [_ [Hs|[w Hs]]]; [now apply episode_ext|].
      rewrite (episode_ext (store_window cb' sid' dom' w)) by exact Hs. apply episode_store. intros [-> ->]. congruence.
  - destruct (read_stats cb' now sid') as [Hs Hm]. rewrite Hm. split; [|exact IH2]. now rewrite (episode_ext cb').
Qed.

(** ** The Redis codec *)

Definition truncated (reason : string) : string :=
  if 500 <? Z.of_nat (String.length reason) then str_take 500 reason else reason.

Lemma parse_redis_value expiry hits reason :
  in_int64 (time_unix expiry) -> in_int64 hits ->
  parseRedisValue (redis_value expiry hits reason) = Some (time_unix expiry, hits, truncated reason).
Proof.
  intros He Hh. unfold parseRedisValue, redis_value. fold (truncated reason).
  change (fmt_int (time_unix expiry) +:+ ":" +:+ fmt_int hits +:+ ":" +:+ truncated reason)
    with (fmt_int (time_unix expiry) +:+ String ":" (fmt_int hits +:+ String ":" (truncated reason))).
  rewrite !splitn_step by apply fmt_int_no_colon. cbn [splitn].
  now rewrite !parse_fmt_int.
Qed.

Lemma redis_state_value nowUnix expiry hits reason :
  in_int64 (time_unix expiry) -> in_int64 hits -> nowUnix < time_unix expiry ->
  redis_state nowUnix (redis_value expiry hits reason) = Some (mkBroken (time_unix expiry * second) hits (truncated reason)).
Proof.
  intros He Hh Hlt. unfold redis_state. rewrite parse_redis_value by assumption.
  apply Z.ltb_lt in Hlt. now rewrite Hlt.
Qed.
End Breaker.

(** ** The properties *)

Section Claims.
Context {Rd : Type} `{RedisHash Rd}.

(** The back-off of a domain's [h]-th consecutive break is one minute
    doubled per extra break, at most 30 minutes: 1, 2, 4, 8, 16, then 30. *)
Theorem breaker_backoff (redisClient : option Rd) (h : Z) :
  escalatedTTL (NewDomainCircuitBreaker redisClient) h =
  Z.min (30 * minute) (2 ^ Z.max 0 (Z.min 5 (h - 1)) * minute).
Proof. now apply escalatedTTL_eq. Qed.

(** The binary64 rate gate is exact on windows of up to 100 outcomes: a
    failure breaks the domain exactly when the window holds at least 5 failures
    making at least a fifth of its outcomes, or 35 in 100 of them when the
    domain broke within the escalation memory. *)
Theorem rate_gate_exact (redisClient : option Rd) (now : Time) (w : domainOutcomeWindow) :
  0 <= w_failures w -> 0 <= w_successes w -> w_failures w + w_successes w <= 100 ->
  let cb := NewDomainCircuitBreaker redisClient in
  gate cb now w =
  (5 <=? w_failures w) &&
  (if recently_broken cb now w then 7 * (w_failures w + w_successes w) <=? 20 * w_failures w
   else w_failures w + w_successes w <=? 5 * w_failures w).
Proof.
  intros Hf Hs Ht. cbv zeta. unfold gate, break_threshold.
  set (rb := recently_broken _ now w). clearbody rb. cbn [cb_minFailures cb_failureRateThreshold cb_rebreakMargin NewDomainCircuitBreaker].
  set (rate_ok rb f t := negb (fltb (fdiv (f64_of_Z f) (f64_of_Z t))
    (if rb : bool then fadd defaultFailureRateThreshold defaultRebreakMargin else defaultFailureRateThreshold))).
  set (exact rb f t := if rb : bool then 7 * t <=? 20 * f else t <=? 5 * f).
  assert (G : forallb (fun t => forallb (fun f =>
      Bool.eqb (negb (Z.of_nat t =? 0) && rate_ok true (Z.of_nat f) (Z.of_nat t)) (exact true (Z.of_nat f) (Z.of_nat t)) &&
      Bool.eqb (negb (Z.of_nat t =? 0) && rate_ok false (Z.of_nat f) (Z.of_nat t)) (exact false (Z.of_nat f) (Z.of_nat t)))
    (seq 1 t)) (seq 0 101) = true) by (vm_compute; reflexivity).
  set (f := w_failures w) in *. set (t := f + w_successes w) in *.
  destruct (defaultMinFailures <=? f) eqn:E5; unfold defaultMinFailures in E5; rewrite E5; cbn [andb]; [|reflexivity].
  breflect. rewrite forallb_forall in G. specialize (G (Z.to_nat t)). cbv beta in G.
  rewrite forallb_forall in G. specialize (G ltac:(apply in_seq; lia) (Z.to_nat f) ltac:(apply in_seq; lia)).
  rewrite !Z2Nat.id in G by lia. apply andb_true_iff in G as [G1 G2]. apply Bool.eqb_prop in G1, G2.
  fold (rate_ok rb f t) (exact rb f t). now destruct rb.
Qed.

(** One episode escalates once: while a domain is broken, any number of
    further marks (concurrent batch items, say) leave the breaker unchanged:
    no escalation, no longer expiry, no Redis write. *)
Theorem marks_during_episode_are_noops (cb : DomainCircuitBreaker Rd) (sid dom : string) (e : circuitCacheEntry)
    (st : brokenDomainState) (marks : list (Time * string)) :
  cb_cache cb !! sid = Some e -> ce_domains e !! dom = Some st ->
  Forall (fun m : Time * string => m.1 < bd_expiry st) marks ->
  fold_left (fun cb (m : Time * string) => MarkBroken cb m.1 sid dom m.2) marks cb = cb.
Proof.
  intros Hc Hd. induction 1 as [|m marks Hm Hms IH]; [reflexivity|]. cbn [fold_left].
  etransitivity; [|exact IH]. f_equal.
  unfold MarkBroken, already_broken, time_after. rewrite Hc, Hd. apply Z.ltb_lt in Hm. now rewrite Hm.
Qed.

(** Escalation counts returns, not marks: after a domain breaks for the
    [h]-th time at [t1], whatever happens in between short of another break of
    it, a break at [t2] is its [h+1]-th when it comes within the escalation
    memory of [t1] and a first one otherwise. *)
Theorem rebreak_escalates_within_memory (cb cb' : DomainCircuitBreaker Rd) (sid dom r1 r2 : string) (t1 t2 : Time) :
  let w1 := failed_window cb t1 sid dom in
  already_broken cb t1 sid dom = false -> gate cb t1 w1 = true -> t1 <> time_zero ->
  quiet sid dom (MarkBroken cb t1 sid dom r1) cb' ->
  already_broken cb' t2 sid dom = false -> gate cb' t2 (failed_window cb' t2 sid dom) = true ->
  exists e st, cb_cache (MarkBroken cb' t2 sid dom r2) !! sid = Some e /\ ce_domains e !! dom = Some st /\
    bd_hitCount st = (if time_sub t2 t1 <=? cb_escalationMemory cb then next_hit cb t1 w1 + 1 else 1).
Proof.
  cbv zeta. intros Ha1 Hg1 Hz Hq Ha2 Hg2.
  pose proof (MarkBroken_cases cb t1 sid dom r1) as M1. cbv zeta in M1. rewrite Ha1, Hg1 in M1. destruct M1 as (_ & _ & Hw).
  pose proof (MarkBroken_cases cb' t2 sid dom r2) as M2. cbv zeta in M2. rewrite Ha2, Hg2 in M2.
  destruct M2 as ((e & He & Hst) & _ & _).
  destruct (quiet_episode _ _ _ _ Hq) as [Hep Hmem].
  rewrite <- (windowLocked_episode (MarkBroken cb t1 sid dom r1) sid dom t1), Hw in Hep. cbn in Hep.
  rewrite (proj1 (mark_stats cb t1 sid dom r1)) in Hmem.
  eexists e, _. split; [exact He|]. split; [exact Hst|]. cbn [bd_hitCount].
  pose proof (windowLocked_episode cb' sid dom t2) as Hl. rewrite Hep in Hl.
  unfold next_hit at 1, recently_broken, failed_window. cbn [w_lastEpisodeAt w_lastHitCount].
  injection Hl as -> ->. rewrite Hmem. unfold time_is_zero. apply Z.eqb_neq in Hz. rewrite Hz. reflexivity.
Qed.

(** Reads are exact: a process without Redis reports a domain broken
    exactly when it holds an unexpired break of it, whether the cached entry is
    fresh or due for a refresh, and reading changes no later answer. *)
Theorem local_reads_exact (cb : DomainCircuitBreaker Rd) (now now' : Time) (sid dom : string) :
  cb_redis cb = None -> now <= now' ->
  (dom ∈ fst (GetBrokenDomains cb now sid) <-> exists st, live_state cb now sid dom = Some st) /\
  live_state (snd (GetBrokenDomains cb now sid)) now' sid dom = live_state cb now' sid dom.
Proof.
  intros Hr Hle. unfold GetBrokenDomains, refreshLocal, filterExpiredDomains, live_state. rewrite Hr.
  destruct (cb_cache cb !! sid) as [e|] eqn:Ec.
  2: { cbn. rewrite ?Ec. split; [|reflexivity]. split; [intros Hd; now apply not_elem_of_empty in Hd|intros [? [=]]]. }
  assert (Hdom : dom ∈ base.dom (live_domains now (ce_domains e)) <->
    exists st, match ce_domains e !! dom with Some st => if now <? bd_expiry st then Some st else None | None => None end = Some st).
  { rewrite elem_of_dom. unfold is_Some. now rewrite live_domains_lookup. }
  destruct (time_before now (ce_refreshAt e)); cbn [fst snd]; split; try exact Hdom; [rewrite ?Ec; reflexivity|].
  cbn. rewrite lookup_insert_eq. cbn. rewrite live_domains_lookup.
  destruct (ce_domains e !! dom) as [st|]; [|reflexivity].
  destruct (now <? bd_expiry st) eqn:E1; [reflexivity|]. breflect.
  destruct (now' <? bd_expiry st) eqn:E2; breflect; [lia|reflexivity].
Qed.

(** The Redis value round-trips: expiry second, hit count and reason (cut
    at 500 bytes, colons included) are read back as written. *)
Theorem redis_value_roundtrip (expiry : Time) (hits : Z) (reason : string) :
  in_int64 (time_unix expiry) -> in_int64 hits ->
  parseRedisValue (redis_value expiry hits reason) = Some (time_unix expiry, hits, truncated reason).
Proof. apply parse_redis_value. Qed.

(** C21: a break reaches the fleet: once a process breaks a domain, any other process on the same
    Redis and key prefix whose cached entry is due for a refresh reports it broken, up to the second
    of its expiry, whatever else was written to Redis meanwhile, as long as the domain's own field of
    the service is as the break left it: no process wrote it again, cleared it or removed it. *)
Theorem break_reaches_fleet (hash : Rd -> string -> gmap string string) (laws : RedisHashLaws Rd hash)
    (a b : DomainCircuitBreaker Rd) (r r1 r2 : Rd) (now now' : Time) (sid dom reason : string) :
  let w := failed_window a now sid dom in
  let expiry := now + escalatedTTL a (next_hit a now w) in
  cb_redis a = Some r -> already_broken a now sid dom = false -> gate a now w = true ->
  in_int64 (time_unix expiry) -> in_int64 (next_hit a now w) ->
  cb_redis (MarkBroken a now sid dom reason) = Some r1 -> cb_redis b = Some r2 ->
  hash r2 (cb_keyPrefix a +:+ sid) !! dom = hash r1 (cb_keyPrefix a +:+ sid) !! dom ->
  cb_keyPrefix b = cb_keyPrefix a ->
  (forall e, cb_cache b !! sid = Some e -> ce_refreshAt e <= now') ->
  time_unix now' < time_unix expiry ->
  dom ∈ fst (GetBrokenDomains b now' sid).
Proof.
  cbv zeta. intros Hr Ha Hg Hi1 Hi2 H1 H2 Hf Hp Hstale Hlt.
  pose proof (MarkBroken_cases a now sid dom reason) as M. cbv zeta in M. rewrite Ha, Hg, Hr, H1 in M.
  destruct M as (_ & Hrd & _). cbn in Hrd. injection Hrd as ->.
  assert (Hst : GetBrokenDomains b now' sid = refreshFromRedis b r2 now' sid).
  { unfold GetBrokenDomains. rewrite H2. destruct (cb_cache b !! sid) as [e|] eqn:Ec; [|reflexivity].
    specialize (Hstale e eq_refl). unfold time_before. destruct (now' <? ce_refreshAt e) eqn:E; breflect; [lia|reflexivity]. }
  rewrite Hst. unfold refreshFromRedis. rewrite (rhl_get (hash := hash)), Hp. cbn [fst].
  apply elem_of_dom. rewrite lookup_merge, lookup_omap, Hf.
  rewrite (rhl_set (hash := hash)), decide_True by reflexivity.
  rewrite lookup_insert_eq. cbn [mbind option_bind].
  rewrite redis_state_value by assumption. clear Hf.
  destruct (_ !! dom) as [l|]; cbn; [destruct (time_after _ _)|]; eauto.
Qed.

(** An admin clear resets the process: right after it no domain of the
    service is reported broken (Redis included), and a domain's next failure on
    its own does not break it again. *)
Theorem clear_resets (hash : Rd -> string -> gmap string string) (laws : RedisHashLaws Rd hash)
    (cb : DomainCircuitBreaker Rd) (now : Time) (sid dom reason : string) :
  1 < cb_minFailures cb ->
  let cb' := snd (ClearService cb sid) in
  fst (GetBrokenDomains cb' now sid) = ∅ /\
  live_state (MarkBroken cb' now sid dom reason) now sid dom = None.
Proof.
  intros Hm. cbv zeta. split.
  - unfold GetBrokenDomains. cbn. rewrite lookup_delete_eq.
    unfold refreshFromRedis, refreshLocal. cbn. rewrite lookup_delete_eq.
    destruct (cb_redis cb) as [r|]; cbn; [|reflexivity].
    rewrite (rhl_get (hash := hash)), (rhl_del (hash := hash)), decide_True by reflexivity. cbn [fst].
    rewrite omap_empty. apply dom_empty_iff_L. apply map_eq. intros d. now rewrite lookup_merge, !lookup_empty.
  - pose proof (MarkBroken_cases (snd (ClearService cb sid)) now sid dom reason) as M. cbv zeta in M.
    assert (Ha : already_broken (snd (ClearService cb sid)) now sid dom = false)
      by (unfold already_broken; cbn; now rewrite lookup_delete_eq).
    assert (Hg : gate (snd (ClearService cb sid)) now (failed_window (snd (ClearService cb sid)) now sid dom) = false).
    { unfold gate, failed_window, windowLocked. cbn. rewrite lookup_delete_eq. cbn [from_option id]. rewrite lookup_empty. cbn.
      destruct (cb_minFailures cb <=? 0 + 1) eqn:E; breflect; [lia|reflexivity]. }
    rewrite Ha, Hg in M. rewrite M. unfold live_state. cbn. now rewrite lookup_delete_eq.
Qed.
End Claims.

(** ** Witnesses: Redis as a map of hashes *)

Abbreviation map_redis := (gmap string (gmap string string)).
Definition map_hash (r : map_redis) (k : string) : gmap string string := default ∅ (r !! k).

#[export] Instance map_redis_hash : RedisHash map_redis := {
  rh_HSet r k f v := <[k := <[f := v]> (map_hash r k)]> r;
  rh_HGetAll r k := Some (map_hash r k);
  rh_HDel r k fs := <[k := filter (fun p => p.1 ∉ fs) (map_hash r k)]> r;
  rh_Del r k := delete k r;
}.

#[export] Instance map_redis_laws : RedisHashLaws map_redis map_hash.
Proof.
  split; [reflexivity|..]; intros r k; intros; unfold map_hash; cbn; destruct (decide (k = k')) as [<-|Hne];
    rewrite ?lookup_insert_eq, ?lookup_delete_eq, ?lookup_insert_ne, ?lookup_delete_ne by assumption; reflexivity.
Qed.

(** Four failures in a row, the fifth to come. *)
Definition failing_breaker : DomainCircuitBreaker map_redis :=
  fold_left (fun cb t => MarkBroken cb t "eth" "n1.bad.com" "retry: 502") [1; 2; 3; 4]
    (NewDomainCircuitBreaker (Some (∅ : map_redis))).
Definition broken_breaker : DomainCircuitBreaker map_redis := MarkBroken failing_breaker 5 "eth" "n1.bad.com" "retry: 502".
Definition other_process : DomainCircuitBreaker map_redis := NewDomainCircuitBreaker (cb_redis broken_breaker).

Lemma rate_gate_exact_witness :
  gate (NewDomainCircuitBreaker (Some (∅ : map_redis))) 9 (mkWindow 1 7 28 time_zero 0) = true.
Proof. rewrite rate_gate_exact; [reflexivity|cbn; lia|cbn; lia|cbn; lia]. Defined.

Lemma marks_during_episode_are_noops_witness :
  fold_left (fun cb (m : Time * string) => MarkBroken cb m.1 "eth" "n1.bad.com" m.2)
    [(6, "retry: 502"); (7, "batch_transport: EOF")] broken_breaker = broken_breaker.
Proof.
  eapply marks_during_episode_are_noops; [vm_compute; reflexivity|vm_compute; reflexivity|].
  repeat constructor.
Defined.

(** The domain comes back after its minute and fails five times again. *)
Definition returned_breaker : DomainCircuitBreaker map_redis :=
  fold_left (fun cb t => MarkBroken cb (2 * minute + t) "eth" "n1.bad.com" "retry: 502") [1; 2; 3; 4] broken_breaker.

Lemma rebreak_escalates_within_memory_witness :
  exists e st, cb_cache (MarkBroken returned_breaker (2 * minute + 5) "eth" "n1.bad.com" "retry: 502") !! "eth" = Some e /\
    ce_domains e !! "n1.bad.com" = Some st /\ bd_hitCount st = 2.
Proof.
  destruct (rebreak_escalates_within_memory failing_breaker returned_breaker "eth" "n1.bad.com" "retry: 502" "retry: 502" 5 (2 * minute + 5))
    as (e & st & H1 & H2 & H3); [vm_compute; reflexivity|vm_compute; reflexivity|discriminate| |vm_compute; reflexivity|vm_compute; reflexivity|].
  - change (MarkBroken failing_breaker 5 "eth" "n1.bad.com" "retry: 502") with broken_breaker.
    unfold returned_breaker. cbn [fold_left].
    do 4 (apply quiet_mark; [|right; right; vm_compute; reflexivity]). apply quiet_refl.
  - exists e, st. split; [exact H1|]. split; [exact H2|]. rewrite H3. vm_compute. reflexivity.
Defined.

Lemma local_reads_exact_witness :
  let cb := MarkBroken (fold_left (fun cb t => MarkBroken cb t "eth" "n1.bad.com" "retry: 502") [1; 2; 3; 4]
    (NewDomainCircuitBreaker (None : option map_redis))) 5 "eth" "n1.bad.com" "retry: 502" in
  ("n1.bad.com" ∈ fst (GetBrokenDomains cb 9 "eth") <-> exists st, live_state cb 9 "eth" "n1.bad.com" = Some st) /\
  live_state (snd (GetBrokenDomains cb 9 "eth")) 10 "eth" "n1.bad.com" = live_state cb 10 "eth" "n1.bad.com".
Proof. cbv zeta. apply local_reads_exact; [vm_compute; reflexivity|lia]. Defined.

Lemma redis_value_roundtrip_witness :
  parseRedisValue (redis_value (90 * second) 3 "retry: status 502: bad gateway") = Some (90, 3, "retry: status 502: bad gateway").
Proof. apply (redis_value_roundtrip (90 * second) 3 "retry: status 502: bad gateway"); vm_compute; split; discriminate. Defined.

(** Another process, on a Redis that has meanwhile seen another domain break. *)
Definition busy_redis : map_redis :=
  rh_HSet (default ∅ (cb_redis broken_breaker)) ("path:gw:circuit:eth") "n2.bad.com" (redis_value (40 * second) 1 "retry: 502").
Definition busy_process : DomainCircuitBreaker map_redis := NewDomainCircuitBreaker (Some busy_redis).

Lemma break_reaches_fleet_witness :
  "n1.bad.com" ∈ fst (GetBrokenDomains busy_process (30 * second) "eth").
Proof.
  apply (break_reaches_fleet map_hash map_redis_laws failing_breaker busy_process (default ∅ (cb_redis failing_breaker))
    (default ∅ (cb_redis broken_breaker)) busy_redis 5 (30 * second) "eth" "n1.bad.com" "retry: 502").
  - vm_compute. reflexivity.
  - vm_compute. reflexivity.
  - vm_compute. reflexivity.
  - vm_compute. split; discriminate.
  - vm_compute. split; discriminate.
  - vm_compute. reflexivity.
  - reflexivity.
  - vm_compute. reflexivity.
  - reflexivity.
  - intros e. change (cb_cache busy_process) with (∅ : gmap string circuitCacheEntry). now rewrite lookup_empty.
  - vm_compute. reflexivity.
Defined.

(** Hit counts are each process's own and a break is written over whatever Redis holds: when a
    process that has never broken the domain breaks it right after one that breaks it for the second
    time, Redis keeps the earlier expiry, and a process that reads it then takes the domain back
    while the first still excludes it. *)
Theorem lower_count_overwrites :
  let again := MarkBroken returned_breaker (2 * minute + 5) "eth" "n1.bad.com" "retry: 502" in
  let second_process := fold_left (fun cb t => MarkBroken cb (2 * minute + t) "eth" "n1.bad.com" "retry: 502") [5; 6; 7; 8; 9]
    (NewDomainCircuitBreaker (cb_redis again)) in
  let reader := NewDomainCircuitBreaker (cb_redis second_process) in
  "n1.bad.com" ∈ fst (GetBrokenDomains again (3 * minute + 30 * second) "eth") /\
  "n1.bad.com" ∈ fst (GetBrokenDomains reader (2 * minute + 30 * second) "eth") /\
  fst (GetBrokenDomains reader (3 * minute + 30 * second) "eth") = ∅.
Proof. split_and!; apply (bool_decide_unpack _); vm_compute; exact I. Qed.

Lemma clear_resets_witness :
  let cb' := snd (ClearService broken_breaker "eth") in
  fst (GetBrokenDomains cb' 9 "eth") = ∅ /\
  live_state (MarkBroken cb' 9 "eth" "n1.bad.com" "retry: 502") 9 "eth" "n1.bad.com" = None.
Proof. apply (clear_resets map_hash map_redis_laws). vm_compute. reflexivity. Defined.

(** A clear is local to its process: after one process clears a service, a
    process that had already read the break from Redis keeps reporting it, since
    a refresh merges the local entry back. *)
Theorem clear_is_per_process :
  let reader := snd (GetBrokenDomains other_process (10 * second) "eth") in
  let cleared := snd (ClearService broken_breaker "eth") in
  let reader' := cb_with_cache reader (cb_cache reader) (cb_redis cleared) in
  bool_decide ("n1.bad.com" ∈ fst (GetBrokenDomains cleared (20 * second) "eth")) = false /\
  bool_decide ("n1.bad.com" ∈ fst (GetBrokenDomains reader' (20 * second) "eth")) = true.
Proof. vm_compute. auto. Qed.
