(* ===== verification/BlockConsensus.v ===== *)
(** * Block heights: qos/block_height_plausibility.go, qos/sync_allowance.go and
      qos/evm/block_consensus.go

    The record [BlockHeightConsensus] with every operation of it: a sliding
    window of reported heights, whose median anchors the perceived height.
    Heights are uint64: sums and products are taken modulo 2^64.  One reading of
    the clock stands for the readings of one call.  Logging is left out. *)

From S2P Require Import Prelude GoSort RepKey.
From Stdlib Require Import ZArith Lia Bool String.
From stdpp Require Import base list strings sorting.

Open Scope Z_scope.

(** ** Plausibility and sync allowance *)

Definition MaxPlausibleBlockHeight : Z := 1000000000000.
Definition MaxBlockHeightJump : Z := 10000000.

Definition IsPlausibleBlockHeight (candidate current : Z) : bool :=
  if MaxPlausibleBlockHeight <? candidate then false
  else if (0 <? current) && (wrapu64 (current + MaxBlockHeightJump) <? candidate) then false
  else true.

Definition MinAllowedBlockNumber (perceivedBlock syncAllowance : Z) : Z :=
  if perceivedBlock <=? syncAllowance then 0 else wrapu64 (perceivedBlock - syncAllowance).

(** ** The consensus *)

Definition defaultObservationWindow : Duration := 2 * minute.
Definition defaultMaxObservations : Z := 1000.
Definition defaultMinObservationsForMedian : Z := 3.
Definition defaultMaxDeviationMultiplier : Z := 3.
Definition defaultExternalBlockGracePeriod : Duration := 30 * second.
Definition defaultEVMBlockNumberSyncAllowance : Z := 0.

Record blockObservation := mkBlockObservation {
  blockHeight : Z;
  observedAt : Time;
  endpointAddr : EndpointAddr;
}.

Record BlockHeightConsensus := mkBlockHeightConsensus {
  observations : list blockObservation;
  observationWindow : Duration;
  maxObservations : Z;
  bc_syncAllowance : Z;
  maxDeviationMultiplier : Z;
  cachedPerceived : Z;
  externalBlockHeight : Z;
  createdAt : Time;
  externalBlockGracePeriod : Duration;
}.

Definition set_observations (c : BlockHeightConsensus) (l : list blockObservation) : BlockHeightConsensus :=
  mkBlockHeightConsensus l (observationWindow c) (maxObservations c) (bc_syncAllowance c)
    (maxDeviationMultiplier c) (cachedPerceived c) (externalBlockHeight c) (createdAt c) (externalBlockGracePeriod c).

Definition set_cachedPerceived (c : BlockHeightConsensus) (n : Z) : BlockHeightConsensus :=
  mkBlockHeightConsensus (observations c) (observationWindow c) (maxObservations c) (bc_syncAllowance c)
    (maxDeviationMultiplier c) n (externalBlockHeight c) (createdAt c) (externalBlockGracePeriod c).

Definition NewBlockHeightConsensus (now : Time) (syncAllowance : Z) : BlockHeightConsensus :=
  let syncAllowance := if syncAllowance =? 0 then defaultEVMBlockNumberSyncAllowance else syncAllowance in
  mkBlockHeightConsensus [] defaultObservationWindow defaultMaxObservations syncAllowance
    defaultMaxDeviationMultiplier 0 0 now defaultExternalBlockGracePeriod.

Definition SetExternalBlockHeight (c : BlockHeightConsensus) (height : Z) : BlockHeightConsensus :=
  mkBlockHeightConsensus (observations c) (observationWindow c) (maxObservations c) (bc_syncAllowance c)
    (maxDeviationMultiplier c) (cachedPerceived c) height (createdAt c) (externalBlockGracePeriod c).

Definition SetExternalBlockGracePeriod (c : BlockHeightConsensus) (d : Duration) : BlockHeightConsensus :=
  mkBlockHeightConsensus (observations c) (observationWindow c) (maxObservations c) (bc_syncAllowance c)
    (maxDeviationMultiplier c) (cachedPerceived c) (externalBlockHeight c) (createdAt c) d.

Definition GetExternalBlockHeight (c : BlockHeightConsensus) : Z := externalBlockHeight c.
Definition GetPerceivedBlock (c : BlockHeightConsensus) : Z := cachedPerceived c.
Definition GetObservationCount (c : BlockHeightConsensus) : Z := Z.of_nat (List.length (observations c)).

(** [sorted[i]]; every index below is in range. *)
Definition height_at (sorted : list Z) (i : nat) : Z := default 0 (sorted !! i).

Definition calculateMedian (sorted : list Z) : Z :=
  let n := List.length sorted in
  if (n =? 0)%nat then 0
  else if (n mod 2 =? 0)%nat then wrapu64 (height_at sorted (n / 2 - 1) + height_at sorted (n / 2)) / 2
  else height_at sorted (n / 2).

(** The loop of calculatePerceivedLocked: the largest height in range, 0 if none. *)
Definition max_in_range (maxAllowed : Z) (heights : list Z) : Z :=
  fold_left (fun maxValid h => if h <=? maxAllowed then if maxValid <? h then h else maxValid else maxValid) heights 0.

(** The last part of calculatePerceivedLocked: the external floor. *)
Definition external_floor (c : BlockHeightConsensus) (now : Time) (maxValid : Z) : Z :=
  let ext := externalBlockHeight c in
  if (0 <? ext) && (maxValid <? ext) then
    if negb (IsPlausibleBlockHeight ext maxValid) then maxValid
    else if externalBlockGracePeriod c <=? time_sub now (createdAt c) then ext
    else maxValid
  else maxValid.

Section Consensus.
Context {sorter : SliceSort}.

Definition extractHeightsLocked (c : BlockHeightConsensus) : list Z :=
  slice_sort Z.ltb (map blockHeight (observations c)).

Definition GetMedianBlock (c : BlockHeightConsensus) : Z :=
  match observations c with [] => 0 | _ => calculateMedian (extractHeightsLocked c) end.

Definition pruneObservationsLocked (c : BlockHeightConsensus) (now : Time) : BlockHeightConsensus :=
  let cutoff := time_add now (- observationWindow c) in
  let valid := List.filter (fun obs => time_after (observedAt obs) cutoff) (observations c) in
  if maxObservations c <? Z.of_nat (List.length valid) then
    set_observations c
      (take (Z.to_nat (maxObservations c))
        (slice_sort (fun x y => time_after (observedAt x) (observedAt y)) valid))
  else set_observations c valid.

Definition calculatePerceivedLocked (c : BlockHeightConsensus) (now : Time) : Z :=
  match observations c with
  | [] => 0
  | _ =>
      let heights := extractHeightsLocked c in
      let n := List.length heights in
      if Z.of_nat n <? defaultMinObservationsForMedian then height_at heights (n - 1)
      else
        let median := calculateMedian heights in
        let maxAllowed := wrapu64 (median + wrapu64 (bc_syncAllowance c * maxDeviationMultiplier c)) in
        let maxValid := max_in_range maxAllowed heights in
        let maxValid := if maxValid =? 0 then median else maxValid in
        external_floor c now maxValid
  end.

(** Returns the new perceived height with the new state. *)
Definition AddObservation (c : BlockHeightConsensus) (now : Time) (addr : EndpointAddr) (height : Z)
  : Z * BlockHeightConsensus :=
  let c := set_observations c (observations c ++ [mkBlockObservation height now addr]) in
  let c := pruneObservationsLocked c now in
  let perceived := calculatePerceivedLocked c now in
  (perceived, set_cachedPerceived c perceived).
End Consensus.

(** ** Plausibility *)

Lemma plausible_spec candidate current :
  0 <= current <= MaxPlausibleBlockHeight ->
  IsPlausibleBlockHeight candidate current = true <->
  candidate <= MaxPlausibleBlockHeight /\ (current = 0 \/ candidate <= current + MaxBlockHeightJump).
Proof.
  unfold IsPlausibleBlockHeight, MaxPlausibleBlockHeight, MaxBlockHeightJump. intros Hc.
  rewrite wrapu64_id by (unfold in_uint64, max_uint64; lia).
  destruct (Z.ltb_spec 1000000000000 candidate); [split; [discriminate|lia]|].
  destruct (Z.ltb_spec 0 current), (Z.ltb_spec (current + 10000000) candidate); cbn; split; (discriminate || lia).
Qed.

Lemma MinAllowed_spec perceived allowance :
  in_uint64 perceived -> in_uint64 allowance ->
  MinAllowedBlockNumber perceived allowance = Z.max 0 (perceived - allowance).
Proof.
  unfold MinAllowedBlockNumber, in_uint64. intros Hp Ha. destruct (Z.leb_spec perceived allowance); [lia|].
  rewrite wrapu64_id; unfold in_uint64; lia.
Qed.

(** ** Order statistics of a sorted list *)

(** How many heights are at most, and at least, a bound. *)
Definition count_le (H : Z) (l : list Z) : nat := List.length (List.filter (fun h => h <=? H) l).
Definition count_ge (L : Z) (l : list Z) : nat := List.length (List.filter (fun h => L <=? h) l).

#[export] Instance filter_length_proper {A} (f : A -> bool) :
  Proper ((≡ₚ) ==> eq) (fun l => List.length (List.filter f l)).
Proof. intros l1 l2 HP. induction HP; cbn; repeat case_if; cbn; congruence. Qed.

Lemma count_le_perm H l1 l2 : l1 ≡ₚ l2 -> count_le H l1 = count_le H l2.
Proof. apply filter_length_proper. Qed.

Lemma count_ge_perm L l1 l2 : l1 ≡ₚ l2 -> count_ge L l1 = count_ge L l2.
Proof. apply filter_length_proper. Qed.

Lemma filter_length_split {A} (f : A -> bool) (l : list A) i :
  List.length (List.filter f l) =
  (List.length (List.filter f (take i l)) + List.length (List.filter f (drop i l)))%nat.
Proof. rewrite <- (take_drop i l) at 1. now rewrite List.filter_app, length_app. Qed.

Lemma filter_none {A} (f : A -> bool) (l : list A) : (forall x, In x l -> f x = false) -> List.filter f l = [].
Proof.
  induction l as [|x l IH]; [reflexivity|]. intros Hf. cbn. rewrite (Hf x) by now left.
  apply IH. intros y Hy. apply Hf. now right.
Qed.

Lemma filter_length_le' {A} (f : A -> bool) (l : list A) : (List.length (List.filter f l) <= List.length l)%nat.
Proof. induction l as [|x l IH]; cbn; [lia|]. destruct (f x); cbn; lia. Qed.

Lemma sorted_lookup_le (l : list Z) i j x y :
  sorted_by Z.ltb l -> (i <= j)%nat -> l !! i = Some x -> l !! j = Some y -> x <= y.
Proof.
  intros Hs. revert i j. induction Hs as [|z l Hs IH Hz]; intros i j Hij Hi Hj; [discriminate|].
  destruct i as [|i], j as [|j]; cbn in Hi, Hj; simplify_eq; try lia.
  - rewrite Forall_forall in Hz. apply list_elem_of_lookup_2 in Hj. apply Hz in Hj. breflect. lia.
  - eapply IH; [|exact Hi|exact Hj]. lia.
Qed.

(** If more than [i] heights are at most [H], so is the one at index [i]. *)
Lemma sorted_at_le l i x H :
  sorted_by Z.ltb l -> l !! i = Some x -> (i < count_le H l)%nat -> x <= H.
Proof.
  intros Hs Hi Hc. destruct (Z.le_gt_cases x H); [assumption|exfalso].
  unfold count_le in Hc. rewrite (filter_length_split _ l i) in Hc.
  rewrite (filter_none _ (drop i l)) in Hc.
  - cbn in Hc. pose proof (filter_length_le' (fun h => h <=? H) (take i l)) as Hle.
    rewrite length_take in Hle. lia.
  - intros y Hy. apply list_elem_of_In, list_elem_of_lookup in Hy as [j Hj]. rewrite lookup_drop in Hj.
    apply Z.leb_gt. pose proof (sorted_lookup_le l i (i + j) x y Hs ltac:(lia) Hi Hj). lia.
Qed.

(** If at least [length l - i] heights are at least [L], so is the one at [i]. *)
Lemma sorted_at_ge l i x L :
  sorted_by Z.ltb l -> l !! i = Some x -> (List.length l - i <= count_ge L l)%nat -> L <= x.
Proof.
  intros Hs Hi Hc. destruct (Z.le_gt_cases L x); [assumption|exfalso].
  pose proof (lookup_lt_Some _ _ _ Hi) as Hlt.
  unfold count_ge in Hc. rewrite (filter_length_split _ l (S i)) in Hc.
  rewrite (filter_none _ (take (S i) l)) in Hc.
  - cbn in Hc. pose proof (filter_length_le' (fun h => L <=? h) (drop (S i) l)) as Hle.
    rewrite length_drop in Hle. lia.
  - intros y Hy. apply list_elem_of_In, list_elem_of_lookup in Hy as [j Hj].
    apply lookup_take_Some in Hj as [Hj Hlt']. apply Z.leb_gt.
    pose proof (sorted_lookup_le l j i y x Hs ltac:(lia) Hj Hi). lia.
Qed.

(** ** The median and the maximum in range *)

(** The two middle elements of a sorted list (the same one if its length is odd). *)
Definition lower_middle (l : list Z) : nat := ((List.length l - 1) / 2)%nat.
Definition upper_middle (l : list Z) : nat := (List.length l / 2)%nat.

Lemma height_at_lookup (l : list Z) i : (i < List.length l)%nat -> l !! i = Some (height_at l i).
Proof. intros Hi. unfold height_at. destruct (lookup_lt_is_Some_2 l i Hi) as [x ->]. reflexivity. Qed.

Lemma median_between l :
  sorted_by Z.ltb l -> l <> [] -> Forall (fun h => 0 <= h) l ->
  height_at l (lower_middle l) + height_at l (upper_middle l) <= max_uint64 ->
  height_at l (lower_middle l) <= calculateMedian l <= height_at l (upper_middle l).
Proof.
  intros Hs Hne Hpos Hsum. unfold lower_middle, upper_middle, calculateMedian in *.
  set (n := List.length l) in *.
  assert (0 < n)%nat as Hn by (destruct l; [contradiction|subst n; cbn; lia]).
  destruct (Nat.eqb_spec n 0); [lia|].
  pose proof (Nat.div_mod n 2 ltac:(lia)) as Hd. pose proof (Nat.mod_upper_bound n 2 ltac:(lia)) as Hm.
  destruct (Nat.eqb_spec (n mod 2) 0) as [E|E].
  - assert ((n - 1) / 2 = n / 2 - 1)%nat as El.
    { symmetry. apply Nat.div_unique with 1%nat; lia. }
    rewrite El in *. pose proof (height_at_lookup l (n / 2 - 1) ltac:(fold n; lia)) as H1.
    pose proof (height_at_lookup l (n / 2) ltac:(fold n; lia)) as H2.
    pose proof (sorted_lookup_le l (n / 2 - 1) (n / 2) _ _ Hs ltac:(lia) H1 H2).
    rewrite Forall_forall in Hpos. apply list_elem_of_lookup_2, Hpos in H1.
    rewrite wrapu64_id by (unfold in_uint64; lia).
    split; [apply Z.div_le_lower_bound|apply Z.div_le_upper_bound]; lia.
  - assert ((n - 1) / 2 = n / 2)%nat as ->.
    { symmetry. apply Nat.div_unique with 0%nat; lia. }
    lia.
Qed.

Lemma max_in_range_acc m l a :
  let r := fold_left (fun v h => if h <=? m then if v <? h then h else v else v) l a in
  a <= r /\ (r = a \/ In r l /\ r <= m) /\ (forall h, In h l -> h <= m -> h <= r).
Proof.
  revert a. induction l as [|x l IH]; intros a; cbn.
  - split; [lia|]. split; [now left|]. intros h [].
  - match goal with |- context [fold_left _ l ?a'] => set (b := a') end.
    destruct (IH b) as (H1 & H2 & H3). subst b.
    destruct (Z.leb_spec x m), (Z.ltb_spec a x); repeat split; try lia; try tauto.
    all: try (destruct H2 as [->|[]]; intuition lia).
    all: intros h [<-|Hh] Hm; try lia; auto.
Qed.

Lemma max_in_range_spec m l :
  0 <= max_in_range m l /\
  (max_in_range m l = 0 \/ In (max_in_range m l) l /\ max_in_range m l <= m) /\
  (forall h, In h l -> h <= m -> h <= max_in_range m l).
Proof. apply max_in_range_acc. Qed.

(** ** What a strict majority of the window decides *)

Section Resists.
Context {sorter : SliceSort} {sorter_laws : SliceSortLaws}.

Lemma extract_sorted c : sorted_by Z.ltb (extractHeightsLocked c).
Proof. apply slice_sort_sorted, (weak_order_key (fun h => h)). Qed.

Lemma extract_perm c : extractHeightsLocked c ≡ₚ map blockHeight (observations c).
Proof. apply slice_sort_perm. Qed.

Lemma extract_length c : List.length (extractHeightsLocked c) = List.length (observations c).
Proof. rewrite extract_perm. apply length_map. Qed.

(** A strict majority of the window reports between [L] and [H]. *)
Definition majority_between (L H : Z) (heights : list Z) : Prop :=
  (List.length heights < 2 * count_le H heights)%nat /\ (List.length heights < 2 * count_ge L heights)%nat.

Lemma middles_between L H l :
  sorted_by Z.ltb l -> l <> [] -> majority_between L H l ->
  L <= height_at l (lower_middle l) /\ height_at l (upper_middle l) <= H.
Proof.
  intros Hs Hne [Hle Hge]. unfold lower_middle, upper_middle.
  assert (0 < List.length l)%nat as Hn by (destruct l; [contradiction|cbn; lia]).
  pose proof (Nat.div_mod (List.length l) 2 ltac:(lia)).
  pose proof (Nat.mod_upper_bound (List.length l) 2 ltac:(lia)).
  pose proof (Nat.div_mod (List.length l - 1) 2 ltac:(lia)).
  pose proof (Nat.mod_upper_bound (List.length l - 1) 2 ltac:(lia)).
  split.
  - eapply sorted_at_ge; [exact Hs|apply height_at_lookup; lia|lia].
  - eapply sorted_at_le; [exact Hs|apply height_at_lookup; lia|lia].
Qed.

Lemma external_floor_cases c now v :
  0 <= v < 2 ^ 64 - MaxBlockHeightJump ->
  external_floor c now v = v \/
  external_floor c now v = externalBlockHeight c /\ v < externalBlockHeight c <= MaxPlausibleBlockHeight /\
  (v = 0 \/ externalBlockHeight c <= v + MaxBlockHeightJump) /\
  externalBlockGracePeriod c <= time_sub now (createdAt c).
Proof.
  intros Hv. unfold external_floor. destruct (_ && _) eqn:E; [|now left]. breflect.
  destruct (IsPlausibleBlockHeight _ v) eqn:Ep; cbn; [|now left].
  destruct (Z.leb_spec (externalBlockGracePeriod c) (time_sub now (createdAt c))); [right|now left].
  unfold IsPlausibleBlockHeight in Ep.
  destruct (Z.ltb_spec MaxPlausibleBlockHeight (externalBlockHeight c)); [discriminate|].
  rewrite wrapu64_id in Ep by (unfold in_uint64, max_uint64, MaxBlockHeightJump in *; lia).
  destruct (_ && _) eqn:Ej in Ep; [discriminate|]. apply andb_false_iff in Ej as [Ej|Ej]; breflect; lia.
Qed.

(** The state-level form: whatever the rest of the window says. *)
Lemma perceived_between c now L H :
  let heights := map blockHeight (observations c) in
  let slack := bc_syncAllowance c * maxDeviationMultiplier c in
  (3 <= List.length (observations c))%nat ->
  Forall (fun h => 0 <= h) heights -> majority_between L H heights ->
  0 < L -> 0 <= slack -> H + slack < 2 ^ 63 ->
  L <= calculatePerceivedLocked c now /\
  (calculatePerceivedLocked c now <= H + slack \/
   calculatePerceivedLocked c now = externalBlockHeight c /\
   externalBlockHeight c <= H + slack + MaxBlockHeightJump /\
   externalBlockGracePeriod c <= time_sub now (createdAt c)).
Proof.
  intros heights slack Hn Hpos Hmaj HL Hslack Hmax.
  unfold calculatePerceivedLocked. destruct (observations c) as [|o os] eqn:Eo; [cbn in Hn; lia|].
  assert (extractHeightsLocked c ≡ₚ heights) as HP by (subst heights; rewrite <- Eo; apply extract_perm).
  assert (majority_between L H (extractHeightsLocked c)) as Hmaj'.
  { unfold majority_between. now rewrite (count_le_perm _ _ _ HP), (count_ge_perm _ _ _ HP), HP. }
  assert (Forall (fun h => 0 <= h) (extractHeightsLocked c)) as Hpos' by now rewrite HP.
  pose proof (extract_sorted c) as Hs. pose proof (extract_length c) as Hlen. rewrite Eo in Hlen.
  set (l := extractHeightsLocked c) in *. clearbody l.
  assert (l <> []) as Hne by (destruct l; [cbn in Hlen; lia|discriminate]).
  destruct (Z.ltb_spec (Z.of_nat (List.length l)) defaultMinObservationsForMedian) as [Hlt|_];
    [unfold defaultMinObservationsForMedian in Hlt; lia|].
  destruct (middles_between L H l Hs Hne Hmaj') as [Hlo Hhi].
  assert (lower_middle l < List.length l)%nat as Hml.
  { unfold lower_middle. apply Nat.Div0.div_lt_upper_bound; lia. }
  assert (lower_middle l <= upper_middle l)%nat as Hmm by (apply Nat.Div0.div_le_mono; lia).
  assert (upper_middle l < List.length l)%nat as Hmu by (apply Nat.Div0.div_lt_upper_bound; lia).
  pose proof (height_at_lookup l _ Hml) as Elo. pose proof (height_at_lookup l _ Hmu) as Ehi.
  pose proof (sorted_lookup_le _ _ _ _ _ Hs Hmm Elo Ehi) as Hord.
  pose proof (median_between l Hs Hne Hpos' ltac:(unfold max_uint64; lia)) as Hmed.
  fold slack. set (med := calculateMedian l) in *.
  rewrite (wrapu64_id slack) by (unfold in_uint64, max_uint64; lia).
  rewrite wrapu64_id by (unfold in_uint64, max_uint64; lia).
  destruct (max_in_range_spec (med + slack) l) as (Hv0 & Hv1 & Hv2).
  assert (height_at l (lower_middle l) <= max_in_range (med + slack) l) as Hv.
  { apply Hv2; [|lia]. apply list_elem_of_In. eapply list_elem_of_lookup_2. exact Elo. }
  destruct (Z.eqb_spec (max_in_range (med + slack) l) 0); [lia|].
  set (v := max_in_range (med + slack) l) in *.
  destruct (external_floor_cases c now v) as [->|(-> & Hext & [?|?] & Hg)];
    unfold MaxBlockHeightJump in *; try split; try lia.
Qed.
End Resists.

(** ** Runs of reports *)

Section Runs.
Context {sorter : SliceSort} {sorter_laws : SliceSortLaws}.

(** A log of reports, oldest first, added one after the other. *)
Definition observe (c : BlockHeightConsensus) (o : blockObservation) : BlockHeightConsensus :=
  snd (AddObservation c (observedAt o) (endpointAddr o) (blockHeight o)).

Definition observe_all (c : BlockHeightConsensus) (log : list blockObservation) : BlockHeightConsensus :=
  fold_left observe log c.

Lemma observe_all_snoc c log o : observe_all c (log ++ [o]) = observe (observe_all c log) o.
Proof. unfold observe_all. now rewrite fold_left_app. Qed.

(** The reports of a log that a window ending at [now] holds. *)
Definition in_window (window : Duration) (now : Time) (log : list blockObservation) : list blockObservation :=
  List.filter (fun o => time_after (observedAt o) (time_add now (- window))) log.

(** The clock never goes back along the log, and stands at [now] after it. *)
Definition clock_ordered (log : list blockObservation) (now : Time) : Prop :=
  StronglySorted (fun x y => observedAt x <= observedAt y) log /\ Forall (fun o => observedAt o <= now) log.

(** What [observe] leaves alone. *)
Definition same_settings (c d : BlockHeightConsensus) : Prop :=
  observationWindow d = observationWindow c /\ maxObservations d = maxObservations c /\
  bc_syncAllowance d = bc_syncAllowance c /\ maxDeviationMultiplier d = maxDeviationMultiplier c /\
  externalBlockHeight d = externalBlockHeight c /\ createdAt d = createdAt c /\
  externalBlockGracePeriod d = externalBlockGracePeriod c.

Lemma observe_settings c o : same_settings c (observe c o).
Proof. unfold observe, AddObservation, pruneObservationsLocked. cbn. destruct (_ <? _); repeat split. Qed.

Lemma observe_all_settings c log : same_settings c (observe_all c log).
Proof.
  revert c. induction log as [|o log IH]; intros c; cbn; [repeat split|].
  destruct (IH (observe c o)) as (? & ? & ? & ? & ? & ? & ?).
  destruct (observe_settings c o) as (? & ? & ? & ? & ? & ? & ?).
  repeat split; etrans; eassumption.
Qed.

(** The window never holds more than [maxObservations] reports, each of them a
    report that was there before or the new one. *)
Lemma observe_window c o :
  0 <= maxObservations c ->
  Z.of_nat (List.length (observations (observe c o))) <= maxObservations c /\
  (forall x, In x (observations (observe c o)) -> x = o \/ In x (observations c)) /\
  Forall (fun x => observedAt o - observationWindow c < observedAt x) (observations (observe c o)).
Proof.
  intros Hm. unfold observe, AddObservation, pruneObservationsLocked. cbn.
  set (valid := List.filter _ _).
  assert (forall x, In x valid -> (x = o \/ In x (observations c)) /\ observedAt o - observationWindow c < observedAt x) as Hv.
  { intros x Hx. apply filter_In in Hx as [Hx Ht]. unfold time_after, time_add in Ht. breflect.
    split; [|lia]. apply in_app_or in Hx as [Hx|[<-|[]]]; [now right|left]. now destruct o. }
  destruct (Z.ltb_spec (maxObservations c) (Z.of_nat (List.length valid))); cbn.
  - set (srt := slice_sort _ valid).
    assert (forall x, In x (take (Z.to_nat (maxObservations c)) srt) -> In x valid) as Ht.
    { intros x Hx. assert (In x srt) as Hs by (rewrite <- (take_drop (Z.to_nat (maxObservations c)) srt); apply in_or_app; now left).
      subst srt. now rewrite slice_sort_perm in Hs. }
    split; [rewrite length_take; lia|]. split; [intros x Hx; now apply Hv, Ht|].
    apply Forall_forall. intros x Hx. apply Hv, Ht. now apply list_elem_of_In.
  - split; [lia|]. split; [intros x Hx; now apply Hv|].
    apply Forall_forall. intros x Hx. apply Hv. now apply list_elem_of_In.
Qed.

Lemma in_window_app w now l1 l2 : in_window w now (l1 ++ l2) = (in_window w now l1 ++ in_window w now l2)%list.
Proof. apply List.filter_app. Qed.

Lemma in_window_twice w t now l : t <= now -> in_window w now (in_window w t l) = in_window w now l.
Proof.
  intros Ht. induction l as [|o l IH]; [reflexivity|]. unfold in_window in *. cbn.
  unfold time_after, time_add in *.
  destruct (Z.ltb_spec (t + - w) (observedAt o)); cbn;
    destruct (Z.ltb_spec (now + - w) (observedAt o)); rewrite ?IH; reflexivity || lia.
Qed.

Lemma in_window_length w now l : (List.length (in_window w now l) <= List.length l)%nat.
Proof. apply filter_length_le'. Qed.

(** Dropping the oldest reports beyond the cap leaves a window that holds no more than the cap. *)
Lemma window_take_sorted w now m l : sorted_by (fun x y => time_after (observedAt x) (observedAt y)) l ->
  (List.length (in_window w now l) <= m)%nat -> in_window w now (take m l) = in_window w now l.
Proof.
  intros Hs. revert m. induction Hs as [|x l Hs IH Hx]; intros m Hm; [by destruct m|]. unfold in_window in *. cbn in Hm |- *.
  destruct (time_after (observedAt x) (time_add now (- w))) eqn:E; cbn in Hm.
  - destruct m as [|m]; [lia|]. cbn. rewrite E, IH by lia. done.
  - assert (Forall (fun y => time_after (observedAt y) (time_add now (- w)) = false) l) as Hout.
    { eapply Forall_impl; [exact Hx|]. cbn. unfold time_after in *. intros y Hy. breflect. lia. }
    assert (forall l', (forall y, In y l' -> In y l) -> List.filter (fun o => time_after (observedAt o) (time_add now (- w))) l' = []) as Hnone.
    { induction l' as [|y l' IHl]; intros Hin; [done|]. cbn. rewrite Forall_forall in Hout.
      rewrite Hout by (apply list_elem_of_In, Hin; now left). apply IHl. intros z Hz. apply Hin. now right. }
    rewrite (Hnone l) by done. destruct m as [|m]; [done|]. cbn. rewrite E. apply Hnone.
    intros y Hy. rewrite <- (take_drop m l). apply in_or_app. now left.
Qed.

Lemma in_window_perm w now l1 l2 : l1 ≡ₚ l2 -> in_window w now l1 ≡ₚ in_window w now l2.
Proof. intros HP. unfold in_window. induction HP; cbn; repeat case_if; try done; [by constructor|constructor|by etrans]. Qed.

(** A report leaves the window of any later time as it should be, while that window is not over the cap. *)
Lemma observe_observations c o now : observedAt o <= now -> 0 <= maxObservations c ->
  Z.of_nat (List.length (in_window (observationWindow c) now (observations c ++ [o]))) <= maxObservations c ->
  in_window (observationWindow c) now (observations (observe c o)) ≡ₚ in_window (observationWindow c) now (observations c ++ [o]).
Proof.
  intros Ho H0 Hm. unfold observe, AddObservation, pruneObservationsLocked. cbn -[in_window].
  replace (mkBlockObservation (blockHeight o) (observedAt o) (endpointAddr o)) with o by now destruct o.
  fold (in_window (observationWindow c) (observedAt o) (observations c ++ [o])).
  set (valid := in_window (observationWindow c) (observedAt o) (observations c ++ [o])).
  assert (in_window (observationWindow c) now valid = in_window (observationWindow c) now (observations c ++ [o])) as Hv by (by apply in_window_twice).
  destruct (maxObservations c <? Z.of_nat (List.length valid)); cbn -[in_window]; [|by rewrite Hv].
  set (less := fun x y : blockObservation => time_after (observedAt x) (observedAt y)).
  pose proof (in_window_perm (observationWindow c) now _ _ (slice_sort_perm _ less valid)) as HP.
  rewrite window_take_sorted; [by rewrite HP, Hv|apply slice_sort_sorted, (weak_order_key_desc observedAt)|].
  rewrite HP, Hv. lia.
Qed.

(** After any log, what is left of it at a later time is what the window of that time should hold,
    while that is not over the cap. *)
Lemma observe_all_window c log now :
  observations c = [] -> 0 <= maxObservations c -> Forall (fun o => observedAt o <= now) log ->
  Z.of_nat (List.length (in_window (observationWindow c) now log)) <= maxObservations c ->
  in_window (observationWindow c) now (observations (observe_all c log)) ≡ₚ in_window (observationWindow c) now log.
Proof.
  intros H0 H1. induction log as [|o log IH] using rev_ind; intros Hf Hlen; [cbn; by rewrite H0|].
  rewrite in_window_app, length_app in Hlen. apply Forall_app in Hf as [Hf Ho]. apply Forall_cons in Ho as [Ho _].
  specialize (IH Hf ltac:(lia)). rewrite observe_all_snoc. set (d := observe_all c log) in *.
  destruct (observe_all_settings c log) as (Ew & Em & _). fold d in Ew, Em. rewrite <- Ew in *.
  assert (in_window (observationWindow d) now (observations d ++ [o]) ≡ₚ in_window (observationWindow d) now (log ++ [o])) as HP
    by (rewrite !in_window_app; by f_equiv).
  rewrite observe_observations; [exact HP|exact Ho|lia|]. rewrite HP, in_window_app, length_app. lia.
Qed.

(** The same for a consensus just created, at the report that ends the log. *)
Lemma new_consensus_window t0 allowance log o :
  Forall (fun x => observedAt x <= observedAt o) log ->
  Z.of_nat (List.length (in_window defaultObservationWindow (observedAt o) (log ++ [o]))) <= defaultMaxObservations ->
  observations (observe (observe_all (NewBlockHeightConsensus t0 allowance) log) o) ≡ₚ
  in_window defaultObservationWindow (observedAt o) (log ++ [o]).
Proof.
  intros Hc Hlen. set (c := NewBlockHeightConsensus t0 allowance). rewrite <- observe_all_snoc.
  assert (Forall (fun x => observedAt x <= observedAt o) (log ++ [o])) as Hc' by (apply Forall_app; split; [done|by repeat constructor]).
  pose proof (observe_all_window c (log ++ [o]) (observedAt o) eq_refl ltac:(cbn; lia) Hc' Hlen) as HP. cbn [c observationWindow NewBlockHeightConsensus] in HP.
  rewrite <- HP. clear HP. rewrite observe_all_snoc. set (d := observe_all c log).
  destruct (observe_all_settings c log) as (Ew & Em & _). fold d in Ew, Em.
  destruct (observe_window d o) as (_ & _ & Hin); [rewrite Em; cbn; lia|]. rewrite Ew in Hin. change (observationWindow c) with defaultObservationWindow in Hin.
  unfold in_window. revert Hin. generalize (observations (observe d o)). intros obs Hin. induction Hin as [|x l Hx Hin IH]; [reflexivity|]. cbn.
  replace (time_after (observedAt x) (time_add (observedAt o) (- defaultObservationWindow))) with true; [by apply perm_skip|].
  symmetry. unfold time_after, time_add. apply Z.ltb_lt. lia.
Qed.
End Runs.

(** ** Claims *)

Section Claims.
Context {sorter : SliceSort} {sorter_laws : SliceSortLaws}.

(** The consensus a report meets: created at [t0], after a log of reports, with
    an external height. *)
Definition consensus_after (t0 : Time) (allowance ext : Z) (log : list blockObservation) : BlockHeightConsensus :=
  SetExternalBlockHeight (observe_all (NewBlockHeightConsensus t0 allowance) log) ext.

(** The window a report leaves, as heights. *)
Definition window_heights (log : list blockObservation) (o : blockObservation) : list Z :=
  map blockHeight (in_window defaultObservationWindow (observedAt o) (log ++ [o])).

Lemma AddObservation_pruned c now addr h :
  exists d, fst (AddObservation c now addr h) = calculatePerceivedLocked d now /\ same_settings c d /\
    observations d = observations (observe c (mkBlockObservation h now addr)).
Proof.
  eexists. split; [reflexivity|]. unfold observe, AddObservation, pruneObservationsLocked. cbn.
  destruct (_ <? _); repeat split.
Qed.

Lemma observe_external c ext o :
  observations (observe (SetExternalBlockHeight c ext) o) = observations (observe c o).
Proof. unfold observe, AddObservation, pruneObservationsLocked. cbn. destruct (_ <? _); reflexivity. Qed.

Lemma run_perceived_between t0 allowance ext log o L H :
  let p := fst (AddObservation (consensus_after t0 allowance ext log) (observedAt o) (endpointAddr o) (blockHeight o)) in
  let heights := window_heights log o in
  Z.of_nat (List.length heights) <= defaultMaxObservations -> Forall (fun x => observedAt x <= observedAt o) log ->
  (3 <= List.length heights)%nat -> Forall (fun h => 0 <= h) heights -> majority_between L H heights ->
  0 < L -> 0 <= allowance -> H + 3 * allowance < 2 ^ 63 ->
  L <= p /\
  (p <= H + 3 * allowance \/
   p = ext /\ ext <= H + 3 * allowance + MaxBlockHeightJump /\
   defaultExternalBlockGracePeriod <= time_sub (observedAt o) t0).
Proof.
  intros p heights Hlen Hclock Hn Hpos Hmaj HL Ha HH.
  destruct (AddObservation_pruned (consensus_after t0 allowance ext log) (observedAt o) (endpointAddr o) (blockHeight o))
    as (d & Hp & (Ew & Em & Es & Ed & Ee & Ec & Eg) & Eo).
  replace (mkBlockObservation (blockHeight o) (observedAt o) (endpointAddr o)) with o in Eo by now destruct o.
  unfold consensus_after in *. rewrite observe_external in Eo.
  pose proof (new_consensus_window t0 allowance log o Hclock ltac:(unfold heights, window_heights in Hlen; rewrite length_map in Hlen; exact Hlen)) as HP.
  rewrite <- Eo in HP. apply (Permutation_map blockHeight) in HP. fold (window_heights log o) in HP. fold heights in HP.
  destruct (observe_all_settings (NewBlockHeightConsensus t0 allowance) log) as (_ & _ & Fs & Fd & _ & Fc & Fg).
  cbn [SetExternalBlockHeight bc_syncAllowance maxDeviationMultiplier externalBlockHeight createdAt externalBlockGracePeriod] in *.
  assert (bc_syncAllowance d * maxDeviationMultiplier d = 3 * allowance) as Eslack.
  { rewrite Es, Ed, Fs, Fd. cbn. unfold defaultMaxDeviationMultiplier, defaultEVMBlockNumberSyncAllowance.
    destruct (Z.eqb_spec allowance 0); lia. }
  subst p. rewrite Hp. rewrite <- HP in Hpos.
  assert (majority_between L H (map blockHeight (observations d))) as Hmaj'.
  { unfold majority_between in *. by rewrite (count_le_perm _ _ _ HP), (count_ge_perm _ _ _ HP), HP. }
  assert (3 <= List.length (observations d))%nat as Hn' by (rewrite <- (length_map blockHeight), HP; exact Hn).
  pose proof (perceived_between d (observedAt o) L H Hn' Hpos Hmaj' HL) as Hb.
  rewrite Eslack, Ee, Ec, Eg, Fc, Fg in Hb. apply Hb; lia.
Qed.

(** C5: a strict majority of the reports of the last two minutes decides the perceived height, whatever
    the others report: when the window of a report holds between three and a thousand reports, none
    taken later than it, more than half of them at least [L] and more than half at most [H], the
    perceived height is at least [L], and at most [H] plus three sync allowances, unless the external
    source, after its grace period, raises it beyond that, by no more than the plausible jump. *)
Theorem consensus_resists_minority t0 allowance ext log o L H :
  let p := fst (AddObservation (consensus_after t0 allowance ext log) (observedAt o) (endpointAddr o) (blockHeight o)) in
  let heights := window_heights log o in
  Z.of_nat (List.length heights) <= defaultMaxObservations -> Forall (fun x => observedAt x <= observedAt o) log ->
  (3 <= List.length heights)%nat -> Forall (fun h => 0 <= h) heights -> majority_between L H heights ->
  0 < L -> 0 <= allowance -> H + 3 * allowance < 2 ^ 63 ->
  L <= p /\
  (p <= H + 3 * allowance \/
   p = ext /\ ext <= H + 3 * allowance + MaxBlockHeightJump /\
   defaultExternalBlockGracePeriod <= time_sub (observedAt o) t0).
Proof. apply run_perceived_between. Qed.

(** The reports of one endpoint in the window. *)
Definition reports_of (addr : EndpointAddr) (log : list blockObservation) (o : blockObservation) : list blockObservation :=
  List.filter (fun x => (endpointAddr x =? addr)%string) (in_window defaultObservationWindow (observedAt o) (log ++ [o])).

Lemma filter_length_mono {A} (f g : A -> bool) l :
  (forall x, In x l -> f x = true -> g x = true) ->
  (List.length (List.filter f l) <= List.length (List.filter g l))%nat.
Proof.
  induction l as [|x l IH]; intros Hfg; [cbn; lia|]. cbn.
  pose proof (IH ltac:(intros y Hy; apply Hfg; now right)).
  destruct (f x) eqn:Ef; [rewrite (Hfg x (or_introl eq_refl) Ef)|destruct (g x)]; cbn; lia.
Qed.

Lemma filter_map_length {A B} (f : A -> B) (p : B -> bool) l :
  List.length (List.filter p (map f l)) = List.length (List.filter (fun x => p (f x)) l).
Proof. induction l as [|x l IH]; [reflexivity|]. cbn. destruct (p (f x)); cbn; congruence. Qed.

(** The window counts reports, not endpoints.  One endpoint that reports
    more often than all the others together, always the same height [X], fixes
    the perceived height between [X] and [X] plus three sync allowances, however
    many other endpoints report something else. *)
Theorem one_endpoint_can_hold_majority t0 allowance log o addr X :
  let p := fst (AddObservation (consensus_after t0 allowance 0 log) (observedAt o) (endpointAddr o) (blockHeight o)) in
  let heights := window_heights log o in
  Z.of_nat (List.length log) < defaultMaxObservations -> clock_ordered log (observedAt o) ->
  (3 <= List.length heights)%nat -> Forall (fun h => 0 <= h) heights ->
  Forall (fun x => blockHeight x = X) (reports_of addr log o) ->
  (List.length heights < 2 * List.length (reports_of addr log o))%nat ->
  0 < X -> 0 <= allowance -> X + 3 * allowance < 2 ^ 63 ->
  X <= p <= X + 3 * allowance.
Proof.
  intros p heights Hlen Hclock Hn Hpos HX Hmaj HX0 Ha HXa.
  set (win := in_window defaultObservationWindow (observedAt o) (log ++ [o])).
  assert (forall f : Z -> bool, f X = true ->
    (List.length (reports_of addr log o) <= List.length (List.filter f heights))%nat) as Hc.
  { intros f Hf. unfold heights, window_heights. rewrite filter_map_length. apply filter_length_mono.
    intros x Hx Hax. rewrite Forall_forall in HX. rewrite (HX x); [exact Hf|].
    apply list_elem_of_In, filter_In. now split. }
  assert (majority_between X X heights) as Hm.
  { pose proof (Hc (fun h => h <=? X) (Z.leb_refl X)). pose proof (Hc (fun h => X <=? h) (Z.leb_refl X)).
    unfold majority_between, count_le, count_ge. lia. }
  assert (Z.of_nat (List.length heights) <= defaultMaxObservations) as Hlen'.
  { unfold heights, window_heights. rewrite length_map.
    pose proof (in_window_length defaultObservationWindow (observedAt o) (log ++ [o])) as Hl. rewrite length_app in Hl. cbn in Hl. lia. }
  destruct (run_perceived_between t0 allowance 0 log o X X Hlen' (proj2 Hclock) Hn Hpos Hm HX0 Ha HXa) as [H1 [H2|[H2 _]]];
    fold p in H1, H2; lia.
Qed.
End Claims.

Definition report (t h : Z) (addr : EndpointAddr) : blockObservation := mkBlockObservation h (t * second) addr.

(** Two honest endpoints and one that reports a height far ahead. *)
Definition demo_log : list blockObservation := [report 10 1000 "a"; report 11 999999999 "b"].

Lemma consensus_resists_minority_witness :
  1000 <= fst (AddObservation (consensus_after 0 10 0 demo_log) (12 * second) "c" 1001) <= 1031.
Proof.
  destruct (consensus_resists_minority 0 10 0 demo_log (report 12 1001 "c") 1000 1001) as [H1 [H2|[H2 _]]].
  - vm_compute. discriminate.
  - repeat constructor; cbv; discriminate.
  - vm_compute. lia.
  - repeat constructor; cbv; discriminate.
  - split; vm_compute; lia.
  - lia.
  - lia.
  - lia.
  - cbn [observedAt endpointAddr blockHeight report] in H1, H2. lia.
  - cbn [observedAt endpointAddr blockHeight report] in H1, H2. rewrite H2 in H1. lia.
Defined.

(** Two honest endpoints, and one that reports three times. *)
Definition flooded_log : list blockObservation :=
  [report 10 1000 "a"; report 11 1000 "b"; report 12 5000000 "liar"; report 13 5000000 "liar"].

Lemma one_endpoint_can_hold_majority_witness :
  5000000 <= fst (AddObservation (consensus_after 0 10 0 flooded_log) (14 * second) "liar" 5000000) <= 5000030.
Proof.
  refine (one_endpoint_can_hold_majority 0 10 flooded_log (report 14 5000000 "liar") "liar" 5000000 _ _ _ _ _ _ _ _ _).
  - reflexivity.
  - split; repeat constructor; cbv; discriminate.
  - vm_compute. lia.
  - repeat constructor; cbv; discriminate.
  - repeat constructor.
  - vm_compute. lia.
  - lia.
  - lia.
  - lia.
Defined.

(** The sum of the two middle heights wraps: with half of the reports at the
    largest uint64, the perceived height is below every report. *)
Example half_max_reports_sink_perceived :
  fst (AddObservation
    (consensus_after 0 10 0 [report 10 100 "a"; report 11 100 "b"; report 12 max_uint64 "c"])
    (13 * second) "d" max_uint64) = 49.
Proof. vm_compute. reflexivity. Qed.
