(* ===== verification/EvmQoS.v ===== *)
(** * The EVM QoS service: qos/evm

    The state of [serviceState] (endpoint store, perceived block, consensus,
    archival cache, heights by URL read from Redis) and its operations: applying
    observations and extracted data, the external block source, the background
    exchange with the reputation service, endpoint validation, and the selection
    paths with their fallbacks (endpoint_store.go, service_state.go, qos.go,
    endpoint_selection.go, archival_cache.go, check_*.go, state_archival.go,
    service_qos_config.go).

    Every operation takes the time.  Work the code hands to a goroutine is
    returned as a list of tasks for the reputation service ([rep_task]).  The
    iteration order of a Go map is an argument where it can matter.  Locks are
    held for whole operations, logging and metrics return nothing, and the text
    of validation errors is left out.  The request parsing of the package is not
    part of this file. *)

From S2P Require Import Prelude GoStrings Float64 GoSort Domain RepKey Signals Score RepConfig RepStorage RepService Selection BlockConsensus.
From Stdlib Require Import ZArith Lia Bool Ascii String.
From stdpp Require Import base list gmap strings fin_maps.

Open Scope string_scope.
Open Scope Z_scope.
Open Scope go_scope.

(** ** Data *)

Record endpointCheckBlockNumber := mkCheckBlockNumber { parsedBlockNumberResponse : option Z }.
Record endpointCheckChainID := mkCheckChainID { chainID : option string; chain_expiresAt : Time }.
Record endpointCheckArchival := mkCheckArchival { isArchival : bool; archival_expiresAt : Time }.

(** [invalidResponseError] is a member of a generated enumeration. *)
Record endpoint := mkEndpoint {
  invalidResponseLastObserved : option Time;
  hasReturnedEmptyResponse : bool;
  hasReturnedInvalidResponse : bool;
  invalidResponseError : Z;
  checkBlockNumber : endpointCheckBlockNumber;
  checkChainID : endpointCheckChainID;
  checkArchival : endpointCheckArchival;
  lastSeen : Time;
}.

(** The zero value of the Go struct, what a map lookup yields for an absent key. *)
Definition zero_endpoint : endpoint :=
  mkEndpoint None false false 0 (mkCheckBlockNumber None) (mkCheckChainID None time_zero)
    (mkCheckArchival false time_zero) time_zero.

Definition set_checkBlockNumber (e : endpoint) (h : Z) : endpoint :=
  mkEndpoint (invalidResponseLastObserved e) (hasReturnedEmptyResponse e) (hasReturnedInvalidResponse e)
    (invalidResponseError e) (mkCheckBlockNumber (Some h)) (checkChainID e) (checkArchival e) (lastSeen e).
Definition set_checkChainID (e : endpoint) (c : endpointCheckChainID) : endpoint :=
  mkEndpoint (invalidResponseLastObserved e) (hasReturnedEmptyResponse e) (hasReturnedInvalidResponse e)
    (invalidResponseError e) (checkBlockNumber e) c (checkArchival e) (lastSeen e).
Definition set_checkArchival (e : endpoint) (c : endpointCheckArchival) : endpoint :=
  mkEndpoint (invalidResponseLastObserved e) (hasReturnedEmptyResponse e) (hasReturnedInvalidResponse e)
    (invalidResponseError e) (checkBlockNumber e) (checkChainID e) c (lastSeen e).
Definition set_lastSeen (e : endpoint) (t : Time) : endpoint :=
  mkEndpoint (invalidResponseLastObserved e) (hasReturnedEmptyResponse e) (hasReturnedInvalidResponse e)
    (invalidResponseError e) (checkBlockNumber e) (checkChainID e) (checkArchival e) t.

Definition getBlockNumber (c : endpointCheckBlockNumber) : option Z :=
  match parsedBlockNumberResponse c with
  | Some n => if n =? 0 then None else Some n
  | None => None
  end.

Definition archival_isValid (e : endpointCheckArchival) (now : Time) : bool :=
  if negb (isArchival e) then false
  else if time_is_zero (archival_expiresAt e) then false
  else time_before now (archival_expiresAt e).

(** [isArchivalCapable]: nil error. *)
Definition check_isArchivalCapable (check : endpointCheckArchival) (now : Time) : bool := archival_isValid check now.

(** ** Configuration *)

Definition checkChainIDInterval : Duration := 20 * minute.
Definition invalidResponseTimeout : Duration := 5 * minute.
Definition defaultEndpointTTL : Duration := 2 * hour.
Definition ArchivalStatusTTL : Duration := 30 * minute.

Inductive EVMServiceQoSConfig :=
| simpleServiceConfig (serviceID : ServiceID) (syncAllowance : Z) (maxOperatorShare : float64)
| evmServiceQoSConfig (serviceID : ServiceID) (evmChainID : string) (syncAllowance : Z) (supportedAPIs : gset Z).

Definition GetServiceID (c : EVMServiceQoSConfig) : ServiceID :=
  match c with simpleServiceConfig s _ _ => s | evmServiceQoSConfig s _ _ _ => s end.
Definition getEVMChainID (c : EVMServiceQoSConfig) : string :=
  match c with simpleServiceConfig _ _ _ => "" | evmServiceQoSConfig _ i _ _ => i end.
Definition getSyncAllowance (c : EVMServiceQoSConfig) : Z :=
  match c with
  | simpleServiceConfig _ v _ => if 0 <? v then v else defaultEVMBlockNumberSyncAllowance
  | evmServiceQoSConfig _ _ v _ => if v =? 0 then defaultEVMBlockNumberSyncAllowance else v
  end.
Definition getMaxOperatorShare (c : EVMServiceQoSConfig) : float64 :=
  match c with simpleServiceConfig _ _ m => m | evmServiceQoSConfig _ _ _ _ => f_zero end.

(** ** The archival cache *)

Record archivalCacheEntry := mkArchivalCacheEntry { IsArchival : bool; ExpiresAt : Time }.
Abbreviation ArchivalCache := (gmap string archivalCacheEntry).

Definition NewArchivalCache : ArchivalCache := ∅.

(** [None] stands for [(false, false)]. *)
Definition cache_Get (c : ArchivalCache) (now : Time) (key : string) : option bool :=
  match c !! key with
  | None => None
  | Some entry => if time_after now (ExpiresAt entry) then None else Some (IsArchival entry)
  end.
Definition cache_Set (c : ArchivalCache) (now : Time) (key : string) (b : bool) (ttl : Duration) : ArchivalCache :=
  <[key := mkArchivalCacheEntry b (time_add now ttl)]> c.
Definition cache_Len (c : ArchivalCache) : Z := Z.of_nat (size c).
Definition cache_Delete (c : ArchivalCache) (key : string) : ArchivalCache := delete key c.
Definition cache_Cleanup (c : ArchivalCache) (now : Time) : ArchivalCache :=
  filter (fun '(_, entry) => time_after now (ExpiresAt entry) = false) c.

(** ** The service state *)

Record serviceState := mkServiceState {
  serviceQoSConfig : EVMServiceQoSConfig;
  endpoints : gmap EndpointAddr endpoint;
  perceivedBlockNumber : Z;
  blockConsensus : option BlockHeightConsensus;
  archivalCache : option ArchivalCache;
  redisURLBlockHeights : option (gmap string Z);
}.

Definition set_endpoints (ss : serviceState) m : serviceState :=
  mkServiceState (serviceQoSConfig ss) m (perceivedBlockNumber ss) (blockConsensus ss) (archivalCache ss) (redisURLBlockHeights ss).
Definition set_perceived (ss : serviceState) (n : Z) : serviceState :=
  mkServiceState (serviceQoSConfig ss) (endpoints ss) n (blockConsensus ss) (archivalCache ss) (redisURLBlockHeights ss).
Definition set_blockConsensus (ss : serviceState) c : serviceState :=
  mkServiceState (serviceQoSConfig ss) (endpoints ss) (perceivedBlockNumber ss) c (archivalCache ss) (redisURLBlockHeights ss).
Definition set_archivalCache (ss : serviceState) c : serviceState :=
  mkServiceState (serviceQoSConfig ss) (endpoints ss) (perceivedBlockNumber ss) (blockConsensus ss) c (redisURLBlockHeights ss).
Definition set_redisURLBlockHeights (ss : serviceState) m : serviceState :=
  mkServiceState (serviceQoSConfig ss) (endpoints ss) (perceivedBlockNumber ss) (blockConsensus ss) (archivalCache ss) (Some m).
Definition set_config (ss : serviceState) c : serviceState :=
  mkServiceState c (endpoints ss) (perceivedBlockNumber ss) (blockConsensus ss) (archivalCache ss) (redisURLBlockHeights ss).

(** The state part of the QoS instance. *)
Definition NewSimpleQoSInstanceWithSyncAllowance (now : Time) (serviceID : ServiceID) (syncAllowance : Z) : serviceState :=
  let cfg := simpleServiceConfig serviceID syncAllowance f_zero in
  mkServiceState cfg ∅ 0 (Some (NewBlockHeightConsensus now (getSyncAllowance cfg))) (Some NewArchivalCache) None.

Definition NewSimpleQoSInstance (now : Time) (serviceID : ServiceID) : serviceState :=
  NewSimpleQoSInstanceWithSyncAllowance now serviceID 0.

Definition SetSyncAllowance (ss : serviceState) (syncAllowance : Z) : serviceState :=
  match serviceQoSConfig ss with
  | simpleServiceConfig s _ m => set_config ss (simpleServiceConfig s syncAllowance m)
  | evmServiceQoSConfig _ _ _ _ => ss
  end.

Definition SetMaxOperatorShare (ss : serviceState) (share : float64) : serviceState :=
  match serviceQoSConfig ss with
  | simpleServiceConfig s a _ => set_config ss (simpleServiceConfig s a share)
  | evmServiceQoSConfig _ _ _ _ => ss
  end.

Definition GetBlockConsensusStats `{SliceSort} (ss : serviceState) : Z * Z :=
  match blockConsensus ss with
  | None => (0, 0)
  | Some c => (GetMedianBlock c, GetObservationCount c)
  end.

(** ** The endpoint store *)

Definition touchEndpoints (m : gmap EndpointAddr endpoint) (now : Time) (addrs : list EndpointAddr)
  : gmap EndpointAddr endpoint :=
  fold_left (fun m addr => match m !! addr with Some ep => <[addr := set_lastSeen ep now]> m | None => m end) addrs m.

Definition is_stale (cutoff : Time) (ep : endpoint) : bool :=
  negb (time_is_zero (lastSeen ep)) && time_before (lastSeen ep) cutoff.

(** Returns the removed addresses, in no particular order. *)
Definition sweepStaleEndpoints (m : gmap EndpointAddr endpoint) (now : Time) (ttl : Duration)
  : list EndpointAddr * gmap EndpointAddr endpoint :=
  let cutoff := time_add now (- ttl) in
  (map fst (map_to_list (filter (fun '(_, ep) => is_stale cutoff ep = true) m)),
   filter (fun '(_, ep) => is_stale cutoff ep = false) m).

(** An observation carries one of these responses, or none the store knows. *)
Inductive EVMResponse :=
| EmptyResponse
| BlockNumberResponse (response : string)
| ChainIdResponse (response : string)
| UnrecognizedResponse (validationError : Z)
| OtherResponse.

Record EVMEndpointObservation := mkEVMEndpointObservation {
  obs_EndpointAddr : EndpointAddr;
  obs_response : EVMResponse;
}.

(** The UNSPECIFIED member of the enumeration is 0, as in every protobuf enum. *)
Definition VALIDATION_ERROR_UNSPECIFIED : Z := 0.

Definition parseBlockNumberResponse (response : string) : Z := default 0 (parse_uint_auto response).

Definition applyEmptyResponseObservation (e : endpoint) (now : Time) : endpoint :=
  mkEndpoint (Some now) true (hasReturnedInvalidResponse e) (invalidResponseError e)
    (checkBlockNumber e) (checkChainID e) (checkArchival e) (lastSeen e).

Definition applyUnrecognizedResponseObservation (e : endpoint) (now : Time) (validationError : Z) : endpoint :=
  if negb (validationError =? VALIDATION_ERROR_UNSPECIFIED) then
    mkEndpoint (Some now) (hasReturnedEmptyResponse e) true validationError
      (checkBlockNumber e) (checkChainID e) (checkArchival e) (lastSeen e)
  else e.

Definition applyBlockNumberObservation (e : endpoint) (response : string) : endpoint :=
  set_checkBlockNumber e (parseBlockNumberResponse response).

Definition applyChainIDObservation (e : endpoint) (now : Time) (response : string) : endpoint :=
  set_checkChainID e (mkCheckChainID (Some response) (time_add now checkChainIDInterval)).

(** The endpoint after the observation, and whether it was recognised. *)
Definition applyObservation (e : endpoint) (now : Time) (o : EVMResponse) : endpoint * bool :=
  match o with
  | EmptyResponse => (applyEmptyResponseObservation e now, true)
  | BlockNumberResponse r => (applyBlockNumberObservation e r, true)
  | ChainIdResponse r => (applyChainIDObservation e now r, true)
  | UnrecognizedResponse v => (applyUnrecognizedResponseObservation e now v, true)
  | OtherResponse => (e, false)
  end.

(** Nil observations are skipped.  Returns the store and the updated endpoints. *)
Definition updateEndpointsFromObservations (m : gmap EndpointAddr endpoint) (now : Time)
  (obs : list (option EVMEndpointObservation)) : gmap EndpointAddr endpoint * gmap EndpointAddr endpoint :=
  fold_left (fun '(m, updated) o =>
    match o with
    | None => (m, updated)
    | Some o =>
        let addr := obs_EndpointAddr o in
        match applyObservation (default zero_endpoint (m !! addr)) now (obs_response o) with
        | (ep, true) => (<[addr := ep]> m, <[addr := ep]> updated)
        | (_, false) => (m, updated)
        end
    end) obs (m, ∅).

(** ** Validation *)

(** The errors of [basicEndpointValidation], with the sentinel each one wraps. *)
Inductive validation_error :=
| RecentEmptyResponse (age : Duration)         (** errEmptyResponseObs *)
| EmptyResponseNoTime                          (** errEmptyResponseObs *)
| RecentInvalidResponse (age : Duration)       (** errRecentInvalidResponseObs *)
| NoBlockNumber (perceived : Z)                (** errNoBlockNumberObs *)
| BlockBehind (endpointBlock perceived allowance blocksBehind : Z) (** errOutsideSyncAllowanceBlockNumberObs *)
| NoChainID                                    (** errNoChainIDObs *)
| ChainIDMismatch (got expected : string)      (** errInvalidChainIDObs *)
| NotArchival (addr : EndpointAddr).           (** errEndpointNotArchival *)

Inductive FailureReason :=
| EMPTY_RESPONSE_HISTORY | RECENT_INVALID_RESPONSE | BLOCK_NUMBER_BEHIND | CHAIN_ID_MISMATCH
| NO_BLOCK_NUMBER_OBSERVATION | NO_CHAIN_ID_OBSERVATION | ARCHIVAL_CHECK_FAILED.

(** The text of [NotArchival] holds the word "archival", which the code looks for
    after the sentinels; the UNKNOWN category is left for no error. *)
Definition categorizeValidationFailure (e : validation_error) : FailureReason :=
  match e with
  | RecentEmptyResponse _ | EmptyResponseNoTime => EMPTY_RESPONSE_HISTORY
  | RecentInvalidResponse _ => RECENT_INVALID_RESPONSE
  | BlockBehind _ _ _ _ => BLOCK_NUMBER_BEHIND
  | ChainIDMismatch _ _ => CHAIN_ID_MISMATCH
  | NoBlockNumber _ => NO_BLOCK_NUMBER_OBSERVATION
  | NoChainID => NO_CHAIN_ID_OBSERVATION
  | NotArchival _ => ARCHIVAL_CHECK_FAILED
  end.

Definition isBlockNumberValid (ss : serviceState) (check : endpointCheckBlockNumber) : option validation_error :=
  let syncAllowance := getSyncAllowance (serviceQoSConfig ss) in
  if syncAllowance =? 0 then None
  else
    let perceivedBlock := perceivedBlockNumber ss in
    if perceivedBlock =? 0 then None
    else
      match parsedBlockNumberResponse check with
      | None => Some (NoBlockNumber perceivedBlock)
      | Some n =>
          if n <? MinAllowedBlockNumber perceivedBlock syncAllowance then
            Some (BlockBehind n perceivedBlock syncAllowance (wrap64 (wrap64 perceivedBlock - wrap64 n)))
          else None
      end.

Definition isChainIDValid (ss : serviceState) (check : endpointCheckChainID) : option validation_error :=
  let expectedChainID := getEVMChainID (serviceQoSConfig ss) in
  if (expectedChainID =? "")%string then None
  else
    match chainID check with
    | None => Some NoChainID
    | Some c => if (c =? expectedChainID)%string then None else Some (ChainIDMismatch c expectedChainID)
    end.

Definition shouldChainIDCheckRun (now : Time) (check : endpointCheckChainID) : bool :=
  time_is_zero (chain_expiresAt check) || time_before (chain_expiresAt check) now.

(** The synthetic requests, by the JSON-RPC id of their payload. *)
Definition idBlockNumberCheck : Z := 1002.
Definition idChainIDCheck : Z := 1001.

Definition GetRequiredQualityChecks (ss : serviceState) (now : Time) (addr : EndpointAddr) : list Z :=
  let ep := default zero_endpoint (endpoints ss !! addr) in
  idBlockNumberCheck ::
    (if negb (getEVMChainID (serviceQoSConfig ss) =? "")%string && shouldChainIDCheckRun now (checkChainID ep)
     then [idChainIDCheck] else []).

(** The first two checks: recent empty and invalid responses. *)
Definition response_history (now : Time) (ep : endpoint) : option validation_error :=
  let empty :=
    if hasReturnedEmptyResponse ep then
      match invalidResponseLastObserved ep with
      | Some t => if time_sub now t <? invalidResponseTimeout then Some (RecentEmptyResponse (time_sub now t)) else None
      | None => Some EmptyResponseNoTime
      end
    else None in
  match empty with
  | Some e => Some e
  | None =>
      if hasReturnedInvalidResponse ep then
        match invalidResponseLastObserved ep with
        | Some t => if time_sub now t <? invalidResponseTimeout then Some (RecentInvalidResponse (time_sub now t)) else None
        | None => None
        end
      else None
  end.

(** The two members of the RPC type enumeration the package names. *)
Class EVMRPCTypes := {
  RPCType_JSON_RPC : Z;
  RPCType_WEBSOCKET : Z;
}.

Section EvmQoS.
Context `{RPCTypeEnum} `{EVMRPCTypes}.

Definition getSupportedAPIs (c : EVMServiceQoSConfig) : gset Z :=
  match c with simpleServiceConfig _ _ _ => {[RPCType_JSON_RPC]} | evmServiceQoSConfig _ _ _ apis => apis end.

Definition CheckWebsocketConnection (ss : serviceState) : bool :=
  bool_decide (RPCType_WEBSOCKET ∈ getSupportedAPIs (serviceQoSConfig ss)).

Definition archival_key (ss : serviceState) (addr : EndpointAddr) : EndpointKey :=
  NewEndpointKey (GetServiceID (serviceQoSConfig ss)) addr RPCType_JSON_RPC.

(** The cache holds a current entry that says archival. *)
Definition cached_archival (ss : serviceState) (now : Time) (addr : EndpointAddr) : bool :=
  match archivalCache ss with
  | None => false
  | Some c => match cache_Get c now (key_String (archival_key ss addr)) with Some b => b | None => false end
  end.

Definition basicEndpointValidation (ss : serviceState) (now : Time) (addr : EndpointAddr) (ep : endpoint)
  (requiresArchival : bool) : option validation_error :=
  match response_history now ep with
  | Some e => Some e
  | None =>
      match isBlockNumberValid ss (checkBlockNumber ep) with
      | Some e => Some e
      | None =>
          match isChainIDValid ss (checkChainID ep) with
          | Some e => Some e
          | None =>
              if requiresArchival then
                if check_isArchivalCapable (checkArchival ep) now then None
                else if cached_archival ss now addr then None
                else Some (NotArchival addr)
              else None
          end
      end
  end.

(** ** Block heights by URL *)

Definition add_min (m : gmap string Z) (url : string) (h : Z) : gmap string Z :=
  match m !! url with
  | Some existing => if h <? existing then <[url := h]> m else m
  | None => <[url := h]> m
  end.

Definition add_endpoint_height (m : gmap string Z) (x : EndpointAddr * endpoint) : gmap string Z :=
  match parsedBlockNumberResponse (checkBlockNumber (snd x)) with
  | None => m
  | Some h => match GetURL (fst x) with Ok url => add_min m url h | Err _ => m end
  end.

Definition buildURLBlockHeightMap (ss : serviceState) : gmap string Z :=
  let urlBlockHeights := fold_left add_endpoint_height (map_to_list (endpoints ss)) ∅ in
  match redisURLBlockHeights ss with
  | None => urlBlockHeights
  | Some cached => fold_left (fun m '(url, h) => add_min m url h) (map_to_list cached) urlBlockHeights
  end.

(** ** Filtering *)

Record EndpointValidationResult := mkValidationResult {
  vr_EndpointAddr : EndpointAddr;
  vr_FailureReason : option FailureReason;   (** none: success *)
}.

(** An endpoint that is not in the store yet. *)
Definition fresh_endpoint_failure (ss : serviceState) (now : Time) (urlBlockHeights : gmap string Z)
  (addr : EndpointAddr) (requiresArchival : bool) : option FailureReason :=
  let cacheFilled := match archivalCache ss with Some c => 0 <? cache_Len c | None => false end in
  if requiresArchival && cacheFilled && negb (cached_archival ss now addr) then Some ARCHIVAL_CHECK_FAILED
  else
    let syncAllowance := getSyncAllowance (serviceQoSConfig ss) in
    let perceivedBlock := perceivedBlockNumber ss in
    if (0 <? syncAllowance) && (0 <? perceivedBlock) then
      match GetURL addr with
      | Ok url =>
          match urlBlockHeights !! url with
          | Some urlBlock =>
              if urlBlock <? MinAllowedBlockNumber perceivedBlock syncAllowance then Some BLOCK_NUMBER_BEHIND else None
          | None => None
          end
      | Err _ => None
      end
    else None.

(** The body of the validation loop, on the copy taken before the loop. *)
Definition endpoint_failure (ss : serviceState) (now : Time) (urlBlockHeights : gmap string Z)
  (requiresArchival : bool) (addr : EndpointAddr) : option FailureReason :=
  match endpoints ss !! addr with
  | None => fresh_endpoint_failure ss now urlBlockHeights addr requiresArchival
  | Some ep => option_map categorizeValidationFailure (basicEndpointValidation ss now addr ep requiresArchival)
  end.

Inductive selection_error := EmptyEndpointList | NoArchivalEndpoints | NoFallbackEndpoints.

Definition touch (ss : serviceState) (now : Time) (addrs : list EndpointAddr) : serviceState :=
  set_endpoints ss (touchEndpoints (endpoints ss) now addrs).

Definition is_none {A} (o : option A) : bool := match o with None => true | Some _ => false end.

(** The valid endpoints, a result for every endpoint, and the touched state. *)
Definition filterValidEndpointsWithDetails (ss : serviceState) (now : Time) (available : list EndpointAddr)
  (requiresArchival : bool)
  : result selection_error (list EndpointAddr * list EndpointValidationResult) * serviceState :=
  match available with
  | [] => (Err EmptyEndpointList, ss)
  | _ =>
      let failure := endpoint_failure ss now (buildURLBlockHeightMap ss) requiresArchival in
      (Ok (List.filter (fun addr => is_none (failure addr)) available,
           map (fun addr => mkValidationResult addr (failure addr)) available),
       touch ss now available)
  end.

Definition filterStaleURLEndpoints (ss : serviceState) (eps : list EndpointAddr) : list EndpointAddr :=
  let syncAllowance := getSyncAllowance (serviceQoSConfig ss) in
  let perceivedBlock := perceivedBlockNumber ss in
  if syncAllowance =? 0 then eps
  else if perceivedBlock =? 0 then eps
  else
    let minAllowed := MinAllowedBlockNumber perceivedBlock syncAllowance in
    let urlBlockHeights := buildURLBlockHeightMap ss in
    if bool_decide (urlBlockHeights = ∅) then eps
    else
      let keep addr :=
        match GetURL addr with
        | Ok url => match urlBlockHeights !! url with Some b => negb (b <? minAllowed) | None => true end
        | Err _ => true
        end in
      match List.filter keep eps with [] => eps | filtered => filtered end.

Definition filterArchivalEndpointsForFallback (ss : serviceState) (now : Time) (available : list EndpointAddr)
  : list EndpointAddr :=
  List.filter (fun addr =>
    match endpoints ss !! addr with Some ep => archival_isValid (checkArchival ep) now | None => false end
    || cached_archival ss now addr) available.
End EvmQoS.

(** ** Selection *)

Section EvmSelect.
Context `{RPCTypeEnum} `{EVMRPCTypes} `{DomainLib} {R : Type} `{RandSource R}.

(** [rand.Shuffle]: swap position [i] with one at or below it, from the last
    position down to the second. *)
Fixpoint shuffle_down {A} (i : nat) (l : list A) : rnd R (list A) :=
  match i with
  | O => rret l
  | S i' =>
      let? j := rand_Intn (Z.of_nat i + 1) in
      let? a := at_index l (Z.of_nat i) in
      let? b := at_index l j in
      shuffle_down i' (<[Z.to_nat j := a]> (<[i := b]> l))
  end.

Definition rand_Shuffle {A} (l : list A) : rnd R (list A) := shuffle_down (List.length l - 1) l.

Record scored := mkScored {
  se_addr : EndpointAddr;
  se_blocksBehind : Z;
  se_hasData : bool;
}.

Definition score_endpoint (urlBlockHeights : gmap string Z) (perceivedBlock : Z) (addr : EndpointAddr) : scored :=
  match GetURL addr with
  | Ok url =>
      match urlBlockHeights !! url with
      | Some h => mkScored addr (if perceivedBlock <=? h then 0 else wrapu64 (perceivedBlock - h)) true
      | None => mkScored addr max_uint64 false
      end
  | Err _ => mkScored addr max_uint64 false
  end.

Definition scored_less (x y : scored) : bool :=
  if negb (Bool.eqb (se_hasData x) (se_hasData y)) then se_hasData x
  else se_blocksBehind x <? se_blocksBehind y.

Definition selectLeastStaleEndpoints (ss : serviceState) (available : list EndpointAddr) (numEndpoints : Z)
  : rnd R (list EndpointAddr) :=
  let numEndpoints := if numEndpoints =? 0 then 1 else numEndpoints in
  match available with
  | [] => rret []
  | _ =>
      let syncAllowance := getSyncAllowance (serviceQoSConfig ss) in
      let perceivedBlock := perceivedBlockNumber ss in
      if (syncAllowance =? 0) || (perceivedBlock =? 0) then
        RandomSelectMultiple (filterStaleURLEndpoints ss available) numEndpoints
      else
        let urlBlockHeights := buildURLBlockHeightMap ss in
        if bool_decide (urlBlockHeights = ∅) then
          RandomSelectMultiple (filterStaleURLEndpoints ss available) numEndpoints
        else
          let? shuffled := rand_Shuffle (map (score_endpoint urlBlockHeights perceivedBlock) available) in
          let scoredEps := slice_stable scored_less shuffled in
          let n := if len scoredEps <? wrap64 numEndpoints then len scoredEps else wrap64 numEndpoints in
          if n <? 0 then rpanic   (* make with a negative capacity *)
          else rret (map se_addr (take (Z.to_nat n) scoredEps))
  end.

Definition SelectMultipleWithArchival (g : settings) (ss : serviceState) (now : Time) (available : list EndpointAddr)
  (numEndpoints : Z) (requiresArchival : bool)
  : rnd R (result selection_error (list EndpointAddr) * serviceState) :=
  match filterValidEndpointsWithDetails ss now available requiresArchival with
  | (Err e, ss) => rret (Err e, ss)
  | (Ok ([], _), ss) =>
      if requiresArchival then
        match filterArchivalEndpointsForFallback ss now available with
        | [] => rret (Err NoArchivalEndpoints, ss)
        | archivalEndpoints =>
            let? picked := selectLeastStaleEndpoints ss archivalEndpoints numEndpoints in rret (Ok picked, ss)
        end
      else
        let? picked := selectLeastStaleEndpoints ss available numEndpoints in rret (Ok picked, ss)
  | (Ok (filtered, _), ss) =>
      let? picked := SelectEndpointsWithDiversity g (GetServiceID (serviceQoSConfig ss)) filtered numEndpoints in
      rret (Ok picked, ss)
  end.

Definition SelectMultiple (g : settings) (ss : serviceState) (now : Time) (available : list EndpointAddr) (numEndpoints : Z) :=
  SelectMultipleWithArchival g ss now available numEndpoints false.

Record EndpointSelectionResult := mkEndpointSelectionResult {
  SelectedEndpoint : EndpointAddr;
  RandomEndpointFallback : bool;
  ValidationResults : list EndpointValidationResult;
}.

Definition SelectWithMetadata (g : settings) (ss : serviceState) (now : Time) (available : list EndpointAddr)
  (requiresArchival : bool) : rnd R (result selection_error EndpointSelectionResult * serviceState) :=
  match filterValidEndpointsWithDetails ss now available requiresArchival with
  | (Err e, ss) => rret (Err e, ss)
  | (Ok ([], results), ss) =>
      let? picked := selectLeastStaleEndpoints ss available 1 in
      match picked with
      | [] => rret (Err NoFallbackEndpoints, ss)
      | ep :: _ => rret (Ok (mkEndpointSelectionResult ep true results), ss)
      end
  | (Ok (filtered, results), ss) =>
      let? ep := SelectWithConcentrationCap g (GetServiceID (serviceQoSConfig ss)) filtered
                   (getMaxOperatorShare (serviceQoSConfig ss)) in
      rret (Ok (mkEndpointSelectionResult ep false results), ss)
  end.
End EvmSelect.

(** ** Updates *)

(** The fields of the extracted data the EVM state reads. *)
Record ExtractedData := mkExtractedData {
  ed_BlockHeight : Z;
  ed_InvalidBlockHeight : bool;
  ed_IsArchival : bool;
  ed_ArchivalCheckPerformed : bool;
}.

(** What a goroutine of the package asks of the reputation service. *)
Inductive rep_task :=
| TaskSetArchivalStatus (key : EndpointKey) (ttl : Duration)
| TaskSetPerceivedBlockNumber (serviceID : ServiceID) (n : Z)
| TaskSetEndpointBlockHeight (serviceID : ServiceID) (addr : EndpointAddr) (h : Z).

Section EvmUpdate.
Context `{RPCTypeEnum} `{EVMRPCTypes} `{SliceSort} {St : Type} `{!Storage St}.

Definition run_task (s : service St) (now : Time) (t : rep_task) : service St :=
  match t with
  | TaskSetArchivalStatus key ttl => snd (SetArchivalStatus s now key true ttl)
  | TaskSetPerceivedBlockNumber sid n => snd (SetPerceivedBlockNumber s sid n)
  | TaskSetEndpointBlockHeight sid addr h => snd (SetEndpointBlockHeight s sid addr h)
  end.

(** Add an observation to the consensus and publish the perceived height, when
    there is a consensus. *)
Definition observe_block (ss : serviceState) (now : Time) (addr : EndpointAddr) (h : Z) : serviceState :=
  match blockConsensus ss with
  | None => ss
  | Some c => let '(p, c) := AddObservation c now addr h in set_perceived (set_blockConsensus ss (Some c)) p
  end.

(** [order] lists the updated endpoints in the order the loop meets them. *)
Definition updateFromEndpoints (ss : serviceState) (now : Time) (order : list (EndpointAddr * endpoint)) : serviceState :=
  fold_left (fun ss '(addr, ep) =>
    match isChainIDValid ss (checkChainID ep) with
    | Some _ => ss
    | None =>
        match getBlockNumber (checkBlockNumber ep) with
        | None => ss
        | Some n => if 0 <? n then observe_block ss now addr n else ss
        end
    end) order ss.

Inductive apply_error := NilObservations | NilEVMObservations.

(** The request observations of an EVM message, flattened; nil at either level. *)
Definition ApplyObservations (ss : serviceState) (now : Time)
  (obs : option (option (list (option EVMEndpointObservation))))
  (order : gmap EndpointAddr endpoint -> list (EndpointAddr * endpoint)) : result apply_error serviceState :=
  match obs with
  | None => Err NilObservations
  | Some None => Err NilEVMObservations
  | Some (Some obs) =>
      let '(m, updated) := updateEndpointsFromObservations (endpoints ss) now obs in
      Ok (updateFromEndpoints (set_endpoints ss m) now (order updated))
  end.

(** The block number the data carries, if it says anything about it. *)
Definition extracted_block (d : ExtractedData) : option Z :=
  if 0 <? ed_BlockHeight d then Some (ed_BlockHeight d)
  else if ed_InvalidBlockHeight d then Some 0
  else None.

(** [hasSvc]: the reputation service is set.  Returns the tasks it spawns. *)
Definition UpdateFromExtractedData (ss : serviceState) (now : Time) (hasSvc : bool) (addr : EndpointAddr)
  (data : option ExtractedData) : serviceState * list rep_task :=
  match data with
  | None => (ss, [])
  | Some d =>
      let sid := GetServiceID (serviceQoSConfig ss) in
      let stored := default zero_endpoint (endpoints ss !! addr) in
      let blockNumber := default 0 (extracted_block d) in
      let stored := match extracted_block d with Some n => set_checkBlockNumber stored n | None => stored end in
      let stored :=
        if ed_ArchivalCheckPerformed d
        then set_checkArchival stored (mkCheckArchival (ed_IsArchival d) (time_add now ArchivalStatusTTL))
        else stored in
      let confirmed := ed_ArchivalCheckPerformed d && ed_IsArchival d in
      let ss1 :=
        if confirmed then
          match archivalCache ss with
          | Some c => set_archivalCache ss (Some (cache_Set c now (key_String (archival_key ss addr)) true ArchivalStatusTTL))
          | None => ss
          end
        else ss in
      let archivalTasks := if confirmed && hasSvc then [TaskSetArchivalStatus (archival_key ss addr) ArchivalStatusTTL] else [] in
      let ss2 := set_endpoints ss1 (<[addr := stored]> (endpoints ss1)) in
      let oldBlock := perceivedBlockNumber ss2 in
      let ss3 := if 0 <? blockNumber then observe_block ss2 now addr blockNumber else ss2 in
      let newPerceived := perceivedBlockNumber ss3 in
      let perceivedTasks :=
        if (0 <? blockNumber) && negb (newPerceived =? oldBlock) && hasSvc
        then [TaskSetPerceivedBlockNumber sid newPerceived] else [] in
      let heightTasks := if (0 <? blockNumber) && hasSvc then [TaskSetEndpointBlockHeight sid addr blockNumber] else [] in
      (ss3, archivalTasks ++ perceivedTasks ++ heightTasks)%list
  end.

Definition ResetPerceivedBlockHeight (ss : serviceState) (svc : option (service St))
  : option storage_error * serviceState * option (service St) :=
  let ss := set_perceived ss 0 in
  let ss := match blockConsensus ss with
            | Some c => set_blockConsensus ss (Some (SetExternalBlockHeight c 0))
            | None => ss
            end in
  match svc with
  | Some s => let '(e, s) := DeletePerceivedBlockNumber s (GetServiceID (serviceQoSConfig ss)) in (e, ss, Some s)
  | None => (None, ss, None)
  end.

Definition GetEndpointArchivalStatus (ss : serviceState) (now : Time) (svc : option (service St)) (addr : EndpointAddr)
  : (bool * Time) * option (service St) :=
  let localStatus :=
    match endpoints ss !! addr with
    | Some ep => if archival_isValid (checkArchival ep) now then Some (archival_expiresAt (checkArchival ep)) else None
    | None => None
    end in
  match localStatus with
  | Some t => ((true, t), svc)
  | None =>
      match svc with
      | None => ((false, time_zero), None)
      | Some s =>
          let key := archival_key ss addr in
          let '(capable, s) := svc_IsArchivalCapable s now key in
          if capable then
            let '(r, s) := RepService.GetScore s now key in
            match r with
            | Ok score =>
                if Score.IsArchivalCapable score now then ((true, sc_ArchivalExpiresAt score), Some s)
                else ((true, time_zero), Some s)
            | Err _ => ((true, time_zero), Some s)
            end
          else ((false, time_zero), Some s)
      end
  end.

(** ** The external block source *)

Definition external_grace (ss : serviceState) (gracePeriod : Duration) : serviceState :=
  if 0 <? gracePeriod then
    match blockConsensus ss with
    | Some c => set_blockConsensus ss (Some (SetExternalBlockGracePeriod c gracePeriod))
    | None => ss
    end
  else ss.

Definition effective_grace (gracePeriod : Duration) : Duration :=
  if 0 <? gracePeriod then gracePeriod else defaultExternalBlockGracePeriod.

(** One height received from the channel, at [now]. *)
Definition consume_external_height (ss : serviceState) (now startedAt : Time) (gracePeriod : Duration) (hasSvc : bool)
  (height : Z) : serviceState * list rep_task :=
  if height <=? 0 then (ss, [])
  else
    let ss := match blockConsensus ss with
              | Some c => set_blockConsensus ss (Some (SetExternalBlockHeight c height))
              | None => ss
              end in
    if time_sub now startedAt <? effective_grace gracePeriod then (ss, [])
    else
      let currentPerceived := perceivedBlockNumber ss in
      if hasSvc && (0 <? currentPerceived) && (currentPerceived <? height) && IsPlausibleBlockHeight height currentPerceived
      then (ss, [TaskSetPerceivedBlockNumber (GetServiceID (serviceQoSConfig ss)) height])
      else (ss, []).

(** ** Background exchange with the reputation service *)

Definition syncFromRedis (ss : serviceState) (now : Time) (s : service St) : serviceState :=
  let n := GetPerceivedBlockNumber s (GetServiceID (serviceQoSConfig ss)) in
  if n =? 0 then ss else observe_block ss now "redis-sync" n.

(** The heights of Redis by URL, the smallest of each. *)
Definition redis_url_heights (heights : gmap EndpointAddr Z) : gmap string Z :=
  fold_left (fun m '(addr, h) => match GetURL addr with Ok url => add_min m url h | Err _ => m end)
    (map_to_list heights) ∅.

(** First pass: every address of Redis, an entry of its own in the store. *)
Definition overwrite_heights (m : gmap EndpointAddr endpoint) (now : Time) (heights : gmap EndpointAddr Z)
  : gmap EndpointAddr endpoint :=
  map_imap (fun addr h => Some match m !! addr with
    | Some ep => set_checkBlockNumber ep h
    | None => set_lastSeen (set_checkBlockNumber zero_endpoint h) now
    end) heights ∪ m.

(** Second pass: entries without a height take the one of their URL. *)
Definition fill_by_url (urlHeights : gmap string Z) (m : gmap EndpointAddr endpoint) : gmap EndpointAddr endpoint :=
  map_imap (fun addr ep => Some
    match parsedBlockNumberResponse (checkBlockNumber ep) with
    | Some _ => ep
    | None =>
        match GetURL addr with
        | Ok url => match urlHeights !! url with Some h => set_checkBlockNumber ep h | None => ep end
        | Err _ => ep
        end
    end) m.

Definition syncEndpointBlocksFromRedis (ss : serviceState) (now : Time) (s : service St) : serviceState :=
  let heights := GetEndpointBlockHeights s (GetServiceID (serviceQoSConfig ss)) in
  if bool_decide (heights = ∅) then ss
  else
    let urlHeights := redis_url_heights heights in
    let ss := set_redisURLBlockHeights ss urlHeights in
    set_endpoints ss (fill_by_url urlHeights (overwrite_heights (endpoints ss) now heights)).

Definition sweep_tick (ss : serviceState) (now : Time) (s : service St) : serviceState * service St :=
  let '(removed, m) := sweepStaleEndpoints (endpoints ss) now defaultEndpointTTL in
  match removed with
  | [] => (set_endpoints ss m, s)
  | _ => (set_endpoints ss m, snd (RemoveEndpointBlockHeights s (GetServiceID (serviceQoSConfig ss)) removed))
  end.

(** The immediate sync of StartBackgroundSync, and a tick of its loop. *)
Definition background_sync_start (ss : serviceState) (now : Time) (s : service St) : serviceState :=
  syncEndpointBlocksFromRedis (syncFromRedis ss now s) now s.

Definition background_sync_tick (ss : serviceState) (now : Time) (s : service St) : serviceState * service St :=
  sweep_tick (syncEndpointBlocksFromRedis (syncFromRedis ss now s) now s) now s.

(** Pass 1 of refreshArchivalCacheFromRedis.  The context of each lookup is
    cancelled before its error is read, and package context documents that a
    cancelled context's [Err] is not nil. *)
Definition ctx_err_after_cancel : bool := true.

Definition refresh_pass1 (ss : serviceState) (now : Time) (s : service St) (addrs : list EndpointAddr)
  (c : ArchivalCache) : ArchivalCache * service St :=
  fold_left (fun '(c, s) addr =>
    let key := archival_key ss addr in
    let '(capable, s) := svc_IsArchivalCapable s now key in
    if ctx_err_after_cancel then (c, s)
    else if (capable : bool) then (cache_Set c now (key_String key) true ArchivalStatusTTL, s)
    else (c, s)) addrs (c, s).

(** Pass 2: the archival keys of the reputation service. *)
Definition refresh_pass2 (now : Time) (keys : list EndpointKey) (c : ArchivalCache) : ArchivalCache :=
  fold_left (fun c key =>
    match cache_Get c now (key_String key) with
    | Some true => c
    | _ => cache_Set c now (key_String key) true ArchivalStatusTTL
    end) keys c.

(** The worker starts only with a cache, so [None] is left alone. *)
Definition refreshArchivalCacheFromRedis (ss : serviceState) (now : Time) (s : service St)
  : serviceState * service St :=
  match archivalCache ss with
  | None => (ss, s)
  | Some c =>
      let '(c, s) := refresh_pass1 ss now s (map fst (map_to_list (endpoints ss))) c in
      let keys := GetArchivalEndpoints s now (GetServiceID (serviceQoSConfig ss)) in
      (set_archivalCache ss (Some (refresh_pass2 now keys c)), s)
  end.

Definition archival_cleanup_tick (ss : serviceState) (now : Time) : serviceState :=
  match archivalCache ss with
  | None => ss
  | Some c => set_archivalCache ss (Some (cache_Cleanup c now))
  end.

(** ** The report of disqualified endpoints *)

Record QoSLevelDataResponse := mkQoSLevelDataResponse {
  DisqualifiedEndpoints : gmap EndpointAddr validation_error;
  EmptyResponseCount : Z;
  ChainIDCheckErrorsCount : Z;
  ArchivalCheckErrorsCount : Z;
  BlockNumberCheckErrorsCount : Z;
}.

Definition count_error (r : QoSLevelDataResponse) (e : validation_error) : QoSLevelDataResponse :=
  let '(mkQoSLevelDataResponse d em ch ar bl) := r in
  match e with
  | RecentEmptyResponse _ | EmptyResponseNoTime => mkQoSLevelDataResponse d (em + 1) ch ar bl
  | NoBlockNumber _ => mkQoSLevelDataResponse d em ch ar (bl + 1)
  | NoChainID | ChainIDMismatch _ _ => mkQoSLevelDataResponse d em (ch + 1) ar bl
  | NotArchival _ => mkQoSLevelDataResponse d em ch (ar + 1) bl
  | RecentInvalidResponse _ | BlockBehind _ _ _ _ => r     (* logged as "SHOULD NEVER HAPPEN" *)
  end.

Definition add_disqualified (r : QoSLevelDataResponse) (addr : EndpointAddr) (e : validation_error) : QoSLevelDataResponse :=
  mkQoSLevelDataResponse (<[addr := e]> (DisqualifiedEndpoints r)) (EmptyResponseCount r) (ChainIDCheckErrorsCount r)
    (ArchivalCheckErrorsCount r) (BlockNumberCheckErrorsCount r).

Definition getDisqualifiedEndpointsResponse (ss : serviceState) (now : Time) : QoSLevelDataResponse :=
  fold_left (fun r '(addr, ep) =>
    match basicEndpointValidation ss now addr ep true with
    | Some e => count_error (add_disqualified r addr e) e
    | None => r
    end) (map_to_list (endpoints ss)) (mkQoSLevelDataResponse ∅ 0 0 0 0).
End EvmUpdate.
