(* ===== verification/EvmQoSProps.v ===== *)
(** * Correctness of the EVM QoS service

    What endpoint filtering and the selection paths guarantee, how the perceived
    height and the per-endpoint heights travel between processes, and where the
    archival bookkeeping keeps or loses a status. *)

From S2P Require Import Prelude GoStrings Float64 GoSort Domain RepKey Signals Score RepConfig RepStorage RepService Selection SelectionProps BlockConsensus EvmQoS.
From Stdlib Require Import ZArith Lia Bool Ascii String.
From stdpp Require Import base list gmap strings fin_maps sorting.

Open Scope string_scope.
Open Scope Z_scope.
Open Scope go_scope.

(** ** The smallest height of a URL *)

Section MinHeights.
Implicit Types (es : list (string * Z)) (m : gmap string Z).

Definition min_map es m : gmap string Z := fold_left (fun m '(url, h) => add_min m url h) es m.

Definition reported es m (url : string) (h : Z) : Prop := In (url, h) es \/ m !! url = Some h.

Lemma add_min_lookup m url h u :
  add_min m url h !! u =
  if (u =? url)%string then Some (match m !! url with Some e => Z.min h e | None => h end) else m !! u.
Proof.
  unfold add_min. destruct (String.eqb_spec u url) as [->|Hne].
  - destruct (m !! url) as [e|] eqn:E; [|now rewrite lookup_insert_eq].
    destruct (Z.ltb_spec h e); [rewrite lookup_insert_eq|rewrite E]; f_equal; lia.
  - destruct (m !! url) as [e|]; [destruct (h <? e)|]; rewrite ?lookup_insert_ne by congruence; reflexivity.
Qed.

Lemma min_map_sound es m u v :
  min_map es m !! u = Some v -> reported es m u v /\ forall h, reported es m u h -> v <= h.
Proof.
  unfold reported. revert m. induction es as [|[url h] es IH]; intros m; cbn.
  - intros Hv. split; [now right|]. intros h [[]|Hh]. assert (v = h) by congruence. lia.
  - intros Hv. destruct (IH _ Hv) as [Hr Hmin]. rewrite add_min_lookup in Hr. split.
    + destruct Hr as [Hr|Hr]; [tauto|]. destruct (String.eqb_spec u url) as [->|]; [|tauto].
      destruct (m !! url) as [e|]; injection Hr as <-; [|tauto].
      destruct (Z.min_spec h e) as [[_ ->]|[_ ->]]; tauto.
    + intros k Hk. rewrite add_min_lookup in Hmin.
      destruct Hk as [[[= <- <-]|Hk]|Hk]; [|auto|].
      * rewrite String.eqb_refl in Hmin. transitivity (match m !! url with Some e => Z.min h e | None => h end); [auto|].
        destruct (m !! url); lia.
      * destruct (String.eqb_spec u url) as [->|]; [|auto]. rewrite Hk in Hmin.
        transitivity (Z.min h k); [auto|lia].
Qed.

Lemma min_map_complete es m u h : reported es m u h -> exists v, min_map es m !! u = Some v /\ v <= h.
Proof.
  assert (is_Some (m !! u) \/ (exists k, In (u, k) es) -> is_Some (min_map es m !! u)) as Hs.
  { revert m. induction es as [|[url k] es IH]; intros m Hr; cbn.
    - now destruct Hr as [|[? []]].
    - apply IH. rewrite add_min_lookup. destruct (String.eqb_spec u url) as [->|Hne]; [left; eauto|].
      destruct Hr as [Hr|[j [[= <- <-]|Hj]]]; [now left|congruence|right; eauto]. }
  intros Hr. destruct Hs as [v Hv].
  { destruct Hr as [Hr|Hr]; [right; eauto|left; eauto]. }
  exists v. split; [exact Hv|]. now apply min_map_sound in Hv as [_ Hv]; apply Hv.
Qed.
End MinHeights.

(** A height some source holds for a URL: an entry of the store, or Redis. *)
Definition url_height (ss : serviceState) (url : string) (h : Z) : Prop :=
  (exists addr ep, endpoints ss !! addr = Some ep /\ GetURL addr = Ok url /\
     parsedBlockNumberResponse (checkBlockNumber ep) = Some h) \/
  (exists cached, redisURLBlockHeights ss = Some cached /\ cached !! url = Some h).

Definition height_entry (x : EndpointAddr * endpoint) : list (string * Z) :=
  match parsedBlockNumberResponse (checkBlockNumber (snd x)), GetURL (fst x) with
  | Some h, Ok url => [(url, h)]
  | _, _ => []
  end.

Lemma fold_heights l m : fold_left add_endpoint_height l m = min_map (concat (map height_entry l)) m.
Proof.
  revert m. induction l as [|x l IH]; intros m; [reflexivity|]. cbn. rewrite IH.
  unfold add_endpoint_height, height_entry, min_map. rewrite fold_left_app.
  destruct (parsedBlockNumberResponse (checkBlockNumber (snd x))), (GetURL (fst x)); reflexivity.
Qed.

Lemma height_entry_In (m : gmap EndpointAddr endpoint) url h :
  In (url, h) (concat (map height_entry (map_to_list m))) <->
  exists addr ep, m !! addr = Some ep /\ GetURL addr = Ok url /\
    parsedBlockNumberResponse (checkBlockNumber ep) = Some h.
Proof.
  rewrite in_concat. split.
  - intros (l & Hl & Hin). apply in_map_iff in Hl as ([addr ep] & <- & Hx).
    apply list_elem_of_In, elem_of_map_to_list in Hx. unfold height_entry in Hin. cbn in Hin.
    destruct (parsedBlockNumberResponse _) eqn:E1; [|destruct Hin].
    destruct (GetURL addr) eqn:E2; [|destruct Hin]. destruct Hin as [[= <- <-]|[]]. eauto 6.
  - intros (addr & ep & Hm & Hu & Hh). exists (height_entry (addr, ep)). split.
    + apply in_map, list_elem_of_In. now apply elem_of_map_to_list.
    + unfold height_entry. cbn. rewrite Hu, Hh. now left.
Qed.

(** The heights of [buildURLBlockHeightMap] as one fold. *)
Lemma build_min_map ss :
  exists es, buildURLBlockHeightMap ss = min_map es ∅ /\ forall url h, In (url, h) es <-> url_height ss url h.
Proof.
  unfold buildURLBlockHeightMap, url_height. rewrite fold_heights.
  set (es := concat (map height_entry (map_to_list (endpoints ss)))).
  destruct (redisURLBlockHeights ss) as [cached|].
  - exists (es ++ map_to_list cached)%list. split; [unfold min_map; now rewrite fold_left_app|].
    intros url h. rewrite in_app_iff. unfold es. rewrite height_entry_In.
    rewrite <- list_elem_of_In, elem_of_map_to_list. split; (intros [Hl|Hr]; [now left|right]); eauto.
    now destruct Hr as (? & [= <-] & Hr).
  - exists es. split; [reflexivity|]. intros url h. unfold es. rewrite height_entry_In.
    split; [now left|]. intros [|(? & [=] & _)]; assumption.
Qed.

Lemma url_map_sound ss url v :
  buildURLBlockHeightMap ss !! url = Some v -> url_height ss url v /\ forall h, url_height ss url h -> v <= h.
Proof.
  destruct (build_min_map ss) as (es & -> & Hes). intros Hv. apply min_map_sound in Hv as [Hr Hmin].
  split.
  - apply Hes. destruct Hr as [Hr|Hr]; [exact Hr|now rewrite lookup_empty in Hr].
  - intros h Hh. apply Hmin. left. now apply Hes.
Qed.

Lemma url_map_complete ss url h :
  url_height ss url h -> exists v, buildURLBlockHeightMap ss !! url = Some v /\ v <= h.
Proof.
  destruct (build_min_map ss) as (es & -> & Hes). intros Hh. apply min_map_complete. left. now apply Hes.
Qed.

(** ** What filtering accepts *)

Section Filter.
Context `{RPCTypeEnum} `{EVMRPCTypes}.

(** The lowest height in sync with the perceived one. *)
Definition sync_floor (ss : serviceState) : Z :=
  Z.max 0 (perceivedBlockNumber ss - getSyncAllowance (serviceQoSConfig ss)).

(** The sync check is on: an allowance is set and a height is perceived. *)
Definition sync_checked (ss : serviceState) : Prop :=
  getSyncAllowance (serviceQoSConfig ss) <> 0 /\ perceivedBlockNumber ss <> 0.

Record state_wf (ss : serviceState) : Prop := {
  wf_perceived : in_uint64 (perceivedBlockNumber ss);
  wf_allowance : in_uint64 (getSyncAllowance (serviceQoSConfig ss));
}.

(** What an endpoint of the store must satisfy. *)
Record known_acceptable (ss : serviceState) (now : Time) (req : bool) (addr : EndpointAddr) (ep : endpoint) : Prop := {
  ka_empty : hasReturnedEmptyResponse ep = true ->
    exists t, invalidResponseLastObserved ep = Some t /\ invalidResponseTimeout <= time_sub now t;
  ka_invalid : hasReturnedInvalidResponse ep = true ->
    forall t, invalidResponseLastObserved ep = Some t -> invalidResponseTimeout <= time_sub now t;
  ka_block : sync_checked ss ->
    exists h, parsedBlockNumberResponse (checkBlockNumber ep) = Some h /\ sync_floor ss <= h;
  ka_chain : getEVMChainID (serviceQoSConfig ss) <> "" ->
    chainID (checkChainID ep) = Some (getEVMChainID (serviceQoSConfig ss));
  ka_archival : req = true ->
    archival_isValid (checkArchival ep) now = true \/ cached_archival ss now addr = true;
}.

(** What an endpoint the store does not know must satisfy: no known height of
    its URL is below the floor, and the archival cache, once filled, confirms it. *)
Record fresh_acceptable (ss : serviceState) (now : Time) (req : bool) (addr : EndpointAddr) : Prop := {
  fa_block : sync_checked ss ->
    forall url h, GetURL addr = Ok url -> url_height ss url h -> sync_floor ss <= h;
  fa_archival : req = true -> forall c, archivalCache ss = Some c -> c <> ∅ -> cached_archival ss now addr = true;
}.

Definition acceptable (ss : serviceState) (now : Time) (req : bool) (addr : EndpointAddr) : Prop :=
  match endpoints ss !! addr with
  | Some ep => known_acceptable ss now req addr ep
  | None => fresh_acceptable ss now req addr
  end.

Lemma response_history_None now ep :
  response_history now ep = None <->
  (hasReturnedEmptyResponse ep = true ->
    exists t, invalidResponseLastObserved ep = Some t /\ invalidResponseTimeout <= time_sub now t) /\
  (hasReturnedInvalidResponse ep = true ->
    forall t, invalidResponseLastObserved ep = Some t -> invalidResponseTimeout <= time_sub now t).
Proof.
  unfold response_history.
  destruct (hasReturnedEmptyResponse ep), (hasReturnedInvalidResponse ep), (invalidResponseLastObserved ep) as [t|];
    try (destruct (Z.ltb_spec (time_sub now t) invalidResponseTimeout));
    (split; [try discriminate; intros _; split; intros; simplify_eq; eauto
            |intros [He Hi]; try reflexivity; exfalso]).
  all: try (destruct (He eq_refl) as (? & ? & ?); simplify_eq; lia).
  all: try (pose proof (Hi eq_refl _ eq_refl); lia).
Qed.

Lemma isBlockNumberValid_None ss check :
  state_wf ss ->
  isBlockNumberValid ss check = None <->
  (sync_checked ss -> exists h, parsedBlockNumberResponse check = Some h /\ sync_floor ss <= h).
Proof.
  intros [Hp Ha]. unfold isBlockNumberValid, sync_checked, sync_floor.
  rewrite MinAllowed_spec by assumption.
  destruct (Z.eqb_spec (getSyncAllowance (serviceQoSConfig ss)) 0); [tauto|].
  destruct (Z.eqb_spec (perceivedBlockNumber ss) 0); [tauto|].
  destruct (parsedBlockNumberResponse check) as [h|].
  - destruct (Z.ltb_spec h (Z.max 0 (perceivedBlockNumber ss - getSyncAllowance (serviceQoSConfig ss)))) as [Hlt|Hge].
    + split; [discriminate|]. intros Hc. destruct Hc as (? & [= <-] & ?); [tauto|lia].
    + split; [eauto|reflexivity].
  - split; [discriminate|]. intros Hc. destruct Hc as (? & [=] & _); tauto.
Qed.

Lemma isChainIDValid_None ss check :
  isChainIDValid ss check = None <->
  (getEVMChainID (serviceQoSConfig ss) <> "" -> chainID check = Some (getEVMChainID (serviceQoSConfig ss))).
Proof.
  unfold isChainIDValid. destruct (String.eqb_spec (getEVMChainID (serviceQoSConfig ss)) ""); [tauto|].
  destruct (chainID check) as [c|]; [|split; [discriminate|intros Hc; now specialize (Hc n)]].
  destruct (String.eqb_spec c (getEVMChainID (serviceQoSConfig ss))) as [->|Hne]; [tauto|].
  split; [discriminate|]. intros Hc. specialize (Hc n). congruence.
Qed.

Lemma basicEndpointValidation_None ss now addr ep req :
  state_wf ss ->
  basicEndpointValidation ss now addr ep req = None <-> known_acceptable ss now req addr ep.
Proof.
  intros Hwf. pose proof (response_history_None now ep) as Hr.
  pose proof (isBlockNumberValid_None ss (checkBlockNumber ep) Hwf) as Hb.
  pose proof (isChainIDValid_None ss (checkChainID ep)) as Hc.
  unfold basicEndpointValidation, check_isArchivalCapable.
  destruct (response_history now ep); [split; [discriminate|]; intros [Hk1 Hk2 _ _ _]; now specialize (proj2 Hr (conj Hk1 Hk2))|].
  destruct (isBlockNumberValid ss (checkBlockNumber ep));
    [split; [discriminate|]; intros [_ _ Hk _ _]; apply Hb in Hk; discriminate|].
  destruct (isChainIDValid ss (checkChainID ep));
    [split; [discriminate|]; intros [_ _ _ Hk _]; apply Hc in Hk; discriminate|].
  destruct (proj1 Hr eq_refl) as [H1' H2']. pose proof (proj1 Hb eq_refl). pose proof (proj1 Hc eq_refl).
  destruct req; [|split; [intros _; split; (assumption || discriminate)|reflexivity]].
  destruct (archival_isValid (checkArchival ep) now) eqn:Ea; [split; [intros _; split; auto|reflexivity]|].
  destruct (cached_archival ss now addr) eqn:Ec; [split; [intros _; split; auto|reflexivity]|].
  split; [discriminate|]. intros [_ _ _ _ Hk]. destruct (Hk eq_refl); congruence.
Qed.

Lemma fresh_endpoint_None ss now addr req :
  state_wf ss ->
  fresh_endpoint_failure ss now (buildURLBlockHeightMap ss) addr req = None <-> fresh_acceptable ss now req addr.
Proof.
  intros [Hp Ha]. unfold fresh_endpoint_failure. cbv zeta.
  set (filled := match archivalCache ss with Some c => 0 <? cache_Len c | None => false end).
  assert (filled = true <-> exists c, archivalCache ss = Some c /\ c <> ∅) as Hf.
  { unfold filled, cache_Len. destruct (archivalCache ss) as [c|]; [|split; [discriminate|intros (? & [=] & _)]].
    rewrite Z.ltb_lt. split.
    - intros Hs. exists c. split; [reflexivity|]. intros ->. now vm_compute in Hs.
    - intros (c' & [= <-] & Hc). assert (size c <> 0%nat) by exact (proj2 (map_size_non_empty_iff (M := gmap string) c) Hc). lia. }
  assert ((0 <? getSyncAllowance (serviceQoSConfig ss)) && (0 <? perceivedBlockNumber ss) = true <-> sync_checked ss) as Hs.
  { unfold sync_checked, in_uint64 in *. rewrite andb_true_iff, !Z.ltb_lt. lia. }
  destruct (req && filled && negb (cached_archival ss now addr)) eqn:Ea.
  - split; [discriminate|]. intros [_ Hk]. breflect. subst req. destruct (proj1 Hf) as (c & Hc & Hne); [assumption|].
    rewrite (Hk eq_refl c Hc Hne) in *. discriminate.
  - assert (req = true -> forall c, archivalCache ss = Some c -> c <> ∅ -> cached_archival ss now addr = true) as Harch.
    { intros -> c Hc Hne. rewrite (proj2 Hf) in Ea by eauto. cbn in Ea. now apply negb_false_iff in Ea. }
    destruct (_ && _) eqn:Es; [|split; [intros _; split; [|exact Harch]|reflexivity];
      intros Hsc; apply Hs in Hsc; congruence].
    rewrite MinAllowed_spec by assumption. fold (sync_floor ss).
    destruct (GetURL addr) as [url|] eqn:Eu; [|split; [intros _; split; [congruence|exact Harch]|reflexivity]].
    destruct (buildURLBlockHeightMap ss !! url) as [v|] eqn:Ev.
    + destruct (url_map_sound _ _ _ Ev) as [Hv Hmin]. destruct (Z.ltb_spec v (sync_floor ss)).
      * split; [discriminate|]. intros [Hk _]. pose proof (Hk (proj1 Hs eq_refl) url v Eu Hv). lia.
      * split; [|reflexivity]. intros _. split; [|exact Harch]. intros _ u h Hu Hh. assert (u = url) as -> by congruence. specialize (Hmin h Hh). lia.
    + split; [|reflexivity]. intros _. split; [|exact Harch]. intros _ u h Hu Hh. assert (u = url) as -> by congruence.
      destruct (url_map_complete _ _ _ Hh) as (v & Hv & _). congruence.
Qed.

Lemma endpoint_failure_None ss now req addr :
  state_wf ss ->
  endpoint_failure ss now (buildURLBlockHeightMap ss) req addr = None <-> acceptable ss now req addr.
Proof.
  intros Hwf. unfold endpoint_failure, acceptable. destruct (endpoints ss !! addr) as [ep|].
  - rewrite <- basicEndpointValidation_None by exact Hwf.
    destruct (basicEndpointValidation ss now addr ep req); cbn; split; congruence.
  - now apply fresh_endpoint_None.
Qed.

Lemma filter_valid_In ss now available req l results ss' :
  state_wf ss ->
  filterValidEndpointsWithDetails ss now available req = (Ok (l, results), ss') ->
  ss' = touch ss now available /\ forall addr, In addr l <-> In addr available /\ acceptable ss now req addr.
Proof.
  intros Hwf. unfold filterValidEndpointsWithDetails. destruct available as [|a rest] eqn:Ea; [discriminate|].
  rewrite <- Ea. intros [= <- <- <-]. split; [reflexivity|]. intros addr.
  rewrite filter_In, <- endpoint_failure_None by exact Hwf.
  destruct (endpoint_failure ss now (buildURLBlockHeightMap ss) req addr); cbn; intuition congruence.
Qed.
End Filter.

(** ** Selection *)

Section Selection.
Context `{RPCTypeEnum} `{EVMRPCTypes} `{DomainLib} {R : Type} `{RandSource R} `{!RandLaws R}.

Lemma shuffle_down_always {A} i : forall l : list A,
  (i = 0 \/ i < List.length l)%nat -> always (shuffle_down (R := R) i l) (fun l' => l' ≡ₚ l).
Proof.
  induction i as [|i IH]; intros l Hi; [now apply always_ret|]. cbn [shuffle_down].
  eapply always_bind; [apply always_Intn; lia|]. intros j Hj. cbv beta in Hj.
  eapply always_bind; [apply always_index; lia|]. intros a Ha.
  eapply always_bind; [apply always_index; lia|]. intros b Hb. cbv beta in Ha, Hb.
  rewrite Nat2Z.id in Ha. pose proof (swap_perm l (S i) (Z.to_nat j) a b Ha Hb) as HP.
  eapply always_mono; [apply IH; rewrite HP; lia|]. cbv beta. intros l' Hl'. now rewrite Hl', HP.
Qed.

Lemma rand_Shuffle_always {A} (l : list A) : always (rand_Shuffle (R := R) l) (fun l' => l' ≡ₚ l).
Proof. apply shuffle_down_always. destruct l; cbn; lia. Qed.

Lemma scored_less_weak_order : weak_order scored_less.
Proof.
  split; unfold scored_less; intros x y.
  - destruct (se_hasData x), (se_hasData y); cbn; intros; breflect; try apply Z.ltb_ge; try congruence; lia.
  - intros z. destruct (se_hasData x), (se_hasData y), (se_hasData z); cbn; intros; breflect;
      try apply Z.ltb_ge; try congruence; lia.
Qed.

(** The lowest height known for the URL of an endpoint. *)
Definition least_height (ss : serviceState) (addr : EndpointAddr) : option Z :=
  match GetURL addr with Ok url => buildURLBlockHeightMap ss !! url | Err _ => None end.

(** [y] is no fresher than [x]: [x] has a height if [y] has one, and then, cut
    off at the perceived height, no lower a height. *)
Definition no_fresher (ss : serviceState) (y x : EndpointAddr) : Prop :=
  match least_height ss y with
  | None => True
  | Some hy => exists hx, least_height ss x = Some hx /\
      Z.min (perceivedBlockNumber ss) hy <= Z.min (perceivedBlockNumber ss) hx
  end.

(** Heights are uint64. *)
Definition heights_wf (ss : serviceState) : Prop := forall url h, url_height ss url h -> 0 <= h.

Lemma least_height_nonneg ss addr h : heights_wf ss -> least_height ss addr = Some h -> 0 <= h.
Proof.
  intros Hwf. unfold least_height. destruct (GetURL addr) as [url|]; [|discriminate].
  intros Hh. apply url_map_sound in Hh as [Hh _]. now apply Hwf in Hh.
Qed.

Lemma score_addr ss p addr : se_addr (score_endpoint (buildURLBlockHeightMap ss) p addr) = addr.
Proof. unfold score_endpoint. destruct (GetURL addr); [destruct (_ !! _)|]; reflexivity. Qed.

Lemma scored_no_fresher ss x y :
  state_wf ss -> heights_wf ss ->
  let score := score_endpoint (buildURLBlockHeightMap ss) (perceivedBlockNumber ss) in
  scored_less (score y) (score x) = false -> no_fresher ss y x.
Proof.
  intros [Hp _] Hh score. subst score. unfold no_fresher, in_uint64 in *.
  pose proof (least_height_nonneg ss x) as Hx. pose proof (least_height_nonneg ss y) as Hy.
  unfold least_height, score_endpoint, scored_less in *.
  destruct (GetURL y) as [uy|]; [|trivial]. destruct (buildURLBlockHeightMap ss !! uy) as [hy|]; [|trivial].
  specialize (Hy hy Hh eq_refl).
  destruct (GetURL x) as [ux|]; cbn; [|discriminate].
  destruct (buildURLBlockHeightMap ss !! ux) as [hx|]; cbn; [|discriminate].
  specialize (Hx hx Hh eq_refl). intros Hless. exists hx. split; [reflexivity|]. breflect. revert Hless.
  destruct (Z.leb_spec (perceivedBlockNumber ss) hx), (Z.leb_spec (perceivedBlockNumber ss) hy);
    rewrite ?wrapu64_id by (unfold in_uint64; lia); lia.
Qed.

(** Where the code falls back to a random choice, the stale-URL filter in front
    of it changes nothing. *)
Lemma filterStale_noop ss eps :
  ~ sync_checked ss \/ buildURLBlockHeightMap ss = ∅ -> filterStaleURLEndpoints ss eps = eps.
Proof.
  unfold filterStaleURLEndpoints, sync_checked. intros Hc.
  destruct (Z.eqb_spec (getSyncAllowance (serviceQoSConfig ss)) 0); [reflexivity|].
  destruct (Z.eqb_spec (perceivedBlockNumber ss) 0); [reflexivity|].
  destruct Hc as [Hc|Hc]; [tauto|]. now rewrite bool_decide_eq_true_2.
Qed.

(** How many endpoints a request for [n] of them stands for. *)
Definition at_least_one (n : Z) : Z := if n =? 0 then 1 else n.

(** What the fallback returns: [l] and what is left over make up the pool, [l]
    is as long as asked for or the whole pool, and while there is a height to
    compare with, nothing left over is fresher than anything in [l]. *)
Definition least_stale (ss : serviceState) (available : list EndpointAddr) (n : Z) (l : list EndpointAddr) : Prop :=
  exists rest, (l ++ rest ≡ₚ available)%list /\ len l = Z.min (at_least_one n) (len available) /\
    (sync_checked ss -> forall x y, In x l -> In y rest -> no_fresher ss y x).

Lemma random_least_stale ss available n :
  1 <= n <= max_int64 ->
  ~ sync_checked ss \/ buildURLBlockHeightMap ss = ∅ ->
  always (RandomSelectMultiple (R := R) (filterStaleURLEndpoints ss available) n) (least_stale ss available n).
Proof.
  intros Hn Hc. rewrite filterStale_noop by exact Hc.
  eapply always_mono; [apply (random_select_always _ available n); lia|]. cbv beta. intros l (perm & HP & ->).
  exists (drop (Z.to_nat n) perm). rewrite take_drop. split; [exact HP|]. split.
  - rewrite length_take, HP. unfold at_least_one. destruct (Z.eqb_spec n 0); lia.
  - intros Hs x y _ _. destruct Hc as [Hc|Hc]; [contradiction|].
    unfold no_fresher, least_height. rewrite Hc. destruct (GetURL y); [rewrite lookup_empty|]; trivial.
Qed.

Lemma least_stale_at_least_one ss available n l :
  least_stale ss available (at_least_one n) l -> least_stale ss available n l.
Proof.
  assert (at_least_one (at_least_one n) = at_least_one n) as E.
  { unfold at_least_one. destruct (Z.eqb_spec n 0); [reflexivity|]. destruct (Z.eqb_spec n 0); lia. }
  unfold least_stale. now rewrite E.
Qed.

Lemma select_least_stale_always ss available n :
  state_wf ss -> heights_wf ss -> 0 <= n <= max_int64 ->
  always (selectLeastStaleEndpoints (R := R) ss available n) (least_stale ss available n).
Proof.
  intros Hwf Hh Hn. unfold selectLeastStaleEndpoints. fold (at_least_one n).
  assert (1 <= at_least_one n <= max_int64) as Hn1
    by (unfold at_least_one, max_int64 in *; destruct (Z.eqb_spec n 0); lia).
  destruct available as [|a0 rest0] eqn:Ea.
  { apply always_ret. exists []. split; [reflexivity|]. split; [cbn; lia|]. intros _ x y []. }
  rewrite <- Ea. clear Ea a0 rest0.
  destruct (_ || _) eqn:Ec.
  { eapply always_mono; [apply random_least_stale; [exact Hn1|left]|intros l; apply least_stale_at_least_one].
    unfold sync_checked. apply orb_true_iff in Ec as [Ec|Ec]; breflect; tauto. }
  destruct (bool_decide (buildURLBlockHeightMap ss = ∅)) eqn:Em.
  { apply bool_decide_eq_true_1 in Em.
    eapply always_mono; [apply random_least_stale; [exact Hn1|now right]|intros l; apply least_stale_at_least_one]. }
  set (score := score_endpoint (buildURLBlockHeightMap ss) (perceivedBlockNumber ss)).
  eapply always_bind; [apply rand_Shuffle_always|]. intros shuffled Hsh. cbv beta in Hsh.
  set (srt := slice_stable scored_less shuffled).
  assert (srt ≡ₚ map score available) as Hsrt by (unfold srt; now rewrite slice_stable_perm).
  assert (len srt = len available) as Hlen by (rewrite Hsrt, length_map; reflexivity).
  rewrite wrap64_id by (unfold in_int64, min_int64; lia).
  set (k := if len srt <? at_least_one n then len srt else at_least_one n).
  assert (k = Z.min (at_least_one n) (len available)) as Hk
    by (unfold k; rewrite Hlen; destruct (Z.ltb_spec (len available) (at_least_one n)); lia).
  destruct (Z.ltb_spec k 0); [lia|]. apply always_ret.
  assert (forall s, In s srt -> s = score (se_addr s)) as Hscore.
  { intros s Hs. rewrite Hsrt in Hs. apply in_map_iff in Hs as (x & <- & _). unfold score. now rewrite score_addr. }
  exists (map se_addr (drop (Z.to_nat k) srt)). split; [|split].
  - rewrite <- map_app, take_drop, Hsrt, map_map. unfold score.
    rewrite (map_ext _ (fun x => x)); [now rewrite map_id|]. intros x. apply score_addr.
  - rewrite length_map, length_take. lia.
  - intros _ x y Hx Hy. apply in_map_iff in Hx as (sx & <- & Hx). apply in_map_iff in Hy as (sy & <- & Hy).
    pose proof (sorted_take_drop scored_less srt (Z.to_nat k) sx sy
      (slice_stable_sorted _ _ scored_less_weak_order) Hx Hy) as Hless.
    assert (In sx srt /\ In sy srt) as [Ix Iy].
    { rewrite <- (take_drop (Z.to_nat k) srt). split; apply in_or_app; tauto. }
    apply scored_no_fresher; [exact Hwf|exact Hh|]. fold score. now rewrite <- (Hscore sx Ix), <- (Hscore sy Iy).
Qed.
End Selection.

(** ** Touching changes only [lastSeen] *)

Definition checks (ep : endpoint) := (checkBlockNumber ep, checkArchival ep).

Lemma touch_checks m now addrs a :
  checks <$> touchEndpoints m now addrs !! a = checks <$> m !! a.
Proof.
  unfold touchEndpoints. revert m. induction addrs as [|x addrs IH]; intros m; [reflexivity|]. cbn. rewrite IH.
  destruct (m !! x) as [ep|] eqn:E; [|reflexivity].
  destruct (decide (x = a)) as [->|Hne]; [now rewrite lookup_insert_eq, E|now rewrite lookup_insert_ne].
Qed.

Lemma touch_lookup ss now addrs a ep' :
  endpoints (touch ss now addrs) !! a = Some ep' ->
  exists ep, endpoints ss !! a = Some ep /\ checkBlockNumber ep' = checkBlockNumber ep /\ checkArchival ep' = checkArchival ep.
Proof.
  intros Ha. cbn in Ha. pose proof (touch_checks (endpoints ss) now addrs a) as Hu. rewrite Ha in Hu.
  destruct (endpoints ss !! a) as [ep|]; [|discriminate]. injection Hu as Hb Ha'. eauto.
Qed.

Lemma touch_lookup_back ss now addrs a ep :
  endpoints ss !! a = Some ep ->
  exists ep', endpoints (touch ss now addrs) !! a = Some ep' /\
    checkBlockNumber ep' = checkBlockNumber ep /\ checkArchival ep' = checkArchival ep.
Proof.
  intros Ha. pose proof (touch_checks (endpoints ss) now addrs a) as Hu. rewrite Ha in Hu.
  change (touchEndpoints (endpoints ss) now addrs) with (endpoints (touch ss now addrs)) in Hu.
  destruct (endpoints (touch ss now addrs) !! a) as [ep'|]; [|discriminate]. injection Hu as Hb Ha'. eauto.
Qed.

Lemma touch_url_height ss now addrs url h : url_height (touch ss now addrs) url h <-> url_height ss url h.
Proof.
  unfold url_height. split; (intros [(a & ep & Ha & Hu & Hh)|Hc]; [left|right; exact Hc]).
  - destruct (touch_lookup _ _ _ _ _ Ha) as (ep0 & H0 & Hb & _). exists a, ep0. now rewrite <- Hb.
  - destruct (touch_lookup_back _ now addrs _ _ Ha) as (ep1 & H1 & Hb & _). exists a, ep1. now rewrite Hb.
Qed.

Lemma touch_url_map ss now addrs : buildURLBlockHeightMap (touch ss now addrs) = buildURLBlockHeightMap ss.
Proof.
  apply map_eq. intros url. apply option_eq. intros v.
  assert (forall s1 s2, (forall h, url_height s1 url h <-> url_height s2 url h) ->
    buildURLBlockHeightMap s1 !! url = Some v -> buildURLBlockHeightMap s2 !! url = Some v) as Hdir.
  { intros s1 s2 Hiff Hv. apply url_map_sound in Hv as [Hv Hmin].
    destruct (url_map_complete s2 url v) as (w & Hw & Hle); [now apply Hiff|].
    destruct (url_map_sound _ _ _ Hw) as [Hw' _]. apply Hiff, Hmin in Hw'. rewrite Hw. f_equal. lia. }
  split; apply Hdir; intros h; rewrite touch_url_height; reflexivity.
Qed.

Lemma touch_heights_wf ss now addrs : heights_wf ss -> heights_wf (touch ss now addrs).
Proof. intros Hh url h Hu. apply touch_url_height in Hu. now apply Hh in Hu. Qed.

Lemma touch_least_stale ss now addrs pool n l :
  least_stale (touch ss now addrs) pool n l -> least_stale ss pool n l.
Proof.
  intros (rest & HP & Hl & Hf). exists rest. repeat split; [exact HP|exact Hl|]. intros Hs x y Hx Hy.
  specialize (Hf Hs x y Hx Hy). unfold no_fresher, least_height in *. now rewrite touch_url_map in Hf.
Qed.

(** ** Claims on filtering and selection *)

Section SelectionClaims.
Context `{RPCTypeEnum} `{EVMRPCTypes} `{DomainLib} {R : Type} `{RandSource R} `{!RandLaws R}.

(** Archival by the store or by the cache. *)
Definition archival_known (ss : serviceState) (now : Time) (a : EndpointAddr) : bool :=
  match endpoints ss !! a with Some ep => archival_isValid (checkArchival ep) now | None => false end
  || cached_archival ss now a.

Lemma archival_known_touch ss now addrs t a : archival_known (touch ss now addrs) t a = archival_known ss t a.
Proof.
  unfold archival_known. change (cached_archival (touch ss now addrs) t a) with (cached_archival ss t a). f_equal.
  pose proof (touch_checks (endpoints ss) now addrs a) as Hc.
  change (touchEndpoints (endpoints ss) now addrs) with (endpoints (touch ss now addrs)) in Hc.
  destruct (endpoints (touch ss now addrs) !! a), (endpoints ss !! a); try discriminate; [|reflexivity].
  injection Hc as _ ->. reflexivity.
Qed.

Lemma fallback_archival ss now available :
  filterArchivalEndpointsForFallback (touch ss now available) now available =
  List.filter (archival_known ss now) available.
Proof. apply filter_ext. intros a. apply (archival_known_touch ss now available now a). Qed.

Lemma acceptable_archival ss now a :
  acceptable ss now true a ->
  archival_known ss now a = true \/ (endpoints ss !! a = None /\ forall c, archivalCache ss = Some c -> c = ∅).
Proof.
  unfold acceptable, archival_known. destruct (endpoints ss !! a) as [ep|].
  - intros [_ _ _ _ Hk]. left. apply orb_true_iff. auto.
  - intros [_ Hk]. destruct (archivalCache ss) as [c|] eqn:Ec.
    + destruct (decide (c = ∅)) as [->|Hne]; [right; split; [reflexivity|]; now intros ? [= <-]|].
      left. cbn. now apply (Hk eq_refl c).
    + right. split; [reflexivity|]. discriminate.
Qed.

Lemma least_stale_sub ss pool n l : least_stale ss pool n l -> forall a, In a l -> In a pool.
Proof. intros (rest & HP & _) a Ha. rewrite <- HP. apply in_or_app. now left. Qed.

Lemma least_stale_ne ss pool n l : 0 <= n -> pool <> [] -> least_stale ss pool n l -> l <> [].
Proof.
  intros Hn Hp (rest & _ & Hl & _) ->. apply length_ne in Hp. unfold at_least_one in Hl.
  destruct (Z.eqb_spec n 0); cbn in Hl; lia.
Qed.

(** What a multiple selection may return. *)
Definition selection_ok (ss : serviceState) (now : Time) (available : list EndpointAddr) (n : Z) (req : bool)
  (r : result selection_error (list EndpointAddr)) : Prop :=
  match r with
  | Err EmptyEndpointList => available = []
  | Err NoArchivalEndpoints =>
      req = true /\ forall a, In a available -> ~ acceptable ss now req a /\ archival_known ss now a = false
  | Err NoFallbackEndpoints => False
  | Ok l =>
      l <> [] /\ (forall a, In a l -> In a available) /\
      (* an acceptable endpoint is there: only acceptable ones are returned *)
      ((exists a, In a available /\ acceptable ss now req a) -> NoDup l /\ forall a, In a l -> acceptable ss now req a) /\
      (* none is: the least stale of the pool, of its archival part for an archival request *)
      ((forall a, In a available -> ~ acceptable ss now req a) ->
        least_stale ss (if req then List.filter (archival_known ss now) available else available) n l) /\
      (* an archival request gets archival endpoints, or unknown ones while the cache is empty *)
      (req = true -> forall a, In a l -> archival_known ss now a = true \/
        (endpoints ss !! a = None /\ forall c, archivalCache ss = Some c -> c = ∅))
  end.

Lemma selected_ok ss now available n req filtered results ss' l :
  state_wf ss -> filterValidEndpointsWithDetails ss now available req = (Ok (filtered, results), ss') ->
  l <> [] -> NoDup l -> (forall a, In a l -> In a filtered) ->
  selection_ok ss now available n req (Ok l).
Proof.
  intros Hwf Hf Hne Hnd Hsub. destruct (filter_valid_In _ _ _ _ _ _ _ Hwf Hf) as [_ Hin].
  split; [exact Hne|]. split; [intros a Ha; now apply Hin, Hsub|]. split; [|split].
  - intros _. split; [exact Hnd|]. intros a Ha. now apply Hin, Hsub.
  - intros Hnone. destruct l as [|a l]; [contradiction|]. exfalso.
    destruct (proj1 (Hin a)) as [Ha Hacc]; [apply Hsub; now left|]. now apply (Hnone a).
  - intros -> a Ha. apply acceptable_archival. now apply Hin, Hsub.
Qed.

Lemma fallback_ok ss now available n (req : bool) l :
  0 <= n -> (if req then List.filter (archival_known ss now) available else available) <> [] ->
  (forall a, In a available -> ~ acceptable ss now req a) ->
  least_stale ss (if req then List.filter (archival_known ss now) available else available) n l ->
  selection_ok ss now available n req (Ok l).
Proof.
  intros Hn Hne Hnone Hl. split; [now apply (least_stale_ne _ _ _ _ Hn Hne Hl)|].
  assert (forall a, In a l -> In a available /\ (req = true -> archival_known ss now a = true)) as Hin.
  { intros a Ha. apply (least_stale_sub _ _ _ _ Hl) in Ha. destruct req; [apply filter_In in Ha; tauto|].
    split; [exact Ha|discriminate]. }
  split; [intros a Ha; now apply Hin|]. split; [|split].
  - intros (a & Ha & Hacc). now apply Hnone in Ha.
  - intros _. exact Hl.
  - intros Hr a Ha. left. now apply Hin.
Qed.

Lemma select_multiple_always g ss now available n req :
  state_wf ss -> heights_wf ss -> 1 <= n <= max_int64 ->
  always (SelectMultipleWithArchival (R := R) g ss now available n req)
    (fun x => selection_ok ss now available n req (fst x)).
Proof.
  intros Hwf Hh Hn. unfold SelectMultipleWithArchival.
  destruct (filterValidEndpointsWithDetails ss now available req) as [[[filtered results]|e] ss'] eqn:Ef.
  - destruct (filter_valid_In _ _ _ _ _ _ _ Hwf Ef) as [-> Hin].
    assert (available <> []) as Hne by (intros ->; discriminate Ef).
    destruct filtered as [|f0 fs] eqn:Efl.
    + assert (forall a, In a available -> ~ acceptable ss now req a) as Hnone.
      { intros a Ha Hacc. destruct (proj2 (Hin a)); auto. }
      assert (forall pool, always (selectLeastStaleEndpoints (R := R) (touch ss now available) pool n)
        (least_stale ss pool n)) as Hls.
      { intros pool. eapply always_mono; [apply select_least_stale_always|intros l; apply touch_least_stale].
        - destruct Hwf. now split.
        - now apply touch_heights_wf.
        - lia. }
      destruct req.
      * rewrite fallback_archival. destruct (List.filter (archival_known ss now) available) as [|a0 as0] eqn:Ea.
        -- apply always_ret. split; [reflexivity|]. intros a Ha. split; [now apply Hnone|].
           destruct (archival_known ss now a) eqn:Ek; [|reflexivity].
           assert (In a (List.filter (archival_known ss now) available)) as Hc by (apply filter_In; auto).
           now rewrite Ea in Hc.
        -- rewrite <- Ea. eapply always_bind; [apply Hls|]. intros l Hl. apply always_ret.
           apply fallback_ok; [lia|now rewrite Ea|exact Hnone|exact Hl].
      * eapply always_bind; [apply Hls|]. intros l Hl. apply always_ret.
        apply fallback_ok; [lia|exact Hne|exact Hnone|exact Hl].
    + rewrite <- Efl in Ef |- *. eapply always_bind; [apply (diverse_select_always _ g _ filtered n); lia|].
      cbv beta. intros l (Hnd & Hsub & _ & Hlen). apply always_ret.
      eapply selected_ok; [exact Hwf|exact Ef| |exact Hnd|exact Hsub].
      intros ->. destruct Hlen as [Hlen|[_ Hall]]; [cbn in Hlen; lia|].
      apply (Hall f0). rewrite Efl. now left.
  - apply always_ret. unfold filterValidEndpointsWithDetails in Ef. destruct available; [|discriminate].
    now injection Ef as <- <-.
Qed.

(** Filtering returns exactly the acceptable endpoints, with one result
    per endpoint in order.  For a known endpoint acceptable means: no empty or
    invalid response in the last five minutes, a recorded height within the sync
    allowance of the perceived one, the expected chain id, and for an archival
    request an archival status in the store or the cache.  For an unknown one:
    no source knows a height of its URL below the allowance, and a filled
    archival cache confirms it. *)
Theorem evm_filter_exact ss now available req :
  state_wf ss -> available <> [] ->
  exists valid results,
    filterValidEndpointsWithDetails ss now available req = (Ok (valid, results), touch ss now available) /\
    (forall a, In a valid <-> In a available /\ acceptable ss now req a) /\
    map vr_EndpointAddr results = available /\
    valid = map vr_EndpointAddr (List.filter (fun r => is_none (vr_FailureReason r)) results).
Proof.
  intros Hwf Hne. destruct available as [|a0 rest] eqn:Ea; [contradiction|]. rewrite <- Ea.
  destruct (filterValidEndpointsWithDetails ss now available req) as [[[valid results]|e] ss'] eqn:Ef;
    [|subst; discriminate Ef].
  exists valid, results. destruct (filter_valid_In _ _ _ _ _ _ _ Hwf Ef) as [-> Hin].
  split; [reflexivity|]. split; [exact Hin|]. clear Hin.
  unfold filterValidEndpointsWithDetails in Ef. rewrite Ea in Ef. rewrite <- Ea in Ef. injection Ef as <- <-.
  clear. split; [rewrite map_map; apply map_id|].
  induction available as [|x l IH]; [reflexivity|]. cbn. destruct (endpoint_failure _ _ _ _ x); cbn; congruence.
Qed.

(** C6: a selection of one or more endpoints (at least one is asked for), from any well-formed
    state with heights of 64 bits, never panics and never returns an empty list: while some endpoint
    is acceptable it returns distinct acceptable endpoints only; otherwise the least stale ones of
    the pool.  An archival request never gets an endpoint whose archival status is not known,
    except an unknown endpoint while the archival cache is empty.  It fails only for an empty list
    of candidates and for an archival request for which no endpoint qualifies. *)
Theorem evm_selection_total g ss now available n req :
  state_wf ss -> heights_wf ss -> 1 <= n <= max_int64 ->
  always (SelectMultipleWithArchival (R := R) g ss now available n req)
    (fun x => selection_ok ss now available n req (fst x)).
Proof. apply select_multiple_always. Qed.
End SelectionClaims.

(** ** Heights across the fleet *)

(** What the heights rely on in a storage: an open one keeps what is written,
    and its other writes leave the heights alone. *)
Class HeightStorageLaws (St : Type) `{!Storage St} (open : St -> Prop) : Prop := {
  hsl_set : forall st sid a h, open st -> exists st' m,
    st_SetEndpointBlockHeight st sid a h = Ok st' /\ open st' /\
    st_GetEndpointBlockHeights st' sid = Ok m /\ m !! a = Some h;
  hsl_Set : forall st now k sc st', open st -> st_Set st now k sc = Ok st' ->
    open st' /\ forall sid, st_GetEndpointBlockHeights st' sid = st_GetEndpointBlockHeights st sid;
  hsl_perceived : forall st s n st', open st -> st_SetPerceivedBlockNumber st s n = Ok st' ->
    open st' /\ forall sid, st_GetEndpointBlockHeights st' sid = st_GetEndpointBlockHeights st sid;
}.

#[export] Instance MemoryStorage_height_laws `{RPCTypeEnum} :
  HeightStorageLaws MemoryStorage (fun m => ms_closed m = false).
Proof.
  split; cbn; unfold ms_SetEndpointBlockHeight, ms_GetEndpointBlockHeights, ms_Set, ms_SetPerceivedBlockNumber, guard_open.
  - intros st sid a h Ho. rewrite Ho. do 2 eexists. split; [reflexivity|]. cbn. rewrite Ho.
    split; [reflexivity|]. split; [reflexivity|]. rewrite lookup_insert_eq. cbn. apply lookup_insert_eq.
  - intros st now k sc st' Ho. rewrite Ho. intros [= <-]. cbn. now rewrite Ho.
  - intros st s n st' Ho. rewrite Ho. case_if; intros [= <-]; cbn; now rewrite Ho.
Qed.

Section Fleet.
Context `{RPCTypeEnum} `{EVMRPCTypes} `{SliceSort} {St : Type} `{!Storage St}.
Context (open : St -> Prop) `{!HeightStorageLaws St open}.

Definition run_tasks (s : service St) (l : list (Time * rep_task)) : service St :=
  fold_left (fun s '(t, task) => run_task s t task) l s.

Definition stored_heights (s : service St) (sid : string) := st_GetEndpointBlockHeights (svc_storage s) sid.

Definition is_height_task (t : rep_task) : bool :=
  match t with TaskSetEndpointBlockHeight _ _ _ => true | _ => false end.

Lemma run_task_other s now t :
  open (svc_storage s) -> is_height_task t = false ->
  open (svc_storage (run_task s now t)) /\ forall sid, stored_heights (run_task s now t) sid = stored_heights s sid.
Proof.
  intros Ho. destruct t as [key ttl|sid n|sid a h]; [intros _|intros _|discriminate]; unfold stored_heights; cbn.
  - unfold SetArchivalStatus. cbv zeta. set (s1 := setScoreLocked s key _).
    unfold try_send. case_if; cbn; [now split|].
    destruct (st_Set _ _ _ _) as [st|] eqn:Es; cbn; [|auto]. eapply hsl_Set; eassumption.
  - unfold SetPerceivedBlockNumber, store_result.
    destruct (st_SetPerceivedBlockNumber _ _ _) as [st|] eqn:Es; cbn; [|auto]. eapply hsl_perceived; eassumption.
Qed.

Lemma run_tasks_other s l :
  open (svc_storage s) -> Forall (fun x => is_height_task (snd x) = false) l ->
  open (svc_storage (run_tasks s l)) /\ forall sid, stored_heights (run_tasks s l) sid = stored_heights s sid.
Proof.
  intros Ho Hl. revert s Ho. induction Hl as [|[t task] l Ht Hl IH]; intros s Ho; [now split|]. cbn.
  destruct (run_task_other s t task Ho Ht) as [Ho' Hh]. destruct (IH _ Ho') as [Ho2 Hh2].
  split; [exact Ho2|]. intros sid. now rewrite Hh2, Hh.
Qed.

(** Whatever the order of the goroutines, the one height task takes effect. *)
Lemma run_tasks_height s l sid a h :
  open (svc_storage s) ->
  List.filter (fun x => is_height_task (snd x)) l <> [] ->
  (forall x, In x l -> is_height_task (snd x) = true -> snd x = TaskSetEndpointBlockHeight sid a h) ->
  exists m, stored_heights (run_tasks s l) sid = Ok m /\ m !! a = Some h.
Proof.
  revert s. induction l as [|[t task] l IH]; intros s Ho Hne Hall; [contradiction|]. cbn in Hne |- *.
  destruct (is_height_task task) eqn:Et.
  - pose proof (Hall _ (or_introl eq_refl) Et) as Etask. cbn in Etask. subst task.
    destruct (hsl_set (svc_storage s) sid a h Ho) as (st' & m & E1 & Ho' & E2 & Em).
    assert (svc_storage (run_task s t (TaskSetEndpointBlockHeight sid a h)) = st') as Es
      by (cbn; unfold SetEndpointBlockHeight, store_result; now rewrite E1).
    destruct (List.filter (fun x => is_height_task (snd x)) l) as [|x xs] eqn:Ef.
    + destruct (run_tasks_other (run_task s t (TaskSetEndpointBlockHeight sid a h)) l) as [_ Hh]; [now rewrite Es| |].
      * apply Forall_forall. intros x Hx. destruct (is_height_task (snd x)) eqn:Ex; [|reflexivity].
        assert (In x (List.filter (fun x => is_height_task (snd x)) l)) as Hin
          by (apply filter_In; split; [now apply list_elem_of_In|exact Ex]). now rewrite Ef in Hin.
      * exists m. rewrite Hh. unfold stored_heights. now rewrite Es.
    + apply IH; [now rewrite Es|discriminate|]. intros y Hy. apply Hall. now right.
  - destruct (run_task_other s t task Ho Et) as [Ho' _]. apply IH; [exact Ho'|exact Hne|].
    intros y Hy. apply Hall. now right.
Qed.

Lemma sync_height ss now s a h m :
  GetEndpointBlockHeights s (GetServiceID (serviceQoSConfig ss)) = m -> m !! a = Some h ->
  exists ep, endpoints (syncEndpointBlocksFromRedis ss now s) !! a = Some ep /\
    parsedBlockNumberResponse (checkBlockNumber ep) = Some h.
Proof.
  intros Hm Ha. unfold syncEndpointBlocksFromRedis. rewrite Hm.
  rewrite bool_decide_eq_false_2 by (intros ->; now rewrite lookup_empty in Ha). cbn.
  unfold fill_by_url, overwrite_heights. rewrite map_lookup_imap, lookup_union, map_lookup_imap, Ha. cbn.
  destruct (endpoints ss !! a); cbn; eauto.
Qed.

(** C22: an endpoint one process has seen lagging is rejected by every process.
    When a leader observes the height [h] of an endpoint and its goroutines have
    run, in any order, a process on the same storage holds [h] for that endpoint
    after its next sync, and filters the endpoint out if [h] is below its own
    perceived height minus the sync allowance. *)
Theorem lagging_endpoint_rejected_fleetwide leader s now addr d scheduled follower s_f now_f now_q req :
  let tasks := snd (UpdateFromExtractedData leader now true addr (Some d)) in
  let follower' := syncEndpointBlocksFromRedis follower now_f s_f in
  0 < ed_BlockHeight d -> open (svc_storage s) ->
  map snd scheduled ≡ₚ tasks ->
  svc_storage s_f = svc_storage (run_tasks s scheduled) ->
  GetServiceID (serviceQoSConfig follower) = GetServiceID (serviceQoSConfig leader) ->
  state_wf follower -> sync_checked follower -> ed_BlockHeight d < sync_floor follower ->
  (exists ep, endpoints follower' !! addr = Some ep /\
     parsedBlockNumberResponse (checkBlockNumber ep) = Some (ed_BlockHeight d)) /\
  ~ acceptable follower' now_q req addr.
Proof.
  intros tasks follower' Hd Ho Hperm Hst Hsid Hwf Hsync Hlow.
  set (sid := GetServiceID (serviceQoSConfig leader)) in *. set (h := ed_BlockHeight d) in *.
  assert (extracted_block d = Some h) as Eb by (unfold extracted_block; fold h; destruct (Z.ltb_spec 0 h); [reflexivity|lia]).
  assert (forall t, In t tasks -> is_height_task t = true -> t = TaskSetEndpointBlockHeight sid addr h) as Hall.
  { intros t. unfold tasks, UpdateFromExtractedData. rewrite Eb. cbn [default from_option id snd].
    rewrite !in_app_iff. intros [Ht|[Ht|Ht]]; revert Ht; case_if; cbn; intros; intuition (subst; (discriminate || reflexivity)). }
  assert (In (TaskSetEndpointBlockHeight sid addr h) tasks) as Hin.
  { unfold tasks, UpdateFromExtractedData. rewrite Eb. cbn [default from_option id snd].
    rewrite !in_app_iff. right. right. destruct (Z.ltb_spec 0 h); [now left|lia]. }
  destruct (run_tasks_height s scheduled sid addr h Ho) as (m & Hm & Ha).
  { rewrite <- Hperm in Hin. apply in_map_iff in Hin as (x & Ex & Hx). intros Hnil.
    assert (In x (List.filter (fun x => is_height_task (snd x)) scheduled)) as Hc
      by (apply filter_In; split; [exact Hx|now rewrite Ex]). now rewrite Hnil in Hc. }
  { intros x Hx. apply Hall. rewrite <- Hperm. now apply in_map. }
  assert (GetEndpointBlockHeights s_f (GetServiceID (serviceQoSConfig follower)) = m) as Hget.
  { unfold GetEndpointBlockHeights, stored_heights in *. now rewrite Hst, Hsid, Hm. }
  destruct (sync_height follower now_f s_f addr h m Hget Ha) as (ep & Eep & Hep).
  split; [eauto|]. unfold acceptable. fold follower' in Eep. rewrite Eep. intros [_ _ Hk _ _].
  assert (sync_checked follower' /\ sync_floor follower' = sync_floor follower) as [Hs' Hf'].
  { unfold follower', syncEndpointBlocksFromRedis. destruct (bool_decide _); [now split|]. split; [exact Hsync|reflexivity]. }
  destruct (Hk Hs') as (k & Ek & Hle). rewrite Hep in Ek. injection Ek as <-. lia.
Qed.
End Fleet.

(** ** Archival status, reset and allowance *)

Section Updates.
Context `{RPCTypeEnum} `{EVMRPCTypes} `{SliceSort}.

Lemma observe_block_frame ss now addr h :
  serviceQoSConfig (observe_block ss now addr h) = serviceQoSConfig ss /\
  endpoints (observe_block ss now addr h) = endpoints ss /\
  archivalCache (observe_block ss now addr h) = archivalCache ss.
Proof.
  unfold observe_block. destruct (blockConsensus ss) as [c|]; [|auto].
  destruct (AddObservation c now addr h); cbn; auto.
Qed.

(** The parts of the state an update leaves or sets. *)
Lemma update_frame ss now hasSvc addr d :
  let ss' := fst (UpdateFromExtractedData ss now hasSvc addr (Some d)) in
  serviceQoSConfig ss' = serviceQoSConfig ss /\
  archivalCache ss' =
    (if ed_ArchivalCheckPerformed d && ed_IsArchival d
     then option_map (fun c => cache_Set c now (key_String (archival_key ss addr)) true ArchivalStatusTTL) (archivalCache ss)
     else archivalCache ss) /\
  exists ep, endpoints ss' !! addr = Some ep /\
    (ed_ArchivalCheckPerformed d = true ->
     checkArchival ep = mkCheckArchival (ed_IsArchival d) (time_add now ArchivalStatusTTL)).
Proof.
  unfold UpdateFromExtractedData. cbn [fst].
  set (ss1 := if ed_ArchivalCheckPerformed d && ed_IsArchival d then _ else ss).
  set (stored := if ed_ArchivalCheckPerformed d then _ else _).
  set (ss2 := set_endpoints ss1 (<[addr:=stored]> (endpoints ss1))).
  assert (serviceQoSConfig ss1 = serviceQoSConfig ss /\ archivalCache ss1 =
    if ed_ArchivalCheckPerformed d && ed_IsArchival d
    then option_map (fun c => cache_Set c now (key_String (archival_key ss addr)) true ArchivalStatusTTL) (archivalCache ss)
    else archivalCache ss) as [E1 E2].
  { unfold ss1. destruct (ed_ArchivalCheckPerformed d && ed_IsArchival d); [|auto].
    destruct (archivalCache ss) eqn:E; cbn; auto. }
  set (ss3 := if 0 <? default 0 (extracted_block d) then _ else ss2).
  assert (serviceQoSConfig ss3 = serviceQoSConfig ss2 /\ endpoints ss3 = endpoints ss2 /\ archivalCache ss3 = archivalCache ss2)
    as (F1 & F2 & F3) by (unfold ss3; case_if; [apply observe_block_frame|auto]).
  rewrite F1, F2, F3. split; [exact E1|]. split; [exact E2|].
  exists stored. cbn. split; [apply lookup_insert_eq|]. intros Hp. unfold stored. now rewrite Hp.
Qed.

(** A failed archival query does not stop archival routing.  After an
    endpoint is confirmed archival and then, within the status TTL, fails an
    archival query, its store entry is cleared but the archival cache is not:
    validation for an archival request accepts it exactly when validation for
    any other request does. *)
Theorem failed_archival_query_keeps_routing ss now1 now2 hasSvc addr d1 d2 c :
  archivalCache ss = Some c ->
  ed_ArchivalCheckPerformed d1 = true -> ed_IsArchival d1 = true ->
  ed_ArchivalCheckPerformed d2 = true -> ed_IsArchival d2 = false ->
  now2 <= now1 + ArchivalStatusTTL ->
  let ss1 := fst (UpdateFromExtractedData ss now1 hasSvc addr (Some d1)) in
  let ss2 := fst (UpdateFromExtractedData ss1 now2 hasSvc addr (Some d2)) in
  (exists ep, endpoints ss2 !! addr = Some ep /\ isArchival (checkArchival ep) = false) /\
  forall ep, basicEndpointValidation ss2 now2 addr ep true = basicEndpointValidation ss2 now2 addr ep false.
Proof.
  intros Hc P1 A1 P2 A2 Ht ss1 ss2.
  destruct (update_frame ss now1 hasSvc addr d1) as (F1 & C1 & _). fold ss1 in F1, C1.
  destruct (update_frame ss1 now2 hasSvc addr d2) as (F2 & C2 & ep & Eep & Har). fold ss2 in F2, C2, Eep.
  clearbody ss2. clearbody ss1. rewrite P1, A1, Hc in C1. rewrite P2, A2 in C2. cbn [andb option_map] in C1, C2. split.
  - exists ep. split; [exact Eep|]. now rewrite (Har P2), A2.
  - assert (cached_archival ss2 now2 addr = true) as Hcached.
    { unfold cached_archival, archival_key. rewrite C2, C1, F2, F1. unfold cache_Get, cache_Set, archival_key.
      rewrite lookup_insert_eq. cbn. unfold time_after, time_add.
      destruct (Z.ltb_spec (now1 + ArchivalStatusTTL) now2); [lia|reflexivity]. }
    intros ep'. unfold basicEndpointValidation. rewrite Hcached.
    destruct (response_history now2 ep'), (isBlockNumberValid ss2 (checkBlockNumber ep')),
      (isChainIDValid ss2 (checkChainID ep')), (check_isArchivalCapable (checkArchival ep') now2); reflexivity.
Qed.

(** The perceived height an update leaves. *)
Lemma update_perceived ss now hasSvc addr d :
  perceivedBlockNumber (fst (UpdateFromExtractedData ss now hasSvc addr (Some d))) =
  match blockConsensus ss with
  | Some c => if 0 <? default 0 (extracted_block d)
              then fst (AddObservation c now addr (default 0 (extracted_block d))) else perceivedBlockNumber ss
  | None => perceivedBlockNumber ss
  end.
Proof.
  unfold UpdateFromExtractedData. cbn [fst].
  set (ss1 := if ed_ArchivalCheckPerformed d && ed_IsArchival d then _ else ss).
  assert (blockConsensus ss1 = blockConsensus ss /\ perceivedBlockNumber ss1 = perceivedBlockNumber ss) as [E1 E2].
  { unfold ss1. destruct (ed_ArchivalCheckPerformed d && ed_IsArchival d); [|auto]. destruct (archivalCache ss); auto. }
  unfold observe_block. cbn [blockConsensus set_endpoints]. rewrite E1.
  destruct (blockConsensus ss) as [c|]; [|case_if; exact E2].
  destruct (AddObservation _ _ _ _); cbn. case_if; [reflexivity|exact E2].
Qed.

(** The reset does not make the consensus rebuild from fresh observations: with
    no external height, the next report yields the perceived height it would
    have yielded without the reset, the old window included. *)
Theorem reset_keeps_old_observations {St} `{!Storage St} ss (svc : option (service St)) c now hasSvc addr d :
  blockConsensus ss = Some c -> externalBlockHeight c = 0 -> 0 < ed_BlockHeight d ->
  let reset := snd (fst (ResetPerceivedBlockHeight ss svc)) in
  perceivedBlockNumber reset = 0 /\
  perceivedBlockNumber (fst (UpdateFromExtractedData reset now hasSvc addr (Some d))) =
  perceivedBlockNumber (fst (UpdateFromExtractedData ss now hasSvc addr (Some d))).
Proof.
  intros Hc Hext Hd reset.
  assert (reset = set_blockConsensus (set_perceived ss 0) (Some c)) as E.
  { unfold reset, ResetPerceivedBlockHeight. cbn. rewrite Hc. cbn.
    replace (SetExternalBlockHeight c 0) with c by (destruct c; cbn in *; now subst).
    destruct svc as [s|]; [destruct (DeletePerceivedBlockNumber _ _)|]; reflexivity. }
  split; [now rewrite E|]. rewrite !update_perceived, E. cbn [blockConsensus set_blockConsensus]. rewrite Hc.
  unfold extracted_block. destruct (Z.ltb_spec 0 (ed_BlockHeight d)); [|lia]. cbn.
  destruct (Z.ltb_spec 0 (ed_BlockHeight d)); [reflexivity|lia].
Qed.

(** An allowance set after construction never reaches the consensus. *)
Theorem dynamic_allowance_not_in_consensus ss allowance now hasSvc addr d :
  perceivedBlockNumber (fst (UpdateFromExtractedData (SetSyncAllowance ss allowance) now hasSvc addr (Some d))) =
  perceivedBlockNumber (fst (UpdateFromExtractedData ss now hasSvc addr (Some d))).
Proof. rewrite !update_perceived. unfold SetSyncAllowance. now destruct (serviceQoSConfig ss). Qed.

(** ** The archival cache refresh *)

Section Refresh.
Context {St : Type} `{!Storage St}.

(** The first pass reads the reputation service and never writes the cache. *)
Lemma refresh_pass1_cache ss now (s : service St) addrs c : fst (refresh_pass1 ss now s addrs c) = c.
Proof.
  unfold refresh_pass1. revert s. induction addrs as [|a addrs IH]; intros s; [reflexivity|]. cbn.
  destruct (svc_IsArchivalCapable s now (archival_key ss a)). apply IH.
Qed.

Lemma refresh_pass2_keeps now keys c k :
  cache_Get c now k = Some true -> refresh_pass2 now keys c !! k = c !! k.
Proof.
  unfold refresh_pass2. revert c. induction keys as [|key keys IH]; intros c Hk; [reflexivity|]. cbn.
  destruct (cache_Get c now (key_String key)) as [[]|] eqn:E; [now apply IH| |];
    (assert (key_String key <> k) as Hne by congruence;
     rewrite IH by (unfold cache_Get, cache_Set in *; now rewrite lookup_insert_ne);
     unfold cache_Set; now rewrite lookup_insert_ne).
Qed.

(** A refresh does not extend the life of a current archival entry, whatever
    the reputation service says: the entry still expires one TTL after it was
    first set. *)
Theorem refresh_does_not_renew ss now (s : service St) c k :
  archivalCache ss = Some c -> cache_Get c now k = Some true ->
  exists c', archivalCache (fst (refreshArchivalCacheFromRedis ss now s)) = Some c' /\ c' !! k = c !! k.
Proof.
  intros Hc Hk. unfold refreshArchivalCacheFromRedis. rewrite Hc.
  pose proof (refresh_pass1_cache ss now s (map fst (map_to_list (endpoints ss))) c) as H1'.
  destruct (refresh_pass1 _ _ _ _ _) as [c1 s1]. cbn in H1'. subst c1. cbn.
  eexists. split; [reflexivity|]. now apply refresh_pass2_keeps.
Qed.
End Refresh.
End Updates.

(** ** Witnesses and concrete runs *)

#[export] Instance demo_evm_types : EVMRPCTypes := { RPCType_JSON_RPC := 3; RPCType_WEBSOCKET := 2 }.

Definition heights_nonneg (ss : serviceState) : bool :=
  forallb (fun x => match parsedBlockNumberResponse (checkBlockNumber (snd x)) with Some h => 0 <=? h | None => true end)
    (map_to_list (endpoints ss)) &&
  match redisURLBlockHeights ss with Some m => forallb (fun x => 0 <=? snd x) (map_to_list m) | None => true end.

Lemma heights_nonneg_wf ss : heights_nonneg ss = true -> heights_wf ss.
Proof.
  unfold heights_nonneg, heights_wf. rewrite andb_true_iff. intros [He Hr] url h [(a & ep & Ha & _ & Hh)|(m & Hm & Hh)].
  - rewrite forallb_forall in He. apply elem_of_map_to_list, list_elem_of_In, He in Ha. cbn in Ha. rewrite Hh in Ha.
    now apply Z.leb_le.
  - rewrite Hm, forallb_forall in Hr. apply elem_of_map_to_list, list_elem_of_In, Hr in Hh. now apply Z.leb_le.
Qed.

Definition height_data (h : Z) : ExtractedData := mkExtractedData h false false false.
Definition archival_data (b : bool) : ExtractedData := mkExtractedData 0 false b true.

Definition reports (ss : serviceState) (l : list (Time * EndpointAddr * Z)) : serviceState :=
  fold_left (fun ss '(t, a, h) => fst (UpdateFromExtractedData ss (t * second) true a (Some (height_data h)))) l ss.

Definition demo_stale : EndpointAddr := "pokt1d-https://x.small.io".

(** Two endpoints in sync, one 100 blocks behind. *)
Definition demo_evm : serviceState :=
  reports (NewSimpleQoSInstanceWithSyncAllowance 0 "eth" 10)
    [(1, "pokt1a-https://n1.big.com", 1000); (2, "pokt1c-https://n2.big.com", 1001); (3, demo_stale, 900)].

Lemma demo_evm_wf : state_wf demo_evm.
Proof. split; vm_compute; split; discriminate. Qed.

Lemma evm_filter_exact_witness :
  perceivedBlockNumber demo_evm = 1001 /\
  exists valid results,
    filterValidEndpointsWithDetails demo_evm (5 * second) demo_pool false =
      (Ok (valid, results), touch demo_evm (5 * second) demo_pool) /\
    (forall a, In a valid <-> In a demo_pool /\ acceptable demo_evm (5 * second) false a) /\
    map vr_EndpointAddr results = demo_pool /\
    valid = map vr_EndpointAddr (List.filter (fun r => is_none (vr_FailureReason r)) results).
Proof.
  split; [vm_compute; reflexivity|].
  apply (evm_filter_exact demo_evm (5 * second) demo_pool false demo_evm_wf). discriminate.
Defined.

Lemma evm_selection_total_witness :
  always (SelectMultipleWithArchival (R := Z) initial_settings demo_evm (5 * second) demo_pool 2 false)
    (fun x => selection_ok demo_evm (5 * second) demo_pool 2 false (fst x)) /\
  option_map (fun x => fst (fst x))
    (SelectMultipleWithArchival (R := Z) initial_settings demo_evm (5 * second) demo_pool 2 false 0) =
  Some (Ok ["pokt1a-https://n1.big.com"; "pokt1b-https://n1.big.com"]).
Proof.
  split; [|vm_compute; reflexivity].
  apply (evm_selection_total initial_settings demo_evm (5 * second) demo_pool 2 false demo_evm_wf).
  - apply heights_nonneg_wf. vm_compute. reflexivity.
  - unfold max_int64. lia.
Defined.

(** The leader sees the lagging endpoint at 905; the follower has never. *)
Definition demo_follower : serviceState :=
  reports (NewSimpleQoSInstanceWithSyncAllowance 0 "eth" 10)
    [(1, "pokt1a-https://n1.big.com", 1000); (2, "pokt1c-https://n2.big.com", 1001); (3, "pokt1b-https://n1.big.com", 1001)].
Definition demo_tasks : list rep_task :=
  snd (UpdateFromExtractedData demo_evm (10 * second) true demo_stale (Some (height_data 905))).
Definition demo_scheduled : list (Time * rep_task) := map (fun t => (11 * second, t)) (rev demo_tasks).
Definition demo_svc : service MemoryStorage := NewService DefaultConfig (NewMemoryStorage (5 * minute)).

Lemma lagging_endpoint_rejected_fleetwide_witness :
  let follower' := syncEndpointBlocksFromRedis demo_follower (15 * second) (run_tasks demo_svc demo_scheduled) in
  (exists ep, endpoints follower' !! demo_stale = Some ep /\
     parsedBlockNumberResponse (checkBlockNumber ep) = Some 905) /\
  ~ acceptable follower' (16 * second) false demo_stale.
Proof.
  apply (lagging_endpoint_rejected_fleetwide (fun m => ms_closed m = false) demo_evm demo_svc (10 * second)
    demo_stale (height_data 905) demo_scheduled demo_follower (run_tasks demo_svc demo_scheduled) (15 * second) (16 * second) false).
  - reflexivity.
  - reflexivity.
  - vm_compute. apply perm_swap.
  - vm_compute. reflexivity.
  - vm_compute. reflexivity.
  - split; vm_compute; split; discriminate.
  - split; vm_compute; discriminate.
  - vm_compute. reflexivity.
Defined.

Lemma failed_archival_query_keeps_routing_witness :
  let a := "pokt1a-https://n1.big.com" in
  let ss1 := fst (UpdateFromExtractedData demo_evm (5 * second) false a (Some (archival_data true))) in
  let ss2 := fst (UpdateFromExtractedData ss1 (6 * second) false a (Some (archival_data false))) in
  (exists ep, endpoints ss2 !! a = Some ep /\ isArchival (checkArchival ep) = false) /\
  forall ep, basicEndpointValidation ss2 (6 * second) a ep true = basicEndpointValidation ss2 (6 * second) a ep false.
Proof.
  apply (failed_archival_query_keeps_routing demo_evm (5 * second) (6 * second) false "pokt1a-https://n1.big.com"
    (archival_data true) (archival_data false) ∅); try reflexivity.
  vm_compute. discriminate.
Defined.

(** The endpoint is archival in the reputation service too, yet its cache entry
    keeps the expiry of the first confirmation. *)
Lemma refresh_does_not_renew_witness :
  let a := "pokt1a-https://n1.big.com" in
  let ss := fst (UpdateFromExtractedData demo_evm (5 * second) true a (Some (archival_data true))) in
  let svc := snd (SetArchivalStatus demo_svc (20 * minute) (archival_key ss a) true ArchivalStatusTTL) in
  let k := key_String (archival_key ss a) in
  let c : ArchivalCache := <[k := mkArchivalCacheEntry true (5 * second + ArchivalStatusTTL)]> ∅ in
  exists c', archivalCache (fst (refreshArchivalCacheFromRedis ss (21 * minute) svc)) = Some c' /\ c' !! k = c !! k.
Proof.
  cbv zeta. apply refresh_does_not_renew.
  - vm_compute. reflexivity.
  - vm_compute. reflexivity.
Defined.

(** The single selection falls back to an endpoint that is not archival for an
    archival request, where the multiple selection fails. *)
Example metadata_fallback_ignores_archival :
  let ss := fst (UpdateFromExtractedData demo_evm (5 * second) false "pokt1z-https://other.io" (Some (archival_data true))) in
  let pool := ["pokt1a-https://n1.big.com"] in
  option_map (fun x => match fst (fst x) with
      | Ok r => Some (SelectedEndpoint r, RandomEndpointFallback r) | Err _ => None end)
    (SelectWithMetadata (R := Z) initial_settings ss (6 * second) pool true 0) =
  Some (Some ("pokt1a-https://n1.big.com", true)) /\
  archival_known ss (6 * second) "pokt1a-https://n1.big.com" = false /\
  option_map (fun x => fst (fst x))
    (SelectMultipleWithArchival (R := Z) initial_settings ss (6 * second) pool 1 true 0) = Some (Err NoArchivalEndpoints).
Proof. repeat split; vm_compute; reflexivity. Qed.

(** Asked for zero endpoints, the multiple selection returns none, not one. *)
Example zero_endpoints_selects_none :
  option_map (fun x => fst (fst x))
    (SelectMultiple (R := Z) initial_settings demo_evm (5 * second) demo_pool 0 0) = Some (Ok []).
Proof. vm_compute. reflexivity. Qed.

(** An endpoint behind the sync allowance is reported as disqualified and
    counted nowhere. *)
Example behind_endpoint_not_counted :
  let ss := reports (NewSimpleQoSInstanceWithSyncAllowance 0 "eth" 10)
    [(1, "pokt1a-https://n1.big.com", 1000); (2, "pokt1b-https://n1.big.com", 1000); (3, demo_stale, 900)] in
  let r := getDisqualifiedEndpointsResponse ss (5 * second) in
  DisqualifiedEndpoints r !! demo_stale = Some (BlockBehind 900 1000 10 100) /\
  BlockNumberCheckErrorsCount r = 0 /\ EmptyResponseCount r = 0 /\ ChainIDCheckErrorsCount r = 0.
Proof. repeat split; vm_compute; reflexivity. Qed.

(** The same reports, with the allowance given at construction and set later. *)
Example allowance_set_later :
  let l := [(1, "pokt1a-https://n1.big.com", 100); (2, "pokt1b-https://n1.big.com", 100); (3, demo_stale, 105)] in
  perceivedBlockNumber (reports (NewSimpleQoSInstanceWithSyncAllowance 0 "eth" 10) l) = 105 /\
  perceivedBlockNumber (reports (SetSyncAllowance (NewSimpleQoSInstance 0 "eth") 10) l) = 100.
Proof. split; vm_compute; reflexivity. Qed.
