(* ===== verification/CardGuard.v ===== *)
(** * The metrics cardinality guard: metrics/cardinality_guard.go

    A guard admits label tuples into a Prometheus metric up to a limit and evicts
    the tuples that went unobserved for a whole window.  [cardinalityGuard] is
    the Go struct; [deleteSeries] is modelled by the list of label tuples a call
    asks the collector to delete.  The drop and eviction counters are metrics and
    are left out, as is the one-time warning (its flag is kept).

    [gstep] is the interleaving the code allows: the fast path loads an entry
    without the lock, and stamps it and records the metric later. *)

From S2P Require Import Prelude GoStrings.
From Stdlib Require Import ZArith Lia Bool Ascii String.
From stdpp Require Import base list gmap strings fin_maps.

Open Scope string_scope.
Open Scope Z_scope.

Definition DefaultSeriesLimit : Z := 25000.
Definition defaultGuardIdleWindow : Duration := 15 * minute.

(** The effective limit, and the raw value when it was set and rejected. *)
Definition seriesLimitFromEnv (env : string) : Z * option string :=
  let raw := trim_space env in
  if (raw =? "")%string then (DefaultSeriesLimit, None)
  else match parse_int raw with
       | Some n => if n <=? 0 then (DefaultSeriesLimit, Some raw) else (n, None)
       | None => (DefaultSeriesLimit, Some raw)
       end.

(** ** The hash *)

Definition fnvOffset64 : Z := 14695981039346656037.
Definition fnvPrime64 : Z := 1099511628211.

Definition byte_of (c : ascii) : Z := Z.of_N (N_of_ascii c).

(** One byte of the inner loop. *)
Definition hash_byte (h : Z) (c : ascii) : Z := wrapu64 (Z.lxor h (byte_of c) * fnvPrime64).

Fixpoint hash_string (h : Z) (v : string) : Z :=
  match v with
  | EmptyString => h
  | String c v' => hash_string (hash_byte h c) v'
  end.

Definition hashLabelValues (labelValues : list string) : Z :=
  fold_left (fun h v => wrapu64 (hash_string h v * fnvPrime64)) labelValues fnvOffset64.

(** ** State *)

Record guardEntry := mkGuardEntry {
  lastGen : Z;
  labels : list string;
}.

Record cardinalityGuard := mkCardinalityGuard {
  limit : Z;
  evictAfter : Duration;
  hasDeleter : bool;                (** deleteSeries is not nil *)
  seen : gmap Z guardEntry;
  count : Z;
  gen : Z;                          (** uint32 *)
  warned : bool;
  nextSweep : Time;
}.

Definition newCardinalityGuard (lim : Z) : cardinalityGuard :=
  mkCardinalityGuard lim 0 false ∅ 0 0 false time_zero.

Definition withEviction (g : cardinalityGuard) (window : Duration) : cardinalityGuard :=
  mkCardinalityGuard (limit g) window true (seen g) (count g) (gen g) (warned g) (nextSweep g).

Definition set_nextSweep (g : cardinalityGuard) (t : Time) : cardinalityGuard :=
  mkCardinalityGuard (limit g) (evictAfter g) (hasDeleter g) (seen g) (count g) (gen g) (warned g) t.
Definition set_seen (g : cardinalityGuard) (m : gmap Z guardEntry) (n : Z) : cardinalityGuard :=
  mkCardinalityGuard (limit g) (evictAfter g) (hasDeleter g) m n (gen g) (warned g) (nextSweep g).
Definition set_gen (g : cardinalityGuard) (n : Z) : cardinalityGuard :=
  mkCardinalityGuard (limit g) (evictAfter g) (hasDeleter g) (seen g) (count g) n (warned g) (nextSweep g).
Definition set_warned (g : cardinalityGuard) : cardinalityGuard :=
  mkCardinalityGuard (limit g) (evictAfter g) (hasDeleter g) (seen g) (count g) (gen g) true (nextSweep g).

Definition wrapu32 (z : Z) : Z := z mod 2 ^ 32.

(** ** Operations *)

Definition is_live (cur : Z) (e : guardEntry) : bool := lastGen e =? cur.

(** The part of sweepLocked after the rate limit: evict, then a new generation. *)
Definition evict (g : cardinalityGuard) (now : Time) : cardinalityGuard * list (list string) :=
  let cur := gen g in
  let idle := filter (fun '(_, e) => is_live cur e = false) (seen g) in
  let kept := filter (fun '(_, e) => is_live cur e = true) (seen g) in
  let g := set_nextSweep g (time_add now (evictAfter g)) in
  let g := set_seen g kept (count g - Z.of_nat (size idle)) in
  (set_gen g (wrapu32 (cur + 1)), map (fun x => labels (snd x)) (map_to_list idle)).

Definition sweepLocked (g : cardinalityGuard) (now : Time) (force : bool) : cardinalityGuard * list (list string) :=
  if (evictAfter g <=? 0) || negb (hasDeleter g) then (g, [])
  else if negb force && time_is_zero (nextSweep g) then (set_nextSweep g (time_add now (evictAfter g)), [])
  else if negb force && time_before now (nextSweep g) then (g, [])
  else evict g now.

(** [sweep] on a guard that may be nil. *)
Definition sweep (g : option cardinalityGuard) (now : Time) (force : bool)
  : option cardinalityGuard * list (list string) :=
  match g with
  | None => (None, [])
  | Some g => let '(g, del) := sweepLocked g now force in (Some g, del)
  end.

Definition touch_entry (cur : Z) (e : guardEntry) : guardEntry :=
  if negb (lastGen e =? cur) then mkGuardEntry cur (labels e) else e.

Definition touch (g : cardinalityGuard) (h : Z) (e : guardEntry) : cardinalityGuard :=
  set_seen g (<[h := touch_entry (gen g) e]> (seen g)) (count g).

(** The slow path after the second lookup failed, under the lock. *)
Definition admit_tuple (g : cardinalityGuard) (now : Time) (h : Z) (labelValues : list string)
  : bool * cardinalityGuard * list (list string) :=
  let '(g, del) := sweepLocked g now false in
  if limit g <=? count g then (false, set_warned g, del)
  else (true, set_seen g (<[h := mkGuardEntry (gen g) labelValues]> (seen g)) (count g + 1), del).

Definition allow_guard (g : cardinalityGuard) (now : Time) (labelValues : list string)
  : bool * cardinalityGuard * list (list string) :=
  let h := hashLabelValues labelValues in
  match seen g !! h with
  | Some e => (true, touch g h e, [])
  | None => admit_tuple g now h labelValues
  end.

Definition allow (g : option cardinalityGuard) (now : Time) (labelValues : list string)
  : bool * option cardinalityGuard * list (list string) :=
  match g with
  | None => (true, None, [])
  | Some g => let '(ok, g, del) := allow_guard g now labelValues in (ok, Some g, del)
  end.

(** ** The guarded metric *)

(** A guard with the series of its collector. *)
Record metric := mkMetric {
  m_guard : cardinalityGuard;
  m_series : gset (list string);
}.

Definition delete_series (s : gset (list string)) (del : list (list string)) : gset (list string) :=
  s ∖ list_to_set del.

(** The pattern of every recording helper: ask the guard, then increment. *)
Definition record (m : metric) (now : Time) (l : list string) : metric :=
  let '(ok, g, del) := allow_guard (m_guard m) now l in
  let s := delete_series (m_series m) del in
  mkMetric g (if ok then {[l]} ∪ s else s).

Definition janitor (m : metric) (now : Time) : metric :=
  let '(g, del) := sweepLocked (m_guard m) now false in
  mkMetric g (delete_series (m_series m) del).

(** ** Invariants *)

Record guard_ok (g : cardinalityGuard) : Prop := {
  go_count : count g = Z.of_nat (size (seen g));
  go_limit : count g <= Z.max 0 (limit g);
}.

Lemma filter_split_size (m : gmap Z guardEntry) (f : guardEntry -> bool) :
  size m = (size (filter (fun '(_, e) => f e = true) m) + size (filter (fun '(_, e) => f e = false) m))%nat.
Proof.
  induction m as [|h e m Hh IH] using map_ind.
  - now rewrite !map_filter_empty, map_size_empty.
  - rewrite map_size_insert_None by exact Hh. destruct (f e) eqn:E.
    + rewrite (map_filter_insert_True _ m) by exact E. rewrite (map_filter_insert_False _ m) by congruence.
      rewrite map_size_insert_None by (rewrite map_lookup_filter_None; now left).
      rewrite (delete_id m) by exact Hh. lia.
    + rewrite (map_filter_insert_False _ m) by congruence. rewrite (map_filter_insert_True _ m) by exact E.
      rewrite map_size_insert_None by (rewrite map_lookup_filter_None; now left).
      rewrite (delete_id m) by exact Hh. lia.
Qed.

Lemma evict_ok g now : guard_ok g -> guard_ok (fst (evict g now)).
Proof.
  intros [Hc Hl]. pose proof (filter_split_size (seen g) (is_live (gen g))) as Hs.
  split; cbn; lia.
Qed.

Lemma sweepLocked_cases g now force :
  sweepLocked g now force = (g, []) \/
  sweepLocked g now force = (set_nextSweep g (time_add now (evictAfter g)), []) \/
  sweepLocked g now force = evict g now.
Proof. unfold sweepLocked. case_ifs; auto. Qed.

Lemma sweepLocked_ok g now force : guard_ok g -> guard_ok (fst (sweepLocked g now force)).
Proof.
  intros Hg. destruct (sweepLocked_cases g now force) as [->|[->| ->]]; [exact Hg|destruct Hg; now split|now apply evict_ok].
Qed.

Lemma touch_ok g h e : seen g !! h = Some e -> guard_ok g -> guard_ok (touch g h e).
Proof. intros He [Hc Hl]. split; cbn; [|exact Hl]. rewrite Hc, map_size_insert_Some; eauto. Qed.

Lemma sweepLocked_limit g now force : limit (fst (sweepLocked g now force)) = limit g.
Proof. destruct (sweepLocked_cases g now force) as [->|[->| ->]]; reflexivity. Qed.

Lemma sweepLocked_seen g now force h e :
  seen (fst (sweepLocked g now force)) !! h = Some e -> seen g !! h = Some e.
Proof.
  destruct (sweepLocked_cases g now force) as [->|[->| ->]]; cbn; [auto|auto|].
  rewrite map_lookup_filter_Some. tauto.
Qed.

Lemma admit_ok g now h l : seen g !! h = None -> guard_ok g -> guard_ok (snd (fst (admit_tuple g now h l))).
Proof.
  intros Hh Hg. unfold admit_tuple. pose proof (sweepLocked_ok g now false Hg) as Hs.
  pose proof (sweepLocked_seen g now false h) as Hsn. destruct (sweepLocked g now false) as [g' del].
  cbn in Hs, Hsn. destruct Hs as [Hc Hl]. destruct (Z.leb_spec (limit g') (count g')); cbn; [now split|].
  assert (seen g' !! h = None) as Hn.
  { destruct (seen g' !! h) as [e|] eqn:E; [|reflexivity]. specialize (Hsn e eq_refl). congruence. }
  split; cbn; [|lia]. rewrite map_size_insert_None by exact Hn. lia.
Qed.

Lemma allow_guard_ok g now l : guard_ok g -> guard_ok (snd (fst (allow_guard g now l))).
Proof.
  intros Hg. unfold allow_guard. destruct (seen g !! hashLabelValues l) as [e|] eqn:E; cbn; [now apply touch_ok|now apply admit_ok].
Qed.

(** ** The hash is FNV-1a of the NUL-terminated values *)

(** The digest of hash/fnv's New64a after writing [bytes]. *)
Definition fnv1a (bytes : list ascii) : Z := fold_left hash_byte bytes fnvOffset64.

(** Each value with a trailing 0 byte. *)
Definition label_bytes (l : list string) : list ascii :=
  concat (map (fun v => list_ascii_of_string v ++ ["000"%char])%list l).

Lemma hash_string_fold v : forall h, hash_string h v = fold_left hash_byte (list_ascii_of_string v) h.
Proof. induction v as [|c v IH]; intros h; cbn; auto. Qed.

Lemma hash_labels_fold l : forall h,
  fold_left (fun h v => wrapu64 (hash_string h v * fnvPrime64)) l h = fold_left hash_byte (label_bytes l) h.
Proof.
  induction l as [|v l IH]; intros h; [reflexivity|]. unfold label_bytes in *. cbn.
  rewrite IH, !fold_left_app. cbn. unfold hash_byte at 3. cbn. now rewrite Z.lxor_0_r, hash_string_fold.
Qed.

Lemma hash_fnv1a l : hashLabelValues l = fnv1a (label_bytes l).
Proof. apply hash_labels_fold. Qed.

(** ** Interleavings *)

(** The metric with the observations that were admitted (their fast path loaded
    an entry, or their slow path stored one) and have not incremented yet. *)
Record gstate := mkGstate {
  gs_metric : metric;
  gs_inflight : list (list string);
}.

(** A stamp of a fast path may land late: it writes the generation it has read. *)
Definition stamp (g : cardinalityGuard) (h : Z) (e : guardEntry) (n : Z) : cardinalityGuard :=
  set_seen g (<[h := mkGuardEntry n (labels e)]> (seen g)) (count g).

Inductive gstep : gstate -> gstate -> Prop :=
| gs_load m fl l e :
    seen (m_guard m) !! hashLabelValues l = Some e ->
    gstep (mkGstate m fl) (mkGstate m (l :: fl))
| gs_stamp m fl h e n :
    seen (m_guard m) !! h = Some e ->
    gstep (mkGstate m fl) (mkGstate (mkMetric (stamp (m_guard m) h e n) (m_series m)) fl)
| gs_slow m fl l now g del :
    seen (m_guard m) !! hashLabelValues l = None ->
    admit_tuple (m_guard m) now (hashLabelValues l) l = (true, g, del) ->
    gstep (mkGstate m fl) (mkGstate (mkMetric g (delete_series (m_series m) del)) (l :: fl))
| gs_drop m fl l now g del :
    seen (m_guard m) !! hashLabelValues l = None ->
    admit_tuple (m_guard m) now (hashLabelValues l) l = (false, g, del) ->
    gstep (mkGstate m fl) (mkGstate (mkMetric g (delete_series (m_series m) del)) fl)
| gs_increment m fl1 l fl2 :
    gstep (mkGstate m (fl1 ++ l :: fl2)) (mkGstate (mkMetric (m_guard m) ({[l]} ∪ m_series m)) (fl1 ++ fl2))
| gs_sweep m fl now force g del :
    sweepLocked (m_guard m) now force = (g, del) ->
    gstep (mkGstate m fl) (mkGstate (mkMetric g (delete_series (m_series m) del)) fl).

Inductive greach (lim : Z) (window : Duration) : gstate -> Prop :=
| gr_start : greach lim window (mkGstate (mkMetric (withEviction (newCardinalityGuard lim) window) ∅) [])
| gr_step s s' : greach lim window s -> gstep s s' -> greach lim window s'.

Lemma stamp_ok g h e n : seen g !! h = Some e -> guard_ok g -> guard_ok (stamp g h e n).
Proof. intros He [Hc Hl]. split; cbn; [|exact Hl]. rewrite Hc, map_size_insert_Some; eauto. Qed.

Lemma gstep_ok s s' : gstep s s' -> guard_ok (m_guard (gs_metric s)) -> guard_ok (m_guard (gs_metric s')).
Proof.
  destruct 1 as [m fl l e He|m fl h e n He|m fl l now g del Hn Ha|m fl l now g del Hn Ha|m fl1 l fl2|m fl now force g del Hs]; cbn; intros Hg.
  - exact Hg.
  - now apply stamp_ok.
  - pose proof (admit_ok _ now _ l Hn Hg) as Ho. now rewrite Ha in Ho.
  - pose proof (admit_ok _ now _ l Hn Hg) as Ho. now rewrite Ha in Ho.
  - exact Hg.
  - pose proof (sweepLocked_ok _ now force Hg) as Ho. now rewrite Hs in Ho.
Qed.

Lemma gstep_limit s s' : gstep s s' -> limit (m_guard (gs_metric s')) = limit (m_guard (gs_metric s)).
Proof.
  assert (forall g now h l ok g' del, admit_tuple g now h l = (ok, g', del) -> limit g' = limit g) as Ha.
  { intros g now h l ok g' del. unfold admit_tuple. pose proof (sweepLocked_limit g now false) as Hl.
    destruct (sweepLocked g now false) as [g1 d1]. cbn in Hl.
    destruct (limit g1 <=? count g1); intros [= <- <- <-]; exact Hl. }
  destruct 1; cbn; eauto.
  pose proof (sweepLocked_limit (m_guard m) now force) as Hl. now rewrite H in Hl.
Qed.

Lemma greach_ok lim window s :
  greach lim window s -> guard_ok (m_guard (gs_metric s)) /\ limit (m_guard (gs_metric s)) = lim.
Proof.
  induction 1 as [|s s' _ [IHo IHl] Hs]; [repeat split; cbn; lia|].
  split; [now apply (gstep_ok s s')|]. now rewrite (gstep_limit s s').
Qed.

(** ** Without interleaving the series are bounded *)

(** Every series of the collector has its slot. *)
Definition series_slotted (m : metric) : Prop :=
  forall l, l ∈ m_series m -> exists e, seen (m_guard m) !! hashLabelValues l = Some e /\ labels e = l.

(** An entry is stored under the hash of its labels. *)
Definition entries_hashed (m : metric) : Prop :=
  forall h e, seen (m_guard m) !! h = Some e -> h = hashLabelValues (labels e).

Record metric_ok (m : metric) : Prop := {
  mo_guard : guard_ok (m_guard m);
  mo_series : series_slotted m;
  mo_entries : entries_hashed m;
}.

Lemma sweep_metric_ok m now force :
  metric_ok m ->
  metric_ok (mkMetric (fst (sweepLocked (m_guard m) now force))
    (delete_series (m_series m) (snd (sweepLocked (m_guard m) now force)))).
Proof.
  intros [Hg Hs He]. split; cbn.
  - now apply sweepLocked_ok.
  - unfold series_slotted, delete_series. cbn.
    destruct (sweepLocked_cases (m_guard m) now force) as [->|[->| ->]]; cbn.
    1,2: intros l Hl; apply elem_of_difference in Hl as [Hl _]; now apply Hs.
    intros l Hl. apply elem_of_difference in Hl as [Hl Hnd]. destruct (Hs l Hl) as (e & Ee & El).
    exists e. split; [|exact El]. apply map_lookup_filter_Some. split; [exact Ee|].
    destruct (is_live (gen (m_guard m)) e) eqn:Elive; [reflexivity|]. exfalso. apply Hnd.
    apply elem_of_list_to_set, list_elem_of_In, in_map_iff. exists (hashLabelValues l, e). split; [exact El|].
    apply list_elem_of_In, elem_of_map_to_list, map_lookup_filter_Some. now split.
  - intros h e Hh. apply He. eapply sweepLocked_seen. exact Hh.
Qed.

Lemma sweepLocked_none g now force h : seen g !! h = None -> seen (fst (sweepLocked g now force)) !! h = None.
Proof.
  intros Hn. destruct (seen (fst (sweepLocked g now force)) !! h) as [e|] eqn:E; [|reflexivity].
  apply sweepLocked_seen in E. congruence.
Qed.

(** No two of the tuples in play share a hash. *)
Definition collision_free (ls : list (list string)) : Prop :=
  forall l1 l2, In l1 ls -> In l2 ls -> hashLabelValues l1 = hashLabelValues l2 -> l1 = l2.

Lemma record_ok m now l :
  metric_ok m ->
  (forall e, seen (m_guard m) !! hashLabelValues l = Some e -> labels e = l) ->
  metric_ok (record m now l).
Proof.
  intros Hm Hl. unfold record, allow_guard. destruct (seen (m_guard m) !! hashLabelValues l) as [e|] eqn:Ee.
  - destruct Hm as [Hg Hs He]. specialize (Hl e eq_refl).
    assert (labels (touch_entry (gen (m_guard m)) e) = l) as Ht by (unfold touch_entry; now case_if).
    split; cbn.
    + now apply touch_ok.
    + unfold series_slotted, delete_series. cbn. intros x Hx. destruct (decide (hashLabelValues x = hashLabelValues l)) as [E|E].
      * cbn. rewrite E, lookup_insert_eq. eexists. split; [reflexivity|]. rewrite Ht.
        apply elem_of_union in Hx as [Hx%elem_of_singleton|Hx]; [now subst|].
        apply elem_of_difference in Hx as [Hx _]. destruct (Hs x Hx) as (e' & Ee' & <-).
        rewrite E, Ee in Ee'. now injection Ee' as ->.
      * cbn. rewrite lookup_insert_ne by congruence.
        apply elem_of_union in Hx as [Hx%elem_of_singleton|Hx]; [now subst|].
        apply elem_of_difference in Hx as [Hx _]. now apply Hs.
    + intros h e' Hh. cbn in Hh. destruct (decide (hashLabelValues l = h)) as [<-|Hne].
      * rewrite lookup_insert_eq in Hh. injection Hh as <-. now rewrite Ht.
      * rewrite lookup_insert_ne in Hh by exact Hne. now apply He.
  - pose proof (admit_ok (m_guard m) now _ l Ee (mo_guard _ Hm)) as Hok. unfold admit_tuple in *.
    pose proof (sweep_metric_ok m now false Hm) as [Hg Hs He].
    pose proof (sweepLocked_none (m_guard m) now false _ Ee) as Hn.
    destruct (sweepLocked (m_guard m) now false) as [g' del]. cbn in Hg, Hs, He, Hn.
    destruct (limit g' <=? count g'); cbn in Hok |- *; (split; [exact Hok| |]).
    + exact Hs.
    + exact He.
    + intros x Hx. cbn in *. destruct (decide (hashLabelValues l = hashLabelValues x)) as [E|E].
      * exists (mkGuardEntry (gen g') l). rewrite E, lookup_insert_eq. split; [reflexivity|].
        apply elem_of_union in Hx as [Hx%elem_of_singleton|Hx]; [now subst|].
        destruct (Hs x Hx) as (e & Ee' & _). cbn in Ee'. congruence.
      * rewrite lookup_insert_ne by exact E.
        apply elem_of_union in Hx as [Hx%elem_of_singleton|Hx]; [now subst|]. now apply Hs.
    + intros h e Hh. cbn in Hh. destruct (decide (hashLabelValues l = h)) as [<-|Hne].
      * rewrite lookup_insert_eq in Hh. injection Hh as <-. reflexivity.
      * rewrite lookup_insert_ne in Hh by exact Hne. now apply He.
Qed.

(** *** Runs *)

(** What happens to a guarded metric: an observation, or a tick of the janitor. *)
Inductive gop :=
| GObserve (l : list string)
| GJanitor.

Definition gop_tuples (o : gop) : list (list string) := match o with GObserve l => [l] | GJanitor => [] end.

Definition run_op (m : metric) (o : Time * gop) : metric :=
  match snd o with
  | GObserve l => record m (fst o) l
  | GJanitor => janitor m (fst o)
  end.

Definition fresh_metric (lim : Z) (window : Duration) : metric :=
  mkMetric (withEviction (newCardinalityGuard lim) window) ∅.

Definition run_ops (m : metric) (ops : list (Time * gop)) : metric := fold_left run_op ops m.

Lemma janitor_sweep m now :
  janitor m now = mkMetric (fst (sweepLocked (m_guard m) now false))
    (delete_series (m_series m) (snd (sweepLocked (m_guard m) now false))).
Proof. unfold janitor. now destruct (sweepLocked (m_guard m) now false). Qed.

Lemma fresh_metric_ok lim window : metric_ok (fresh_metric lim window).
Proof. repeat split; cbn; [lia|intros l Hl; cbn in Hl; set_solver|intros h e Hh; cbn in Hh; now rewrite lookup_empty in Hh]. Qed.

(** The tuples the guard knows come from the observations. *)
Definition entries_from (ls : list (list string)) (m : metric) : Prop :=
  forall h e, seen (m_guard m) !! h = Some e -> In (labels e) ls.

Lemma record_limit m now l : limit (m_guard (record m now l)) = limit (m_guard m).
Proof.
  unfold record, allow_guard. destruct (seen (m_guard m) !! hashLabelValues l); [reflexivity|]. unfold admit_tuple.
  pose proof (sweepLocked_limit (m_guard m) now false) as Hl. destruct (sweepLocked (m_guard m) now false) as [g del].
  cbn in Hl. case_if; exact Hl.
Qed.

Lemma record_from ls m now l : In l ls -> entries_from ls m -> entries_from ls (record m now l).
Proof.
  intros Hl Hf h e. unfold record, allow_guard.
  destruct (seen (m_guard m) !! hashLabelValues l) as [e0|] eqn:E0.
  - cbn. destruct (decide (hashLabelValues l = h)) as [<-|Hne].
    + rewrite lookup_insert_eq. intros [= <-]. specialize (Hf _ _ E0). unfold touch_entry. now case_if.
    + rewrite lookup_insert_ne by exact Hne. apply Hf.
  - unfold admit_tuple. pose proof (sweepLocked_seen (m_guard m) now false h e) as Hs.
    destruct (sweepLocked (m_guard m) now false) as [g del]. cbn in Hs. case_if; cbn.
    + intros He. now apply (Hf h), Hs.
    + destruct (decide (hashLabelValues l = h)) as [<-|Hne].
      * rewrite lookup_insert_eq. now intros [= <-].
      * rewrite lookup_insert_ne by exact Hne. intros He. now apply (Hf h), Hs.
Qed.

Lemma run_op_ok ls m o :
  collision_free ls -> incl (gop_tuples (snd o)) ls ->
  metric_ok m -> entries_from ls m ->
  metric_ok (run_op m o) /\ entries_from ls (run_op m o) /\ limit (m_guard (run_op m o)) = limit (m_guard m).
Proof.
  intros Hc Hi Hm Hf. destruct o as [now [l|]]; unfold run_op; cbn in *.
  - assert (In l ls) as Hl by (apply Hi; now left). split; [|split].
    + apply record_ok; [exact Hm|]. intros e He. apply Hc; [now apply (Hf _ _ He)|exact Hl|].
      symmetry. now apply (mo_entries _ Hm).
    + now apply record_from.
    + apply record_limit.
  - rewrite janitor_sweep. split; [now apply sweep_metric_ok|]. cbn. split; [|apply sweepLocked_limit].
    intros h e He. eapply (Hf h), sweepLocked_seen. exact He.
Qed.

Lemma run_ops_ok ls ops : collision_free ls -> (forall o, In o ops -> incl (gop_tuples (snd o)) ls) -> forall m,
  metric_ok m -> entries_from ls m ->
  metric_ok (run_ops m ops) /\ limit (m_guard (run_ops m ops)) = limit (m_guard m).
Proof.
  intros Hc. induction ops as [|o ops IH]; intros Hi m Hm Hf; cbn; [auto|].
  destruct (run_op_ok ls m o Hc (Hi o (or_introl eq_refl)) Hm Hf) as (Hm' & Hf' & Hl').
  destruct (IH (fun x Hx => Hi x (or_intror Hx)) _ Hm' Hf') as [Hr Hrl]. split; [exact Hr|]. exact (eq_trans Hrl Hl').
Qed.

Lemma list_to_set_size_le `{Countable A} (l : list A) : (size (list_to_set l : gset A) <= List.length l)%nat.
Proof.
  induction l as [|x l IH]; cbn; [now rewrite size_empty|].
  rewrite size_union_alt, size_singleton.
  pose proof (subseteq_size (list_to_set l ∖ {[x]} : gset A) (list_to_set l) ltac:(set_solver)). lia.
Qed.

Lemma series_le_seen m : metric_ok m -> (size (m_series m) <= size (seen (m_guard m)))%nat.
Proof.
  intros [_ Hs _]. etransitivity.
  - apply (subseteq_size _ (list_to_set (map (fun x => labels (snd x)) (map_to_list (seen (m_guard m)))))).
    intros l Hl. destruct (Hs l Hl) as (e & He & El). apply elem_of_list_to_set, list_elem_of_In, in_map_iff.
    exists (hashLabelValues l, e). split; [exact El|]. now apply list_elem_of_In, elem_of_map_to_list.
  - etransitivity; [apply list_to_set_size_le|]. now rewrite length_map, length_map_to_list.
Qed.

(** *** The age at which tuples are evicted *)

(** The metric with the instant of each tuple's last observation. *)
Record timed := mkTimed {
  t_metric : metric;
  t_last : gmap Z Time;
  t_now : Time;
}.

Definition timed_op (s : timed) (o : Time * gop) : timed :=
  mkTimed (run_op (t_metric s) o)
    (match snd o with GObserve l => <[hashLabelValues l := fst o]> (t_last s) | GJanitor => t_last s end)
    (fst o).

(** The clock moves forward, and is past the zero time. *)
Definition timed_step (s s' : timed) : Prop :=
  exists o, t_now s <= fst o /\ time_zero <= fst o /\ s' = timed_op s o.

(** An entry not stamped with the current generation was last observed before the
    sweep that opened the generation, one window before the next one is due. *)
Record age_ok (s : timed) : Prop := {
  ao_last : forall h e, seen (m_guard (t_metric s)) !! h = Some e ->
    exists t, t_last s !! h = Some t /\ t <= t_now s /\
      (lastGen e <> gen (m_guard (t_metric s)) -> t + evictAfter (m_guard (t_metric s)) <= nextSweep (m_guard (t_metric s)));
  ao_gen : 0 <= gen (m_guard (t_metric s)) < 2 ^ 32;
}.

Lemma wrapu32_succ z : 0 <= z < 2 ^ 32 -> wrapu32 (z + 1) <> z.
Proof.
  intros Hz. unfold wrapu32. destruct (Z.eq_dec (z + 1) (2 ^ 32)) as [E|E].
  - rewrite E, Z_mod_same_full. lia.
  - rewrite Z.mod_small; lia.
Qed.

Lemma sweepLocked_evictAfter g now force : evictAfter (fst (sweepLocked g now force)) = evictAfter g.
Proof. destruct (sweepLocked_cases g now force) as [->|[->| ->]]; reflexivity. Qed.

(** A sweep that is not forced keeps the invariant, whatever it does. *)
Lemma sweep_age m last t0 now :
  0 < evictAfter (m_guard m) -> t0 <= now ->
  age_ok (mkTimed m last t0) ->
  age_ok (mkTimed (mkMetric (fst (sweepLocked (m_guard m) now false)) (m_series m)) last now).
Proof.
  intros Hw Ht [Hl Hg]. cbn in *. split; cbn; rewrite ?sweepLocked_evictAfter.
  - unfold sweepLocked. destruct (Z.leb_spec (evictAfter (m_guard m)) 0); [lia|]. cbn.
    destruct (hasDeleter (m_guard m)); cbn.
    2: { intros h e He. destruct (Hl h e He) as (t & Et & Htn & Hi). exists t. repeat split; auto; lia. }
    destruct (time_is_zero _); cbn.
    { intros h e He. destruct (Hl h e He) as (t & Et & Htn & Hi). exists t. repeat split; auto; [lia|].
      intros _. unfold time_add. lia. }
    destruct (time_before _ _); cbn.
    { intros h e He. destruct (Hl h e He) as (t & Et & Htn & Hi). exists t. repeat split; auto; lia. }
    intros h e He. apply map_lookup_filter_Some in He as [He _]. destruct (Hl h e He) as (t & Et & Htn & Hi).
    exists t. repeat split; auto; [lia|]. intros _. unfold time_add. lia.
  - destruct (sweepLocked_cases (m_guard m) now false) as [->|[->| ->]]; cbn; [lia|lia|].
    unfold wrapu32. apply Z.mod_pos_bound. lia.
Qed.

Lemma record_age s now l :
  0 < evictAfter (m_guard (t_metric s)) -> t_now s <= now -> age_ok s ->
  age_ok (timed_op s (now, GObserve l)).
Proof.
  intros Hw Ht Hs. destruct s as [m last t0]. unfold timed_op, run_op, record, allow_guard. cbn in *.
  destruct (seen (m_guard m) !! hashLabelValues l) as [e0|] eqn:E0.
  - destruct Hs as [Hl Hg]. cbn in *. split; cbn; [|exact Hg].
    intros h e. destruct (decide (hashLabelValues l = h)) as [<-|Hne].
    + rewrite !lookup_insert_eq. intros [= <-]. exists now. repeat split; [lia|].
      intros H. exfalso. apply H. unfold touch_entry. case_if; [reflexivity|]. now breflect.
    + rewrite !lookup_insert_ne by exact Hne. intros He. destruct (Hl h e He) as (t & Et & Htn & Hi).
      exists t. repeat split; auto; lia.
  - pose proof (sweep_age m last t0 now Hw Ht Hs) as [Hl Hg]. unfold admit_tuple.
    pose proof (sweepLocked_none (m_guard m) now false _ E0) as Hn.
    destruct (sweepLocked (m_guard m) now false) as [g del]. cbn in *.
    destruct (limit g <=? count g); cbn; (split; cbn; [|exact Hg]); intros h e;
      (destruct (decide (hashLabelValues l = h)) as [<-|Hne]; [rewrite lookup_insert_eq|rewrite (lookup_insert_ne last) by exact Hne]).
    + intros He. congruence.
    + apply Hl.
    + rewrite lookup_insert_eq. intros [= <-]. exists now. cbn. repeat split; [lia|]. intros H. now exfalso.
    + rewrite lookup_insert_ne by exact Hne. apply Hl.
Qed.

Lemma record_evictAfter m now l : evictAfter (m_guard (record m now l)) = evictAfter (m_guard m).
Proof.
  unfold record, allow_guard. destruct (seen (m_guard m) !! hashLabelValues l); [reflexivity|]. unfold admit_tuple.
  pose proof (sweepLocked_evictAfter (m_guard m) now false) as Hl. destruct (sweepLocked (m_guard m) now false) as [g del].
  cbn in Hl. case_if; exact Hl.
Qed.

Inductive treach (lim : Z) (window : Duration) : timed -> Prop :=
| tr_start t : treach lim window (mkTimed (fresh_metric lim window) ∅ t)
| tr_step s s' : treach lim window s -> timed_step s s' -> treach lim window s'.

Lemma treach_age lim window s :
  0 < window -> treach lim window s -> age_ok s /\ evictAfter (m_guard (t_metric s)) = window.
Proof.
  intros Hw. induction 1 as [t|s s' _ [IH Iw] (o & Ho & _ & ->)].
  - split; [|reflexivity]. split; cbn; [|lia]. intros h e He. now rewrite lookup_empty in He.
  - destruct o as [now [l|]]; cbn in Ho.
    + split; [apply record_age; [lia|exact Ho|exact IH]|]. cbn. now rewrite record_evictAfter.
    + unfold timed_op, run_op. cbn. rewrite janitor_sweep. destruct s as [m last t0]. cbn in *.
      pose proof (sweep_age m last t0 now ltac:(lia) Ho IH) as [Hl Hg].
      split; [now split|]. cbn. now rewrite sweepLocked_evictAfter.
Qed.

Lemma greach_via lim window s s1 s' : greach lim window s -> gstep s s1 -> s1 = s' -> greach lim window s'.
Proof. intros Hs H <-. now apply (gr_step lim window s s1). Qed.

(** ** Theorems *)

(** The hand-written hash is FNV-1a (64 bits) of the values, each followed by a
    0 byte: the digest hash/fnv would compute. *)
Theorem hashLabelValues_is_fnv1a l : hashLabelValues l = fnv1a (label_bytes l).
Proof. apply hash_fnv1a. Qed.

(** The separator does not make the encoding injective: values that contain a NUL
    byte collide. *)
Example nul_values_collide :
  hashLabelValues [String "a" (String "000" ""); "b"] = hashLabelValues ["a"; String "000" "b"].
Proof. vm_compute. reflexivity. Qed.

(** In every interleaving of observations, late stamps, sweeps and increments,
    the counter is the number of tuples the guard holds, and never above the
    limit. *)
Theorem guard_count_bounded lim window s :
  0 < lim -> greach lim window s ->
  count (m_guard (gs_metric s)) = Z.of_nat (size (seen (m_guard (gs_metric s)))) /\
  count (m_guard (gs_metric s)) <= lim.
Proof. intros Hl Hr. destruct (greach_ok lim window s Hr) as [[Hc Hb] El]. split; [exact Hc|]. lia. Qed.

Lemma guard_count_bounded_witness :
  let s := mkGstate (mkMetric (snd (fst (admit_tuple (withEviction (newCardinalityGuard 1) 5) 0 (hashLabelValues ["a"]) ["a"]))) ∅) [["a"]] in
  count (m_guard (gs_metric s)) = Z.of_nat (size (seen (m_guard (gs_metric s)))) /\
  count (m_guard (gs_metric s)) <= 1.
Proof.
  intros s. apply (guard_count_bounded 1 5 s); [lia|]. unfold s.
  eapply greach_via; [apply gr_start|eapply (gs_slow _ _ ["a"] 0 _ [])|]; vm_compute; reflexivity.
Defined.

(** When observations do not overlap with sweeps and no two of the observed
    tuples collide, the collector never holds more series than the limit. *)
Theorem series_bounded lim window ops :
  0 < lim -> collision_free (concat (map (fun o => gop_tuples (snd o)) ops)) ->
  Z.of_nat (size (m_series (run_ops (fresh_metric lim window) ops))) <= lim.
Proof.
  intros Hl Hc. edestruct (run_ops_ok _ ops Hc) as [Hm Hlim].
  - intros o Ho t Ht. apply in_concat. exists (gop_tuples (snd o)). split; [|exact Ht].
    now apply (in_map (fun o => gop_tuples (snd o))).
  - apply (fresh_metric_ok lim window).
  - intros h e He. cbn in He. now rewrite lookup_empty in He.
  - pose proof (series_le_seen _ Hm). destruct (mo_guard _ Hm) as [Hc' Hb]. cbn in Hlim. lia.
Qed.

Definition demo_ops : list (Time * gop) :=
  [(0, GObserve ["a"]); (1, GObserve ["b"]); (2, GObserve ["c"]); (10, GJanitor); (11, GObserve ["b"]); (20, GJanitor); (21, GObserve ["c"])].

Lemma series_bounded_witness :
  m_series (run_ops (fresh_metric 2 5) demo_ops) = {[["b"]; ["c"]]} /\
  Z.of_nat (size (m_series (run_ops (fresh_metric 2 5) demo_ops))) <= 2.
Proof.
  split; [vm_compute; reflexivity|]. apply (series_bounded 2 5 demo_ops); [lia|].
  intros l1 l2 H1 H2 E. cbn in H1, H2.
  assert (forall x, In x [["a"]; ["b"]; ["c"]; ["b"]; ["c"]] -> x = ["a"] \/ x = ["b"] \/ x = ["c"]) as Hin.
  { intros x Hx. destruct Hx as [<-|[<-|[<-|[<-|[<-|[]]]]]]; tauto. }
  destruct (Hin l1 H1) as [->|[->| ->]], (Hin l2 H2) as [->|[->| ->]]; try reflexivity; vm_compute in E; discriminate.
Defined.

(** The states of an observation that overlaps with a sweep, at limit 1. *)
Definition race_guard (entries : list (string * Z)) (n : Z) (next : Time) : cardinalityGuard :=
  mkCardinalityGuard 1 5 true
    (list_to_map (map (fun '(v, k) => (hashLabelValues [v], mkGuardEntry k [v])) entries))
    (Z.of_nat (List.length entries)) n false next.

Definition race_state (entries : list (string * Z)) (n : Z) (next : Time) (series inflight : list (list string)) : gstate :=
  mkGstate (mkMetric (race_guard entries n next) (list_to_set series)) inflight.

Lemma race_reachable : greach 1 5 (race_state [("b", 2)] 2 15 [["b"]; ["a"]] []).
Proof.
  assert (greach 1 5 (race_state [("a", 0)] 0 5 [] [["a"]])) as R1.
  { eapply greach_via; [apply gr_start|apply (gs_slow _ _ ["a"] 0 (race_guard [("a", 0)] 0 5) [])|]; vm_compute; reflexivity. }
  assert (greach 1 5 (race_state [("a", 0)] 0 5 [["a"]] [])) as R2.
  { eapply greach_via; [exact R1|apply (gs_increment _ [] ["a"] [])|]. vm_compute. reflexivity. }
  assert (greach 1 5 (race_state [("a", 0)] 1 10 [["a"]] [])) as R3.
  { eapply greach_via; [exact R2|apply (gs_sweep _ _ 5 false (race_guard [("a", 0)] 1 10) [])|]; vm_compute; reflexivity. }
  assert (greach 1 5 (race_state [("a", 0)] 1 10 [["a"]] [["a"]])) as R4.
  { eapply greach_via; [exact R3|apply (gs_load _ _ ["a"] (mkGuardEntry 0 ["a"]))|]; vm_compute; reflexivity. }
  assert (greach 1 5 (race_state [] 2 15 [] [["a"]])) as R5.
  { eapply greach_via; [exact R4|apply (gs_sweep _ _ 10 false (race_guard [] 2 15) [["a"]])|]; vm_compute; reflexivity. }
  assert (greach 1 5 (race_state [] 2 15 [["a"]] [])) as R6.
  { eapply greach_via; [exact R5|apply (gs_increment _ [] ["a"] [])|]. vm_compute. reflexivity. }
  assert (greach 1 5 (race_state [("b", 2)] 2 15 [["a"]] [["b"]])) as R7.
  { eapply greach_via; [exact R6|apply (gs_slow _ _ ["b"] 11 (race_guard [("b", 2)] 2 15) [])|]; vm_compute; reflexivity. }
  eapply greach_via; [exact R7|apply (gs_increment _ [] ["b"] [])|]. vm_compute. reflexivity.
Qed.

(** When an observation does overlap with a sweep the bound fails: a tuple whose
    entry is evicted between the load and the increment leaves a series without a
    slot, and the collector then holds more series than the limit. *)
Theorem overlapping_sweep_exceeds_limit :
  exists s, greach 1 5 s /\ gs_inflight s = [] /\
    count (m_guard (gs_metric s)) = 1 /\ size (m_series (gs_metric s)) = 2%nat.
Proof. eexists. split; [apply race_reachable|now vm_compute]. Qed.

(** A sweep that is not forced evicts only tuples that went unobserved for at
    least the idle window, whatever the run before it. *)
Theorem eviction_age lim window s now h e :
  0 < window -> treach lim window s -> t_now s <= now ->
  seen (m_guard (t_metric s)) !! h = Some e ->
  seen (fst (sweepLocked (m_guard (t_metric s)) now false)) !! h = None ->
  exists t, t_last s !! h = Some t /\ window <= now - t.
Proof.
  intros Hw Hr Hn He Hev. destruct (treach_age lim window s Hw Hr) as [[Hl _] Ew].
  destruct (Hl h e He) as (t & Et & Htn & Hi). exists t. split; [exact Et|]. revert Hev. unfold sweepLocked.
  case_if; [cbn; congruence|]. cbn. case_if; [cbn; congruence|]. case_if; [cbn; congruence|].
  destruct (decide (lastGen e = gen (m_guard (t_metric s)))) as [E|E].
  - intros Hev. cbn in Hev. apply map_lookup_filter_None in Hev as [Hev|Hev]; [congruence|].
    exfalso. apply (Hev e He). unfold is_live. now apply Z.eqb_eq.
  - intros _. unfold time_before in *. breflect. specialize (Hi E). lia.
Qed.

Definition demo_timed : timed :=
  fold_left timed_op [(0, GObserve ["a"]); (5, GJanitor)] (mkTimed (fresh_metric 2 5) ∅ 0).

Lemma eviction_age_witness :
  exists t, t_last demo_timed !! hashLabelValues ["a"] = Some t /\ 5 <= 10 - t.
Proof.
  apply (eviction_age 2 5 demo_timed 10 (hashLabelValues ["a"]) (mkGuardEntry 0 ["a"])); try (vm_compute; reflexivity); [|vm_compute; discriminate].
  apply (tr_step _ _ (timed_op (mkTimed (fresh_metric 2 5) ∅ 0) (0, GObserve ["a"]))).
  - eapply tr_step; [apply tr_start|]. exists (0, GObserve ["a"]). repeat split; vm_compute; discriminate.
  - exists (5, GJanitor). repeat split; vm_compute; discriminate.
Defined.

(** A saturated guard whose sweep is due admits a new tuple as soon as one tuple
    has been idle for a generation: saturation is not permanent. *)
Theorem idle_slot_reclaimed g now l h e :
  guard_ok g -> 0 < limit g -> 0 < evictAfter g -> hasDeleter g = true ->
  nextSweep g <> time_zero -> nextSweep g <= now ->
  seen g !! h = Some e -> lastGen e <> gen g ->
  fst (fst (allow_guard g now l)) = true.
Proof.
  intros [Hc Hl] Hlim Hw Hd Hz Hs He Hi. unfold allow_guard. destruct (seen g !! hashLabelValues l); [reflexivity|].
  unfold admit_tuple, sweepLocked. rewrite Hd. destruct (Z.leb_spec (evictAfter g) 0); [lia|]. cbn.
  unfold time_is_zero, time_before. destruct (Z.eqb_spec (nextSweep g) time_zero); [contradiction|].
  destruct (Z.ltb_spec now (nextSweep g)); [lia|]. cbn [evict fst snd].
  match goal with |- context [if ?b then _ else _] => destruct b eqn:E end; [|reflexivity]. exfalso.
  cbn in E. apply Z.leb_le in E.
  assert (size (filter (fun '(_, e) => is_live (gen g) e = false) (seen g)) <> 0)%nat; [|lia].
  intros Hempty. apply map_size_empty_iff in Hempty.
  assert (filter (fun '(_, e) => is_live (gen g) e = false) (seen g) !! h = Some e) as Hf.
  { apply map_lookup_filter_Some. split; [exact He|]. unfold is_live. now apply Z.eqb_neq. }
  now rewrite Hempty, lookup_empty in Hf.
Qed.

Lemma idle_slot_reclaimed_witness :
  let g := m_guard (run_ops (fresh_metric 1 5) [(0, GObserve ["a"]); (5, GJanitor)]) in
  fst (fst (allow_guard g 10 ["b"])) = true.
Proof.
  intros g. apply (idle_slot_reclaimed g 10 ["b"] (hashLabelValues ["a"]) (mkGuardEntry 0 ["a"])); try (vm_compute; reflexivity); try (vm_compute; discriminate).
  split; vm_compute; [reflexivity|discriminate].
Defined.
