(* ===== verification/Json.v ===== *)
(** * JSON as Go's [encoding/json] reads and writes it

    [parse] is the scanner's grammar: it accepts exactly the texts [json.Valid]
    accepts and gives every value together with its raw bytes, which is what a
    [json.RawMessage] receives.  Decoding into Go values is defined on the parsed
    value: [null] into most types is no change, a value of the wrong type is an
    error, object keys are matched to struct fields up to case folding.

    The scanner recurses on nesting and on the remaining input; [fuel] bounds the
    calls, and [parse_fuel] shows the fuel [parse] gives is enough. *)

From S2P Require Import Prelude GoStrings Utf8.
From Stdlib Require Import ZArith Lia Bool Ascii String.
From stdpp Require Import base list strings.

Open Scope string_scope.
Open Scope Z_scope.

#[local] Set Warnings "-register-all".

(** A value; the elements of arrays and objects carry their raw text. *)
Inductive json :=
| JNull
| JBool (b : bool)
| JNumber (lit : string)
| JString (raw : string)
| JArray (elems : list (string * json))
| JObject (members : list (string * (string * json))).

(** ** Scanning *)

Definition is_json_space (c : ascii) : bool :=
  Ascii.eqb c " " || Ascii.eqb c "009" || Ascii.eqb c "010" || Ascii.eqb c "013".

Definition skip_space (s : string) : string := trim_left_while is_json_space s.

Definition is_hex (c : ascii) : bool := in_range 48 57 c || in_range 97 102 c || in_range 65 70 c.

Definition simple_escape (c : ascii) : bool :=
  Ascii.eqb c "b" || Ascii.eqb c "f" || Ascii.eqb c "n" || Ascii.eqb c "r" || Ascii.eqb c "t" ||
  Ascii.eqb c "\" || Ascii.eqb c "/" || Ascii.eqb c "034".

Definition push (c : ascii) (r : option (string * string)) : option (string * string) :=
  match r with Some (a, rest) => Some (String c a, rest) | None => None end.

(** The rest of a string literal after its opening quote: the raw body, and what
    follows the closing quote. *)
Fixpoint scan_string (s : string) : option (string * string) :=
  match s with
  | EmptyString => None
  | String c s' =>
      if Ascii.eqb c "034" then Some ("", s')
      else if Ascii.eqb c "\" then
        match s' with
        | EmptyString => None
        | String e s'' =>
            if simple_escape e then push c (push e (scan_string s''))
            else if Ascii.eqb e "u" then
              match s'' with
              | String h1 (String h2 (String h3 (String h4 r))) =>
                  if is_hex h1 && is_hex h2 && is_hex h3 && is_hex h4
                  then push c (push e (push h1 (push h2 (push h3 (push h4 (scan_string r))))))
                  else None
              | _ => None
              end
            else None
        end
      else if byte_val c <? 32 then None
      else push c (scan_string s')
  end.

Definition is_dig (c : ascii) : bool := in_range 48 57 c.

Fixpoint span_digits (s : string) : string * string :=
  match s with
  | String c s' => if is_dig c then let '(d, r) := span_digits s' in (String c d, r) else ("", s)
  | EmptyString => ("", "")
  end.

(** A fraction and an exponent, both optional. *)
Definition scan_fraction (s : string) : option (string * string) :=
  match s with
  | String "." s' => let '(d, r) := span_digits s' in if (d =? "")%string then None else Some (String "." d, r)
  | _ => Some ("", s)
  end.

Definition scan_sign (s : string) : string * string :=
  match s with
  | String c r => if Ascii.eqb c "+" || Ascii.eqb c "-" then (String c "", r) else ("", s)
  | EmptyString => ("", "")
  end.

Definition scan_exponent (s : string) : option (string * string) :=
  match s with
  | String e s' =>
      if Ascii.eqb e "e" || Ascii.eqb e "E" then
        let '(sg, s'') := scan_sign s' in
        let '(d, r) := span_digits s'' in
        if (d =? "")%string then None else Some (String e (sg +:+ d), r)
      else Some ("", s)
  | EmptyString => Some ("", "")
  end.

Definition scan_int_part (s : string) : option (string * string) :=
  match s with
  | String c s' =>
      if Ascii.eqb c "0" then Some ("0", s')
      else if is_dig c then let '(d, r) := span_digits s' in Some (String c d, r)
      else None
  | EmptyString => None
  end.

Definition scan_number (s : string) : option (string * string) :=
  let '(sg, s1) := match s with String c r => if Ascii.eqb c "-" then ("-", r) else ("", s) | _ => ("", s) end in
  match scan_int_part s1 with
  | None => None
  | Some (i, s2) =>
      match scan_fraction s2 with
      | None => None
      | Some (f, s3) =>
          match scan_exponent s3 with
          | None => None
          | Some (e, s4) => Some (sg +:+ i +:+ f +:+ e, s4)
          end
      end
  end.

(** The text read so far, from the input and what is left of it. *)
Definition consumed (s rest : string) : string := str_take (String.length s - String.length rest) s.

Definition maxNestingDepth : Z := 10000.

(** Values, arrays after their bracket, objects after their brace.  [depth] counts the
    open brackets and braces. *)
Fixpoint scan_value (fuel : nat) (depth : Z) (s : string) {struct fuel} : option (json * string) :=
  match fuel with
  | O => None
  | S f =>
      match s with
      | EmptyString => None
      | String c s' =>
          if Ascii.eqb c "034" then
            match scan_string s' with Some (raw, r) => Some (JString raw, r) | None => None end
          else if Ascii.eqb c "{" then
            if maxNestingDepth <=? depth then None
            else match skip_space s' with
                 | String "}" r => Some (JObject [], r)
                 | s1 => match scan_members f (depth + 1) s1 with Some (ms, r) => Some (JObject ms, r) | None => None end
                 end
          else if Ascii.eqb c "[" then
            if maxNestingDepth <=? depth then None
            else match skip_space s' with
                 | String "]" r => Some (JArray [], r)
                 | s1 => match scan_elems f (depth + 1) s1 with Some (es, r) => Some (JArray es, r) | None => None end
                 end
          else if has_prefix "null" s then Some (JNull, str_drop 4 s)
          else if has_prefix "true" s then Some (JBool true, str_drop 4 s)
          else if has_prefix "false" s then Some (JBool false, str_drop 5 s)
          else match scan_number s with Some (lit, r) => Some (JNumber lit, r) | None => None end
      end
  end
with scan_elems (fuel : nat) (depth : Z) (s : string) {struct fuel} : option (list (string * json) * string) :=
  match fuel with
  | O => None
  | S f =>
      match scan_value f depth s with
      | None => None
      | Some (v, r) =>
          match skip_space r with
          | String "]" r1 => Some ([(consumed s r, v)], r1)
          | String "," r1 =>
              match scan_elems f depth (skip_space r1) with
              | Some (es, r2) => Some ((consumed s r, v) :: es, r2)
              | None => None
              end
          | _ => None
          end
      end
  end
with scan_members (fuel : nat) (depth : Z) (s : string) {struct fuel} : option (list (string * (string * json)) * string) :=
  match fuel with
  | O => None
  | S f =>
      match s with
      | String "034" s' =>
          match scan_string s' with
          | None => None
          | Some (key, r) =>
              match skip_space r with
              | String ":" r1 =>
                  let s1 := skip_space r1 in
                  match scan_value f depth s1 with
                  | None => None
                  | Some (v, r2) =>
                      match skip_space r2 with
                      | String "}" r3 => Some ([(key, (consumed s1 r2, v))], r3)
                      | String "," r3 =>
                          match scan_members f depth (skip_space r3) with
                          | Some (ms, r4) => Some ((key, (consumed s1 r2, v)) :: ms, r4)
                          | None => None
                          end
                      | _ => None
                      end
                  end
              | _ => None
              end
          end
      | _ => None
      end
  end.

(** A whole text: spaces, one value, spaces. *)
Definition parse (s : string) : option json :=
  let s1 := skip_space s in
  match scan_value (S (2 * String.length s1)) 0 s1 with
  | Some (v, r) => if (skip_space r =? "")%string then Some v else None
  | None => None
  end.

Definition json_valid (s : string) : bool := match parse s with Some _ => true | None => false end.

(** ** Decoding *)

Definition hex_digit (r : Z) : Z :=
  if (48 <=? r) && (r <=? 57) then r - 48
  else if (97 <=? r) && (r <=? 102) then r - 87
  else if (65 <=? r) && (r <=? 70) then r - 55
  else 0.

Definition hex4 (a b c d : chunk) : Z :=
  ((hex_digit (chunk_rune a) * 16 + hex_digit (chunk_rune b)) * 16 + hex_digit (chunk_rune c)) * 16 + hex_digit (chunk_rune d).

Definition is_surrogate (r : Z) : bool := (55296 <=? r) && (r <=? 57343).

(** [utf16.DecodeRune], [None] when the pair is not one. *)
Definition decode_pair (r1 r2 : Z) : option Z :=
  if (55296 <=? r1) && (r1 <? 56320) && (56320 <=? r2) && (r2 <? 57344)
  then Some ((r1 - 55296) * 1024 + (r2 - 56320) + 65536) else None.

Definition escape_value (r : Z) : Z :=
  if r =? 98 then 8 else if r =? 102 then 12 else if r =? 110 then 10 else if r =? 114 then 13 else if r =? 116 then 9 else r.

(** The text of a string literal: escapes replaced, bytes that are not UTF-8 and
    unpaired surrogates become U+FFFD. *)
Fixpoint unquote_chunks (l : list chunk) : string :=
  match l with
  | [] => ""
  | Rune 92 _ :: Rune 117 _ :: a :: b :: c :: d :: rest =>
      let r := hex4 a b c d in
      if is_surrogate r then
        match rest with
        | Rune 92 _ :: Rune 117 _ :: a' :: b' :: c' :: d' :: rest' =>
            match decode_pair r (hex4 a' b' c' d') with
            | Some dec => encode_rune dec +:+ unquote_chunks rest'
            | None => rune_error_str +:+ unquote_chunks rest
            end
        | _ => rune_error_str +:+ unquote_chunks rest
        end
      else encode_rune r +:+ unquote_chunks rest
  | Rune 92 _ :: k :: rest => encode_rune (escape_value (chunk_rune k)) +:+ unquote_chunks rest
  | k :: rest => encode_rune (chunk_rune k) +:+ unquote_chunks rest
  end.

Definition unquote (raw : string) : string := unquote_chunks (chunks raw).

(** Folding of the letters that can equal an ASCII field name: the long s and the
    Kelvin sign fold to ASCII letters, every other rune beyond ASCII does not. *)
Definition fold_rune (r : Z) : Z :=
  if (65 <=? r) && (r <=? 90) then r + 32 else if r =? 383 then 115 else if r =? 8490 then 107 else r.

Definition fold_name (s : string) : list Z := map (fun k => fold_rune (chunk_rune k)) (chunks s).

(** The key of a member names the struct field [name]. *)
Definition names_field (name key : string) : bool := bool_decide (fold_name (unquote key) = fold_name name).

(** The values assigned to a field, in order; decoding assigns one after the other. *)
Definition field_values (name : string) (ms : list (string * (string * json))) : list (string * json) :=
  map snd (filter (fun m => names_field name (fst m) = true) ms).

(** A struct is read from an object or from [null]; [None] is a type error. *)
Definition as_struct (v : json) : option (list (string * (string * json))) :=
  match v with JObject ms => Some ms | JNull => Some [] | _ => None end.

(** A [json.RawMessage] field: the raw text of the last value, empty when absent. *)
Definition raw_field (name : string) (ms : list (string * (string * json))) : string :=
  match last (field_values name ms) with Some (raw, _) => raw | None => "" end.

(** Assign a value to a string: [null] changes nothing. *)
Definition assign_string (cur : option string) (v : json) : option string :=
  match cur, v with
  | Some _, JString raw => Some (unquote raw)
  | Some c, JNull => Some c
  | _, _ => None
  end.

(** A string field, [""] when absent; [None] is a type error. *)
Definition string_field (name : string) (ms : list (string * (string * json))) : option string :=
  fold_left (fun cur x => assign_string cur (snd x)) (field_values name ms) (Some "").

(** Decoding of a text into a string, an int, a list of raw values, a map. *)
Definition decode_string (s : string) : option string :=
  match parse s with Some v => assign_string (Some "") v | None => None end.

Definition decode_int (s : string) : option Z :=
  match parse s with
  | Some (JNumber lit) => parse_int lit
  | Some JNull => Some 0
  | _ => None
  end.

Definition decode_raw_list (s : string) : option (list string) :=
  match parse s with
  | Some (JArray es) => Some (map fst es)
  | Some JNull => Some []
  | _ => None
  end.

(** A [map[string]json.RawMessage] as an association list in order of first
    occurrence; a repeated key keeps the last value. *)
Fixpoint assoc_set {A} (k : string) (v : A) (m : list (string * A)) : list (string * A) :=
  match m with
  | [] => [(k, v)]
  | (k', v') :: m' => if (k =? k')%string then (k, v) :: m' else (k', v') :: assoc_set k v m'
  end.

Fixpoint assoc_get {A} (k : string) (m : list (string * A)) : option A :=
  match m with
  | [] => None
  | (k', v) :: m' => if (k =? k')%string then Some v else assoc_get k m'
  end.

Definition decode_raw_map (s : string) : option (list (string * string)) :=
  match parse s with
  | Some (JObject ms) => Some (fold_left (fun m x => assoc_set (unquote (fst x)) (fst (snd x)) m) ms [])
  | Some JNull => Some []
  | _ => None
  end.

(** ** Numbers as float64: the range check of [strconv.ParseFloat] *)

Fixpoint digits_val (acc : Z) (s : string) : Z :=
  match s with String c s' => digits_val (if is_dig c then acc * 10 + (byte_val c - 48) else acc) s' | EmptyString => acc end.

(** Mantissa, number of fraction digits and exponent of a scanned literal. *)
Fixpoint split_number (frac : bool) (s : string) : string * nat * string :=
  match s with
  | EmptyString => ("", O, "")
  | String c s' =>
      if Ascii.eqb c "e" || Ascii.eqb c "E" then ("", O, s')
      else if Ascii.eqb c "." then split_number true s'
      else let '(m, n, e) := split_number frac s' in
           if is_dig c then (String c m, if frac then S n else n, e) else (m, n, e)
  end.

Definition exponent_val (e : string) : Z :=
  match e with
  | String "-" d => - digits_val 0 d
  | _ => digits_val 0 e
  end.

(** The literal does not round to a finite float64: it is at least the midpoint of
    the largest float and 2^1024. *)
Definition number_overflows (lit : string) : bool :=
  let '(m, n, e) := split_number false lit in
  let mant := digits_val 0 m in
  let ex := exponent_val e - Z.of_nat n in
  if mant =? 0 then false
  else if 400 <? ex then true
  else if ex + Z.of_nat (String.length m) <? 300 then false
  else if 0 <=? ex then 2 ^ 1024 - 2 ^ 970 <=? mant * 10 ^ ex
  else (2 ^ 1024 - 2 ^ 970) * 10 ^ (- ex) <=? mant.

(** A value decodes into an [interface{}]: its numbers are in range. *)
Fixpoint any_ok (v : json) : bool :=
  match v with
  | JNumber lit => negb (number_overflows lit)
  | JArray es => forallb (fun x => any_ok (snd x)) es
  | JObject ms => forallb (fun x => any_ok (snd (snd x))) ms
  | _ => true
  end.

(** ** Encoding *)

Definition hex_char (z : Z) : ascii := if z <? 10 then byte_chr (48 + z) else byte_chr (87 + z).

(** A backslash escape of a code below 65536. *)
Definition u_escape (r : Z) : string :=
  String "\" (String "u" (String (hex_char (r / 4096)) (String (hex_char (r / 256 mod 16))
    (String (hex_char (r / 16 mod 16)) (String (hex_char (r mod 16)) ""))))).

Definition escape_char (c : ascii) : string := String "\" (String c "").

(** One rune of a string, with HTML escaping. *)
Definition quote_chunk (k : chunk) : string :=
  match k with
  | Bad _ => u_escape 65533
  | Rune r b =>
      if r =? 34 then escape_char "034"
      else if r =? 92 then escape_char "\"
      else if r =? 8 then escape_char "b"
      else if r =? 12 then escape_char "f"
      else if r =? 10 then escape_char "n"
      else if r =? 13 then escape_char "r"
      else if r =? 9 then escape_char "t"
      else if (r <? 32) || (r =? 60) || (r =? 62) || (r =? 38) || (r =? 8232) || (r =? 8233) then u_escape r
      else b
  end.

(** [json.Marshal] of a string. *)
Definition quote (s : string) : string := String "034" (str_concat (map quote_chunk (chunks s)) +:+ String "034" "").

(** [json.Marshal] of a raw value: spaces outside strings are dropped and the HTML
    characters escaped. *)
Fixpoint compact_chunks (in_str esc : bool) (l : list chunk) : string :=
  match l with
  | [] => ""
  | k :: rest =>
      let r := match k with Rune r _ => r | Bad _ => -1 end in
      let out := if (r =? 60) || (r =? 62) || (r =? 38) || (r =? 8232) || (r =? 8233) then u_escape r else chunk_bytes k in
      if in_str then
        out +:+ (if esc then compact_chunks true false rest
                 else if r =? 92 then compact_chunks true true rest
                 else if r =? 34 then compact_chunks false false rest
                 else compact_chunks true false rest)
      else if (r =? 32) || (r =? 9) || (r =? 10) || (r =? 13) then compact_chunks false false rest
      else out +:+ compact_chunks (r =? 34) false rest
  end.

(** A raw value is marshalled when it is valid JSON; an empty one is [null]. *)
Definition marshal_raw (raw : string) : option string :=
  if (raw =? "")%string then Some "null"
  else if json_valid raw then Some (compact_chunks false false (chunks raw)) else None.

Fixpoint comma_join (l : list string) : string :=
  match l with
  | [] => ""
  | [x] => x
  | x :: l' => x +:+ "," +:+ comma_join l'
  end.

Definition marshal_raw_list (l : list string) : option string :=
  match mapM marshal_raw l with
  | Some es => Some ("[" +:+ comma_join es +:+ "]")
  | None => None
  end.

(** Byte order of strings, the order in which map keys are written. *)
Fixpoint str_leb (a b : string) : bool :=
  match a, b with
  | EmptyString, _ => true
  | String _ _, EmptyString => false
  | String x a', String y b' =>
      if byte_val x <? byte_val y then true else if byte_val y <? byte_val x then false else str_leb a' b'
  end.

Fixpoint insert_sorted {A} (x : string * A) (l : list (string * A)) : list (string * A) :=
  match l with
  | [] => [x]
  | y :: l' => if str_leb (fst x) (fst y) then x :: l else y :: insert_sorted x l'
  end.

Definition sort_keys {A} (m : list (string * A)) : list (string * A) := fold_right insert_sorted [] m.

Definition marshal_raw_map (m : list (string * string)) : option string :=
  match mapM (fun x => match marshal_raw (snd x) with Some v => Some (quote (fst x) +:+ ":" +:+ v) | None => None end) (sort_keys m) with
  | Some es => Some ("{" +:+ comma_join es +:+ "}")
  | None => None
  end.

(** ** The fuel of the parser is enough *)

Lemma trim_left_length f s : (String.length (trim_left_while f s) <= String.length s)%nat.
Proof. induction s as [|c s IH]; cbn; [lia|]. case_if; cbn; lia. Qed.

Lemma skip_space_length s : (String.length (skip_space s) <= String.length s)%nat.
Proof. apply trim_left_length. Qed.

Lemma str_drop_length n s : (String.length (str_drop n s) <= String.length s)%nat.
Proof. revert s. induction n as [|n IH]; intros [|c s]; cbn; try lia. specialize (IH s). lia. Qed.

Lemma push_length c r a rest : push c r = Some (a, rest) -> exists a', r = Some (a', rest).
Proof. destruct r as [[a' r']|]; cbn; [|discriminate]. intros [= <- <-]. eauto. Qed.

Lemma scan_string_length s : forall raw r, scan_string s = Some (raw, r) -> (String.length r < String.length s)%nat.
Proof.
  remember (String.length s) as n eqn:En. revert s En. induction n as [n IH] using lt_wf_ind. intros s -> raw r.
  destruct s as [|c s']; cbn [scan_string]; [discriminate|].
  assert (forall s0 a r0, (String.length s0 < String.length (String c s'))%nat -> scan_string s0 = Some (a, r0) ->
    (String.length r0 < String.length (String c s'))%nat) as Hrec.
  { intros s0 a r0 Hl Hs. pose proof (IH _ Hl s0 eq_refl a r0 Hs). lia. }
  case_if; [intros [= <- <-]; cbn; lia|]. case_if.
  - destruct s' as [|e s'']; [discriminate|]. case_if.
    { intros [a1 H1]%push_length. apply push_length in H1 as [a2 H2]. eapply Hrec; [|exact H2]. cbn. lia. }
    case_if; [|discriminate]. destruct s'' as [|h1 [|h2 [|h3 [|h4 t]]]]; try discriminate. case_if; [|discriminate].
    intros H. do 6 (apply push_length in H as [? H]). eapply Hrec; [|exact H]. cbn. lia.
  - case_if; [discriminate|]. intros [a1 H1]%push_length. eapply Hrec; [|exact H1]. cbn. lia.
Qed.

Lemma span_digits_length s : forall d r, span_digits s = (d, r) -> (String.length r <= String.length s)%nat.
Proof.
  induction s as [|c s IH]; cbn; intros d r; [intros [= <- <-]; cbn; lia|].
  destruct (is_dig c); [|intros [= <- <-]; cbn; lia].
  destruct (span_digits s) as [d' r'] eqn:E. intros [= <- <-]. specialize (IH _ _ eq_refl). lia.
Qed.

Lemma scan_number_length s lit r : scan_number s = Some (lit, r) -> (String.length r < String.length s)%nat.
Proof.
  unfold scan_number. destruct (match s with String c r0 => if Ascii.eqb c "-" then ("-", r0) else ("", s) | _ => ("", s) end) as [sg s1] eqn:E1.
  assert (String.length s1 <= String.length s)%nat as H1.
  { destruct s as [|c s0]; [injection E1 as <- <-; lia|]. destruct (Ascii.eqb c "-"); injection E1 as <- <-; cbn; lia. }
  destruct (scan_int_part s1) as [[i s2]|] eqn:E2; [|discriminate].
  assert (String.length s2 < String.length s1)%nat as H2.
  { unfold scan_int_part in E2. destruct s1 as [|c s0]; [discriminate|]. case_match; [injection E2 as <- <-; cbn; lia|].
    destruct (is_dig c); [|discriminate]. destruct (span_digits s0) as [d r'] eqn:Ed. injection E2 as <- <-.
    apply span_digits_length in Ed. cbn. lia. }
  destruct (scan_fraction s2) as [[fr s3]|] eqn:E3; [|discriminate].
  assert (String.length s3 <= String.length s2)%nat as H3.
  { unfold scan_fraction in E3. destruct s2 as [|c s0]; [injection E3 as <- <-; lia|].
    destruct (decide (c = "."%char)) as [->|Hne].
    - destruct (span_digits s0) as [d r'] eqn:Ed. case_match; [discriminate|]. injection E3 as <- <-. apply span_digits_length in Ed. cbn. lia.
    - assert (Some ("", String c s0) = Some (fr, s3)) as E.
      { destruct c as [[] [] [] [] [] [] [] []]; try exact E3. now exfalso. }
      injection E as <- <-. lia. }
  destruct (scan_exponent s3) as [[ex s4]|] eqn:E4; [|discriminate]. intros [= <- <-].
  enough (String.length s4 <= String.length s3)%nat by lia.
  unfold scan_exponent in E4. destruct s3 as [|c s0]; [injection E4 as <- <-; lia|]. case_match; [|injection E4 as <- <-; lia].
  destruct (scan_sign s0) as [sg' s''] eqn:Es. unfold scan_sign in Es.
  destruct (span_digits s'') as [d r'] eqn:Ed. case_match; [discriminate|]. injection E4 as <- <-. apply span_digits_length in Ed.
  destruct s0 as [|c0 r0]; [injection Es as <- <-; cbn in *; lia|]. destruct (_ || _) in Es; injection Es as <- <-; cbn in *; lia.
Qed.

(** Whether the next byte is [c]. *)
Definition starts (c : ascii) (s : string) : option string :=
  match s with String a r => if Ascii.eqb a c then Some r else None | EmptyString => None end.

Lemma starts_length c s r : starts c s = Some r -> (String.length r < String.length s)%nat.
Proof. destruct s as [|a s]; cbn; [discriminate|]. case_if; [intros [= ->]; lia|discriminate]. Qed.

(** What follows an opening bracket: the closing one, or items. *)
Definition container {A} (close : ascii) (items : string -> option (list A * string)) (s : string) : option (list A * string) :=
  match starts close (skip_space s) with
  | Some r => Some ([], r)
  | None => items (skip_space s)
  end.

(** One step of each scanner, as an equation on any fuel. *)
Definition value_step (elems : string -> option (list (string * json) * string))
    (members : string -> option (list (string * (string * json)) * string)) (depth : Z) (s : string) : option (json * string) :=
  match s with
  | EmptyString => None
  | String c s' =>
      if Ascii.eqb c "034" then
        match scan_string s' with Some (raw, r) => Some (JString raw, r) | None => None end
      else if Ascii.eqb c "{" then
        if maxNestingDepth <=? depth then None
        else match container "}" members s' with Some (ms, r) => Some (JObject ms, r) | None => None end
      else if Ascii.eqb c "[" then
        if maxNestingDepth <=? depth then None
        else match container "]" elems s' with Some (es, r) => Some (JArray es, r) | None => None end
      else if has_prefix "null" s then Some (JNull, str_drop 4 s)
      else if has_prefix "true" s then Some (JBool true, str_drop 4 s)
      else if has_prefix "false" s then Some (JBool false, str_drop 5 s)
      else match scan_number s with Some (lit, r) => Some (JNumber lit, r) | None => None end
  end.

Lemma scan_value_S f d s : scan_value (S f) d s = value_step (scan_elems f (d + 1)) (scan_members f (d + 1)) d s.
Proof.
  destruct s as [|c s']; [reflexivity|]. cbn [scan_value value_step].
  destruct (Ascii.eqb c "034"); [reflexivity|].
  destruct (Ascii.eqb c "{"); [|destruct (Ascii.eqb c "["); [|reflexivity]].
  all: destruct (maxNestingDepth <=? d); [reflexivity|]; unfold container, starts;
    destruct (skip_space s') as [|c1 t1]; [reflexivity|]; destruct c1 as [[] [] [] [] [] [] [] []]; reflexivity.
Qed.

(** The closing byte, or the comma and what follows it. *)
Definition after_item {A} (close : ascii) (x : A) (next : string -> option (list A * string)) (r : string) : option (list A * string) :=
  match starts close (skip_space r) with
  | Some r1 => Some ([x], r1)
  | None =>
      match starts "," (skip_space r) with
      | Some r1 => match next (skip_space r1) with Some (xs, r2) => Some (x :: xs, r2) | None => None end
      | None => None
      end
  end.

Lemma scan_elems_S f d s :
  scan_elems (S f) d s =
  match scan_value f d s with
  | None => None
  | Some (v, r) => after_item "]" (consumed s r, v) (scan_elems f d) r
  end.
Proof.
  cbn [scan_elems]. destruct (scan_value f d s) as [[v r]|]; [|reflexivity]. unfold after_item, starts.
  destruct (skip_space r) as [|c t]; [reflexivity|]. destruct c as [[] [] [] [] [] [] [] []]; reflexivity.
Qed.

Lemma scan_members_S f d s :
  scan_members (S f) d s =
  match starts "034" s with
  | None => None
  | Some s' =>
      match scan_string s' with
      | None => None
      | Some (key, r) =>
          match starts ":" (skip_space r) with
          | None => None
          | Some r1 =>
              match scan_value f d (skip_space r1) with
              | None => None
              | Some (v, r2) => after_item "}" (key, (consumed (skip_space r1) r2, v)) (scan_members f d) r2
              end
          end
      end
  end.
Proof.
  cbn [scan_members]. unfold starts at 1. destruct s as [|c s]; [reflexivity|].
  destruct (Ascii.eqb_spec c "034") as [->|Hne].
  2: { destruct c as [[] [] [] [] [] [] [] []]; try reflexivity. now exfalso. }
  destruct (scan_string s) as [[key r]|]; [|reflexivity]. unfold starts at 1.
  destruct (skip_space r) as [|c1 t1]; [reflexivity|]. destruct (Ascii.eqb_spec c1 ":") as [->|Hne].
  2: { destruct c1 as [[] [] [] [] [] [] [] []]; try reflexivity. now exfalso. }
  destruct (scan_value f d (skip_space t1)) as [[v r2]|]; [|reflexivity]. unfold after_item, starts.
  destruct (skip_space r2) as [|c2 t2]; [reflexivity|]. destruct c2 as [[] [] [] [] [] [] [] []]; reflexivity.
Qed.

Lemma after_item_length {A} close (x : A) next r xs r' n :
  (String.length r <= n)%nat ->
  (forall s ys t, (String.length s < n)%nat -> next s = Some (ys, t) -> (String.length t < n)%nat) ->
  (0 < n)%nat -> after_item close x next r = Some (xs, r') -> (String.length r' < n)%nat.
Proof.
  intros Hr Hn Hp. unfold after_item. pose proof (skip_space_length r).
  destruct (starts close (skip_space r)) as [r1|] eqn:E1; [intros [= <- <-]; apply starts_length in E1; lia|].
  destruct (starts "," (skip_space r)) as [r1|] eqn:E2; [|discriminate]. apply starts_length in E2. pose proof (skip_space_length r1).
  destruct (next (skip_space r1)) as [[ys t]|] eqn:En; [|discriminate]. intros [= <- <-]. eapply Hn; [|exact En]. lia.
Qed.

Lemma container_length {A} close (items : string -> option (list A * string)) s xs r :
  (forall s0 ys t, items s0 = Some (ys, t) -> (String.length t < String.length s0)%nat) ->
  container close items s = Some (xs, r) -> (String.length r < S (String.length s))%nat.
Proof.
  intros Hi. unfold container. pose proof (skip_space_length s).
  destruct (starts close (skip_space s)) as [r1|] eqn:E; [intros [= <- <-]; apply starts_length in E; lia|].
  intros H1%Hi. lia.
Qed.

(** Every scanner consumes at least one byte. *)
Lemma scan_length f :
  (forall d s v r, scan_value f d s = Some (v, r) -> (String.length r < String.length s)%nat) /\
  (forall d s es r, scan_elems f d s = Some (es, r) -> (String.length r < String.length s)%nat) /\
  (forall d s ms r, scan_members f d s = Some (ms, r) -> (String.length r < String.length s)%nat).
Proof.
  induction f as [|f (IHv & IHe & IHm)]; [repeat split; discriminate|]. split; [|split].
  - intros d s v r. rewrite scan_value_S. unfold value_step. destruct s as [|c s']; [discriminate|].
    destruct (Ascii.eqb c "034").
    { destruct (scan_string s') as [[raw r0]|] eqn:E; [|discriminate]. intros [= <- <-]. apply scan_string_length in E. cbn. lia. }
    destruct (Ascii.eqb c "{").
    { destruct (maxNestingDepth <=? d); [discriminate|].
      destruct (container "}" _ s') as [[ms r0]|] eqn:E; [|discriminate]. intros [= <- <-].
      apply container_length in E; [cbn; lia|]. intros s0 ys t. apply IHm. }
    destruct (Ascii.eqb c "[").
    { destruct (maxNestingDepth <=? d); [discriminate|].
      destruct (container "]" _ s') as [[es r0]|] eqn:E; [|discriminate]. intros [= <- <-].
      apply container_length in E; [cbn; lia|]. intros s0 ys t. apply IHe. }
    pose proof (str_drop_length 3 s'). pose proof (str_drop_length 4 s').
    change (str_drop 4 (String c s')) with (str_drop 3 s'). change (str_drop 5 (String c s')) with (str_drop 4 s').
    change (String.length (String c s')) with (S (String.length s')).
    destruct (has_prefix "null" (String c s')); [intros Hi; replace r with (str_drop 3 s') by congruence; lia|].
    destruct (has_prefix "true" (String c s')); [intros Hi; replace r with (str_drop 3 s') by congruence; lia|].
    destruct (has_prefix "false" (String c s')); [intros Hi; replace r with (str_drop 4 s') by congruence; lia|].
    destruct (scan_number (String c s')) as [[lit r0]|] eqn:E; [|discriminate]. intros [= _ <-]. now apply scan_number_length in E.
  - intros d s es r. rewrite scan_elems_S. destruct (scan_value f d s) as [[v r0]|] eqn:E; [|discriminate]. apply IHv in E.
    apply after_item_length; [lia| |lia]. intros s1 ys t Hs1 H1. apply IHe in H1. lia.
  - intros d s ms r. rewrite scan_members_S. destruct (starts "034" s) as [s'|] eqn:E1; [|discriminate]. apply starts_length in E1.
    destruct (scan_string s') as [[key r0]|] eqn:E2; [|discriminate]. apply scan_string_length in E2.
    destruct (starts ":" (skip_space r0)) as [r1|] eqn:E3; [|discriminate]. apply starts_length in E3.
    pose proof (skip_space_length r0). pose proof (skip_space_length r1).
    destruct (scan_value f d (skip_space r1)) as [[v r2]|] eqn:E4; [|discriminate]. apply IHv in E4.
    apply after_item_length; [lia| |lia]. intros s1 ys t Hs1 H1. apply IHm in H1. lia.
Qed.

(** Two fuels that are both enough give the same result. *)
Lemma after_item_ext {A} close (x : A) (n1 n2 : string -> option (list A * string)) r n :
  (String.length r < n)%nat -> (forall s, (String.length s < n)%nat -> n1 s = n2 s) ->
  after_item close x n1 r = after_item close x n2 r.
Proof.
  intros Hr He. unfold after_item. destruct (starts close (skip_space r)); [reflexivity|].
  destruct (starts "," (skip_space r)) as [r1|] eqn:E; [|reflexivity]. apply starts_length in E.
  pose proof (skip_space_length r). pose proof (skip_space_length r1). rewrite He by lia. reflexivity.
Qed.

Lemma container_ext {A} close (i1 i2 : string -> option (list A * string)) s n :
  (String.length s < n)%nat -> (forall s0, (String.length s0 < n)%nat -> i1 s0 = i2 s0) ->
  container close i1 s = container close i2 s.
Proof. intros Hs He. unfold container. pose proof (skip_space_length s). rewrite He by lia. reflexivity. Qed.

Lemma scan_fuel n :
  (forall f1 f2 d s, (String.length s < n)%nat -> (2 * String.length s < f1)%nat -> (2 * String.length s < f2)%nat ->
     scan_value f1 d s = scan_value f2 d s) /\
  (forall f1 f2 d s, (String.length s < n)%nat -> (2 * String.length s + 1 < f1)%nat -> (2 * String.length s + 1 < f2)%nat ->
     scan_elems f1 d s = scan_elems f2 d s /\ scan_members f1 d s = scan_members f2 d s).
Proof.
  induction n as [|n (IHv & IHi)]; [split; lia|].
  assert (forall f1 f2 d s, (String.length s < S n)%nat -> (2 * String.length s < f1)%nat -> (2 * String.length s < f2)%nat ->
     scan_value f1 d s = scan_value f2 d s) as Hv.
  { intros [|f1] [|f2] d s Hs H1 H2; try lia. rewrite !scan_value_S. destruct s as [|c s']; [reflexivity|]. cbn in Hs, H1, H2. cbn [value_step].
    rewrite (container_ext "}" (scan_members f1 (d + 1)) (scan_members f2 (d + 1)) s' (S (String.length s'))).
    2: lia. 2: intros s0 Hs0; apply IHi; lia.
    rewrite (container_ext "]" (scan_elems f1 (d + 1)) (scan_elems f2 (d + 1)) s' (S (String.length s'))); [reflexivity|lia|].
    intros s0 Hs0. apply IHi; lia. }
  split; [exact Hv|]. intros [|f1] [|f2] d s Hs H1 H2; try lia. split.
  - rewrite !scan_elems_S. rewrite (Hv f1 f2) by lia. destruct (scan_value f2 d s) as [[v r]|] eqn:E; [|reflexivity].
    apply (scan_length f2) in E. apply (after_item_ext _ _ _ _ _ (String.length s)); [exact E|]. intros s0 Hs0. apply IHi; lia.
  - rewrite !scan_members_S. destruct (starts "034" s) as [s'|] eqn:E1; [|reflexivity]. apply starts_length in E1.
    destruct (scan_string s') as [[key r0]|] eqn:E2; [|reflexivity]. apply scan_string_length in E2.
    destruct (starts ":" (skip_space r0)) as [r1|] eqn:E3; [|reflexivity]. apply starts_length in E3.
    pose proof (skip_space_length r0). pose proof (skip_space_length r1).
    rewrite (Hv f1 f2) by lia. destruct (scan_value f2 d (skip_space r1)) as [[v r2]|] eqn:E4; [|reflexivity].
    apply (scan_length f2) in E4. apply (after_item_ext _ _ _ _ _ (String.length s)); [lia|]. intros s0 Hs0. apply IHi; lia.
Qed.

(** More fuel than [parse] gives changes nothing: it never stops for lack of fuel. *)
Lemma parse_fuel s f : (2 * String.length s < f)%nat -> forall d, scan_value f d s = scan_value (S (2 * String.length s)) d s.
Proof. intros Hf d. apply (scan_fuel (S (String.length s))); lia. Qed.
