(* ===== verification/JsonProps.v ===== *)
(** * Round trips of encoding/json strings *)

From S2P Require Import Prelude GoStrings Utf8 Json.
From Stdlib Require Import ZArith Lia Bool Ascii String.
From stdpp Require Import base list strings.

Open Scope string_scope.
Open Scope Z_scope.

(** ** The quoted text is scanned whole *)

(** [t] can stand anywhere inside a string literal. *)
Definition string_safe (t : string) : Prop :=
  forall rest, scan_string (t +:+ rest) =
    match scan_string rest with Some (a, r) => Some (t +:+ a, r) | None => None end.

Lemma safe_nil : string_safe "".
Proof. intros rest. change ("" +:+ rest) with rest. now destruct (scan_string rest) as [[a r]|]. Qed.

Lemma safe_app t1 t2 : string_safe t1 -> string_safe t2 -> string_safe (t1 +:+ t2).
Proof.
  intros H1 H2 rest. rewrite str_app_assoc, H1, H2. destruct (scan_string rest) as [[a r]|]; [|reflexivity]. now rewrite str_app_assoc.
Qed.

Lemma safe_byte c : 32 <= byte_val c -> byte_val c <> 34 -> byte_val c <> 92 -> string_safe (String c "").
Proof.
  intros H1 H2 H3 rest. change (String c "" +:+ rest) with (String c rest). cbn [scan_string].
  destruct (Ascii.eqb_spec c "034") as [->|]; [now exfalso|]. destruct (Ascii.eqb_spec c "\") as [->|]; [now exfalso|].
  destruct (Z.ltb_spec (byte_val c) 32); [lia|]. now destruct (scan_string rest) as [[a r]|].
Qed.

Lemma safe_escape c : simple_escape c = true -> string_safe (escape_char c).
Proof.
  intros Hc rest. change (escape_char c +:+ rest) with (String "\" (String c rest)). cbn [scan_string].
  change (Ascii.eqb "\" "034") with false. change (Ascii.eqb "\" "\") with true. cbn iota. rewrite Hc.
  now destruct (scan_string rest) as [[a r]|].
Qed.

Lemma hex_char_hex z : 0 <= z < 16 -> is_hex (hex_char z) = true.
Proof.
  intros H. unfold hex_char, is_hex. destruct (Z.ltb_spec z 10); [now rewrite (byte_chr_range 48 57) by lia|].
  rewrite (byte_chr_range 97 102) by lia. now rewrite orb_true_r.
Qed.

Lemma safe_u r : 0 <= r < 65536 -> string_safe (u_escape r).
Proof.
  intros Hr rest. unfold u_escape.
  change (String "\" (String "u" (String ?a (String ?b (String ?c (String ?d ""))))) +:+ rest) with
    (String "\" (String "u" (String a (String b (String c (String d rest)))))).
  cbn [scan_string]. change (Ascii.eqb "\" "034") with false. change (Ascii.eqb "\" "\") with true.
  change (simple_escape "u") with false. change (Ascii.eqb "u" "u") with true. cbn iota.
  pose proof (Z.mod_pos_bound (r / 256) 16 ltac:(lia)). pose proof (Z.mod_pos_bound (r / 16) 16 ltac:(lia)).
  pose proof (Z.mod_pos_bound r 16 ltac:(lia)).
  assert (0 <= r / 4096 < 16) by (split; [apply Z.div_le_lower_bound|apply Z.div_lt_upper_bound]; lia).
  rewrite !hex_char_hex by lia. cbn [andb]. now destruct (scan_string rest) as [[a r0]|].
Qed.

(** The bytes of an encoding beyond ASCII are all at least 128. *)
Definition high (s : string) : Prop := Forall (fun c => 128 <= byte_val c) (list_ascii_of_string s).

Lemma safe_high s : high s -> string_safe s.
Proof.
  induction s as [|c s IH]; intros H; [apply safe_nil|]. inversion H as [|? ? Hc Hs]; subst.
  change (String c s) with (String c "" +:+ s). apply safe_app; [apply safe_byte; lia|now apply IH].
Qed.

Lemma rune_bytes_cases r b s l : chunks s = Rune r b :: l ->
  (b = String (byte_chr r) "" /\ 0 <= r < 128 /\ byte_val (byte_chr r) = r) \/ (128 <= r /\ high b).
Proof.
  intros Hc. pose proof (encode_decoded r b s l Hc) as He. destruct s as [|c0 s0]; [discriminate|]. cbn [chunks] in Hc.
  pose proof (byte_val_range c0). destruct (byte_val c0 <? 128) eqn:E0; breflect.
  { injection Hc as <- <- _. left. now rewrite byte_val_chr. }
  right. assert (forall a, is_cont a = true -> 128 <= byte_val a) as Hcont by (intros a Ha; apply in_range_spec in Ha; lia).
  destruct s0 as [|c1 s1]; [discriminate|]. destruct (second2 c0 c1) eqn:E2.
  { injection Hc as <- <- _. unfold second2 in E2. apply andb_true_iff in E2 as [H0 H1]. destruct (lead2 c0 H0) as [_ R0], (cont_low6 c1 H1) as [_ R1].
    split; [unfold rune2; lia|]. repeat constructor; [lia|]. now apply Hcont. }
  destruct s1 as [|c2 s2]; [discriminate|]. destruct (second3 c0 c1 && is_cont c2) eqn:E3.
  { injection Hc as <- <- _. apply andb_true_iff in E3 as [H01 H2]. pose proof (second3_cont _ _ H01) as H1.
    split; [|repeat constructor; [lia| |]; now apply Hcont].
    destruct (lead3 c0 (second3_lead c0 c1 H01)) as (_ & R0 & V0), (cont_low6 c1 H1) as [_ R1], (cont_low6 c2 H2) as [_ R2].
    unfold rune3. destruct (Z.eq_dec (Z.land (byte_val c0) 15) 0) as [Hz|Hz]; [|lia].
    unfold second3 in H01. rewrite V0 in Hz. replace (byte_val c0) with 224 in H01 by lia. cbn in H01.
    pose proof (low6_ge c1 160 H01). lia. }
  destruct s2 as [|c3 s3]; [discriminate|]. destruct (second4 c0 c1 && is_cont c2 && is_cont c3) eqn:E4; [|discriminate].
  injection Hc as <- <- _. apply andb_true_iff in E4 as [[H01 H2]%andb_true_iff H3]. pose proof (second4_cont _ _ H01) as H1.
  split; [|repeat constructor; [lia| | |]; now apply Hcont].
  destruct (lead4 c0 (second4_lead c0 c1 H01)) as (_ & R0 & V0), (cont_low6 c1 H1) as [_ R1], (cont_low6 c2 H2) as [_ R2], (cont_low6 c3 H3) as [_ R3].
  unfold rune4. destruct (Z.eq_dec (Z.land (byte_val c0) 7) 0) as [Hz|Hz]; [|lia].
  unfold second4 in H01. rewrite V0 in Hz. replace (byte_val c0) with 240 in H01 by lia. cbn in H01.
  pose proof (low6_ge c1 144 H01). lia.
Qed.

(** What a rune of a string looks like when quoted: one of the two-byte escapes, a
    \u escape, or its own bytes. *)
Inductive quoted_as (r : Z) (b : string) : string -> Prop :=
| qa_escape c : simple_escape c = true -> escape_value (byte_val c) = r -> byte_val c < 128 -> byte_val c <> 117 -> b = String (byte_chr r) "" ->
    quoted_as r b (escape_char c)
| qa_u : 0 <= r < 65536 -> is_surrogate r = false -> quoted_as r b (u_escape r)
| qa_bytes : r <> 92 -> string_safe b -> quoted_as r b b.

Lemma quote_chunk_as r b s l : chunks s = Rune r b :: l -> quoted_as r b (quote_chunk (Rune r b)).
Proof.
  intros Hc. destruct (rune_bytes_cases r b s l Hc) as [(-> & Hr & Hv)|(Hr & Hh)]; unfold quote_chunk.
  - destruct (Z.eqb_spec r 34) as [->|]; [now apply (qa_escape _ _ "034")|].
    destruct (Z.eqb_spec r 92) as [->|]; [now apply (qa_escape _ _ "\")|].
    destruct (Z.eqb_spec r 8) as [->|]; [now apply (qa_escape _ _ "b")|].
    destruct (Z.eqb_spec r 12) as [->|]; [now apply (qa_escape _ _ "f")|].
    destruct (Z.eqb_spec r 10) as [->|]; [now apply (qa_escape _ _ "n")|].
    destruct (Z.eqb_spec r 13) as [->|]; [now apply (qa_escape _ _ "r")|].
    destruct (Z.eqb_spec r 9) as [->|]; [now apply (qa_escape _ _ "t")|].
    destruct ((r <? 32) || _ || _ || _ || _ || _) eqn:E.
    + apply qa_u; [lia|]. unfold is_surrogate. destruct (Z.leb_spec 55296 r); [lia|reflexivity].
    + breflect. apply qa_bytes; [assumption|]. apply safe_byte; rewrite Hv; lia.
  - do 7 (match goal with |- context [r =? ?z] => destruct (Z.eqb_spec r z); [lia|] end).
    destruct ((r <? 32) || _ || _ || _ || _ || _) eqn:E; [|apply qa_bytes; [assumption|now apply safe_high]].
    assert (r = 8232 \/ r = 8233) as [->| ->].
    { rewrite !orb_true_iff, Z.ltb_lt, !Z.eqb_eq in E. lia. }
    all: apply qa_u; [lia|reflexivity].
Qed.

Lemma quoted_safe r b q : quoted_as r b q -> string_safe q.
Proof. intros [c Hc _ _ _ _|Hr _|_ Hs]; [now apply safe_escape|now apply safe_u|exact Hs]. Qed.

(** ** Reading back what was quoted *)

Lemma unquote_plain r b l : r <> 92 -> unquote_chunks (Rune r b :: l) = encode_rune r +:+ unquote_chunks l.
Proof.
  intros Hr. destruct r as [|p|p]; try reflexivity.
  do 7 (destruct p as [p|p|]; try reflexivity). congruence.
Qed.

Lemma quoted_valid r b q : quoted_as r b q -> valid_utf8 b = true -> valid_utf8 q = true.
Proof.
  intros [c _ _ Hc _ _|Hr _|_ _] Hb; [| |exact Hb].
  - apply is_ascii_valid. unfold escape_char. cbn [is_ascii]. unfold is_ascii_byte. apply Z.ltb_lt in Hc. now rewrite Hc.
  - apply is_ascii_valid. unfold u_escape. cbn [is_ascii].
    assert (forall z, 0 <= z < 16 -> is_ascii_byte (hex_char z) = true) as Hh.
    { intros z Hz. unfold is_ascii_byte, hex_char. apply Z.ltb_lt. destruct (Z.ltb_spec z 10); rewrite byte_chr_val; lia. }
    rewrite !Hh; [reflexivity| | | |]; try (apply Z.mod_pos_bound; lia).
    split; [apply Z.div_le_lower_bound|apply Z.div_lt_upper_bound]; lia.
Qed.

Lemma hex_digit_char z : 0 <= z < 16 -> hex_digit (byte_val (hex_char z)) = z.
Proof.
  intros Hz. unfold hex_char, hex_digit. destruct (Z.ltb_spec z 10); rewrite byte_chr_val by lia.
  - destruct (Z.leb_spec 48 (48 + z)); [|lia]. destruct (Z.leb_spec (48 + z) 57); [|lia]. cbn [andb]. lia.
  - destruct (Z.leb_spec (87 + z) 57); [lia|]. rewrite andb_false_r.
    destruct (Z.leb_spec 97 (87 + z)); [|lia]. destruct (Z.leb_spec (87 + z) 102); [|lia]. cbn [andb]. lia.
Qed.

(** Four hexadecimal digits are read back. *)
Lemma hex_value r : 0 <= r < 65536 ->
  ((r / 4096 * 16 + r / 256 mod 16) * 16 + r / 16 mod 16) * 16 + r mod 16 = r.
Proof.
  intros Hr. pose proof (Z.div_mod r 16 ltac:(lia)). pose proof (Z.div_mod (r / 16) 16 ltac:(lia)) as H1. pose proof (Z.div_mod (r / 256) 16 ltac:(lia)) as H2.
  rewrite Z.div_div in H1, H2 by lia. change (16 * 16) with 256 in H1. change (256 * 16) with 4096 in H2. lia.
Qed.

Lemma unquote_u r l : 0 <= r < 65536 -> is_surrogate r = false ->
  unquote_chunks (chunks (u_escape r) ++ l)%list = encode_rune r +:+ unquote_chunks l.
Proof.
  intros Hr Hs. unfold u_escape.
  assert (forall z, 0 <= z < 16 -> is_ascii_byte (hex_char z) = true) as Hh.
  { intros z Hz. unfold is_ascii_byte, hex_char. apply Z.ltb_lt. destruct (Z.ltb_spec z 10); rewrite byte_chr_val; lia. }
  pose proof (Z.mod_pos_bound (r / 256) 16 ltac:(lia)). pose proof (Z.mod_pos_bound (r / 16) 16 ltac:(lia)).
  pose proof (Z.mod_pos_bound r 16 ltac:(lia)).
  assert (0 <= r / 4096 < 16) by (split; [apply Z.div_le_lower_bound|apply Z.div_lt_upper_bound]; lia).
  rewrite chunks_ascii by (cbn [is_ascii]; now rewrite !Hh by lia).
  cbn [list_ascii_of_string map app]. change (byte_val "\") with 92. change (byte_val "u") with 117. cbn [unquote_chunks].
  unfold hex4. cbn [chunk_rune]. rewrite !hex_digit_char by lia. rewrite hex_value by exact Hr. now rewrite Hs.
Qed.

Lemma unquote_quoted r b q l : quoted_as r b q -> encode_rune r = b -> chunks b = [Rune r b] ->
  unquote_chunks (chunks q ++ l)%list = b +:+ unquote_chunks l.
Proof.
  intros [c _ He Hc Hu Hb|Hr Hs|Hne _] Henc Hch.
  - unfold escape_char. rewrite chunks_ascii.
    2: { cbn [is_ascii]. unfold is_ascii_byte. apply Z.ltb_lt in Hc. now rewrite Hc. }
    cbn [list_ascii_of_string map app]. change (byte_val "\") with 92.
    transitivity (encode_rune (escape_value (byte_val c)) +:+ unquote_chunks l); [|now rewrite He, Henc].
    destruct (byte_val c) as [|p|p]; try reflexivity. do 7 (destruct p as [p|p|]; try reflexivity). congruence.
  - rewrite unquote_u by assumption. now rewrite Henc.
  - rewrite Hch. cbn [app]. rewrite unquote_plain by exact Hne. now rewrite Henc.
Qed.

Definition quote_body (s : string) : string := str_concat (map quote_chunk (chunks s)).

(** The body of a quoted valid string is a string literal that reads back. *)
Lemma quote_body_ok s : valid_utf8 s = true ->
  string_safe (quote_body s) /\ valid_utf8 (quote_body s) = true /\
  unquote_chunks (chunks (quote_body s)) = s.
Proof.
  unfold quote_body. induction s as [|k s s' E Ec IH] using chunks_ind; intros Hv; [split; [apply safe_nil|now split]|].
  unfold valid_utf8 in Hv. rewrite Ec in Hv. cbn in Hv. apply andb_true_iff in Hv as [Hk Hs].
  destruct k as [r b|]; [|discriminate]. destruct (IH Hs) as (IHs & IHv & IHu). rewrite Ec.
  change (str_concat (map quote_chunk (Rune r b :: chunks s'))) with (quote_chunk (Rune r b) +:+ str_concat (map quote_chunk (chunks s'))).
  pose proof (quote_chunk_as r b s _ Ec) as Hq. pose proof (encode_decoded r b s _ Ec) as Henc.
  pose proof (chunks_rune_app r b s _ "" Ec) as Hcb. rewrite str_app_nil_r in Hcb. change (chunks "") with (@nil chunk) in Hcb.
  assert (valid_utf8 b = true) as Hvb by (unfold valid_utf8; now rewrite Hcb).
  pose proof (quoted_valid r b _ Hq Hvb) as Hvq.
  split; [apply safe_app; [now apply (quoted_safe r b)|exact IHs]|].
  split; [now apply valid_app|].
  rewrite valid_utf8_app by exact Hvq. rewrite (unquote_quoted r b _ _ Hq Henc Hcb), IHu. now rewrite E.
Qed.

Lemma scan_quote s rest : valid_utf8 s = true ->
  scan_string (quote_body s +:+ String "034" rest) = Some (quote_body s, rest).
Proof.
  intros Hv. destruct (quote_body_ok s Hv) as (Hs & _ & _). rewrite Hs. cbn [scan_string].
  change (Ascii.eqb "034" "034") with true. cbn iota. now rewrite str_app_nil_r.
Qed.

(** A quoted string is one JSON value, and decodes to itself. *)
Lemma parse_quote s : valid_utf8 s = true -> parse (quote s) = Some (JString (quote_body s)).
Proof.
  intros Hv. unfold parse. change (skip_space (quote s)) with (quote s). unfold quote at 2. cbn [scan_value].
  change (Ascii.eqb "034" "034") with true. cbn iota. fold (quote_body s). now rewrite scan_quote.
Qed.

Lemma decode_quote s : valid_utf8 s = true -> decode_string (quote s) = Some s.
Proof.
  intros Hv. unfold decode_string. rewrite parse_quote by exact Hv. cbn. unfold unquote.
  now destruct (quote_body_ok s Hv) as (_ & _ & ->).
Qed.
