(* ===== verification/JsonRpc.v ===== *)
(** * JSON-RPC: qos/jsonrpc

    Ids, parameters, requests and responses with their JSON forms, the parsing of
    request bodies, and the assembly of batch responses.  An [ID] holds two
    pointers in Go: as a value it is an integer, a string or unset; as a key of a
    map it is compared by address, so two ids read from different requests are
    different keys even when their values agree, and two unset ids are the same
    key ([id_key]). *)

From S2P Require Import Prelude GoStrings Utf8 GoSort Json.
From Stdlib Require Import ZArith Lia Bool Ascii String.
From stdpp Require Import base list gmap strings.

Open Scope string_scope.
Open Scope Z_scope.

(** ** id.go *)

Inductive ID :=
| IDNull
| IDInt (z : Z)
| IDStr (s : string).

#[export] Instance ID_eq_dec : EqDecision ID.
Proof. solve_decision. Defined.

Definition ID_String (id : ID) : string :=
  match id with IDInt z => fmt_int z | IDStr s => s | IDNull => "null" end.

Definition ID_IsEmpty (id : ID) : bool := match id with IDNull => true | _ => false end.

Definition ID_MarshalJSON (id : ID) : string :=
  match id with IDInt z => fmt_int z | IDStr s => quote s | IDNull => "null" end.

Definition empty_literal : string := String "034" (String "034" "").

Definition ID_UnmarshalJSON (data : string) : option ID :=
  if (data =? "null")%string || (data =? empty_literal)%string then Some IDNull
  else match decode_int data with
       | Some z => Some (IDInt z)
       | None => match decode_string data with Some s => Some (IDStr s) | None => None end
       end.

Definition IDFromInt (id : Z) : ID := IDInt id.
Definition IDFromStr (id : string) : ID := IDStr id.

(** [fmt.Sscanf(s, "%d", &n)]: spaces, a sign, the longest run of digits; the rest of
    the text is not looked at. *)
Definition sscanf_d (s : string) : option Z :=
  let s := str_concat (map chunk_bytes (drop_while (fun k => chunk_space k && negb (chunk_rune k =? 10)) (chunks s))) in
  let '(sg, s1) := scan_sign s in
  let '(d, _) := span_digits s1 in
  if (d =? "")%string then None else parse_int (sg +:+ d).

Definition IDFromString (idStr : string) : ID :=
  if (idStr =? "")%string || (idStr =? "null")%string then IDNull
  else match sscanf_d idStr with
       | Some intVal => IDFromInt intVal
       | None => IDFromStr idStr
       end.

Definition ID_Equal (id other : ID) : bool :=
  match id, other with
  | IDNull, IDNull => true
  | IDNull, _ | _, IDNull => false
  | IDInt a, IDInt b => a =? b
  | IDStr a, IDStr b => (a =? b)%string
  | IDInt _, IDStr b => (ID_String id =? b)%string
  | IDStr a, IDInt _ => (a =? ID_String other)%string
  end.

(** ** params.go, request.go *)

Definition Version2 : string := "2.0".

(** [Params.UnmarshalJSON]: an array or an object whose numbers are in range. *)
Definition Params_UnmarshalJSON (data : string) : option string :=
  match parse data with
  | Some (JArray _ as v) | Some (JObject _ as v) => if any_ok v then Some data else None
  | _ => None
  end.

Record Request := mkRequest {
  req_ID : ID;
  req_JSONRPC : string;
  req_Method : string;
  req_Params : string;
}.

(** A field whose type reads its own raw value: each occurrence is read in turn. *)
Definition custom_field {A} (read : string -> option A) (zero : A) (name : string) (ms : list (string * (string * json))) : option A :=
  fold_left (fun cur x => match cur with Some _ => read (fst x) | None => None end) (field_values name ms) (Some zero).

Definition decode_request (v : json) : option Request :=
  match as_struct v with
  | None => None
  | Some ms =>
      match custom_field ID_UnmarshalJSON IDNull "id" ms, string_field "jsonrpc" ms, string_field "method" ms,
            custom_field Params_UnmarshalJSON "" "params" ms with
      | Some id, Some version, Some method, Some params => Some (mkRequest id version method params)
      | _, _, _, _ => None
      end
  end.

(** An object written from its members, each a name and a JSON text. *)
Definition marshal_fields (fs : list (string * string)) : string :=
  "{" +:+ comma_join (map (fun f => quote (fst f) +:+ ":" +:+ snd f) fs) +:+ "}".

(** [Request.MarshalJSON]; it fails when the parameters are not JSON. *)
Definition Request_MarshalJSON (r : Request) : option string :=
  let head := [("jsonrpc", quote (req_JSONRPC r)); ("method", quote (req_Method r))] in
  let tail := [("id", ID_MarshalJSON (req_ID r))] in
  if (req_Params r =? "")%string then Some (marshal_fields (head ++ tail)%list)
  else match marshal_raw (req_Params r) with
       | Some p => Some (marshal_fields (head ++ [("params", p)] ++ tail)%list)
       | None => None
       end.

Definition SetParams (r : Request) (params : string) : Request :=
  mkRequest (req_ID r) (req_JSONRPC r) (req_Method r) params.

Definition BuildParamsFromString (stringParam : string) : option string :=
  if (stringParam =? "")%string then None else Some ("[" +:+ quote stringParam +:+ "]").

Definition BuildParamsFromStringArray (p0 p1 : string) : option string :=
  if (p0 =? "")%string || (p1 =? "")%string then None else Some ("[" +:+ quote p0 +:+ "," +:+ quote p1 +:+ "]").

Definition BuildParamsFromStringAndBool (stringParam : string) (boolParam : bool) : option string :=
  if (stringParam =? "")%string then None
  else Some ("[" +:+ quote stringParam +:+ "," +:+ (if boolParam then "true" else "false") +:+ "]").

(** A [map[string]string], as an association list with distinct keys. *)
Definition marshal_string_map (m : list (string * string)) : string :=
  "{" +:+ comma_join (map (fun x => quote (fst x) +:+ ":" +:+ quote (snd x)) (sort_keys m)) +:+ "}".

Definition BuildParamsFromObjectAndString (objectParam : list (string * string)) (stringParam : string) : option string :=
  if (stringParam =? "")%string then None
  else Some ("[" +:+ marshal_string_map objectParam +:+ "," +:+ quote stringParam +:+ "]").

Definition BuildParamsFromEmptyObject : string := "{}".

(** payload.go: the data and method of the relayed payload, and reading it back. *)
Definition BuildPayload (r : Request) : option (string * string) :=
  match Request_MarshalJSON r with Some data => Some (data, req_Method r) | None => None end.

Definition GetJsonRpcReqFromServicePayload (data : string) : option Request :=
  match parse data with Some v => decode_request v | None => None end.

(** ** parse_request.go *)

Inductive parse_error := EmptyBody | MalformedRequest | EmptyBatch.

Definition validateRequestBodyNotEmpty (requestBody : string) : result parse_error string :=
  let trimmedBody := trim_space_u requestBody in
  if (trimmedBody =? "")%string then Err EmptyBody else Ok trimmedBody.

Definition tryUnmarshalAsBatch (body : string) : result parse_error (list Request) :=
  match parse body with
  | Some (JArray es) => match mapM (fun e => decode_request (snd e)) es with Some rs => Ok rs | None => Err MalformedRequest end
  | Some JNull => Ok []
  | _ => Err MalformedRequest
  end.

Definition tryUnmarshalAsSingle (body : string) : result parse_error (list Request) :=
  match parse body with
  | Some v => match decode_request v with Some r => Ok [r] | None => Err MalformedRequest end
  | None => Err MalformedRequest
  end.

Definition parseRequestsFromBody (requestBody : string) : result parse_error (list Request * bool) :=
  match validateRequestBodyNotEmpty requestBody with
  | Err e => Err e
  | Ok body =>
      if has_prefix "[" body
      then match tryUnmarshalAsBatch body with Ok rs => Ok (rs, true) | Err e => Err e end
      else match tryUnmarshalAsSingle body with Ok rs => Ok (rs, false) | Err e => Err e end
  end.

(** The key of the [i]-th request's id in a map: its own address, or the one key of
    unset ids. *)
Definition id_key (i : nat) (id : ID) : option nat := if ID_IsEmpty id then None else Some i.

Abbreviation id_map A := (gmap (option nat) A).

Fixpoint map_requests (i : nat) (requests : list Request) (m : id_map Request) : id_map Request :=
  match requests with
  | [] => m
  | req :: rest => map_requests (S i) rest (<[id_key i (req_ID req) := req]> m)
  end.

Definition validateAndMapRequests (requests : list Request) : result parse_error (id_map Request) :=
  if (List.length requests =? 0)%nat then Err EmptyBatch else Ok (map_requests 0 requests ∅).

Definition ParseJSONRPCFromRequestBody (requestBody : string) : result parse_error (id_map Request * bool) :=
  match parseRequestsFromBody requestBody with
  | Err e => Err e
  | Ok (requests, isBatch) =>
      match validateAndMapRequests requests with
      | Err e => Err e
      | Ok m => Ok (m, isBatch)
      end
  end.

(** ** response.go, response_error.go, errors.go *)

Record ResponseError := mkResponseError {
  re_Code : Z;
  re_Message : string;
  re_Data : option string;          (** the JSON text of the data, when present *)
}.

Record Response := mkResponse {
  resp_ID : ID;
  resp_Version : string;
  resp_Result : option string;      (** raw; [None] when the field is absent *)
  resp_Error : option ResponseError;
}.

Inductive response_error := BadVersion | NoResultNorError | BothResultAndError | WrongID.

Definition Response_Validate (r : Response) (reqID : ID) : option response_error :=
  if negb (resp_Version r =? Version2)%string then Some BadVersion
  else match resp_Result r, resp_Error r with
       | None, None => Some NoResultNorError
       | Some _, Some _ => Some BothResultAndError
       | _, _ => if negb (ID_String (resp_ID r) =? ID_String reqID)%string then Some WrongID else None
       end.

Definition GetResultAsBytes (r : Response) : option string := resp_Result r.
Definition IsError (r : Response) : bool := match resp_Error r with Some _ => true | None => false end.

Definition assign_int (cur : option Z) (v : json) : option Z :=
  match cur, v with
  | Some _, JNumber lit => parse_int lit
  | Some c, JNull => Some c
  | _, _ => None
  end.

Definition int_field (name : string) (ms : list (string * (string * json))) : option Z :=
  fold_left (fun cur x => assign_int cur (snd x)) (field_values name ms) (Some 0).

(** The [data] of an error is any value; [null] leaves it unset. *)
Definition any_field (name : string) (ms : list (string * (string * json))) : option (option string) :=
  fold_left (fun cur x => match cur with
                          | None => None
                          | Some _ => match snd x with JNull => Some None | v => if any_ok v then Some (Some (fst x)) else None end
                          end) (field_values name ms) (Some None).

Definition decode_response_error (v : json) : option ResponseError :=
  match as_struct v with
  | None => None
  | Some ms =>
      match int_field "code" ms, string_field "message" ms, any_field "data" ms with
      | Some c, Some m, Some d => Some (mkResponseError c m d)
      | _, _, _ => None
      end
  end.

(** A [*ResponseError] field: [null] sets the pointer to nil; decoding into a pointer
    that is already set keeps the fields the new object does not mention, so the
    members of all the objects count. *)
Definition error_field (ms : list (string * (string * json))) : option (option ResponseError) :=
  let step (cur : option (option (list (string * (string * json))))) (x : string * json) :=
    match cur, snd x with
    | None, _ => None
    | Some _, JNull => Some None
    | Some None, JObject f => Some (Some f)
    | Some (Some f0), JObject f => Some (Some (f0 ++ f)%list)
    | _, _ => None
    end in
  match fold_left step (field_values "error" ms) (Some None) with
  | None => None
  | Some None => Some None
  | Some (Some f) => match decode_response_error (JObject f) with Some e => Some (Some e) | None => None end
  end.

Definition Response_UnmarshalJSON (data : string) : option Response :=
  match parse data with
  | None => None
  | Some v =>
      match as_struct v with
      | None => None
      | Some ms =>
          match custom_field ID_UnmarshalJSON IDNull "id" ms, string_field "jsonrpc" ms, error_field ms, decode_raw_map data with
          | Some id, Some version, Some err, Some rawMap => Some (mkResponse id version (assoc_get "result" rawMap) err)
          | _, _, _, _ => None
          end
      end
  end.

Definition GetErrorResponse (id : ID) (errCode : Z) (errMsg : string) (errData : list (string * string)) : Response :=
  mkResponse id Version2 None (Some (mkResponseError errCode errMsg (Some (marshal_string_map errData)))).

Definition ResponseCodeDefaultInternalErr : Z := -31001.
Definition ResponseCodeBackendServerErr : Z := -31002.
Definition ResponseCodeDefaultBadRequest : Z := -32600.

Definition NewErrResponseInternalErr (requestID : ID) (err : string) : Response :=
  GetErrorResponse requestID ResponseCodeDefaultInternalErr ("internal error: " +:+ err) [("error", err); ("retryable", "true")].

Definition NewErrResponseInvalidRequest (requestID : ID) (err : string) : Response :=
  GetErrorResponse requestID ResponseCodeDefaultBadRequest ("invalid request: " +:+ err) [("error", err); ("retryable", "false")].

Definition NewErrResponseEmptyEndpointResponse (requestID : ID) : Response :=
  GetErrorResponse requestID ResponseCodeBackendServerErr
    "Endpoint (data/service node error): Received an empty response. The endpoint will be dropped from the selection pool. Please try again."
    [("retryable", "true")].

Definition NewErrResponseNoEndpointResponse (requestID : ID) : Response :=
  GetErrorResponse requestID ResponseCodeDefaultInternalErr
    "Failed to receive any response from endpoints. This could be due to network issues or high load. Please try again."
    [("retryable", "true")].

Definition NewErrResponseBatchMarshalFailure (err : string) : Response :=
  GetErrorResponse IDNull ResponseCodeDefaultInternalErr ("Failed to marshal batch response: " +:+ err) [("error", err); ("retryable", "true")].

(** [json.Marshal] of a response: the fields in the order of the struct. *)
Definition marshal_response_error (e : ResponseError) : string :=
  marshal_fields ([("code", fmt_int (re_Code e)); ("message", quote (re_Message e))] ++
    match re_Data e with Some d => [("data", d)] | None => [] end)%list.

Definition marshal_response (r : Response) : option string :=
  match (match resp_Result r with Some raw => match marshal_raw raw with Some p => Some [("result", p)] | None => None end | None => Some [] end) with
  | None => None
  | Some res => Some (marshal_fields ([("id", ID_MarshalJSON (resp_ID r)); ("jsonrpc", quote (resp_Version r))] ++ res ++
                   match resp_Error r with Some e => [("error", marshal_response_error e)] | None => [] end)%list)
  end.

(** ** response_batch.go *)

Inductive batch_error := ErrBatchResponseLengthMismatch | ErrBatchResponseMissingIDs | ErrBatchResponseMarshalFailure.

(** The id of a raw response; [None] when none can be read. *)
Definition responseIDOf (raw : string) : option ID :=
  match parse raw with
  | None => None
  | Some v => match as_struct v with Some ms => custom_field ID_UnmarshalJSON IDNull "id" ms | None => None end
  end.

Definition count_key (key : string) (l : list string) : nat := List.length (filter (fun k => (k =? key)%string = true) l).

(** The requests awaiting a response, by id value, and one id per value (the last). *)
Definition pending_of (requestIDs : list ID) : gmap string nat :=
  fold_left (fun m id => <[ID_String id := S (default O (m !! ID_String id))]> m) requestIDs ∅.

Definition representative_of (requestIDs : list ID) : gmap string ID :=
  fold_left (fun m id => <[ID_String id := id]> m) requestIDs ∅.

Definition nullKey : string := ID_String IDNull.

(** The scan over the responses: positions per key, wildcards, dropped positions. *)
Record scan_state := mkScan {
  positions : gmap string (list nat);
  wildcards : nat;
  dropped : list nat;
}.

Definition scan_response (pending : gmap string nat) (st : scan_state) (x : nat * string) : scan_state :=
  let '(i, respMsg) := x in
  match responseIDOf respMsg with
  | None =>
      if negb (json_valid respMsg) then mkScan (positions st) (wildcards st) (dropped st ++ [i])
      else mkScan (positions st) (S (wildcards st)) (dropped st)
  | Some id =>
      let key := ID_String id in
      if ID_IsEmpty id && (default O (pending !! nullKey) <=? List.length (default [] (positions st !! nullKey)))%nat
      then mkScan (positions st) (S (wildcards st)) (dropped st)
      else mkScan (<[key := (default [] (positions st !! key) ++ [i])%list]> (positions st)) (wildcards st) (dropped st)
  end.

Fixpoint number_from {A} (n : nat) (l : list A) : list (nat * A) :=
  match l with [] => [] | x :: l' => (n, x) :: number_from (S n) l' end.

Definition scan_responses (pending : gmap string nat) (responses : list string) : scan_state :=
  fold_left (scan_response pending) (number_from 0 responses) (mkScan ∅ 0 []).

(** The surplus of one id: all but the last [want] positions. *)
Definition surplus (want : nat) (idx : list nat) : list nat := take (List.length idx - want) idx.

(** What is still missing of each id after the responses it has. *)
Definition missing_of (pending : gmap string nat) (pos : gmap string (list nat)) : gmap string nat :=
  map_imap (fun key n => Some (n - List.length (default [] (pos !! key)))%nat) pending.

(** The keys of the missing responses in sorted order, each as often as it is missing. *)
Definition missing_keys (m : gmap string nat) : list string :=
  concat (map (fun x => repeat (fst x) (snd x)) (sort_keys (map_to_list m))).

Definition no_response_json (id : ID) : string := default "" (marshal_response (NewErrResponseNoEndpointResponse id)).

Definition ReconcileBatchResponses (responses : list string) (requestIDs : list ID) : list string :=
  let pending := pending_of requestIDs in
  let representative := representative_of requestIDs in
  let st := scan_responses pending responses in
  let drop := (dropped st ++ concat (map (fun x => surplus (default O (pending !! fst x)) (snd x)) (map_to_list (positions st))))%list in
  let kept := map snd (filter (fun x => fst x ∉ drop) (number_from 0 responses)) in
  let missing := missing_keys (missing_of pending (positions st)) in
  let missing := skipn (wildcards st) missing in
  (kept ++ map (fun key => no_response_json (default IDNull (representative !! key))) missing)%list.

(** [servicePayloads] is a map keyed by the request ids; [ids] are its keys in the
    order the map is ranged over. *)
Definition reconcileResponses (responses : list string) (ids : list ID) : list string := ReconcileBatchResponses responses ids.

Definition validateResponseLength (responses : list string) (ids : list ID) : bool :=
  (List.length responses =? List.length ids)%nat.

(** One response of validateResponseIDs: the wildcard count and the matched keys. *)
Definition match_response (ids : list ID) (st : nat * list string) (respMsg : string) : nat * list string :=
  match responseIDOf respMsg with
  | None | Some IDNull => (S (fst st), snd st)
  | Some respID =>
      match find (fun reqID => ID_Equal reqID respID) ids with
      | Some reqID => (fst st, ID_String reqID :: snd st)
      | None => st
      end
  end.

Definition validateResponseIDs (responses : list string) (ids : list ID) : bool :=
  let '(nullIDCount, matched) := fold_left (match_response ids) responses (O, []) in
  let unmatchedCount := List.length (filter (fun reqID => existsb (String.eqb (ID_String reqID)) matched = false) ids) in
  (unmatchedCount <=? nullIDCount)%nat.

Definition ValidateAndBuildBatchResponse (responses : list string) (ids : list ID) : result batch_error string :=
  let responses := reconcileResponses responses ids in
  if negb (validateResponseLength responses ids) then Err ErrBatchResponseLengthMismatch
  else if negb (validateResponseIDs responses ids) then Err ErrBatchResponseMissingIDs
  else match marshal_raw_list responses with
       | Some b => Ok b
       | None => Err ErrBatchResponseMarshalFailure
       end.
