(* ===== verification/BatchProps.v ===== *)
(** * Theorems on JSON-RPC ids, request bodies and batch responses *)

From S2P Require Import Prelude GoStrings Utf8 Json JsonProps JsonRpc.
From Stdlib Require Import ZArith Lia Bool Ascii String.
From stdpp Require Import base gmap strings sets fin_sets numbers list.

Open Scope string_scope.
Open Scope Z_scope.

(** ** Values in front of a delimiter *)

(** [rest] does not continue a number. *)
Definition ends_number (rest : string) : bool :=
  match rest with
  | EmptyString => true
  | String c _ => negb (is_dig c) && negb (Ascii.eqb c ".") && negb (Ascii.eqb c "e") && negb (Ascii.eqb c "E")
  end.

Fixpoint all_digits (s : string) : bool :=
  match s with EmptyString => true | String c s' => is_dig c && all_digits s' end.

Lemma all_digits_app a b : all_digits (a +:+ b) = all_digits a && all_digits b.
Proof.
  induction a as [|c a IH]; [reflexivity|]. change (is_dig c && all_digits (a +:+ b) = is_dig c && all_digits a && all_digits b).
  now rewrite IH, andb_assoc.
Qed.

Lemma digit_of_dig d : 0 <= d < 10 -> is_dig (digit_of d) = true /\ (Ascii.eqb (digit_of d) "0" = true -> d = 0).
Proof.
  intros H.
  assert (d = 0 \/ d = 1 \/ d = 2 \/ d = 3 \/ d = 4 \/ d = 5 \/ d = 6 \/ d = 7 \/ d = 8 \/ d = 9) as Hd by lia.
  destruct Hd as [-> | [-> | [-> | [-> | [-> | [-> | [-> | [-> | [-> | ->]]]]]]]]]; split; (reflexivity || discriminate).
Qed.

Lemma fmt_digits_shape fuel n : 0 <= n < 2 ^ Z.of_nat fuel -> fuel <> O ->
  exists d s, fmt_digits fuel n = String (digit_of d) s /\ 0 <= d < 10 /\ all_digits s = true /\ (n < 10 -> d = n /\ s = "") /\ (10 <= n -> d <> 0).
Proof.
  revert n. induction fuel as [|f IH]; intros n Hn Hf; [congruence|].
  cbn [fmt_digits]. destruct (n <? 10) eqn:E; breflect.
  - exists n, "". repeat split; lia || reflexivity.
  - rewrite Nat2Z.inj_succ, Z.pow_succ_r in Hn by lia.
    assert (1 <= n / 10 < 2 ^ Z.of_nat f) as Hq by (split; [apply Z.div_le_lower_bound; lia|apply Z.div_lt_upper_bound; lia]).
    assert (f <> O) by (intros ->; simpl in Hq; lia).
    destruct (IH (n / 10) ltac:(lia) ltac:(assumption)) as (d & s & -> & Hd & Hs & Hlt & Hge).
    exists d, (s +:+ String (digit_of (n mod 10)) ""). split; [reflexivity|]. split; [lia|].
    split; [|split; [lia|]].
    + rewrite all_digits_app, Hs. cbn. destruct (digit_of_dig (n mod 10)) as [-> _]; [apply Z.mod_pos_bound; lia|reflexivity].
    + intros _. destruct (Z.lt_ge_cases (n / 10) 10) as [Hlo|Hhi]; [|now apply Hge]. destruct (Hlt Hlo) as [-> _]. lia.
Qed.

Lemma span_digits_all s rest : all_digits s = true -> ends_number rest = true -> span_digits (s +:+ rest) = (s, rest).
Proof.
  intros Hs Hr. induction s as [|c s IH].
  - change ("" +:+ rest) with rest. destruct rest as [|c r]; [reflexivity|]. cbn in *. destruct (is_dig c); [discriminate|reflexivity].
  - change (String c s +:+ rest) with (String c (s +:+ rest)). cbn in Hs |- *. apply andb_true_iff in Hs as [-> Hs]. now rewrite IH.
Qed.

Lemma scan_int_digits n rest : 0 <= n -> ends_number rest = true ->
  scan_int_part (fmt_digits (S (Z.to_nat (Z.log2 n))) n +:+ rest) = Some (fmt_digits (S (Z.to_nat (Z.log2 n))) n, rest).
Proof.
  intros Hn Hr. destruct (fmt_digits_shape _ n (log2_fuel n Hn) ltac:(discriminate)) as (d & s & -> & Hd & Hs & Hlt & Hge).
  change (String (digit_of d) s +:+ rest) with (String (digit_of d) (s +:+ rest)). cbn [scan_int_part].
  destruct (digit_of_dig d Hd) as [Hdig H0]. destruct (Ascii.eqb (digit_of d) "0") eqn:E0.
  - rewrite (H0 eq_refl) in *. destruct (Z.lt_ge_cases n 10) as [Hlo|Hhi]; [|now exfalso; apply Hge].
    destruct (Hlt Hlo) as [_ ->]. reflexivity.
  - rewrite Hdig, span_digits_all by assumption. reflexivity.
Qed.

Lemma scan_tail rest : ends_number rest = true -> scan_fraction rest = Some ("", rest) /\ scan_exponent rest = Some ("", rest).
Proof.
  destruct rest as [|c r]; [now split|]. cbn. intros H. breflect. rewrite H1, H0. split; [|reflexivity].
  destruct c as [[] [] [] [] [] [] [] []]; try reflexivity. discriminate.
Qed.

Lemma fmt_digits_not_minus n : 0 <= n -> exists c s, fmt_digits (S (Z.to_nat (Z.log2 n))) n = String c s /\ Ascii.eqb c "-" = false /\ is_dig c = true.
Proof.
  intros Hn. destruct (fmt_digits_shape _ n (log2_fuel n Hn) ltac:(discriminate)) as (d & s & E & Hd & _).
  exists (digit_of d), s. split; [exact E|]. destruct (digit_of_not_sign d Hd) as (-> & _). split; [reflexivity|]. now apply digit_of_dig.
Qed.

(** A printed integer is scanned whole. *)
Lemma scan_fmt_int z rest : ends_number rest = true -> scan_number (fmt_int z +:+ rest) = Some (fmt_int z, rest).
Proof.
  intros Hr. unfold scan_number, fmt_int. destruct (scan_tail rest Hr) as [Hf He]. destruct (z <? 0) eqn:Ez; breflect.
  - pose proof (scan_int_digits (- z) rest ltac:(lia) Hr) as Hi. set (D := fmt_digits (S (Z.to_nat (Z.log2 (- z)))) (- z)) in *.
    change (String "-" D +:+ rest) with (String "-" (D +:+ rest)). cbn iota. rewrite Ascii.eqb_refl. cbn iota.
    rewrite Hi, Hf, He. now rewrite !str_app_nil_r.
  - destruct (fmt_digits_not_minus z ltac:(lia)) as (c & s & E & Hc & _). pose proof (scan_int_digits z rest ltac:(lia) Hr) as Hi.
    rewrite E in *. change (String c s +:+ rest) with (String c (s +:+ rest)) in *. cbn iota. rewrite Hc. cbn iota. rewrite Hi, Hf, He. now rewrite !str_app_nil_r.
Qed.

Lemma dig_first c : is_dig c = true ->
  Ascii.eqb c "034" = false /\ Ascii.eqb c "{" = false /\ Ascii.eqb c "[" = false /\ is_json_space c = false /\
  Ascii.eqb c "n" = false /\ Ascii.eqb c "t" = false /\ Ascii.eqb c "f" = false.
Proof. destruct c as [[] [] [] [] [] [] [] []]; vm_compute; intros H; try discriminate H; repeat split. Qed.

Lemma minus_first : Ascii.eqb "-" "034" = false /\ Ascii.eqb "-" "{" = false /\ Ascii.eqb "-" "[" = false /\ is_json_space "-" = false /\
  Ascii.eqb "-" "n" = false /\ Ascii.eqb "-" "t" = false /\ Ascii.eqb "-" "f" = false.
Proof. repeat split. Qed.

Lemma fmt_int_first z : exists c s, fmt_int z = String c s /\
  (Ascii.eqb c "034" = false /\ Ascii.eqb c "{" = false /\ Ascii.eqb c "[" = false /\ is_json_space c = false /\
   Ascii.eqb c "n" = false /\ Ascii.eqb c "t" = false /\ Ascii.eqb c "f" = false).
Proof.
  unfold fmt_int. destruct (z <? 0) eqn:E; breflect; [eauto using minus_first|].
  destruct (fmt_digits_not_minus z ltac:(lia)) as (c & s & Es & _ & Hd). exists c, s. split; [exact Es|now apply dig_first].
Qed.

Lemma scan_value_int f d z rest : ends_number rest = true ->
  scan_value (S f) d (fmt_int z +:+ rest) = Some (JNumber (fmt_int z), rest).
Proof.
  intros Hr. pose proof (scan_fmt_int z rest Hr) as Hn. rewrite scan_value_S.
  destruct (fmt_int_first z) as (c & s & E & H1 & H2 & H3 & _ & H4 & H5 & H6). rewrite E in *.
  change (String c s +:+ rest) with (String c (s +:+ rest)) in *. cbn [value_step has_prefix].
  rewrite H1, H2, H3. rewrite (Ascii.eqb_sym "n"), (Ascii.eqb_sym "t"), (Ascii.eqb_sym "f"), H4, H5, H6. cbn [andb]. now rewrite Hn.
Qed.

Lemma scan_value_quote f d s rest : valid_utf8 s = true ->
  scan_value (S f) d (quote s +:+ rest) = Some (JString (quote_body s), rest).
Proof.
  intros Hv. rewrite scan_value_S. unfold quote. fold (quote_body s).
  change (String "034" (quote_body s +:+ String "034" "") +:+ rest) with (String "034" ((quote_body s +:+ String "034" "") +:+ rest)).
  cbn [value_step]. change (Ascii.eqb "034" "034") with true. cbn iota. rewrite str_app_assoc.
  change (String "034" "" +:+ rest) with (String "034" rest). now rewrite scan_quote.
Qed.

(** ** Ids *)

(** The ids a request can carry: a 64-bit integer, or a non-empty string of UTF-8. *)
Definition id_wf (id : ID) : Prop :=
  match id with
  | IDNull => True
  | IDInt z => in_int64 z
  | IDStr s => s <> "" /\ valid_utf8 s = true
  end.

(** The value an id is written as. *)
Definition id_json (id : ID) : json :=
  match id with IDNull => JNull | IDInt z => JNumber (fmt_int z) | IDStr s => JString (quote_body s) end.

Lemma scan_value_id f d id rest : id_wf id -> ends_number rest = true ->
  scan_value (S f) d (ID_MarshalJSON id +:+ rest) = Some (id_json id, rest).
Proof.
  intros Hw Hr. destruct id as [|z|s]; cbn [ID_MarshalJSON id_json].
  - rewrite scan_value_S. reflexivity.
  - now apply scan_value_int.
  - apply scan_value_quote. apply Hw.
Qed.

Lemma parse_int_lit z : parse (fmt_int z) = Some (JNumber (fmt_int z)).
Proof.
  unfold parse. destruct (fmt_int_first z) as (c & s & E & _ & _ & _ & Hsp & _).
  assert (skip_space (fmt_int z) = fmt_int z) as -> by (rewrite E; unfold skip_space; cbn; now rewrite Hsp).
  pose proof (scan_value_int (2 * String.length (fmt_int z)) 0 z "" eq_refl) as Hs. rewrite str_app_nil_r in Hs. now rewrite Hs.
Qed.

Lemma id_unmarshal_marshal id : id_wf id -> ID_UnmarshalJSON (ID_MarshalJSON id) = Some id.
Proof.
  destruct id as [|z|s]; cbn [ID_MarshalJSON]; intros Hw; [reflexivity| |].
  - unfold ID_UnmarshalJSON. destruct (fmt_int_first z) as (c & t & E & H1 & _ & _ & _ & H4 & _).
    assert ((fmt_int z =? "null")%string = false) as ->.
    { rewrite E. change (String c t =? "null")%string with (if Ascii.eqb c "n" then (t =? "ull")%string else false). now rewrite H4. }
    assert ((fmt_int z =? empty_literal)%string = false) as ->.
    { rewrite E. unfold empty_literal. change (String c t =? String "034" (String "034" ""))%string with (if Ascii.eqb c "034" then (t =? String "034" "")%string else false). now rewrite H1. }
    cbn [orb]. unfold decode_int. rewrite parse_int_lit. now rewrite parse_fmt_int.
  - destruct Hw as [Hne Hv]. unfold ID_UnmarshalJSON.
    assert ((quote s =? "null")%string = false) as -> by reflexivity.
    destruct (String.eqb_spec (quote s) empty_literal) as [E|_].
    { exfalso. apply Hne. pose proof (decode_quote s Hv) as Hd. rewrite E in Hd. vm_compute in Hd. congruence. }
    cbn [orb]. unfold decode_int. rewrite parse_quote by exact Hv. cbn [orb]. now rewrite decode_quote.
Qed.

(** ** The error object that fills a missing response *)

Definition id_opening : string := String "{" (String "034" ("id" +:+ String "034" ":")).

(** What follows the id in the error object. *)
Definition fill_tail : string := Eval vm_compute in str_drop 10 (no_response_json IDNull).

Lemma no_response_text rid : no_response_json rid = id_opening +:+ (ID_MarshalJSON rid +:+ fill_tail).
Proof.
  unfold no_response_json, marshal_response, NewErrResponseNoEndpointResponse, GetErrorResponse. cbn [resp_Result resp_Error resp_ID resp_Version from_option id].
  unfold marshal_fields. cbn [app map fst snd]. set (E := marshal_response_error _). vm_compute in E. set (X := ID_MarshalJSON rid).
  change (comma_join [?a; ?b; ?c]) with (a +:+ "," +:+ b +:+ "," +:+ c).
  change (quote "id") with (String "034" ("id" +:+ String "034" "")). rewrite !str_app_assoc. reflexivity.
Qed.

Lemma members_fuel f d s : (2 * String.length s + 1 < f)%nat -> scan_members f d s = scan_members (S (S (2 * String.length s))) d s.
Proof. intros Hf. apply (scan_fuel (S (String.length s))); lia. Qed.

(** The members after the id. *)
Definition fill_members : option (list (string * (string * json)) * string) := Eval vm_compute in scan_members 1000 1 (str_drop 1 fill_tail).

Lemma consumed_app a b : consumed (a +:+ b) b = a.
Proof.
  unfold consumed. rewrite str_length_app.
  replace (String.length a + String.length b - String.length b)%nat with (String.length a) by lia. apply str_take_app.
Qed.

Lemma skip_space_id id rest : id_wf id -> skip_space (ID_MarshalJSON id +:+ rest) = ID_MarshalJSON id +:+ rest.
Proof.
  intros _. destruct id as [|z|s]; [reflexivity| |reflexivity]. cbn [ID_MarshalJSON].
  destruct (fmt_int_first z) as (c & s & E & _ & _ & _ & Hsp & _). rewrite E.
  change (String c s +:+ rest) with (String c (s +:+ rest)). unfold skip_space. cbn. now rewrite Hsp.
Qed.

Lemma parse_no_response id : id_wf id ->
  parse (no_response_json id) =
  match fill_members with Some (ms, _) => Some (JObject (("id", (ID_MarshalJSON id, id_json id)) :: ms)) | None => None end.
Proof.
  intros Hw. rewrite no_response_text. set (X := ID_MarshalJSON id).
  set (T := String "034" ("id" +:+ String "034" (":" +:+ (X +:+ fill_tail)))).
  assert (id_opening +:+ (X +:+ fill_tail) = String "{" T) as -> by reflexivity.
  unfold parse. change (skip_space (String "{" T)) with (String "{" T). cbv zeta.
  assert (2 * String.length (String "{" T) = S (S (S (2 * String.length (X +:+ fill_tail) + 9))))%nat as Hfuel.
  { unfold T. change (String.length (String "{" ?t)) with (S (String.length t)).
    change (String.length (String "034" ?t)) with (S (String.length t)). rewrite str_length_app. change (String.length "id") with 2%nat.
    change (String.length (String "034" ?t)) with (S (String.length t)). rewrite str_length_app. change (String.length ":") with 1%nat. lia. }
  rewrite Hfuel. set (f := (2 * String.length (X +:+ fill_tail) + 9)%nat). rewrite scan_value_S. cbn [value_step].
  change (Ascii.eqb "{" "034") with false. change (Ascii.eqb "{" "{") with true. change (maxNestingDepth <=? 0) with false. cbn iota.
  unfold container. change (skip_space T) with T. change (starts "}" T) with (@None string). cbn iota.
  rewrite scan_members_S. change (starts "034" T) with (Some ("id" +:+ String "034" (":" +:+ (X +:+ fill_tail)))). cbn iota.
  change (scan_string ("id" +:+ String "034" (":" +:+ (X +:+ fill_tail)))) with (Some ("id", ":" +:+ (X +:+ fill_tail))). cbn iota.
  change (skip_space (":" +:+ (X +:+ fill_tail))) with (":" +:+ (X +:+ fill_tail)).
  change (starts ":" (":" +:+ (X +:+ fill_tail))) with (Some (X +:+ fill_tail)). cbn iota.
  unfold X at 1 2. rewrite !skip_space_id by exact Hw. rewrite scan_value_id by (exact Hw || reflexivity).
  fold X. rewrite consumed_app. unfold after_item.
  change (skip_space fill_tail) with fill_tail. change (starts "}" fill_tail) with (@None string). cbn iota.
  change (starts "," fill_tail) with (Some (str_drop 1 fill_tail)). cbn iota.
  change (skip_space (str_drop 1 fill_tail)) with (str_drop 1 fill_tail).
  assert (scan_members (S (S f)) (0 + 1) (str_drop 1 fill_tail) = fill_members) as ->.
  { rewrite members_fuel; [vm_compute; reflexivity|]. unfold f. rewrite str_length_app.
    pose proof (str_drop_length 1 fill_tail). lia. }
  reflexivity.
Qed.

Lemma responseIDOf_fill id : id_wf id -> responseIDOf (no_response_json id) = Some id /\ json_valid (no_response_json id) = true.
Proof.
  intros Hw. unfold responseIDOf, json_valid. rewrite parse_no_response by exact Hw. unfold fill_members. split; [|reflexivity].
  cbn [as_struct]. unfold custom_field, field_values.
  transitivity (fold_left (fun cur (x : string * json) => match cur with Some _ => ID_UnmarshalJSON (fst x) | None => None end) [(ID_MarshalJSON id, id_json id)] (Some IDNull)).
  - f_equal.
  - cbn [fold_left fst]. now rewrite id_unmarshal_marshal.
Qed.

(** ** The assembly of batch responses is complete

    The counting behind [ReconcileBatchResponses]: requests and responses are
    compared id value by id value, surplus responses are dropped, missing ones
    filled, and unattributable responses (wildcards) stand for missing ones. *)

Open Scope string_scope.
Open Scope nat_scope.

(** How many ids have the value [k]. *)
Definition cnt (k : string) (ids : list ID) : nat := List.length (filter (fun id => ID_String id = k) ids).

Lemma cnt_cons k id ids : cnt k (id :: ids) = (if decide (ID_String id = k) then 1 else 0) + cnt k ids.
Proof. unfold cnt. rewrite filter_cons. destruct (decide (ID_String id = k)); reflexivity. Qed.

Lemma pending_fold ids : forall (m : gmap string nat) k,
  default 0 (fold_left (fun m rid => <[ID_String rid := S (default 0 (m !! ID_String rid))]> m) ids m !! k) = default 0 (m !! k) + cnt k ids.
Proof.
  induction ids as [|rid ids IH]; intros m k; [unfold cnt; cbn; lia|]. cbn [fold_left]. rewrite IH, cnt_cons.
  destruct (decide (ID_String rid = k)) as [<-|Hne].
  - rewrite lookup_insert_eq. cbn [from_option id]. lia.
  - rewrite lookup_insert_ne by exact Hne. lia.
Qed.

Lemma pending_cnt ids k : default 0 (pending_of ids !! k) = cnt k ids.
Proof. unfold pending_of. rewrite pending_fold, lookup_empty. reflexivity. Qed.

(** ** Sums over the keys of a map *)

Definition sum_over {A} (f : A -> nat) (l : list A) : nat := sum_list (map f l).

Lemma sum_over_cons {A} (f : A -> nat) x l : sum_over f (x :: l) = f x + sum_over f l.
Proof. reflexivity. Qed.

Lemma sum_over_perm {A} (f : A -> nat) l1 l2 : l1 ≡ₚ l2 -> sum_over f l1 = sum_over f l2.
Proof. induction 1; rewrite ?sum_over_cons; lia. Qed.

Lemma sum_over_ext {A} (f g : A -> nat) l : (forall x, x ∈ l -> f x = g x) -> sum_over f l = sum_over g l.
Proof.
  induction l as [|x l IH]; intros H; [reflexivity|]. rewrite !sum_over_cons, (H x) by apply list_elem_of_here.
  rewrite IH; [reflexivity|]. intros y Hy. apply H. now apply list_elem_of_further.
Qed.

Lemma sum_over_add {A} (f g : A -> nat) l : sum_over (fun x => f x + g x) l = sum_over f l + sum_over g l.
Proof. induction l as [|x l IH]; [reflexivity|]. rewrite !sum_over_cons, IH. lia. Qed.

Lemma length_concat_map {A B} (f : A -> list B) l : List.length (concat (map f l)) = sum_over (fun x => List.length (f x)) l.
Proof. induction l as [|x l IH]; [reflexivity|]. cbn [map concat]. rewrite length_app, IH. reflexivity. Qed.

(** A sum over the entries of a map is a sum over any list of keys that has them all. *)
Lemma sum_over_keys {V} (g : string -> V -> nat) (d : V) (m : gmap string V) K :
  (forall k, g k d = 0) -> NoDup K -> (forall k, is_Some (m !! k) -> k ∈ K) ->
  sum_over (fun x => g (fst x) (snd x)) (map_to_list m) = sum_over (fun k => g k (default d (m !! k))) K.
Proof.
  intros Hd HK. induction m as [|k v m Hk IH] using map_ind; intros Hin.
  - rewrite map_to_list_empty. symmetry. clear HK Hin. induction K as [|k K IH]; [reflexivity|].
    rewrite sum_over_cons, IH, lookup_empty. cbn [from_option]. unfold id. now rewrite Hd.
  - rewrite (sum_over_perm _ _ _ (map_to_list_insert m k v Hk)), sum_over_cons. cbn [fst snd].
    rewrite IH by (intros k' Hk'; apply Hin; destruct (decide (k = k')) as [<-|]; [rewrite lookup_insert_eq; eauto|now rewrite lookup_insert_ne]).
    assert (k ∈ K) as HkK by (apply Hin; rewrite lookup_insert_eq; eauto).
    apply elem_of_Permutation in HkK as [K' Hp].
    rewrite !(sum_over_perm _ _ _ Hp), !sum_over_cons, lookup_insert_eq, Hk. cbn [from_option]. unfold id. rewrite Hd.
    rewrite Hp in HK. apply NoDup_cons in HK as [Hnk _]. rewrite (sum_over_ext _ (fun k0 => g k0 (default d (<[k:=v]> m !! k0))) K'); [reflexivity|].
    intros k' Hk'. rewrite lookup_insert_ne; [reflexivity|congruence].
Qed.

(** ** The scan over the responses *)

Lemma number_from_fst {A} (l : list A) : forall n, map fst (number_from n l) = seq n (List.length l).
Proof. induction l as [|x l IH]; intros n; [reflexivity|]. cbn. now rewrite IH. Qed.

(** All the positions a map of positions holds. *)
Definition all_positions (pos : gmap string (list nat)) : list nat := concat (map snd (map_to_list pos)).

Lemma concat_map_perm {A B} (f : A -> list B) l1 l2 : l1 ≡ₚ l2 -> concat (map f l1) ≡ₚ concat (map f l2).
Proof. rewrite <- !flat_map_concat_map. apply Permutation_flat_map. Qed.

Lemma all_positions_insert pos k i :
  all_positions (<[k := (default [] (pos !! k) ++ [i])%list]> pos) ≡ₚ i :: all_positions pos.
Proof.
  unfold all_positions. destruct (pos !! k) as [l|] eqn:E; cbn [from_option]; unfold id.
  - rewrite <- insert_delete_eq. rewrite (concat_map_perm snd _ _ (map_to_list_insert _ k (l ++ [i])%list (lookup_delete_eq pos k))).
    rewrite <- (concat_map_perm snd _ _ (map_to_list_delete pos k l E)). cbn [map concat snd].
    rewrite <- app_assoc. cbn. symmetry. apply Permutation_middle.
  - rewrite (concat_map_perm snd _ _ (map_to_list_insert pos k _ E)). reflexivity.
Qed.

(** After [n] responses every one of them is a wildcard or has its index recorded once. *)
Definition scan_ok (n : nat) (st : scan_state) : Prop :=
  NoDup (dropped st ++ all_positions (positions st)) /\
  Forall (fun i => i < n) (dropped st ++ all_positions (positions st)) /\
  wildcards st + List.length (dropped st ++ all_positions (positions st)) = n.

Lemma scan_ok_perm n l l' w : l' ≡ₚ n :: l -> NoDup l -> Forall (fun i => i < n) l -> w + List.length l = n ->
  NoDup l' /\ Forall (fun i => i < S n) l' /\ w + List.length l' = S n.
Proof.
  intros Hp Hnd Hlt Hlen. split; [|split].
  - rewrite Hp. constructor; [|exact Hnd]. intros Hin. rewrite Forall_forall in Hlt. specialize (Hlt n Hin). lia.
  - eapply (Permutation_Forall (Permutation_sym Hp)). constructor; [lia|]. eapply Forall_impl; [exact Hlt|]. cbn. lia.
  - rewrite (Permutation_length Hp). cbn. lia.
Qed.

Lemma scan_ok_wild n st : scan_ok n st -> scan_ok (S n) (mkScan (positions st) (S (wildcards st)) (dropped st)).
Proof.
  intros (Hnd & Hlt & Hlen). split; [exact Hnd|]. split; [|cbn in *; lia].
  eapply Forall_impl; [exact Hlt|]. cbn. lia.
Qed.

Lemma scan_ok_step pending n st r : scan_ok n st -> scan_ok (S n) (scan_response pending st (n, r)).
Proof.
  intros Hok. unfold scan_response. destruct (responseIDOf r) as [rid|].
  - destruct (_ && _); [now apply scan_ok_wild|]. destruct Hok as (Hnd & Hlt & Hlen).
    apply (scan_ok_perm n (dropped st ++ all_positions (positions st))%list); try assumption. cbn [positions dropped].
    rewrite all_positions_insert. symmetry. apply Permutation_middle.
  - destruct (negb _); [|now apply scan_ok_wild]. destruct Hok as (Hnd & Hlt & Hlen).
    apply (scan_ok_perm n (dropped st ++ all_positions (positions st))%list); try assumption. cbn [positions dropped].
    rewrite <- app_assoc. symmetry. apply Permutation_middle.
Qed.

Lemma scan_ok_fold pending rs : forall n st, scan_ok n st ->
  scan_ok (n + List.length rs) (fold_left (scan_response pending) (number_from n rs) st).
Proof.
  induction rs as [|r rs IH]; intros n st Hok; cbn [number_from fold_left List.length]; [now rewrite Nat.add_0_r|].
  rewrite <- Nat.add_succ_comm. apply IH. now apply scan_ok_step.
Qed.

Lemma scan_responses_ok pending rs : scan_ok (List.length rs) (scan_responses pending rs).
Proof. apply (scan_ok_fold pending rs 0). split; [constructor|split; [constructor|reflexivity]]. Qed.

(** ** The responses kept *)

Lemma length_filter_fst {A} (P : nat -> Prop) `{!forall i, Decision (P i)} `{!forall x : nat * A, Decision (P (fst x))} (l : list (nat * A)) :
  List.length (filter (fun x => P (fst x)) l) = List.length (filter P (map fst l)).
Proof.
  induction l as [|[i a] l IH]; [reflexivity|]. cbn [map]. destruct (decide (P i)) as [Hp|Hp].
  - rewrite !filter_cons_True by exact Hp. cbn [List.length]. now rewrite IH.
  - rewrite !filter_cons_False by exact Hp. exact IH.
Qed.

Lemma filter_not_in_length (D L : list nat) : NoDup D -> NoDup L -> (forall i, i ∈ D -> i ∈ L) ->
  List.length (filter (fun i => i ∉ D) L) + List.length D = List.length L.
Proof.
  intros HD HL Hsub. rewrite <- (filter_app_complement (fun i => i ∈ D) L) at 2. rewrite length_app.
  assert (D ≡ₚ filter (fun i => i ∈ D) L) as Hp.
  { apply NoDup_Permutation; [exact HD|now apply NoDup_filter|]. intros i. rewrite list_elem_of_filter. naive_solver. }
  rewrite <- Hp. lia.
Qed.

Definition drop_list (pending : gmap string nat) (st : scan_state) : list nat :=
  (dropped st ++ concat (map (fun x => surplus (default O (pending !! fst x)) (snd x)) (map_to_list (positions st))))%list.

Lemma concat_surplus_submseteq (pending : gmap string nat) (l : list (string * list nat)) :
  concat (map (fun x => surplus (default O (pending !! fst x)) (snd x)) l) ⊆+ concat (map snd l).
Proof.
  induction l as [|[k idx] l IH]; [constructor|]. cbn [map concat fst snd]. apply submseteq_app; [|exact IH].
  unfold surplus. apply sublist_submseteq, sublist_take.
Qed.

Lemma kept_length pending rs :
  let st := scan_responses pending rs in
  List.length (filter (fun x => fst x ∉ drop_list pending st) (number_from 0 rs)) + List.length (drop_list pending st) = List.length rs.
Proof.
  intros st. rewrite (length_filter_fst (fun i => i ∉ drop_list pending st)), number_from_fst.
  destruct (scan_responses_ok pending rs) as (Hnd & Hlt & _). fold st in Hnd, Hlt.
  assert (drop_list pending st ⊆+ (dropped st ++ all_positions (positions st))%list) as Hsub.
  { apply submseteq_app; [reflexivity|apply concat_surplus_submseteq]. }
  rewrite filter_not_in_length.
  - apply length_seq.
  - apply submseteq_Permutation in Hsub as [k Hp]. rewrite Hp in Hnd. now apply NoDup_app in Hnd.
  - apply NoDup_ListNoDup, List.seq_NoDup.
  - intros i Hi. apply list_elem_of_In, in_seq. rewrite Forall_forall in Hlt. split; [lia|]. cbn. apply Hlt.
    now apply (elem_of_submseteq _ _ _ Hi).
Qed.

(** ** Counting the assembled batch *)

Lemma insert_sorted_perm {A} (x : string * A) l : insert_sorted x l ≡ₚ x :: l.
Proof.
  induction l as [|y l IH]; [reflexivity|]. cbn. destruct (str_leb _ _); [reflexivity|]. rewrite IH. apply Permutation_swap.
Qed.

Lemma sort_keys_perm {A} (m : list (string * A)) : sort_keys m ≡ₚ m.
Proof. induction m as [|x m IH]; [reflexivity|]. cbn. rewrite insert_sorted_perm. now constructor. Qed.

Definition missing_count (pending : gmap string nat) (st : scan_state) : nat := List.length (missing_keys (missing_of pending (positions st))).

Lemma missing_count_sum pending st :
  missing_count pending st = sum_over (fun x => snd x) (map_to_list (missing_of pending (positions st))).
Proof.
  unfold missing_count, missing_keys. rewrite length_concat_map.
  rewrite (sum_over_ext _ snd) by (intros x _; apply repeat_length). apply sum_over_perm, sort_keys_perm.
Qed.

Lemma missing_lookup (pending : gmap string nat) pos k :
  default 0 (missing_of pending pos !! k) = default 0 (pending !! k) - List.length (default [] (pos !! k)).
Proof. unfold missing_of. rewrite map_lookup_imap. destruct (pending !! k); reflexivity. Qed.

(** The ids are counted once by their values. *)
Lemma cnt_sum ids K : NoDup K -> (forall rid, In rid ids -> ID_String rid ∈ K) -> sum_over (fun k => cnt k ids) K = List.length ids.
Proof.
  intros HK. induction ids as [|rid ids IH]; intros Hin.
  - clear. induction K as [|k K IH]; [reflexivity|]. rewrite sum_over_cons, IH. reflexivity.
  - rewrite (sum_over_ext _ (fun k => (if decide (ID_String rid = k) then 1 else 0) + cnt k ids)) by (intros; apply cnt_cons).
    rewrite sum_over_add, IH by (intros r Hr; apply Hin; now right). cbn [List.length]. f_equal.
    assert (ID_String rid ∈ K) as [K' Hp]%elem_of_Permutation by (apply Hin; now left).
    rewrite (sum_over_perm _ _ _ Hp), sum_over_cons, decide_True by reflexivity.
    rewrite Hp in HK. apply NoDup_cons in HK as [Hn _]. rewrite (sum_over_ext _ (fun _ => 0)).
    + clear. induction K' as [|k K IH]; [reflexivity|]. exact IH.
    + intros k Hk. rewrite decide_False; [reflexivity|congruence].
Qed.

Lemma pending_has ids rid : In rid ids -> is_Some (pending_of ids !! ID_String rid).
Proof.
  intros Hin. destruct (pending_of ids !! ID_String rid) eqn:E; [eauto|]. exfalso.
  pose proof (pending_cnt ids (ID_String rid)) as Hc. rewrite E in Hc. cbn in Hc. clear E. revert Hc.
  induction ids as [|r ids IH]; [destruct Hin|]. rewrite cnt_cons. destruct Hin as [->|Hin]; [rewrite decide_True by reflexivity; discriminate|].
  intros Hc. apply IH; [exact Hin|]. destruct (decide _); [discriminate|exact Hc].
Qed.

(** The keys that count: those of the requests and those of the responses. *)
Definition batch_keys (pending : gmap string nat) (st : scan_state) : list string :=
  elements (dom pending ∪ dom (positions st)).

Lemma batch_keys_pending pending st k : is_Some (pending !! k) -> k ∈ batch_keys pending st.
Proof. intros H. apply elem_of_elements, elem_of_union_l, elem_of_dom, H. Qed.

Lemma batch_keys_positions pending st k : is_Some (positions st !! k) -> k ∈ batch_keys pending st.
Proof. intros H. apply elem_of_elements, elem_of_union_r, elem_of_dom, H. Qed.

(** What the assembly keeps of each id and what it is short of, summed over the ids. *)
Lemma batch_balance responses ids :
  let pending := pending_of ids in let st := scan_responses pending responses in
  List.length (all_positions (positions st)) + missing_count pending st =
  List.length ids + (List.length (drop_list pending st) - List.length (dropped st)) /\
  List.length (dropped st) <= List.length (drop_list pending st).
Proof.
  intros pending st. unfold drop_list. rewrite length_app. split; [|lia].
  set (K := batch_keys pending st). assert (NoDup K) as HK by apply NoDup_elements.
  set (len k := List.length (default [] (positions st !! k))). set (want k := default 0 (pending !! k)).
  assert (List.length (all_positions (positions st)) = sum_over len K) as ->.
  { unfold all_positions. rewrite length_concat_map.
    apply (sum_over_keys (fun _ l => List.length l) [] _ K); [reflexivity|exact HK|apply batch_keys_positions]. }
  rewrite length_concat_map, missing_count_sum.
  assert (sum_over (fun x => snd x) (map_to_list (missing_of pending (positions st))) = sum_over (fun k => want k - len k) K) as ->.
  { rewrite (sum_over_keys (fun _ n => n) 0 _ K); [|reflexivity|exact HK|].
    - apply sum_over_ext. intros k _. apply missing_lookup.
    - intros k [n Hn]. apply batch_keys_pending. unfold missing_of in Hn. rewrite map_lookup_imap in Hn. destruct (pending !! k); [eauto|discriminate]. }
  assert (sum_over (fun x => List.length (surplus (default 0 (pending !! fst x)) (snd x))) (map_to_list (positions st)) = sum_over (fun k => len k - want k) K) as ->.
  { rewrite (sum_over_keys (fun k l => List.length (surplus (default 0 (pending !! k)) l)) [] _ K); [|reflexivity|exact HK|apply batch_keys_positions].
    apply sum_over_ext. intros k _. unfold surplus. rewrite length_take. unfold len, want. lia. }
  assert (List.length ids = sum_over want K) as ->.
  { rewrite <- (cnt_sum ids K HK) by (intros rid Hr; apply batch_keys_pending, pending_has, Hr).
    apply sum_over_ext. intros k _. symmetry. apply pending_cnt. }
  rewrite Nat.add_comm with (n := List.length (dropped st)), Nat.add_sub, <- !sum_over_add.
  apply sum_over_ext. intros k _. lia.
Qed.

(** The assembled batch has one response per request, and one more for every
    unattributable response beyond the requests still unanswered. *)
Lemma reconcile_length responses ids :
  let st := scan_responses (pending_of ids) responses in
  List.length (ReconcileBatchResponses responses ids) =
  List.length ids + (wildcards st - missing_count (pending_of ids) st).
Proof.
  intros st. unfold ReconcileBatchResponses. fold st. fold (drop_list (pending_of ids) st).
  rewrite length_app, !length_map, length_drop. fold (missing_count (pending_of ids) st).
  destruct (batch_balance responses ids) as [Hb Hle]. fold st in Hb, Hle.
  pose proof (kept_length (pending_of ids) responses) as Hk. cbn zeta in Hk. fold st in Hk.
  destruct (scan_responses_ok (pending_of ids) responses) as (_ & _ & Hlen). fold st in Hlen. rewrite length_app in Hlen. lia.
Qed.

(** One response per request in an assembled batch: surplus responses are dropped and
    missing ones filled, so the array has exactly as many entries as the batch has
    requests, plus one for every unattributable response beyond the unanswered requests. *)
Theorem batch_response_count (responses : list string) (ids : list ID) :
  let st := scan_responses (pending_of ids) responses in
  List.length (ReconcileBatchResponses responses ids) =
  List.length ids + (wildcards st - missing_count (pending_of ids) st).
Proof. apply reconcile_length. Qed.

(** ** The requests of a body *)

Definition has_id (r : Request) : bool := negb (ID_IsEmpty (req_ID r)).
Definition with_id (rs : list Request) : nat := List.length (filter (fun r => has_id r = true) rs).
Definition some_without_id (rs : list Request) : nat := if existsb (fun r => negb (has_id r)) rs then 1 else 0.

(** The keys in use are positions already passed. *)
Definition keys_below (i : nat) (m : id_map Request) : Prop := forall j, is_Some (m !! Some j) -> j < i.

Lemma map_requests_size rs : forall i (m : id_map Request), keys_below i m ->
  size (map_requests i rs m) = size m + with_id rs + (match m !! None with Some _ => 0 | None => some_without_id rs end).
Proof.
  induction rs as [|r rs IH]; intros i m Hb; [cbn; destruct (m !! None); unfold with_id, some_without_id; cbn; lia|].
  cbn [map_requests]. unfold with_id. rewrite filter_cons. unfold some_without_id. cbn [existsb].
  assert (keys_below (S i) (<[id_key i (req_ID r) := r]> m)) as Hb'.
  { intros j Hj. destruct (decide (id_key i (req_ID r) = Some j)) as [E|Hne].
    - unfold id_key in E. destruct (ID_IsEmpty _); inversion E. lia.
    - rewrite lookup_insert_ne in Hj by exact Hne. specialize (Hb j Hj). lia. }
  rewrite (IH _ _ Hb'). unfold has_id, id_key. destruct (ID_IsEmpty (req_ID r)); cbn [negb orb].
  - rewrite lookup_insert_eq, decide_False by discriminate. fold (with_id rs). unfold with_id, has_id. destruct (m !! None) as [x|] eqn:E.
    + rewrite map_size_insert_Some by eauto. lia.
    + rewrite map_size_insert_None by exact E. lia.
  - rewrite lookup_insert_ne, decide_True by (discriminate || reflexivity). cbn [List.length].
    rewrite map_size_insert_None; [unfold with_id, some_without_id, has_id; lia|].
    destruct (m !! Some i) eqn:E; [|reflexivity]. specialize (Hb i ltac:(eauto)). lia.
Qed.

(** The requests a body's map keeps: every request with an id, whatever ids repeat,
    and a single one for all the requests without an id, so a batch with two or more
    id-less requests loses all but the last of them. *)
Theorem mapped_requests_count (requests : list Request) m :
  validateAndMapRequests requests = Ok m -> size m = with_id requests + some_without_id requests.
Proof.
  unfold validateAndMapRequests. destruct (_ =? 0); [discriminate|]. intros [= <-].
  rewrite map_requests_size; [now rewrite lookup_empty, map_size_empty|]. intros j [x Hx]. now rewrite lookup_empty in Hx.
Qed.

Definition two_idless_body : string := dq "[{'jsonrpc':'2.0','method':'a'},{'jsonrpc':'2.0','method':'b','id':7},{'jsonrpc':'2.0','method':'c'}]".

Definition requests_of (body : string) : list Request :=
  match parseRequestsFromBody body with Ok (rs, _) => rs | Err _ => [] end.

Lemma mapped_requests_count_witness :
  List.length (requests_of two_idless_body) = 3 /\
  exists m, validateAndMapRequests (requests_of two_idless_body) = Ok m /\ size m = 2.
Proof.
  split; [vm_compute; reflexivity|]. eexists. split; [vm_compute; reflexivity|].
  rewrite (mapped_requests_count (requests_of two_idless_body)); vm_compute; reflexivity.
Defined.

(** C26: an id survives being written out and read back: integers of 64 bits, valid UTF-8
    strings other than the empty one, and the null id. *)
Theorem id_roundtrip (rid : ID) : id_wf rid -> ID_UnmarshalJSON (ID_MarshalJSON rid) = Some rid.
Proof. apply id_unmarshal_marshal. Qed.

Lemma id_roundtrip_witness : ID_UnmarshalJSON (ID_MarshalJSON (IDInt (-42))) = Some (IDInt (-42)) /\
  ID_UnmarshalJSON (ID_MarshalJSON (IDStr "a-7")) = Some (IDStr "a-7").
Proof. split; apply id_roundtrip; vm_compute; repeat split; (discriminate || reflexivity). Defined.

(** An error object filled in for a request carries exactly that request's id, type
    included, and is valid JSON. *)
Theorem filled_error_has_id (rid : ID) : id_wf rid ->
  responseIDOf (no_response_json rid) = Some rid /\ json_valid (no_response_json rid) = true.
Proof. apply responseIDOf_fill. Qed.

Lemma filled_error_has_id_witness : responseIDOf (no_response_json (IDStr "x")) = Some (IDStr "x").
Proof. apply filled_error_has_id. vm_compute. repeat split; (discriminate || reflexivity). Defined.
