(* ===== verification/RPCTypes.v ===== *)
(** * The RPC types the gateway distinguishes

    The enumeration is generated code of another module (poktroll's shared types):
    its members are the class [RPCTypeMembers], and that they differ is
    [RPCTypeDistinct]. *)

From S2P Require Import Prelude.
From Stdlib Require Import ZArith Lia Bool.
From stdpp Require Import base list.

Open Scope Z_scope.

Class RPCTypeMembers := {
  RPCType_UNKNOWN_RPC : Z;
  RPCType_GRPC : Z;
  RPCType_WEBSOCKET : Z;
  RPCType_JSON_RPC : Z;
  RPCType_REST : Z;
  RPCType_COMET_BFT : Z;
}.

Class RPCTypeDistinct `{RPCTypeMembers} : Prop := {
  rpc_members_nodup :
    NoDup [RPCType_UNKNOWN_RPC; RPCType_GRPC; RPCType_WEBSOCKET; RPCType_JSON_RPC; RPCType_REST; RPCType_COMET_BFT];
}.

(** Any two members at different positions differ. *)
Lemma rpc_member_ne `{RPCTypeDistinct} i j a b :
  [RPCType_UNKNOWN_RPC; RPCType_GRPC; RPCType_WEBSOCKET; RPCType_JSON_RPC; RPCType_REST; RPCType_COMET_BFT] !! i = Some a ->
  [RPCType_UNKNOWN_RPC; RPCType_GRPC; RPCType_WEBSOCKET; RPCType_JSON_RPC; RPCType_REST; RPCType_COMET_BFT] !! j = Some b ->
  i <> j -> a <> b.
Proof. intros Ha Hb Hij <-. apply Hij. eapply NoDup_lookup; [apply rpc_members_nodup|exact Ha|exact Hb]. Qed.

(** The goal [a <> b] for two members. *)
Ltac rpc_ne i j := apply (rpc_member_ne i j); [reflexivity|reflexivity|lia].

(** The position of a member in the list of members. *)
Ltac rpc_index t :=
  lazymatch t with
  | RPCType_UNKNOWN_RPC => constr:(0%nat)
  | RPCType_GRPC => constr:(1%nat)
  | RPCType_WEBSOCKET => constr:(2%nat)
  | RPCType_JSON_RPC => constr:(3%nat)
  | RPCType_REST => constr:(4%nat)
  | RPCType_COMET_BFT => constr:(5%nat)
  end.

(** A concrete enumeration. *)
#[export] Instance demo_members : RPCTypeMembers := {
  RPCType_UNKNOWN_RPC := 0; RPCType_GRPC := 1; RPCType_WEBSOCKET := 2;
  RPCType_JSON_RPC := 3; RPCType_REST := 4; RPCType_COMET_BFT := 5;
}.

#[export] Instance demo_distinct : RPCTypeDistinct.
Proof. split. apply (bool_decide_unpack _). vm_compute. exact I. Qed.
