(* ===== verification/Heuristic.v ===== *)
(** * Response heuristics: qos/heuristic (types.go, structural.go, protocol.go, indicators.go, analyzer.go)

    The gateway decides from the first bytes of a response whether to retry it on
    another supplier.  Bytes are byte strings; confidences are float64 constants.
    [Details], a text for logs and messages, is left out of the result. *)

From S2P Require Import Prelude GoStrings Utf8 Float64 RPCTypes.
From Stdlib Require Import ZArith Lia Bool Ascii String.
From stdpp Require Import base list strings.

Open Scope string_scope.
Open Scope Z_scope.

(** ** types.go *)

Inductive ResponseStructure :=
| StructureValid | StructureEmpty | StructureHTML | StructureXML | StructureNonJSON | StructureMalformed.

#[export] Instance ResponseStructure_eq_dec : EqDecision ResponseStructure.
Proof. solve_decision. Defined.

(** A confidence constant given in hundredths. *)
Definition conf (p : Z) : float64 := f64_frac p 100.

Record AnalysisResult := mkAnalysisResult {
  ShouldRetry : bool;
  Confidence : float64;
  Reason : string;
  Structure : ResponseStructure;
  MatchedPattern : string;
}.

(** The two shapes of most results: no pattern, valid structure. *)
Definition retry_because (p : Z) (reason : string) : AnalysisResult :=
  mkAnalysisResult true (conf p) reason StructureValid "".
Definition keep_because (reason : string) : AnalysisResult :=
  mkAnalysisResult false f_zero reason StructureValid "".

Record AnalyzerConfig := mkAnalyzerConfig {
  MaxPrefixBytes : nat;
  ConfidenceThreshold : float64;
  EnableTier3 : bool;
}.

Definition DefaultConfig : AnalyzerConfig := mkAnalyzerConfig 512 (conf 50) true.

(** ** indicators.go *)

Inductive ErrorCategory :=
| CategoryNone | CategoryHTTPError | CategoryConnectionError | CategoryRateLimit | CategoryAuthError
| CategoryServiceError | CategoryBlockchainError | CategoryProtocolError.

#[export] Instance ErrorCategory_eq_dec : EqDecision ErrorCategory.
Proof. solve_decision. Defined.

Definition ErrorCategory_String (c : ErrorCategory) : string :=
  match c with
  | CategoryNone => "none"
  | CategoryHTTPError => "http_error"
  | CategoryConnectionError => "connection_error"
  | CategoryRateLimit => "rate_limit"
  | CategoryAuthError => "auth_error"
  | CategoryServiceError => "service_error"
  | CategoryBlockchainError => "blockchain_error"
  | CategoryProtocolError => "protocol_error"
  end.

Record errorPattern := mkErrorPattern {
  pattern : string;
  category : ErrorCategory;
  ep_confidence : Z;                (** in hundredths *)
}.

Definition errorPatterns : list errorPattern :=
  [ mkErrorPattern "bad gateway" CategoryHTTPError 95
  ; mkErrorPattern "502 bad gateway" CategoryHTTPError 98
  ; mkErrorPattern "503 service unavailable" CategoryHTTPError 98
  ; mkErrorPattern "504 gateway timeout" CategoryHTTPError 98
  ; mkErrorPattern "500 internal server error" CategoryHTTPError 98
  ; mkErrorPattern "internal server error" CategoryHTTPError 90
  ; mkErrorPattern "service unavailable" CategoryHTTPError 90
  ; mkErrorPattern "gateway timeout" CategoryHTTPError 90
  ; mkErrorPattern "connection refused" CategoryConnectionError 95
  ; mkErrorPattern "connection reset" CategoryConnectionError 95
  ; mkErrorPattern "no route to host" CategoryConnectionError 95
  ; mkErrorPattern "network is unreachable" CategoryConnectionError 95
  ; mkErrorPattern "no such host" CategoryConnectionError 95
  ; mkErrorPattern "dial tcp" CategoryConnectionError 85
  ; mkErrorPattern "write tcp" CategoryConnectionError 85
  ; mkErrorPattern "read tcp" CategoryConnectionError 85
  ; mkErrorPattern "broken pipe" CategoryConnectionError 90
  ; mkErrorPattern "unexpected eof" CategoryConnectionError 85
  ; mkErrorPattern "server closed" CategoryConnectionError 80
  ; mkErrorPattern "tls handshake" CategoryConnectionError 85
  ; mkErrorPattern "certificate" CategoryConnectionError 70
  ; mkErrorPattern "rate limit" CategoryRateLimit 95
  ; mkErrorPattern "rate-limit" CategoryRateLimit 95
  ; mkErrorPattern "ratelimit" CategoryRateLimit 95
  ; mkErrorPattern "too many request" CategoryRateLimit 95
  ; mkErrorPattern "quota exceeded" CategoryRateLimit 90
  ; mkErrorPattern "throttl" CategoryRateLimit 85
  ; mkErrorPattern "offchain rate limit hit by relayer proxy" CategoryRateLimit 99
  ; mkErrorPattern "session relay limit reached" CategoryRateLimit 99
  ; mkErrorPattern "claimable portion fully consumed" CategoryRateLimit 99
  ; mkErrorPattern "unauthorized" CategoryAuthError 90
  ; mkErrorPattern "forbidden" CategoryAuthError 90
  ; mkErrorPattern "access denied" CategoryAuthError 90
  ; mkErrorPattern "invalid api key" CategoryAuthError 95
  ; mkErrorPattern "authentication failed" CategoryAuthError 95
  ; mkErrorPattern "not authorized" CategoryAuthError 90
  ; mkErrorPattern "api key is not allowed" CategoryAuthError 95
  ; mkErrorPattern "service not configured" CategoryServiceError 95
  ; mkErrorPattern "service endpoint not handled" CategoryServiceError 95
  ; mkErrorPattern "backend service" CategoryServiceError 80
  ; mkErrorPattern "upstream error" CategoryServiceError 85
  ; mkErrorPattern "proxy error" CategoryServiceError 85
  ; mkErrorPattern "supplier" CategoryServiceError 60
  ; mkErrorPattern "proto: illegal wiretype" CategoryProtocolError 95
  ; mkErrorPattern "proto: relayrequest" CategoryProtocolError 95
  ; mkErrorPattern "mdbx_panic" CategoryBlockchainError 98
  ; mkErrorPattern "missing trie node" CategoryBlockchainError 95
  ; mkErrorPattern "metadata is not found" CategoryBlockchainError 95
  ; mkErrorPattern "excluded from account secondary indexes" CategoryBlockchainError 95
  ; mkErrorPattern "failed to call fallback" CategoryBlockchainError 95
  ; mkErrorPattern "state has been pruned" CategoryBlockchainError 95
  ; mkErrorPattern "is pruned" CategoryBlockchainError 95
  ; mkErrorPattern "state not available" CategoryBlockchainError 90
  ; mkErrorPattern "haven't been fully indexed" CategoryBlockchainError 95
  ; mkErrorPattern "not been fully indexed" CategoryBlockchainError 95
  ; mkErrorPattern "historical state" CategoryBlockchainError 85
  ; mkErrorPattern "node is behind" CategoryBlockchainError 90
  ; mkErrorPattern "node is unhealthy" CategoryBlockchainError 95
  ; mkErrorPattern "block has been pruned" CategoryBlockchainError 95
  ; mkErrorPattern "height is not available" CategoryBlockchainError 90 ].

Record IndicatorResult := mkIndicatorResult {
  Found : bool;
  Category : ErrorCategory;
  Pattern : string;
  ir_Confidence : float64;
}.

Definition no_indicator : IndicatorResult := mkIndicatorResult false CategoryNone "" f_zero.

(** One round of the search: a match replaces the best one when it is strictly more
    confident. *)
Definition consider (content : string) (best : IndicatorResult) (ep : errorPattern) : IndicatorResult :=
  if str_contains content (pattern ep) then
    if fgtb (conf (ep_confidence ep)) (ir_Confidence best)
    then mkIndicatorResult true (category ep) (pattern ep) (conf (ep_confidence ep)) else best
  else best.

Definition IndicatorAnalysis `{UnicodeCase} (content : string) (alreadyLowercased : bool) : IndicatorResult :=
  let searchContent := if negb alreadyLowercased then to_lower_u content else content in
  fold_left (consider searchContent) errorPatterns no_indicator.

Definition IndicatorAnalysisToResult (ir : IndicatorResult) : AnalysisResult :=
  if negb (Found ir) then keep_because "no_error_indicators"
  else mkAnalysisResult true (ir_Confidence ir) ("error_indicator_" +:+ ErrorCategory_String (Category ir)) StructureValid (Pattern ir).

Definition str_mem (x : string) (l : list string) : bool := existsb (String.eqb x) l.

Definition archivalPatterns : list string :=
  ["historical state"; "state has been pruned"; "is pruned"; "state not available";
   "haven't been fully indexed"; "not been fully indexed"; "missing trie node"; "metadata is not found";
   "block has been pruned"; "height is not available"].

Definition IsArchivalRelatedError (p : string) : bool := str_mem p archivalPatterns.

Definition IsCapabilityLimitationError (p : string) : bool :=
  if IsArchivalRelatedError p then true
  else str_mem p ["capability_limitation"; "excluded from account secondary indexes"].

Definition providerAuthErrorPatterns : list string :=
  ["api key is not allowed"; "invalid api key"].

Definition IsProviderAuthError (p : string) : bool := existsb (fun q => p =? q)%string providerAuthErrorPatterns.

Definition overServicedPatterns : list string :=
  ["offchain rate limit hit by relayer proxy"; "session relay limit reached";
   "claimable portion fully consumed"].

Definition IsOverServicedError `{UnicodeCase} (patternOrPayload : string) : bool :=
  let lower := to_lower_u patternOrPayload in
  existsb (str_contains lower) overServicedPatterns.

Definition IsOverServicedRelayMinerError (codespace : string) (code : Z) : bool :=
  (codespace =? "relayer_proxy")%string && (code =? 7).

Definition capabilityLimitationSubstrings : list string :=
  ["historical state"; "state has been pruned"; "is pruned"; "state not available";
   "haven't been fully indexed"; "not been fully indexed"; "missing trie node";
   "metadata is not found"; "block has been pruned"; "height is not available";
   "is not available, lowest height"; "lite fullnode"; "api is not supported";
   "excluded from account secondary indexes"; "rest_protocol_mismatch_error"].

Definition ErrorContainsArchivalPattern `{UnicodeCase} (errStr : string) : bool :=
  let lower := to_lower_u errStr in
  existsb (str_contains lower) capabilityLimitationSubstrings.

Definition QuickErrorCheck (contentLower : string) : bool :=
  existsb (str_contains contentLower)
    ["bad gateway"; "internal server"; "service unavailable"; "connection refused"; "rate limit"; "unauthorized"; "error"].

(** ** structural.go *)

Definition isWhitespace (b : ascii) : bool :=
  Ascii.eqb b " " || Ascii.eqb b "009" || Ascii.eqb b "010" || Ascii.eqb b "013".

Definition classifyMarkup `{UnicodeCase} (data : string) : ResponseStructure :=
  let prefix := to_lower_u (str_take 50 data) in
  if str_contains prefix "<html" || str_contains prefix "<!doctype" then StructureHTML
  else if has_prefix "<?xml" prefix then StructureXML
  else StructureHTML.

Fixpoint last_byte (d : ascii) (s : string) : ascii :=
  match s with EmptyString => d | String c s' => last_byte c s' end.

(** [data] is not empty: [firstByte] is its first byte. *)
Definition classifyJSONLike (firstByte : ascii) (data : string) : ResponseStructure :=
  if (String.length data <? 50)%nat then
    let trimmed := trim_right_while isWhitespace data in
    let lastByte := last_byte (last_byte firstByte data) trimmed in
    if Ascii.eqb firstByte "{" && negb (Ascii.eqb lastByte "}") then StructureMalformed
    else if Ascii.eqb firstByte "[" && negb (Ascii.eqb lastByte "]") then StructureMalformed
    else StructureValid
  else StructureValid.

Definition ClassifyStructure `{UnicodeCase} (responseBytes : string) : ResponseStructure :=
  match responseBytes with
  | EmptyString => StructureEmpty
  | String c _ =>
      match (if isWhitespace c then trim_left_while isWhitespace responseBytes else responseBytes) with
      | EmptyString => StructureEmpty
      | String firstByte _ as data =>
          if Ascii.eqb firstByte "<" then classifyMarkup data
          else if Ascii.eqb firstByte "{" || Ascii.eqb firstByte "[" then classifyJSONLike firstByte data
          else StructureNonJSON
      end
  end.

Definition capabilityLimitationPatterns : list string :=
  ["lite fullnode"; "api is not supported"].

Definition isCapabilityLimitationText `{UnicodeCase} (content : string) : bool :=
  existsb (str_contains (to_lower_u content)) capabilityLimitationPatterns.

Definition matchProviderAuthText `{UnicodeCase} (content : string) : string :=
  default "" (find (str_contains (to_lower_u content)) providerAuthErrorPatterns).

Definition StructuralAnalysis `{UnicodeCase} (responseBytes : string) : AnalysisResult :=
  let structure := ClassifyStructure responseBytes in
  match structure with
  | StructureEmpty => mkAnalysisResult true (conf 100) "empty_response" structure ""
  | StructureHTML => mkAnalysisResult true (conf 99) "html_error_page" structure ""
  | StructureXML => mkAnalysisResult true (conf 95) "xml_response" structure ""
  | StructureNonJSON =>
      let p := matchProviderAuthText responseBytes in
      if negb (p =? "")%string then mkAnalysisResult true (conf 95) "non_json_provider_auth_error" structure p
      else if isCapabilityLimitationText responseBytes
           then mkAnalysisResult true (conf 95) "non_json_capability_limitation" structure "capability_limitation"
           else mkAnalysisResult true (conf 95) "non_json_response" structure ""
  | StructureMalformed => mkAnalysisResult true (conf 90) "malformed_json" structure ""
  | StructureValid => mkAnalysisResult false f_zero "valid_structure" structure ""
  end.

(** ** protocol.go *)

Definition restEmptyObjectValidPathPrefixes : list string :=
  ["/wallet/"; "/walletsolidity/"; "/cosmos/"].

Definition cometBFTPathPrefixes : list string :=
  ["/health"; "/status"; "/block"; "/commit"; "/validators"; "/genesis"; "/net_info";
   "/consensus_state"; "/dump_consensus_state"; "/num_unconfirmed_txs"; "/tx"; "/tx_search";
   "/block_search"; "/block_results"; "/header"; "/abci_info"; "/abci_query"; "/broadcast_tx";
   "/subscribe"; "/unsubscribe"].

(** The keys of cometBFTMethods. *)
Definition CometBFTMethodList : list string :=
  ["health"; "status"; "block"; "commit"; "validators"; "genesis"; "net_info"; "consensus_state";
   "dump_consensus_state"; "num_unconfirmed_txs"; "tx"; "tx_search"; "block_search";
   "block_results"; "header"; "header_by_hash"; "abci_info"; "abci_query"; "broadcast_tx_sync";
   "broadcast_tx_async"; "broadcast_tx_commit"; "subscribe"; "unsubscribe"; "unsubscribe_all"].

Definition isCometBFTPath (path : string) : bool := existsb (fun p => has_prefix p path) cometBFTPathPrefixes.

Definition isCometBFTMethod (method : string) : bool :=
  if str_mem method CometBFTMethodList then true
  else if has_prefix "/" method then str_mem (str_drop 1 method) CometBFTMethodList
  else false.

Definition emptyArrayValidMethods : list string :=
  ["eth_getLogs"; "eth_getFilterChanges"; "eth_getFilterLogs"; "eth_accounts";
   "eth_getBlockReceipts"; "trace_filter"; "trace_block"; "trace_replayBlockTransactions";
   "trace_callMany"; "debug_getBadBlocks"; "debug_traceBlockByNumber"; "debug_traceBlockByHash";
   "debug_traceBlock"; "debug_getModifiedAccountsByNumber"; "debug_getModifiedAccountsByHash";
   "debug_traceCallMany"; "sei_getLogs"; "sei_getFilterChanges"; "sei_getFilterLogs";
   "sei_getBlockReceipts"; "getBlocks"; "getBlocksWithLimit"; "getConfirmedBlocks";
   "getConfirmedBlocksWithLimit"; "getSignaturesForAddress"; "getConfirmedSignaturesForAddress2";
   "getRecentPerformanceSamples"; "getClusterNodes"; "getRecentPrioritizationFees";
   "getProgramAccounts"; "getInflationReward"; "getSlotLeaders"].

(** A JSON key in quotes, as it is searched for in the bytes. *)
Definition quoted (s : string) : string := String "034" (s +:+ String "034" "").

Definition jsonrpcResultField : string := quoted "result".
Definition jsonrpcResultNull : string := quoted "result" +:+ ":null".
Definition jsonrpcErrorField : string := quoted "error".
Definition jsonrpcVersionField : string := quoted "jsonrpc".

Definition serviceErrorMessages : list string :=
  map quoted
    ["service unavailable"; "bad gateway"; "gateway timeout"; "upstream connect error";
   "connection refused"; "connection reset"; "no healthy upstream"; "backend unavailable";
   "proxy error"].

Definition containsServiceErrorMessage `{UnicodeCase} (prefix : string) : bool :=
  existsb (str_contains (to_lower_u prefix)) serviceErrorMessages.

(** The bytes after the first occurrence of [field] and its colon, spaces skipped. *)
Definition after_field (field prefix : string) : option string :=
  match str_index field prefix with
  | None => None
  | Some idx =>
      match trim_left_while isWhitespace (str_drop (idx + String.length field) prefix) with
      | String ":" after => Some (trim_left_while isWhitespace after)
      | _ => None
      end
  end.

Inductive emptyResultKind := notEmpty | emptyArray | emptyObject.

#[export] Instance emptyResultKind_eq_dec : EqDecision emptyResultKind.
Proof. solve_decision. Defined.

Definition emptyResultType (prefix : string) : emptyResultKind :=
  match after_field jsonrpcResultField prefix with
  | Some (String c0 (String c1 _)) =>
      if Ascii.eqb c0 "[" && Ascii.eqb c1 "]" then emptyArray
      else if Ascii.eqb c0 "{" && Ascii.eqb c1 "}" then emptyObject
      else notEmpty
  | _ => notEmpty
  end.

Definition isTopLevelJSONRPCError (prefix : string) : bool :=
  match after_field jsonrpcErrorField prefix with
  | Some (String c _) => Ascii.eqb c "{"
  | _ => false
  end.

Definition IsJSONRPCLikeSuccess (prefix : string) : bool :=
  str_contains prefix jsonrpcResultField && negb (str_contains prefix jsonrpcErrorField).

Definition HasErrorField (prefix : string) : bool := str_contains prefix jsonrpcErrorField.

Definition isRESTEmptyObjectValid `{UnicodeCase} (requestPath : string) : bool :=
  if (requestPath =? "")%string then false
  else existsb (fun p => has_prefix p (to_lower_u requestPath)) restEmptyObjectValidPathPrefixes.

Section Protocol.
Context `{UnicodeCase} `{RPCTypeMembers}.

Definition analyzeJSONRPC (prefix : string) (fullLength : nat) (rpcType : Z) (jsonrpcMethod : string) : AnalysisResult :=
  let hasError := str_contains prefix jsonrpcErrorField in
  let hasVersion := str_contains prefix jsonrpcVersionField in
  let hasResult := str_contains prefix jsonrpcResultField in
  let hasResult := if hasResult && hasError && str_contains prefix jsonrpcResultNull then false else hasResult in
  if hasResult && negb hasError then
    let emptyType := emptyResultType prefix in
    if bool_decide (emptyType = emptyObject) && negb (rpcType =? RPCType_COMET_BFT) && negb (isCometBFTMethod jsonrpcMethod)
    then retry_because 95 "jsonrpc_empty_object_result"
    else if bool_decide (emptyType = emptyArray) && (rpcType =? RPCType_COMET_BFT)
    then retry_because 95 "cometbft_invalid_empty_array"
    else if bool_decide (emptyType = emptyArray) && negb (jsonrpcMethod =? "")%string && negb (str_mem jsonrpcMethod emptyArrayValidMethods)
    then retry_because 95 "jsonrpc_invalid_empty_array"
    else keep_because "jsonrpc_success"
  else if hasError && negb hasResult && hasVersion then
    if str_contains prefix (quoted "code" +:+ ":-32700") then retry_because 98 "jsonrpc_fabricated_parse_error"
    else if str_contains prefix (quoted "code" +:+ ":-32603") && containsServiceErrorMessage prefix
    then retry_because 95 "jsonrpc_wrapped_service_error"
    else keep_because "jsonrpc_valid_error"
  else if hasResult && hasError then
    if isTopLevelJSONRPCError prefix then retry_because 95 "jsonrpc_both_result_and_error"
    else keep_because "jsonrpc_success"
  else if hasError && negb hasVersion then retry_because 80 "error_without_jsonrpc_version"
  else if negb hasResult && negb hasError then
    if hasVersion && (fullLength <? 500)%nat then retry_because 85 "jsonrpc_missing_result_and_error"
    else if (fullLength <? 100)%nat then retry_because 70 "small_no_result"
    else mkAnalysisResult false (conf 30) "large_no_result_in_prefix" StructureValid ""
  else keep_because "jsonrpc_indeterminate".

(** [{}] with spaces dropped. *)
Definition is_empty_object (b : string) : bool :=
  String.eqb (map_runes (fun r => if (r =? 32) || (r =? 9) || (r =? 10) || (r =? 13) then -1 else r) b) "{}".

Definition analyzeREST (prefix : string) (fullLength : nat) (requestPath : string) : AnalysisResult :=
  if (fullLength <=? 10)%nat && is_empty_object (str_take fullLength prefix) && negb (isRESTEmptyObjectValid requestPath)
  then retry_because 80 "rest_empty_object"
  else if str_contains prefix jsonrpcVersionField && negb (isCometBFTPath requestPath) then
    let hasJSONRPCError := str_contains prefix jsonrpcErrorField in
    let hasJSONRPCResult := str_contains prefix jsonrpcResultField && negb (str_contains prefix jsonrpcResultNull) in
    if hasJSONRPCError && negb hasJSONRPCResult
    then mkAnalysisResult true (conf 95) "rest_protocol_mismatch_error" StructureValid "capability_limitation"
    else retry_because 95 "rest_protocol_mismatch"
  else
    let hasCode := str_contains prefix (quoted "code") in
    let hasMessage := str_contains prefix (quoted "message") in
    if match str_index jsonrpcErrorField prefix with Some errorIdx => (errorIdx <? 50)%nat | None => false end
    then retry_because 85 "rest_error_field"
    else if hasCode && hasMessage && negb (str_contains prefix (quoted "data")) && (fullLength <? 200)%nat
    then retry_because 75 "rest_code_message_error"
    else keep_because "rest_no_error_indicator".

Definition ProtocolAnalysis (prefix : string) (fullLength : nat) (rpcType : Z) (jsonrpcMethod : string) : AnalysisResult :=
  if rpcType =? RPCType_JSON_RPC then analyzeJSONRPC prefix fullLength rpcType jsonrpcMethod
  else if rpcType =? RPCType_REST then analyzeREST prefix fullLength jsonrpcMethod
  else if rpcType =? RPCType_COMET_BFT then analyzeJSONRPC prefix fullLength rpcType jsonrpcMethod
  else if rpcType =? RPCType_WEBSOCKET then analyzeJSONRPC prefix fullLength rpcType jsonrpcMethod
  else keep_because "unknown_protocol".

(** The longest prefix of digits and minus signs. *)
Fixpoint take_number (s : string) : string :=
  match s with
  | String c s' => if in_range 48 57 c || Ascii.eqb c "-" then String c (take_number s') else ""
  | EmptyString => ""
  end.

(** [""] stands for "not found". *)
Definition extractResponseID (prefix : string) : string :=
  match after_field (quoted "id") prefix with
  | None | Some EmptyString => ""
  | Some (String c rest as after) =>
      if has_prefix "null" after then "null"
      else if Ascii.eqb c "034" then
        match index_byte "034" rest with
        | None => ""
        | Some e => str_take (e + 2) after
        end
      else take_number after
  end.

Definition CheckRequestIDMismatch (responsePrefix requestID : string) : option AnalysisResult :=
  if (requestID =? "")%string || (requestID =? "null")%string then None
  else let responseID := extractResponseID responsePrefix in
       if (responseID =? "")%string then None
       else if (responseID =? "null")%string then Some (retry_because 99 "jsonrpc_id_mismatch")
       else None.

(** ** analyzer.go *)

Definition analyzeHTTPStatus (statusCode : Z) : AnalysisResult :=
  if (400 <=? statusCode) && (statusCode <? 500) then retry_because 100 "http_4xx"
  else if 500 <=? statusCode then retry_because 100 "http_5xx"
  else keep_because "http_success".

Definition isBodylessHTTPStatus (statusCode : Z) : bool :=
  (statusCode =? 204) || (statusCode =? 205) || (statusCode =? 304).

(** The part of Analyze after the structural check. *)
Definition analyze_payload (cfg : AnalyzerConfig) (responseBytes : string) (httpStatusCode rpcType : Z) (jsonrpcMethod : string) : AnalysisResult :=
  let statusResult := analyzeHTTPStatus httpStatusCode in
  let prefix := str_take (MaxPrefixBytes cfg) responseBytes in
  let protocolResult := ProtocolAnalysis prefix (String.length responseBytes) rpcType jsonrpcMethod in
  if (400 <=? httpStatusCode) && (httpStatusCode <? 500) && negb (httpStatusCode =? 429) then
    if (Reason protocolResult =? "jsonrpc_valid_error")%string || (Reason protocolResult =? "jsonrpc_success")%string
    then protocolResult else statusResult
  else if fgeb (Confidence protocolResult) (ConfidenceThreshold cfg) then protocolResult
  else if (Reason protocolResult =? "jsonrpc_valid_error")%string then
    let indicatorResult := IndicatorAnalysis (to_lower_u prefix) true in
    if Found indicatorResult && bool_decide (Category indicatorResult = CategoryBlockchainError)
    then IndicatorAnalysisToResult indicatorResult
    else if Found indicatorResult && IsProviderAuthError (Pattern indicatorResult)
    then IndicatorAnalysisToResult indicatorResult
    else protocolResult
  else if (Reason protocolResult =? "jsonrpc_success")%string then protocolResult
  else
    let indicatorResult := IndicatorAnalysis (to_lower_u prefix) true in
    if EnableTier3 cfg && Found indicatorResult && fgeb (ir_Confidence indicatorResult) (ConfidenceThreshold cfg)
    then IndicatorAnalysisToResult indicatorResult
    else keep_because "likely_valid".

Definition Analyze (cfg : AnalyzerConfig) (responseBytes : string) (httpStatusCode rpcType : Z) (jsonrpcMethod : string) : AnalysisResult :=
  let statusResult := analyzeHTTPStatus httpStatusCode in
  if ShouldRetry statusResult && ((500 <=? httpStatusCode) || (httpStatusCode =? 429)) then statusResult
  else if (responseBytes =? "")%string && isBodylessHTTPStatus httpStatusCode then keep_because "no_body_expected"
  else
    let structResult := StructuralAnalysis responseBytes in
    if ShouldRetry structResult then structResult
    else if negb (bool_decide (Structure structResult = StructureValid)) then structResult
    else analyze_payload cfg responseBytes httpStatusCode rpcType jsonrpcMethod.

Definition AnalyzeQuick (responseBytes : string) (httpStatusCode : Z) : AnalysisResult :=
  if 400 <=? httpStatusCode then retry_because 100 "http_error"
  else match responseBytes with
       | EmptyString => mkAnalysisResult true (conf 100) "empty" StructureEmpty ""
       | String firstByte _ =>
           if negb (Ascii.eqb firstByte "{") && negb (Ascii.eqb firstByte "[") && negb (Ascii.eqb firstByte " ") && negb (Ascii.eqb firstByte "010")
           then mkAnalysisResult true (conf 90) "non_json" StructureNonJSON ""
           else if QuickErrorCheck (to_lower_u (str_take 256 responseBytes))
           then retry_because 75 "quick_error_pattern"
           else keep_because "quick_pass"
       end.

Definition should_retry (responseBytes : string) (httpStatusCode rpcType : Z) (jsonrpcMethod : string) : bool :=
  ShouldRetry (Analyze DefaultConfig responseBytes httpStatusCode rpcType jsonrpcMethod).
End Protocol.
