(* ===== verification/HeuristicProps.v ===== *)
(** * Theorems on the response heuristics *)

From S2P Require Import Prelude GoStrings Utf8 Float64 RPCTypes Heuristic.
From Stdlib Require Import ZArith Lia Bool Ascii String.
From stdpp Require Import base list strings.

Open Scope string_scope.
Open Scope Z_scope.

(** ** The indicator search *)

(** [ep] is what the search found. *)
Definition found_as (ep : errorPattern) (r : IndicatorResult) : Prop :=
  r = mkIndicatorResult true (category ep) (pattern ep) (conf (ep_confidence ep)).

(** The search over any table of patterns of positive confidence: nothing matched
    and nothing was found, or a matching pattern of the greatest confidence was. *)
Definition search_ok (content : string) (l : list errorPattern) (r : IndicatorResult) : Prop :=
  (r = no_indicator /\ forall ep, In ep l -> str_contains content (pattern ep) = false) \/
  (exists ep, In ep l /\ str_contains content (pattern ep) = true /\ found_as ep r /\
     forall ep', In ep' l -> str_contains content (pattern ep') = true ->
       fleb (conf (ep_confidence ep')) (conf (ep_confidence ep)) = true).

Definition positive_conf (ep : errorPattern) : bool := fltb f_zero (conf (ep_confidence ep)).

Lemma consider_ok content l ep r :
  positive_conf ep = true -> search_ok content l r -> search_ok content (l ++ [ep]) (consider content r ep).
Proof.
  intros Hp Hr. unfold consider. destruct (str_contains content (pattern ep)) eqn:Ec.
  - destruct Hr as [[-> Hnone]|(ep0 & Hin & Hc & Hf & Hmax)]; try (unfold found_as in Hf; subst r).
    + unfold fgtb. cbn [ir_Confidence no_indicator]. unfold positive_conf in Hp. rewrite Hp. right. exists ep.
      rewrite in_app_iff. split; [right; now left|]. split; [exact Ec|]. split; [reflexivity|].
      intros ep' [Hi|[<-|[]]]%in_app_iff Hc'; [rewrite (Hnone _ Hi) in Hc'; discriminate|].
      apply fleb_refl. now apply (fltb_not_nan f_zero).
    + cbn [ir_Confidence]. unfold fgtb. destruct (fltb (conf (ep_confidence ep0)) (conf (ep_confidence ep))) eqn:Elt.
      * right. exists ep. rewrite in_app_iff. split; [right; now left|]. split; [exact Ec|]. split; [reflexivity|].
        intros ep' [Hi|[<-|[]]]%in_app_iff Hc'.
        -- eapply fleb_trans; [now apply Hmax|now apply fltb_fleb].
        -- apply fleb_refl. apply (fltb_not_nan _ _ Elt).
      * right. exists ep0. rewrite in_app_iff. split; [now left|]. split; [exact Hc|]. split; [reflexivity|].
        intros ep' [Hi|[<-|[]]]%in_app_iff Hc'; [now apply Hmax|].
        apply fltb_false_fleb in Elt; [exact Elt| |].
        -- pose proof (Hmax ep0 Hin Hc) as Hm. now apply fleb_not_nan in Hm.
        -- now apply (fltb_not_nan f_zero).
  - destruct Hr as [[-> Hnone]|(ep0 & Hin & Hc & Hf & Hmax)]; [left|right; unfold found_as in Hf; subst r].
    + split; [reflexivity|]. intros ep' [Hi|[<-|[]]]%in_app_iff; auto.
    + exists ep0. rewrite in_app_iff. split; [now left|]. split; [exact Hc|]. split; [reflexivity|].
      intros ep' [Hi|[<-|[]]]%in_app_iff Hc'; [now apply Hmax|congruence].
Qed.

Lemma search_fold content l : forallb positive_conf l = true -> forall l0 r,
  search_ok content l0 r -> search_ok content (l0 ++ l) (fold_left (consider content) l r).
Proof.
  induction l as [|ep l IH]; intros Hp l0 r Hr; [now rewrite app_nil_r|].
  cbn in Hp. apply andb_true_iff in Hp as [He Hl]. cbn [fold_left].
  change (ep :: l) with ([ep] ++ l)%list. rewrite app_assoc. apply IH; [exact Hl|]. now apply consider_ok.
Qed.

Lemma errorPatterns_positive : forallb positive_conf errorPatterns = true.
Proof. vm_compute. reflexivity. Qed.

Lemma indicator_ok `{UnicodeCase} content :
  search_ok content errorPatterns (IndicatorAnalysis content true).
Proof. apply (search_fold content errorPatterns errorPatterns_positive [] no_indicator). left. split; [reflexivity|intros ? []]. Qed.

(** ** Verdicts and confidences agree *)

(** The verdict is a retry exactly when the confidence reaches the threshold. *)
Definition agrees (r : AnalysisResult) : Prop := ShouldRetry r = fgeb (Confidence r) (conf 50).

Lemma agrees_mk p reason st pat : fgeb (conf p) (conf 50) = true -> agrees (mkAnalysisResult true (conf p) reason st pat).
Proof. intros Hp. unfold agrees. cbn. now rewrite Hp. Qed.

Lemma agrees_keep reason : agrees (keep_because reason).
Proof. reflexivity. Qed.

Lemma agrees_low reason st pat : agrees (mkAnalysisResult false (conf 30) reason st pat).
Proof. reflexivity. Qed.

Create HintDb heur discriminated.
#[local] Hint Resolve agrees_keep agrees_low : heur.
#[local] Hint Extern 1 (agrees (retry_because _ _)) => (apply agrees_mk; vm_compute; reflexivity) : heur.
#[local] Hint Extern 1 (agrees (mkAnalysisResult true _ _ _ _)) => (apply agrees_mk; vm_compute; reflexivity) : heur.

Lemma structural_agrees `{UnicodeCase} b : agrees (StructuralAnalysis b).
Proof. unfold StructuralAnalysis. cbv zeta. destruct (ClassifyStructure b); repeat case_if; auto with heur. reflexivity. Qed.

Section Verdicts.
Context `{UnicodeCase} `{RPCTypeMembers}.

Lemma status_agrees s : agrees (analyzeHTTPStatus s).
Proof. unfold analyzeHTTPStatus. repeat case_if; auto with heur. Qed.

Lemma protocol_agrees prefix n t m : agrees (ProtocolAnalysis prefix n t m).
Proof.
  unfold ProtocolAnalysis. repeat match goal with |- agrees (if ?b then _ else _) => destruct b end; auto with heur;
    unfold analyzeJSONRPC, analyzeREST; cbv zeta; repeat case_if; auto with heur.
Qed.

(** The categories the analyzer acts on have confidences above the threshold. *)
Lemma acted_on_confident :
  forallb (fun ep => if bool_decide (category ep = CategoryBlockchainError) || IsProviderAuthError (pattern ep)
                     then fgeb (conf (ep_confidence ep)) (conf 50) else true) errorPatterns = true.
Proof. vm_compute. reflexivity. Qed.

Lemma indicator_agrees content :
  let ir := IndicatorAnalysis content true in
  Found ir = true -> bool_decide (Category ir = CategoryBlockchainError) || IsProviderAuthError (Pattern ir) = true ->
  agrees (IndicatorAnalysisToResult ir).
Proof.
  cbv zeta. intros Hf Hc. destruct (indicator_ok content) as [[E _]|(ep & Hin & _ & E & _)]; try unfold found_as in E; rewrite E in *; [discriminate|].
  pose proof acted_on_confident as Ha. rewrite forallb_forall in Ha. specialize (Ha ep Hin). cbn [Category Pattern] in Hc. cbv beta in Ha. rewrite Hc in Ha.
  unfold agrees, IndicatorAnalysisToResult. cbn. now rewrite Ha.
Qed.

Lemma payload_agrees b s t m : agrees (analyze_payload DefaultConfig b s t m).
Proof.
  unfold analyze_payload. cbv zeta. set (prefix := str_take _ b). set (pr := ProtocolAnalysis _ _ _ _).
  set (ir := IndicatorAnalysis (to_lower_u prefix) true).
  assert (agrees pr) as Hpr by apply protocol_agrees.
  destruct ((400 <=? s) && (s <? 500) && negb (s =? 429)); [case_if; [exact Hpr|apply status_agrees]|].
  destruct (fgeb (Confidence pr) (ConfidenceThreshold DefaultConfig)); [exact Hpr|].
  destruct (Reason pr =? "jsonrpc_valid_error")%string.
  { destruct (Found ir && bool_decide (Category ir = CategoryBlockchainError)) eqn:E1.
    { apply andb_true_iff in E1 as [Hf Hb]. apply indicator_agrees; [exact Hf|]. fold ir. now rewrite Hb. }
    destruct (Found ir && IsProviderAuthError (Pattern ir)) eqn:E2; [|exact Hpr].
    apply andb_true_iff in E2 as [Hf Hb]. apply indicator_agrees; [exact Hf|]. fold ir. now rewrite Hb, orb_true_r. }
  destruct (Reason pr =? "jsonrpc_success")%string; [exact Hpr|].
  destruct (EnableTier3 DefaultConfig && Found ir && fgeb (ir_Confidence ir) _) eqn:E3; [|apply agrees_keep].
  apply andb_true_iff in E3 as [[_ Hf]%andb_true_iff Hc]. unfold agrees, IndicatorAnalysisToResult. rewrite Hf. cbn [negb ShouldRetry Confidence].
  symmetry. exact Hc.
Qed.

Lemma analyze_agrees b s t m : agrees (Analyze DefaultConfig b s t m).
Proof.
  unfold Analyze. cbv zeta. case_if; [apply status_agrees|]. case_if; [apply agrees_keep|].
  case_if; [apply structural_agrees|]. case_if; [apply structural_agrees|]. apply payload_agrees.
Qed.

(** ** What the verdict depends on *)

Lemma structure_of_json b c rest :
  b = String c rest -> Ascii.eqb c "{" || Ascii.eqb c "[" = true -> (50 <= String.length b)%nat ->
  StructuralAnalysis b = mkAnalysisResult false f_zero "valid_structure" StructureValid "".
Proof.
  intros -> Hc Hl. unfold StructuralAnalysis.
  assert (ClassifyStructure (String c rest) = StructureValid) as ->; [|reflexivity].
  unfold ClassifyStructure.
  assert (isWhitespace c = false /\ Ascii.eqb c "<" = false) as [-> ->].
  { apply orb_true_iff in Hc as [Hc|Hc]; apply Ascii.eqb_eq in Hc; subst; now split. }
  rewrite Hc. unfold classifyJSONLike. now destruct (Nat.ltb_spec (String.length (String c rest)) 50); [lia|].
Qed.
End Verdicts.

(** ** Theorems *)

(** With the default configuration the analyzer asks for a retry exactly when
    its confidence reaches the threshold, for every response, status and RPC type. *)
Theorem verdict_matches_confidence `{UnicodeCase} `{RPCTypeMembers} b status rpcType method :
  let r := Analyze DefaultConfig b status rpcType method in
  ShouldRetry r = fgeb (Confidence r) (ConfidenceThreshold DefaultConfig).
Proof. apply analyze_agrees. Qed.

(** Only the over-serviced phrases have the top confidence. *)
Lemma top_confidence :
  forallb (fun ep => if fleb (conf 99) (conf (ep_confidence ep)) then str_mem (pattern ep) overServicedPatterns else true) errorPatterns = true.
Proof. vm_compute. reflexivity. Qed.

Lemma over_serviced_listed :
  forallb (fun p => existsb (fun ep => (pattern ep =? p)%string && fleb (conf 99) (conf (ep_confidence ep))) errorPatterns) overServicedPatterns = true.
Proof. vm_compute. reflexivity. Qed.

(** A content that holds one of the relay miner's over-servicing phrases is
    reported under such a phrase, whatever other error patterns it also holds: the
    supplier is not blamed for the application's exhausted stake. *)
Theorem over_serviced_takes_precedence `{UnicodeCase} content :
  existsb (str_contains content) overServicedPatterns = true ->
  let r := IndicatorAnalysis content true in
  Found r = true /\ str_mem (Pattern r) overServicedPatterns = true /\ Category r <> CategoryBlockchainError.
Proof.
  intros Hc. cbv zeta. apply existsb_exists in Hc as (p & Hp & Hcp).
  pose proof over_serviced_listed as Hl. rewrite forallb_forall in Hl. specialize (Hl p Hp).
  apply existsb_exists in Hl as (ep0 & Hin0 & [E0 H99]%andb_true_iff). apply String.eqb_eq in E0. subst p.
  destruct (indicator_ok content) as [[_ Hnone]|(ep & Hin & _ & E & Hmax)]; [rewrite (Hnone _ Hin0) in Hcp; discriminate|].
  unfold found_as in E. rewrite E. cbn [Found Pattern Category].
  pose proof (fleb_trans _ _ _ H99 (Hmax ep0 Hin0 Hcp)) as Htop.
  pose proof top_confidence as Ht. rewrite forallb_forall in Ht. specialize (Ht ep Hin). cbv beta in Ht. rewrite Htop in Ht.
  split; [reflexivity|]. split; [exact Ht|].
  assert (forallb (fun ep => negb (str_mem (pattern ep) overServicedPatterns && bool_decide (category ep = CategoryBlockchainError))) errorPatterns = true) as Hb by (vm_compute; reflexivity).
  rewrite forallb_forall in Hb. specialize (Hb ep Hin). cbv beta in Hb. rewrite Ht in Hb. intros Hcat.
  now rewrite (bool_decide_eq_true_2 _ Hcat) in Hb.
Qed.

#[export] Instance ident_case : UnicodeCase := { lower_rune := fun r => r }.

Lemma over_serviced_takes_precedence_witness :
  let r := IndicatorAnalysis "429 rate limit: session relay limit reached; missing trie node" true in
  Found r = true /\ str_mem (Pattern r) overServicedPatterns = true /\ Category r <> CategoryBlockchainError.
Proof. apply (over_serviced_takes_precedence "429 rate limit: session relay limit reached; missing trie node"). vm_compute. reflexivity. Defined.

(** Beyond its first 50 bytes a JSON response is judged by its length and its
    first 512 bytes only: two responses that agree on them get the same verdict. *)
Theorem verdict_reads_prefix `{UnicodeCase} `{RPCTypeMembers} cfg c r1 r2 status rpcType method :
  Ascii.eqb c "{" || Ascii.eqb c "[" = true ->
  (50 <= String.length (String c r1))%nat -> String.length r1 = String.length r2 ->
  str_take (MaxPrefixBytes cfg) (String c r1) = str_take (MaxPrefixBytes cfg) (String c r2) ->
  Analyze cfg (String c r1) status rpcType method = Analyze cfg (String c r2) status rpcType method.
Proof.
  intros Hc Hl El Ep. unfold Analyze. cbv zeta. case_if; [reflexivity|].
  change (String c r1 =? "")%string with false. change (String c r2 =? "")%string with false. cbn [andb].
  rewrite (structure_of_json (String c r1) c r1 eq_refl Hc Hl).
  rewrite (structure_of_json (String c r2) c r2 eq_refl Hc) by (cbn in *; lia). cbn [ShouldRetry Structure].
  case_if; [reflexivity|]. unfold analyze_payload. cbv zeta. rewrite Ep.
  change (String.length (String c r1)) with (S (String.length r1)). now rewrite El.
Qed.

(** A long response body: [n] copies of a byte. *)
Fixpoint fill (n : nat) (c : ascii) : string := match n with O => "" | S n' => String c (fill n' c) end.

Definition demo_body : string := quoted "result" +:+ ":1," +:+ fill 600 "x".

Lemma verdict_reads_prefix_witness :
  Analyze DefaultConfig (String "{" (demo_body +:+ "}")) 200 3 "eth_call" =
  Analyze DefaultConfig (String "{" (demo_body +:+ "]")) 200 3 "eth_call".
Proof.
  apply (verdict_reads_prefix DefaultConfig "{" (demo_body +:+ "}") (demo_body +:+ "]")); [reflexivity| |reflexivity|vm_compute; reflexivity].
  apply Nat.leb_le. vm_compute. reflexivity.
Defined.

(** An honest success is never retried: a JSON response with a success status
    whose inspected prefix has a result, no error, and a result that is not an empty
    container is kept, for every RPC type that answers in JSON-RPC. *)
Theorem honest_success_kept `{UnicodeCase} `{RPCTypeMembers} `{!RPCTypeDistinct} cfg c rest status rpcType method :
  let b := String c rest in
  let prefix := str_take (MaxPrefixBytes cfg) b in
  Ascii.eqb c "{" || Ascii.eqb c "[" = true -> (50 <= String.length b)%nat -> status < 400 ->
  In rpcType [RPCType_JSON_RPC; RPCType_COMET_BFT; RPCType_WEBSOCKET] ->
  IsJSONRPCLikeSuccess prefix = true -> emptyResultType prefix = notEmpty ->
  fltb f_zero (ConfidenceThreshold cfg) = true ->
  Analyze cfg b status rpcType method = keep_because "jsonrpc_success".
Proof.
  cbv zeta. intros Hc Hl Hs Ht Hsucc Hne Hthr. unfold Analyze. cbv zeta.
  assert (analyzeHTTPStatus status = keep_because "http_success") as ->.
  { unfold analyzeHTTPStatus. destruct (Z.leb_spec 400 status); [lia|]. cbn. destruct (Z.leb_spec 500 status); [lia|reflexivity]. }
  cbn [ShouldRetry keep_because andb]. change (String c rest =? "")%string with false. cbn [andb].
  rewrite (structure_of_json _ c rest eq_refl Hc Hl). cbn [ShouldRetry Structure]. rewrite bool_decide_eq_true_2 by reflexivity. cbn [negb].
  unfold analyze_payload. cbv zeta. set (prefix := str_take (MaxPrefixBytes cfg) (String c rest)) in *.
  set (n := String.length (String c rest)).
  assert (ProtocolAnalysis prefix n rpcType method = keep_because "jsonrpc_success") as ->.
  { assert (analyzeJSONRPC prefix n rpcType method = keep_because "jsonrpc_success") as Ea.
    { unfold IsJSONRPCLikeSuccess in Hsucc. apply andb_true_iff in Hsucc as [Hr He%negb_true_iff].
      unfold analyzeJSONRPC. cbv zeta. rewrite Hr, He, Hne. cbn. reflexivity. }
    unfold ProtocolAnalysis.
    destruct (Z.eqb_spec rpcType RPCType_JSON_RPC); [exact Ea|].
    destruct (Z.eqb_spec rpcType RPCType_REST) as [->|].
    { exfalso. destruct Ht as [Ht|[Ht|[Ht|[]]]]; revert Ht; [rpc_ne 3%nat 4%nat|rpc_ne 5%nat 4%nat|rpc_ne 2%nat 4%nat]. }
    destruct (Z.eqb_spec rpcType RPCType_COMET_BFT); [exact Ea|].
    destruct (Z.eqb_spec rpcType RPCType_WEBSOCKET); [exact Ea|].
    exfalso. cbn in Ht. intuition congruence. }
  destruct (Z.leb_spec 400 status); [lia|]. cbn [andb Confidence keep_because Reason].
  unfold fgeb. now rewrite (fltb_not_fleb _ _ Hthr).
Qed.

Lemma honest_success_kept_witness :
  Analyze DefaultConfig (String "{" (demo_body +:+ "}")) 200 3 "eth_call" = keep_because "jsonrpc_success".
Proof.
  apply (honest_success_kept DefaultConfig "{" (demo_body +:+ "}") 200 3 "eth_call"); try (vm_compute; reflexivity); [|now left].
  apply Nat.leb_le. vm_compute. reflexivity.
Defined.

(** The text CometBFT returns for a pruned height matches no indicator, because
    the number stands inside the phrase: the response is taken for a valid error
    and is not retried, although the error-text check knows it. *)
Theorem pruned_height_not_retried :
  let body := dq "{'jsonrpc':'2.0','id':1,'error':{'code':-32603,'message':'height 5 is not available, lowest height is 100'}}" in
  Analyze DefaultConfig body 200 3 "block" = keep_because "jsonrpc_valid_error" /\
  ErrorContainsArchivalPattern body = true.
Proof. split; vm_compute; reflexivity. Qed.

(** An error object nested in a result is taken for a top-level error, and a null
    result written with a space beside a genuine error counts as a result: both
    responses are retried as malformed. *)
Theorem nested_error_object_flagged :
  Analyze DefaultConfig (dq "{'jsonrpc':'2.0','id':1,'result':{'status':'failed','error':{'kind':'execution'}}}") 200 3 "tx" =
    retry_because 95 "jsonrpc_both_result_and_error" /\
  Analyze DefaultConfig (dq "{'jsonrpc':'2.0','id':1,'result': null,'error':{'code':-32000,'message':'execution reverted'}}") 200 3 "eth_call" =
    retry_because 95 "jsonrpc_both_result_and_error".
Proof. split; vm_compute; reflexivity. Qed.
