(* ===== verification/MethodLabel.v ===== *)
(** * Method and domain labels: metrics/method_sanitizer.go, domain_sanitizer.go, method_allowlist.go

    The values of the client-controlled label [method] and of the label [domain]
    pass through these functions before they reach Prometheus.  The theorems bound
    their length, alphabet and encoding. *)

From S2P Require Import Prelude GoStrings Utf8 Float64 RPCTypes Heuristic.
From Stdlib Require Import ZArith Lia Bool Ascii String.
From stdpp Require Import base list strings.

Open Scope string_scope.
Open Scope Z_scope.

(** ** method_allowlist.go *)

Definition MethodUnknown : string := "unknown".
Definition MethodOther : string := "other".
Definition MethodOtherEVM : string := "eth_other".
Definition MethodOtherSolana : string := "solana_other".
Definition MethodOtherCosmos : string := "cosmos_other".
Definition MethodOtherCometBFT : string := "cometbft_other".
Definition MethodLabelMaxLen : nat := 64.

Definition NetworkTypeEVM : string := "evm".
Definition NetworkTypeCosmos : string := "cosmos".
Definition NetworkTypeSolana : string := "solana".
Definition NetworkTypePassthrough : string := "passthrough".

Definition evmAllowlist : list string :=
  ["eth_blockNumber"; "eth_chainId"; "eth_protocolVersion"; "eth_syncing"; "eth_coinbase";
   "eth_accounts"; "eth_gasPrice"; "eth_maxPriorityFeePerGas"; "eth_feeHistory"; "eth_blobBaseFee";
   "eth_getBalance"; "eth_getStorageAt"; "eth_getTransactionCount"; "eth_getCode"; "eth_call";
   "eth_callMany"; "eth_simulateV1"; "eth_estimateGas"; "eth_createAccessList";
   "eth_getBlockByHash"; "eth_getBlockByNumber"; "eth_getBlockTransactionCountByHash";
   "eth_getBlockTransactionCountByNumber"; "eth_getUncleCountByBlockHash";
   "eth_getUncleCountByBlockNumber"; "eth_getBlockReceipts"; "eth_getTransactionByHash";
   "eth_getTransactionByBlockHashAndIndex"; "eth_getTransactionByBlockNumberAndIndex";
   "eth_getTransactionReceipt"; "eth_getLogs"; "eth_newFilter"; "eth_newBlockFilter";
   "eth_newPendingTransactionFilter"; "eth_uninstallFilter"; "eth_getFilterChanges";
   "eth_getFilterLogs"; "eth_sendRawTransaction"; "eth_sendTransaction"; "eth_sign";
   "eth_signTransaction"; "eth_subscribe"; "eth_unsubscribe"; "eth_getProof"; "net_version";
   "net_listening"; "net_peerCount"; "web3_clientVersion"; "web3_sha3"; "debug_traceTransaction";
   "debug_traceCall"; "debug_traceCallMany"; "debug_traceBlockByNumber"; "debug_traceBlockByHash";
   "debug_traceBlock"; "debug_storageRangeAt"; "debug_getRawBlock"; "debug_getRawHeader";
   "debug_getRawReceipts"; "debug_getRawTransaction"; "debug_getBadBlocks";
   "debug_getModifiedAccountsByNumber"; "debug_getModifiedAccountsByHash"; "trace_block";
   "trace_call"; "trace_callMany"; "trace_filter"; "trace_get"; "trace_rawTransaction";
   "trace_replayBlockTransactions"; "trace_replayTransaction"; "trace_transaction";
   "txpool_content"; "txpool_inspect"; "txpool_status"; "erigon_blockNumber";
   "erigon_getHeaderByNumber"; "erigon_getHeaderByHash"; "admin_nodeInfo"; "admin_peers"].

Definition solanaAllowlist : list string :=
  ["getAccountInfo"; "getBalance"; "getBlock"; "getBlockCommitment"; "getBlockHeight";
   "getBlockProduction"; "getBlocks"; "getBlocksWithLimit"; "getBlockTime"; "getClusterNodes";
   "getEpochInfo"; "getEpochSchedule"; "getFeeForMessage"; "getFirstAvailableBlock";
   "getGenesisHash"; "getHealth"; "getHighestSnapshotSlot"; "getIdentity"; "getInflationGovernor";
   "getInflationRate"; "getInflationReward"; "getLargestAccounts"; "getLatestBlockhash";
   "getLeaderSchedule"; "getMaxRetransmitSlot"; "getMaxShredInsertSlot";
   "getMinimumBalanceForRentExemption"; "getMultipleAccounts"; "getProgramAccounts";
   "getRecentPerformanceSamples"; "getRecentPrioritizationFees"; "getSignaturesForAddress";
   "getSignatureStatuses"; "getSlot"; "getSlotLeader"; "getSlotLeaders";
   "getStakeMinimumDelegation"; "getSupply"; "getTokenAccountBalance";
   "getTokenAccountsByDelegate"; "getTokenAccountsByOwner"; "getTokenLargestAccounts";
   "getTokenSupply"; "getTransaction"; "getTransactionCount"; "getVersion"; "getVoteAccounts";
   "isBlockhashValid"; "minimumLedgerSlot"; "requestAirdrop"; "sendTransaction";
   "simulateTransaction"].

Definition cometBFTAllowlist : list string := CometBFTMethodList.

Definition cosmosJSONRPCAllowlist : list string :=
  ["check_tx"; "broadcast_evidence"].

(** ** method_sanitizer.go *)

(** Every byte of [s] satisfies [f]. *)
Fixpoint all_bytes (f : ascii -> bool) (s : string) : bool :=
  match s with EmptyString => true | String c s' => f c && all_bytes f s' end.

Definition is_digit (c : ascii) : bool := in_range 48 57 c.
Definition is_lower (c : ascii) : bool := in_range 97 122 c.
Definition is_upper (c : ascii) : bool := in_range 65 90 c.

Definition isAllDigits (s : string) : bool := all_bytes is_digit s.

Definition isHexBody (s : string) : bool :=
  if (s =? "")%string then false
  else all_bytes (fun c => is_digit c || in_range 97 102 c || in_range 65 70 c) s.

Definition isAlphanumeric (s : string) : bool := all_bytes (fun c => is_digit c || is_lower c || is_upper c) s.

Definition is_route_byte (c : ascii) : bool :=
  is_lower c || is_upper c || is_digit c ||
  Ascii.eqb c "_" || Ascii.eqb c "-" || Ascii.eqb c "." || Ascii.eqb c "~".

Definition isRouteShapedSegment (seg : string) : bool := all_bytes is_route_byte seg.

Definition isBech32Like (s : string) : bool :=
  if (String.length s <? 14)%nat then false
  else match index_byte "1" s with
       | None => false
       | Some one =>
           if (one <? 2)%nat || (8 <? one)%nat then false
           else if negb (all_bytes is_lower (str_take one s)) then false
           else let data := str_drop (S one) s in
                if (String.length data <? 10)%nat then false else isAlphanumeric data
       end.

(** [len(seg) > 2 && seg[0] == '0' && (seg[1] == 'x' || seg[1] == 'X') && isHexBody(seg[2:])] *)
Definition is_hex_segment (seg : string) : bool :=
  match seg with
  | String c0 (String c1 (String _ _ as body)) =>
      Ascii.eqb c0 "0" && (Ascii.eqb c1 "x" || Ascii.eqb c1 "X") && isHexBody body
  | _ => false
  end.

Definition isDynamicSegment (seg : string) : bool :=
  if (seg =? "")%string then false
  else if isAllDigits seg then true
  else if is_hex_segment seg then true
  else if isBech32Like seg then true
  else (24 <=? String.length seg)%nat && isAlphanumeric seg.

(** [strings.Join(l, sep)] *)
Fixpoint str_join (sep : string) (l : list string) : string :=
  match l with
  | [] => ""
  | [x] => x
  | x :: l' => x +:+ sep +:+ str_join sep l'
  end.

Definition maxRESTPathSegments : nat := 12.

Definition normalize_segment (seg : string) : string :=
  if (seg =? "")%string then seg
  else if isDynamicSegment seg || negb (isRouteShapedSegment seg) then ":var" else seg.

Definition normalizeRESTPath (p : string) : string :=
  let p := match index_byte "?" p with Some i => str_take i p | None => p end in
  let parts := map normalize_segment (split_byte "/" p) in
  let parts := if (maxRESTPathSegments <? List.length parts)%nat then (take maxRESTPathSegments parts ++ ["..."])%list else parts in
  str_join "/" parts.

Definition evmNamespacePrefixes : list string :=
  ["eth_"; "net_"; "web3_"; "debug_"; "trace_"; "txpool_"; "admin_"; "erigon_"].

Definition hasEVMPrefix (raw : string) : bool := existsb (fun p => has_prefix p raw) evmNamespacePrefixes.

Definition isAllowlisted (networkType raw : string) : bool :=
  if (networkType =? NetworkTypeEVM)%string then str_mem raw evmAllowlist
  else if (networkType =? NetworkTypeSolana)%string then str_mem raw solanaAllowlist
  else if (networkType =? NetworkTypeCosmos)%string then
    if str_mem raw cometBFTAllowlist then true else str_mem raw cosmosJSONRPCAllowlist
  else if str_mem raw evmAllowlist then true
  else if str_mem raw solanaAllowlist then true
  else if str_mem raw cometBFTAllowlist then true
  else str_mem raw cosmosJSONRPCAllowlist.

Definition classifyByPrefix (networkType raw : string) : string :=
  if hasEVMPrefix raw then MethodOtherEVM
  else if (networkType =? NetworkTypeSolana)%string then MethodOtherSolana
  else if (networkType =? NetworkTypeCosmos)%string then MethodOtherCosmos
  else MethodOther.

Definition capLen (s : string) : string :=
  let s := if (MethodLabelMaxLen <? String.length s)%nat then str_take MethodLabelMaxLen s else s in
  if negb (valid_utf8 s) then to_valid_utf8 rune_error_str s else s.

Definition SanitizeMethodLabel (networkType raw : string) : string :=
  let raw := trim_space_u raw in
  if (raw =? "")%string then MethodUnknown
  else if has_prefix "/" raw then capLen (normalizeRESTPath raw)
  else if isAllowlisted networkType raw then capLen raw
  else capLen (classifyByPrefix networkType raw).

(** ** domain_sanitizer.go *)

Definition DomainUnknown : string := "unknown".
Definition DomainSupplierAddr : string := "supplier_addr".
Definition DomainLabelMaxLen : nat := 64.

Definition SanitizeDomainLabel `{UnicodeCase} (raw : string) : string :=
  let d := to_lower_u (trim_space_u raw) in
  if (d =? "")%string then DomainUnknown
  else if negb (str_contains d ".") && isBech32Like d then DomainSupplierAddr
  else let d := if (DomainLabelMaxLen <? String.length d)%nat then str_take DomainLabelMaxLen d else d in
       if negb (valid_utf8 d) then to_valid_utf8 rune_error_str d else d.

(** ** Lemmas *)

(** The bytes a method label can have. *)
Definition label_byte (c : ascii) : bool := is_route_byte c || Ascii.eqb c "/" || Ascii.eqb c ":".

Lemma all_bytes_app f a b : all_bytes f (a +:+ b) = all_bytes f a && all_bytes f b.
Proof.
  induction a as [|c a IH]; [reflexivity|].
  change (f c && all_bytes f (a +:+ b) = f c && all_bytes f a && all_bytes f b). now rewrite IH, andb_assoc.
Qed.

Lemma all_bytes_weaken (f g : ascii -> bool) s : (forall c, f c = true -> g c = true) -> all_bytes f s = true -> all_bytes g s = true.
Proof.
  intros H. induction s as [|c s IH]; cbn; [auto|]. intros [Hc Hs]%andb_true_iff. now rewrite (H c Hc), (IH Hs).
Qed.

Lemma all_bytes_take f n s : all_bytes f s = true -> all_bytes f (str_take n s) = true.
Proof.
  revert s. induction n as [|n IH]; intros [|c s]; cbn; auto. intros [Hc Hs]%andb_true_iff. now rewrite Hc, (IH s Hs).
Qed.

Lemma route_label c : is_route_byte c = true -> label_byte c = true.
Proof. unfold label_byte. now intros ->. Qed.

Lemma label_byte_ascii c : label_byte c = true -> is_ascii_byte c = true.
Proof. destruct c as [[] [] [] [] [] [] [] []]; vm_compute; auto. Qed.

Lemma label_ascii s : all_bytes label_byte s = true -> is_ascii s = true.
Proof.
  induction s as [|c s IH]; cbn; [auto|]. intros [Hc Hs]%andb_true_iff. now rewrite (label_byte_ascii c Hc), (IH Hs).
Qed.

Lemma normalize_segment_label seg : all_bytes label_byte (normalize_segment seg) = true.
Proof.
  unfold normalize_segment. destruct (seg =? "")%string eqn:E; [apply String.eqb_eq in E; now subst|].
  destruct (isDynamicSegment seg); [reflexivity|]. cbn [orb]. destruct (isRouteShapedSegment seg) eqn:Er; [|reflexivity].
  cbn [negb]. exact (all_bytes_weaken _ _ seg route_label Er).
Qed.

Lemma join_label l : Forall (fun s => all_bytes label_byte s = true) l -> all_bytes label_byte (str_join "/" l) = true.
Proof.
  induction l as [|x [|y l] IH]; intros Hl; [reflexivity|now inversion Hl|]. inversion Hl as [|? ? Hx Hr]; subst.
  change (str_join "/" (x :: y :: l)) with (x +:+ "/" +:+ str_join "/" (y :: l)).
  rewrite !all_bytes_app, Hx, (IH Hr). reflexivity.
Qed.

Lemma normalizeRESTPath_label p : all_bytes label_byte (normalizeRESTPath p) = true.
Proof.
  unfold normalizeRESTPath. cbv zeta. apply join_label.
  set (q := match index_byte "?" p with Some i => str_take i p | None => p end).
  assert (Forall (fun s => all_bytes label_byte s = true) (map normalize_segment (split_byte "/" q))) as H.
  { apply Forall_map, Forall_forall. intros; apply normalize_segment_label. }
  case_if; [|exact H]. apply Forall_app. split; [now apply Forall_take|now repeat constructor].
Qed.

Lemma allowlists_label : forallb (all_bytes label_byte) (evmAllowlist ++ solanaAllowlist ++ cometBFTAllowlist ++ cosmosJSONRPCAllowlist) = true.
Proof. vm_compute. reflexivity. Qed.

Lemma allowlisted_in nt raw : isAllowlisted nt raw = true ->
  In raw (evmAllowlist ++ solanaAllowlist ++ cometBFTAllowlist ++ cosmosJSONRPCAllowlist)%list.
Proof.
  assert (forall l, str_mem raw l = true -> In raw l) as Hm.
  { intros l Hl. apply existsb_exists in Hl as (y & Hy & E). apply String.eqb_eq in E. now subst. }
  unfold isAllowlisted. rewrite !in_app_iff. intros H. repeat case_match; auto 6.
Qed.

(** A string of label bytes is only truncated by [capLen]. *)
Lemma capLen_label s : all_bytes label_byte s = true ->
  all_bytes label_byte (capLen s) = true /\ (String.length (capLen s) <= MethodLabelMaxLen)%nat.
Proof.
  intros Hs. unfold capLen. cbv zeta.
  set (t := if (MethodLabelMaxLen <? String.length s)%nat then str_take MethodLabelMaxLen s else s).
  assert (all_bytes label_byte t = true /\ (String.length t <= MethodLabelMaxLen)%nat) as [Ht Hl].
  { unfold t. destruct (Nat.ltb_spec MethodLabelMaxLen (String.length s)); [|now split].
    split; [now apply all_bytes_take|apply str_take_length]. }
  rewrite (is_ascii_valid t (label_ascii t Ht)). now split.
Qed.

Lemma classify_label nt raw : all_bytes label_byte (classifyByPrefix nt raw) = true.
Proof. unfold classifyByPrefix. repeat case_if; reflexivity. Qed.

Lemma sanitized_label nt raw :
  all_bytes label_byte (SanitizeMethodLabel nt raw) = true /\
  (String.length (SanitizeMethodLabel nt raw) <= MethodLabelMaxLen)%nat.
Proof.
  unfold SanitizeMethodLabel. cbv zeta. case_if; [vm_compute; split; [reflexivity|lia]|].
  case_if; [apply capLen_label, normalizeRESTPath_label|].
  destruct (isAllowlisted nt (trim_space_u raw)) eqn:Ea; [|apply capLen_label, classify_label].
  apply capLen_label. pose proof allowlists_label as Hall. rewrite forallb_forall in Hall.
  apply Hall. exact (allowlisted_in _ _ Ea).
Qed.

(** ** Theorems *)

(** C25: whatever a client sends as a method or path, the label is at most 64 bytes
    of letters, digits and [_-.~/:], hence valid UTF-8 that Prometheus accepts. *)
Theorem method_label_safe nt raw :
  let l := SanitizeMethodLabel nt raw in
  (String.length l <= MethodLabelMaxLen)%nat /\ all_bytes label_byte l = true /\ valid_utf8 l = true.
Proof.
  cbv zeta. destruct (sanitized_label nt raw) as [Hb Hl].
  split; [exact Hl|]. split; [exact Hb|]. now apply is_ascii_valid, label_ascii.
Qed.

(** A domain label is valid UTF-8 and at most two bytes over the declared cap:
    the cut can split a rune, whose replacement is longer than what is cut. *)
Theorem domain_label_bounded `{UnicodeCase} raw :
  let l := SanitizeDomainLabel raw in
  valid_utf8 l = true /\ (String.length l <= DomainLabelMaxLen + 2)%nat.
Proof.
  unfold SanitizeDomainLabel. cbv zeta. case_if; [vm_compute; split; [reflexivity|lia]|].
  case_if; [vm_compute; split; [reflexivity|lia]|].
  pose proof (to_lower_u_valid (trim_space_u raw)) as Hv. set (d := to_lower_u (trim_space_u raw)) in *.
  destruct (Nat.ltb_spec DomainLabelMaxLen (String.length d)) as [Hd|Hd].
  - destruct (valid_utf8 (str_take DomainLabelMaxLen d)) eqn:E; cbn [negb].
    + split; [exact E|]. pose proof (str_take_length DomainLabelMaxLen d). lia.
    + split; [now apply to_valid_utf8_valid|now apply repaired_length].
  - rewrite Hv. cbn [negb]. split; [exact Hv|lia].
Qed.

#[local] Instance id_case : UnicodeCase := { lower_rune := fun r => r }.

(** A host of 63 letters followed by a two-byte rune gets a label of 66 bytes. *)
Definition long_domain : string :=
  "a.aaaaaaaaaaaaaaaaaaaaaaaaaaaaaaaaaaaaaaaaaaaaaaaaaaaaaaaaaaaaa" +:+ encode_rune 233.

(** The declared cap of domain labels is not kept: some label is longer. *)
Theorem domain_label_exceeds_cap :
  exists raw, String.length (SanitizeDomainLabel raw) = (DomainLabelMaxLen + 2)%nat.
Proof. exists long_domain. vm_compute. reflexivity. Qed.
