(* ===== verification/RelayPolicy.v ===== *)
(** * The decisions of the relay paths

    gateway/http_request_context_handle_request.go and the retry decision of
    gateway/http_request_context.go: what counts as a success, what a failure
    costs the endpoint's reputation and its domain, when a request is retried and
    which endpoints a retry may still use.  The data is that of protocol/payload.go
    and protocol/response.go. *)

From S2P Require Import Prelude GoStrings Utf8 Float64 Domain RepKey Signals Json CircuitBreaker RPCTypes Heuristic.
From Stdlib Require Import ZArith Lia Bool Ascii String.
From stdpp Require Import base list gmap strings.

Open Scope string_scope.
Open Scope Z_scope.

(** An [error]: its text, and whether [context.DeadlineExceeded] is in its chain. *)
Record go_error := mkErr { err_Error : string; err_deadline : bool }.

Definition errorf (msg : string) : go_error := mkErr msg false.

(** [fmt.Sprintf("%v", err)] *)
Definition fmt_err (e : option go_error) : string := match e with Some e => err_Error e | None => "<nil>" end.

Record RelayMetadata := mkRelayMetadata {
  rm_AppAddress : string;
  rm_SupplierAddress : string;
  rm_SessionID : string;
}.

(** [Bytes] is [None] for a nil slice. *)
Record relay_response := mkResponse {
  rr_Bytes : option string;
  rr_HTTPStatusCode : Z;
  rr_EndpointAddr : EndpointAddr;
  rr_Metadata : RelayMetadata;
  rr_RequestID : string;
}.

Definition rr_body (r : relay_response) : string := default "" (rr_Bytes r).

Definition zero_response : relay_response := mkResponse None 0 "" (mkRelayMetadata "" "" "") "".

Definition with_request_id (r : relay_response) (i : string) : relay_response :=
  mkResponse (rr_Bytes r) (rr_HTTPStatusCode r) (rr_EndpointAddr r) (rr_Metadata r) i.

Record Payload := mkPayload {
  pl_Data : string;
  pl_Method : string;
  pl_Path : string;
  pl_RPCType : Z;
  pl_OriginalRPCType : Z;
  pl_JSONRPCMethod : string;
}.

Record ServiceRetryConfig := mkRetryConfig {
  rt_Enabled : option bool;
  rt_MaxRetries : option Z;
  rt_RetryOn5xx : option bool;
  rt_RetryOnTimeout : option bool;
  rt_RetryOnConnection : option bool;
  rt_MaxRetryLatency : option Duration;
  rt_ConnectTimeout : option Duration;
  rt_HedgeDelay : option Duration;
  rt_HedgeMaxBatchSize : option Z;
}.

(** [p != nil && *p] *)
Definition is_set (b : option bool) : bool := default false b.

Definition maxAttempts (cfg : option ServiceRetryConfig) : Z :=
  match cfg with
  | Some c => if is_set (rt_Enabled c)
              then match rt_MaxRetries c with Some n => if 0 <? n then wrap64 (n + 1) else 1 | None => 1 end
              else 1
  | None => 1
  end.

Definition hedge_delay (cfg : option ServiceRetryConfig) : Duration :=
  match cfg with
  | Some c => match rt_HedgeDelay c with Some d => if 0 <? d then d else 0 | None => 0 end
  | None => 0
  end.

Definition shouldSuppressHedgeForBatch (cfg : option ServiceRetryConfig) (batchSize : Z) : bool :=
  match cfg with
  | Some c => match rt_HedgeMaxBatchSize c with
              | Some maxBatch => if maxBatch <=? 0 then false else maxBatch <? batchSize
              | None => false
              end
  | None => false
  end.

(** ** Success and its costs *)

Record responseCheckResult := mkCheck { ck_Success : bool; ck_HeuristicResult : option AnalysisResult }.

Section Check.
Context `{UnicodeCase} `{RPCTypeMembers}.

Definition EffectiveRPCType (p : Payload) : Z :=
  if negb (pl_OriginalRPCType p =? RPCType_UNKNOWN_RPC) then pl_OriginalRPCType p else pl_RPCType p.

Definition payload_method (p : Payload) : string :=
  if (pl_JSONRPCMethod p =? "")%string then pl_Path p else pl_JSONRPCMethod p.

Definition checkResponseSuccess (err : option go_error) (statusCode : Z) (responseBytes : string)
  (heuristicRPCType : Z) (jsonrpcMethod requestID : string) : responseCheckResult :=
  match err with
  | Some _ => mkCheck false None
  | None =>
      if negb ((statusCode =? 0) || ((200 <=? statusCode) && (statusCode <? 300))) then mkCheck false None
      else
        let result := Analyze Heuristic.DefaultConfig responseBytes statusCode heuristicRPCType jsonrpcMethod in
        if ShouldRetry result then mkCheck false (Some result)
        else if negb (requestID =? "")%string && (heuristicRPCType =? RPCType_JSON_RPC)
        then match CheckRequestIDMismatch responseBytes requestID with
             | Some idResult => mkCheck false (Some idResult)
             | None => mkCheck true None
             end
        else mkCheck true None
  end.
End Check.

Definition deceptiveReasons : list string :=
  ["jsonrpc_invalid_empty_array"; "jsonrpc_empty_object_result"; "rest_protocol_mismatch"; "cometbft_invalid_empty_array";
   "jsonrpc_fabricated_parse_error"; "jsonrpc_wrapped_service_error"; "jsonrpc_id_mismatch"].

Definition isDeceptiveResponsePattern (reason : string) : bool := str_mem reason deceptiveReasons.

Section Costs.
Context `{UnicodeCase}.

Definition nonempty_pattern (hr : AnalysisResult) (f : string -> bool) : bool :=
  negb (MatchedPattern hr =? "")%string && f (MatchedPattern hr).

(** The signal recorded against the endpoint's reputation key; [None] when the failure
    is not held against it. *)
Definition recordHeuristicErrorToReputation (now : Time) (heuristicResult : option AnalysisResult) : option Signal :=
  match heuristicResult with
  | None => None
  | Some hr =>
      if nonempty_pattern hr IsCapabilityLimitationError then None
      else if nonempty_pattern hr IsOverServicedError then None
      else
        let reason := "heuristic_" +:+ Reason hr in
        Some (if fgeb (Confidence hr) (conf 95)
              then if isDeceptiveResponsePattern (Reason hr) || IsProviderAuthError (MatchedPattern hr)
                   then NewCriticalErrorSignal now reason 0
                   else NewMajorErrorSignal now reason 0
              else NewMinorErrorSignal now reason)
  end.

Definition shouldCircuitBreak (heuristicResult : option AnalysisResult) (httpStatusCode : Z) (lastErr : option go_error) : bool :=
  if (400 <=? httpStatusCode) && (httpStatusCode <? 500) then false
  else match heuristicResult, lastErr with
       | Some hr, _ =>
           if nonempty_pattern hr IsCapabilityLimitationError then false
           else if nonempty_pattern hr IsOverServicedError then false
           else true
       | None, Some e =>
           if ErrorContainsArchivalPattern (err_Error e) then false
           else if IsOverServicedError (err_Error e) then false
           else true
       | None, None => true
       end.

Definition capabilityAttemptBudget : Z := 2.

Definition isCapabilityLimitationFailure (heuristicResult : option AnalysisResult) (err : option go_error) : bool :=
  match heuristicResult with
  | Some hr => nonempty_pattern hr IsCapabilityLimitationError
  | None => false
  end ||
  match err with Some e => ErrorContainsArchivalPattern (err_Error e) | None => false end.

(** The counter after the failure, whether it was a capability limitation, and whether
    the budget is spent. *)
Definition noteCapabilityFailure (capabilityFailures : Z) (heuristicResult : option AnalysisResult) (err : option go_error)
  : Z * bool * bool :=
  if isCapabilityLimitationFailure heuristicResult err
  then (capabilityFailures + 1, true, capabilityAttemptBudget <=? capabilityFailures + 1)
  else (capabilityFailures, false, false).

Definition relayExhaustionCategory (hr : option AnalysisResult) (err : option go_error) : string :=
  match hr with
  | Some r => if IsCapabilityLimitationError (MatchedPattern r) then "capability" else "heuristic"
  | None => match err with Some _ => "transport" | None => "status" end
  end.

(** ** The retry decision *)

Definition connectionTexts : list string :=
  ["connection"; "dial"; "network"; "no response"; "empty response"; "failed to receive"; "no endpoints"].

Definition shouldRetry (err : option go_error) (statusCode : Z) (requestDuration : Duration)
  (retryConfig : option ServiceRetryConfig) (heuristicResult : option AnalysisResult) : bool :=
  match retryConfig with
  | None => false
  | Some c =>
      if negb (is_set (rt_Enabled c)) then false
      else if match rt_MaxRetryLatency c with Some m => (0 <? m) && (m <? requestDuration) | None => false end then false
      else if is_set (rt_RetryOn5xx c) && (500 <=? statusCode) && (statusCode <? 600) then true
      else if match heuristicResult with Some hr => ShouldRetry hr | None => false end then true
      else match err with
           | None => false
           | Some e =>
               if is_set (rt_RetryOnTimeout c) && (err_deadline e || str_contains (to_lower_u (err_Error e)) "timeout") then true
               else if is_set (rt_RetryOnConnection c) && existsb (str_contains (to_lower_u (err_Error e))) connectionTexts then true
               else (statusCode =? 0) && is_set (rt_RetryOnConnection c)
           end
  end.
End Costs.

(** ** Request ids and texts *)

Definition extractRequestIDFromPayload (p : Payload) : string :=
  if (pl_Data p =? "")%string then ""
  else match parse (pl_Data p) with
       | None => ""
       | Some v =>
           match as_struct v with
           | None => ""
           | Some ms =>
               let raw := raw_field "id" ms in
               if (raw =? "")%string || (raw =? "null")%string then ""
               else match decode_int raw with
                    | Some z => fmt_int z
                    | None => default "" (decode_string raw)
                    end
           end
       end.

Definition truncateResponse (b : string) (maxLen : nat) : string :=
  if (b =? "")%string then "<empty>"
  else if (String.length b <=? maxLen)%nat then b
  else str_take maxLen b +:+ "...(truncated)".

(** ** Rotation: which endpoints a retry may still use *)

Section Rotation.
Context `{DomainLib}.

Definition ExtractEffectiveTLDPlusOne (rawURL : string) : option string :=
  match url_hostname rawURL with
  | None => None
  | Some host => if (host =? "")%string then None else etld_plus_one host
  end.

Definition computeRegistrableDomainFromEndpoint (endpoint : EndpointAddr) : string :=
  match rawURLFromEndpoint endpoint with
  | None => ""
  | Some rawURL =>
      match ExtractEffectiveTLDPlusOne rawURL with
      | Some etld1 => if (etld1 =? "")%string then computeDomainFromEndpoint endpoint else etld1
      | None => computeDomainFromEndpoint endpoint
      end
  end.

Definition filterEndpoints (available : list EndpointAddr) (tried : gset EndpointAddr) (triedDomains : gset string) : list EndpointAddr :=
  List.filter (fun ep =>
    negb (bool_decide (ep ∈ tried)) &&
    negb ((0 <? size triedDomains)%nat &&
          (bool_decide (computeDomainFromEndpoint ep ∈ triedDomains) || bool_decide (computeRegistrableDomainFromEndpoint ep ∈ triedDomains))))
    available.

Definition markDomainTried (triedDomains : gset string) (endpoint : EndpointAddr) : gset string :=
  let domain := computeRegistrableDomainFromEndpoint endpoint in
  if (domain =? "")%string then triedDomains else {[domain]} ∪ triedDomains.
End Rotation.

Definition extractSupplierFromEndpoint (endpoint : EndpointAddr) : string :=
  if (endpoint =? "")%string then ""
  else match str_index "-http" endpoint with
       | Some (S i) => str_take (S i) endpoint
       | _ => match str_index "-" endpoint with
              | Some (S i) => str_take (S i) endpoint
              | _ => ""
              end
       end.

(** ** The suppliers tried, for the response headers *)

Definition addSupplierTried (suppliersTried : list string) (supplier : string) : list string :=
  if (supplier =? "")%string then suppliersTried
  else if (10 <=? List.length suppliersTried)%nat then suppliersTried
  else if str_mem supplier suppliersTried then suppliersTried
  else (suppliersTried ++ [supplier])%list.

Fixpoint addSuppliersTried (suppliersTried : list string) (suppliers : list string) : list string :=
  match suppliers with
  | [] => suppliersTried
  | supplier :: rest =>
      if (supplier =? "")%string then addSuppliersTried suppliersTried rest
      else if (10 <=? List.length suppliersTried)%nat then suppliersTried
      else addSuppliersTried (if str_mem supplier suppliersTried then suppliersTried else (suppliersTried ++ [supplier])%list) rest
  end.
