(* ===== verification/RelaySelect.v ===== *)
(** * Selecting among the top-ranked endpoints

    selectTopRankedEndpoint and pickFromBand of
    gateway/http_request_context_handle_request.go: the reputation service ranks
    the endpoints' keys, the keys within two points of the best score form the
    band, and one endpoint of the band is drawn. *)

From S2P Require Import Prelude GoStrings Float64 Domain RepKey Signals Score RepConfig RepStorage RepService RepServiceSpec Selection SelectionProps.
From Stdlib Require Import ZArith Lia Bool Ascii String Sorted.
From stdpp Require Import base gmap strings list.

Open Scope string_scope.
Open Scope Z_scope.
Open Scope go_scope.

Definition retryHedgeScoreEpsilon : float64 := f64_of_Z 2.

Section TopRanked.
Context `{DomainLib} {R : Type} `{RandSource R}.
Context {St : Type} `{RPCTypeEnum} `{!Storage St}.
Implicit Types (s : service St) (g : settings).

(** [bandCap] is the operator share of the service when cap_retry_hedge_selection is on. *)
Definition pickFromBand g (bandCap : option float64) (band : list EndpointAddr) : rnd R EndpointAddr :=
  match bandCap with
  | None => PickBackendUniform g band
  | Some share => let? (selected, _) := SelectBandWithConcentrationCap g band share in rret selected
  end.

(** The first endpoint of each key. *)
Definition keyToOriginalEndpoint s (serviceID : string) (rpcType : Z) (endpoints : list EndpointAddr) : gmap EndpointAddr EndpointAddr :=
  fold_left (fun m ep =>
    let key := BuildKey (KeyBuilderForService s serviceID) serviceID ep rpcType in
    match m !! key_EndpointAddr key with Some _ => m | None => <[key_EndpointAddr key := ep]> m end) endpoints ∅.

Definition scoreOf s (serviceID : string) (scores : gmap EndpointKey Score) (k : EndpointKey) : float64 :=
  match scores !! k with Some sc => sc_Value sc | None => GetInitialScoreForService s serviceID end.

(** The leading keys within the epsilon of [maxScore]. *)
Fixpoint band_prefix (score : EndpointKey -> float64) (maxScore : float64) (keys : list EndpointKey) : list EndpointKey :=
  match keys with
  | [] => []
  | k :: rest => if fgeb (score k) (fsub maxScore retryHedgeScoreEpsilon) then k :: band_prefix score maxScore rest else []
  end.

Definition score_band s (serviceID : string) (rankedKeys : list EndpointKey) : list EndpointKey :=
  match rankedKeys with
  | [] => []
  | top :: rest =>
      let score := scoreOf s serviceID (GetScores s rankedKeys) in
      top :: band_prefix score (score top) rest
  end.

Definition selectTopRankedEndpoint (reputationSvc : option (service St)) g (bandCap : option float64)
  (serviceID : string) (rpcType : Z) (endpoints : list EndpointAddr) : rnd R EndpointAddr :=
  match endpoints with
  | [] => rret ""
  | [ep] => rret ep
  | first :: _ =>
      match reputationSvc with
      | None => rret first
      | Some s =>
          let keys := map (fun ep => BuildKey (KeyBuilderForService s serviceID) serviceID ep rpcType) endpoints in
          let original := keyToOriginalEndpoint s serviceID rpcType endpoints in
          match RankEndpointsByScore s keys with
          | [] => rret first
          | rankedKeys =>
              let bandEndpoints := omap (fun k => original !! key_EndpointAddr k) (score_band s serviceID rankedKeys) in
              let? picked := pickFromBand g bandCap bandEndpoints in
              rret (if (picked =? "")%string then first else picked)
          end
      end
  end.
End TopRanked.

(** ** What the pick promises *)

Section Promises.
Context `{DomainLib} {R : Type} `{RandSource R} `{!RandLaws R}.
Context {St : Type} `{RPCTypeEnum} `{!Storage St}.
Implicit Types (s : service St) (g : settings).

Lemma band_prefix_spec score mx keys k : In k (band_prefix score mx keys) -> In k keys /\ fgeb (score k) (fsub mx retryHedgeScoreEpsilon) = true.
Proof.
  induction keys as [|x keys IH]; cbn; [tauto|]. destruct (fgeb (score x) _) eqn:E; cbn; [|tauto].
  intros [<-|Hin]; [tauto|]. destruct (IH Hin). tauto.
Qed.

Abbreviation key_of s serviceID rpcType ep := (BuildKey (KeyBuilderForService s serviceID) serviceID ep rpcType).

(** The map takes the address of a key back to an endpoint of that key. *)
Lemma original_spec s serviceID rpcType eps : forall (m : gmap EndpointAddr EndpointAddr) a ep,
  fold_left (fun m ep =>
    let key := key_of s serviceID rpcType ep in
    match m !! key_EndpointAddr key with Some _ => m | None => <[key_EndpointAddr key := ep]> m end) eps m !! a = Some ep ->
  m !! a = Some ep \/ (In ep eps /\ key_EndpointAddr (key_of s serviceID rpcType ep) = a).
Proof.
  induction eps as [|e eps IH]; intros m a ep Hl; [now left|]. cbn [fold_left] in Hl. cbv zeta in Hl.
  apply IH in Hl as [Hl|[Hin Ha]]; [|right; split; [now right|exact Ha]].
  destruct (m !! key_EndpointAddr (key_of s serviceID rpcType e)) eqn:E; [now left|].
  destruct (decide (key_EndpointAddr (key_of s serviceID rpcType e) = a)) as [<-|Hne].
  - rewrite lookup_insert_eq in Hl. injection Hl as <-. right. split; [now left|reflexivity].
  - rewrite lookup_insert_ne in Hl by exact Hne. now left.
Qed.

Lemma pickFromBand_always g cap band :
  always (R := R) (pickFromBand g cap band) (fun ep => band = [] /\ ep = "" \/ In ep band).
Proof.
  destruct (decide (band = [])) as [->|Hne].
  - destruct cap; cbn; apply always_ret; now left.
  - destruct cap as [share|]; cbn [pickFromBand].
    + eapply always_bind; [now apply band_always|]. intros [ep o] [Hin _]. apply always_ret. now right.
    + eapply always_mono; [now apply (pick_selected_always g "" band None false)|]. intros ep Hep. now right.
Qed.

(** The endpoints the pick may return: those of the top-scoring band. *)
Definition in_top_band s serviceID rpcType (endpoints : list EndpointAddr) (ep : EndpointAddr) : Prop :=
  let ranked := RankEndpointsByScore s (map (fun e => key_of s serviceID rpcType e) endpoints) in
  exists k top, In k ranked /\ head ranked = Some top /\
    (forall e, In e endpoints -> f64_ge (rank_score s top) (rank_score s (key_of s serviceID rpcType e)) = true) /\
    key_EndpointAddr k = key_EndpointAddr (key_of s serviceID rpcType ep) /\
    (k = top \/ let score := scoreOf s serviceID (GetScores s ranked) in fgeb (score k) (fsub (score top) retryHedgeScoreEpsilon) = true).

Lemma score_band_In s serviceID ranked k : In k (score_band s serviceID ranked) ->
  exists top, head ranked = Some top /\ In k ranked /\
    (k = top \/ let score := scoreOf s serviceID (GetScores s ranked) in fgeb (score k) (fsub (score top) retryHedgeScoreEpsilon) = true).
Proof.
  destruct ranked as [|top rest]; cbn [score_band]; [intros []|]. intros [<-|Hin]; exists top; split; try reflexivity.
  - split; [now left|now left].
  - apply band_prefix_spec in Hin as [Hin Hs]. split; [now right|now right].
Qed.

Lemma ranked_perm s keys : RankEndpointsByScore s keys ≡ₚ keys.
Proof.
  destruct keys as [|k keys]; [reflexivity|]. unfold RankEndpointsByScore.
  rewrite (sort_desc_perm (map (fun key => (key, rank_score s key)) (k :: keys))), map_map. cbn [fst]. now rewrite map_id.
Qed.

Lemma ranked_top s keys top : head (RankEndpointsByScore s keys) = Some top ->
  forall k, In k keys -> f64_ge (rank_score s top) (rank_score s k) = true.
Proof.
  destruct keys as [|k0 keys]; [discriminate|]. unfold RankEndpointsByScore.
  set (l := map _ (k0 :: keys)). pose proof (sort_desc_sorted l) as Hs. pose proof (sort_desc_perm l) as Hp.
  destruct (sort_stable_desc l) as [|[t v] rest] eqn:E; [discriminate|]. cbn [map head]. intros [= ->] k Hk.
  assert (forall x, In x ((top, v) :: rest) -> In x l) as Hsub by (intros x; apply Permutation_in, Hp).
  assert (v = rank_score s top) as -> by (destruct (proj1 (in_map_iff _ _ _) (Hsub _ (or_introl eq_refl))) as (k' & [= -> <-] & _); reflexivity).
  assert (In (k, rank_score s k) ((top, rank_score s top) :: rest)) as [Heq|Hin].
  { eapply Permutation_in; [symmetry; exact Hp|]. apply in_map_iff. eauto. }
  - injection Heq as -> _. destruct (f64_ge_total (rank_score s k) (rank_score s k)); assumption.
  - apply StronglySorted_inv in Hs as [_ Hs]. rewrite Forall_forall in Hs. apply list_elem_of_In in Hin. exact (Hs _ Hin).
Qed.

Lemma band_endpoint_ok s serviceID rpcType endpoints ep :
  In ep (omap (fun k => keyToOriginalEndpoint s serviceID rpcType endpoints !! key_EndpointAddr k)
              (score_band s serviceID (RankEndpointsByScore s (map (fun e => key_of s serviceID rpcType e) endpoints)))) ->
  In ep endpoints /\ in_top_band s serviceID rpcType endpoints ep.
Proof.
  intros Hin. apply list_elem_of_In in Hin. apply list_elem_of_omap in Hin as (k & Hk%list_elem_of_In & Hm).
  apply original_spec in Hm as [Hm|[Hm Ha]]; [now rewrite lookup_empty in Hm|]. split; [exact Hm|].
  destruct (score_band_In _ _ _ _ Hk) as (top & Ht & Hr & Hs). exists k, top. repeat split; auto.
  intros e He. apply (ranked_top _ _ _ Ht). now apply (in_map (fun e => key_of s serviceID rpcType e)).
Qed.

(** The pick never fails and returns an endpoint it was given. *)
Lemma top_ranked_always svc g cap serviceID rpcType endpoints : endpoints <> [] ->
  always (R := R) (selectTopRankedEndpoint svc g cap serviceID rpcType endpoints)
    (fun ep => In ep endpoints /\
       match svc, endpoints with
       | Some s, _ :: _ :: _ => in_top_band s serviceID rpcType endpoints ep \/ Some ep = head endpoints
       | _, _ => Some ep = head endpoints
       end).
Proof.
  intros Hne. destruct endpoints as [|e1 [|e2 rest]]; [congruence|apply always_ret; split; [now left|now destruct svc]|].
  destruct svc as [s|]; [|apply always_ret; split; [now left|reflexivity]]. cbn [selectTopRankedEndpoint].
  set (eps := e1 :: e2 :: rest). pose proof (band_endpoint_ok s serviceID rpcType eps) as Hok.
  destruct (RankEndpointsByScore s _) as [|k0 ks]; [apply always_ret; split; [now left|now right]|].
  eapply always_bind; [apply pickFromBand_always|]. intros picked Hp. apply always_ret.
  destruct (String.eqb_spec picked "") as [->|Hpe]; [split; [now left|now right]|].
  destruct Hp as [[_ ->]|Hp]; [congruence|]. destruct (Hok picked Hp). split; [assumption|now left].
Qed.

Lemma original_total s serviceID rpcType eps : forall (m : gmap EndpointAddr EndpointAddr) a,
  (is_Some (m !! a) \/ exists ep, In ep eps /\ key_EndpointAddr (key_of s serviceID rpcType ep) = a) ->
  is_Some (fold_left (fun m ep =>
    let key := key_of s serviceID rpcType ep in
    match m !! key_EndpointAddr key with Some _ => m | None => <[key_EndpointAddr key := ep]> m end) eps m !! a).
Proof.
  induction eps as [|e eps IH]; intros m a Ha; [destruct Ha as [Ha|(ep & [] & _)]; exact Ha|]. cbn [fold_left]. cbv zeta. apply IH.
  destruct (m !! key_EndpointAddr (key_of s serviceID rpcType e)) eqn:E.
  - destruct Ha as [Ha|(ep & [<-|Hin] & Hk)]; [now left|left; rewrite <- Hk, E; eauto|right; eauto].
  - destruct (decide (key_EndpointAddr (key_of s serviceID rpcType e) = a)) as [<-|Hne]; [left; rewrite lookup_insert_eq; eauto|].
    rewrite lookup_insert_ne by exact Hne. destruct Ha as [Ha|(ep & [<-|Hin] & Hk)]; [now left|congruence|right; eauto].
Qed.

(** The band holds an endpoint of the best score. *)
Lemma band_nonempty s serviceID rpcType endpoints : endpoints <> [] ->
  omap (fun k => keyToOriginalEndpoint s serviceID rpcType endpoints !! key_EndpointAddr k)
       (score_band s serviceID (RankEndpointsByScore s (map (fun e => key_of s serviceID rpcType e) endpoints))) <> [].
Proof.
  intros Hne. set (keys := map _ endpoints). pose proof (ranked_perm s keys) as Hp.
  destruct (RankEndpointsByScore s keys) as [|top rest].
  { exfalso. apply Permutation_nil in Hp. subst keys. destruct endpoints; [now apply Hne|discriminate Hp]. }
  assert (In top keys) as Hin by (eapply Permutation_in; [exact Hp|now left]). apply in_map_iff in Hin as (ep & Hk & Hep).
  destruct (original_total s serviceID rpcType endpoints ∅ (key_EndpointAddr top)) as [e He].
  { right. exists ep. split; [exact Hep|now rewrite Hk]. }
  intros Hnil. apply (f_equal (fun l => e ∈ l)) in Hnil. assert (e ∈ ([] : list EndpointAddr)) as Habs; [|now apply not_elem_of_nil in Habs].
  rewrite <- Hnil. apply list_elem_of_omap. exists top. split; [apply list_elem_of_here|exact He].
Qed.

(** The endpoint for a retry, a hedge or a batch item is one of the candidates, and
    its reputation key scores within two points of the key no other key outranks;
    whatever the random draws, the selection returns. *)
Theorem top_ranked_in_band (s : service St) g cap serviceID rpcType (e1 e2 : EndpointAddr) rest :
  ~ In "" (e1 :: e2 :: rest) ->
  always (R := R) (selectTopRankedEndpoint (Some s) g cap serviceID rpcType (e1 :: e2 :: rest))
    (fun ep => In ep (e1 :: e2 :: rest) /\ in_top_band s serviceID rpcType (e1 :: e2 :: rest) ep).
Proof.
  intros Hempty. cbn [selectTopRankedEndpoint]. set (eps := e1 :: e2 :: rest) in *.
  pose proof (band_endpoint_ok s serviceID rpcType eps) as Hok. pose proof (band_nonempty s serviceID rpcType eps ltac:(discriminate)) as Hnb.
  destruct (RankEndpointsByScore s _) as [|k0 ks]; [now destruct Hnb|].
  eapply always_bind; [apply pickFromBand_always|]. intros picked [[Hp _]|Hp]; [congruence|]. apply always_ret.
  destruct (String.eqb_spec picked "") as [->|Hpe]; [now destruct (Hok "" Hp)|now apply Hok].
Qed.
End Promises.

(** Three endpoints on a service with a penalised supplier among them. *)
Definition band_pool : list EndpointAddr := ["p1-https://a.one.com"; "p2-https://b.two.com"; "p3-https://c.three.com"].
Definition band_service : service MemoryStorage :=
  RecordSignal demo_service 5 (BuildKey (KeyBuilderForService demo_service "eth") "eth" "p2-https://b.two.com" 3) (NewCriticalErrorSignal 5 "http 502" 0).

Lemma top_ranked_in_band_witness :
  selectTopRankedEndpoint (R := Z) (Some band_service) initial_settings None "eth" 3 band_pool 7 = Some ("p3-https://c.three.com", 10) /\
  always (R := Z) (selectTopRankedEndpoint (Some band_service) initial_settings None "eth" 3 band_pool)
    (fun ep => In ep band_pool /\ in_top_band band_service "eth" 3 band_pool ep).
Proof.
  split; [vm_compute; reflexivity|]. apply top_ranked_in_band.
  intros [H|[H|[H|H]]]; [discriminate H|discriminate H|discriminate H|exact H].
Defined.
