(* ===== verification/RelayLoop.v ===== *)
(** * The relay paths of a request

    gateway/http_request_context_handle_request.go: the single-request loop with its
    hedged first attempt, the loop of a batch item, the batch, and the parallel
    fan-out with its collector.  What the loops call of other components is the
    class [RelayEnv]: the context, the protocol (endpoints, contexts, relays), the QoS
    validation, the ranked selection ([RelaySelect]), the hedge race ([Hedge]) and
    the circuit breaker ([CircuitBreaker]); their calls with effects are recorded in
    order. *)

From S2P Require Import Prelude GoStrings Utf8 Float64 Domain RepKey Signals Json CircuitBreaker RPCTypes Heuristic RelayPolicy.
From Stdlib Require Import ZArith Lia Bool Ascii String.
From stdpp Require Import base gmap strings list.

Open Scope string_scope.
Open Scope Z_scope.

(** The protocol context a relay goes through: one of rc.protocolContexts, or the one
    built for an endpoint. *)
Inductive relay_ctx := InitialCtx (i : nat) | EndpointCtx (ep : EndpointAddr).

(** The calls that leave a trace. *)
Inductive effect :=
| EvRelay (c : relay_ctx)                        (** HandleServiceRequest *)
| EvRace (c : relay_ctx) (primary : EndpointAddr) (** hedgeRacer.race *)
| EvBuild (ep : EndpointAddr)                    (** BuildHTTPRequestContextForEndpoint *)
| EvMarkBroken (domain reason : string)
| EvRecordSuccess (domain : string)
| EvSignal (ep : EndpointAddr) (sg : Signal)     (** RecordSignal on the endpoint's key *)
| EvUpdate (r : relay_response)                  (** qosCtx.UpdateWithResponse *)
| EvObserve (r : relay_response)                 (** tryQueueObservation *)
| EvProtocolError (e : go_error)                 (** qosCtx.SetProtocolError *)
| EvExhausted (category : string).

Record race_outcome := mkRace {
  ro_responses : list relay_response;
  ro_err : option go_error;
  ro_hedgeEndpoint : EndpointAddr;
  ro_raceResult : string;
  ro_suppliers : list string; (** the suppliers it recorded as tried, in order *)
}.

Class RelayEnv (W : Type) := {
  env_now : W -> Time;
  env_ctx_err : W -> option go_error * W;
  env_broken : W -> gset string * W;
  env_available : Z -> W -> result go_error (list EndpointAddr) * W;
  env_validate : list EndpointAddr -> W -> result go_error (list EndpointAddr) * W;
  env_requires_archival : W -> bool;
  env_top_ranked : list EndpointAddr -> Z -> W -> EndpointAddr * W;
  env_build : EndpointAddr -> Z -> W -> option go_error * W;
  env_send : relay_ctx -> list Payload -> W -> (list relay_response * option go_error * Duration) * W;
  env_race : relay_ctx -> EndpointAddr -> list EndpointAddr -> Payload -> W -> race_outcome * W;
  env_apply : effect -> W -> W;
}.

(** What the loops rely on: a ranked selection returns a candidate or nothing. *)
Class RelayEnvLaws (W : Type) `{RelayEnv W} : Prop := {
  top_ranked_member : forall eps t w ep w', env_top_ranked eps t w = (ep, w') -> ep = "" \/ In ep eps;
}.

(** ** Computations over the environment *)

Section Monad.
Context {W : Type}.
Definition M (A : Type) : Type := W * list effect -> A * (W * list effect).
Definition eret {A} (a : A) : M A := fun s => (a, s).
Definition ebind {A B} (m : M A) (k : A -> M B) : M B := fun s => let '(a, s') := m s in k a s'.
Definition ask {A} (f : W -> A * W) : M A := fun s => let '(a, w') := f (fst s) in (a, (w', snd s)).
Definition peek {A} (f : W -> A) : M A := fun s => (f (fst s), s).
Context `{RelayEnv W}.
Definition emit (e : effect) : M unit := fun s => (tt, (env_apply e (fst s), (snd s ++ [e])%list)).
End Monad.
Arguments M : clear implicits.

Declare Scope relay_scope.
Notation "'let&' x ':=' m 'in' k" := (ebind m (fun x => k))
  (at level 10, x pattern, m at level 100, k at level 200) : relay_scope.
Notation "m ;; k" := (ebind m (fun _ => k)) (at level 100, right associativity) : relay_scope.
Open Scope relay_scope.

(** How an iteration of a loop ends. *)
Inductive flow (L R : Type) := Continue (l : L) | Break (l : L) | Return (r : R).
Arguments Continue {L R}. Arguments Break {L R}. Arguments Return {L R}.

Section Loops.
Context {W : Type} `{RelayEnv W}.

(** [for attempt := a; attempt <= a + n - 1; attempt++] *)
Fixpoint for_attempts {L R} (n : nat) (a : Z) (body : Z -> L -> M W (flow L R)) (l : L) : M W (L + R) :=
  match n with
  | O => eret (inl l)
  | S n' =>
      let& f := body a l in
      match f with
      | Continue l' => for_attempts n' (a + 1) body l'
      | Break l' => eret (inl l')
      | Return r => eret (inr r)
      end
  end.

Fixpoint emit_all (es : list effect) : M W unit :=
  match es with [] => eret tt | e :: rest => emit e ;; emit_all rest end.

Definition when (b : bool) (m : M W unit) : M W unit := if b then m else eret tt.

Context `{DomainLib} `{UnicodeCase} `{RPCTypeMembers}.

(** The request: its breaker and its retry configuration. *)
Record request := mkRequest {
  rq_serviceID : string;
  rq_breaker : bool;      (** rc.circuitBreaker != nil *)
  rq_reputation : bool;   (** the protocol has a reputation service *)
  rq_retry : option ServiceRetryConfig;
}.
Implicit Types (rq : request).

Definition broken_domains rq : M W (gset string) := if rq_breaker rq then ask env_broken else eret ∅.

Definition record_signal rq (ep : EndpointAddr) (hr : option AnalysisResult) : M W unit :=
  let& now := peek env_now in
  match recordHeuristicErrorToReputation now hr with
  | Some sg => when (rq_reputation rq) (emit (EvSignal ep sg))
  | None => eret tt
  end.

Definition record_success rq (ep : EndpointAddr) : M W unit :=
  let domain := computeDomainFromEndpoint ep in
  when (rq_breaker rq && negb (domain =? "")%string) (emit (EvRecordSuccess domain)).

Definition mark_broken rq (ep : EndpointAddr) (fault : bool) (reason : string) : M W unit :=
  let domain := computeDomainFromEndpoint ep in
  when (rq_breaker rq && negb (domain =? "")%string && fault) (emit (EvMarkBroken domain reason)).

(** The QoS validation replaces the list when it succeeds with something. *)
Definition validated (eps : list EndpointAddr) : M W (list EndpointAddr) :=
  let& v := ask (env_validate eps) in
  eret match v with Ok (e :: es) => e :: es | _ => eps end.

Definition is_nonempty {A} (l : list A) : bool := match l with [] => false | _ => true end.

(** ** The loop of a batch item *)

Record batch_locals := mkBatchLocals {
  bl_lastErr : option go_error;
  bl_lastResponse : relay_response;
  bl_tried : gset EndpointAddr;
  bl_triedDomains : gset string;
  bl_capabilityFailures : Z;
}.

Definition fail_with (l : batch_locals) (e : option go_error) (r : relay_response) : batch_locals :=
  mkBatchLocals e r (bl_tried l) (bl_triedDomains l) (bl_capabilityFailures l).
Definition with_tried (l : batch_locals) (ep : EndpointAddr) : batch_locals :=
  mkBatchLocals (bl_lastErr l) (bl_lastResponse l) ({[ep]} ∪ bl_tried l) (markDomainTried (bl_triedDomains l) ep) (bl_capabilityFailures l).

Definition batch_flow := flow batch_locals (relay_response * option go_error).

(** The end of a failed attempt: the capability budget decides. *)
Definition spend_capability (l : batch_locals) (hr : option AnalysisResult) : batch_flow :=
  let '(n, _, budgetSpent) := noteCapabilityFailure (bl_capabilityFailures l) hr (bl_lastErr l) in
  let l := mkBatchLocals (bl_lastErr l) (bl_lastResponse l) (bl_tried l) (bl_triedDomains l) n in
  if budgetSpent then Break l else Continue l.

(** The hedged first attempt; [None] falls through to the normal path. *)
Definition batch_hedge rq (p : Payload) (rpcType : Z) (selected : EndpointAddr) (filtered : list EndpointAddr) (l : batch_locals)
  : M W (option batch_flow) :=
  emit (EvRace (EndpointCtx selected) selected) ;;
  let& out := ask (env_race (EndpointCtx selected) selected filtered p) in
  match ro_err out, ro_responses out with
  | None, resp :: _ =>
      let batchRequestID := extractRequestIDFromPayload p in
      let check := checkResponseSuccess None (rr_HTTPStatusCode resp) (rr_body resp) (EffectiveRPCType p) (payload_method p) batchRequestID in
      if ck_Success check then
        when (negb (rr_EndpointAddr resp =? "")%string) (record_success rq (rr_EndpointAddr resp)) ;;
        eret (Some (Return (with_request_id resp batchRequestID, None)))
      else
        let l := fail_with l (Some (errorf "hedge response failed heuristic check")) resp in
        record_signal rq (rr_EndpointAddr resp) (ck_HeuristicResult check) ;;
        let l := if negb (ro_hedgeEndpoint out =? "")%string then with_tried l (ro_hedgeEndpoint out) else l in
        eret (Some (spend_capability l (ck_HeuristicResult check)))
  | _, _ => eret None
  end.

Definition fmt_index (index : Z) : string := fmt_int index.

Definition batch_relay rq (p : Payload) (index rpcType : Z) (selected : EndpointAddr) (l : batch_locals) : M W batch_flow :=
  emit (EvRelay (EndpointCtx selected)) ;;
  let& (responses, err, _) := ask (env_send (EndpointCtx selected) [p]) in
  let failed e :=
    let last := match responses with r :: _ => with_request_id r (extractRequestIDFromPayload p) | [] => bl_lastResponse l end in
    let l := fail_with l (Some e) last in
    let& ctxErr := (if rq_breaker rq then ask env_ctx_err else eret None) in
    when (negb (match ctxErr with Some _ => true | None => false end))
      (mark_broken rq selected (shouldCircuitBreak None 0 (Some e)) ("batch_transport_error: " +:+ err_Error e)) ;;
    eret (spend_capability l None) in
  match err, responses with
  | Some e, _ => failed e
  | None, [] => failed (errorf ("empty response for batch item " +:+ fmt_index index))
  | None, resp0 :: _ =>
      let resp := with_request_id resp0 (extractRequestIDFromPayload p) in
      let check := checkResponseSuccess None (rr_HTTPStatusCode resp) (rr_body resp) (EffectiveRPCType p) (payload_method p) (rr_RequestID resp) in
      if ck_Success check then record_success rq selected ;; eret (Return (resp, None))
      else
        let l := fail_with l (Some (errorf "response failed heuristic check")) resp in
        record_signal rq (rr_EndpointAddr resp) (ck_HeuristicResult check) ;;
        let reason := match ck_HeuristicResult check with Some hr => Reason hr | None => "unknown" end in
        mark_broken rq selected (shouldCircuitBreak (ck_HeuristicResult check) (rr_HTTPStatusCode resp) None)
          ("batch_heuristic: " +:+ reason +:+ " | status=" +:+ fmt_int (rr_HTTPStatusCode resp) +:+
           " | response=" +:+ truncateResponse (rr_body resp) 512) ;;
        eret (spend_capability l (ck_HeuristicResult check))
  end.

Definition batch_attempt rq (p : Payload) (index rpcType hedgeDelay attempt : Z) (l : batch_locals) : M W batch_flow :=
  let& ctxErr := ask env_ctx_err in
  match ctxErr with
  | Some e => eret (Return (bl_lastResponse l, match bl_lastErr l with Some e' => Some e' | None => Some e end))
  | None =>
      let& av := ask (env_available rpcType) in
      match av with
      | Err _ | Ok [] =>
          eret (Continue (fail_with l (Some (errorf ("no endpoints available for batch item " +:+ fmt_index index))) (bl_lastResponse l)))
      | Ok available =>
          let& available := validated available in
          match filterEndpoints available (bl_tried l) (bl_triedDomains l) with
          | [] => eret (Break l)
          | (first :: _) as filtered =>
              let& ranked := ask (env_top_ranked filtered rpcType) in
              let selected := if (ranked =? "")%string then first else ranked in
              let l := with_tried l selected in
              emit (EvBuild selected) ;;
              let& buildErr := ask (env_build selected rpcType) in
              match buildErr with
              | Some e => eret (Continue (fail_with l (Some e) (bl_lastResponse l)))
              | None =>
                  let& hedged :=
                    (if (attempt =? 1) && (0 <? hedgeDelay) && (1 <? Z.of_nat (List.length filtered))
                     then batch_hedge rq p rpcType selected filtered l else eret None) in
                  match hedged with
                  | Some f => eret f
                  | None => batch_relay rq p index rpcType selected l
                  end
              end
          end
      end
  end.

Definition batch_hedge_delay rq (batchSize : Z) : Duration :=
  if (0 <? hedge_delay (rq_retry rq)) && shouldSuppressHedgeForBatch (rq_retry rq) batchSize then 0 else hedge_delay (rq_retry rq).

(** The loop and what is returned after it, from the domains excluded at the start. *)
Definition process_from rq (p : Payload) (index batchSize rpcType : Z) (broken : gset string) : M W (relay_response * option go_error) :=
  let l := mkBatchLocals None zero_response ∅ broken 0 in
  let& out := for_attempts (Z.to_nat (maxAttempts (rq_retry rq))) 1 (batch_attempt rq p index rpcType (batch_hedge_delay rq batchSize)) l in
  match out with
  | inr r => eret r
  | inl l =>
      let last := bl_lastResponse l in
      eret (if (rr_RequestID last =? "")%string then with_request_id last (extractRequestIDFromPayload p) else last, bl_lastErr l)
  end.

Definition processSinglePayloadWithRetry rq (p : Payload) (index batchSize rpcType : Z) : M W (relay_response * option go_error) :=
  let& broken := broken_domains rq in process_from rq p index batchSize rpcType broken.

(** ** The batch *)

(** The items run on their own goroutines; here one after the other. *)
Fixpoint process_items rq (batchSize rpcType index : Z) (payloads : list Payload) : M W (list (relay_response * option go_error)) :=
  match payloads with
  | [] => eret []
  | p :: rest =>
      let& r := processSinglePayloadWithRetry rq p index batchSize rpcType in
      let& rs := process_items rq batchSize rpcType (index + 1) rest in
      eret (r :: rs)
  end.

Definition handleBatchRelayRequest rq (maxBatchPayloads : Z) (payloads : list Payload) : M W (option go_error) :=
  let n := Z.of_nat (List.length payloads) in
  if (0 <? maxBatchPayloads) && (maxBatchPayloads <? n)
  then eret (Some (errorf ("batch size " +:+ fmt_int n +:+ " exceeds the configured max_batch_payloads " +:+ fmt_int maxBatchPayloads)))
  else
    let& results := process_items rq n (match payloads with p :: _ => pl_RPCType p | [] => 0 end) 0 payloads in
    emit_all (map (fun r => EvUpdate (fst r))
      (List.filter (fun r => match rr_Bytes (fst r), snd r with None, None => false | _, _ => true end) results)) ;;
    eret None.

(** ** The single-request loop *)

Record rc_fields := mkRcFields {
  rc_retryCount : Z;
  rc_suppliersTried : list string;
  rc_relayMetadata : list RelayMetadata;
  rc_hedgeResult : string;
}.

Record single_locals := mkSingleLocals {
  sl_lastErr : option go_error;
  sl_lastStatusCode : Z;
  sl_lastEndpointAddr : EndpointAddr;
  sl_lastCircuitBreakReason : string;
  sl_lastResponseSnippet : string;
  sl_lastHeuristicResult : option AnalysisResult;
  sl_capabilityFailures : Z;
  sl_tried : gset EndpointAddr;
  sl_triedDomains : gset string;
  sl_protocolCtx : relay_ctx;
  sl_current : EndpointAddr;
  sl_rc : rc_fields;
}.

Definition single_flow := flow single_locals (option go_error * rc_fields).

Definition sl_with_err (l : single_locals) (e : option go_error) : single_locals :=
  mkSingleLocals e (sl_lastStatusCode l) (sl_lastEndpointAddr l) (sl_lastCircuitBreakReason l) (sl_lastResponseSnippet l)
    (sl_lastHeuristicResult l) (sl_capabilityFailures l) (sl_tried l) (sl_triedDomains l) (sl_protocolCtx l) (sl_current l) (sl_rc l).
Definition sl_with_rc (l : single_locals) (rc : rc_fields) : single_locals :=
  mkSingleLocals (sl_lastErr l) (sl_lastStatusCode l) (sl_lastEndpointAddr l) (sl_lastCircuitBreakReason l) (sl_lastResponseSnippet l)
    (sl_lastHeuristicResult l) (sl_capabilityFailures l) (sl_tried l) (sl_triedDomains l) (sl_protocolCtx l) (sl_current l) rc.
Definition sl_with_tried (l : single_locals) (ep : EndpointAddr) : single_locals :=
  mkSingleLocals (sl_lastErr l) (sl_lastStatusCode l) (sl_lastEndpointAddr l) (sl_lastCircuitBreakReason l) (sl_lastResponseSnippet l)
    (sl_lastHeuristicResult l) (sl_capabilityFailures l) ({[ep]} ∪ sl_tried l) (markDomainTried (sl_triedDomains l) ep)
    (sl_protocolCtx l) (sl_current l) (sl_rc l).
Definition sl_with_current (l : single_locals) (ep : EndpointAddr) : single_locals :=
  mkSingleLocals (sl_lastErr l) (sl_lastStatusCode l) (sl_lastEndpointAddr l) (sl_lastCircuitBreakReason l) (sl_lastResponseSnippet l)
    (sl_lastHeuristicResult l) (sl_capabilityFailures l) (sl_tried l) (sl_triedDomains l) (sl_protocolCtx l) ep (sl_rc l).
Definition sl_with_ctx (l : single_locals) (c : relay_ctx) : single_locals :=
  mkSingleLocals (sl_lastErr l) (sl_lastStatusCode l) (sl_lastEndpointAddr l) (sl_lastCircuitBreakReason l) (sl_lastResponseSnippet l)
    (sl_lastHeuristicResult l) (sl_capabilityFailures l) (sl_tried l) (sl_triedDomains l) c (sl_current l) (sl_rc l).
Definition sl_with_capability (l : single_locals) (n : Z) : single_locals :=
  mkSingleLocals (sl_lastErr l) (sl_lastStatusCode l) (sl_lastEndpointAddr l) (sl_lastCircuitBreakReason l) (sl_lastResponseSnippet l)
    (sl_lastHeuristicResult l) n (sl_tried l) (sl_triedDomains l) (sl_protocolCtx l) (sl_current l) (sl_rc l).

Definition rc_with_suppliers (rc : rc_fields) (s : list string) : rc_fields :=
  mkRcFields (rc_retryCount rc) s (rc_relayMetadata rc) (rc_hedgeResult rc).

Definition capture_metadata (rc : rc_fields) (rs : list relay_response) : rc_fields :=
  mkRcFields (rc_retryCount rc) (rc_suppliersTried rc)
    (fold_left (fun md r => if (List.length md <? 10)%nat then (md ++ [rr_Metadata r])%list else md) rs (rc_relayMetadata rc)) (rc_hedgeResult rc).

(** The responses of a finished relay reach the QoS context and the observation queue. *)
Definition deliver (rs : list relay_response) : M W unit := emit_all (concat (map (fun r => [EvUpdate r; EvObserve r]) rs)).

Definition heuristic_reason (hr : AnalysisResult) : string :=
  "heuristic: " +:+ Reason hr +:+ " (confidence=" +:+ fmt_f2 (Confidence hr) +:+ ")".

(** The rotation before a retry; [None] in the first component breaks the loop. *)
Definition single_rotate rq (rpcType : Z) (l0 : single_locals) : M W (bool * single_locals) :=
  let rc := sl_rc l0 in
  let l0 := sl_with_rc l0 (mkRcFields (rc_retryCount rc + 1) (rc_suppliersTried rc) (rc_relayMetadata rc) (rc_hedgeResult rc)) in
  let l := sl_with_tried l0 (sl_current l0) in
  mark_broken rq (sl_current l) (shouldCircuitBreak (sl_lastHeuristicResult l) (sl_lastStatusCode l) (sl_lastErr l))
    ("retry: " +:+ sl_lastCircuitBreakReason l +:+ " | status=" +:+ fmt_int (sl_lastStatusCode l) +:+ " | response=" +:+ sl_lastResponseSnippet l) ;;
  let& av := ask (env_available rpcType) in
  match av with
  | Err e => eret (false, sl_with_err l (Some e))
  | Ok [] => eret (false, sl_with_err l (Some (errorf "no endpoints available for retry")))
  | Ok available =>
      let& available := validated available in
      match filterEndpoints available (sl_tried l) (sl_triedDomains l) with
      | [] => eret (false, l)
      | filtered =>
          let& newEndpointAddr := ask (env_top_ranked filtered rpcType) in
          if (newEndpointAddr =? "")%string then eret (false, sl_with_err l (Some (errorf "no endpoints available for retry")))
          else
            let l := sl_with_current l newEndpointAddr in
            emit (EvBuild newEndpointAddr) ;;
            let& err := ask (env_build newEndpointAddr rpcType) in
            match err with
            | Some e => eret (false, sl_with_err l (Some e))
            | None => eret (true, sl_with_ctx l (EndpointCtx newEndpointAddr))
            end
      end
  end.

(** The locals after a hedge race that brought no success. *)
Definition hedge_failed_locals (l : single_locals) (out : race_outcome) (check : option responseCheckResult) : single_locals :=
  match check, ro_responses out with
  | Some ck, resp :: _ =>
      mkSingleLocals (Some (errorf "hedge race response failed heuristic check")) (rr_HTTPStatusCode resp) (rr_EndpointAddr resp)
        (match ck_HeuristicResult ck with Some hr => heuristic_reason hr | None => sl_lastCircuitBreakReason l end)
        (truncateResponse (rr_body resp) 512) (ck_HeuristicResult ck) (sl_capabilityFailures l) (sl_tried l) (sl_triedDomains l)
        (sl_protocolCtx l) (rr_EndpointAddr resp) (sl_rc l)
  | _, resp :: _ =>
      mkSingleLocals (ro_err out) (rr_HTTPStatusCode resp) (rr_EndpointAddr resp) ("hedge_failed: " +:+ fmt_err (ro_err out))
        (truncateResponse (rr_body resp) 512) (sl_lastHeuristicResult l) (sl_capabilityFailures l) (sl_tried l) (sl_triedDomains l)
        (sl_protocolCtx l) (rr_EndpointAddr resp) (sl_rc l)
  | _, [] =>
      mkSingleLocals (ro_err out) (sl_lastStatusCode l) (sl_lastEndpointAddr l) ("hedge_failed: " +:+ fmt_err (ro_err out))
        (sl_lastResponseSnippet l) (sl_lastHeuristicResult l) (sl_capabilityFailures l) (sl_tried l) (sl_triedDomains l)
        (sl_protocolCtx l) (sl_current l) (sl_rc l)
  end.

(** After a hedge race without success: the endpoints are tried, the budget decides. *)
Definition hedge_give_up (primary : EndpointAddr) (out : race_outcome) (l : single_locals) : M W single_flow :=
  let l := sl_with_tried l primary in
  let l := if (ro_hedgeEndpoint out =? "")%string then l else sl_with_tried l (ro_hedgeEndpoint out) in
  let '(n, isCapability, budgetSpent) := noteCapabilityFailure (sl_capabilityFailures l) (sl_lastHeuristicResult l) (sl_lastErr l) in
  let l := sl_with_capability l n in
  match ro_responses out with
  | resp :: _ => when (isCapability && negb (rr_body resp =? "")%string) (emit (EvUpdate resp))
  | [] => eret tt
  end ;;
  eret (if isCapability && budgetSpent then Break l else Continue l).

Definition single_hedge rq (p : Payload) (available : list EndpointAddr) (primary : EndpointAddr) (l : single_locals) : M W single_flow :=
  emit (EvRace (sl_protocolCtx l) primary) ;;
  let& out := ask (env_race (sl_protocolCtx l) primary available p) in
  let rc := sl_rc l in
  let l := sl_with_rc l (mkRcFields (rc_retryCount rc) (fold_left addSupplierTried (ro_suppliers out) (rc_suppliersTried rc)) (rc_relayMetadata rc) (ro_raceResult out)) in
  match ro_err out, ro_responses out with
  | None, resp :: _ =>
      let check := checkResponseSuccess None (rr_HTTPStatusCode resp) (rr_body resp) (EffectiveRPCType p) (payload_method p) (rr_RequestID resp) in
      if ck_Success check then
        when (negb (rr_EndpointAddr resp =? "")%string) (record_success rq (rr_EndpointAddr resp)) ;;
        deliver (ro_responses out) ;;
        eret (Return (None, capture_metadata (sl_rc l) (ro_responses out)))
      else
        when (negb (rr_EndpointAddr resp =? "")%string) (record_signal rq (rr_EndpointAddr resp) (ck_HeuristicResult check)) ;;
        hedge_give_up primary out (hedge_failed_locals l out (Some check))
  | _, _ => hedge_give_up primary out (hedge_failed_locals l out None)
  end.

(** What a failed attempt leaves behind. *)
Definition failed_locals (l : single_locals) (err : option go_error) (statusCode : Z) (endpointAddr : EndpointAddr)
  (body : string) (hr : option AnalysisResult) : single_locals :=
  mkSingleLocals err statusCode endpointAddr
    (match err with
     | Some e => "transport_error: " +:+ err_Error e
     | None => match hr with Some r => heuristic_reason r | None => "http_status_" +:+ fmt_int statusCode end
     end)
    (truncateResponse body 512) hr (sl_capabilityFailures l) (sl_tried l) (sl_triedDomains l) (sl_protocolCtx l) (sl_current l) (sl_rc l).

Definition single_relay rq (p : Payload) (attempt : Z) (l : single_locals) : M W single_flow :=
  emit (EvRelay (sl_protocolCtx l)) ;;
  let& (responses, err, attemptDuration) := ask (env_send (sl_protocolCtx l) [p]) in
  let statusCode := match responses with r :: _ => rr_HTTPStatusCode r | [] => 0 end in
  let endpointAddr := match responses with r :: _ => rr_EndpointAddr r | [] => "" end in
  let body := match responses with r :: _ => rr_body r | [] => "" end in
  let requestID := match responses with r :: _ => rr_RequestID r | [] => "" end in
  let supplier := match responses with
                  | r :: _ => if (rm_SupplierAddress (rr_Metadata r) =? "")%string then extractSupplierFromEndpoint endpointAddr
                              else rm_SupplierAddress (rr_Metadata r)
                  | [] => extractSupplierFromEndpoint (sl_current l)
                  end in
  let l := if is_nonempty responses && (attempt =? 1) then sl_with_current l endpointAddr else l in
  let l := sl_with_rc l (rc_with_suppliers (sl_rc l) (addSupplierTried (rc_suppliersTried (sl_rc l)) supplier)) in
  let check := checkResponseSuccess err statusCode body (EffectiveRPCType p) (payload_method p) requestID in
  if ck_Success check then
    when (negb (endpointAddr =? "")%string) (record_success rq endpointAddr) ;;
    deliver responses ;;
    eret (Return (None, capture_metadata (sl_rc l) responses))
  else
    when (negb (endpointAddr =? "")%string) (record_signal rq endpointAddr (ck_HeuristicResult check)) ;;
    let l := failed_locals l err statusCode endpointAddr body (ck_HeuristicResult check) in
    let '(n, isCapability, budgetSpent) := noteCapabilityFailure (sl_capabilityFailures l) (ck_HeuristicResult check) err in
    let l := sl_with_capability l n in
    deliver responses ;;
    if attempt <? maxAttempts (rq_retry rq) then
      if (if isCapability then budgetSpent
          else negb (shouldRetry err statusCode attemptDuration (rq_retry rq) (ck_HeuristicResult check)))
      then eret (Break l)
      else
        let& ctxErr := ask env_ctx_err in
        eret match ctxErr with Some e => Return (Some e, sl_rc l) | None => Continue l end
    else eret (Continue l).

Definition single_attempt rq (p : Payload) (attempt : Z) (l : single_locals) : M W single_flow :=
  let rpcType := pl_RPCType p in
  let& ctxErr := ask env_ctx_err in
  match ctxErr with
  | Some e => eret (Return (Some e, sl_rc l))
  | None =>
      let& (go_on, l) := (if 1 <? attempt then single_rotate rq rpcType l else eret (true, sl_with_current l (sl_lastEndpointAddr l))) in
      if negb go_on then eret (Break l)
      else if (attempt =? 1) && (0 <? hedge_delay (rq_retry rq)) then
        let& av := ask (env_available rpcType) in
        match av with
        | Ok (e :: es) =>
            let& available := validated (e :: es) in
            single_hedge rq p available (match available with primary :: _ => primary | [] => "" end) l
        | _ => single_relay rq p attempt l
        end
      else single_relay rq p attempt l
  end.

Definition single_start (broken : gset string) (rc : rc_fields) : single_locals :=
  mkSingleLocals None 0 "" "" "" None 0 ∅ broken (InitialCtx 0) "" rc.

(** The end of the loop without a success. *)
Definition single_finish rq (l : single_locals) : M W (option go_error * rc_fields) :=
  emit (EvExhausted (relayExhaustionCategory (sl_lastHeuristicResult l) (sl_lastErr l))) ;;
  let e := match sl_lastErr l with
           | Some e => e
           | None => errorf ("relay request failed with status code " +:+ fmt_int (sl_lastStatusCode l) +:+ " after " +:+
                             fmt_int (maxAttempts (rq_retry rq)) +:+ " attempts")
           end in
  emit (EvProtocolError e) ;;
  eret (Some e, sl_rc l).

Definition single_from rq (p : Payload) (rc : rc_fields) (broken : gset string) : M W (option go_error * rc_fields) :=
  let& out := for_attempts (Z.to_nat (maxAttempts (rq_retry rq))) 1 (single_attempt rq p) (single_start broken rc) in
  match out with
  | inr r => eret r
  | inl l => single_finish rq l
  end.

Definition handleSingleRelayRequest rq (maxBatchPayloads : Z) (payloads : list Payload) (rc : rc_fields) : M W (option go_error * rc_fields) :=
  match payloads with
  | [] => eret (Some (errorf "no payloads available from QoS context"), rc)
  | _ :: _ :: _ => let& e := handleBatchRelayRequest rq maxBatchPayloads payloads in eret (e, rc)
  | [p] => let& broken := broken_domains rq in single_from rq p rc broken
  end.
End Loops.
