(* ===== verification/RelayLoopProps.v ===== *)
(** * Reasoning about the relay loops

    A predicate on the value of a computation and the calls it adds to the trace,
    with one rule per construct, and the rule of the attempt loops. *)

From S2P Require Import Prelude GoStrings Utf8 Float64 Domain RepKey Signals Json CircuitBreaker RPCTypes Heuristic RelayPolicy RelayLoop.
From Stdlib Require Import ZArith Lia Bool Ascii String.
From stdpp Require Import base gmap strings list.

Open Scope string_scope.
Open Scope Z_scope.
Open Scope relay_scope.

Create HintDb relay discriminated.

Section Logic.
Context {W : Type} `{RelayEnv W}.

(** The value and the calls of a run. *)
Definition value_of {A} (r : A * (W * list effect)) : A := fst r.
Definition trace_of {A} (r : A * (W * list effect)) : list effect := snd (snd r).

(** Whatever the environment answers, the value and the added calls satisfy [Q]. *)
Definition post {A} (m : M W A) (Q : A -> list effect -> Prop) : Prop :=
  forall w t, exists d, snd (snd (m (w, t))) = (t ++ d)%list /\ Q (fst (m (w, t))) d.

Lemma post_ret {A} (a : A) (Q : A -> list effect -> Prop) : Q a [] -> post (eret a) Q.
Proof. intros HQ w t. exists []. cbn. now rewrite app_nil_r. Qed.

Lemma post_ask {A} (f : W -> A * W) (Q : A -> list effect -> Prop) : (forall w, Q (fst (f w)) []) -> post (ask f) Q.
Proof.
  intros HQ w t. exists []. specialize (HQ w). unfold ask. cbn [fst snd]. destruct (f w) as [a w']. cbn in *. now rewrite app_nil_r.
Qed.

Lemma post_peek {A} (f : W -> A) (Q : A -> list effect -> Prop) : (forall a, Q a []) -> post (peek f) Q.
Proof. intros HQ w t. exists []. cbn. now rewrite app_nil_r. Qed.

Lemma post_emit e (Q : unit -> list effect -> Prop) : Q tt [e] -> post (emit e) Q.
Proof. intros HQ w t. now exists [e]. Qed.

Lemma post_mono {A} (m : M W A) (P Q : A -> list effect -> Prop) : post m P -> (forall a d, P a d -> Q a d) -> post m Q.
Proof. intros Hm HPQ w t. destruct (Hm w t) as (d & E & HP). eauto. Qed.

Lemma post_bind {A B} (m : M W A) (k : A -> M W B) (P : A -> list effect -> Prop) (Q : B -> list effect -> Prop) :
  post m P -> (forall a d, P a d -> post (k a) (fun b d' => Q b (d ++ d')%list)) -> post (ebind m k) Q.
Proof.
  intros Hm Hk w t. unfold ebind. destruct (Hm w t) as (d & E & HP). destruct (m (w, t)) as [a [w1 t1]]. cbn in *.
  destruct (Hk a d HP w1 t1) as (d' & E' & HQ). exists (d ++ d')%list. split; [rewrite E', E; now rewrite app_assoc|exact HQ].
Qed.

Lemma post_when b (m : M W unit) (Q : unit -> list effect -> Prop) : Q tt [] -> (b = true -> post m Q) -> post (when b m) Q.
Proof. intros H0 H1. destruct b; [now apply H1|now apply post_ret]. Qed.

Lemma post_emit_all es (Q : unit -> list effect -> Prop) : Q tt es -> post (emit_all es) Q.
Proof.
  revert Q. induction es as [|e es IH]; intros Q HQ; [now apply post_ret|]. cbn [emit_all].
  eapply post_bind; [apply (post_emit e (fun _ d => d = [e])); reflexivity|]. intros [] d ->. now apply IH.
Qed.

(** Two properties of one run. *)
Lemma post_and {A} (m : M W A) (P Q : A -> list effect -> Prop) : post m P -> post m Q -> post m (fun a d => P a d /\ Q a d).
Proof.
  intros HP HQ w t. destruct (HP w t) as (d & E & Hd). destruct (HQ w t) as (d' & E' & Hd').
  rewrite E in E'. apply app_inv_head in E' as <-. eauto.
Qed.

(** A loop: [I a l d] holds before attempt [a] with locals [l] after the calls [d]. *)
Lemma post_attempts {L R} (body : Z -> L -> M W (flow L R)) (I : Z -> L -> list effect -> Prop)
  (J : L -> list effect -> Prop) (K : R -> list effect -> Prop) n : forall a l d0,
  (forall b l d, a <= b < a + Z.of_nat n -> I b l d -> post (body b l)
     (fun f d' => match f with Continue l' => I (b + 1) l' (d ++ d')%list | Break l' => J l' (d ++ d')%list | Return r => K r (d ++ d')%list end)) ->
  (forall l d, I (a + Z.of_nat n) l d -> J l d) ->
  I a l d0 ->
  post (for_attempts n a body l) (fun o d => match o with inl l' => J l' (d0 ++ d)%list | inr r => K r (d0 ++ d)%list end).
Proof.
  induction n as [|n IH]; intros a l d0 Hbody Hend HI.
  - apply post_ret. rewrite app_nil_r. apply Hend. now rewrite Z.add_0_r.
  - cbn [for_attempts]. eapply post_bind; [apply (Hbody a l d0); [lia|exact HI]|]. intros [l'|l'|r] d Hd; cbn beta iota in Hd.
    + eapply post_mono; [apply (IH (a + 1) l' (d0 ++ d)%list)|].
      * intros b l2 d2 Hb. apply Hbody. lia.
      * intros l2 d2 H2. apply Hend. now replace (a + Z.of_nat (S n)) with (a + 1 + Z.of_nat n) by lia.
      * exact Hd.
      * intros o d' Ho. destruct o; now rewrite app_assoc.
    + apply post_ret. now rewrite app_nil_r.
    + apply post_ret. now rewrite app_nil_r.
Qed.

(** ** What the traces are measured by *)

Definition is_relay (e : effect) : bool := match e with EvRelay _ => true | _ => false end.
Definition is_race (e : effect) : bool := match e with EvRace _ _ => true | _ => false end.
Definition relays (d : list effect) : nat := List.length (List.filter is_relay d).
Definition races (d : list effect) : nat := List.length (List.filter is_race d).
Definition builds (d : list effect) : list EndpointAddr :=
  omap (fun e => match e with EvBuild ep => Some ep | _ => None end) d.

(** The contexts relayed on outside a race, in order. *)
Definition relayed (d : list effect) : list relay_ctx := omap (fun e => match e with EvRelay c => Some c | _ => None end) d.

Lemma relays_length d : relays d = List.length (relayed d).
Proof. unfold relays, relayed. induction d as [|[] d IH]; cbn; congruence. Qed.
Lemma relayed_none d : relays d = 0%nat -> relayed d = [].
Proof. rewrite relays_length. by destruct (relayed d). Qed.
Lemma relayed_app a b : relayed (a ++ b)%list = (relayed a ++ relayed b)%list.
Proof. apply omap_app. Qed.

Lemma relays_app a b : relays (a ++ b)%list = (relays a + relays b)%nat.
Proof. unfold relays. now rewrite List.filter_app, length_app. Qed.
Lemma races_app a b : races (a ++ b)%list = (races a + races b)%nat.
Proof. unfold races. now rewrite List.filter_app, length_app. Qed.
Lemma builds_app a b : builds (a ++ b)%list = (builds a ++ builds b)%list.
Proof. apply omap_app. Qed.

(** No relay, no race, no context built. *)
Definition quiet (d : list effect) : Prop := relays d = 0%nat /\ races d = 0%nat /\ builds d = [].

Lemma quiet_nil : quiet [].
Proof. repeat split. Qed.
Lemma quiet_app a b : quiet a -> quiet b -> quiet (a ++ b)%list.
Proof. intros (Ha1 & Ha2 & Ha3) (Hb1 & Hb2 & Hb3). unfold quiet. rewrite relays_app, races_app, builds_app, Ha1, Ha2, Ha3, Hb1, Hb2, Hb3. auto. Qed.

Context `{DomainLib} `{UnicodeCase} `{RPCTypeMembers}.

Lemma post_record_signal rq ep hr : post (record_signal rq ep hr) (fun _ d => quiet d).
Proof.
  unfold record_signal. eapply post_bind; [apply (post_peek _ (fun _ d => d = [])); reflexivity|]. intros now d ->. cbn [app].
  destruct (recordHeuristicErrorToReputation now hr); [|apply post_ret, quiet_nil].
  apply post_when; [apply quiet_nil|]. intros _. apply post_emit. repeat split.
Qed.

Lemma post_record_success rq ep : post (record_success rq ep) (fun _ d => quiet d).
Proof. apply post_when; [apply quiet_nil|]. intros _. apply post_emit. repeat split. Qed.

Lemma post_mark_broken rq ep fault reason : post (mark_broken rq ep fault reason) (fun _ d => quiet d).
Proof. apply post_when; [apply quiet_nil|]. intros _. apply post_emit. repeat split. Qed.

Lemma post_validated eps : post (validated eps) (fun _ d => d = []).
Proof.
  unfold validated. eapply post_bind; [apply (post_ask _ (fun _ d => d = [])); reflexivity|]. intros v d ->. now apply post_ret.
Qed.

Lemma post_deliver rs : post (deliver rs) (fun _ d => quiet d).
Proof.
  apply post_emit_all. induction rs as [|r rs IH]; [apply quiet_nil|]. cbn [map concat].
  apply (quiet_app [EvUpdate r; EvObserve r]); [repeat split|exact IH].
Qed.

Lemma post_when_quiet b (m : M W unit) : post m (fun _ d => quiet d) -> post (when b m) (fun _ d => quiet d).
Proof. intros Hm. apply post_when; [apply quiet_nil|now intros _]. Qed.

(** The hosts the breaker excludes at the start. *)
Definition excluded (rq : request) (w : W) : gset string := if rq_breaker rq then fst (env_broken w) else ∅.

(** A computation that starts by reading the broken domains, run from an empty trace. *)
Lemma run_excluded {A} (rq : request) (k : gset string -> M W A) (Q : gset string -> A -> list effect -> Prop) w :
  (forall broken, post (k broken) (Q broken)) ->
  let run := (let& broken := broken_domains rq in k broken) (w, []) in Q (excluded rq w) (value_of run) (trace_of run).
Proof.
  intros Hk. unfold broken_domains, excluded, ebind. destruct (rq_breaker rq).
  - unfold ask. cbn [fst snd]. destruct (env_broken w) as [broken w1]. cbn [fst]. destruct (Hk broken w1 []) as (d & E & Hd).
    destruct (k broken (w1, [])) as [r [w2 t]]. cbn in *. now subst t.
  - unfold eret. destruct (Hk ∅ w []) as (d & E & Hd). destruct (k ∅ (w, [])) as [r [w2 t]]. cbn in *. now subst t.
Qed.

(** ** Rotation *)

Lemma filterEndpoints_spec eps tried domains ep :
  In ep (filterEndpoints eps tried domains) ->
  (ep ∉ tried) /\ (computeDomainFromEndpoint ep ∉ domains) /\ (computeRegistrableDomainFromEndpoint ep ∉ domains).
Proof.
  intros Hin. unfold filterEndpoints in Hin. apply filter_In in Hin as [_ Hf]. apply andb_true_iff in Hf as [Ht Hd].
  apply negb_true_iff, bool_decide_eq_false in Ht. apply negb_true_iff, andb_false_iff in Hd as [Hd|Hd].
  - apply Nat.ltb_ge, Nat.le_0_r, size_empty_inv in Hd. split; [exact Ht|]. split; set_solver.
  - apply orb_false_iff in Hd as [Hh%bool_decide_eq_false Hr%bool_decide_eq_false]. auto.
Qed.

Lemma markDomainTried_grow domains ep : domains ⊆ markDomainTried domains ep.
Proof. unfold markDomainTried. destruct (_ =? _)%string; set_solver. Qed.

Lemma markDomainTried_has domains ep :
  computeRegistrableDomainFromEndpoint ep <> "" -> computeRegistrableDomainFromEndpoint ep ∈ markDomainTried domains ep.
Proof. intros Hne. unfold markDomainTried. apply String.eqb_neq in Hne. rewrite Hne. set_solver. Qed.

(** The operators of a list of endpoints, as far as they have a domain. *)
Definition operators (eps : list EndpointAddr) : list string :=
  List.filter (fun d => negb (d =? "")%string) (map computeRegistrableDomainFromEndpoint eps).

(** Every endpoint and every operator is used once, and none of the broken hosts. *)
Definition rotates (broken : gset string) (eps : list EndpointAddr) : Prop :=
  NoDup eps /\ NoDup (operators eps) /\
  Forall (fun ep => (computeDomainFromEndpoint ep ∉ broken) /\ (computeRegistrableDomainFromEndpoint ep ∉ broken)) eps.

(** The sets of tried endpoints and domains cover what was used. *)
Definition covers (broken : gset string) (tried : gset EndpointAddr) (domains : gset string) (eps : list EndpointAddr) : Prop :=
  broken ⊆ domains /\
  Forall (fun ep => ep ∈ tried /\ (computeRegistrableDomainFromEndpoint ep <> "" -> computeRegistrableDomainFromEndpoint ep ∈ domains)) eps.

Lemma covers_grow broken t1 d1 t2 d2 eps : t1 ⊆ t2 -> d1 ⊆ d2 -> covers broken t1 d1 eps -> covers broken t2 d2 eps.
Proof.
  intros Ht Hd [Hb Hf]. split; [set_solver|]. eapply Forall_impl; [exact Hf|]. cbn. intros ep [He Hd2]. split; [set_solver|].
  intros Hne. specialize (Hd2 Hne). set_solver.
Qed.

Lemma operators_snoc eps ep : operators (eps ++ [ep])%list =
  (operators eps ++ if (computeRegistrableDomainFromEndpoint ep =? "")%string then [] else [computeRegistrableDomainFromEndpoint ep])%list.
Proof.
  unfold operators. rewrite map_app, List.filter_app. f_equal. cbn. now destruct (computeRegistrableDomainFromEndpoint ep =? "")%string.
Qed.

Lemma NoDup_snoc_fresh {A} (l : list A) x : NoDup l -> x ∉ l -> NoDup (l ++ [x])%list.
Proof. intros Hl Hx. apply NoDup_app. split; [exact Hl|]. split; [|apply NoDup_singleton]. set_solver. Qed.

(** Using one more endpoint that the filter let through. *)
Lemma rotate_next broken tried domains eps ep :
  covers broken tried domains eps -> rotates broken eps ->
  ep ∉ tried -> computeDomainFromEndpoint ep ∉ domains -> computeRegistrableDomainFromEndpoint ep ∉ domains ->
  rotates broken (eps ++ [ep])%list /\ covers broken ({[ep]} ∪ tried) (markDomainTried domains ep) (eps ++ [ep])%list.
Proof.
  intros Hc (Hnd & Hop & Hbr) Ht Hh Hr. split.
  - destruct Hc as [Hb Hf]. rewrite Forall_forall in Hf. split; [|split].
    + apply NoDup_snoc_fresh; [exact Hnd|]. intros Hin. now destruct (Hf ep Hin).
    + rewrite operators_snoc. destruct (String.eqb_spec (computeRegistrableDomainFromEndpoint ep) "") as [E|E]; [now rewrite app_nil_r|].
      apply NoDup_snoc_fresh; [exact Hop|]. intros Hin. apply list_elem_of_In, filter_In in Hin as [Hin _].
      apply in_map_iff in Hin as (e & He & Hin). apply list_elem_of_In in Hin. destruct (Hf e Hin) as [_ Hd]. rewrite He in Hd. now apply Hr, Hd.
    + apply Forall_app. split; [exact Hbr|]. constructor; [|constructor]. split; set_solver.
  - destruct (covers_grow broken tried domains ({[ep]} ∪ tried) (markDomainTried domains ep) eps) as [Hb Hf];
      [set_solver|apply markDomainTried_grow|exact Hc|].
    split; [exact Hb|]. apply Forall_app. split; [exact Hf|]. constructor; [|constructor].
    split; [set_solver|apply markDomainTried_has].
Qed.
End Logic.

(** ** Theorems on the relay loops *)

Open Scope string_scope.
Open Scope Z_scope.
Open Scope relay_scope.

(** Steps through one construct of a computation. *)
Ltac ask_step := eapply post_bind; [apply (post_ask _ (fun _ d => d = [])); reflexivity|intros ? ? ->; cbn [app]].
Ltac quiet_step H := let d := fresh "d" in let Hd := fresh "Hd" in eapply post_bind; [apply H|intros [] d Hd; cbn beta in Hd].

Section Capability.
Context `{UnicodeCase}.

(** A counter below the budget stays within it, and a spent budget is exactly the budget. *)
Lemma capability_step n hr e : 0 <= n < capabilityAttemptBudget ->
  let '(n', _, spent) := noteCapabilityFailure n hr e in
  0 <= n' <= capabilityAttemptBudget /\ (spent = false -> n' < capabilityAttemptBudget) /\ n <= n' <= n + 1.
Proof.
  unfold noteCapabilityFailure, capabilityAttemptBudget. intros Hn. destruct (isCapabilityLimitationFailure hr e).
  - split; [lia|]. split; [intros Hs%Z.leb_gt; lia|lia].
  - repeat split; intros; lia.
Qed.
End Capability.

Section Batch.
Context {W : Type} `{RelayEnv W} `{!RelayEnvLaws W} `{DomainLib} `{UnicodeCase} `{RPCTypeMembers}.
Implicit Types (rq : request) (l : batch_locals).

(** The response a batch item may succeed with. *)
Definition accepted (p : Payload) (r : relay_response) : Prop :=
  rr_RequestID r = extractRequestIDFromPayload p /\
  ck_Success (checkResponseSuccess None (rr_HTTPStatusCode r) (rr_body r) (EffectiveRPCType p) (payload_method p) (rr_RequestID r)) = true.

(** How the part of an attempt that relays may end, from locals [l]. *)
Definition relay_end (p : Payload) l (f : batch_flow) : Prop :=
  match f with
  | Return (r, e) => e = None /\ accepted p r
  | Continue l' => is_Some (bl_lastErr l') /\ bl_tried l ⊆ bl_tried l' /\ bl_triedDomains l ⊆ bl_triedDomains l' /\
                   0 <= bl_capabilityFailures l' < capabilityAttemptBudget
  | Break l' => is_Some (bl_lastErr l') /\ bl_tried l ⊆ bl_tried l' /\ bl_triedDomains l ⊆ bl_triedDomains l' /\
                0 <= bl_capabilityFailures l' <= capabilityAttemptBudget
  end.

Lemma spend_capability_end p l l' hr :
  0 <= bl_capabilityFailures l' < capabilityAttemptBudget -> is_Some (bl_lastErr l') -> bl_tried l ⊆ bl_tried l' -> bl_triedDomains l ⊆ bl_triedDomains l' ->
  relay_end p l (spend_capability l' hr).
Proof.
  intros Hn He Ht Hd. unfold spend_capability. pose proof (capability_step _ hr (bl_lastErr l') Hn) as Hc.
  destruct (noteCapabilityFailure (bl_capabilityFailures l') hr (bl_lastErr l')) as [[n b] spent]. destruct Hc as (Hr & Hs & _).
  destruct spent; [|specialize (Hs eq_refl)]; cbn; repeat split; try assumption; lia.
Qed.

Lemma batch_hedge_post rq p rpcType sel filtered l : 0 <= bl_capabilityFailures l < capabilityAttemptBudget ->
  post (batch_hedge rq p rpcType sel filtered l)
    (fun o d => (relays d = 0%nat /\ races d = 1%nat /\ builds d = []) /\ match o with Some f => relay_end p l f | None => True end).
Proof.
  intros Hn. unfold batch_hedge. eapply post_bind; [apply (post_emit _ (fun _ d => d = [EvRace (EndpointCtx sel) sel])); reflexivity|]. intros [] d0 ->.
  eapply post_bind; [apply (post_ask _ (fun _ d => d = [])); reflexivity|]. intros out d ->. cbn [app].
  assert (forall d, quiet d -> relays (EvRace (EndpointCtx sel) sel :: d) = 0%nat /\ races (EvRace (EndpointCtx sel) sel :: d) = 1%nat /\ builds (EvRace (EndpointCtx sel) sel :: d) = []) as Hq.
  { intros d (Hr & Ha & Hb). repeat split; [exact Hr|cbn; f_equal; exact Ha|exact Hb]. }
  destruct (ro_err out); [apply post_ret; split; [apply Hq, quiet_nil|exact I]|].
  destruct (ro_responses out) as [|resp rest]; [apply post_ret; split; [apply Hq, quiet_nil|exact I]|].
  destruct (ck_Success _) eqn:Eck.
  - quiet_step (post_when_quiet (negb (rr_EndpointAddr resp =? "")%string) _ (post_record_success rq (rr_EndpointAddr resp))).
    apply post_ret. rewrite app_nil_r. split; [now apply Hq|]. split; [reflexivity|]. split; [reflexivity|exact Eck].
  - quiet_step (post_record_signal rq (rr_EndpointAddr resp)
      (ck_HeuristicResult (checkResponseSuccess None (rr_HTTPStatusCode resp) (rr_body resp) (EffectiveRPCType p) (payload_method p) (extractRequestIDFromPayload p)))).
    apply post_ret. rewrite app_nil_r. split; [now apply Hq|]. destruct (negb (ro_hedgeEndpoint out =? "")%string);
      apply spend_capability_end; cbn; eauto; try set_solver. apply markDomainTried_grow.
Qed.

Lemma batch_relay_post rq p index rpcType sel l : 0 <= bl_capabilityFailures l < capabilityAttemptBudget ->
  post (batch_relay rq p index rpcType sel l)
    (fun f d => (relayed d = [EndpointCtx sel] /\ races d = 0%nat /\ builds d = []) /\ relay_end p l f).
Proof.
  intros Hn. unfold batch_relay. eapply post_bind; [apply (post_emit _ (fun _ d => d = [EvRelay (EndpointCtx sel)])); reflexivity|]. intros [] d0 ->.
  eapply post_bind; [apply (post_ask _ (fun _ d => d = [])); reflexivity|]. intros [[responses err] dur] d ->. cbn [app].
  assert (forall d, quiet d -> relayed (EvRelay (EndpointCtx sel) :: d) = [EndpointCtx sel] /\ races (EvRelay (EndpointCtx sel) :: d) = 0%nat /\ builds (EvRelay (EndpointCtx sel) :: d) = []) as Hq.
  { intros d (Hr & Ha & Hb). repeat split; [cbn; f_equal; exact (relayed_none d Hr)|exact Ha|exact Hb]. }
  assert (forall e, post (let l := fail_with l (Some e) (match responses with r :: _ => with_request_id r (extractRequestIDFromPayload p) | [] => bl_lastResponse l end) in
    let& ctxErr := (if rq_breaker rq then ask env_ctx_err else eret None) in
    when (negb (match ctxErr with Some _ => true | None => false end))
      (mark_broken rq sel (shouldCircuitBreak None 0 (Some e)) ("batch_transport_error: " +:+ err_Error e)) ;;
    eret (spend_capability l None))
    (fun f d => (relayed (EvRelay (EndpointCtx sel) :: d) = [EndpointCtx sel] /\ races (EvRelay (EndpointCtx sel) :: d) = 0%nat /\ builds (EvRelay (EndpointCtx sel) :: d) = []) /\ relay_end p l f)) as Hfail.
  { intros e. cbv zeta. eapply (post_bind _ _ (fun _ d => d = [])); [destruct (rq_breaker rq); [apply post_ask|apply post_ret]; reflexivity|].
    intros ctxErr d ->. cbn [app].
    quiet_step (post_when_quiet (negb (match ctxErr with Some _ => true | None => false end)) _
      (post_mark_broken rq sel (shouldCircuitBreak None 0 (Some e)) ("batch_transport_error: " +:+ err_Error e))).
    apply post_ret. rewrite app_nil_r. split; [now apply Hq|]. apply spend_capability_end; cbn; eauto. }
  destruct err as [e|]; [apply Hfail|]. destruct responses as [|resp0 rest]; [apply Hfail|].
  destruct (ck_Success _) eqn:Eck.
  - quiet_step (post_record_success rq sel). apply post_ret. rewrite app_nil_r. split; [now apply Hq|].
    split; [reflexivity|]. split; [reflexivity|exact Eck].
  - set (check := checkResponseSuccess _ _ _ _ _ _) in *. quiet_step (post_record_signal rq (rr_EndpointAddr (with_request_id resp0 (extractRequestIDFromPayload p))) (ck_HeuristicResult check)).
    match goal with |- context [mark_broken rq sel ?f ?r] => quiet_step (post_mark_broken rq sel f r) end.
    apply post_ret. rewrite app_nil_r. split; [apply Hq; now apply quiet_app|]. apply spend_capability_end; cbn; eauto.
Qed.

(** Before attempt [b]: one relay and one context per attempt made, a race in the first
    alone, the endpoints used rotate, and no error means that nothing was tried. *)
Record batch_inv (broken : gset string) (b : Z) l (d : list effect) : Prop := {
  bi_relays : Z.of_nat (relays d) < b;
  bi_races : (races d <= 1)%nat /\ (b = 1 -> races d = 0%nat);
  bi_covers : covers broken (bl_tried l) (bl_triedDomains l) (builds d);
  bi_rotates : rotates broken (builds d);
  bi_budget : 0 <= bl_capabilityFailures l < capabilityAttemptBudget;
  bi_noerr : bl_lastErr l = None -> relays d = 0%nat /\ bl_lastResponse l = zero_response;
}.

(** When the loop is left after at most [n] attempts. *)
Record batch_exit (broken : gset string) (n : Z) (d : list effect) : Prop := {
  be_relays : Z.of_nat (relays d) <= n;
  be_races : (races d <= 1)%nat;
  be_rotates : rotates broken (builds d);
}.

Definition batch_left (broken : gset string) (n : Z) l (d : list effect) : Prop :=
  batch_exit broken n d /\ bl_capabilityFailures l <= capabilityAttemptBudget /\
  (bl_lastErr l = None -> relays d = 0%nat /\ bl_lastResponse l = zero_response).

Definition batch_returned (broken : gset string) (n : Z) (p : Payload) (r : relay_response * option go_error) (d : list effect) : Prop :=
  batch_exit broken n d /\ (snd r = None -> accepted p (fst r)).

Definition batch_step_post (broken : gset string) (n : Z) (p : Payload) (b : Z) (d : list effect) (f : batch_flow) (d' : list effect) : Prop :=
  match f with
  | Continue l' => batch_inv broken (b + 1) l' (d ++ d')%list
  | Break l' => batch_left broken n l' (d ++ d')%list
  | Return r => batch_returned broken n p r (d ++ d')%list
  end.

(** Attempts that end without a relay. *)
Lemma batch_no_relay broken b l e d : batch_inv broken b l d -> batch_inv broken (b + 1) (fail_with l (Some e) (bl_lastResponse l)) d.
Proof.
  intros [Hr [Ha Ha1] Hc Hro Hb Hn]. split; cbn; [lia|split; [exact Ha|]|exact Hc|exact Hro|exact Hb|discriminate].
  intros Hb1. lia.
Qed.

Lemma batch_exit_of broken b n l d : b <= n + 1 -> batch_inv broken b l d -> batch_exit broken n d.
Proof. intros Hb [Hr [Ha _] Hc Hro _ _]. split; try assumption. lia. Qed.

(** The endpoint an attempt chooses is a new one. *)
Lemma batch_chosen broken b l d eps sel : batch_inv broken b l d -> In sel (filterEndpoints eps (bl_tried l) (bl_triedDomains l)) ->
  batch_inv broken b (with_tried l sel) (d ++ [EvBuild sel])%list.
Proof.
  intros [Hr [Ha Ha1] Hc Hro Hb Hn] Hk. destruct (filterEndpoints_spec _ _ _ _ Hk) as (Ht & Hh & Hd).
  destruct (rotate_next broken _ _ _ sel Hc Hro Ht Hh Hd) as [Hro2 Hc2].
  split; cbn [with_tried bl_tried bl_triedDomains bl_capabilityFailures bl_lastErr bl_lastResponse];
    rewrite ?relays_app, ?races_app, ?builds_app, ?Nat.add_0_r; cbn; rewrite ?Nat.add_0_r; auto.
Qed.

(** The relay and the race of an attempt. *)
Lemma batch_relayed broken n p b l d d2 f : 1 <= b <= n -> batch_inv broken b l d ->
  (relays d2 <= 1)%nat -> (races d2 <= 1)%nat -> (races d2 = 1%nat -> b = 1) -> builds d2 = [] ->
  relay_end p l f -> batch_step_post broken n p b d f d2.
Proof.
  intros Hbn [Hr [Ha Ha1] Hc Hro Hb Hn] Hr2 Ha2 Ha3 Hb2 Hend.
  assert (races (d ++ d2) <= 1)%nat as Hraces.
  { rewrite races_app. destruct (races d2) as [|[|k]] eqn:E; [lia| |lia]. rewrite (Ha1 (Ha3 eq_refl)). lia. }
  assert (Z.of_nat (relays (d ++ d2)) < b + 1) as Hrelays by (rewrite relays_app; lia).
  assert (builds (d ++ d2)%list = builds d) as Hbuilds by (rewrite builds_app, Hb2; apply app_nil_r).
  destruct f as [l'|l'|[r e]]; cbn in Hend |- *.
  - destruct Hend as (He & Ht & Hd & Hcap). split; rewrite ?Hbuilds; auto.
    + split; [exact Hraces|lia].
    + eapply covers_grow; eassumption.
    + intros Hnone. rewrite Hnone in He. now apply is_Some_None in He.
  - destruct Hend as (He & Ht & Hd & Hcap). split; [split; rewrite ?Hbuilds; auto; lia|]. split; [lia|].
    intros Hnone. rewrite Hnone in He. now apply is_Some_None in He.
  - destruct Hend as [-> Hacc]. split; [split; rewrite ?Hbuilds; auto; lia|]. now intros _.
Qed.

Lemma batch_step_shift broken n p b d d1 d2 f :
  batch_step_post broken n p b (d ++ d1)%list f d2 -> batch_step_post broken n p b d f (d1 ++ d2)%list.
Proof. destruct f; cbn; now rewrite app_assoc. Qed.

Lemma batch_attempt_post rq broken n p index rpcType hd b l d : 1 <= b <= n -> batch_inv broken b l d ->
  post (batch_attempt rq p index rpcType hd b l) (batch_step_post broken n p b d).
Proof.
  intros Hbn Hinv. unfold batch_attempt.
  eapply post_bind; [apply (post_ask _ (fun _ d => d = [])); reflexivity|]. intros [e|] d0 ->; cbn [app].
  { apply post_ret. cbn. rewrite app_nil_r. split; [eapply batch_exit_of; [|exact Hinv]; lia|]. cbn. destruct (bl_lastErr l); discriminate. }
  eapply post_bind; [apply (post_ask _ (fun _ d => d = [])); reflexivity|]. intros av d0 ->; cbn [app].
  assert (post (W := W) (eret (Continue (fail_with l (Some (errorf ("no endpoints available for batch item " +:+ fmt_index index))) (bl_lastResponse l))))
    (batch_step_post broken n p b d)) as Hnone by (apply post_ret; cbn; rewrite app_nil_r; now apply batch_no_relay).
  destruct av as [[|e0 es]|err]; [exact Hnone| |exact Hnone].
  eapply post_bind; [apply post_validated|]. intros available d0 ->; cbn [app].
  destruct (filterEndpoints available (bl_tried l) (bl_triedDomains l)) as [|first fs] eqn:Ef.
  { apply post_ret. cbn. rewrite app_nil_r. split; [eapply batch_exit_of; [|exact Hinv]; lia|]. destruct Hinv. split; [lia|assumption]. }
  eapply (post_bind _ _ (fun ranked d => d = [] /\ (ranked = "" \/ In ranked (first :: fs)))).
  { apply post_ask. intros w. split; [reflexivity|]. destruct (env_top_ranked (first :: fs) rpcType w) as [ep w'] eqn:E. exact (top_ranked_member _ _ _ _ _ E). }
  intros ranked d0 [-> Hranked]; cbn [app]. set (sel := if (ranked =? "")%string then first else ranked).
  assert (In sel (filterEndpoints available (bl_tried l) (bl_triedDomains l))) as Hsel.
  { rewrite Ef. subst sel. destruct (String.eqb_spec ranked ""); [now left|]. destruct Hranked; [congruence|assumption]. }
  pose proof (batch_chosen broken b l d available sel Hinv Hsel) as Hchosen.
  eapply post_bind; [apply (post_emit _ (fun _ d => d = [EvBuild sel])); reflexivity|]. intros [] d0 ->.
  eapply post_mono; [|intros f d2 Hf; apply batch_step_shift; exact Hf].
  eapply post_bind; [apply (post_ask _ (fun _ d => d = [])); reflexivity|]. intros [e|] d0 ->; cbn [app].
  { apply post_ret. cbn. rewrite app_nil_r. now apply (batch_no_relay broken b (with_tried l sel)). }
  pose proof (bi_budget _ _ _ _ Hchosen) as Hbud.
  eapply (post_bind _ _ (fun o d2 => (relays d2 = 0%nat /\ (races d2 <= 1)%nat /\ (races d2 = 1%nat -> b = 1) /\ builds d2 = []) /\
    match o with Some f => relay_end p (with_tried l sel) f | None => True end)).
  { destruct ((b =? 1) && _ && _) eqn:Eh; [|apply post_ret; repeat split; cbn; lia].
    eapply post_mono; [apply (batch_hedge_post rq p rpcType sel (first :: fs) _ Hbud)|]. intros o d2 [(Hr & Ha & Hb) Ho].
    split; [|exact Ho]. rewrite Hr, Ha, Hb. repeat split; auto. intros _. breflect. lia. }
  intros [f|] d1 [(Hr & Ha & Ha1 & Hb) Ho].
  - apply post_ret. rewrite app_nil_r. apply (batch_relayed broken n p b (with_tried l sel)); auto; lia.
  - eapply post_mono; [apply (batch_relay_post rq p index rpcType sel _ Hbud)|]. intros f d2 [(Hr2 & Ha2 & Hb2) Hf].
    apply (f_equal (@List.length _)) in Hr2. rewrite <- relays_length in Hr2. cbn in Hr2.
    apply (batch_relayed broken n p b (with_tried l sel)); auto; rewrite ?relays_app, ?races_app, ?builds_app, ?Hr, ?Hb, ?Hb2, ?Ha2, ?Nat.add_0_r; auto; lia.
Qed.

(** Every relay goes to the endpoint whose context was just built, at most once. *)
Definition on_built (d : list effect) : Prop := exists eps, relayed d = map EndpointCtx eps /\ eps `sublist_of` builds d.

Lemma on_built_app a b : on_built a -> on_built b -> on_built (a ++ b)%list.
Proof.
  intros (x & Hx & Sx) (y & Hy & Sy). exists (x ++ y)%list. rewrite relayed_app, builds_app, Hx, Hy, map_app. split; [done|by apply sublist_app].
Qed.

Lemma on_built_nil : on_built [].
Proof. by exists []. Qed.

Lemma batch_attempt_on_built rq p index rpcType hd b l : 0 <= bl_capabilityFailures l < capabilityAttemptBudget ->
  post (batch_attempt rq p index rpcType hd b l) (fun _ d => on_built d).
Proof.
  intros Hbud. unfold batch_attempt.
  eapply post_bind; [apply (post_ask _ (fun _ d => d = [])); reflexivity|]. intros [e|] d0 ->; cbn [app]; [apply post_ret, on_built_nil|].
  eapply post_bind; [apply (post_ask _ (fun _ d => d = [])); reflexivity|]. intros [[|e0 es]|err] d0 ->; cbn [app]; [apply post_ret, on_built_nil| |apply post_ret, on_built_nil].
  eapply post_bind; [apply post_validated|]. intros available d0 ->; cbn [app].
  destruct (filterEndpoints available (bl_tried l) (bl_triedDomains l)) as [|first fs]; [apply post_ret, on_built_nil|].
  eapply post_bind; [apply (post_ask _ (fun _ d => d = [])); reflexivity|]. intros ranked d0 ->; cbn [app].
  set (sel := if (ranked =? "")%string then first else ranked).
  eapply post_bind; [apply (post_emit _ (fun _ d => d = [EvBuild sel])); reflexivity|]. intros [] d0 ->.
  eapply post_bind; [apply (post_ask _ (fun _ d => d = [])); reflexivity|]. intros [e|] d0 ->; cbn [app].
  { apply post_ret. exists []. split; [done|apply sublist_nil_l]. }
  eapply (post_bind _ _ (fun o d => relays d = 0%nat)).
  { destruct ((b =? 1) && _ && _); [|by apply post_ret].
    eapply post_mono; [apply (batch_hedge_post rq p rpcType sel (first :: fs) (with_tried l sel) Hbud)|]. by intros o d [(Hr & _) _]. }
  intros [f|] d1 Hr.
  - apply post_ret. rewrite app_nil_r. exists []. split; [cbn; by apply relayed_none|apply sublist_nil_l].
  - eapply post_mono; [apply (batch_relay_post rq p index rpcType sel (with_tried l sel) Hbud)|]. intros f d2 [(Hd & _) _].
    exists [sel]. cbn. change (relayed ([EvBuild sel] ++ d1 ++ d2)%list) with (relayed (d1 ++ d2)%list).
    rewrite relayed_app, (relayed_none d1 Hr), Hd. split; [done|]. apply sublist_skip, sublist_nil_l.
Qed.

Lemma batch_start broken : batch_inv broken 1 (mkBatchLocals None zero_response ∅ broken 0) [].
Proof.
  split; cbn; try lia; try (split; [|now constructor]); try reflexivity; auto.
  split; [apply NoDup_nil_2|]. split; [apply NoDup_nil_2|constructor].
Qed.

(** The run of a batch item: its result, and the calls it made. *)
Lemma batch_item_run rq p index batchSize rpcType w :
  let run := processSinglePayloadWithRetry rq p index batchSize rpcType (w, []) in
  (batch_exit (excluded rq w) (Z.max 0 (maxAttempts (rq_retry rq))) (trace_of run) /\
   (snd (value_of run) = None -> accepted p (fst (value_of run)) \/ (relays (trace_of run) = 0%nat /\ rr_Bytes (fst (value_of run)) = None))) /\
  on_built (trace_of run).
Proof.
  apply (run_excluded rq (process_from rq p index batchSize rpcType) (fun broken r t =>
    (batch_exit broken (Z.max 0 (maxAttempts (rq_retry rq))) t /\
    (snd r = None -> accepted p (fst r) \/ (relays t = 0%nat /\ rr_Bytes (fst r) = None))) /\ on_built t)).
  intros broken. unfold process_from. set (n := Z.max 0 (maxAttempts (rq_retry rq))). eapply post_bind.
  - apply (post_attempts _ (fun b l d => batch_inv broken b l d /\ on_built d) (fun l d => batch_left broken n l d /\ on_built d)
      (fun r d => batch_returned broken n p r d /\ on_built d) _ 1 _ []).
    + intros b l d Hb [Hi Ho]. eapply post_mono; [apply post_and; [apply (batch_attempt_post rq broken n p index rpcType _ b l d); [lia|exact Hi]|apply batch_attempt_on_built, (bi_budget _ _ _ _ Hi)]|].
      intros f d' [Hs Hd]. pose proof (on_built_app _ _ Ho Hd). destruct f; by split.
    + intros l d [Hi Ho]. split; [|exact Ho]. split; [eapply batch_exit_of; [|exact Hi]; lia|]. destruct Hi. split; [lia|assumption].
    + split; [apply batch_start|apply on_built_nil].
  - intros [l|[r e]] d [Hd Ho]; cbn [app] in Hd, Ho; apply post_ret; rewrite app_nil_r; (split; [|exact Ho]).
    + destruct Hd as (He & _ & Hn). split; [exact He|]. cbn. intros Hnone. right. destruct (Hn Hnone) as [Hr ->]. now split.
    + destruct Hd as [He Hacc]. split; [exact He|]. intros Hnone. left. now apply Hacc.
Qed.

Lemma rotates_sublist broken a b : a `sublist_of` b -> rotates broken b -> rotates broken a.
Proof.
  intros S (N & O & F). split; [exact (sublist_NoDup _ _ N S)|]. split.
  - apply (sublist_NoDup _ _ O). clear -S. unfold operators.
    induction S as [|x a b S IH|x a b S IH]; cbn; [apply sublist_nil|by destruct (negb _); [apply sublist_skip|]|by destruct (negb _); [apply sublist_cons|]].
  - rewrite Forall_forall in *. intros x Hx. apply F. by eapply elem_of_sublist.
Qed.

(** A batch item ends, and costs at most one relay per configured attempt and one
    hedge race, whatever the endpoints, the breaker and the context answer. *)
Theorem batch_item_bounded (rq : request) (p : Payload) (index batchSize rpcType : Z) (w : W) :
  let run := processSinglePayloadWithRetry rq p index batchSize rpcType (w, []) in
  Z.of_nat (relays (trace_of run)) <= Z.max 0 (maxAttempts (rq_retry rq)) /\ (races (trace_of run) <= 1)%nat.
Proof.
  pose proof (batch_item_run rq p index batchSize rpcType w) as Hrun. cbv zeta in *. destruct Hrun as [[[Hr Ha _] _] _]. auto.
Qed.

(** C3: the retries of a batch item rotate: the endpoints it builds a context for are all different, no
    two of them are of one operator (registrable domain), and none is of a host or an operator the
    circuit breaker excluded when the item started; the relays outside a race go to endpoints among
    them, each at most once and in the order they were built.  Not covered is the hedge branch a race
    picks for itself, nor that an endpoint whose race brought no response is relayed to once more. *)
Theorem batch_item_rotates (rq : request) (p : Payload) (index batchSize rpcType : Z) (w : W) :
  let run := processSinglePayloadWithRetry rq p index batchSize rpcType (w, []) in
  rotates (excluded rq w) (builds (trace_of run)) /\
  exists eps, relayed (trace_of run) = map EndpointCtx eps /\ eps `sublist_of` builds (trace_of run) /\ rotates (excluded rq w) eps.
Proof.
  pose proof (batch_item_run rq p index batchSize rpcType w) as Hrun. cbv zeta in *. destruct Hrun as [[[_ _ Hro] _] (eps & He & Hs)].
  split; [exact Hro|]. exists eps. split; [exact He|]. split; [exact Hs|]. by eapply rotates_sublist.
Qed.

(** A batch item reported without an error is a response that passed the success
    check under the item's own request id, or an item that was never relayed and has
    no body. *)
Theorem batch_item_success (rq : request) (p : Payload) (index batchSize rpcType : Z) (w : W) :
  let run := processSinglePayloadWithRetry rq p index batchSize rpcType (w, []) in
  snd (value_of run) = None -> accepted p (fst (value_of run)) \/ (relays (trace_of run) = 0%nat /\ rr_Bytes (fst (value_of run)) = None).
Proof.
  pose proof (batch_item_run rq p index batchSize rpcType w) as Hrun. cbv zeta in *. now destruct Hrun as [[_ Hs] _].
Qed.
End Batch.

(** ** A scripted environment *)

(** The endpoints on offer, the answer of each context, the outcome of a race and the
    broken hosts; the ranked selection takes the first candidate. *)
Record script := mkScript {
  sc_available : list EndpointAddr;
  sc_answer : relay_ctx -> list relay_response * option go_error;
  sc_race : race_outcome;
  sc_broken : gset string;
}.

#[export] Instance script_env : RelayEnv script := {
  env_now := fun _ => 0;
  env_ctx_err := fun w => (None, w);
  env_broken := fun w => (sc_broken w, w);
  env_available := fun _ w => (Ok (sc_available w), w);
  env_validate := fun eps w => (Ok eps, w);
  env_requires_archival := fun _ => false;
  env_top_ranked := fun eps _ w => (match eps with e :: _ => e | [] => "" end, w);
  env_build := fun _ _ w => (None, w);
  env_send := fun c _ w => ((fst (sc_answer w c), snd (sc_answer w c), 5 * millisecond), w);
  env_race := fun _ _ _ _ w => (sc_race w, w);
  env_apply := fun _ w => w;
}.

#[export] Instance script_laws : RelayEnvLaws script.
Proof. split. intros [|e eps] t w ep w' [= <- <-]; [now left|right; now left]. Qed.
