(* ===== verification/RelayParallel.v ===== *)
(** * The parallel fan-out

    executeOneOfParallelRequests and waitForFirstSuccessfulResponse of
    gateway/http_request_context_handle_request.go: one worker per protocol context,
    each with its own retries, and the collector that takes the first result
    without an error. *)

From S2P Require Import Prelude GoStrings Utf8 Float64 Domain RepKey Signals CircuitBreaker RPCTypes Heuristic RelayPolicy RelayLoop.
From Stdlib Require Import ZArith Lia Bool Ascii String.
From stdpp Require Import base gmap strings list.

Open Scope string_scope.
Open Scope Z_scope.
Open Scope relay_scope.

Section Worker.
Context {W : Type} `{RelayEnv W} `{DomainLib} `{UnicodeCase} `{RPCTypeMembers}.

Record worker_locals := mkWorkerLocals {
  wl_lastErr : option go_error;
  wl_lastResponses : list relay_response;
  wl_lastEndpointAddr : EndpointAddr;
  wl_lastHeuristicResult : option AnalysisResult;
  wl_lastStatusCode : Z;
  wl_tried : gset EndpointAddr;
  wl_triedDomains : gset string;
  wl_protocolCtx : relay_ctx;
  wl_current : EndpointAddr;
}.

(** The result a worker tries to send; [None] when it returns without sending. *)
Definition worker_result := option (list relay_response * option go_error).
Definition worker_flow := flow worker_locals worker_result.

Definition wl_moved (l : worker_locals) (c : relay_ctx) (ep : EndpointAddr) : worker_locals :=
  mkWorkerLocals (wl_lastErr l) (wl_lastResponses l) (wl_lastEndpointAddr l) (wl_lastHeuristicResult l) (wl_lastStatusCode l)
    (wl_tried l) (wl_triedDomains l) c ep.

Definition archival_filtered (eps : list EndpointAddr) : M W (list EndpointAddr) :=
  let& archival := peek env_requires_archival in
  if archival then validated eps else eret eps.

(** The rotation before a retry; [None] returns without a result. *)
Definition worker_rotate (rq : request) (rpcType : Z) (l0 : worker_locals) : M W (option worker_locals) :=
  let l := mkWorkerLocals (wl_lastErr l0) (wl_lastResponses l0) (wl_lastEndpointAddr l0) (wl_lastHeuristicResult l0) (wl_lastStatusCode l0)
             ({[wl_current l0]} ∪ wl_tried l0) (markDomainTried (wl_triedDomains l0) (wl_current l0)) (wl_protocolCtx l0) (wl_current l0) in
  mark_broken rq (wl_current l) (shouldCircuitBreak (wl_lastHeuristicResult l) (wl_lastStatusCode l) (wl_lastErr l))
    ("parallel_retry: " +:+ fmt_err (wl_lastErr l)) ;;
  let& av := ask (env_available rpcType) in
  match av with
  | Err _ | Ok [] => eret None
  | Ok available =>
      let& available := archival_filtered available in
      match filterEndpoints available (wl_tried l) (wl_triedDomains l) with
      | [] => eret None
      | filtered =>
          let& newEndpointAddr := ask (env_top_ranked filtered rpcType) in
          if (newEndpointAddr =? "")%string then eret None
          else
            emit (EvBuild newEndpointAddr) ;;
            let& err := ask (env_build newEndpointAddr rpcType) in
            match err with
            | Some _ => eret None
            | None => eret (Some (wl_moved l (EndpointCtx newEndpointAddr) newEndpointAddr))
            end
      end
  end.

Definition worker_attempt (rq : request) (p : Payload) (payloads : list Payload) (attempt : Z) (l : worker_locals) : M W worker_flow :=
  let rpcType := pl_RPCType p in
  let& ctxErr := ask env_ctx_err in
  match ctxErr with
  | Some _ => eret (Return None)
  | None =>
      let& rotated := (if 1 <? attempt then worker_rotate rq rpcType l
                       else eret (Some (wl_moved l (wl_protocolCtx l) (wl_lastEndpointAddr l)))) in
      match rotated with
      | None => eret (Return None)
      | Some l =>
          emit (EvRelay (wl_protocolCtx l)) ;;
          let& (responses, err, attemptDuration) := ask (env_send (wl_protocolCtx l) payloads) in
          let statusCode := match responses with r :: _ => rr_HTTPStatusCode r | [] => 0 end in
          let endpointAddr := match responses with r :: _ => rr_EndpointAddr r | [] => "" end in
          let body := match responses with r :: _ => rr_body r | [] => "" end in
          let requestID := match responses with r :: _ => rr_RequestID r | [] => "" end in
          let current := if is_nonempty responses && (attempt =? 1) then endpointAddr else wl_current l in
          let check := checkResponseSuccess err statusCode body (EffectiveRPCType p) (payload_method p) requestID in
          if ck_Success check then
            when (negb (endpointAddr =? "")%string) (record_success rq endpointAddr) ;;
            eret (Return (Some (responses, None)))
          else
            when (negb (endpointAddr =? "")%string) (record_signal rq endpointAddr (ck_HeuristicResult check)) ;;
            let l := mkWorkerLocals err responses endpointAddr (ck_HeuristicResult check) statusCode
                       (wl_tried l) (wl_triedDomains l) (wl_protocolCtx l) current in
            deliver responses ;;
            if attempt <? maxAttempts (rq_retry rq) then
              if (endpointAddr =? "")%string || negb (shouldRetry err statusCode attemptDuration (rq_retry rq) (ck_HeuristicResult check))
              then eret (Break l)
              else
                let& ctxErr := ask env_ctx_err in
                eret match ctxErr with Some _ => Return None | None => Continue l end
            else eret (Continue l)
      end
  end.

Definition executeOneOfParallelRequests (rq : request) (p : Payload) (payloads : list Payload) (index : nat) : M W worker_result :=
  let& broken := broken_domains rq in
  let l := mkWorkerLocals None [] "" None 0 ∅ broken (InitialCtx index) "" in
  let& out := for_attempts (Z.to_nat (maxAttempts (rq_retry rq))) 1 (worker_attempt rq p payloads) l in
  match out with
  | inr r => eret r
  | inl l =>
      (match wl_lastErr l with Some _ => deliver (wl_lastResponses l) | None => eret tt end) ;;
      eret (Some (wl_lastResponses l, wl_lastErr l))
  end.
End Worker.

(** ** The collector *)

(** What its select receives: a worker's result, or the end of the context. *)
Inductive arrival := Arrived (responses : list relay_response) (err : option go_error) | CtxDone (e : go_error).

Inductive wait_outcome :=
| Succeeded (responses : list relay_response)
| ContextEnded (lastErr : option go_error)
| AllFailed (lastErr : option go_error).

(** [None]: the loop is still waiting.  [numRequestsToAttempt] workers run;
    numFailedOrErrored is counted and not read. *)
Fixpoint waitForFirstSuccessfulResponse (numRequestsToAttempt numCompletedSuccessfully : nat) (numFailedOrErrored : nat)
  (lastErr : option go_error) (arrivals : list arrival) : option wait_outcome :=
  if (numCompletedSuccessfully <? numRequestsToAttempt)%nat then
    match arrivals with
    | [] => None
    | Arrived responses None :: _ => Some (Succeeded responses)
    | Arrived _ (Some e) :: rest =>
        waitForFirstSuccessfulResponse numRequestsToAttempt numCompletedSuccessfully (S numFailedOrErrored) (Some e) rest
    | CtxDone _ :: _ => Some (ContextEnded lastErr)
    end
  else Some (AllFailed lastErr).

(** Results with an error. *)
Definition failures (fs : list (list relay_response * go_error)) : list arrival := map (fun x => Arrived (fst x) (Some (snd x))) fs.

Definition last_error (lastErr : option go_error) (fs : list (list relay_response * go_error)) : option go_error :=
  fold_left (fun _ x => Some (snd x)) fs lastErr.

Lemma wait_failures n k fs rest : (k < n)%nat -> forall f lastErr, exists f',
  waitForFirstSuccessfulResponse n k f lastErr (failures fs ++ rest)%list =
  waitForFirstSuccessfulResponse n k f' (last_error lastErr fs) rest.
Proof.
  intros Hk. induction fs as [|[rs e] fs IH]; intros f lastErr; [now exists f|].
  change (failures ((rs, e) :: fs) ++ rest)%list with (Arrived rs (Some e) :: (failures fs ++ rest))%list.
  cbn [waitForFirstSuccessfulResponse]. rewrite (proj2 (Nat.ltb_lt _ _) Hk). destruct (IH (S f) (Some e)) as [f' Hf]. exists f'. exact Hf.
Qed.

(** When every parallel worker has failed the collector goes on waiting: no sequence
    of failed results ends it, however many workers there are, so the request ends only
    with its context and the all-failed error is never produced. *)
Theorem parallel_failures_wait_for_context (n : nat) (fs : list (list relay_response * go_error)) (done : go_error) :
  (0 < n)%nat ->
  waitForFirstSuccessfulResponse n 0 0 None (failures fs) = None /\
  waitForFirstSuccessfulResponse n 0 0 None (failures fs ++ [CtxDone done])%list = Some (ContextEnded (last_error None fs)).
Proof.
  intros Hn. split.
  - destruct (wait_failures n 0 fs [] Hn 0 None) as [f' Hf]. rewrite app_nil_r in Hf. rewrite Hf. cbn [waitForFirstSuccessfulResponse].
    now rewrite (proj2 (Nat.ltb_lt _ _) Hn).
  - destruct (wait_failures n 0 fs [CtxDone done] Hn 0 None) as [f' Hf]. rewrite Hf. cbn [waitForFirstSuccessfulResponse].
    now rewrite (proj2 (Nat.ltb_lt _ _) Hn).
Qed.

Lemma parallel_failures_wait_for_context_witness :
  waitForFirstSuccessfulResponse 2 0 0 None [Arrived [] (Some (errorf "dial")); Arrived [] (Some (errorf "timeout"))] = None.
Proof. apply (parallel_failures_wait_for_context 2 [([], errorf "dial"); ([], errorf "timeout")] (errorf "deadline")). lia. Defined.
