(* ===== verification/RelaySingleProps.v ===== *)
(** * Theorems on the single-request loop *)

From S2P Require Import Prelude GoStrings Utf8 Float64 Domain RepKey Signals Json CircuitBreaker SelectionProps RPCTypes Heuristic HeuristicProps RelayPolicy RelayLoop RelayLoopProps RelayParallel.
From Stdlib Require Import ZArith Lia Bool Ascii String.
From stdpp Require Import base gmap strings list.

Open Scope string_scope.
Open Scope Z_scope.
Open Scope relay_scope.

Section Single.
Context {W : Type} `{RelayEnv W} `{!RelayEnvLaws W} `{DomainLib} `{UnicodeCase} `{RPCTypeMembers}.
Implicit Types (rq : request) (l : single_locals).

(** Relays and races both cost a relay to the primary endpoint. *)
Definition sends (d : list effect) : nat := (relays d + races d)%nat.

Lemma sends_app a b : sends (a ++ b)%list = (sends a + sends b)%nat.
Proof. unfold sends. rewrite relays_app, races_app. lia. Qed.

Lemma quiet_sends d : quiet d -> sends d = 0%nat /\ builds d = [].
Proof. intros (Hr & Ha & Hb). unfold sends. now rewrite Hr, Ha. Qed.

(** A response that passes the success check reached the QoS context. *)
Definition answered (p : Payload) (d : list effect) : Prop :=
  exists r, In (EvUpdate r) d /\
    ck_Success (checkResponseSuccess None (rr_HTTPStatusCode r) (rr_body r) (EffectiveRPCType p) (payload_method p) (rr_RequestID r)) = true.

Lemma answered_app_l p a b : answered p a -> answered p (a ++ b)%list.
Proof. intros (r & Hin & Hc). exists r. split; [apply in_or_app; now left|exact Hc]. Qed.
Lemma answered_app_r p a b : answered p b -> answered p (a ++ b)%list.
Proof. intros (r & Hin & Hc). exists r. split; [apply in_or_app; now right|exact Hc]. Qed.

(** An empty body with no status is no success. *)
Lemma empty_not_success t m i : ck_Success (checkResponseSuccess None 0 "" t m i) = false.
Proof. reflexivity. Qed.

Lemma deliver_post p r rs :
  ck_Success (checkResponseSuccess None (rr_HTTPStatusCode r) (rr_body r) (EffectiveRPCType p) (payload_method p) (rr_RequestID r)) = true ->
  post (deliver (W := W) (r :: rs)) (fun _ d => quiet d /\ answered p d).
Proof.
  intros Hc. apply post_emit_all. split.
  - generalize (r :: rs). intros l. induction l as [|x l IH]; [apply quiet_nil|]. cbn [map concat].
    apply (quiet_app [EvUpdate x; EvObserve x]); [repeat split|exact IH].
  - exists r. split; [now left|exact Hc].
Qed.

(** How the relaying part of an attempt may end: at most one send, no context built, the
    tried sets only grow and the current endpoint changes in the first attempt alone. *)
Definition single_end (p : Payload) (b : Z) l (f : single_flow) (d : list effect) : Prop :=
  (sends d <= 1)%nat /\ builds d = [] /\
  match f with
  | Return (e, _) => e = None -> answered p d
  | Continue l' | Break l' =>
      sl_tried l ⊆ sl_tried l' /\ sl_triedDomains l ⊆ sl_triedDomains l' /\ (b <> 1 -> sl_current l' = sl_current l)
  end.

Lemma hedge_give_up_post l0 primary out l :
  sl_tried l0 ⊆ sl_tried l -> sl_triedDomains l0 ⊆ sl_triedDomains l ->
  post (hedge_give_up primary out l) (fun f d => quiet d /\ match f with
    | Return _ => False
    | Continue l' | Break l' => sl_tried l0 ⊆ sl_tried l' /\ sl_triedDomains l0 ⊆ sl_triedDomains l'
    end).
Proof.
  intros Ht Hd. unfold hedge_give_up. set (l1 := if (ro_hedgeEndpoint out =? "")%string then _ else _).
  assert (sl_tried l0 ⊆ sl_tried l1 /\ sl_triedDomains l0 ⊆ sl_triedDomains l1) as [Ht1 Hd1].
  { pose proof (markDomainTried_grow (sl_triedDomains l) primary) as Hg.
    pose proof (markDomainTried_grow (markDomainTried (sl_triedDomains l) primary) (ro_hedgeEndpoint out)) as Hg2.
    subst l1. destruct (_ =? _)%string; cbn; split; set_solver. }
  destruct (noteCapabilityFailure _ _ _) as [[n cap] spent].
  eapply post_bind.
  - instantiate (1 := fun _ d => quiet d). destruct (ro_responses out) as [|r rs]; [apply post_ret, quiet_nil|].
    apply post_when; [apply quiet_nil|]. intros _. apply post_emit. repeat split.
  - intros [] d Hq. apply post_ret. rewrite app_nil_r. split; [exact Hq|]. destruct (cap && spent); cbn; now split.
Qed.

Lemma single_hedge_post rq p b available primary l : b = 1 ->
  post (single_hedge rq p available primary l) (single_end p b l).
Proof.
  intros Hb. unfold single_hedge. set (ev := EvRace (sl_protocolCtx l) primary).
  eapply post_bind; [apply (post_emit _ (fun _ d => d = [ev])); reflexivity|]. intros [] d0 ->.
  eapply post_bind; [apply (post_ask _ (fun _ d => d = [])); reflexivity|]. intros out d0 ->. cbn [app].
  assert (forall d, quiet d -> (sends (ev :: d) <= 1)%nat /\ builds (ev :: d) = []) as Hq.
  { intros d (Hr & Ha & Hbd). split; [|exact Hbd]. unfold sends. change (relays (ev :: d)) with (relays d). change (races (ev :: d)) with (S (races d)). lia. }
  assert (forall l1, sl_tried l ⊆ sl_tried l1 -> sl_triedDomains l ⊆ sl_triedDomains l1 ->
    post (hedge_give_up primary out l1) (fun f d => single_end p b l f (ev :: d))) as Hup.
  { intros l1 Ht Hd. eapply post_mono; [apply (hedge_give_up_post l primary out l1 Ht Hd)|]. intros f d [Hqd Hf].
    destruct (Hq d Hqd) as [Hs Hbd]. split; [exact Hs|]. split; [exact Hbd|]. destruct f as [l'|l'|[e rc]]; [| |destruct Hf]; destruct Hf; split; auto; split; auto; intros Hb1; congruence. }
  assert (forall ck, sl_tried l ⊆ sl_tried (hedge_failed_locals
    (sl_with_rc l (mkRcFields (rc_retryCount (sl_rc l)) (fold_left addSupplierTried (ro_suppliers out) (rc_suppliersTried (sl_rc l))) (rc_relayMetadata (sl_rc l)) (ro_raceResult out))) out ck) /\
    sl_triedDomains l ⊆ sl_triedDomains (hedge_failed_locals
    (sl_with_rc l (mkRcFields (rc_retryCount (sl_rc l)) (fold_left addSupplierTried (ro_suppliers out) (rc_suppliersTried (sl_rc l))) (rc_relayMetadata (sl_rc l)) (ro_raceResult out))) out ck)) as Hlf.
  { intros ck. unfold hedge_failed_locals. destruct ck, (ro_responses out); cbn; split; set_solver. }
  destruct (ro_err out) as [e|]; [destruct (Hlf None); now apply Hup|].
  destruct (ro_responses out) as [|resp rest] eqn:Er; [destruct (Hlf None); now apply Hup|].
  destruct (ck_Success _) eqn:Eck.
  - quiet_step (post_when_quiet (negb (rr_EndpointAddr resp =? "")%string) _ (post_record_success rq (rr_EndpointAddr resp))).
    eapply post_bind; [apply (deliver_post p resp rest Eck)|]. intros [] d1 [Hq1 Ha1]. apply post_ret. rewrite app_nil_r.
    destruct (Hq (d ++ d1)%list) as [Hs Hbd]; [now apply quiet_app|]. split; [exact Hs|]. split; [exact Hbd|]. intros _.
    apply (answered_app_r p (ev :: d)). exact Ha1.
  - set (check := checkResponseSuccess _ _ _ _ _ _) in *.
    quiet_step (post_when_quiet (negb (rr_EndpointAddr resp =? "")%string) _ (post_record_signal rq (rr_EndpointAddr resp) (ck_HeuristicResult check))).
    destruct (Hlf (Some check)) as [Ht Hdm]. eapply post_mono; [apply (hedge_give_up_post l primary out _ Ht Hdm)|].
    intros f d1 [Hq1 Hf]. destruct (Hq (d ++ d1)%list) as [Hs Hbd]; [now apply quiet_app|]. split; [exact Hs|]. split; [exact Hbd|].
    destruct f as [l'|l'|[e rc]]; [| |destruct Hf]; destruct Hf; split; auto; split; auto; intros Hb1; congruence.
Qed.

Lemma single_relay_post rq p b l : post (single_relay rq p b l) (single_end p b l).
Proof.
  unfold single_relay. set (ev := EvRelay (sl_protocolCtx l)).
  eapply post_bind; [apply (post_emit _ (fun _ d => d = [ev])); reflexivity|]. intros [] d0 ->.
  eapply post_bind; [apply (post_ask _ (fun _ d => d = [])); reflexivity|]. intros [[responses err] dur] d0 ->. cbn [app].
  assert (forall d, quiet d -> (sends (ev :: d) <= 1)%nat /\ builds (ev :: d) = []) as Hq.
  { intros d (Hr & Ha & Hbd). split; [|exact Hbd]. unfold sends. change (relays (ev :: d)) with (S (relays d)). change (races (ev :: d)) with (races d). lia. }
  set (statusCode := match responses with r :: _ => rr_HTTPStatusCode r | [] => 0 end).
  set (endpointAddr := match responses with r :: _ => rr_EndpointAddr r | [] => "" end).
  set (body := match responses with r :: _ => rr_body r | [] => "" end). set (requestID := match responses with r :: _ => rr_RequestID r | [] => "" end).
  set (l1 := if is_nonempty responses && (b =? 1) then sl_with_current l endpointAddr else l).
  assert (sl_tried l1 = sl_tried l /\ sl_triedDomains l1 = sl_triedDomains l /\ (b <> 1 -> sl_current l1 = sl_current l)) as (Ht & Hd & Hc).
  { subst l1. destruct (Z.eqb_spec b 1); [destruct (is_nonempty responses); cbn; repeat split; congruence|]. rewrite andb_false_r. auto. }
  set (supplier := match responses with r :: _ => _ | [] => _ end). set (check := checkResponseSuccess err statusCode body (EffectiveRPCType p) (payload_method p) requestID).
  destruct (ck_Success check) eqn:Eck.
  - destruct err as [e|]; [discriminate Eck|]. destruct responses as [|r rs]; [unfold check, statusCode, body in Eck; rewrite empty_not_success in Eck; discriminate|].
    quiet_step (post_when_quiet (negb (endpointAddr =? "")%string) _ (post_record_success rq endpointAddr)).
    eapply post_bind; [apply (deliver_post p r rs Eck)|]. intros [] d1 [Hq1 Ha1]. apply post_ret. rewrite app_nil_r.
    destruct (Hq (d ++ d1)%list) as [Hs Hbd]; [now apply quiet_app|]. split; [exact Hs|]. split; [exact Hbd|]. intros _. apply (answered_app_r p (ev :: d)). exact Ha1.
  - quiet_step (post_when_quiet (negb (endpointAddr =? "")%string) _ (post_record_signal rq endpointAddr (ck_HeuristicResult check))).
    destruct (noteCapabilityFailure _ _ _) as [[n cap] spent]. quiet_step (post_deliver responses).
    destruct (Hq (d ++ d0)%list) as [Hs Hbd]; [now apply quiet_app|].
    assert (forall f : single_flow, match f with Return (e, _) => e <> None | Continue l' | Break l' => sl_tried l' = sl_tried l1 /\ sl_triedDomains l' = sl_triedDomains l1 /\ sl_current l' = sl_current l1 end ->
      single_end p b l f (ev :: (d ++ d0))) as Hend.
    { intros f Hf. split; [exact Hs|]. split; [exact Hbd|].
      destruct f as [l'|l'|[e rc]]; [| |intros; congruence]; destruct Hf as (-> & -> & ->); rewrite Ht, Hd; auto. }
    destruct (_ <? _); [|apply post_ret; rewrite app_nil_r; apply Hend; cbn; auto].
    destruct (if cap then _ else _); [apply post_ret; rewrite app_nil_r; apply Hend; cbn; auto|].
    eapply post_bind; [apply (post_ask _ (fun _ d => d = [])); reflexivity|]. intros ctxErr d2 ->. apply post_ret. rewrite !app_nil_r. apply Hend.
    destruct ctxErr; cbn; auto.
Qed.

(** What the rotation leaves: the endpoint used before is tried, and the new one is not
    among the endpoints and operators used. *)
Definition turned (broken : gset string) l (d : list effect) : Prop :=
  rotates broken (builds d) /\ broken ⊆ sl_triedDomains l /\
  covers broken ({[sl_current l]} ∪ sl_tried l) (markDomainTried (sl_triedDomains l) (sl_current l)) (builds d).

Lemma single_rotate_post rq rpcType broken l d : turned broken l d ->
  post (single_rotate rq rpcType l) (fun r d' => sends d' = 0%nat /\ rotates broken (builds (d ++ d')) /\ (fst r = true -> turned broken (snd r) (d ++ d'))).
Proof.
  intros (Hro & Hbr & Hco). unfold single_rotate.
  match goal with |- context [mark_broken rq ?e ?f ?r] => quiet_step (post_mark_broken rq e f r) end.
  rename d0 into dq. destruct (quiet_sends _ Hd) as [Hsq Hbq].
  assert (forall (r : bool * single_locals), fst r = false -> post (W := W) (eret r) (fun r d' => sends (dq ++ d') = 0%nat /\ rotates broken (builds (d ++ dq ++ d')) /\ (fst r = true -> turned broken (snd r) (d ++ dq ++ d')))) as Hstop.
  { intros r Hr. apply post_ret. rewrite !app_nil_r, builds_app, Hbq, app_nil_r. split; [exact Hsq|]. split; [exact Hro|congruence]. }
  ask_step. destruct a as [[|e0 es]|err]; [now apply Hstop| |now apply Hstop].
  eapply post_bind; [apply post_validated|]. intros available d1 ->. cbn [app].
  destruct (filterEndpoints _ _ _) as [|f fs] eqn:Ef; [now apply Hstop|].
  eapply (post_bind _ _ (fun ranked d => d = [] /\ (ranked = "" \/ In ranked (f :: fs)))).
  { apply post_ask. intros w. split; [reflexivity|]. destruct (env_top_ranked (f :: fs) rpcType w) as [ep w'] eqn:E. exact (top_ranked_member _ _ _ _ _ E). }
  intros sel d1 [-> Hsel]; cbn [app]. destruct (String.eqb_spec sel "") as [|Hne]; [now apply Hstop|]. destruct Hsel as [|Hsel]; [congruence|].
  rewrite <- Ef in Hsel. destruct (filterEndpoints_spec _ _ _ _ Hsel) as (Ht & Hh & Hr).
  destruct (rotate_next broken _ _ (builds d) sel Hco Hro Ht Hh Hr) as [Hro2 Hco2].
  eapply post_bind; [apply (post_emit _ (fun _ d => d = [EvBuild sel])); reflexivity|]. intros [] d1 ->.
  eapply post_bind; [apply (post_ask _ (fun _ d => d = [])); reflexivity|]. intros berr d1 ->.
  assert (builds (d ++ dq ++ [EvBuild sel]) = (builds d ++ [sel])%list) as Hb by (rewrite !builds_app, Hbq; reflexivity).
  assert (sends (dq ++ [EvBuild sel]) = 0%nat) as Hs by (rewrite sends_app, Hsq; reflexivity).
  destruct berr; apply post_ret; cbn [app]; rewrite ?app_nil_r, Hb; (split; [exact Hs|]); (split; [exact Hro2|]); cbn [fst snd]; [discriminate|].
  intros _. split; [now rewrite Hb|]. split; [cbn; pose proof (markDomainTried_grow (sl_triedDomains l) (sl_current l)); set_solver|]. rewrite Hb. exact Hco2.
Qed.


Lemma turned_end p broken b l l' d d' f : turned broken l d -> (b = 1 -> builds d = []) -> single_end p b l f d' ->
  (f = Continue l' \/ f = Break l') -> turned broken l' (d ++ d').
Proof.
  intros (Hro & Hbr & Hco) Hb1 (_ & Hbd & He) Hfl. unfold turned. rewrite builds_app, Hbd, app_nil_r. split; [exact Hro|].
  assert (sl_tried l ⊆ sl_tried l' /\ sl_triedDomains l ⊆ sl_triedDomains l' /\ (b <> 1 -> sl_current l' = sl_current l)) as (Ht & Hd & Hc)
    by (destruct Hfl as [-> | ->]; exact He).
  assert (broken ⊆ sl_triedDomains l') as Hbr' by set_solver. split; [exact Hbr'|]. destruct (Z.eq_dec b 1) as [E|E].
  - rewrite (Hb1 E). split; [|constructor]. pose proof (markDomainTried_grow (sl_triedDomains l') (sl_current l')). set_solver.
  - rewrite (Hc E). eapply covers_grow; [| |exact Hco]; [set_solver|]. unfold markDomainTried. destruct (_ =? _)%string; set_solver.
Qed.

(** Before attempt [b]. *)
Record single_inv (broken : gset string) (b : Z) l (d : list effect) : Prop := {
  si_sends : Z.of_nat (sends d) < b;
  si_first : b = 1 -> builds d = [];
  si_turned : turned broken l d;
}.

(** When the loop is left. *)
Definition single_left (broken : gset string) (n : Z) (d : list effect) : Prop := Z.of_nat (sends d) <= n /\ rotates broken (builds d).

Lemma single_attempt_post rq broken n p b l d : 1 <= b <= n -> single_inv broken b l d ->
  post (single_attempt rq p b l) (fun f d' => match f with
    | Continue l' => single_inv broken (b + 1) l' (d ++ d')%list
    | Break l' => single_left broken n (d ++ d')%list
    | Return r => single_left broken n (d ++ d')%list /\ (fst r = None -> answered p (d ++ d')%list)
    end).
Proof.
  intros Hbn [Hs Hfst Htu]. unfold single_attempt.
  eapply post_bind; [apply (post_ask _ (fun _ d => d = [])); reflexivity|]. intros [e|] d0 ->; cbn [app].
  { apply post_ret. rewrite app_nil_r. split; [|discriminate]. destruct Htu as (Hro & _). split; [lia|exact Hro]. }
  eapply (post_bind _ _ (fun r d1 => sends d1 = 0%nat /\ rotates broken (builds (d ++ d1)) /\ (b = 1 -> builds (d ++ d1) = []) /\ (fst r = true -> turned broken (snd r) (d ++ d1)))).
  { destruct (Z.ltb_spec 1 b).
    - eapply post_mono; [apply (single_rotate_post rq (pl_RPCType p) broken l d Htu)|]. intros r d1 (H1s & H1r & H1t).
      split; [exact H1s|]. split; [exact H1r|]. split; [lia|exact H1t].
    - apply post_ret. rewrite app_nil_r. destruct Htu as (Hro & Hbr & Hco). split; [reflexivity|]. split; [exact Hro|]. split; [exact Hfst|]. intros _. split; [exact Hro|]. cbn.
      split; [exact Hbr|]. rewrite (Hfst ltac:(lia)). split; [|constructor]. pose proof (markDomainTried_grow (sl_triedDomains l) (sl_lastEndpointAddr l)). set_solver. }
  intros [go_on l1] d1 (Hs1 & Hro1 & Hb1 & Htu1). cbn [fst snd] in Htu1.
  destruct go_on; cbn [negb]; [|apply post_ret; rewrite app_nil_r; split; [rewrite sends_app; lia|exact Hro1]]. specialize (Htu1 eq_refl).
  assert (forall f d2, single_end p b l1 f d2 -> match f with
    | Continue l' => single_inv broken (b + 1) l' (d ++ d1 ++ d2)%list
    | Break l' => single_left broken n (d ++ d1 ++ d2)%list
    | Return r => single_left broken n (d ++ d1 ++ d2)%list /\ (fst r = None -> answered p (d ++ d1 ++ d2)%list)
    end) as Hend.
  { intros f d2 He. rewrite app_assoc. pose proof He as (Hs2 & Hb2 & Hf).
    assert (Z.of_nat (sends ((d ++ d1) ++ d2)) < b + 1) as Hsum by (rewrite !sends_app; lia).
    assert (single_left broken n ((d ++ d1) ++ d2)%list) as Hleft by (split; [lia|rewrite builds_app, Hb2, app_nil_r; exact Hro1]).
    destruct f as [l'|l'|[e rc]]; [|exact Hleft|].
    - split; [exact Hsum|lia|]. eapply turned_end; eauto.
    - split; [exact Hleft|]. intros Hn. apply answered_app_r. exact (Hf Hn). }
  destruct (_ && _) eqn:Eh.
  - ask_step. assert (b = 1) as Hb by (breflect; lia).
    assert (post (single_relay rq p b l1) (fun f d2 => match f with
      | Continue l' => single_inv broken (b + 1) l' (d ++ d1 ++ d2)%list
      | Break l' => single_left broken n (d ++ d1 ++ d2)%list
      | Return r => single_left broken n (d ++ d1 ++ d2)%list /\ (fst r = None -> answered p (d ++ d1 ++ d2)%list)
      end)) as Hrel by (eapply post_mono; [apply single_relay_post|exact Hend]).
    destruct a as [[|e0 es]|err]; [exact Hrel| |exact Hrel].
    eapply post_bind; [apply post_validated|]. intros available d2 ->. cbn [app]. eapply post_mono; [apply (single_hedge_post rq p b); exact Hb|exact Hend].
  - eapply post_mono; [apply single_relay_post|exact Hend].
Qed.

Lemma single_start_inv broken rc : single_inv broken 1 (single_start broken rc) [].
Proof.
  split; [cbn; lia|reflexivity|]. split; [|split; [cbn; set_solver|]].
  - split; [apply NoDup_nil_2|]. split; [apply NoDup_nil_2|constructor].
  - split; [|constructor]. cbn. pose proof (markDomainTried_grow broken ""). set_solver.
Qed.

(** The run of a request with one payload. *)
Lemma single_run rq maxBatch p rc w :
  let run := handleSingleRelayRequest rq maxBatch [p] rc (w, []) in
  single_left (excluded rq w) (Z.max 0 (maxAttempts (rq_retry rq))) (trace_of run) /\ (fst (value_of run) = None -> answered p (trace_of run)).
Proof.
  apply (run_excluded rq (single_from rq p rc) (fun broken r t =>
    single_left broken (Z.max 0 (maxAttempts (rq_retry rq))) t /\ (fst r = None -> answered p t))).
  intros broken. unfold single_from. eapply post_bind.
  - apply (post_attempts _ (single_inv broken) (fun _ => single_left broken (Z.max 0 (maxAttempts (rq_retry rq))))
      (fun r d => single_left broken (Z.max 0 (maxAttempts (rq_retry rq))) d /\ (fst r = None -> answered p d)) _ 1 _ []).
    + intros b l d Hb Hi. apply single_attempt_post; [lia|exact Hi].
    + intros l d [Hs _ (Hro & _)]. split; [lia|exact Hro].
    + apply single_start_inv.
  - intros [l|r] d Hd; cbn [app] in Hd; [|apply post_ret; now rewrite app_nil_r]. unfold single_finish.
    eapply post_bind; [apply (post_emit _ (fun _ d => quiet d)); repeat split|]. intros [] d1 Hq1.
    eapply post_bind; [apply (post_emit _ (fun _ d => quiet d)); repeat split|]. intros [] d2 Hq2.
    apply post_ret. rewrite app_nil_r. destruct (quiet_sends _ (quiet_app _ _ Hq1 Hq2)) as [Hs Hb], Hd as [Hds Hdr]. split; [|discriminate].
    split; [rewrite sends_app; lia|rewrite builds_app, Hb, app_nil_r; exact Hdr].
Qed.

(** C7: a single request ends, and costs at most one relay or race per configured
    attempt; its retries use every endpoint and every operator once and none the circuit
    breaker excluded at the start. *)
Theorem single_request_bounded (rq : request) (maxBatch : Z) (p : Payload) (rc : rc_fields) (w : W) :
  let run := handleSingleRelayRequest rq maxBatch [p] rc (w, []) in
  Z.of_nat (relays (trace_of run) + races (trace_of run)) <= Z.max 0 (maxAttempts (rq_retry rq)) /\ rotates (excluded rq w) (builds (trace_of run)).
Proof.
  pose proof (single_run rq maxBatch p rc w) as Hrun.
  exact (proj1 Hrun).
Qed.


End Single.

(** ** The relay theorems at work

    Concrete requests against a scripted environment: the theorems on the relay loops
    applied to them, and runs that show what the paths do at their edges. *)

Open Scope string_scope.
Open Scope Z_scope.
Open Scope relay_scope.

Definition node_a : EndpointAddr := "pokt1a-https://r1.alpha.com".
Definition node_a2 : EndpointAddr := "pokt1c-https://r2.alpha.com".
Definition node_b : EndpointAddr := "pokt1b-https://r1.beta.io".

Definition block_number : Payload :=
  mkPayload (dq "{'jsonrpc':'2.0','id':7,'method':'eth_blockNumber','params':[]}") "POST" "" RPCType_JSON_RPC RPCType_UNKNOWN_RPC "eth_blockNumber".

Definition answer (ep : EndpointAddr) (status : Z) (body : string) : list relay_response :=
  [mkResponse (Some body) status ep (mkRelayMetadata "app" (extractSupplierFromEndpoint ep) "s1") "7"].

Definition good_body : string := dq "{'jsonrpc':'2.0','id':7,'result':'0x10'}".

(** The first operator fails, the second serves. *)
Definition rotating : script := mkScript [node_a; node_a2; node_b]
  (fun c => match c with
            | EndpointCtx ep => if (ep =? node_b)%string then (answer node_b 200 good_body, None) else (answer ep 502 "bad gateway", None)
            | InitialCtx _ => (answer node_a 502 "bad gateway", None)
            end)
  (mkRace [] None "" "" []) ∅.

Definition two_retries : request :=
  mkRequest "eth" true true (Some (mkRetryConfig (Some true) (Some 2) (Some true) (Some true) (Some true) None None None None)).

Definition batch_run : (relay_response * option go_error) * (script * list effect) :=
  processSinglePayloadWithRetry two_retries block_number 0 2 RPCType_JSON_RPC (rotating, []).

Lemma batch_item_bounded_witness :
  relays (snd (snd batch_run)) = 2%nat /\ builds (snd (snd batch_run)) = [node_a; node_b] /\
  let run := processSinglePayloadWithRetry two_retries block_number 0 2 RPCType_JSON_RPC (rotating, []) in
  Z.of_nat (relays (trace_of run)) <= Z.max 0 (maxAttempts (rq_retry two_retries)) /\ (races (trace_of run) <= 1)%nat.
Proof.
  split; [vm_compute; reflexivity|]. split; [vm_compute; reflexivity|].
  exact (batch_item_bounded two_retries block_number 0 2 RPCType_JSON_RPC rotating).
Defined.

Lemma batch_item_rotates_witness :
  let run := processSinglePayloadWithRetry two_retries block_number 0 2 RPCType_JSON_RPC (rotating, []) in
  rotates (excluded two_retries rotating) (builds (trace_of run)) /\
  exists eps, relayed (trace_of run) = map EndpointCtx eps /\ eps `sublist_of` builds (trace_of run) /\ rotates (excluded two_retries rotating) eps.
Proof. exact (batch_item_rotates two_retries block_number 0 2 RPCType_JSON_RPC rotating). Defined.

Lemma batch_item_success_witness :
  snd (fst batch_run) = None /\
  let run := processSinglePayloadWithRetry two_retries block_number 0 2 RPCType_JSON_RPC (rotating, []) in
  snd (value_of run) = None -> accepted block_number (fst (value_of run)) \/ (relays (trace_of run) = 0%nat /\ rr_Bytes (fst (value_of run)) = None).
Proof. split; [vm_compute; reflexivity|]. exact (batch_item_success two_retries block_number 0 2 RPCType_JSON_RPC rotating). Defined.

Definition single_rc : rc_fields := mkRcFields 0 [] [] "".
Definition single_demo : (option go_error * rc_fields) * (script * list effect) :=
  handleSingleRelayRequest two_retries 100 [block_number] single_rc (rotating, []).

Lemma single_request_bounded_witness :
  builds (snd (snd single_demo)) = [node_b] /\
  let run := handleSingleRelayRequest two_retries 100 [block_number] single_rc (rotating, []) in
  Z.of_nat (relays (trace_of run) + races (trace_of run)) <= Z.max 0 (maxAttempts (rq_retry two_retries)) /\ rotates (excluded two_retries rotating) (builds (trace_of run)).
Proof. split; [vm_compute; reflexivity|]. exact (single_request_bounded two_retries 100 block_number single_rc rotating). Defined.


(** ** At the edges *)

(** Every host is broken. *)
Definition all_broken : script := mkScript [node_a; node_b] (fun _ => (answer node_a 200 good_body, None)) (mkRace [] None "" "" []) {["r1.alpha.com"; "r1.beta.io"]}.

(** A batch item all of whose endpoints are excluded by the circuit breaker is not
    relayed and yet reported without an error: no response and no error reach the QoS
    context for it. *)
Theorem excluded_item_reports_no_error :
  fst (processSinglePayloadWithRetry two_retries block_number 0 2 RPCType_JSON_RPC (all_broken, [])) =
    (with_request_id zero_response "7", None) /\
  snd (snd (handleBatchRelayRequest two_retries 100 [block_number; block_number] (all_broken, []))) = [].
Proof. split; vm_compute; reflexivity. Qed.

(** Two workers: the first endpoint answers 500, the second serves. *)
Definition one_bad : script := mkScript [node_a; node_b]
  (fun c => match c with InitialCtx O => (answer node_a 500 "internal error", None) | _ => (answer node_b 200 good_body, None) end)
  (mkRace [] None "" "" []) ∅.

Definition no_retries : request := mkRequest "eth" false false None.

Definition arrival_of (r : worker_result) : list arrival :=
  match r with Some (responses, err) => [Arrived responses err] | None => [] end.

(** In the parallel fan-out a worker whose endpoint answered 500 reports its failure
    without an error, and the collector takes it as the success: a good response that
    arrives next is not used. *)
Theorem parallel_failed_status_wins :
  let first := fst (executeOneOfParallelRequests no_retries block_number [block_number] 0 (one_bad, [])) in
  let second := fst (executeOneOfParallelRequests no_retries block_number [block_number] 1 (one_bad, [])) in
  second = Some (answer node_b 200 good_body, None) /\
  waitForFirstSuccessfulResponse 2 0 0 None (arrival_of first ++ arrival_of second) = Some (Succeeded (answer node_a 500 "internal error")).
Proof. split; vm_compute; reflexivity. Qed.
