(* ===== verification/Hedge.v ===== *)
(** * The hedge race: gateway/hedge.go

    A race as a state machine over what its selects receive: results of the two
    branches in the order they reach the channel, the timers and the end of the
    caller's context.  The branches themselves are relays ([RelayLoop]'s environment);
    metrics, logging and the detached cleanup after the race has returned are left
    out. *)

From S2P Require Import Prelude GoStrings Utf8 Float64 Domain RepKey CircuitBreaker SelectionProps RPCTypes Heuristic HeuristicProps RelayPolicy RelayLoop RelayLoopProps RelaySingleProps.
From Stdlib Require Import ZArith Lia Bool Ascii String.
From stdpp Require Import base gmap strings list.

Open Scope string_scope.
Open Scope Z_scope.

Record hedgeResult := mkHedgeResult {
  hr_responses : list relay_response;
  hr_err : option go_error;
  hr_endpointAddr : EndpointAddr;
  hr_supplierAddr : string;
  hr_isHedge : bool;
}.

Definition HedgeResultPrimaryOnly : string := "primary_only".
Definition HedgeResultPrimaryWon : string := "primary_won".
Definition HedgeResultHedgeWon : string := "hedge_won".
Definition HedgeResultBothFailed : string := "both_failed".
Definition HedgeResultNoHedge : string := "no_hedge".

(** What a finished branch sends: the supplier of the response when it names one. *)
Definition executeRequest (endpoint : EndpointAddr) (supplier : string) (isHedge : bool)
  (responses : list relay_response) (err : option go_error) : hedgeResult :=
  mkHedgeResult responses err endpoint
    (match responses with
     | r :: _ => if (rm_SupplierAddress (rr_Metadata r) =? "")%string then supplier else rm_SupplierAddress (rr_Metadata r)
     | [] => supplier
     end) isHedge.

(** What the selects of a race receive. *)
Inductive race_event :=
| Result (r : hedgeResult)       (** a branch's result on the channel *)
| Elapsed                        (** the select's own timer: hedge delay, 10 s, 100 ms *)
| Cancelled (e : go_error).      (** ctx.Done() *)

(** Where the race stands.  [started] is hr.hedgeStarted, [sup] the suppliers recorded as
    tried so far, in order. *)
Inductive race_phase :=
| Racing                                                   (** before the hedge delay *)
| WaitFirst (started : bool) (sup : list string)
| WaitSecond (started : bool) (first : hedgeResult) (sup : list string)
| Collecting (winner : hedgeResult) (raceResult : string) (sup : list string)
| Over (out : list relay_response) (err : option go_error) (hedged : EndpointAddr) (raceResult : string) (sup : list string).

Section Race.
Context `{DomainLib} `{UnicodeCase} `{RPCTypeMembers}.

(** The endpoints the hedge may go to. *)
Definition hedge_candidates (endpoints : list EndpointAddr) (excludePrimary : EndpointAddr) : list EndpointAddr :=
  let primaryDomain := computeRegistrableDomainFromEndpoint excludePrimary in
  List.filter (fun ep => negb (ep =? excludePrimary)%string &&
                         negb (negb (primaryDomain =? "")%string && (computeRegistrableDomainFromEndpoint ep =? primaryDomain)%string)) endpoints.

(** [pick] is selectTopRankedEndpoint. *)
Definition selectHedgeEndpoint (pick : list EndpointAddr -> EndpointAddr) (endpoints : list EndpointAddr) (excludePrimary : EndpointAddr) : EndpointAddr :=
  match hedge_candidates endpoints excludePrimary with [] => "" | filtered => pick filtered end.

Definition isResponseHeuristicallyValid (p : Payload) (r : hedgeResult) : bool :=
  match hr_responses r with
  | [] => false
  | resp :: _ =>
      if (rr_body resp =? "")%string then false
      else negb (ShouldRetry (Analyze Heuristic.DefaultConfig (rr_body resp) (rr_HTTPStatusCode resp) (EffectiveRPCType p) (payload_method p)))
  end.

(** A result the race takes as a win. *)
Definition good (p : Payload) (r : hedgeResult) : bool :=
  match hr_err r with Some _ => false | None => is_nonempty (hr_responses r) && isResponseHeuristicallyValid p r end.

(** handleResult *)
Definition finish (hedged : EndpointAddr) (r : hedgeResult) (raceResult : string) (sup : list string) : race_phase :=
  Over (hr_responses r) (hr_err r) hedged raceResult (sup ++ [hr_supplierAddr r])%list.

Definition won_by (r : hedgeResult) : string := if hr_isHedge r then HedgeResultHedgeWon else HedgeResultPrimaryWon.

(** [hedgeEndpoint] and [built]: the endpoint selected for the hedge and whether its
    context could be built. *)
Definition race_step (p : Payload) (primaryEndpoint hedgeEndpoint : EndpointAddr) (built : bool) (ph : race_phase) (ev : race_event) : race_phase :=
  match ph, ev with
  | Racing, Result r => finish "" r HedgeResultPrimaryOnly []
  | Racing, Elapsed =>
      if (hedgeEndpoint =? "")%string then WaitFirst false []
      else WaitFirst built [extractSupplierFromEndpoint primaryEndpoint; extractSupplierFromEndpoint hedgeEndpoint]
  | Racing, Cancelled e => Over [] (Some e) "" "" []
  | WaitFirst started sup, Result r =>
      if good p r then Collecting r (if started then won_by r else HedgeResultNoHedge) sup
      else WaitSecond started r sup
  | WaitFirst started sup, Elapsed => ph
  | WaitFirst started sup, Cancelled e => Over [] (Some e) hedgeEndpoint "" sup
  | WaitSecond started first sup, Result second =>
      if good p second then finish hedgeEndpoint second (won_by second) (sup ++ [hr_supplierAddr first])%list
      else finish hedgeEndpoint first HedgeResultBothFailed (sup ++ [hr_supplierAddr second])%list
  | WaitSecond started first sup, Elapsed => finish hedgeEndpoint first (if started then HedgeResultBothFailed else HedgeResultNoHedge) sup
  | WaitSecond started first sup, Cancelled e => Over [] (Some e) hedgeEndpoint "" sup
  | Collecting winner raceResult sup, Result loser => finish hedgeEndpoint winner raceResult (sup ++ [hr_supplierAddr loser])%list
  | Collecting winner raceResult sup, Elapsed => finish hedgeEndpoint winner raceResult sup
  | Collecting winner raceResult sup, Cancelled _ => ph
  | Over _ _ _ _ _, _ => ph
  end.

Definition run_race (p : Payload) (primary hedge : EndpointAddr) (built : bool) (evs : list race_event) : race_phase :=
  fold_left (race_step p primary hedge built) evs Racing.

(** The outcome the relay loops receive. *)
Definition race (p : Payload) (primary hedge : EndpointAddr) (built : bool) (evs : list race_event) : option race_outcome :=
  match run_race p primary hedge built evs with
  | Over out err hedged raceResult sup => Some (mkRace out err hedged raceResult sup)
  | _ => None
  end.

(** ** Theorems *)

Lemma hedge_endpoint_spec pick endpoints primary :
  (forall l, l <> [] -> pick l = "" \/ In (pick l) l) ->
  let ep := selectHedgeEndpoint pick endpoints primary in
  ep = "" \/ (In ep endpoints /\ ep <> primary /\
              (computeRegistrableDomainFromEndpoint primary <> "" -> computeRegistrableDomainFromEndpoint ep <> computeRegistrableDomainFromEndpoint primary)).
Proof.
  intros Hpick. unfold selectHedgeEndpoint. destruct (hedge_candidates endpoints primary) as [|e es] eqn:E; [now left|].
  destruct (Hpick (e :: es) ltac:(discriminate)) as [Hp|Hp]; [now left|right]. assert (In (pick (e :: es)) (hedge_candidates endpoints primary)) as Hc by (rewrite E; exact Hp).
  apply filter_In in Hc as [Hin Hf]. apply andb_true_iff in Hf as [H1f H2f]. apply negb_true_iff, String.eqb_neq in H1f. split; [exact Hin|]. split; [exact H1f|].
  intros Hne Heq. apply String.eqb_neq in Hne. rewrite Hne, Heq, String.eqb_refl in H2f. discriminate.
Qed.

Variables (p : Payload) (primary hedge : EndpointAddr) (built : bool).

(** The events the race took while it was on, in order, and the results among them. *)
Fixpoint handled (ph : race_phase) (evs : list race_event) : list race_event :=
  match evs with
  | [] => []
  | ev :: rest =>
      match ph with
      | Over _ _ _ _ _ => []
      | _ => ev :: handled (race_step p primary hedge built ph ev) rest
      end
  end.

Definition results_of (evs : list race_event) : list hedgeResult :=
  omap (fun ev => match ev with Result r => Some r | _ => None end) evs.

Definition received (evs : list race_event) : list hedgeResult := results_of (handled Racing evs).

(** What a phase remembers of the events so far: after the delay, a winner is good, a result kept
    for want of a better one is bad, none is ignored, and only the end of the context makes the
    race give up. *)
Definition phase_ok (seen : list race_event) (ph : race_phase) : Prop :=
  match ph with
  | Racing | WaitFirst _ _ => results_of seen = []
  | WaitSecond _ first _ => results_of seen = [first] /\ good p first = false
  | Collecting winner _ _ => results_of seen = [winner] /\ good p winner = true
  | Over out err _ res _ =>
      (exists e, out = [] /\ err = Some e /\ last seen = Some (Cancelled e) /\ Forall (fun x => good p x = false) (results_of seen)) \/
      exists r, In r (results_of seen) /\ out = hr_responses r /\ err = hr_err r /\
        (res = HedgeResultPrimaryOnly /\ seen = [Result r] \/ good p r = true \/ Forall (fun x => good p x = false) (results_of seen))
  end.

Lemma results_snoc seen ev : results_of (seen ++ [ev]) = (results_of seen ++ match ev with Result r => [r] | _ => [] end)%list.
Proof. unfold results_of. rewrite omap_app. by destruct ev. Qed.

Lemma race_step_ok seen ph ev : match ph with Over _ _ _ _ _ => False | Racing => seen = [] | _ => True end ->
  phase_ok seen ph -> phase_ok (seen ++ [ev])%list (race_step p primary hedge built ph ev).
Proof.
  intros Hon Hok. destruct ph as [|st sup|st first sup|winner res sup|]; [| | | |done].
  - subst seen. destruct ev as [r| |e]; cbn; [right; exists r; repeat split; auto|by destruct (hedge =? "")%string|left; eauto 10].
  - cbn in Hok. destruct ev as [r| |e]; cbn; [destruct (good p r) eqn:E; cbn|..]; rewrite results_snoc, Hok; auto.
    left. exists e. rewrite last_snoc. cbn. auto.
  - destruct Hok as [Hs Hf]. destruct ev as [r| |e]; cbn.
    + destruct (good p r) eqn:E; cbn; rewrite results_snoc, Hs; right; [exists r|exists first]; cbn; repeat split; auto.
    + rewrite results_snoc, Hs. right. exists first. cbn. repeat split; auto.
    + rewrite results_snoc, Hs, last_snoc. left. exists e. repeat split. constructor; auto.
  - destruct Hok as [Hs Hf]. destruct ev as [r| |e]; cbn; rewrite results_snoc, Hs; [right; exists winner; cbn; repeat split; auto|right; exists winner; cbn; repeat split; auto|auto].
Qed.

Lemma race_step_leaves_start ph ev : race_step p primary hedge built ph ev <> Racing.
Proof. destruct ph, ev; cbn; repeat case_match; discriminate. Qed.

Lemma run_ok evs : forall seen ph, match ph with Racing => seen = [] | _ => True end ->
  phase_ok seen ph -> phase_ok (seen ++ handled ph evs)%list (fold_left (race_step p primary hedge built) evs ph).
Proof.
  induction evs as [|ev evs IH]; intros seen ph Hs Hok; [cbn; now rewrite app_nil_r|]. cbn [fold_left handled].
  pose proof (race_step_leaves_start ph ev) as Hn.
  destruct ph as [|st sup|st first sup|winner res sup|out err hep res sup];
    try (rewrite cons_middle, app_assoc; apply IH; [by destruct (race_step _ _ _ _ _ _)|by apply race_step_ok]).
  rewrite app_nil_r. clear -Hok. induction evs as [|ev' evs IH]; [exact Hok|exact IH].
Qed.

(** C23: a hedge race that ends returns the result of a branch that answered, or gives up: with no
    response, the error of the caller's context, whose end is the last thing it received, and no good
    result received before.  A result of a branch is returned before the hedge delay, when it is the
    first thing received, or because it is good, or because no result received was good. *)
Theorem race_returns_best (evs : list race_event) (out : race_outcome) :
  race p primary hedge built evs = Some out ->
  (exists e, ro_responses out = [] /\ ro_err out = Some e /\ last (handled Racing evs) = Some (Cancelled e) /\
     Forall (fun x => good p x = false) (received evs)) \/
  exists r, In r (received evs) /\ ro_responses out = hr_responses r /\ ro_err out = hr_err r /\
    (ro_raceResult out = HedgeResultPrimaryOnly /\ handled Racing evs = [Result r] \/ good p r = true \/
     Forall (fun x => good p x = false) (received evs)).
Proof.
  unfold race, run_race. pose proof (run_ok evs [] Racing eq_refl eq_refl) as Hok. cbn [app] in Hok.
  destruct (fold_left _ evs Racing) as [|st sup|st first sup|winner res sup|o err hep res sup]; try discriminate. intros [= <-]. exact Hok.
Qed.

(** When no hedge could be started, a failed primary is not returned when it arrives:
    the race goes on waiting for a second result that nothing will send, and ends with
    the ten-second timer or the context. *)
Theorem unhedged_failure_waits (r : hedgeResult) :
  good p r = false ->
  run_race p primary "" built [Elapsed; Result r] = WaitSecond false r [] /\
  race p primary "" built [Elapsed; Result r] = None /\
  race p primary "" built [Elapsed; Result r; Elapsed] = Some (mkRace (hr_responses r) (hr_err r) "" HedgeResultNoHedge [hr_supplierAddr r]).
Proof. intros Hg. unfold race, run_race. cbn. rewrite Hg. repeat split. Qed.

(** The race ends: after the delay, two receptions are enough. *)
Lemma race_ends evs : (2 <= List.length (List.filter (fun ev => match ev with Result _ => true | _ => false end) evs))%nat ->
  is_Some (race p primary hedge built evs).
Proof.
  assert (forall ph evs k, match ph with Racing | WaitFirst _ _ => 2 | WaitSecond _ _ _ | Collecting _ _ _ => 1 | Over _ _ _ _ _ => 0 end%nat = k ->
    (k <= List.length (List.filter (fun ev => match ev with Result _ => true | _ => false end) evs))%nat ->
    exists out err hep res sup, fold_left (race_step p primary hedge built) evs ph = Over out err hep res sup) as Hgen.
  { intros ph0 evs0. revert ph0. induction evs0 as [|ev evs0 IH]; intros ph k Hk Hlen.
    - cbn in Hlen. destruct ph; subst k; try lia. cbn. eauto 8.
    - cbn [fold_left]. eapply IH; [reflexivity|]. cbn in Hlen.
      destruct ph as [|st sup|st first sup|winner res sup|o err hep res sup], ev as [r| |e]; cbn in *; subst k;
        repeat match goal with |- context [if ?c then _ else _] => destruct c end; cbn; lia. }
  intros Hlen. unfold race, run_race. destruct (Hgen Racing evs 2%nat eq_refl ltac:(lia)) as (o & err & hep & res & sup & ->). eauto.
Qed.
End Race.

(** The hedge goes to a candidate other than the primary and, when the primary has an
    operator domain, of another operator. *)
Theorem hedge_other_operator `{DomainLib} (pick : list EndpointAddr -> EndpointAddr) (endpoints : list EndpointAddr) (primary : EndpointAddr) :
  (forall l, l <> [] -> pick l = "" \/ In (pick l) l) ->
  let ep := selectHedgeEndpoint pick endpoints primary in
  ep = "" \/ (In ep endpoints /\ ep <> primary /\
              (computeRegistrableDomainFromEndpoint primary <> "" -> computeRegistrableDomainFromEndpoint ep <> computeRegistrableDomainFromEndpoint primary)).
Proof. apply hedge_endpoint_spec. Qed.

Lemma hedge_other_operator_witness :
  selectHedgeEndpoint (fun l => hd "" l) [node_a; node_a2; node_b] node_a = node_b /\
  let ep := selectHedgeEndpoint (fun l => hd "" l) [node_a; node_a2; node_b] node_a in
  ep = "" \/ (In ep [node_a; node_a2; node_b] /\ ep <> node_a /\
              (computeRegistrableDomainFromEndpoint node_a <> "" -> computeRegistrableDomainFromEndpoint ep <> computeRegistrableDomainFromEndpoint node_a)).
Proof.
  split; [vm_compute; reflexivity|]. apply hedge_other_operator. intros [|e l] Hl; [congruence|right; now left].
Defined.

Definition good_result : hedgeResult := executeRequest node_a "pokt1a" false (answer node_a 200 good_body) None.
Definition bad_result : hedgeResult := executeRequest node_b "pokt1b" true (answer node_b 502 "bad gateway") None.

Lemma race_returns_best_witness :
  let evs := [Elapsed; Result bad_result; Result good_result] in
  race block_number node_a node_b true evs =
    Some (mkRace (answer node_a 200 good_body) None node_b HedgeResultPrimaryWon ["pokt1a"; "pokt1b"; "pokt1b"; "pokt1a"]) /\
  exists r, In r (received block_number node_a node_b true evs) /\ answer node_a 200 good_body = hr_responses r.
Proof.
  cbn zeta. assert (race block_number node_a node_b true [Elapsed; Result bad_result; Result good_result] =
    Some (mkRace (answer node_a 200 good_body) None node_b HedgeResultPrimaryWon ["pokt1a"; "pokt1b"; "pokt1b"; "pokt1a"])) as E by (vm_compute; reflexivity).
  split; [exact E|]. destruct (race_returns_best block_number node_a node_b true _ _ E) as [(e & X & _)|(r & I & R & _)]; [discriminate X|].
  by exists r.
Defined.

Lemma unhedged_failure_waits_witness :
  good block_number bad_result = false /\ race block_number node_a "" true [Elapsed; Result bad_result] = None.
Proof.
  assert (good block_number bad_result = false) as Hg by (vm_compute; reflexivity). split; [exact Hg|].
  apply (unhedged_failure_waits block_number node_a true bad_result Hg).
Defined.

(** The first context is at [node_a]; the protocol lists [node_b] first. *)
Definition hedging : request :=
  mkRequest "eth" true true (Some (mkRetryConfig (Some true) (Some 1) None None None None None (Some (500 * millisecond)) None)).
Definition listed_last : script := mkScript [node_b; node_a]
  (fun c => match c with InitialCtx _ => (answer node_a 200 good_body, None) | EndpointCtx ep => (answer ep 200 good_body, None) end)
  (mkRace (answer node_a 200 good_body) None "" HedgeResultPrimaryOnly ["pokt1a"]) ∅.

(** The single-request path starts its race on the first protocol context but names
    the head of the endpoint list as the primary, so the endpoint the hedge must avoid is
    not the one the primary relay goes to: here the hedge is the primary's own endpoint. *)
Theorem single_hedge_names_list_head :
  head (trace_of (handleSingleRelayRequest hedging 100 [block_number] single_rc (listed_last, []))) = Some (EvRace (InitialCtx 0) node_b) /\
  map rr_EndpointAddr (fst (sc_answer listed_last (InitialCtx 0))) = [node_a] /\
  selectHedgeEndpoint (fun l => hd "" l) (sc_available listed_last) node_b = node_a.
Proof. repeat split; vm_compute; reflexivity. Qed.
