(* ===== verification/SubRegistry.v ===== *)
(** * The subscription registry of a websocket bridge

    websockets/subscription_registry.go: the subscriptions of one client, kept under
    stable ids while the endpoint connection behind them is replaced.  The maps and the
    order share pointers to mutable subscriptions, so the model has a store of
    subscriptions indexed by address. *)

From S2P Require Import Prelude GoStrings Utf8 Json.
From Stdlib Require Import ZArith Lia Bool Ascii String.
From stdpp Require Import base gmap strings list.

Open Scope string_scope.

Record subscription := mkSub {
  sub_reqID : string;
  sub_subscribeFrame : string;
  sub_clientSubID : string;
  sub_currentSubID : string;
}.

Record SubscriptionRegistry := mkRegistry {
  sr_store : gmap nat subscription;        (** address -> subscription *)
  sr_byReqID : gmap string nat;
  sr_byClientSubID : gmap string nat;
  sr_byCurrentSubID : gmap string nat;
  sr_order : list nat;
}.

Definition NewSubscriptionRegistry : SubscriptionRegistry := mkRegistry ∅ ∅ ∅ ∅ [].

Definition methodSubscribe : string := "eth_subscribe".
Definition methodUnsubscribe : string := "eth_unsubscribe".
Definition methodNotification : string := "eth_subscription".

(** ** JSON helpers *)

Definition isBatchOrEmpty (frame : string) : bool :=
  let trimmed := trim_space_u frame in
  (trimmed =? "")%string || has_prefix "[" trimmed.

Definition rawKey (raw : string) : string :=
  let trimmed := trim_space_u raw in
  if (trimmed =? "")%string || (trimmed =? "null")%string then "" else trimmed.

Definition rawString (raw : string) : option string :=
  if (trim_space_u raw =? "")%string then None else decode_string raw.

Definition firstStringParam (raw : string) : option string :=
  match decode_raw_list raw with Some (p :: _) => rawString p | _ => None end.

Definition rewriteUnsubscribeParam (frame newID : string) : option string :=
  match decode_raw_map frame with
  | None => None
  | Some m =>
      match decode_raw_list (default "" (assoc_get "params" m)) with
      | Some (_ :: rest) =>
          match marshal_raw_list (quote newID :: rest) with
          | Some newParams => marshal_raw_map (assoc_set "params" newParams m)
          | None => None
          end
      | _ => None
      end
  end.

(** The params of a notification: the subscription id and the raw result. *)
Definition decode_notification (raw : string) : option (string * string) :=
  match parse raw with
  | None => None
  | Some v => match as_struct v with
              | None => None
              | Some ms => match string_field "subscription" ms with
                           | Some s => Some (s, raw_field "result" ms)
                           | None => None
                           end
              end
  end.

Definition marshal_notification (sub result : string) : option string :=
  if (result =? "")%string then Some ("{" +:+ quote "subscription" +:+ ":" +:+ quote sub +:+ "}")
  else match marshal_raw result with
       | Some r => Some ("{" +:+ quote "subscription" +:+ ":" +:+ quote sub +:+ "," +:+ quote "result" +:+ ":" +:+ r +:+ "}")
       | None => None
       end.

Definition rewriteNotificationSubscription (frame clientSubID : string) : option string :=
  match decode_raw_map frame with
  | None => None
  | Some m =>
      match decode_notification (default "" (assoc_get "params" m)) with
      | None => None
      | Some (_, result) =>
          match marshal_notification clientSubID result with
          | Some newParams => marshal_raw_map (assoc_set "params" newParams m)
          | None => None
          end
      end
  end.

(** ** The registry *)

Definition store_sub (r : SubscriptionRegistry) (a : nat) (s : subscription) : SubscriptionRegistry :=
  mkRegistry (<[a := s]> (sr_store r)) (sr_byReqID r) (sr_byClientSubID r) (sr_byCurrentSubID r) (sr_order r).

(** An address not in use. *)
Definition fresh_addr (r : SubscriptionRegistry) : nat := fresh (dom (sr_store r)).

(** Deletes an id from an index unless it is empty. *)
Definition unindex (id : string) (m : gmap string nat) : gmap string nat := if (id =? "")%string then m else delete id m.

Fixpoint remove_first (a : nat) (l : list nat) : list nat :=
  match l with [] => [] | b :: l' => if (a =? b)%nat then l' else b :: remove_first a l' end.

Definition removeLocked (r : SubscriptionRegistry) (a : nat) : SubscriptionRegistry :=
  match sr_store r !! a with
  | None => r
  | Some s => mkRegistry (sr_store r) (delete (sub_reqID s) (sr_byReqID r)) (unindex (sub_clientSubID s) (sr_byClientSubID r))
                (unindex (sub_currentSubID s) (sr_byCurrentSubID r)) (remove_first a (sr_order r))
  end.

Definition track_subscribe (r : SubscriptionRegistry) (reqID frame : string) : SubscriptionRegistry :=
  let r := match sr_byReqID r !! reqID with Some existing => removeLocked r existing | None => r end in
  let a := fresh_addr r in
  mkRegistry (<[a := mkSub reqID frame "" ""]> (sr_store r)) (<[reqID := a]> (sr_byReqID r)) (sr_byClientSubID r) (sr_byCurrentSubID r)
    (sr_order r ++ [a])%list.

Definition track_unsubscribe (r : SubscriptionRegistry) (clientSubID frame : string) : string * SubscriptionRegistry :=
  match sr_byClientSubID r !! clientSubID with
  | None => (frame, r)
  | Some a =>
      match sr_store r !! a with
      | None => (frame, r)
      | Some s =>
          let rewritten :=
            if negb (sub_currentSubID s =? "")%string && negb (sub_currentSubID s =? clientSubID)%string
            then default frame (rewriteUnsubscribeParam frame (sub_currentSubID s)) else frame in
          (rewritten, removeLocked r a)
      end
  end.

(** A client frame: what is forwarded, and the registry. *)
Definition TrackClientMessage (r : SubscriptionRegistry) (frame : string) : string * SubscriptionRegistry :=
  if isBatchOrEmpty frame then (frame, r)
  else match parse frame with
       | None => (frame, r)
       | Some v =>
           match as_struct v with
           | None => (frame, r)
           | Some ms =>
               match string_field "method" ms with
               | None => (frame, r)
               | Some method =>
                   if (method =? methodSubscribe)%string then
                     let reqID := rawKey (raw_field "id" ms) in
                     if (reqID =? "")%string then (frame, r) else (frame, track_subscribe r reqID frame)
                   else if (method =? methodUnsubscribe)%string then
                     match firstStringParam (raw_field "params" ms) with
                     | None => (frame, r)
                     | Some clientSubID => track_unsubscribe r clientSubID frame
                     end
                   else (frame, r)
               end
           end
       end.

Definition translateNotification (r : SubscriptionRegistry) (frame rawParams : string) : string * bool :=
  match decode_notification rawParams with
  | None => (frame, true)
  | Some (subID, _) =>
      if (subID =? "")%string then (frame, true)
      else match sr_byCurrentSubID r !! subID ≫= fun a => sr_store r !! a with
           | None => (frame, true)
           | Some s =>
               if (sub_clientSubID s =? "")%string || (sub_clientSubID s =? subID)%string then (frame, true)
               else match rewriteNotificationSubscription frame (sub_clientSubID s) with
                    | Some out => (out, true)
                    | None => (frame, true)
                    end
           end
  end.

(** A response to the request [reqID] with the result [result]. *)
Definition translate_response (r : SubscriptionRegistry) (frame reqID result : string) : (string * bool) * SubscriptionRegistry :=
  match sr_byReqID r !! reqID with
  | None => ((frame, true), r)
  | Some a =>
      match sr_store r !! a with
      | None => ((frame, true), r)
      | Some s =>
          match rawString result with
          | None => ((frame, true), removeLocked r a)
          | Some subID =>
              if (sub_clientSubID s =? "")%string then
                ((frame, true),
                 mkRegistry (<[a := mkSub (sub_reqID s) (sub_subscribeFrame s) subID subID]> (sr_store r)) (sr_byReqID r)
                   (<[subID := a]> (sr_byClientSubID r)) (<[subID := a]> (sr_byCurrentSubID r)) (sr_order r))
              else
                ((frame, false),
                 mkRegistry (<[a := mkSub (sub_reqID s) (sub_subscribeFrame s) (sub_clientSubID s) subID]> (sr_store r)) (sr_byReqID r)
                   (sr_byClientSubID r) (<[subID := a]> (unindex (sub_currentSubID s) (sr_byCurrentSubID r))) (sr_order r))
          end
      end
  end.

(** An endpoint frame: what is forwarded, whether it is, and the registry. *)
Definition TranslateEndpointMessage (r : SubscriptionRegistry) (frame : string) : (string * bool) * SubscriptionRegistry :=
  if isBatchOrEmpty frame then ((frame, true), r)
  else match parse frame with
       | None => ((frame, true), r)
       | Some v =>
           match as_struct v with
           | None => ((frame, true), r)
           | Some ms =>
               match string_field "method" ms with
               | None => ((frame, true), r)
               | Some method =>
                   if (method =? methodNotification)%string then (translateNotification r frame (raw_field "params" ms), r)
                   else let reqID := rawKey (raw_field "id" ms) in
                        if (reqID =? "")%string then ((frame, true), r) else translate_response r frame reqID (raw_field "result" ms)
               end
           end
       end.

(** The subscriptions in creation order. *)
Definition live_subs (r : SubscriptionRegistry) : list subscription := omap (fun a => sr_store r !! a) (sr_order r).

Definition ActiveSubscribeFrames (r : SubscriptionRegistry) : list string :=
  map sub_subscribeFrame (List.filter (fun s => negb (sub_clientSubID s =? "")%string) (live_subs r)).

Definition Len (r : SubscriptionRegistry) : nat := size (sr_byReqID r).

Definition HasActiveSubscriptions (r : SubscriptionRegistry) : bool :=
  existsb (fun s => negb (sub_clientSubID s =? "")%string) (live_subs r).

(** ** Theorems on the subscription registry *)

Open Scope string_scope.

Implicit Types (r : SubscriptionRegistry) (s : subscription).

(** ** The indexes agree with the subscriptions *)

(** [a] is a live subscription with the value [s]. *)
Definition live r (a : nat) s : Prop := a ∈ sr_order r /\ sr_store r !! a = Some s.

Record registry_ok r : Prop := {
  ok_req : forall k a, sr_byReqID r !! k = Some a -> exists s, live r a s /\ sub_reqID s = k;
  ok_order : forall a, a ∈ sr_order r -> exists s, sr_store r !! a = Some s /\ sr_byReqID r !! sub_reqID s = Some a;
  ok_nodup : NoDup (sr_order r);
  ok_client : forall k a, k <> "" -> sr_byClientSubID r !! k = Some a -> exists s, live r a s /\ sub_clientSubID s = k;
  ok_no_empty : sr_byClientSubID r !! "" = None;
  ok_current : forall k a, k <> "" -> sr_byCurrentSubID r !! k = Some a -> exists s, live r a s /\ sub_currentSubID s = k;
  ok_pending : forall a s, live r a s -> sub_clientSubID s = "" -> sub_currentSubID s = "";
}.

Lemma new_ok : registry_ok NewSubscriptionRegistry.
Proof.
  split; cbn; try (intros k a; rewrite ?lookup_empty; discriminate); try (intros k a _; rewrite lookup_empty; discriminate).
  - intros a Ha. now apply not_elem_of_nil in Ha.
  - constructor.
  - apply lookup_empty.
  - intros a s [Ha _]. now apply not_elem_of_nil in Ha.
Qed.

Lemma remove_first_In a l b : NoDup l -> b ∈ remove_first a l <-> b <> a /\ b ∈ l.
Proof.
  induction l as [|x l IH]; intros Hnd; cbn; [set_solver|]. apply NoDup_cons in Hnd as [Hx Hl].
  destruct (Nat.eqb_spec a x) as [->|Hne]; [|rewrite elem_of_cons, (IH Hl)]; set_solver.
Qed.

Lemma remove_first_NoDup a l : NoDup l -> NoDup (remove_first a l).
Proof.
  induction l as [|x l IH]; intros Hnd; cbn; [constructor|]. pose proof Hnd as [Hx Hl]%NoDup_cons.
  destruct (a =? x)%nat; [exact Hl|]. constructor; [|now apply IH]. rewrite remove_first_In by exact Hl. tauto.
Qed.

Lemma unindex_lookup k id (m : gmap string nat) a : k <> "" -> unindex id m !! k = Some a -> k <> id /\ m !! k = Some a.
Proof.
  intros Hk. unfold unindex. destruct (String.eqb_spec id "") as [->|Hid]; [auto|]. intros Hl. apply lookup_delete_Some in Hl as [Hne Hl]. auto.
Qed.

Lemma unindex_none k id (m : gmap string nat) : m !! k = None -> unindex id m !! k = None.
Proof. intros Hk. unfold unindex. destruct (_ =? _)%string; [exact Hk|]. apply lookup_delete_None. now right. Qed.

Lemma live_fun r a s s' : live r a s -> live r a s' -> s = s'.
Proof. intros [_ H] [_ H']. congruence. Qed.

(** Two live subscriptions with one request id are one. *)
Lemma live_reqID r a b s s' : registry_ok r -> live r a s -> live r b s' -> sub_reqID s = sub_reqID s' -> a = b.
Proof.
  intros Hok [Ha Hs] [Hb Hs'] Heq. destruct (ok_order r Hok a Ha) as (t & Ht & Hia). destruct (ok_order r Hok b Hb) as (t' & Ht' & Hib). congruence.
Qed.

Lemma removeLocked_live r a s b s' : registry_ok r -> live r a s -> live (removeLocked r a) b s' <-> b <> a /\ live r b s'.
Proof.
  intros Hok [Ha Hs]. unfold removeLocked, live. rewrite Hs. cbn. rewrite remove_first_In by apply (ok_nodup r Hok). tauto.
Qed.

Lemma removeLocked_ok r a s : registry_ok r -> live r a s -> registry_ok (removeLocked r a).
Proof.
  intros Hok Hl. pose proof Hl as [Ha Hs]. pose proof (ok_order r Hok a Ha) as (s0 & Hs0 & Hix). assert (s0 = s) as -> by congruence.
  assert (forall b t, live (removeLocked r a) b t <-> b <> a /\ live r b t) as Hlive by (intros; now apply removeLocked_live with (s := s)).
  split.
  - intros k b Hk. unfold removeLocked in Hk. rewrite Hs in Hk. cbn in Hk. apply lookup_delete_Some in Hk as [Hne Hk].
    destruct (ok_req r Hok k b Hk) as (t & Ht & Hrq). exists t. split; [|exact Hrq]. apply Hlive. split; [|exact Ht]. intros ->. apply Hne. pose proof (live_fun _ _ _ _ Ht Hl). congruence.
  - intros b Hb. assert (b <> a /\ b ∈ sr_order r) as [Hne Hb'].
    { unfold removeLocked in Hb. rewrite Hs in Hb. cbn in Hb. now apply remove_first_In in Hb; [|apply (ok_nodup r Hok)]. }
    destruct (ok_order r Hok b Hb') as (t & Ht & Hi). exists t. unfold removeLocked. rewrite Hs. cbn. split; [exact Ht|].
    rewrite lookup_delete_ne; [exact Hi|]. intros Heq. rewrite Heq in Hix. congruence.
  - unfold removeLocked. rewrite Hs. cbn. apply remove_first_NoDup, (ok_nodup r Hok).
  - intros k b Hk Hl'. unfold removeLocked in Hl'. rewrite Hs in Hl'. cbn in Hl'. apply unindex_lookup in Hl' as [Hne Hl']; [|exact Hk].
    destruct (ok_client r Hok k b Hk Hl') as (t & Ht & Hc). exists t. split; [|exact Hc]. apply Hlive. split; [|exact Ht]. intros ->. apply Hne. pose proof (live_fun _ _ _ _ Ht Hl). congruence.
  - unfold removeLocked. rewrite Hs. cbn. apply unindex_none, (ok_no_empty r Hok).
  - intros k b Hk Hl'. unfold removeLocked in Hl'. rewrite Hs in Hl'. cbn in Hl'. apply unindex_lookup in Hl' as [Hne Hl']; [|exact Hk].
    destruct (ok_current r Hok k b Hk Hl') as (t & Ht & Hc). exists t. split; [|exact Hc]. apply Hlive. split; [|exact Ht]. intros ->. apply Hne. pose proof (live_fun _ _ _ _ Ht Hl). congruence.
  - intros b t Ht. apply Hlive in Ht as [_ Ht]. now apply (ok_pending r Hok) with (a := b).
Qed.

Lemma fresh_addr_store r : sr_store r !! fresh_addr r = None.
Proof. unfold fresh_addr. apply not_elem_of_dom, is_fresh. Qed.

(** Adding a subscription under a request id that is not in use. *)
Lemma add_ok r reqID frame : registry_ok r -> sr_byReqID r !! reqID = None ->
  let a := fresh_addr r in
  registry_ok (mkRegistry (<[a := mkSub reqID frame "" ""]> (sr_store r)) (<[reqID := a]> (sr_byReqID r)) (sr_byClientSubID r) (sr_byCurrentSubID r) (sr_order r ++ [a])%list).
Proof.
  intros Hok Hnone a. pose proof (fresh_addr_store r) as Hfresh. fold a in Hfresh.
  assert (a ∉ sr_order r) as Hna by (intros Hin; destruct (ok_order r Hok a Hin) as (t & Ht & _); congruence).
  assert (forall b t, live r b t -> live (mkRegistry (<[a := mkSub reqID frame "" ""]> (sr_store r)) (<[reqID := a]> (sr_byReqID r)) (sr_byClientSubID r) (sr_byCurrentSubID r) (sr_order r ++ [a])%list) b t) as Hkeep.
  { intros b t [Hb Ht]. split; cbn; [set_solver|]. rewrite lookup_insert_ne; [exact Ht|]. intros <-. contradiction. }
  split; cbn.
  - intros k b Hk. destruct (decide (reqID = k)) as [<-|Hne].
    + rewrite lookup_insert_eq in Hk. injection Hk as <-. exists (mkSub reqID frame "" ""). split; [|reflexivity]. split; cbn; [set_solver|apply lookup_insert_eq].
    + rewrite lookup_insert_ne in Hk by exact Hne. destruct (ok_req r Hok k b Hk) as (t & Ht & Hrq). exists t. split; [now apply Hkeep|exact Hrq].
  - intros b Hb. apply elem_of_app in Hb as [Hb|Hb].
    + destruct (ok_order r Hok b Hb) as (t & Ht & Hi). exists t. rewrite lookup_insert_ne by (intros <-; contradiction). split; [exact Ht|].
      rewrite lookup_insert_ne; [exact Hi|]. congruence.
    + apply list_elem_of_singleton in Hb as ->. eexists. rewrite lookup_insert_eq. split; [reflexivity|]. apply lookup_insert_eq.
  - apply NoDup_app. split; [apply (ok_nodup r Hok)|]. split; [|apply NoDup_singleton]. set_solver.
  - intros k b Hk Hl. destruct (ok_client r Hok k b Hk Hl) as (t & Ht & Hc). exists t. auto.
  - apply (ok_no_empty r Hok).
  - intros k b Hk Hl. destruct (ok_current r Hok k b Hk Hl) as (t & Ht & Hc). exists t. auto.
  - intros b t [Hb Ht] Hc. cbn in Hb, Ht. destruct (decide (a = b)) as [<-|Hne]; [rewrite lookup_insert_eq in Ht; injection Ht as <-; reflexivity|].
    rewrite lookup_insert_ne in Ht by exact Hne. apply (ok_pending r Hok b); [split; [set_solver|exact Ht]|exact Hc].
Qed.

Lemma track_subscribe_ok r reqID frame : registry_ok r -> registry_ok (track_subscribe r reqID frame).
Proof.
  intros Hok. unfold track_subscribe. destruct (sr_byReqID r !! reqID) as [a|] eqn:E.
  - destruct (ok_req r Hok _ _ E) as (s & Hl & Hrq). apply add_ok; [now apply removeLocked_ok with (s := s)|].
    destruct Hl as [Ha Hs]. unfold removeLocked. rewrite Hs. cbn. rewrite Hrq. apply lookup_delete_eq.
  - now apply add_ok.
Qed.

Lemma track_unsubscribe_ok r id frame : registry_ok r -> registry_ok (snd (track_unsubscribe r id frame)).
Proof.
  intros Hok. unfold track_unsubscribe. destruct (sr_byClientSubID r !! id) as [a|] eqn:E; [|exact Hok].
  assert (id <> "") as Hid by (intros ->; rewrite (ok_no_empty r Hok) in E; discriminate).
  destruct (ok_client r Hok _ _ Hid E) as (s & Hl & _). pose proof Hl as [_ ->]. cbn. now apply removeLocked_ok with (s := s).
Qed.

(** Changing a live subscription's ids: its request id stays, the other subscriptions and
    the request index are untouched, and the id indexes are right about it. *)
Lemma update_ok r a s s' (mc mu : gmap string nat) : registry_ok r -> live r a s -> sub_reqID s' = sub_reqID s ->
  mc !! "" = None -> sub_clientSubID s' <> "" ->
  (forall k b, k <> "" -> mc !! k = Some b -> (b = a /\ sub_clientSubID s' = k) \/ (b <> a /\ sr_byClientSubID r !! k = Some b)) ->
  (forall k b, k <> "" -> mu !! k = Some b -> (b = a /\ sub_currentSubID s' = k) \/ (b <> a /\ sr_byCurrentSubID r !! k = Some b)) ->
  registry_ok (mkRegistry (<[a := s']> (sr_store r)) (sr_byReqID r) mc mu (sr_order r)).
Proof.
  intros Hok [Ha Hs] Hrq Hempty Hcl Hmc Hmu.
  assert (forall b t, b <> a -> live r b t -> live (mkRegistry (<[a := s']> (sr_store r)) (sr_byReqID r) mc mu (sr_order r)) b t) as Hkeep.
  { intros b t Hne [Hb Ht]. split; [exact Hb|]. cbn. now rewrite lookup_insert_ne. }
  assert (live (mkRegistry (<[a := s']> (sr_store r)) (sr_byReqID r) mc mu (sr_order r)) a s') as Hself by (split; [exact Ha|cbn; apply lookup_insert_eq]).
  destruct (ok_order r Hok a Ha) as (s0 & Hs0 & Hix). assert (s0 = s) as -> by congruence. split; cbn.
  - intros k b Hk. destruct (ok_req r Hok k b Hk) as (t & Ht & Hq). destruct (decide (b = a)) as [->|Hne]; [|exists t; auto].
    exists s'. split; [exact Hself|]. destruct Ht as [_ Ht]. congruence.
  - intros b Hb. destruct (decide (b = a)) as [->|Hne]; [exists s'; rewrite lookup_insert_eq, Hrq; auto|].
    destruct (ok_order r Hok b Hb) as (t & Ht & Hi). exists t. rewrite lookup_insert_ne by congruence. auto.
  - apply (ok_nodup r Hok).
  - intros k b Hk Hl. destruct (Hmc k b Hk Hl) as [[-> Hc]|[Hne Hl']]; [eauto|]. destruct (ok_client r Hok k b Hk Hl') as (t & Ht & Hc). eauto.
  - exact Hempty.
  - intros k b Hk Hl. destruct (Hmu k b Hk Hl) as [[-> Hc]|[Hne Hl']]; [eauto|]. destruct (ok_current r Hok k b Hk Hl') as (t & Ht & Hc). eauto.
  - intros b t [Hb Ht] Hc. cbn in Hb, Ht. destruct (decide (a = b)) as [<-|Hne]; [rewrite lookup_insert_eq in Ht; congruence|].
    rewrite lookup_insert_ne in Ht by exact Hne. apply (ok_pending r Hok b); [now split|exact Hc].
Qed.

Lemma translate_response_ok r frame reqID result : registry_ok r -> rawString result <> Some "" -> registry_ok (snd (translate_response r frame reqID result)).
Proof.
  intros Hok Hne. unfold translate_response. destruct (sr_byReqID r !! reqID) as [a|] eqn:E; [|exact Hok].
  destruct (ok_req r Hok _ _ E) as (s & Hl & Hrq). pose proof Hl as [Ha Hs]. rewrite Hs.
  destruct (rawString result) as [subID|]; [|now apply removeLocked_ok with (s := s)]. assert (subID <> "") as Hsub by congruence.
  destruct (String.eqb_spec (sub_clientSubID s) "") as [Ec|Ec]; cbn [snd]; (apply update_ok with (s := s); [exact Hok|exact Hl|reflexivity|..]).
  - rewrite lookup_insert_ne by exact Hsub. apply (ok_no_empty r Hok).
  - exact Hsub.
  - intros k b Hk Hm. destruct (decide (subID = k)) as [<-|Hsk]; [rewrite lookup_insert_eq in Hm; injection Hm as <-; now left|].
    rewrite lookup_insert_ne in Hm by exact Hsk. right. split; [|exact Hm]. intros ->. destruct (ok_client r Hok k a Hk Hm) as (t & [_ Ht] & Hc). congruence.
  - intros k b Hk Hm. destruct (decide (subID = k)) as [<-|Hsk]; [rewrite lookup_insert_eq in Hm; injection Hm as <-; now left|].
    rewrite lookup_insert_ne in Hm by exact Hsk. destruct (decide (b = a)) as [->|Hba]; [|now right]. exfalso. apply Hk.
    destruct (ok_current r Hok k a Hk Hm) as (t & Ht & Hc). pose proof (ok_pending r Hok a t Ht) as Hp. pose proof (live_fun _ _ _ _ Ht Hl) as ->. now rewrite (Hp Ec) in Hc.
  - apply (ok_no_empty r Hok).
  - exact Ec.
  - intros k b Hk Hm. destruct (decide (b = a)) as [->|Hba]; [left; split; [reflexivity|]|now right].
    destruct (ok_client r Hok k a Hk Hm) as (t & [_ Ht] & Hc). cbn. congruence.
  - intros k b Hk Hm. destruct (decide (subID = k)) as [<-|Hsk]; [rewrite lookup_insert_eq in Hm; injection Hm as <-; now left|].
    rewrite lookup_insert_ne in Hm by exact Hsk. apply unindex_lookup in Hm as [Hcur Hm]; [|exact Hk]. right. split; [|exact Hm].
    intros ->. destruct (ok_current r Hok k a Hk Hm) as (t & [_ Ht] & Hc). congruence.
Qed.

(** ** Runs *)

Inductive ws_frame := FromClient (f : string) | FromEndpoint (f : string).

Definition ws_step r (x : ws_frame) : SubscriptionRegistry :=
  match x with FromClient f => snd (TrackClientMessage r f) | FromEndpoint f => snd (TranslateEndpointMessage r f) end.

(** The request id and the raw result of an endpoint frame that is taken for a response. *)
Definition response_of (f : string) : option (string * string) :=
  if isBatchOrEmpty f then None
  else match parse f with
       | None => None
       | Some v =>
           match as_struct v with
           | None => None
           | Some ms =>
               match string_field "method" ms with
               | None => None
               | Some method =>
                   let reqID := rawKey (raw_field "id" ms) in
                   if (method =? methodNotification)%string || (reqID =? "")%string then None else Some (reqID, raw_field "result" ms)
               end
           end
       end.

Lemma translate_response_of r f :
  match response_of f with
  | Some (reqID, result) => TranslateEndpointMessage r f = translate_response r f reqID result
  | None => snd (TranslateEndpointMessage r f) = r
  end.
Proof.
  unfold response_of, TranslateEndpointMessage. destruct (isBatchOrEmpty f); [done|]. destruct (parse f) as [v|]; [|done].
  destruct (as_struct v) as [ms|]; [|done]. destruct (string_field "method" ms) as [m|]; [|done].
  destruct (m =? methodNotification)%string; [done|]. cbn [orb]. by destruct (_ =? "")%string.
Qed.

(** An endpoint does not answer a subscribe that is tracked with an empty or null id. *)
Definition named_answer r (x : ws_frame) : Prop :=
  match x with
  | FromClient _ => True
  | FromEndpoint f =>
      match response_of f with
      | Some (reqID, result) => is_Some (sr_byReqID r !! reqID) -> rawString result <> Some ""
      | None => True
      end
  end.

Fixpoint named_run r (xs : list ws_frame) : Prop :=
  match xs with [] => True | x :: xs => named_answer r x /\ named_run (ws_step r x) xs end.

Lemma ws_step_ok r x : registry_ok r -> named_answer r x -> registry_ok (ws_step r x).
Proof.
  intros Hok Hn. destruct x as [f|f]; cbn [ws_step].
  - unfold TrackClientMessage. destruct (isBatchOrEmpty f); [exact Hok|]. destruct (parse f) as [v|]; [|exact Hok]. destruct (as_struct v) as [ms|]; [|exact Hok].
    destruct (string_field "method" ms) as [m|]; [|exact Hok]. destruct (m =? methodSubscribe)%string.
    + destruct (_ =? "")%string; [exact Hok|now apply track_subscribe_ok].
    + destruct (m =? methodUnsubscribe)%string; [|exact Hok]. destruct (firstStringParam _); [now apply track_unsubscribe_ok|exact Hok].
  - pose proof (translate_response_of r f) as T. cbn [named_answer] in Hn. destruct (response_of f) as [[reqID result]|]; [|by rewrite T].
    rewrite T. destruct (sr_byReqID r !! reqID) eqn:E; [apply translate_response_ok; [done|by apply Hn]|].
    unfold translate_response. by rewrite E.
Qed.

Lemma ws_run_ok xs : forall r, registry_ok r -> named_run r xs -> registry_ok (fold_left ws_step xs r).
Proof. induction xs as [|x xs IH]; intros r Hok Hn; [exact Hok|]. destruct Hn as [Hx Hn]. apply IH; [now apply ws_step_ok|exact Hn]. Qed.

Lemma registry_len r : registry_ok r -> Len r = List.length (sr_order r).
Proof.
  intros Hok. unfold Len. rewrite <- length_map_to_list, <- (length_map snd). apply Permutation_length, NoDup_Permutation.
  - apply NoDup_fmap_2_strong; [|apply NoDup_map_to_list]. intros [k a] [k' a'] Hk%elem_of_map_to_list Hk'%elem_of_map_to_list. cbn. intros <-.
    destruct (ok_req r Hok _ _ Hk) as (s & [_ Hs] & <-). destruct (ok_req r Hok _ _ Hk') as (s' & [_ Hs'] & <-). congruence.
  - apply (ok_nodup r Hok).
  - intros a. split.
    + intros Ha. apply list_elem_of_In, in_map_iff in Ha as ([k a'] & <- & Hin). apply list_elem_of_In, elem_of_map_to_list in Hin.
      now destruct (ok_req r Hok _ _ Hin) as (s & [Ho _] & _).
    + intros Ha. destruct (ok_order r Hok a Ha) as (s & _ & Hi). apply list_elem_of_In, in_map_iff. exists (sub_reqID s, a). split; [reflexivity|].
      now apply list_elem_of_In, elem_of_map_to_list.
Qed.

(** ** Every established subscription is found by its ids *)

Definition complete r : Prop := forall a s, live r a s -> sub_clientSubID s <> "" ->
  sr_byClientSubID r !! sub_clientSubID s = Some a /\ (sub_currentSubID s <> "" -> sr_byCurrentSubID r !! sub_currentSubID s = Some a).

(** The id a supplier assigns to [a] is not the one another subscription is known by. *)
Definition unused r (a : nat) (subID : string) : Prop := forall b t, live r b t -> b <> a ->
  sub_currentSubID t <> subID /\ sub_clientSubID t <> subID.

Lemma unindex_keep k id (m : gmap string nat) : k <> id -> unindex id m !! k = m !! k.
Proof. intros Hne. unfold unindex. destruct (_ =? _)%string; [reflexivity|]. apply lookup_delete_ne. congruence. Qed.

Lemma removeLocked_complete r a s : registry_ok r -> complete r -> live r a s -> complete (removeLocked r a).
Proof.
  intros Hok Hc Hl b t Ht Hne. apply (removeLocked_live r a s b t Hok Hl) in Ht as [Hba Ht]. pose proof Hl as [_ Hs].
  destruct (Hc b t Ht Hne) as [H1 H2]. unfold removeLocked. rewrite Hs. cbn. split.
  - rewrite unindex_keep; [exact H1|]. intros Heq. destruct (Hc a s Hl) as [H3 _]; [congruence|]. congruence.
  - intros Hcu. rewrite unindex_keep; [exact (H2 Hcu)|]. intros Heq. destruct (Hc a s Hl) as [_ H3].
    + intros Hcl. rewrite (ok_pending r Hok a s Hl Hcl) in Heq. congruence.
    + rewrite Heq in H2. specialize (H2 ltac:(congruence)). rewrite H3 in H2 by congruence. congruence.
Qed.

(** The rebind of a subscription: the state after the replayed subscribe is answered. *)
Definition rebound r (a : nat) s (subID : string) : SubscriptionRegistry :=
  mkRegistry (<[a := mkSub (sub_reqID s) (sub_subscribeFrame s) (sub_clientSubID s) subID]> (sr_store r)) (sr_byReqID r)
    (sr_byClientSubID r) (<[subID := a]> (unindex (sub_currentSubID s) (sr_byCurrentSubID r))) (sr_order r).

Lemma rebound_complete r a s subID : registry_ok r -> complete r -> live r a s -> sub_clientSubID s <> "" -> unused r a subID -> complete (rebound r a s subID).
Proof.
  intros Hok Hc Hl Hcl Hun b t [Hb Ht] Hne. cbn in Hb, Ht. destruct (Hc a s Hl Hcl) as [Ha1 Ha2]. destruct (decide (a = b)) as [<-|Hab].
  - rewrite lookup_insert_eq in Ht. injection Ht as <-. cbn. split; [exact Ha1|]. intros _. apply lookup_insert_eq.
  - rewrite lookup_insert_ne in Ht by exact Hab. assert (live r b t) as Hlb by (split; assumption).
    destruct (Hc b t Hlb Hne) as [H1 H2]. cbn. split; [exact H1|]. intros Hcu. destruct (Hun b t Hlb ltac:(congruence)) as [Hu _].
    rewrite lookup_insert_ne by congruence. rewrite unindex_keep; [exact (H2 Hcu)|]. intros Heq. rewrite Heq in H2. specialize (H2 ltac:(congruence)). rewrite Ha2 in H2 by congruence. congruence.
Qed.

Lemma live_subs_insert r a s s' (mc mu : gmap string nat) : sr_store r !! a = Some s -> sub_subscribeFrame s' = sub_subscribeFrame s ->
  sub_clientSubID s' = sub_clientSubID s ->
  ActiveSubscribeFrames (mkRegistry (<[a := s']> (sr_store r)) (sr_byReqID r) mc mu (sr_order r)) = ActiveSubscribeFrames r.
Proof.
  intros Hs Hf Hc. unfold ActiveSubscribeFrames, live_subs. cbn [sr_store sr_order]. induction (sr_order r) as [|b l IH]; [reflexivity|]. cbn.
  destruct (decide (a = b)) as [<-|Hne].
  - rewrite lookup_insert_eq, Hs. cbn. rewrite Hc. destruct (negb _); cbn; [rewrite Hf; f_equal; exact IH|exact IH].
  - rewrite lookup_insert_ne by exact Hne. destruct (sr_store r !! b) as [t|]; [|exact IH]. cbn. destruct (negb _); cbn; [f_equal; exact IH|exact IH].
Qed.

(** C18: the registry of a bridge keeps its indexes true to the subscriptions over every sequence of
    client and endpoint frames in which no endpoint answers a tracked subscribe with an empty or null
    id: each entry of an index under a non-empty id points to a live subscription with that id, each
    live subscription is found by its request id, and there are as many entries of request ids as
    subscriptions in replay order. *)
Theorem registry_indexes_sound (xs : list ws_frame) :
  named_run NewSubscriptionRegistry xs ->
  let r := fold_left ws_step xs NewSubscriptionRegistry in registry_ok r /\ Len r = List.length (sr_order r).
Proof. intros Hn. pose proof (ws_run_ok xs _ new_ok Hn) as Hok. split; [exact Hok|now apply registry_len]. Qed.

(** ** The client's id *)

(** Once a subscription has its client id, only its current id changes. *)
Definition rebinds_of s (o : option subscription) : Prop :=
  exists cur, o = Some (mkSub (sub_reqID s) (sub_subscribeFrame s) (sub_clientSubID s) cur).

Lemma removeLocked_store r a : sr_store (removeLocked r a) = sr_store r.
Proof. unfold removeLocked. by destruct (sr_store r !! a). Qed.

Lemma track_subscribe_store r reqID frame a s : sr_store r !! a = Some s -> sr_store (track_subscribe r reqID frame) !! a = Some s.
Proof.
  intros Hs. unfold track_subscribe. set (r1 := match sr_byReqID r !! reqID with Some b => removeLocked r b | None => r end).
  assert (E : sr_store r1 = sr_store r) by (unfold r1; destruct (sr_byReqID r !! reqID); [apply removeLocked_store|done]).
  cbn. pose proof (fresh_addr_store r1) as F. rewrite lookup_insert_ne; [by rewrite E|]. intros Ea. rewrite Ea, E in F. congruence.
Qed.

Lemma translate_response_store r frame reqID result a s : sr_store r !! a = Some s -> sub_clientSubID s <> "" ->
  rebinds_of s (sr_store (snd (translate_response r frame reqID result)) !! a).
Proof.
  intros Hs Hc. assert (Same : rebinds_of s (Some s)) by (exists (sub_currentSubID s); by destruct s).
  unfold translate_response. destruct (sr_byReqID r !! reqID) as [b|]; [|cbn [snd]; by rewrite Hs]. destruct (sr_store r !! b) as [t|] eqn:Ht; [|cbn [snd]; by rewrite Hs].
  destruct (rawString result) as [subID|]; [|cbn [snd]; by rewrite removeLocked_store, Hs].
  destruct (decide (b = a)) as [->|Hne].
  - rewrite Hs in Ht. injection Ht as <-. rewrite (proj2 (String.eqb_neq _ _) Hc). cbn. rewrite lookup_insert_eq. by eexists.
  - destruct (_ =? "")%string; cbn; by rewrite lookup_insert_ne, Hs.
Qed.

Lemma ws_step_store r x a s : sr_store r !! a = Some s -> sub_clientSubID s <> "" -> rebinds_of s (sr_store (ws_step r x) !! a).
Proof.
  intros Hs Hc. assert (Same : rebinds_of s (Some s)) by (exists (sub_currentSubID s); by destruct s).
  destruct x as [f|f]; cbn [ws_step].
  - unfold TrackClientMessage. destruct (isBatchOrEmpty f); [cbn [snd]; by rewrite Hs|]. destruct (parse f) as [v|]; [|cbn [snd]; by rewrite Hs].
    destruct (as_struct v) as [ms|]; [|cbn [snd]; by rewrite Hs]. destruct (string_field "method" ms) as [m|]; [|cbn [snd]; by rewrite Hs].
    destruct (m =? methodSubscribe)%string; [destruct (_ =? "")%string; cbn [snd]; [by rewrite Hs|by rewrite (track_subscribe_store _ _ _ _ _ Hs)]|].
    destruct (m =? methodUnsubscribe)%string; [|cbn [snd]; by rewrite Hs]. destruct (firstStringParam _) as [id|]; [|cbn [snd]; by rewrite Hs].
    unfold track_unsubscribe. destruct (sr_byClientSubID r !! id) as [b|]; [|cbn [snd]; by rewrite Hs].
    destruct (sr_store r !! b); cbn [snd]; [by rewrite removeLocked_store, Hs|by rewrite Hs].
  - pose proof (translate_response_of r f) as T. destruct (response_of f) as [[reqID result]|]; rewrite T; [|cbn [snd]; by rewrite Hs].
    by apply translate_response_store.
Qed.

Lemma ws_run_store xs : forall r a s, sr_store r !! a = Some s -> sub_clientSubID s <> "" -> rebinds_of s (sr_store (fold_left ws_step xs r) !! a).
Proof.
  induction xs as [|x xs IH]; intros r a s Hs Hc; cbn; [rewrite Hs; exists (sub_currentSubID s); by destruct s|].
  destruct (ws_step_store r x a s Hs Hc) as [cur E]. by apply (IH _ _ _ E).
Qed.

Lemma named_run_app xs ys : forall r, named_run r (xs ++ ys)%list -> named_run r xs /\ named_run (fold_left ws_step xs r) ys.
Proof. induction xs as [|x xs IH]; intros r; cbn; [done|]. intros [Hx Hn]. apply IH in Hn as [? ?]. done. Qed.

(** C24: the client keeps its subscription id for the life of the bridge: in every run in which no
    endpoint answers a tracked subscribe with an empty or null id, a subscription that has its client
    id keeps that id, its request id and its frame whatever frames follow; while it is tracked its
    frame is among those replayed on a rebind, and an answer with a string result to its request id,
    as the replay gets from a new supplier, is not forwarded to the client and only rebinds its
    current id. *)
Theorem client_id_frozen (xs ys : list ws_frame) a s :
  named_run NewSubscriptionRegistry (xs ++ ys)%list ->
  let r := fold_left ws_step xs NewSubscriptionRegistry in let r' := fold_left ws_step ys r in
  live r a s -> sub_clientSubID s <> "" ->
  rebinds_of s (sr_store r' !! a) /\
  (a ∈ sr_order r' ->
     sub_subscribeFrame s ∈ ActiveSubscribeFrames r' /\
     forall f result subID, response_of f = Some (sub_reqID s, result) -> rawString result = Some subID ->
       let '((out, forward), r2) := TranslateEndpointMessage r' f in
       forward = false /\ sr_store r2 !! a = Some (mkSub (sub_reqID s) (sub_subscribeFrame s) (sub_clientSubID s) subID) /\
       sr_byCurrentSubID r2 !! subID = Some a /\ ActiveSubscribeFrames r2 = ActiveSubscribeFrames r').
Proof.
  intros [Hx Hy]%named_run_app. cbn zeta. set (r := fold_left ws_step xs NewSubscriptionRegistry) in *. set (r' := fold_left ws_step ys r).
  intros [_ Hs] Hc. pose proof (ws_run_store ys r a s Hs Hc) as K. fold r' in K. split; [exact K|]. intros Ha. destruct K as [cur K].
  assert (Hok : registry_ok r') by (unfold r'; apply ws_run_ok; [by apply ws_run_ok, Hx; apply new_ok|done]). split.
  - unfold ActiveSubscribeFrames. apply list_elem_of_In, in_map_iff. eexists. split; [|apply filter_In; split; [apply list_elem_of_In; unfold live_subs|]].
    2: { apply list_elem_of_omap. by exists a. } { done. } cbn. by rewrite (proj2 (String.eqb_neq _ _) Hc).
  - intros f result subID R Rs. pose proof (translate_response_of r' f) as T. rewrite R in T. rewrite T. unfold translate_response.
    destruct (ok_order r' Hok a Ha) as (t & Ht & Hi). rewrite K in Ht. injection Ht as <-. cbn [sub_reqID] in Hi. rewrite Hi, K, Rs.
    cbn [sub_clientSubID sub_reqID sub_subscribeFrame sub_currentSubID]. rewrite (proj2 (String.eqb_neq _ _) Hc).
    split; [done|]. split; [cbn; apply lookup_insert_eq|]. split; [cbn; apply lookup_insert_eq|]. by eapply live_subs_insert.
Qed.

(** After a rebind the client keeps its subscription id: the answer to the replayed
    subscribe is swallowed, the frozen id stays, the new supplier id is bound to it, every
    other subscription is still found by its ids and the same frames stay replayable. *)
Theorem rebind_keeps_client_id r (a : nat) s (frame result subID : string) :
  registry_ok r -> complete r -> live r a s -> sub_clientSubID s <> "" ->
  rawString result = Some subID -> subID <> "" -> unused r a subID ->
  let '((out, forward), r') := translate_response r frame (sub_reqID s) result in
  out = frame /\ forward = false /\
  live r' a (mkSub (sub_reqID s) (sub_subscribeFrame s) (sub_clientSubID s) subID) /\
  registry_ok r' /\ complete r' /\ ActiveSubscribeFrames r' = ActiveSubscribeFrames r.
Proof.
  intros Hok Hc Hl Hcl Hres Hsub Hun. pose proof (translate_response_ok r frame (sub_reqID s) result Hok) as Hok'.
  rewrite Hres in Hok'. specialize (Hok' ltac:(congruence)). pose proof Hl as [Ha Hs]. destruct (ok_order r Hok a Ha) as (s0 & Hs0 & Hi). assert (s0 = s) as -> by congruence.
  unfold translate_response in *. rewrite Hi, Hs, Hres in *. destruct (String.eqb_spec (sub_clientSubID s) ""); [congruence|]. cbn [snd] in Hok'.
  split; [reflexivity|]. split; [reflexivity|]. split; [split; [exact Ha|cbn; apply lookup_insert_eq]|]. split; [exact Hok'|].
  split; [now apply (rebound_complete r a s subID)|]. now apply live_subs_insert with (s := s).
Qed.

(** A rebound subscription is remapped in both directions: a notification under the
    supplier's current id reaches the client under the id it holds, and the client's
    unsubscribe goes out under the supplier's current id and ends the subscription.  It holds where
    every established subscription is found by its ids; [swapped_ids_misdeliver] shows a state in
    which it does not. *)
Theorem rebound_ids_translated r (a : nat) s (frame params result : string) :
  registry_ok r -> complete r -> live r a s ->
  sub_clientSubID s <> "" -> sub_currentSubID s <> "" -> sub_currentSubID s <> sub_clientSubID s ->
  decode_notification params = Some (sub_currentSubID s, result) ->
  translateNotification r frame params = (default frame (rewriteNotificationSubscription frame (sub_clientSubID s)), true) /\
  let '(out, r') := track_unsubscribe r (sub_clientSubID s) frame in
  out = default frame (rewriteUnsubscribeParam frame (sub_currentSubID s)) /\
  registry_ok r' /\ complete r' /\ (forall b t, live r' b t <-> b <> a /\ live r b t).
Proof.
  intros Hok Hc Hl Hcl Hcu Hne Hdec. destruct (Hc a s Hl Hcl) as [H1 H2]. pose proof Hl as [Ha Hs]. split.
  - unfold translateNotification. rewrite Hdec. apply String.eqb_neq in Hcu as Hcu'. rewrite Hcu', (H2 Hcu). cbn [mbind option_bind]. rewrite Hs.
    apply String.eqb_neq in Hcl as Hcl'. rewrite Hcl'. assert ((sub_clientSubID s =? sub_currentSubID s)%string = false) as -> by (apply String.eqb_neq; congruence). cbn [orb].
    now destruct (rewriteNotificationSubscription frame (sub_clientSubID s)).
  - unfold track_unsubscribe. rewrite H1, Hs. apply String.eqb_neq in Hcu as Hcu'. apply String.eqb_neq in Hne as Hne'. rewrite Hcu', Hne'. cbn [negb andb].
    split; [reflexivity|]. split; [now apply removeLocked_ok with (s := s)|]. split; [now apply removeLocked_complete with (s := s)|].
    intros b t. now apply removeLocked_live with (s := s).
Qed.

(** ** Bridges at work *)

Definition subscribe (reqid : string) : string := dq ("{'jsonrpc':'2.0','id':" +:+ reqid +:+ ",'method':'eth_subscribe','params':['newHeads']}").
Definition answered_with (reqid subid : string) : string := dq ("{'jsonrpc':'2.0','id':" +:+ reqid +:+ ",'result':'" +:+ subid +:+ "'}").
Definition notification (subid result : string) : string :=
  dq ("{'jsonrpc':'2.0','method':'eth_subscription','params':{'subscription':'" +:+ subid +:+ "','result':" +:+ result +:+ "}}").

(** Two subscriptions, known as 0xa and 0xb. *)
Definition two_subs : list ws_frame :=
  [FromClient (subscribe "1"); FromEndpoint (answered_with "1" "0xa"); FromClient (subscribe "2"); FromEndpoint (answered_with "2" "0xb")].

Definition two_registry : SubscriptionRegistry := fold_left ws_step two_subs NewSubscriptionRegistry.

Lemma two_subs_named : named_run NewSubscriptionRegistry two_subs.
Proof. vm_compute. repeat split; intros; congruence. Qed.

Lemma registry_indexes_sound_witness : registry_ok two_registry /\ Len two_registry = 2.
Proof.
  destruct (registry_indexes_sound two_subs two_subs_named) as [Hok Hlen]. split; [exact Hok|]. unfold two_registry. rewrite Hlen. vm_compute. reflexivity.
Defined.

#[export] Instance subscription_eq_dec : EqDecision subscription.
Proof. solve_decision. Defined.

(** The conditions of the theorems, as checks. *)
Definition indexed (m : gmap string nat) (id : string) (a : nat) : bool := bool_decide (m !! id = Some a).

Definition all_live r (f : nat -> subscription -> bool) : bool :=
  forallb (fun a => match sr_store r !! a with Some s => f a s | None => true end) (sr_order r).

Lemma all_live_spec r f : all_live r f = true -> forall a s, live r a s -> f a s = true.
Proof.
  intros H a s [Ha Hs]. unfold all_live in H. rewrite forallb_forall in H. apply list_elem_of_In in Ha. specialize (H a Ha). now rewrite Hs in H.
Qed.

Lemma complete_check r :
  all_live r (fun a s => (sub_clientSubID s =? "")%string ||
    (indexed (sr_byClientSubID r) (sub_clientSubID s) a && ((sub_currentSubID s =? "")%string || indexed (sr_byCurrentSubID r) (sub_currentSubID s) a))) = true ->
  complete r.
Proof.
  intros H a s Hl Hne. pose proof (all_live_spec r _ H a s Hl) as Hc. cbn beta in Hc. apply String.eqb_neq in Hne. rewrite Hne in Hc. cbn [orb] in Hc.
  apply andb_true_iff in Hc as [H1 H2]. split; [now apply bool_decide_eq_true in H1|]. intros Hcu. apply String.eqb_neq in Hcu. rewrite Hcu in H2. now apply bool_decide_eq_true in H2.
Qed.

Lemma unused_check r a id :
  all_live r (fun b t => (b =? a)%nat || (negb (sub_currentSubID t =? id)%string && negb (sub_clientSubID t =? id)%string)) = true -> unused r a id.
Proof.
  intros H b t Hl Hne. pose proof (all_live_spec r _ H b t Hl) as Hc. cbn beta in Hc. apply Nat.eqb_neq in Hne. rewrite Hne in Hc. cbn [orb] in Hc.
  apply andb_true_iff in Hc as [H1 H2]. apply negb_true_iff, String.eqb_neq in H1. apply negb_true_iff, String.eqb_neq in H2. auto.
Qed.

Lemma live_check r a s : bool_decide (a ∈ sr_order r) && bool_decide (sr_store r !! a = Some s) = true -> live r a s.
Proof. intros [H1%bool_decide_eq_true H2%bool_decide_eq_true]%andb_true_iff. now split. Qed.

Lemma two_registry_ok : registry_ok two_registry.
Proof.
  apply ws_run_ok; [apply new_ok|apply two_subs_named].
Qed.

Definition first_sub : subscription := mkSub "1" (subscribe "1") "0xa" "0xa".

Lemma rebind_keeps_client_id_witness :
  let '((out, forward), r') := translate_response two_registry (answered_with "1" "0xc") "1" (quote "0xc") in
  out = answered_with "1" "0xc" /\ forward = false /\
  live r' 0 (mkSub "1" (subscribe "1") "0xa" "0xc") /\ registry_ok r' /\ complete r' /\ ActiveSubscribeFrames r' = ActiveSubscribeFrames two_registry.
Proof.
  apply (rebind_keeps_client_id two_registry 0 first_sub (answered_with "1" "0xc") (quote "0xc") "0xc").
  - apply two_registry_ok.
  - apply complete_check. vm_compute. reflexivity.
  - apply live_check. vm_compute. reflexivity.
  - discriminate.
  - vm_compute. reflexivity.
  - discriminate.
  - apply unused_check. vm_compute. reflexivity.
Defined.

(** After the rebind of the first subscription. *)
Definition rebound_registry : SubscriptionRegistry := ws_step two_registry (FromEndpoint (answered_with "1" "0xc")).

Lemma rebound_registry_ok : registry_ok rebound_registry.
Proof. apply ws_step_ok; [apply two_registry_ok|]. vm_compute. intros; congruence. Qed.

Definition rebound_first : subscription := mkSub "1" (subscribe "1") "0xa" "0xc".

Lemma rebound_ids_translated_witness :
  fst (TranslateEndpointMessage rebound_registry (notification "0xc" "{'number':'0x10'}")) = (notification "0xa" "{'number':'0x10'}", true) /\
  translateNotification rebound_registry (notification "0xc" "7") (dq "{'subscription':'0xc','result':7}") =
    (default (notification "0xc" "7") (rewriteNotificationSubscription (notification "0xc" "7") (sub_clientSubID rebound_first)), true).
Proof.
  split; [vm_compute; reflexivity|].
  assert (complete rebound_registry) as Hc by (apply complete_check; vm_compute; reflexivity).
  assert (live rebound_registry 0 rebound_first) as Hl by (apply live_check; vm_compute; reflexivity).
  assert (decode_notification (dq "{'subscription':'0xc','result':7}") = Some (sub_currentSubID rebound_first, "7")) as Hd by (vm_compute; reflexivity).
  assert (sub_clientSubID rebound_first <> "" /\ sub_currentSubID rebound_first <> "" /\ sub_currentSubID rebound_first <> sub_clientSubID rebound_first) as (H1 & H2 & H3)
    by (repeat split; discriminate).
  exact (proj1 (rebound_ids_translated rebound_registry 0 rebound_first (notification "0xc" "7") _ "7" rebound_registry_ok Hc Hl H1 H2 H3 Hd)).
Defined.

Definition rebind_frame : ws_frame := FromEndpoint (answered_with "1" "0xc").

Lemma rebound_run : fold_left ws_step [rebind_frame] (fold_left ws_step two_subs NewSubscriptionRegistry) = rebound_registry.
Proof. reflexivity. Qed.

Lemma rebind_named : named_run NewSubscriptionRegistry (two_subs ++ [rebind_frame])%list.
Proof. vm_compute. repeat split; intros; congruence. Qed.

Lemma first_live : live (fold_left ws_step two_subs NewSubscriptionRegistry) 0 first_sub.
Proof. apply live_check. vm_compute. reflexivity. Qed.

Lemma first_replayed : 0 ∈ sr_order rebound_registry.
Proof. apply (bool_decide_unpack _). vm_compute. exact I. Qed.

Lemma second_answer : response_of (answered_with "1" "0xd") = Some ("1", quote "0xd") /\ rawString (quote "0xd") = Some "0xd".
Proof. split; vm_compute; reflexivity. Qed.

(** The second answer to the first subscribe is the replay's. *)
Lemma client_id_frozen_witness :
  rebinds_of first_sub (sr_store rebound_registry !! 0) /\ sub_subscribeFrame first_sub ∈ ActiveSubscribeFrames rebound_registry /\
  snd (fst (TranslateEndpointMessage rebound_registry (answered_with "1" "0xd"))) = false.
Proof.
  pose proof (client_id_frozen two_subs [rebind_frame] 0 first_sub rebind_named first_live ltac:(discriminate)) as C.
  cbv zeta in C. rewrite rebound_run in C. destruct C as [K A]. destruct (A first_replayed) as [F T].
  split; [exact K|]. split; [exact F|]. specialize (T _ _ _ (proj1 second_answer) (proj2 second_answer)).
  destruct (TranslateEndpointMessage rebound_registry (answered_with "1" "0xd")) as [[out forward] r2]. exact (proj1 T).
Defined.

(** ** At the edges *)

(** An endpoint that answers a subscribe with an empty id breaks the indexes: the entry under the
    empty id outlives the subscription, and an unsubscribe for it removes the request id of the
    subscription that has replaced it, which stays in the replay order and is never matched again. *)
Theorem empty_id_orphans :
  let r := fold_left ws_step [FromClient (subscribe "1"); FromEndpoint (answered_with "1" ""); FromClient (subscribe "1");
    FromEndpoint (answered_with "1" "0xa"); FromClient (dq "{'jsonrpc':'2.0','id':2,'method':'eth_unsubscribe','params':['']}")] NewSubscriptionRegistry in
  Len r = 0 /\ ActiveSubscribeFrames r = [subscribe "1"] /\
  fst (TranslateEndpointMessage r (answered_with "1" "0xb")) = (answered_with "1" "0xb", true).
Proof. repeat split; vm_compute; reflexivity. Qed.

(** When the new supplier gives the first of two subscriptions the id the second
    still has, the second's own rebind deletes the first one's index entry: events of the
    first subscription then reach the client under the second one's id. *)
Theorem swapped_ids_misdeliver :
  let r := fold_left ws_step [FromEndpoint (answered_with "1" "0xb"); FromEndpoint (answered_with "2" "0xa")] two_registry in
  map sub_currentSubID (live_subs r) = ["0xb"; "0xa"] /\ map sub_clientSubID (live_subs r) = ["0xa"; "0xb"] /\
  sr_byCurrentSubID r !! "0xb" = None /\
  fst (TranslateEndpointMessage r (notification "0xb" "1")) = (notification "0xb" "1", true).
Proof. repeat split; vm_compute; reflexivity. Qed.

(** A client that uses the request id of a live subscription again for another call
    never gets that call's answer: the registry takes it for the answer to a replay, swallows it and
    binds the subscription to the answer's value. *)
Theorem reused_request_id_swallowed :
  let r := ws_step two_registry (FromClient (dq "{'jsonrpc':'2.0','id':1,'method':'eth_blockNumber','params':[]}")) in
  fst (TranslateEndpointMessage r (answered_with "1" "0x10")) = (answered_with "1" "0x10", false) /\
  map sub_currentSubID (live_subs (ws_step r (FromEndpoint (answered_with "1" "0x10")))) = ["0x10"; "0xb"] /\
  fst (TranslateEndpointMessage (ws_step r (FromEndpoint (answered_with "1" "0x10"))) (notification "0xa" "1")) = (notification "0xa" "1", true).
Proof. repeat split; vm_compute; reflexivity. Qed.

(** A rewritten notification does not carry its result byte for byte: spaces outside
    strings are dropped and the characters less-than, greater-than and ampersand come out escaped. *)
Theorem rewritten_result_is_reencoded :
  fst (TranslateEndpointMessage rebound_registry (notification "0xc" "{ 'data': '<a>' }")) =
  (notification "0xa" "{'data':'\u003ca\u003e'}", true).
Proof. vm_compute. reflexivity. Qed.
