(* ===== verification/Bridge.v ===== *)
(** * The websocket bridge

    websockets/bridge.go, websockets/bridge_reconnect.go and the connection wrapper of
    websockets/connection.go: one bridge joins a client connection and an endpoint
    connection.  The [start] loop handles one event at a time on one goroutine; the read
    and ping loops of the connections, the operator's requests and the cancellation of the
    context reach it from other goroutines.  An event of the model is one of those
    happenings together with the answers the handler will get from the message processor,
    the reconnector, the clock and the peers; a run is a list of events, so it ranges over
    all interleavings.  Every effect of a handler is an [output]. *)

From S2P Require Import Prelude.
From Stdlib Require Import ZArith Lia Bool String.
From stdpp Require Import base strings list.

Open Scope Z_scope.
Open Scope string_scope.

(** ** Close codes of RFC 6455 used by the code *)

Definition CloseNormalClosure : Z := 1000.
Definition CloseGoingAway : Z := 1001.
Definition CloseNoStatusReceived : Z := 1005.
Definition CloseAbnormalClosure : Z := 1006.
Definition CloseInternalServerErr : Z := 1011.
Definition CloseServiceRestart : Z := 1012.
Definition CloseTryAgainLater : Z := 1013.
Definition CloseTLSHandshake : Z := 1015.

Definition endpointCloseCode (clientCode : Z) : Z :=
  if ((clientCode =? CloseInternalServerErr) || (clientCode =? CloseServiceRestart)
      || (clientCode =? CloseTryAgainLater))%Z
  then CloseGoingAway else clientCode.

Definition sanitizeCloseCode (code : Z) : Z :=
  if ((code =? CloseNoStatusReceived) || (code =? CloseAbnormalClosure)
      || (code =? CloseTLSHandshake))%Z
  then CloseInternalServerErr else code.

(** ** Errors: the sentinels an error wraps, and its text *)

Inductive sentinel :=
| ErrBridgeContextCanceled
| ErrBridgeMessageProcessingFailed
| ErrBridgeConnectionFailed
| ErrBridgeEndpointUnavailable
| ErrEndpointStalled
| ErrEndpointTumbled
| ErrEndpointSessionExpired
| ErrBridgeGatewayShuttingDown
| ErrBridgeIdleTimeout.

#[export] Instance sentinel_eq_dec : EqDecision sentinel.
Proof. solve_decision. Defined.

Definition sentinel_text (e : sentinel) : string :=
  match e with
  | ErrBridgeContextCanceled => "bridge context canceled"
  | ErrBridgeMessageProcessingFailed => "bridge message processing failed"
  | ErrBridgeConnectionFailed => "bridge connection failed"
  | ErrBridgeEndpointUnavailable => "bridge endpoint unavailable"
  | ErrEndpointStalled => "endpoint stalled: no subscription data past staleness threshold"
  | ErrEndpointTumbled =>
      "endpoint tumbled: operator-requested rebind to a different supplier"
  | ErrEndpointSessionExpired =>
      "endpoint session expired: bound session ended without the supplier disconnecting"
  | ErrBridgeGatewayShuttingDown => "gateway shutting down"
  | ErrBridgeIdleTimeout =>
      "bridge idle timeout: no subscription and no client activity past the idle threshold"
  end.

Record error := mkErr { err_chain : list sentinel; err_text : string }.

Definition is_err (e : error) (s : sentinel) : bool := bool_decide (s ∈ err_chain e).

Definition sentinel_err (s : sentinel) : error := mkErr [s] (sentinel_text s).

(** fmt.Errorf("%w: text", s) and fmt.Errorf("%w: text: %w", s, e) *)
Definition wrap_text (s : sentinel) (text : string) : error :=
  mkErr [s] (sentinel_text s +:+ ": " +:+ text).
Definition wrap_err (s : sentinel) (text : string) (e : error) : error :=
  mkErr (s :: err_chain e) (sentinel_text s +:+ ": " +:+ text +:+ ": " +:+ err_text e).

Definition context_canceled : error := mkErr [] "context canceled".

(** ** Bounds *)

Definition reconnectMaxAttempts : nat := 5.
Definition reconnectBaseBackoff : Duration := 250 * millisecond.
Definition reconnectMaxBackoff : Duration := 3 * second.
Definition endpointStalenessThreshold : Duration := 60 * second.
Definition maxConsecutiveStallRebinds : Z := 3.
Definition maxConsecutiveSessionRebinds : Z := 3.
Definition default_idleConnectionThreshold : Duration := 30 * minute.

(** ** State *)

(** The optional interfaces a reconnector may implement. *)
Record reconnector := mkReconnector {
  r_attacher : bool;
  r_tumbleReporter : bool;
  r_expiryChecker : bool;
  r_expiryReporter : bool;
  r_idleReporter : bool;
}.

Record config := mkBridgeConfig {
  c_reconnector : option reconnector;
  c_idleConnectionThreshold : Duration;
}.

(** A websocketConnection: which socket it wraps, and the close info of its last
    disconnect. *)
Record connection := mkConn {
  conn_socket : nat;
  conn_lastCloseCode : Z;
  conn_lastCloseText : string;
}.

Record endpointDisconnect := mkDown { down_gen : Z; down_err : error }.

Record bridge := mkBridge {
  b_cancelled : bool;                             (** ctx.Err() != nil *)
  b_shutdown : bool;                              (** shutdownOnce has run *)
  b_stopped : bool;                               (** start() has returned or panicked *)
  b_endpointConn : option connection;
  b_clientConn : option connection;
  b_endpointGen : Z;
  b_endpointDown : option endpointDisconnect;     (** the buffered channel of capacity 1 *)
  b_tumble : bool;                                (** the buffered channel of capacity 1 *)
  b_lastEndpointDataAt : Time;
  b_lastClientDataAt : Time;
  b_consecutiveStallRebinds : Z;
  b_consecutiveSessionRebinds : Z;
}.

Inductive ReconnectFailureStage := ReconnectStageNone | ReconnectStageSelect | ReconnectStageReplay.

Inductive output :=
| Attached | Detached                                        (** AttachBridge *)
| ToClient (frame : string)
| ToEndpoint (socket : nat) (frame : string)
| CloseClient (code : Z) (text : string)                     (** close frame, then Close() *)
| CloseEndpoint (socket : nat) (code : Z) (text : string)
| Dial (avoidCurrentSupplier : bool)                         (** ReconnectEndpoint *)
| Wait (d : Duration)                                        (** time.After(backoff) *)
| Replay (socket : nat) (frame : string)
| TumbleRequested
| SessionExpiryRebindRequested
| ReconnectOutcome (success : bool) (replayed : nat) (stage : ReconnectFailureStage)
| StallDetected (gaveUp : bool)
| IdleTimeout (idleFor : Duration)
| Observation (sent : bool)
| ObservationsClosed
| Panic.

(** ** Shutdown *)

Definition close_info (c : option connection) : option (Z * string) :=
  match c with
  | Some conn =>
      if (conn_lastCloseCode conn =? 0)%Z then None
      else Some (conn_lastCloseCode conn, conn_lastCloseText conn)
  | None => None
  end.

Definition determineCloseCodeAndMessage (b : bridge) (err : error) : Z * string :=
  match close_info (b_endpointConn b), close_info (b_clientConn b) with
  | Some info, _ => info
  | None, Some info => info
  | None, None =>
      if is_err err ErrBridgeGatewayShuttingDown
      then (CloseServiceRestart, "gateway shutting down, please reconnect")
      else if is_err err ErrBridgeContextCanceled
      then (CloseServiceRestart, "service restarting, please reconnect")
      else if is_err err ErrBridgeEndpointUnavailable
      then (CloseServiceRestart, "endpoint temporarily unavailable, please reconnect")
      else if is_err err ErrBridgeIdleTimeout
      then (CloseNormalClosure, "idle: no subscription and no activity, closing")
      else if is_err err ErrBridgeMessageProcessingFailed
      then (CloseInternalServerErr, "message processing error occurred")
      else if is_err err ErrBridgeConnectionFailed
      then (CloseInternalServerErr, "connection error occurred")
      else if (err_text err =? "context canceled")%string
      then (CloseServiceRestart, "service restarting, please reconnect")
      else (CloseInternalServerErr, "bridge error: " +:+ err_text err)
  end.

Definition implements (cfg : config) (f : reconnector -> bool) : bool :=
  match c_reconnector cfg with Some r => f r | None => false end.

Definition when (c : bool) (o : output) : list output := if c then [o] else [].

Definition set_shutdown (b : bridge) : bridge :=
  mkBridge true true (b_stopped b) (b_endpointConn b) (b_clientConn b) (b_endpointGen b)
    (b_endpointDown b) (b_tumble b) (b_lastEndpointDataAt b) (b_lastClientDataAt b)
    (b_consecutiveStallRebinds b) (b_consecutiveSessionRebinds b).

Definition shutdown (cfg : config) (err : error) (b : bridge) : bridge * list output :=
  if b_shutdown b then (b, [])
  else
    let '(code, errMsg) := determineCloseCodeAndMessage b err in
    let closeCode := sanitizeCloseCode code in
    let endpointCode := endpointCloseCode closeCode in
    (set_shutdown b,
     when (implements cfg r_attacher) Detached
     ++ match b_clientConn b with Some _ => [CloseClient closeCode errMsg] | None => [] end
     ++ match b_endpointConn b with
        | Some c => [CloseEndpoint (conn_socket c) endpointCode errMsg]
        | None => []
        end
     ++ [ObservationsClosed])%list.

(** Close(reason) of BridgeController *)
Definition Close (cfg : config) (reason : string) (b : bridge) : bridge * list output :=
  shutdown cfg (wrap_text ErrBridgeGatewayShuttingDown reason) b.

(** Tumble(): a non-blocking send on a channel of capacity 1. *)
Definition Tumble (cfg : config) (b : bridge) : bridge * bool :=
  match c_reconnector cfg with
  | None => (b, false)
  | Some _ =>
      if b_tumble b then (b, false)
      else (mkBridge (b_cancelled b) (b_shutdown b) (b_stopped b) (b_endpointConn b)
              (b_clientConn b) (b_endpointGen b) (b_endpointDown b) true
              (b_lastEndpointDataAt b) (b_lastClientDataAt b)
              (b_consecutiveStallRebinds b) (b_consecutiveSessionRebinds b), true)
  end.

(** ** Connections *)

Definition extractCloseInfo (close : option (Z * string)) : Z * string :=
  match close with Some (code, text) => (code, text) | None => (0%Z, "") end.

(** handleDisconnect: the close info of a close error is recorded. *)
Definition record_close (close : option (Z * string)) (c : connection) : connection :=
  let '(code, text) := extractCloseInfo close in
  if (code =? 0)%Z then c else mkConn (conn_socket c) code text.

Definition set_cancelled (b : bridge) : bridge :=
  mkBridge true (b_shutdown b) (b_stopped b) (b_endpointConn b) (b_clientConn b)
    (b_endpointGen b) (b_endpointDown b) (b_tumble b) (b_lastEndpointDataAt b)
    (b_lastClientDataAt b) (b_consecutiveStallRebinds b) (b_consecutiveSessionRebinds b).

Definition set_conns (b : bridge) (endpoint client : option connection) : bridge :=
  mkBridge (b_cancelled b) (b_shutdown b) (b_stopped b) endpoint client
    (b_endpointGen b) (b_endpointDown b) (b_tumble b) (b_lastEndpointDataAt b)
    (b_lastClientDataAt b) (b_consecutiveStallRebinds b) (b_consecutiveSessionRebinds b).

Definition set_down (b : bridge) (d : option endpointDisconnect) : bridge :=
  mkBridge (b_cancelled b) (b_shutdown b) (b_stopped b) (b_endpointConn b) (b_clientConn b)
    (b_endpointGen b) d (b_tumble b) (b_lastEndpointDataAt b)
    (b_lastClientDataAt b) (b_consecutiveStallRebinds b) (b_consecutiveSessionRebinds b).

Definition set_tumble (b : bridge) (q : bool) : bridge :=
  mkBridge (b_cancelled b) (b_shutdown b) (b_stopped b) (b_endpointConn b) (b_clientConn b)
    (b_endpointGen b) (b_endpointDown b) q (b_lastEndpointDataAt b)
    (b_lastClientDataAt b) (b_consecutiveStallRebinds b) (b_consecutiveSessionRebinds b).

Definition set_clocks (b : bridge) (endpoint client : Time) : bridge :=
  mkBridge (b_cancelled b) (b_shutdown b) (b_stopped b) (b_endpointConn b) (b_clientConn b)
    (b_endpointGen b) (b_endpointDown b) (b_tumble b) endpoint client
    (b_consecutiveStallRebinds b) (b_consecutiveSessionRebinds b).

Definition set_counters (b : bridge) (stalls sessions : Z) : bridge :=
  mkBridge (b_cancelled b) (b_shutdown b) (b_stopped b) (b_endpointConn b) (b_clientConn b)
    (b_endpointGen b) (b_endpointDown b) (b_tumble b) (b_lastEndpointDataAt b)
    (b_lastClientDataAt b) stalls sessions.

Definition set_gen (b : bridge) (gen : Z) : bridge :=
  mkBridge (b_cancelled b) (b_shutdown b) (b_stopped b) (b_endpointConn b) (b_clientConn b)
    gen (b_endpointDown b) (b_tumble b) (b_lastEndpointDataAt b)
    (b_lastClientDataAt b) (b_consecutiveStallRebinds b) (b_consecutiveSessionRebinds b).

Definition set_stopped (b : bridge) : bridge :=
  mkBridge (b_cancelled b) (b_shutdown b) true (b_endpointConn b) (b_clientConn b)
    (b_endpointGen b) (b_endpointDown b) (b_tumble b) (b_lastEndpointDataAt b)
    (b_lastClientDataAt b) (b_consecutiveStallRebinds b) (b_consecutiveSessionRebinds b).

(** endpointDisconnectFunc: a non-blocking send on a channel of capacity 1. *)
Definition endpointDisconnectFunc (gen : Z) (err : error) (b : bridge) : bridge :=
  match b_endpointDown b with
  | None => set_down b (Some (mkDown gen err))
  | Some _ => b
  end.

(** A disconnect of the client connection: it cancels the bridge. *)
Definition client_disconnect (close : option (Z * string)) (b : bridge) : bridge :=
  set_cancelled (set_conns b (b_endpointConn b) (record_close close <$> b_clientConn b)).

(** A disconnect of the endpoint connection of generation [gen]: its close info is recorded
    on the connection, which is the bridge's only while the generation is current; the
    bridge is signalled, or cancelled when rebinding is off. *)
Definition endpoint_disconnect (cfg : config) (gen : Z) (close : option (Z * string))
    (err : error) (b : bridge) : bridge :=
  let b1 := if (gen =? b_endpointGen b)%Z
            then set_conns b (record_close close <$> b_endpointConn b) (b_clientConn b)
            else b in
  match c_reconnector cfg with
  | Some _ => endpointDisconnectFunc gen err b1
  | None => set_cancelled b1
  end.

(** ** Rebinding *)

(** What one rebind meets: the state of the context and the answer of ReconnectEndpoint at
    each attempt (from 0), whether the context ends during the wait after it, the replay
    frames, the writes of the frames, and the time the rebind ends. *)
Record rebind := mkRebind {
  rb_cancelled : nat -> bool;
  rb_dial : nat -> result error nat;
  rb_cancelledInWait : nat -> bool;
  rb_frames : result error (list string);
  rb_write : nat -> option error;
  rb_end : Time;
}.

(** The loop of reconnectWithBackoff from attempt [k], with [n] attempts left. *)
Fixpoint reconnect_loop (rb : rebind) (cancelled avoid : bool) (n k : nat)
    (backoff : Duration) (lastErr : error) : result error nat * list output :=
  match n with
  | O => (Err lastErr, [])
  | S n' =>
      if (cancelled || rb_cancelled rb k)%bool then (Err context_canceled, [])
      else
        match rb_dial rb k with
        | Ok conn => (Ok conn, [Dial avoid])
        | Err err =>
            match n' with
            | O => (Err err, [Dial avoid])
            | S _ =>
                if rb_cancelledInWait rb k then (Err context_canceled, [Dial avoid])
                else
                  let next := if (2 * backoff >? reconnectMaxBackoff)%Z
                              then reconnectMaxBackoff else (2 * backoff)%Z in
                  let '(r, out) := reconnect_loop rb cancelled avoid n' (S k) next err in
                  (r, Dial avoid :: Wait backoff :: out)
            end
        end
  end.

Definition reconnectWithBackoff (rb : rebind) (cancelled avoid : bool)
    : result error nat * list output :=
  reconnect_loop rb cancelled avoid reconnectMaxAttempts 0 reconnectBaseBackoff
    context_canceled.

Fixpoint writeReplayFrames (rb : rebind) (conn i : nat) (frames : list string)
    : option error * list output :=
  match frames with
  | [] => (None, [])
  | frame :: rest =>
      match rb_write rb i with
      | Some err => (Some err, [])
      | None =>
          let '(r, out) := writeReplayFrames rb conn (S i) rest in
          (r, Replay conn frame :: out)
      end
  end.

(** [b ;> f]: run [f] on the state reached and append its outputs. *)
Definition andThen (r : bridge * list output) (f : bridge -> bridge * list output)
    : bridge * list output :=
  let '(b, out) := r in let '(b', out') := f b in (b', (out ++ out')%list).
Notation "r ;> f" := (andThen r f) (at level 60, right associativity).

Definition emit (out : list output) (b : bridge) : bridge * list output := (b, out).

(** The new connection is dialled: restore the subscriptions and swap it in. *)
Definition swap_in (cfg : config) (rb : rebind) (conn : nat) (b : bridge)
    : bridge * list output :=
  match rb_frames rb with
  | Err replayErr =>
      (b, [CloseEndpoint conn CloseNormalClosure "subscription replay failed";
           ReconnectOutcome false 0 ReconnectStageReplay]) ;>
      shutdown cfg (wrap_err ErrBridgeEndpointUnavailable "subscription replay failed" replayErr)
  | Ok frames =>
      let '(werr, written) := writeReplayFrames rb conn 0 frames in
      match werr with
      | Some err =>
          (b, written ++ [CloseEndpoint conn CloseNormalClosure "subscription replay failed";
               ReconnectOutcome false 0 ReconnectStageReplay])%list ;>
          shutdown cfg (wrap_err ErrBridgeEndpointUnavailable
                          "subscription replay write failed" err)
      | None =>
          (set_clocks
             (set_conns (set_gen b (b_endpointGen b + 1)) (Some (mkConn conn 0 "")) (b_clientConn b))
             (rb_end rb) (b_lastClientDataAt b),
           written ++ [ReconnectOutcome true (length frames) ReconnectStageNone])%list
      end
  end.

Definition handleEndpointDown (cfg : config) (rb : rebind) (down : endpointDisconnect)
    (b : bridge) : bridge * list output :=
  if negb (down_gen down =? b_endpointGen b)%Z then (b, [])
  else if b_cancelled b then shutdown cfg (sentinel_err ErrBridgeContextCanceled) b
  else
    let tumbled := is_err (down_err down) ErrEndpointTumbled in
    let avoid := (tumbled || is_err (down_err down) ErrEndpointStalled)%bool in
    let closed := match b_endpointConn b with
                  | Some c => [CloseEndpoint (conn_socket c) CloseNormalClosure
                                 "rebinding to a new session"]
                  | None => []
                  end in
    let '(r, dials) := reconnectWithBackoff rb (b_cancelled b) avoid in
    (set_conns b None (b_clientConn b),
     when (tumbled && implements cfg r_tumbleReporter) TumbleRequested ++ closed ++ dials)%list ;>
    match r with
    | Err err => fun b1 =>
        emit [ReconnectOutcome false 0 ReconnectStageSelect] b1 ;>
        shutdown cfg (wrap_err ErrBridgeEndpointUnavailable "endpoint reconnect failed" err)
    | Ok conn => swap_in cfg rb conn
    end.

(** ** Handlers of the start loop *)

(** A recovered panic: the deferred function of StartBridge shuts down, and the loop is
    over. *)
Definition recovered (cfg : config) (b : bridge) : bridge * list output :=
  let '(b', out) := shutdown cfg (wrap_text ErrBridgeConnectionFailed "bridge panic") b in
  (set_stopped b', Panic :: out).

(** ProcessClientWebsocketMessage answers [processed]; writing to the endpoint fails with
    [werr]. *)
Definition handleClientMessage (cfg : config) (now : Time) (processed : result error string)
    (werr : option error) (b : bridge) : bridge * list output :=
  let b1 := set_clocks b (b_lastEndpointDataAt b) now in
  match processed with
  | Err err =>
      shutdown cfg (wrap_err ErrBridgeMessageProcessingFailed "client message processing failed" err) b1
  | Ok data =>
      match b_endpointConn b1 with
      | None => recovered cfg b1             (* writeMessage on a nil connection *)
      | Some c =>
          match werr with
          | Some err => shutdown cfg (wrap_err ErrBridgeConnectionFailed
                                        "failed to write client message to endpoint" err) b1
          | None => (b1, [ToEndpoint (conn_socket c) data])
          end
      end
  end.

(** A send that is dropped when the channel is full, and recovered when it is closed. *)
Definition sendMessageObservations (full : bool) (b : bridge) : bridge * list output :=
  (b, [Observation (negb (b_shutdown b) && negb full)]).

(** ProcessEndpointWebsocketMessage answers [processed] ([Ok None]: swallowed) and
    [observed]; the observations are sent by a deferred call. *)
Definition handleEndpointMessage (cfg : config) (now : Time)
    (processed : result error (option string)) (observed full : bool) (werr : option error)
    (b : bridge) : bridge * list output :=
  match processed with
  | Err err =>
      shutdown cfg (wrap_err ErrBridgeMessageProcessingFailed "endpoint message processing failed" err) b
  | Ok None => (b, [])
  | Ok (Some data) =>
      let b1 := set_counters (set_clocks b now (b_lastClientDataAt b)) 0
                  (b_consecutiveSessionRebinds b) in
      match b_clientConn b1, werr with
      | None, _ => recovered cfg b1
      | Some _, Some err => shutdown cfg (wrap_err ErrBridgeConnectionFailed
                                            "failed to write endpoint message to client" err) b1
      | Some _, None => (b1, [ToClient data])
      end
  end ;> if observed then sendMessageObservations full else emit [].

Definition checkEndpointStaleness (cfg : config) (now : Time) (subscribed : bool) (rb : rebind)
    (b : bridge) : bridge * list output :=
  match c_reconnector cfg with
  | None => (b, [])
  | Some _ =>
      if negb subscribed then (b, [])
      else if (time_sub now (b_lastEndpointDataAt b) <? endpointStalenessThreshold)%Z then (b, [])
      else if (b_consecutiveStallRebinds b >=? maxConsecutiveStallRebinds)%Z
      then emit [StallDetected true] b ;>
           shutdown cfg (wrap_text ErrBridgeEndpointUnavailable
                           "endpoint silent after repeated stall rebinds")
      else
        let b1 := set_clocks
                    (set_counters b (b_consecutiveStallRebinds b + 1) (b_consecutiveSessionRebinds b))
                    now (b_lastClientDataAt b) in
        emit [StallDetected false] b1 ;>
        handleEndpointDown cfg rb (mkDown (b_endpointGen b1) (sentinel_err ErrEndpointStalled))
  end.

Definition checkIdleConnection (cfg : config) (now : Time) (subscribed : bool) (b : bridge)
    : bridge * list output :=
  match c_reconnector cfg with
  | None => (b, [])
  | Some _ =>
      if subscribed then (b, [])
      else
        let idleFor := time_sub now (b_lastClientDataAt b) in
        if (idleFor <? c_idleConnectionThreshold cfg)%Z then (b, [])
        else emit (when (implements cfg r_idleReporter) (IdleTimeout idleFor)) b ;>
             shutdown cfg (wrap_text ErrBridgeIdleTimeout "idle with no subscription")
  end.

Definition checkBoundSessionExpiry (cfg : config) (expired : bool) (rb : rebind) (b : bridge)
    : bridge * list output :=
  if negb (implements cfg r_expiryChecker) then (b, [])
  else if negb expired then (set_counters b (b_consecutiveStallRebinds b) 0, [])
  else if (b_consecutiveSessionRebinds b >=? maxConsecutiveSessionRebinds)%Z then (b, [])
  else
    let b1 := set_counters b (b_consecutiveStallRebinds b) (b_consecutiveSessionRebinds b + 1) in
    emit (when (implements cfg r_expiryReporter) SessionExpiryRebindRequested) b1 ;>
    handleEndpointDown cfg rb (mkDown (b_endpointGen b1) (sentinel_err ErrEndpointSessionExpired)).

Definition handleAdminTumble (cfg : config) (now : Time) (rb : rebind) (b : bridge)
    : bridge * list output :=
  match c_reconnector cfg with
  | None => (b, [])
  | Some _ =>
      let b1 := set_clocks b now (b_lastClientDataAt b) in
      handleEndpointDown cfg rb (mkDown (b_endpointGen b1) (sentinel_err ErrEndpointTumbled)) b1
  end.

(** ** The bridge as a machine *)

Inductive event :=
(** other goroutines *)
| EvClientGone (close : option (Z * string))
| EvEndpointGone (gen : Z) (close : option (Z * string)) (err : error)
| EvTumble
| EvClose (reason : string)
| EvCancelled
(** StartBridge creates the connections and enters the loop *)
| EvStart (endpoint client : nat) (now : Time)
(** the cases of the loop *)
| EvClientMessage (now : Time) (processed : result error string) (werr : option error)
| EvEndpointMessage (now : Time) (processed : result error (option string))
    (observed full : bool) (werr : option error)
| EvDown (rb : rebind)
| EvStalenessTick (now : Time) (subscribed : bool) (rb : rebind)
| EvExpiryTick (expired : bool) (rb : rebind)
| EvIdleTick (now : Time) (subscribed : bool)
| EvTumbled (now : Time) (rb : rebind)
| EvDone.

(** The bridge StartBridge builds, before its connections exist. *)
Definition NewBridge (cfg : config) : bridge * list output :=
  (mkBridge false false false None None 0 None false time_zero time_zero 0 0,
   when (implements cfg r_attacher) Attached).

(** The connections are created and start() resets the clocks. *)
Definition connect (endpoint client : nat) (now : Time) (b : bridge) : bridge :=
  set_clocks (set_conns b (Some (mkConn endpoint 0 "")) (Some (mkConn client 0 ""))) now now.

Definition started (b : bridge) : bool :=
  match b_clientConn b with Some _ => true | None => false end.

(** In the select loop: running, and a channel with something to receive. *)
Definition looping (b : bridge) : bool := started b && negb (b_stopped b).

Definition enabled (cfg : config) (ev : event) (b : bridge) : bool :=
  match ev with
  | EvTumble | EvClose _ => implements cfg r_attacher
  | EvCancelled => true
  | EvClientGone _ | EvEndpointGone _ _ _ => started b
  | EvStart _ _ _ => negb (started b)
  | EvClientMessage _ _ _ | EvEndpointMessage _ _ _ _ _ => looping b
  | EvDown _ => looping b && match b_endpointDown b with Some _ => true | None => false end
  | EvStalenessTick _ _ _ => looping b && implements cfg (fun _ => true)
  | EvExpiryTick _ _ => looping b && implements cfg r_expiryChecker
  | EvIdleTick _ _ =>
      looping b && implements cfg (fun _ => true) && (0 <? c_idleConnectionThreshold cfg)%Z
  | EvTumbled _ _ => looping b && b_tumble b
  | EvDone => looping b && b_cancelled b
  end.

Definition handle (cfg : config) (ev : event) (b : bridge) : bridge * list output :=
  match ev with
  | EvClientGone close => (client_disconnect close b, [])
  | EvEndpointGone gen close err => (endpoint_disconnect cfg gen close err b, [])
  | EvTumble => (fst (Tumble cfg b), [])
  | EvClose reason => Close cfg reason b
  | EvCancelled => (set_cancelled b, [])
  | EvStart endpoint client now => (connect endpoint client now b, [])
  | EvClientMessage now processed werr => handleClientMessage cfg now processed werr b
  | EvEndpointMessage now processed observed full werr =>
      handleEndpointMessage cfg now processed observed full werr b
  | EvDown rb =>
      match b_endpointDown b with
      | Some down => handleEndpointDown cfg rb down (set_down b None)
      | None => (b, [])
      end
  | EvStalenessTick now subscribed rb => checkEndpointStaleness cfg now subscribed rb b
  | EvExpiryTick expired rb => checkBoundSessionExpiry cfg expired rb b
  | EvIdleTick now subscribed => checkIdleConnection cfg now subscribed b
  | EvTumbled now rb => handleAdminTumble cfg now rb (set_tumble b false)
  | EvDone =>
      let '(b', out) := shutdown cfg (sentinel_err ErrBridgeContextCanceled) b in
      (set_stopped b', out)
  end.

(** A reachable state with the events and the outputs that led to it, latest first. *)
Inductive reaches (cfg : config) : list (event * list output) -> bridge -> Prop :=
| reaches_new : reaches cfg [] (fst (NewBridge cfg))
| reaches_step history b ev b' out :
    reaches cfg history b ->
    enabled cfg ev b = true ->
    handle cfg ev b = (b', out) ->
    reaches cfg ((ev, out) :: history) b'.

(** The same as a function, for concrete runs: [None] when an event is not enabled. *)
Fixpoint run (cfg : config) (evs : list event) (b : bridge)
    : option (bridge * list (event * list output)) :=
  match evs with
  | [] => Some (b, [])
  | ev :: rest =>
      if enabled cfg ev b then
        let '(b1, out) := handle cfg ev b in
        match run cfg rest b1 with
        | Some (b2, history) => Some (b2, ((ev, out) :: history))
        | None => None
        end
      else None
  end.
