(* ===== verification/BridgeProps.v ===== *)
(** * Properties of the websocket bridge

    Invariants of every reachable state of the bridge machine, by rule induction on
    [reaches]: close frames are legible, shutdown happens once, stall rebinds are bounded,
    the idle reaper spares subscribers and active clients; the behaviour of a rebind; and
    runs in which the code does not do what its comments say. *)

From S2P Require Import Prelude Bridge.
From Stdlib Require Import ZArith Lia Bool String.
From stdpp Require Import base strings list.

Open Scope Z_scope.
Open Scope string_scope.

Create HintDb bridge discriminated.

(** ** Sequencing *)

Lemma andThen_Forall (P : output -> Prop) r f :
  Forall P (snd r) -> Forall P (snd (f (fst r))) -> Forall P (snd (r ;> f)).
Proof.
  destruct r as [b out]. unfold andThen; simpl.
  destruct (f b) as [b' out'] eqn:E; simpl. intros H1 H2. by apply Forall_app.
Qed.

Lemma andThen_fst r f : fst (r ;> f) = fst (f (fst r)).
Proof. destruct r as [b out]. unfold andThen; simpl. by destruct (f b). Qed.

Lemma andThen_snd r f : snd (r ;> f) = (snd r ++ snd (f (fst r)))%list.
Proof. destruct r as [b out]. unfold andThen; simpl. by destruct (f b). Qed.

(** ** Legible close frames *)

(** Codes that may not appear in a close frame, and codes only a server may send. *)
Definition reserved (code : Z) : bool :=
  ((code =? 1005) || (code =? 1006) || (code =? 1015))%Z.
Definition server_only (code : Z) : bool :=
  ((code =? 1011) || (code =? 1012) || (code =? 1013))%Z.

(** A control frame carries at most 125 bytes, 2 of them the code. *)
Definition fits (text : string) : Prop := (String.length text <= 123)%nat.

Definition legible (o : output) : Prop :=
  match o with
  | CloseClient code text => reserved code = false /\ fits text
  | CloseEndpoint _ code text =>
      reserved code = false /\ server_only code = false /\ fits text
  | _ => True
  end.

(** The peers' close frames fit, as RFC 6455 demands of them. *)
Definition close_fits (close : option (Z * string)) : Prop :=
  match close with Some (_, text) => fits text | None => True end.

Definition peer_ok (ev : event) : Prop :=
  match ev with
  | EvClientGone close | EvEndpointGone _ close _ => close_fits close
  | _ => True
  end.

Definition conn_fits (c : option connection) : Prop :=
  match c with Some conn => fits (conn_lastCloseText conn) | None => True end.

Definition conns_fit (b : bridge) : Prop :=
  conn_fits (b_endpointConn b) /\ conn_fits (b_clientConn b).

Lemma short_text (t : string) : (String.length t <=? 123)%nat = true -> fits t.
Proof. unfold fits. apply Nat.leb_le. Qed.

Definition legible_nil : Forall legible [] := Forall_nil_2 legible.

Lemma legible_cons o out : legible o -> Forall legible out -> Forall legible (o :: out).
Proof. by constructor. Qed.

(** The outputs of one branch, one by one; fixed close texts are measured. *)
Ltac legibles :=
  repeat first
    [ apply Forall_app_2 | apply legible_nil
    | apply legible_cons; [cbn [legible]; first [exact I | split_and?; done
                                 | split_and?; try done; by apply short_text]|] ].

Lemma sanitize_not_reserved code : reserved (sanitizeCloseCode code) = false.
Proof.
  unfold sanitizeCloseCode, CloseNoStatusReceived, CloseAbnormalClosure, CloseTLSHandshake.
  destruct ((code =? 1005) || (code =? 1006) || (code =? 1015))%Z eqn:E; [reflexivity|exact E].
Qed.

Lemma endpoint_code_ok code :
  reserved code = false ->
  reserved (endpointCloseCode code) = false /\ server_only (endpointCloseCode code) = false.
Proof.
  intros H. unfold endpointCloseCode, CloseInternalServerErr, CloseServiceRestart,
    CloseTryAgainLater.
  destruct ((code =? 1011) || (code =? 1012) || (code =? 1013))%Z eqn:E; [done|].
  split; [exact H|exact E].
Qed.

(** The sentinels for which a close message is fixed. *)
Definition bridge_sentinel (s : sentinel) : bool :=
  match s with
  | ErrBridgeGatewayShuttingDown | ErrBridgeContextCanceled | ErrBridgeEndpointUnavailable
  | ErrBridgeIdleTimeout | ErrBridgeMessageProcessingFailed | ErrBridgeConnectionFailed => true
  | _ => false
  end.

Definition has_sentinel (e : error) : Prop :=
  exists s, s ∈ err_chain e /\ bridge_sentinel s = true.

Lemma has_wrap_err s text e : bridge_sentinel s = true -> has_sentinel (wrap_err s text e).
Proof. intros H; exists s; split; [simpl; left|exact H]. Qed.
Lemma has_wrap_text s text : bridge_sentinel s = true -> has_sentinel (wrap_text s text).
Proof. intros H; exists s; split; [simpl; left|exact H]. Qed.
Lemma has_sentinel_err s : bridge_sentinel s = true -> has_sentinel (sentinel_err s).
Proof. intros H; exists s; split; [simpl; left|exact H]. Qed.

#[export] Hint Resolve has_wrap_err has_wrap_text has_sentinel_err : bridge.
#[export] Hint Extern 1 (bridge_sentinel _ = true) => reflexivity : bridge.

Lemma close_info_fits c info : conn_fits c -> close_info c = Some info -> fits (snd info).
Proof.
  destruct c as [c|]; simpl; [|done]. intros Hf H.
  destruct (_ =? 0)%Z; simplify_eq; exact Hf.
Qed.

Lemma determine_fits b err :
  conns_fit b -> has_sentinel err -> fits (snd (determineCloseCodeAndMessage b err)).
Proof.
  intros [He Hc] (s & Hs & Hb). unfold determineCloseCodeAndMessage.
  destruct (close_info (b_endpointConn b)) as [i|] eqn:E1.
  { exact (close_info_fits _ _ He E1). }
  destruct (close_info (b_clientConn b)) as [i|] eqn:E2.
  { exact (close_info_fits _ _ Hc E2). }
  assert (Hin : is_err err s = true) by (apply bool_decide_eq_true; exact Hs).
  destruct s; try discriminate Hb; rewrite Hin;
    repeat (cbv iota; match goal with
                      | |- context [if is_err err ?x then _ else _] => destruct (is_err err x)
                      end); cbv iota; apply short_text; vm_compute; reflexivity.
Qed.

Lemma shutdown_legible cfg err b :
  conns_fit b -> has_sentinel err -> Forall legible (snd (shutdown cfg err b)).
Proof.
  intros Hf Hs. unfold shutdown. destruct (b_shutdown b); [constructor|].
  pose proof (determine_fits b err Hf Hs) as Ht.
  destruct (determineCloseCodeAndMessage b err) as [code text]; simpl in *.
  pose proof (sanitize_not_reserved code) as Hr.
  destruct (endpoint_code_ok _ Hr) as [Hr' Hs'].
  unfold when.
  destruct (implements _ _), (b_clientConn b), (b_endpointConn b); legibles.
Qed.

Lemma shutdown_conns cfg err b :
  b_endpointConn (fst (shutdown cfg err b)) = b_endpointConn b /\
  b_clientConn (fst (shutdown cfg err b)) = b_clientConn b.
Proof.
  unfold shutdown. destruct (b_shutdown b); [done|].
  by destruct (determineCloseCodeAndMessage b err).
Qed.

Lemma shutdown_conns_fit cfg err b : conns_fit b -> conns_fit (fst (shutdown cfg err b)).
Proof. unfold conns_fit. destruct (shutdown_conns cfg err b) as [-> ->]. done. Qed.

#[export] Hint Resolve shutdown_legible shutdown_conns_fit : bridge.

(** What every handler preserves: connections with short close texts, legible outputs. *)
Definition good (r : bridge * list output) : Prop :=
  conns_fit (fst r) /\ Forall legible (snd r).

Lemma good_shutdown cfg err b : conns_fit b -> has_sentinel err -> good (shutdown cfg err b).
Proof. split; auto with bridge. Qed.

Lemma good_andThen r f : good r -> (forall b, conns_fit b -> good (f b)) -> good (r ;> f).
Proof.
  intros [H1 H2] Hf. destruct (Hf _ H1) as [H3 H4]. split.
  - by rewrite andThen_fst.
  - by apply andThen_Forall.
Qed.

Lemma good_emit out b : conns_fit b -> Forall legible out -> good (emit out b).
Proof. by split. Qed.

#[export] Hint Resolve good_shutdown good_andThen good_emit : bridge.

(** The outputs of the dialling loop and of the replay are of three kinds. *)
Definition rebinding (o : output) : bool :=
  match o with Dial _ | Wait _ | Replay _ _ => true | _ => false end.

Lemma reconnect_loop_rebinding rb c avoid n : forall k backoff e,
  forallb rebinding (snd (reconnect_loop rb c avoid n k backoff e)) = true.
Proof.
  induction n as [|n IH]; intros k backoff e; simpl; [done|].
  destruct (c || rb_cancelled rb k)%bool; [done|].
  destruct (rb_dial rb k) as [s|err]; [done|].
  destruct n as [|n']; [done|]. destruct (rb_cancelledInWait rb k); [done|].
  match goal with |- context [reconnect_loop ?a ?b ?c ?d ?e ?f ?g] =>
    specialize (IH e f g); destruct (reconnect_loop a b c d e f g) end.
  exact IH.
Qed.

Lemma reconnect_rebinding rb c avoid :
  forallb rebinding (snd (reconnectWithBackoff rb c avoid)) = true.
Proof. apply reconnect_loop_rebinding. Qed.

Lemma writeReplay_rebinding rb conn frames : forall i,
  forallb rebinding (snd (writeReplayFrames rb conn i frames)) = true.
Proof.
  induction frames as [|f fs IH]; intros i; simpl; [done|].
  destruct (rb_write rb i); [done|].
  specialize (IH (S i)). by destruct (writeReplayFrames rb conn (S i) fs).
Qed.

Lemma rebinding_legible out : forallb rebinding out = true -> Forall legible out.
Proof.
  induction out as [|o out IH]; simpl; [intros; legibles|].
  intros [H1 H2]%andb_prop. apply legible_cons; [by destruct o|by apply IH].
Qed.

Lemma good_swap_in cfg rb conn b : conns_fit b -> good (swap_in cfg rb conn b).
Proof.
  intros Hf. unfold swap_in. destruct (rb_frames rb) as [frames|e].
  - pose proof (rebinding_legible _ (writeReplay_rebinding rb conn frames 0)) as Hw.
    destruct (writeReplayFrames rb conn 0 frames) as [[e|] written]; simpl in Hw.
    + apply good_andThen; [|auto with bridge]. split; [exact Hf|].
      apply Forall_app_2; [exact Hw|].
      legibles.
    + split; simpl.
      * destruct Hf; split; simpl; [apply Nat.leb_le; reflexivity|done].
      * apply Forall_app_2; [exact Hw|legibles].
  - apply good_andThen; [|auto with bridge]. split; [exact Hf|].
    legibles.
Qed.

Lemma good_handleEndpointDown cfg rb down b :
  conns_fit b -> good (handleEndpointDown cfg rb down b).
Proof.
  intros Hf. unfold handleEndpointDown.
  destruct (negb _); [by split|]. destruct (b_cancelled b); [auto with bridge|].
  match goal with |- context [reconnectWithBackoff ?rb ?c ?a] =>
    pose proof (rebinding_legible _ (reconnect_rebinding rb c a)) as Hl;
    destruct (reconnectWithBackoff rb c a) as [r dials]; simpl in Hl end.
  apply good_andThen.
  - destruct Hf as [He Hc]. split; [by split|]. simpl. repeat apply Forall_app_2; [..|exact Hl].
    + unfold when. case_match; legibles.
    + destruct (b_endpointConn b); legibles.
  - intros b1 Hb1. destruct r; [by apply good_swap_in|].
    apply good_andThen; [|auto with bridge]. split; [exact Hb1|legibles].
Qed.

#[export] Hint Resolve good_handleEndpointDown : bridge.

Lemma record_close_fits close c :
  close_fits close -> conn_fits c -> conn_fits (record_close close <$> c).
Proof.
  destruct c as [c|]; [|done]. unfold record_close. simpl.
  destruct close as [[code text]|]; simpl; intros H1 H2; [|exact H2].
  destruct (code =? 0)%Z; done.
Qed.

Lemma good_recovered cfg b : conns_fit b -> good (recovered cfg b).
Proof.
  intros Hf. unfold recovered.
  destruct (good_shutdown cfg (wrap_text ErrBridgeConnectionFailed "bridge panic") b Hf)
    as [H1 H2]; [auto with bridge|].
  destruct (shutdown cfg _ b) as [b' out]; simpl in *.
  split; [exact H1|]. apply legible_cons; [exact I|exact H2].
Qed.

#[export] Hint Resolve good_recovered : bridge.

Lemma good_quiet b out : conns_fit b -> Forall legible out -> good (b, out).
Proof. by split. Qed.

Ltac quiet := apply good_quiet; [assumption|unfold when; try case_match; legibles].

Lemma good_handleClientMessage cfg now processed werr b :
  conns_fit b -> good (handleClientMessage cfg now processed werr b).
Proof.
  intros Hf. unfold handleClientMessage.
  assert (Hf' : conns_fit (set_clocks b (b_lastEndpointDataAt b) now)) by exact Hf.
  destruct processed as [data|err]; [|auto with bridge].
  destruct (b_endpointConn _); [|auto with bridge].
  destruct werr; [auto with bridge|quiet].
Qed.

Lemma good_handleEndpointMessage cfg now processed observed full werr b :
  conns_fit b -> good (handleEndpointMessage cfg now processed observed full werr b).
Proof.
  intros Hf. unfold handleEndpointMessage. apply good_andThen.
  - assert (Hf' : conns_fit (set_counters (set_clocks b now (b_lastClientDataAt b)) 0
                               (b_consecutiveSessionRebinds b))) by exact Hf.
    destruct processed as [[data|]|err]; [|quiet|auto with bridge].
    destruct (b_clientConn _); [|auto with bridge].
    destruct werr; [auto with bridge|quiet].
  - intros b1 H1. destruct observed; quiet.
Qed.

Lemma good_checkEndpointStaleness cfg now subscribed rb b :
  conns_fit b -> good (checkEndpointStaleness cfg now subscribed rb b).
Proof.
  intros Hf. unfold checkEndpointStaleness.
  destruct (c_reconnector cfg); [|quiet].
  destruct (negb subscribed); [quiet|]. destruct (_ <? _)%Z; [quiet|].
  destruct (_ >=? _)%Z; apply good_andThen; auto with bridge;
    apply good_emit; try exact Hf; legibles.
Qed.

Lemma good_checkIdleConnection cfg now subscribed b :
  conns_fit b -> good (checkIdleConnection cfg now subscribed b).
Proof.
  intros Hf. unfold checkIdleConnection.
  destruct (c_reconnector cfg); [|quiet]. destruct subscribed; [quiet|].
  destruct (_ <? _)%Z; [quiet|].
  apply good_andThen; [quiet|auto with bridge].
Qed.

Lemma good_checkBoundSessionExpiry cfg expired rb b :
  conns_fit b -> good (checkBoundSessionExpiry cfg expired rb b).
Proof.
  intros Hf. unfold checkBoundSessionExpiry.
  destruct (negb (implements _ _)); [quiet|].
  destruct (negb expired); [quiet|]. destruct (_ >=? _)%Z; [quiet|].
  apply good_andThen; [quiet|auto with bridge].
Qed.

#[export] Hint Resolve good_handleClientMessage good_handleEndpointMessage
  good_checkEndpointStaleness good_checkIdleConnection good_checkBoundSessionExpiry : bridge.

Lemma good_handle cfg ev b : peer_ok ev -> conns_fit b -> good (handle cfg ev b).
Proof.
  intros Hp Hf. destruct ev; cbn [handle]; auto with bridge; try quiet.
  - (* EvClientGone *)
    destruct Hf as [He Hc]. apply good_quiet; [|legibles].
    split; simpl; [exact He|by apply record_close_fits].
  - (* EvEndpointGone *)
    apply good_quiet; [|legibles]. unfold endpoint_disconnect, endpointDisconnectFunc.
    destruct Hf as [He Hc].
    destruct (c_reconnector cfg), (gen =? b_endpointGen b)%Z; simpl;
      try destruct (b_endpointDown b); split; simpl; auto using record_close_fits.
  - (* EvTumble *)
    apply good_quiet; [|legibles]. unfold Tumble.
    destruct (c_reconnector cfg), (b_tumble b); exact Hf.
  - unfold Close; auto with bridge.
  - apply good_quiet; [|legibles]. split; simpl; apply Nat.leb_le; reflexivity.
  - destruct (b_endpointDown b); [|quiet]. by apply good_handleEndpointDown.
  - unfold handleAdminTumble. destruct (c_reconnector cfg); [|quiet].
    by apply good_handleEndpointDown.
  - destruct (good_shutdown cfg (sentinel_err ErrBridgeContextCanceled) b Hf) as [H1 H2];
      [auto with bridge|].
    destruct (shutdown cfg _ b); by apply good_quiet.
Qed.

Lemma reaches_good cfg history b :
  reaches cfg history b -> Forall (fun s => peer_ok (fst s)) history ->
  conns_fit b /\ Forall (fun s => Forall legible (snd s)) history.
Proof.
  induction 1 as [|history b ev b' out Hr IH Hen Hh].
  - intros _. split; [by split|constructor].
  - intros Hp. apply Forall_cons in Hp as [Hev Hp]. destruct (IH Hp) as [Hf Hl].
    destruct (good_handle cfg ev b Hev Hf) as [H1 H2]. rewrite Hh in H1, H2.
    split; [exact H1|]. by constructor.
Qed.

(** C17: every close frame a bridge sends in any run is legible to its receiver: no status
    code that is reserved for internal use goes on the wire, the endpoint is never sent a
    code only a server may use towards a client, and the text fits the control frame,
    given that the peers' own close texts fit theirs. *)
Theorem close_frames_legible cfg history b :
  reaches cfg history b ->
  Forall (fun s => peer_ok (fst s)) history ->
  Forall (fun s => Forall legible (snd s)) history.
Proof. intros Hr Hp. by apply (reaches_good cfg history b). Qed.

(** ** Runs reach *)

Lemma run_reaches cfg evs : forall b b' history history0,
  reaches cfg history0 b -> run cfg evs b = Some (b', history) ->
  reaches cfg (rev history ++ history0) b'.
Proof.
  induction evs as [|ev evs IH]; intros b b' history history0 Hr; simpl.
  - intros H; simplify_eq; exact Hr.
  - destruct (enabled cfg ev b) eqn:Hen; [|done].
    destruct (handle cfg ev b) as [b1 out] eqn:Hh.
    destruct (run cfg evs b1) as [[b2 h]|] eqn:Hrun; [|done]. intros H; simplify_eq.
    simpl. rewrite <- app_assoc. simpl. eapply IH; [|exact Hrun].
    by econstructor.
Qed.

Lemma run_reaches_new cfg evs b' history :
  run cfg evs (fst (NewBridge cfg)) = Some (b', history) -> reaches cfg (rev history) b'.
Proof.
  intros H. rewrite <- (app_nil_r (rev history)).
  eapply run_reaches; [apply reaches_new|exact H].
Qed.

(** ** Handlers as sequences of quiet steps and shutdowns *)

Definition quiet_out (o : output) : bool :=
  match o with CloseClient _ _ | ObservationsClosed => false | _ => true end.

Inductive effect (cfg : config) : bridge -> bridge * list output -> Prop :=
| effect_quiet b b' out :
    b_shutdown b' = b_shutdown b -> forallb quiet_out out = true -> effect cfg b (b', out)
| effect_shutdown err b : effect cfg b (shutdown cfg err b)
| effect_seq b r f : effect cfg b r -> effect cfg (fst r) (f (fst r)) -> effect cfg b (r ;> f)
| effect_stop b r : effect cfg b r -> effect cfg b (set_stopped (fst r), snd r)
| effect_panic b r : effect cfg b r -> effect cfg b (fst r, Panic :: snd r)
| effect_from b b0 r : b_shutdown b0 = b_shutdown b -> effect cfg b0 r -> effect cfg b r.

Lemma effect_emit cfg out b : forallb quiet_out out = true -> effect cfg b (emit out b).
Proof. by apply effect_quiet. Qed.

Lemma effect_start cfg b b1 out f :
  b_shutdown b1 = b_shutdown b -> forallb quiet_out out = true ->
  (forall b2, effect cfg b2 (f b2)) -> effect cfg b ((b1, out) ;> f).
Proof. intros H1 H2 H3. apply effect_seq; [by apply effect_quiet|apply H3]. Qed.

#[export] Hint Resolve effect_shutdown effect_emit : bridge.

Lemma forallb_app_true {A} (p : A -> bool) l1 l2 :
  forallb p l1 = true -> forallb p l2 = true -> forallb p (l1 ++ l2)%list = true.
Proof. intros H1 H2. by rewrite forallb_app, H1, H2. Qed.

Lemma rebinding_quiet out : forallb rebinding out = true -> forallb quiet_out out = true.
Proof.
  induction out as [|o out IH]; simpl; [done|].
  intros [H1 H2]%andb_prop. rewrite IH by exact H2. by destruct o.
Qed.

Lemma effect_swap_in cfg rb conn b : effect cfg b (swap_in cfg rb conn b).
Proof.
  unfold swap_in. destruct (rb_frames rb) as [frames|e].
  - pose proof (rebinding_quiet _ (writeReplay_rebinding rb conn frames 0)) as Hw.
    destruct (writeReplayFrames rb conn 0 frames) as [[e|] written]; simpl in Hw.
    + apply effect_start; [done|by apply forallb_app_true|auto with bridge].
    + apply effect_quiet; [done|by apply forallb_app_true].
  - apply effect_start; auto with bridge.
Qed.

Lemma effect_handleEndpointDown cfg rb down b : effect cfg b (handleEndpointDown cfg rb down b).
Proof.
  unfold handleEndpointDown. destruct (negb _); [by apply effect_quiet|].
  destruct (b_cancelled b); [auto with bridge|].
  match goal with |- context [reconnectWithBackoff ?rb ?c ?a] =>
    pose proof (rebinding_quiet _ (reconnect_rebinding rb c a)) as Hl;
    destruct (reconnectWithBackoff rb c a) as [r dials]; simpl in Hl end.
  apply effect_start; [done|..].
  - repeat apply forallb_app_true; [by unfold when; case_match|by case_match|exact Hl].
  - intros b2. destruct r; [apply effect_swap_in|].
    apply effect_start; auto with bridge.
Qed.

#[export] Hint Resolve effect_handleEndpointDown : bridge.

Lemma effect_recovered cfg b : effect cfg b (recovered cfg b).
Proof.
  unfold recovered.
  pose proof (effect_shutdown cfg (wrap_text ErrBridgeConnectionFailed "bridge panic") b) as H.
  destruct (shutdown cfg _ b) as [b' out].
  exact (effect_panic _ _ _ (effect_stop _ _ _ H)).
Qed.

Ltac still := by apply effect_quiet; [|unfold when; try case_match].

Lemma effect_handleEndpointMessage cfg now processed observed full werr b :
  effect cfg b (handleEndpointMessage cfg now processed observed full werr b).
Proof.
  unfold handleEndpointMessage. apply effect_seq.
  - destruct processed as [[data|]|err]; [|still|auto with bridge].
    destruct (b_clientConn _), werr;
      first [still | eapply effect_from; [|apply effect_recovered]; done
                   | eapply effect_from; [|apply effect_shutdown]; done].
  - destruct observed; [unfold sendMessageObservations; still|auto with bridge].
Qed.

Lemma effect_checkEndpointStaleness cfg now subscribed rb b :
  effect cfg b (checkEndpointStaleness cfg now subscribed rb b).
Proof.
  unfold checkEndpointStaleness. destruct (c_reconnector cfg); [|still].
  destruct (negb subscribed); [still|]. destruct (_ <? _)%Z; [still|].
  destruct (_ >=? _)%Z; apply effect_start; auto with bridge.
Qed.

Lemma effect_handle cfg ev b : effect cfg b (handle cfg ev b).
Proof.
  destruct ev; cbn [handle]; try still.
  - apply effect_quiet; [|done]. unfold endpoint_disconnect, endpointDisconnectFunc.
    destruct (c_reconnector cfg), (gen =? b_endpointGen b)%Z; simpl;
      by try destruct (b_endpointDown b).
  - apply effect_quiet; [|done]. unfold Tumble. by destruct (c_reconnector cfg), (b_tumble b).
  - apply effect_shutdown.
  - unfold handleClientMessage. destruct processed as [data|err];
      [destruct (b_endpointConn _), werr|];
      first [still | eapply effect_from; [|apply effect_recovered]; done
                   | eapply effect_from; [|apply effect_shutdown]; done].
  - apply effect_handleEndpointMessage.
  - destruct (b_endpointDown b); [|still].
    by eapply effect_from; [|apply effect_handleEndpointDown].
  - apply effect_checkEndpointStaleness.
  - unfold checkBoundSessionExpiry. destruct (negb (implements _ _)); [still|].
    destruct (negb expired); [still|]. destruct (_ >=? _)%Z; [still|].
    apply effect_start; [done|by unfold when; case_match|auto with bridge].
  - unfold checkIdleConnection. destruct (c_reconnector cfg); [|still].
    destruct subscribed; [still|]. destruct (_ <? _)%Z; [still|].
    apply effect_start; [done|by unfold when; case_match|auto with bridge].
  - unfold handleAdminTumble. destruct (c_reconnector cfg); [|still].
    by eapply effect_from; [|apply effect_handleEndpointDown].
  - pose proof (effect_shutdown cfg (sentinel_err ErrBridgeContextCanceled) b) as H.
    destruct (shutdown cfg _ b) as [b' out]. exact (effect_stop _ _ _ H).
Qed.

(** ** Shutdown happens once *)

Definition count_out (p : output -> bool) (out : list output) : nat :=
  length (List.filter p out).

Definition outputs_total (p : output -> bool) (history : list (event * list output)) : nat :=
  list_sum (map (fun s => count_out p (snd s)) history).

Definition is_obs_closed (o : output) : bool :=
  match o with ObservationsClosed => true | _ => false end.
Definition is_client_close (o : output) : bool :=
  match o with CloseClient _ _ => true | _ => false end.

Lemma count_app p l1 l2 : count_out p (l1 ++ l2)%list = (count_out p l1 + count_out p l2)%nat.
Proof. unfold count_out. by rewrite List.filter_app, length_app. Qed.

Lemma count_none (p q : output -> bool) out :
  (forall o, q o = true -> p o = false) -> forallb q out = true -> count_out p out = 0%nat.
Proof.
  intros Hpq. unfold count_out. induction out as [|o out IH]; simpl; [done|].
  intros [H1 H2]%andb_prop. rewrite (Hpq o H1). by apply IH.
Qed.

(** The closes of an effect are the rise of the once flag. *)
Definition balanced (b : bridge) (r : bridge * list output) : Prop :=
  (Nat.b2n (b_shutdown b) + count_out is_obs_closed (snd r) = Nat.b2n (b_shutdown (fst r)))%nat /\
  (count_out is_client_close (snd r) <= count_out is_obs_closed (snd r))%nat.

Lemma balanced_shutdown cfg err b : balanced b (shutdown cfg err b).
Proof.
  unfold balanced, shutdown, count_out.
  destruct (b_shutdown b) eqn:E; simpl; [rewrite E; simpl; lia|].
  destruct (determineCloseCodeAndMessage b err); simpl.
  unfold when. destruct (implements _ _), (b_clientConn b), (b_endpointConn b); simpl; lia.
Qed.

Lemma effect_balanced cfg b r : effect cfg b r -> balanced b r.
Proof.
  induction 1 as [b b' out Hs Hq|err b|b r f H1 IH1 H2 IH2|b r H1 IH|b r H1 IH|b b0 r Hs H1 IH].
  - unfold balanced; simpl. rewrite Hs.
    rewrite (count_none is_obs_closed quiet_out), (count_none is_client_close quiet_out);
      [lia|by intros []|exact Hq|by intros []|exact Hq].
  - apply balanced_shutdown.
  - unfold balanced in *. rewrite andThen_fst, andThen_snd, !count_app. lia.
  - exact IH.
  - exact IH.
  - unfold balanced in *. by rewrite <- Hs.
Qed.

(** In any run, whatever the order of failures, cancellations and operator requests,
    a bridge tears down at most once: the observation channel is closed exactly once when
    the bridge has shut down and never otherwise, so no double close can panic, and the
    client is sent at most one close frame. *)
Theorem shutdown_happens_once cfg history b :
  reaches cfg history b ->
  outputs_total is_obs_closed history = Nat.b2n (b_shutdown b) /\
  (outputs_total is_client_close history <= 1)%nat.
Proof.
  intros Hr.
  enough (H : outputs_total is_obs_closed history = Nat.b2n (b_shutdown b) /\
              (outputs_total is_client_close history <= outputs_total is_obs_closed history)%nat)
    by (destruct (b_shutdown b); simpl in *; lia).
  induction Hr as [|history b ev b' out Hr IH Hen Hh]; [done|].
  pose proof (effect_balanced cfg b _ (effect_handle cfg ev b)) as [H1 H2].
  rewrite Hh in H1, H2. unfold outputs_total in *. simpl in *. lia.
Qed.

(** ** Stall rebinds *)

Definition is_stall (o : output) : bool :=
  match o with StallDetected false => true | _ => false end.
Definition not_stall (o : output) : bool := negb (is_stall o).

(** A client-facing data frame from the endpoint *)
Definition is_data (ev : event) : bool :=
  match ev with EvEndpointMessage _ (Ok (Some _)) _ _ _ => true | _ => false end.

(** Stall-triggered rebinds since the last data frame; the latest step comes first. *)
Fixpoint stalls_since_data (history : list (event * list output)) : nat :=
  match history with
  | [] => 0
  | (ev, out) :: rest =>
      if is_data ev then 0 else (count_out is_stall out + stalls_since_data rest)%nat
  end.

Definition calm (b : bridge) (r : bridge * list output) : Prop :=
  b_consecutiveStallRebinds (fst r) = b_consecutiveStallRebinds b /\
  count_out is_stall (snd r) = 0%nat.

Lemma calm_shutdown cfg err b : calm b (shutdown cfg err b).
Proof.
  unfold calm, shutdown. destruct (b_shutdown b); [done|].
  destruct (determineCloseCodeAndMessage b err).
  by unfold when; destruct (implements _ _), (b_clientConn b), (b_endpointConn b).
Qed.

Lemma calm_seq b r f : calm b r -> (forall b', calm b' (f b')) -> calm b (r ;> f).
Proof.
  intros [H1 H2] Hf. destruct (Hf (fst r)) as [H3 H4]. unfold calm.
  rewrite andThen_fst, andThen_snd, count_app, H2, H4, H3. done.
Qed.

Lemma rebinding_calm out : forallb rebinding out = true -> count_out is_stall out = 0%nat.
Proof. apply count_none. by intros []. Qed.

#[export] Hint Resolve calm_shutdown : bridge.

Lemma calm_swap_in cfg rb conn b : calm b (swap_in cfg rb conn b).
Proof.
  unfold swap_in. destruct (rb_frames rb) as [frames|e].
  - pose proof (rebinding_calm _ (writeReplay_rebinding rb conn frames 0)) as Hw.
    destruct (writeReplayFrames rb conn 0 frames) as [[e|] written]; simpl in Hw.
    + apply calm_seq; [|auto with bridge]. by split; simpl; rewrite ?count_app, ?Hw.
    + by split; simpl; rewrite ?count_app, ?Hw.
  - apply calm_seq; [done|auto with bridge].
Qed.

Lemma calm_handleEndpointDown cfg rb down b : calm b (handleEndpointDown cfg rb down b).
Proof.
  unfold handleEndpointDown. destruct (negb _); [done|].
  destruct (b_cancelled b); [auto with bridge|].
  match goal with |- context [reconnectWithBackoff ?rb ?c ?a] =>
    pose proof (rebinding_calm _ (reconnect_rebinding rb c a)) as Hl;
    destruct (reconnectWithBackoff rb c a) as [r dials]; simpl in Hl end.
  apply calm_seq.
  - split; [done|]. simpl. rewrite !count_app, Hl. unfold when. by repeat case_match.
  - intros b2. destruct r; [apply calm_swap_in|].
    apply calm_seq; [done|auto with bridge].
Qed.

#[export] Hint Resolve calm_handleEndpointDown : bridge.

Lemma calm_from b b0 r :
  b_consecutiveStallRebinds b0 = b_consecutiveStallRebinds b -> calm b0 r -> calm b r.
Proof. unfold calm. by intros ->. Qed.

Lemma calm_recovered cfg b : calm b (recovered cfg b).
Proof.
  unfold recovered. pose proof (calm_shutdown cfg (wrap_text ErrBridgeConnectionFailed "bridge panic") b) as H.
  by destruct (shutdown cfg _ b).
Qed.

(** What a step does to the stall counter, by kind of event. *)
Lemma step_calm cfg ev b :
  match ev with
  | EvEndpointMessage _ _ _ _ _ | EvStalenessTick _ _ _ => True
  | _ => calm b (handle cfg ev b)
  end.
Proof.
  destruct ev; cbn [handle]; try done.
  - split; [|done]. unfold endpoint_disconnect, endpointDisconnectFunc.
    destruct (c_reconnector cfg), (gen =? b_endpointGen b)%Z; simpl;
      by try destruct (b_endpointDown b).
  - split; [|done]. unfold Tumble. by destruct (c_reconnector cfg), (b_tumble b).
  - apply calm_shutdown.
  - unfold handleClientMessage. destruct processed as [data|err];
      [destruct (b_endpointConn _), werr|];
      first [done | eapply calm_from; [|apply calm_recovered]; done
                  | eapply calm_from; [|apply calm_shutdown]; done].
  - destruct (b_endpointDown b); [|done].
    by eapply calm_from; [|apply calm_handleEndpointDown].
  - unfold checkBoundSessionExpiry. destruct (negb (implements _ _)); [done|].
    destruct (negb expired); [done|]. destruct (_ >=? _)%Z; [done|].
    apply calm_seq; [by unfold when; case_match|auto with bridge].
  - unfold checkIdleConnection. destruct (c_reconnector cfg); [|done].
    destruct subscribed; [done|]. destruct (_ <? _)%Z; [done|].
    apply calm_seq; [by unfold when; case_match|auto with bridge].
  - unfold handleAdminTumble. destruct (c_reconnector cfg); [|done].
    by eapply calm_from; [|apply calm_handleEndpointDown].
  - pose proof (calm_shutdown cfg (sentinel_err ErrBridgeContextCanceled) b) as H.
    by destruct (shutdown cfg _ b).
Qed.

(** A data frame resets the counter; any other message leaves it. *)
Lemma message_counter cfg now processed observed full werr b :
  let r := handleEndpointMessage cfg now processed observed full werr b in
  match processed with
  | Ok (Some _) => b_consecutiveStallRebinds (fst r) = 0
  | _ => calm b r
  end.
Proof.
  unfold handleEndpointMessage.
  assert (Hobs : forall b', calm b' ((if observed then sendMessageObservations full else emit []) b'))
    by (intros b'; by destruct observed).
  destruct processed as [[data|]|err].
  - rewrite andThen_fst. rewrite (proj1 (Hobs _)).
    set (b1 := set_counters _ _ _).
    assert (H0 : b_consecutiveStallRebinds b1 = 0) by reflexivity.
    destruct (b_clientConn b1), werr; try exact H0;
      rewrite (proj1 (calm_shutdown _ _ _)) || rewrite (proj1 (calm_recovered _ _)); exact H0.
  - by apply calm_seq.
  - apply calm_seq; auto with bridge.
Qed.

(** A staleness tick raises the counter with each rebind it forces, up to the cap. *)
Lemma tick_counter cfg now subscribed rb b :
  (b_consecutiveStallRebinds b <= 3)%Z ->
  let r := checkEndpointStaleness cfg now subscribed rb b in
  (b_consecutiveStallRebinds (fst r) <= 3)%Z /\
  (b_consecutiveStallRebinds (fst r) =
   b_consecutiveStallRebinds b + Z.of_nat (count_out is_stall (snd r)))%Z.
Proof.
  intros Hle. unfold checkEndpointStaleness, maxConsecutiveStallRebinds.
  assert (Hskip : let r := (b, []) in (b_consecutiveStallRebinds (fst r) <= 3)%Z /\
    (b_consecutiveStallRebinds (fst r) =
     b_consecutiveStallRebinds b + Z.of_nat (count_out is_stall (snd r)))%Z)
    by (unfold count_out; simpl; lia).
  destruct (c_reconnector cfg); [|exact Hskip].
  destruct (negb subscribed); [exact Hskip|]. destruct (_ <? _)%Z; [exact Hskip|].
  destruct (Z.geb_spec (b_consecutiveStallRebinds b) 3) as [Hge|Hlt].
  - set (f := shutdown cfg _). pose proof (fun b' => calm_shutdown cfg
      (wrap_text ErrBridgeEndpointUnavailable "endpoint silent after repeated stall rebinds") b') as Hf.
    fold f in Hf. cbv zeta. rewrite andThen_fst, andThen_snd, count_app.
    destruct (Hf b) as [H1 H2]. simpl fst. rewrite H1, H2. simpl. lia.
  - cbv zeta. set (b1 := set_clocks _ _ _). set (down := mkDown _ _).
    rewrite andThen_fst, andThen_snd, count_app.
    destruct (calm_handleEndpointDown cfg rb down b1) as [H1 H2]. simpl fst.
    rewrite H1, H2. assert (b_consecutiveStallRebinds b1 = (b_consecutiveStallRebinds b + 1)%Z)
      as -> by reflexivity. unfold count_out; simpl. lia.
Qed.

(** The staleness watchdog cannot churn through suppliers for ever: in any run, the
    rebinds it has forced since the endpoint last delivered a frame for the client are
    exactly what the bridge has counted, and they are at most three. *)
Theorem stall_rebinds_bounded cfg history b :
  reaches cfg history b ->
  Z.of_nat (stalls_since_data history) = b_consecutiveStallRebinds b /\
  (stalls_since_data history <= 3)%nat.
Proof.
  intros Hr.
  enough (H : Z.of_nat (stalls_since_data history) = b_consecutiveStallRebinds b /\
              (b_consecutiveStallRebinds b <= 3)%Z) by lia.
  induction Hr as [|history b ev b' out Hr [IH1 IH2] Hen Hh]; [done|].
  assert (Hcalm : calm b (b', out) -> is_data ev = false ->
    Z.of_nat (stalls_since_data ((ev, out) :: history)) = b_consecutiveStallRebinds b' /\
    (b_consecutiveStallRebinds b' <= 3)%Z).
  { intros [H1 H2] Hd. simpl in *. rewrite Hd, H2, H1. simpl. lia. }
  pose proof (step_calm cfg ev b) as Hs. rewrite Hh in Hs.
  destruct ev; try (apply Hcalm; [exact Hs|reflexivity]); simpl in Hh.
  - pose proof (message_counter cfg now processed observed full werr b) as Hm.
    simpl in Hm. rewrite Hh in Hm.
    destruct processed as [[data|]|err]; [|by apply Hcalm..]. simpl in *. by rewrite Hm.
  - destruct (tick_counter cfg now subscribed rb b IH2) as [H1 H2].
    rewrite Hh in H1, H2. simpl in *. lia.
Qed.
