(* ===== verification/BridgeRebind.v ===== *)
(** * Rebinds, the idle reaper and odd runs of the websocket bridge

    The retry loop of a rebind and what a rebind does to the client; the idle reaper over
    any run; runs of the machine that contradict comments of the code; and concrete
    instances of the theorems of the bridge. *)

From S2P Require Import Prelude Bridge BridgeProps.
From Stdlib Require Import ZArith Lia Bool String.
From stdpp Require Import base strings list.

Open Scope Z_scope.
Open Scope string_scope.

(** ** The retry loop *)

Definition waits (out : list output) : list Duration :=
  omap (fun o => match o with Wait d => Some d | _ => None end) out.

Definition is_dial (o : output) : bool := match o with Dial _ => true | _ => false end.

Definition backoffs : list Duration := (fun ms => ms * millisecond)%Z <$> [250; 500; 1000; 2000]%Z.

Ltac retry_cases :=
  repeat (simpl; match goal with
    | |- context [if rb_cancelled ?rb ?k then _ else _] => destruct (rb_cancelled rb k)
    | |- context [match rb_dial ?rb ?k with _ => _ end] => destruct (rb_dial rb k)
    | |- context [if rb_cancelledInWait ?rb ?k then _ else _] => destruct (rb_cancelledInWait rb k)
    end); simpl.

(** Whatever the reconnector answers, one rebind dials at most five times and waits
    between the dials a prefix of 250 ms, 500 ms, 1 s, 2 s, so the bridge goroutine waits
    at most 3.75 s in all. *)
Theorem reconnect_bounded rb cancelled avoid :
  let out := snd (reconnectWithBackoff rb cancelled avoid) in
  (count_out is_dial out <= 5)%nat /\ waits out `prefix_of` backoffs.
Proof.
  unfold reconnectWithBackoff, reconnectMaxAttempts, backoffs, count_out.
  assert (Hp : forall (l : list Duration) n, take n l `prefix_of` l)
    by (intros l n; exists (drop n l); by rewrite take_drop).
  destruct cancelled; simpl; [split; [lia|apply prefix_nil]|].
  retry_cases; (split; [lia|]);
    first [exact (Hp _ 0%nat) | exact (Hp _ 1%nat) | exact (Hp _ 2%nat) | exact (Hp _ 3%nat)
          | exact (Hp _ 4%nat)].
Qed.

(** The attempts before [k] fail and the context lives: attempt [k] is made. *)
Definition reaches_attempt (rb : rebind) (k : nat) : Prop :=
  rb_cancelled rb k = false /\
  forall j, (j < k)%nat ->
    rb_cancelled rb j = false /\ is_ok (rb_dial rb j) = false /\ rb_cancelledInWait rb j = false.

Lemma reconnect_loop_first rb avoid conn k : forall n i backoff e,
  (k < n)%nat ->
  rb_cancelled rb (i + k) = false ->
  (forall j, (i <= j < i + k)%nat ->
     rb_cancelled rb j = false /\ is_ok (rb_dial rb j) = false /\ rb_cancelledInWait rb j = false) ->
  rb_dial rb (i + k) = Ok conn ->
  fst (reconnect_loop rb false avoid n i backoff e) = Ok conn.
Proof.
  induction k as [|k IH]; intros n i backoff e Hn Hc Hj Hd;
    destruct n as [|n]; [lia| |lia|]; simpl.
  - rewrite Nat.add_0_r in Hc, Hd. by rewrite Hc, Hd.
  - destruct (Hj i) as (H1 & H2 & H3); [lia|]. rewrite H1.
    destruct (rb_dial rb i); [discriminate H2|]. destruct n as [|n]; [lia|]. rewrite H3.
    specialize (IH (S n) (S i)
      (if (2 * backoff >? reconnectMaxBackoff)%Z then reconnectMaxBackoff else (2 * backoff)%Z) e0).
    destruct (reconnect_loop _ _ _ _ _ _ _) as [r out]. apply IH.
    + lia.
    + by rewrite Nat.add_succ_comm.
    + intros j Hj'. apply Hj; lia.
    + by rewrite Nat.add_succ_comm.
Qed.

Lemma reconnect_first rb avoid conn k :
  (k < 5)%nat -> reaches_attempt rb k -> rb_dial rb k = Ok conn ->
  fst (reconnectWithBackoff rb false avoid) = Ok conn.
Proof.
  intros Hk [Hc Hj] Hd. apply (reconnect_loop_first rb avoid conn k); try done.
  intros j Hj'. apply Hj; lia.
Qed.

(** ** A rebind that succeeds *)

Definition replays (conn : nat) (out : list output) : list string :=
  omap (fun o => match o with Replay s f => if Nat.eqb s conn then Some f else None | _ => None end) out.

Lemma replay_all rb conn frames : forall i,
  (forall j, rb_write rb j = None) ->
  writeReplayFrames rb conn i frames = (None, Replay conn <$> frames).
Proof.
  induction frames as [|f fs IH]; intros i Hw; simpl; [done|]. by rewrite Hw, IH.
Qed.

Lemma replays_app conn l1 l2 : replays conn (l1 ++ l2)%list = (replays conn l1 ++ replays conn l2)%list.
Proof. apply omap_app. Qed.

Lemma replays_frames conn frames : replays conn (Replay conn <$> frames) = frames.
Proof.
  induction frames as [|f fs IH]; [done|].
  unfold replays in *. simpl. rewrite Nat.eqb_refl. f_equal. exact IH.
Qed.

Lemma replays_loop rb c avoid conn n : forall k backoff e,
  replays conn (snd (reconnect_loop rb c avoid n k backoff e)) = [].
Proof.
  induction n as [|n IH]; intros k backoff e; simpl; [done|].
  destruct (c || rb_cancelled rb k)%bool; [done|].
  destruct (rb_dial rb k); [done|]. destruct n as [|n']; [done|].
  destruct (rb_cancelledInWait rb k); [done|].
  match goal with |- context [reconnect_loop ?a ?b ?c ?d ?e ?f ?g] =>
    specialize (IH e f g); destruct (reconnect_loop a b c d e f g) end.
  exact IH.
Qed.

Lemma client_close_quiet out : forallb quiet_out out = true -> count_out is_client_close out = 0%nat.
Proof. apply count_none. by intros []. Qed.

(** When one of the five attempts of a rebind reaches a supplier and the subscription
    frames are built and written, the client keeps its connection and its clock: it is sent
    no close frame, the endpoint connection is the new one under the next generation, and
    exactly the replay frames were written to it, in order. *)
Theorem rebind_keeps_client cfg rb down b conn k frames :
  down_gen down = b_endpointGen b ->
  b_cancelled b = false ->
  (k < 5)%nat -> reaches_attempt rb k -> rb_dial rb k = Ok conn ->
  rb_frames rb = Ok frames -> (forall j, rb_write rb j = None) ->
  let r := handleEndpointDown cfg rb down b in
  b_shutdown (fst r) = b_shutdown b /\
  b_clientConn (fst r) = b_clientConn b /\
  b_lastClientDataAt (fst r) = b_lastClientDataAt b /\
  b_endpointConn (fst r) = Some (mkConn conn 0 "") /\
  b_endpointGen (fst r) = (b_endpointGen b + 1)%Z /\
  count_out is_client_close (snd r) = 0%nat /\
  replays conn (snd r) = frames.
Proof.
  intros Hgen Hctx Hk Hat Hd Hf Hw. unfold handleEndpointDown.
  rewrite Hgen, Z.eqb_refl, Hctx. cbv zeta. simpl negb. cbv iota.
  match goal with |- context [reconnectWithBackoff rb false ?a] =>
    pose proof (reconnect_first rb a conn k Hk Hat Hd) as Hr;
    pose proof (rebinding_quiet _ (reconnect_rebinding rb false a)) as Hq;
    pose proof (replays_loop rb false a conn 5 0 reconnectBaseBackoff context_canceled) as Hrep;
    change (reconnect_loop rb false a 5 0 reconnectBaseBackoff context_canceled)
      with (reconnectWithBackoff rb false a) in Hrep;
    destruct (reconnectWithBackoff rb false a) as [r dials] end.
  simpl in Hr, Hq, Hrep. subst r.
  unfold swap_in. rewrite Hf, (replay_all rb conn frames 0 Hw). cbv zeta iota beta.
  unfold andThen. cbv beta iota. simpl fst. simpl snd.
  split_and!; try reflexivity.
  - rewrite !count_app, (client_close_quiet _ Hq), (client_close_quiet (_ <$> frames)).
    + unfold when. by repeat case_match.
    + clear. by induction frames.
  - rewrite !replays_app, Hrep, replays_frames. unfold when.
    repeat case_match; by rewrite ?app_nil_r.
Qed.

(** ** The idle reaper *)

(** The time the client last spoke, or connected; the latest step comes first. *)
Fixpoint last_client_activity (history : list (event * list output)) : option Time :=
  match history with
  | [] => None
  | (EvClientMessage now _ _, _) :: _ => Some now
  | (EvStart _ _ now, _) :: _ => Some now
  | _ :: rest => last_client_activity rest
  end.

(** The client's clock and the existence of its connection are untouched. *)
Definition same_client (b : bridge) (r : bridge * list output) : Prop :=
  b_lastClientDataAt (fst r) = b_lastClientDataAt b /\ started (fst r) = started b.

Lemma same_client_shutdown cfg err b : same_client b (shutdown cfg err b).
Proof.
  unfold same_client, shutdown. destruct (b_shutdown b); [done|].
  by destruct (determineCloseCodeAndMessage b err).
Qed.

Lemma same_client_seq b r f :
  same_client b r -> (forall b', same_client b' (f b')) -> same_client b (r ;> f).
Proof.
  intros [H1 H2] Hf. destruct (Hf (fst r)) as [H3 H4]. unfold same_client.
  by rewrite andThen_fst, H3, H4.
Qed.

Lemma same_client_from b b0 r :
  b_lastClientDataAt b0 = b_lastClientDataAt b -> started b0 = started b ->
  same_client b0 r -> same_client b r.
Proof. unfold same_client. by intros -> ->. Qed.

#[export] Hint Resolve same_client_shutdown : bridge.

Lemma same_client_down cfg rb down b : same_client b (handleEndpointDown cfg rb down b).
Proof.
  unfold handleEndpointDown. destruct (negb _); [done|].
  destruct (b_cancelled b); [auto with bridge|].
  destruct (reconnectWithBackoff _ _ _) as [[conn|e] dials];
    (apply same_client_seq; [done|]); intros b1.
  - unfold swap_in. destruct (rb_frames rb) as [frames|e];
      [destruct (writeReplayFrames rb conn 0 frames) as [[e|] written]|];
      first [done | apply same_client_seq; [done|auto with bridge]].
  - apply same_client_seq; [done|auto with bridge].
Qed.

#[export] Hint Resolve same_client_down : bridge.

Lemma same_client_recovered cfg b : same_client b (recovered cfg b).
Proof.
  unfold recovered.
  pose proof (same_client_shutdown cfg (wrap_text ErrBridgeConnectionFailed "bridge panic") b) as H.
  by destruct (shutdown cfg _ b).
Qed.

Ltac ends := first
  [ done
  | eapply same_client_from; [| |apply same_client_recovered]; done
  | eapply same_client_from; [| |apply same_client_shutdown]; done
  | eapply same_client_from; [| |apply same_client_down]; done ].

Lemma same_client_step cfg ev b :
  match ev with
  | EvClientMessage _ _ _ | EvStart _ _ _ => True
  | _ => same_client b (handle cfg ev b)
  end.
Proof.
  destruct ev; cbn [handle]; try done.
  - split; [done|]. unfold started. simpl. by destruct (b_clientConn b).
  - unfold endpoint_disconnect, endpointDisconnectFunc.
    destruct (c_reconnector cfg), (gen =? b_endpointGen b)%Z; simpl;
      by try destruct (b_endpointDown b).
  - unfold Tumble. by destruct (c_reconnector cfg), (b_tumble b).
  - apply same_client_shutdown.
  - unfold handleEndpointMessage. apply same_client_seq; [|by intros; destruct observed].
    destruct processed as [[data|]|err]; [destruct (b_clientConn _), werr|..]; ends.
  - destruct (b_endpointDown b); ends.
  - unfold checkEndpointStaleness. destruct (c_reconnector cfg); [|done].
    destruct (negb subscribed); [done|]. destruct (_ <? _)%Z; [done|].
    destruct (_ >=? _)%Z; apply same_client_seq; auto with bridge; done.
  - unfold checkBoundSessionExpiry. destruct (negb (implements _ _)); [done|].
    destruct (negb expired); [done|]. destruct (_ >=? _)%Z; [done|].
    apply same_client_seq; auto with bridge; done.
  - unfold checkIdleConnection. destruct (c_reconnector cfg); [|done].
    destruct subscribed; [done|]. destruct (_ <? _)%Z; [done|].
    apply same_client_seq; auto with bridge; done.
  - unfold handleAdminTumble. destruct (c_reconnector cfg); ends.
  - pose proof (same_client_shutdown cfg (sentinel_err ErrBridgeContextCanceled) b) as H.
    by destruct (shutdown cfg _ b).
Qed.

Lemma client_message_state cfg now processed werr b :
  b_lastClientDataAt (fst (handleClientMessage cfg now processed werr b)) = now.
Proof.
  unfold handleClientMessage. set (b1 := set_clocks _ _ _).
  assert (H0 : b_lastClientDataAt b1 = now) by reflexivity.
  destruct processed as [data|err]; [destruct (b_endpointConn b1), werr|];
    try exact H0;
    first [rewrite (proj1 (same_client_shutdown _ _ _)) | rewrite (proj1 (same_client_recovered _ _))];
    exact H0.
Qed.

Lemma reaches_client_clock cfg history b :
  reaches cfg history b -> started b = true ->
  last_client_activity history = Some (b_lastClientDataAt b).
Proof.
  induction 1 as [|history b ev b' out Hr IH Hen Hh]; [done|].
  intros Hst. pose proof (same_client_step cfg ev b) as Hs. rewrite Hh in Hs.
  destruct ev; try (pose proof (proj1 Hs) as H1; pose proof (proj2 Hs) as H2; simpl in *; rewrite H1; apply IH; congruence);
    simpl in Hh |- *.
  - injection Hh as <- _. done.
  - rewrite <- (client_message_state cfg now processed werr b), Hh. done.
Qed.

(** In any run, the idle check acts only on a connection whose client holds no
    subscription and has neither connected nor sent a frame within the idle threshold; a
    subscriber and an active client are never reaped. *)
Theorem idle_reaper_spares cfg history b now subscribed :
  reaches cfg history b ->
  enabled cfg (EvIdleTick now subscribed) b = true ->
  handle cfg (EvIdleTick now subscribed) b <> (b, []) ->
  subscribed = false /\
  exists t, last_client_activity history = Some t /\
            (c_idleConnectionThreshold cfg <= time_sub now t)%Z.
Proof.
  intros Hr Hen. simpl in Hen |- *. unfold checkIdleConnection.
  destruct (c_reconnector cfg); [|done]. destruct subscribed; [done|].
  destruct (Z.ltb_spec (time_sub now (b_lastClientDataAt b)) (c_idleConnectionThreshold cfg)); [done|].
  intros _. split; [done|]. exists (b_lastClientDataAt b). split; [|lia].
  apply (reaches_client_clock cfg history b Hr).
  unfold looping in Hen. by destruct (started b).
Qed.

(** ** Concrete runs *)

Definition demo_reconnector : reconnector := mkReconnector true true true true true.
Definition demo_config : config :=
  mkBridgeConfig (Some demo_reconnector) default_idleConnectionThreshold.

Definition dial_error : error := mkErr [] "no endpoint available".

(** A rebind in which every dial fails, and one that lands on socket [s] at attempt 1. *)
Definition failing_rebind : rebind :=
  mkRebind (fun _ => false) (fun _ => Err dial_error) (fun _ => false) (Ok []) (fun _ => None) 0.
Definition landing_rebind (s : nat) (at_ : Time) : rebind :=
  mkRebind (fun _ => false) (fun k => if Nat.eqb k 1 then Ok s else Err dial_error)
    (fun _ => false) (Ok ["sub1"; "sub2"]) (fun _ => None) at_.

Definition client_closes (history : list (event * list output)) : list (Z * string) :=
  concat (map (fun s => omap (fun o => match o with CloseClient c t => Some (c, t) | _ => None end)
                          (snd s)) history).

Definition run_new (evs : list event) : option (bridge * list (event * list output)) :=
  run demo_config evs (fst (NewBridge demo_config)).

(** An operator's tumble can close a client: when none of the five dials of the
    requested rebind succeeds, the healthy endpoint has already been given up and the
    client is closed with 1012; so can the check for an expired session. *)
Theorem tumble_can_close_client :
  let start := EvStart 1 2 0 in
  (client_closes ∘ snd <$> run_new [start; EvTumble; EvTumbled second failing_rebind])
    = Some [(1012, "endpoint temporarily unavailable, please reconnect")]%Z /\
  (client_closes ∘ snd <$> run_new [start; EvExpiryTick true failing_rebind])
    = Some [(1012, "endpoint temporarily unavailable, please reconnect")]%Z.
Proof. split; vm_compute; reflexivity. Qed.

(** The signal of a replaced endpoint connection can swallow the disconnect of the
    current one: the socket a tumble closes raises a disconnect of generation 0, it fills
    the channel, the disconnect of generation 1 is dropped, and the bridge ignores the
    stale signal; nothing is queued, and the bridge goes on with a dead endpoint. *)
Theorem stale_signal_masks_disconnect :
  let gone gen := EvEndpointGone gen None (mkErr [] "read: connection reset") in
  exists b,
    (fst <$> run_new [EvStart 1 2 0; EvTumble; EvTumbled second (landing_rebind 7 second);
                      gone 0; gone 1; EvDown (landing_rebind 8 second)]) = Some b /\
    b_endpointGen b = 1 /\ b_endpointConn b = Some (mkConn 7 0 "") /\
    b_endpointDown b = None /\ b_shutdown b = false /\ b_cancelled b = false.
Proof. eexists; split_and!; [vm_compute; reflexivity|reflexivity..]. Qed.

(** A bridge is handed to the registry before its connections exist: when the gateway
    closes it in that window, its one shutdown finds nothing to close, and the two
    connections made afterwards are never closed, although the loop has ended. *)
Theorem early_close_leaks_connections :
  exists b, 
    run_new [EvClose "rollout"; EvStart 1 2 0; EvDone]
    = Some (b, [(EvClose "rollout", [Detached; ObservationsClosed]); (EvStart 1 2 0, []); (EvDone, [])]) /\
    b_stopped b = true /\
    b_clientConn b = Some (mkConn 2 0 "") /\ b_endpointConn b = Some (mkConn 1 0 "").
Proof. eexists; split_and!; [vm_compute; reflexivity|reflexivity..]. Qed.

(** After a rebind has failed the endpoint connection is nil, and a client frame the
    loop takes before it sees the cancelled context panics; the panic is recovered and the
    client is not closed twice. *)
Theorem failed_rebind_then_frame_panics :
  (map snd ∘ snd <$>
     run_new [EvStart 1 2 0; EvTumble; EvTumbled second failing_rebind;
              EvClientMessage second (Ok "frame") None])
  = Some [[]; [];
      [TumbleRequested; CloseEndpoint 1 1000 "rebinding to a new session";
       Dial true; Wait (250 * millisecond); Dial true; Wait (500 * millisecond); Dial true;
       Wait second; Dial true; Wait (2 * second); Dial true;
       ReconnectOutcome false 0 ReconnectStageSelect; Detached;
       CloseClient 1012 "endpoint temporarily unavailable, please reconnect"; ObservationsClosed];
      [Panic]]%list.
Proof. vm_compute; reflexivity. Qed.

(** ** Witnesses *)

(** Three silent minutes: the watchdog rebinds three times, then closes the client. *)
Definition stalled_run : list event :=
  let tick t := EvStalenessTick (t * minute)%Z true (landing_rebind 5 (t * minute)%Z) in
  [EvStart 1 2 0; tick 1; tick 2; tick 3; tick 4]%Z.

Definition run_history (evs : list event) : list (event * list output) :=
  match run_new evs with Some (_, h) => h | None => [] end.
Definition run_state (evs : list event) : bridge :=
  match run_new evs with Some (b, _) => b | None => fst (NewBridge demo_config) end.

Lemma run_history_reaches evs :
  match run_new evs with Some _ => true | None => false end = true ->
  reaches demo_config (rev (run_history evs)) (run_state evs).
Proof.
  unfold run_history, run_state, run_new.
  destruct (run demo_config evs _) as [[b h]|] eqn:E; [|done]. intros _.
  by eapply run_reaches_new.
Qed.

Lemma close_frames_legible_witness :
  Forall (fun s => Forall legible (snd s)) (rev (run_history stalled_run)).
Proof.
  apply (close_frames_legible demo_config _ (run_state stalled_run)).
  - apply run_history_reaches. vm_compute. reflexivity.
  - vm_compute. repeat constructor.
Defined.

Lemma shutdown_happens_once_witness :
  outputs_total is_obs_closed (rev (run_history stalled_run)) = Nat.b2n (b_shutdown (run_state stalled_run)) /\
  (outputs_total is_client_close (rev (run_history stalled_run)) <= 1)%nat /\
  b_shutdown (run_state stalled_run) = true.
Proof.
  destruct (shutdown_happens_once demo_config (rev (run_history stalled_run)) (run_state stalled_run))
    as [H1 H2].
  - apply run_history_reaches. vm_compute. reflexivity.
  - split; [exact H1|]. split; [exact H2|]. vm_compute. reflexivity.
Defined.

Lemma stall_rebinds_bounded_witness :
  stalls_since_data (rev (run_history stalled_run)) = 3%nat /\
  Z.of_nat (stalls_since_data (rev (run_history stalled_run)))
  = b_consecutiveStallRebinds (run_state stalled_run).
Proof.
  split; [vm_compute; reflexivity|].
  apply (stall_rebinds_bounded demo_config (rev (run_history stalled_run)) (run_state stalled_run)).
  apply run_history_reaches. vm_compute. reflexivity.
Defined.

Lemma rebind_keeps_client_witness :
  replays 7 (snd (handleEndpointDown demo_config (landing_rebind 7 second)
                    (mkDown 0 (sentinel_err ErrEndpointStalled)) (run_state [EvStart 1 2 0])))
  = ["sub1"; "sub2"].
Proof.
  apply (rebind_keeps_client demo_config (landing_rebind 7 second)
           (mkDown 0 (sentinel_err ErrEndpointStalled)) (run_state [EvStart 1 2 0]) 7%nat 1%nat
           ["sub1"; "sub2"]); try reflexivity.
  - lia.
  - split; [reflexivity|]. intros j Hj. assert (j = 0%nat) as -> by lia. done.
Defined.

Lemma idle_reaper_spares_witness :
  exists t, last_client_activity
    (rev (run_history [EvStart 1 2 0; EvClientMessage minute (Ok "x") None])) = Some t /\
    (30 * minute <= time_sub (31 * minute) t)%Z.
Proof.
  apply (idle_reaper_spares demo_config
           (rev (run_history [EvStart 1 2 0; EvClientMessage minute (Ok "x") None]))
           (run_state [EvStart 1 2 0; EvClientMessage minute (Ok "x") None])
           (31 * minute)%Z false).
  - apply run_history_reaches. vm_compute. reflexivity.
  - vm_compute. reflexivity.
  - vm_compute. discriminate.
Defined.
