(* ===== verification/PoolGuards.v ===== *)
(** * What keeps a supplier or a domain out of the endpoint pool

    protocol/shannon/supplier_blacklist.go, session_exhaustion.go and
    domain_blocklist.go, with the RPC type names of gateway/rpctype_mapper.go.  Every
    operation takes the instant it runs at. *)

From S2P Require Import Prelude GoStrings Utf8 Domain RepKey RPCTypes.
From Stdlib Require Import ZArith Lia Bool Ascii String.
From stdpp Require Import base gmap strings list.

Open Scope string_scope.
Open Scope Z_scope.

(** ** Supplier blacklist *)

Record blacklistKey := mkBlacklistKey { bk_serviceID : string; bk_supplierAddr : string }.

#[export] Instance blacklistKey_eq_dec : EqDecision blacklistKey.
Proof. solve_decision. Defined.
#[export] Instance blacklistKey_countable : Countable blacklistKey.
Proof.
  apply (inj_countable' (fun k => (bk_serviceID k, bk_supplierAddr k)) (fun '(s, a) => mkBlacklistKey s a)).
  now intros [].
Defined.

Record blacklistEntry := mkBlacklistEntry {
  be_reason : string;
  be_timestamp : Time;
  be_expiresAt : Time;
}.

Record supplierBlacklist := mkBlacklist {
  sb_entries : gmap blacklistKey blacklistEntry;
  sb_defaultTTL : Duration;
}.

Definition defaultBlacklistTTL : Duration := 15 * minute.

Definition newSupplierBlacklist : supplierBlacklist := mkBlacklist ∅ defaultBlacklistTTL.

Definition Blacklist (sb : supplierBlacklist) (now : Time) (serviceID supplierAddr reason : string) : supplierBlacklist :=
  mkBlacklist
    (<[mkBlacklistKey serviceID supplierAddr :=
         mkBlacklistEntry reason now (time_add now (sb_defaultTTL sb))]> (sb_entries sb))
    (sb_defaultTTL sb).

Definition expired (now : Time) (e : blacklistEntry) : bool := time_after now (be_expiresAt e).

Definition IsBlacklisted (sb : supplierBlacklist) (now : Time) (serviceID supplierAddr : string) : bool :=
  match sb_entries sb !! mkBlacklistKey serviceID supplierAddr with
  | None => false
  | Some e => negb (expired now e)
  end.

Definition GetBlacklistReason (sb : supplierBlacklist) (now : Time) (serviceID supplierAddr : string) : option string :=
  match sb_entries sb !! mkBlacklistKey serviceID supplierAddr with
  | None => None
  | Some e => if expired now e then None else Some (be_reason e)
  end.

Definition blacklist_Cleanup (sb : supplierBlacklist) (now : Time) : supplierBlacklist :=
  mkBlacklist (filter (fun '(_, e) => expired now e = false) (sb_entries sb)) (sb_defaultTTL sb).

Definition blacklist_Count (sb : supplierBlacklist) (now : Time) : nat :=
  size (filter (fun '(_, e) => expired now e = false) (sb_entries sb)).

Definition ClearForService (sb : supplierBlacklist) (serviceID : string) : supplierBlacklist :=
  mkBlacklist (filter (fun '(k, _) => bk_serviceID k <> serviceID) (sb_entries sb)) (sb_defaultTTL sb).

Definition Unblacklist (sb : supplierBlacklist) (serviceID supplierAddr : string) : bool * supplierBlacklist :=
  let key := mkBlacklistKey serviceID supplierAddr in
  match sb_entries sb !! key with
  | Some _ => (true, mkBlacklist (delete key (sb_entries sb)) (sb_defaultTTL sb))
  | None => (false, sb)
  end.

(** ** Session exhaustion *)

Definition sessionExhaustionTTL : Duration := 30 * minute.
Definition sessionExhaustionEvictThreshold : nat := 1024.

Record sessionExhaustionKey := mkExhaustionKey { ek_ServiceID : string; ek_SessionID : string; ek_Supplier : string }.

#[export] Instance sessionExhaustionKey_eq_dec : EqDecision sessionExhaustionKey.
Proof. solve_decision. Defined.
#[export] Instance sessionExhaustionKey_countable : Countable sessionExhaustionKey.
Proof.
  apply (inj_countable' (fun k => (ek_ServiceID k, ek_SessionID k, ek_Supplier k))
           (fun '(a, b, c) => mkExhaustionKey a b c)).
  now intros [].
Defined.

Record sessionExhaustionTracker := mkTracker {
  et_entries : gmap sessionExhaustionKey Time;
  et_markCount : Z;                                   (** uint64 *)
}.

Definition newSessionExhaustionTracker : sessionExhaustionTracker := mkTracker ∅ 0.

Definition any_empty (l : list string) : bool := existsb (fun s => (s =? "")%string) l.

Definition reapLocked (now : Time) (m : gmap sessionExhaustionKey Time) : gmap sessionExhaustionKey Time :=
  let cutoff := time_add now (- sessionExhaustionTTL) in
  filter (fun '(_, v) => time_before v cutoff = false) m.

(** A nil tracker is [None]; time.Now is read once per call of Mark here, since its two
    readings under one lock only order the reap after the mark. *)
Definition Mark (t : option sessionExhaustionTracker) (now : Time) (serviceID sessionID supplier : string)
  : option sessionExhaustionTracker :=
  match t with
  | None => None
  | Some t =>
      Some (if any_empty [serviceID; sessionID; supplier] then t
            else
              let entries := <[mkExhaustionKey serviceID sessionID supplier := now]> (et_entries t) in
              let count := wrapu64 (et_markCount t + 1) in
              mkTracker (if (sessionExhaustionEvictThreshold <? size entries)%nat && (count mod 64 =? 0)
                         then reapLocked now entries else entries) count)
  end.

Definition IsExhausted (t : option sessionExhaustionTracker) (now : Time) (serviceID sessionID supplier : string)
  : bool * option sessionExhaustionTracker :=
  match t with
  | None => (false, None)
  | Some t =>
      if any_empty [serviceID; sessionID; supplier] then (false, Some t)
      else
        let key := mkExhaustionKey serviceID sessionID supplier in
        match et_entries t !! key with
        | None => (false, Some t)
        | Some markedAt =>
            if time_sub now markedAt <=? sessionExhaustionTTL then (true, Some t)
            else (false, Some (mkTracker (delete key (et_entries t)) (et_markCount t)))
        end
  end.

(** ** RPC type names *)

Definition RPCTypeStringJSONRPC : string := "json_rpc".
Definition RPCTypeStringREST : string := "rest".
Definition RPCTypeStringCometBFT : string := "comet_bft".
Definition RPCTypeStringWebSocket : string := "websocket".
Definition RPCTypeStringGRPC : string := "grpc".

(** sharedtypes.GetRPCTypeFromConfig of the poktroll module; [None] is its error. *)
Class RPCTypeConfig := { GetRPCTypeFromConfig : string -> option Z }.

(** It knows the upper-case names of the five types. *)
Class RPCTypeConfigLaws `{RPCTypeMembers} `{RPCTypeConfig} : Prop := {
  config_json : GetRPCTypeFromConfig "JSON_RPC" = Some RPCType_JSON_RPC;
  config_rest : GetRPCTypeFromConfig "REST" = Some RPCType_REST;
  config_comet : GetRPCTypeFromConfig "COMET_BFT" = Some RPCType_COMET_BFT;
  config_websocket : GetRPCTypeFromConfig "WEBSOCKET" = Some RPCType_WEBSOCKET;
  config_grpc : GetRPCTypeFromConfig "GRPC" = Some RPCType_GRPC;
}.

Inductive rpc_type_error := EmptyRPCType | UnknownRPCType (s : string).

Definition GetAllValidRPCTypeStrings : list string :=
  [RPCTypeStringJSONRPC; RPCTypeStringREST; RPCTypeStringCometBFT; RPCTypeStringWebSocket; RPCTypeStringGRPC].

Definition GetHTTPBasedRPCTypeStrings : list string :=
  [RPCTypeStringJSONRPC; RPCTypeStringREST; RPCTypeStringCometBFT].

Definition IsHTTPBasedRPCType (rpcTypeStr : string) : bool :=
  let s := to_lower rpcTypeStr in
  (s =? RPCTypeStringJSONRPC)%string || (s =? RPCTypeStringREST)%string || (s =? RPCTypeStringCometBFT)%string.

(** ** Domain blocklist *)

Record BlockedDomainConfig := mkBlockedDomain { bd_Domain : string; bd_RPCTypes : list string }.

(** [None] for a domain bans every RPC type. *)
Abbreviation blocked_map := (gmap string (option (gset Z))).

Inductive blocklist_error := EmptyBlockedDomain | BadBlockedType (domain : string) (e : rpc_type_error).

Section Types.
Context `{RPCTypeMembers} `{RPCTypeConfig}.

Definition ParseRPCType (configStr : string) : result rpc_type_error Z :=
  if (configStr =? "")%string then Err EmptyRPCType
  else match GetRPCTypeFromConfig (to_upper configStr) with
       | None => Err (UnknownRPCType configStr)
       | Some t => if t =? RPCType_UNKNOWN_RPC then Err (UnknownRPCType configStr) else Ok t
       end.

Definition ValidateRPCTypeString (str : string) : option rpc_type_error :=
  match ParseRPCType str with Ok _ => None | Err e => Some e end.

Definition FormatRPCType (t : Z) : string :=
  if t =? RPCType_JSON_RPC then RPCTypeStringJSONRPC
  else if t =? RPCType_REST then RPCTypeStringREST
  else if t =? RPCType_COMET_BFT then RPCTypeStringCometBFT
  else if t =? RPCType_WEBSOCKET then RPCTypeStringWebSocket
  else if t =? RPCType_GRPC then RPCTypeStringGRPC
  else "".

Fixpoint parse_types (domain : string) (types : list string) (set : gset Z) : result blocklist_error (gset Z) :=
  match types with
  | [] => Ok set
  | t :: rest =>
      match ParseRPCType (trim_space_u t) with
      | Err e => Err (BadBlockedType domain e)
      | Ok rpcType => parse_types domain rest ({[rpcType]} ∪ set)
      end
  end.

Definition add_entry (blocked : blocked_map) (e : BlockedDomainConfig) : result blocklist_error blocked_map :=
  let domain := to_lower (trim_space_u (bd_Domain e)) in
  if (domain =? "")%string then Err EmptyBlockedDomain
  else
    let existing := blocked !! domain in
    match bd_RPCTypes e with
    | [] => Ok (<[domain := None]> blocked)
    | types =>
        match existing with
        | Some None => Ok blocked
        | _ =>
            match parse_types domain types (match existing with Some (Some set) => set | _ => ∅ end) with
            | Err e => Err e
            | Ok set => Ok (<[domain := Some set]> blocked)
            end
        end
    end.

Fixpoint add_entries (blocked : blocked_map) (entries : list BlockedDomainConfig) : result blocklist_error blocked_map :=
  match entries with
  | [] => Ok blocked
  | e :: rest => match add_entry blocked e with Err err => Err err | Ok b => add_entries b rest end
  end.

(** The matcher; nil for an empty list. *)
Definition newDomainBlocklist (entries : list BlockedDomainConfig) : result blocklist_error (option blocked_map) :=
  match entries with
  | [] => Ok None
  | _ => match add_entries ∅ entries with Err e => Err e | Ok b => Ok (Some b) end
  end.

End Types.

Section Matching.
Context `{DomainLib}.

(** Malformed pieces are kept as they are. *)
Definition parse_piece (piece : string) : BlockedDomainConfig :=
  let '(domain, typesStr) := match index_byte ":" piece with
                             | Some i => (str_take i piece, Some (str_drop (S i) piece))
                             | None => (piece, None)
                             end in
  mkBlockedDomain (trim_space_u domain)
    match typesStr with
    | None => []
    | Some ts => List.filter (fun t => negb (t =? "")%string) (map trim_space_u (split_byte "|" ts))
    end.

Definition parseBlockedDomainsEnv (raw : string) : list BlockedDomainConfig :=
  let raw := trim_space_u raw in
  if (raw =? "")%string then []
  else map parse_piece
         (List.filter (fun p => negb (p =? "")%string) (map trim_space_u (split_byte "," raw))).

(** [None]: no match. *)
Definition computeMatchKey (b : blocked_map) (rawURL : string) : option string :=
  let by_domain :=
    match extractDomainOrHost rawURL with
    | Err _ => None
    | Ok domain => let domain := to_lower domain in
                   if bool_decide (is_Some (b !! domain)) then Some domain else None
    end in
  match url_hostname rawURL with
  | None => by_domain
  | Some h =>
      let host := to_lower h in
      if negb (host =? "")%string && bool_decide (is_Some (b !! host)) then Some host else by_domain
  end.

(** The memo and its entry counter. *)
Record decision_cache := mkDecisionCache {
  dec_entries : gmap string (option string);
  dec_count : Z;
}.

Definition maxDomainDecisionCacheEntries : Z := Z.shiftl 1 16.

Definition matchKey (b : blocked_map) (c : decision_cache) (rawURL : string) : option string * decision_cache :=
  match dec_entries c !! rawURL with
  | Some key => (key, c)
  | None =>
      let key := computeMatchKey b rawURL in
      (key, if dec_count c <? maxDomainDecisionCacheEntries
            then mkDecisionCache (<[rawURL := key]> (dec_entries c)) (dec_count c + 1) else c)
  end.

Definition banned_by (b : blocked_map) (key : option string) (rpcType : Z) : bool :=
  match key with
  | None => false
  | Some k => match b !! k with
              | Some (Some set) => bool_decide (rpcType ∈ set)
              | _ => true
              end
  end.

(** The decision without the memo; a nil blocklist is [None]. *)
Definition IsBlocked (b : option blocked_map) (rawURL : string) (rpcType : Z) : bool :=
  match b with
  | None => false
  | Some b => if (rawURL =? "")%string then false else banned_by b (computeMatchKey b rawURL) rpcType
  end.

Definition IsBlocked_memo (b : option blocked_map) (c : decision_cache) (rawURL : string) (rpcType : Z)
  : bool * decision_cache :=
  match b with
  | None => (false, c)
  | Some m =>
      if (rawURL =? "")%string then (false, c)
      else let '(key, c) := matchKey m c rawURL in (banned_by m key rpcType, c)
  end.

Definition decisions_ok (b : blocked_map) (c : decision_cache) : Prop :=
  forall url key, dec_entries c !! url = Some key -> key = computeMatchKey b url.

(** The memo changes no decision. *)
Lemma blocked_memo_transparent b c rawURL rpcType :
  (forall m, b = Some m -> decisions_ok m c) ->
  fst (IsBlocked_memo b c rawURL rpcType) = IsBlocked b rawURL rpcType /\
  (forall m, b = Some m -> decisions_ok m (snd (IsBlocked_memo b c rawURL rpcType))).
Proof.
  intros Hok. unfold IsBlocked_memo, IsBlocked. destruct b as [m|]; [|split; [reflexivity|discriminate]].
  specialize (Hok m eq_refl). destruct (rawURL =? "")%string.
  { split; [reflexivity|]. intros m' E; injection E as <-. exact Hok. }
  unfold matchKey. destruct (dec_entries c !! rawURL) as [key|] eqn:Ec; cbn [fst snd].
  - rewrite (Hok _ _ Ec). split; [reflexivity|]. intros m' E; injection E as <-. exact Hok.
  - split; [reflexivity|]. intros m' E; injection E as <-.
    destruct (_ <? _); [|exact Hok]. intros url key. cbn [dec_entries].
    destruct (decide (url = rawURL)) as [->|Hne].
    + rewrite lookup_insert_eq. congruence.
    + rewrite lookup_insert_ne by congruence. apply Hok.
Qed.
End Matching.
