(* ===== verification/PoolGuardsProps.v ===== *)
(** * The blacklist, the exhaustion tracker and the domain blocklist against their contracts

    The two timed sets refine a history: what they answer is what the last relevant
    operation says, whatever cleaning and lazy reaping went on in between.  The blocklist
    only ever widens the ban of a domain; yet a more specific entry can lift one. *)

From S2P Require Import Prelude GoStrings Utf8 Domain RepKey RPCTypes PoolGuards.
From Stdlib Require Import ZArith Lia Bool Ascii String.
From stdpp Require Import base gmap strings list.

Open Scope string_scope.
Open Scope Z_scope.

(** ** Supplier blacklist *)

Inductive blacklist_op :=
| OpBlacklist (now : Time) (serviceID supplierAddr reason : string)
| OpUnblacklist (serviceID supplierAddr : string)
| OpClear (serviceID : string)
| OpCleanup (now : Time).

Definition blacklist_step (op : blacklist_op) (sb : supplierBlacklist) : supplierBlacklist :=
  match op with
  | OpBlacklist now s a r => Blacklist sb now s a r
  | OpUnblacklist s a => snd (Unblacklist sb s a)
  | OpClear s => ClearForService sb s
  | OpCleanup now => blacklist_Cleanup sb now
  end.

(** The state after a history, latest operation first. *)
Fixpoint blacklist_after (history : list blacklist_op) : supplierBlacklist :=
  match history with
  | [] => newSupplierBlacklist
  | op :: rest => blacklist_step op (blacklist_after rest)
  end.

(** When and why the supplier was last blacklisted, unless it was released since. *)
Fixpoint standing (history : list blacklist_op) (s a : string) : option (Time * string) :=
  match history with
  | [] => None
  | OpBlacklist t s' a' r :: rest =>
      if (s' =? s)%string && (a' =? a)%string then Some (t, r) else standing rest s a
  | OpUnblacklist s' a' :: rest =>
      if (s' =? s)%string && (a' =? a)%string then None else standing rest s a
  | OpClear s' :: rest => if (s' =? s)%string then None else standing rest s a
  | OpCleanup _ :: rest => standing rest s a
  end.

(** Operations run before [now]. *)
Definition op_before (now : Time) (op : blacklist_op) : Prop :=
  match op with OpBlacklist t _ _ _ | OpCleanup t => t <= now | _ => True end.

Lemma key_eqb s a s' a' :
  (s' =? s)%string && (a' =? a)%string = bool_decide (mkBlacklistKey s' a' = mkBlacklistKey s a).
Proof.
  destruct (String.eqb_spec s' s) as [->|Hs]; [destruct (String.eqb_spec a' a) as [->|Ha]|]; cbn.
  - symmetry. by apply bool_decide_eq_true_2.
  - symmetry. apply bool_decide_eq_false_2. congruence.
  - symmetry. apply bool_decide_eq_false_2. congruence.
Qed.

Lemma blacklist_ttl history : sb_defaultTTL (blacklist_after history) = defaultBlacklistTTL.
Proof.
  induction history as [|[] history IH]; cbn; try exact IH; [reflexivity|].
  unfold Unblacklist. by destruct (_ !! _).
Qed.

(** Entries are the standing blacklistings, except expired ones a cleanup has dropped. *)
Lemma blacklist_entry now history s a :
  Forall (op_before now) history ->
  let live t := t + defaultBlacklistTTL in
  match sb_entries (blacklist_after history) !! mkBlacklistKey s a with
  | Some e => exists t r, standing history s a = Some (t, r) /\ be_expiresAt e = live t /\ be_reason e = r
  | None => forall t r, standing history s a = Some (t, r) -> live t < now
  end.
Proof.
  cbv zeta. induction history as [|op history IH]; intros Ht.
  { cbn [blacklist_after newSupplierBlacklist sb_entries standing]. rewrite lookup_empty. discriminate. }
  apply Forall_cons in Ht as [Hop Ht]. specialize (IH Ht).
  destruct op as [t s' a' r|s' a'|s'|t]; cbn [blacklist_after blacklist_step standing].
  - rewrite key_eqb. unfold Blacklist; cbn [sb_entries].
    case_bool_decide as E.
    + rewrite E, lookup_insert_eq. exists t, r. unfold time_add. by rewrite blacklist_ttl.
    + rewrite lookup_insert_ne by exact E. exact IH.
  - rewrite key_eqb. unfold Unblacklist. case_bool_decide as E.
    + destruct (sb_entries _ !! mkBlacklistKey s' a') eqn:El; cbn [snd sb_entries];
        rewrite <- E; [rewrite lookup_delete_eq|rewrite El]; done.
    + destruct (sb_entries _ !! mkBlacklistKey s' a'); cbn [snd sb_entries];
        [rewrite lookup_delete_ne by exact E|]; exact IH.
  - unfold ClearForService; cbn [sb_entries]. destruct (String.eqb_spec s' s) as [->|Hs].
    + rewrite map_lookup_filter_None_2; [done|]. right. intros e _ H. by apply H.
    + assert (Hf : filter (fun '(k, _) => bk_serviceID k <> s') (sb_entries (blacklist_after history))
                    !! mkBlacklistKey s a = sb_entries (blacklist_after history) !! mkBlacklistKey s a).
      { destruct (sb_entries (blacklist_after history) !! mkBlacklistKey s a) as [e|] eqn:El.
        - apply map_lookup_filter_Some. split; [exact El|]. cbn. congruence.
        - apply map_lookup_filter_None. by left. }
      rewrite Hf. exact IH.
  - unfold blacklist_Cleanup; cbn [sb_entries].
    destruct (sb_entries (blacklist_after history) !! mkBlacklistKey s a) as [e|] eqn:El.
    + destruct IH as (t0 & r & Hst & He & Hr). destruct (expired t e) eqn:Ex.
      * rewrite map_lookup_filter_None_2.
        2:{ right. intros e' He' H. rewrite El in He'. injection He' as <-. congruence. }
        intros t1 r1 Hst1. rewrite Hst in Hst1. injection Hst1 as <- <-.
        unfold expired, time_after in Ex. apply Z.ltb_lt in Ex. rewrite He in Ex. cbn in Hop. lia.
      * rewrite (proj2 (map_lookup_filter_Some _ _ _ e)); [eauto|]. by split.
    + rewrite map_lookup_filter_None_2 by (by left). exact IH.
Qed.

(** C16: whatever was blacklisted, released, cleared and cleaned up before, a supplier counts
    as blacklisted exactly when its last blacklisting was not released and is no more than
    15 minutes old, and the reported reason is the one of that blacklisting. *)
Theorem blacklist_refines_history now history s a :
  Forall (op_before now) history ->
  GetBlacklistReason (blacklist_after history) now s a
  = match standing history s a with
    | Some (t, r) => if now <=? t + 15 * minute then Some r else None
    | None => None
    end /\
  IsBlacklisted (blacklist_after history) now s a
  = match standing history s a with Some (t, _) => now <=? t + 15 * minute | None => false end.
Proof.
  intros Ht. pose proof (blacklist_entry now history s a Ht) as He. cbv zeta in He.
  unfold GetBlacklistReason, IsBlacklisted.
  destruct (sb_entries (blacklist_after history) !! mkBlacklistKey s a) as [e|].
  - destruct He as (t & r & -> & He & <-). unfold expired, time_after. rewrite He.
    unfold defaultBlacklistTTL.
    destruct (Z.ltb_spec (t + 15 * minute) now), (Z.leb_spec now (t + 15 * minute)); try lia; done.
  - destruct (standing history s a) as [[t r]|] eqn:Es; [|done].
    specialize (He t r eq_refl). unfold defaultBlacklistTTL in He.
    destruct (Z.leb_spec now (t + 15 * minute)); [lia|done].
Qed.

Lemma blacklist_refines_history_witness :
  IsBlacklisted (blacklist_after
    [OpCleanup (20 * minute); OpBlacklist (10 * minute) "eth" "pokt1a" "signature";
     OpClear "eth"; OpBlacklist 0 "eth" "pokt1a" "pubkey"]) (24 * minute) "eth" "pokt1a" = true.
Proof.
  rewrite (proj2 (blacklist_refines_history (24 * minute)
    [OpCleanup (20 * minute); OpBlacklist (10 * minute) "eth" "pokt1a" "signature";
     OpClear "eth"; OpBlacklist 0 "eth" "pokt1a" "pubkey"] "eth" "pokt1a"
    ltac:(repeat constructor; vm_compute; discriminate))).
  vm_compute. reflexivity.
Defined.

(** ** Session exhaustion *)

Inductive exhaustion_op :=
| OpMark (now : Time) (k : sessionExhaustionKey)
| OpQuery (now : Time) (k : sessionExhaustionKey).      (** reaps an expired entry *)

Definition exhaustion_step (op : exhaustion_op) (t : option sessionExhaustionTracker) : option sessionExhaustionTracker :=
  match op with
  | OpMark now k => Mark t now (ek_ServiceID k) (ek_SessionID k) (ek_Supplier k)
  | OpQuery now k => snd (IsExhausted t now (ek_ServiceID k) (ek_SessionID k) (ek_Supplier k))
  end.

Fixpoint exhaustion_after (history : list exhaustion_op) : option sessionExhaustionTracker :=
  match history with
  | [] => Some newSessionExhaustionTracker
  | op :: rest => exhaustion_step op (exhaustion_after rest)
  end.

Definition valid_key (k : sessionExhaustionKey) : bool :=
  negb (any_empty [ek_ServiceID k; ek_SessionID k; ek_Supplier k]).

(** When the tuple was last marked. *)
Fixpoint last_mark (history : list exhaustion_op) (k : sessionExhaustionKey) : option Time :=
  match history with
  | [] => None
  | OpMark t k' :: rest => if bool_decide (k' = k) then Some t else last_mark rest k
  | OpQuery _ _ :: rest => last_mark rest k
  end.

(** The clock does not run backwards and stays far from the int64 range of durations. *)
Definition op_time (op : exhaustion_op) : Time := match op with OpMark t _ | OpQuery t _ => t end.
Definition in_past (now : Time) (op : exhaustion_op) : Prop := 0 <= op_time op <= now.

Lemma key_eta k : mkExhaustionKey (ek_ServiceID k) (ek_SessionID k) (ek_Supplier k) = k.
Proof. by destruct k. Qed.

Lemma reap_lookup now (m : gmap sessionExhaustionKey Time) k :
  reapLocked now m !! k = v ← m !! k; if v <? now - sessionExhaustionTTL then None else Some v.
Proof.
  unfold reapLocked, time_before, time_add.
  destruct (m !! k) as [v|] eqn:E; cbn [mbind option_bind].
  - change (now + - sessionExhaustionTTL) with (now - sessionExhaustionTTL).
    destruct (v <? now - sessionExhaustionTTL) eqn:Ev.
    + apply map_lookup_filter_None. right. intros v' Hv' Hf. pose proof (eq_trans (eq_sym E) Hv') as Q. injection Q as <-. congruence.
    + apply map_lookup_filter_Some. by split.
  - apply map_lookup_filter_None. by left.
Qed.

Lemma sub_past now t : 0 <= t <= now -> now <= max_int64 -> time_sub now t = now - t.
Proof. intros H1 H2. apply time_sub_exact. unfold in_int64, min_int64. lia. Qed.

(** An entry is the last mark; a missing one was never marked or is past its TTL. *)
Definition tracked (now : Time) (history : list exhaustion_op) (t : option sessionExhaustionTracker) : Prop :=
  exists tr, t = Some tr /\
  forall k, valid_key k = true ->
    match et_entries tr !! k with
    | Some v => last_mark history k = Some v
    | None => forall v, last_mark history k = Some v -> v + sessionExhaustionTTL < now
    end.

Lemma tracked_mark now t k history tr :
  in_past now (OpMark t k) -> tracked now history (Some tr) ->
  tracked now (OpMark t k :: history) (Mark (Some tr) t (ek_ServiceID k) (ek_SessionID k) (ek_Supplier k)).
Proof.
  intros Hpast (tr' & Etr & IH). injection Etr as <-. unfold Mark. rewrite key_eta.
  destruct (any_empty [ek_ServiceID k; ek_SessionID k; ek_Supplier k]) eqn:Ev.
  - exists tr. split; [done|]. intros k0 Hk0. cbn [last_mark].
    rewrite bool_decide_eq_false_2; [by apply IH|]. intros <-. unfold valid_key in Hk0. by rewrite Ev in Hk0.
  - eexists. split; [reflexivity|]. intros k0 Hk0. cbn [et_entries last_mark].
    assert (Hins : match <[k := t]> (et_entries tr) !! k0 with
                   | Some v => (if bool_decide (k = k0) then Some t else last_mark history k0) = Some v
                   | None => forall v, (if bool_decide (k = k0) then Some t else last_mark history k0) = Some v ->
                             v + sessionExhaustionTTL < now
                   end).
    { case_bool_decide as E.
      - rewrite E, lookup_insert_eq. done.
      - rewrite lookup_insert_ne by exact E. by apply IH. }
    destruct (_ && _); [|exact Hins]. rewrite reap_lookup.
    destruct (<[k := t]> (et_entries tr) !! k0) as [v|]; cbn [mbind option_bind]; [|exact Hins].
    destruct (Z.ltb_spec v (t - sessionExhaustionTTL)) as [Hlt|Hge]; [|exact Hins].
    intros v' Hv'. rewrite Hins in Hv'. injection Hv' as <-. unfold in_past in Hpast. cbn [op_time] in Hpast. lia.
Qed.

Lemma tracked_query now t k history tr :
  in_past now (OpQuery t k) -> now <= max_int64 -> Forall (in_past t) history ->
  tracked now history (Some tr) ->
  tracked now (OpQuery t k :: history)
    (snd (IsExhausted (Some tr) t (ek_ServiceID k) (ek_SessionID k) (ek_Supplier k))).
Proof.
  intros Hpast Hmax Hall (tr' & Etr & IH). injection Etr as <-.
  unfold IsExhausted. rewrite key_eta.
  destruct (any_empty _); [by exists tr|]. destruct (et_entries tr !! k) as [m|] eqn:Em; [|by exists tr].
  destruct (Z.leb_spec (time_sub t m) sessionExhaustionTTL) as [Hle|Hgt]; [by exists tr|].
  eexists. split; [reflexivity|]. intros k0 Hk0. cbn [et_entries last_mark].
  destruct (decide (k0 = k)) as [->|Hne].
  - rewrite lookup_delete_eq. intros v Hv. pose proof (IH k Hk0) as Hk. rewrite Em in Hk.
    rewrite Hk in Hv. injection Hv as <-.
    assert (Hm : 0 <= m <= t).
    { clear -Hk Hall. induction Hall as [|op history Hop Hall IH]; [done|]. cbn [last_mark] in Hk.
      destruct op as [t0 k0|t0 k0]; [|auto]. case_bool_decide; [injection Hk as <-; exact Hop|auto]. }
    unfold in_past in Hpast. cbn [op_time] in Hpast. rewrite sub_past in Hgt by lia. lia.
  - rewrite lookup_delete_ne by congruence. by apply IH.
Qed.

(** The operations of the history ran in its order. *)
Fixpoint chronological (now : Time) (history : list exhaustion_op) : Prop :=
  match history with
  | [] => True
  | op :: rest => in_past now op /\ chronological (op_time op) rest
  end.

Lemma chronological_past history : forall now, chronological now history -> Forall (in_past now) history.
Proof.
  induction history as [|op history IH]; intros now; cbn; [constructor|].
  intros [H1 H2]. constructor; [exact H1|].
  eapply Forall_impl; [by apply IH|]. unfold in_past in *. cbn. lia.
Qed.

Lemma tracked_later now now' history t : now <= now' -> tracked now history t -> tracked now' history t.
Proof.
  intros Hle (tr & Ht & H). exists tr. split; [exact Ht|]. intros k Hk. specialize (H k Hk).
  destruct (et_entries tr !! k); [exact H|]. intros v Hv. specialize (H v Hv). lia.
Qed.

Lemma exhaustion_tracked history : forall now,
  now <= max_int64 -> chronological now history -> tracked now history (exhaustion_after history).
Proof.
  induction history as [|op history IH]; intros now Hmax Hc.
  - eexists; split; [reflexivity|]. intros k _. cbn. rewrite lookup_empty. discriminate.
  - destruct Hc as [Hop Hc]. assert (Hle : op_time op <= now) by (unfold in_past in Hop; lia).
    pose proof (IH (op_time op) ltac:(lia) Hc) as Hi. apply (tracked_later _ now) in Hi; [|exact Hle].
    cbn [exhaustion_after exhaustion_step].
    destruct (exhaustion_after history) as [tr|] eqn:Etr; [|by destruct Hi as (? & ? & _)].
    destruct op as [t k|t k]; cbn [op_time] in *.
    + by apply tracked_mark.
    + apply tracked_query; auto. by apply chronological_past.
Qed.

(** A supplier counts as exhausted in a session exactly when it was marked within the last
    30 minutes, whatever was marked, asked and reaped in between: reaping never forgets a live
    mark, and no mark outlives its TTL. *)
Theorem exhaustion_refines_history now history k :
  now <= max_int64 -> chronological now history -> valid_key k = true ->
  fst (IsExhausted (exhaustion_after history) now (ek_ServiceID k) (ek_SessionID k) (ek_Supplier k))
  = match last_mark history k with Some t => now - t <=? 30 * minute | None => false end.
Proof.
  intros Hmax Hc Hk. destruct (exhaustion_tracked history now Hmax Hc) as (tr & -> & H).
  specialize (H k Hk). unfold IsExhausted. rewrite key_eta.
  unfold valid_key in Hk. destruct (any_empty _); [discriminate Hk|].
  assert (Hpast : forall v, last_mark history k = Some v -> 0 <= v <= now).
  { clear -Hc. apply chronological_past in Hc. induction Hc as [|op history Hop Hall IH]; [done|].
    intros v. cbn [last_mark]. destruct op as [t0 k0|t0 k0]; [|auto].
    case_bool_decide; [|auto]. intros [= <-]. exact Hop. }
  destruct (et_entries tr !! k) as [v|] eqn:E.
  - rewrite H. specialize (Hpast v H). rewrite sub_past by lia. unfold sessionExhaustionTTL.
    by destruct (now - v <=? 30 * minute).
  - destruct (last_mark history k) as [v|]; [|done].
    specialize (H v eq_refl). unfold sessionExhaustionTTL in H. cbn.
    destruct (Z.leb_spec (now - v) (30 * minute)); [lia|done].
Qed.

Definition demo_tuple : sessionExhaustionKey := mkExhaustionKey "eth" "session1" "pokt1a".
Definition demo_history : list exhaustion_op :=
  [OpQuery (35 * minute) demo_tuple; OpMark (10 * minute) demo_tuple; OpQuery minute demo_tuple].

Lemma exhaustion_refines_history_witness :
  fst (IsExhausted (exhaustion_after demo_history) (41 * minute)
         (ek_ServiceID demo_tuple) (ek_SessionID demo_tuple) (ek_Supplier demo_tuple))
  = match last_mark demo_history demo_tuple with Some t => 41 * minute - t <=? 30 * minute | None => false end.
Proof.
  apply (exhaustion_refines_history (41 * minute) demo_history demo_tuple).
  - vm_compute. discriminate.
  - cbn. unfold in_past, minute, second. cbn. lia.
  - reflexivity.
Defined.

(** ** RPC type names *)

(** Decides every comparison of two members of the enumeration in the goal. *)
Ltac rpc_compare :=
  repeat first [ rewrite Z.eqb_refl
    | match goal with |- context [?a =? ?b] =>
        rewrite (proj2 (Z.eqb_neq a b)) by
          (let i := rpc_index a in let j := rpc_index b in rpc_ne i j)
      end ].

(** The five types survive being written in a configuration and read back. *)
Lemma rpc_type_roundtrip `{RPCTypeDistinct} `{RPCTypeConfig} `{!RPCTypeConfigLaws} t :
  t ∈ [RPCType_JSON_RPC; RPCType_REST; RPCType_COMET_BFT; RPCType_WEBSOCKET; RPCType_GRPC] ->
  ParseRPCType (FormatRPCType t) = Ok t /\ FormatRPCType t ∈ GetAllValidRPCTypeStrings.
Proof.
  intros Ht. unfold FormatRPCType, ParseRPCType.
  repeat (apply elem_of_cons in Ht as [->|Ht]); [..|by apply elem_of_nil in Ht]; rpc_compare;
    rewrite ?config_json, ?config_rest, ?config_comet, ?config_websocket, ?config_grpc; rpc_compare;
    (split; [done|repeat constructor]).
Qed.

(** ** Domain blocklist *)

(** A ban covers another: everything, or more types. *)
Definition covers (wide narrow : option (gset Z)) : Prop :=
  match wide, narrow with
  | None, _ => True
  | Some w, Some n => n ⊆ w
  | Some _, None => False
  end.

#[export] Instance covers_preorder : PreOrder covers.
Proof.
  split.
  - intros [s|]; cbn; [set_solver|done].
  - intros [a|] [b|] [c|]; cbn; set_solver.
Qed.

Definition widens (b b' : blocked_map) : Prop :=
  forall domain ban, b !! domain = Some ban -> exists ban', b' !! domain = Some ban' /\ covers ban' ban.

#[export] Instance widens_preorder : PreOrder widens.
Proof.
  split.
  - intros b d ban Hd. exists ban. split; [exact Hd|reflexivity].
  - intros b1 b2 b3 H12 H23 d ban Hd. destruct (H12 d ban Hd) as (ban2 & H2 & C2).
    destruct (H23 d ban2 H2) as (ban3 & H3 & C3). exists ban3. split; [exact H3|]. by transitivity ban2.
Qed.

Lemma widens_insert (b : blocked_map) domain ban :
  (forall old, b !! domain = Some old -> covers ban old) -> widens b (<[domain := ban]> b).
Proof.
  intros Hold d old Hd. destruct (decide (d = domain)) as [->|Hne].
  - exists ban. rewrite lookup_insert_eq. auto.
  - exists old. rewrite lookup_insert_ne by congruence. split; [exact Hd|reflexivity].
Qed.

Section Widening.
Context `{RPCTypeMembers} `{RPCTypeConfig}.

Lemma parse_types_grows domain types : forall set set',
  parse_types domain types set = Ok set' -> set ⊆ set'.
Proof.
  induction types as [|t types IH]; intros set set'; cbn; [intros [= <-]; set_solver|].
  destruct (ParseRPCType (trim_space_u t)) as [r|e]; [|done]. intros Hp. apply IH in Hp. set_solver.
Qed.

Lemma add_entry_widens b e b' : add_entry b e = Ok b' -> widens b b'.
Proof.
  unfold add_entry. set (domain := to_lower _). destruct (domain =? "")%string; [discriminate|].
  destruct (bd_RPCTypes e) as [|t ts].
  { intros [= <-]. apply widens_insert. by intros []. }
  destruct (b !! domain) as [[set|]|] eqn:Eb.
  - destruct (parse_types _ _ _) as [set'|] eqn:Ep; [|discriminate]. intros [= <-].
    apply widens_insert. rewrite Eb. intros old [= <-]. cbn. by apply parse_types_grows in Ep.
  - intros [= <-]. reflexivity.
  - destruct (parse_types _ _ _); [|discriminate]. intros [= <-].
    apply widens_insert. rewrite Eb. discriminate.
Qed.

Lemma add_entries_widens entries : forall b b', add_entries b entries = Ok b' -> widens b b'.
Proof.
  induction entries as [|e es IH]; intros b b'; cbn; [intros [= <-]; reflexivity|].
  destruct (add_entry b e) as [b1|] eqn:E; [|discriminate]. intros Hb.
  transitivity b1; [by apply (add_entry_widens b e)|by apply IH].
Qed.

Lemma add_entries_app es1 es2 : forall b,
  add_entries b (es1 ++ es2) = match add_entries b es1 with Ok b1 => add_entries b1 es2 | Err e => Err e end.
Proof. induction es1 as [|e es IH]; intros b; cbn; [done|]. destruct (add_entry b e); [apply IH|done]. Qed.

(** Entries added to a configuration, as those of the environment variable are, never
    narrow the ban of a domain that has one. *)
Lemma blocklist_entries_widen config env b b' :
  newDomainBlocklist config = Ok (Some b) ->
  newDomainBlocklist (config ++ env) = Ok (Some b') -> widens b b'.
Proof.
  unfold newDomainBlocklist. destruct config as [|e es]; [discriminate|].
  change ((e :: es) ++ env)%list with (e :: (es ++ env))%list.
  change (add_entries ∅ (e :: (es ++ env)%list)) with (add_entries ∅ ((e :: es) ++ env)%list).
  rewrite add_entries_app. destruct (add_entries ∅ (e :: es)) as [b0|]; [|discriminate].
  intros [= <-]. destruct (add_entries b0 env) as [b1|] eqn:E; [|discriminate]. intros [= <-].
  by apply (add_entries_widens env).
Qed.

(** An endpoint whose host is not itself an entry is banned through its domain, and stays
    so under every widening that adds no entry for the host. *)
Lemma blocked_stays `{DomainLib} (b b' : blocked_map) rawURL rpcType :
  widens b b' ->
  (forall h, url_hostname rawURL = Some h -> b !! to_lower h = None -> b' !! to_lower h = None) ->
  IsBlocked (Some b) rawURL rpcType = true -> IsBlocked (Some b') rawURL rpcType = true.
Proof.
  intros Hw Hhost. unfold IsBlocked. destruct (rawURL =? "")%string; [done|].
  assert (Hb : forall k, is_Some (b !! k) -> is_Some (b' !! k)).
  { intros k [ban Hk]. destruct (Hw k ban Hk) as (? & -> & _). eauto. }
  assert (Hban : forall k, banned_by b (Some k) rpcType = true -> is_Some (b !! k) ->
                           banned_by b' (Some k) rpcType = true).
  { intros k Hk [ban Eb]. cbn in *. rewrite Eb in Hk. destruct (Hw k ban Eb) as (ban' & -> & Hc).
    destruct ban' as [s'|]; [|done]. destruct ban as [s|]; [|done]. cbn in Hc.
    apply bool_decide_eq_true in Hk. apply bool_decide_eq_true_2. set_solver. }
  unfold computeMatchKey.
  assert (Hdom : forall key, match extractDomainOrHost rawURL with
      | Err _ => None
      | Ok domain => if bool_decide (is_Some (b !! to_lower domain)) then Some (to_lower domain) else None
      end = key -> banned_by b key rpcType = true ->
      banned_by b' match extractDomainOrHost rawURL with
      | Err _ => None
      | Ok domain => if bool_decide (is_Some (b' !! to_lower domain)) then Some (to_lower domain) else None
      end rpcType = true).
  { intros key <-. destruct (extractDomainOrHost rawURL) as [d|]; [|done].
    case_bool_decide as E; [|done]. rewrite bool_decide_eq_true_2 by auto. intros Hk. by apply Hban. }
  destruct (url_hostname rawURL) as [h|]; [|by apply Hdom].
  destruct (to_lower h =? "")%string; [by apply Hdom|]. cbn [negb andb].
  case_bool_decide as E.
  - rewrite bool_decide_eq_true_2 by auto. intros Hk. by apply Hban.
  - rewrite bool_decide_eq_false_2; [by apply Hdom|]. rewrite (Hhost h eq_refl); [by intros []|].
    destruct (b !! to_lower h) eqn:Eh; [|done]. destruct E. eauto.
Qed.
End Widening.

(** A concrete library for URLs of the form scheme://host *)
#[local] Instance url_lib : DomainLib := {|
  url_hostname := fun s => match splitn 3 "/" s with [_; _; h] => Some h | _ => None end;
  is_ip := fun _ => false;
  utf8_valid := fun _ => true;
  etld_plus_one := fun h => Some (fallbackDomainExtraction h);
|}.
#[local] Instance config_lib : RPCTypeConfig := {|
  GetRPCTypeFromConfig := fun s =>
    if (s =? "WEBSOCKET")%string then Some RPCType_WEBSOCKET
    else if (s =? "JSON_RPC")%string then Some RPCType_JSON_RPC else None
|}.

(** The environment variable can narrow a ban, although its documentation says it never
    does: a host entry for one RPC type shadows the ban of its whole domain, because the exact
    host is matched first, and the host is then free for every other type. *)
Theorem host_entry_lifts_domain_ban :
  let config := [mkBlockedDomain "evil.example" []] in
  let env := parseBlockedDomainsEnv "node1.evil.example:websocket" in
  let banned entries := match newDomainBlocklist entries with
                        | Ok b => IsBlocked b "https://node1.evil.example" RPCType_JSON_RPC
                        | Err _ => true
                        end in
  banned config = true /\ banned (config ++ env)%list = false.
Proof. split; vm_compute; reflexivity. Qed.
