(* ===== verification/ShannonPool.v ===== *)
(** * The endpoint pool of the Shannon protocol

    protocol/shannon: the endpoints of a session (endpoint.go), the filters they pass
    (endpoint_filters.go, endpoint_policy.go, reputation.go) and the pool a request draws
    from (getSessionsUniqueEndpoints and getUniqueEndpoints of protocol.go).  Endpoint maps
    are finite maps; a filter that deletes in place returns the filtered map.  The
    reputation service is the one of RepService.v.  The caches whose presence changes no
    answer (the memos of URLs) are left out; the cache of session endpoints and the
    probation state of the selectors are part of the state. *)

From S2P Require Import Prelude GoStrings Float64 Domain RepKey Signals Score RepConfig RepStorage RepService TieredSelector RPCTypes PoolGuards.
From Stdlib Require Import ZArith Lia Bool Ascii String.
From stdpp Require Import base list gmap strings.

Open Scope string_scope.
Open Scope Z_scope.

(** ** Endpoints *)

Record session := mkSession {
  ss_SessionId : string;
  ss_StartHeight : Z;
  ss_App : string;
}.

(** One endpoint of either kind; a fallback endpoint has no session of its own. *)
Record endpoint := mkEndpoint {
  ep_fallback : bool;
  ep_supplier : string;
  ep_rpcTypeURLs : gmap Z string;
  ep_defaultURL : string;
  ep_session : session;
}.

Abbreviation endpoints := (gmap EndpointAddr endpoint).

Definition fallbackSupplierString : string := "fallback".
Definition empty_session : session := mkSession "" 0 "".

Definition fallbackEndpoint (defaultURL : string) (urls : gmap Z string) : endpoint :=
  mkEndpoint true fallbackSupplierString urls defaultURL empty_session.

Definition endpoint_Addr (e : endpoint) : EndpointAddr := ep_supplier e +:+ "-" +:+ ep_defaultURL e.

Definition PublicURL (e : endpoint) : string := if ep_fallback e then "" else ep_defaultURL e.

Section Pool.
Context `{RPCTypeMembers} `{RPCTypeEnum} `{DomainLib}.

Definition endpoint_GetURL (e : endpoint) (rpcType : Z) : string :=
  if rpcType =? RPCType_UNKNOWN_RPC then ep_defaultURL e
  else match ep_rpcTypeURLs e !! rpcType with
       | Some url => url
       | None => if ep_fallback e then ep_defaultURL e else ""
       end.

(** What the filters look at: the URL of the type, else the public one. *)
Definition filter_url (e : endpoint) (rpcType : Z) : string :=
  let url := endpoint_GetURL e rpcType in
  if (url =? "")%string then PublicURL e else url.

(** The endpoints the SDK's session filter lists: a group per supplier, an entry
    (supplier, type, URL) per service; never an empty group. *)
Definition sdk_group := list (string * Z * string).

Definition add_rpc_url (e : endpoint) (x : string * Z * string) : endpoint :=
  let '(_, rpcType, url) := x in
  if rpcType =? RPCType_UNKNOWN_RPC then e
  else mkEndpoint (ep_fallback e) (ep_supplier e) (<[rpcType := url]> (ep_rpcTypeURLs e))
         (if (ep_defaultURL e =? "")%string then url else ep_defaultURL e) (ep_session e).

Definition group_endpoint (s : session) (g : sdk_group) : endpoint :=
  let supplier := match g with (supplier, _, _) :: _ => supplier | [] => "" end in
  fold_left add_rpc_url g (mkEndpoint false supplier ∅ "" s).

Definition endpointsFromSession (s : session) (groups : list sdk_group) : endpoints :=
  fold_left (fun m g => let e := group_endpoint s g in <[endpoint_Addr e := e]> m) groups ∅.

(** ** Filters *)

Definition removeBlockedSuppliers (eps : endpoints) (blockedSuppliers : list string) : endpoints :=
  filter (fun '(_, e) => ep_supplier e ∉ blockedSuppliers) eps.

Definition removeBlockedDomains (eps : endpoints) (blocklist : option blocked_map) (rpcType : Z) : endpoints :=
  filter (fun '(_, e) => IsBlocked blocklist (filter_url e rpcType) rpcType = false) eps.

(** The supplier prefix of an address; an address that starts with a dash is kept whole. *)
Definition addr_supplier (addr : EndpointAddr) : string :=
  match index_byte "-" addr with
  | Some i => if (0 <? i)%nat then str_take i addr else addr
  | None => addr
  end.

Definition retainAllowedSuppliers (eps : endpoints) (allowed : list string) (requested : EndpointAddr) : endpoints :=
  filter (fun '(addr, _) => addr_supplier addr ∈ allowed \/ addr = requested) eps.

Definition removeBlacklistedSuppliers (eps : endpoints) (requested : EndpointAddr) (isBlacklisted : string -> bool)
  : endpoints :=
  filter (fun '(addr, e) => isBlacklisted (ep_supplier e) = false \/ addr = requested) eps.

(** When every endpoint is exhausted none is removed. *)
Definition filterExhaustedSuppliers (eps : endpoints) (requested : EndpointAddr) (isExhausted : endpoint -> bool)
  : endpoints :=
  let kept := filter (fun '(addr, e) => isExhausted e = false \/ addr = requested) eps in
  if bool_decide (kept = ∅) then eps else kept.

Definition isSecureURL (rawURL : string) : bool := has_prefix "https://" rawURL || has_prefix "wss://" rawURL.

Definition computeIsRawIP (rawURL : string) : bool :=
  match url_hostname rawURL with
  | None => false
  | Some host => if (host =? "")%string then false else is_ip host
  end.

Record EndpointPolicy := mkPolicy { pol_RequireHTTPS : bool; pol_RequireDomain : bool }.

Definition policy_accepts (pol : EndpointPolicy) (url : string) : bool :=
  (negb (pol_RequireHTTPS pol) || isSecureURL url) && (negb (pol_RequireDomain pol) || negb (computeIsRawIP url)).

Definition filterByEndpointPolicy (pol : EndpointPolicy) (eps : endpoints) (rpcType : Z) : endpoints :=
  if negb (pol_RequireHTTPS pol) && negb (pol_RequireDomain pol) then eps
  else filter (fun '(_, e) => policy_accepts pol (filter_url e rpcType) = true) eps.

(** The endpoints of a session that have a URL for the type. *)
Definition supports (rpcType : Z) (e : endpoint) : bool := negb (endpoint_GetURL e rpcType =? "")%string.

(** ** Reputation *)

Section Reputation.
Context {St : Type} `{!Storage St}.

(** An endpoint with its reputation key, as cached by filterByReputation. *)
Record addrKey := mkAddrKey { ak_addr : EndpointAddr; ak_ep : endpoint; ak_key : EndpointKey }.

Definition with_keys (rep : service St) (serviceID : string) (eps : endpoints) (rpcType : Z) : list addrKey :=
  map (fun '(addr, e) => mkAddrKey addr e (BuildKey (KeyBuilderForService rep serviceID) serviceID addr rpcType))
      (map_to_list eps).

Definition is_drained (rep : service St) (now : Time) (serviceID : string) (rpcType : Z) (ak : addrKey) : bool :=
  match extractDomainOrHost (endpoint_GetURL (ak_ep ak) rpcType) with
  | Ok domain => IsDomainDrained rep now serviceID domain (to_lower (rpc_String rpcType))
  | Err _ => false
  end.

(** A drain yields when it would empty the pool. *)
Definition drop_drained (rep : service St) (now : Time) (serviceID : string) (rpcType : Z) (cached : list addrKey)
  : list addrKey :=
  let kept := List.filter (fun ak => negb (is_drained rep now serviceID rpcType ak)) cached in
  match kept with [] => cached | _ => kept end.

(** The score of the same endpoint over HTTP disqualifies it for WebSocket. *)
Definition below_http_floor (now : Time) (minThreshold : float64) (requested : EndpointAddr)
  (httpScores : option (gmap EndpointKey Score)) (httpKey : EndpointKey) (ak : addrKey) : bool :=
  match httpScores with
  | None => false
  | Some scores =>
      negb (ak_addr ak =? requested)%string &&
      match scores !! httpKey with
      | Some hs => IsInCooldown hs now || fltb (sc_Value hs) minThreshold
      | None => false
      end
  end.

Definition qualifies (now : Time) (minThreshold : float64) (requested : EndpointAddr)
  (scores : gmap EndpointKey Score) (ak : addrKey) : bool :=
  match scores !! ak_key ak with
  | None => true
  | Some score =>
      if IsInCooldown score now then (ak_addr ak =? requested)%string
      else fgeb (sc_Value score) minThreshold || (ak_addr ak =? requested)%string
  end.

Definition score_of (scores : gmap EndpointKey Score) (ak : addrKey) : float64 :=
  match scores !! ak_key ak with Some sc => sc_Value sc | None => InitialScore end.

Definition f_nano : float64 := f64_frac 1 1000000000.

(** The endpoints at the maximum score. *)
Definition least_bad (scores : gmap EndpointKey Score) (cached : list addrKey) : list addrKey :=
  match cached with
  | [] => []
  | first :: rest =>
      let maxScore := fold_left (fun m ak => if fgtb (score_of scores ak) m then score_of scores ak else m)
                        rest (score_of scores first) in
      List.filter (fun ak => fgeb (score_of scores ak) (fsub maxScore f_nano)) cached
  end.

Definition to_endpoints (l : list addrKey) : endpoints := list_to_map (map (fun ak => (ak_addr ak, ak_ep ak)) l).

Definition filterByReputation (rep : service St) (now : Time) (minThreshold : float64) (httpFloor : bool)
  (serviceID : string) (eps : endpoints) (rpcType : Z) (requested : EndpointAddr) : endpoints :=
  let cached := with_keys rep serviceID eps rpcType in
  let scores := GetScores rep (map ak_key cached) in
  let http_key ak := BuildKey (KeyBuilderForService rep serviceID) serviceID (ak_addr ak) RPCType_JSON_RPC in
  let httpScores := if (rpcType =? RPCType_WEBSOCKET) && httpFloor
                    then Some (GetScores rep (map http_key cached)) else None in
  let cached := drop_drained rep now serviceID rpcType cached in
  let kept := List.filter (fun ak => negb (below_http_floor now minThreshold requested httpScores (http_key ak) ak)
                                     && qualifies now minThreshold requested scores ak) cached in
  to_endpoints match kept with [] => least_bad scores cached | _ => kept end.

(** New endpoints get the initial score; one entry per key. *)
Definition endpointScoresForKeys (rep : service St) (keys : list EndpointKey) : gmap EndpointKey float64 :=
  let scores := GetScores rep keys in
  fold_left (fun m key => <[key := match scores !! key with Some sc => sc_Value sc | None => InitialScore end]> m)
    keys ∅.

(** The endpoints whose key belongs to one of the selected keys. *)
Definition endpoints_of (cached : list addrKey) (selected : list EndpointKey) : list addrKey :=
  List.filter (fun ak => existsb (fun k => (key_EndpointAddr k =? key_EndpointAddr (ak_key ak))%string) selected) cached.

(** A requested endpoint outside the result is added when it reaches the threshold. *)
Definition include_requested (sel : TieredSelector) (scores : gmap EndpointKey float64) (eps : endpoints)
  (requestedKey : EndpointKey) (requested : EndpointAddr) (result : endpoints) : endpoints :=
  if (requested =? "")%string then result
  else match result !! requested, eps !! requested, scores !! requestedKey with
       | None, Some e, Some score => if fgeb score (tsel_minThreshold sel) then <[requested := e]> result else result
       | _, _, _ => result
       end.

Definition best_tier (sel : TieredSelector) (scores : gmap EndpointKey float64) : list EndpointKey :=
  let '(tier1, tier2, tier3) := GroupByTier sel (map_to_list scores) in
  match tier1, tier2 with
  | _ :: _, _ => tier1
  | [], _ :: _ => tier2
  | [], [] => tier3
  end.

(** The selector's probation state is updated; [d] draws whether to route to probation. *)
Definition filterToHighestTier (sel : option TieredSelector) (d : draw) (rep : service St) (serviceID : string)
  (eps : endpoints) (rpcType : Z) (requested : EndpointAddr) : endpoints * option TieredSelector :=
  match sel with
  | None => (eps, None)
  | Some sel =>
      if bool_decide (eps = ∅) then (eps, Some sel)
      else
        let cached := with_keys rep serviceID eps rpcType in
        let scores := endpointScoresForKeys rep (map ak_key cached) in
        let requestedKey := BuildKey (KeyBuilderForService rep serviceID) serviceID requested rpcType in
        let '(probation, sel) := UpdateProbationStatus sel (map_to_list scores) in
        let tier := best_tier sel scores in
        let pick := match probation with
                    | _ :: _ => if ShouldRouteToProbation sel d then (probation ++ tier)%list else tier
                    | [] => tier
                    end in
        (match tier, pick with
         | [], [] => ∅
         | _, _ => include_requested sel scores eps requestedKey requested (to_endpoints (endpoints_of cached pick))
         end, Some sel)
  end.

(** ** The protocol *)

(** The parts of a service's configuration the pool depends on. *)
Record svc_settings := mkSvcSettings {
  st_ID : string;
  st_BlockedSuppliers : list string;
  st_RPCTypeFallbacks : gmap string string;
  st_WebsocketHTTPScoreFloor : bool;
}.

Record shannon := mkShannon {
  sp_services : option (list svc_settings);          (** unifiedServicesConfig *)
  sp_reputation : option (service St);
  sp_tieredSelector : option TieredSelector;
  sp_serviceTieredSelectors : gmap string TieredSelector;
  sp_blockedDomains : option blocked_map;
  sp_policy : EndpointPolicy;
  sp_blacklist : option supplierBlacklist;
  sp_exhaustion : option sessionExhaustionTracker;
  sp_loadTestingSupplier : string;                   (** empty: no load testing *)
  sp_fallbacks : gmap string (endpoints * bool);     (** with SendAllTraffic *)
}.

Definition DefaultWebsocketHTTPScoreFloor : bool := true.

Definition service_settings (p : shannon) (serviceID : string) : option svc_settings :=
  services ← sp_services p; List.find (fun s => (st_ID s =? serviceID)%string) services.

Definition getBlockedSuppliers (p : shannon) (serviceID : string) : list string :=
  match service_settings p serviceID with Some s => st_BlockedSuppliers s | None => [] end.

Definition applyWebsocketHTTPScoreFloor (p : shannon) (serviceID : string) : bool :=
  match service_settings p serviceID with
  | Some s => st_WebsocketHTTPScoreFloor s
  | None => DefaultWebsocketHTTPScoreFloor
  end.

Definition getRPCTypeFallback (p : shannon) (serviceID : string) (requested : Z) : option Z :=
  s ← service_settings p serviceID;
  name ← (let exact := rpc_String requested in
          match st_RPCTypeFallbacks s !! exact with
          | Some n => Some n
          | None => st_RPCTypeFallbacks s !! to_lower exact
          end);
  let t := rpc_value (to_upper name) in
  if t =? RPCType_UNKNOWN_RPC then None else Some t.

Definition getTieredSelectorForService (p : shannon) (serviceID : string) : option TieredSelector :=
  match sp_serviceTieredSelectors p !! serviceID with Some s => Some s | None => sp_tieredSelector p end.

Definition getMinThresholdForService (p : shannon) (serviceID : string) : float64 :=
  match getTieredSelectorForService p serviceID with
  | Some s => tsel_minThreshold s
  | None => DefaultMinThreshold
  end.

Definition set_selector (p : shannon) (serviceID : string) (sel : option TieredSelector) : shannon :=
  match sel with
  | None => p
  | Some sel =>
      match sp_serviceTieredSelectors p !! serviceID with
      | Some _ => mkShannon (sp_services p) (sp_reputation p) (sp_tieredSelector p)
                    (<[serviceID := sel]> (sp_serviceTieredSelectors p)) (sp_blockedDomains p) (sp_policy p)
                    (sp_blacklist p) (sp_exhaustion p) (sp_loadTestingSupplier p) (sp_fallbacks p)
      | None => mkShannon (sp_services p) (sp_reputation p) (Some sel)
                    (sp_serviceTieredSelectors p) (sp_blockedDomains p) (sp_policy p)
                    (sp_blacklist p) (sp_exhaustion p) (sp_loadTestingSupplier p) (sp_fallbacks p)
      end
  end.

Definition shouldApplyTieredSelection (p : shannon) (byReputation : bool) (allowed : list string) (rpcType : Z) : bool :=
  byReputation && match allowed with [] => true | _ => false end && negb (rpcType =? RPCType_WEBSOCKET) &&
  match sp_tieredSelector p with Some s => ts_Enabled (tsel_config s) | None => false end.

(** What a lookup asks for. *)
Record lookup_request := mkLookup {
  lr_serviceID : string;
  lr_byReputation : bool;
  lr_rpcType : Z;
  lr_allowed : list string;                          (** Target-Suppliers *)
  lr_requested : EndpointAddr;
}.

Definition effectiveAllowedSuppliers (p : shannon) (r : lookup_request) : list string :=
  match lr_allowed r with
  | [] => if (sp_loadTestingSupplier p =? "")%string then [] else [sp_loadTestingSupplier p]
  | l => l
  end.

(** The RPC type filter of one session: its survivors and the type they serve, [None] when
    the session is skipped.  [actual] is the type in force before this session. *)
Definition filter_rpc_type (p : shannon) (r : lookup_request) (actual : Z) (eps : endpoints) : option (endpoints * Z) :=
  if lr_rpcType r =? RPCType_UNKNOWN_RPC then Some (eps, actual)
  else
    let filtered := filter (fun '(addr, e) => supports (lr_rpcType r) e = true \/ addr = lr_requested r) eps in
    if bool_decide (filtered = ∅) then
      match getRPCTypeFallback p (lr_serviceID r) (lr_rpcType r) with
      | None => None
      | Some t =>
          let fallback := filter (fun '(_, e) => supports t e = true) eps in
          if bool_decide (fallback = ∅) then None else Some (fallback, t)
      end
    else Some (filtered, actual).

Definition is_exhausted (p : shannon) (now : Time) (serviceID : string) (e : endpoint) : bool :=
  fst (IsExhausted (sp_exhaustion p) now serviceID (ss_SessionId (ep_session e)) (ep_supplier e)).

(** The lists and policies no request can override. *)
Definition operator_filters (p : shannon) (r : lookup_request) (actual : Z) (eps : endpoints) : endpoints :=
  filterByEndpointPolicy (sp_policy p)
    (removeBlockedDomains (removeBlockedSuppliers eps (getBlockedSuppliers p (lr_serviceID r)))
       (sp_blockedDomains p) actual)
    (lr_rpcType r).

(** Blacklist and exhaustion, skipped for health checks. *)
Definition supplier_filters (p : shannon) (now : Time) (r : lookup_request) (eps : endpoints) : endpoints :=
  if lr_byReputation r then
    let eps := match sp_blacklist p with
               | Some sb => removeBlacklistedSuppliers eps (lr_requested r) (IsBlacklisted sb now (lr_serviceID r))
               | None => eps
               end in
    match sp_exhaustion p with
    | Some _ => filterExhaustedSuppliers eps (lr_requested r) (is_exhausted p now (lr_serviceID r))
    | None => eps
    end
  else eps.

(** The reputation stage: [None] skips the session. *)
Definition reputation_stage (p : shannon) (now : Time) (r : lookup_request) (eps : endpoints) : option endpoints :=
  match sp_reputation p, effectiveAllowedSuppliers p r with
  | Some rep, [] =>
      if lr_byReputation r then
        let filtered := filterByReputation rep now (getMinThresholdForService p (lr_serviceID r))
                          (applyWebsocketHTTPScoreFloor p (lr_serviceID r)) (lr_serviceID r) eps
                          (lr_rpcType r) (lr_requested r) in
        if negb (bool_decide (filtered = ∅)) then Some filtered
        else if lr_rpcType r =? RPCType_WEBSOCKET then Some eps
        else None
      else Some eps
  | _, _ => Some eps
  end.

(** One session: its endpoints and the type in force after it; [None] skips the session,
    and leaves the type as the RPC type filter set it. *)
Definition session_pool (p : shannon) (now : Time) (r : lookup_request) (actual : Z) (eps : endpoints)
  : option endpoints * Z :=
  match filter_rpc_type p r actual eps with
  | None => (None, actual)
  | Some (eps, actual) =>
      let eps := operator_filters p r actual eps in
      let allowed := effectiveAllowedSuppliers p r in
      let eps := match allowed with [] => eps | _ => retainAllowedSuppliers eps allowed (lr_requested r) end in
      match allowed with
      | _ :: _ =>
          if bool_decide (eps = ∅) then (None, actual)
          else (reputation_stage p now r (supplier_filters p now r eps), actual)
      | [] => (reputation_stage p now r (supplier_filters p now r eps), actual)
      end
  end.

(** maps.Copy over the sessions, in order. *)
Fixpoint sessions_pool (p : shannon) (now : Time) (r : lookup_request) (actual : Z) (acc : endpoints)
  (sessions : list endpoints) : endpoints * Z :=
  match sessions with
  | [] => (acc, actual)
  | eps :: rest =>
      let '(pool, actual) := session_pool p now r actual eps in
      sessions_pool p now r actual (match pool with Some m => m ∪ acc | None => acc end) rest
  end.

(** [None] is the error that no endpoint is available. *)
Definition getSessionsUniqueEndpoints (p : shannon) (now : Time) (d : draw) (r : lookup_request)
  (sessions : list endpoints) : option (endpoints * Z) * shannon :=
  let '(eps, actual) := sessions_pool p now r (lr_rpcType r) ∅ sessions in
  if bool_decide (eps = ∅) then (None, p)
  else
    match sp_reputation p with
    | Some rep =>
        if shouldApplyTieredSelection p (lr_byReputation r) (effectiveAllowedSuppliers p r) (lr_rpcType r) then
          let '(eps, sel) := filterToHighestTier (getTieredSelectorForService p (lr_serviceID r)) d rep
                               (lr_serviceID r) eps (lr_rpcType r) (lr_requested r) in
          (Some (eps, actual), set_selector p (lr_serviceID r) sel)
        else (Some (eps, actual), p)
    | None => (Some (eps, actual), p)
    end.

Definition getServiceFallbackEndpoints (p : shannon) (serviceID : string) : endpoints * bool :=
  default (∅, false) (sp_fallbacks p !! serviceID).

Definition getUniqueEndpoints (p : shannon) (now : Time) (d : draw) (r : lookup_request) (sessions : list endpoints)
  : option (endpoints * Z) * shannon :=
  let '(fallback, sendAll) := getServiceFallbackEndpoints p (lr_serviceID r) in
  let fallback := removeBlockedDomains fallback (sp_blockedDomains p) (lr_rpcType r) in
  if sendAll && negb (bool_decide (fallback = ∅)) then (Some (fallback, lr_rpcType r), p)
  else
    let '(pool, p) := getSessionsUniqueEndpoints p now d r sessions in
    match pool with
    | Some (eps, actual) =>
        if negb (bool_decide (eps = ∅)) then (Some (eps, actual), p)
        else (if bool_decide (fallback = ∅) then None else Some (fallback, lr_rpcType r), p)
    | None => (if bool_decide (fallback = ∅) then None else Some (fallback, lr_rpcType r), p)
    end.
End Reputation.

(** ** The cache of session endpoints *)

(** [groups]: what the SDK lists for the session, [None] its error.  The height of an arbitrary
    cached endpoint is compared; all of one entry have the same. *)
Definition getOrCreateSessionEndpoints (cache : gmap string endpoints) (s : session) (groups : option (list sdk_group))
  : option endpoints * gmap string endpoints :=
  let create cache :=
    match groups with
    | None => (None, cache)
    | Some g => let eps := endpointsFromSession s g in (Some eps, <[ss_SessionId s := eps]> cache)
    end in
  match cache !! ss_SessionId s with
  | Some cached =>
      match map_to_list cached with
      | (_, e) :: _ =>
          if ss_StartHeight (ep_session e) =? ss_StartHeight s then (Some cached, cache)
          else create (delete (ss_SessionId s) cache)
      | [] => (Some cached, cache)
      end
  | None => create cache
  end.
End Pool.
