(* ===== verification/ShannonPoolProps.v ===== *)
(** * What the endpoint pool guarantees

    Every filter returns a part of what it is given, so an endpoint that is served came
    from a session (or is a configured fallback) and passed every list of the operator.
    The filters derived from scores, on the other hand, never take the last endpoint. *)

From S2P Require Import Prelude GoStrings Float64 Rounding Domain RepKey Signals Score RepConfig RepStorage RepService TieredSelector RPCTypes PoolGuards PoolGuardsProps ShannonPool.
From Stdlib Require Import ZArith Lia Bool Ascii String.
From stdpp Require Import base gmap strings list.

Open Scope string_scope.
Open Scope Z_scope.

(** ** Maps *)

Lemma filter_entry `{Countable K} {A} (P : K * A -> Prop) `{!forall x, Decision (P x)} (m : gmap K A) k a :
  filter P m !! k = Some a -> m !! k = Some a /\ P (k, a).
Proof. by rewrite map_lookup_filter_Some. Qed.

Lemma map_entry `{Countable K} {A} (m : gmap K A) : m <> ∅ -> exists k a, m !! k = Some a.
Proof. intros Hm. apply map_choose in Hm as (k & a & Hk). eauto. Qed.

Lemma entry_nonempty `{Countable K} {A} (m : gmap K A) k a : m !! k = Some a -> m <> ∅.
Proof. intros Hk ->. by rewrite lookup_empty in Hk. Qed.

Section PoolProps.
Context `{RPCTypeMembers} `{RPCTypeEnum} `{DomainLib} {St : Type} `{!Storage St}.
Implicit Types (p : shannon (St := St)) (rep : service St) (r : lookup_request) (eps : endpoints) (e : endpoint).

(** ** Lists of keyed endpoints *)

(** Endpoints of [l] are those of [eps], under their addresses. *)
Definition of_pool eps (l : list addrKey) : Prop := Forall (fun ak => eps !! ak_addr ak = Some (ak_ep ak)) l.

Lemma with_keys_of_pool rep serviceID eps rpcType : of_pool eps (with_keys rep serviceID eps rpcType).
Proof.
  apply Forall_forall. intros ak Hak. unfold with_keys in Hak.
  apply list_elem_of_In, in_map_iff in Hak as ([addr e] & <- & Hin). cbn.
  by apply list_elem_of_In, elem_of_map_to_list in Hin.
Qed.

Lemma with_keys_nonempty rep serviceID eps rpcType : eps <> ∅ -> with_keys rep serviceID eps rpcType <> [].
Proof.
  intros Hne Hk. apply Hne. unfold with_keys in Hk. apply map_eq_nil, map_to_list_empty_iff in Hk. exact Hk.
Qed.

Lemma of_pool_filter eps f l : of_pool eps l -> of_pool eps (List.filter f l).
Proof. unfold of_pool. rewrite !Forall_forall. intros Hl ak. rewrite list_elem_of_In, filter_In, <- list_elem_of_In. naive_solver. Qed.

Lemma to_endpoints_entry eps l addr e : of_pool eps l -> to_endpoints l !! addr = Some e -> eps !! addr = Some e.
Proof.
  intros Hl He. apply elem_of_list_to_map_2, list_elem_of_In, in_map_iff in He as (ak & [= <- <-] & Hin).
  by apply (proj1 (Forall_forall _ _) Hl), list_elem_of_In.
Qed.

Lemma to_endpoints_nonempty l : l <> [] -> to_endpoints l <> ∅.
Proof. destruct l as [|ak l]; [done|]. intros _. apply insert_non_empty. Qed.

(** ** Reputation keeps some of what it is given *)

Definition scores_canonical rep : Prop := forall keys k sc, GetScores rep keys !! k = Some sc -> fpos_ok (sc_Value sc) = true.

Lemma max_score_of scores rest : forall m,
  let mx := fold_left (fun m ak => if fgtb (score_of scores ak) m then score_of scores ak else m) rest m in
  mx = m \/ exists ak, In ak rest /\ mx = score_of scores ak.
Proof.
  induction rest as [|ak rest IH]; intros m; cbn [fold_left]; [by left|]. cbv zeta in *.
  destruct (IH (if fgtb (score_of scores ak) m then score_of scores ak else m)) as [E|(ak' & Hin & E)].
  - destruct (fgtb _ _); [right; exists ak; split; [by left|exact E]|by left].
  - right. exists ak'. split; [by right|exact E].
Qed.

Lemma least_bad_nonempty (scores : gmap EndpointKey Score) cached :
  (forall k sc, scores !! k = Some sc -> fpos_ok (sc_Value sc) = true) ->
  cached <> [] -> least_bad scores cached <> [].
Proof.
  intros Hsc Hne. destruct cached as [|first rest]; [done|]. unfold least_bad.
  set (mx := fold_left _ rest _).
  assert (exists ak, In ak (first :: rest) /\ mx = score_of scores ak) as (ak & Hin & ->).
  { destruct (max_score_of scores rest (score_of scores first)) as [E|(ak & Hin & E)];
      [exists first|exists ak]; (split; [|exact E]); [by left|by right]. }
  intros Hnil. assert (Hf : In ak []); [|destruct Hf].
  rewrite <- Hnil. apply filter_In. split; [exact Hin|]. apply fsub_le; [|reflexivity].
  unfold score_of. destruct (scores !! ak_key ak) eqn:Ek; [by eapply Hsc|reflexivity].
Qed.

Lemma drop_drained_of_pool rep now serviceID rpcType eps cached :
  of_pool eps cached -> of_pool eps (drop_drained rep now serviceID rpcType cached).
Proof.
  intros Hc. unfold drop_drained. pose proof (of_pool_filter eps (fun ak => negb (is_drained rep now serviceID rpcType ak)) cached Hc) as Hk.
  by destruct (List.filter _ _).
Qed.

Lemma drop_drained_nonempty rep now serviceID rpcType cached :
  cached <> [] -> drop_drained rep now serviceID rpcType cached <> [].
Proof. unfold drop_drained. by destruct (List.filter _ _). Qed.

Lemma least_bad_of_pool eps scores cached : of_pool eps cached -> of_pool eps (least_bad scores cached).
Proof. intros Hc. destruct cached; [exact Hc|]. by apply of_pool_filter. Qed.

Lemma reputation_submap rep now minT hf serviceID eps rpcType requested addr e :
  filterByReputation rep now minT hf serviceID eps rpcType requested !! addr = Some e -> eps !! addr = Some e.
Proof.
  unfold filterByReputation. set (cached := with_keys _ _ _ _).
  pose proof (drop_drained_of_pool rep now serviceID rpcType eps cached (with_keys_of_pool _ _ _ _)) as Hc.
  apply to_endpoints_entry. set (kept := List.filter _ _).
  assert (Hk : of_pool eps kept) by (by apply of_pool_filter).
  destruct kept; [by apply least_bad_of_pool|exact Hk].
Qed.

Lemma reputation_nonempty rep now minT hf serviceID eps rpcType requested :
  scores_canonical rep -> eps <> ∅ -> filterByReputation rep now minT hf serviceID eps rpcType requested <> ∅.
Proof.
  intros Hsc Hne. unfold filterByReputation. set (cached := with_keys _ _ _ _).
  assert (Hc : drop_drained rep now serviceID rpcType cached <> [])
    by (apply drop_drained_nonempty, with_keys_nonempty, Hne).
  apply to_endpoints_nonempty. set (kept := List.filter _ _).
  destruct kept; [apply least_bad_nonempty; [apply Hsc|exact Hc]|done].
Qed.

(** ** What every served endpoint passed *)

(** Neither the operator's lists nor the endpoint policy object to the endpoint. *)
Definition cleared p r e : Prop :=
  ep_supplier e ∉ getBlockedSuppliers p (lr_serviceID r) /\
  IsBlocked (sp_blockedDomains p) (filter_url e (lr_rpcType r)) (lr_rpcType r) = false /\
  policy_accepts (sp_policy p) (filter_url e (lr_rpcType r)) = true.

Lemma policy_entry pol eps rpcType addr e :
  filterByEndpointPolicy pol eps rpcType !! addr = Some e <->
  eps !! addr = Some e /\ policy_accepts pol (filter_url e rpcType) = true.
Proof.
  unfold filterByEndpointPolicy, policy_accepts. destruct pol as [https domain]; cbn.
  destruct https, domain; cbn; rewrite ?map_lookup_filter_Some; naive_solver.
Qed.

Lemma operator_entry p r actual eps addr e :
  operator_filters p r actual eps !! addr = Some e <->
  eps !! addr = Some e /\ ep_supplier e ∉ getBlockedSuppliers p (lr_serviceID r) /\
  IsBlocked (sp_blockedDomains p) (filter_url e actual) actual = false /\
  policy_accepts (sp_policy p) (filter_url e (lr_rpcType r)) = true.
Proof.
  unfold operator_filters, removeBlockedDomains, removeBlockedSuppliers.
  rewrite policy_entry, !map_lookup_filter_Some. naive_solver.
Qed.

Lemma exhausted_submap eps requested isExhausted addr e :
  filterExhaustedSuppliers eps requested isExhausted !! addr = Some e -> eps !! addr = Some e.
Proof. unfold filterExhaustedSuppliers. case_bool_decide; [done|]. by intros [? _]%filter_entry. Qed.

Lemma supplier_submap p now r eps addr e : supplier_filters p now r eps !! addr = Some e -> eps !! addr = Some e.
Proof.
  unfold supplier_filters. destruct (lr_byReputation r); [|done].
  assert (Hb : forall m, match sp_blacklist p with
      | Some sb => removeBlacklistedSuppliers m (lr_requested r) (IsBlacklisted sb now (lr_serviceID r))
      | None => m end !! addr = Some e -> m !! addr = Some e).
  { intros m. destruct (sp_blacklist p); [|done]. by intros [? _]%filter_entry. }
  destruct (sp_exhaustion p); [|apply Hb]. intros He%exhausted_submap. by apply Hb.
Qed.

Lemma reputation_stage_submap p now r eps m addr e :
  reputation_stage p now r eps = Some m -> m !! addr = Some e -> eps !! addr = Some e.
Proof.
  unfold reputation_stage. destruct (sp_reputation p) as [rep|]; [|by intros [= ->]].
  destruct (effectiveAllowedSuppliers p r); [|by intros [= ->]].
  destruct (lr_byReputation r); [|by intros [= ->]].
  case_bool_decide; cbn [negb].
  - destruct (_ =? _); [by intros [= ->]|discriminate].
  - intros [= <-]. apply reputation_submap.
Qed.

Lemma rpc_type_submap p r actual eps m t :
  filter_rpc_type p r actual eps = Some (m, t) ->
  (forall addr e, m !! addr = Some e -> eps !! addr = Some e) /\
  (getRPCTypeFallback p (lr_serviceID r) (lr_rpcType r) = None -> t = actual).
Proof.
  unfold filter_rpc_type. destruct (_ =? _); [by intros [= <- <-]|].
  case_bool_decide.
  - destruct (getRPCTypeFallback _ _ _) as [t'|]; [|discriminate].
    case_bool_decide; [discriminate|]. intros [= <- <-]. split; [|discriminate].
    by intros addr e [? _]%filter_entry.
  - intros [= <- <-]. split; [|done]. by intros addr e [? _]%filter_entry.
Qed.

(** What one session contributes passed the operator's filters under the type in force. *)
Lemma session_pool_entry p now r actual eps m t addr e :
  session_pool p now r actual eps = (Some m, t) -> m !! addr = Some e ->
  eps !! addr = Some e /\ ep_supplier e ∉ getBlockedSuppliers p (lr_serviceID r) /\
  IsBlocked (sp_blockedDomains p) (filter_url e t) t = false /\
  policy_accepts (sp_policy p) (filter_url e (lr_rpcType r)) = true.
Proof.
  unfold session_pool. destruct (filter_rpc_type p r actual eps) as [[m0 t0]|] eqn:Ef; [|discriminate].
  destruct (rpc_type_submap _ _ _ _ _ _ Ef) as [Hsub _]. cbv zeta.
  assert (Hop : operator_filters p r t0 m0 !! addr = Some e ->
    eps !! addr = Some e /\ ep_supplier e ∉ getBlockedSuppliers p (lr_serviceID r) /\
    IsBlocked (sp_blockedDomains p) (filter_url e t0) t0 = false /\
    policy_accepts (sp_policy p) (filter_url e (lr_rpcType r)) = true)
    by (rewrite operator_entry; naive_solver).
  destruct (effectiveAllowedSuppliers p r).
  - intros [= Hr <-] He. by apply Hop, (supplier_submap p now r), (reputation_stage_submap p now r _ m).
  - case_bool_decide; [discriminate|]. intros [= Hr <-] He. apply Hop.
    apply (reputation_stage_submap p now r _ m _ _ Hr), supplier_submap in He. by apply filter_entry in He as [? _].
Qed.

Lemma session_pool_type p now r actual eps :
  getRPCTypeFallback p (lr_serviceID r) (lr_rpcType r) = None -> snd (session_pool p now r actual eps) = actual.
Proof.
  intros Hf. unfold session_pool. destruct (filter_rpc_type p r actual eps) as [[m0 t0]|] eqn:Ef; [|done].
  destruct (rpc_type_submap _ _ _ _ _ _ Ef) as [_ Ht]. rewrite (Ht Hf).
  destruct (effectiveAllowedSuppliers p r); [done|]. by case_bool_decide.
Qed.

(** What holds of every session's contribution holds of their union. *)
Lemma sessions_pool_ind p now r (T : Z -> Prop) (Q : EndpointAddr -> endpoint -> Prop) sessions :
  (forall eps t, eps ∈ sessions -> T t ->
     T (snd (session_pool p now r t eps)) /\
     forall m addr e, fst (session_pool p now r t eps) = Some m -> m !! addr = Some e -> Q addr e) ->
  forall actual acc, T actual -> (forall addr e, acc !! addr = Some e -> Q addr e) ->
  let '(m, t) := sessions_pool p now r actual acc sessions in
  T t /\ forall addr e, m !! addr = Some e -> Q addr e.
Proof.
  induction sessions as [|eps rest IH]; intros Hs actual acc Ht Hacc; cbn [sessions_pool]; [by split|].
  destruct (Hs eps actual ltac:(constructor) Ht) as [Ht' Hq].
  destruct (session_pool p now r actual eps) as [pool t']. cbn [fst snd] in *.
  apply IH; [intros; apply Hs; [by constructor|done]|exact Ht'|].
  destruct pool as [m|]; [|exact Hacc]. intros addr e [He|[_ He]]%lookup_union_Some_raw; eauto.
Qed.

Lemma best_keys_of_pool eps rep serviceID rpcType pick :
  of_pool eps (endpoints_of (with_keys rep serviceID eps rpcType) pick).
Proof. apply of_pool_filter, with_keys_of_pool. Qed.

Lemma include_requested_submap sel scores eps key requested result addr e :
  (forall addr e, result !! addr = Some e -> eps !! addr = Some e) ->
  include_requested sel scores eps key requested result !! addr = Some e -> eps !! addr = Some e.
Proof.
  intros Hsub. unfold include_requested. destruct (_ =? _)%string; [auto|].
  destruct (result !! requested); [auto|]. destruct (eps !! requested) as [e'|] eqn:Er; [|auto].
  destruct (scores !! key) as [v|]; [|auto]. destruct (fgeb _ _); [|auto].
  destruct (decide (addr = requested)) as [->|Hne].
  - rewrite lookup_insert_eq. congruence.
  - rewrite lookup_insert_ne by congruence. apply Hsub.
Qed.

Lemma tier_submap sel d rep serviceID eps rpcType requested addr e :
  fst (filterToHighestTier sel d rep serviceID eps rpcType requested) !! addr = Some e -> eps !! addr = Some e.
Proof.
  unfold filterToHighestTier. destruct sel as [sel|]; [|done]. case_bool_decide; [done|].
  destruct (UpdateProbationStatus _ _) as [probation sel']. cbn [fst]. set (pick := match probation with [] => _ | _ => _ end).
  assert (Hinc : include_requested sel' (endpointScoresForKeys rep (map ak_key (with_keys rep serviceID eps rpcType))) eps
     (BuildKey (KeyBuilderForService rep serviceID) serviceID requested rpcType) requested
     (to_endpoints (endpoints_of (with_keys rep serviceID eps rpcType) pick)) !! addr = Some e -> eps !! addr = Some e).
  { apply include_requested_submap. intros a x. apply to_endpoints_entry, best_keys_of_pool. }
  destruct (best_tier _ _); [|exact Hinc]. destruct pick; [|exact Hinc]. by rewrite lookup_empty.
Qed.

(** The pool over the sessions, before and after the tiers. *)
Lemma sessions_unique_entry p now d r sessions eps t :
  fst (getSessionsUniqueEndpoints p now d r sessions) = Some (eps, t) ->
  let '(m, t') := sessions_pool p now r (lr_rpcType r) ∅ sessions in
  t = t' /\ forall addr e, eps !! addr = Some e -> m !! addr = Some e.
Proof.
  unfold getSessionsUniqueEndpoints. destruct (sessions_pool _ _ _ _ _ _) as [m t'].
  case_bool_decide; [discriminate|]. destruct (sp_reputation p) as [rep|]; [|by intros [= -> ->]].
  destruct (shouldApplyTieredSelection _ _ _ _); [|by intros [= -> ->]].
  destruct (filterToHighestTier _ _ _ _ _ _ _) as [m2 sel'] eqn:Et. intros [= -> ->]. split; [done|].
  intros addr e He. eapply (f_equal fst) in Et. cbn in Et. rewrite <- Et in He. by eapply tier_submap.
Qed.

(** Where a served endpoint comes from. *)
Lemma unique_endpoints_source p now d r sessions eps t :
  fst (getUniqueEndpoints p now d r sessions) = Some (eps, t) ->
  (t = lr_rpcType r /\
   eps = removeBlockedDomains (fst (getServiceFallbackEndpoints p (lr_serviceID r))) (sp_blockedDomains p) (lr_rpcType r)) \/
  fst (getSessionsUniqueEndpoints p now d r sessions) = Some (eps, t).
Proof.
  unfold getUniqueEndpoints. destruct (getServiceFallbackEndpoints _ _) as [fb sendAll]. cbn [fst].
  destruct (_ && _); [intros [= <- <-]; by left|].
  destruct (getSessionsUniqueEndpoints _ _ _ _ _) as [[[m t']|] p']; cbn [fst].
  - case_bool_decide; cbn [negb fst]; [|intros [= <- <-]; by right].
    case_bool_decide; [discriminate|]. intros [= <- <-]. by left.
  - case_bool_decide; [discriminate|]. intros [= <- <-]. by left.
Qed.

Definition no_fallback p r : Prop := getRPCTypeFallback p (lr_serviceID r) (lr_rpcType r) = None.

(** An endpoint of a session that the operator lets through. *)
Definition from_session p r (sessions : list endpoints) (addr : EndpointAddr) e : Prop :=
  exists s, s ∈ sessions /\ s !! addr = Some e /\
   ep_supplier e ∉ getBlockedSuppliers p (lr_serviceID r) /\
   policy_accepts (sp_policy p) (filter_url e (lr_rpcType r)) = true /\
   (no_fallback p r ->
    IsBlocked (sp_blockedDomains p) (filter_url e (lr_rpcType r)) (lr_rpcType r) = false).

Lemma session_admits p now r sessions eps t :
  eps ∈ sessions -> (no_fallback p r -> t = lr_rpcType r) ->
  (no_fallback p r -> snd (session_pool p now r t eps) = lr_rpcType r) /\
  forall m addr e, fst (session_pool p now r t eps) = Some m -> m !! addr = Some e -> from_session p r sessions addr e.
Proof.
  intros Hin Ht. pose proof (session_pool_type p now r t eps) as Hty.
  destruct (session_pool p now r t eps) as [o t0] eqn:Ep. cbn [fst snd] in *.
  assert (Ht0 : no_fallback p r -> t0 = lr_rpcType r) by (intros Hf; rewrite (Hty Hf); auto).
  split; [exact Ht0|]. intros m addr e -> He.
  destruct (session_pool_entry _ _ _ _ _ _ _ _ _ Ep He) as (He' & Hsup & Hdom & Hpol).
  exists eps. repeat split; auto. intros Hf. by rewrite <- (Ht0 Hf).
Qed.

(** C8: the operator has the last word.  An endpoint that is served is either a configured
    fallback at a domain not banned for the type, or an endpoint of an active session whose
    supplier is not blocked and whose URL meets the endpoint policy, whatever the request
    pins, allows or prefers; and unless a fallback type is configured for the requested one,
    its domain is not banned and the type served is the one requested. *)
Theorem served_endpoint_cleared p now d r sessions eps t addr e :
  fst (getUniqueEndpoints p now d r sessions) = Some (eps, t) -> eps !! addr = Some e ->
  (fst (getServiceFallbackEndpoints p (lr_serviceID r)) !! addr = Some e /\
   IsBlocked (sp_blockedDomains p) (filter_url e (lr_rpcType r)) (lr_rpcType r) = false) \/
  (from_session p r sessions addr e /\ (no_fallback p r -> t = lr_rpcType r)).
Proof.
  intros Hu He. destruct (unique_endpoints_source _ _ _ _ _ _ _ Hu) as [[-> ->]|Hs]; [left; by apply filter_entry in He|].
  right. apply sessions_unique_entry in Hs.
  pose proof (sessions_pool_ind p now r _ (from_session p r sessions) sessions
    (fun s t Hin Ht => session_admits p now r sessions s t Hin Ht) (lr_rpcType r) ∅) as Hi.
  destruct (sessions_pool p now r (lr_rpcType r) ∅ sessions) as [m t']. destruct Hs as [-> Hsub].
  destruct Hi as [Ht Hq]; [done|intros a x Hx; by rewrite lookup_empty in Hx|]. auto.
Qed.

(** ** The pool does not dry up *)

(** An endpoint nothing but scores, drains and exhaustion speaks against. *)
Definition eligible p now r (addr : EndpointAddr) e : Prop :=
  (lr_rpcType r = RPCType_UNKNOWN_RPC \/ supports (lr_rpcType r) e = true \/ addr = lr_requested r) /\
  cleared p r e /\
  (forall sb, sp_blacklist p = Some sb -> IsBlacklisted sb now (lr_serviceID r) (ep_supplier e) = false).

Lemma rpc_type_keeps p r actual eps addr e :
  eps !! addr = Some e ->
  (lr_rpcType r = RPCType_UNKNOWN_RPC \/ supports (lr_rpcType r) e = true \/ addr = lr_requested r) ->
  exists m, filter_rpc_type p r actual eps = Some (m, actual) /\ m !! addr = Some e.
Proof.
  intros He Hs. unfold filter_rpc_type. destruct (Z.eqb_spec (lr_rpcType r) RPCType_UNKNOWN_RPC) as [E|E]; [eauto|].
  destruct Hs as [Hs|Hs]; [done|].
  set (m := filter _ eps). assert (Hm : m !! addr = Some e) by (apply map_lookup_filter_Some; auto).
  rewrite bool_decide_eq_false_2 by (by eapply entry_nonempty). eauto.
Qed.

Lemma exhausted_nonempty eps requested isExhausted :
  eps <> ∅ -> filterExhaustedSuppliers eps requested isExhausted <> ∅.
Proof. unfold filterExhaustedSuppliers. by case_bool_decide. Qed.

Lemma supplier_nonempty p now r eps addr e :
  eps !! addr = Some e ->
  (forall sb, sp_blacklist p = Some sb -> IsBlacklisted sb now (lr_serviceID r) (ep_supplier e) = false) ->
  supplier_filters p now r eps <> ∅.
Proof.
  intros He Hb. unfold supplier_filters. destruct (lr_byReputation r); [|by eapply entry_nonempty].
  set (m := match sp_blacklist p with Some sb => _ | None => _ end).
  assert (Hm : m <> ∅).
  { apply (entry_nonempty _ addr e). unfold m. destruct (sp_blacklist p) as [sb|]; [|exact He].
    apply map_lookup_filter_Some. auto. }
  destruct (sp_exhaustion p); [by apply exhausted_nonempty|exact Hm].
Qed.

Lemma reputation_stage_nonempty p now r eps :
  (forall rep, sp_reputation p = Some rep -> scores_canonical rep) -> eps <> ∅ ->
  exists m, reputation_stage p now r eps = Some m /\ m <> ∅.
Proof.
  intros Hrep Hne. unfold reputation_stage. destruct (sp_reputation p) as [rep|]; [|eauto].
  destruct (effectiveAllowedSuppliers p r); [|eauto]. destruct (lr_byReputation r); [|eauto].
  rewrite bool_decide_eq_false_2 by (by apply reputation_nonempty, Hne; apply Hrep). cbn [negb].
  eexists. split; [reflexivity|]. apply reputation_nonempty; [by apply Hrep|exact Hne].
Qed.

Lemma session_survives p now r eps addr e :
  (forall rep, sp_reputation p = Some rep -> scores_canonical rep) -> effectiveAllowedSuppliers p r = [] ->
  eps !! addr = Some e -> eligible p now r addr e ->
  exists m, session_pool p now r (lr_rpcType r) eps = (Some m, lr_rpcType r) /\ m <> ∅.
Proof.
  intros Hrep Hal He (Hsup & (Hbs & Hbd & Hpol) & Hbl). unfold session_pool.
  destruct (rpc_type_keeps p r (lr_rpcType r) eps addr e He Hsup) as (m & -> & Hm). rewrite Hal.
  assert (Ho : operator_filters p r (lr_rpcType r) m !! addr = Some e) by (by apply operator_entry).
  destruct (reputation_stage_nonempty p now r _ Hrep (supplier_nonempty p now r _ _ _ Ho Hbl)) as (m' & -> & Hne). eauto.
Qed.

(** The union only grows, and without a fallback type the type stays. *)
Lemma sessions_pool_survives p now r s sessions : forall acc,
  no_fallback p r ->
  (exists m, fst (session_pool p now r (lr_rpcType r) s) = Some m /\ m <> ∅) ->
  s ∈ sessions \/ acc <> ∅ ->
  fst (sessions_pool p now r (lr_rpcType r) acc sessions) <> ∅.
Proof.
  induction sessions as [|eps rest IH]; intros acc Hf Hs Hin; cbn [sessions_pool].
  { destruct Hin as [Hin|Hne]; [by apply elem_of_nil in Hin|exact Hne]. }
  pose proof (session_pool_type p now r (lr_rpcType r) eps Hf) as Ht.
  destruct (session_pool p now r (lr_rpcType r) eps) as [pool t'] eqn:Ep. cbn [snd] in Ht. subst t'.
  apply IH; [exact Hf|exact Hs|]. destruct Hin as [[->|Hin]%elem_of_cons|Hne]; [|by left|].
  - right. destruct Hs as (m & Hm & Hne). rewrite Ep in Hm. cbn [fst] in Hm. subst pool.
    apply map_entry in Hne as (k & a & Hk). apply (entry_nonempty _ k a). apply lookup_union_Some_raw. by left.
  - right. destruct pool as [m|]; [|exact Hne]. apply map_entry in Hne as (k & a & Hk).
    destruct (m !! k) as [b|] eqn:Em; [apply (entry_nonempty _ k b)|apply (entry_nonempty _ k a)];
      apply lookup_union_Some_raw; auto.
Qed.

(** C9: scores never leave a request without an endpoint.  When some active session has an
    endpoint that serves the type, passes the operator's lists and is not blacklisted, an
    unpinned request that is not ranked by tiers and whose type has no fallback configured gets a
    non-empty pool, however low the scores, whatever is cooling down, drained or exhausted, as
    long as the stored scores are well formed. *)
Theorem pool_survives_scores p now d r s sessions addr e :
  (forall rep, sp_reputation p = Some rep -> scores_canonical rep) ->
  effectiveAllowedSuppliers p r = [] -> no_fallback p r ->
  shouldApplyTieredSelection p (lr_byReputation r) [] (lr_rpcType r) = false ->
  s ∈ sessions -> s !! addr = Some e -> eligible p now r addr e ->
  exists eps t, fst (getUniqueEndpoints p now d r sessions) = Some (eps, t) /\ eps <> ∅.
Proof.
  intros Hrep Hal Hf Htier Hin He Hel.
  destruct (session_survives p now r s addr e Hrep Hal He Hel) as (m & Hm & Hne).
  pose proof (sessions_pool_survives p now r s sessions ∅ Hf
    ltac:(exists m; rewrite Hm; auto) ltac:(by left)) as Hpool.
  unfold getUniqueEndpoints. destruct (getServiceFallbackEndpoints _ _) as [fb sendAll].
  case_bool_decide as Hfb; cbn [negb]; [rewrite andb_false_r|rewrite andb_true_r; destruct sendAll; [cbn; eauto|]];
    unfold getSessionsUniqueEndpoints; rewrite Hal, Htier;
    destruct (sessions_pool p now r (lr_rpcType r) ∅ sessions) as [m' t']; cbn [fst] in Hpool;
    rewrite bool_decide_eq_false_2 by exact Hpool;
    (destruct (sp_reputation p); cbn [fst]; rewrite bool_decide_eq_false_2 by exact Hpool; cbn; eauto).
Qed.

(** A health check sees every endpoint the operator allows.  A lookup that does not
    filter by reputation and pins no supplier gets, of one session, exactly the endpoints
    with a URL for the type that pass the operator's lists, whatever the blacklist, the
    exhaustion marks and the scores; the session is skipped only when none serves the type. *)
Theorem health_check_pool_exact p now r eps :
  lr_byReputation r = false -> effectiveAllowedSuppliers p r = [] -> no_fallback p r ->
  let serves addr e := lr_rpcType r = RPCType_UNKNOWN_RPC \/ supports (lr_rpcType r) e = true \/ addr = lr_requested r in
  match fst (session_pool p now r (lr_rpcType r) eps) with
  | Some pool => forall addr e, pool !! addr = Some e <-> eps !! addr = Some e /\ serves addr e /\ cleared p r e
  | None => forall addr e, eps !! addr = Some e -> ~ serves addr e
  end.
Proof.
  intros Hby Hal Hf serves. unfold session_pool, reputation_stage, supplier_filters. rewrite Hal, Hby.
  destruct (filter_rpc_type p r (lr_rpcType r) eps) as [[m t]|] eqn:Ef.
  - destruct (rpc_type_submap _ _ _ _ _ _ Ef) as [Hsub Ht]. rewrite (Ht Hf) in *.
    replace (fst (match sp_reputation p with Some _ | None => Some (operator_filters p r (lr_rpcType r) m) end, lr_rpcType r))
      with (Some (operator_filters p r (lr_rpcType r) m)) by (by destruct (sp_reputation p)).
    intros addr e. rewrite operator_entry. unfold cleared.
    assert (Hm : m !! addr = Some e <-> eps !! addr = Some e /\ serves addr e); [|naive_solver].
    unfold filter_rpc_type in Ef. destruct (Z.eqb_spec (lr_rpcType r) RPCType_UNKNOWN_RPC) as [E|E].
    { injection Ef as <-. unfold serves. naive_solver. }
    revert Ef. case_bool_decide; [by rewrite Hf|]. intros Ef. injection Ef as <-.
    rewrite map_lookup_filter_Some. unfold serves. naive_solver.
  - intros addr e He Hs. by destruct (rpc_type_keeps p r (lr_rpcType r) eps addr e He Hs) as (m & Hm & _); congruence.
Qed.
End PoolProps.

(** ** The cache of session endpoints *)

Section Cache.
Context `{RPCTypeMembers}.

Lemma group_session s g : ep_session (group_endpoint s g) = s.
Proof.
  assert (Hf : forall e, ep_session (fold_left add_rpc_url g e) = ep_session e); [|apply Hf].
  induction g as [|[[a t] u] g IH]; intros e; cbn [fold_left]; [done|]. rewrite IH. cbn. by destruct (_ =? _).
Qed.

Lemma endpoints_session s groups addr e : endpointsFromSession s groups !! addr = Some e -> ep_session e = s.
Proof.
  unfold endpointsFromSession.
  assert (Hg : forall m : endpoints, (forall a x, m !! a = Some x -> ep_session x = s) -> forall a x,
    fold_left (fun m g => <[endpoint_Addr (group_endpoint s g) := group_endpoint s g]> m) groups m !! a = Some x -> ep_session x = s).
  { induction groups as [|g groups IH]; intros m Hm; cbn [fold_left]; [exact Hm|]. apply IH.
    intros a x [[_ <-]|[_ Hx]]%lookup_insert_Some; [apply group_session|by eapply Hm]. }
  apply Hg. intros a x Hx. by rewrite lookup_empty in Hx.
Qed.

(** What the chain says of a session: [sdk s] are its endpoints. *)
Variable sdk : session -> option (list sdk_group).

(** The cache after a series of lookups, the latest first. *)
Fixpoint cache_after (history : list session) : gmap string endpoints :=
  match history with
  | [] => ∅
  | s :: rest => snd (getOrCreateSessionEndpoints (cache_after rest) s (sdk s))
  end.

(** What a lookup without a cache returns. *)
Definition uncached (s : session) : option endpoints := endpointsFromSession s <$> sdk s.

(** An entry is what an uncached lookup of an earlier session with its ID returns. *)
Definition cache_faithful (history : list session) (cache : gmap string endpoints) : Prop :=
  forall id eps, cache !! id = Some eps -> exists s, s ∈ history /\ ss_SessionId s = id /\ uncached s = Some eps.

Lemma cache_faithful_later history s cache : cache_faithful history cache -> cache_faithful (s :: history) cache.
Proof. intros Hc id eps (s0 & ? & ?)%Hc. exists s0. split; [by right|done]. Qed.

Lemma delete_faithful history cache id : cache_faithful history cache -> cache_faithful history (delete id cache).
Proof. intros Hc id' eps [_ He]%lookup_delete_Some. eauto. Qed.

(** The endpoints are built anew and stored. *)
Definition create (s : session) (cache : gmap string endpoints) : option endpoints * gmap string endpoints :=
  match sdk s with
  | None => (None, cache)
  | Some g => let eps := endpointsFromSession s g in (Some eps, <[ss_SessionId s := eps]> cache)
  end.

Lemma create_result s cache : fst (create s cache) = uncached s.
Proof. unfold create, uncached. by destruct (sdk s). Qed.

Lemma create_faithful history s cache : cache_faithful history cache -> cache_faithful (s :: history) (snd (create s cache)).
Proof.
  intros Hc. unfold create. destruct (sdk s) as [g|] eqn:Eg; [|by apply cache_faithful_later].
  cbn [snd]. intros id eps' [[<- <-]|[_ He]]%lookup_insert_Some; [|by eapply cache_faithful_later].
  exists s. unfold uncached. rewrite Eg. split; [by left|done].
Qed.

Lemma cache_after_faithful history : cache_faithful history (cache_after history).
Proof.
  induction history as [|s history IH]; cbn [cache_after]; [intros id eps He; by rewrite lookup_empty in He|].
  unfold getOrCreateSessionEndpoints. fold (create s).
  destruct (cache_after history !! ss_SessionId s) as [cached|]; [|by apply create_faithful].
  destruct (map_to_list cached) as [|[a e] l]; [by apply cache_faithful_later|].
  destruct (_ =? _); [by apply cache_faithful_later|]. by apply create_faithful, delete_faithful.
Qed.

(** C15: the cache of session endpoints is transparent.  When a session is determined by its ID
    and start height, a lookup returns after any series of lookups what building the endpoints
    from the session would, also when an ID is reused at another height; with one exception: once
    a session without endpoints was cached, its ID may keep the empty map. *)
Theorem session_cache_transparent history s :
  (forall s1 s2, s1 ∈ s :: history -> s2 ∈ s :: history ->
     ss_SessionId s1 = ss_SessionId s2 -> ss_StartHeight s1 = ss_StartHeight s2 -> s1 = s2) ->
  let looked_up := fst (getOrCreateSessionEndpoints (cache_after history) s (sdk s)) in
  looked_up = uncached s \/
  looked_up = Some ∅ /\ exists s0, s0 ∈ history /\ ss_SessionId s0 = ss_SessionId s /\ uncached s0 = Some ∅.
Proof.
  intros Hid. cbv zeta. unfold getOrCreateSessionEndpoints. fold (create s).
  destruct (cache_after history !! ss_SessionId s) as [cached|] eqn:Ec; [|left; apply create_result].
  destruct (cache_after_faithful history _ _ Ec) as (s0 & Hin & Hs0 & Hu).
  destruct (map_to_list cached) as [|[a e] l] eqn:El.
  { apply map_to_list_empty_iff in El. subst cached. right. split; [done|]. by exists s0. }
  left. destruct (Z.eqb_spec (ss_StartHeight (ep_session e)) (ss_StartHeight s)) as [Eh|Eh]; [|apply create_result].
  assert (He : cached !! a = Some e) by (apply elem_of_map_to_list; rewrite El; constructor).
  assert (Hes : ep_session e = s0).
  { unfold uncached in Hu. destruct (sdk s0) as [g|]; [|done]. injection Hu as <-. by eapply endpoints_session. }
  rewrite Hes in Eh. cbn [fst]. rewrite <- Hu. f_equal. apply Hid; auto; [by right|by left].
Qed.

(** The exception is real: the check for a reused ID looks at a cached endpoint, so that an empty
    map is never found out, and a later session that reuses the ID at another height and has
    endpoints is served none. *)
Theorem empty_session_sticks s0 s : uncached s0 = Some ∅ -> ss_SessionId s0 = ss_SessionId s ->
  fst (getOrCreateSessionEndpoints (cache_after [s0]) s (sdk s)) = Some ∅.
Proof.
  intros Hu Hid. assert (Hc : cache_after [s0] !! ss_SessionId s = Some ∅).
  { cbn [cache_after]. unfold getOrCreateSessionEndpoints. rewrite lookup_empty. fold (create s0).
    unfold create. unfold uncached in Hu. destruct (sdk s0) as [g|]; [|done]. injection Hu as ->.
    cbn [snd]. by rewrite Hid, lookup_insert_eq. }
  unfold getOrCreateSessionEndpoints. by rewrite Hc.
Qed.
End Cache.

(** ** The endpoint pool on concrete services

    Witnesses of the pool's theorems, and three lookups in which parts of the pool work
    against each other. *)

Open Scope string_scope.
Open Scope Z_scope.

#[local] Existing Instance url_lib.

Definition session1 : session := mkSession "s1" 100 "app1".

Definition http_endpoint (supplier url : string) : endpoint :=
  group_endpoint session1 [(supplier, RPCType_JSON_RPC, url)].

Definition both_endpoint (supplier url wss : string) : endpoint :=
  group_endpoint session1 [(supplier, RPCType_JSON_RPC, url); (supplier, RPCType_WEBSOCKET, wss)].

Definition pool_of (l : list endpoint) : endpoints := list_to_map (map (fun e => (endpoint_Addr e, e)) l).

Definition good := http_endpoint "pokt1a" "https://node1.good.example".
Definition evil := http_endpoint "pokt1b" "https://node1.evil.example".

(** A service with the domain evil.example banned, and the given parts. *)
Definition demo_protocol (fallbacks : gmap string string) (rep : option (service MemoryStorage))
  (sel : option TieredSelector) (types : option (gset Z)) : shannon :=
  mkShannon (Some [mkSvcSettings "eth" ["pokt1c"] fallbacks true]) rep sel ∅
    (Some {["evil.example" := types]}) (mkPolicy true true) None None "" ∅.

Definition plain_request (rpcType : Z) : lookup_request := mkLookup "eth" true rpcType [] "".

(** The key endpoints are scored under, by URL. *)
Definition good_key : EndpointKey := BuildKey (NewKeyBuilder KeyGranularityURL) "eth" (endpoint_Addr good) RPCType_JSON_RPC.

(** Every endpoint of the service has failed fatally. *)
Definition degraded : service MemoryStorage :=
  Nat.iter 3 (fun s => RecordSignal s 5 good_key (NewFatalErrorSignal 5 "misconfigured"))
    (NewService DefaultConfig (NewMemoryStorage 0)).

Definition tiers : TieredSelector :=
  NewTieredSelector (mkTieredSelectionConfig true (f64_of_Z 70) (f64_of_Z 50) (mkProbationConfig false f_zero f_zero f_zero))
    DefaultMinThreshold.
Definition never : draw := fun n => n - 1.

Lemma scores_of_cache (rep : service MemoryStorage) :
  cf_Enabled (svc_config rep) = true ->
  map_Forall (fun _ sc => fpos_ok (sc_Value sc) = true) (svc_cache rep) -> scores_canonical rep.
Proof.
  intros He Hc keys k sc. unfold GetScores. rewrite He. cbn [negb].
  assert (Hf : forall m : gmap EndpointKey Score, map_Forall (fun _ sc => fpos_ok (sc_Value sc) = true) m ->
    map_Forall (fun _ sc => fpos_ok (sc_Value sc) = true)
      (fold_left (fun res key => match svc_cache rep !! key with Some score => <[key := score]> res | None => res end) keys m)).
  { induction keys as [|key keys IH]; intros m Hm; cbn [fold_left]; [exact Hm|]. apply IH.
    destruct (svc_cache rep !! key) as [score|] eqn:Ek; [|exact Hm].
    apply map_Forall_insert_2; [by apply (Hc key)|exact Hm]. }
  apply (Hf ∅ (map_Forall_empty _)).
Qed.

Lemma degraded_canonical : scores_canonical degraded.
Proof.
  apply scores_of_cache; [vm_compute; reflexivity|]. apply (bool_decide_unpack _). vm_compute. exact I.
Qed.

Lemma canonical_of (rep : service MemoryStorage) :
  scores_canonical rep -> forall rep', Some rep = Some rep' -> scores_canonical rep'.
Proof. intros Hr rep' [= <-]. exact Hr. Qed.

(** ** Witnesses *)

Lemma served_endpoint_cleared_witness :
  let p := demo_protocol ∅ None None None in
  let r := plain_request RPCType_JSON_RPC in
  let sessions := [pool_of [good; evil]] in
  exists eps t e, fst (getUniqueEndpoints p 9 never r sessions) = Some (eps, t) /\
    eps !! endpoint_Addr good = Some e /\ eps !! endpoint_Addr evil = None /\
    ((fst (getServiceFallbackEndpoints p "eth") !! endpoint_Addr good = Some e /\
      IsBlocked (sp_blockedDomains p) (filter_url e RPCType_JSON_RPC) RPCType_JSON_RPC = false) \/
     (from_session p r sessions (endpoint_Addr good) e /\ (no_fallback p r -> t = RPCType_JSON_RPC))).
Proof.
  intros p r sessions. exists (pool_of [good]), RPCType_JSON_RPC, good.
  assert (Hu : fst (getUniqueEndpoints p 9 never r sessions) = Some (pool_of [good], RPCType_JSON_RPC)) by (vm_compute; reflexivity).
  split; [exact Hu|]. split; [vm_compute; reflexivity|]. split; [vm_compute; reflexivity|].
  apply (served_endpoint_cleared p 9 never r sessions (pool_of [good]) RPCType_JSON_RPC (endpoint_Addr good) good Hu).
  vm_compute. reflexivity.
Defined.

Lemma pool_survives_scores_witness :
  exists eps t, fst (getUniqueEndpoints (demo_protocol ∅ (Some degraded) None None) 9 never (plain_request RPCType_JSON_RPC)
                      [pool_of [good; evil]]) = Some (eps, t) /\ eps <> ∅.
Proof.
  apply (pool_survives_scores _ _ _ _ (pool_of [good; evil]) _ (endpoint_Addr good) good).
  - exact (canonical_of degraded degraded_canonical).
  - reflexivity.
  - vm_compute. reflexivity.
  - reflexivity.
  - left.
  - vm_compute. reflexivity.
  - split; [right; left; vm_compute; reflexivity|]. split; [|done].
    split; [apply (bool_decide_unpack _); vm_compute; exact I|]. split; vm_compute; reflexivity.
Defined.

Lemma health_check_pool_exact_witness :
  let p := demo_protocol ∅ (Some degraded) (Some tiers) None in
  let r := mkLookup "eth" false RPCType_JSON_RPC [] "" in
  exists pool, fst (session_pool p 9 r RPCType_JSON_RPC (pool_of [good; evil])) = Some pool /\
    (pool !! endpoint_Addr good = Some good <->
     pool_of [good; evil] !! endpoint_Addr good = Some good /\
     (RPCType_JSON_RPC = RPCType_UNKNOWN_RPC \/ supports RPCType_JSON_RPC good = true \/ endpoint_Addr good = "") /\
     cleared p r good).
Proof.
  intros p r.
  pose proof (health_check_pool_exact p 9 r (pool_of [good; evil]) eq_refl eq_refl ltac:(vm_compute; reflexivity)) as Hx.
  cbv zeta in Hx. change (lr_rpcType r) with RPCType_JSON_RPC in Hx.
  destruct (fst (session_pool p 9 r RPCType_JSON_RPC (pool_of [good; evil]))) as [pool|] eqn:Ep.
  - exists pool. split; [reflexivity|]. exact (Hx (endpoint_Addr good) good).
  - exfalso. vm_compute in Ep. discriminate.
Defined.

(** One session per ID and height; the ID s1 is reused at height 160. *)
Definition demo_sdk (s : session) : option (list sdk_group) :=
  Some [[("pokt1a", RPCType_JSON_RPC, if ss_StartHeight s =? 100 then "https://old.example" else "https://new.example")]].
Definition reused : session := mkSession "s1" 160 "app1".

Lemma session_cache_transparent_witness :
  fst (getOrCreateSessionEndpoints (cache_after demo_sdk [session1; reused; session1]) reused (demo_sdk reused))
  = uncached demo_sdk reused.
Proof.
  destruct (session_cache_transparent demo_sdk [session1; reused; session1] reused) as [T|[T _]];
    [|exact T|vm_compute in T; discriminate].
  intros s1 s2 Hin1 Hin2 _ Hh.
  repeat (apply elem_of_cons in Hin1 as [->|Hin1]); try (by apply elem_of_nil in Hin1);
    repeat (apply elem_of_cons in Hin2 as [->|Hin2]); try (by apply elem_of_nil in Hin2); first [done|discriminate Hh].
Defined.

(** ** Where the parts work against each other *)

(** The pool-collapse guard of the reputation filter is undone by the tiers.  With every
    endpoint below the threshold the filter keeps the least bad one, so that no lookup comes
    back empty; but the tiers start at the same threshold, drop it again, and the lookup
    fails, whereas with the tiers switched off it succeeds. *)
Theorem tiers_undo_collapse_guard :
  let r := plain_request RPCType_JSON_RPC in
  let sessions := [pool_of [good]] in
  filterByReputation degraded 9 DefaultMinThreshold true "eth" (pool_of [good]) RPCType_JSON_RPC "" = pool_of [good] /\
  fst (getUniqueEndpoints (demo_protocol ∅ (Some degraded) None None) 9 never r sessions) = Some (pool_of [good], RPCType_JSON_RPC) /\
  fst (getUniqueEndpoints (demo_protocol ∅ (Some degraded) (Some tiers) None) 9 never r sessions) = None.
Proof. repeat split; vm_compute; reflexivity. Qed.

Definition ws_to_http : gmap string string := {["websocket" := "json_rpc"]}.
Definition evil_ws := both_endpoint "pokt1b" "https://node1.evil.example" "wss://node1.evil.example".

(** A fallback in one session reaches into the next.  The fallback type is kept for the
    sessions that follow, so a domain banned for WebSocket alone is served to a WebSocket
    request when an earlier session had to fall back, and the type reported for the whole
    pool is the fallback's; with the sessions the other way round the ban holds. *)
Theorem fallback_type_leaks :
  let p := demo_protocol ws_to_http None None (Some {[RPCType_WEBSOCKET]}) in
  let r := plain_request RPCType_WEBSOCKET in
  IsBlocked (sp_blockedDomains p) (filter_url evil_ws RPCType_WEBSOCKET) RPCType_WEBSOCKET = true /\
  fst (getUniqueEndpoints p 9 never r [pool_of [good]; pool_of [evil_ws]])
    = Some (pool_of [good; evil_ws], RPCType_JSON_RPC) /\
  fst (getUniqueEndpoints p 9 never r [pool_of [evil_ws]; pool_of [good]])
    = Some (pool_of [good], RPCType_JSON_RPC).
Proof. repeat split; vm_compute; reflexivity. Qed.
