(* ===== verification/ErrorClass.v ===== *)
(** * Classification of relay errors

    protocol/shannon/error_classification.go and the relay errors of errors.go: what a failed
    relay says about the endpoint, as an error type for the observations and a signal for the
    reputation service.  A Go error is its message together with the sentinels errors.Is finds
    in it; the regular expressions of the source are matchers. *)

From S2P Require Import Prelude GoStrings Utf8 Signals Heuristic.
From Stdlib Require Import ZArith Lia Bool Ascii String.
From stdpp Require Import base list strings.

Open Scope string_scope.
Open Scope Z_scope.

(** ** Errors *)

Inductive sentinel :=
| errRelayEndpointConfig | errRelayEndpointTimeout | errContextCanceled | errSendHTTPRelay
| errMalformedEndpointPayload | errHeuristicDetectedBackendError | errEndpointNon2XXHTTPStatusCode
| errCreatingWebSocketConnection | errRelayRequestWebsocketMessageSigningFailed
| errRelayResponseInWebsocketMessageValidationFailed
| ErrRelayEndpointHTTPError
| ErrRelayResponseValidationUnmarshal | ErrRelayResponseValidationBasicValidation
| ErrRelayResponseValidationGetPubKey | ErrRelayResponseValidationNilSupplierPubKey
| ErrRelayResponseValidationSignatureError.

#[export] Instance sentinel_eq_dec : EqDecision sentinel.
Proof. solve_decision. Defined.

(** The message, the sentinels in the chain of wrapped errors, and the sentinel the error is
    itself, if any. *)
Record error := mkError {
  err_text : string;
  err_chain : list sentinel;
  err_self : option sentinel;
}.

Definition errors_Is (e : error) (s : sentinel) : bool := bool_decide (s ∈ err_chain e).

(** ** Error types of the observations *)

Inductive ShannonEndpointErrorType :=
| SHANNON_ENDPOINT_ERROR_UNSPECIFIED
| SHANNON_ENDPOINT_ERROR_INTERNAL
| SHANNON_ENDPOINT_ERROR_CONFIG
| SHANNON_ENDPOINT_ERROR_TIMEOUT
| SHANNON_ENDPOINT_ERROR_PAYLOAD_UNMARSHAL_ERR
| SHANNON_ENDPOINT_ERROR_RESPONSE_VALIDATION_ERR
| SHANNON_ENDPOINT_ERROR_RESPONSE_GET_PUBKEY_ERR
| SHANNON_ENDPOINT_ERROR_NIL_SUPPLIER_PUBKEY
| SHANNON_ENDPOINT_ERROR_RESPONSE_SIGNATURE_VALIDATION_ERR
| SHANNON_ENDPOINT_ERROR_HTTP_CONNECTION_REFUSED
| SHANNON_ENDPOINT_ERROR_HTTP_CONNECTION_RESET
| SHANNON_ENDPOINT_ERROR_HTTP_CONNECTION_TIMEOUT
| SHANNON_ENDPOINT_ERROR_HTTP_NO_ROUTE_TO_HOST
| SHANNON_ENDPOINT_ERROR_HTTP_NETWORK_UNREACHABLE
| SHANNON_ENDPOINT_ERROR_HTTP_BROKEN_PIPE
| SHANNON_ENDPOINT_ERROR_HTTP_IO_TIMEOUT
| SHANNON_ENDPOINT_ERROR_HTTP_TRANSPORT_ERROR
| SHANNON_ENDPOINT_ERROR_HTTP_BAD_RESPONSE
| SHANNON_ENDPOINT_ERROR_HTTP_INVALID_STATUS
| SHANNON_ENDPOINT_ERROR_RAW_PAYLOAD_CONNECTION_REFUSED
| SHANNON_ENDPOINT_ERROR_RAW_PAYLOAD_SERVICE_NOT_CONFIGURED
| SHANNON_ENDPOINT_ERROR_RAW_PAYLOAD_UNEXPECTED_EOF
| SHANNON_ENDPOINT_ERROR_RAW_PAYLOAD_PROTOCOL_WIRE_TYPE
| SHANNON_ENDPOINT_ERROR_RAW_PAYLOAD_PROTOCOL_RELAY_REQUEST
| SHANNON_ENDPOINT_ERROR_RAW_PAYLOAD_SUPPLIERS_NOT_REACHABLE
| SHANNON_ENDPOINT_ERROR_RAW_PAYLOAD_BACKEND_SERVICE
| SHANNON_ENDPOINT_ERROR_RAW_PAYLOAD_TCP_CONNECTION
| SHANNON_ENDPOINT_ERROR_RAW_PAYLOAD_RESPONSE_SIZE_EXCEEDED
| SHANNON_ENDPOINT_ERROR_RAW_PAYLOAD_SERVER_CLOSED_CONNECTION
| SHANNON_ENDPOINT_ERROR_RAW_PAYLOAD_HTTP_TRANSPORT
| SHANNON_ENDPOINT_ERROR_RAW_PAYLOAD_DNS_RESOLUTION
| SHANNON_ENDPOINT_ERROR_RAW_PAYLOAD_TLS_HANDSHAKE
| SHANNON_ENDPOINT_REQUEST_CANCELED_BY_PATH
| SHANNON_ENDPOINT_ERROR_HTTP_UNKNOWN
| SHANNON_ENDPOINT_ERROR_RAW_PAYLOAD_UNKNOWN
| SHANNON_ENDPOINT_ERROR_UNKNOWN
| SHANNON_ENDPOINT_ERROR_HTTP_NON_2XX_STATUS
| SHANNON_ENDPOINT_ERROR_HTTP_CONTEXT_DEADLINE_EXCEEDED
| SHANNON_ENDPOINT_ERROR_WEBSOCKET_CONNECTION_FAILED
| SHANNON_ENDPOINT_ERROR_WEBSOCKET_REQUEST_SIGNING_FAILED
| SHANNON_ENDPOINT_ERROR_WEBSOCKET_RELAY_RESPONSE_VALIDATION_FAILED
| SHANNON_ENDPOINT_ERROR_RELAY_MINER_HTTP_4XX
| SHANNON_ENDPOINT_ERROR_RELAY_MINER_HTTP_5XX
| SHANNON_ENDPOINT_ERROR_RAW_PAYLOAD_SESSION_MISMATCH.

#[export] Instance error_type_eq_dec : EqDecision ShannonEndpointErrorType.
Proof. solve_decision. Defined.

Definition error_type_String (t : ShannonEndpointErrorType) : string :=
  match t with
  | SHANNON_ENDPOINT_ERROR_UNSPECIFIED => "SHANNON_ENDPOINT_ERROR_UNSPECIFIED"
  | SHANNON_ENDPOINT_ERROR_INTERNAL => "SHANNON_ENDPOINT_ERROR_INTERNAL"
  | SHANNON_ENDPOINT_ERROR_CONFIG => "SHANNON_ENDPOINT_ERROR_CONFIG"
  | SHANNON_ENDPOINT_ERROR_TIMEOUT => "SHANNON_ENDPOINT_ERROR_TIMEOUT"
  | SHANNON_ENDPOINT_ERROR_PAYLOAD_UNMARSHAL_ERR => "SHANNON_ENDPOINT_ERROR_PAYLOAD_UNMARSHAL_ERR"
  | SHANNON_ENDPOINT_ERROR_RESPONSE_VALIDATION_ERR => "SHANNON_ENDPOINT_ERROR_RESPONSE_VALIDATION_ERR"
  | SHANNON_ENDPOINT_ERROR_RESPONSE_GET_PUBKEY_ERR => "SHANNON_ENDPOINT_ERROR_RESPONSE_GET_PUBKEY_ERR"
  | SHANNON_ENDPOINT_ERROR_NIL_SUPPLIER_PUBKEY => "SHANNON_ENDPOINT_ERROR_NIL_SUPPLIER_PUBKEY"
  | SHANNON_ENDPOINT_ERROR_RESPONSE_SIGNATURE_VALIDATION_ERR => "SHANNON_ENDPOINT_ERROR_RESPONSE_SIGNATURE_VALIDATION_ERR"
  | SHANNON_ENDPOINT_ERROR_HTTP_CONNECTION_REFUSED => "SHANNON_ENDPOINT_ERROR_HTTP_CONNECTION_REFUSED"
  | SHANNON_ENDPOINT_ERROR_HTTP_CONNECTION_RESET => "SHANNON_ENDPOINT_ERROR_HTTP_CONNECTION_RESET"
  | SHANNON_ENDPOINT_ERROR_HTTP_CONNECTION_TIMEOUT => "SHANNON_ENDPOINT_ERROR_HTTP_CONNECTION_TIMEOUT"
  | SHANNON_ENDPOINT_ERROR_HTTP_NO_ROUTE_TO_HOST => "SHANNON_ENDPOINT_ERROR_HTTP_NO_ROUTE_TO_HOST"
  | SHANNON_ENDPOINT_ERROR_HTTP_NETWORK_UNREACHABLE => "SHANNON_ENDPOINT_ERROR_HTTP_NETWORK_UNREACHABLE"
  | SHANNON_ENDPOINT_ERROR_HTTP_BROKEN_PIPE => "SHANNON_ENDPOINT_ERROR_HTTP_BROKEN_PIPE"
  | SHANNON_ENDPOINT_ERROR_HTTP_IO_TIMEOUT => "SHANNON_ENDPOINT_ERROR_HTTP_IO_TIMEOUT"
  | SHANNON_ENDPOINT_ERROR_HTTP_TRANSPORT_ERROR => "SHANNON_ENDPOINT_ERROR_HTTP_TRANSPORT_ERROR"
  | SHANNON_ENDPOINT_ERROR_HTTP_BAD_RESPONSE => "SHANNON_ENDPOINT_ERROR_HTTP_BAD_RESPONSE"
  | SHANNON_ENDPOINT_ERROR_HTTP_INVALID_STATUS => "SHANNON_ENDPOINT_ERROR_HTTP_INVALID_STATUS"
  | SHANNON_ENDPOINT_ERROR_RAW_PAYLOAD_CONNECTION_REFUSED => "SHANNON_ENDPOINT_ERROR_RAW_PAYLOAD_CONNECTION_REFUSED"
  | SHANNON_ENDPOINT_ERROR_RAW_PAYLOAD_SERVICE_NOT_CONFIGURED => "SHANNON_ENDPOINT_ERROR_RAW_PAYLOAD_SERVICE_NOT_CONFIGURED"
  | SHANNON_ENDPOINT_ERROR_RAW_PAYLOAD_UNEXPECTED_EOF => "SHANNON_ENDPOINT_ERROR_RAW_PAYLOAD_UNEXPECTED_EOF"
  | SHANNON_ENDPOINT_ERROR_RAW_PAYLOAD_PROTOCOL_WIRE_TYPE => "SHANNON_ENDPOINT_ERROR_RAW_PAYLOAD_PROTOCOL_WIRE_TYPE"
  | SHANNON_ENDPOINT_ERROR_RAW_PAYLOAD_PROTOCOL_RELAY_REQUEST => "SHANNON_ENDPOINT_ERROR_RAW_PAYLOAD_PROTOCOL_RELAY_REQUEST"
  | SHANNON_ENDPOINT_ERROR_RAW_PAYLOAD_SUPPLIERS_NOT_REACHABLE => "SHANNON_ENDPOINT_ERROR_RAW_PAYLOAD_SUPPLIERS_NOT_REACHABLE"
  | SHANNON_ENDPOINT_ERROR_RAW_PAYLOAD_BACKEND_SERVICE => "SHANNON_ENDPOINT_ERROR_RAW_PAYLOAD_BACKEND_SERVICE"
  | SHANNON_ENDPOINT_ERROR_RAW_PAYLOAD_TCP_CONNECTION => "SHANNON_ENDPOINT_ERROR_RAW_PAYLOAD_TCP_CONNECTION"
  | SHANNON_ENDPOINT_ERROR_RAW_PAYLOAD_RESPONSE_SIZE_EXCEEDED => "SHANNON_ENDPOINT_ERROR_RAW_PAYLOAD_RESPONSE_SIZE_EXCEEDED"
  | SHANNON_ENDPOINT_ERROR_RAW_PAYLOAD_SERVER_CLOSED_CONNECTION => "SHANNON_ENDPOINT_ERROR_RAW_PAYLOAD_SERVER_CLOSED_CONNECTION"
  | SHANNON_ENDPOINT_ERROR_RAW_PAYLOAD_HTTP_TRANSPORT => "SHANNON_ENDPOINT_ERROR_RAW_PAYLOAD_HTTP_TRANSPORT"
  | SHANNON_ENDPOINT_ERROR_RAW_PAYLOAD_DNS_RESOLUTION => "SHANNON_ENDPOINT_ERROR_RAW_PAYLOAD_DNS_RESOLUTION"
  | SHANNON_ENDPOINT_ERROR_RAW_PAYLOAD_TLS_HANDSHAKE => "SHANNON_ENDPOINT_ERROR_RAW_PAYLOAD_TLS_HANDSHAKE"
  | SHANNON_ENDPOINT_REQUEST_CANCELED_BY_PATH => "SHANNON_ENDPOINT_REQUEST_CANCELED_BY_PATH"
  | SHANNON_ENDPOINT_ERROR_HTTP_UNKNOWN => "SHANNON_ENDPOINT_ERROR_HTTP_UNKNOWN"
  | SHANNON_ENDPOINT_ERROR_RAW_PAYLOAD_UNKNOWN => "SHANNON_ENDPOINT_ERROR_RAW_PAYLOAD_UNKNOWN"
  | SHANNON_ENDPOINT_ERROR_UNKNOWN => "SHANNON_ENDPOINT_ERROR_UNKNOWN"
  | SHANNON_ENDPOINT_ERROR_HTTP_NON_2XX_STATUS => "SHANNON_ENDPOINT_ERROR_HTTP_NON_2XX_STATUS"
  | SHANNON_ENDPOINT_ERROR_HTTP_CONTEXT_DEADLINE_EXCEEDED => "SHANNON_ENDPOINT_ERROR_HTTP_CONTEXT_DEADLINE_EXCEEDED"
  | SHANNON_ENDPOINT_ERROR_WEBSOCKET_CONNECTION_FAILED => "SHANNON_ENDPOINT_ERROR_WEBSOCKET_CONNECTION_FAILED"
  | SHANNON_ENDPOINT_ERROR_WEBSOCKET_REQUEST_SIGNING_FAILED => "SHANNON_ENDPOINT_ERROR_WEBSOCKET_REQUEST_SIGNING_FAILED"
  | SHANNON_ENDPOINT_ERROR_WEBSOCKET_RELAY_RESPONSE_VALIDATION_FAILED => "SHANNON_ENDPOINT_ERROR_WEBSOCKET_RELAY_RESPONSE_VALIDATION_FAILED"
  | SHANNON_ENDPOINT_ERROR_RELAY_MINER_HTTP_4XX => "SHANNON_ENDPOINT_ERROR_RELAY_MINER_HTTP_4XX"
  | SHANNON_ENDPOINT_ERROR_RELAY_MINER_HTTP_5XX => "SHANNON_ENDPOINT_ERROR_RELAY_MINER_HTTP_5XX"
  | SHANNON_ENDPOINT_ERROR_RAW_PAYLOAD_SESSION_MISMATCH => "SHANNON_ENDPOINT_ERROR_RAW_PAYLOAD_SESSION_MISMATCH"
  end.

(** ** Matchers *)

(** strings.LastIndex *)
Fixpoint str_last_index (p s : string) : option nat :=
  match s with
  | EmptyString => if has_prefix p s then Some O else None
  | String _ s' =>
      match str_last_index p s' with
      | Some i => Some (S i)
      | None => if has_prefix p s then Some O else None
      end
  end.

(** strings.TrimPrefix *)
Definition trim_prefix (p s : string) : string := if has_prefix p s then str_drop (String.length p) s else s.

Definition is_digit_byte (c : ascii) : bool := match digit_val c with Some _ => true | None => false end.

(** Some occurrence of [p] is followed by a match of [k]. *)
Fixpoint match_after (p : string) (k : string -> bool) (s : string) : bool :=
  (has_prefix p s && k (str_drop (String.length p) s)) ||
  match s with EmptyString => false | String _ s' => match_after p k s' end.

(** The pattern \d+ *)
Definition starts_digit (s : string) : bool := match s with String c _ => is_digit_byte c | EmptyString => false end.

(** One or more bytes other than a quote, the closing quote, then [rest]. *)
Definition quoted_then (rest : string) (s : string) : bool :=
  match index_byte (ascii_of_nat 34) s with
  | Some i => (0 <? i)%nat && has_prefix rest (str_drop (S i) s)
  | None => false
  end.

Definition quote : string := String (ascii_of_nat 34) EmptyString.

Definition service_not_configured (s : string) : bool :=
  match_after ("service " +:+ quote) (quoted_then " not configured") s.

(** The pattern : (\d{3})$ *)
Definition trailing_status (s : string) : option Z :=
  let n := String.length s in
  if (n <? 5)%nat then None
  else match str_drop (n - 5) s with
       | String a (String b (String x (String y (String z EmptyString)))) =>
           if Ascii.eqb a ":" && Ascii.eqb b " " then
             match digit_val x, digit_val y, digit_val z with
             | Some x, Some y, Some z => Some (100 * x + 10 * y + z)
             | _, _, _ => None
             end
           else None
       | _ => None
       end.

Definition extractHTTPStatusCode (e : error) : option Z :=
  match trailing_status (err_text e) with
  | Some c => if (c <? 100) || (599 <? c) then None else Some c
  | None => None
  end.

(** ** Recognition of relay errors by their text *)

Definition isEndpointNetworkConfigError (e : error) : bool :=
  str_contains (err_text e) "dial tcp: lookup" || str_contains (err_text e) "tls: failed to verify certificate".

(** The sentinel the error is mapped to; an error returned as it is may be a sentinel itself. *)
Definition extractErrFromRelayError (e : error) : option sentinel :=
  if errors_Is e errSendHTTPRelay then err_self e
  else if isEndpointNetworkConfigError e then Some errRelayEndpointConfig
  else if str_contains (err_text e) "context deadline exceeded" then Some errRelayEndpointTimeout
  else if str_contains (err_text e) "non 2xx HTTP status code" then Some ErrRelayEndpointHTTPError
  else if str_contains (err_text e) "context canceled" then Some errContextCanceled
  else err_self e.

Definition isMalformedEndpointPayloadError (t : ShannonEndpointErrorType) : bool :=
  match t with
  | SHANNON_ENDPOINT_ERROR_RAW_PAYLOAD_CONNECTION_REFUSED
  | SHANNON_ENDPOINT_ERROR_RAW_PAYLOAD_SERVICE_NOT_CONFIGURED
  | SHANNON_ENDPOINT_ERROR_RAW_PAYLOAD_UNEXPECTED_EOF
  | SHANNON_ENDPOINT_ERROR_RAW_PAYLOAD_PROTOCOL_WIRE_TYPE
  | SHANNON_ENDPOINT_ERROR_RAW_PAYLOAD_PROTOCOL_RELAY_REQUEST
  | SHANNON_ENDPOINT_ERROR_RAW_PAYLOAD_SUPPLIERS_NOT_REACHABLE
  | SHANNON_ENDPOINT_ERROR_RAW_PAYLOAD_BACKEND_SERVICE
  | SHANNON_ENDPOINT_ERROR_RAW_PAYLOAD_TCP_CONNECTION
  | SHANNON_ENDPOINT_ERROR_RAW_PAYLOAD_RESPONSE_SIZE_EXCEEDED
  | SHANNON_ENDPOINT_ERROR_RAW_PAYLOAD_SERVER_CLOSED_CONNECTION
  | SHANNON_ENDPOINT_ERROR_RAW_PAYLOAD_HTTP_TRANSPORT
  | SHANNON_ENDPOINT_ERROR_RAW_PAYLOAD_DNS_RESOLUTION
  | SHANNON_ENDPOINT_ERROR_RAW_PAYLOAD_TLS_HANDSHAKE => true
  | _ => false
  end.

Definition isSupplierValidationError (e : option error) : bool :=
  match e with
  | None => false
  | Some e =>
      errors_Is e ErrRelayResponseValidationUnmarshal ||
      errors_Is e ErrRelayResponseValidationBasicValidation ||
      errors_Is e ErrRelayResponseValidationGetPubKey ||
      errors_Is e ErrRelayResponseValidationNilSupplierPubKey ||
      errors_Is e ErrRelayResponseValidationSignatureError
  end.

Definition getBlacklistReason (e : option error) : string :=
  match e with
  | None => "unknown"
  | Some e =>
      if errors_Is e ErrRelayResponseValidationSignatureError then "signature_error"
      else if errors_Is e ErrRelayResponseValidationUnmarshal then "unmarshal_error"
      else if errors_Is e ErrRelayResponseValidationGetPubKey then "pubkey_error"
      else if errors_Is e ErrRelayResponseValidationNilSupplierPubKey then "nil_pubkey"
      else if errors_Is e ErrRelayResponseValidationBasicValidation then "validation_error"
      else "unknown"
  end.

Definition isPubkeyRelatedError (e : option error) : bool :=
  match e with
  | None => false
  | Some e =>
      errors_Is e ErrRelayResponseValidationGetPubKey ||
      errors_Is e ErrRelayResponseValidationNilSupplierPubKey ||
      errors_Is e ErrRelayResponseValidationSignatureError
  end.

(** ** Signals *)

Section Classify.
Context `{UnicodeCase}.
Variable now : Time.

Definition verdict : Type := ShannonEndpointErrorType * Signal.

Definition critical (t : ShannonEndpointErrorType) (reason : string) (latency : Duration) : verdict :=
  (t, NewCriticalErrorSignal now reason latency).
Definition major (t : ShannonEndpointErrorType) (reason : string) (latency : Duration) : verdict :=
  (t, NewMajorErrorSignal now reason latency).
Definition minor (t : ShannonEndpointErrorType) (reason : string) : verdict := (t, NewMinorErrorSignal now reason).

(** The first case of a switch whose condition holds. *)
Fixpoint switch {A} (cases : list (bool * A)) (otherwise : A) : A :=
  match cases with
  | [] => otherwise
  | (c, a) :: rest => if c then a else switch rest otherwise
  end.

Definition classifyNon2XXStatusCode (e : error) (latency : Duration) : verdict :=
  match extractHTTPStatusCode e with
  | None => minor SHANNON_ENDPOINT_ERROR_HTTP_UNKNOWN "unknown_http_status"
  | Some c =>
      if (400 <=? c) && (c <? 500) then minor SHANNON_ENDPOINT_ERROR_RELAY_MINER_HTTP_4XX "client_error"
      else if (500 <=? c) && (c <? 600) then critical SHANNON_ENDPOINT_ERROR_RELAY_MINER_HTTP_5XX "service_error" latency
      else minor SHANNON_ENDPOINT_ERROR_HTTP_UNKNOWN "unknown_http_status"
  end.

Definition classifyHttpErrorAsSignal (e : error) (latency : Duration) : verdict :=
  let has := str_contains (err_text e) in
  if errors_Is e ErrRelayEndpointHTTPError then
    critical SHANNON_ENDPOINT_ERROR_HTTP_NON_2XX_STATUS "service_error" latency
  else if errors_Is e errEndpointNon2XXHTTPStatusCode then classifyNon2XXStatusCode e latency
  else switch
    [ (has "connection refused", major SHANNON_ENDPOINT_ERROR_HTTP_CONNECTION_REFUSED "connection_error" latency)
    ; (has "connection reset", major SHANNON_ENDPOINT_ERROR_HTTP_CONNECTION_RESET "connection_error" latency)
    ; (has "no route to host", major SHANNON_ENDPOINT_ERROR_HTTP_NO_ROUTE_TO_HOST "connection_error" latency)
    ; (has "network is unreachable", major SHANNON_ENDPOINT_ERROR_HTTP_NETWORK_UNREACHABLE "connection_error" latency)
    ; (has "broken pipe", major SHANNON_ENDPOINT_ERROR_HTTP_BROKEN_PIPE "connection_error" latency)
    ; (has "i/o timeout", major SHANNON_ENDPOINT_ERROR_HTTP_IO_TIMEOUT "timeout" latency)
    ; (has "context deadline exceeded",
       major SHANNON_ENDPOINT_ERROR_HTTP_CONTEXT_DEADLINE_EXCEEDED "timeout" latency)
    ; (has "dial tcp" && has "timeout", major SHANNON_ENDPOINT_ERROR_HTTP_CONNECTION_TIMEOUT "timeout" latency)
    ; (has "malformed HTTP", major SHANNON_ENDPOINT_ERROR_HTTP_BAD_RESPONSE "transport_error" latency)
    ; (has "invalid status", major SHANNON_ENDPOINT_ERROR_HTTP_INVALID_STATUS "transport_error" latency)
    ; (has "transport", major SHANNON_ENDPOINT_ERROR_HTTP_TRANSPORT_ERROR "transport_error" latency) ]
    (minor SHANNON_ENDPOINT_ERROR_HTTP_UNKNOWN "unknown_http_error").

Definition empty_response_signal (latency : Duration) : Signal :=
  let s := NewCriticalErrorSignal now "empty_response" latency in
  mkSignal (sig_Type s) (sig_Timestamp s) (sig_Latency s) (sig_Reason s) (sig_IsHealthCheck s) true (sig_Metadata s).

(** What the text of a payload without a heuristic reason says. *)
Definition classify_payload_text (payload : string) (latency : Duration) : verdict :=
  let has := str_contains payload in
  let indicator := IndicatorAnalysis payload false in
  switch
    [ (Found indicator && bool_decide (Category indicator = CategoryHTTPError),
       critical SHANNON_ENDPOINT_ERROR_RAW_PAYLOAD_BACKEND_SERVICE "backend_http_error" latency)
    ; (has "connection refused", major SHANNON_ENDPOINT_ERROR_RAW_PAYLOAD_CONNECTION_REFUSED "connection_error" latency)
    ; (has "service endpoint not handled by relayer proxy" || service_not_configured payload,
       (SHANNON_ENDPOINT_ERROR_RAW_PAYLOAD_SERVICE_NOT_CONFIGURED, NewFatalErrorSignal now "service_misconfiguration"))
    ; (match_after "proto: illegal wireType " starts_digit payload,
       critical SHANNON_ENDPOINT_ERROR_RAW_PAYLOAD_PROTOCOL_WIRE_TYPE "validation_error" latency)
    ; (has "proto: RelayRequest: wiretype end group",
       critical SHANNON_ENDPOINT_ERROR_RAW_PAYLOAD_PROTOCOL_RELAY_REQUEST "validation_error" latency)
    ; (has "unexpected EOF", major SHANNON_ENDPOINT_ERROR_RAW_PAYLOAD_UNEXPECTED_EOF "transport_error" latency)
    ; (match_after "backend service returned an error with status code " starts_digit payload,
       critical SHANNON_ENDPOINT_ERROR_RAW_PAYLOAD_BACKEND_SERVICE "service_error" latency)
    ; (has "supplier(s) not reachable",
       minor SHANNON_ENDPOINT_ERROR_RAW_PAYLOAD_SUPPLIERS_NOT_REACHABLE "suppliers_unreachable")
    ; (has "supplier does not belong to session",
       (SHANNON_ENDPOINT_ERROR_RAW_PAYLOAD_SESSION_MISMATCH, NewSuccessSignal now 0))
    ; (has "body size exceeds maximum allowed" || has "response limit exceed",
       minor SHANNON_ENDPOINT_ERROR_RAW_PAYLOAD_RESPONSE_SIZE_EXCEEDED "response_size_exceeded")
    ; (has "server closed idle connection",
       minor SHANNON_ENDPOINT_ERROR_RAW_PAYLOAD_SERVER_CLOSED_CONNECTION "connection_closed")
    ; (has "write tcp" && has "connection",
       major SHANNON_ENDPOINT_ERROR_RAW_PAYLOAD_TCP_CONNECTION "connection_error" latency)
    ; (has "no such host", major SHANNON_ENDPOINT_ERROR_RAW_PAYLOAD_DNS_RESOLUTION "connection_error" latency)
    ; (has "tls", major SHANNON_ENDPOINT_ERROR_RAW_PAYLOAD_TLS_HANDSHAKE "connection_error" latency)
    ; (has "http:" || has "HTTP", major SHANNON_ENDPOINT_ERROR_RAW_PAYLOAD_HTTP_TRANSPORT "transport_error" latency) ]
    (minor SHANNON_ENDPOINT_ERROR_RAW_PAYLOAD_UNKNOWN "unknown_payload_error").

(** [default] classifies the payload when the reason is none of those listed. *)
Definition classifyHeuristicErrorAsSignal (default : string -> Duration -> verdict) (reason payload : string)
  (latency : Duration) : verdict :=
  let same r := (reason =? r)%string in
  let indicates c := has_prefix ("error_indicator_" +:+ c) reason in
  switch
    [ (indicates "http_error" || same "html_error_page" || same "bad_gateway" || same "rest_error_field" ||
       same "rest_code_message_error",
       critical SHANNON_ENDPOINT_ERROR_RAW_PAYLOAD_BACKEND_SERVICE "service_error" latency)
    ; (indicates "connection_error",
       major SHANNON_ENDPOINT_ERROR_RAW_PAYLOAD_CONNECTION_REFUSED "connection_error" latency)
    ; (indicates "rate_limit",
       if IsOverServicedError payload then (SHANNON_ENDPOINT_ERROR_UNSPECIFIED, NewSuccessSignal now latency)
       else major SHANNON_ENDPOINT_ERROR_RAW_PAYLOAD_BACKEND_SERVICE "rate_limit" latency)
    ; (indicates "auth_error", minor SHANNON_ENDPOINT_ERROR_RELAY_MINER_HTTP_4XX "auth_error")
    ; (indicates "blockchain_error", minor SHANNON_ENDPOINT_ERROR_RAW_PAYLOAD_BACKEND_SERVICE "blockchain_error")
    ; (indicates "protocol_error" || same "jsonrpc_both_result_and_error" || same "jsonrpc_missing_result_and_error" ||
       same "malformed_json",
       critical SHANNON_ENDPOINT_ERROR_RAW_PAYLOAD_PROTOCOL_WIRE_TYPE "protocol_error" latency)
    ; (same "empty_response", (SHANNON_ENDPOINT_ERROR_RAW_PAYLOAD_UNEXPECTED_EOF, empty_response_signal latency))
    ; (same "small_no_result", minor SHANNON_ENDPOINT_ERROR_RAW_PAYLOAD_UNEXPECTED_EOF "small_no_result") ]
    (default payload latency).

Definition heuristic_marker : string := ": heuristic detected ".

(** The reason after the marker at [idx], without the method appended to it. *)
Definition heuristic_reason (payload : string) (idx : nat) : string :=
  let reason := str_drop (idx + String.length heuristic_marker) payload in
  match str_index " (" reason with Some paren => str_take paren reason | None => reason end.

(** The two classifiers call each other on ever shorter payloads; the length of the payload
    is fuel enough. *)
Fixpoint classify_malformed (fuel : nat) (payload : string) (latency : Duration) : verdict :=
  if IsOverServicedError payload then (SHANNON_ENDPOINT_ERROR_UNSPECIFIED, NewSuccessSignal now latency)
  else if ErrorContainsArchivalPattern payload then (SHANNON_ENDPOINT_ERROR_UNSPECIFIED, NewSuccessSignal now 0)
  else match str_last_index heuristic_marker payload, fuel with
       | Some idx, S fuel =>
           classifyHeuristicErrorAsSignal (classify_malformed fuel) (heuristic_reason payload idx)
             (str_take idx payload) latency
       | _, _ => classify_payload_text payload latency
       end.

Definition classifyMalformedPayloadAsSignal (payload : string) (latency : Duration) : verdict :=
  classify_malformed (String.length payload) payload latency.

(** The payload a producer put between the prefix and the text of the sentinel. *)
Definition wrapped_payload (text suffix : string) : string :=
  let content := trim_prefix "raw_payload: " text in
  match str_last_index suffix content with Some idx => str_take idx content | None => content end.

Definition classifyErrorAsSignal (err : option error) (latency : Duration) : verdict :=
  match err with
  | None => (SHANNON_ENDPOINT_ERROR_UNSPECIFIED, NewSuccessSignal now latency)
  | Some e =>
      switch
        [ (errors_Is e errSendHTTPRelay, classifyHttpErrorAsSignal e latency)
        ; (errors_Is e errMalformedEndpointPayload,
           classifyMalformedPayloadAsSignal (wrapped_payload (err_text e) ": endpoint returned malformed payload") latency)
        ; (errors_Is e errHeuristicDetectedBackendError,
           classifyMalformedPayloadAsSignal (wrapped_payload (err_text e) ": backend returned error response") latency)
        ; (errors_Is e ErrRelayResponseValidationUnmarshal,
           critical SHANNON_ENDPOINT_ERROR_PAYLOAD_UNMARSHAL_ERR "validation_error" latency)
        ; (errors_Is e ErrRelayResponseValidationBasicValidation,
           critical SHANNON_ENDPOINT_ERROR_RESPONSE_VALIDATION_ERR "validation_error" latency)
        ; (errors_Is e ErrRelayResponseValidationGetPubKey,
           critical SHANNON_ENDPOINT_ERROR_RESPONSE_GET_PUBKEY_ERR "validation_error" latency)
        ; (errors_Is e ErrRelayResponseValidationNilSupplierPubKey,
           critical SHANNON_ENDPOINT_ERROR_NIL_SUPPLIER_PUBKEY "validation_error" latency)
        ; (errors_Is e ErrRelayResponseValidationSignatureError,
           critical SHANNON_ENDPOINT_ERROR_RESPONSE_SIGNATURE_VALIDATION_ERR "validation_error" latency)
        ; (errors_Is e errCreatingWebSocketConnection,
           major SHANNON_ENDPOINT_ERROR_WEBSOCKET_CONNECTION_FAILED "connection_error" latency)
        ; (errors_Is e errRelayRequestWebsocketMessageSigningFailed,
           minor SHANNON_ENDPOINT_ERROR_WEBSOCKET_REQUEST_SIGNING_FAILED "websocket_validation")
        ; (errors_Is e errRelayResponseInWebsocketMessageValidationFailed,
           minor SHANNON_ENDPOINT_ERROR_WEBSOCKET_RELAY_RESPONSE_VALIDATION_FAILED "websocket_validation") ]
        match extractErrFromRelayError e with
        | Some errRelayEndpointConfig => major SHANNON_ENDPOINT_ERROR_CONFIG "config_error" latency
        | Some errRelayEndpointTimeout => major SHANNON_ENDPOINT_ERROR_TIMEOUT "timeout" latency
        | Some ErrRelayEndpointHTTPError => critical SHANNON_ENDPOINT_ERROR_HTTP_BAD_RESPONSE "service_error" latency
        | Some errContextCanceled => (SHANNON_ENDPOINT_REQUEST_CANCELED_BY_PATH, NewSuccessSignal now 0)
        | _ => minor SHANNON_ENDPOINT_ERROR_UNKNOWN (err_text e)
        end
  end.

(** The signal when only the type is known, from an observation. *)
Definition errorTypeToSignal (t : ShannonEndpointErrorType) (latency : Duration) : Signal :=
  match t with
  | SHANNON_ENDPOINT_ERROR_RAW_PAYLOAD_SERVICE_NOT_CONFIGURED => NewFatalErrorSignal now "service_misconfiguration"
  | SHANNON_ENDPOINT_ERROR_RESPONSE_VALIDATION_ERR
  | SHANNON_ENDPOINT_ERROR_RESPONSE_SIGNATURE_VALIDATION_ERR
  | SHANNON_ENDPOINT_ERROR_RESPONSE_GET_PUBKEY_ERR
  | SHANNON_ENDPOINT_ERROR_NIL_SUPPLIER_PUBKEY
  | SHANNON_ENDPOINT_ERROR_PAYLOAD_UNMARSHAL_ERR
  | SHANNON_ENDPOINT_ERROR_RAW_PAYLOAD_PROTOCOL_WIRE_TYPE
  | SHANNON_ENDPOINT_ERROR_RAW_PAYLOAD_PROTOCOL_RELAY_REQUEST => NewCriticalErrorSignal now "validation_error" latency
  | SHANNON_ENDPOINT_ERROR_HTTP_NON_2XX_STATUS
  | SHANNON_ENDPOINT_ERROR_HTTP_BAD_RESPONSE
  | SHANNON_ENDPOINT_ERROR_RELAY_MINER_HTTP_5XX
  | SHANNON_ENDPOINT_ERROR_RAW_PAYLOAD_BACKEND_SERVICE => NewCriticalErrorSignal now "service_error" latency
  | SHANNON_ENDPOINT_ERROR_HTTP_CONNECTION_REFUSED
  | SHANNON_ENDPOINT_ERROR_HTTP_CONNECTION_RESET
  | SHANNON_ENDPOINT_ERROR_HTTP_NO_ROUTE_TO_HOST
  | SHANNON_ENDPOINT_ERROR_HTTP_NETWORK_UNREACHABLE
  | SHANNON_ENDPOINT_ERROR_HTTP_BROKEN_PIPE
  | SHANNON_ENDPOINT_ERROR_WEBSOCKET_CONNECTION_FAILED
  | SHANNON_ENDPOINT_ERROR_RAW_PAYLOAD_CONNECTION_REFUSED
  | SHANNON_ENDPOINT_ERROR_RAW_PAYLOAD_TCP_CONNECTION
  | SHANNON_ENDPOINT_ERROR_RAW_PAYLOAD_DNS_RESOLUTION
  | SHANNON_ENDPOINT_ERROR_RAW_PAYLOAD_TLS_HANDSHAKE => NewMajorErrorSignal now "connection_error" latency
  | SHANNON_ENDPOINT_ERROR_TIMEOUT
  | SHANNON_ENDPOINT_ERROR_HTTP_IO_TIMEOUT
  | SHANNON_ENDPOINT_ERROR_HTTP_CONTEXT_DEADLINE_EXCEEDED
  | SHANNON_ENDPOINT_ERROR_HTTP_CONNECTION_TIMEOUT => NewMajorErrorSignal now "timeout" latency
  | SHANNON_ENDPOINT_ERROR_HTTP_TRANSPORT_ERROR
  | SHANNON_ENDPOINT_ERROR_HTTP_INVALID_STATUS
  | SHANNON_ENDPOINT_ERROR_RAW_PAYLOAD_UNEXPECTED_EOF
  | SHANNON_ENDPOINT_ERROR_RAW_PAYLOAD_HTTP_TRANSPORT => NewMajorErrorSignal now "transport_error" latency
  | SHANNON_ENDPOINT_ERROR_CONFIG => NewMajorErrorSignal now "config_error" latency
  | SHANNON_ENDPOINT_ERROR_RELAY_MINER_HTTP_4XX => NewMinorErrorSignal now "client_error"
  | SHANNON_ENDPOINT_REQUEST_CANCELED_BY_PATH => NewSuccessSignal now 0
  | _ => NewMinorErrorSignal now (error_type_String t)
  end.

(** The signal of an observation: none is a success. *)
Definition observation_signal (t : ShannonEndpointErrorType) : Signal :=
  if bool_decide (t = SHANNON_ENDPOINT_ERROR_UNSPECIFIED) then NewSuccessSignal now 0 else errorTypeToSignal t 0.
End Classify.
