(* ===== verification/ErrorClassProps.v ===== *)
(** * What the classification of errors guarantees

    The two classifiers of payloads terminate and satisfy the equations of the source; the
    payload a producer wraps in an error is recovered; the severity an observation stands for
    is the one of the error, but for the types that are used for several severities. *)

From S2P Require Import Prelude GoStrings Utf8 Signals Heuristic ErrorClass.
From Stdlib Require Import ZArith Lia Bool Ascii String.
From stdpp Require Import base list strings.

Open Scope string_scope.
Open Scope Z_scope.

(** ** Occurrences *)

Lemma has_prefix_length p s : has_prefix p s = true -> (String.length p <= String.length s)%nat.
Proof. intros [t ->]%has_prefix_spec. rewrite str_length_app. lia. Qed.

Lemma last_index_bound p s i : str_last_index p s = Some i -> (i + String.length p <= String.length s)%nat.
Proof.
  revert i. induction s as [|c s IH]; intros i; cbn [str_last_index].
  - destruct (has_prefix p "") eqn:E; [|done]. intros [= <-]. by apply has_prefix_length in E.
  - destruct (str_last_index p s) as [j|].
    + intros [= <-]. specialize (IH j eq_refl). cbn. lia.
    + destruct (has_prefix p (String c s)) eqn:E; [|done]. intros [= <-]. by apply has_prefix_length in E.
Qed.

Lemma last_index_short p s : (String.length s < String.length p)%nat -> str_last_index p s = None.
Proof.
  intros Hl. destruct (str_last_index p s) as [i|] eqn:E; [|done]. apply last_index_bound in E. lia.
Qed.

(** The last occurrence is at the end of [b] when there is one and none follows. *)
Lemma last_index_at p b c u :
  has_prefix p (String c u) = true -> str_last_index p u = None ->
  str_last_index p (b +:+ String c u) = Some (String.length b).
Proof.
  intros Hp Hu. induction b as [|x b IH].
  - change ("" +:+ String c u) with (String c u). cbn [str_last_index]. by rewrite Hu, Hp.
  - change (String x b +:+ String c u) with (String x (b +:+ String c u)). cbn [str_last_index]. by rewrite IH.
Qed.

Lemma last_index_end p b : p <> "" -> str_last_index p (b +:+ p) = Some (String.length b).
Proof.
  destruct p as [|c p]; [done|]. intros _. apply last_index_at; [|apply last_index_short; cbn; lia].
  apply has_prefix_spec. exists "". by rewrite str_app_nil_r.
Qed.

(** No occurrence starts in a text without the first byte of the pattern. *)
Lemma last_index_skip c p u t :
  contains_byte c u = false -> str_last_index (String c p) t = None -> str_last_index (String c p) (u +:+ t) = None.
Proof.
  intros Hu Ht. induction u as [|x u IH]; [exact Ht|]. rewrite contains_byte_cons in Hu.
  apply orb_false_iff in Hu as [Hx Hu].
  change (String x u +:+ t) with (String x (u +:+ t)). cbn [str_last_index has_prefix]. rewrite (IH Hu).
  replace (Ascii.eqb c x) with false; [done|]. symmetry. rewrite Ascii.eqb_sym. exact Hx.
Qed.

Lemma last_index_none p s : str_index p s = None -> str_last_index p s = None.
Proof.
  induction s as [|c s IH]; cbn [str_index str_last_index]; destruct (has_prefix p _); try done.
  destruct (str_index p s); [done|]. intros _. by rewrite IH.
Qed.


(** ** The recursion of the two classifiers *)

Section Props.
Context `{UnicodeCase}.
Variable now : Time.

Lemma switch_default {A} (cases : list (bool * A)) d1 d2 : d1 = d2 -> switch cases d1 = switch cases d2.
Proof. by intros ->. Qed.

Lemma classify_malformed_fuel n : forall payload latency,
  (String.length payload <= n)%nat ->
  classify_malformed now n payload latency = classifyMalformedPayloadAsSignal now payload latency.
Proof.
  induction n as [n IH] using lt_wf_ind. intros payload latency Hn. unfold classifyMalformedPayloadAsSignal.
  remember (String.length payload) as m eqn:Em.
  destruct n as [|n], m as [|m]; [done|lia| |]; cbn [classify_malformed];
    destruct (IsOverServicedError payload); try done; destruct (ErrorContainsArchivalPattern payload); try done;
    destruct (str_last_index heuristic_marker payload) as [idx|] eqn:Ei; try done.
  - apply last_index_bound in Ei. cbn in Ei. lia.
  - apply last_index_bound in Ei. change (String.length heuristic_marker) with 21%nat in Ei.
    unfold classifyHeuristicErrorAsSignal. apply switch_default.
    pose proof (str_take_length idx payload) as Ht.
    rewrite (IH n) by lia. symmetry. apply IH; lia.
Qed.

(** The two classifiers of payloads terminate: they call each other on ever shorter
    payloads, and the result satisfies the equation of the source for every payload, however
    many heuristic markers it contains. *)
Theorem classify_payload_equation payload latency :
  classifyMalformedPayloadAsSignal now payload latency =
  if IsOverServicedError payload then (SHANNON_ENDPOINT_ERROR_UNSPECIFIED, NewSuccessSignal now latency)
  else if ErrorContainsArchivalPattern payload then (SHANNON_ENDPOINT_ERROR_UNSPECIFIED, NewSuccessSignal now 0)
  else match str_last_index heuristic_marker payload with
       | Some idx => classifyHeuristicErrorAsSignal now (classifyMalformedPayloadAsSignal now)
                       (heuristic_reason payload idx) (str_take idx payload) latency
       | None => classify_payload_text now payload latency
       end.
Proof.
  rewrite <- (classify_malformed_fuel (S (String.length payload))) by lia. cbn [classify_malformed].
  destruct (IsOverServicedError payload); [done|]. destruct (ErrorContainsArchivalPattern payload); [done|].
  destruct (str_last_index heuristic_marker payload) as [idx|] eqn:Ei; [|done].
  unfold classifyHeuristicErrorAsSignal. apply switch_default, classify_malformed_fuel.
  apply last_index_bound in Ei. change (String.length heuristic_marker) with 21%nat in Ei.
  pose proof (str_take_length idx payload). lia.
Qed.

(** ** Producers *)

(** What sendRelay and validateAndProcessResponse wrap. *)
Definition malformed_error (body : string) : error :=
  mkError ("raw_payload: " +:+ body +:+ ": endpoint returned malformed payload") [errMalformedEndpointPayload] None.

Definition heuristic_error (body reason method : string) : error :=
  mkError ("raw_payload: " +:+ body +:+ heuristic_marker +:+ reason +:+ " (method=" +:+ method +:+ ")" +:+
           ": backend returned error response") [errHeuristicDetectedBackendError] None.

Lemma wrapped_payload_of body suffix :
  suffix <> "" -> wrapped_payload ("raw_payload: " +:+ body +:+ suffix) suffix = body.
Proof.
  intros Hs. unfold wrapped_payload, trim_prefix. rewrite has_prefix_app, str_drop_app.
  by rewrite last_index_end, str_take_app.
Qed.

Lemma first_paren reason rest :
  str_index " (" reason = None -> str_index " (" (reason +:+ " (" +:+ rest) = Some (String.length reason).
Proof.
  induction reason as [|c reason IH]; [done|].
  change (String c reason +:+ " (" +:+ rest) with (String c (reason +:+ " (" +:+ rest)). cbn [str_index].
  destruct (has_prefix " (" (String c reason)) eqn:E; [done|].
  destruct (str_index " (" reason); [done|]. intros _.
  replace (has_prefix " (" (String c (reason +:+ " (" +:+ rest))) with false.
  - by rewrite IH.
  - symmetry. cbn [has_prefix] in *. destruct reason as [|d reason]; cbn in *.
    + by destruct (Ascii.eqb " " c).
    + destruct (Ascii.eqb " " c); [|done]. by destruct (Ascii.eqb "(" d).
Qed.

(** The body of a malformed response is classified as it was received: wrapping it in an
    error and taking it out of the error's text is the identity, whatever the body contains. *)
Theorem malformed_payload_recovered body latency :
  classifyErrorAsSignal now (Some (malformed_error body)) latency = classifyMalformedPayloadAsSignal now body latency.
Proof. unfold classifyErrorAsSignal, malformed_error. cbn -[wrapped_payload]. by rewrite wrapped_payload_of. Qed.

(** A response the heuristics reject is classified by the reason they gave and its own
    body, when neither is exempt and the client's method holds no marker of its own: the
    method appended to the reason does not disturb it. *)
Theorem heuristic_reason_recovered body reason method latency :
  str_index " (" reason = None ->
  str_index heuristic_marker (reason +:+ " (method=" +:+ method +:+ ")") = None ->
  let payload := body +:+ heuristic_marker +:+ reason +:+ " (method=" +:+ method +:+ ")" in
  IsOverServicedError payload = false -> ErrorContainsArchivalPattern payload = false ->
  classifyErrorAsSignal now (Some (heuristic_error body reason method)) latency
  = classifyHeuristicErrorAsSignal now (classifyMalformedPayloadAsSignal now) reason body latency.
Proof.
  intros Hr Hm payload Ho Ha.
  assert (Hc : classifyErrorAsSignal now (Some (heuristic_error body reason method)) latency
               = classifyMalformedPayloadAsSignal now payload latency).
  { unfold classifyErrorAsSignal, heuristic_error. cbn -[wrapped_payload heuristic_marker].
    rewrite <- (wrapped_payload_of payload ": backend returned error response") by done.
    do 2 f_equal. unfold payload. rewrite <- !str_app_assoc. reflexivity. }
  rewrite Hc, classify_payload_equation, Ho, Ha.
  set (tail := reason +:+ " (method=" +:+ method +:+ ")") in *.
  assert (Hi : str_last_index heuristic_marker payload = Some (String.length body)).
  { unfold payload. fold tail. change (heuristic_marker +:+ tail) with (String ":" (" heuristic detected " +:+ tail)).
    apply last_index_at; [apply (has_prefix_app heuristic_marker)|].
    apply last_index_skip; [reflexivity|]. by apply last_index_none. }
  rewrite Hi. unfold payload. rewrite str_take_app. f_equal. unfold heuristic_reason.
  rewrite <- str_length_app, <- (str_app_assoc body), str_drop_app.
  unfold tail. change (" (method=" +:+ method +:+ ")") with (" (" +:+ ("method=" +:+ method +:+ ")")).
  by rewrite first_paren, str_take_app.
Qed.

(** ** Severity *)

(** The types that stand for responses of several severities. *)
Definition overloaded : list ShannonEndpointErrorType :=
  [ SHANNON_ENDPOINT_ERROR_RAW_PAYLOAD_BACKEND_SERVICE; SHANNON_ENDPOINT_ERROR_HTTP_BAD_RESPONSE;
    SHANNON_ENDPOINT_ERROR_RAW_PAYLOAD_UNEXPECTED_EOF; SHANNON_ENDPOINT_ERROR_RAW_PAYLOAD_SESSION_MISMATCH ].

Definition agrees (v : verdict) : Prop :=
  sig_Type (snd v) = sig_Type (observation_signal now (fst v)) \/ fst v ∈ overloaded.

Lemma switch_all {A} (P : A -> Prop) cases d : Forall P (map snd cases) -> P d -> P (switch cases d).
Proof.
  intros Hc Hd. induction cases as [|[c a] cases IH]; [exact Hd|]. inversion Hc; subst. cbn.
  destruct c; auto.
Qed.

(** Every verdict of a table agrees. *)
Ltac verdicts :=
  repeat first [apply List.Forall_nil | apply List.Forall_cons];
  try first [left; reflexivity | right; cbn; repeat (constructor 1 || constructor 2)].

Lemma payload_text_agrees payload latency : agrees (classify_payload_text now payload latency).
Proof. unfold classify_payload_text. apply (switch_all agrees); cbn [map snd]; verdicts. Qed.

Lemma heuristic_agrees default reason payload latency :
  agrees (default payload latency) -> agrees (classifyHeuristicErrorAsSignal now default reason payload latency).
Proof.
  intros Hd. unfold classifyHeuristicErrorAsSignal. apply (switch_all agrees); [|exact Hd]. cbn [map snd]. destruct (IsOverServicedError payload); verdicts.
Qed.

Lemma malformed_agrees n : forall payload latency, agrees (classify_malformed now n payload latency).
Proof.
  induction n as [|n IH]; intros payload latency; cbn [classify_malformed];
    (destruct (IsOverServicedError payload); [by left|]); (destruct (ErrorContainsArchivalPattern payload); [by left|]);
    destruct (str_last_index _ _); auto using payload_text_agrees, heuristic_agrees.
Qed.

Lemma http_agrees e latency : agrees (classifyHttpErrorAsSignal now e latency).
Proof.
  unfold classifyHttpErrorAsSignal. destruct (errors_Is e ErrRelayEndpointHTTPError); [by left|].
  destruct (errors_Is e errEndpointNon2XXHTTPStatusCode).
  - unfold classifyNon2XXStatusCode. destruct (extractHTTPStatusCode e); [|by left].
    destruct (_ && _); [by left|]. destruct (_ && _); by left.
  - apply (switch_all agrees); cbn [map snd]; verdicts.
Qed.

(** What the observation of a failed relay says weighs as much as the failure itself: the
    error type carries the severity of the signal, for every error, except for four types that
    are used for failures of different severities. *)
Theorem observation_severity err latency :
  fst (classifyErrorAsSignal now err latency) ∉ overloaded ->
  sig_Type (observation_signal now (fst (classifyErrorAsSignal now err latency)))
  = sig_Type (snd (classifyErrorAsSignal now err latency)).
Proof.
  assert (Ha : agrees (classifyErrorAsSignal now err latency)); [|intros Hn; destruct Ha as [->|?]; done].
  destruct err as [e|]; [|by left]. unfold classifyErrorAsSignal. apply (switch_all agrees).
  - cbn [map snd].
    constructor; [apply http_agrees|]. constructor; [apply malformed_agrees|]. constructor; [apply malformed_agrees|]. verdicts.
  - destruct (extractErrFromRelayError e) as [[]|]; by left.
Qed.

(** The supplier blacklist is fed by exactly the errors that name it: an error is a
    validation error of the supplier exactly when it has a blacklist reason, a key error is
    one, and unless the relay failed before there was a response to validate, such an error
    also costs the endpoint a critical signal. *)
Theorem validation_errors_blacklist e latency :
  (isSupplierValidationError (Some e) = true <-> getBlacklistReason (Some e) <> "unknown") /\
  (isPubkeyRelatedError (Some e) = true -> isSupplierValidationError (Some e) = true) /\
  (isSupplierValidationError (Some e) = true ->
   errors_Is e errSendHTTPRelay = false -> errors_Is e errMalformedEndpointPayload = false ->
   errors_Is e errHeuristicDetectedBackendError = false ->
   sig_Type (snd (classifyErrorAsSignal now (Some e) latency)) = SignalTypeCriticalError).
Proof.
  unfold isSupplierValidationError, isPubkeyRelatedError, getBlacklistReason, classifyErrorAsSignal. cbn [switch].
  destruct (errors_Is e ErrRelayResponseValidationUnmarshal), (errors_Is e ErrRelayResponseValidationBasicValidation),
    (errors_Is e ErrRelayResponseValidationGetPubKey), (errors_Is e ErrRelayResponseValidationNilSupplierPubKey),
    (errors_Is e ErrRelayResponseValidationSignatureError); cbn;
    (split; [by split|split; [done|]]); try done; by intros _ -> -> ->.
Qed.
End Props.

(** ** Witnesses and departures *)

(** Case folding of non-ASCII text does not matter below. *)
#[local] Instance ascii_case : UnicodeCase := {| lower_rune := fun r => r |}.

Lemma heuristic_reason_recovered_witness :
  classifyErrorAsSignal 0 (Some (heuristic_error "<html>" "html_error_page" "eth_call")) 7
  = classifyHeuristicErrorAsSignal 0 (classifyMalformedPayloadAsSignal 0) "html_error_page" "<html>" 7.
Proof. apply (heuristic_reason_recovered 0 "<html>" "html_error_page" "eth_call" 7); vm_compute; reflexivity. Defined.

Definition refused : error := mkError "HTTP relay request failed: dial tcp 1.2.3.4:443: connect: connection refused" [errSendHTTPRelay] None.

Lemma observation_severity_witness :
  sig_Type (observation_signal 0 (fst (classifyErrorAsSignal 0 (Some refused) 7))) = SignalTypeMajorError.
Proof.
  rewrite (observation_severity 0 (Some refused) 7); [vm_compute; reflexivity|].
  apply (bool_decide_unpack _). vm_compute. exact I.
Defined.

Lemma validation_errors_blacklist_witness :
  sig_Type (snd (classifyErrorAsSignal 0 (Some (mkError "bad signature" [ErrRelayResponseValidationSignatureError] None)) 7))
  = SignalTypeCriticalError.
Proof.
  apply (validation_errors_blacklist 0 (mkError "bad signature" [ErrRelayResponseValidationSignatureError] None) 7);
    vm_compute; reflexivity.
Defined.

(** The client's method can rewrite the verdict on an endpoint.  The method is appended to
    the reason and the whole text is searched: for one and the same rejected response, a method
    that quotes an archival error clears the endpoint, and one that quotes the marker with
    another reason makes it a protocol violation. *)
Theorem method_rewrites_verdict :
  let verdict method := snd (classifyErrorAsSignal 0 (Some (heuristic_error "<html>" "small_no_result" method)) 7) in
  sig_Type (verdict "eth_call") = SignalTypeMinorError /\
  sig_Type (verdict "missing trie node") = SignalTypeSuccess /\
  sig_Type (verdict "x: heuristic detected empty_response (") = SignalTypeCriticalError /\
  sig_IsProtocolViolation (verdict "x: heuristic detected empty_response (") = true.
Proof. repeat split; vm_compute; reflexivity. Qed.

(** A session mismatch is penalised after all.  It is classified as the gateway's own fault
    and credited, yet the observation of the same relay, which the protocol also applies, falls
    into the default branch and costs the endpoint a minor error. *)
Theorem session_mismatch_penalised :
  let v := classifyErrorAsSignal 0 (Some (malformed_error "supplier does not belong to session")) 7 in
  sig_Type (snd v) = SignalTypeSuccess /\ sig_Type (observation_signal 0 (fst v)) = SignalTypeMinorError.
Proof. split; vm_compute; reflexivity. Qed.
