(* ===== verification/RpcDetect.v ===== *)
(** * Detection and validation of the RPC type of a request

    gateway/rpc_type_detector.go, gateway/rpc_type_validator.go and the validation step of
    gateway/http_request_context.go.  A request is what detection looks at: the method, the
    path, the headers and the body, which reading consumes. *)

From S2P Require Import Prelude GoStrings Utf8 Json RPCTypes RepKey PoolGuards PoolGuardsProps.
From Stdlib Require Import ZArith Lia Bool Ascii String.
From stdpp Require Import base list strings.

Open Scope string_scope.
Open Scope Z_scope.

(** A body still to be read; after its content reading ends, or fails. *)
Record body := mkBody { bd_content : string; bd_fails : bool }.

Record http_request := mkHttpRequest {
  hr_Method : string;
  hr_Path : string;
  hr_Get : string -> string;      (** Header.Get; empty when absent *)
  hr_Body : option body;          (** [None] is a nil Body *)
}.

Definition with_body (r : http_request) (b : option body) : http_request :=
  mkHttpRequest (hr_Method r) (hr_Path r) (hr_Get r) b.

Definition RPCTypeHeader : string := "RPC-Type".
Definition maxPayloadInspectionBytes : Z := 100 * 1024.

(** io.ReadAll over an io.LimitReader: [None] is a read error.  The request with what is
    left of its body. *)
Definition readBodySafely (r : http_request) (maxBytes : Z) : option string * http_request :=
  match hr_Body r with
  | None => (Some "", r)
  | Some b =>
      let n := Z.to_nat maxBytes in
      if (n <=? String.length (bd_content b))%nat
      then (Some (str_take n (bd_content b)), with_body r (Some (mkBody (str_drop n (bd_content b)) (bd_fails b))))
      else (if bd_fails b then None else Some (bd_content b), with_body r (Some (mkBody "" (bd_fails b))))
  end.

(** strings.EqualFold with an ASCII name *)
Definition equal_fold (s name : string) : bool := bool_decide (fold_name s = fold_name name).

Definition isTypeAllowed (rpcTypeStr : string) (allowedTypes : list string) : bool :=
  existsb (fun allowed => equal_fold allowed rpcTypeStr) allowedTypes.

Definition quoted (s : string) : string := String "034" (s +:+ String "034" "").

Definition hasJSONRPCStructure (body : string) : bool :=
  if (String.length body =? 0)%nat then false
  else str_contains body (quoted "jsonrpc") || str_contains body (quoted "method") || str_contains body (quoted "id").

Definition extractJSONRPCMethod (body : string) : string :=
  match parse body with
  | Some v => match as_struct v with
              | Some ms => default "" (string_field "method" ms)
              | None => ""
              end
  | None => ""
  end.

Definition cometBFTPrefixes : list string :=
  ["abci_"; "block"; "broadcast_"; "consensus_"; "commit"; "genesis"; "health"; "net_"; "status"; "subscribe"; "tx";
   "unconfirmed_"; "validators"].

Definition cometBFTPaths : list string :=
  ["/abci_"; "/block"; "/broadcast_"; "/commit"; "/consensus_"; "/genesis"; "/health"; "/net_"; "/status"; "/subscribe";
   "/tx"; "/unconfirmed_"; "/validators"].

Inductive detect_error :=
| InvalidHeader (e : rpc_type_error)
| HeaderTypeNotSupported
| DetectedTypeNotSupported
| BodyReadFailed
| UndetectedType.

Section Detect.
Context `{RPCTypeMembers} `{RPCTypeConfig} `{UnicodeCase}.

Definition isRPCTypeAllowed (t : Z) (serviceRPCTypes : list string) : bool :=
  isTypeAllowed (FormatRPCType t) serviceRPCTypes.

Definition isWebSocketUpgrade (r : http_request) : bool := (to_lower_u (hr_Get r "Upgrade") =? "websocket")%string.

Definition isGRPCRequest (r : http_request) : bool := has_prefix "application/grpc" (hr_Get r "Content-Type").

Definition isCometBFTMethod (method : string) : bool :=
  existsb (fun prefix => has_prefix prefix (to_lower_u method)) cometBFTPrefixes.

Definition isCometBFTPath (path : string) : bool :=
  existsb (fun prefix => has_prefix prefix (to_lower_u path)) cometBFTPaths.

(** [Ok None]: no header. *)
Definition checkRPCTypeHeader (r : http_request) (serviceRPCTypes : list string) : result detect_error (option Z) :=
  let header := hr_Get r RPCTypeHeader in
  if (header =? "")%string then Ok None
  else match ParseRPCType header with
       | Err e => Err (InvalidHeader e)
       | Ok t => if isRPCTypeAllowed t serviceRPCTypes then Ok (Some t) else Err HeaderTypeNotSupported
       end.

Definition easyDetection (r : http_request) : option Z :=
  if isWebSocketUpgrade r then Some RPCType_WEBSOCKET
  else if isGRPCRequest r then Some RPCType_GRPC
  else None.

Definition processOfElimination (r : http_request) (serviceRPCTypes : list string) : option Z :=
  match List.filter IsHTTPBasedRPCType serviceRPCTypes with
  | [only] =>
      match ParseRPCType only with
      | Err _ => None
      | Ok t => if (t =? RPCType_JSON_RPC) && negb (hr_Method r =? "POST")%string then None else Some t
      end
  | _ => None
  end.

(** The type a configured name stands for; the source ignores the error, which leaves the
    unknown type. *)
Definition named_type (name : string) : Z :=
  match ParseRPCType name with Ok t => t | Err _ => RPCType_UNKNOWN_RPC end.

Definition inspectPayload (r : http_request) (serviceRPCTypes : list string) : result detect_error Z * http_request :=
  let '(read, r) := readBodySafely r maxPayloadInspectionBytes in
  match read with
  | None => (Err BodyReadFailed, r)
  | Some body =>
      let r := with_body r (Some (mkBody body false)) in
      let allowed name := isTypeAllowed name serviceRPCTypes in
      let jsonrpc := hasJSONRPCStructure body in
      (if jsonrpc && allowed RPCTypeStringCometBFT && isCometBFTMethod (extractJSONRPCMethod body)
       then Ok (named_type RPCTypeStringCometBFT)
       else if jsonrpc && allowed RPCTypeStringJSONRPC then Ok (named_type RPCTypeStringJSONRPC)
       else if isCometBFTPath (hr_Path r) && allowed RPCTypeStringCometBFT then Ok (named_type RPCTypeStringCometBFT)
       else if allowed RPCTypeStringREST then Ok (named_type RPCTypeStringREST)
       else Err UndetectedType, r)
  end.

Definition DetectRPCType (r : http_request) (serviceRPCTypes : list string) : result detect_error Z * http_request :=
  match checkRPCTypeHeader r serviceRPCTypes with
  | Err e => (Err e, r)
  | Ok (Some t) => (Ok t, r)
  | Ok None =>
      match easyDetection r with
      | Some t => (if isRPCTypeAllowed t serviceRPCTypes then Ok t else Err DetectedTypeNotSupported, r)
      | None =>
          match processOfElimination r serviceRPCTypes with
          | Some t => (Ok t, r)
          | None => inspectPayload r serviceRPCTypes
          end
      end
  end.

Inductive validation_error := ErrServiceNotConfigured | ErrUnsupportedRPCType | ErrRPCTypeDetectionFailed (e : detect_error).

(** [serviceRPCTypes]: what the unified configuration lists for the service. *)
Definition ValidateRPCType (serviceRPCTypes : list string) (t : Z) : option validation_error :=
  match serviceRPCTypes with
  | [] => Some ErrServiceNotConfigured
  | _ => if existsb (fun allowed => (allowed =? FormatRPCType t)%string) serviceRPCTypes then None
         else Some ErrUnsupportedRPCType
  end.

Definition ValidateServiceConfigured (configured : list string) (serviceID : string) : option validation_error :=
  if existsb (String.eqb serviceID) configured then None else Some ErrServiceNotConfigured.

(** The step of the request context, with a unified configuration: the error, the detected
    type if it is set, and the request.  Without configured types it does nothing. *)
Definition request_ValidateRPCType (r : http_request) (serviceRPCTypes : list string)
  : option validation_error * option Z * http_request :=
  match serviceRPCTypes with
  | [] => (None, None, r)
  | _ =>
      match DetectRPCType r serviceRPCTypes with
      | (Err e, r) =>
          let r := match hr_Body r with
                   | None => r
                   | Some _ => match readBodySafely r 512 with
                               | (Some snippet, r) => with_body r (Some (mkBody snippet false))
                               | (None, r) => r
                               end
                   end in
          (Some (ErrRPCTypeDetectionFailed e), None, r)
      | (Ok t, r) => (ValidateRPCType serviceRPCTypes t, Some t, r)
      end
  end.
End Detect.

(** ** What RPC type detection guarantees

    A detected type is one the service lists; detection hands the body on as it was as long
    as it is short, and cuts it off otherwise. *)

Open Scope string_scope.
Open Scope Z_scope.

(** ** Folding *)

Lemma list_ascii_map f s : list_ascii_of_string (str_map f s) = map f (list_ascii_of_string s).
Proof. induction s as [|c s IH]; cbn; [done|]. by rewrite IH. Qed.

Lemma fold_rune_lower c : fold_rune (byte_val (lower_ascii c)) = fold_rune (byte_val c).
Proof. destruct c as [[] [] [] [] [] [] [] []]; reflexivity. Qed.

Lemma fold_name_lower s : is_ascii s = true -> fold_name (to_lower s) = fold_name s.
Proof.
  intros Hs. unfold fold_name. rewrite !chunks_ascii by (rewrite ?to_lower_is_ascii; done).
  unfold to_lower. rewrite list_ascii_map, !map_map. apply map_ext. intros c. cbn. apply fold_rune_lower.
Qed.

Lemma upper_lower c : upper_ascii (lower_ascii c) = upper_ascii c.
Proof. destruct c as [[] [] [] [] [] [] [] []]; reflexivity. Qed.

Lemma to_upper_lower s : to_upper (to_lower s) = to_upper s.
Proof. unfold to_upper, to_lower. induction s as [|c s IH]; cbn; [done|]. by rewrite upper_lower, IH. Qed.

(** A name written in another case. *)
Lemma lower_name s name :
  to_lower s = name -> is_ascii name = true -> equal_fold s name = true /\ to_upper s = to_upper name.
Proof.
  intros <- Ha. rewrite to_lower_is_ascii in Ha. split; [|by rewrite to_upper_lower].
  apply bool_decide_eq_true_2. by rewrite fold_name_lower.
Qed.

Section Detection.
Context `{RPCTypeDistinct} `{RPCTypeConfig} `{!RPCTypeConfigLaws} `{UnicodeCase}.

(** The three HTTP types. *)
Definition http_named (name : string) (t : Z) : Prop :=
  (name = RPCTypeStringJSONRPC /\ t = RPCType_JSON_RPC) \/ (name = RPCTypeStringREST /\ t = RPCType_REST) \/
  (name = RPCTypeStringCometBFT /\ t = RPCType_COMET_BFT).

Lemma http_named_parse s name t :
  http_named name t -> to_lower s = name -> ParseRPCType s = Ok t /\ FormatRPCType t = name /\ equal_fold s name = true.
Proof.
  intros Hn Hs. unfold ParseRPCType, FormatRPCType.
  assert (Hne : (s =? "")%string = false).
  { destruct s; [|done]. destruct Hn as [[-> _]|[[-> _]|[-> _]]]; discriminate Hs. }
  rewrite Hne.
  destruct Hn as [[-> ->]|[[-> ->]|[-> ->]]]; destruct (lower_name _ _ Hs eq_refl) as [-> ->];
    match goal with |- context [to_upper ?n] => let u := eval vm_compute in (to_upper n) in change (to_upper n) with u end;
    rewrite ?config_json, ?config_rest, ?config_comet; rpc_compare; done.
Qed.

Lemma named_type_http name t : http_named name t -> named_type name = t /\ FormatRPCType t = name.
Proof.
  intros Hn. assert (Hl : to_lower name = name) by (destruct Hn as [[-> _]|[[-> _]|[-> _]]]; reflexivity).
  destruct (http_named_parse name name t Hn Hl) as (Hp & Hf & _). unfold named_type. by rewrite Hp.
Qed.

Lemma http_based_named s : IsHTTPBasedRPCType s = true -> exists name t, http_named name t /\ to_lower s = name.
Proof.
  unfold IsHTTPBasedRPCType, http_named. intros [[Hj|Hr]%orb_true_iff|Hc]%orb_true_iff; eapply String.eqb_eq in Hj || eapply String.eqb_eq in Hr || eapply String.eqb_eq in Hc; eauto 10.
Qed.

Lemma elimination_allowed r types t : processOfElimination r types = Some t -> isRPCTypeAllowed t types = true.
Proof.
  unfold processOfElimination. destruct (List.filter IsHTTPBasedRPCType types) as [|only [|]] eqn:Ef; try done.
  assert (Hin : In only (List.filter IsHTTPBasedRPCType types)) by (rewrite Ef; by left).
  apply filter_In in Hin as [Hin Hb].
  destruct (http_based_named only Hb) as (name & t0 & Hn & Hl).
  destruct (http_named_parse only name t0 Hn Hl) as (-> & Hf & He).
  destruct (_ && _); [done|]. intros [= <-]. unfold isRPCTypeAllowed, isTypeAllowed. rewrite Hf.
  apply existsb_exists. eauto.
Qed.

Lemma named_allowed name t types :
  http_named name t -> isTypeAllowed name types = true -> isRPCTypeAllowed (named_type name) types = true.
Proof. intros Hn Ha. destruct (named_type_http name t Hn) as [-> Hf]. unfold isRPCTypeAllowed. by rewrite Hf. Qed.

Lemma inspection_allowed r types t : fst (inspectPayload r types) = Ok t -> isRPCTypeAllowed t types = true.
Proof.
  unfold inspectPayload. destruct (readBodySafely _ _) as [[body|] r']; [|done]. cbv zeta. cbn [fst].
  destruct (hasJSONRPCStructure body && isTypeAllowed RPCTypeStringCometBFT types && _) eqn:E1.
  { intros [= <-]. apply andb_true_iff in E1 as [[_ ?]%andb_true_iff _]. eapply named_allowed; [|done]. by right; right. }
  destruct (hasJSONRPCStructure body && isTypeAllowed RPCTypeStringJSONRPC types) eqn:E2.
  { intros [= <-]. apply andb_true_iff in E2 as [_ ?]. eapply named_allowed; [|done]. by left. }
  destruct (isCometBFTPath _ && isTypeAllowed RPCTypeStringCometBFT types) eqn:E3.
  { intros [= <-]. apply andb_true_iff in E3 as [_ ?]. eapply named_allowed; [|done]. by right; right. }
  destruct (isTypeAllowed RPCTypeStringREST types) eqn:E4; [|done].
  intros [= <-]. eapply named_allowed; [|done]. by right; left.
Qed.

(** A request is only ever given an RPC type its service lists, in any case of letters,
    whichever step detected it: the header, the upgrade, the elimination or the payload. *)
Theorem detected_type_allowed r types t :
  fst (DetectRPCType r types) = Ok t -> isRPCTypeAllowed t types = true.
Proof.
  unfold DetectRPCType, checkRPCTypeHeader. destruct (_ =? "")%string.
  - destruct (easyDetection r) as [t0|].
    + cbn [fst]. destruct (isRPCTypeAllowed t0 types) eqn:E; [|done]. by intros [= <-].
    + destruct (processOfElimination r types) as [t0|] eqn:E; [|apply inspection_allowed].
      intros [= <-]. by eapply elimination_allowed.
  - destruct (ParseRPCType _) as [t0|]; [|done]. destruct (isRPCTypeAllowed t0 types) eqn:E; [|done]. by intros [= <-].
Qed.
End Detection.

(** ** The body *)

Lemma take_all n s : (String.length s <= n)%nat -> str_take n s = s.
Proof.
  revert s. induction n as [|n IH]; intros [|c s] Hl; cbn in *; try done; [lia|]. rewrite IH; [done|lia].
Qed.

Lemma read_whole r b maxBytes :
  hr_Body r = Some b -> bd_fails b = false -> Z.of_nat (String.length (bd_content b)) <= maxBytes ->
  fst (readBodySafely r maxBytes) = Some (bd_content b).
Proof.
  intros Hb Hf Hl. unfold readBodySafely. rewrite Hb, Hf.
  destruct (Nat.leb_spec (Z.to_nat maxBytes) (String.length (bd_content b))); cbn [fst]; [|done].
  f_equal. apply take_all. lia.
Qed.

Lemma read_prefix r b maxBytes :
  hr_Body r = Some b -> 0 <= maxBytes <= Z.of_nat (String.length (bd_content b)) ->
  fst (readBodySafely r maxBytes) = Some (str_take (Z.to_nat maxBytes) (bd_content b)).
Proof.
  intros Hb Hl. unfold readBodySafely. rewrite Hb.
  destruct (Nat.leb_spec (Z.to_nat maxBytes) (String.length (bd_content b))); [done|lia].
Qed.

Section Bodies.
Context `{RPCTypeMembers} `{RPCTypeConfig} `{UnicodeCase}.

(** Detection gets as far as the payload. *)
Definition inspected (r : http_request) (types : list string) : Prop :=
  checkRPCTypeHeader r types = Ok None /\ easyDetection r = None /\ processOfElimination r types = None.

Lemma inspect_body r types : forall body,
  fst (readBodySafely r maxPayloadInspectionBytes) = Some body ->
  hr_Body (snd (inspectPayload r types)) = Some (mkBody body false).
Proof.
  intros body Hb. unfold inspectPayload. destruct (readBodySafely _ _) as [o r']. cbn [fst] in Hb. by subst o.
Qed.

Lemma detect_body r types :
  snd (DetectRPCType r types) = r \/ (inspected r types /\ snd (DetectRPCType r types) = snd (inspectPayload r types)).
Proof.
  unfold DetectRPCType, inspected. destruct (checkRPCTypeHeader r types) as [[t|]|]; [by left| |by left].
  destruct (easyDetection r); [by left|]. destruct (processOfElimination r types); [by left|]. by right.
Qed.

(** Detection is invisible to what follows for a body of at most 100 KiB that can be read:
    the request carries the same body afterwards, whichever step detected the type. *)
Theorem detection_keeps_body r types b :
  hr_Body r = Some b -> bd_fails b = false -> Z.of_nat (String.length (bd_content b)) <= maxPayloadInspectionBytes ->
  hr_Body (snd (DetectRPCType r types)) = Some b.
Proof.
  intros Hb Hf Hl. destruct (detect_body r types) as [->|[_ ->]]; [exact Hb|].
  rewrite (inspect_body r types (bd_content b)) by (by apply read_whole). destruct b as [c f]. cbn in *. by subst f.
Qed.

(** A longer body is cut off.  When the payload decides, the request is handed on with the
    first 100 KiB of its body only, and the type detected is reported as a success. *)
Theorem inspection_truncates_body r types b :
  inspected r types -> hr_Body r = Some b -> maxPayloadInspectionBytes < Z.of_nat (String.length (bd_content b)) ->
  hr_Body (snd (DetectRPCType r types)) = Some (mkBody (str_take (Z.to_nat maxPayloadInspectionBytes) (bd_content b)) false).
Proof.
  intros (Hc & He & Hp) Hb Hl. unfold DetectRPCType. rewrite Hc, He, Hp.
  apply inspect_body, read_prefix; [exact Hb|]. unfold maxPayloadInspectionBytes in *. lia.
Qed.
End Bodies.

(** ** Witnesses *)

#[local] Existing Instance config_lib.
#[local] Instance ascii_case : UnicodeCase := {| lower_rune := fun r => r |}.

Definition post (body : string) : http_request := mkHttpRequest "POST" "/" (fun _ => "") (Some (mkBody body false)).
Definition both_types : list string := ["json_rpc"; "rest"].

(** [n] copies of a byte after a JSON-RPC head *)
Definition call : string := "{" +:+ quoted "jsonrpc" +:+ ":" +:+ quoted "2.0" +:+ "," +:+ quoted "method" +:+ ":" +:+ quoted "eth_call".
Definition long_call (n : nat) : string := call +:+ string_of_list_ascii (repeat " "%char n) +:+ "}".
Definition long_body : string := long_call (Z.to_nat 200000).

Lemma long_call_length n : (n <= String.length (long_call n))%nat.
Proof.
  unfold long_call. rewrite !str_length_app.
  assert (Hl : String.length (string_of_list_ascii (repeat " "%char n)) = n) by (induction n; cbn; congruence). lia.
Qed.

#[export] Instance full_config_lib : RPCTypeConfig := {|
  GetRPCTypeFromConfig := fun s =>
    if (s =? "WEBSOCKET")%string then Some RPCType_WEBSOCKET
    else if (s =? "JSON_RPC")%string then Some RPCType_JSON_RPC
    else if (s =? "REST")%string then Some RPCType_REST
    else if (s =? "COMET_BFT")%string then Some RPCType_COMET_BFT
    else if (s =? "GRPC")%string then Some RPCType_GRPC else None
|}.

#[export] Instance full_config_laws : RPCTypeConfigLaws.
Proof. by split. Qed.

Lemma detected_type_allowed_witness :
  fst (DetectRPCType (post call) both_types) = Ok RPCType_JSON_RPC /\ isRPCTypeAllowed RPCType_JSON_RPC both_types = true.
Proof.
  assert (Hd : fst (DetectRPCType (post call) both_types) = Ok RPCType_JSON_RPC) by (vm_compute; reflexivity).
  split; [exact Hd|]. exact (detected_type_allowed (post call) both_types RPCType_JSON_RPC Hd).
Defined.

Lemma detection_keeps_body_witness :
  hr_Body (snd (DetectRPCType (post call) both_types)) = Some (mkBody call false).
Proof. apply (detection_keeps_body (post call) both_types (mkBody call false)); [reflexivity|reflexivity|vm_compute; discriminate]. Defined.

Lemma inspection_truncates_body_witness :
  hr_Body (snd (DetectRPCType (post long_body) both_types))
  = Some (mkBody (str_take (Z.to_nat maxPayloadInspectionBytes) long_body) false).
Proof.
  apply (inspection_truncates_body (post long_body) both_types (mkBody long_body false)).
  - split; [|split]; reflexivity.
  - reflexivity.
  - pose proof (long_call_length (Z.to_nat 200000)) as Hl. fold long_body in Hl.
    unfold maxPayloadInspectionBytes. cbn [bd_content]. lia.
Defined.

(** Detection and validation read the configuration differently: with a type configured in
    capitals detection succeeds, and the same request is then refused as unsupported. *)
Theorem capital_type_detected_then_refused :
  let types := ["JSON_RPC"; "REST"] in
  fst (DetectRPCType (post call) types) = Ok RPCType_JSON_RPC /\
  fst (fst (request_ValidateRPCType (post call) types)) = Some ErrUnsupportedRPCType.
Proof. split; vm_compute; reflexivity. Qed.
