(* ===== verification/SolanaQoS.v ===== *)
(** * The Solana QoS service: qos/solana

    The endpoint store and the perceived epoch and block height (endpoint.go, store.go,
    state.go, observe.go, solana.go, service_qos_config.go): validation, filtering, selection
    with its fallback, updates from observations and extracted data, the external block source
    and the exchange with the reputation service.  Conventions are those of EvmQoS.v: every
    operation takes the time, work handed to goroutines is returned as tasks, and the order in
    which a Go map is ranged over is an argument.  Request parsing is not part of this file. *)

From S2P Require Import Prelude GoStrings Float64 GoSort Domain RepKey Signals Score RepConfig RepStorage RepService Selection BlockConsensus EvmQoS.
From Stdlib Require Import ZArith Lia Bool Ascii String.
From stdpp Require Import base list gmap strings fin_maps.

Open Scope string_scope.
Open Scope Z_scope.
Open Scope go_scope.

(** ** Endpoints *)

Record EpochInfo := mkEpochInfo { ei_Epoch : Z; ei_BlockHeight : Z }.

Record sol_endpoint := mkSolEndpoint {
  se_Health : option string;              (** Result of getHealth *)
  se_EpochInfo : option EpochInfo;
  se_latestValidationError : option Time;
  se_lastSeen : Time;
}.

Definition zero_sol_endpoint : sol_endpoint := mkSolEndpoint None None None time_zero.

Definition resultGetHealthOK : string := "ok".
Definition resultGetHealthSyncing : string := "syncing".
Definition validationErrorResponseWindow : Duration := 30 * minute.

Inductive sol_error :=
| errRecentJSONRPCValidationError
| errInvalidGetHealthObs (result : string)
| errNoGetEpochInfoObs
| errInvalidGetEpochInfoHeightZeroObs
| EpochBehind
| HeightBehind.

Definition hasRecentValidationErrors (now : Time) (e : sol_endpoint) : bool :=
  match se_latestValidationError e with
  | None => false
  | Some t => time_after t (time_add now (- validationErrorResponseWindow))
  end.

Definition validateBasic (now : Time) (e : sol_endpoint) : option sol_error :=
  if hasRecentValidationErrors now e then Some errRecentJSONRPCValidationError
  else match se_Health e, se_EpochInfo e with
       | Some r, info =>
           if negb (r =? resultGetHealthOK)%string then Some (errInvalidGetHealthObs r)
           else match info with
                | None => Some errNoGetEpochInfoObs
                | Some i => if ei_BlockHeight i =? 0 then Some errInvalidGetEpochInfoHeightZeroObs else None
                end
       | None, None => Some errNoGetEpochInfoObs
       | None, Some i => if ei_BlockHeight i =? 0 then Some errInvalidGetEpochInfoHeightZeroObs else None
       end.

(** Fields promoted from the epoch info; reading them through a nil pointer would panic, and
    is only reached after validateBasic. *)
Definition sol_Epoch (e : sol_endpoint) : Z := match se_EpochInfo e with Some i => ei_Epoch i | None => 0 end.
Definition sol_BlockHeight (e : sol_endpoint) : Z := match se_EpochInfo e with Some i => ei_BlockHeight i | None => 0 end.

(** An observation carries one of these responses, or none. *)
Inductive SolanaResponse :=
| GetEpochInfoResponse (info : EpochInfo)
| GetHealthResponse (result : string)
| UnrecognizedResponse (validationError : option Time)
| NoSolanaResponse.

Definition sol_applyObservation (e : sol_endpoint) (o : SolanaResponse) : sol_endpoint * bool :=
  match o with
  | GetEpochInfoResponse i => (mkSolEndpoint (se_Health e) (Some i) (se_latestValidationError e) (se_lastSeen e), true)
  | GetHealthResponse r => (mkSolEndpoint (Some r) (se_EpochInfo e) (se_latestValidationError e) (se_lastSeen e), true)
  | UnrecognizedResponse None => (e, true)
  | UnrecognizedResponse (Some t) =>
      let newer := match se_latestValidationError e with None => true | Some t0 => time_after t t0 end in
      (if newer then mkSolEndpoint (se_Health e) (se_EpochInfo e) (Some t) (se_lastSeen e) else e, true)
  | NoSolanaResponse => (e, false)
  end.

(** ** State *)

Record sol_state := mkSolState {
  sol_serviceID : ServiceID;
  sol_endpoints : gmap EndpointAddr sol_endpoint;
  sol_perceivedEpoch : Z;
  sol_perceivedBlockHeight : Z;
  sol_syncAllowance : Z;                  (** 0: not set *)
  sol_maxOperatorShare : float64;
}.

Definition sol_set_endpoints (q : sol_state) m : sol_state :=
  mkSolState (sol_serviceID q) m (sol_perceivedEpoch q) (sol_perceivedBlockHeight q) (sol_syncAllowance q) (sol_maxOperatorShare q).
Definition sol_set_height (q : sol_state) h : sol_state :=
  mkSolState (sol_serviceID q) (sol_endpoints q) (sol_perceivedEpoch q) h (sol_syncAllowance q) (sol_maxOperatorShare q).
Definition sol_set_epoch (q : sol_state) e : sol_state :=
  mkSolState (sol_serviceID q) (sol_endpoints q) e (sol_perceivedBlockHeight q) (sol_syncAllowance q) (sol_maxOperatorShare q).

Definition sol_NewSimpleQoSInstance (serviceID : ServiceID) : sol_state := mkSolState serviceID ∅ 0 0 0 f_zero.

Definition defaultSolanaBlockNumberSyncAllowance : Z := 1500.

Definition sol_getSyncAllowance (q : sol_state) : Z :=
  if 0 <? sol_syncAllowance q then sol_syncAllowance q else defaultSolanaBlockNumberSyncAllowance.

Definition sol_SetSyncAllowance (q : sol_state) (n : Z) : sol_state :=
  mkSolState (sol_serviceID q) (sol_endpoints q) (sol_perceivedEpoch q) (sol_perceivedBlockHeight q) n (sol_maxOperatorShare q).

Definition sol_SetMaxOperatorShare (q : sol_state) (share : float64) : sol_state :=
  mkSolState (sol_serviceID q) (sol_endpoints q) (sol_perceivedEpoch q) (sol_perceivedBlockHeight q) (sol_syncAllowance q) share.

Definition sol_ValidateEndpoint (q : sol_state) (now : Time) (e : sol_endpoint) : option sol_error :=
  match validateBasic now e with
  | Some err => Some err
  | None =>
      if (0 <? sol_Epoch e) && (0 <? sol_perceivedEpoch q) && (wrapu64 (sol_Epoch e + 1) <? sol_perceivedEpoch q)
      then Some EpochBehind
      else if sol_BlockHeight e <? MinAllowedBlockNumber (sol_perceivedBlockHeight q) (sol_getSyncAllowance q)
      then Some HeightBehind
      else None
  end.

(** One endpoint of the loop of UpdateFromEndpoints. *)
Definition sol_update_from_endpoint (now : Time) (q : sol_state) (e : sol_endpoint) : sol_state :=
  match validateBasic now e with
  | Some _ => q
  | None =>
      if sol_Epoch e <? sol_perceivedEpoch q then q
      else if sol_BlockHeight e <=? sol_perceivedBlockHeight q then q
      else if negb (IsPlausibleBlockHeight (sol_BlockHeight e) (sol_perceivedBlockHeight q)) then q
      else sol_set_height (sol_set_epoch q (sol_Epoch e)) (sol_BlockHeight e)
  end.

Definition sol_UpdateFromEndpoints (now : Time) (q : sol_state) (order : list sol_endpoint) : sol_state :=
  fold_left (sol_update_from_endpoint now) order q.

(** The store after the observations, and the updated endpoints. *)
Definition sol_UpdateEndpointsFromObservations (m : gmap EndpointAddr sol_endpoint)
  (obs : list (option (EndpointAddr * SolanaResponse)))
  : gmap EndpointAddr sol_endpoint * gmap EndpointAddr sol_endpoint :=
  fold_left (fun '(m, updated) o =>
    match o with
    | None => (m, updated)
    | Some (addr, response) =>
        let '(e, mutated) := sol_applyObservation (default zero_sol_endpoint (m !! addr)) response in
        if mutated then (<[addr := e]> m, <[addr := e]> updated) else (m, updated)
    end) obs (m, ∅).

Inductive sol_apply_error := SolNilObservations | SolNilSolanaObservations.

(** [order] permutes the updated endpoints as the loop over the map meets them. *)
Definition sol_ApplyObservations (now : Time) (order : list sol_endpoint -> list sol_endpoint) (q : sol_state)
  (observations : option (option (list (option (EndpointAddr * SolanaResponse)))))
  : option sol_apply_error * sol_state :=
  match observations with
  | None => (Some SolNilObservations, q)
  | Some None => (Some SolNilSolanaObservations, q)
  | Some (Some obs) =>
      let '(m, updated) := sol_UpdateEndpointsFromObservations (sol_endpoints q) obs in
      (None, sol_UpdateFromEndpoints now (sol_set_endpoints q m) (order (map snd (map_to_list updated))))
  end.

(** ** The store *)

Definition sol_touchEndpoints (m : gmap EndpointAddr sol_endpoint) (now : Time) (addrs : list EndpointAddr)
  : gmap EndpointAddr sol_endpoint :=
  fold_left (fun m addr => match m !! addr with
    | Some e => <[addr := mkSolEndpoint (se_Health e) (se_EpochInfo e) (se_latestValidationError e) now]> m
    | None => m
    end) addrs m.

Definition sol_is_stale (cutoff : Time) (e : sol_endpoint) : bool :=
  negb (time_is_zero (se_lastSeen e)) && time_before (se_lastSeen e) cutoff.

Definition sol_sweepStaleEndpoints (m : gmap EndpointAddr sol_endpoint) (now : Time) (ttl : Duration)
  : list EndpointAddr * gmap EndpointAddr sol_endpoint :=
  let cutoff := time_add now (- ttl) in
  (map fst (map_to_list (filter (fun '(_, e) => sol_is_stale cutoff e = true) m)),
   filter (fun '(_, e) => sol_is_stale cutoff e = false) m).

Inductive sol_select_error := SolEmptyEndpointList | SolNoFallbackEndpoints.

(** An endpoint not in the store is taken as fresh. *)
Definition sol_accepts (q : sol_state) (now : Time) (addr : EndpointAddr) : bool :=
  match sol_endpoints q !! addr with
  | None => true
  | Some e => match sol_ValidateEndpoint q now e with None => true | Some _ => false end
  end.

Definition sol_filterValidEndpoints (q : sol_state) (now : Time) (available : list EndpointAddr)
  : result sol_select_error (list EndpointAddr) * sol_state :=
  match available with
  | [] => (Err SolEmptyEndpointList, q)
  | _ => (Ok (List.filter (sol_accepts q now) available),
          sol_set_endpoints q (sol_touchEndpoints (sol_endpoints q) now available))
  end.

(** ** Selection *)

Section SolanaSelect.
Context `{RPCTypeEnum} `{DomainLib} {R : Type} `{RandSource R}.

Definition sol_score (q : sol_state) (addr : EndpointAddr) : scored :=
  match sol_endpoints q !! addr with
  | Some e =>
      match se_EpochInfo e with
      | Some i =>
          if 0 <? ei_BlockHeight i
          then mkScored addr (if sol_perceivedBlockHeight q <=? ei_BlockHeight i then 0
                              else wrapu64 (sol_perceivedBlockHeight q - ei_BlockHeight i)) true
          else mkScored addr max_uint64 false
      | None => mkScored addr max_uint64 false
      end
  | None => mkScored addr max_uint64 false
  end.

(** Shuffle, sort stably, take the first ones: the end of selectLeastStaleEndpoints. *)
Definition rank_and_take (scoredEps : list scored) (numEndpoints : Z) : rnd R (list EndpointAddr) :=
  let? shuffled := rand_Shuffle scoredEps in
  let sorted := slice_stable scored_less shuffled in
  let n := if len sorted <? wrap64 numEndpoints then len sorted else wrap64 numEndpoints in
  if n <? 0 then rpanic   (* make with a negative capacity *)
  else rret (map se_addr (take (Z.to_nat n) sorted)).

Definition sol_selectLeastStaleEndpoints (q : sol_state) (available : list EndpointAddr) (numEndpoints : Z)
  : rnd R (list EndpointAddr) :=
  let numEndpoints := if numEndpoints =? 0 then 1 else numEndpoints in
  match available with
  | [] => rret []
  | _ =>
      if sol_perceivedBlockHeight q =? 0 then RandomSelectMultiple available numEndpoints
      else rank_and_take (map (sol_score q) available) numEndpoints
  end.

Definition sol_SelectMultiple (g : settings) (q : sol_state) (now : Time) (available : list EndpointAddr) (numEndpoints : Z)
  : rnd R (result sol_select_error (list EndpointAddr) * sol_state) :=
  match sol_filterValidEndpoints q now available with
  | (Err e, q) => rret (Err e, q)
  | (Ok [], q) => let? picked := sol_selectLeastStaleEndpoints q available numEndpoints in rret (Ok picked, q)
  | (Ok filtered, q) =>
      let? picked := SelectEndpointsWithDiversity g (sol_serviceID q) filtered numEndpoints in rret (Ok picked, q)
  end.

Definition sol_Select (g : settings) (q : sol_state) (now : Time) (available : list EndpointAddr)
  : rnd R (result sol_select_error EndpointAddr * sol_state) :=
  match sol_filterValidEndpoints q now available with
  | (Err e, q) => rret (Err e, q)
  | (Ok [], q) =>
      let? picked := sol_selectLeastStaleEndpoints q available 1 in
      match picked with
      | [] => rret (Err SolNoFallbackEndpoints, q)
      | ep :: _ => rret (Ok ep, q)
      end
  | (Ok filtered, q) =>
      let? ep := SelectWithConcentrationCap g (sol_serviceID q) filtered (sol_maxOperatorShare q) in rret (Ok ep, q)
  end.
End SolanaSelect.

(** ** Updates *)

(** The fields of the extracted data the Solana state reads. *)
Record SolExtracted := mkSolExtracted {
  sd_BlockHeight : Z;                     (** int64 *)
  sd_InvalidBlockHeight : bool;
  sd_SyncCheckPerformed : bool;
  sd_IsSyncing : bool;
}.

Definition sd_block (d : SolExtracted) : option Z :=
  if 0 <? sd_BlockHeight d then Some (sd_BlockHeight d) else if sd_InvalidBlockHeight d then Some 0 else None.

(** The stored endpoint after the data. *)
Definition sol_merge (e : sol_endpoint) (d : SolExtracted) : sol_endpoint :=
  mkSolEndpoint
    (if sd_SyncCheckPerformed d
     then Some (if sd_IsSyncing d then resultGetHealthSyncing else resultGetHealthOK) else se_Health e)
    (match sd_block d with
     | Some h => Some (mkEpochInfo (sol_Epoch e) h)
     | None => se_EpochInfo e
     end)
    (se_latestValidationError e) (se_lastSeen e).

(** Raise the perceived height, if plausible. *)
Definition sol_raise (q : sol_state) (hasSvc : bool) (h : Z) : sol_state * list rep_task :=
  if (sol_perceivedBlockHeight q <? h) && IsPlausibleBlockHeight h (sol_perceivedBlockHeight q)
  then (sol_set_height q h, if hasSvc then [TaskSetPerceivedBlockNumber (sol_serviceID q) h] else [])
  else (q, []).

Definition sol_UpdateFromExtractedData (q : sol_state) (hasSvc : bool) (addr : EndpointAddr) (data : option SolExtracted)
  : sol_state * list rep_task :=
  match data with
  | None => (q, [])
  | Some d =>
      match sd_block d, sd_SyncCheckPerformed d with
      | None, false => (q, [])
      | block, _ =>
          let stored := sol_merge (default zero_sol_endpoint (sol_endpoints q !! addr)) d in
          let '(q, tasks) := sol_raise (sol_set_endpoints q (<[addr := stored]> (sol_endpoints q))) hasSvc (default 0 block) in
          (q, tasks ++ match block with
                       | Some h => if hasSvc then [TaskSetEndpointBlockHeight (sol_serviceID q) addr h] else []
                       | None => []
                       end)%list
      end
  end.

Definition sol_external_grace (gracePeriod : Duration) : Duration := if 0 <? gracePeriod then gracePeriod else 60 * second.

(** One height received from the external source. *)
Definition sol_consume_external (q : sol_state) (now startedAt : Time) (gracePeriod : Duration) (hasSvc : bool) (height : Z)
  : sol_state * list rep_task :=
  if height <=? 0 then (q, [])
  else if time_sub now startedAt <? sol_external_grace gracePeriod then (q, [])
  else if sol_perceivedBlockHeight q =? 0 then (q, [])
  else sol_raise q hasSvc height.

Section SolanaExchange.
Context `{RPCTypeEnum} {St : Type} `{!Storage St}.

Definition sol_ResetPerceivedBlockHeight (q : sol_state) (svc : option (service St))
  : option storage_error * sol_state * option (service St) :=
  let q := sol_set_height q 0 in
  match svc with
  | Some s => let '(e, s) := DeletePerceivedBlockNumber s (sol_serviceID q) in (e, q, Some s)
  | None => (None, q, None)
  end.

Definition sol_syncFromRedis (q : sol_state) (s : service St) : sol_state :=
  let n := GetPerceivedBlockNumber s (sol_serviceID q) in
  if sol_perceivedBlockHeight q <? n then sol_set_height q n else q.

(** Only entries with epoch info take the height of Redis. *)
Definition sol_syncEndpointBlocksFromRedis (q : sol_state) (s : service St) : sol_state :=
  let heights := GetEndpointBlockHeights s (sol_serviceID q) in
  sol_set_endpoints q (map_imap (fun addr e => Some
    match heights !! addr, se_EpochInfo e with
    | Some h, Some i => mkSolEndpoint (se_Health e) (Some (mkEpochInfo (ei_Epoch i) h)) (se_latestValidationError e) (se_lastSeen e)
    | _, _ => e
    end) (sol_endpoints q)).

Definition sol_sweep_tick (q : sol_state) (now : Time) (s : service St) : sol_state * service St :=
  let '(removed, m) := sol_sweepStaleEndpoints (sol_endpoints q) now defaultEndpointTTL in
  match removed with
  | [] => (sol_set_endpoints q m, s)
  | _ => (sol_set_endpoints q m, snd (RemoveEndpointBlockHeights s (sol_serviceID q) removed))
  end.

(** The immediate sync of StartBackgroundSync, and a tick of its loop. *)
Definition sol_background_start (q : sol_state) (s : service St) : sol_state :=
  sol_syncEndpointBlocksFromRedis (sol_syncFromRedis q s) s.

Definition sol_background_tick (q : sol_state) (now : Time) (s : service St) : sol_state * service St :=
  sol_sweep_tick (sol_background_start q s) now s.
End SolanaExchange.
