(* ===== verification/SolanaQoSProps.v ===== *)
(** * What the Solana QoS guarantees

    Selection is total and prefers valid, then fresh endpoints; reports raise the perceived
    height by bounded steps only.  The perceived epoch has no such bound. *)

From S2P Require Import Prelude GoStrings Float64 GoSort Domain RepKey Signals Score RepConfig RepStorage RepService Selection SelectionProps BlockConsensus EvmQoS EvmQoSProps SolanaQoS.
From Stdlib Require Import ZArith Lia Bool Ascii String.
From stdpp Require Import base gmap strings fin_maps list.

Open Scope string_scope.
Open Scope Z_scope.
Open Scope go_scope.

(** ** Selection *)

Section Ranking.
Context {R : Type} `{RandSource R} `{!RandLaws R}.

(** Ranking never panics; what it returns and what it leaves make up the pool, and nothing
    left is better than anything returned. *)
Lemma rank_and_take_always pool n :
  0 <= n <= max_int64 ->
  always (rank_and_take (R := R) pool n) (fun l => exists best rest,
    (best ++ rest ≡ₚ pool)%list /\ l = map se_addr best /\ len best = Z.min n (len pool) /\
    forall x y, In x best -> In y rest -> scored_less y x = false).
Proof.
  intros Hn. unfold rank_and_take.
  eapply always_bind; [apply rand_Shuffle_always|]. intros shuffled Hsh. cbv beta in Hsh.
  set (srt := slice_stable scored_less shuffled).
  assert (Hsrt : srt ≡ₚ pool) by (unfold srt; by rewrite slice_stable_perm).
  assert (Hlen : len srt = len pool) by (by rewrite Hsrt).
  rewrite wrap64_id by (unfold in_int64, min_int64; lia).
  set (k := if len srt <? n then len srt else n).
  assert (Hk : k = Z.min n (len pool)) by (unfold k; rewrite Hlen; destruct (Z.ltb_spec (len pool) n); lia).
  destruct (Z.ltb_spec k 0); [lia|]. apply always_ret.
  exists (take (Z.to_nat k) srt), (drop (Z.to_nat k) srt). split; [by rewrite take_drop|]. split; [done|].
  split; [rewrite length_take; lia|].
  intros x y. apply (sorted_take_drop scored_less), slice_stable_sorted, scored_less_weak_order.
Qed.
(** What a selection may return: an endpoint of the list, an accepted one if there is any, and
    otherwise, where a height is known to rank by, one that no other is fresher than. *)
Definition choice_ok (accepts : EndpointAddr -> bool) (score : EndpointAddr -> scored) (unranked : bool)
  (available : list EndpointAddr) (ep : EndpointAddr) : Prop :=
  In ep available /\
  (existsb accepts available = true -> accepts ep = true) /\
  (existsb accepts available = false -> unranked = false ->
   forall a, In a available -> scored_less (score a) (score ep) = false).

Lemma none_accepted (accepts : EndpointAddr -> bool) available :
  List.filter accepts available = [] -> existsb accepts available = false.
Proof.
  intros Hf. destruct (existsb _ _) eqn:E; [|done]. apply existsb_exists in E as (a & Ha & Hb).
  assert (Hin : In a (List.filter accepts available)) by (by apply filter_In). by rewrite Hf in Hin.
Qed.

Lemma match_cons {A B} (l : list A) (x y : B) : l <> [] -> match l with [] => x | _ :: _ => y end = y.
Proof. by destruct l. Qed.

(** The fallback, when nothing is accepted. *)
Lemma fallback_choice accepts score unranked available :
  available <> [] -> List.filter accepts available = [] -> (forall a, se_addr (score a) = a) ->
  always (if unranked : bool then RandomSelectMultiple (R := R) available 1 else rank_and_take (map score available) 1)
    (fun l => exists ep rest, l = ep :: rest /\ choice_ok accepts score unranked available ep).
Proof.
  intros Hne Hf Haddr. pose proof (none_accepted _ _ Hf) as Hno. destruct unranked.
  - eapply always_mono; [apply (random_select_always _ available 1); unfold max_int64; lia|].
    cbv beta. intros l (perm & HP & ->). destruct perm as [|ep perm]; [by apply Permutation_nil in HP|].
    exists ep, []. split; [done|]. split; [rewrite <- HP; by left|]. split; [by rewrite Hno|]. done.
  - eapply always_mono; [apply (rank_and_take_always _ 1); unfold max_int64; lia|].
    cbv beta. intros l (best & rest & HP & -> & Hlen & Hbest). rewrite length_map in Hlen.
    assert (Hpos : len available > 0) by (destruct available; cbn; [done|lia]).
    destruct best as [|x [|? ?]]; cbn [List.length] in Hlen; try lia. cbn [map].
    assert (Hx : In x (map score available)) by (rewrite <- HP; by left).
    apply in_map_iff in Hx as (ep & Hx & Hep). rewrite <- Hx, Haddr.
    exists ep, []. split; [done|]. split; [exact Hep|]. split; [by rewrite Hno|]. intros _ _ a Ha.
    assert (Hin : In (score a) (x :: rest)) by (change (x :: rest) with ([x] ++ rest)%list; rewrite HP; by apply in_map).
    destruct Hin as [<-|Hin]; [|rewrite Hx; apply Hbest; [by left|exact Hin]].
    rewrite <- Hx. unfold scored_less. rewrite Bool.eqb_reflx. cbn. apply Z.ltb_irrefl.
Qed.

(** The capped choice among the accepted ones. *)
Lemma accepted_choice `{DomainLib} g sid share accepts score unranked available :
  List.filter accepts available <> [] ->
  always (SelectWithConcentrationCap (R := R) g sid (List.filter accepts available) share)
    (choice_ok accepts score unranked available).
Proof.
  intros Hne. eapply always_mono; [by apply capped_always|]. cbv beta. intros ep Hep.
  apply filter_In in Hep as [Hin Hacc]. split; [exact Hin|]. split; [done|]. intros Hno. exfalso.
  assert (existsb accepts available = true) by (apply existsb_exists; eauto). congruence.
Qed.
End Ranking.

Lemma sol_touch_info now addrs : forall m a,
  se_EpochInfo <$> sol_touchEndpoints m now addrs !! a = se_EpochInfo <$> m !! a.
Proof.
  unfold sol_touchEndpoints. induction addrs as [|b addrs IH]; intros m a; cbn [fold_left]; [done|].
  rewrite IH. destruct (m !! b) as [e|] eqn:Eb; [|done].
  destruct (decide (b = a)) as [->|Hne]; [by rewrite lookup_insert_eq, Eb|by rewrite lookup_insert_ne].
Qed.

Lemma sol_touch_score q now addrs a :
  sol_score (sol_set_endpoints q (sol_touchEndpoints (sol_endpoints q) now addrs)) a = sol_score q a.
Proof.
  unfold sol_score. cbn [sol_endpoints sol_set_endpoints sol_perceivedBlockHeight].
  pose proof (sol_touch_info now addrs (sol_endpoints q) a) as E.
  destruct (sol_touchEndpoints _ now addrs !! a) as [e1|], (sol_endpoints q !! a) as [e2|]; try done.
  cbn in E. by injection E as ->.
Qed.

Lemma sol_score_addr q a : se_addr (sol_score q a) = a.
Proof. unfold sol_score. repeat case_match; done. Qed.

Section SolSelection.
Context `{RPCTypeEnum} `{DomainLib} {R : Type} `{RandSource R} `{!RandLaws R}.

(** What the Solana selection may return. *)
Definition sol_choice_ok (q : sol_state) (now : Time) : list EndpointAddr -> EndpointAddr -> Prop :=
  choice_ok (sol_accepts q now) (sol_score q) (sol_perceivedBlockHeight q =? 0).

(** The Solana selection never fails on a non-empty list and never panics, whatever the
    draws: it picks an endpoint of the list, a valid one while there is one, and otherwise,
    once a height is perceived, one that no other endpoint of the list is fresher than. *)
Theorem solana_select_total g q now available :
  available <> [] ->
  always (sol_Select (R := R) g q now available) (fun x => exists ep, fst x = Ok ep /\ sol_choice_ok q now available ep).
Proof.
  intros Hne. unfold sol_Select, sol_filterValidEndpoints. rewrite (match_cons available) by done.
  destruct (List.filter (sol_accepts q now) available) as [|f fs] eqn:Ef.
  - unfold sol_selectLeastStaleEndpoints. rewrite (match_cons available) by done. cbn [Z.eqb sol_perceivedBlockHeight sol_set_endpoints].
    rewrite (map_ext _ (sol_score q)) by (intros a; apply sol_touch_score).
    eapply always_bind; [by apply (fallback_choice (sol_accepts q now)), sol_score_addr|].
    cbv beta. intros l (ep & rest & -> & Hok). apply always_ret. exists ep. by split.
  - rewrite <- Ef. eapply always_bind; [apply accepted_choice; by rewrite Ef|].
    intros ep Hep. apply always_ret. exists ep. split; [done|exact Hep].
Qed.
End SolSelection.

(** ** The perceived height *)

(** What reports the height, besides Redis. *)
Inductive sol_report :=
| FromEndpoints (now : Time) (order : list sol_endpoint)
| FromExtracted (hasSvc : bool) (addr : EndpointAddr) (data : option SolExtracted)
| FromExternal (now startedAt : Time) (grace : Duration) (hasSvc : bool) (height : Z).

Definition sol_step (q : sol_state) (r : sol_report) : sol_state :=
  match r with
  | FromEndpoints now order => sol_UpdateFromEndpoints now q order
  | FromExtracted hasSvc addr data => fst (sol_UpdateFromExtractedData q hasSvc addr data)
  | FromExternal now startedAt grace hasSvc h => fst (sol_consume_external q now startedAt grace hasSvc h)
  end.

(** The number of heights in a report. *)
Definition sol_weight (r : sol_report) : Z := match r with FromEndpoints _ order => len order | _ => 1 end.

(** [n] heights in, the perceived one is plausible and at most [n] jumps above [h0]. *)
Definition grown (h0 n h : Z) : Prop := h0 <= h <= h0 + n * MaxBlockHeightJump /\ h <= MaxPlausibleBlockHeight.

Lemma plausible_grows h0 n h h' :
  0 < h0 -> 0 <= n -> grown h0 n h -> h < h' -> IsPlausibleBlockHeight h' h = true -> grown h0 (n + 1) h'.
Proof.
  unfold grown. intros H0 Hn [Hh Hmax] Hlt Hp. apply plausible_spec in Hp; [|lia].
  unfold MaxBlockHeightJump in *. lia.
Qed.

Lemma grown_weaken h0 n m h : n <= m -> grown h0 n h -> grown h0 m h.
Proof. unfold grown, MaxBlockHeightJump. lia. Qed.

Lemma raise_grows q hasSvc h h0 n :
  0 < h0 -> 0 <= n -> grown h0 n (sol_perceivedBlockHeight q) ->
  grown h0 (n + 1) (sol_perceivedBlockHeight (fst (sol_raise q hasSvc h))).
Proof.
  intros H0 Hn Hg. unfold sol_raise. destruct (_ && _) eqn:E; cbn [fst]; [|by apply (grown_weaken h0 n); [lia|]].
  apply andb_true_iff in E as [E1 E2]. apply Z.ltb_lt in E1. by eapply plausible_grows.
Qed.

Lemma update_grows now order h0 : forall q n,
  0 < h0 -> 0 <= n -> grown h0 n (sol_perceivedBlockHeight q) ->
  grown h0 (n + len order) (sol_perceivedBlockHeight (sol_UpdateFromEndpoints now q order)).
Proof.
  unfold sol_UpdateFromEndpoints. induction order as [|e order IH]; intros q n H0 Hn Hg; cbn [fold_left].
  { by apply (grown_weaken h0 n); [cbn; lia|]. }
  replace (n + len (e :: order)) with ((n + 1) + len order) by (cbn [List.length]; lia).
  apply IH; [exact H0|lia|]. unfold sol_update_from_endpoint.
  destruct (validateBasic now e); [by apply (grown_weaken h0 n); [lia|]|].
  destruct (_ <? _); [by apply (grown_weaken h0 n); [lia|]|].
  destruct (Z.leb_spec (sol_BlockHeight e) (sol_perceivedBlockHeight q)); [by apply (grown_weaken h0 n); [lia|]|].
  destruct (IsPlausibleBlockHeight _ _) eqn:Ep; [|by apply (grown_weaken h0 n); [lia|]].
  cbn. by apply (plausible_grows h0 n (sol_perceivedBlockHeight q)).
Qed.

Lemma step_grows q r h0 n :
  0 < h0 -> 0 <= n -> grown h0 n (sol_perceivedBlockHeight q) ->
  grown h0 (n + sol_weight r) (sol_perceivedBlockHeight (sol_step q r)).
Proof.
  intros H0 Hn Hg. destruct r as [now order|hasSvc addr data|now st grace hasSvc h]; cbn [sol_step sol_weight].
  - by apply update_grows.
  - destruct data as [d|]; [|by apply (grown_weaken h0 n); [lia|]]. unfold sol_UpdateFromExtractedData.
    set (q' := sol_set_endpoints _ _).
    assert (Hr : forall h, grown h0 (n + 1) (sol_perceivedBlockHeight (fst (sol_raise q' hasSvc h)))) by (intros h; by apply raise_grows).
    destruct (sd_block d) as [b|], (sd_SyncCheckPerformed d);
      try (pose proof (Hr b)); try (pose proof (Hr 0)); cbn [default];
      try (destruct (sol_raise q' hasSvc _); assumption).
    by apply (grown_weaken h0 n); [lia|].
  - unfold sol_consume_external. destruct (_ <=? _); [by apply (grown_weaken h0 n); [lia|]|].
    destruct (_ <? _); [by apply (grown_weaken h0 n); [lia|]|]. destruct (_ =? _); [by apply (grown_weaken h0 n); [lia|]|].
    by apply raise_grows.
Qed.

(** No report can run away with the perceived height.  Once a height is perceived, any
    series of reports, from endpoints, extracted data or the external source, true or forged,
    leaves it at least as high, at most 10 million blocks higher per height reported, and never
    above the plausible maximum. *)
Theorem solana_height_bounded reports q :
  0 < sol_perceivedBlockHeight q <= MaxPlausibleBlockHeight ->
  grown (sol_perceivedBlockHeight q) (zsum sol_weight reports) (sol_perceivedBlockHeight (fold_left sol_step reports q)).
Proof.
  intros Hq. set (h0 := sol_perceivedBlockHeight q).
  assert (Hg : forall q n, 0 <= n -> grown h0 n (sol_perceivedBlockHeight q) ->
    grown h0 (n + zsum sol_weight reports) (sol_perceivedBlockHeight (fold_left sol_step reports q))).
  { induction reports as [|r reports IH]; intros q0 n Hn Hg; cbn [fold_left].
    - by apply (grown_weaken h0 n); [rewrite zsum_nil; lia|].
    - assert (0 <= sol_weight r) by (destruct r; cbn; lia).
      rewrite zsum_cons. replace (n + (sol_weight r + zsum sol_weight reports)) with ((n + sol_weight r) + zsum sol_weight reports) by lia.
      apply IH; [lia|]. apply step_grows; [unfold h0; lia|lia|exact Hg]. }
  specialize (Hg q 0 ltac:(lia)). cbn [Z.add] in Hg. apply Hg. unfold grown, h0. lia.
Qed.

(** ** The perceived epoch *)

(** Rejected for its epoch, or for the response history before that. *)
Lemma epoch_behind q now e :
  0 < sol_Epoch e -> wrapu64 (sol_Epoch e + 1) < sol_perceivedEpoch q -> 0 < sol_perceivedEpoch q ->
  sol_ValidateEndpoint q now e <> None.
Proof.
  intros He Hlag Hp. unfold sol_ValidateEndpoint. destruct (validateBasic now e); [done|].
  by rewrite (proj2 (Z.ltb_lt _ _) He), (proj2 (Z.ltb_lt _ _) Hp), (proj2 (Z.ltb_lt _ _) Hlag).
Qed.

(** C36: one forged epoch takes the whole service down.  The plausibility check looks at the
    height only: a single endpoint that reports the next block under an epoch [k] ahead makes
    every endpoint with an honest epoch invalid, and a reset of the perceived height does not
    help, for the epoch stays. *)
Theorem forged_epoch_rejects_all {St} `{RPCTypeEnum} `{!Storage St} q now forged (svc : option (service St)) :
  validateBasic now forged = None ->
  sol_perceivedBlockHeight q < sol_BlockHeight forged ->
  IsPlausibleBlockHeight (sol_BlockHeight forged) (sol_perceivedBlockHeight q) = true ->
  0 <= sol_perceivedEpoch q -> sol_perceivedEpoch q + 1 < sol_Epoch forged ->
  let poisoned := sol_UpdateFromEndpoints now q [forged] in
  let reset := snd (fst (sol_ResetPerceivedBlockHeight poisoned svc)) in
  forall e later, 0 < sol_Epoch e -> sol_Epoch e + 1 < sol_Epoch forged ->
    sol_ValidateEndpoint poisoned later e <> None /\ sol_ValidateEndpoint reset later e <> None.
Proof.
  intros Hb Hlt Hp H0 Hf poisoned reset e later He Hlag.
  assert (Hpe : sol_perceivedEpoch poisoned = sol_Epoch forged).
  { unfold poisoned, sol_UpdateFromEndpoints. cbn [fold_left]. unfold sol_update_from_endpoint. rewrite Hb.
    rewrite (proj2 (Z.ltb_ge _ _)), (proj2 (Z.leb_gt _ _)) by lia. by rewrite Hp. }
  assert (Hre : sol_perceivedEpoch reset = sol_Epoch forged).
  { unfold reset, sol_ResetPerceivedBlockHeight. destruct svc as [s|]; [|exact Hpe].
    destruct (DeletePerceivedBlockNumber s _). exact Hpe. }
  assert (Hw : wrapu64 (sol_Epoch e + 1) < sol_Epoch forged).
  { unfold wrapu64. pose proof (Z.mod_le (sol_Epoch e + 1) (2 ^ 64)). lia. }
  split; apply epoch_behind; lia.
Qed.

(** ** Witnesses *)

Definition sol_node (epoch height : Z) : sol_endpoint := mkSolEndpoint (Some "ok") (Some (mkEpochInfo epoch height)) None 0.

Definition demo_solana : sol_state :=
  mkSolState "solana" {["pokt1a-https://n1.big.com" := sol_node 700 3000000; "pokt1d-https://x.small.io" := sol_node 700 2990000]}
    700 3000000 0 f_zero.

Lemma solana_select_total_witness :
  always (sol_Select (R := Z) initial_settings demo_solana (5 * second) ["pokt1a-https://n1.big.com"; "pokt1d-https://x.small.io"])
    (fun x => exists ep, fst x = Ok ep /\
       sol_choice_ok demo_solana (5 * second) ["pokt1a-https://n1.big.com"; "pokt1d-https://x.small.io"] ep).
Proof. apply (solana_select_total initial_settings demo_solana (5 * second)). discriminate. Defined.

Definition demo_reports : list sol_report :=
  [ FromEndpoints 5 [sol_node 700 3000007; sol_node 700 900000000];
    FromExtracted true "pokt1a-https://n1.big.com" (Some (mkSolExtracted 999999999999 false false false));
    FromExternal (90 * second) 0 0 true 12000000 ].

Lemma solana_height_bounded_witness :
  sol_perceivedBlockHeight (fold_left sol_step demo_reports demo_solana) = 12000000 /\
  grown 3000000 4 (sol_perceivedBlockHeight (fold_left sol_step demo_reports demo_solana)).
Proof.
  split; [vm_compute; reflexivity|].
  apply (solana_height_bounded demo_reports demo_solana). vm_compute. split; [reflexivity|discriminate].
Defined.

Lemma forged_epoch_rejects_all_witness :
  let poisoned := sol_UpdateFromEndpoints 5 demo_solana [sol_node (2 ^ 63) 3000001] in
  sol_ValidateEndpoint demo_solana 9 (sol_node 700 3000000) = None /\
  sol_ValidateEndpoint poisoned 9 (sol_node 700 3000000) <> None.
Proof.
  split; [vm_compute; reflexivity|].
  apply (forged_epoch_rejects_all (St := MemoryStorage) demo_solana 5 (sol_node (2 ^ 63) 3000001) None);
    vm_compute; (reflexivity || discriminate).
Defined.
