(* ===== verification/CosmosQoS.v ===== *)
(** * The Cosmos QoS service: qos/cosmos

    The endpoint store, the four checks and the perceived block number (endpoint.go,
    endpoint_store.go, check_*.go, service_state.go, service_state_endpoint_validation.go,
    service_state_endpoint_selection.go, service_qos_config.go, qos.go): validation, filtering,
    selection with its fallback, updates and the exchange with the reputation service.
    Conventions are those of EvmQoS.v.  Request parsing is not part of this file. *)

From S2P Require Import Prelude GoStrings Float64 GoSort Domain RepKey Signals Score RepConfig RepStorage RepService Selection BlockConsensus EvmQoS SolanaQoS RPCTypes.
From Stdlib Require Import ZArith Lia Bool Ascii String.
From stdpp Require Import base list gmap strings fin_maps.

Open Scope string_scope.
Open Scope Z_scope.
Open Scope go_scope.

(** ** Endpoints *)

Record CometBFTStatus := mkCometStatus {
  cs_chainID : option string;
  cs_catchingUp : option bool;
  cs_latestBlockHeight : option Z;
  cs_expiresAt : Time;
}.

Record cos_endpoint := mkCosEndpoint {
  ce_hasReturnedEmptyResponse : bool;
  ce_hasReturnedInvalidResponse : bool;
  ce_hasReturnedUnmarshalingError : bool;
  ce_invalidResponseLastObserved : option Time;
  ce_CometBFTStatus : CometBFTStatus;
  ce_CometBFTHealth : option bool * Time;      (** healthy, expiresAt *)
  ce_CosmosStatus : option Z;                  (** latestBlockHeight *)
  ce_EVMChainID : option string * Time;        (** chainID, expiresAt *)
  ce_lastSeen : Time;
}.

Definition zero_status : CometBFTStatus := mkCometStatus None None None time_zero.
Definition zero_cos_endpoint : cos_endpoint :=
  mkCosEndpoint false false false None zero_status (None, time_zero) None (None, time_zero) time_zero.

Definition ce_with_status (e : cos_endpoint) (s : CometBFTStatus) : cos_endpoint :=
  mkCosEndpoint (ce_hasReturnedEmptyResponse e) (ce_hasReturnedInvalidResponse e) (ce_hasReturnedUnmarshalingError e)
    (ce_invalidResponseLastObserved e) s (ce_CometBFTHealth e) (ce_CosmosStatus e) (ce_EVMChainID e) (ce_lastSeen e).

Definition ce_with_height (e : cos_endpoint) (h : Z) : cos_endpoint :=
  let s := ce_CometBFTStatus e in
  ce_with_status e (mkCometStatus (cs_chainID s) (cs_catchingUp s) (Some h) (cs_expiresAt s)).

Definition ce_with_lastSeen (e : cos_endpoint) (t : Time) : cos_endpoint :=
  mkCosEndpoint (ce_hasReturnedEmptyResponse e) (ce_hasReturnedInvalidResponse e) (ce_hasReturnedUnmarshalingError e)
    (ce_invalidResponseLastObserved e) (ce_CometBFTStatus e) (ce_CometBFTHealth e) (ce_CosmosStatus e)
    (ce_EVMChainID e) t.

(** ** Checks *)

Inductive cos_error :=
| cosEmptyResponse | cosRecentInvalidResponse
| cosNoHealth | cosInvalidHealth
| cosNoStatus | cosInvalidStatus | cosInvalidChainID | cosCatchingUp
| cosNoCosmosStatus | cosInvalidCosmosStatus
| cosOutsideSyncAllowance
| cosNoEVMChainID | cosInvalidEVMChainID.

Definition checkHealthInterval : Duration := 30 * second.
Definition checkStatusInterval : Duration := 30 * second.
Definition checkEVMChainIDInterval : Duration := 20 * minute.
Definition cos_invalidResponseTimeout : Duration := 30 * minute.

Definition GetHealthy (e : cos_endpoint) : result cos_error bool :=
  match fst (ce_CometBFTHealth e) with None => Err cosNoHealth | Some b => Ok b end.

Definition status_GetChainID (s : CometBFTStatus) : result cos_error string :=
  match cs_chainID s with
  | None => Err cosNoStatus
  | Some id => if (id =? "")%string then Err cosInvalidStatus else Ok id
  end.

Definition status_GetCatchingUp (s : CometBFTStatus) : result cos_error bool :=
  match cs_catchingUp s with None => Err cosNoStatus | Some b => Ok b end.

Definition status_GetLatestBlockHeight (s : CometBFTStatus) : result cos_error Z :=
  match cs_latestBlockHeight s with
  | None => Err cosNoStatus
  | Some h => if h =? 0 then Err cosInvalidStatus else Ok h
  end.

Definition cosmos_GetHeight (e : cos_endpoint) : result cos_error Z :=
  match ce_CosmosStatus e with
  | None => Err cosNoCosmosStatus
  | Some h => if h =? 0 then Err cosInvalidCosmosStatus else Ok h
  end.

Definition evm_GetChainID (e : cos_endpoint) : result cos_error string :=
  match fst (ce_EVMChainID e) with None => Err cosNoEVMChainID | Some id => Ok id end.

(** ** Configuration *)

Section Cosmos.
Context `{RPCTypeMembers}.

Definition defaultCosmosSDKBlockNumberSyncAllowance : Z := 0.

(** The dynamic configuration of a simple instance, and the static one. *)
Inductive CosmosConfig :=
| SimpleCosmos (serviceID : ServiceID) (syncAllowance : Z) (supportedAPIs : option (gset Z)) (maxOperatorShare : float64)
| StaticCosmos (serviceID : ServiceID) (cosmosChainID evmChainID : string) (syncAllowance : Z) (supportedAPIs : gset Z).

Definition cos_GetServiceID (c : CosmosConfig) : ServiceID :=
  match c with SimpleCosmos sid _ _ _ | StaticCosmos sid _ _ _ _ => sid end.
Definition getCosmosSDKChainID (c : CosmosConfig) : string :=
  match c with SimpleCosmos _ _ _ _ => "" | StaticCosmos _ id _ _ _ => id end.
Definition cos_getEVMChainID (c : CosmosConfig) : string :=
  match c with SimpleCosmos _ _ _ _ => "" | StaticCosmos _ _ id _ _ => id end.
Definition cos_getSyncAllowance (c : CosmosConfig) : Z :=
  match c with SimpleCosmos _ n _ _ | StaticCosmos _ _ _ n _ =>
    if n =? 0 then defaultCosmosSDKBlockNumberSyncAllowance else n end.
Definition cos_getMaxOperatorShare (c : CosmosConfig) : float64 :=
  match c with SimpleCosmos _ _ _ share => share | StaticCosmos _ _ _ _ _ => f_zero end.

Definition default_cosmos_apis : gset Z := {[RPCType_REST; RPCType_COMET_BFT]}.

Definition cos_getSupportedAPIs (c : CosmosConfig) : gset Z :=
  match c with
  | SimpleCosmos _ _ apis _ => default default_cosmos_apis apis
  | StaticCosmos _ _ _ _ apis => apis
  end.

Record cos_state := mkCosState {
  cos_config : CosmosConfig;
  cos_endpoints : gmap EndpointAddr cos_endpoint;
  cos_perceived : Z;
}.

Definition cos_set_endpoints (q : cos_state) m : cos_state := mkCosState (cos_config q) m (cos_perceived q).
Definition cos_set_perceived (q : cos_state) n : cos_state := mkCosState (cos_config q) (cos_endpoints q) n.

(** [None] for the APIs is a nil map. *)
Definition NewSimpleQoSInstanceWithAPIs (serviceID : ServiceID) (syncAllowance : Z) (supportedAPIs : option (gset Z)) : cos_state :=
  mkCosState (SimpleCosmos serviceID syncAllowance supportedAPIs f_zero) ∅ 0.

Definition cos_NewSimpleQoSInstanceWithSyncAllowance (serviceID : ServiceID) (syncAllowance : Z) : cos_state :=
  NewSimpleQoSInstanceWithAPIs serviceID syncAllowance (Some default_cosmos_apis).

Definition cos_NewSimpleQoSInstance (serviceID : ServiceID) : cos_state := cos_NewSimpleQoSInstanceWithSyncAllowance serviceID 0.

Definition cos_SetSyncAllowance (q : cos_state) (n : Z) : cos_state :=
  match cos_config q with
  | SimpleCosmos sid _ apis share => mkCosState (SimpleCosmos sid n apis share) (cos_endpoints q) (cos_perceived q)
  | StaticCosmos _ _ _ _ _ => q
  end.

Definition cos_SetMaxOperatorShare (q : cos_state) (share : float64) : cos_state :=
  match cos_config q with
  | SimpleCosmos sid n apis _ => mkCosState (SimpleCosmos sid n apis share) (cos_endpoints q) (cos_perceived q)
  | StaticCosmos _ _ _ _ _ => q
  end.

(** ** Validation: [None] is success *)

Definition validateBlockHeightSyncAllowance (q : cos_state) (height : Z) : option cos_error :=
  let allowance := cos_getSyncAllowance (cos_config q) in
  if allowance =? 0 then None
  else if cos_perceived q =? 0 then None
  else if height =? 0 then None
  else if height <? MinAllowedBlockNumber (cos_perceived q) allowance then Some cosOutsideSyncAllowance
  else None.

Definition isCometBFTHealthValid (e : cos_endpoint) : option cos_error :=
  match GetHealthy e with
  | Err _ => Some cosNoHealth
  | Ok healthy => if healthy then None else Some cosInvalidHealth
  end.

Definition isCometBFTStatusValid (q : cos_state) (s : CometBFTStatus) : option cos_error :=
  match status_GetChainID s with
  | Err _ => Some cosNoStatus
  | Ok chainID =>
      if negb (chainID =? getCosmosSDKChainID (cos_config q))%string then Some cosInvalidChainID
      else match status_GetCatchingUp s with
           | Err _ => Some cosNoStatus
           | Ok true => Some cosCatchingUp
           | Ok false => None
           end
  end.

Definition isCometBFTBlockHeightValid (q : cos_state) (s : CometBFTStatus) : option cos_error :=
  match status_GetLatestBlockHeight s with
  | Err _ => Some cosNoStatus
  | Ok h => validateBlockHeightSyncAllowance q h
  end.

(** The first error of a series of checks. *)
Definition first_error (checks : list (option cos_error)) : option cos_error := head (omap id checks).

Definition validateEndpointCometBFTChecks (q : cos_state) (e : cos_endpoint) : option cos_error :=
  first_error [isCometBFTHealthValid e; isCometBFTStatusValid q (ce_CometBFTStatus e);
               isCometBFTBlockHeightValid q (ce_CometBFTStatus e)].

Definition isCosmosStatusValid (q : cos_state) (e : cos_endpoint) : option cos_error :=
  match cosmos_GetHeight e with
  | Err _ => Some cosNoCosmosStatus
  | Ok h => validateBlockHeightSyncAllowance q h
  end.

Definition isEVMChainIDValid (q : cos_state) (e : cos_endpoint) : option cos_error :=
  match evm_GetChainID e with
  | Err err => Some err
  | Ok id => if (id =? cos_getEVMChainID (cos_config q))%string then None else Some cosInvalidEVMChainID
  end.

Definition recent_invalid (now : Time) (e : cos_endpoint) (flag : bool) : option cos_error :=
  match ce_invalidResponseLastObserved e with
  | Some t => if flag && (time_sub now t <? cos_invalidResponseTimeout) then Some cosRecentInvalidResponse else None
  | None => None
  end.

(** A check that runs only for services with the API. *)
Definition when_supported (q : cos_state) (t : Z) (check : option cos_error) : option cos_error :=
  if bool_decide (t ∈ cos_getSupportedAPIs (cos_config q)) then check else None.

Definition cos_basicEndpointValidation (q : cos_state) (now : Time) (e : cos_endpoint) : option cos_error :=
  first_error
    [ if ce_hasReturnedEmptyResponse e then Some cosEmptyResponse else None;
      recent_invalid now e (ce_hasReturnedUnmarshalingError e);
      recent_invalid now e (ce_hasReturnedInvalidResponse e);
      when_supported q RPCType_COMET_BFT (validateEndpointCometBFTChecks q e);
      when_supported q RPCType_REST (isCosmosStatusValid q e);
      when_supported q RPCType_JSON_RPC (isEVMChainIDValid q e) ].

(** ** Observations *)

Inductive CosmosValidationError := CosmosErrEmpty | CosmosErrUnmarshal | CosmosErrOther.

Inductive CosmosResponse :=
| CosValidationError (err : CosmosValidationError)
| CosCometBFTHealth (healthy : bool)
| CosCometBFTStatus (chainID : string) (catchingUp : bool) (latestBlockHeight : string)
| CosSDKStatus (latestBlockHeight : Z)
| CosEVMChainID (chainID : string)
| CosUnrecognized.                             (** parsed response of another kind, or none *)

(** strconv.ParseUint in base 10; an error gives 0. *)
Definition parseBlockHeightResponse (response : string) : Z :=
  match parse_nonempty_digits response with
  | Some n => if n <=? max_uint64 then n else 0
  | None => 0
  end.

Definition applyValidationErrorObservation (e : cos_endpoint) (now : Time) (err : CosmosValidationError) : cos_endpoint :=
  mkCosEndpoint
    (match err with CosmosErrEmpty => true | _ => ce_hasReturnedEmptyResponse e end) true
    (match err with CosmosErrUnmarshal => true | _ => ce_hasReturnedUnmarshalingError e end)
    (Some now) (ce_CometBFTStatus e) (ce_CometBFTHealth e) (ce_CosmosStatus e) (ce_EVMChainID e) (ce_lastSeen e).

(** The endpoint and whether it was mutated. *)
Definition cos_applyObservation (e : cos_endpoint) (now : Time) (r : option CosmosResponse) : cos_endpoint * bool :=
  let with_ health sdk evm :=
    mkCosEndpoint (ce_hasReturnedEmptyResponse e) (ce_hasReturnedInvalidResponse e) (ce_hasReturnedUnmarshalingError e)
      (ce_invalidResponseLastObserved e) (ce_CometBFTStatus e) health sdk evm (ce_lastSeen e) in
  match r with
  | None | Some CosUnrecognized => (e, false)
  | Some (CosValidationError err) => (applyValidationErrorObservation e now err, true)
  | Some (CosCometBFTHealth b) =>
      (with_ (Some b, time_add now checkHealthInterval) (ce_CosmosStatus e) (ce_EVMChainID e), true)
  | Some (CosCometBFTStatus id up h) =>
      (ce_with_status e (mkCometStatus (Some id) (Some up) (Some (parseBlockHeightResponse h))
         (time_add now checkStatusInterval)), true)
  | Some (CosSDKStatus h) => (with_ (ce_CometBFTHealth e) (Some h) (ce_EVMChainID e), true)
  | Some (CosEVMChainID id) =>
      (with_ (ce_CometBFTHealth e) (ce_CosmosStatus e) (Some id, time_add now checkEVMChainIDInterval), true)
  end.

(** One observation of the loop. *)
Definition cos_observe_one (now : Time) (acc : gmap EndpointAddr cos_endpoint * gmap EndpointAddr cos_endpoint)
  (o : option (EndpointAddr * option CosmosResponse)) : gmap EndpointAddr cos_endpoint * gmap EndpointAddr cos_endpoint :=
  let '(m, updated) := acc in
  match o with
  | None => (m, updated)
  | Some (addr, response) =>
      let '(e, mutated) := cos_applyObservation (default zero_cos_endpoint (m !! addr)) now response in
      if mutated then (<[addr := e]> m, <[addr := e]> updated) else (m, updated)
  end.

Definition cos_updateEndpointsFromObservations (m : gmap EndpointAddr cos_endpoint) (now : Time)
  (obs : list (option (EndpointAddr * option CosmosResponse)))
  : gmap EndpointAddr cos_endpoint * gmap EndpointAddr cos_endpoint :=
  fold_left (cos_observe_one now) obs (m, ∅).

Definition cos_update_from_endpoint (q : cos_state) (e : cos_endpoint) : cos_state :=
  match isCometBFTStatusValid q (ce_CometBFTStatus e), status_GetLatestBlockHeight (ce_CometBFTStatus e) with
  | None, Ok h =>
      if (cos_perceived q <? h) && IsPlausibleBlockHeight h (cos_perceived q) then cos_set_perceived q h else q
  | _, _ => q
  end.

Definition cos_updateFromEndpoints (q : cos_state) (order : list cos_endpoint) : cos_state :=
  fold_left cos_update_from_endpoint order q.

Inductive cos_apply_error := errNilApplyObservations | errNilApplyCosmosSDKObservations.

Definition cos_ApplyObservations (now : Time) (order : list cos_endpoint -> list cos_endpoint) (q : cos_state)
  (observations : option (option (list (option (EndpointAddr * option CosmosResponse)))))
  : option cos_apply_error * cos_state :=
  match observations with
  | None => (Some errNilApplyObservations, q)
  | Some None => (Some errNilApplyCosmosSDKObservations, q)
  | Some (Some obs) =>
      let '(m, updated) := cos_updateEndpointsFromObservations (cos_endpoints q) now obs in
      (None, cos_updateFromEndpoints (cos_set_endpoints q m) (order (map snd (map_to_list updated))))
  end.

(** ** The store *)

Definition cos_touchEndpoints (m : gmap EndpointAddr cos_endpoint) (now : Time) (addrs : list EndpointAddr)
  : gmap EndpointAddr cos_endpoint :=
  fold_left (fun m addr => match m !! addr with
    | Some e => <[addr := ce_with_lastSeen e now]> m
    | None => m
    end) addrs m.

Definition cos_is_stale (cutoff : Time) (e : cos_endpoint) : bool :=
  negb (time_is_zero (ce_lastSeen e)) && time_before (ce_lastSeen e) cutoff.

Definition cos_sweepStaleEndpoints (m : gmap EndpointAddr cos_endpoint) (now : Time) (ttl : Duration)
  : list EndpointAddr * gmap EndpointAddr cos_endpoint :=
  let cutoff := time_add now (- ttl) in
  (map fst (map_to_list (filter (fun '(_, e) => cos_is_stale cutoff e = true) m)),
   filter (fun '(_, e) => cos_is_stale cutoff e = false) m).

Inductive cos_select_error := errEmptyEndpointListObs | CosNoFallbackEndpoints.

(** An endpoint not in the store is taken as fresh. *)
Definition cos_accepts (q : cos_state) (now : Time) (addr : EndpointAddr) : bool :=
  match cos_endpoints q !! addr with
  | None => true
  | Some e => match cos_basicEndpointValidation q now e with None => true | Some _ => false end
  end.

Definition cos_filterValidEndpoints (q : cos_state) (now : Time) (available : list EndpointAddr)
  : result cos_select_error (list EndpointAddr) * cos_state :=
  match available with
  | [] => (Err errEmptyEndpointListObs, q)
  | _ => (Ok (List.filter (cos_accepts q now) available),
          cos_set_endpoints q (cos_touchEndpoints (cos_endpoints q) now available))
  end.

(** ** Selection *)

Section CosmosSelect.
Context `{RPCTypeEnum} `{DomainLib} {R : Type} `{RandSource R}.

Definition cos_score (q : cos_state) (addr : EndpointAddr) : scored :=
  match cos_endpoints q !! addr with
  | Some e =>
      match status_GetLatestBlockHeight (ce_CometBFTStatus e) with
      | Ok h =>
          if 0 <? h
          then mkScored addr (if cos_perceived q <=? h then 0 else wrapu64 (cos_perceived q - h)) true
          else mkScored addr max_uint64 false
      | Err _ => mkScored addr max_uint64 false
      end
  | None => mkScored addr max_uint64 false
  end.

Definition cos_selectLeastStaleEndpoints (q : cos_state) (available : list EndpointAddr) (numEndpoints : Z)
  : rnd R (list EndpointAddr) :=
  let numEndpoints := if numEndpoints =? 0 then 1 else numEndpoints in
  match available with
  | [] => rret []
  | _ =>
      if (cos_getSyncAllowance (cos_config q) =? 0) || (cos_perceived q =? 0)
      then RandomSelectMultiple available numEndpoints
      else rank_and_take (map (cos_score q) available) numEndpoints
  end.

Definition cos_SelectMultipleWithArchival (g : settings) (q : cos_state) (now : Time) (available : list EndpointAddr)
  (numEndpoints : Z) (requiresArchival : bool) : rnd R (result cos_select_error (list EndpointAddr) * cos_state) :=
  match cos_filterValidEndpoints q now available with
  | (Err e, q) => rret (Err e, q)
  | (Ok [], q) => let? picked := cos_selectLeastStaleEndpoints q available numEndpoints in rret (Ok picked, q)
  | (Ok filtered, q) =>
      let? picked := SelectEndpointsWithDiversity g (cos_GetServiceID (cos_config q)) filtered numEndpoints in rret (Ok picked, q)
  end.

Definition cos_SelectMultiple (g : settings) (q : cos_state) (now : Time) (available : list EndpointAddr) (numEndpoints : Z)
  : rnd R (result cos_select_error (list EndpointAddr) * cos_state) :=
  cos_SelectMultipleWithArchival g q now available numEndpoints false.

Definition cos_Select (g : settings) (q : cos_state) (now : Time) (available : list EndpointAddr)
  : rnd R (result cos_select_error EndpointAddr * cos_state) :=
  match cos_filterValidEndpoints q now available with
  | (Err e, q) => rret (Err e, q)
  | (Ok [], q) =>
      let? picked := cos_selectLeastStaleEndpoints q available 1 in
      match picked with
      | [] => rret (Err CosNoFallbackEndpoints, q)
      | ep :: _ => rret (Ok ep, q)
      end
  | (Ok filtered, q) =>
      let? ep := SelectWithConcentrationCap g (cos_GetServiceID (cos_config q)) filtered (cos_getMaxOperatorShare (cos_config q)) in
      rret (Ok ep, q)
  end.
End CosmosSelect.

(** ** Updates *)

(** BlockHeight (int64) and InvalidBlockHeight of the extracted data. *)
Definition cos_block (blockHeight : Z) (invalid : bool) : option Z :=
  if 0 <? blockHeight then Some blockHeight else if invalid then Some 0 else None.

Definition cos_perceived_task (q : cos_state) (hasSvc : bool) (h : Z) : list rep_task :=
  if hasSvc then [TaskSetPerceivedBlockNumber (cos_GetServiceID (cos_config q)) h] else [].

Definition cos_UpdateFromExtractedData (q : cos_state) (hasSvc : bool) (addr : EndpointAddr) (data : option (Z * bool))
  : cos_state * list rep_task :=
  match data ≫= (fun '(h, invalid) => cos_block h invalid) with
  | None => (q, [])
  | Some h =>
      let stored := ce_with_height (default zero_cos_endpoint (cos_endpoints q !! addr)) h in
      let q := cos_set_endpoints q (<[addr := stored]> (cos_endpoints q)) in
      let '(q, tasks) := if cos_perceived q <? h then (cos_set_perceived q h, cos_perceived_task q hasSvc h) else (q, []) in
      (q, tasks ++ if hasSvc then [TaskSetEndpointBlockHeight (cos_GetServiceID (cos_config q)) addr h] else [])%list
  end.

(** One height received from the external source. *)
Definition cos_consume_external (q : cos_state) (now startedAt : Time) (gracePeriod : Duration) (hasSvc : bool) (height : Z)
  : cos_state * list rep_task :=
  if height <=? 0 then (q, [])
  else if time_sub now startedAt <? sol_external_grace gracePeriod then (q, [])
  else if cos_perceived q =? 0 then (q, [])
  else if (cos_perceived q <? height) && negb (IsPlausibleBlockHeight height (cos_perceived q)) then (q, [])
  else if cos_perceived q <? height then (cos_set_perceived q height, cos_perceived_task q hasSvc height)
  else (q, []).

(** The store after the heights of Redis: entries of their own, then by URL. *)
Definition cos_overwrite_heights (m : gmap EndpointAddr cos_endpoint) (now : Time) (heights : gmap EndpointAddr Z)
  : gmap EndpointAddr cos_endpoint :=
  map_imap (fun addr h => Some match m !! addr with
    | Some e => ce_with_height e h
    | None => ce_with_lastSeen (ce_with_height zero_cos_endpoint h) now
    end) heights ∪ m.

Definition cos_fill_by_url (urlHeights : gmap string Z) (m : gmap EndpointAddr cos_endpoint) : gmap EndpointAddr cos_endpoint :=
  map_imap (fun addr e => Some
    match cs_latestBlockHeight (ce_CometBFTStatus e) with
    | Some _ => e
    | None =>
        match GetURL addr with
        | Ok url => match urlHeights !! url with Some h => ce_with_height e h | None => e end
        | Err _ => e
        end
    end) m.

Section CosmosExchange.
Context `{RPCTypeEnum} {St : Type} `{!Storage St}.

Definition cos_ResetPerceivedBlockHeight (q : cos_state) (svc : option (service St))
  : option storage_error * cos_state * option (service St) :=
  let q := cos_set_perceived q 0 in
  match svc with
  | Some s => let '(e, s) := DeletePerceivedBlockNumber s (cos_GetServiceID (cos_config q)) in (e, q, Some s)
  | None => (None, q, None)
  end.

Definition cos_syncFromRedis (q : cos_state) (s : service St) : cos_state :=
  let n := GetPerceivedBlockNumber s (cos_GetServiceID (cos_config q)) in
  if n =? 0 then q else if cos_perceived q <? n then cos_set_perceived q n else q.

Definition cos_syncEndpointBlocksFromRedis (q : cos_state) (now : Time) (s : service St) : cos_state :=
  let heights := GetEndpointBlockHeights s (cos_GetServiceID (cos_config q)) in
  if bool_decide (heights = ∅) then q
  else cos_set_endpoints q (cos_fill_by_url (redis_url_heights heights) (cos_overwrite_heights (cos_endpoints q) now heights)).

Definition cos_sweep_tick (q : cos_state) (now : Time) (s : service St) : cos_state * service St :=
  let '(removed, m) := cos_sweepStaleEndpoints (cos_endpoints q) now defaultEndpointTTL in
  match removed with
  | [] => (cos_set_endpoints q m, s)
  | _ => (cos_set_endpoints q m, snd (RemoveEndpointBlockHeights s (cos_GetServiceID (cos_config q)) removed))
  end.

(** The immediate sync of StartBackgroundSync, and a tick of its loop. *)
Definition cos_background_start (q : cos_state) (now : Time) (s : service St) : cos_state :=
  cos_syncEndpointBlocksFromRedis (cos_syncFromRedis q s) now s.

Definition cos_background_tick (q : cos_state) (now : Time) (s : service St) : cos_state * service St :=
  cos_sweep_tick (cos_background_start q now s) now s.
End CosmosExchange.

(** ** The report of disqualified endpoints *)

Record CosmosLevelData := mkCosmosLevelData {
  cl_Disqualified : gmap EndpointAddr cos_error;
  cl_EmptyResponse : Z;
  cl_ChainID : Z;
  cl_BlockNumber : Z;
}.

Definition cos_count_error (r : CosmosLevelData) (addr : EndpointAddr) (e : cos_error) : CosmosLevelData :=
  let '(mkCosmosLevelData d em ch bl) := r in
  let d := <[addr := e]> d in
  match e with
  | cosEmptyResponse => mkCosmosLevelData d (em + 1) ch bl
  | cosInvalidChainID | cosNoEVMChainID | cosInvalidEVMChainID => mkCosmosLevelData d em (ch + 1) bl
  | cosOutsideSyncAllowance | cosNoStatus => mkCosmosLevelData d em ch (bl + 1)
  | _ => mkCosmosLevelData d em ch bl        (* logged as "SHOULD NEVER HAPPEN" *)
  end.

Definition cos_getDisqualifiedEndpointsResponse (q : cos_state) (now : Time) : CosmosLevelData :=
  fold_left (fun r '(addr, e) =>
    match cos_basicEndpointValidation q now e with
    | Some err => cos_count_error r addr err
    | None => r
    end) (map_to_list (cos_endpoints q)) (mkCosmosLevelData ∅ 0 0 0).
End Cosmos.
