(* ===== verification/CosmosQoSProps.v ===== *)
(** * What the Cosmos QoS guarantees

    Selection is total and prefers accepted, then fresh endpoints, and the report of disqualified
    endpoints lists exactly those it refuses.  The production configuration refuses every endpoint
    it knows; heights from the observation pipeline are taken without a plausibility check; an
    empty response is never forgotten. *)

From S2P Require Import Prelude GoStrings Float64 GoSort Domain RepKey Signals Score RepConfig RepStorage RepService Selection SelectionProps BlockConsensus EvmQoS EvmQoSProps SolanaQoS SolanaQoSProps RPCTypes CosmosQoS.
From Stdlib Require Import ZArith Lia Bool Ascii String.
From stdpp Require Import base gmap strings fin_maps list.

Open Scope string_scope.
Open Scope Z_scope.
Open Scope go_scope.

(** ** The checks *)

Lemma first_error_none checks : first_error checks = None <-> forall c, In c checks -> c = None.
Proof.
  unfold first_error. induction checks as [|[err|] checks IH]; cbn; [naive_solver|..].
  - split; [done|]. intros Hall. specialize (Hall (Some err)). naive_solver.
  - rewrite IH. naive_solver.
Qed.

Lemma first_error_some checks err : In (Some err) checks -> first_error checks <> None.
Proof. intros Hin E. by pose proof (proj1 (first_error_none _) E _ Hin). Qed.

Section CosmosProps.
Context `{RPCTypeMembers}.

(** A failing check of a supported API refuses the endpoint. *)
Lemma supported_check_refuses q now e t check err :
  In (t, check) [(RPCType_COMET_BFT, validateEndpointCometBFTChecks q e); (RPCType_REST, isCosmosStatusValid q e);
                 (RPCType_JSON_RPC, isEVMChainIDValid q e)] ->
  t ∈ cos_getSupportedAPIs (cos_config q) -> check = Some err -> cos_basicEndpointValidation q now e <> None.
Proof.
  intros Hin Hsup Hc. unfold cos_basicEndpointValidation. apply (first_error_some _ err).
  assert (Hw : when_supported q t check = Some err) by (unfold when_supported; by rewrite bool_decide_true).
  rewrite <- Hw. clear Hc Hw Hsup. cbn in Hin |- *.
  destruct Hin as [[= <- <-]|[[= <- <-]|[[= <- <-]|[]]]]; tauto.
Qed.

Lemma failing_comet q e (c : option cos_error) err :
  In c [isCometBFTHealthValid e; isCometBFTStatusValid q (ce_CometBFTStatus e); isCometBFTBlockHeightValid q (ce_CometBFTStatus e)] ->
  c = Some err -> exists err', validateEndpointCometBFTChecks q e = Some err'.
Proof.
  intros Hin ->. destruct (validateEndpointCometBFTChecks q e) as [err'|] eqn:E; [by exists err'|].
  exfalso. by apply (first_error_some _ err Hin).
Qed.

(** ** Selection *)

Lemma cos_touch_status now addrs : forall m a,
  ce_CometBFTStatus <$> cos_touchEndpoints m now addrs !! a = ce_CometBFTStatus <$> m !! a.
Proof.
  unfold cos_touchEndpoints. induction addrs as [|b addrs IH]; intros m a; cbn [fold_left]; [done|].
  rewrite IH. destruct (m !! b) as [e|] eqn:Eb; [|done].
  destruct (decide (b = a)) as [->|Hne]; [by rewrite lookup_insert_eq, Eb|by rewrite lookup_insert_ne].
Qed.

Lemma cos_touch_score q now addrs a :
  cos_score (cos_set_endpoints q (cos_touchEndpoints (cos_endpoints q) now addrs)) a = cos_score q a.
Proof.
  unfold cos_score. cbn [cos_endpoints cos_set_endpoints cos_perceived].
  pose proof (cos_touch_status now addrs (cos_endpoints q) a) as E.
  destruct (cos_touchEndpoints _ now addrs !! a) as [e1|], (cos_endpoints q !! a) as [e2|]; try done.
  cbn in E. by injection E as ->.
Qed.

Lemma cos_score_addr q a : se_addr (cos_score q a) = a.
Proof. unfold cos_score. repeat case_match; done. Qed.

(** What the Cosmos selection may return. *)
Definition cos_choice_ok (q : cos_state) (now : Time) : list EndpointAddr -> EndpointAddr -> Prop :=
  choice_ok (cos_accepts q now) (cos_score q) ((cos_getSyncAllowance (cos_config q) =? 0) || (cos_perceived q =? 0)).

(** The Cosmos selection never fails on a non-empty list and never panics, whatever the
    draws: it picks an endpoint of the list, an accepted one while there is one, and otherwise,
    once a height is perceived and a sync allowance set, one that no other is fresher than. *)
Theorem cosmos_select_total `{RPCTypeEnum} `{DomainLib} {R} `{RandSource R} `{!RandLaws R} g q now available :
  available <> [] ->
  always (cos_Select (R := R) g q now available) (fun x => exists ep, fst x = Ok ep /\ cos_choice_ok q now available ep).
Proof.
  intros Hne. unfold cos_Select, cos_filterValidEndpoints. rewrite (match_cons available) by done.
  destruct (List.filter (cos_accepts q now) available) as [|f fs] eqn:Ef.
  - unfold cos_selectLeastStaleEndpoints. rewrite (match_cons available) by done.
    cbn [Z.eqb cos_perceived cos_config cos_set_endpoints].
    rewrite (map_ext _ (cos_score q)) by (intros a; apply cos_touch_score).
    eapply always_bind; [by apply (fallback_choice (cos_accepts q now)), cos_score_addr|].
    cbv beta. intros l (ep & rest & -> & Hok). apply always_ret. exists ep. by split.
  - rewrite <- Ef. eapply always_bind; [apply accepted_choice; by rewrite Ef|].
    intros ep Hep. apply always_ret. exists ep. split; [done|exact Hep].
Qed.

(** ** The production configuration *)

Lemma simple_status_invalid q sid n apis share s :
  cos_config q = SimpleCosmos sid n apis share -> exists err, isCometBFTStatusValid q s = Some err.
Proof.
  intros Hc. unfold isCometBFTStatusValid, status_GetChainID. rewrite Hc. cbn [getCosmosSDKChainID].
  destruct (cs_chainID s) as [id|]; [|by eexists]. destruct (String.eqb_spec id ""); [by eexists|].
  destruct (String.eqb_spec id ""); [done|]. by eexists.
Qed.

Lemma simple_update_noop order : forall q sid n apis share,
  cos_config q = SimpleCosmos sid n apis share -> cos_updateFromEndpoints q order = q.
Proof.
  unfold cos_updateFromEndpoints. induction order as [|e order IH]; intros q sid n apis share Hc; cbn [fold_left]; [done|].
  assert (E : cos_update_from_endpoint q e = q).
  { unfold cos_update_from_endpoint. by destruct (simple_status_invalid q sid n apis share (ce_CometBFTStatus e) Hc) as [err ->]. }
  rewrite E. by eapply IH.
Qed.

(** With the configuration production uses, whose chain ID is empty, no status passes the
    CometBFT check: of a service with that API every endpoint the store knows is refused, so
    selection accepts exactly the endpoints nothing is known of, and no observation of a status
    ever raises the perceived height. *)
Theorem simple_cosmos_refuses_known q now sid n apis share :
  cos_config q = SimpleCosmos sid n apis share -> RPCType_COMET_BFT ∈ cos_getSupportedAPIs (cos_config q) ->
  (forall a, cos_accepts q now a = true <-> cos_endpoints q !! a = None) /\
  (forall order observations, cos_perceived (snd (cos_ApplyObservations now order q observations)) = cos_perceived q).
Proof.
  intros Hc Hapi. split.
  - intros a. unfold cos_accepts. destruct (cos_endpoints q !! a) as [e|]; [|done]. split; [|done].
    destruct (simple_status_invalid q sid n apis share (ce_CometBFTStatus e) Hc) as [err Herr].
    destruct (failing_comet q e _ err (or_intror (or_introl eq_refl)) Herr) as [err' Hck].
    pose proof (supported_check_refuses q now e _ _ err' (or_introl eq_refl) Hapi Hck).
    by destruct (cos_basicEndpointValidation q now e).
  - intros order [[obs|]|]; [|done..]. cbn.
    destruct (cos_updateEndpointsFromObservations _ now obs) as [m updated]. cbn [snd].
    by rewrite (simple_update_noop _ (cos_set_endpoints q m) sid n apis share).
Qed.

(** ** The observation pipeline *)

Lemma behind_refused q now e t h :
  In (t, h) [(RPCType_COMET_BFT, cs_latestBlockHeight (ce_CometBFTStatus e)); (RPCType_REST, ce_CosmosStatus e)] ->
  t ∈ cos_getSupportedAPIs (cos_config q) ->
  0 < cos_getSyncAllowance (cos_config q) -> 0 < cos_perceived q ->
  (forall k, h = Some k -> 0 <= k < MinAllowedBlockNumber (cos_perceived q) (cos_getSyncAllowance (cos_config q))) ->
  cos_basicEndpointValidation q now e <> None.
Proof.
  intros Hin Hsup Hall Hper Hlag.
  assert (Hv : forall k, h = Some k -> k <> 0 -> validateBlockHeightSyncAllowance q k = Some cosOutsideSyncAllowance).
  { intros k Hk Hne. specialize (Hlag k Hk). unfold validateBlockHeightSyncAllowance.
    destruct (Z.eqb_spec (cos_getSyncAllowance (cos_config q)) 0); [lia|]. destruct (Z.eqb_spec (cos_perceived q) 0); [lia|].
    destruct (Z.eqb_spec k 0); [lia|]. rewrite (proj2 (Z.ltb_lt _ _)) by lia. done. }
  destruct Hin as [[= <- Hh]|[[= <- Hh]|[]]].
  - assert (Hb : exists err, isCometBFTBlockHeightValid q (ce_CometBFTStatus e) = Some err).
    { unfold isCometBFTBlockHeightValid, status_GetLatestBlockHeight. rewrite Hh. destruct h as [k|]; [|by eexists].
      destruct (Z.eqb_spec k 0); [by eexists|]. rewrite Hv; eauto. }
    destruct Hb as [err Hb].
    destruct (failing_comet q e _ err (or_intror (or_intror (or_introl eq_refl))) Hb) as [err' Hck].
    by apply (supported_check_refuses q now e _ _ err' (or_introl eq_refl)).
  - assert (Hb : exists err, isCosmosStatusValid q e = Some err).
    { unfold isCosmosStatusValid, cosmos_GetHeight. rewrite Hh. destruct h as [k|]; [|by eexists].
      destruct (Z.eqb_spec k 0); [by eexists|]. rewrite Hv; eauto. }
    destruct Hb as [err Hb]. by apply (supported_check_refuses q now e _ _ err (or_intror (or_introl eq_refl))).
Qed.

(** The pipeline takes any height.  Unlike status observations and the external source,
    UpdateFromExtractedData makes no plausibility check: one response claiming height [forged]
    makes it the perceived height, however far ahead, and from then on every endpoint whose
    height is more than the sync allowance below it is refused, wherever heights are checked. *)
Theorem forged_height_taken q hasSvc liar forged invalid t :
  0 < forged -> cos_perceived q < forged ->
  In t [RPCType_COMET_BFT; RPCType_REST] -> t ∈ cos_getSupportedAPIs (cos_config q) ->
  0 < cos_getSyncAllowance (cos_config q) ->
  let poisoned := fst (cos_UpdateFromExtractedData q hasSvc liar (Some (forged, invalid))) in
  cos_perceived poisoned = forged /\
  forall now e h, In (t, Some h) [(RPCType_COMET_BFT, cs_latestBlockHeight (ce_CometBFTStatus e)); (RPCType_REST, ce_CosmosStatus e)] ->
    0 <= h < MinAllowedBlockNumber forged (cos_getSyncAllowance (cos_config q)) ->
    cos_basicEndpointValidation poisoned now e <> None.
Proof.
  intros Hpos Hlt Ht Hapi Hall poisoned.
  assert (Hp : cos_perceived poisoned = forged /\ cos_config poisoned = cos_config q).
  { unfold poisoned, cos_UpdateFromExtractedData, cos_block. cbn [mbind option_bind].
    rewrite (proj2 (Z.ltb_lt _ _) Hpos). cbn [cos_perceived cos_set_endpoints]. by rewrite (proj2 (Z.ltb_lt _ _) Hlt). }
  destruct Hp as [Hp Hcfg]. split; [exact Hp|]. intros now e h Hin Hlag.
  apply (behind_refused poisoned now e t (Some h)); rewrite ?Hcfg, ?Hp; try done. by intros k [= <-].
Qed.

(** ** Empty responses *)

(** What changes the store, but for the sweep. *)
Inductive cos_op {St} :=
| OpObservations (now : Time) (order : list cos_endpoint -> list cos_endpoint)
    (obs : option (option (list (option (EndpointAddr * option CosmosResponse)))))
| OpExtracted (hasSvc : bool) (addr : EndpointAddr) (data : option (Z * bool))
| OpExternal (now startedAt : Time) (grace : Duration) (hasSvc : bool) (height : Z)
| OpFilter (now : Time) (available : list EndpointAddr)
| OpReset (svc : option (service St))
| OpSync (now : Time) (s : service St).
Arguments cos_op : clear implicits.

Definition cos_step `{RPCTypeEnum} {St} `{!Storage St} (q : cos_state) (op : cos_op St) : cos_state :=
  match op with
  | OpObservations now order obs => snd (cos_ApplyObservations now order q obs)
  | OpExtracted hasSvc addr data => fst (cos_UpdateFromExtractedData q hasSvc addr data)
  | OpExternal now startedAt grace hasSvc h => fst (cos_consume_external q now startedAt grace hasSvc h)
  | OpFilter now available => snd (cos_filterValidEndpoints q now available)
  | OpReset svc => snd (fst (cos_ResetPerceivedBlockHeight q svc))
  | OpSync now s => cos_background_start q now s
  end.

Definition flagged (m : gmap EndpointAddr cos_endpoint) (a : EndpointAddr) : Prop :=
  exists e, m !! a = Some e /\ ce_hasReturnedEmptyResponse e = true.

Lemma flagged_insert m a b e :
  flagged m a -> (forall e0, m !! b = Some e0 -> ce_hasReturnedEmptyResponse e0 = true -> ce_hasReturnedEmptyResponse e = true) ->
  flagged (<[b := e]> m) a.
Proof.
  intros (e0 & He0 & Hf) He. destruct (decide (b = a)) as [->|Hne].
  - exists e. rewrite lookup_insert_eq. eauto.
  - exists e0. by rewrite lookup_insert_ne.
Qed.

Lemma flagged_observations now obs a : forall m updated,
  flagged m a -> flagged (fst (fold_left (cos_observe_one now) obs (m, updated))) a.
Proof.
  induction obs as [|[[b r]|] obs IH]; intros m updated Hm; cbn [fold_left cos_observe_one]; [exact Hm| |by apply IH].
  destruct (cos_applyObservation _ now r) as [e mutated] eqn:E. destruct mutated; [|by apply IH].
  apply IH. apply flagged_insert; [exact Hm|]. intros e0 He0 Hf. rewrite He0 in E. cbn in E.
  destruct r as [[err| | | | |]|]; injection E as <-; cbn; rewrite ?Hf; try done. by destruct err.
Qed.

Lemma update_keeps_endpoints order : forall q, cos_endpoints (cos_updateFromEndpoints q order) = cos_endpoints q.
Proof.
  unfold cos_updateFromEndpoints. induction order as [|e order IH]; intros q; cbn [fold_left]; [done|].
  rewrite IH. unfold cos_update_from_endpoint. repeat case_match; done.
Qed.

Lemma flagged_touch now addrs a : forall m, flagged m a -> flagged (cos_touchEndpoints m now addrs) a.
Proof.
  unfold cos_touchEndpoints. induction addrs as [|b addrs IH]; intros m Hm; cbn [fold_left]; [exact Hm|].
  destruct (m !! b) as [e|] eqn:Eb; [|by apply IH]. apply IH, flagged_insert; [exact Hm|].
  intros e0 He0 Hf. rewrite Eb in He0. injection He0 as <-. exact Hf.
Qed.

Lemma flagged_sync m now heights urls a : flagged m a -> flagged (cos_fill_by_url urls (cos_overwrite_heights m now heights)) a.
Proof.
  intros (e & He & Hf).
  assert (Ho : flagged (cos_overwrite_heights m now heights) a).
  { unfold flagged, cos_overwrite_heights. rewrite lookup_union, map_lookup_imap, He.
    destruct (heights !! a) as [h|]; cbn; eauto. }
  destruct Ho as (e1 & He1 & Hf1). unfold flagged, cos_fill_by_url. rewrite map_lookup_imap, He1. cbn.
  eexists. split; [reflexivity|]. repeat case_match; done.
Qed.

Lemma flagged_step `{RPCTypeEnum} {St} `{!Storage St} q (op : cos_op St) a :
  flagged (cos_endpoints q) a -> flagged (cos_endpoints (cos_step q op)) a.
Proof.
  intros Hq. destruct op as [now order obs|hasSvc b data|now st grace hasSvc h|now avail|svc|now s]; cbn [cos_step].
  - destruct obs as [[obs|]|]; [|exact Hq..]. cbn.
    pose proof (flagged_observations now obs a (cos_endpoints q) ∅ Hq) as Hobs. fold (cos_updateEndpointsFromObservations (cos_endpoints q) now obs) in Hobs.
    destruct (cos_updateEndpointsFromObservations _ now obs) as [m updated]. cbn [snd]. by rewrite update_keeps_endpoints.
  - unfold cos_UpdateFromExtractedData. destruct (data ≫= _) as [h|]; [|exact Hq].
    assert (Hi : flagged (<[b := ce_with_height (default zero_cos_endpoint (cos_endpoints q !! b)) h]> (cos_endpoints q)) a).
    { apply flagged_insert; [exact Hq|]. intros e0 He0 Hf. by rewrite He0. }
    repeat case_match; cbn; simplify_eq; exact Hi.
  - unfold cos_consume_external. repeat case_match; exact Hq.
  - unfold cos_filterValidEndpoints. destruct avail; [exact Hq|]. by apply flagged_touch.
  - unfold cos_ResetPerceivedBlockHeight. repeat case_match; exact Hq.
  - unfold cos_background_start, cos_syncEndpointBlocksFromRedis. 
    assert (E : cos_endpoints (cos_syncFromRedis q s) = cos_endpoints q) by (unfold cos_syncFromRedis; repeat case_match; done).
    destruct (bool_decide _); [by rewrite E|]. cbn. rewrite E. by apply flagged_sync.
Qed.

(** One empty response excludes an endpoint for good.  The flag has no time of its own:
    whatever observations, heights and selections follow, and however long, the endpoint stays
    in the store, flagged and refused as having returned an empty response. *)
Theorem empty_response_permanent `{RPCTypeEnum} {St} `{!Storage St} q (ops : list (cos_op St)) a :
  flagged (cos_endpoints q) a ->
  let q' := fold_left cos_step ops q in
  exists e, cos_endpoints q' !! a = Some e /\ forall now, cos_basicEndpointValidation q' now e = Some cosEmptyResponse.
Proof.
  intros Hq q'. assert (Hq' : flagged (cos_endpoints q') a).
  { unfold q'. clear q'. revert q Hq. induction ops as [|op ops IH]; intros q Hq; [exact Hq|]. cbn [fold_left]. by apply IH, flagged_step. }
  destruct Hq' as (e & He & Hf). exists e. split; [exact He|]. intros now.
  unfold cos_basicEndpointValidation. by rewrite Hf.
Qed.

(** ** The report *)

Lemma report_lookup q now l : forall r a,
  NoDup (map fst l) ->
  cl_Disqualified (fold_left (fun r '(addr, e) =>
    match cos_basicEndpointValidation q now e with Some err => cos_count_error r addr err | None => r end) l r) !! a =
  match list_to_map (M := gmap EndpointAddr cos_endpoint) l !! a ≫= cos_basicEndpointValidation q now with
  | Some err => Some err
  | None => cl_Disqualified r !! a
  end.
Proof.
  induction l as [|[b e] l IH]; intros r a Hnd; cbn [fold_left list_to_map foldr]; [done|].
  cbn in Hnd. apply NoDup_cons in Hnd as [Hb Hnd]. rewrite IH by done. unfold list_to_map; fold (list_to_map (M := gmap EndpointAddr cos_endpoint) l).
  destruct (decide (b = a)) as [->|Hne].
  - rewrite lookup_insert_eq. rewrite (not_elem_of_list_to_map_1 l a) by done. cbn.
    destruct (cos_basicEndpointValidation q now e) as [err|]; [|done].
    destruct r as [d em ch bl], err; cbn; by rewrite lookup_insert_eq.
  - rewrite lookup_insert_ne by done. destruct (list_to_map l !! a ≫= _); [done|].
    destruct (cos_basicEndpointValidation q now e) as [err|]; [|done].
    destruct r as [d em ch bl], err; cbn; by rewrite lookup_insert_ne.
Qed.

(** The report of disqualified endpoints lists exactly the endpoints of the store that
    selection refuses, each with the error it is refused for. *)
Theorem cosmos_report_exact q now a :
  cl_Disqualified (cos_getDisqualifiedEndpointsResponse q now) !! a =
    (cos_endpoints q !! a ≫= cos_basicEndpointValidation q now) /\
  (cos_accepts q now a = false <-> is_Some (cl_Disqualified (cos_getDisqualifiedEndpointsResponse q now) !! a)).
Proof.
  assert (E : cl_Disqualified (cos_getDisqualifiedEndpointsResponse q now) !! a =
    (cos_endpoints q !! a ≫= cos_basicEndpointValidation q now)).
  { unfold cos_getDisqualifiedEndpointsResponse. rewrite report_lookup by apply NoDup_fst_map_to_list.
    rewrite list_to_map_to_list. by destruct (_ ≫= _). }
  split; [exact E|]. rewrite E. unfold cos_accepts. destruct (cos_endpoints q !! a) as [e|]; cbn.
  - destruct (cos_basicEndpointValidation q now e); split; eauto; [done|]. by intros [? ?].
  - split; [done|]. by intros [? ?].
Qed.
End CosmosProps.

(** ** Witnesses *)

Definition cos_node (id : string) (height : Z) : cos_endpoint :=
  mkCosEndpoint false false false None (mkCometStatus (Some id) (Some false) (Some height) 0) (Some true, 0) (Some height) (None, 0) 0.

Definition demo_cosmos : cos_state :=
  mkCosState (StaticCosmos "osmosis" "osmosis-1" "" 10 {[RPCType_COMET_BFT; RPCType_REST]})
    {["pokt1a-https://n1.big.com" := cos_node "osmosis-1" 5000000; "pokt1d-https://x.small.io" := cos_node "osmosis-1" 4999000]} 5000000.

Definition demo_simple : cos_state :=
  mkCosState (cos_config (cos_NewSimpleQoSInstanceWithSyncAllowance "osmosis" 10)) (cos_endpoints demo_cosmos) 5000000.

Lemma cosmos_select_total_witness :
  always (cos_Select (R := Z) initial_settings demo_cosmos (5 * second) ["pokt1a-https://n1.big.com"; "pokt1d-https://x.small.io"])
    (fun x => exists ep, fst x = Ok ep /\
       cos_choice_ok demo_cosmos (5 * second) ["pokt1a-https://n1.big.com"; "pokt1d-https://x.small.io"] ep).
Proof. apply (cosmos_select_total initial_settings demo_cosmos (5 * second)). discriminate. Defined.

Lemma simple_cosmos_refuses_known_witness :
  cos_accepts demo_cosmos 5 "pokt1a-https://n1.big.com" = true /\
  (cos_accepts demo_simple 5 "pokt1a-https://n1.big.com" = true <-> cos_endpoints demo_simple !! "pokt1a-https://n1.big.com" = None).
Proof.
  split; [vm_compute; reflexivity|].
  apply (simple_cosmos_refuses_known demo_simple 5 "osmosis" 10 (Some default_cosmos_apis) f_zero); [reflexivity|].
  apply (bool_decide_unpack _). vm_compute. exact I.
Defined.

Lemma forged_height_taken_witness :
  let poisoned := fst (cos_UpdateFromExtractedData demo_cosmos true "pokt1e-https://liar.io" (Some (2 ^ 62, false))) in
  cos_basicEndpointValidation demo_cosmos 9 (cos_node "osmosis-1" 5000000) = None /\
  IsPlausibleBlockHeight (2 ^ 62) 5000000 = false /\
  cos_basicEndpointValidation poisoned 9 (cos_node "osmosis-1" 5000000) <> None.
Proof.
  split; [vm_compute; reflexivity|]. split; [vm_compute; reflexivity|].
  apply (forged_height_taken demo_cosmos true "pokt1e-https://liar.io" (2 ^ 62) false RPCType_REST) with (h := 5000000).
  - reflexivity.
  - reflexivity.
  - right. by left.
  - apply (bool_decide_unpack _). vm_compute. exact I.
  - reflexivity.
  - right. by left.
  - vm_compute. split; [discriminate|reflexivity].
Defined.

Definition demo_emptied : cos_state :=
  snd (cos_ApplyObservations 5 (fun l => l) demo_cosmos
    (Some (Some [Some ("pokt1a-https://n1.big.com", Some (CosValidationError CosmosErrEmpty))]))).

Lemma empty_response_permanent_witness :
  exists e, cos_endpoints (fold_left cos_step
      [ OpFilter (St := MemoryStorage) (3600 * second) ["pokt1a-https://n1.big.com"];
        OpObservations (7200 * second) (fun l => l) (Some (Some [Some ("pokt1a-https://n1.big.com",
          Some (CosCometBFTStatus "osmosis-1" false "5000100"))])) ] demo_emptied) !! "pokt1a-https://n1.big.com" = Some e /\
    forall now, cos_basicEndpointValidation (fold_left cos_step
      [ OpFilter (St := MemoryStorage) (3600 * second) ["pokt1a-https://n1.big.com"];
        OpObservations (7200 * second) (fun l => l) (Some (Some [Some ("pokt1a-https://n1.big.com",
          Some (CosCometBFTStatus "osmosis-1" false "5000100"))])) ] demo_emptied) now e = Some cosEmptyResponse.
Proof.
  apply (empty_response_permanent demo_emptied). unfold flagged. eexists. split; [vm_compute; reflexivity|reflexivity].
Defined.
