(* ===== verification/Redis.v ===== *)
(** * Redis, as the reputation storage uses it

    Redis and its Go client are not part of the repository: the commands the storage issues are
    the class [Redis], and their documented effect on a reachable server the class [RedisLaws],
    which refers to the keyspace by the reference semantics below.  A server carries its clock;
    time passes by [rd_advance].  The text forms of floats and instants that strconv and package
    time produce are the classes [FloatText] and [TimeText], with the round trips their
    documentation states. *)

From S2P Require Import Prelude GoStrings Utf8 Float64 Rounding.
From Stdlib Require Import ZArith Lia Bool Ascii String SpecFloat.
From stdpp Require Import base gmap strings fin_maps list.

Open Scope string_scope.
Open Scope Z_scope.

(** ** Reference semantics *)

Inductive redis_value := RString (s : string) | RHash (h : gmap string string).

(** A value and the instant it expires at, if any. *)
Abbreviation redis_entry := (redis_value * option Time)%type (only parsing).
Abbreviation keyspace := (gmap string (redis_value * option Time)) (only parsing).

Definition entry_live (now : Time) (e : redis_entry) : bool :=
  match snd e with None => true | Some t => now <? t end.

Inductive redis_error := RedisUnavailable | WrongType | ScriptError.

Definition ref_HGetAll (ks : keyspace) (k : string) : result redis_error (gmap string string) :=
  match ks !! k with
  | None => Ok ∅
  | Some (RHash h, _) => Ok h
  | Some (RString _, _) => Err WrongType
  end.

Definition ref_Get (ks : keyspace) (k : string) : result redis_error (option string) :=
  match ks !! k with
  | None => Ok None
  | Some (RString s, _) => Ok (Some s)
  | Some (RHash _, _) => Err WrongType
  end.

(** SET with NX, and an expiry when the duration is positive. *)
Definition ref_SetNX (now : Time) (ks : keyspace) (k v : string) (ttl : Duration) : bool * keyspace :=
  match ks !! k with
  | Some _ => (false, ks)
  | None => (true, <[k := (RString v, if 0 <? ttl then Some (time_add now ttl) else None)]> ks)
  end.

Inductive redis_cmd :=
| HSET (k : string) (fields : gmap string string)
| HDEL (k : string) (fields : list string)
| DEL (k : string)
| EXPIRE (k : string) (ttl : Duration)
| EXPIREGT (k : string) (ttl : Duration).

(** The client sends whole seconds, and at least one for a positive duration. *)
Definition expire_seconds (ttl : Duration) : Z := if (0 <? ttl) && (ttl <? second) then 1 else ttl ÷ second.
Definition expire_at (now : Time) (ttl : Duration) : Time := time_add now (expire_seconds ttl * second).

(** A key that would have no field left, or whose expiry is not in the future, goes away. *)
Definition put_hash (ks : keyspace) (k : string) (h : gmap string string) (exp : option Time) : keyspace :=
  if bool_decide (h = ∅) then delete k ks else <[k := (RHash h, exp)]> ks.
Definition put_expiry (ks : keyspace) (now : Time) (k : string) (v : redis_value) (t : Time) : keyspace :=
  if t <=? now then delete k ks else <[k := (v, Some t)]> ks.

(** With GT a key without an expiry counts as one that never expires. *)
Definition ref_cmd (now : Time) (ks : keyspace) (c : redis_cmd) : option redis_error * keyspace :=
  match c with
  | HSET k fields =>
      match ks !! k with
      | None => (None, put_hash ks k fields None)
      | Some (RHash h, exp) => (None, put_hash ks k (fields ∪ h) exp)
      | Some (RString _, _) => (Some WrongType, ks)
      end
  | HDEL k fields =>
      match ks !! k with
      | None => (None, ks)
      | Some (RHash h, exp) => (None, put_hash ks k (filter (fun p => p.1 ∉ fields) h) exp)
      | Some (RString _, _) => (Some WrongType, ks)
      end
  | DEL k => (None, delete k ks)
  | EXPIRE k ttl =>
      match ks !! k with
      | None => (None, ks)
      | Some (v, _) => (None, put_expiry ks now k v (expire_at now ttl))
      end
  | EXPIREGT k ttl =>
      match ks !! k with
      | Some (v, Some t) => (None, if time_before t (expire_at now ttl) then put_expiry ks now k v (expire_at now ttl) else ks)
      | _ => (None, ks)
      end
  end.

(** A pipeline runs every command, and reports the first error. *)
Definition ref_pipeline (now : Time) (ks : keyspace) (cs : list redis_cmd) : option redis_error * keyspace :=
  fold_left (fun '(err, ks) c =>
    let '(e, ks) := ref_cmd now ks c in (match err with Some _ => err | None => e end, ks)) cs (None, ks).

(** A script sees the clock and the keyspace, and runs atomically. *)
Definition redis_script : Type := Time -> keyspace -> result redis_error Z * keyspace.

(** ** The interface *)

Class Redis (Rd : Type) := {
  rd_clock : Rd -> Time;
  rd_advance : Rd -> Time -> Rd;
  rd_Ping : Rd -> bool;
  rd_HGetAll : Rd -> string -> result redis_error (gmap string string);
  rd_Get : Rd -> string -> result redis_error (option string);
  rd_Pipeline : Rd -> list redis_cmd -> option redis_error * Rd;
  rd_SetNX : Rd -> string -> string -> Duration -> result redis_error bool * Rd;
  rd_Eval : Rd -> redis_script -> result redis_error Z * Rd;
  rd_Scan : Rd -> Z -> string -> Z -> result redis_error (list string * Z);
}.

Section Scan.
Context {Rd : Type} `{Redis Rd}.

(** The pages of a full iteration from a cursor: it ends when the cursor is 0 again. *)
Inductive scan_pages (r : Rd) (pattern : string) (count : Z) : Z -> list (list string) -> Prop :=
| scan_last c ks : rd_Scan r c pattern count = Ok (ks, 0) -> scan_pages r pattern count c [ks]
| scan_more c ks c' ps : rd_Scan r c pattern count = Ok (ks, c') -> c' <> 0 ->
    scan_pages r pattern count c' ps -> scan_pages r pattern count c (ks :: ps).
End Scan.

(** No character of a glob pattern that stands for others. *)
Definition glob_literal (s : string) : bool :=
  forallb (fun c => negb (contains_byte c s)) ["*"; "?"; "["; "]"; "\"; "^"]%char.

(** The documented behaviour of a reachable server with keyspace [keys]. *)
Class RedisLaws (Rd : Type) `{Redis Rd} (keys : Rd -> keyspace) : Prop := {
  rl_ping : forall r, rd_Ping r = true;
  rl_hgetall : forall r k, rd_HGetAll r k = ref_HGetAll (keys r) k;
  rl_get : forall r k, rd_Get r k = ref_Get (keys r) k;
  rl_pipeline : forall r cs, let '(e, r') := rd_Pipeline r cs in
    (e, keys r') = ref_pipeline (rd_clock r) (keys r) cs /\ rd_clock r' = rd_clock r;
  rl_setnx : forall r k v ttl, let '(x, r') := rd_SetNX r k v ttl in
    (x, keys r') = (let '(ok, ks) := ref_SetNX (rd_clock r) (keys r) k v ttl in (Ok ok, ks)) /\ rd_clock r' = rd_clock r;
  rl_eval : forall r f, let '(x, r') := rd_Eval r f in
    (x, keys r') = f (rd_clock r) (keys r) /\ rd_clock r' = rd_clock r;
  rl_advance : forall r t, rd_clock r <= t ->
    keys (rd_advance r t) = filter (fun p => entry_live t p.2 = true) (keys r) /\ rd_clock (rd_advance r t) = t;
  rl_scan : forall r p count, glob_literal p = true -> 0 < count ->
    exists pages, scan_pages r (p +:+ "*") count 0 pages /\
      forall k, In k (concat pages) <-> is_Some (keys r !! k) /\ has_prefix p k = true;
}.

(** ** Text forms *)

(** strconv.FormatFloat(x, 'f', -1, 64) and strconv.ParseFloat(s, 64). *)
Class FloatText := {
  format_float : float64 -> string;
  parse_float64 : string -> option float64;
}.
Definition valid_float (x : float64) : bool :=
  match x with S754_finite _ m e => bounded 53 1024 m e | S754_nan => false | _ => true end.
Class FloatTextLaws `{FloatText} : Prop := {
  parse_format_float : forall x, valid_float x = true -> parse_float64 (format_float x) = Some x;
}.

(** Time.UTC().Format(time.RFC3339) and time.Parse(time.RFC3339, s); the format has whole
    seconds and four digits for the year. *)
Class TimeText := {
  format_rfc3339 : Time -> string;
  parse_rfc3339 : string -> option Time;
}.
Definition year10000 : Z := 253402300800.
Class TimeTextLaws `{TimeText} : Prop := {
  parse_format_rfc3339 : forall t, 0 <= time_unix t < year10000 -> parse_rfc3339 (format_rfc3339 t) = Some (time_unix t * second);
}.

(** ** A server: the reference semantics itself *)

Record DemoRedis := mkDemoRedis { dr_clock : Time; dr_keys : keyspace }.

#[export] Instance demo_redis : Redis DemoRedis := {
  rd_clock := dr_clock;
  rd_advance r t := mkDemoRedis t (filter (fun p => entry_live t p.2 = true) (dr_keys r));
  rd_Ping _ := true;
  rd_HGetAll r k := ref_HGetAll (dr_keys r) k;
  rd_Get r k := ref_Get (dr_keys r) k;
  rd_Pipeline r cs := let '(e, ks) := ref_pipeline (dr_clock r) (dr_keys r) cs in (e, mkDemoRedis (dr_clock r) ks);
  rd_SetNX r k v ttl := let '(ok, ks) := ref_SetNX (dr_clock r) (dr_keys r) k v ttl in (Ok ok, mkDemoRedis (dr_clock r) ks);
  rd_Eval r f := let '(x, ks) := f (dr_clock r) (dr_keys r) in (x, mkDemoRedis (dr_clock r) ks);
  rd_Scan r _ pattern _ :=
    Ok (List.filter (fun k => has_prefix (str_take (String.length pattern - 1) pattern) k) (map fst (map_to_list (dr_keys r))), 0);
}.

#[export] Instance demo_redis_laws : RedisLaws DemoRedis dr_keys.
Proof.
  split; try done.
  - intros r cs. cbn. by destruct (ref_pipeline _ _ cs).
  - intros r k v ttl. cbn. by destruct (ref_SetNX _ _ k v ttl).
  - intros r f. cbn. by destruct (f _ _).
  - intros r p count Hp Hc. eexists. split; [by apply scan_last|]. cbn [concat]. intros k.
    rewrite app_nil_r, filter_In.
    replace (str_take (String.length (p +:+ "*") - 1) (p +:+ "*")) with p
      by (rewrite str_length_app, Nat.add_sub; by rewrite str_take_app).
    rewrite in_map_iff. split.
    + intros [([k' v] & <- & Hin) Hpre]. apply list_elem_of_In, elem_of_map_to_list in Hin. cbn. split; [by eexists|done].
    + intros [[v Hv] Hpre]. split; [|done]. exists (k, v). split; [done|]. by apply list_elem_of_In, elem_of_map_to_list.
Qed.

(** Floats as sign, mantissa and exponent; instants as seconds. *)
Definition sign_text (s : bool) : string := if s then "-" else "".

#[export] Instance demo_float_text : FloatText := {
  format_float x := match x with
    | S754_zero s => "z" +:+ sign_text s
    | S754_infinity s => "i" +:+ sign_text s
    | S754_nan => "NaN"
    | S754_finite s m e => (if s then "m" else "p") +:+ fmt_int (Zpos m) +:+ ":" +:+ fmt_int e
    end;
  parse_float64 s := match s with
    | String "z" t => Some (S754_zero (negb (t =? "")%string))
    | String "i" t => Some (S754_infinity (negb (t =? "")%string))
    | String c t =>
        match index_byte ":" t with
        | None => None
        | Some i => match parse_int (str_take i t), parse_int (str_drop (S i) t) with
                    | Some (Zpos m), Some e => Some (S754_finite (Ascii.eqb c "m") m e)
                    | _, _ => None
                    end
        end
    | _ => None
    end;
}.

#[export] Instance demo_float_text_laws : FloatTextLaws.
Proof.
  split. intros [s|s| |s m e] Hx; [by destruct s|by destruct s|done|]. cbn in Hx. apply bounded_iff in Hx.
  assert (Hm : in_int64 (Zpos m) /\ in_int64 e).
  { destruct Hx as (Hd & He). unfold in_int64, min_int64, max_int64. split; lia. }
  unfold format_float, parse_float64, demo_float_text.
  change (fmt_int (Z.pos m) +:+ ":" +:+ fmt_int e) with (fmt_int (Z.pos m) +:+ String ":" (fmt_int e)).
  destruct s; [change ("m" +:+ ?t) with (String "m" t)|change ("p" +:+ ?t) with (String "p" t)];
    cbv beta iota; rewrite index_byte_app by apply fmt_int_no_colon;
    rewrite ?str_take_app, ?str_drop_app_S, !parse_fmt_int by apply Hm; done.
Qed.

#[export] Instance demo_time_text : TimeText := {
  format_rfc3339 t := fmt_int (time_unix t);
  parse_rfc3339 s := option_map (fun n => n * second) (parse_int s);
}.

#[export] Instance demo_time_text_laws : TimeTextLaws.
Proof.
  split. intros t Ht. cbn. rewrite parse_fmt_int; [done|]. unfold in_int64, min_int64, max_int64, year10000 in *. lia.
Qed.
