(* ===== verification/RedisStorage.v ===== *)
(** * Reputation storage in Redis: reputation/storage/redis.go

    [RedisStorage] over the interface of Redis.v: the score codec, the key format, the listing
    loop over SCAN, the perceived block number with its Lua script, the block heights and the
    admin drains.  It is an instance of [Storage], so whatever is defined over that class runs
    on it.  As for every storage, an operation that fails leaves the state as it was. *)

From S2P Require Import Prelude GoStrings Float64 Signals Score RepKey RepConfig RepStorage Redis.
From Stdlib Require Import ZArith Lia Bool Ascii String.
From stdpp Require Import base list gmap strings fin_maps.

Open Scope string_scope.
Open Scope Z_scope.
Open Scope go_scope.

Record RedisStorage (Rd : Type) := mkRedisStorage {
  rs_client : Rd;
  rs_keyPrefix : string;
  rs_ttl : Duration;
}.
Arguments mkRedisStorage {Rd}.
Arguments rs_client {Rd}.
Arguments rs_keyPrefix {Rd}.
Arguments rs_ttl {Rd}.

Definition fieldValue := "value".
Definition fieldLastUpdated := "last_updated".
Definition fieldSuccessCount := "success_count".
Definition fieldErrorCount := "error_count".
Definition fieldCriticalStrikes := "critical_strikes".
Definition fieldCooldownUntil := "cooldown_until".
Definition fieldIsArchival := "is_archival".
Definition fieldArchivalExpires := "archival_expires_at".
Definition fieldRecentCriticalRate := "recent_critical_rate".
Definition fieldRateCooldownCount := "rate_cooldown_count".
Definition fieldRecentInvalidRate := "recent_invalid_rate".
Definition fieldInvalidCooldownCnt := "invalid_rate_cooldown_count".
Definition fieldRateCooldownUntil := "rate_cooldown_until".
Definition fieldInvalidCooldownUnt := "invalid_rate_cooldown_until".

Definition perceivedBlockTTL : Duration := 1 * hour.
Definition drainsHashTTLMargin : Duration := 10 * minute.

(** ** The score codec *)

Section Codec.
Context `{FloatText}.

Definition score_fields (score : Score) : gmap string string :=
  list_to_map [
    (fieldValue, format_float (sc_Value score));
    (fieldLastUpdated, fmt_int (time_unix (sc_LastUpdated score)));
    (fieldSuccessCount, fmt_int (sc_SuccessCount score));
    (fieldErrorCount, fmt_int (sc_ErrorCount score));
    (fieldCriticalStrikes, fmt_int (sc_CriticalStrikes score));
    (fieldCooldownUntil, fmt_int (time_unix (sc_CooldownUntil score)));
    (fieldIsArchival, if sc_IsArchival score then "1" else "0");
    (fieldArchivalExpires, fmt_int (time_unix (sc_ArchivalExpiresAt score)));
    (fieldRecentCriticalRate, format_float (sc_RecentCriticalRate score));
    (fieldRateCooldownCount, fmt_int (sc_RateCooldownCount score));
    (fieldRecentInvalidRate, format_float (sc_RecentInvalidRate score));
    (fieldInvalidCooldownCnt, fmt_int (sc_InvalidRateCooldownCount score));
    (fieldRateCooldownUntil, fmt_int (time_unix (sc_RateCooldownUntil score)));
    (fieldInvalidCooldownUnt, fmt_int (time_unix (sc_InvalidRateCooldownUntil score)))].

(** A field that is absent is skipped; one that does not parse is an error. *)
Definition read_field {A} (parse : string -> option A) (data : gmap string string) (field : string)
  : result storage_error (option A) :=
  match data !! field with
  | None => Ok None
  | Some v => match parse v with Some a => Ok (Some a) | None => Err ErrBackend end
  end.

(** A timestamp that is not positive stands for the zero time. *)
Definition unix_or_zero (ts : option Z) : Time :=
  match ts with Some ts => if 0 <? ts then ts * second else time_zero | None => time_zero end.

Definition parseScore (data : gmap string string) : result storage_error Score :=
  let! value := read_field parse_float64 data fieldValue in
  let! lastUpdated := read_field parse_int data fieldLastUpdated in
  let! successCount := read_field parse_int data fieldSuccessCount in
  let! errorCount := read_field parse_int data fieldErrorCount in
  let! strikes := read_field parse_int data fieldCriticalStrikes in
  let! cooldown := read_field parse_int data fieldCooldownUntil in
  let! criticalRate := read_field parse_float64 data fieldRecentCriticalRate in
  let! rateCount := read_field parse_int data fieldRateCooldownCount in
  let invalidRate := data !! fieldRecentInvalidRate ≫= parse_float64 in
  let invalidCount := data !! fieldInvalidCooldownCnt ≫= parse_int in
  let rateUntil := data !! fieldRateCooldownUntil ≫= parse_int in
  let invalidUntil := data !! fieldInvalidCooldownUnt ≫= parse_int in
  let isArchival := match data !! fieldIsArchival with
                    | Some v => (v =? "1")%string || (v =? "true")%string
                    | None => false
                    end in
  let! archivalExpires := read_field parse_int data fieldArchivalExpires in
  Ok (mkScore (default f_zero value) (match lastUpdated with Some ts => ts * second | None => time_zero end)
        (default 0 successCount) (default 0 errorCount) zero_latency_metrics (default 0 strikes) (unix_or_zero cooldown)
        (default f_zero criticalRate) (default 0 rateCount) (unix_or_zero rateUntil)
        (default f_zero invalidRate) (default 0 invalidCount) (unix_or_zero invalidUntil)
        isArchival (unix_or_zero archivalExpires)).
End Codec.

(** ** The drain codec *)

Definition drainField (key : DrainKey) : string :=
  dk_ServiceID key +:+ "|" +:+ dk_Domain key +:+ "|" +:+ dk_RPCType key.

Definition parseDrainField (field : string) : option DrainKey :=
  match split_byte "|" field with
  | [s; d; t] => if (s =? "")%string || (d =? "")%string then None else Some (mkDrainKey s d t)
  | _ => None
  end.

Section Storage.
Context `{RPCTypeEnum} `{FloatText} `{TimeText} {Rd : Type} `{Redis Rd}.
Implicit Type r : RedisStorage Rd.

Definition rs_with r (c : Rd) : RedisStorage Rd := mkRedisStorage c (rs_keyPrefix r) (rs_ttl r).

(** [connect] opens a client for the hydrated configuration. *)
Definition NewRedisStorage (connect : RedisConfig -> Rd) (config : RedisConfig) (ttl : Duration)
  : result storage_error (RedisStorage Rd) :=
  let config := RedisConfig_HydrateDefaults config in
  let client := connect config in
  if rd_Ping client then Ok (mkRedisStorage client (rd_KeyPrefix config) ttl) else Err ErrBackend.

Definition rs_buildKey r (key : EndpointKey) : string := rs_keyPrefix r +:+ key_String key.

(** strings.TrimPrefix leaves the key as it is exactly when the prefix is empty or missing. *)
Definition rs_parseKey r (redisKey : string) : option EndpointKey :=
  if has_prefix (rs_keyPrefix r) redisKey && negb (rs_keyPrefix r =? "")%string
  then ParseEndpointKeyString (str_drop (String.length (rs_keyPrefix r)) redisKey)
  else None.

(** A client error, wrapped. *)
Definition wrap {A} (x : result redis_error A) : result storage_error A :=
  match x with Ok a => Ok a | Err _ => Err ErrBackend end.

(** A pipeline whose error is all that is looked at. *)
Definition run r (cs : list redis_cmd) : result storage_error (RedisStorage Rd) :=
  let '(e, c) := rd_Pipeline (rs_client r) cs in
  match e with Some _ => Err ErrBackend | None => Ok (rs_with r c) end.

(** ** Scores *)

Definition rs_Get r (key : EndpointKey) : result storage_error Score :=
  let! data := wrap (rd_HGetAll (rs_client r) (rs_buildKey r key)) in
  if bool_decide (data = ∅) then Err ErrNotFound else parseScore data.

(** The commands of the pipeline fail together when the server is out of reach. *)
Definition rs_GetMultiple r (keys : list EndpointKey) : result storage_error (gmap EndpointKey Score) :=
  if existsb (fun key => match rd_HGetAll (rs_client r) (rs_buildKey r key) with Ok _ => false | Err _ => true end) keys
  then Err ErrBackend
  else Ok (fold_left (fun res key => match rs_Get r key with Ok score => <[key := score]> res | Err _ => res end) keys ∅).

Definition set_commands r (key : EndpointKey) (score : Score) : list redis_cmd :=
  HSET (rs_buildKey r key) (score_fields score) ::
  if 0 <? rs_ttl r then [EXPIRE (rs_buildKey r key) (rs_ttl r)] else [].

Definition rs_Set r (key : EndpointKey) (score : Score) : result storage_error (RedisStorage Rd) :=
  run r (set_commands r key score).

Definition rs_SetMultiple r (scores : gmap EndpointKey Score) : result storage_error (RedisStorage Rd) :=
  if bool_decide (scores = ∅) then Ok r
  else run r (concat (map (fun '(key, score) => set_commands r key score) (map_to_list scores))).

Definition rs_Delete r (key : EndpointKey) : result storage_error (RedisStorage Rd) := run r [DEL (rs_buildKey r key)].

(** The loop of List: [None] when the fuel runs out before the cursor is 0. *)
Fixpoint list_loop r (pattern : string) (fuel : nat) (cursor : Z) (acc : list EndpointKey)
  : option (result storage_error (list EndpointKey)) :=
  match fuel with
  | O => None
  | S fuel =>
      match rd_Scan (rs_client r) cursor pattern 100 with
      | Err _ => Some (Err ErrBackend)
      | Ok (scanKeys, cursor) =>
          let acc := (acc ++ omap (rs_parseKey r) scanKeys)%list in
          if cursor =? 0 then Some (Ok acc) else list_loop r pattern fuel cursor acc
      end
  end.

Definition list_pattern r (serviceID : string) : string :=
  if (serviceID =? "")%string then rs_keyPrefix r +:+ "*" else rs_keyPrefix r +:+ serviceID +:+ ":*".

Definition rs_List r (fuel : nat) (serviceID : string) : option (result storage_error (list EndpointKey)) :=
  list_loop r (list_pattern r serviceID) fuel 0 [].

(** ** Chain state *)

Definition perceivedBlockKey r (serviceID : string) : string := rs_keyPrefix r +:+ "chain_state:" +:+ serviceID +:+ ":perceived_block".
Definition endpointBlocksKey r (serviceID : string) : string := rs_keyPrefix r +:+ "chain_state:" +:+ serviceID +:+ ":endpoint_blocks".

(** strconv.ParseUint in base 10 *)
Definition parse_uint (s : string) : option Z :=
  match parse_nonempty_digits s with Some n => if n <=? max_uint64 then Some n else None | None => None end.

(** Lua's tonumber, on the decimal numerals this key holds: numbers are doubles. *)
Definition lua_tonumber (s : string) : option float64 := option_map f64_of_Z (parse_nonempty_digits s).

(** The script: keep the larger value, with a time to live that only a raise renews. *)
Definition set_if_higher (key value : string) (ttl : Z) : redis_script := fun now ks =>
  let store := <[key := (RString value, Some (time_add now (ttl * second)))]> ks in
  match ref_Get ks key with
  | Err e => (Err e, ks)
  | Ok None => (Ok 1, store)
  | Ok (Some current) =>
      match lua_tonumber current, lua_tonumber value with
      | Some c, Some v => if fltb c v then (Ok 1, store) else (Ok 0, ks)
      | _, _ => (Err ScriptError, ks)
      end
  end.

Definition rs_SetPerceivedBlockNumber r (serviceID : string) (blockNumber : Z) : result storage_error (RedisStorage Rd) :=
  let ttlSeconds := perceivedBlockTTL / second in
  let '(x, c) := rd_Eval (rs_client r) (set_if_higher (perceivedBlockKey r serviceID) (fmt_int blockNumber) ttlSeconds) in
  match x with Err _ => Err ErrBackend | Ok _ => Ok (rs_with r c) end.

Definition rs_GetPerceivedBlockNumber r (serviceID : string) : result storage_error Z :=
  match rd_Get (rs_client r) (perceivedBlockKey r serviceID) with
  | Err _ => Err ErrBackend
  | Ok None => Ok 0
  | Ok (Some s) => match parse_uint s with Some n => Ok n | None => Err ErrBackend end
  end.

Definition rs_DeletePerceivedBlockNumber r (serviceID : string) : result storage_error (RedisStorage Rd) :=
  run r [DEL (perceivedBlockKey r serviceID)].

Definition rs_SetEndpointBlockHeight r (serviceID endpointAddr : string) (blockHeight : Z) : result storage_error (RedisStorage Rd) :=
  run r [HSET (endpointBlocksKey r serviceID) {[endpointAddr := fmt_int blockHeight]}].

Definition rs_RemoveEndpointBlockHeights r (serviceID : string) (addrs : list string) : result storage_error (RedisStorage Rd) :=
  match addrs with
  | [] => Ok r
  | _ => run r [HDEL (endpointBlocksKey r serviceID) addrs]
  end.

Definition rs_GetEndpointBlockHeights r (serviceID : string) : result storage_error (gmap string Z) :=
  let! data := wrap (rd_HGetAll (rs_client r) (endpointBlocksKey r serviceID)) in
  Ok (omap parse_uint data).

(** ** Drains *)

Definition drainsHashKey r : string := rs_keyPrefix r +:+ "__drains__".

(** The error of the expiry is dropped.  time.Until reads the clock of the gateway, taken to
    agree with the server's. *)
Definition rs_SetDrain r (key : DrainKey) (until : Time) : result storage_error (RedisStorage Rd) :=
  let! written := run r [HSET (drainsHashKey r) {[drainField key := format_rfc3339 until]}] in
  let ttl := wrap64 (time_sub until (rd_clock (rs_client written)) + drainsHashTTLMargin) in
  if 0 <? ttl
  then Ok (rs_with written (snd (rd_Pipeline (rs_client written) [EXPIREGT (drainsHashKey r) ttl])))
  else Ok written.

Definition rs_DeleteDrain r (key : DrainKey) : result storage_error (RedisStorage Rd) :=
  run r [HDEL (drainsHashKey r) [drainField key]].

(** A field of the hash, if it is a drain still in force. *)
Definition read_drain (now : Time) (field val : string) : option (DrainKey * Time) :=
  match parse_rfc3339 val with
  | None => None
  | Some until => if negb (time_before now until) then None else (fun key => (key, until)) <$> parseDrainField field
  end.

(** Fields of no live drain are deleted; whether that works is not looked at. *)
Definition rs_ListDrains r (now : Time) : result storage_error (gmap DrainKey Time * RedisStorage Rd) :=
  let! raw := wrap (rd_HGetAll (rs_client r) (drainsHashKey r)) in
  let drains := list_to_map (omap (fun '(field, val) => read_drain now field val) (map_to_list raw)) in
  let expired := map fst (List.filter (fun '(field, val) => match read_drain now field val with None => true | Some _ => false end)
                            (map_to_list raw)) in
  match expired with
  | [] => Ok (drains, r)
  | _ => Ok (drains, rs_with r (snd (rd_Pipeline (rs_client r) [HDEL (drainsHashKey r) expired])))
  end.

(** A context is done after some number of pages, [pages], and Scan then fails. *)
#[export] Instance RedisStorage_Storage (pages : nat) : Storage (RedisStorage Rd) := {
  st_Get r _ := rs_Get r;
  st_GetMultiple r _ := rs_GetMultiple r;
  st_Set r _ := rs_Set r;
  st_SetMultiple r _ := rs_SetMultiple r;
  st_Delete := rs_Delete;
  st_List r _ serviceID := default (Err ErrBackend) (rs_List r pages serviceID);
  st_SetPerceivedBlockNumber := rs_SetPerceivedBlockNumber;
  st_GetPerceivedBlockNumber := rs_GetPerceivedBlockNumber;
  st_DeletePerceivedBlockNumber := rs_DeletePerceivedBlockNumber;
  st_SetEndpointBlockHeight := rs_SetEndpointBlockHeight;
  st_GetEndpointBlockHeights := rs_GetEndpointBlockHeights;
  st_RemoveEndpointBlockHeights := rs_RemoveEndpointBlockHeights;
  st_SetDrain := rs_SetDrain;
  st_DeleteDrain := rs_DeleteDrain;
  st_ListDrains := rs_ListDrains;
}.
End Storage.
