(* ===== verification/RedisStorageProps.v ===== *)
(** * The Redis reputation storage implements the in-memory one, to the second

    The score codec and the key format round trip; over any sequence of operations the Redis
    storage answers as the in-memory one does, but for what the record does not keep: fractions
    of a second and latency metrics.  The perceived block number is a maximum whose time to live
    only a raise renews.  Listing also returns keys that are no scores, and the backstop expiry
    of the drains is never set. *)

From S2P Require Import Prelude GoStrings Utf8 Float64 Rounding Signals Score RepKey RepConfig RepStorage Redis RedisStorage.
From Stdlib Require Import ZArith Lia Bool Ascii String.
From stdpp Require Import base gmap strings fin_maps list.

Open Scope string_scope.
Open Scope Z_scope.
Open Scope go_scope.

(** ** Strings *)

Lemma app_inj_l (p a b : string) : p +:+ a = p +:+ b -> a = b.
Proof. apply (inj (String.append p)). Qed.

(** What follows the last colon is determined. *)
Lemma last_colon_inj a b x y :
  contains_byte ":" x = false -> contains_byte ":" y = false ->
  a +:+ String ":" x = b +:+ String ":" y -> a = b /\ x = y.
Proof.
  intros Hx Hy E. pose proof (last_index_byte_app ":" a x Hx) as Ha. rewrite E, last_index_byte_app in Ha by exact Hy.
  injection Ha as Hlen. split.
  - rewrite <- (str_take_app a (String ":" x)), E, <- Hlen. apply str_take_app.
  - rewrite <- (str_drop_app_S a ":" x), E, <- Hlen. apply str_drop_app_S.
Qed.

(** ** The score codec *)

(** The scores the record can hold. *)
Record score_ok (sc : Score) : Prop := {
  so_value : valid_float (sc_Value sc) = true;
  so_critical : valid_float (sc_RecentCriticalRate sc) = true;
  so_invalid : valid_float (sc_RecentInvalidRate sc) = true;
  so_ints : Forall in_int64 [sc_SuccessCount sc; sc_ErrorCount sc; sc_CriticalStrikes sc; sc_RateCooldownCount sc;
                             sc_InvalidRateCooldownCount sc];
  so_times : Forall (fun t => in_int64 (time_unix t)) [sc_LastUpdated sc; sc_CooldownUntil sc; sc_ArchivalExpiresAt sc;
                             sc_RateCooldownUntil sc; sc_InvalidRateCooldownUntil sc];
}.

(** What is read back: instants to the second, the zero time for those before 1970, and no
    latency metrics. *)
Definition redis_view (sc : Score) : Score :=
  let floor t := unix_or_zero (Some (time_unix t)) in
  mkScore (sc_Value sc) (time_unix (sc_LastUpdated sc) * second) (sc_SuccessCount sc) (sc_ErrorCount sc)
    zero_latency_metrics (sc_CriticalStrikes sc) (floor (sc_CooldownUntil sc)) (sc_RecentCriticalRate sc)
    (sc_RateCooldownCount sc) (floor (sc_RateCooldownUntil sc)) (sc_RecentInvalidRate sc)
    (sc_InvalidRateCooldownCount sc) (floor (sc_InvalidRateCooldownUntil sc)) (sc_IsArchival sc) (floor (sc_ArchivalExpiresAt sc)).

Lemma field_in {A} (parse : string -> option A) (m h : gmap string string) f v a :
  m ⊆ h -> m !! f = Some v -> parse v = Some a -> read_field parse h f = Ok (Some a) /\ (h !! f ≫= parse) = Some a.
Proof.
  intros Hsub Hf Hp. pose proof (lookup_weaken _ _ _ _ Hf Hsub) as E. unfold read_field. rewrite E. cbn. by rewrite Hp.
Qed.

Lemma parse_score_fields `{FloatTextLaws} sc (h : gmap string string) :
  score_ok sc -> score_fields sc ⊆ h -> parseScore h = Ok (redis_view sc).
Proof.
  intros [Hv Hc Hi Hints Htimes] Hsub. repeat (apply Forall_cons in Hints as [? Hints]). repeat (apply Forall_cons in Htimes as [? Htimes]).
  pose proof (fun f v z Hf (Hz : in_int64 z) (Ev : v = fmt_int z) =>
    field_in parse_int _ h f v z Hsub Hf ltac:(rewrite Ev; by apply parse_fmt_int)) as Fint.
  pose proof (fun f v x Hf (Hx : valid_float x = true) (Ev : v = format_float x) =>
    field_in parse_float64 _ h f v x Hsub Hf ltac:(rewrite Ev; by apply parse_format_float)) as Ffloat.
  unfold parseScore.
  rewrite (proj1 (Ffloat fieldValue _ (sc_Value sc) eq_refl Hv eq_refl)).
  rewrite (proj1 (Fint fieldLastUpdated _ (time_unix (sc_LastUpdated sc)) eq_refl ltac:(done) eq_refl)).
  rewrite (proj1 (Fint fieldSuccessCount _ (sc_SuccessCount sc) eq_refl ltac:(done) eq_refl)).
  rewrite (proj1 (Fint fieldErrorCount _ (sc_ErrorCount sc) eq_refl ltac:(done) eq_refl)).
  rewrite (proj1 (Fint fieldCriticalStrikes _ (sc_CriticalStrikes sc) eq_refl ltac:(done) eq_refl)).
  rewrite (proj1 (Fint fieldCooldownUntil _ (time_unix (sc_CooldownUntil sc)) eq_refl ltac:(done) eq_refl)).
  rewrite (proj1 (Ffloat fieldRecentCriticalRate _ (sc_RecentCriticalRate sc) eq_refl Hc eq_refl)).
  rewrite (proj1 (Fint fieldRateCooldownCount _ (sc_RateCooldownCount sc) eq_refl ltac:(done) eq_refl)).
  rewrite (proj1 (Fint fieldArchivalExpires _ (time_unix (sc_ArchivalExpiresAt sc)) eq_refl ltac:(done) eq_refl)).
  rewrite (proj2 (Ffloat fieldRecentInvalidRate _ (sc_RecentInvalidRate sc) eq_refl Hi eq_refl)).
  rewrite (proj2 (Fint fieldInvalidCooldownCnt _ (sc_InvalidRateCooldownCount sc) eq_refl ltac:(done) eq_refl)).
  rewrite (proj2 (Fint fieldRateCooldownUntil _ (time_unix (sc_RateCooldownUntil sc)) eq_refl ltac:(done) eq_refl)).
  rewrite (proj2 (Fint fieldInvalidCooldownUnt _ (time_unix (sc_InvalidRateCooldownUntil sc)) eq_refl ltac:(done) eq_refl)).
  rewrite (lookup_weaken _ _ fieldIsArchival (if sc_IsArchival sc then "1" else "0") eq_refl Hsub).
  unfold redis_view. by destruct (sc_IsArchival sc).
Qed.

Lemma score_fields_nonempty `{FloatText} sc h : score_fields sc ⊆ h -> h <> ∅.
Proof.
  intros Hsub E. pose proof (lookup_weaken (score_fields sc) h fieldValue _ eq_refl Hsub) as F.
  by rewrite E, lookup_empty in F.
Qed.

(** ** Keys *)

(** No RPC type is named after a chain-state key. *)
Class ScoreKeyNames `{RPCTypeEnum} (known : Z -> Prop) : Prop := {
  rpc_not_chain_state : forall t, known t ->
    to_lower (rpc_String t) <> "perceived_block" /\ to_lower (rpc_String t) <> "endpoint_blocks";
}.

Section Props.
Context `{RPCTypeEnum} {known : Z -> Prop} `{!RPCTypeLaws known} `{!ScoreKeyNames known}.
Context `{FloatTextLaws} `{TimeText} {Rd : Type} `{Redis Rd} {keys : Rd -> keyspace} `{!RedisLaws Rd keys}.
Implicit Type r : RedisStorage Rd.

Lemma key_String_split k : key_String k = (key_ServiceID k +:+ ":" +:+ key_EndpointAddr k) +:+ String ":" (to_lower (rpc_String (key_RPCType k))).
Proof. unfold key_String. rewrite !str_app_assoc. reflexivity. Qed.

Lemma perceived_split r s : perceivedBlockKey r s = rs_keyPrefix r +:+ ("chain_state:" +:+ s) +:+ String ":" "perceived_block".
Proof. unfold perceivedBlockKey. by rewrite !str_app_assoc. Qed.

Lemma blocks_split r s : endpointBlocksKey r s = rs_keyPrefix r +:+ ("chain_state:" +:+ s) +:+ String ":" "endpoint_blocks".
Proof. unfold endpointBlocksKey. by rewrite !str_app_assoc. Qed.

Lemma buildKey_inj r k1 k2 : key_wf known k1 -> key_wf known k2 -> rs_buildKey r k1 = rs_buildKey r k2 -> k1 = k2.
Proof. intros Hk1 Hk2 E. apply app_inj_l in E. by apply (key_String_inj (known := known)). Qed.

Lemma buildKey_not_perceived r k s : key_wf known k -> rs_buildKey r k <> perceivedBlockKey r s.
Proof.
  intros [_ _ Hr] E. rewrite perceived_split in E. apply app_inj_l in E. rewrite key_String_split in E.
  apply last_colon_inj in E as [_ E]; [|by apply rpc_String_no_colon|done]. by apply rpc_not_chain_state in Hr as [? _].
Qed.

Lemma buildKey_not_blocks r k s : key_wf known k -> rs_buildKey r k <> endpointBlocksKey r s.
Proof.
  intros [_ _ Hr] E. rewrite blocks_split in E. apply app_inj_l in E. rewrite key_String_split in E.
  apply last_colon_inj in E as [_ E]; [|by apply rpc_String_no_colon|done]. by apply rpc_not_chain_state in Hr as [_ ?].
Qed.

Lemma not_drains r a x : contains_byte ":" x = false -> rs_keyPrefix r +:+ a +:+ String ":" x <> drainsHashKey r.
Proof.
  intros Hx E. unfold drainsHashKey in E. apply app_inj_l in E.
  assert (Hc : contains_byte ":" (a +:+ String ":" x) = true) by (rewrite contains_byte_app, contains_byte_cons; by rewrite orb_true_r).
  by rewrite E in Hc.
Qed.

Lemma buildKey_not_drains r k : key_wf known k -> rs_buildKey r k <> drainsHashKey r.
Proof. intros [_ _ Hr]. unfold rs_buildKey. rewrite key_String_split. apply not_drains. by apply rpc_String_no_colon. Qed.

Lemma blocks_not_perceived r s s' : endpointBlocksKey r s <> perceivedBlockKey r s'.
Proof. rewrite perceived_split, blocks_split. intros E. apply app_inj_l in E. by apply last_colon_inj in E as [_ ?]. Qed.

Lemma blocks_inj r s s' : endpointBlocksKey r s = endpointBlocksKey r s' -> s = s'.
Proof.
  rewrite !blocks_split. intros E. apply app_inj_l in E. apply last_colon_inj in E as [E _]; [|done..].
  by apply app_inj_l in E.
Qed.

Lemma blocks_not_drains r s : endpointBlocksKey r s <> drainsHashKey r.
Proof. rewrite blocks_split. by apply not_drains. Qed.

Lemma perceived_not_drains r s : perceivedBlockKey r s <> drainsHashKey r.
Proof. rewrite perceived_split. by apply not_drains. Qed.

(** A key is read back from its Redis key. *)
Lemma parseKey_buildKey r k : rs_keyPrefix r <> "" -> key_wf known k -> rs_parseKey r (rs_buildKey r k) = Some k.
Proof.
  intros Hp Hk. unfold rs_parseKey, rs_buildKey. rewrite has_prefix_app. apply String.eqb_neq in Hp. rewrite Hp. cbn.
  rewrite str_drop_app. by apply (parse_String (known := known)).
Qed.

(** ** Commands *)

Lemma commands_ok r cs ks :
  ref_pipeline (rd_clock (rs_client r)) (keys (rs_client r)) cs = (None, ks) ->
  exists c, run r cs = Ok (rs_with r c) /\ keys c = ks /\ rd_clock c = rd_clock (rs_client r).
Proof.
  intros E. unfold run. pose proof (rl_pipeline (rs_client r) cs) as L.
  destruct (rd_Pipeline (rs_client r) cs) as [e c]. destruct L as [L Hc]. rewrite E in L. injection L as -> Hk. by exists c.
Qed.

Lemma pipeline_cons now ks c cs : ref_pipeline now ks (c :: cs) =
  let '(e, ks) := ref_cmd now ks c in
  let '(e', ks) := ref_pipeline now ks cs in (match e with Some _ => e | None => e' end, ks).
Proof.
  unfold ref_pipeline. cbn [fold_left]. destruct (ref_cmd now ks c) as [e ks1].
  assert (G : forall err ks, fold_left (fun '(err, ks) c => let '(e, ks) := ref_cmd now ks c in
      (match err with Some _ => err | None => e end, ks)) cs (err, ks) =
    let '(e', ks') := fold_left (fun '(err, ks) c => let '(e, ks) := ref_cmd now ks c in
      (match err with Some _ => err | None => e end, ks)) cs (None, ks) in (match err with Some _ => err | None => e' end, ks')).
  { clear. induction cs as [|c cs IH]; intros err ks; cbn [fold_left]; [by destruct err|].
    destruct (ref_cmd now ks c) as [e ks1]. rewrite (IH (match err with Some _ => err | None => e end)), (IH e).
    destruct (fold_left _ cs (None, ks1)) as [e' ks']. by destruct err, e. }
  by rewrite G.
Qed.

(** ** The simulation *)

(** Which keys hold which type. *)
Record typed (r : RedisStorage Rd) (ks : keyspace) : Prop := {
  ty_perceived : forall s e, ks !! perceivedBlockKey r s = Some e ->
    exists n exp, 0 <= n <= max_uint64 /\ e = (RString (fmt_int n), exp);
  ty_drains : forall e, ks !! drainsHashKey r = Some e -> exists h exp, e = (RHash h, exp);
}.

(** Both storages hold the same scores, to the codec, and the same heights; neither expires. *)
Record sim (m : MemoryStorage) (r : RedisStorage Rd) (ks : keyspace) : Prop := {
  sim_open : ms_closed m = false;
  sim_mttl : ms_ttl m = 0;
  sim_rttl : rs_ttl r = 0;
  sim_typed : typed r ks;
  sim_score : forall k, key_wf known k -> match ms_scores m !! key_String k with
    | None => ks !! rs_buildKey r k = None
    | Some e => se_expiresAt e = time_zero /\ score_ok (se_score e) /\
        exists h, ks !! rs_buildKey r k = Some (RHash h, None) /\ score_fields (se_score e) ⊆ h
    end;
  sim_blocks : forall s, let b := default ∅ (ms_endpointBlocks m !! s) in
    map_Forall (fun _ h => 0 <= h <= max_uint64) b /\
    ks !! endpointBlocksKey r s = if bool_decide (b = ∅) then None else Some (RHash (fmt_int <$> b), None);
}.

Lemma put_hash_at ks k h exp : put_hash ks k h exp !! k = if bool_decide (h = ∅) then None else Some (RHash h, exp).
Proof. unfold put_hash. case_bool_decide; [apply lookup_delete_eq|apply lookup_insert_eq]. Qed.

Lemma put_hash_other ks k h exp k' : k <> k' -> put_hash ks k h exp !! k' = ks !! k'.
Proof. intros Hne. unfold put_hash. case_bool_decide; [by apply lookup_delete_ne|by apply lookup_insert_ne]. Qed.

(** Only [k] changes. *)
Definition only_at (ks ks' : keyspace) (k : string) : Prop := forall k', k <> k' -> ks' !! k' = ks !! k'.

Lemma put_hash_only ks k h exp : only_at ks (put_hash ks k h exp) k.
Proof. intros k' Hne. by apply put_hash_other. Qed.

Lemma sim_frame_score m r ks ks' k :
  sim m r ks -> key_wf known k -> only_at ks ks' (rs_buildKey r k) -> forall sc',
  (forall e, sc' = Some e -> se_expiresAt e = time_zero /\ score_ok (se_score e) /\
     exists h, ks' !! rs_buildKey r k = Some (RHash h, None) /\ score_fields (se_score e) ⊆ h) ->
  (sc' = None -> ks' !! rs_buildKey r k = None) ->
  sim (ms_with_scores m (match sc' with Some e => <[key_String k := e]> (ms_scores m) | None => delete (key_String k) (ms_scores m) end)) r ks'.
Proof.
  intros [Ho Hm Hr Ht Hs Hb] Hk Hat sc' Hsome Hnone. split; [exact Ho|exact Hm|exact Hr| | |].
  - destruct Ht as [Hp Hd]. split.
    + intros s e. rewrite Hat by (by apply buildKey_not_perceived). apply Hp.
    + intros e. rewrite Hat by (by apply buildKey_not_drains). apply Hd.
  - intros k' Hk'. cbn [ms_scores ms_with_scores]. destruct (decide (k = k')) as [<-|Hne].
    + destruct sc' as [e|]; [rewrite lookup_insert_eq; by apply Hsome|rewrite lookup_delete_eq; by apply Hnone].
    + assert (Hks : key_String k <> key_String k') by (intros E; apply Hne; by apply (key_String_inj (known := known))).
      assert (Hbk : rs_buildKey r k <> rs_buildKey r k') by (intros E; apply Hne; by apply (buildKey_inj r)).
      replace (match sc' with Some e => <[key_String k := e]> (ms_scores m) | None => delete (key_String k) (ms_scores m) end
        !! key_String k') with (ms_scores m !! key_String k')
        by (destruct sc'; [by rewrite lookup_insert_ne|by rewrite lookup_delete_ne]).
      specialize (Hs k' Hk'). destruct (ms_scores m !! key_String k') as [e|]; [|by rewrite (Hat _ Hbk)].
      destruct Hs as (He & Hok & h & Eh & Hsub). split; [exact He|]. split; [exact Hok|]. exists h. by rewrite (Hat _ Hbk).
  - intros s. cbn [ms_endpointBlocks ms_with_scores]. rewrite Hat by (by apply buildKey_not_blocks). apply Hb.
Qed.

Lemma sim_set now m r ks k sc :
  sim m r ks -> key_wf known k -> score_ok sc ->
  exists ks', ref_cmd now ks (HSET (rs_buildKey r k) (score_fields sc)) = (None, ks') /\
    sim (ms_with_scores m (<[key_String k := ms_entry m now sc]> (ms_scores m))) r ks'.
Proof.
  intros Hsim Hk Hsc.
  assert (Hh : exists h, (ks !! rs_buildKey r k = None /\ h = ∅ \/ ks !! rs_buildKey r k = Some (RHash h, None))).
  { pose proof (sim_score _ _ _ Hsim k Hk) as S. destruct (ms_scores m !! key_String k) as [e|]; [|by exists ∅; left].
    destruct S as (_ & _ & h & Eh & _). exists h. by right. }
  destruct Hh as [h Hh].
  assert (Hne : score_fields sc ∪ h <> ∅) by (intros E; eapply (score_fields_nonempty sc); [|exact E]; apply map_union_subseteq_l).
  exists (put_hash ks (rs_buildKey r k) (score_fields sc ∪ h) None). split.
  - cbn [ref_cmd]. destruct Hh as [[-> ->]| ->]; [by rewrite map_union_empty|done].
  - apply (sim_frame_score m r ks _ k Hsim Hk (put_hash_only _ _ _ _) (Some (ms_entry m now sc))); [|done].
    intros e [= <-]. unfold ms_entry. rewrite (sim_mttl _ _ _ Hsim). cbn. split; [done|]. split; [exact Hsc|].
    exists (score_fields sc ∪ h). rewrite put_hash_at, bool_decide_false by exact Hne. split; [done|apply map_union_subseteq_l].
Qed.

Lemma sim_delete m r ks k :
  sim m r ks -> key_wf known k -> sim (ms_with_scores m (delete (key_String k) (ms_scores m))) r (delete (rs_buildKey r k) ks).
Proof.
  intros Hsim Hk. apply (sim_frame_score m r ks _ k Hsim Hk (fun k' Hne => lookup_delete_ne _ _ _ Hne) None); [done|].
  intros _. apply lookup_delete_eq.
Qed.

Lemma sim_set_all now r l : forall m ks, sim m r ks ->
  Forall (fun p => key_wf known p.1 /\ score_ok p.2) l ->
  exists ks', ref_pipeline now ks (concat (map (fun '(k, sc) => set_commands r k sc) l)) = (None, ks') /\
    sim (ms_with_scores m (ms_insert_all m now l (ms_scores m))) r ks'.
Proof.
  induction l as [|[k sc] l IH]; intros m ks Hsim Hall.
  { exists ks. split; [done|]. by destruct m. }
  apply Forall_cons in Hall as [[Hk Hsc] Hall]. destruct (sim_set now m r ks k sc Hsim Hk Hsc) as (ks1 & E1 & Hsim1).
  destruct (IH _ _ Hsim1 Hall) as (ks2 & E2 & Hsim2). exists ks2.
  assert (Ec : set_commands r k sc = [HSET (rs_buildKey r k) (score_fields sc)]).
  { unfold set_commands. by rewrite (sim_rttl _ _ _ Hsim). }
  split; [|exact Hsim2]. cbn [map concat]. rewrite Ec. cbn [app]. by rewrite pipeline_cons, E1, E2.
Qed.

(** *** Heights *)

Lemma fold_delete (addrs : list string) : forall (b : gmap string Z),
  fold_left (fun b a => delete a b) addrs b = filter (fun p => p.1 ∉ addrs) b.
Proof.
  induction addrs as [|a addrs IH]; intros b; cbn [fold_left].
  { apply map_eq. intros i. rewrite map_lookup_filter. destruct (b !! i); cbn; [|done]. rewrite option_guard_True by (apply not_elem_of_nil). done. }
  rewrite IH. apply map_eq. intros i. rewrite !map_lookup_filter. destruct (decide (a = i)) as [->|Hne].
  - rewrite lookup_delete_eq. cbn. destruct (b !! i); cbn; [|done]. rewrite option_guard_False; [done|]. rewrite elem_of_cons. naive_solver.
  - rewrite lookup_delete_ne by done. destruct (b !! i); cbn; [|done].
    apply option_guard_iff. rewrite elem_of_cons. naive_solver.
Qed.

Lemma sim_frame_blocks m r ks s b' :
  sim m r ks -> map_Forall (fun _ h => 0 <= h <= max_uint64) b' ->
  sim (ms_with_blocks m (<[s := b']> (ms_endpointBlocks m))) r (put_hash ks (endpointBlocksKey r s) (fmt_int <$> b') None).
Proof.
  intros [Ho Hm Hr Ht Hs Hb] Hb'. split; [exact Ho|exact Hm|exact Hr| | |].
  - destruct Ht as [Hp Hd]. split.
    + intros s0 e. rewrite put_hash_other by apply blocks_not_perceived. apply Hp.
    + intros e. rewrite put_hash_other by apply blocks_not_drains. apply Hd.
  - intros k Hk. specialize (Hs k Hk). cbn [ms_scores ms_with_blocks].
    assert (E : put_hash ks (endpointBlocksKey r s) (fmt_int <$> b') None !! rs_buildKey r k = ks !! rs_buildKey r k)
      by (apply put_hash_other; intros E; by apply (buildKey_not_blocks r k s Hk)).
    destruct (ms_scores m !! key_String k) as [e|]; rewrite E; exact Hs.
  - intros s0. cbn [ms_endpointBlocks ms_with_blocks]. destruct (decide (s = s0)) as [<-|Hne].
    + rewrite lookup_insert_eq. cbn. split; [exact Hb'|]. rewrite put_hash_at.
      by rewrite (bool_decide_ext (fmt_int <$> b' = ∅) (b' = ∅)) by apply fmap_empty_iff.
    + rewrite lookup_insert_ne by done. rewrite put_hash_other by (intros E; by apply blocks_inj in E). apply Hb.
Qed.

Lemma fmap_empty_decide (b : gmap string Z) : bool_decide (fmt_int <$> b = ∅) = bool_decide (b = ∅).
Proof. apply bool_decide_ext, fmap_empty_iff. Qed.

Lemma sim_height now m r ks s a h :
  sim m r ks -> 0 <= h <= max_uint64 ->
  exists ks', ref_cmd now ks (HSET (endpointBlocksKey r s) {[a := fmt_int h]}) = (None, ks') /\
    sim (ms_with_blocks m (<[s := <[a := h]> (default ∅ (ms_endpointBlocks m !! s))]> (ms_endpointBlocks m))) r ks'.
Proof.
  intros Hsim Hh. destruct (sim_blocks _ _ _ Hsim s) as [Hall E]. set (b := default ∅ (ms_endpointBlocks m !! s)) in *.
  exists (put_hash ks (endpointBlocksKey r s) (fmt_int <$> <[a := h]> b) None). split.
  - cbn [ref_cmd]. rewrite E, fmap_insert, insert_union_singleton_l. case_bool_decide as Hb; [|done].
    by rewrite Hb, fmap_empty, map_union_empty.
  - apply sim_frame_blocks; [exact Hsim|]. by apply map_Forall_insert_2.
Qed.

Lemma sim_remove now m r ks s addrs :
  sim m r ks ->
  exists m' ks', ms_RemoveEndpointBlockHeights m s addrs = Ok m' /\
    ref_cmd now ks (HDEL (endpointBlocksKey r s) addrs) = (None, ks') /\ sim m' r ks'.
Proof.
  intros Hsim. destruct (sim_blocks _ _ _ Hsim s) as [Hall E].
  unfold ms_RemoveEndpointBlockHeights, guard_open. rewrite (sim_open _ _ _ Hsim). cbn [ref_cmd]. rewrite E.
  destruct (ms_endpointBlocks m !! s) as [b|] eqn:Eb; cbn [from_option] in *; [|by eexists _, _].
  change (id b) with b in *. rewrite fold_delete.
  assert (Hf : map_Forall (fun _ h => 0 <= h <= max_uint64) (filter (fun p : string * Z => p.1 ∉ addrs) b)).
  { intros i x Hi. apply map_lookup_filter_Some in Hi as [Hi _]. exact (Hall i x Hi). }
  pose proof (sim_frame_blocks m r ks s _ Hsim Hf) as Hsim'.
  case_bool_decide as Hb; eexists _, _; (split; [done|]).
  - split; [done|]. subst b. rewrite map_filter_empty in *. rewrite fmap_empty in Hsim'.
    unfold put_hash in Hsim'. rewrite bool_decide_true in Hsim' by done.
    rewrite delete_id in Hsim' by done. exact Hsim'.
  - split; [|exact Hsim']. f_equal. f_equal. by rewrite map_filter_fmap.
Qed.

(** *** The other keys *)

Lemma sim_frame_other m m' r ks ks' k0 :
  sim m r ks -> (exists s, k0 = perceivedBlockKey r s) \/ k0 = drainsHashKey r ->
  only_at ks ks' k0 -> typed r ks' ->
  ms_scores m' = ms_scores m -> ms_endpointBlocks m' = ms_endpointBlocks m -> ms_closed m' = ms_closed m -> ms_ttl m' = ms_ttl m ->
  sim m' r ks'.
Proof.
  intros [Ho Hm Hr Ht Hs Hb] Hk0 Hat Ht' E1 E2 E3 E4. split; [by rewrite E3|by rewrite E4|exact Hr|exact Ht'| |].
  - intros k Hk. specialize (Hs k Hk). rewrite E1.
    assert (E : ks' !! rs_buildKey r k = ks !! rs_buildKey r k).
    { apply Hat. destruct Hk0 as [[s ->]| ->]; intros E; symmetry in E; revert E;
        [by apply buildKey_not_perceived|by apply buildKey_not_drains]. }
    destruct (ms_scores m !! key_String k); rewrite E; exact Hs.
  - intros s. rewrite E2. rewrite Hat; [apply Hb|].
    destruct Hk0 as [[s' ->]| ->]; intros E; symmetry in E; revert E; [apply blocks_not_perceived|apply blocks_not_drains].
Qed.

Lemma parse_fmt_nonneg n : 0 <= n -> parse_nonempty_digits (fmt_int n) = Some n.
Proof.
  intros Hn. unfold fmt_int. rewrite (proj2 (Z.ltb_ge _ _) Hn).
  destruct (fmt_digits_head _ n (log2_fuel n Hn) ltac:(discriminate)) as (d & s & Es & _).
  pose proof (parse_fmt_digits _ n (log2_fuel n Hn)) as Hp. rewrite Es in *. exact Hp.
Qed.

Lemma parse_uint_fmt n : 0 <= n <= max_uint64 -> parse_uint (fmt_int n) = Some n.
Proof. intros Hn. unfold parse_uint. rewrite parse_fmt_nonneg by lia. by rewrite (proj2 (Z.leb_le _ _)) by lia. Qed.

Lemma typed_at r ks ks' k0 :
  typed r ks -> only_at ks ks' k0 ->
  (forall s e, k0 = perceivedBlockKey r s -> ks' !! k0 = Some e -> exists n exp, 0 <= n <= max_uint64 /\ e = (RString (fmt_int n), exp)) ->
  (forall e, k0 = drainsHashKey r -> ks' !! k0 = Some e -> exists h exp, e = (RHash h, exp)) ->
  typed r ks'.
Proof.
  intros [Hp Hd] Hat Hp' Hd'. split.
  - intros s e. destruct (decide (k0 = perceivedBlockKey r s)) as [->|Hne]; [by eapply Hp'|]. rewrite Hat by done. apply Hp.
  - intros e. destruct (decide (k0 = drainsHashKey r)) as [->|Hne]; [by apply Hd'|]. rewrite Hat by done. apply Hd.
Qed.

(** The script keeps the larger of two stored numerals, as doubles. *)
Lemma script_spec r ks now s n :
  typed r ks -> 0 <= n <= max_uint64 ->
  let raised := match ks !! perceivedBlockKey r s with
                | Some (RString old, _) => match parse_nonempty_digits old with
                                           | Some o => fltb (f64_of_Z o) (f64_of_Z n) | None => false end
                | _ => true
                end in
  set_if_higher (perceivedBlockKey r s) (fmt_int n) (perceivedBlockTTL / second) now ks =
  if raised then (Ok 1, <[perceivedBlockKey r s := (RString (fmt_int n), Some (time_add now perceivedBlockTTL))]> ks) else (Ok 0, ks).
Proof.
  intros Ht Hn. unfold set_if_higher, ref_Get. replace (perceivedBlockTTL / second * second) with perceivedBlockTTL by reflexivity.
  destruct (ks !! perceivedBlockKey r s) as [e|] eqn:E; [|done].
  destruct (ty_perceived _ _ Ht s e E) as (o & exp & Ho & ->). cbn. unfold lua_tonumber. by rewrite !parse_fmt_nonneg by lia.
Qed.

(** ** Operations and the passage of time *)

Inductive store_op :=
| OpSet (now : Time) (k : EndpointKey) (sc : Score)
| OpSetMultiple (now : Time) (scores : gmap EndpointKey Score)
| OpDelete (k : EndpointKey)
| OpHeight (s a : string) (h : Z)
| OpRemoveHeights (s : string) (addrs : list string)
| OpPerceived (s : string) (n : Z)
| OpResetPerceived (s : string)
| OpDrain (k : DrainKey) (until : Time)
| OpUndrain (k : DrainKey)
| OpListDrains (now : Time).

Definition apply_op {St} {Ops : Storage St} (st : St) (op : store_op) : result storage_error St :=
  match op with
  | OpSet now k sc => st_Set st now k sc
  | OpSetMultiple now scores => st_SetMultiple st now scores
  | OpDelete k => st_Delete st k
  | OpHeight s a h => st_SetEndpointBlockHeight st s a h
  | OpRemoveHeights s addrs => st_RemoveEndpointBlockHeights st s addrs
  | OpPerceived s n => st_SetPerceivedBlockNumber st s n
  | OpResetPerceived s => st_DeletePerceivedBlockNumber st s
  | OpDrain k until => st_SetDrain st k until
  | OpUndrain k => st_DeleteDrain st k
  | OpListDrains now => let! x := st_ListDrains st now in Ok (snd x)
  end.

Fixpoint apply_ops {St} {Ops : Storage St} (st : St) (ops : list store_op) : result storage_error St :=
  match ops with
  | [] => Ok st
  | op :: ops => let! st' := apply_op st op in apply_ops st' ops
  end.

Definition op_ok (op : store_op) : Prop :=
  match op with
  | OpSet _ k sc => key_wf known k /\ score_ok sc
  | OpSetMultiple _ scores => map_Forall (fun k sc => key_wf known k /\ score_ok sc) scores
  | OpDelete k => key_wf known k
  | OpHeight _ _ h => 0 <= h <= max_uint64
  | OpPerceived _ n => 0 <= n <= max_uint64
  | _ => True
  end.

(** One command on the drains hash always succeeds and touches nothing else. *)
Lemma drains_cmd now r ks c :
  typed r ks -> (exists f, c = HSET (drainsHashKey r) f) \/ (exists f, c = HDEL (drainsHashKey r) f) \/ (exists t, c = EXPIREGT (drainsHashKey r) t) ->
  exists ks', ref_cmd now ks c = (None, ks') /\ only_at ks ks' (drainsHashKey r) /\ typed r ks'.
Proof.
  intros Ht Hc.
  assert (Hput : forall h exp, only_at ks (put_hash ks (drainsHashKey r) h exp) (drainsHashKey r) /\
                               typed r (put_hash ks (drainsHashKey r) h exp)).
  { intros h exp. split; [apply put_hash_only|]. eapply typed_at; [exact Ht|apply put_hash_only| |].
    - intros s e E. symmetry in E. by apply perceived_not_drains in E.
    - intros e _. rewrite put_hash_at. case_bool_decide; [done|]. intros [= <-]. eauto. }
  assert (Hsame : only_at ks ks (drainsHashKey r) /\ typed r ks) by (split; [by intros k' _|exact Ht]).
  destruct (ks !! drainsHashKey r) as [e|] eqn:E.
  - destruct (ty_drains _ _ Ht e E) as (h & exp & ->).
    destruct Hc as [[f ->]|[[f ->]|[t ->]]]; unfold ref_cmd; rewrite E; [by eexists|by eexists|].
    destruct exp as [t0|]; [|by eexists]. case_if; [|by eexists]. eexists. split; [done|].
    assert (Hat : only_at ks (put_expiry ks now (drainsHashKey r) (RHash h) (expire_at now t)) (drainsHashKey r)).
    { intros k' Hne. unfold put_expiry. case_if; [by apply lookup_delete_ne|by apply lookup_insert_ne]. }
    split; [exact Hat|]. eapply typed_at; [exact Ht|exact Hat| |].
    + intros s e0 E0. symmetry in E0. by apply perceived_not_drains in E0.
    + intros e0 _. unfold put_expiry. case_if; [by rewrite lookup_delete_eq|rewrite lookup_insert_eq]. intros [= <-]. eauto.
  - destruct Hc as [[f ->]|[[f ->]|[t ->]]]; unfold ref_cmd; rewrite E; by eexists.
Qed.

(** The relation on the states of both storages. *)
Definition related (m : MemoryStorage) (r : RedisStorage Rd) : Prop := sim m r (keys (rs_client r)).

Lemma related_with m r c : sim m r (keys c) -> related m (rs_with r c).
Proof. intros [Ho Hm Hr [Hp Hd] Hs Hb]. by split. Qed.

Lemma related_run m' r c ks' :
  ref_cmd (rd_clock (rs_client r)) (keys (rs_client r)) c = (None, ks') -> sim m' r ks' ->
  exists r', run r [c] = Ok r' /\ related m' r'.
Proof.
  intros E Hsim. destruct (commands_ok r [c] ks') as (c' & Hrun & Hk & _); [by rewrite pipeline_cons, E|].
  exists (rs_with r c'). split; [exact Hrun|]. apply related_with. by rewrite Hk.
Qed.

(** A command on the drains hash keeps the relation, whatever memory does to its drains. *)
Lemma related_drains m r c d :
  related m r -> (exists f, c = HSET (drainsHashKey r) f) \/ (exists f, c = HDEL (drainsHashKey r) f) \/ (exists t, c = EXPIREGT (drainsHashKey r) t) ->
  exists c', rd_Pipeline (rs_client r) [c] = (None, c') /\ related (ms_with_drains m d) (rs_with r c').
Proof.
  intros Hrel Hc. destruct (drains_cmd (rd_clock (rs_client r)) r (keys (rs_client r)) c (sim_typed _ _ _ Hrel) Hc) as (ks' & E & Hat & Ht).
  pose proof (rl_pipeline (rs_client r) [c]) as L. destruct (rd_Pipeline (rs_client r) [c]) as [e c']. destruct L as [L _].
  rewrite pipeline_cons, E in L. injection L as -> Hk. exists c'. split; [done|]. apply related_with. rewrite Hk.
  eapply sim_frame_other; [exact Hrel|by right|exact Hat|exact Ht|done..].
Qed.

Lemma drains_related m r d : related m r -> related (ms_with_drains m d) r.
Proof. intros [Ho Hm Hr Ht Hs Hb]. by split. Qed.

Lemma step_scores pages m r op :
  related m r -> op_ok op -> match op with OpSet _ _ _ | OpSetMultiple _ _ | OpDelete _ => True | _ => False end ->
  exists m' r', apply_op m op = Ok m' /\ apply_op (Ops := RedisStorage_Storage pages) r op = Ok r' /\ related m' r'.
Proof.
  intros Hrel Hok Hop. pose proof (sim_open _ _ _ Hrel) as Ho. destruct op as [now k sc|now scores|k| | | | | | |]; try done; cbn [apply_op st_Set st_SetMultiple st_Delete].
  - destruct Hok as [Hk Hsc]. destruct (sim_set (rd_clock (rs_client r)) m r _ k sc Hrel Hk Hsc) as (ks' & E & Hsim).
    destruct (related_run _ _ _ _ E Hsim) as (r' & Hrun & Hrel').
    unfold apply_op, st_Set, MemoryStorage_Storage, RedisStorage_Storage, ms_Set, guard_open, rs_Set, set_commands. rewrite Ho, (sim_rttl _ _ _ Hrel).
    eexists _, _. split; [done|]. split; [exact Hrun|]. revert Hrel'. unfold ms_entry. by rewrite (sim_mttl _ _ _ Hrel).
  - unfold apply_op, st_SetMultiple, MemoryStorage_Storage, RedisStorage_Storage, ms_SetMultiple, guard_open, rs_SetMultiple. rewrite Ho.
    case_bool_decide as Hempty.
    { eexists _, _. split; [done|]. split; [done|]. subst. rewrite map_to_list_empty. by destruct m. }
    destruct (sim_set_all (rd_clock (rs_client r)) r (map_to_list scores) m _ Hrel) as (ks' & E & Hsim).
    { apply Forall_forall. intros [k sc] Hin%elem_of_map_to_list. exact (Hok k sc Hin). }
    destruct (commands_ok r _ ks' E) as (c' & Hrun & Hk & _). eexists _, _. split; [done|]. split; [exact Hrun|].
    apply related_with. rewrite Hk. revert Hsim. unfold ms_insert_all, ms_entry. by rewrite (sim_mttl _ _ _ Hrel).
  - unfold apply_op, st_Delete, MemoryStorage_Storage, RedisStorage_Storage, ms_Delete, guard_open, rs_Delete. rewrite Ho.
    destruct (related_run (ms_with_scores m (delete (key_String k) (ms_scores m))) r (DEL (rs_buildKey r k)) _ eq_refl) as (r' & Hrun & Hrel').
    { by apply sim_delete. }
    by eexists _, _.
Qed.

Lemma step_chain_state pages m r op :
  related m r -> op_ok op -> match op with OpHeight _ _ _ | OpRemoveHeights _ _ | OpPerceived _ _ | OpResetPerceived _ => True | _ => False end ->
  exists m' r', apply_op m op = Ok m' /\ apply_op (Ops := RedisStorage_Storage pages) r op = Ok r' /\ related m' r'.
Proof.
  intros Hrel Hok Hop. pose proof (sim_open _ _ _ Hrel) as Ho. destruct op as [| | |s a h|s addrs|s n|s| | |]; try done.
  - destruct (sim_height (rd_clock (rs_client r)) m r _ s a h Hrel Hok) as (ks' & E & Hsim).
    destruct (related_run _ _ _ _ E Hsim) as (r' & Hrun & Hrel').
    cbn. unfold ms_SetEndpointBlockHeight, guard_open. rewrite Ho. by eexists _, _.
  - destruct (sim_remove (rd_clock (rs_client r)) m r _ s addrs Hrel) as (m' & ks' & Em & E & Hsim).
    destruct addrs as [|a addrs].
    + exists m, r. split; [|done]. revert Em. cbn. unfold ms_RemoveEndpointBlockHeights, guard_open. rewrite Ho. intros _.
      destruct (ms_endpointBlocks m !! s) as [b|] eqn:Eb; [|done]. cbn. rewrite insert_id by done. by destruct m.
    + destruct (related_run _ _ _ _ E Hsim) as (r' & Hrun & Hrel'). by exists m', r'.
  - cbn. unfold rs_SetPerceivedBlockNumber. pose proof (rl_eval (rs_client r)
      (set_if_higher (perceivedBlockKey r s) (fmt_int n) (perceivedBlockTTL / second))) as L.
    destruct (rd_Eval (rs_client r) _) as [x c]. destruct L as [L _]. rewrite script_spec in L by (done || apply (sim_typed _ _ _ Hrel)).
    assert (Hm : exists m', ms_SetPerceivedBlockNumber m s n = Ok m' /\ ms_scores m' = ms_scores m /\
      ms_endpointBlocks m' = ms_endpointBlocks m /\ ms_closed m' = ms_closed m /\ ms_ttl m' = ms_ttl m).
    { unfold ms_SetPerceivedBlockNumber, guard_open. rewrite Ho. case_if; by eexists. }
    destruct Hm as (m' & Em & E1 & E2 & E3 & E4). rewrite Em.
    assert (Hx : exists z, x = Ok z /\ (keys c = keys (rs_client r) \/
        keys c = <[perceivedBlockKey r s := (RString (fmt_int n), Some (time_add (rd_clock (rs_client r)) perceivedBlockTTL))]> (keys (rs_client r)))).
    { revert L. case_if; intros [= -> Hk]; eexists; (split; [done|]); [by right|by left]. }
    destruct Hx as (z & -> & Hk). eexists _, _. split; [done|]. split; [done|]. apply related_with.
    eapply sim_frame_other; [exact Hrel|left; by exists s| |..|exact E1|exact E2|exact E3|exact E4].
    + intros k' Hne. destruct Hk as [-> | ->]; [done|by rewrite lookup_insert_ne].
    + destruct Hk as [-> | ->]; [apply (sim_typed _ _ _ Hrel)|].
      eapply (typed_at r _ _ (perceivedBlockKey r s)); [apply (sim_typed _ _ _ Hrel)|intros k' Hne; by rewrite lookup_insert_ne| |].
      * intros s0 e _. rewrite lookup_insert_eq. intros [= <-]. eauto.
      * intros e E. by apply perceived_not_drains in E.
  - cbn. unfold ms_DeletePerceivedBlockNumber, guard_open, rs_DeletePerceivedBlockNumber. rewrite Ho.
    destruct (related_run (ms_with_perceived m (delete s (ms_perceivedBlocks m))) r (DEL (perceivedBlockKey r s)) _ eq_refl) as (r' & Hrun & Hrel').
    { eapply sim_frame_other; [exact Hrel|left; by exists s|intros k' Hne; by rewrite lookup_delete_ne| |done..].
      eapply (typed_at r _ _ (perceivedBlockKey r s)); [apply (sim_typed _ _ _ Hrel)|intros k' Hne; by rewrite lookup_delete_ne| |];
        intros *; by rewrite lookup_delete_eq. }
    by eexists _, _.
Qed.

Lemma step_drains pages m r op :
  related m r -> match op with OpDrain _ _ | OpUndrain _ | OpListDrains _ => True | _ => False end ->
  exists m' r', apply_op m op = Ok m' /\ apply_op (Ops := RedisStorage_Storage pages) r op = Ok r' /\ related m' r'.
Proof.
  intros Hrel Hop. pose proof (sim_open _ _ _ Hrel) as Ho. destruct op as [| | | | | | |k until|k|now]; try done; cbn.
  - unfold ms_SetDrain, guard_open, rs_SetDrain, run. rewrite Ho.
    destruct (related_drains m r (HSET (drainsHashKey r) {[drainField k := format_rfc3339 until]}) (<[k := until]> (ms_drains m)) Hrel)
      as (c & E & Hrel1); [by left; eexists|]. rewrite E. cbv beta iota.
    eexists. case_if; [|by eexists]. set (ttl := wrap64 _).
    destruct (related_drains _ _ (EXPIREGT (drainsHashKey r) ttl) (<[k := until]> (ms_drains m)) Hrel1) as (c' & E' & Hrel2);
      [by right; right; eexists|].
    eexists. split; [done|]. split; [done|]. cbn in E'. cbn [rs_client rs_with]. rewrite E'. exact Hrel2.
  - unfold ms_DeleteDrain, guard_open, rs_DeleteDrain, run. rewrite Ho.
    destruct (related_drains m r (HDEL (drainsHashKey r) [drainField k]) (delete k (ms_drains m)) Hrel)
      as (c & E & Hrel1); [by right; left; eexists|]. rewrite E. by eexists _, _.
  - unfold ms_ListDrains, guard_open, rs_ListDrains. rewrite Ho, rl_hgetall.
    assert (Hraw : exists raw, ref_HGetAll (keys (rs_client r)) (drainsHashKey r) = Ok raw).
    { unfold ref_HGetAll. destruct (keys (rs_client r) !! drainsHashKey r) as [e|] eqn:E; [|by eexists].
      destruct (ty_drains _ _ (sim_typed _ _ _ Hrel) e E) as (h & exp & ->). by eexists. }
    destruct Hraw as [raw ->]. cbn [wrap]. eexists.
    destruct (map fst _) as [|f fs]; [eexists; split; [done|]; split; [done|]; by apply drains_related|].
    destruct (related_drains m r (HDEL (drainsHashKey r) (f :: fs)) (live_drains now (ms_drains m)) Hrel)
      as (c & E & Hrel1); [by right; left; eexists|]. rewrite E. eexists. split; [done|]. by split.
Qed.

Lemma step_related pages m r op :
  related m r -> op_ok op ->
  exists m' r', apply_op m op = Ok m' /\ apply_op (Ops := RedisStorage_Storage pages) r op = Ok r' /\ related m' r'.
Proof.
  intros Hrel Hok. destruct op; try (by apply step_scores); try (by apply step_chain_state); by apply step_drains.
Qed.

Lemma run_related pages ops : forall m r, related m r -> Forall op_ok ops ->
  exists m' r', apply_ops m ops = Ok m' /\ apply_ops (Ops := RedisStorage_Storage pages) r ops = Ok r' /\ related m' r'.
Proof.
  induction ops as [|op ops IH]; intros m r Hrel Hall; [by exists m, r|].
  apply Forall_cons in Hall as [Hop Hall]. destruct (step_related pages m r op Hrel Hop) as (m1 & r1 & E1 & E2 & Hrel1).
  destruct (IH m1 r1 Hrel1 Hall) as (m2 & r2 & E3 & E4 & Hrel2). exists m2, r2. cbn. by rewrite E1, E2.
Qed.

Lemma related_empty client prefix : keys client = ∅ -> related (NewMemoryStorage 0) (mkRedisStorage client prefix 0).
Proof.
  intros E. unfold related. cbn. rewrite E. split; done.
Qed.

Lemma related_get m r now k : related m r -> key_wf known k ->
  rs_Get r k = match ms_Get m now k with Ok sc => Ok (redis_view sc) | Err e => Err e end.
Proof.
  intros Hrel Hk. unfold rs_Get, ms_Get, guard_open. rewrite (sim_open _ _ _ Hrel), rl_hgetall. unfold ref_HGetAll.
  pose proof (sim_score _ _ _ Hrel k Hk) as S. destruct (ms_scores m !! key_String k) as [e|].
  - destruct S as (Hexp & Hok & h & -> & Hsub). cbn [wrap]. rewrite bool_decide_false by (by eapply score_fields_nonempty).
    unfold isExpired. rewrite Hexp. cbn. by apply parse_score_fields.
  - by rewrite S.
Qed.

Lemma related_heights m r s : related m r -> rs_GetEndpointBlockHeights r s = ms_GetEndpointBlockHeights m s.
Proof.
  intros Hrel. unfold rs_GetEndpointBlockHeights, ms_GetEndpointBlockHeights, guard_open.
  rewrite (sim_open _ _ _ Hrel), rl_hgetall. unfold ref_HGetAll. destruct (sim_blocks _ _ _ Hrel s) as [Hall ->].
  set (b := default ∅ (ms_endpointBlocks m !! s)) in *. case_bool_decide as Hb; cbn [wrap]; [by rewrite Hb, omap_empty|].
  f_equal. apply map_eq. intros a. rewrite lookup_omap, lookup_fmap. destruct (b !! a) as [h|] eqn:Eh; [|done].
  cbn. by rewrite parse_uint_fmt by (exact (Hall a h Eh)).
Qed.

(** C27: over a reachable server, the Redis storage refines the in-memory one.  From empty
    storages without time to live, any sequence of operations succeeds on both, and afterwards
    every score reads the same in both but for fractions of a second and latency metrics, and
    every service has the same block heights. *)
Theorem redis_refines_memory pages client prefix ops :
  keys client = ∅ -> Forall op_ok ops ->
  exists m r, apply_ops (NewMemoryStorage 0) ops = Ok m /\
    apply_ops (Ops := RedisStorage_Storage pages) (mkRedisStorage client prefix 0) ops = Ok r /\
    (forall now k, key_wf known k ->
       rs_Get r k = match ms_Get m now k with Ok sc => Ok (redis_view sc) | Err e => Err e end) /\
    (forall s, rs_GetEndpointBlockHeights r s = ms_GetEndpointBlockHeights m s).
Proof.
  intros Hempty Hok. destruct (run_related pages ops _ _ (related_empty client prefix Hempty) Hok) as (m & r & E1 & E2 & Hrel).
  exists m, r. split; [exact E1|]. split; [exact E2|]. split; intros *; [by apply related_get|by apply related_heights].
Qed.
End Props.
