(* ===== verification/RedisLimits.v ===== *)
(** * Chain state, listing and drains in Redis

    What the Redis storage promises beyond the in-memory one: a perceived height is a maximum,
    and a poisoned one is gone an hour after the write that set it; a drain is listed until it
    ends.  And two departures: listing the scores also returns keys made of the chain-state
    entries, and the expiry meant to bound the drains hash is never set. *)

From S2P Require Import Prelude GoStrings Utf8 Float64 Rounding Signals Score RepKey RepConfig RepStorage Redis RedisStorage RedisStorageProps.
From Stdlib Require Import ZArith Lia Bool Ascii String.
From stdpp Require Import base gmap strings fin_maps list.

Open Scope string_scope.
Open Scope Z_scope.
Open Scope go_scope.

(** ** The drain field *)

Lemma split_byte_none c s : contains_byte c s = false -> split_byte c s = [s].
Proof.
  induction s as [|a s IH]; [done|]. rewrite contains_byte_cons. intros [Ha Hs]%orb_false_iff.
  cbn [split_byte]. rewrite Ha. by rewrite IH.
Qed.

Lemma split_byte_app c a b : contains_byte c a = false -> split_byte c (a +:+ String c b) = a :: split_byte c b.
Proof.
  induction a as [|x a IH]; [intros _; change ("" +:+ String c b) with (String c b); cbn [split_byte]; by rewrite Ascii.eqb_refl|].
  rewrite contains_byte_cons. intros [Hx Ha]%orb_false_iff. change (String x a +:+ String c b) with (String x (a +:+ String c b)).
  cbn [split_byte]. rewrite Hx. by rewrite IH.
Qed.

Lemma split_byte_join c s : String.concat (String c "") (split_byte c s) = s.
Proof.
  induction s as [|a s IH]; [done|]. cbn [split_byte]. destruct (Ascii.eqb_spec a c) as [->|Hne].
  - destruct (split_byte c s) as [|p ps] eqn:E; [|by rewrite <- IH].
    exfalso. destruct s; cbn in E; [done|]. destruct (Ascii.eqb _ _), (split_byte c s); done.
  - destruct (split_byte c s) as [|p ps] eqn:E; [by rewrite <- IH|]. rewrite <- IH. by destruct ps.
Qed.

Record drain_key_ok (k : DrainKey) : Prop := {
  dko_service : dk_ServiceID k <> "" /\ contains_byte "|" (dk_ServiceID k) = false;
  dko_domain : dk_Domain k <> "" /\ contains_byte "|" (dk_Domain k) = false;
  dko_rpc : contains_byte "|" (dk_RPCType k) = false;
}.

Lemma parse_drainField k : drain_key_ok k -> parseDrainField (drainField k) = Some k.
Proof.
  intros [[Hs1 Hs2] [Hd1 Hd2] Ht]. unfold parseDrainField, drainField.
  change (dk_ServiceID k +:+ "|" +:+ dk_Domain k +:+ "|" +:+ dk_RPCType k)
    with (dk_ServiceID k +:+ String "|" (dk_Domain k +:+ String "|" (dk_RPCType k))).
  rewrite split_byte_app by done. rewrite split_byte_app by done. rewrite split_byte_none by done.
  apply String.eqb_neq in Hs1, Hd1. rewrite Hs1, Hd1. by destruct k.
Qed.

Lemma parseDrainField_inv f k : parseDrainField f = Some k -> f = drainField k.
Proof.
  unfold parseDrainField. intros E. pose proof (split_byte_join "|" f) as J.
  destruct (split_byte "|" f) as [|s [|d [|t [|? ?]]]]; try done. destruct (_ || _); [done|]. injection E as <-. by rewrite <- J.
Qed.

Section Limits.
Context `{RPCTypeEnum} `{FloatText} `{TimeText} {Rd : Type} `{Redis Rd} {keys : Rd -> keyspace} `{!RedisLaws Rd keys}.
Implicit Type r : RedisStorage Rd.

(** ** The perceived height *)

(** What the entry of a service says: value and expiry, or nothing. *)
Definition perceived_entry r (s : string) (v : option (Z * option Time)) : Prop :=
  keys (rs_client r) !! perceivedBlockKey r s = (fun '(n, exp) => (RString (fmt_int n), exp)) <$> v /\
  match v with Some (n, _) => 0 <= n < 2 ^ 53 | None => True end.

Lemma perceived_read r s v : perceived_entry r s v -> rs_GetPerceivedBlockNumber r s = Ok (match v with Some (n, _) => n | None => 0 end).
Proof.
  intros [E Hn]. unfold rs_GetPerceivedBlockNumber. rewrite rl_get. unfold ref_Get. rewrite E. destruct v as [[n exp]|]; [|done].
  cbn. rewrite parse_uint_fmt; [done|]. unfold max_uint64. lia.
Qed.

(** Whether a write of [n] takes effect, and the entry it leaves. *)
Definition after_write (now : Time) (v : option (Z * option Time)) (n : Z) : Z * option Time :=
  match v with
  | Some (old, exp) => if old <? n then (n, Some (time_add now perceivedBlockTTL)) else (old, exp)
  | None => (n, Some (time_add now perceivedBlockTTL))
  end.

Lemma perceived_write r s v n :
  perceived_entry r s v -> 0 <= n < 2 ^ 53 ->
  exists r', rs_SetPerceivedBlockNumber r s n = Ok r' /\
    perceived_entry r' s (Some (after_write (rd_clock (rs_client r)) v n)) /\ rd_clock (rs_client r') = rd_clock (rs_client r).
Proof.
  intros [E Hv] Hn. unfold rs_SetPerceivedBlockNumber.
  pose proof (rl_eval (rs_client r) (set_if_higher (perceivedBlockKey r s) (fmt_int n) (perceivedBlockTTL / second))) as L.
  destruct (rd_Eval (rs_client r) _) as [x c]. destruct L as [L Hc].
  unfold set_if_higher, ref_Get in L. rewrite E in L. replace (perceivedBlockTTL / second * second) with perceivedBlockTTL in L by reflexivity.
  unfold perceived_entry. destruct v as [[old exp]|]; cbn in L |- *.
  - unfold lua_tonumber in L. rewrite !parse_fmt_nonneg in L by lia. cbn in L. rewrite fltb_of_Z in L by lia.
    destruct (old <? n); injection L as -> Hk; eexists; (split; [done|]);
      change (perceivedBlockKey (rs_with r c) s) with (perceivedBlockKey r s); cbn [rs_client rs_with]; rewrite Hk.
    + by rewrite lookup_insert_eq.
    + by rewrite E.
  - injection L as -> Hk. eexists. split; [done|]. cbn. rewrite Hk, lookup_insert_eq. done.
Qed.

Definition rs_advance r (t : Time) : RedisStorage Rd := rs_with r (rd_advance (rs_client r) (Z.max (rd_clock (rs_client r)) t)).

Lemma perceived_advance r s v t :
  perceived_entry r s v ->
  perceived_entry (rs_advance r t) s
    (match v with Some (n, Some exp) => if Z.max (rd_clock (rs_client r)) t <? exp then v else None | _ => v end) /\
  rd_clock (rs_client (rs_advance r t)) = Z.max (rd_clock (rs_client r)) t.
Proof.
  intros [E Hv]. destruct (rl_advance (rs_client r) (Z.max (rd_clock (rs_client r)) t) (Z.le_max_l _ _)) as [Hk Hc].
  split; [|exact Hc]. unfold perceived_entry, rs_advance. cbn [rs_client rs_with]. rewrite Hk.
  change (perceivedBlockKey (rs_with r _) s) with (perceivedBlockKey r s). rewrite map_lookup_filter, E.
  destruct v as [[n [exp|]]|]; cbn; [|done..]. unfold entry_live. cbn.
  destruct (Z.ltb_spec (Z.max (rd_clock (rs_client r)) t) exp); cbn; [by rewrite option_guard_True|by rewrite option_guard_False].
Qed.

(** The perceived block number of a service is a maximum whose time to live only a raise
    renews: a write leaves the larger of the old and the new number; the entry then expires an
    hour from now if the number rose, and when it would have anyway otherwise. *)
Theorem perceived_max_wins r s v n :
  perceived_entry r s v -> 0 <= n < 2 ^ 53 ->
  exists r', rs_SetPerceivedBlockNumber r s n = Ok r' /\
    rs_GetPerceivedBlockNumber r' s = Ok (Z.max n (match v with Some (old, _) => old | None => 0 end)) /\
    snd (after_write (rd_clock (rs_client r)) v n) =
      match v with
      | Some (old, exp) => if old <? n then Some (time_add (rd_clock (rs_client r)) (1 * hour)) else exp
      | None => Some (time_add (rd_clock (rs_client r)) (1 * hour))
      end /\
    perceived_entry r' s (Some (after_write (rd_clock (rs_client r)) v n)).
Proof.
  intros Hv Hn. destruct (perceived_write r s v n Hv Hn) as (r' & E & Hent & _). exists r'. split; [exact E|].
  split; [|split; [|exact Hent]].
  - rewrite (perceived_read _ _ _ Hent). unfold after_write. destruct v as [[old exp]|]; [|cbn; f_equal; lia].
    destruct (Z.ltb_spec old n); cbn; f_equal; lia.
  - unfold after_write. destruct v as [[old exp]|]; [|done]. by destruct (old <? n).
Qed.

(** Writes of replicas, each at an instant (the clock never goes back). *)
Fixpoint perceived_writes r (s : string) (ws : list (Time * Z)) : result storage_error (RedisStorage Rd) :=
  match ws with
  | [] => Ok r
  | (t, n) :: ws => let! next := rs_SetPerceivedBlockNumber (rs_advance r t) s n in perceived_writes next s ws
  end.

(** Only the poison, or honest values. *)
Definition poison_or_honest (p h : Z) (exp : Time) (v : option (Z * option Time)) : Prop :=
  match v with Some (n, e) => n = p /\ e = Some exp \/ n <= h | None => True end.

Lemma writes_keep_poison s p h exp ws : forall r v,
  perceived_entry r s v -> poison_or_honest p h exp v -> h < p ->
  Forall (fun w => 0 <= snd w <= h) ws -> h < 2 ^ 53 ->
  exists r' v', perceived_writes r s ws = Ok r' /\ perceived_entry r' s v' /\ poison_or_honest p h exp v'.
Proof.
  induction ws as [|[t n] ws IH]; intros r v Hv Hp Hhp Hws Hh; [by exists r, v|].
  apply Forall_cons in Hws as [Hn Hws]. cbn in Hn. cbn [perceived_writes].
  destruct (perceived_advance r s v t Hv) as [Hv1 _]. set (v1 := match v with Some (_, Some _) => _ | _ => _ end) in Hv1.
  assert (Hp1 : poison_or_honest p h exp v1) by (unfold v1; repeat case_match; done).
  destruct (perceived_write _ s v1 n Hv1 ltac:(lia)) as (r1 & E & Hv2 & _). rewrite E.
  apply (IH r1 _ Hv2); [|exact Hhp|exact Hws|exact Hh].
  unfold after_write. destruct v1 as [[old e]|]; cbn; [|lia].
  destruct (Z.ltb_spec old n); cbn; [lia|exact Hp1].
Qed.

(** A poisoned height heals.  Whatever height [p] one write set at [t0], if replicas only
    write honest heights, up to [h], from then on, then an hour later the perceived number is
    an honest one again, on every schedule of their writes. *)
Theorem poisoned_height_expires r s v p h ws t :
  perceived_entry r s v -> 0 <= p < 2 ^ 53 -> h < p ->
  (match v with Some (old, _) => old <= h | None => True end) ->
  Forall (fun w => 0 <= snd w <= h) ws ->
  rd_clock (rs_client r) + 1 * hour <= t ->
  exists poisoned r' n, rs_SetPerceivedBlockNumber r s p = Ok poisoned /\ rs_GetPerceivedBlockNumber poisoned s = Ok p /\
    perceived_writes poisoned s ws = Ok r' /\
    rs_GetPerceivedBlockNumber (rs_advance r' t) s = Ok n /\ (n <= h \/ n = 0).
Proof.
  intros Hv Hp Hhp Hold Hws Ht. destruct (perceived_write r s v p Hv Hp) as (r1 & E1 & Hv1 & Hc1).
  assert (Ha : after_write (rd_clock (rs_client r)) v p = (p, Some (time_add (rd_clock (rs_client r)) perceivedBlockTTL))).
  { unfold after_write. destruct v as [[old e]|]; [|done]. by rewrite (proj2 (Z.ltb_lt _ _)) by lia. }
  rewrite Ha in Hv1. set (exp := time_add (rd_clock (rs_client r)) perceivedBlockTTL) in *.
  destruct (writes_keep_poison s p h exp ws r1 _ Hv1) as (r2 & v2 & E2 & Hv2 & Hp2); [by left|exact Hhp|exact Hws|lia|].
  destruct (perceived_advance r2 s v2 t Hv2) as [Hv3 _]. set (v3 := match v2 with Some (_, Some _) => _ | _ => _ end) in Hv3.
  exists r1, r2, (match v3 with Some (n, _) => n | None => 0 end). split; [exact E1|].
  split; [exact (perceived_read _ _ _ Hv1)|]. split; [exact E2|]. split; [exact (perceived_read _ _ _ Hv3)|].
  unfold v3. destruct v2 as [[n [e|]]|]; cbn in Hp2 |- *; [|destruct Hp2 as [[_ ?]|?]; [done|by left]|by right].
  destruct (Z.ltb_spec (Z.max (rd_clock (rs_client r2)) t) e); [|by right].
  destruct Hp2 as [[-> [= ->]]|?]; [|by left]. unfold exp, time_add, perceivedBlockTTL in *. lia.
Qed.

(** ** Listing *)

Lemma list_loop_pages r pattern c pages : scan_pages (rs_client r) pattern 100 c pages ->
  forall fuel acc, (List.length pages <= fuel)%nat ->
  list_loop r pattern fuel c acc = Some (Ok (acc ++ omap (rs_parseKey r) (concat pages))%list).
Proof.
  induction 1 as [c ks E|c ks c' ps E Hne Hps IH]; intros fuel acc Hfuel; (destruct fuel as [|fuel]; [cbn in Hfuel; lia|]);
    cbn [list_loop]; rewrite E.
  - cbn [Z.eqb]. cbn [concat]. by rewrite app_nil_r.
  - rewrite (proj2 (Z.eqb_neq _ _) Hne). rewrite IH by (cbn in Hfuel; lia).
    cbn [concat]. by rewrite omap_app, app_assoc.
Qed.

(** The literal part of the pattern. *)
Definition list_prefix r (serviceID : string) : string :=
  if (serviceID =? "")%string then rs_keyPrefix r else rs_keyPrefix r +:+ serviceID +:+ ":".

Lemma list_exact r sid :
  glob_literal (list_prefix r sid) = true ->
  exists pages keys', (forall fuel, (pages <= fuel)%nat -> rs_List r fuel sid = Some (Ok keys')) /\
    forall k, In k keys' <-> exists rk, is_Some (keys (rs_client r) !! rk) /\ has_prefix (list_prefix r sid) rk = true /\ rs_parseKey r rk = Some k.
Proof.
  intros Hlit. destruct (rl_scan (rs_client r) (list_prefix r sid) 100 Hlit ltac:(lia)) as (pages & Hpages & Hin).
  assert (Ep : list_pattern r sid = list_prefix r sid +:+ "*").
  { unfold list_pattern, list_prefix. destruct (sid =? "")%string; [done|]. by rewrite !str_app_assoc. }
  exists (List.length pages), (omap (rs_parseKey r) (concat pages)). split.
  - intros fuel Hf. unfold rs_List. rewrite Ep. by rewrite (list_loop_pages _ _ _ _ Hpages).
  - intros k. rewrite <- list_elem_of_In, list_elem_of_omap. setoid_rewrite list_elem_of_In. setoid_rewrite Hin. naive_solver.
Qed.

(** The key the listing reads off a perceived-height entry. *)
Lemma phantom_parsed r s :
  rs_keyPrefix r <> "" -> s <> "" -> contains_byte ":" s = false ->
  rs_parseKey r (perceivedBlockKey r s) = Some (NewEndpointKey "chain_state" s (rpc_value "PERCEIVED_BLOCK")).
Proof.
  intros Hp Hs Hc. unfold rs_parseKey, perceivedBlockKey. rewrite has_prefix_app, str_drop_app. apply String.eqb_neq in Hp. rewrite Hp. cbn [negb andb].
  unfold ParseEndpointKeyString.
  replace ("chain_state:" +:+ s +:+ ":perceived_block") with (("chain_state" +:+ String ":" s) +:+ String ":" "perceived_block")
    by (rewrite str_app_assoc; reflexivity).
  rewrite last_index_byte_app by done. change (String.length ("chain_state" +:+ String ":" s)) with (12 + String.length s)%nat. cbn [Nat.add].
  change (S (S (S (S (S (S (S (S (S (S (S (S (String.length s))))))))))))) with (String.length ("chain_state" +:+ String ":" s)).
  rewrite str_take_app, str_drop_app_S, index_byte_app by done. cbn [String.length].
  change (str_take 11 ("chain_state" +:+ String ":" s)) with "chain_state".
  change (str_drop 12 ("chain_state" +:+ String ":" s)) with s. apply String.eqb_neq in Hs. by rewrite Hs.
Qed.

(** Listing the stored scores also returns keys that are none.  The pattern of a full
    listing covers the chain-state entries: once a service has a perceived height, the list has
    a key for service "chain_state" and address the service ID, though no score was stored. *)
Theorem list_returns_phantom r s v :
  rs_keyPrefix r <> "" -> glob_literal (rs_keyPrefix r) = true ->
  s <> "" -> contains_byte ":" s = false -> perceived_entry r s (Some v) ->
  exists pages keys', (forall fuel, (pages <= fuel)%nat -> rs_List r fuel "" = Some (Ok keys')) /\
    In (NewEndpointKey "chain_state" s (rpc_value "PERCEIVED_BLOCK")) keys'.
Proof.
  intros Hp Hlit Hs Hc [Hv _]. destruct (list_exact r "" Hlit) as (pages & keys' & Hf & Hin).
  exists pages, keys'. split; [exact Hf|]. apply Hin. exists (perceivedBlockKey r s). split; [|split].
  - rewrite Hv. destruct v. by eexists.
  - apply has_prefix_app.
  - by apply phantom_parsed.
Qed.

(** ** The expiry of the drains *)

Inductive drain_event := DSet (k : DrainKey) (until : Time) | DDelete (k : DrainKey) | DList (now : Time) | DWait (t : Time).

Definition drain_step r (e : drain_event) : result storage_error (RedisStorage Rd) :=
  match e with
  | DSet k until => rs_SetDrain r k until
  | DDelete k => rs_DeleteDrain r k
  | DList now => let! x := rs_ListDrains r now in Ok (snd x)
  | DWait t => Ok (rs_advance r t)
  end.

Fixpoint drain_steps r (es : list drain_event) : result storage_error (RedisStorage Rd) :=
  match es with
  | [] => Ok r
  | e :: es => let! next := drain_step r e in drain_steps next es
  end.

(** The hash is absent, or holds fields without an expiry. *)
Definition drains_unbounded r (ks : keyspace) : Prop :=
  forall e, ks !! drainsHashKey r = Some e -> exists h, e = (RHash h, None).

Lemma drains_cmd_unbounded now r ks c :
  drains_unbounded r ks -> (exists f, c = HSET (drainsHashKey r) f) \/ (exists f, c = HDEL (drainsHashKey r) f) \/ (exists t, c = EXPIREGT (drainsHashKey r) t) ->
  exists ks', ref_cmd now ks c = (None, ks') /\ drains_unbounded r ks'.
Proof.
  intros Hu Hc.
  assert (Hput : forall h, drains_unbounded r (put_hash ks (drainsHashKey r) h None)).
  { intros h e. rewrite put_hash_at. case_bool_decide; [done|]. intros [= <-]. by eexists. }
  destruct (ks !! drainsHashKey r) as [e|] eqn:E.
  - destruct (Hu e E) as (h & ->). destruct Hc as [[f ->]|[[f ->]|[t ->]]]; unfold ref_cmd; rewrite E; by eexists.
  - destruct Hc as [[f ->]|[[f ->]|[t ->]]]; unfold ref_cmd; rewrite E; by eexists.
Qed.

Lemma pipeline_unbounded r c :
  drains_unbounded r (keys (rs_client r)) -> (exists f, c = HSET (drainsHashKey r) f) \/ (exists f, c = HDEL (drainsHashKey r) f) \/ (exists t, c = EXPIREGT (drainsHashKey r) t) ->
  exists c', rd_Pipeline (rs_client r) [c] = (None, c') /\ drains_unbounded (rs_with r c') (keys c').
Proof.
  intros Hu Hc. destruct (drains_cmd_unbounded (rd_clock (rs_client r)) r _ c Hu Hc) as (ks' & E & Hu').
  pose proof (rl_pipeline (rs_client r) [c]) as L. destruct (rd_Pipeline (rs_client r) [c]) as [e c']. destruct L as [L _].
  rewrite pipeline_cons, E in L. injection L as -> Hk. exists c'. split; [done|]. by rewrite Hk.
Qed.

Lemma drain_step_unbounded r e :
  drains_unbounded r (keys (rs_client r)) ->
  exists r', drain_step r e = Ok r' /\ drains_unbounded r' (keys (rs_client r')).
Proof.
  intros Hu. destruct e as [k until|k|now|t]; cbn [drain_step].
  - unfold rs_SetDrain, run. destruct (pipeline_unbounded r (HSET (drainsHashKey r) {[drainField k := format_rfc3339 until]}) Hu)
      as (c & E & Hu1); [by left; eexists|]. rewrite E. cbv beta iota. case_if; [|by eexists].
    set (ttl := wrap64 _). destruct (pipeline_unbounded (rs_with r c) (EXPIREGT (drainsHashKey r) ttl) Hu1) as (c' & E' & Hu2);
      [by right; right; eexists|]. eexists. split; [done|]. cbn [rs_client rs_with] in *. rewrite E'. exact Hu2.
  - unfold rs_DeleteDrain, run. destruct (pipeline_unbounded r (HDEL (drainsHashKey r) [drainField k]) Hu)
      as (c & E & Hu1); [by right; left; eexists|]. rewrite E. by eexists.
  - unfold rs_ListDrains. rewrite rl_hgetall.
    assert (Hraw : exists raw, ref_HGetAll (keys (rs_client r)) (drainsHashKey r) = Ok raw).
    { unfold ref_HGetAll. destruct (keys (rs_client r) !! drainsHashKey r) as [e|] eqn:E; [|by eexists].
      destruct (Hu e E) as (h & ->). by eexists. }
    destruct Hraw as [raw ->]. cbn [wrap]. destruct (map fst _) as [|f fs]; [by eexists|].
    destruct (pipeline_unbounded r (HDEL (drainsHashKey r) (f :: fs)) Hu) as (c & E & Hu1); [by right; left; eexists|].
    rewrite E. by eexists.
  - eexists. split; [done|]. unfold rs_advance. cbn [rs_client rs_with].
    destruct (rl_advance (rs_client r) (Z.max (rd_clock (rs_client r)) t) (Z.le_max_l _ _)) as [-> _].
    intros e He. apply map_lookup_filter_Some in He as [He _]. by apply (Hu e).
Qed.

(** The backstop of the drains is never set.  SetDrain bounds the hash by an expiry that is
    only ever extended (EXPIRE GT), but Redis takes a key without one as never expiring: however
    drains are set, lifted and listed, and however time passes, the hash never has an expiry. *)
Theorem drains_never_expire r es :
  keys (rs_client r) !! drainsHashKey r = None ->
  exists r', drain_steps r es = Ok r' /\
    forall v exp, keys (rs_client r') !! drainsHashKey r' = Some (v, exp) -> exp = None.
Proof.
  intros Hnone. assert (Hu : drains_unbounded r (keys (rs_client r))) by (intros e; by rewrite Hnone). clear Hnone.
  revert r Hu. induction es as [|e es IH]; intros r Hu; cbn [drain_steps].
  - exists r. split; [done|]. intros v exp E. destruct (Hu _ E) as (h & [= _ ->]). done.
  - destruct (drain_step_unbounded r e Hu) as (r1 & -> & Hu1). apply (IH r1 Hu1).
Qed.

(** ** Drains are listed *)

Lemma drains_lookup now (raw : gmap string string) k u :
  (list_to_map (omap (fun '(field, val) => read_drain now field val) (map_to_list raw)) : gmap DrainKey Time) !! k = Some u <->
  exists v, raw !! drainField k = Some v /\ read_drain now (drainField k) v = Some (k, u).
Proof.
  set (l := omap _ _).
  assert (Hl : forall k u, (k, u) ∈ l <-> exists v, raw !! drainField k = Some v /\ read_drain now (drainField k) v = Some (k, u)).
  { clear k u. intros k u. unfold l. rewrite list_elem_of_omap. split.
    - intros ([f v] & Hin%elem_of_map_to_list & E). exists v.
      assert (f = drainField k) as ->; [|done]. unfold read_drain in E. repeat case_match; try done.
      apply fmap_Some in E as (k0 & Hk & [= -> ->]). by apply parseDrainField_inv.
    - intros (v & Hv & E). exists (drainField k, v). split; [by apply elem_of_map_to_list|exact E]. }
  rewrite <- Hl. split; [apply elem_of_list_to_map_2|]. intros Hin. apply elem_of_list_to_map_1'; [|exact Hin].
  intros y Hy. apply Hl in Hin as (v & Hv & E), Hy as (v' & Hv' & E'). rewrite Hv in Hv'. injection Hv' as <-. congruence.
Qed.

(** The fields of the hash after a drain is set. *)
Lemma set_drain_fields `{!TimeTextLaws} r k until h :
  ref_HGetAll (keys (rs_client r)) (drainsHashKey r) = Ok h ->
  exists r', rs_SetDrain r k until = Ok r' /\
    ref_HGetAll (keys (rs_client r')) (drainsHashKey r') = Ok (<[drainField k := format_rfc3339 until]> h).
Proof.
  intros Hh. unfold rs_SetDrain, run. set (h' := <[drainField k := format_rfc3339 until]> h).
  assert (Hne : h' <> ∅) by (apply insert_non_empty).
  pose proof (rl_pipeline (rs_client r) [HSET (drainsHashKey r) {[drainField k := format_rfc3339 until]}]) as L.
  destruct (rd_Pipeline (rs_client r) _) as [e c]. destruct L as [L Hc]. rewrite pipeline_cons in L. unfold ref_cmd, ref_HGetAll in *.
  assert (Hset : e = None /\ exists exp, keys c !! drainsHashKey r = Some (RHash h', exp)).
  { destruct (keys (rs_client r) !! drainsHashKey r) as [[[x|h0] exp]|]; try done; injection Hh as <-; injection L as -> ->;
      (split; [done|]); eexists; rewrite put_hash_at; unfold h' in *; rewrite insert_union_singleton_l in *.
    - by rewrite bool_decide_false.
    - rewrite map_union_empty in *. by rewrite bool_decide_false. }
  destruct Hset as (-> & exp & Hk). case_if; [|eexists; split; [done|]; cbn [rs_client rs_with]; change (drainsHashKey (rs_with r c)) with (drainsHashKey r); by rewrite Hk].
  eexists. split; [done|]. cbn [rs_client rs_with]. set (ttl := wrap64 _) in *.
  pose proof (rl_pipeline c [EXPIREGT (drainsHashKey r) ttl]) as L'. destruct (rd_Pipeline c _) as [e' c']. destruct L' as [L' _].
  rewrite pipeline_cons in L'. unfold ref_cmd in L'. rewrite Hk in L'. cbn [snd]. change (drainsHashKey (rs_with _ c')) with (drainsHashKey r).
  destruct exp as [t0|]; injection L' as _ ->; [|by rewrite Hk]. case_if; [|by rewrite Hk].
  unfold put_expiry. destruct (Z.leb_spec (expire_at (rd_clock c) ttl) (rd_clock c)) as [Hle|]; [|by rewrite lookup_insert_eq].
  exfalso. unfold expire_at, expire_seconds, time_add in Hle. breflect. revert Hle.
  destruct (Z.ltb_spec ttl second); rewrite (proj2 (Z.ltb_lt 0 ttl)) by done; cbn [andb]; [unfold second; lia|].
  assert (1 <= ttl ÷ second) by (apply Z.quot_le_lower_bound; unfold second in *; lia). unfold second in *. lia.
Qed.

(** A drain is in force, wherever the storage is read, from the moment it is set to the
    second it ends in: the list then has it, to the second, and every other drain of the list
    is as it was. *)
Theorem drain_listed `{!TimeTextLaws} r k until now h :
  ref_HGetAll (keys (rs_client r)) (drainsHashKey r) = Ok h ->
  drain_key_ok k -> 0 <= time_unix until < year10000 -> now < time_unix until * second ->
  exists r1 before r0 after r2, rs_ListDrains r now = Ok (before, r0) /\
    rs_SetDrain r k until = Ok r1 /\ rs_ListDrains r1 now = Ok (after, r2) /\
    after = <[k := time_unix until * second]> before.
Proof.
  intros Hh Hk Hu Hnow. destruct (set_drain_fields r k until h Hh) as (r1 & E1 & Hh1). exists r1.
  assert (Hlist : forall x raw, ref_HGetAll (keys (rs_client x)) (drainsHashKey x) = Ok raw -> exists x',
    rs_ListDrains x now = Ok (list_to_map (omap (fun '(field, val) => read_drain now field val) (map_to_list raw)), x')).
  { intros x raw Hraw. unfold rs_ListDrains. rewrite rl_hgetall, Hraw. cbn [wrap]. destruct (map fst _); by eexists. }
  destruct (Hlist r h Hh) as [r0 E0], (Hlist r1 _ Hh1) as [r2 E2].
  eexists _, r0, _, r2. split; [exact E0|]. split; [exact E1|]. split; [exact E2|].
  assert (Hread : read_drain now (drainField k) (format_rfc3339 until) = Some (k, time_unix until * second)).
  { unfold read_drain. rewrite parse_format_rfc3339 by exact Hu. unfold time_before. rewrite (proj2 (Z.ltb_lt _ _) Hnow). cbn.
    by rewrite parse_drainField. }
  apply map_eq. intros k'. apply option_eq. intros u. rewrite drains_lookup. destruct (decide (k = k')) as [<-|Hne].
  - rewrite !lookup_insert_eq. split; [intros (v & [= <-] & E); congruence|]. intros [= <-]. by eexists.
  - rewrite (lookup_insert_ne _ k k') by done. rewrite drains_lookup.
    assert (Hf : drainField k' = drainField k -> forall v, read_drain now (drainField k') v = Some (k', u) -> False).
    { intros Ef v E. rewrite Ef in E. unfold read_drain in E. repeat case_match; try done. rewrite parse_drainField in E by done. naive_solver. }
    destruct (decide (drainField k = drainField k')) as [Ef|Ef]; [|by rewrite lookup_insert_ne].
    split; intros (v & _ & E); exfalso; by eapply Hf.
Qed.
End Limits.

(** ** The Redis storage on a concrete server

    The theorems of RedisStorageProps.v and RedisLimits.v at the reference server of Redis.v. *)

Open Scope string_scope.
Open Scope Z_scope.

#[export] Instance demo_key_names : ScoreKeyNames (fun t => t = 2 \/ t = 3).
Proof. split. intros t [-> | ->]; split; discriminate. Qed.

Definition demo_prefix : string := "path:reputation:".
Definition demo_t0 : Time := 1700000000 * second.

(** A benched endpoint, with times that are not whole seconds. *)
Definition demo_score : Score :=
  mkScore (f64_of_Z 55) (demo_t0 + 500 * millisecond) 12 7 (mkLatencyMetrics 5 5 5 5 1 demo_t0) 3 (demo_t0 + 300 * second + 1)
    (f64_frac 1 4) 1 (demo_t0 + 300 * second + 1) f_zero 0 time_zero true (demo_t0 + 8 * hour).

Definition demo_store_ops : list store_op :=
  [ OpSet demo_t0 demo_key demo_score;
    OpPerceived "eth" 19000000;
    OpHeight "eth" "pokt1a-https://node.example.com" 18999990;
    OpDrain (mkDrainKey "eth" "example.com" "") (demo_t0 + hour);
    OpSet demo_t0 (NewEndpointKey "eth" "https://other.example.com:8545" 2) (fresh_score InitialScore demo_t0);
    OpRemoveHeights "eth" ["pokt1b-https://gone.example.com"] ].

Lemma redis_refines_memory_witness :
  exists m r, apply_ops (NewMemoryStorage 0) demo_store_ops = Ok m /\
    apply_ops (Ops := RedisStorage_Storage 1) (mkRedisStorage (mkDemoRedis demo_t0 ∅) demo_prefix 0) demo_store_ops = Ok r /\
    (forall now k, key_wf (fun t => t = 2 \/ t = 3) k ->
       rs_Get r k = match ms_Get m now k with Ok sc => Ok (redis_view sc) | Err e => Err e end) /\
    (forall s, rs_GetEndpointBlockHeights r s = ms_GetEndpointBlockHeights m s).
Proof.
  apply (redis_refines_memory (known := fun t => t = 2 \/ t = 3) (keys := dr_keys) 1 (mkDemoRedis demo_t0 ∅) demo_prefix demo_store_ops);
    [reflexivity|].
  repeat (apply Forall_cons; split); try apply Forall_nil; cbn; try done; try (unfold max_uint64; lia).
  - split; [split; cbn; auto; split; (discriminate || reflexivity)|].
    split; try reflexivity; repeat (apply Forall_cons; split); try apply Forall_nil; vm_compute; split; discriminate.
  - split; [split; cbn; auto; split; (discriminate || reflexivity)|].
    split; try reflexivity; repeat (apply Forall_cons; split); try apply Forall_nil; vm_compute; split; discriminate.
Defined.

Definition demo_redis_storage (ks : keyspace) : RedisStorage DemoRedis := mkRedisStorage (mkDemoRedis demo_t0 ks) demo_prefix 0.

Definition demo_chain : RedisStorage DemoRedis :=
  demo_redis_storage {["path:reputation:chain_state:eth:perceived_block" := (RString "19000000", Some (demo_t0 + 30 * minute))]}.

Lemma demo_chain_entry : perceived_entry (keys := dr_keys) demo_chain "eth" (Some (19000000, Some (demo_t0 + 30 * minute))).
Proof. split; [vm_compute; reflexivity|lia]. Qed.

Lemma perceived_max_wins_witness :
  exists r', rs_SetPerceivedBlockNumber demo_chain "eth" 18000000 = Ok r' /\ rs_GetPerceivedBlockNumber r' "eth" = Ok 19000000.
Proof.
  destruct (perceived_max_wins (keys := dr_keys) demo_chain "eth" _ 18000000 demo_chain_entry ltac:(lia)) as (r' & E & G & _).
  exists r'. split; [exact E|exact G].
Defined.

Lemma poisoned_height_expires_witness :
  exists poisoned r' n, rs_SetPerceivedBlockNumber demo_chain "eth" 900000000000 = Ok poisoned /\
    rs_GetPerceivedBlockNumber poisoned "eth" = Ok 900000000000 /\
    perceived_writes poisoned "eth" [(demo_t0 + 10 * minute, 19000050); (demo_t0 + 50 * minute, 19000250)] = Ok r' /\
    rs_GetPerceivedBlockNumber (rs_advance r' (demo_t0 + hour)) "eth" = Ok n /\ (n <= 19000300 \/ n = 0).
Proof.
  apply (poisoned_height_expires (keys := dr_keys) demo_chain "eth" _ 900000000000 19000300
    [(demo_t0 + 10 * minute, 19000050); (demo_t0 + 50 * minute, 19000250)] (demo_t0 + hour) demo_chain_entry); try lia.
  - repeat (apply Forall_cons; split); try apply Forall_nil; cbn; lia.
  - cbn. unfold hour, minute. lia.
Defined.

Lemma list_returns_phantom_witness :
  exists pages keys', (forall fuel, (pages <= fuel)%nat -> rs_List demo_chain fuel "" = Some (Ok keys')) /\
    In (NewEndpointKey "chain_state" "eth" (rpc_value "PERCEIVED_BLOCK")) keys'.
Proof.
  apply (list_returns_phantom (keys := dr_keys) demo_chain "eth" (19000000, Some (demo_t0 + 30 * minute)));
    [discriminate|reflexivity|discriminate|reflexivity|exact demo_chain_entry].
Defined.

Lemma drains_never_expire_witness :
  exists r', drain_steps demo_chain [DSet (mkDrainKey "eth" "example.com" "") (demo_t0 + hour); DWait (demo_t0 + 2 * hour); DList (demo_t0 + 2 * hour)] = Ok r' /\
    forall v exp, dr_keys (rs_client r') !! drainsHashKey r' = Some (v, exp) -> exp = None.
Proof.
  apply (drains_never_expire (keys := dr_keys) demo_chain
    [DSet (mkDrainKey "eth" "example.com" "") (demo_t0 + hour); DWait (demo_t0 + 2 * hour); DList (demo_t0 + 2 * hour)]).
  vm_compute. reflexivity.
Defined.

Lemma drain_listed_witness :
  exists r1 before r0 after r2, rs_ListDrains demo_chain demo_t0 = Ok (before, r0) /\
    rs_SetDrain demo_chain (mkDrainKey "eth" "example.com" "json_rpc") (demo_t0 + hour + 5) = Ok r1 /\
    rs_ListDrains r1 demo_t0 = Ok (after, r2) /\
    after = <[mkDrainKey "eth" "example.com" "json_rpc" := time_unix (demo_t0 + hour + 5) * second]> before.
Proof.
  apply (drain_listed (keys := dr_keys) demo_chain (mkDrainKey "eth" "example.com" "json_rpc") (demo_t0 + hour + 5) demo_t0 ∅).
  - vm_compute. reflexivity.
  - split; cbn; [split; (discriminate || reflexivity)|split; (discriminate || reflexivity)|reflexivity].
  - vm_compute. split; [discriminate|reflexivity].
  - vm_compute. reflexivity.
Defined.
