(* ===== verification/WsRegistry.v ===== *)
(** * Live WebSocket connections

    gateway/websocket_limiter.go: the cap on concurrent connections, whose lock-free Acquire is a
    step relation over the threads that run it.  protocol/shannon/websocket_registry.go: the
    registry of live bridges, their throughput estimates, and the tumble of a subset of them.

    A connection is named by a number, for the address of its request context.  The counters the
    [frames] closures read are an argument of the sampling pass, [None] for a nil closure; the
    order in which a Go map is ranged over is an argument of what depends on it.  A nil registry
    or limiter is [None] where the source handles it. *)

From S2P Require Import Prelude GoStrings Float64 GoSort RepKey.
From Stdlib Require Import ZArith Lia Bool Ascii String SpecFloat.
From stdpp Require Import base gmap strings fin_maps list.

Open Scope string_scope.
Open Scope Z_scope.

(** ** The limiter *)

Record WebsocketConnectionLimiter := mkLimiter { lim_max : Z; lim_active : Z }.

Definition NewWebsocketConnectionLimiter (max : Z) : option WebsocketConnectionLimiter :=
  if max <=? 0 then None else Some (mkLimiter max 0).

(** A thread: outside, between the load and the compare-and-swap of a round of Acquire with the
    value it loaded, turned away, or holding a slot. *)
Inductive thread := Idle | Loaded (cur : Z) | Refused | Holding.

Record limiter_state := mkLimiterState { ls_limiter : WebsocketConnectionLimiter; ls_threads : gmap nat thread }.

Definition set_active (l : WebsocketConnectionLimiter) (n : Z) : WebsocketConnectionLimiter := mkLimiter (lim_max l) n.
Definition thread_of (s : limiter_state) (t : nat) : thread := default Idle (ls_threads s !! t).
Definition set_thread (s : limiter_state) (t : nat) (x : thread) : gmap nat thread := <[t := x]> (ls_threads s).

(** The atomic steps of Acquire and Release, by any thread. *)
Inductive limiter_step : limiter_state -> limiter_state -> Prop :=
| StepLoad s t cur : thread_of s t = Idle -> cur = lim_active (ls_limiter s) -> cur < lim_max (ls_limiter s) ->
    limiter_step s (mkLimiterState (ls_limiter s) (set_thread s t (Loaded cur)))
| StepRefuse s t : thread_of s t = Idle -> lim_max (ls_limiter s) <= lim_active (ls_limiter s) ->
    limiter_step s (mkLimiterState (ls_limiter s) (set_thread s t Refused))
| StepSwap s t cur : thread_of s t = Loaded cur -> lim_active (ls_limiter s) = cur ->
    limiter_step s (mkLimiterState (set_active (ls_limiter s) (wrap64 (cur + 1))) (set_thread s t Holding))
| StepRetry s t cur : thread_of s t = Loaded cur -> lim_active (ls_limiter s) <> cur ->
    limiter_step s (mkLimiterState (ls_limiter s) (set_thread s t Idle))
| StepRelease s t : thread_of s t = Holding ->
    limiter_step s (mkLimiterState (set_active (ls_limiter s) (wrap64 (lim_active (ls_limiter s) - 1))) (set_thread s t Idle))
| StepLeave s t : thread_of s t = Refused ->
    limiter_step s (mkLimiterState (ls_limiter s) (set_thread s t Idle)).

(** Acquire, Release and Active run by one thread alone. *)
Definition Acquire (l : option WebsocketConnectionLimiter) : bool * option WebsocketConnectionLimiter :=
  match l with
  | None => (true, None)
  | Some l => if lim_max l <=? lim_active l then (false, Some l) else (true, Some (set_active l (wrap64 (lim_active l + 1))))
  end.
Definition Release (l : option WebsocketConnectionLimiter) : option WebsocketConnectionLimiter :=
  match l with None => None | Some l => Some (set_active l (wrap64 (lim_active l - 1))) end.
Definition Active (l : option WebsocketConnectionLimiter) : Z :=
  match l with None => 0 | Some l => lim_active l end.

(** ** Entries and their rate *)

Abbreviation conn := Z (only parsing).

Record websocketConnEntry := mkConnEntry {
  wce_controller : Z;
  wce_domain : string;
  wce_supplier : string;
  wce_rate : float64;
  wce_lastFrames : Z;
  wce_lastSample : Time;
}.

Definition websocketRateSampleInterval : Duration := 15 * second.
Definition websocketRateEWMAAlpha : float64 := f64_frac 1 2.
Definition websocketRateEWMAFloor : float64 := f64_ratio 1 1000000.

(** Duration.Seconds: whole seconds plus the rest over 1e9. *)
Definition duration_Seconds (d : Duration) : float64 :=
  fadd (f64_of_Z (d ÷ second)) (fdiv (f64_of_Z (Z.rem d second)) (f64_of_Z (10 ^ 9))).

Definition sample (e : websocketConnEntry) (frames : option Z) (now : Time) : websocketConnEntry :=
  match frames with
  | None => e
  | Some current =>
      let elapsed := duration_Seconds (time_sub now (wce_lastSample e)) in
      if fleb elapsed f_zero then e
      else
        let delta := if wce_lastFrames e <? current then wrapu64 (current - wce_lastFrames e) else 0 in
        let instant := fdiv (f64_of_Z delta) elapsed in
        let rate :=
          if (wce_lastFrames e =? 0) && feqb (wce_rate e) f_zero then instant
          else fadd (fmul websocketRateEWMAAlpha instant) (fmul (fsub f_one websocketRateEWMAAlpha) (wce_rate e)) in
        let rate := if fltb rate websocketRateEWMAFloor then f_zero else rate in
        mkConnEntry (wce_controller e) (wce_domain e) (wce_supplier e) rate current now
  end.

(** ** The registry *)

Abbreviation registry := (gmap string (gmap Z websocketConnEntry)) (only parsing).

Definition newWebsocketConnRegistry : registry := ∅.

Definition sampleRates (r : registry) (frames : conn -> option Z) (now : Time) : registry :=
  (fun svc : gmap Z websocketConnEntry => map_imap (fun c e => Some (sample e (frames c) now)) svc) <$> r.

(** A nil context or controller registers nothing. *)
Definition register (r : registry) (now : Time) (serviceID : ServiceID) (wrc : option conn) (controller : option Z)
  (domain supplier : string) : registry :=
  match wrc, controller with
  | Some c, Some ctl =>
      <[serviceID := <[c := mkConnEntry ctl domain supplier f_zero 0 now]> (default ∅ (r !! serviceID))]> r
  | _, _ => r
  end.

Definition deregister (r : registry) (serviceID : ServiceID) (wrc : option conn) : registry :=
  match wrc with
  | None => r
  | Some c =>
      match r !! serviceID with
      | None => r
      | Some svc =>
          let svc := delete c svc in
          if bool_decide (svc = ∅) then delete serviceID r else <[serviceID := svc]> r
      end
  end.

Definition updateBinding (r : registry) (serviceID : ServiceID) (wrc : option conn) (domain supplier : string) : registry :=
  match wrc with
  | None => r
  | Some c =>
      match r !! serviceID with
      | None => r
      | Some svc =>
          match svc !! c with
          | None => r
          | Some e =>
              <[serviceID := <[c := mkConnEntry (wce_controller e) domain supplier (wce_rate e) (wce_lastFrames e) (wce_lastSample e)]> svc]> r
          end
      end
  end.

(** Every live connection, with its service. *)
Definition all_conns (r : registry) : list (ServiceID * conn) :=
  concat (map (fun '(sid, svc) => map (fun '(c, _) => (sid, c)) (map_to_list svc)) (map_to_list r)).

(** The bridges are closed concurrently; [finished] are those whose Close returned before the
    context was done, each of which has deregistered its connection. *)
Definition shutdownAll (r : registry) (finished : ServiceID * conn -> bool) : Z * registry :=
  let snapshot := all_conns r in
  let closed := List.filter finished snapshot in
  (Z.of_nat (List.length closed), fold_left (fun r '(sid, c) => deregister r sid (Some c)) closed r).

(** ** Tumble *)

Definition TumbleOrderThroughput := "throughput".
Definition TumbleOrderConnections := "connections".

Record WebsocketTumbleRequest := mkTumbleRequest {
  tr_ServiceID : string;
  tr_Domain : string;
  tr_Max : Z;
  tr_OrderBy : string;
  tr_DryRun : bool;
}.

Record WebsocketTumbleResult := mkTumbleResult {
  tt_Total : Z;
  tt_Matched : Z;
  tt_Tumbled : Z;
  tt_Skipped : Z;
  tt_ByDomain : gmap string Z;
  tt_DomainCounts : gmap string Z;
  tt_DomainThroughput : gmap string float64;
  tt_TumbledThroughput : gmap string float64;
  tt_OrderBy : string;
}.

Record candidate := mkCandidate { cd_conn : conn; cd_domain : string; cd_rate : float64 }.

Definition count_up (m : gmap string Z) (d : string) : gmap string Z := <[d := default 0 (m !! d) + 1]> m.
Definition add_rate (m : gmap string float64) (d : string) (x : float64) : gmap string float64 :=
  <[d := fadd (default f_zero (m !! d)) x]> m.

Definition effective_order (req : WebsocketTumbleRequest) : string :=
  if (tr_OrderBy req =? TumbleOrderConnections)%string then TumbleOrderConnections else TumbleOrderThroughput.

Definition domain_counts (svc : list (conn * websocketConnEntry)) : gmap string Z :=
  fold_left (fun m '(_, e) => count_up m (wce_domain e)) svc ∅.
Definition domain_throughput (svc : list (conn * websocketConnEntry)) : gmap string float64 :=
  fold_left (fun m '(_, e) => add_rate m (wce_domain e) (wce_rate e)) svc ∅.

Definition matches_domain (req : WebsocketTumbleRequest) (e : websocketConnEntry) : bool :=
  (tr_Domain req =? "")%string || (wce_domain e =? tr_Domain req)%string.

Definition candidates (req : WebsocketTumbleRequest) (svc : list (conn * websocketConnEntry)) : list candidate :=
  map (fun '(c, e) => mkCandidate c (wce_domain e) (wce_rate e)) (List.filter (fun '(_, e) => matches_domain req e) svc).

(** The less function of the sort. *)
Definition tumble_less (byCount : bool) (counts : gmap string Z) (rates : gmap string float64) (x y : candidate) : bool :=
  let rest :=
    if negb (feqb (cd_rate x) (cd_rate y)) then fltb (cd_rate y) (cd_rate x)
    else String.ltb (cd_domain x) (cd_domain y) in
  if byCount then
    let a := default 0 (counts !! cd_domain x) in
    let b := default 0 (counts !! cd_domain y) in
    if negb (a =? b) then b <? a else rest
  else
    let a := default f_zero (rates !! cd_domain x) in
    let b := default f_zero (rates !! cd_domain y) in
    if negb (feqb a b) then fltb b a else rest.

Definition tumbled_one (res : WebsocketTumbleResult) (c : candidate) : WebsocketTumbleResult :=
  mkTumbleResult (tt_Total res) (tt_Matched res) (tt_Tumbled res + 1) (tt_Skipped res) (count_up (tt_ByDomain res) (cd_domain c))
    (tt_DomainCounts res) (tt_DomainThroughput res) (add_rate (tt_TumbledThroughput res) (cd_domain c) (cd_rate c)) (tt_OrderBy res).
Definition skipped_one (res : WebsocketTumbleResult) : WebsocketTumbleResult :=
  mkTumbleResult (tt_Total res) (tt_Matched res) (tt_Tumbled res) (tt_Skipped res + 1) (tt_ByDomain res)
    (tt_DomainCounts res) (tt_DomainThroughput res) (tt_TumbledThroughput res) (tt_OrderBy res).

(** The loop over the ordered candidates; [accepts] is what the Tumble of each controller
    returns.  Also the connections whose Tumble was called. *)
Fixpoint tumble_loop (req : WebsocketTumbleRequest) (accepts : conn -> bool) (cs : list candidate) (res : WebsocketTumbleResult)
  : WebsocketTumbleResult * list conn :=
  match cs with
  | [] => (res, [])
  | c :: cs =>
      if (0 <? tr_Max req) && (tr_Max req <=? tt_Tumbled res) then (res, [])
      else if tr_DryRun req then tumble_loop req accepts cs (tumbled_one res c)
      else
        let '(res, called) := tumble_loop req accepts cs (if accepts (cd_conn c) then tumbled_one res c else skipped_one res) in
        (res, cd_conn c :: called)
  end.

(** [order] is how the loop over the service's map meets its connections. *)
Definition tumble (r : option registry) (order : list (conn * websocketConnEntry) -> list (conn * websocketConnEntry))
  (accepts : conn -> bool) (req : WebsocketTumbleRequest) : WebsocketTumbleResult * list conn :=
  let orderBy := effective_order req in
  let empty := mkTumbleResult 0 0 0 0 ∅ ∅ ∅ ∅ orderBy in
  match r with
  | None => (empty, [])
  | Some r =>
      match map_to_list (default ∅ (r !! tr_ServiceID req)) with
      | [] => (empty, [])
      | entries =>
          let svc := order entries in
          let counts := domain_counts svc in
          let rates := domain_throughput svc in
          let cands := candidates req svc in
          let sorted := slice_stable (tumble_less (orderBy =? TumbleOrderConnections)%string counts rates) cands in
          tumble_loop req accepts sorted
            (mkTumbleResult (Z.of_nat (List.length svc)) (Z.of_nat (List.length cands)) 0 0 ∅ counts rates ∅ orderBy)
      end
  end.
