(* ===== verification/WsRegistryProps.v ===== *)
(** * What the connection limiter and registry guarantee

    The limiter never exceeds its cap, whatever the interleaving of its threads; the rate of an
    idle connection reaches zero in a bounded number of samples; a capped tumble is spent on the
    heaviest connections; the registry holds exactly the live ones. *)

From S2P Require Import Prelude GoStrings Float64 Rounding RepKey GoSort WsRegistry.
From Stdlib Require Import ZArith Lia Bool Ascii String SpecFloat.
From stdpp Require Import base gmap strings fin_maps relations list.

Open Scope string_scope.
Open Scope Z_scope.

(** ** The limiter *)

Definition is_holding (x : thread) : bool := match x with Holding => true | _ => false end.
Definition holders (m : gmap nat thread) : Z := Z.of_nat (size (filter (fun p => is_holding p.2 = true) m)).

Lemma holders_set m t x : holders (<[t := x]> m) =
  holders m - (if is_holding (default Idle (m !! t)) then 1 else 0) + (if is_holding x then 1 else 0).
Proof.
  unfold holders. rewrite map_filter_insert.
  assert (Hdel : Z.of_nat (size (filter (fun p => is_holding p.2 = true) (delete t m))) =
    Z.of_nat (size (filter (fun p => is_holding p.2 = true) m)) - (if is_holding (default Idle (m !! t)) then 1 else 0)).
  { rewrite map_filter_delete. destruct (m !! t) as [y|] eqn:E; cbn.
    - destruct (is_holding y) eqn:Ey.
      + assert (Hin : filter (fun p => is_holding p.2 = true) m !! t = Some y) by (by apply map_lookup_filter_Some).
        rewrite map_size_delete, Hin. cbn.
        assert (size (filter (fun p => is_holding p.2 = true) m) <> O)
          by (intros Hz; apply map_size_empty_inv in Hz; by rewrite Hz, lookup_empty in Hin). lia.
      + rewrite delete_id; [lia|]. apply map_lookup_filter_None. right. intros z Hz. rewrite E in Hz. injection Hz as <-. cbn. by rewrite Ey.
    - rewrite delete_id; [lia|]. apply map_lookup_filter_None. by left. }
  cbn. destruct (is_holding x) eqn:Ex.
  - rewrite decide_True by done. rewrite <- insert_delete_eq, <- map_filter_delete. rewrite map_size_insert_None; [lia|].
    rewrite map_filter_delete. apply lookup_delete_eq.
  - rewrite decide_False by done. lia.
Qed.

Record limiter_inv (s : limiter_state) : Prop := {
  li_count : lim_active (ls_limiter s) = holders (ls_threads s);
  li_cap : 0 <= lim_active (ls_limiter s) <= lim_max (ls_limiter s);
  li_loaded : forall t cur, thread_of s t = Loaded cur -> cur < lim_max (ls_limiter s);
  li_max : lim_max (ls_limiter s) <= max_int64;
}.

Lemma loaded_kept s l t x : (forall cur, x <> Loaded cur) -> lim_max l = lim_max (ls_limiter s) ->
  (forall t' cur, thread_of s t' = Loaded cur -> cur < lim_max (ls_limiter s)) ->
  forall t' cur, thread_of (mkLimiterState l (set_thread s t x)) t' = Loaded cur -> cur < lim_max l.
Proof.
  intros Hx Hm Hl t' cur. unfold thread_of, set_thread. cbn. destruct (decide (t = t')) as [->|Hne].
  - rewrite lookup_insert_eq. cbn. intros E. by apply Hx in E.
  - rewrite lookup_insert_ne by done. rewrite Hm. apply Hl.
Qed.

Lemma limiter_step_inv s s' : limiter_step s s' -> limiter_inv s -> limiter_inv s'.
Proof.
  intros Hstep [Hc Hcap Hl Hm]. pose proof (fun t x => holders_set (ls_threads s) t x) as Hset.
  assert (Hfree : forall t, thread_of s t = Holding -> 0 < lim_active (ls_limiter s)).
  { intros t Ht. rewrite Hc. specialize (Hset t Idle). unfold thread_of in Ht. rewrite Ht in Hset. cbn in Hset.
    pose proof (Nat2Z.is_nonneg (size (filter (fun p => is_holding p.2 = true) (<[t := Idle]> (ls_threads s))))).
    unfold holders in *. lia. }
  destruct Hstep as [s t cur Ht Hcur Hlt|s t Ht Hge|s t cur Ht Hcur|s t cur Ht Hne|s t Ht|s t Ht];
    pose proof Ht as Ht'; unfold thread_of in Ht'; split; cbn [ls_limiter ls_threads lim_active lim_max set_active];
    try (apply loaded_kept; done); try (unfold set_thread; rewrite Hset, Ht'; cbn); try lia.
  - intros t' c. unfold thread_of, set_thread. cbn. destruct (decide (t = t')) as [->|Hne].
    + rewrite lookup_insert_eq. cbn. intros [= <-]. exact Hlt.
    + rewrite lookup_insert_ne by done. apply Hl.
  - specialize (Hl t cur Ht). rewrite wrap64_id by (unfold in_int64, min_int64, max_int64 in *; lia). lia.
  - specialize (Hl t cur Ht). rewrite wrap64_id by (unfold in_int64, min_int64, max_int64 in *; lia). lia.
  - specialize (Hfree t Ht). rewrite wrap64_id by (unfold in_int64, min_int64, max_int64 in *; lia). lia.
  - specialize (Hfree t Ht). rewrite wrap64_id by (unfold in_int64, min_int64, max_int64 in *; lia). lia.
Qed.

(** The limiter bounds the live connections on every interleaving.  However the atomic steps
    of any number of threads in Acquire and Release alternate, the counter equals the number of
    threads that hold a slot, and never exceeds the cap, not even for a moment. *)
Theorem limiter_bounded max l s :
  NewWebsocketConnectionLimiter max = Some l -> max <= max_int64 ->
  rtc limiter_step (mkLimiterState l ∅) s ->
  lim_active (ls_limiter s) = holders (ls_threads s) /\ 0 <= holders (ls_threads s) <= max.
Proof.
  unfold NewWebsocketConnectionLimiter. destruct (Z.leb_spec max 0) as [|Hmax]; [done|]. intros [= <-] Hm Hsteps.
  assert (Hinv : limiter_inv s /\ lim_max (ls_limiter s) = max).
  { remember (mkLimiterState _ ∅) as s0 eqn:E0.
    assert (H0 : limiter_inv s0 /\ lim_max (ls_limiter s0) = max).
    { rewrite E0. split; [split; cbn; try done; try lia|done]. }
    clear E0. induction Hsteps as [x|x y z Hxy Hyz IH]; [exact H0|]. apply IH. destruct H0 as [Hi Hx]. split.
    - by eapply limiter_step_inv.
    - destruct Hxy; exact Hx. }
  destruct Hinv as [[Hc Hcap _ _] Hx]. split; [exact Hc|]. rewrite <- Hc, <- Hx. exact Hcap.
Qed.

(** ** Idle connections *)

(** A sample that finds no new frame halves the rate, or makes it zero. *)
Lemma half_ok : fpos_ok websocketRateEWMAAlpha = true /\ fz websocketRateEWMAAlpha = 2 ^ 1073.
Proof. split; vm_compute; reflexivity. Qed.

Lemma one_minus_half : fsub f_one websocketRateEWMAAlpha = websocketRateEWMAAlpha.
Proof. vm_compute. reflexivity. Qed.

Lemma floor_ok : fpos_ok websocketRateEWMAFloor = true /\ 2 ^ 1054 <= fz websocketRateEWMAFloor.
Proof. split; vm_compute; [reflexivity|discriminate]. Qed.

Lemma zero_over elapsed : fltb f_zero elapsed = true -> fdiv (f64_of_Z 0) elapsed = f_zero.
Proof. destruct elapsed as [[]|[]| |[] m e]; done. Qed.

Lemma zero_plus x : fpos_ok x = true -> fadd f_zero x = x.
Proof. intros Hx. by destruct (fpos_ok_cases x Hx) as [->|(m & e & -> & _)]. Qed.

Lemma halved r : fpos_ok r = true ->
  let r' := fmul websocketRateEWMAAlpha r in
  fpos_ok r' = true /\ (fltb r' websocketRateEWMAFloor = false -> 2 * fz r' <= fz r /\ 2 ^ 1054 <= fz r').
Proof.
  intros Hr. destruct half_ok as [Ha Ea], floor_ok as [Hf Ef].
  assert (Hnn : 0 <= fz r) by (by apply fz_nonneg).
  assert (H2 : 2 ^ 1074 = 2 * 2 ^ 1073) by (rewrite <- Z.pow_succ_r by lia; reflexivity).
  pose proof (pow2_pos 1073 ltac:(lia)) as Hp.
  destruct (fmul_between websocketRateEWMAAlpha r f_zero r Ha Hr eq_refl Hr) as [Hok [_ Hle]].
  { rewrite Ea, H2. change (fz f_zero) with 0. nia. }
  cbv zeta. split; [exact Hok|]. intros Hfl.
  apply fltb_false_fleb in Hfl; [|by apply fpos_ok_not_nan..]. rewrite fleb_fz in Hfl by done. apply Z.leb_le in Hfl.
  split; [|lia]. destruct (fpos_ok_cases r Hr) as [->|(m & e & -> & Hb)].
  { change (fz (S754_zero false)) with 0 in Hle. pose proof (pow2_pos 1054 ltac:(lia)). lia. }
  pose proof (proj1 (bounded_iff _ _) Hb) as (B1 & B2 & B3).
  destruct (Z.eq_dec e (-1074)) as [->|Hne].
  { exfalso. cbn [fz cond_Zopp] in Hle. replace (-1074 + 1074) with 0 in Hle by lia. rewrite Z.pow_0_r in Hle.
    assert (2 ^ 53 <= 2 ^ 1054) by (apply Z.pow_le_mono_r; lia). lia. }
  assert (Hb' : fpos_ok (S754_finite false m (e - 1)) = true).
  { unfold fpos_ok, fvalid. cbn [fnonneg valid_binary andb]. apply bounded_iff. lia. }
  destruct (fmul_between websocketRateEWMAAlpha (S754_finite false m e) f_zero (S754_finite false m (e - 1)) Ha Hr eq_refl Hb') as [_ [_ Hle']].
  { rewrite Ea, H2. change (fz f_zero) with 0. cbn [fz cond_Zopp].
    replace (e + 1074) with (Z.succ (e - 1 + 1074)) by lia. rewrite Z.pow_succ_r by lia.
    pose proof (pow2_pos (e - 1 + 1074) ltac:(lia)). nia. }
  eapply Z.le_trans; [apply Z.mul_le_mono_nonneg_l; [lia|exact Hle']|]. cbn [fz cond_Zopp].
  replace (e + 1074) with (Z.succ (e - 1 + 1074)) by lia. rewrite Z.pow_succ_r by lia. lia.
Qed.

(** Samples at the given instants, with no frame in between. *)
Definition idle_samples (e : websocketConnEntry) (times : list Time) : websocketConnEntry :=
  fold_left (fun e t => sample e (Some (wce_lastFrames e)) t) times e.

(** Time passes between samples, as the source measures it. *)
Fixpoint ticking (last : Time) (times : list Time) : bool :=
  match times with
  | [] => true
  | t :: times => fltb f_zero (duration_Seconds (time_sub t last)) && ticking t times
  end.

Lemma idle_sample e t :
  fltb f_zero (duration_Seconds (time_sub t (wce_lastSample e))) = true -> fpos_ok (wce_rate e) = true ->
  let e' := sample e (Some (wce_lastFrames e)) t in
  wce_lastSample e' = t /\ fpos_ok (wce_rate e') = true /\
  (wce_rate e' = f_zero \/ 2 * fz (wce_rate e') <= fz (wce_rate e) /\ 2 ^ 1054 <= fz (wce_rate e')).
Proof.
  intros Ht Hr. unfold sample. set (elapsed := duration_Seconds _) in *.
  assert (Hpos : fleb elapsed f_zero = false) by (by apply fltb_not_fleb). rewrite Hpos, Z.ltb_irrefl, zero_over by exact Ht.
  change (fmul websocketRateEWMAAlpha f_zero) with f_zero. rewrite one_minus_half.
  destruct (halved (wce_rate e) Hr) as [Hok Hhalf]. rewrite zero_plus by exact Hok.
  cbn [wce_lastSample wce_rate]. split; [done|].
  destruct (_ && _); [change (fltb f_zero websocketRateEWMAFloor) with true; cbn; by auto|].
  destruct (fltb (fmul _ _) websocketRateEWMAFloor) eqn:E; [by auto|]. split; [exact Hok|]. right. by apply Hhalf.
Qed.

Lemma idle_bound times : forall e, ticking (wce_lastSample e) times = true -> fpos_ok (wce_rate e) = true ->
  let e' := idle_samples e times in
  fpos_ok (wce_rate e') = true /\ (wce_rate e' = f_zero \/ 2 ^ Z.of_nat (List.length times) * fz (wce_rate e') <= fz (wce_rate e) /\ (times = [] \/ 2 ^ 1054 <= fz (wce_rate e'))).
Proof.
  induction times as [|t times IH]; intros e Ht Hr; cbn [idle_samples fold_left].
  { split; [exact Hr|]. right. split; [cbn [List.length]; lia|by left]. }
  cbn [ticking] in Ht. apply andb_true_iff in Ht as [Ht Hts]. destruct (idle_sample e t Ht Hr) as (Hlast & Hok & Hcase).
  set (e1 := sample e (Some (wce_lastFrames e)) t) in *. specialize (IH e1). rewrite Hlast in IH. specialize (IH Hts Hok).
  cbv zeta in IH. fold (idle_samples e1 times). destruct IH as [Hok' IH]. split; [exact Hok'|].
  destruct IH as [Hz|[Hle Hfl]]; [by left|].
  assert (Hnn : 0 <= fz (wce_rate (idle_samples e1 times))) by (by apply fz_nonneg).
  destruct Hcase as [Hz|[Hhalf Hfl1]].
  - left. rewrite Hz in Hle. change (fz f_zero) with 0 in Hle. pose proof (pow2_pos (Z.of_nat (List.length times)) ltac:(lia)).
    assert (Hz0 : fz (wce_rate (idle_samples e1 times)) = 0) by nia.
    destruct (fpos_ok_cases _ Hok') as [->|(m & x & E & Hb)]; [done|]. exfalso. rewrite E in Hz0. cbn [fz cond_Zopp] in Hz0.
    apply bounded_iff in Hb. pose proof (pow2_pos (x + 1074) ltac:(lia)). lia.
  - right. replace (Z.of_nat (List.length (t :: times))) with (Z.succ (Z.of_nat (List.length times))) by (cbn [List.length]; lia). rewrite Z.pow_succ_r by lia.
    split; [nia|]. right. destruct Hfl as [->|Hfl]; [exact Hfl1|exact Hfl].
Qed.

(** The rate of an idle connection reaches zero, and soon.  A connection that delivered fewer
    than [2 ^ j] frames per second reports exactly zero after [j + 20] samples without a frame:
    about nine minutes of silence for a connection at 60,000 frames per second. *)
Theorem idle_rate_reaches_zero e times j :
  fpos_ok (wce_rate e) = true -> 0 <= j <= 52 -> fltb (wce_rate e) (f64_of_Z (2 ^ j)) = true ->
  ticking (wce_lastSample e) times = true -> j + 20 <= Z.of_nat (List.length times) ->
  wce_rate (idle_samples e times) = f_zero.
Proof.
  intros Hr Hj Hlt Ht Hn. destruct (idle_bound times e Ht Hr) as [Hok [Hz|[Hle Hfl]]]; [exact Hz|]. exfalso.
  assert (H2j : 0 <= 2 ^ j < 2 ^ 53) by (split; [apply Z.pow_nonneg; lia|apply Z.pow_lt_mono_r; lia]).
  destruct (f64_of_Z_exact (2 ^ j) H2j) as [Hf Ef].
  assert (Hfz : fz (wce_rate e) < 2 ^ j * 2 ^ 1074).
  { apply fltb_not_fleb in Hlt. rewrite fleb_fz, Ef in Hlt by done. by apply Z.leb_gt in Hlt. }
  destruct Hfl as [->|Hfl]; [cbn in Hn; lia|].
  assert (2 ^ (j + 20) <= 2 ^ Z.of_nat (List.length times)) by (apply Z.pow_le_mono_r; lia).
  assert (2 ^ (j + 20) * 2 ^ 1054 = 2 ^ j * 2 ^ 1074) by (rewrite <- !Z.pow_add_r by lia; f_equal; lia).
  pose proof (pow2_pos 1054 ltac:(lia)). pose proof (pow2_pos (j + 20) ltac:(lia)). nia.
Qed.

(** ** The registry *)

(** No service is kept without a connection. *)
Definition registry_wf (r : registry) : Prop := forall sid, r !! sid <> Some ∅.

(** The entry of a connection. *)
Definition entry_of (r : registry) (sid : ServiceID) (c : conn) : option websocketConnEntry := r !! sid ≫= (fun svc => svc !! c).

Lemma wf_register r now sid c ctl d s : registry_wf r -> registry_wf (register r now sid c ctl d s).
Proof.
  intros Hwf sid'. unfold register. destruct c as [c|], ctl as [ctl|]; try apply Hwf.
  destruct (decide (sid = sid')) as [->|Hne]; [rewrite lookup_insert_eq|rewrite lookup_insert_ne by done; apply Hwf].
  intros [= E]. by apply insert_non_empty in E.
Qed.

Lemma wf_deregister r sid c : registry_wf r -> registry_wf (deregister r sid c).
Proof.
  intros Hwf sid'. unfold deregister. destruct c as [c|]; [|apply Hwf]. destruct (r !! sid) as [svc|]; [|apply Hwf].
  case_bool_decide as E; destruct (decide (sid = sid')) as [->|Hne].
  - by rewrite lookup_delete_eq.
  - rewrite lookup_delete_ne by done. apply Hwf.
  - rewrite lookup_insert_eq. congruence.
  - rewrite lookup_insert_ne by done. apply Hwf.
Qed.

Lemma entry_deregister r sid c sid' c' : entry_of (deregister r sid (Some c)) sid' c' =
  if decide (sid = sid' /\ c = c') then None else entry_of r sid' c'.
Proof.
  unfold entry_of, deregister. destruct (r !! sid) as [svc|] eqn:E.
  - case_bool_decide as Hs; destruct (decide (sid = sid')) as [->|Hne].
    + rewrite lookup_delete_eq, E. cbn. case_decide as Hd; [done|].
      assert (Hc : c <> c') by naive_solver. pose proof (lookup_delete_ne svc c c' Hc) as L. by rewrite Hs, lookup_empty in L.
    + rewrite lookup_delete_ne by done. case_decide; [naive_solver|done].
    + rewrite lookup_insert_eq, E. cbn. case_decide as Hd; [destruct Hd as [_ ->]; apply lookup_delete_eq|].
      apply lookup_delete_ne. naive_solver.
    + rewrite lookup_insert_ne by done. case_decide; [naive_solver|done].
  - case_decide as Hd; [|done]. destruct Hd as [<- _]. by rewrite E.
Qed.

Lemma wf_empty r : registry_wf r -> (forall sid c, entry_of r sid c = None) -> r = ∅.
Proof.
  intros Hwf Hnone. apply map_eq. intros sid. rewrite lookup_empty. destruct (r !! sid) as [svc|] eqn:E; [|done].
  exfalso. apply (Hwf sid). rewrite E. f_equal. apply map_eq. intros c. specialize (Hnone sid c). unfold entry_of in Hnone.
  rewrite E in Hnone. by rewrite lookup_empty.
Qed.

Lemma all_conns_in r sid c : In (sid, c) (all_conns r) <-> is_Some (entry_of r sid c).
Proof.
  unfold all_conns, entry_of. rewrite <- list_elem_of_In, list_elem_of_In, in_concat. split.
  - intros (l & Hl & Hin). apply in_map_iff in Hl as ([sid0 svc] & <- & Hr). apply in_map_iff in Hin as ([c0 e] & [= <- <-] & He).
    apply list_elem_of_In, elem_of_map_to_list in Hr. apply list_elem_of_In, elem_of_map_to_list in He. rewrite Hr. cbn. by eexists.
  - intros [e He]. destruct (r !! sid) as [svc|] eqn:E; [|done]. cbn in He.
    exists (map (fun '(c, _) => (sid, c)) (map_to_list svc)). split; apply in_map_iff.
    + exists (sid, svc). split; [done|]. by apply list_elem_of_In, elem_of_map_to_list.
    + exists (c, e). split; [done|]. by apply list_elem_of_In, elem_of_map_to_list.
Qed.

Lemma deregister_all l : forall r, registry_wf r ->
  let r' := fold_left (fun r '(sid, c) => deregister r sid (Some c)) l r in
  registry_wf r' /\ forall sid c, entry_of r' sid c = if decide ((sid, c) ∈ l) then None else entry_of r sid c.
Proof.
  induction l as [|[sid0 c0] l IH]; intros r Hwf; cbn [fold_left].
  { split; [exact Hwf|]. intros sid c. rewrite decide_False; [done|apply not_elem_of_nil]. }
  destruct (IH (deregister r sid0 (Some c0)) (wf_deregister _ _ _ Hwf)) as [Hwf' Hent]. split; [exact Hwf'|].
  intros sid c. rewrite Hent, entry_deregister. destruct (decide ((sid, c) ∈ l)) as [Hin|Hin].
  - rewrite decide_True; [done|]. apply elem_of_cons. by right.
  - destruct (decide (sid0 = sid /\ c0 = c)) as [[-> ->]|Hne]; [rewrite decide_True; [done|apply elem_of_cons; by left]|].
    rewrite decide_False; [done|]. rewrite elem_of_cons. intros [[= -> ->]|?]; [by apply Hne|done].
Qed.

(** A shutdown leaves exactly what it did not finish.  It reports the number of bridges whose
    close completed; those are gone from the registry, every other connection is still in it, and
    when all completed the registry is empty. *)
Theorem shutdown_exact r finished :
  registry_wf r ->
  let '(n, r') := shutdownAll r finished in
  (n = 0 -> r' = r) /\
  (forall sid c, entry_of r' sid c = if finished (sid, c) then None else entry_of r sid c) /\
  ((forall sid c, is_Some (entry_of r sid c) -> finished (sid, c) = true) -> n = Z.of_nat (List.length (all_conns r)) /\ r' = ∅).
Proof.
  intros Hwf. unfold shutdownAll. set (closed := List.filter finished (all_conns r)).
  destruct (deregister_all closed r Hwf) as [Hwf' Hent]. cbv zeta in *. split; [|split].
  - intros Hz. destruct closed; [done|cbn in Hz; lia].
  - intros sid c. rewrite Hent. unfold closed. destruct (decide _) as [Hin|Hin].
    + apply list_elem_of_In, filter_In in Hin as [_ ->]. done.
    + destruct (finished (sid, c)) eqn:Ef; [|done]. destruct (entry_of r sid c) as [e|] eqn:Ee; [|done].
      exfalso. apply Hin, list_elem_of_In, filter_In. split; [|exact Ef]. apply all_conns_in. by rewrite Ee.
  - intros Hall. assert (Hf : closed = all_conns r).
    { unfold closed. apply List.forallb_filter_id, forallb_forall. intros [sid c] Hin. by apply Hall, all_conns_in. }
    rewrite Hf in *. split; [done|]. apply wf_empty; [exact Hwf'|]. intros sid c. rewrite Hent.
    case_decide as Hd; [done|]. destruct (entry_of r sid c) as [e|] eqn:Ee; [|done]. exfalso. apply Hd, list_elem_of_In, all_conns_in. by rewrite Ee.
Qed.

(** ** Tumble *)

(** What a candidate counts as. *)
Definition moves (req : WebsocketTumbleRequest) (accepts : conn -> bool) (c : candidate) : bool :=
  tr_DryRun req || accepts (cd_conn c).
Definition moved_count (req : WebsocketTumbleRequest) (accepts : conn -> bool) (l : list candidate) : Z :=
  Z.of_nat (List.length (List.filter (moves req accepts) l)).

Lemma tumble_loop_spec req accepts cs : forall res,
  (0 < tr_Max req -> tt_Tumbled res <= tr_Max req) ->
  exists done left, cs = (done ++ left)%list /\
    let '(res', called) := tumble_loop req accepts cs res in
    tt_Tumbled res' = tt_Tumbled res + moved_count req accepts done /\
    tt_Skipped res' = tt_Skipped res + (Z.of_nat (List.length done) - moved_count req accepts done) /\
    tt_Total res' = tt_Total res /\ tt_Matched res' = tt_Matched res /\
    (0 < tr_Max req -> tt_Tumbled res' <= tr_Max req) /\
    (left <> [] -> 0 < tr_Max req /\ tt_Tumbled res' = tr_Max req) /\
    called = if tr_DryRun req then [] else map cd_conn done.
Proof.
  induction cs as [|c cs IH]; intros res Hcap; cbn [tumble_loop].
  { exists [], []. split; [done|]. unfold moved_count. cbn. repeat split; try lia; try done. by destruct (tr_DryRun req). }
  destruct ((0 <? tr_Max req) && (tr_Max req <=? tt_Tumbled res)) eqn:Estop.
  { breflect. exists [], (c :: cs). split; [done|]. unfold moved_count. cbn.
    repeat split; try lia; try done. by destruct (tr_DryRun req). }
  assert (Hlt : 0 < tr_Max req -> tt_Tumbled res < tr_Max req).
  { intros Hp. apply andb_false_iff in Estop as [E|E]; breflect; lia. }
  assert (Hcount : forall l, moved_count req accepts (c :: l) = (if moves req accepts c then 1 else 0) + moved_count req accepts l).
  { intros l. unfold moved_count. cbn [List.filter]. destruct (moves req accepts c); cbn [List.length]; lia. }
  set (res1 := if moves req accepts c then tumbled_one res c else skipped_one res).
  assert (Hcap1 : 0 < tr_Max req -> tt_Tumbled res1 <= tr_Max req).
  { intros Hp. specialize (Hlt Hp). unfold res1. destruct (moves req accepts c); cbn; lia. }
  destruct (IH res1 Hcap1) as (done & left & -> & Hspec). exists (c :: done), left. split; [done|].
  assert (Hloop : (if tr_DryRun req then tumble_loop req accepts (done ++ left) (tumbled_one res c)
     else let '(r, called) := tumble_loop req accepts (done ++ left) (if accepts (cd_conn c) then tumbled_one res c else skipped_one res) in
          (r, cd_conn c :: called)) =
     let '(r, called) := tumble_loop req accepts (done ++ left) res1 in (r, if tr_DryRun req then called else cd_conn c :: called)).
  { unfold res1, moves. destruct (tr_DryRun req); cbn [orb]; [|reflexivity].
    by destruct (tumble_loop req accepts (done ++ left) (tumbled_one res c)). }
  rewrite Hloop. clear Hloop. destruct (tumble_loop req accepts (done ++ left) res1) as [res' called].
  destruct Hspec as (H1 & H2 & H3 & H4 & H5 & H6 & H7). rewrite Hcount. cbn [List.length map].
  assert (Ht : tt_Tumbled res1 = tt_Tumbled res + (if moves req accepts c then 1 else 0) /\
               tt_Skipped res1 = tt_Skipped res + (if moves req accepts c then 0 else 1) /\
               tt_Total res1 = tt_Total res /\ tt_Matched res1 = tt_Matched res).
  { unfold res1. destruct (moves req accepts c); cbn; lia. }
  destruct Ht as (T1 & T2 & T3 & T4). rewrite H1, H2, T1, T2, H3, H4.
  split; [lia|]. split; [destruct (moves req accepts c); lia|]. split; [exact T3|]. split; [exact T4|].
  rewrite H1, T1 in H5, H6. split; [intros Hp; specialize (H5 Hp); lia|].
  split; [intros Hl; destruct (H6 Hl) as [? ?]; split; [done|lia]|]. rewrite H7. by destruct (tr_DryRun req).
Qed.

(** The comparison behind the less function. *)
Definition tumble_cmp (byCount : bool) (counts : gmap string Z) (rates : gmap string float64) : candidate -> candidate -> comparison :=
  let float_cmp f := cmp_inv (cmp_on f (cmp_on frank lex_compare)) in
  cmp_lex (if byCount then cmp_inv (cmp_on (fun c => default 0 (counts !! cd_domain c)) Z.compare)
           else float_cmp (fun c => default f_zero (rates !! cd_domain c)))
    (cmp_lex (float_cmp cd_rate) (cmp_on cd_domain String.compare)).

Lemma good_tumble_cmp byCount counts rates : good_cmp (tumble_cmp byCount counts rates).
Proof.
  apply good_lex; [destruct byCount; [apply good_inv, good_on, good_Z|apply good_inv, good_on, good_float]|].
  apply good_lex; [apply good_inv, good_on, good_float|apply good_on, good_string].
Qed.

Lemma tumble_less_cmp byCount counts rates x y :
  is_nan (cd_rate x) = false -> is_nan (cd_rate y) = false ->
  (forall d, is_nan (default f_zero (rates !! d)) = false) ->
  tumble_less byCount counts rates x y = cmp_less (tumble_cmp byCount counts rates) x y.
Proof.
  intros Hx Hy Hd. unfold tumble_less, tumble_cmp.
  pose proof (float_desc_first cd_rate (cmp_on cd_domain String.compare) x y Hx Hy) as E.
  change (cmp_less (cmp_on cd_domain String.compare) x y) with (String.ltb (cd_domain x) (cd_domain y)) in E. rewrite E.
  destruct byCount; [apply (int_desc_first (fun c => default 0 (counts !! cd_domain c)))|]. apply (float_desc_first (fun c => default f_zero (rates !! cd_domain c))); apply Hd.
Qed.

(** No rate is NaN, nor any sum of them. *)
Definition rates_ok (svc : list (conn * websocketConnEntry)) : Prop :=
  Forall (fun p => is_nan (wce_rate p.2) = false) svc /\ forall d, is_nan (default f_zero (domain_throughput svc !! d)) = false.

(** A capped tumble is spent where it moves the most load.  The connections it acts on are
    the first of the matching ones in the requested order, by the throughput (or the number of
    connections) of their operator and then their own rate: none left out ranks before one acted
    on.  It moves at most [Max] of them, and leaves some out only when it has moved [Max]; the
    others it acted on are counted as skipped, and a dry run calls no controller. *)
Theorem tumble_heaviest_first r order accepts req svc :
  svc = order (map_to_list (default ∅ (r !! tr_ServiceID req))) -> svc ≡ₚ map_to_list (default ∅ (r !! tr_ServiceID req)) ->
  rates_ok svc -> svc <> [] ->
  let less := tumble_less (effective_order req =? TumbleOrderConnections)%string (domain_counts svc) (domain_throughput svc) in
  let '(res, called) := tumble (Some r) order accepts req in
  exists acted left, (acted ++ left ≡ₚ candidates req svc)%list /\
    (forall x y, In x acted -> In y left -> less y x = false) /\
    tt_Tumbled res = moved_count req accepts acted /\
    tt_Tumbled res + tt_Skipped res = Z.of_nat (List.length acted) /\
    tt_Total res = Z.of_nat (List.length svc) /\ tt_Matched res = Z.of_nat (List.length (candidates req svc)) /\
    (0 < tr_Max req -> tt_Tumbled res <= tr_Max req) /\
    (left <> [] -> 0 < tr_Max req /\ tt_Tumbled res = tr_Max req) /\
    called = if tr_DryRun req then [] else map cd_conn acted.
Proof.
  intros Hsvc Hperm [Hnan Hsum] Hne less. unfold tumble.
  destruct (map_to_list (default ∅ (r !! tr_ServiceID req))) as [|e0 es] eqn:Ees.
  { exfalso. apply Hne. by apply Permutation_nil. }
  rewrite <- Hsvc. fold less. set (cands := candidates req svc). set (srt := slice_stable less cands).
  assert (Hsorted : sorted_by less srt).
  { assert (Hc : forall x, In x cands -> is_nan (cd_rate x) = false).
    { intros x Hx. apply in_map_iff in Hx as ([c e] & <- & Hin). apply filter_In in Hin as [Hin _]. cbn.
      rewrite Forall_forall in Hnan. apply (Hnan (c, e)). by apply list_elem_of_In. }
    set (less' := cmp_less (tumble_cmp (effective_order req =? TumbleOrderConnections)%string (domain_counts svc) (domain_throughput svc))).
    assert (Heq : forall x y, In x cands -> In y cands -> less x y = less' x y) by (intros x y Hx Hy; apply tumble_less_cmp; auto).
    assert (Hs' : sorted_by less' srt).
    { unfold srt. rewrite (slice_stable_ext less less' cands Heq). apply slice_stable_sorted, weak_order_cmp, good_tumble_cmp. }
    assert (Hin : forall x, In x srt -> In x cands) by (intros x; apply Permutation_in, slice_stable_perm).
    clear -Hs' Heq Hin. unfold sorted_by in *. induction Hs' as [|x l Hl IH Hx]; constructor.
    - apply IH. intros y Hy. apply Hin. by right.
    - apply Forall_forall. intros y Hy. rewrite Forall_forall in Hx. rewrite Heq; [by apply Hx| |].
      + apply Hin. right. by apply list_elem_of_In.
      + apply Hin. by left. }
  destruct (tumble_loop_spec req accepts srt (mkTumbleResult (Z.of_nat (List.length svc)) (Z.of_nat (List.length cands)) 0 0 ∅
    (domain_counts svc) (domain_throughput svc) ∅ (effective_order req))) as (acted & left & Hsplit & Hspec); [cbn; lia|].
  destruct (tumble_loop req accepts srt _) as [res called]. destruct Hspec as (H1 & H2 & H3 & H4 & H5 & H6 & H7). cbn in *.
  exists acted, left. split; [rewrite <- Hsplit; apply slice_stable_perm|]. split.
  { intros x y Hx Hy. apply (sorted_take_drop less srt (List.length acted)); [exact Hsorted|..]; rewrite Hsplit.
    - by rewrite take_app_length.
    - by rewrite drop_app_length. }
  repeat (split; [lia || done|]). done.
Qed.

(** ** Witnesses *)

Definition demo_limiter_run : limiter_state :=
  mkLimiterState (mkLimiter 1 1) (<[1%nat := Idle]> (<[0%nat := Holding]> (<[1%nat := Loaded 0]> (<[0%nat := Loaded 0]> ∅)))).

Lemma limiter_bounded_witness :
  lim_active (ls_limiter demo_limiter_run) = holders (ls_threads demo_limiter_run) /\ 0 <= holders (ls_threads demo_limiter_run) <= 1.
Proof.
  apply (limiter_bounded 1 (mkLimiter 1 0)); [reflexivity|vm_compute; discriminate|].
  eapply rtc_l; [by apply (StepLoad _ 0 0)|]. eapply rtc_l; [by apply (StepLoad _ 1 0)|].
  eapply rtc_l; [by apply (StepSwap _ 0 0)|]. eapply rtc_l; [by apply (StepRetry _ 1 0)|]. apply rtc_refl.
Defined.

Definition demo_conn (domain : string) (rate : Z) : websocketConnEntry := mkConnEntry 1 domain "pokt1a" (f64_of_Z rate) 9000 0.

Lemma idle_rate_reaches_zero_witness :
  wce_rate (idle_samples (demo_conn "big.com" 232) (map (fun i => Z.of_nat i * 15 * second) (seq 1 28))) = f_zero.
Proof.
  apply (idle_rate_reaches_zero (demo_conn "big.com" 232) (map (fun i => Z.of_nat i * 15 * second) (seq 1 28)) 8);
    [vm_compute; reflexivity|lia|vm_compute; reflexivity|vm_compute; reflexivity|vm_compute; discriminate].
Defined.

Definition demo_ws_registry : registry :=
  {["eth" := {[1 := demo_conn "big.com" 232; 2 := demo_conn "big.com" 2; 3 := demo_conn "small.io" 5]}]}.

Lemma shutdown_exact_witness :
  let '(n, r') := shutdownAll demo_ws_registry (fun p => negb (snd p =? 2)) in
  (n = 0 -> r' = demo_ws_registry) /\
  (forall sid c, entry_of r' sid c = if negb (c =? 2) then None else entry_of demo_ws_registry sid c) /\
  ((forall sid c, is_Some (entry_of demo_ws_registry sid c) -> negb (c =? 2) = true) ->
   n = Z.of_nat (List.length (all_conns demo_ws_registry)) /\ r' = ∅).
Proof.
  apply (shutdown_exact demo_ws_registry (fun p => negb (snd p =? 2))). intros sid. unfold demo_ws_registry.
  destruct (decide ("eth" = sid)) as [<-|Hne]; [vm_compute; discriminate|by rewrite lookup_singleton_ne].
Defined.

Definition demo_tumble : WebsocketTumbleRequest := mkTumbleRequest "eth" "" 1 "throughput" false.

Lemma tumble_heaviest_first_witness :
  snd (tumble (Some demo_ws_registry) (fun l => l) (fun _ => true) demo_tumble) = [1] /\
  tt_Tumbled (fst (tumble (Some demo_ws_registry) (fun l => l) (fun _ => true) demo_tumble)) <= 1.
Proof.
  split; [vm_compute; reflexivity|].
  pose proof (tumble_heaviest_first demo_ws_registry (fun l => l) (fun _ => true) demo_tumble
    (map_to_list (default ∅ (demo_ws_registry !! "eth"))) eq_refl (Permutation_refl _)) as T.
  cbv zeta in T. destruct (tumble _ _ _ demo_tumble) as [res called]. cbn [fst].
  destruct T as (acted & left & _ & _ & _ & _ & _ & _ & Hcap & _).
  - split; [repeat (apply Forall_cons; split); try apply Forall_nil; vm_compute; reflexivity|].
    intros d. destruct (decide (d = "big.com")) as [->|H1]; [vm_compute; reflexivity|].
    destruct (decide (d = "small.io")) as [->|H2]; [vm_compute; reflexivity|].
    assert (E : domain_throughput (map_to_list (default ∅ (demo_ws_registry !! "eth"))) =
      {["big.com" := f64_of_Z 234; "small.io" := f64_of_Z 5]}) by (vm_compute; reflexivity).
    change (is_nan (default f_zero (domain_throughput (map_to_list (default ∅ (demo_ws_registry !! "eth"))) !! d)) = false).
    by rewrite E, lookup_insert_ne, lookup_singleton_ne.
  - vm_compute. discriminate.
  - apply Hcap. reflexivity.
Defined.
