(* ===== verification/Leader.v ===== *)
(** * Leader election for health checks: gateway/health_check_leader.go

    One elector per gateway process, all sharing one Redis (the interface of Redis.v).  The ticks
    of the leadership loops, stops, crashes and the passage of time interleave in any order, as a
    step relation over the fleet; a command of a tick or of a stop may also fail, with or without
    having taken effect. *)

From S2P Require Import Prelude GoStrings Float64 Rounding Redis.
From Stdlib Require Import ZArith Lia Bool Ascii String.
From stdpp Require Import base gmap strings fin_maps relations list.

Open Scope string_scope.
Open Scope Z_scope.

(** ** The elector *)

Record LeaderElectionConfig := mkLeaderConfig {
  lec_Type : string;
  lec_LeaseDuration : Duration;
  lec_RenewInterval : Duration;
  lec_Key : string;
}.

Definition DefaultLeaderLeaseDuration : Duration := 30 * second.
Definition DefaultLeaderRenewInterval : Duration := 10 * second.
Definition DefaultLeaderKey : string := "path:health_check_leader".

Definition LeaderElectionConfig_HydrateDefaults (c : LeaderElectionConfig) : LeaderElectionConfig :=
  mkLeaderConfig (lec_Type c)
    (if lec_LeaseDuration c =? 0 then DefaultLeaderLeaseDuration else lec_LeaseDuration c)
    (if lec_RenewInterval c =? 0 then DefaultLeaderRenewInterval else lec_RenewInterval c)
    (if (lec_Key c =? "")%string then DefaultLeaderKey else lec_Key c).

Record LeaderElector := mkElector {
  le_config : LeaderElectionConfig;
  le_instanceID : string;
  le_isLeader : bool;
}.

(** The instance ID is made of host name, process and time by the caller. *)
Definition NewLeaderElector (config : LeaderElectionConfig) (hasClient : bool) (instanceID : string) : option LeaderElector :=
  if (lec_Type config =? "none")%string || negb hasClient then None else Some (mkElector config instanceID false).

Definition set_leader (l : LeaderElector) (b : bool) : LeaderElector := mkElector (le_config l) (le_instanceID l) b.

(** [int(LeaseDuration.Seconds())] *)
Definition leaseSeconds (c : LeaderElectionConfig) : Z := lec_LeaseDuration c ÷ second.
Definition lease (c : LeaderElectionConfig) : Duration := leaseSeconds c * second.

(** The scripts: act only on a key of one's own. *)
Definition owns (ks : keyspace) (key instanceID : string) : bool :=
  match ref_Get ks key with Ok (Some v) => (v =? instanceID)%string | _ => false end.

Definition renew_script (key instanceID : string) (seconds : Z) : redis_script := fun now ks =>
  match ref_Get ks key with
  | Err e => (Err e, ks)
  | Ok _ => if owns ks key instanceID then (Ok 1, snd (ref_cmd now ks (EXPIRE key (seconds * second)))) else (Ok 0, ks)
  end.

Definition release_script (key instanceID : string) : redis_script := fun now ks =>
  match ref_Get ks key with
  | Err e => (Err e, ks)
  | Ok _ => if owns ks key instanceID then (Ok 1, delete key ks) else (Ok 0, ks)
  end.

Section Elector.
Context {Rd : Type} `{Redis Rd}.

Definition renewLeadership (l : LeaderElector) (rd : Rd) : bool * LeaderElector * Rd :=
  let '(x, rd) := rd_Eval rd (renew_script (lec_Key (le_config l)) (le_instanceID l) (leaseSeconds (le_config l))) in
  match x with
  | Ok 1 => (true, set_leader l true, rd)
  | _ => (false, set_leader l false, rd)
  end.

Definition tryAcquireLeadership (l : LeaderElector) (rd : Rd) : bool * LeaderElector * Rd :=
  if le_isLeader l then renewLeadership l rd
  else
    let '(x, rd) := rd_SetNX rd (lec_Key (le_config l)) (le_instanceID l) (lease (le_config l)) in
    match x with
    | Ok true => (true, set_leader l true, rd)
    | _ => (false, set_leader l false, rd)
    end.

Definition releaseLeadership (l : LeaderElector) (rd : Rd) : LeaderElector * Rd :=
  let '(x, rd) := rd_Eval rd (release_script (lec_Key (le_config l)) (le_instanceID l)) in
  match x with
  | Ok _ => (set_leader l false, rd)
  | Err _ => (l, rd)
  end.

Definition elector_Stop (l : LeaderElector) (rd : Rd) : LeaderElector * Rd :=
  if le_isLeader l then releaseLeadership l rd else (l, rd).

Definition GetLeaderInstanceID (l : LeaderElector) (rd : Rd) : string :=
  match rd_Get rd (lec_Key (le_config l)) with Ok (Some s) => s | _ => "" end.

(** ** The fleet *)

(** Electors by instance ID, the shared server, when each last heard that it leads, and the
    instances whose [Stop] was called. *)
Record fleet := mkFleet {
  fl_electors : gmap string LeaderElector;
  fl_redis : Rd;
  fl_lastOK : gmap string Time;
  fl_stopped : gset string;
}.

Definition confirm (ok : bool) (id : string) (t : Time) (oks : gmap string Time) : gmap string Time :=
  if ok then <[id := t]> oks else oks.

Definition after_try (f : fleet) (id : string) (x : bool * LeaderElector * Rd) : fleet :=
  let '(ok, l, rd) := x in
  mkFleet (<[id := l]> (fl_electors f)) rd (confirm ok id (rd_clock rd) (fl_lastOK f)) (fl_stopped f).

Definition after_stop (f : fleet) (id : string) (x : LeaderElector * Rd) : fleet :=
  let '(l, rd) := x in mkFleet (<[id := l]> (fl_electors f)) rd (fl_lastOK f) ({[id]} ∪ fl_stopped f).

(** [Stop] while an attempt of the loop is in flight: the server runs the attempt, then what [Stop]
    sends on the flag as it was, and the attempt's reply sets the flag last. *)
Definition stop_race (f : fleet) (id : string) (l : LeaderElector) : fleet :=
  let '(ok, _, rd1) := tryAcquireLeadership l (fl_redis f) in
  let '(l2, rd2) := elector_Stop l rd1 in
  mkFleet (<[id := set_leader l2 ok]> (fl_electors f)) rd2 (confirm ok id (rd_clock rd1) (fl_lastOK f)) ({[id]} ∪ fl_stopped f).

Inductive fleet_step : fleet -> fleet -> Prop :=
| FleetTick f id l : fl_electors f !! id = Some l -> fleet_step f (after_try f id (tryAcquireLeadership l (fl_redis f)))
  (* the command timed out: it ran on the server or it did not, and leadership is given up *)
| FleetTimeout f id l rd : fl_electors f !! id = Some l ->
    rd = fl_redis f \/ rd = snd (tryAcquireLeadership l (fl_redis f)) ->
    fleet_step f (mkFleet (<[id := set_leader l false]> (fl_electors f)) rd (fl_lastOK f) (fl_stopped f))
| FleetStop f id l : fl_electors f !! id = Some l -> fleet_step f (after_stop f id (elector_Stop l (fl_redis f)))
  (* the release timed out: it ran on the server or it did not, and the flag stays set *)
| FleetStopTimeout f id l rd : fl_electors f !! id = Some l -> le_isLeader l = true ->
    rd = fl_redis f \/ rd = snd (releaseLeadership l (fl_redis f)) ->
    fleet_step f (after_stop f id (l, rd))
| FleetStopRace f id l : fl_electors f !! id = Some l -> fleet_step f (stop_race f id l)
  (* the process goes away without [Stop] *)
| FleetCrash f id : fleet_step f (mkFleet (delete id (fl_electors f)) (fl_redis f) (fl_lastOK f) (fl_stopped f))
| FleetWait f t : rd_clock (fl_redis f) <= t ->
    fleet_step f (mkFleet (fl_electors f) (rd_advance (fl_redis f) t) (fl_lastOK f) (fl_stopped f)).

(** The fleet undisturbed: the loops of the instances that run tick and time passes; no command
    fails, no instance stops or crashes. *)
Inductive calm_step : fleet -> fleet -> Prop :=
| CalmTick f id l : fl_electors f !! id = Some l -> id ∉ fl_stopped f ->
    calm_step f (after_try f id (tryAcquireLeadership l (fl_redis f)))
| CalmWait f t : rd_clock (fl_redis f) <= t ->
    calm_step f (mkFleet (fl_electors f) (rd_advance (fl_redis f) t) (fl_lastOK f) (fl_stopped f)).

(** A fleet as it starts: distinct instances of one configuration, none of them leader. *)
Record fleet_start (config : LeaderElectionConfig) (f : fleet) : Prop := {
  fs_electors : forall id l, fl_electors f !! id = Some l -> l = mkElector config id false;
  fs_lastOK : fl_lastOK f = ∅;
  fs_stopped : fl_stopped f = ∅;
}.
End Elector.
Arguments fleet Rd : clear implicits.

(** ** What leader election guarantees, and what it does not

    The invariant ties the flag of each elector to the key in Redis for as long as its lease runs.
    It gives at most one leader within its lease among the instances that were not stopped, and
    recovery after a crash; two instances can nevertheless both believe they lead, a release that
    times out leaves its flag behind, and a lease below one second is never given back. *)

Open Scope string_scope.
Open Scope Z_scope.

Section Fleet.
Context {Rd : Type} `{RdI : Redis Rd} {keys : Rd -> keyspace} {RdL : RedisLaws Rd keys}.
Variable config : LeaderElectionConfig.

Implicit Types (f : fleet Rd) (l : LeaderElector) (id : string).

Definition leads f id : Prop := exists l, fl_electors f !! id = Some l /\ le_isLeader l = true.
Definition clock f : Time := rd_clock (fl_redis f).
Definition leader_entry f : option redis_entry := keys (fl_redis f) !! lec_Key config.

(** An instance whose last confirmation is younger than the lease. *)
Definition leads_fresh f id : Prop :=
  leads f id /\ exists t, fl_lastOK f !! id = Some t /\ clock f < time_add t (lease config).

Definition same_config f : Prop :=
  forall id l, fl_electors f !! id = Some l -> le_config l = config /\ le_instanceID l = id.

Definition flags_backed f : Prop := forall id, id ∉ fl_stopped f -> leads f id ->
  exists t, fl_lastOK f !! id = Some t /\ t <= clock f /\
    (clock f < time_add t (lease config) -> leader_entry f = Some (RString id, Some (time_add t (lease config)))).

(** ** One attempt on the server *)

Lemma setnx_spec (rd : Rd) k v ttl x rd' : rd_SetNX rd k v ttl = (x, rd') ->
  rd_clock rd' = rd_clock rd /\
  match keys rd !! k with
  | Some _ => x = Ok false /\ keys rd' = keys rd
  | None => x = Ok true /\ keys rd' = <[k := (RString v, if 0 <? ttl then Some (time_add (rd_clock rd) ttl) else None)]> (keys rd)
  end.
Proof.
  intros E. pose proof (rl_setnx (Rd := Rd) (keys := keys) rd k v ttl) as L. rewrite E in L.
  unfold ref_SetNX in L. destruct (keys rd !! k); destruct L as [L C]; split; auto; by injection L as -> ->.
Qed.

Lemma eval_spec (rd : Rd) s x rd' : rd_Eval rd s = (x, rd') ->
  (x, keys rd') = s (rd_clock rd) (keys rd) /\ rd_clock rd' = rd_clock rd.
Proof. intros E. pose proof (rl_eval (Rd := Rd) (keys := keys) rd s) as L. by rewrite E in L. Qed.

Lemma expire_at_lease (t : Time) : 1 <= leaseSeconds config ->
  expire_at t (leaseSeconds config * second) = time_add t (lease config).
Proof.
  intros P. unfold expire_at, lease. f_equal. unfold expire_seconds.
  rewrite (proj2 (Z.ltb_ge (leaseSeconds config * second) second)), andb_false_r by (unfold second, millisecond in *; lia).
  f_equal. apply Z.quot_mul. unfold second, millisecond. lia.
Qed.

(** What one attempt does to the key, the flag and the clock. *)
Definition attempt_outcome l (rd : Rd) (ok : bool) l' (rd' : Rd) : Prop :=
  let key := lec_Key (le_config l) in let e := time_add (rd_clock rd) (lease config) in
  l' = set_leader l ok /\ rd_clock rd' = rd_clock rd /\
  if ok then
    (keys rd !! key = None \/ exists x, keys rd !! key = Some (RString (le_instanceID l), x)) /\
    keys rd' = <[key := (RString (le_instanceID l), Some e)]> (keys rd)
  else keys rd' = keys rd.

Lemma time_add_lease_later (t : Time) : 1 <= leaseSeconds config -> t < time_add t (lease config).
Proof. intros P. unfold time_add, lease, second, millisecond. lia. Qed.

Lemma lease_positive : 1 <= leaseSeconds config -> (0 <? lease config) = true.
Proof. intros P. apply Z.ltb_lt. unfold lease, second, millisecond. lia. Qed.

Lemma owns_entry (ks : keyspace) key id : owns ks key id = true -> exists e, ks !! key = Some (RString id, e).
Proof.
  unfold owns, ref_Get. destruct (ks !! key) as [[[s|h] e]|]; try discriminate.
  intros ->%String.eqb_eq. by exists e.
Qed.

Lemma renew_outcome l (rd : Rd) : le_config l = config -> 1 <= leaseSeconds config ->
  let '(ok, l', rd') := renewLeadership l rd in attempt_outcome l rd ok l' rd'.
Proof.
  intros C P. unfold renewLeadership. rewrite C.
  destruct (rd_Eval rd _) as [x rd'] eqn:E. apply eval_spec in E as [E Ck]. revert E. unfold renew_script.
  destruct (ref_Get (keys rd) (lec_Key config)) as [g|err] eqn:G; [|by intros [= -> Hk]; split_and!].
  destruct (owns (keys rd) (lec_Key config) (le_instanceID l)) eqn:O; [|by intros [= -> Hk]; split_and!].
  apply owns_entry in O as [e L]. cbn [ref_cmd]. rewrite L. cbn [snd]. unfold put_expiry.
  rewrite (expire_at_lease _ P). pose proof (time_add_lease_later (rd_clock rd) P) as Hl.
  rewrite (proj2 (Z.leb_gt _ _) Hl). intros [= -> Hk]. unfold attempt_outcome. rewrite C. split_and!; eauto.
Qed.

Lemma attempt l (rd : Rd) : le_config l = config -> 1 <= leaseSeconds config ->
  let '(ok, l', rd') := tryAcquireLeadership l rd in attempt_outcome l rd ok l' rd'.
Proof.
  intros C P. unfold tryAcquireLeadership. destruct (le_isLeader l); [by apply renew_outcome|].
  destruct (rd_SetNX rd _ _ _) as [x rd'] eqn:E. rewrite C in E.
  apply setnx_spec in E as [Ck E]. unfold attempt_outcome. rewrite C.
  destruct (keys rd !! lec_Key config) eqn:L; destruct E as [-> E]; [by split_and!|].
  rewrite (lease_positive P) in E. split_and!; auto.
Qed.

(** ** What an instance can do to the key

    Whether the commands of an instance succeed, fail or time out, the clock stands still and the key
    is left alone, unless it was free or the instance's own: then it may be freed or given a whole
    lease of that instance. *)

Definition mine (me : string) (rd : Rd) : Prop :=
  keys rd !! lec_Key config = None \/ exists x, keys rd !! lec_Key config = Some (RString me, x).

Definition acts (me : string) (rd rd' : Rd) : Prop :=
  rd_clock rd' = rd_clock rd /\
  (keys rd' !! lec_Key config = keys rd !! lec_Key config \/
   mine me rd /\ (keys rd' !! lec_Key config = None \/
     keys rd' !! lec_Key config = Some (RString me, Some (time_add (rd_clock rd) (lease config))))).

Lemma acts_refl me rd : acts me rd rd.
Proof. split; auto. Qed.

Lemma acts_trans me rd1 rd2 rd3 : acts me rd1 rd2 -> acts me rd2 rd3 -> acts me rd1 rd3.
Proof.
  unfold acts, mine. intros [C1 A1] [C2 A2]. rewrite C1 in *. split; [by rewrite C2|].
  destruct A2 as [-> |[M2 A2]]; [done|]. right. split; [|done]. destruct A1 as [<-|[M1 _]]; done.
Qed.

Lemma acts_keeps me rd rd' i e : acts me rd rd' -> i <> me ->
  keys rd !! lec_Key config = Some (RString i, e) -> keys rd' !! lec_Key config = Some (RString i, e).
Proof.
  intros [_ [->|[[M|[x M]] _]]] N K; [done|congruence|]. rewrite M in K. injection K as E _. by subst i.
Qed.

Lemma acts_bounded me rd rd' v e : acts me rd rd' -> keys rd' !! lec_Key config = Some (v, e) ->
  keys rd !! lec_Key config = Some (v, e) \/ v = RString me /\ e = Some (time_add (rd_clock rd) (lease config)).
Proof. intros [_ [->|[_ [-> | ->]]]] K; [by left|discriminate|]. injection K as <- <-. by right. Qed.

Lemma attempt_acts l (rd : Rd) ok l' rd' : le_config l = config -> attempt_outcome l rd ok l' rd' ->
  acts (le_instanceID l) rd rd'.
Proof.
  intros C (_ & Ck & A). rewrite C in A. split; [done|]. destruct ok; [|by rewrite A; left].
  destruct A as [M ->]. right. split; [done|]. right. by rewrite lookup_insert_eq.
Qed.

Lemma try_acts l (rd : Rd) : le_config l = config -> 1 <= leaseSeconds config ->
  acts (le_instanceID l) rd (snd (tryAcquireLeadership l rd)).
Proof.
  intros C P. pose proof (attempt l rd C P) as A. destruct (tryAcquireLeadership l rd) as [[ok l'] rd'].
  by eapply attempt_acts.
Qed.

(** Releasing touches only a key of one's own. *)
Lemma release_acts l (rd : Rd) : le_config l = config -> acts (le_instanceID l) rd (snd (releaseLeadership l rd)).
Proof.
  intros C. unfold releaseLeadership. rewrite C. destruct (rd_Eval rd _) as [x rd'] eqn:E. apply eval_spec in E as [E Ck].
  assert (A : acts (le_instanceID l) rd rd'); [|by destruct x].
  split; [done|]. revert E. unfold release_script.
  destruct (ref_Get (keys rd) (lec_Key config)) eqn:G; [|by intros [= -> ->]; left].
  destruct (owns (keys rd) (lec_Key config) (le_instanceID l)) eqn:O; intros [= -> ->]; [|by left].
  apply owns_entry in O. right. split; [by right|left]. apply lookup_delete_eq.
Qed.

Lemma stop_acts l (rd : Rd) : le_config l = config -> acts (le_instanceID l) rd (snd (elector_Stop l rd)).
Proof. intros C. unfold elector_Stop. destruct (le_isLeader l); [by apply release_acts|apply acts_refl]. Qed.

Lemma stop_elector l (rd : Rd) : fst (elector_Stop l rd) = l \/ fst (elector_Stop l rd) = set_leader l false.
Proof.
  unfold elector_Stop, releaseLeadership. destruct (le_isLeader l); [|by left].
  destruct (rd_Eval rd _) as [[n|e] rd']; [by right|by left].
Qed.

(** ** The invariant *)

(** A step is an action of one instance [id] on the server that at most changes the flag of [id] and
    the time of its confirmation, or it lets an instance crash, or time passes. *)
Inductive step_shape f : fleet Rd -> Prop :=
| ShapeAct id l b rd oks st : fl_electors f !! id = Some l -> acts id (fl_redis f) rd ->
    (forall i, i <> id -> oks !! i = fl_lastOK f !! i) -> fl_stopped f ⊆ st ->
    (id ∉ st -> b = true ->
      oks !! id = Some (clock f) /\ keys rd !! lec_Key config = Some (RString id, Some (time_add (clock f) (lease config)))) ->
    step_shape f (mkFleet (<[id := set_leader l b]> (fl_electors f)) rd oks st)
| ShapeCrash id : step_shape f (mkFleet (delete id (fl_electors f)) (fl_redis f) (fl_lastOK f) (fl_stopped f))
| ShapeWait t : clock f <= t -> step_shape f (mkFleet (fl_electors f) (rd_advance (fl_redis f) t) (fl_lastOK f) (fl_stopped f)).

Lemma set_leader_self l : l = set_leader l (le_isLeader l).
Proof. by destruct l. Qed.

Lemma confirm_other ok id t oks i : i <> id -> confirm ok id t oks !! i = oks !! i.
Proof. intros N. destruct ok; cbn; [by rewrite lookup_insert_ne|done]. Qed.

Lemma try_shape f id l : 1 <= leaseSeconds config -> same_config f -> fl_electors f !! id = Some l ->
  step_shape f (after_try f id (tryAcquireLeadership l (fl_redis f))).
Proof.
  intros P S L. destruct (S _ _ L) as [C I]. pose proof (attempt l (fl_redis f) C P) as A.
  destruct (tryAcquireLeadership l (fl_redis f)) as [[ok l'] rd']. unfold after_try.
  pose proof (attempt_acts _ _ _ _ _ C A) as Ac. rewrite I in Ac. destruct A as (-> & Ck & A).
  apply ShapeAct; [done|done|by intros; apply confirm_other|done|]. intros _ ->.
  unfold clock. cbn. rewrite Ck, lookup_insert_eq. destruct A as [_ ->]. by rewrite C, I, lookup_insert_eq.
Qed.

Lemma stop_shape f id l b rd oks : fl_electors f !! id = Some l -> acts id (fl_redis f) rd ->
  (forall i, i <> id -> oks !! i = fl_lastOK f !! i) ->
  step_shape f (mkFleet (<[id := set_leader l b]> (fl_electors f)) rd oks ({[id]} ∪ fl_stopped f)).
Proof. intros L A O. apply ShapeAct; [done..|set_solver|set_solver]. Qed.

Lemma fleet_step_shape f f' : 1 <= leaseSeconds config -> same_config f -> fleet_step f f' -> step_shape f f'.
Proof.
  intros P S St. destruct St as [f id l L|f id l rd L D|f id l L|f id l rd L F D|f id l L|f id|f t Ht].
  - by apply try_shape.
  - destruct (S _ _ L) as [C I]. apply ShapeAct; [done| |done|done|done].
    destruct D as [->| ->]; [apply acts_refl|]. rewrite <- I. by apply try_acts.
  - destruct (S _ _ L) as [C I]. pose proof (stop_acts l (fl_redis f) C) as A. rewrite I in A.
    destruct (stop_elector l (fl_redis f)) as [E|E]; destruct (elector_Stop l (fl_redis f)) as [l' rd']; cbn in E; subst l'; unfold after_stop.
    + rewrite (set_leader_self l) at 1. by apply stop_shape.
    + by apply stop_shape.
  - destruct (S _ _ L) as [C I]. unfold after_stop. rewrite (set_leader_self l) at 1. apply stop_shape; [done| |done].
    destruct D as [->| ->]; [apply acts_refl|]. rewrite <- I. by apply release_acts.
  - destruct (S _ _ L) as [C I]. unfold stop_race. pose proof (try_acts l (fl_redis f) C P) as A1.
    destruct (tryAcquireLeadership l (fl_redis f)) as [[ok l1] rd1]. cbn in A1. pose proof (stop_acts l rd1 C) as A2.
    destruct (stop_elector l rd1) as [E|E]; destruct (elector_Stop l rd1) as [l2 rd2]; cbn in E, A2; subst l2; rewrite I in *;
      apply (stop_shape f id l ok); eauto using acts_trans, confirm_other.
  - by apply ShapeCrash.
  - by apply ShapeWait.
Qed.

Lemma calm_fleet f f' : calm_step f f' -> fleet_step f f'.
Proof. destruct 1; by constructor. Qed.

Lemma shape_config f f' : same_config f -> step_shape f f' -> same_config f'.
Proof.
  intros S Sh. destruct Sh as [id l b rd oks st L _ _ _ _|id|t _]; [| |exact S].
  - intros i x. cbn. rewrite lookup_insert_Some. intros [[<- <-]|[_ E]]; [exact (S _ _ L)|exact (S _ _ E)].
  - intros i x. cbn. intros [_ E]%lookup_delete_Some. by apply S.
Qed.

(** What backs the flag of one instance. *)
Definition backed f id : Prop := exists t, fl_lastOK f !! id = Some t /\ t <= clock f /\
  (clock f < time_add t (lease config) -> leader_entry f = Some (RString id, Some (time_add t (lease config)))).

Lemma leads_insert f id l rd oks st i : leads (mkFleet (<[id := l]> (fl_electors f)) rd oks st) i ->
  (i = id /\ le_isLeader l = true) \/ (i <> id /\ leads f i).
Proof.
  intros (l' & L & F). cbn in L. apply lookup_insert_Some in L as [[<- <-]|[N L]]; [by left|].
  right. split; [done|by exists l'].
Qed.

Lemma backed_wait f t i : clock f <= t -> backed f i ->
  backed (mkFleet (fl_electors f) (rd_advance (fl_redis f) t) (fl_lastOK f) (fl_stopped f)) i.
Proof.
  intros Ht (t0 & T0 & Tc & K). exists t0. destruct (rl_advance (Rd := Rd) (keys := keys) (fl_redis f) t Ht) as [Kt Ct].
  unfold clock, leader_entry in *. cbn. rewrite Ct, Kt. split_and!; [done|lia|]. intros Hf.
  apply map_lookup_filter_Some. split; [apply K; lia|]. cbn. unfold entry_live. cbn. by apply Z.ltb_lt.
Qed.

Lemma shape_backed f f' : flags_backed f -> step_shape f f' -> flags_backed f'.
Proof.
  intros B Sh i Ni Hi. destruct Sh as [id l b rd oks st L A O Sub Own|id|t Ht]; cbn in Ni.
  - apply leads_insert in Hi as [[-> F]|[N Hi]]; unfold clock, leader_entry in *; cbn.
    + destruct (Own Ni F) as [O1 K1]. exists (rd_clock (fl_redis f)). rewrite (proj1 A). split_and!; [done|lia|by intros _].
    + destruct (B i ltac:(set_solver) Hi) as (t & T0 & Tc & K). exists t. rewrite (proj1 A), O by done.
      unfold clock in *. split_and!; [done..|]. intros Hf. by eapply acts_keeps, K.
  - destruct Hi as (l & L & F). cbn in L. apply lookup_delete_Some in L as [_ L]. apply (B i Ni). by exists l.
  - by apply backed_wait, B.
Qed.

Lemma fleet_invariant f0 f : 1 <= leaseSeconds config -> fleet_start config f0 -> rtc fleet_step f0 f ->
  same_config f /\ flags_backed f.
Proof.
  intros P [Se _ _] R. assert (I0 : same_config f0 /\ flags_backed f0).
  { split; [intros id l L; by rewrite (Se _ _ L)|]. intros id _ (l & L & F). by rewrite (Se _ _ L) in F. }
  clear Se. induction R as [f|f f1 f2 St R IH]; [done|]. destruct I0 as [S B]. apply IH.
  apply fleet_step_shape in St; [|done..]. split; [by eapply shape_config|by eapply shape_backed].
Qed.

(** ** Every entry runs out *)

Definition lease_bounded f : Prop :=
  forall v e, leader_entry f = Some (v, e) -> exists t, e = Some t /\ clock f < t <= time_add (clock f) (lease config).

Lemma shape_bounded f f' : 1 <= leaseSeconds config -> lease_bounded f -> step_shape f f' -> lease_bounded f'.
Proof.
  intros P B Sh v e. destruct Sh as [id l b rd oks st L A O Sub Own|id|t Ht]; unfold leader_entry, clock; cbn.
  - rewrite (proj1 A). intros [K|[-> ->]]%(acts_bounded _ _ _ _ _ A); [exact (B _ _ K)|].
    eexists. split; [done|]. pose proof (time_add_lease_later (rd_clock (fl_redis f)) P). lia.
  - apply B.
  - destruct (rl_advance (Rd := Rd) (keys := keys) (fl_redis f) t Ht) as [-> ->].
    intros [K Lv]%map_lookup_filter_Some. destruct (B _ _ K) as (u & -> & U). exists u. split; [done|].
    unfold entry_live in Lv. cbn in Lv. apply Z.ltb_lt in Lv. unfold time_add, clock in *. lia.
Qed.

Lemma lease_bounded_reachable f0 f : 1 <= leaseSeconds config -> fleet_start config f0 -> lease_bounded f0 ->
  rtc fleet_step f0 f -> same_config f /\ flags_backed f /\ lease_bounded f.
Proof.
  intros P S B R. destruct (fleet_invariant f0 f P S R) as [Sc Fb]. split_and!; [done..|].
  destruct S as [Se _ _]. assert (I0 : same_config f0) by (intros id l L; by rewrite (Se _ _ L)).
  clear Sc Fb Se. induction R as [f|f f1 f2 St R IH]; [done|].
  apply fleet_step_shape in St; [|done..]. apply IH; [by eapply (shape_bounded _ _ P)|by eapply shape_config].
Qed.

(** ** Claims *)

(** One tick of an instance. *)
Definition tick f id : fleet Rd :=
  match fl_electors f !! id with Some l => after_try f id (tryAcquireLeadership l (fl_redis f)) | None => f end.
Definition wait f (t : Time) : fleet Rd := mkFleet (fl_electors f) (rd_advance (fl_redis f) t) (fl_lastOK f) (fl_stopped f).
(** The process goes away without [Stop]. *)
Definition crash f id : fleet Rd := mkFleet (delete id (fl_electors f)) (fl_redis f) (fl_lastOK f) (fl_stopped f).

Lemma bounded_runs_out f : 1 <= leaseSeconds config -> lease_bounded f ->
  leader_entry (wait f (time_add (clock f) (lease config))) = None.
Proof.
  intros P B. pose proof (time_add_lease_later (clock f) P) as Later. unfold leader_entry, wait. cbn.
  destruct (rl_advance (Rd := Rd) (keys := keys) (fl_redis f) (time_add (clock f) (lease config))) as [-> _];
    [unfold clock in *; lia|].
  apply map_lookup_filter_None. right. intros [v e] K. destruct (B _ _ K) as (t & -> & T).
  unfold entry_live. cbn. rewrite Z.ltb_lt. lia.
Qed.

(** A tick on a free key acquires it; a tick that finds the key gone although the flag is set
    only clears the flag. *)
Lemma tick_free f id l : 1 <= leaseSeconds config -> same_config f -> fl_electors f !! id = Some l -> leader_entry f = None ->
  le_isLeader l = false -> leads (tick f id) id.
Proof.
  intros P S L N F. destruct (S _ _ L) as [C I]. unfold tick. rewrite L. unfold tryAcquireLeadership, leader_entry in *. rewrite F, C.
  destruct (rd_SetNX (fl_redis f) _ _ _) as [x rd'] eqn:E. apply setnx_spec in E as [_ E].
  rewrite N in E. destruct E as [-> _]. exists (set_leader l true). cbn. by rewrite lookup_insert_eq.
Qed.

(** In detail: the acquired lease is fresh and the key is taken. *)
Lemma tick_fresh f id l : 1 <= leaseSeconds config -> same_config f -> fl_electors f !! id = Some l -> leader_entry f = None ->
  le_isLeader l = false ->
  leads_fresh (tick f id) id /\ leads (tick f id) id /\
  leader_entry (tick f id) = Some (RString id, Some (time_add (clock f) (lease config))) /\ clock (tick f id) = clock f.
Proof.
  intros P S L N F. pose proof (tick_free f id l P S L N F) as Hl. destruct (S _ _ L) as [C I].
  pose proof (attempt l (fl_redis f) C P) as A. unfold leads_fresh. unfold tick, leader_entry, clock in *. rewrite L in *.
  unfold after_try in *. destruct (tryAcquireLeadership l (fl_redis f)) as [[ok l'] rd']. pose proof Hl as (l1 & L1 & F1).
  cbn in L1 |- *. rewrite lookup_insert_eq in L1. injection L1 as <-. destruct A as (-> & Ck & A). cbn in F1. subst ok.
  destruct A as [_ A]. rewrite A, C, I, Ck, lookup_insert_eq. split_and!; [done| |done..].
  exists (rd_clock (fl_redis f)). split; [cbn; by rewrite lookup_insert_eq|by apply time_add_lease_later].
Qed.

(** The release script frees a key of one's own, whatever becomes of its reply. *)
Lemma release_frees f id l e : same_config f -> fl_electors f !! id = Some l -> leader_entry f = Some (RString id, e) ->
  let rd := snd (releaseLeadership l (fl_redis f)) in
  keys rd !! lec_Key config = None /\ rd_clock rd = clock f.
Proof.
  intros S L K. destruct (S _ _ L) as [C I]. unfold releaseLeadership, leader_entry in *. rewrite C, I.
  destruct (rd_Eval (fl_redis f) _) as [x rd'] eqn:E. apply eval_spec in E as [E Ck].
  unfold release_script, owns, ref_Get in E. rewrite K, String.eqb_refl in E. injection E as -> Hk.
  cbn. rewrite Hk. split; [apply lookup_delete_eq|done].
Qed.

Lemma tick_step f id l : fl_electors f !! id = Some l -> fleet_step f (tick f id).
Proof. intros L. unfold tick. rewrite L. by constructor. Qed.

(** A tick with the flag set and the key still one's own keeps both. *)
Lemma tick_renews f id l e : 1 <= leaseSeconds config -> same_config f -> fl_electors f !! id = Some l ->
  leader_entry f = Some (RString id, e) -> le_isLeader l = true -> leads (tick f id) id.
Proof.
  intros P S L K F. destruct (S _ _ L) as [C I]. unfold tick. rewrite L. unfold tryAcquireLeadership, leader_entry in *. rewrite F.
  unfold renewLeadership. rewrite C, I. destruct (rd_Eval (fl_redis f) _) as [x rd'] eqn:E. apply eval_spec in E as [E _].
  unfold renew_script, owns, ref_Get in E. rewrite K, String.eqb_refl in E. injection E as -> _.
  exists (set_leader l true). cbn. by rewrite lookup_insert_eq.
Qed.

Lemma tick_lookup_ne f id i : i <> id -> fl_electors (tick f id) !! i = fl_electors f !! i.
Proof.
  intros N. unfold tick. destruct (fl_electors f !! id); [|done].
  unfold after_try. destruct (tryAcquireLeadership _ _) as [[ok l'] rd']. cbn. by rewrite lookup_insert_ne.
Qed.

Lemma tick_other f id i : i <> id -> leads f i -> leads (tick f id) i.
Proof.
  intros N (l & L & F). exists l. by rewrite tick_lookup_ne.
Qed.

(** ** Recovery

    In a calm stretch that began at [t0], an entry that outlives [t0] by more than a lease was
    written in the stretch, so its instance runs and has its flag set. *)
Definition held_by_leader (t0 : Time) f : Prop := forall v e, leader_entry f = Some (v, Some e) ->
  time_add t0 (lease config) < e -> exists id, v = RString id /\ leads f id /\ id ∉ fl_stopped f.

Record calm_inv (t0 : Time) f : Prop := {
  ci_config : same_config f;
  ci_backed : flags_backed f;
  ci_bounded : lease_bounded f;
  ci_clock : t0 <= clock f;
  ci_held : held_by_leader t0 f;
}.

Lemma tick_clock f id l : 1 <= leaseSeconds config -> same_config f -> fl_electors f !! id = Some l ->
  clock (after_try f id (tryAcquireLeadership l (fl_redis f))) = clock f.
Proof.
  intros P S L. pose proof (attempt l (fl_redis f) (proj1 (S _ _ L)) P) as A.
  destruct (tryAcquireLeadership l (fl_redis f)) as [[ok l'] rd']. apply A.
Qed.

Lemma tick_after_try f id l : fl_electors f !! id = Some l ->
  after_try f id (tryAcquireLeadership l (fl_redis f)) = tick f id.
Proof. intros L. unfold tick. by rewrite L. Qed.

(** After a tick the key is another's and untouched, or free with the flag cleared, or one's own. *)
Lemma tick_held t0 f id l : 1 <= leaseSeconds config -> same_config f -> held_by_leader t0 f ->
  fl_electors f !! id = Some l -> id ∉ fl_stopped f -> held_by_leader t0 (tick f id).
Proof.
  intros P S Hh L Ni v e K Hf. pose proof (attempt l (fl_redis f) (proj1 (S _ _ L)) P) as A.
  destruct (S _ _ L) as [C I]. pose proof K as K0. unfold tick, leader_entry in K. rewrite L in K.
  assert (St : fl_stopped (tick f id) = fl_stopped f).
  { unfold tick. rewrite L. unfold after_try. by destruct (tryAcquireLeadership l (fl_redis f)) as [[ok l'] rd']. }
  rewrite St. assert (Ok : fst (fst (tryAcquireLeadership l (fl_redis f))) = true -> leads (tick f id) id).
  { intros F. exists (set_leader l true). unfold tick. rewrite L. unfold after_try.
    destruct (tryAcquireLeadership l (fl_redis f)) as [[ok l'] rd']. cbn in F. subst ok. destruct A as [-> _].
    cbn. by rewrite lookup_insert_eq. }
  unfold after_try in K. destruct (tryAcquireLeadership l (fl_redis f)) as [[ok l'] rd'] eqn:T. cbn in K, Ok.
  destruct A as (-> & Ck & A). rewrite C in A. destruct ok.
  - destruct A as [_ A]. rewrite A, lookup_insert_eq in K. injection K as <- _. exists id. rewrite I. by split_and!; [|apply Ok|].
  - rewrite A in K. destruct (Hh v e K Hf) as (i & -> & Hi & Nst). exists i. split_and!; [done| |done].
    destruct (decide (i = id)) as [->|N]; [|by apply tick_other]. destruct Hi as (l0 & L0 & F).
    rewrite L in L0. injection L0 as <-. by eapply tick_renews.
Qed.

Lemma calm_inv_step t0 f f' : 1 <= leaseSeconds config -> calm_inv t0 f -> calm_step f f' -> calm_inv t0 f'.
Proof.
  intros P [S B Lb Ck Hh] St. pose proof (fleet_step_shape f f' P S (calm_fleet _ _ St)) as Sh.
  split; [by eapply shape_config|by eapply shape_backed|by eapply (shape_bounded _ _ P)| |].
  - destruct St as [f id l L N|f t Ht]; [by rewrite (tick_clock _ _ _ P S L)|].
    unfold clock in *. cbn. destruct (rl_advance (Rd := Rd) (keys := keys) (fl_redis f) t Ht) as [_ ->]. lia.
  - destruct St as [f id l L N|f t Ht]; [rewrite (tick_after_try _ _ _ L); by eapply tick_held|].
    intros v e. unfold leader_entry. cbn. destruct (rl_advance (Rd := Rd) (keys := keys) (fl_redis f) t Ht) as [-> _].
    intros [K _]%map_lookup_filter_Some. by apply Hh.
Qed.

Lemma calm_inv_run t0 f f' : 1 <= leaseSeconds config -> calm_inv t0 f -> rtc calm_step f f' -> calm_inv t0 f'.
Proof. intros P I R. induction R as [|f f1 f2 St R IH]; [done|]. by eapply IH, calm_inv_step. Qed.

(** The clock never runs back and the electors stay. *)
Lemma calm_clock t0 f f' : 1 <= leaseSeconds config -> calm_inv t0 f -> rtc calm_step f f' -> clock f <= clock f'.
Proof.
  intros P [S B Lb Ck Hh] R. assert (I : calm_inv (clock f) f); [|by apply (calm_inv_run _ _ _ P I R)].
  split; [done..|lia|]. intros v e K Hf. exfalso. destruct (Lb _ _ K) as (t & [= <-] & Le). lia.
Qed.

Lemma calm_alive f f' id : rtc calm_step f f' ->
  (exists l, fl_electors f !! id = Some l) -> exists l, fl_electors f' !! id = Some l.
Proof.
  induction 1 as [|f f1 f2 St R IH]; [done|]. intros [l L]. apply IH. destruct St as [f i x X N|f t Ht]; [|by exists l].
  unfold after_try. destruct (tryAcquireLeadership x (fl_redis f)) as [[ok l'] rd']. cbn.
  destruct (decide (i = id)) as [->|Ne]; [rewrite lookup_insert_eq|rewrite lookup_insert_ne by done]; eauto.
Qed.

Lemma calm_stopped f f' : rtc calm_step f f' -> fl_stopped f' = fl_stopped f.
Proof.
  induction 1 as [|f f1 f2 St R IH]; [done|]. rewrite IH. destruct St as [f i x X N|f t Ht]; [|done].
  unfold after_try. by destruct (tryAcquireLeadership x (fl_redis f)) as [[ok l'] rd'].
Qed.

(** An instance that ticked at [t1] and leads later had this confirmed at [t1] or after. *)
Definition confirmed_since (t1 : Time) f id : Prop :=
  leads f id -> exists t, fl_lastOK f !! id = Some t /\ t1 <= t.

Lemma tick_confirms f id l : 1 <= leaseSeconds config -> same_config f -> fl_electors f !! id = Some l ->
  confirmed_since (clock f) (tick f id) id.
Proof.
  intros P S L (l1 & L1 & F). pose proof (attempt l (fl_redis f) (proj1 (S _ _ L)) P) as A. unfold tick in *.
  rewrite L in *. unfold after_try in *. destruct (tryAcquireLeadership l (fl_redis f)) as [[ok l'] rd'].
  cbn in L1 |- *. rewrite lookup_insert_eq in L1. injection L1 as <-. destruct A as (-> & Ck & _).
  cbn in F. subst ok. cbn. rewrite lookup_insert_eq. exists (rd_clock rd'). unfold clock. by rewrite Ck.
Qed.

Lemma tick_other_confirmed f id i : i <> id -> leads (tick f id) i -> leads f i /\ fl_lastOK (tick f id) !! i = fl_lastOK f !! i.
Proof.
  intros N. unfold tick. destruct (fl_electors f !! id) as [x|]; [|done]. unfold after_try.
  destruct (tryAcquireLeadership x (fl_redis f)) as [[ok l'] rd']. intros [[-> _]|[_ Hl]]%leads_insert; [done|].
  split; [done|]. cbn. by apply confirm_other.
Qed.

Lemma calm_confirmed t0 t1 f f' id : 1 <= leaseSeconds config -> calm_inv t0 f -> t1 <= clock f ->
  confirmed_since t1 f id -> rtc calm_step f f' -> confirmed_since t1 f' id.
Proof.
  intros P I T Cf R. induction R as [|f f1 f2 St R IH]; [done|].
  pose proof (calm_clock _ _ _ P I (rtc_once _ _ St)) as Ck.
  apply IH; [by eapply calm_inv_step|lia|]. clear IH R. destruct St as [f i x X N|f t Ht]; [|exact Cf].
  rewrite (tick_after_try _ _ _ X) in *. destruct (decide (id = i)) as [->|Ne].
  - intros Hl. destruct (tick_confirms f i x P (ci_config _ _ I) X Hl) as (t & Ht & Le). exists t. split; [done|lia].
  - intros Hl. destruct (tick_other_confirmed _ _ _ Ne Hl) as [Hl0 E].
    destruct (Cf Hl0) as (t & T0 & Le). exists t. exact (conj (eq_trans E T0) Le).
Qed.

(** A tick of [id] a lease or more after the stretch began, its flag, if set, backed by the key. *)
Lemma tick_leader t0 f id l : 1 <= leaseSeconds config -> calm_inv t0 f -> fl_electors f !! id = Some l -> id ∉ fl_stopped f ->
  time_add t0 (lease config) <= clock f -> (leads f id -> exists e, leader_entry f = Some (RString id, e)) ->
  exists v e, leads (tick f id) v /\ v ∉ fl_stopped (tick f id) /\ leader_entry (tick f id) = Some (RString v, e).
Proof.
  intros P I L N T Bk. destruct (ci_config _ _ I _ _ L) as [C Id].
  assert (It : calm_inv t0 (tick f id)).
  { eapply calm_inv_step; [done|exact I|]. rewrite <- (tick_after_try _ _ _ L). by constructor. }
  assert (Ck : clock (tick f id) = clock f) by (rewrite <- (tick_after_try _ _ _ L); exact (tick_clock _ _ _ P (ci_config _ _ I) L)).
  destruct (leader_entry (tick f id)) as [[v e]|] eqn:K.
  - destruct (ci_bounded _ _ It _ _ K) as (t & -> & Lt). rewrite Ck in Lt.
    destruct (ci_held _ _ It _ _ K ltac:(lia)) as (i & -> & Hi & Ni). by exists i, (Some t).
  - exfalso. unfold tick, leader_entry in K. rewrite L in K. pose proof (attempt l (fl_redis f) C P) as A.
    assert (Hl : leads (tick f id) id).
    { destruct (le_isLeader l) eqn:F.
      - destruct (Bk (ex_intro _ l (conj L F))) as [e E]. by eapply tick_renews; [..|apply (ci_config _ _ I)|exact L|exact E|].
      - apply (tick_free f id l); [done|apply (ci_config _ _ I)|done| |done]. unfold after_try in K.
        destruct (tryAcquireLeadership l (fl_redis f)) as [[ok l'] rd']. cbn in K. destruct A as (_ & _ & A).
        rewrite C in A. destruct ok; [destruct A as [_ A]; by rewrite A, lookup_insert_eq in K|]. unfold leader_entry. by rewrite <- A. }
    unfold tick in Hl. rewrite L in Hl. destruct Hl as (l1 & L1 & F1). unfold after_try in K, L1.
    destruct (tryAcquireLeadership l (fl_redis f)) as [[ok l'] rd']. cbn in K, L1. rewrite lookup_insert_eq in L1. injection L1 as <-.
    destruct A as (-> & _ & A). cbn in F1. subst ok. destruct A as [_ A]. by rewrite A, C, lookup_insert_eq in K.
Qed.

(** C29: at most one running instance leads within its lease: with a lease of at least one second, a
    Redis that loses no key before its expiry and distinct instance IDs, in every state the fleet
    can reach by ticks, command timeouts (of attempts and of releases, with or without effect on the
    server), stops, also ones that race with an attempt, crashes and the passage of time in any
    order, two instances that were not stopped, both believe they lead and both had this confirmed
    less than a lease ago are the same instance, and the key in Redis names it. *)
Theorem leader_unique f0 f id1 id2 : 1 <= leaseSeconds config -> fleet_start config f0 -> rtc fleet_step f0 f ->
  id1 ∉ fl_stopped f -> id2 ∉ fl_stopped f -> leads_fresh f id1 -> leads_fresh f id2 ->
  id1 = id2 /\ forall l, fl_electors f !! id1 = Some l -> GetLeaderInstanceID l (fl_redis f) = id1.
Proof.
  intros P S R N1 N2 [L1 (t1 & T1 & F1)] [L2 (t2 & T2 & F2)]. destruct (fleet_invariant f0 f P S R) as [Sc B].
  destruct (B _ N1 L1) as (u1 & U1 & _ & K1), (B _ N2 L2) as (u2 & U2 & _ & K2).
  pose proof (eq_trans (eq_sym U1) T1) as [= ->]. pose proof (eq_trans (eq_sym U2) T2) as [= ->].
  specialize (K1 F1). specialize (K2 F2). split; [rewrite K1 in K2; by injection K2|].
  intros l L. unfold GetLeaderInstanceID. destruct (Sc _ _ L) as [-> _].
  rewrite (rl_get (Rd := Rd) (keys := keys)). unfold ref_Get. unfold leader_entry in K1. by rewrite K1.
Qed.

(** C30: leadership is recovered: after any history of ticks, timeouts, stops and crashes, whoever
    held the lease and however it disappeared, from the moment the fleet is left in peace (the
    loops of the remaining instances tick at any times, no command fails, nobody stops or crashes)
    a lease and two ticks are enough: once a running instance has ticked at least a lease later and
    again less than a lease after that, some running instance has its flag set and the key in Redis
    names it.  The lease is at least one second and the key, if taken when the fleet starts, expires
    within a lease. *)
Theorem leadership_recovers f0 f g h id : 1 <= leaseSeconds config -> fleet_start config f0 -> lease_bounded f0 ->
  rtc fleet_step f0 f -> is_Some (fl_electors f !! id) -> id ∉ fl_stopped f ->
  rtc calm_step f g -> time_add (clock f) (lease config) <= clock g ->
  rtc calm_step (tick g id) h -> clock h < time_add (clock g) (lease config) ->
  exists v l, fl_electors (tick h id) !! v = Some l /\ le_isLeader l = true /\ v ∉ fl_stopped (tick h id) /\
    GetLeaderInstanceID l (fl_redis (tick h id)) = v.
Proof.
  intros P S B R Al N Rg Tg Rh Th. destruct (lease_bounded_reachable f0 f P S B R) as (Sc & Fb & Lb).
  assert (I0 : calm_inv (clock f) f).
  { split; [done..|lia|]. intros v e K Hf. destruct (Lb _ _ K) as (t & [= <-] & Le). lia. }
  pose proof (calm_inv_run _ _ _ P I0 Rg) as Ig. destruct (calm_alive _ _ id Rg Al) as [lg Lg].
  assert (Ng : id ∉ fl_stopped g) by by rewrite (calm_stopped _ _ Rg).
  assert (Sg : calm_step g (tick g id)) by (rewrite <- (tick_after_try _ _ _ Lg); by constructor).
  pose proof (calm_inv_step _ _ _ P Ig Sg) as It. pose proof (calm_inv_run _ _ _ P It Rh) as Ih.
  assert (Ct : clock (tick g id) = clock g) by (rewrite <- (tick_after_try _ _ _ Lg); exact (tick_clock _ _ _ P (ci_config _ _ Ig) Lg)).
  pose proof (calm_clock _ _ _ P It Rh) as Le. rewrite Ct in Le.
  destruct (calm_alive _ _ id (rtc_l _ _ _ _ Sg Rh) (ex_intro _ lg Lg)) as [lh Lh].
  assert (Nh : id ∉ fl_stopped h) by by rewrite (calm_stopped _ _ (rtc_l _ _ _ _ Sg Rh)).
  destruct (tick_leader _ h id lh P Ih Lh Nh ltac:(lia)) as (v & e & (l & L & F) & Nv & K).
  - intros Hl. destruct (ci_backed _ _ Ih id Nh Hl) as (t & T & _ & K). eexists. apply K.
    destruct (calm_confirmed _ (clock g) _ _ id P It ltac:(lia) (tick_confirms g id lg P (ci_config _ _ Ig) Lg) Rh Hl) as (u & U & Lu).
    rewrite T in U. injection U as <-. unfold time_add in *. lia.
  - exists v, l. split_and!; [done..|]. unfold GetLeaderInstanceID.
    assert (Sh : calm_step h (tick h id)) by (rewrite <- (tick_after_try _ _ _ Lh); by constructor).
    destruct (ci_config _ _ (calm_inv_step _ _ _ P Ih Sh) _ _ L) as [-> _].
    rewrite (rl_get (Rd := Rd) (keys := keys)). unfold ref_Get. unfold leader_entry in K. by rewrite K.
Qed.

(** The lock does not exclude two leaders: from every start with a free key and two instances
    there is a run after which both have their flag set.  The flag of an instance that stalls for a
    lease is cleared only by its own next tick, which is what [IsLeader] reports until then. *)
Theorem stale_leader_overlap f0 id1 id2 l1 l2 : 1 <= leaseSeconds config -> fleet_start config f0 -> leader_entry f0 = None ->
  id1 <> id2 -> fl_electors f0 !! id1 = Some l1 -> fl_electors f0 !! id2 = Some l2 ->
  exists f, rtc fleet_step f0 f /\ leads f id1 /\ leads f id2.
Proof.
  intros P S N D L1 L2. destruct S as [Se _ _]. assert (Sc : same_config f0) by (intros i l L; by rewrite (Se _ _ L)).
  pose proof (tick_free f0 id1 l1 P Sc L1 N (f_equal le_isLeader (Se _ _ L1))) as A1.
  pose proof (fleet_step_shape _ _ P Sc (tick_step f0 id1 l1 L1)) as Sh.
  set (f1 := tick f0 id1) in *. pose proof (shape_config _ _ Sc Sh) as Sc1.
  assert (B : lease_bounded f1) by (apply (shape_bounded f0 f1 P); [|done]; intros v e K; by rewrite N in K).
  assert (L2' : fl_electors f1 !! id2 = Some l2) by (unfold f1; by rewrite tick_lookup_ne).
  pose proof (time_add_lease_later (clock f1) P) as Later.
  set (w := wait f1 (time_add (clock f1) (lease config))).
  pose proof (tick_free w id2 l2 P Sc1 L2' (bounded_runs_out f1 P B) (f_equal le_isLeader (Se _ _ L2))) as A2.
  exists (tick w id2). split_and!; [|by apply tick_other|exact A2].
  eapply rtc_l; [exact (tick_step f0 id1 l1 L1)|]. eapply rtc_l; [|by apply rtc_once, (tick_step w id2 l2)].
  apply FleetWait. unfold clock in *. lia.
Qed.

(** A release that times out after the server ran it leaves the flag behind: from every start with a
    free key and two instances there is a run after which both have their flag set and had their
    leadership confirmed less than a lease ago, the first one stopped. *)
Theorem failed_release_overlap f0 id1 id2 l1 l2 : 1 <= leaseSeconds config -> fleet_start config f0 -> leader_entry f0 = None ->
  id1 <> id2 -> fl_electors f0 !! id1 = Some l1 -> fl_electors f0 !! id2 = Some l2 ->
  exists f, rtc fleet_step f0 f /\ leads_fresh f id1 /\ leads_fresh f id2.
Proof.
  intros P S N D L1 L2. destruct S as [Se _ _]. assert (Sc : same_config f0) by (intros i l L; by rewrite (Se _ _ L)).
  destruct (tick_fresh f0 id1 l1 P Sc L1 N (f_equal le_isLeader (Se _ _ L1))) as (F1 & (l1' & L1' & Fl) & K1 & C1).
  set (f1 := tick f0 id1) in *. pose proof (shape_config _ _ Sc (fleet_step_shape _ _ P Sc (tick_step f0 id1 l1 L1))) as Sc1.
  destruct (release_frees f1 id1 l1' _ Sc1 L1' K1) as [K2 C2].
  set (f2 := after_stop f1 id1 (l1', snd (releaseLeadership l1' (fl_redis f1)))).
  assert (St2 : fleet_step f1 f2) by (apply FleetStopTimeout; auto).
  pose proof (shape_config _ _ Sc1 (fleet_step_shape _ _ P Sc1 St2)) as Sc2.
  assert (L2' : fl_electors f2 !! id2 = Some l2).
  { cbn. rewrite lookup_insert_ne by done. unfold f1. by rewrite tick_lookup_ne. }
  destruct (tick_fresh f2 id2 l2 P Sc2 L2' K2 (f_equal le_isLeader (Se _ _ L2))) as (F2 & _ & _ & C3).
  exists (tick f2 id2). split_and!; [| |exact F2].
  - eapply rtc_l; [exact (tick_step f0 id1 l1 L1)|]. eapply rtc_l; [exact St2|]. by apply rtc_once, (tick_step f2 id2 l2).
  - destruct F1 as [_ (t & T & Lt)]. split.
    + apply tick_other; [done|]. exists l1'. cbn. by rewrite lookup_insert_eq.
    + exists t. split; [|by rewrite C3; unfold clock at 1; cbn -[f1]; rewrite C2]. unfold tick. rewrite L2'. unfold after_try.
      destruct (tryAcquireLeadership l2 (fl_redis f2)) as [[ok l'] rd']. cbn -[f1]. exact (eq_trans (confirm_other ok id2 _ _ id1 D) T).
Qed.


(** ** Leases below one second *)

(** The key of a process that is gone, without expiry. *)
Definition wedged dead f : Prop :=
  fl_electors f !! dead = None /\ leader_entry f = Some (RString dead, None) /\
  forall id l, fl_electors f !! id = Some l -> l = mkElector config id false.

Lemma wedged_attempt dead f id l : wedged dead f -> fl_electors f !! id = Some l ->
  let '(ok, l', rd') := tryAcquireLeadership l (fl_redis f) in ok = false /\ l' = l /\ keys rd' = keys (fl_redis f).
Proof.
  intros (_ & K & Se) L. rewrite (Se _ _ L). unfold tryAcquireLeadership, leader_entry in *. cbn.
  destruct (rd_SetNX (fl_redis f) _ _ _) as [x rd'] eqn:E. apply setnx_spec in E as [_ E]. rewrite K in E.
  by destruct E as [-> ->].
Qed.

Lemma wedged_insert dead f id l rd oks st : wedged dead f -> fl_electors f !! id = Some l -> keys rd = keys (fl_redis f) ->
  wedged dead (mkFleet (<[id := l]> (fl_electors f)) rd oks st).
Proof.
  intros (D & K & Se) L E. unfold wedged, leader_entry. cbn. rewrite insert_id, E by done. by split_and!.
Qed.

Lemma wedged_step dead f f' : wedged dead f -> fleet_step f f' -> wedged dead f'.
Proof.
  intros W St. assert (Off : forall id l, fl_electors f !! id = Some l -> set_leader l false = l /\ le_isLeader l = false).
  { intros id l L. destruct W as (_ & _ & Se). by rewrite (Se _ _ L). }
  destruct St as [f id l L|f id l rd L D|f id l L|f id l rd L F D|f id l L|f id|f t Ht];
    try (destruct (Off _ _ L) as [El Fl]; pose proof (wedged_attempt _ _ _ _ W L) as A).
  - unfold after_try. destruct (tryAcquireLeadership l (fl_redis f)) as [[ok l'] rd'].
    destruct A as (-> & -> & Kr). by apply wedged_insert.
  - rewrite El. apply wedged_insert; [done..|]. destruct D as [->| ->]; [done|].
    destruct (tryAcquireLeadership l (fl_redis f)) as [[ok l'] rd']. apply A.
  - unfold elector_Stop. rewrite Fl. by apply wedged_insert.
  - congruence.
  - unfold stop_race, elector_Stop. rewrite Fl. destruct (tryAcquireLeadership l (fl_redis f)) as [[ok l'] rd'].
    destruct A as (-> & -> & Kr). rewrite El. by apply wedged_insert.
  - destruct W as (D & K & Se). split_and!; [cbn|done|].
    + destruct (decide (id = dead)) as [->|N]; [apply lookup_delete_eq|by rewrite lookup_delete_ne].
    + intros i l L. cbn in L. apply lookup_delete_Some in L as [_ L]. by apply Se.
  - destruct W as (D & K & Se). split_and!; [done| |done]. unfold leader_entry in *. cbn.
    destruct (rl_advance (Rd := Rd) (keys := keys) (fl_redis f) t Ht) as [-> _]. by apply map_lookup_filter_Some.
Qed.

(** A lease below one second is never given back: the configured duration is truncated to whole
    seconds, a zero expiry makes the key permanent, and when the instance that acquired it crashes no
    instance of the fleet ever leads again, however long it waits. *)
Theorem subsecond_lease_wedges f0 dead l f id : leaseSeconds config = 0 -> fleet_start config f0 -> leader_entry f0 = None ->
  fl_electors f0 !! dead = Some l -> rtc fleet_step (crash (tick f0 dead) dead) f ->
  leads (tick f0 dead) dead /\ ~ leads f id.
Proof.
  intros Z0 [Se _ _] N L R. unfold leader_entry in N. unfold tick in *. rewrite L in *. rewrite (Se _ _ L) in *.
  unfold tryAcquireLeadership in *. cbn in R |- *. unfold lease in *. rewrite Z0 in *.
  destruct (rd_SetNX (fl_redis f0) _ _ _) as [x rd'] eqn:E. apply setnx_spec in E as [_ E]. rewrite N in E. destruct E as [-> E].
  cbn in R |- *. split; [eexists; cbn; by rewrite lookup_insert_eq|].
  assert (W : wedged dead f).
  { match type of R with rtc _ ?c _ => assert (W0 : wedged dead c) end.
    { split_and!; unfold leader_entry; cbn; [by rewrite lookup_delete_eq|by rewrite E, lookup_insert_eq|].
      intros i l' [Ni L']%lookup_delete_Some. rewrite lookup_insert_ne in L' by done. by apply Se. }
    clear -RdL R W0. revert W0. induction R as [f|f1 f2 f3 St R IH]; [done|]. intros W. apply IH. by eapply wedged_step. }
  destruct W as (_ & _ & Sf). intros (l' & L' & F). by rewrite (Sf _ _ L') in F.
Qed.
End Fleet.

(** ** Witnesses *)

Definition demo_lease (d : Duration) : LeaderElectionConfig := mkLeaderConfig "leader_election" d (10 * second) "path:health_check_leader".
Definition demo_elector (d : Duration) (id : string) : LeaderElector := mkElector (demo_lease d) id false.
Definition demo_fleet (d : Duration) : fleet DemoRedis :=
  mkFleet (<["a" := demo_elector d "a"]> {["b" := demo_elector d "b"]}) (mkDemoRedis (1700000000 * second) ∅) ∅ ∅.

Lemma demo_fleet_start d : fleet_start (demo_lease d) (demo_fleet d).
Proof.
  split; [|done..]. intros id l. cbn. rewrite lookup_insert_Some, lookup_singleton_Some.
  by intros [[<- <-]|[_ [<- <-]]].
Qed.

Lemma demo_tick d : rtc fleet_step (demo_fleet d) (tick (demo_fleet d) "a").
Proof. apply rtc_once. by apply (FleetTick (demo_fleet d) "a" (demo_elector d "a")). Qed.

Lemma leader_unique_witness :
  GetLeaderInstanceID (set_leader (demo_elector (30 * second) "a") true) (fl_redis (tick (demo_fleet (30 * second)) "a")) = "a".
Proof.
  assert (F : leads_fresh (demo_lease (30 * second)) (tick (demo_fleet (30 * second)) "a") "a").
  { split; [by exists (set_leader (demo_elector (30 * second) "a") true)|]. by exists (1700000000 * second). }
  apply (leader_unique (keys := dr_keys) (demo_lease (30 * second)) (demo_fleet (30 * second)) _ "a" "a" ltac:(done)
    (demo_fleet_start _) (demo_tick _) ltac:(done) ltac:(done) F F). reflexivity.
Defined.

Lemma failed_release_overlap_witness :
  exists f, rtc fleet_step (demo_fleet (30 * second)) f /\
    leads_fresh (demo_lease (30 * second)) f "a" /\ leads_fresh (demo_lease (30 * second)) f "b".
Proof.
  apply (failed_release_overlap (keys := dr_keys) (demo_lease (30 * second)) (demo_fleet (30 * second)) "a" "b"
    (demo_elector (30 * second) "a") (demo_elector (30 * second) "b")); [done|apply demo_fleet_start|done..].
Defined.

(** The leader crashes; the other instance ticks every ten seconds and leads after the lease. *)
Definition demo_crashed : fleet DemoRedis := crash (tick (demo_fleet (30 * second)) "a") "a".
Definition demo_at (f : fleet DemoRedis) (s : Z) : fleet DemoRedis := tick (wait f ((1700000000 + s) * second)) "b".
Definition demo_lapsed : fleet DemoRedis :=
  wait (demo_at (demo_at demo_crashed 10) 20) ((1700000000 + 30) * second).
Definition demo_again : fleet DemoRedis := wait (tick demo_lapsed "b") ((1700000000 + 40) * second).

Lemma demo_at_calm f s : clock f <= (1700000000 + s) * second -> is_Some (fl_electors f !! "b") -> "b" ∉ fl_stopped f ->
  rtc calm_step f (demo_at f s) /\ is_Some (fl_electors (demo_at f s) !! "b") /\ "b" ∉ fl_stopped (demo_at f s).
Proof.
  intros T [l L] N. assert (R : rtc calm_step f (demo_at f s)).
  { eapply rtc_l; [exact (CalmWait f _ T)|]. apply rtc_once. unfold demo_at, tick.
    change (fl_electors (wait f ((1700000000 + s) * second))) with (fl_electors f). rewrite L.
    exact (CalmTick (wait f ((1700000000 + s) * second)) "b" l L N). }
  split_and!; [done|by eapply calm_alive; [exact R|exists l]|by rewrite (calm_stopped _ _ R)].
Qed.

Lemma demo_crashed_alive : is_Some (fl_electors demo_crashed !! "b") /\ "b" ∉ fl_stopped demo_crashed.
Proof. split; [by exists (demo_elector (30 * second) "b")|done]. Qed.

Lemma leadership_recovers_witness : exists v l,
  fl_electors (tick demo_again "b") !! v = Some l /\ le_isLeader l = true /\ v ∉ fl_stopped (tick demo_again "b") /\
  GetLeaderInstanceID l (fl_redis (tick demo_again "b")) = v.
Proof.
  destruct demo_crashed_alive as [A0 N0].
  destruct (demo_at_calm demo_crashed 10 ltac:(by vm_compute) A0 N0) as (R1 & A1 & N1).
  destruct (demo_at_calm (demo_at demo_crashed 10) 20 ltac:(by vm_compute) A1 N1) as (R2 & A2 & N2).
  apply (leadership_recovers (keys := dr_keys) (demo_lease (30 * second)) (demo_fleet (30 * second)) demo_crashed demo_lapsed demo_again "b").
  - done.
  - apply demo_fleet_start.
  - intros v e K. discriminate.
  - transitivity (tick (demo_fleet (30 * second)) "a"); [apply demo_tick|apply rtc_once, FleetCrash].
  - exact A0.
  - exact N0.
  - transitivity (demo_at demo_crashed 10); [exact R1|]. transitivity (demo_at (demo_at demo_crashed 10) 20); [exact R2|].
    apply rtc_once, CalmWait. by vm_compute.
  - by vm_compute.
  - apply rtc_once, CalmWait. by vm_compute.
  - by vm_compute.
Defined.

Lemma stale_leader_overlap_witness :
  exists f, rtc fleet_step (demo_fleet (30 * second)) f /\ leads f "a" /\ leads f "b".
Proof.
  apply (stale_leader_overlap (keys := dr_keys) (demo_lease (30 * second)) (demo_fleet (30 * second)) "a" "b"
    (demo_elector (30 * second) "a") (demo_elector (30 * second) "b")); [done|apply demo_fleet_start|done..].
Defined.

Lemma subsecond_lease_wedges_witness :
  let f := wait (crash (tick (demo_fleet (500 * millisecond)) "a") "a") (1700000000 * second + 24 * hour) in
  leads (tick (demo_fleet (500 * millisecond)) "a") "a" /\ ~ leads (tick f "b") "b".
Proof.
  cbn zeta. apply (subsecond_lease_wedges (keys := dr_keys) (demo_lease (500 * millisecond)) (demo_fleet (500 * millisecond)) "a"
    (demo_elector (500 * millisecond) "a")); [done|apply demo_fleet_start|done|done|].
  eapply rtc_l; [apply (FleetWait _ (1700000000 * second + 24 * hour)); by vm_compute|].
  apply rtc_once. by apply (FleetTick _ "b" (demo_elector (500 * millisecond) "b")).
Defined.
