(* ===== verification/HealthConfig.v ===== *)
(** * Health check configuration: gateway/health_check_config.go

    The records of the YAML configuration, the defaults they are hydrated with, their validation,
    and the three-level merge of health_check_executor.go (external, local, unified services). *)

From S2P Require Import Prelude GoStrings Float64 Leader.
From Stdlib Require Import ZArith Lia Bool Ascii String.
From stdpp Require Import base gmap strings fin_maps list.

Open Scope string_scope.
Open Scope Z_scope.

(** ** Records *)

Definition DefaultHealthCheckTimeout : Duration := 5 * second.
Definition DefaultHealthCheckInterval : Duration := 10 * second.
Definition DefaultExternalConfigTimeout : Duration := 30 * second.
Definition DefaultExpectedStatusCode : Z := 200.
Definition DefaultReputationSignal : string := "minor_error".
Definition DefaultSyncAllowance : Z := 0.

Definition HealthCheckTypeJSONRPC : string := "json_rpc".
Definition HealthCheckTypeREST : string := "rest".
Definition HealthCheckTypeCometBFT : string := "comet_bft".
Definition HealthCheckTypeWebSocket : string := "websocket".
Definition HealthCheckTypeGRPC : string := "grpc".

Record ErrorStatusCode := mkErrorStatusCode { esc_Code : Z; esc_ReputationSignal : string }.
Record ErrorPattern := mkErrorPattern { erp_Pattern : string; erp_ReputationSignal : string }.
Record JSONRPCErrorCode := mkJSONRPCErrorCode { jec_Code : Z; jec_ReputationSignal : string }.

Record ErrorDetection := mkErrorDetection {
  ed_StatusCodes : list ErrorStatusCode;
  ed_ResponsePatterns : list ErrorPattern;
  ed_JSONRPCErrorCodes : list JSONRPCErrorCode;
}.

Record HealthCheckConfig := mkHealthCheck {
  hcc_Name : string;
  hcc_Type : string;
  hcc_Enabled : option bool;
  hcc_Method : string;
  hcc_Path : string;
  hcc_Headers : option (gmap string string);
  hcc_Body : string;
  hcc_ExpectedStatusCode : Z;
  hcc_ExpectedResponseContains : string;
  hcc_ErrorDetection : option ErrorDetection;
  hcc_Timeout : Duration;
  hcc_Archival : bool;
  hcc_SyncCheck : bool;
  hcc_ReputationSignal : string;
}.

Record ServiceHealthCheckConfig := mkServiceHealth {
  shc_ServiceID : string;
  shc_CheckInterval : Duration;
  shc_Enabled : option bool;
  shc_SyncAllowance : option Z;
  shc_Checks : list HealthCheckConfig;
}.

Record ExternalConfigSource := mkExternalSource {
  ecs_URL : string;
  ecs_RefreshInterval : Duration;
  ecs_Timeout : Duration;
}.

Record ActiveHealthChecksConfig := mkActiveHealth {
  ahc_Enabled : bool;
  ahc_SyncAllowance : Z;
  ahc_MaxWorkers : Z;
  ahc_Coordination : LeaderElectionConfig;
  ahc_External : option ExternalConfigSource;
  ahc_Local : list ServiceHealthCheckConfig;
  ahc_BackendDedup : option bool;
}.

(** ** Defaults *)

Definition or_zero (v d : Z) : Z := if v =? 0 then d else v.
Definition or_empty (s d : string) : string := if (s =? "")%string then d else s.
Definition or_nil {A} (o : option A) (d : A) : option A := match o with None => Some d | _ => o end.

Definition HealthCheckConfig_HydrateDefaults (c : HealthCheckConfig) : HealthCheckConfig :=
  mkHealthCheck (hcc_Name c) (hcc_Type c) (or_nil (hcc_Enabled c) true) (hcc_Method c) (hcc_Path c) (hcc_Headers c) (hcc_Body c)
    (or_zero (hcc_ExpectedStatusCode c) DefaultExpectedStatusCode) (hcc_ExpectedResponseContains c) (hcc_ErrorDetection c)
    (or_zero (hcc_Timeout c) DefaultHealthCheckTimeout) (hcc_Archival c) (hcc_SyncCheck c)
    (or_empty (hcc_ReputationSignal c) DefaultReputationSignal).

Definition ServiceHealthCheckConfig_HydrateDefaults (c : ServiceHealthCheckConfig) : ServiceHealthCheckConfig :=
  mkServiceHealth (shc_ServiceID c) (or_zero (shc_CheckInterval c) DefaultHealthCheckInterval) (or_nil (shc_Enabled c) true)
    (shc_SyncAllowance c) (map HealthCheckConfig_HydrateDefaults (shc_Checks c)).

Definition ExternalConfigSource_HydrateDefaults (c : ExternalConfigSource) : ExternalConfigSource :=
  mkExternalSource (ecs_URL c) (ecs_RefreshInterval c) (or_zero (ecs_Timeout c) DefaultExternalConfigTimeout).

Definition ActiveHealthChecksConfig_HydrateDefaults (c : ActiveHealthChecksConfig) (hasRedis : bool) : ActiveHealthChecksConfig :=
  let co := ahc_Coordination c in
  let co := mkLeaderConfig (or_empty (lec_Type co) (if hasRedis then "leader_election" else "none"))
              (lec_LeaseDuration co) (lec_RenewInterval co) (lec_Key co) in
  mkActiveHealth (ahc_Enabled c) (or_zero (ahc_SyncAllowance c) DefaultSyncAllowance) (ahc_MaxWorkers c)
    (LeaderElectionConfig_HydrateDefaults co) (ExternalConfigSource_HydrateDefaults <$> ahc_External c)
    (map ServiceHealthCheckConfig_HydrateDefaults (ahc_Local c)) (or_nil (ahc_BackendDedup c) true).

(** ** Validation *)

Inductive check_error :=
| NameRequired
| TypeRequired (name : string)
| InvalidType (type name : string)
| GRPCNotImplemented (name : string)
| MethodRequired (type name : string)
| MethodInvalid (name method : string)
| PathRequired (name : string)
| InvalidSignal (signal name : string)
| DetectionEmpty (name : string)
| StatusCodeRange (i : nat) (name : string) (code : Z)
| DetectionSignal (what : string) (i : nat) (name signal : string)
| PatternEmpty (i : nat) (name : string).

Definition valid_signal (s : string) : bool :=
  bool_decide (s ∈ ["minor_error"; "major_error"; "critical_error"; "fatal_error"]).

(** The first element that a test rejects, with its index. *)
Fixpoint first_failure {A E} (test : nat -> A -> option E) (i : nat) (l : list A) : option E :=
  match l with
  | [] => None
  | x :: l => match test i x with Some e => Some e | None => first_failure test (S i) l end
  end.

Definition orelse {E} (a b : option E) : option E := match a with Some e => Some e | None => b end.

Definition ErrorDetection_Validate (ed : ErrorDetection) (checkName : string) : option check_error :=
  match ed_StatusCodes ed, ed_ResponsePatterns ed, ed_JSONRPCErrorCodes ed with
  | [], [], [] => Some (DetectionEmpty checkName)
  | scs, rps, jecs =>
      orelse (first_failure (fun i sc =>
        if (esc_Code sc <? 100) || (599 <? esc_Code sc) then Some (StatusCodeRange i checkName (esc_Code sc))
        else if negb (valid_signal (esc_ReputationSignal sc)) then Some (DetectionSignal "status_codes" i checkName (esc_ReputationSignal sc))
        else None) 0 scs)
      (orelse (first_failure (fun i p =>
        if (erp_Pattern p =? "")%string then Some (PatternEmpty i checkName)
        else if negb (valid_signal (erp_ReputationSignal p)) then Some (DetectionSignal "response_patterns" i checkName (erp_ReputationSignal p))
        else None) 0 rps)
      (first_failure (fun i e =>
        if negb (valid_signal (jec_ReputationSignal e)) then Some (DetectionSignal "jsonrpc_error_codes" i checkName (jec_ReputationSignal e))
        else None) 0 jecs))
  end.

Definition is_http_type (t : string) : bool :=
  bool_decide (t ∈ [HealthCheckTypeJSONRPC; HealthCheckTypeREST; HealthCheckTypeCometBFT]).

Definition HealthCheckConfig_Validate (c : HealthCheckConfig) : option check_error :=
  let name := hcc_Name c in
  if (name =? "")%string then Some NameRequired
  else if (hcc_Type c =? "")%string then Some (TypeRequired name)
  else if negb (is_http_type (hcc_Type c) || bool_decide (hcc_Type c ∈ [HealthCheckTypeWebSocket; HealthCheckTypeGRPC]))
  then Some (InvalidType (hcc_Type c) name)
  else if (hcc_Type c =? HealthCheckTypeGRPC)%string then Some (GRPCNotImplemented name)
  else if is_http_type (hcc_Type c) && (hcc_Method c =? "")%string then Some (MethodRequired (hcc_Type c) name)
  else if is_http_type (hcc_Type c) && negb (hcc_Method c =? "GET")%string && negb (hcc_Method c =? "POST")%string
  then Some (MethodInvalid name (hcc_Method c))
  else if (hcc_Path c =? "")%string then Some (PathRequired name)
  else if negb (valid_signal (hcc_ReputationSignal c) || (hcc_ReputationSignal c =? "")%string)
  then Some (InvalidSignal (hcc_ReputationSignal c) name)
  else match hcc_ErrorDetection c with Some ed => ErrorDetection_Validate ed name | None => None end.

Inductive health_config_error :=
| ServiceIDRequired
| NoChecks (serviceID : string)
| BadCheck (i : nat) (e : check_error)
| ExternalURLRequired
| InvalidCoordination (type : string)
| BadLocal (i : nat) (e : health_config_error)
| DuplicateCheck (serviceID name : string).

Definition ServiceHealthCheckConfig_Validate (c : ServiceHealthCheckConfig) : option health_config_error :=
  if (shc_ServiceID c =? "")%string then Some ServiceIDRequired
  else match shc_Checks c with
       | [] => Some (NoChecks (shc_ServiceID c))
       | checks => first_failure (fun i k => BadCheck i <$> HealthCheckConfig_Validate k) 0 checks
       end.

Definition ExternalConfigSource_Validate (c : ExternalConfigSource) : option health_config_error :=
  if (ecs_URL c =? "")%string then Some ExternalURLRequired else None.

(** The pairs in the order of the two loops, and the key they are compared by. *)
Definition check_pairs (local : list ServiceHealthCheckConfig) : list (string * string) :=
  svc ← local; map (fun k => (shc_ServiceID svc, hcc_Name k)) (shc_Checks svc).
Definition uniqueness_key (p : string * string) : string := p.1 +:+ ":" +:+ p.2.

Fixpoint first_duplicate (seen : gset string) (l : list (string * string)) : option health_config_error :=
  match l with
  | [] => None
  | p :: l => if bool_decide (uniqueness_key p ∈ seen) then Some (DuplicateCheck p.1 p.2)
              else first_duplicate ({[uniqueness_key p]} ∪ seen) l
  end.

Definition ValidateUniqueness (c : ActiveHealthChecksConfig) : option health_config_error :=
  first_duplicate ∅ (check_pairs (ahc_Local c)).

Definition ActiveHealthChecksConfig_Validate (c : ActiveHealthChecksConfig) : option health_config_error :=
  if negb (bool_decide (lec_Type (ahc_Coordination c) ∈ [""; "leader_election"; "none"]))
  then Some (InvalidCoordination (lec_Type (ahc_Coordination c)))
  else orelse (ahc_External c ≫= ExternalConfigSource_Validate)
      (orelse (first_failure (fun i svc => BadLocal i <$> ServiceHealthCheckConfig_Validate svc) 0 (ahc_Local c))
        (ValidateUniqueness c)).

(** ** The observation pipeline and retries *)

Record ObservationPipelineConfig := mkPipeline {
  opc_Enabled : bool;
  opc_SampleRate : float64;
  opc_WorkerCount : Z;
  opc_QueueSize : Z;
}.

Definition DefaultObservationPipelineSampleRate : float64 := f64_ratio 1 10.
Definition DefaultObservationPipelineWorkerCount : Z := 4.
Definition DefaultObservationPipelineQueueSize : Z := 1000.

Definition ObservationPipelineConfig_HydrateDefaults (c : ObservationPipelineConfig) : ObservationPipelineConfig :=
  mkPipeline (opc_Enabled c)
    (if feqb (opc_SampleRate c) f_zero && opc_Enabled c then DefaultObservationPipelineSampleRate else opc_SampleRate c)
    (or_zero (opc_WorkerCount c) DefaultObservationPipelineWorkerCount)
    (or_zero (opc_QueueSize c) DefaultObservationPipelineQueueSize).

Inductive pipeline_error := SampleRateRange (r : float64) | WorkerCountNegative (n : Z) | QueueSizeNegative (n : Z).

Definition ObservationPipelineConfig_Validate (c : ObservationPipelineConfig) : option pipeline_error :=
  if fltb (opc_SampleRate c) f_zero || fgtb (opc_SampleRate c) f_one then Some (SampleRateRange (opc_SampleRate c))
  else if opc_WorkerCount c <? 0 then Some (WorkerCountNegative (opc_WorkerCount c))
  else if opc_QueueSize c <? 0 then Some (QueueSizeNegative (opc_QueueSize c))
  else None.

Record RetryConfig := mkRetry { rc_MaxRetries : Z; rc_MaxRetryLatency : option Duration }.
Inductive retry_error := TooManyRetries (n : Z) | NegativeRetryLatency (d : Duration).

Definition RetryConfig_Validate (c : RetryConfig) : option retry_error :=
  if 10 <? rc_MaxRetries c then Some (TooManyRetries (rc_MaxRetries c))
  else match rc_MaxRetryLatency c with
       | Some d => if d <? 0 then Some (NegativeRetryLatency d) else None
       | None => None
       end.

(** ** Merging *)

(** The value of the last element with a key: later entries of the loop overwrite earlier ones. *)
Definition by_key {A} (key : A -> string) (l : list A) : gmap string A := fold_left (fun m x => <[key x := x]> m) l ∅.

(** The base in its order, each element overridden by the local one with its key, then the local
    elements whose key the base does not have. *)
Definition merge_by {A} (key : A -> string) (join : A -> A -> A) (base local : list A) : list A :=
  let localBy := by_key key local in
  map (fun x => match localBy !! key x with Some y => join x y | None => x end) base ++
  filter (fun y => key y ∉ map key base) local.

Definition mergeHealthCheckConfigs : list HealthCheckConfig -> list HealthCheckConfig -> list HealthCheckConfig :=
  merge_by hcc_Name (fun _ localCheck => localCheck).

Definition mergeServiceConfigs (external local : ServiceHealthCheckConfig) : ServiceHealthCheckConfig :=
  mkServiceHealth (shc_ServiceID local)
    (if 0 <? shc_CheckInterval local then shc_CheckInterval local else shc_CheckInterval external)
    (match shc_Enabled local with Some b => Some b | None => shc_Enabled external end)
    (match shc_SyncAllowance local with Some n => Some n | None => shc_SyncAllowance external end)
    (mergeHealthCheckConfigs (shc_Checks external) (shc_Checks local)).

Definition mergeConfigs : list ServiceHealthCheckConfig -> list ServiceHealthCheckConfig -> list ServiceHealthCheckConfig :=
  merge_by shc_ServiceID mergeServiceConfigs.

(** What the unified configuration contributes for a service; [hce_unified] holds it as
    [GetMergedServiceConfig] of ServiceConfig.v returns it for each service. *)
Record ServiceHealthCheckOverride := mkHealthOverride {
  sho_Enabled : option bool;
  sho_Interval : Duration;
  sho_SyncAllowance : option Z;
  sho_External : option ExternalConfigSource;
  sho_Local : list HealthCheckConfig;
}.

Record HealthCheckExecutor := mkExecutor {
  hce_config : option ActiveHealthChecksConfig;
  hce_externalConfigs : list ServiceHealthCheckConfig;
  hce_unified : option (list (string * option ServiceHealthCheckOverride));
  hce_perServiceExternal : gmap string (list HealthCheckConfig);
}.

Definition final_checks (externalChecks localChecks : list HealthCheckConfig) : list HealthCheckConfig :=
  match externalChecks, localChecks with
  | _ :: _, _ :: _ => mergeHealthCheckConfigs externalChecks localChecks
  | _, _ :: _ => localChecks
  | _, _ => externalChecks
  end.

Definition getUnifiedServicesHealthChecks (e : HealthCheckExecutor) : list ServiceHealthCheckConfig :=
  let localConfigMap := by_key shc_ServiceID (match hce_config e with Some c => ahc_Local c | None => [] end) in
  omap (fun '(id, merged) =>
    match merged with
    | None => None
    | Some h =>
        if match sho_Enabled h with Some false => true | _ => false end then None
        else match final_checks (default [] (hce_perServiceExternal e !! id)) (sho_Local h) with
             | [] => None
             | finalChecks =>
                 let checkInterval := match localConfigMap !! id with
                                      | Some l => if 0 <? shc_CheckInterval l then shc_CheckInterval l else sho_Interval h
                                      | None => sho_Interval h
                                      end in
                 Some (mkServiceHealth id checkInterval None (sho_SyncAllowance h) finalChecks)
             end
    end) (default [] (hce_unified e)).

Definition merge_or {A} (merge : list A -> list A -> list A) (base over : list A) : list A :=
  match over, base with
  | [], _ => base
  | _, [] => over
  | _, _ => merge base over
  end.

Definition GetServiceConfigs (e : HealthCheckExecutor) : list ServiceHealthCheckConfig :=
  match hce_config e with
  | None => getUnifiedServicesHealthChecks e
  | Some c =>
      let base := match ahc_External c with
                  | Some x => if (ecs_URL x =? "")%string then [] else hce_externalConfigs e
                  | None => []
                  end in
      merge_or mergeConfigs (merge_or mergeConfigs base (ahc_Local c)) (getUnifiedServicesHealthChecks e)
  end.

Definition GetConfigForService (e : HealthCheckExecutor) (serviceID : string) : option ServiceHealthCheckConfig :=
  List.find (fun c => (shc_ServiceID c =? serviceID)%string) (GetServiceConfigs e).

(** [enabled: false] switches a service or a check off; unset means on. *)
Definition switched_on (o : option bool) : bool := match o with Some false => false | _ => true end.

Definition HealthCheckExecutor_IsEnabled (e : HealthCheckExecutor) : bool :=
  match hce_config e with Some c => ahc_Enabled c | None => false end.

Definition ShouldRunChecks (e : HealthCheckExecutor) (elector : option LeaderElector) : bool :=
  HealthCheckExecutor_IsEnabled e && match elector with Some l => le_isLeader l | None => true end.

Definition countServicesAndChecks (config : option ActiveHealthChecksConfig) : Z * Z :=
  match config with
  | None => (0, 0)
  | Some c =>
      match ahc_Local c with
      | [] => (0, 0)
      | local =>
          let totalChecks := zsum (fun s => Z.of_nat (List.length (shc_Checks s))) local in
          let serviceCount := Z.of_nat (List.length local) in
          let avgChecks := totalChecks ÷ serviceCount in
          (serviceCount, if (avgChecks =? 0) && (0 <? totalChecks) then 1 else avgChecks)
      end
  end.

Definition serviceCheckInterval (cfg : ServiceHealthCheckConfig) : Duration :=
  if 0 <? shc_CheckInterval cfg then shc_CheckInterval cfg else DefaultHealthCheckInterval.

Definition MinCheckInterval (e : option HealthCheckExecutor) : Duration :=
  match e with
  | None => DefaultHealthCheckInterval
  | Some e =>
      let minInterval := fold_left (fun m cfg =>
        if switched_on (shc_Enabled cfg) then
          let iv := serviceCheckInterval cfg in if (m =? 0) || (iv <? m) then iv else m
        else m) (GetServiceConfigs e) 0 in
      if minInterval <=? 0 then DefaultHealthCheckInterval else minInterval
  end.
