(* ===== verification/HealthCheck.v ===== *)
(** * One health check: gateway/health_check_executor.go and health_check_qos_context.go

    The payload a check sends, the judgement of the response (heuristics, expectations, sync check,
    known errors), and what an outcome leaves behind: reputation signals, observations, archival
    marks and blacklist releases, as a trace of effects in the order the code causes them.  The
    relay itself is the argument [probe]; metrics and logs are left out. *)

From S2P Require Import Prelude GoStrings Utf8 Float64 Domain RepKey Signals Json JsonRpc CircuitBreaker Heuristic RelayPolicy PoolGuards RpcDetect Leader HealthConfig RPCTypes.
From Stdlib Require Import ZArith Lia Bool Ascii String.
From stdpp Require Import base gmap strings fin_maps list.

Open Scope string_scope.
Open Scope Z_scope.
Open Scope list_scope.

(** ** Reading block heights *)

(** [strconv.ParseInt(s, 16, 64)]: no prefix and no underscores. *)
Definition parse_hex_int (s : string) : option Z :=
  let digits d := if contains_byte "_" d || (d =? "")%string then None else parse_base 16 0 d in
  let v := match s with
           | String c s' => if Ascii.eqb c "-" then Z.opp <$> digits s' else if Ascii.eqb c "+" then digits s' else digits s
           | EmptyString => None
           end in
  v ≫= fun z => if (min_int64 <=? z) && (z <=? max_int64) then Some z else None.

Inductive height_error :=
| HeightBadJSON
| HeightRPCError
| HeightNoResult
| HeightBadNumber (what : string)
| HeightShape.

Definition parseHexBlockNumber (hexStr : string) : result height_error Z :=
  let hexStr := if (2 <? String.length hexStr)%nat && (str_take 2 hexStr =? "0x")%string then str_drop 2 hexStr else hexStr in
  match parse_hex_int hexStr with Some h => Ok h | None => Err (HeightBadNumber "hex block number") end.

(** The float64 of a JSON number literal. *)
Definition lit_float (lit : string) : float64 :=
  let neg := has_prefix "-" lit in
  let '(m, n, e) := split_number false lit in
  let mant := digits_val 0 m in
  let ex := exponent_val e - Z.of_nat n in
  let v := if 0 <=? ex then f64_ratio (mant * 10 ^ ex) 1 else f64_ratio mant (10 ^ (- ex)) in
  if neg then fsub f_zero v else v.

(** A [map[string]interface{}]: names are compared exactly and the last value of a name counts. *)
Definition any_get (name : string) (ms : list (string * (string * json))) : option json :=
  snd <$> last (map snd (filter (fun m => unquote (fst m) = name) ms)).

Definition decimal_height (what raw : string) : result height_error Z :=
  match parse_int (unquote raw) with Some h => Ok h | None => Err (HeightBadNumber what) end.

Definition extractBlockHeight (responseBody : string) : result height_error Z :=
  match parse responseBody with
  | Some (JObject ms) =>
      if negb (any_ok (JObject ms)) then Err HeightBadJSON
      else match any_get "error" ms with
      | Some JNull | None =>
          match any_get "result" ms with
          | None =>
              match any_get "data" ms with
              | Some (JObject d) =>
                  match any_get "head_slot" d with
                  | Some (JString raw) => decimal_height "head_slot" raw
                  | Some (JNumber lit) => Ok (f64_trunc (lit_float lit))
                  | _ => Err HeightNoResult
                  end
              | _ => Err HeightNoResult
              end
          | Some (JString raw) =>
              let v := unquote raw in
              if has_prefix "0x" v || has_prefix "0X" v then parseHexBlockNumber v else decimal_height "decimal block number" raw
          | Some (JNumber lit) => Ok (f64_trunc (lit_float lit))
          | Some (JObject r) =>
              let otherwise := match any_get "blockHeight" r with
                               | Some (JNumber lit) => Ok (f64_trunc (lit_float lit))
                               | _ => Err HeightShape
                               end in
              match any_get "sync_info" r with
              | Some (JObject si) =>
                  match any_get "latest_block_height" si with
                  | Some (JString raw) => decimal_height "sync_info" raw
                  | Some (JNumber lit) => Ok (f64_trunc (lit_float lit))
                  | _ => otherwise
                  end
              | _ => otherwise
              end
          | Some _ => Err HeightShape
          end
      | Some _ => Err HeightRPCError
      end
  | Some JNull => Err HeightNoResult
  | _ => Err HeightBadJSON
  end.

Inductive sync_verdict := SyncPasses | SyncNotApplicable | SyncFails (text : string).

(** [perceived]: what the QoS instance of the service reports, [None] without one.  The texts name
    the numbers only. *)
Definition validateSyncCheck (perceived : option Z) (responseBody : string) (syncAllowance : Z) : sync_verdict :=
  match extractBlockHeight responseBody with
  | Err _ => SyncNotApplicable
  | Ok endpointHeight =>
      if endpointHeight =? 0 then SyncFails "endpoint returned block height 0 - invalid or unsynced node"
      else match perceived with
           | None => SyncPasses
           | Some perceivedHeight =>
               if perceivedHeight =? 0 then SyncPasses
               else
                 let minAllowedHeight := Z.max 0 (wrap64 (wrap64 perceivedHeight - wrap64 syncAllowance)) in
                 if endpointHeight <? minAllowedHeight
                 then SyncFails ("sync check failed: endpoint height " +:+ fmt_int endpointHeight +:+ " is "
                        +:+ fmt_int (wrap64 (wrap64 perceivedHeight - endpointHeight)) +:+ " blocks behind perceived "
                        +:+ fmt_int perceivedHeight +:+ " (allowance: " +:+ fmt_int syncAllowance +:+ ")")
                 else SyncPasses
           end
  end.

(** ** Known errors *)

(** A [*struct{ Code int }] field named error, as in [error_field] but with the code alone. *)
Definition error_code_field (ms : list (string * (string * json))) : option (option Z) :=
  let step (cur : option (option (list (string * (string * json))))) (x : string * json) :=
    match cur, snd x with
    | None, _ => None
    | Some _, JNull => Some None
    | Some None, JObject f => Some (Some f)
    | Some (Some f0), JObject f => Some (Some (f0 ++ f)%list)
    | _, _ => None
    end in
  match fold_left step (field_values "error" ms) (Some None) with
  | None => None
  | Some None => Some None
  | Some (Some f) => Some <$> int_field "code" f
  end.

Definition response_error_code (responseBody : string) : option Z :=
  match parse responseBody with
  | Some v => match as_struct v with
              | Some ms => match error_code_field ms with Some code => code | None => None end
              | None => None
              end
  | None => None
  end.

(** [strconv.Quote] *)
Class GoQuote := go_quote : string -> string.

Section Check.
Context `{UnicodeCase} `{RPCTypeMembers}.

(** The signal of the first rule that matches, and the error. *)
Definition detectKnownErrors (errorDetection : option ErrorDetection) (httpStatusCode : Z) (responseBody : string)
  : option (string * string) :=
  match errorDetection with
  | None => None
  | Some ed =>
      match List.find (fun c => httpStatusCode =? esc_Code c) (ed_StatusCodes ed) with
      | Some c => Some (esc_ReputationSignal c, "detected error status code: " +:+ fmt_int (esc_Code c))
      | None =>
          match List.find (fun p => str_contains (to_lower_u responseBody) (to_lower_u (erp_Pattern p))) (ed_ResponsePatterns ed) with
          | Some p => Some (erp_ReputationSignal p, "detected error pattern in response: " +:+ erp_Pattern p)
          | None =>
              match response_error_code responseBody with
              | Some code =>
                  match List.find (fun c => code =? jec_Code c) (ed_JSONRPCErrorCodes ed) with
                  | Some c => Some (jec_ReputationSignal c, "detected JSON-RPC error code: " +:+ fmt_int (jec_Code c))
                  | None => None
                  end
              | None => None
              end
          end
      end
  end.

(** ** The expectations of a check: HealthCheckQoSContext *)

Record HealthCheckQoSContext := mkHealthQoS {
  hq_checkConfig : HealthCheckConfig;
  hq_responseReceived : bool;
  hq_responseSuccess : bool;
  hq_responseError : string;
}.

Definition NewHealthCheckQoSContext (check : HealthCheckConfig) : HealthCheckQoSContext := mkHealthQoS check false false "".

Definition health_UpdateWithResponse (hc : HealthCheckQoSContext) (body : string) (httpStatusCode : Z) : HealthCheckQoSContext :=
  let c := hq_checkConfig hc in
  if negb (hcc_ExpectedStatusCode c =? 0) && negb (httpStatusCode =? hcc_ExpectedStatusCode c)
  then mkHealthQoS c true false "unexpected status code"
  else if negb (hcc_ExpectedResponseContains c =? "")%string && negb (str_contains body (hcc_ExpectedResponseContains c))
  then mkHealthQoS c true false "response does not contain expected content"
  else mkHealthQoS c true true "".

Definition health_IsSuccess (hc : HealthCheckQoSContext) : bool := hq_responseReceived hc && hq_responseSuccess hc.

(** ** The payload *)

(** The headers sent, and the map of the configuration after the call: a configured map is shared,
    and the default content type is written into it. *)
Definition check_headers (c : HealthCheckConfig) : gmap string string * option (gmap string string) :=
  let headers := default ∅ (hcc_Headers c) in
  let headers := if (hcc_Method c =? "POST")%string && (default "" (headers !! "Content-Type") =? "")%string
                 then <["Content-Type" := "application/json"]> headers else headers in
  (headers, match hcc_Headers c with Some _ => Some headers | None => None end).

Context `{RPCTypeConfig} `{RepKey.RPCTypeEnum} `{DomainLib}.

Definition buildServicePayload (c : HealthCheckConfig) : Payload :=
  mkPayload (hcc_Body c) (hcc_Method c) (hcc_Path c)
    (match ParseRPCType (hcc_Type c) with Ok t => t | Err _ => RPCType_UNKNOWN_RPC end)
    RPCType_UNKNOWN_RPC (extractJSONRPCMethod (hcc_Body c)).

(** ** Signals of outcomes *)

Definition mapSignalType (now : Time) (signalType reason : string) (latency : Duration) : Signal :=
  if (signalType =? "minor_error")%string then NewMinorErrorSignal now reason
  else if (signalType =? "major_error")%string then NewMajorErrorSignal now reason latency
  else if (signalType =? "critical_error")%string then NewCriticalErrorSignal now reason latency
  else if (signalType =? "fatal_error")%string then NewFatalErrorSignal now reason
  else if (signalType =? "recovery_success")%string then NewRecoverySuccessSignal now latency
  else NewMinorErrorSignal now reason.

Definition as_health_check (s : Signal) : Signal :=
  mkSignal (sig_Type s) (sig_Timestamp s) (sig_Latency s) (sig_Reason s) true (sig_IsProtocolViolation s) (sig_Metadata s).

(** What a check leaves behind. *)
Inductive probe_effect :=
| Relayed (addr : EndpointAddr) (p : Payload)
| Recorded (key : EndpointKey) (s : Signal)
| Observed (addr : EndpointAddr) (archivalCheck : bool) (p : Payload) (httpStatus : Z) (body : string)
| ArchivalSet (key : EndpointKey) (isArchival : bool) (ttl : Duration)
| QoSArchival (addr : EndpointAddr) (isArchival : bool)
| SupplierReleased (supplier : string)
| WebSocketProbed (addr : EndpointAddr) (check : HealthCheckConfig).

(** What the executor reads of its collaborators while a job runs. *)
Record probe_env := mkProbeEnv {
  pe_now : Time;
  pe_keyBuilder : KeyBuilder;
  pe_hasQoS : bool;
  pe_perceived : option Z;
  pe_observing : bool;
}.

Definition recordCheckResult (env : probe_env) (serviceID : string) (addr : EndpointAddr) (check : HealthCheckConfig)
  (checkErr : option string) (latency : Duration) : list probe_effect :=
  let rpcType := rpc_value (to_upper (hcc_Type check)) in
  let key := BuildKey (pe_keyBuilder env) serviceID addr rpcType in
  if (hcc_Type check =? HealthCheckTypeWebSocket)%string then []
  else match checkErr with
       | None => [Recorded key (as_health_check (NewRecoverySuccessSignal (pe_now env) latency))]
       | Some e =>
           if IsOverServicedError e then []
           else [Recorded key (as_health_check (mapSignalType (pe_now env) (hcc_ReputationSignal check) e latency))]
       end.

Definition archivalTTL : Duration := 30 * minute.

Definition markEndpointArchival (env : probe_env) (serviceID : string) (addr : EndpointAddr) : list probe_effect :=
  ArchivalSet (NewEndpointKey serviceID addr RPCType_JSON_RPC) true archivalTTL ::
  if pe_hasQoS env then [QoSArchival addr true] else [].

Definition clearEndpointArchival (env : probe_env) (serviceID : string) (addr : EndpointAddr) : list probe_effect :=
  ArchivalSet (NewEndpointKey serviceID addr RPCType_JSON_RPC) false 0 ::
  if pe_hasQoS env then [QoSArchival addr false] else [].

Definition processObservationSync (env : probe_env) (addr : EndpointAddr) (check : HealthCheckConfig) (p : Payload)
  (httpStatus : Z) (body : string) : list probe_effect :=
  if pe_observing env then [Observed addr (hcc_Archival check) p httpStatus body] else [].

(** ** One check through the protocol *)

(** How the relay of a check went. *)
Inductive probe_result :=
| ProbeNotBuilt (err : string)
| ProbeFailed (err : string)
| ProbeAnswered (responses : list relay_response).

Record checkOutcome := mkOutcome {
  co_check : HealthCheckConfig;
  co_err : option string;
  co_latency : Duration;
  co_httpStatus : Z;
  co_body : string;
  co_archivalResolved : bool;
  co_archivalPass : bool;
}.

Context `{GoQuote}.

(** [AnalysisResult.Details] of the results that ask for a retry. *)
Definition result_details (r : AnalysisResult) (jsonrpcMethod : string) : string :=
  if has_prefix "error_indicator_" (Reason r) then "Detected error pattern: " +:+ MatchedPattern r
  else if (Reason r =? "jsonrpc_invalid_empty_array")%string
  then "JSON-RPC result is [] for method " +:+ go_quote jsonrpcMethod +:+ " which should never return an array"
  else default "" (assoc_get (Reason r)
    [ ("http_4xx", "HTTP 4xx client error status code");
      ("http_5xx", "HTTP 5xx server error status code");
      ("jsonrpc_empty_object_result", "JSON-RPC result is an empty object — never valid for EVM/Solana methods");
      ("cometbft_invalid_empty_array", "CometBFT result is [] — no CometBFT method ever returns an array");
      ("jsonrpc_fabricated_parse_error", "Supplier returned -32700 parse error for valid JSON-RPC request");
      ("jsonrpc_wrapped_service_error", "Supplier wrapped a backend service error as JSON-RPC -32603");
      ("jsonrpc_both_result_and_error", "JSON-RPC response has both result and error (malformed)");
      ("error_without_jsonrpc_version", "Response has error field but missing jsonrpc version");
      ("jsonrpc_missing_result_and_error", "JSON-RPC response missing both result and error fields");
      ("small_no_result", "Small response without result field");
      ("rest_empty_object", "REST response is an empty JSON object");
      ("rest_protocol_mismatch_error", "REST request received a JSON-RPC error response — supplier likely doesn't support REST");
      ("rest_protocol_mismatch", "REST request received a JSON-RPC formatted response — supplier is likely gaming");
      ("rest_error_field", "REST response contains error field near start");
      ("rest_code_message_error", "REST response has code and message fields (likely error)");
      ("empty_response", "Response body is empty");
      ("html_error_page", "Response is HTML (likely error page)");
      ("xml_response", "Response is XML (unexpected for JSON API)");
      ("non_json_provider_auth_error", "Response is plain text indicating upstream provider API-key rejection");
      ("non_json_capability_limitation", "Response is plain text indicating node capability limitation");
      ("non_json_response", "Response is plain text (not JSON)");
      ("malformed_json", "Response appears to be malformed JSON") ]).

Definition heuristic_error (r : AnalysisResult) (jsonrpcMethod : string) : string :=
  "heuristic detected error: " +:+ Reason r +:+ " - " +:+ result_details r jsonrpcMethod.

(** The supplier of an endpoint address, for the blacklist. *)
Definition probed_supplier (addr : EndpointAddr) : string :=
  match str_index "-" addr with Some (S n) => str_take (S n) addr | _ => addr end.

Definition failed_outcome (check : HealthCheckConfig) (latency : Duration) (e : string) (httpStatus : Z) (body : string) (resolved : bool)
  : checkOutcome := mkOutcome check (Some e) latency httpStatus body resolved false.

(** After the response has met its expectations. *)
Definition judge_response (env : probe_env) (serviceID : string) (addr : EndpointAddr) (check : HealthCheckConfig)
  (syncAllowance : Z) (latency : Duration) (httpStatus : Z) (body : string) : checkOutcome * list probe_effect :=
  let sync := if hcc_SyncCheck check && (0 <? syncAllowance) then validateSyncCheck (pe_perceived env) body syncAllowance else SyncPasses in
  match sync with
  | SyncFails e => (failed_outcome check latency e httpStatus body false, [])
  | _ =>
      match detectKnownErrors (hcc_ErrorDetection check) httpStatus body with
      | Some (_, e) => (failed_outcome check latency e httpStatus body false, [])
      | None =>
          (mkOutcome check None latency httpStatus body (hcc_Archival check) (hcc_Archival check),
           SupplierReleased (probed_supplier addr) ::
           if hcc_Archival check then markEndpointArchival env serviceID addr else [])
      end
  end.

Definition ExecuteCheckViaProtocol (env : probe_env) (serviceID : string) (addr : EndpointAddr) (check : HealthCheckConfig)
  (syncAllowance : Z) (latency : Duration) (probe : probe_result) : checkOutcome * list probe_effect :=
  if negb (switched_on (hcc_Enabled check)) then (mkOutcome check None 0 0 "" false false, [])
  else
    let payload := buildServicePayload check in
    match probe with
    | ProbeNotBuilt e => (failed_outcome check latency ("failed to build protocol context: " +:+ e) 0 "" false, [])
    | ProbeFailed e => (failed_outcome check latency e 0 "" false, [Relayed addr payload])
    | ProbeAnswered responses =>
        let hc := fold_left (fun hc r => health_UpdateWithResponse hc (rr_body r) (rr_HTTPStatusCode r)) responses (NewHealthCheckQoSContext check) in
        let httpStatus := match last responses with Some r => rr_HTTPStatusCode r | None => 0 end in
        let body := match last responses with Some r => rr_body r | None => "" end in
        let method := payload_method payload in
        let heur := Analyze Heuristic.DefaultConfig body httpStatus (EffectiveRPCType payload) method in
        if ShouldRetry heur then (failed_outcome check latency (heuristic_error heur method) httpStatus body false, [Relayed addr payload])
        else
          let observed := processObservationSync env addr check payload httpStatus body in
          if negb (health_IsSuccess hc) then
            (failed_outcome check latency ("health check validation failed: " +:+ hq_responseError hc) httpStatus body (hcc_Archival check),
             Relayed addr payload :: observed ++ if hcc_Archival check then clearEndpointArchival env serviceID addr else [])
          else
            let '(o, effects) := judge_response env serviceID addr check syncAllowance latency httpStatus body in
            (o, Relayed addr payload :: observed ++ effects)
    end.

(** ** All checks of an endpoint, and the siblings of its backend *)

(** The relay of the [i]-th check of an address: how long it took and how it went. *)
Definition prober : Type := EndpointAddr -> nat -> Duration * probe_result.

Definition sync_allowance (svcConfig : ServiceHealthCheckConfig) : Z :=
  match shc_SyncAllowance svcConfig with Some n => if 0 <? n then n else 0 | None => 0 end.

(** [poolAccepts]: whether the websocket pool takes the job. *)
Fixpoint run_checks (env : probe_env) (serviceID : string) (addr : EndpointAddr) (syncAllowance : Z) (runHTTP runWS hasWebsocketURL poolAccepts : bool)
  (probe : prober) (i : nat) (checks : list HealthCheckConfig) : list checkOutcome * list probe_effect :=
  match checks with
  | [] => ([], [])
  | check :: checks =>
      let '(outcomes, effects) := run_checks env serviceID addr syncAllowance runHTTP runWS hasWebsocketURL poolAccepts probe (S i) checks in
      if (hcc_Type check =? HealthCheckTypeWebSocket)%string then
        (outcomes, (if runWS && hasWebsocketURL && poolAccepts then [WebSocketProbed addr check] else []) ++ effects)
      else if (hcc_Type check =? HealthCheckTypeGRPC)%string then (outcomes, effects)
      else if negb runHTTP then (outcomes, effects)
      else
        let '(latency, p) := probe addr i in
        let '(o, es) := ExecuteCheckViaProtocol env serviceID addr check syncAllowance latency p in
        (o :: outcomes, es ++ recordCheckResult env serviceID addr check (co_err o) (co_latency o) ++ effects)
  end.

Definition runEndpointChecks (env : probe_env) (serviceID : string) (addr : EndpointAddr) (svcConfig : ServiceHealthCheckConfig)
  (runHTTP runWS hasWebsocketURL poolAccepts : bool) (probe : prober) : list checkOutcome * list probe_effect :=
  run_checks env serviceID addr (sync_allowance svcConfig) runHTTP runWS hasWebsocketURL poolAccepts probe 0 (shc_Checks svcConfig).

Definition fan_outcome (env : probe_env) (serviceID : string) (siblingAddr : EndpointAddr) (o : checkOutcome) : list probe_effect :=
  recordCheckResult env serviceID siblingAddr (co_check o) (co_err o) (co_latency o) ++
  (if (co_body o =? "")%string then []
   else processObservationSync env siblingAddr (co_check o) (buildServicePayload (co_check o)) (co_httpStatus o) (co_body o)) ++
  (if co_archivalResolved o
   then if co_archivalPass o then markEndpointArchival env serviceID siblingAddr else clearEndpointArchival env serviceID siblingAddr
   else []).

Definition fanOutcomeToSibling (env : probe_env) (serviceID : string) (siblingAddr : EndpointAddr) (outcomes : list checkOutcome) : list probe_effect :=
  outcomes ≫= fan_outcome env serviceID siblingAddr.

Definition RunChecksForEndpointViaProtocol (e : HealthCheckExecutor) (env : probe_env) (serviceID : string) (addr : EndpointAddr)
  (poolAccepts : bool) (probe : prober) : option (gmap string (option string)) * list probe_effect :=
  match GetConfigForService e serviceID with
  | None => (None, [])
  | Some svcConfig =>
      if negb (switched_on (shc_Enabled svcConfig)) then (None, [])
      else let '(outcomes, effects) := runEndpointChecks env serviceID addr svcConfig true true false poolAccepts probe in
           (Some (fold_left (fun m o => <[hcc_Name (co_check o) := co_err o]> m) outcomes ∅), effects)
  end.
End Check.
