(* ===== verification/HealthCycle.v ===== *)
(** * The health check cycle: gateway/health_check_executor.go

    Which services are due on a tick, the resolution of their endpoints under a budget, the grouping
    of endpoints by backend URL with a rotating representative, and the jobs a cycle submits.  Jobs
    run concurrently; each is the list of its own effects. *)

From S2P Require Import Prelude GoStrings Utf8 GoSort Domain RepKey Signals Heuristic RelayPolicy PoolGuards RpcDetect Leader HealthConfig HealthCheck RPCTypes.
From Stdlib Require Import ZArith Lia Bool Ascii String.
From stdpp Require Import base gmap strings fin_maps list.

Open Scope string_scope.
Open Scope Z_scope.
Open Scope list_scope.

(** ** Scheduling *)

Record schedule := mkSchedule {
  sc_lastRun : gmap string Time;
  sc_cycle : gmap string Z;
}.

Record due_state := mkDue {
  ds_schedule : schedule;
  ds_due : gmap string Z;
  ds_live : gset string;
}.

Definition due_step (now : Time) (slack : Duration) (d : due_state) (cfg : ServiceHealthCheckConfig) : due_state :=
  let id := shc_ServiceID cfg in let s := ds_schedule d in
  if negb (switched_on (shc_Enabled cfg)) then d
  else
    let live := {[id]} ∪ ds_live d in
    if bool_decide (is_Some (ds_due d !! id)) then mkDue s (ds_due d) live
    else if match sc_lastRun s !! id with
            | Some lastRun => time_sub now lastRun <? wrap64 (serviceCheckInterval cfg - slack)
            | None => false
            end then mkDue s (ds_due d) live
    else
      let cycle := wrapu64 (default 0 (sc_cycle s !! id) + 1) in
      mkDue (mkSchedule (<[id := now]> (sc_lastRun s)) (<[id := cycle]> (sc_cycle s))) (<[id := cycle]> (ds_due d)) live.

Definition dueServices (s : schedule) (serviceConfigs : list ServiceHealthCheckConfig) (now : Time) (tick : Duration) : gmap string Z * schedule :=
  let tick := if tick <=? 0 then DefaultHealthCheckInterval else tick in
  let d := fold_left (due_step now (tick ÷ 2)) serviceConfigs (mkDue s ∅ ∅) in
  let s := ds_schedule d in
  (ds_due d, mkSchedule (filter (fun p => p.1 ∈ ds_live d) (sc_lastRun s))
                        (filter (fun p => p.1 ∈ ds_live d \/ sc_lastRun s !! p.1 = None) (sc_cycle s))).

(** ** Grouping *)

Record EndpointInfo := mkEndpointInfo {
  ei_Addr : EndpointAddr;
  ei_HTTPURL : string;
  ei_WebSocketURL : string;
  ei_SessionID : string;
}.

#[export] Instance EndpointInfo_eq_dec : EqDecision EndpointInfo.
Proof. solve_decision. Defined.

Definition representativeIndex (cycle : Z) (groupSize : nat) : nat :=
  if (groupSize <=? 1)%nat then 0%nat else Z.to_nat (cycle mod Z.of_nat groupSize).

Definition add_to_group (m : gmap string (list EndpointInfo)) (ep : EndpointInfo) : gmap string (list EndpointInfo) :=
  if (ei_HTTPURL ep =? "")%string then m else <[ei_HTTPURL ep := default [] (m !! ei_HTTPURL ep) ++ [ep]]> m.
Definition groups_by_url (endpoints : list EndpointInfo) : gmap string (list EndpointInfo) := fold_left add_to_group endpoints ∅.

Section Groups.
Context `{SliceSort}.

Definition groupEndpointsByURL (endpoints : list EndpointInfo) : list (list EndpointInfo) :=
  let byURL := groups_by_url endpoints in
  let singletons := map (fun ep => [ep]) (filter (fun ep => ei_HTTPURL ep = "") endpoints) in
  let urls := slice_stable (cmp_less String.compare) (elements (dom byURL)) in
  map (fun u => slice_sort (cmp_less (cmp_on ei_Addr String.compare)) (default [] (byURL !! u))) urls ++ singletons.
End Groups.

(** ** Resolving endpoints *)

Inductive lookup_event :=
| LookupReturned (serviceID : string) (infos : option (list EndpointInfo))
| BudgetExpired
| LookupCanceled.

(** One receive per service; results of a lookup that failed are left out. *)
Fixpoint resolveEndpointInfos (serviceIDs : list string) (events : list lookup_event) (resolved : gmap string (list EndpointInfo))
  : gmap string (list EndpointInfo) :=
  match serviceIDs, events with
  | _ :: rest, LookupReturned id (Some infos) :: events => resolveEndpointInfos rest events (<[id := infos]> resolved)
  | _ :: rest, LookupReturned _ None :: events => resolveEndpointInfos rest events resolved
  | _, _ => resolved
  end.

(** ** Jobs *)

Section Cycle.
Context `{UnicodeCase} `{RPCTypeMembers} `{RPCTypeConfig} `{RepKey.RPCTypeEnum} `{DomainLib} `{GoQuote} `{SliceSort}.

(** What a job sees while it runs: the sessions that are active, whether the context has ended
    before the [i]-th step, and the relays. *)
Record job_env := mkJobEnv {
  je_probe : probe_env;
  je_active : EndpointInfo -> bool;
  je_canceled : nat -> bool;
  je_poolAccepts : EndpointAddr -> bool;
  je_prober : prober;
}.

Definition endpointSessionActive (j : job_env) (ep : EndpointInfo) : bool :=
  if (ei_SessionID ep =? "")%string then true else je_active j ep.

Definition has_ws (ep : EndpointInfo) : bool := negb (ei_WebSocketURL ep =? "")%string.

(** The rotated member, or the next one whose session is active. *)
Definition pick_representative (j : job_env) (grp : list EndpointInfo) (repIdx : nat) : nat :=
  let active i := match grp !! i with Some ep => endpointSessionActive j ep | None => false end in
  if active repIdx then repIdx
  else match List.find active (map (fun off => ((repIdx + off) mod List.length grp)%nat) (seq 1 (List.length grp - 1))) with
       | Some i => i
       | None => repIdx
       end.

Definition run_member (j : job_env) (serviceID : string) (cfg : ServiceHealthCheckConfig) (ep : EndpointInfo) (runHTTP : bool)
  : list checkOutcome * list probe_effect :=
  runEndpointChecks (je_probe j) serviceID (ei_Addr ep) cfg runHTTP true (has_ws ep) (je_poolAccepts j (ei_Addr ep)) (je_prober j).

(** The siblings in order; the context is looked at before each. *)
Fixpoint fan_siblings (j : job_env) (serviceID : string) (cfg : ServiceHealthCheckConfig) (outcomes : list checkOutcome) (repIdx i : nat)
  (members : list EndpointInfo) : list probe_effect :=
  match members with
  | [] => []
  | sib :: members =>
      if (i =? repIdx)%nat then fan_siblings j serviceID cfg outcomes repIdx (S i) members
      else if je_canceled j (S i) then []
      else
        (if endpointSessionActive j sib then
           fanOutcomeToSibling (je_probe j) serviceID (ei_Addr sib) outcomes ++ snd (run_member j serviceID cfg sib false)
         else []) ++ fan_siblings j serviceID cfg outcomes repIdx (S i) members
  end.

Definition group_job (j : job_env) (serviceID : string) (cfg : ServiceHealthCheckConfig) (grp : list EndpointInfo) (cycle : Z) : list probe_effect :=
  if je_canceled j 0 then []
  else
    let repIdx := pick_representative j grp (representativeIndex cycle (List.length grp)) in
    let '(outcomes, effects) :=
      match grp !! repIdx with
      | Some rep => if endpointSessionActive j rep then run_member j serviceID cfg rep true else ([], [])
      | None => ([], [])
      end in
    effects ++ fan_siblings j serviceID cfg outcomes repIdx 0 grp.

Definition endpoint_job (j : job_env) (serviceID : string) (cfg : ServiceHealthCheckConfig) (ep : EndpointInfo) : list probe_effect :=
  if je_canceled j 0 then [] else if negb (endpointSessionActive j ep) then [] else snd (run_member j serviceID cfg ep true).

Definition backendDedupEnabled (e : HealthCheckExecutor) : bool :=
  match hce_config e with Some c => default true (ahc_BackendDedup c) | None => true end.

(** The jobs of one service. *)
Definition service_jobs (e : HealthCheckExecutor) (j : job_env) (cfg : ServiceHealthCheckConfig) (cycle : Z) (infos : list EndpointInfo)
  : list (list probe_effect) :=
  if backendDedupEnabled e then map (fun grp => group_job j (shc_ServiceID cfg) cfg grp cycle) (groupEndpointsByURL infos)
  else map (endpoint_job j (shc_ServiceID cfg) cfg) infos.

Definition submit_jobs (e : HealthCheckExecutor) (env : string -> job_env) (due : gmap string Z) (resolved : gmap string (list EndpointInfo))
  (st : gset string * list (list probe_effect)) (cfg : ServiceHealthCheckConfig) : gset string * list (list probe_effect) :=
  let '(seen, jobs) := st in let id := shc_ServiceID cfg in
  match due !! id with
  | None => st
  | Some cycle =>
      if bool_decide (id ∈ seen) then st
      else ({[id]} ∪ seen, jobs ++ match resolved !! id with Some infos => service_jobs e (env id) cfg cycle infos | None => [] end)
  end.

(** A cycle: the lookups answer in some order ([events], for the due services in [order]), and the
    jobs come out in the order of the configuration. *)
Definition RunAllChecksViaProtocol (e : HealthCheckExecutor) (elector : option LeaderElector) (s : schedule) (now : Time)
  (order : gmap string Z -> list string) (events : list lookup_event) (env : string -> job_env) : schedule * list (list probe_effect) :=
  if negb (ShouldRunChecks e elector) then (s, [])
  else match GetServiceConfigs e with
       | [] => (s, [])
       | serviceConfigs =>
           let '(due, s) := dueServices s serviceConfigs now (MinCheckInterval (Some e)) in
           let resolved := resolveEndpointInfos (order due) events ∅ in
           (s, snd (fold_left (submit_jobs e env due resolved) serviceConfigs (∅, [])))
       end.
End Cycle.
