(* ===== verification/HealthCycleProps.v ===== *)
(** * The health check cycle keeps its intervals and covers every endpoint

    Scheduling: the gap between two runs of a service stays within half a tick of its interval.
    Deduplication: one relay per backend and check, the same result for every supplier on it, and
    each supplier probed directly in turn. *)

From S2P Require Import Prelude GoStrings Utf8 GoSort Domain RepKey Signals Heuristic RelayPolicy PoolGuards RpcDetect Leader HealthConfig HealthCheck HealthCycle RPCTypes.
From Stdlib Require Import ZArith Lia Bool Ascii String.
From stdpp Require Import base gmap strings fin_maps list.

Open Scope string_scope.
Open Scope Z_scope.
Open Scope list_scope.

(** ** One tick *)

Definition ids (cfgs : list ServiceHealthCheckConfig) : list string := map shc_ServiceID cfgs.

(** The service may run at [now]. *)
Definition elapsed (s : schedule) (now : Time) (slack : Duration) (cfg : ServiceHealthCheckConfig) : bool :=
  match sc_lastRun s !! shc_ServiceID cfg with
  | Some lastRun => negb (time_sub now lastRun <? wrap64 (serviceCheckInterval cfg - slack))
  | None => true
  end.

Lemma due_step_other now slack d cfg id : id <> shc_ServiceID cfg ->
  let d' := due_step now slack d cfg in
  ds_due d' !! id = ds_due d !! id /\ sc_lastRun (ds_schedule d') !! id = sc_lastRun (ds_schedule d) !! id /\
  sc_cycle (ds_schedule d') !! id = sc_cycle (ds_schedule d) !! id /\ (id ∈ ds_live d' <-> id ∈ ds_live d).
Proof.
  intros N. unfold due_step. destruct (negb _); [done|]. case_bool_decide; [cbn; set_solver|].
  destruct (match _ with Some _ => _ | None => _ end); cbn; [set_solver|].
  rewrite !lookup_insert_ne by done. set_solver.
Qed.

Lemma due_fold_other now slack cfgs d id : id ∉ ids cfgs ->
  let d' := fold_left (due_step now slack) cfgs d in
  ds_due d' !! id = ds_due d !! id /\ sc_lastRun (ds_schedule d') !! id = sc_lastRun (ds_schedule d) !! id /\
  sc_cycle (ds_schedule d') !! id = sc_cycle (ds_schedule d) !! id /\ (id ∈ ds_live d' <-> id ∈ ds_live d).
Proof.
  revert d. induction cfgs as [|cfg cfgs IH]; intros d N; [done|]. cbn in N.
  apply not_elem_of_cons in N as [N1 N2]. cbn.
  destruct (IH (due_step now slack d cfg) N2) as (A & B & C & D).
  destruct (due_step_other now slack d cfg id N1) as (A' & B' & C' & D').
  rewrite A, B, C, D. done.
Qed.

Lemma due_step_at now slack d cfg : let id := shc_ServiceID cfg in
  ds_due d !! id = None -> switched_on (shc_Enabled cfg) = true ->
  let d' := due_step now slack d cfg in id ∈ ds_live d' /\
  if elapsed (ds_schedule d) now slack cfg then
    is_Some (ds_due d' !! id) /\ sc_lastRun (ds_schedule d') !! id = Some now
  else ds_due d' !! id = None /\ sc_lastRun (ds_schedule d') !! id = sc_lastRun (ds_schedule d) !! id.
Proof.
  cbn zeta. intros Nd On. unfold due_step, elapsed. rewrite On. cbn [negb].
  rewrite bool_decide_eq_false_2 by (rewrite Nd; by intros [? ?]).
  destruct (sc_lastRun (ds_schedule d) !! shc_ServiceID cfg) as [t|] eqn:L.
  - destruct (time_sub now t <? _) eqn:T; cbn.
    + rewrite L, Nd. set_solver.
    + rewrite !lookup_insert_eq. split; [set_solver|]. by eauto.
  - cbn. rewrite !lookup_insert_eq. split; [set_solver|]. by eauto.
Qed.

(** A tick runs a service exactly when it is switched on and its time has come, and remembers
    when it did. *)
Lemma dueServices_at s cfgs now tick cfg : NoDup (ids cfgs) -> cfg ∈ cfgs -> switched_on (shc_Enabled cfg) = true -> 0 < tick ->
  let id := shc_ServiceID cfg in let '(due, s') := dueServices s cfgs now tick in
  if elapsed s now (tick ÷ 2) cfg then is_Some (due !! id) /\ sc_lastRun s' !! id = Some now
  else due !! id = None /\ sc_lastRun s' !! id = sc_lastRun s !! id.
Proof.
  intros Nd [l1 [l2 ->]]%list_elem_of_split On Ht. cbn zeta. unfold dueServices.
  rewrite (proj2 (Z.leb_gt tick 0)) by done. rewrite fold_left_app. cbn [fold_left].
  unfold ids in Nd. rewrite map_app in Nd. cbn in Nd. apply NoDup_app in Nd as (_ & D1 & Nd2). apply NoDup_cons in Nd2 as [N2 _].
  assert (N1 : shc_ServiceID cfg ∉ ids l1) by (intros E; apply (D1 _ E); set_solver).
  set (d1 := fold_left _ l1 _). destruct (due_fold_other now (tick ÷ 2) l1 (mkDue s ∅ ∅) _ N1) as (A & B & C & D).
  fold d1 in A, B, C, D. cbn in A, B. rewrite lookup_empty in A.
  destruct (due_step_at now (tick ÷ 2) d1 cfg A On) as [Li St].
  assert (El : elapsed (ds_schedule d1) now (tick ÷ 2) cfg = elapsed s now (tick ÷ 2) cfg) by (unfold elapsed; by rewrite B).
  rewrite El in St. set (d2 := due_step now (tick ÷ 2) d1 cfg) in *.
  destruct (due_fold_other now (tick ÷ 2) l2 d2 _ N2) as (A2 & B2 & C2 & D2). cbn [fst snd sc_lastRun].
  rewrite A2. rewrite map_lookup_filter, B2.
  assert (Keep : forall o : option Time, (o ≫= fun x => guard (shc_ServiceID cfg ∈ ds_live (fold_left (due_step now (tick ÷ 2)) l2 d2)) ≫= fun _ => Some x) = o).
  { intros [x|]; [|done]. cbn. rewrite option_guard_True; [done|]. by apply D2. }
  destruct (elapsed s now (tick ÷ 2) cfg); destruct St as [St1 St2]; rewrite St2.
  - split; [done|]. apply (Keep (Some now)).
  - split; [done|]. rewrite B. apply Keep.
Qed.

(** The rotation counter of the service moves with its own runs and with nothing else. *)
Definition cycle_of (s : schedule) (id : string) : Z := default 0 (sc_cycle s !! id).

Lemma due_step_cycle now slack d cfg : let id := shc_ServiceID cfg in
  ds_due d !! id = None -> switched_on (shc_Enabled cfg) = true ->
  let d' := due_step now slack d cfg in let c := wrapu64 (cycle_of (ds_schedule d) id + 1) in
  if elapsed (ds_schedule d) now slack cfg then ds_due d' !! id = Some c /\ sc_cycle (ds_schedule d') !! id = Some c
  else ds_due d' !! id = None /\ sc_cycle (ds_schedule d') !! id = sc_cycle (ds_schedule d) !! id.
Proof.
  cbn zeta. intros Nd On. unfold due_step, elapsed, cycle_of. rewrite On. cbn [negb].
  rewrite bool_decide_eq_false_2 by (rewrite Nd; by intros [? ?]).
  destruct (sc_lastRun (ds_schedule d) !! shc_ServiceID cfg) as [t|] eqn:L; [|by cbn; rewrite !lookup_insert_eq].
  destruct (time_sub now t <? _); cbn [negb]; [by cbn; rewrite Nd|]. cbn. by rewrite !lookup_insert_eq.
Qed.

Lemma dueServices_cycle s cfgs now tick cfg : NoDup (ids cfgs) -> cfg ∈ cfgs -> switched_on (shc_Enabled cfg) = true -> 0 < tick ->
  let id := shc_ServiceID cfg in let '(due, s') := dueServices s cfgs now tick in
  if elapsed s now (tick ÷ 2) cfg then
    due !! id = Some (wrapu64 (cycle_of s id + 1)) /\ cycle_of s' id = wrapu64 (cycle_of s id + 1)
  else due !! id = None /\ cycle_of s' id = cycle_of s id.
Proof.
  intros Nd [l1 [l2 ->]]%list_elem_of_split On Ht. cbn zeta. unfold dueServices.
  rewrite (proj2 (Z.leb_gt tick 0)) by done. rewrite fold_left_app. cbn [fold_left].
  unfold ids in Nd. rewrite map_app in Nd. cbn in Nd. apply NoDup_app in Nd as (_ & D1 & Nd2). apply NoDup_cons in Nd2 as [N2 _].
  assert (N1 : shc_ServiceID cfg ∉ ids l1) by (intros E; apply (D1 _ E); set_solver).
  set (d1 := fold_left _ l1 _). destruct (due_fold_other now (tick ÷ 2) l1 (mkDue s ∅ ∅) _ N1) as (A & B & C & D).
  fold d1 in A, B, C, D. cbn in A, B, C. rewrite lookup_empty in A.
  destruct (due_step_at now (tick ÷ 2) d1 cfg A On) as [Li _]. pose proof (due_step_cycle now (tick ÷ 2) d1 cfg A On) as St.
  assert (El : elapsed (ds_schedule d1) now (tick ÷ 2) cfg = elapsed s now (tick ÷ 2) cfg) by (unfold elapsed; by rewrite B).
  cbn zeta in St. rewrite El in St. unfold cycle_of in *. rewrite C in St. set (d2 := due_step now (tick ÷ 2) d1 cfg) in *.
  destruct (due_fold_other now (tick ÷ 2) l2 d2 _ N2) as (A2 & B2 & C2 & D2). cbn [fst snd sc_cycle].
  rewrite A2. rewrite map_lookup_filter, C2.
  destruct (elapsed s now (tick ÷ 2) cfg); destruct St as [St1 St2]; rewrite St2, St1.
  - split; [done|]. cbn. rewrite option_guard_True; [done|]. left. by apply D2.
  - split; [done|]. destruct (sc_cycle s !! shc_ServiceID cfg); [|done]. cbn. rewrite option_guard_True; [done|]. left. by apply D2.
Qed.

(** ** Many ticks *)

(** The ticks at which a service runs. *)
Fixpoint run_times (cfgs : list ServiceHealthCheckConfig) (tick : Duration) (id : string) (s : schedule) (times : list Time) : list Time :=
  match times with
  | [] => []
  | t :: times =>
      let '(due, s') := dueServices s cfgs t tick in
      let later := run_times cfgs tick id s' times in
      match due !! id with Some _ => t :: later | None => later end
  end.

Fixpoint gaps_within (lo hi : Z) (l : list Time) : Prop :=
  match l with
  | a :: ((b :: _) as l') => lo <= b - a < hi /\ gaps_within lo hi l'
  | _ => True
  end.

(** Ticks that do not come later than the ticker's period. *)
Definition steady (tick : Duration) : list Time -> Prop := gaps_within 1 (tick + 1).

Section Period.
Context (cfgs : list ServiceHealthCheckConfig) (cfg : ServiceHealthCheckConfig) (tick : Duration).
Hypothesis Hnd : NoDup (ids cfgs).
Hypothesis Hcfg : cfg ∈ cfgs.
Hypothesis Hon : switched_on (shc_Enabled cfg) = true.
Hypothesis Htick : 0 < tick <= serviceCheckInterval cfg.
Hypothesis Hmax : serviceCheckInterval cfg + tick <= max_int64.

Let lo := serviceCheckInterval cfg - tick ÷ 2.

Lemma half_tick : 0 <= tick ÷ 2 < tick.
Proof. rewrite Z.quot_div_nonneg by lia. split; [apply Z.div_pos; lia|apply Z.div_lt_upper_bound; lia]. Qed.

Lemma elapsed_exact s (a t : Time) : sc_lastRun s !! shc_ServiceID cfg = Some a -> 0 <= t - a <= serviceCheckInterval cfg + tick ->
  elapsed s t (tick ÷ 2) cfg = (lo <=? t - a).
Proof.
  intros L B. pose proof half_tick. unfold elapsed. rewrite L, time_sub_exact by (unfold in_int64, max_int64, min_int64 in *; lia).
  rewrite wrap64_id by (unfold in_int64, max_int64, min_int64 in *; lia). fold lo.
  destruct (Z.leb_spec lo (t - a)), (Z.ltb_spec (t - a) lo); try done; lia.
Qed.

Lemma gaps_cons lo' hi a l : gaps_within lo' hi (a :: l) -> gaps_within lo' hi l.
Proof. destruct l; cbn; [done|]. by intros [_ ?]. Qed.

Lemma run_times_from times : forall s (a p : Time), sc_lastRun s !! shc_ServiceID cfg = Some a -> 0 <= p - a < lo -> steady tick (p :: times) ->
  let runs := run_times cfgs tick (shc_ServiceID cfg) s times in
  gaps_within lo (lo + tick) (a :: runs) /\ List.last (p :: times) 0 - List.last (a :: runs) 0 < lo.
Proof.
  pose proof half_tick as Hh. induction times as [|t times IH]; intros s a p L B St; [cbn; split; [done|lia]|].
  destruct St as [G St]. cbn [run_times].
  pose proof (dueServices_at s cfgs t tick cfg Hnd Hcfg Hon ltac:(lia)) as D. cbn zeta in D.
  destruct (dueServices s cfgs t tick) as [due s'].
  rewrite (elapsed_exact s a t L) in D by lia. destruct (Z.leb_spec lo (t - a)) as [Le|Le]; destruct D as [Du La].
  - destruct Du as [c ->]. destruct (IH s' t t La ltac:(lia) ltac:(exact St)) as [I1 I2]. cbn zeta in I1, I2.
    split; [split; [lia|exact I1]|]. cbn [List.last] in *. exact I2.
  - rewrite Du. destruct (IH s' a t ltac:(by rewrite La) ltac:(lia) ltac:(exact St)) as [I1 I2].
    split; [exact I1|]. cbn [List.last] in *. exact I2.
Qed.

(** C31: a service is checked at its own interval, whatever the other services do: under ticks that
    come at most a tick apart it runs at the first tick, two runs in a row are at least its interval
    less half a tick and less than its interval plus half a tick (rounded up) apart, and at the last
    tick it is not overdue. *)
Theorem check_period s t times : sc_lastRun s !! shc_ServiceID cfg = None -> steady tick (t :: times) ->
  exists later, run_times cfgs tick (shc_ServiceID cfg) s (t :: times) = t :: later /\
    gaps_within (serviceCheckInterval cfg - tick ÷ 2) (serviceCheckInterval cfg - tick ÷ 2 + tick) (t :: later) /\
    List.last (t :: times) 0 - List.last (t :: later) 0 < serviceCheckInterval cfg - tick ÷ 2.
Proof.
  intros L St. pose proof half_tick as Hh. cbn [run_times].
  pose proof (dueServices_at s cfgs t tick cfg Hnd Hcfg Hon ltac:(lia)) as D. cbn zeta in D.
  destruct (dueServices s cfgs t tick) as [due s']. unfold elapsed in D. rewrite L in D. destruct D as [[c ->] La].
  eexists. split; [done|]. apply (run_times_from times s' t t La); [unfold lo; lia|exact St].
Qed.

(** A service whose endpoints could not be resolved is not retried by the next cycle: the tick
    counts as a run whatever the lookups return, and the service stays out of every cycle until its
    own interval has gone by. *)
Theorem failed_lookup_waits s now later : sc_lastRun s !! shc_ServiceID cfg = None ->
  0 <= later - now < serviceCheckInterval cfg - tick ÷ 2 ->
  let '(due, s') := dueServices s cfgs now tick in
  is_Some (due !! shc_ServiceID cfg) /\
  resolveEndpointInfos (map fst (map_to_list due)) [BudgetExpired] ∅ = ∅ /\
  fst (dueServices s' cfgs later tick) !! shc_ServiceID cfg = None.
Proof.
  intros L B. pose proof half_tick as Hh.
  pose proof (dueServices_at s cfgs now tick cfg Hnd Hcfg Hon ltac:(lia)) as D. cbn zeta in D.
  destruct (dueServices s cfgs now tick) as [due s']. unfold elapsed in D. rewrite L in D. destruct D as [Du La].
  pose proof (dueServices_at s' cfgs later tick cfg Hnd Hcfg Hon ltac:(lia)) as D2. cbn zeta in D2.
  destruct (dueServices s' cfgs later tick) as [due2 s2]. rewrite (elapsed_exact s' now later La) in D2 by lia.
  rewrite (proj2 (Z.leb_gt lo (later - now))) in D2 by (unfold lo; lia).
  split; [done|]. split; [by destruct (map fst (map_to_list due))|apply D2].
Qed.
End Period.

(** ** Groups *)

Lemma groups_by_url_at eps u m : u <> "" ->
  fold_left add_to_group eps m !! u =
  match m !! u, filter (fun ep => ei_HTTPURL ep = u) eps with
  | None, [] => None
  | o, l => Some (default [] o ++ l)
  end.
Proof.
  intros Hu. revert m. induction eps as [|ep eps IH]; intros m; cbn [fold_left]; [rewrite filter_nil; destruct (m !! u); [by rewrite app_nil_r|done]|].
  rewrite IH. clear IH. unfold add_to_group. rewrite filter_cons. destruct (String.eqb_spec (ei_HTTPURL ep) "") as [E|E].
  - rewrite decide_False by congruence. done.
  - destruct (decide (ei_HTTPURL ep = u)) as [<-|N].
    + rewrite lookup_insert_eq. cbn. rewrite <- app_assoc. cbn. by destruct (m !! ei_HTTPURL ep).
    + by rewrite lookup_insert_ne.
Qed.

Lemma groups_empty_url eps m : m !! "" = None ->
  fold_left add_to_group eps m !! "" = None.
Proof.
  revert m. induction eps as [|ep eps IH]; intros m Hm; [done|]. cbn. apply IH. unfold add_to_group.
  destruct (String.eqb_spec (ei_HTTPURL ep) ""); [done|]. by rewrite lookup_insert_ne.
Qed.

Lemma groups_at eps u : u <> "" -> default [] (groups_by_url eps !! u) = filter (fun ep => ei_HTTPURL ep = u) eps.
Proof.
  intros Hu. unfold groups_by_url. rewrite groups_by_url_at by done. rewrite lookup_empty. by destruct (filter _ eps).
Qed.

Lemma groups_dom eps u : u ∈ dom (groups_by_url eps) <-> u <> "" /\ exists ep, ep ∈ eps /\ ei_HTTPURL ep = u.
Proof.
  rewrite elem_of_dom. destruct (decide (u = "")) as [->|N].
  - unfold groups_by_url. rewrite groups_empty_url by apply lookup_empty. split; [by intros [? ?]|by intros [? _]].
  - unfold groups_by_url. rewrite groups_by_url_at, lookup_empty by done. split.
    + destruct (filter _ eps) as [|ep l] eqn:F; [by intros [? ?]|]. intros _. split; [done|]. exists ep.
      assert (I : ep ∈ filter (fun ep => ei_HTTPURL ep = u) eps) by (rewrite F; set_solver). apply list_elem_of_filter in I. tauto.
    + intros [_ (ep & I & E)]. destruct (filter _ eps) as [|ep' l] eqn:F; [|by eexists].
      assert (I' : ep ∈ filter (fun ep => ei_HTTPURL ep = u) eps) by (by apply list_elem_of_filter). rewrite F in I'. set_solver.
Qed.

(** Splitting a list by a key, over any list of keys that names each of them once. *)
Lemma split_by_key {A} (f : A -> string) (keys : list string) (l : list A) : NoDup keys ->
  (forall x, x ∈ l -> f x ∈ keys) -> concat (map (fun k => filter (fun x => f x = k) l) keys) ≡ₚ l.
Proof.
  intros Nd. induction l as [|x l IH]; intros K.
  - clear. induction keys; [done|]. exact IHkeys.
  - destruct (list_elem_of_split _ _ (K x ltac:(set_solver))) as (k1 & k2 & E). subst keys.
    pose proof (IH ltac:(set_solver)) as P. clear IH. rewrite map_app, concat_app in P. apply NoDup_app in Nd as (Nd1 & D1 & Nd2). apply NoDup_cons in Nd2 as [N2 Nd2].
    rewrite !map_app, !concat_app. cbn [map concat].
    assert (Out : forall ks, f x ∉ ks -> map (fun k => filter (fun y => f y = k) (x :: l)) ks = map (fun k => filter (fun y => f y = k) l) ks).
    { intros ks N. apply map_ext_in. intros k Ik. rewrite filter_cons, decide_False; [done|]. intros <-. apply N. by apply list_elem_of_In. }
    rewrite (Out k1), (Out k2); [|done|by intros I; apply (D1 _ I); set_solver].
    rewrite filter_cons, decide_True by done. cbn. rewrite <- Permutation_middle. constructor. exact P.
Qed.

Section Groups.
Context `{SliceSortLaws}.

Lemma urls_perm eps : slice_stable (cmp_less String.compare) (elements (dom (groups_by_url eps))) ≡ₚ elements (dom (groups_by_url eps)).
Proof. apply slice_stable_perm. Qed.

(** Grouping by backend URL loses and repeats no endpoint: the groups together are the endpoints;
    the members of a group share its URL, and an endpoint without one stands alone. *)
Theorem backend_groups_partition eps :
  concat (groupEndpointsByURL eps) ≡ₚ eps /\
  (forall grp x y, grp ∈ groupEndpointsByURL eps -> x ∈ grp -> y ∈ grp -> x = y \/ (ei_HTTPURL x = ei_HTTPURL y /\ ei_HTTPURL x <> "")) /\
  (forall g1 g2 i k x y, groupEndpointsByURL eps !! i = Some g1 -> groupEndpointsByURL eps !! k = Some g2 -> x ∈ g1 -> y ∈ g2 ->
     ei_HTTPURL x = ei_HTTPURL y -> ei_HTTPURL x <> "" -> i = k).
Proof.
  set (urls := slice_stable (cmp_less String.compare) (elements (dom (groups_by_url eps)))).
  assert (Nu : NoDup urls) by (unfold urls; rewrite urls_perm; apply NoDup_elements).
  assert (Iu : forall u, u ∈ urls <-> u <> "" /\ exists ep, ep ∈ eps /\ ei_HTTPURL ep = u).
  { intros u. unfold urls. rewrite urls_perm, elem_of_elements. apply groups_dom. }
  assert (Grp : forall u x, u ∈ urls -> x ∈ slice_sort (cmp_less (cmp_on ei_Addr String.compare)) (default [] (groups_by_url eps !! u)) -> ei_HTTPURL x = u).
  { intros u x Hu. rewrite slice_sort_perm, groups_at by (by apply Iu). rewrite list_elem_of_filter. tauto. }
  unfold groupEndpointsByURL. fold urls. split_and!.
  - rewrite concat_app. etrans; [|apply (split_by_key ei_HTTPURL (urls ++ [""]) eps)].
    + rewrite map_app, concat_app. cbn [map concat]. rewrite app_nil_r. apply Permutation_app.
      * assert (Sub : forall u, u ∈ urls -> u <> "") by (intros u Hu; by apply Iu). clear -Sub H0. induction urls as [|u urls IH]; [done|].
        cbn. rewrite slice_sort_perm, groups_at by (apply Sub; set_solver). rewrite IH by set_solver. done.
      * assert (Sing : forall l : list EndpointInfo, concat (map (fun ep => [ep]) l) = l) by (induction l as [|? ? IHl]; cbn; congruence).
        by rewrite Sing.
    + apply NoDup_app. split_and!; [done| |apply NoDup_singleton]. intros u Hu ->%list_elem_of_singleton. by apply Iu in Hu as [? _].
    + intros x Hx. apply elem_of_app. destruct (decide (ei_HTTPURL x = "")) as [->|N]; [set_solver|]. left. apply Iu. eauto.
  - intros grp x y [G|G]%elem_of_app Hx Hy.
    + apply list_elem_of_fmap in G as (u & -> & Hu). right. rewrite (Grp u x), (Grp u y) by done. split; [done|]. by apply Iu.
    + apply list_elem_of_fmap in G as (ep & -> & _). left. set_solver.
  - intros g1 g2 i k x y L1 L2 Hx Hy E N. apply lookup_app_Some in L1, L2.
    assert (Sg : forall g z j, map (fun ep => [ep]) (filter (fun ep => ei_HTTPURL ep = "") eps) !! j = Some g -> z ∈ g -> ei_HTTPURL z = "").
    { intros g z j Lg Hz. apply list_elem_of_lookup_2, list_elem_of_fmap in Lg as (ep & -> & Hep).
      apply list_elem_of_singleton in Hz as ->. apply list_elem_of_filter in Hep. tauto. }
    destruct L1 as [L1|[_ L1]]; [|by apply (Sg _ x) in L1]. destruct L2 as [L2|[_ L2]]; [|apply (Sg _ y) in L2; congruence].
    rewrite list_lookup_fmap in L1, L2. destruct (urls !! i) as [u1|] eqn:U1; [|done]. destruct (urls !! k) as [u2|] eqn:U2; [|done].
    injection L1 as <-. injection L2 as <-. apply (NoDup_lookup urls i k u1 Nu U1). rewrite U2. f_equal.
    rewrite <- (Grp u1 x), <- (Grp u2 y) by (done || by eapply list_elem_of_lookup_2). done.
Qed.
End Groups.
