(* ===== verification/HealthCheckProps.v ===== *)
(** * What the outcome of a health check means

    Which checks mark an endpoint archival, which failures take the mark away, what a sync check
    refuses, and the parts of the configuration that never take effect. *)

From S2P Require Import Prelude Utf8 GoSort Domain RepKey Signals Json JsonRpc Heuristic RelayPolicy PoolGuards RpcDetect HealthCheck RPCTypes GoStrings Float64 Leader HealthConfig HealthCycle HealthCycleProps.
From Stdlib Require Import ZArith Lia Bool Ascii String.
From stdpp Require Import base gmap strings fin_maps list.

Open Scope string_scope.
Open Scope Z_scope.
Open Scope list_scope.

(** ** The sync check *)

(** The sync check draws the line at the allowance: for a response whose height can be read, a
    perceived height that is known and numbers that fit 63 bits, it passes exactly when the endpoint
    is above height 0 and at most the allowance behind. *)
Theorem sync_check_exact body h p allowance : extractBlockHeight body = Ok h -> 0 <= h -> 0 < p <= max_int64 -> 0 <= allowance <= max_int64 ->
  (validateSyncCheck (Some p) body allowance = SyncPasses <-> 0 < h /\ p - h <= allowance).
Proof.
  intros E Hh Hp Ha. unfold validateSyncCheck. rewrite E.
  destruct (Z.eqb_spec h 0) as [->|N]; [split; [discriminate|lia]|]. rewrite (proj2 (Z.eqb_neq p 0)) by lia.
  rewrite !(wrap64_id p), (wrap64_id allowance), (wrap64_id (p - allowance)) by (unfold in_int64, max_int64, min_int64 in *; lia).
  destruct (Z.ltb_spec h (Z.max 0 (p - allowance))); split; try discriminate; try done; lia.
Qed.

Lemma hex_X_invalid d : parse_hex_int ("0X" +:+ d) = None.
Proof.
  unfold parse_hex_int. cbn -[contains_byte parse_base min_int64 max_int64]. destruct (contains_byte "_" _); [done|]. cbn [orb].
  by cbn -[min_int64 max_int64].
Qed.

Lemma parse_hex_X d : parseHexBlockNumber ("0X" +:+ d) = Err (HeightBadNumber "hex block number").
Proof. unfold parseHexBlockNumber. cbn -[parse_hex_int Nat.ltb str_take]. destruct (_ && _) eqn:E; [cbn in E; by rewrite andb_false_r in E|]. by rewrite hex_X_invalid. Qed.

(** A height with the prefix 0X is recognised as hexadecimal but never read: the prefix is only
    taken off in lower case.  The sync check then counts as not applicable, so that an endpoint that
    answers in this form is never refused, however far behind it is. *)
Theorem uppercase_hex_unchecked body ms raw d perceived allowance : parse body = Some (JObject ms) -> any_ok (JObject ms) = true ->
  any_get "error" ms = None -> any_get "result" ms = Some (JString raw) -> unquote raw = "0X" +:+ d ->
  validateSyncCheck perceived body allowance = SyncNotApplicable.
Proof.
  intros P A E R U. unfold validateSyncCheck, extractBlockHeight. rewrite P, A. cbn [negb]. rewrite E, R, U.
  replace (has_prefix "0x" ("0X" +:+ d) || has_prefix "0X" ("0X" +:+ d)) with true by (cbn; by rewrite orb_true_r).
  by rewrite parse_hex_X.
Qed.

Section Check.
Context `{UnicodeCase} `{RPCTypeMembers} `{RPCTypeConfig} `{RepKey.RPCTypeEnum} `{DomainLib} `{GoQuote}.

(** ** Archival marks *)

Definition meets_expectations (check : HealthCheckConfig) (rs : list relay_response) : bool :=
  health_IsSuccess (fold_left (fun hc r => health_UpdateWithResponse hc (rr_body r) (rr_HTTPStatusCode r)) rs (NewHealthCheckQoSContext check)).
Definition last_status (rs : list relay_response) : Z := match last rs with Some r => rr_HTTPStatusCode r | None => 0 end.
Definition last_body (rs : list relay_response) : string := match last rs with Some r => rr_body r | None => "" end.

Lemma no_mark_observed env addr check p st b k v t : ArchivalSet k v t ∉ processObservationSync env addr check p st b.
Proof. unfold processObservationSync. destruct (pe_observing env); set_solver. Qed.

Lemma no_mark_recorded env serviceID addr check e l k v t : ArchivalSet k v t ∉ recordCheckResult env serviceID addr check e l.
Proof.
  unfold recordCheckResult. destruct (_ =? _)%string; [set_solver|]. destruct e as [e|]; [|set_solver].
  destruct (IsOverServicedError e); set_solver.
Qed.

Lemma clear_not_mark env serviceID addr k t : ArchivalSet k true t ∉ clearEndpointArchival env serviceID addr.
Proof. unfold clearEndpointArchival. destruct (pe_hasQoS env); set_solver. Qed.

(** The effects that mark an endpoint archival, in the store of scores or in the QoS. *)
Definition is_mark (e : probe_effect) : bool := match e with ArchivalSet _ b _ | QoSArchival _ b => b | _ => false end.
Definition marks (es : list probe_effect) : list probe_effect := List.filter is_mark es.

Lemma marks_app es es' : marks (es ++ es') = marks es ++ marks es'.
Proof. apply List.filter_app. Qed.

Lemma elem_of_marks e es : e ∈ marks es <-> e ∈ es /\ is_mark e = true.
Proof. unfold marks. rewrite !list_elem_of_In. apply filter_In. Qed.

Lemma marks_recorded env serviceID addr check e l : marks (recordCheckResult env serviceID addr check e l) = [].
Proof. unfold recordCheckResult. destruct (_ =? _)%string; [done|]. destruct e as [e|]; [|done]. by destruct (IsOverServicedError e). Qed.

Lemma marks_observed env addr check p st b : marks (processObservationSync env addr check p st b) = [].
Proof. unfold processObservationSync. by destruct (pe_observing env). Qed.

Lemma marks_marked env serviceID addr : marks (markEndpointArchival env serviceID addr) = markEndpointArchival env serviceID addr.
Proof. unfold markEndpointArchival. by destruct (pe_hasQoS env). Qed.

Lemma marks_cleared env serviceID addr : marks (clearEndpointArchival env serviceID addr) = [].
Proof. unfold clearEndpointArchival. by destruct (pe_hasQoS env). Qed.

Definition archival_passed (o : checkOutcome) : bool := co_archivalResolved o && co_archivalPass o.

(** What a response needs for a mark: the check is declared archival and switched on, and the response
    passed the heuristics, met its expectations, was in sync where that is checked and matched no
    known error. *)
Definition earns_archival (env : probe_env) (check : HealthCheckConfig) (sa : Z) (rs : list relay_response) : Prop :=
  hcc_Archival check = true /\ switched_on (hcc_Enabled check) = true /\
  ShouldRetry (Analyze Heuristic.DefaultConfig (last_body rs) (last_status rs) (EffectiveRPCType (buildServicePayload check))
    (payload_method (buildServicePayload check))) = false /\
  meets_expectations check rs = true /\
  (hcc_SyncCheck check = true -> 0 < sa -> forall why, validateSyncCheck (pe_perceived env) (last_body rs) sa <> SyncFails why) /\
  detectKnownErrors (hcc_ErrorDetection check) (last_status rs) (last_body rs) = None.

Lemma judge_marks env serviceID addr check sa l st b :
  let '(o, es) := judge_response env serviceID addr check sa l st b in
  marks es = if archival_passed o then markEndpointArchival env serviceID addr else [].
Proof.
  unfold judge_response. destruct (if _ && _ then _ else _); try done.
  all: destruct (detectKnownErrors _ _ _) as [[sg e]|]; [done|]; unfold archival_passed; cbn;
    destruct (hcc_Archival check); [cbn; apply marks_marked|done].
Qed.

(** A check marks the endpoint it was run for exactly when its outcome is an archival pass. *)
Lemma check_marks env serviceID addr check sa l p :
  let '(o, es) := ExecuteCheckViaProtocol env serviceID addr check sa l p in
  marks es = if archival_passed o then markEndpointArchival env serviceID addr else [].
Proof.
  unfold ExecuteCheckViaProtocol. destruct (switched_on (hcc_Enabled check)); cbn [negb]; [|done].
  destruct p as [e|e|rs]; [done..|]. fold (meets_expectations check rs). fold (last_status rs). fold (last_body rs).
  destruct (ShouldRetry _); [done|]. destruct (meets_expectations check rs); cbn [negb].
  - pose proof (judge_marks env serviceID addr check sa l (last_status rs) (last_body rs)) as J.
    destruct (judge_response _ _ _ _ _ _ _ _) as [o es]. change (marks (?x :: ?r)) with (marks r).
    by rewrite marks_app, marks_observed, J.
  - change (marks (?x :: ?r)) with (marks r). rewrite marks_app, marks_observed.
    unfold archival_passed. cbn [co_archivalPass failed_outcome]. rewrite andb_false_r.
    destruct (hcc_Archival check); [apply marks_cleared|done].
Qed.

(** An archival pass is earned. *)
Lemma pass_earned env serviceID addr check sa l p :
  archival_passed (fst (ExecuteCheckViaProtocol env serviceID addr check sa l p)) = true ->
  exists rs, p = ProbeAnswered rs /\ earns_archival env check sa rs.
Proof.
  unfold ExecuteCheckViaProtocol. destruct (switched_on (hcc_Enabled check)) eqn:On; cbn [negb]; [|done].
  destruct p as [e|e|rs]; [done..|]. fold (meets_expectations check rs). fold (last_status rs). fold (last_body rs).
  destruct (ShouldRetry _) eqn:Sr; [done|]. intros P. exists rs. split; [done|].
  destruct (meets_expectations check rs) eqn:Me; cbn [negb] in P;
    [|unfold archival_passed in P; cbn [fst co_archivalPass failed_outcome] in P; by rewrite andb_false_r in P].
  unfold judge_response in P.
  destruct (if hcc_SyncCheck check && (0 <? sa) then validateSyncCheck (pe_perceived env) (last_body rs) sa else SyncPasses) eqn:Sy;
    try done.
  all: destruct (detectKnownErrors _ _ _) as [[sg e]|] eqn:De; [done|]; unfold archival_passed in P; cbn in P;
    apply andb_true_iff in P as [A _]; split_and!; try done;
    intros Hs Hp why; rewrite Hs, (proj2 (Z.ltb_lt 0 sa) Hp) in Sy; cbn in Sy; congruence.
Qed.

(** A supplier on the same backend is marked by an archival pass of the one that was probed. *)
Lemma fan_marks env serviceID addr o :
  marks (fan_outcome env serviceID addr o) = if archival_passed o then markEndpointArchival env serviceID addr else [].
Proof.
  unfold fan_outcome, archival_passed. rewrite !marks_app, marks_recorded. cbn [app].
  replace (marks (if (co_body o =? "")%string then [] else _)) with ([] : list probe_effect)
    by (destruct (_ =? _)%string; [done|by rewrite marks_observed]).
  destruct (co_archivalResolved o), (co_archivalPass o); cbn [andb]; try done; [apply marks_marked|apply marks_cleared].
Qed.

(** An archival mark outlives a failed archival check: when the response meets the expectations
    of the check but matches a known error, the check fails and the mark is left as it is, on the
    endpoint and on the suppliers the outcome is passed on to. *)
Theorem archival_mark_survives env serviceID addr sibling check sa l rs sg e k v t :
  switched_on (hcc_Enabled check) = true -> meets_expectations check rs = true ->
  detectKnownErrors (hcc_ErrorDetection check) (last_status rs) (last_body rs) = Some (sg, e) ->
  let '(o, es) := ExecuteCheckViaProtocol env serviceID addr check sa l (ProbeAnswered rs) in
  is_Some (co_err o) /\ ArchivalSet k v t ∉ es ++ fan_outcome env serviceID sibling o.
Proof.
  intros On Me De. unfold ExecuteCheckViaProtocol. rewrite On. cbn [negb].
  fold (meets_expectations check rs). fold (last_status rs). fold (last_body rs).
  assert (Fan : forall err st b, ArchivalSet k v t ∉ fan_outcome env serviceID sibling (failed_outcome check l err st b false)).
  { intros err st b. unfold fan_outcome. cbn [co_archivalResolved failed_outcome co_check co_err co_latency co_body co_httpStatus].
    rewrite !elem_of_app. intros [I|[I|I]]; [by apply no_mark_recorded in I| |set_solver].
    destruct (b =? "")%string; [set_solver|by apply no_mark_observed in I]. }
  destruct (ShouldRetry _); [split; [by eexists|]; rewrite elem_of_app; intros [I|I]; [set_solver|by apply Fan in I]|].
  rewrite Me. cbn [negb]. unfold judge_response. rewrite De.
  destruct (if _ && _ then _ else _); (split; [by eexists|]); rewrite app_nil_r; cbn; intros [I|[I|I]%elem_of_app]%elem_of_cons;
    (done || by apply no_mark_observed in I || by apply Fan in I).
Qed.

(** ** Signals of known errors *)

Definition forget_signals (ed : ErrorDetection) : ErrorDetection :=
  mkErrorDetection (map (fun c => mkErrorStatusCode (esc_Code c) "") (ed_StatusCodes ed))
    (map (fun p => mkErrorPattern (erp_Pattern p) "") (ed_ResponsePatterns ed))
    (map (fun c => mkJSONRPCErrorCode (jec_Code c) "") (ed_JSONRPCErrorCodes ed)).

Definition with_detection (c : HealthCheckConfig) (ed : option ErrorDetection) : HealthCheckConfig :=
  mkHealthCheck (hcc_Name c) (hcc_Type c) (hcc_Enabled c) (hcc_Method c) (hcc_Path c) (hcc_Headers c) (hcc_Body c)
    (hcc_ExpectedStatusCode c) (hcc_ExpectedResponseContains c) ed (hcc_Timeout c) (hcc_Archival c) (hcc_SyncCheck c) (hcc_ReputationSignal c).

Lemma find_map {A B} (f : A -> B) (p : B -> bool) (l : list A) : List.find p (map f l) = f <$> List.find (fun x => p (f x)) l.
Proof. induction l as [|x l IH]; [done|]. cbn. destruct (p (f x)); [done|exact IH]. Qed.

Lemma detect_forget ed st b : snd <$> detectKnownErrors (Some (forget_signals ed)) st b = snd <$> detectKnownErrors (Some ed) st b.
Proof.
  unfold detectKnownErrors, forget_signals. cbn [ed_StatusCodes ed_ResponsePatterns ed_JSONRPCErrorCodes]. rewrite !find_map. cbn.
  destruct (List.find _ (ed_StatusCodes ed)); [done|]. cbn. destruct (List.find _ (ed_ResponsePatterns ed)); [done|]. cbn.
  destruct (response_error_code b); [|done]. rewrite find_map. cbn. by destruct (List.find _ (ed_JSONRPCErrorCodes ed)).
Qed.

(** The context after the responses; the error detection plays no part in it. *)
Definition answered_context (check : HealthCheckConfig) (rs : list relay_response) : HealthCheckQoSContext :=
  fold_left (fun hc r => health_UpdateWithResponse hc (rr_body r) (rr_HTTPStatusCode r)) rs (NewHealthCheckQoSContext check).

Lemma context_detection ed check rs :
  let c := answered_context check rs in let c' := answered_context (with_detection check ed) rs in
  hq_responseReceived c' = hq_responseReceived c /\ hq_responseSuccess c' = hq_responseSuccess c /\ hq_responseError c' = hq_responseError c.
Proof.
  unfold answered_context. set (step := fun hc r => _).
  assert (G : forall c c', hq_checkConfig c' = with_detection (hq_checkConfig c) ed ->
    hq_responseReceived c' = hq_responseReceived c /\ hq_responseSuccess c' = hq_responseSuccess c /\ hq_responseError c' = hq_responseError c ->
    let f := fold_left step rs c in let f' := fold_left step rs c' in
    hq_responseReceived f' = hq_responseReceived f /\ hq_responseSuccess f' = hq_responseSuccess f /\ hq_responseError f' = hq_responseError f).
  { induction rs as [|r rs IH]; intros c c' E1 E2; cbn; [done|].
    apply IH; unfold step, health_UpdateWithResponse; rewrite E1; cbn;
      destruct (negb _ && negb _); cbn; try done; by destruct (negb _ && negb _). }
  by apply G.
Qed.

(** What the run of a check leaves behind, with the signal of its result. *)
Definition check_effects (env : probe_env) (serviceID : string) (addr : EndpointAddr) (check : HealthCheckConfig) (sa : Z) (l : Duration) (p : probe_result)
  : list probe_effect :=
  let '(o, es) := ExecuteCheckViaProtocol env serviceID addr check sa l p in
  es ++ recordCheckResult env serviceID addr check (co_err o) (co_latency o).

(** The reputation signals of the known errors are never sent: replacing every signal of a check's
    error_detection section by the empty one changes nothing of what any run of the check leaves
    behind; the signal of the check itself is recorded instead. *)
Theorem detection_signals_unused env serviceID addr check ed sa l p :
  check_effects env serviceID addr (with_detection check (Some (forget_signals ed))) sa l p =
  check_effects env serviceID addr (with_detection check (Some ed)) sa l p.
Proof.
  unfold check_effects, ExecuteCheckViaProtocol. cbn [hcc_Enabled with_detection]. destruct (switched_on (hcc_Enabled check)); cbn [negb]; [|done].
  destruct p as [e|e|rs]; [done|done|].
  fold (answered_context (with_detection check (Some (forget_signals ed))) rs). fold (answered_context (with_detection check (Some ed)) rs).
  unfold health_IsSuccess. destruct (context_detection (Some (forget_signals ed)) check rs) as (-> & -> & ->).
  destruct (context_detection (Some ed) check rs) as (-> & -> & ->).
  change (buildServicePayload (with_detection check (Some (forget_signals ed)))) with (buildServicePayload (with_detection check (Some ed))).
  fold (last_status rs). fold (last_body rs). destruct (ShouldRetry _); [done|]. destruct (_ && _); cbn [negb].
  - unfold judge_response. cbn [hcc_SyncCheck hcc_ErrorDetection hcc_Archival with_detection].
    pose proof (detect_forget ed (last_status rs) (last_body rs)) as D.
    destruct (if _ && _ then _ else _); try done.
    all: destruct (detectKnownErrors (Some (forget_signals ed)) _ _) as [[s1 e1]|], (detectKnownErrors (Some ed) _ _) as [[s2 e2]|];
      cbn in D; try done; by injection D as ->.
  - done.
Qed.
End Check.

(** ** Merging and validating health check configuration

    Local checks override external ones by name; a validated configuration names each check once.
    Two settings do not do what they say: switching a service off in the unified configuration, and
    a sample rate of zero. *)

Open Scope string_scope.
Open Scope Z_scope.
Open Scope list_scope.

(** ** Merging by a key *)

Section Merge.
Context {A : Type} (key : A -> string).

Lemma by_key_from l (m : gmap string A) k : fold_left (fun m x => <[key x := x]> m) l m !! k =
  match last (filter (fun x => key x = k) l) with Some x => Some x | None => m !! k end.
Proof.
  revert m. induction l as [|x l IH]; intros m; [done|]. cbn [fold_left]. rewrite IH, filter_cons.
  destruct (decide (key x = k)) as [<-|N].
  - rewrite last_cons. destruct (last _); [done|]. by rewrite lookup_insert_eq.
  - destruct (last _); [done|]. by rewrite lookup_insert_ne.
Qed.

Lemma by_key_at l k : by_key key l !! k = last (filter (fun x => key x = k) l).
Proof. unfold by_key. rewrite by_key_from, lookup_empty. by destruct (last _). Qed.

Lemma by_key_some l k x : by_key key l !! k = Some x -> x ∈ l /\ key x = k.
Proof.
  rewrite by_key_at. intros L. assert (I : x ∈ filter (fun x => key x = k) l).
  { apply last_Some in L as [l' ->]. set_solver. }
  apply list_elem_of_filter in I. tauto.
Qed.

Lemma by_key_none l k : by_key key l !! k = None <-> k ∉ map key l.
Proof.
  rewrite by_key_at, last_None. split.
  - intros F [x [-> I]]%list_elem_of_fmap. assert (I' : x ∈ filter (fun y => key y = key x) l) by (by apply list_elem_of_filter).
    rewrite F in I'. set_solver.
  - intros N. destruct (filter _ l) as [|x l'] eqn:F; [done|]. exfalso. apply N.
    assert (I : x ∈ filter (fun y => key y = k) l) by (rewrite F; set_solver). apply list_elem_of_filter in I as [<- I].
    apply list_elem_of_fmap. eauto.
Qed.

Lemma nodup_key_inj (l : list A) x y : NoDup (map key l) -> x ∈ l -> y ∈ l -> key x = key y -> x = y.
Proof.
  intros Nd [i Li]%list_elem_of_lookup_1 [k Lk]%list_elem_of_lookup_1 E.
  assert (i = k); [|subst; congruence]. eapply (NoDup_lookup _ i k (key x) Nd); rewrite list_lookup_fmap.
  - by rewrite Li.
  - by rewrite Lk, E.
Qed.

(** Overriding: the local elements, and the base elements whose key no local one has. *)
Lemma override_elements base local x : NoDup (map key local) ->
  (x ∈ merge_by key (fun _ y => y) base local <-> x ∈ local \/ (x ∈ base /\ key x ∉ map key local)).
Proof.
  intros Nd. unfold merge_by. rewrite elem_of_app, list_elem_of_fmap, list_elem_of_filter. split.
  - intros [(b & E & Ib)|[_ I]]; [|by left]. destruct (by_key key local !! key b) as [y|] eqn:L; subst x.
    + left. apply by_key_some in L. tauto.
    + right. split; [done|]. by apply by_key_none.
  - intros [I|[I N]].
    + destruct (decide (key x ∈ map key base)) as [K|K]; [|by right]. left. apply list_elem_of_fmap in K as (b & E & Ib).
      exists b. split; [|done]. destruct (by_key key local !! key b) as [y|] eqn:L.
      * apply by_key_some in L as [Iy Ky]. apply (nodup_key_inj local); [done..|congruence].
      * exfalso. apply by_key_none in L. apply L. rewrite <- E. apply list_elem_of_fmap. eauto.
    + left. exists x. split; [|done]. by rewrite (proj2 (by_key_none local (key x)) N).
Qed.

Lemma merge_keys (join : A -> A -> A) base local : (forall x y, key x = key y -> key (join x y) = key x) ->
  map key (merge_by key join base local) = map key base ++ map key (filter (fun y => key y ∉ map key base) local).
Proof.
  intros J. unfold merge_by. rewrite map_app, map_map. f_equal. apply map_ext. intros x.
  destruct (by_key key local !! key x) as [y|] eqn:L; [|done]. apply by_key_some in L as [_ L]. by apply J.
Qed.

Lemma merge_keys_nodup (join : A -> A -> A) base local : (forall x y, key x = key y -> key (join x y) = key x) ->
  NoDup (map key base) -> NoDup (map key local) -> NoDup (map key (merge_by key join base local)).
Proof.
  intros J Nb Nl. rewrite merge_keys by done. apply NoDup_app. split_and!; [done| |].
  - intros k Kb (y & -> & Iy)%list_elem_of_fmap. apply list_elem_of_filter in Iy as [N _]. done.
  - revert Nl. clear. induction local as [|y local IH]; [by rewrite filter_nil|]. cbn [map]. intros [N Nl]%NoDup_cons. rewrite filter_cons.
    destruct (decide _); [|by apply IH]. cbn. apply NoDup_cons. split; [|by apply IH].
    intros (z & E & Iz)%list_elem_of_fmap. apply list_elem_of_filter in Iz as [_ Iz]. apply N. apply list_elem_of_fmap. eauto.
Qed.
End Merge.

(** Local health checks override external ones, and nothing else changes: for a service listed in
    both, with the names of its local checks distinct, the merged checks are the local ones and the
    external ones of another name; distinct names stay distinct, and every other setting is the
    local one where it is set. *)
Theorem local_overrides_external external local c : NoDup (map hcc_Name (shc_Checks local)) ->
  (c ∈ shc_Checks (mergeServiceConfigs external local) <->
     c ∈ shc_Checks local \/ (c ∈ shc_Checks external /\ hcc_Name c ∉ map hcc_Name (shc_Checks local))) /\
  (NoDup (map hcc_Name (shc_Checks external)) -> NoDup (map hcc_Name (shc_Checks (mergeServiceConfigs external local)))) /\
  (0 < shc_CheckInterval local -> serviceCheckInterval (mergeServiceConfigs external local) = shc_CheckInterval local) /\
  (forall b, shc_Enabled local = Some b -> shc_Enabled (mergeServiceConfigs external local) = Some b) /\
  (forall n, shc_SyncAllowance local = Some n -> shc_SyncAllowance (mergeServiceConfigs external local) = Some n).
Proof.
  intros Nd. split_and!.
  - by apply override_elements.
  - intros Nb. by apply merge_keys_nodup.
  - intros P. unfold serviceCheckInterval, mergeServiceConfigs. cbn. by rewrite !(proj2 (Z.ltb_lt 0 _) P).
  - intros b E. cbn. by rewrite E.
  - intros n E. cbn. by rewrite E.
Qed.

(** Switching the health checks of a service off in the unified configuration, the one with the
    highest precedence, has no effect on a service that the external rules list: the service is left
    out of the unified part, and the external entry runs as it is. *)
Theorem unified_switch_off_ignored e c id h cfg : hce_config e = Some c -> ahc_Local c = [] ->
  (exists x, ahc_External c = Some x /\ ecs_URL x <> "") ->
  hce_unified e = Some [(id, Some h)] -> sho_Enabled h = Some false ->
  cfg ∈ hce_externalConfigs e -> shc_ServiceID cfg = id ->
  cfg ∈ GetServiceConfigs e.
Proof.
  intros Ec El (x & Ex & Eu) Eh Off I Ei. unfold GetServiceConfigs, getUnifiedServicesHealthChecks. rewrite Ec, Eh, El. cbn. rewrite Off. cbn.
  rewrite Ex. by rewrite (proj2 (String.eqb_neq _ _) Eu).
Qed.

(** ** Uniqueness *)

Lemma first_duplicate_none l : forall seen, first_duplicate seen l = None <-> NoDup (map uniqueness_key l) /\ (forall p, p ∈ l -> uniqueness_key p ∉ seen).
Proof.
  induction l as [|p l IH]; intros seen; cbn [first_duplicate map]; [split; [intros _; split; [constructor|set_solver]|done]|].
  case_bool_decide as B.
  - split; [discriminate|]. intros [_ N]. exfalso. apply (N p); set_solver.
  - rewrite IH, NoDup_cons. split.
    + intros [Nd N]. split_and!; [|done|].
      * intros (q & E & Iq)%list_elem_of_fmap. apply (N q Iq). rewrite <- E. set_solver.
      * intros q [->|Iq]%elem_of_cons; [done|]. specialize (N q Iq). set_solver.
    + intros [[Np Nd] N]. split; [done|]. intros q Iq. apply not_elem_of_union. split.
      * intros E%elem_of_singleton. apply Np. apply list_elem_of_fmap. eauto.
      * apply N. set_solver.
Qed.

Lemma colon_split (a b a' b' : string) : contains_byte ":" a = false -> contains_byte ":" a' = false ->
  a +:+ ":" +:+ b = a' +:+ ":" +:+ b' -> a = a' /\ b = b'.
Proof.
  revert a'. induction a as [|x a IH]; intros [|x' a'] Ha Ha' E; cbn in *.
  - by injection E.
  - injection E as <- _. discriminate.
  - injection E as -> _. discriminate.
  - injection E as -> E. unfold contains_byte in *. cbn in Ha, Ha'. destruct (Ascii.eqb x' ":"); [discriminate|].
    destruct (IH a') as [-> ->]; [by destruct (index_byte ":" a)|by destruct (index_byte ":" a')|done|done].
Qed.

(** A configuration passes the uniqueness check only if no service has two checks of one name;
    when no service ID contains a colon it passes exactly then. *)
Theorem uniqueness_sound c :
  (ValidateUniqueness c = None -> NoDup (check_pairs (ahc_Local c))) /\
  ((forall s, s ∈ ahc_Local c -> contains_byte ":" (shc_ServiceID s) = false) ->
   NoDup (check_pairs (ahc_Local c)) -> ValidateUniqueness c = None).
Proof.
  unfold ValidateUniqueness. rewrite first_duplicate_none. split; [intros [Nd _]; by eapply NoDup_fmap_1|].
  intros Nc Nd. split; [|set_solver].
  assert (Ids : forall p, p ∈ check_pairs (ahc_Local c) -> contains_byte ":" p.1 = false).
  { intros p (s & I & Is)%list_elem_of_bind. apply list_elem_of_fmap in I as (k & -> & _). by apply Nc. }
  clear Nc. induction (check_pairs (ahc_Local c)) as [|p l IH]; [constructor|]. apply NoDup_cons in Nd as [Np Nd]. cbn.
  apply NoDup_cons. split; [|apply IH; [done|set_solver]]. intros (q & E & Iq)%list_elem_of_fmap. apply Np.
  unfold uniqueness_key in E. destruct (colon_split p.1 p.2 q.1 q.2) as [E1 E2]; [apply Ids; set_solver..|done|].
  destruct p, q. cbn in *. by subst.
Qed.

(** Sampling cannot be switched off with the documented rate: on an enabled pipeline a sample rate
    of zero, of either sign, is replaced by ten percent before it is validated or used. *)
Theorem zero_sample_rate_replaced c : opc_Enabled c = true -> feqb (opc_SampleRate c) f_zero = true ->
  0 <= opc_WorkerCount c -> 0 <= opc_QueueSize c ->
  ObservationPipelineConfig_Validate c = None /\
  opc_SampleRate (ObservationPipelineConfig_HydrateDefaults c) = DefaultObservationPipelineSampleRate.
Proof.
  intros En Z W Q. unfold ObservationPipelineConfig_HydrateDefaults, ObservationPipelineConfig_Validate. cbn. rewrite En, Z. cbn.
  rewrite (proj2 (Z.ltb_ge _ 0) W), (proj2 (Z.ltb_ge _ 0) Q). split; [|done].
  destruct (opc_SampleRate c) as [[] |[]| |[] m ex]; cbn in Z |- *; try discriminate; done.
Qed.

(** ** Duplicate entries *)

(** Of two entries for one service the one with the shorter interval decides when it runs, not
    the first: an entry that is not due yet does not keep a later entry from marking the service. *)
Theorem shorter_duplicate_decides s cfg1 cfg2 now tick a : shc_ServiceID cfg1 = shc_ServiceID cfg2 ->
  switched_on (shc_Enabled cfg1) = true -> switched_on (shc_Enabled cfg2) = true ->
  sc_lastRun s !! shc_ServiceID cfg1 = Some a -> 0 < tick ->
  elapsed s now (tick ÷ 2) cfg1 = false -> elapsed s now (tick ÷ 2) cfg2 = true ->
  is_Some (fst (dueServices s [cfg1; cfg2] now tick) !! shc_ServiceID cfg1).
Proof.
  intros Ei On1 On2 L Ht N1 N2. unfold dueServices. rewrite (proj2 (Z.leb_gt tick 0) Ht). cbn [fold_left fst].
  destruct (due_step_at now (tick ÷ 2) (mkDue s ∅ ∅) cfg1 (lookup_empty _) On1) as [_ D1]. cbn [ds_schedule] in D1. rewrite N1 in D1.
  destruct D1 as [D1 K1]. set (d1 := due_step _ _ _ cfg1) in *. rewrite Ei in D1.
  destruct (due_step_at now (tick ÷ 2) d1 cfg2 D1 On2) as [_ D2].
  assert (E2 : elapsed (ds_schedule d1) now (tick ÷ 2) cfg2 = true).
  { unfold elapsed in N2 |- *. rewrite <- Ei in *. by rewrite K1. }
  rewrite E2 in D2. rewrite Ei. apply D2.
Qed.
