(* ===== verification/HealthJobProps.v ===== *)
(** * What the job of one backend does

    The checks of a backend are relayed through one supplier and their results count for all of the
    suppliers on it; over consecutive runs each of them is the one that is probed. *)

From S2P Require Import Prelude GoStrings Utf8 GoSort Domain RepKey Signals Heuristic RelayPolicy PoolGuards RpcDetect Leader HealthConfig HealthCheck HealthCycle HealthCycleProps HealthCheckProps RPCTypes.
From Stdlib Require Import ZArith Lia Bool Ascii String.
From stdpp Require Import base gmap strings fin_maps list.

Open Scope string_scope.
Open Scope Z_scope.
Open Scope list_scope.

(** ** Rotation *)

Lemma rotation_covers (c : Z) (n i : nat) : (i < n)%nat -> exists k, (k < n)%nat /\ representativeIndex (c + Z.of_nat k) n = i.
Proof.
  intros Hi. unfold representativeIndex. destruct (Nat.leb_spec n 1) as [L|L]; [exists 0%nat; lia|].
  exists (Z.to_nat ((Z.of_nat i - c) mod Z.of_nat n)). pose proof (Z.mod_pos_bound (Z.of_nat i - c) (Z.of_nat n) ltac:(lia)) as B.
  split; [lia|]. rewrite Z2Nat.id by lia. rewrite Zplus_mod_idemp_r. replace (c + (Z.of_nat i - c)) with (Z.of_nat i) by lia.
  rewrite Z.mod_small by lia. lia.
Qed.

Section Job.
Context `{UnicodeCase} `{RPCTypeMembers} `{RPCTypeConfig} `{RepKey.RPCTypeEnum} `{DomainLib} `{GoQuote}.
Implicit Types (j : job_env) (serviceID : string) (cfg : ServiceHealthCheckConfig) (check : HealthCheckConfig) (ep : EndpointInfo).

(** ** The checks of one endpoint *)

(** Everything that is neither a websocket nor a gRPC check is run over HTTP. *)
Definition runs_http check : Prop := hcc_Type check <> HealthCheckTypeWebSocket /\ hcc_Type check <> HealthCheckTypeGRPC.

#[export] Instance runs_http_dec check : Decision (runs_http check).
Proof. unfold runs_http. apply _. Defined.

Definition http_checks cfg : list HealthCheckConfig := filter runs_http (shc_Checks cfg).

Definition relays (es : list probe_effect) : list (EndpointAddr * Payload) :=
  omap (fun e => match e with Relayed a p => Some (a, p) | _ => None end) es.

Lemma job_relays_app es es' : relays (es ++ es') = relays es ++ relays es'.
Proof. apply omap_app. Qed.

Lemma record_no_relay env serviceID addr check e l : relays (recordCheckResult env serviceID addr check e l) = [].
Proof. unfold recordCheckResult. destruct (_ =? _)%string; [done|]. destruct e as [e|]; [|done]. by destruct (IsOverServicedError e). Qed.

Lemma archival_no_relay env serviceID addr :
  relays (markEndpointArchival env serviceID addr) = [] /\ relays (clearEndpointArchival env serviceID addr) = [].
Proof. unfold markEndpointArchival, clearEndpointArchival. by destruct (pe_hasQoS env). Qed.

Lemma observe_no_relay env addr check p st b : relays (processObservationSync env addr check p st b) = [].
Proof. unfold processObservationSync. by destruct (pe_observing env). Qed.

Lemma judge_outcome env serviceID addr check sa l st b :
  co_check (fst (judge_response env serviceID addr check sa l st b)) = check /\
  relays (snd (judge_response env serviceID addr check sa l st b)) = [].
Proof.
  unfold judge_response. destruct (if _ && _ then _ else _); try by split.
  all: destruct (detectKnownErrors _ _ _) as [[? ?]|]; [by split|]; split; [done|]; cbn;
    destruct (hcc_Archival check); [apply (archival_no_relay env serviceID addr)|done].
Qed.

Definition built (p : probe_result) : Prop := match p with ProbeNotBuilt _ => False | _ => True end.

Lemma execute_outcome env serviceID addr check sa l p :
  let '(o, es) := ExecuteCheckViaProtocol env serviceID addr check sa l p in
  co_check o = check /\
  (relays es = [] \/ relays es = [(addr, buildServicePayload check)]) /\
  (switched_on (hcc_Enabled check) = true -> built p -> Relayed addr (buildServicePayload check) ∈ es) /\
  (switched_on (hcc_Enabled check) = false -> co_err o = None /\ co_latency o = 0 /\ es = []).
Proof.
  unfold ExecuteCheckViaProtocol. destruct (switched_on (hcc_Enabled check)) eqn:On; cbn [negb]; [|by split_and!; auto].
  destruct p as [e|e|rs]; [by split_and!; auto|split_and!; [done|by auto|set_solver|done]|].
  destruct (ShouldRetry _); [split_and!; [done|by auto|set_solver|done]|].
  assert (Only : forall es, relays es = [] ->
    relays (Relayed addr (buildServicePayload check) :: processObservationSync env addr check (buildServicePayload check)
      (match last rs with Some r => rr_HTTPStatusCode r | None => 0 end) (match last rs with Some r => rr_body r | None => "" end) ++ es)
    = [(addr, buildServicePayload check)]).
  { intros es E. cbn. f_equal. fold (relays (processObservationSync env addr check (buildServicePayload check)
      (match last rs with Some r => rr_HTTPStatusCode r | None => 0 end) (match last rs with Some r => rr_body r | None => "" end) ++ es)).
    by rewrite job_relays_app, observe_no_relay, E. }
  destruct (negb (health_IsSuccess _)).
  - split_and!; [done| |set_solver|done]. right. apply Only. destruct (hcc_Archival check); [apply (archival_no_relay env serviceID addr)|done].
  - destruct (judge_response _ _ _ _ _ _ _ _) as [o es] eqn:J.
    pose proof (judge_outcome env serviceID addr check sa l
      (match last rs with Some r => rr_HTTPStatusCode r | None => 0 end) (match last rs with Some r => rr_body r | None => "" end)) as [Jc Jr].
    rewrite J in Jc, Jr. cbn in Jc, Jr. split_and!; [done|by auto|set_solver|done].
Qed.

Section Run.
Context (env : probe_env) (serviceID : string) (addr : EndpointAddr) (sa : Z) (runWS hasWS accepts : bool) (probe : prober).

Abbreviation run b := (run_checks env serviceID addr sa b runWS hasWS accepts probe).

(** One step of the loop over the checks. *)
Lemma run_cons b i check checks : run b i (check :: checks) =
  let '(outcomes, effects) := run b (S i) checks in
  if decide (runs_http check) then
    if b then let '(o, es) := ExecuteCheckViaProtocol env serviceID addr check sa (fst (probe addr i)) (snd (probe addr i)) in
              (o :: outcomes, es ++ recordCheckResult env serviceID addr check (co_err o) (co_latency o) ++ effects)
    else (outcomes, effects)
  else (outcomes, (if (hcc_Type check =? HealthCheckTypeWebSocket)%string && (runWS && hasWS && accepts) then [WebSocketProbed addr check] else []) ++ effects).
Proof.
  cbn [run_checks]. destruct (run b (S i) checks) as [outcomes effects]. unfold runs_http.
  destruct (String.eqb_spec (hcc_Type check) HealthCheckTypeWebSocket) as [E|E].
  - rewrite decide_False by tauto. by destruct (runWS && hasWS && accepts).
  - destruct (String.eqb_spec (hcc_Type check) HealthCheckTypeGRPC) as [E'|E']; [by rewrite decide_False by tauto|].
    rewrite decide_True by done. destruct b; cbn [negb]; [|done]. by destruct (probe addr i).
Qed.

Lemma run_without_http i checks : fst (run false i checks) = [] /\ relays (snd (run false i checks)) = [].
Proof.
  revert i. induction checks as [|check checks IH]; intros i; [done|]. rewrite run_cons. specialize (IH (S i)).
  destruct (run false (S i) checks) as [outcomes effects]. destruct (decide (runs_http check)); [done|]. cbn [fst snd] in *.
  rewrite job_relays_app. destruct IH as [-> ->]. by destruct (_ && _).
Qed.

Lemma run_http i checks : let '(outcomes, effects) := run true i checks in
  map co_check outcomes = filter runs_http checks /\
  relays effects `sublist_of` map (fun c => (addr, buildServicePayload c)) (filter runs_http checks) /\
  (forall o, o ∈ outcomes -> recordCheckResult env serviceID addr (co_check o) (co_err o) (co_latency o) ⊆ effects) /\
  (forall n check, checks !! n = Some check -> runs_http check -> switched_on (hcc_Enabled check) = true ->
     built (snd (probe addr (i + n)%nat)) -> Relayed addr (buildServicePayload check) ∈ effects) /\
  (forall check, check ∈ checks -> runs_http check -> switched_on (hcc_Enabled check) = false ->
     exists o, o ∈ outcomes /\ co_check o = check /\ co_err o = None /\ co_latency o = 0).
Proof.
  revert i. induction checks as [|check checks IH]; intros i; [cbn; split_and!; try done; set_solver|].
  rewrite run_cons. specialize (IH (S i)). destruct (run true (S i) checks) as [outcomes effects].
  destruct IH as (I1 & I2 & I3 & I4 & I5). rewrite filter_cons. destruct (decide (runs_http check)) as [Hh|Hh].
  - pose proof (execute_outcome env serviceID addr check sa (fst (probe addr i)) (snd (probe addr i))) as X.
    destruct (ExecuteCheckViaProtocol _ _ _ _ _ _ _) as [o es]. destruct X as (X1 & X2 & X3 & X4). cbn [map]. split_and!.
    + by rewrite X1, I1.
    + rewrite !job_relays_app, record_no_relay. cbn. destruct X2 as [-> | ->]; [by apply sublist_cons|by apply sublist_skip].
    + intros o' [->|Ho]%elem_of_cons; [rewrite X1; set_solver|]. specialize (I3 o' Ho). set_solver.
    + intros [|n] c L Hc On Hb; cbn in L.
      * injection L as <-. rewrite Nat.add_0_r in Hb. specialize (X3 On Hb). set_solver.
      * replace (i + S n)%nat with (S i + n)%nat in Hb by lia. specialize (I4 n c L Hc On Hb). set_solver.
    + intros c [->|Hc]%elem_of_cons Rc Off; [exists o; destruct (X4 Off) as (? & ? & ?); set_solver|].
      destruct (I5 c Hc Rc Off) as (o' & ? & ?). exists o'. set_solver.
  - split_and!; [done| | | |].
    + rewrite job_relays_app. by destruct (_ && _).
    + intros o Ho. specialize (I3 o Ho). set_solver.
    + intros [|n] c L Hc On Hb; cbn in L; [congruence|]. replace (i + S n)%nat with (S i + n)%nat in Hb by lia.
      specialize (I4 n c L Hc On Hb). set_solver.
    + intros c [->|Hc]%elem_of_cons Rc Off; [done|]. by apply I5.
Qed.
End Run.

(** ** The siblings *)

Lemma fan_no_relay env serviceID addr outcomes : relays (fanOutcomeToSibling env serviceID addr outcomes) = [].
Proof.
  unfold fanOutcomeToSibling. induction outcomes as [|o outcomes IH]; [done|]. cbn. rewrite job_relays_app. rewrite IH, app_nil_r.
  unfold fan_outcome. rewrite !job_relays_app, record_no_relay. cbn [app].
  destruct (archival_no_relay env serviceID addr) as [M C].
  destruct (_ =? _)%string; rewrite ?observe_no_relay; cbn [app]; destruct (co_archivalResolved o), (co_archivalPass o); done.
Qed.

Lemma siblings_no_relay j serviceID cfg outcomes repIdx i members : relays (fan_siblings j serviceID cfg outcomes repIdx i members) = [].
Proof.
  revert i. induction members as [|sib members IH]; intros i; [done|]. cbn [fan_siblings]. destruct (i =? repIdx)%nat; [apply IH|].
  destruct (je_canceled j (S i)); [done|]. rewrite job_relays_app, IH, app_nil_r. destruct (endpointSessionActive j sib); [|done].
  rewrite job_relays_app, fan_no_relay. apply run_without_http.
Qed.

Lemma sibling_recorded j serviceID cfg outcomes repIdx members o : (forall n, je_canceled j n = false) -> o ∈ outcomes ->
  forall i n ep, members !! n = Some ep -> (i + n <> repIdx)%nat -> endpointSessionActive j ep = true ->
  recordCheckResult (je_probe j) serviceID (ei_Addr ep) (co_check o) (co_err o) (co_latency o)
    ⊆ fan_siblings j serviceID cfg outcomes repIdx i members.
Proof.
  intros Nc Ho. induction members as [|sib members IH]; intros i n ep L N A; [done|]. cbn [fan_siblings]. rewrite Nc.
  destruct n as [|n]; cbn in L.
  - injection L as ->. rewrite Nat.add_0_r in N. rewrite (proj2 (Nat.eqb_neq i repIdx) N), A. intros e He.
    apply elem_of_app. left. apply elem_of_app. left. unfold fanOutcomeToSibling. apply list_elem_of_bind. exists o.
    split; [|done]. unfold fan_outcome. set_solver.
  - assert (R := IH (S i) n ep L ltac:(lia) A). destruct (i =? repIdx)%nat; [exact R|]. set_solver.
Qed.

(** ** The representative *)

Definition active_at j (grp : list EndpointInfo) (i : nat) : bool :=
  match grp !! i with Some ep => endpointSessionActive j ep | None => false end.

Lemma pick_self j grp r : active_at j grp r = true -> pick_representative j grp r = r.
Proof. unfold pick_representative, active_at. by intros ->. Qed.

Lemma pick_active j grp r i : (r < List.length grp)%nat -> active_at j grp i = true -> active_at j grp (pick_representative j grp r) = true.
Proof.
  intros Hr Hi. unfold pick_representative. fold (active_at j grp r).
  change (fun i => match grp !! i with Some ep => endpointSessionActive j ep | None => false end) with (active_at j grp).
  destruct (active_at j grp r) eqn:Ar; [done|].
  destruct (List.find _ _) as [k|] eqn:F; [apply List.find_some in F as [_ F]; exact F|].
  exfalso. assert (Li : (i < List.length grp)%nat).
  { unfold active_at in Hi. destruct (grp !! i) eqn:G; [by apply lookup_lt_Some in G|done]. }
  assert (Ne : i <> r) by (intros ->; congruence).
  eapply List.find_none in F; [rewrite Hi in F; discriminate|]. apply in_map_iff.
  exists ((i + List.length grp - r) mod List.length grp)%nat. pose proof (Nat.mod_upper_bound (i + List.length grp - r) (List.length grp) ltac:(lia)) as B.
  split.
  - rewrite Nat.Div0.add_mod_idemp_r. replace (r + (i + List.length grp - r))%nat with (i + 1 * List.length grp)%nat by lia.
    rewrite Nat.Div0.mod_add. by apply Nat.mod_small.
  - apply in_seq. destruct (decide (i < r)%nat).
    + rewrite Nat.mod_small in B |- * by lia. lia.
    + replace (i + List.length grp - r)%nat with ((i - r) + 1 * List.length grp)%nat in * by lia.
      rewrite Nat.Div0.mod_add, Nat.mod_small in * by lia. lia.
Qed.

Lemma index_in_range cycle (grp : list EndpointInfo) : grp <> [] -> (representativeIndex cycle (List.length grp) < List.length grp)%nat.
Proof.
  intros N. unfold representativeIndex. destruct grp as [|ep grp]; [done|]. destruct (Nat.leb_spec (List.length (ep :: grp)) 1); [cbn; lia|].
  pose proof (Z.mod_pos_bound cycle (Z.of_nat (List.length (ep :: grp))) ltac:(lia)). lia.
Qed.

(** The job of a group that is not canceled: the representative's own run, then the siblings. *)
Lemma group_job_active j serviceID cfg grp cycle i : (forall n, je_canceled j n = false) -> active_at j grp i = true ->
  exists r ep, r = pick_representative j grp (representativeIndex cycle (List.length grp)) /\ grp !! r = Some ep /\ endpointSessionActive j ep = true /\
    group_job j serviceID cfg grp cycle = snd (run_member j serviceID cfg ep true) ++
      fan_siblings j serviceID cfg (fst (run_member j serviceID cfg ep true)) r 0 grp.
Proof.
  intros Nc Hi. assert (Ne : grp <> []) by (intros ->; done).
  pose proof (pick_active j grp _ i (index_in_range cycle grp Ne) Hi) as A. unfold group_job. rewrite Nc.
  set (r := pick_representative _ _ _) in *. unfold active_at in A. destruct (grp !! r) as [ep|] eqn:G; [|done].
  exists r, ep. rewrite A. destruct (run_member j serviceID cfg ep true). by split_and!.
Qed.

(** ** Claims *)

(** A backend is relayed to once per check and run: the relays of a group's job all go to one
    member, whose session is active, and are a part of one relay per HTTP check of the service, in
    order; the other members cost none. *)
Theorem one_relay_per_backend j serviceID cfg grp cycle :
  relays (group_job j serviceID cfg grp cycle) = [] \/
  exists ep, ep ∈ grp /\ endpointSessionActive j ep = true /\
    relays (group_job j serviceID cfg grp cycle) `sublist_of` map (fun c => (ei_Addr ep, buildServicePayload c)) (http_checks cfg).
Proof.
  unfold group_job. destruct (je_canceled j 0); [by left|]. set (r := pick_representative _ _ _).
  destruct (grp !! r) as [ep|] eqn:G; [|left; apply siblings_no_relay]. destruct (endpointSessionActive j ep) eqn:A; [|left; apply siblings_no_relay].
  destruct (run_member j serviceID cfg ep true) as [outcomes effects] eqn:M. right. exists ep.
  split; [by eapply list_elem_of_lookup_2|]. split; [done|]. rewrite job_relays_app, siblings_no_relay, app_nil_r.
  unfold run_member, runEndpointChecks in M. pose proof (run_http (je_probe j) serviceID (ei_Addr ep) (sync_allowance cfg) true (has_ws ep) (je_poolAccepts j (ei_Addr ep)) (je_prober j) 0 (shc_Checks cfg)) as R.
  rewrite M in R. apply R.
Qed.

Lemma run_member_http j serviceID cfg ep : let '(outcomes, effects) := run_member j serviceID cfg ep true in
  map co_check outcomes = http_checks cfg /\
  (forall o, o ∈ outcomes -> recordCheckResult (je_probe j) serviceID (ei_Addr ep) (co_check o) (co_err o) (co_latency o) ⊆ effects) /\
  (forall n check, shc_Checks cfg !! n = Some check -> runs_http check -> switched_on (hcc_Enabled check) = true ->
     built (snd (je_prober j (ei_Addr ep) n)) -> Relayed (ei_Addr ep) (buildServicePayload check) ∈ effects) /\
  (forall check, check ∈ shc_Checks cfg -> runs_http check -> switched_on (hcc_Enabled check) = false ->
     exists o, o ∈ outcomes /\ co_check o = check /\ co_err o = None /\ co_latency o = 0).
Proof.
  unfold run_member, runEndpointChecks. pose proof (run_http (je_probe j) serviceID (ei_Addr ep) (sync_allowance cfg) true (has_ws ep) (je_poolAccepts j (ei_Addr ep)) (je_prober j) 0 (shc_Checks cfg)) as R.
  destruct (run_checks _ _ _ _ _ _ _ _ _ _ _) as [outcomes effects]. destruct R as (R1 & _ & R3 & R4 & R5). by split_and!.
Qed.

Lemma member_recorded j serviceID cfg grp cycle i : (forall n, je_canceled j n = false) -> active_at j grp i = true ->
  exists rep, grp !! pick_representative j grp (representativeIndex cycle (List.length grp)) = Some rep /\
    endpointSessionActive j rep = true /\ let outcomes := fst (run_member j serviceID cfg rep true) in
    forall n ep o, grp !! n = Some ep -> endpointSessionActive j ep = true -> o ∈ outcomes ->
      recordCheckResult (je_probe j) serviceID (ei_Addr ep) (co_check o) (co_err o) (co_latency o) ⊆ group_job j serviceID cfg grp cycle.
Proof.
  intros Nc Hi. destruct (group_job_active j serviceID cfg grp cycle i Nc Hi) as (r & rep & Er & G & A & ->).
  exists rep. rewrite <- Er. split_and!; [done..|]. cbn zeta. intros n ep o L Ae Ho.
  destruct (decide (n = r)) as [->|N].
  - rewrite G in L. injection L as <-. pose proof (run_member_http j serviceID cfg rep) as M.
    destruct (run_member j serviceID cfg rep true) as [outcomes effects]. destruct M as (_ & M & _). specialize (M o Ho). set_solver.
  - pose proof (sibling_recorded j serviceID cfg (fst (run_member j serviceID cfg rep true)) r grp o Nc Ho 0 n ep L N Ae). set_solver.
Qed.

(** The outcomes of a run are those of its checks, each judged on the relay of its own position. *)
Definition check_result j serviceID cfg ep (n : nat) check : checkOutcome :=
  fst (ExecuteCheckViaProtocol (je_probe j) serviceID (ei_Addr ep) check (sync_allowance cfg)
         (fst (je_prober j (ei_Addr ep) n)) (snd (je_prober j (ei_Addr ep) n))).

Lemma run_outcome env serviceID addr sa runWS hasWS accepts probe checks : forall i n check, checks !! n = Some check -> runs_http check ->
  fst (ExecuteCheckViaProtocol env serviceID addr check sa (fst (probe addr (i + n)%nat)) (snd (probe addr (i + n)%nat)))
    ∈ fst (run_checks env serviceID addr sa true runWS hasWS accepts probe i checks).
Proof.
  induction checks as [|c checks IH]; intros i n check L Hh; [done|]. rewrite run_cons.
  destruct n as [|n]; cbn in L.
  - injection L as ->. rewrite Nat.add_0_r. destruct (run_checks _ _ _ _ _ _ _ _ _ (S i) checks) as [outcomes effects].
    rewrite decide_True by done. destruct (ExecuteCheckViaProtocol _ _ _ _ _ _ _). cbn. set_solver.
  - specialize (IH (S i) n check L Hh). replace (i + S n)%nat with (S i + n)%nat by lia.
    destruct (run_checks _ _ _ _ _ _ _ _ _ (S i) checks) as [outcomes effects]. cbn [fst] in IH.
    destruct (decide (runs_http c)); [|exact IH].
    destruct (ExecuteCheckViaProtocol env serviceID addr c _ _ _). cbn [fst]. set_solver.
Qed.

(** The signal a result of a check is recorded as. *)
Definition result_signal (env : probe_env) check (o : checkOutcome) : Signal :=
  as_health_check match co_err o with
                  | None => NewRecoverySuccessSignal (pe_now env) (co_latency o)
                  | Some e => mapSignalType (pe_now env) (hcc_ReputationSignal check) e (co_latency o)
                  end.

Definition over_serviced_result (o : checkOutcome) : bool := match co_err o with Some e => IsOverServicedError e | None => false end.

(** C33: every supplier of a backend gets the backend's result: when a job is not cut short and some
    member's session is active, the checks are run through one active member, the rotated one or the
    next that is active, and what each HTTP check found there is recorded, as one signal of its
    success or of the check's configured failure, under the key of every active member of the group;
    the only result that moves no score is that of an over-serviced supplier. *)
Theorem outcome_reaches_all j serviceID cfg grp cycle i : (forall n, je_canceled j n = false) -> active_at j grp i = true ->
  exists rep, grp !! pick_representative j grp (representativeIndex cycle (List.length grp)) = Some rep /\
    endpointSessionActive j rep = true /\
    forall n check ep, shc_Checks cfg !! n = Some check -> runs_http check -> ep ∈ grp -> endpointSessionActive j ep = true ->
      over_serviced_result (check_result j serviceID cfg rep n check) = false ->
      Recorded (BuildKey (pe_keyBuilder (je_probe j)) serviceID (ei_Addr ep) (rpc_value (to_upper (hcc_Type check))))
        (result_signal (je_probe j) check (check_result j serviceID cfg rep n check)) ∈ group_job j serviceID cfg grp cycle.
Proof.
  intros Nc Hi. destruct (member_recorded j serviceID cfg grp cycle i Nc Hi) as (rep & G & A & M).
  exists rep. split_and!; [done..|]. intros n check ep L Hh [k Lk]%list_elem_of_lookup_1 Ae Os.
  assert (Ho : check_result j serviceID cfg rep n check ∈ fst (run_member j serviceID cfg rep true)) by 
    (exact (run_outcome (je_probe j) serviceID (ei_Addr rep) (sync_allowance cfg) true (has_ws rep) (je_poolAccepts j (ei_Addr rep))
      (je_prober j) (shc_Checks cfg) 0 n check L Hh)).
  apply (M k ep _ Lk Ae Ho). pose proof (execute_outcome (je_probe j) serviceID (ei_Addr rep) check (sync_allowance cfg)
    (fst (je_prober j (ei_Addr rep) n)) (snd (je_prober j (ei_Addr rep) n))) as X.
  unfold check_result, over_serviced_result, result_signal in *. destruct (ExecuteCheckViaProtocol _ _ _ _ _ _ _) as [o es]. cbn [fst] in *.
  destruct X as [-> _]. unfold recordCheckResult. destruct Hh as [W _]. rewrite (proj2 (String.eqb_neq _ _) W).
  destruct (co_err o) as [e|]; [rewrite Os|]; set_solver.
Qed.

(** A check that is switched off still counts as passed: nothing is relayed for it, and on every
    run each active supplier of the service gets a recovery signal with a latency of zero for it. *)
Theorem disabled_check_rewarded j serviceID cfg grp cycle check i ep : (forall n, je_canceled j n = false) -> grp !! i = Some ep ->
  endpointSessionActive j ep = true -> check ∈ shc_Checks cfg -> runs_http check -> hcc_Enabled check = Some false ->
  Recorded (BuildKey (pe_keyBuilder (je_probe j)) serviceID (ei_Addr ep) (rpc_value (to_upper (hcc_Type check))))
    (as_health_check (NewRecoverySuccessSignal (pe_now (je_probe j)) 0)) ∈ group_job j serviceID cfg grp cycle /\
  (forall sa l p, snd (ExecuteCheckViaProtocol (je_probe j) serviceID (ei_Addr ep) check sa l p) = []).
Proof.
  intros Nc L A Hc Hh Off. assert (Ai : active_at j grp i = true) by (unfold active_at; by rewrite L).
  split; [|intros sa l p; unfold ExecuteCheckViaProtocol; by rewrite Off].
  destruct (member_recorded j serviceID cfg grp cycle i Nc Ai) as (rep & _ & _ & M).
  pose proof (run_member_http j serviceID cfg rep) as R. destruct (run_member j serviceID cfg rep true) as [outcomes effects].
  destruct R as (_ & _ & _ & R). destruct (R check Hc Hh ltac:(by rewrite Off)) as (o & Ho & Ec & Ee & El).
  apply (M i ep o L A Ho). rewrite Ec, Ee, El. unfold recordCheckResult. destruct Hh as [W _].
  rewrite (proj2 (String.eqb_neq _ _) W). set_solver.
Qed.

(** ** Archival marks *)

(** The marks of a run are those of archival passes of its own checks. *)
Lemma run_marks env serviceID addr sa runWS hasWS accepts probe b checks : forall i,
  let '(outcomes, effects) := run_checks env serviceID addr sa b runWS hasWS accepts probe i checks in
  (forall o, o ∈ outcomes -> archival_passed o = true -> exists n check rs, checks !! n = Some check /\
     snd (probe addr (i + n)%nat) = ProbeAnswered rs /\ earns_archival env check sa rs) /\
  (forall e, e ∈ marks effects -> e ∈ markEndpointArchival env serviceID addr /\ exists o, o ∈ outcomes /\ archival_passed o = true).
Proof.
  induction checks as [|check checks IH]; intros i; [cbn; split; [set_solver|]; intros e I; by apply elem_of_nil in I|].
  rewrite run_cons. specialize (IH (S i)).
  destruct (run_checks _ _ _ _ _ _ _ _ _ (S i) checks) as [outcomes effects]. destruct IH as [I1 I2].
  assert (J1 : forall o, o ∈ outcomes -> archival_passed o = true -> exists n c rs, (check :: checks) !! n = Some c /\
     snd (probe addr (i + n)%nat) = ProbeAnswered rs /\ earns_archival env c sa rs).
  { intros o Ho P. destruct (I1 o Ho P) as (n & c & rs & ? & Pr & ?). exists (S n), c, rs.
    replace (i + S n)%nat with (S i + n)%nat by lia. by split_and!. }
  destruct (decide (runs_http check)); [destruct b; [|by split]|].
  - pose proof (check_marks env serviceID addr check sa (fst (probe addr i)) (snd (probe addr i))) as M.
    pose proof (pass_earned env serviceID addr check sa (fst (probe addr i)) (snd (probe addr i))) as P.
    destruct (ExecuteCheckViaProtocol _ _ _ _ _ _ _) as [o es]. cbn [fst] in P. split.
    + intros o' [->|Ho]%elem_of_cons Po; [|by apply (J1 o')]. destruct (P Po) as (rs & ? & ?).
      exists 0%nat, check, rs. by rewrite Nat.add_0_r.
    + intros e. rewrite !marks_app, marks_recorded, M. cbn [app]. intros [I|I]%elem_of_app.
      * destruct (archival_passed o) eqn:Po; [|by apply elem_of_nil in I]. split; [done|]. exists o. split; [constructor|done].
      * destruct (I2 e I) as (? & o' & ? & ?). split; [done|]. exists o'. split; [by constructor|done].
  - split; [done|]. intros e. rewrite marks_app. destruct (_ && _); cbn [marks List.filter is_mark app]; apply I2.
Qed.

Lemma member_marks j serviceID cfg ep b :
  (forall o, o ∈ fst (run_member j serviceID cfg ep b) -> archival_passed o = true -> exists n check rs, shc_Checks cfg !! n = Some check /\
     snd (je_prober j (ei_Addr ep) n) = ProbeAnswered rs /\ earns_archival (je_probe j) check (sync_allowance cfg) rs) /\
  (forall e, e ∈ marks (snd (run_member j serviceID cfg ep b)) -> e ∈ markEndpointArchival (je_probe j) serviceID (ei_Addr ep) /\
     exists o, o ∈ fst (run_member j serviceID cfg ep b) /\ archival_passed o = true).
Proof.
  unfold run_member, runEndpointChecks. pose proof (run_marks (je_probe j) serviceID (ei_Addr ep) (sync_allowance cfg) true (has_ws ep)
    (je_poolAccepts j (ei_Addr ep)) (je_prober j) b (shc_Checks cfg) 0) as R.
  by destruct (run_checks _ _ _ _ _ _ _ _ _ _ _).
Qed.

(** The siblings are marked for archival passes of the member that was probed, nothing else. *)
Lemma fan_outcomes_marks env serviceID addr outcomes e : e ∈ marks (fanOutcomeToSibling env serviceID addr outcomes) ->
  e ∈ markEndpointArchival env serviceID addr /\ exists o, o ∈ outcomes /\ archival_passed o = true.
Proof.
  unfold fanOutcomeToSibling. induction outcomes as [|o outcomes IH]; [intros I; by apply elem_of_nil in I|].
  cbn [mbind list_bind]. rewrite marks_app, fan_marks. intros [I|I]%elem_of_app.
  - destruct (archival_passed o) eqn:Po; [|by apply elem_of_nil in I]. split; [done|]. exists o. split; [constructor|done].
  - destruct (IH I) as (? & o' & ? & ?). split; [done|]. exists o'. split; [by constructor|done].
Qed.

Lemma sibling_marks j serviceID cfg outcomes repIdx members e : forall i, e ∈ marks (fan_siblings j serviceID cfg outcomes repIdx i members) ->
  exists sib o, sib ∈ members /\ endpointSessionActive j sib = true /\ e ∈ markEndpointArchival (je_probe j) serviceID (ei_Addr sib) /\
    o ∈ outcomes /\ archival_passed o = true.
Proof.
  induction members as [|sib members IH]; intros i; [intros I; by apply elem_of_nil in I|]. cbn [fan_siblings].
  assert (T : e ∈ marks (fan_siblings j serviceID cfg outcomes repIdx (S i) members) -> exists sib' o, sib' ∈ sib :: members /\
    endpointSessionActive j sib' = true /\ e ∈ markEndpointArchival (je_probe j) serviceID (ei_Addr sib') /\ o ∈ outcomes /\ archival_passed o = true).
  { intros I. destruct (IH (S i) I) as (s' & o & ? & ?). exists s', o. split; [by constructor|done]. }
  destruct (i =? repIdx)%nat; [exact T|]. destruct (je_canceled j (S i)); [intros I; by apply elem_of_nil in I|].
  rewrite marks_app. intros [I|I]%elem_of_app; [|by apply T].
  destruct (endpointSessionActive j sib) eqn:A; [|by apply elem_of_nil in I]. rewrite marks_app in I. apply elem_of_app in I as [I|I].
  - apply fan_outcomes_marks in I as (? & o & ? & ?). exists sib, o. split_and!; try done. constructor.
  - apply (proj2 (member_marks j serviceID cfg sib false)) in I as (_ & o & Ho & _). unfold run_member, runEndpointChecks in Ho.
    rewrite (proj1 (run_without_http _ _ _ _ _ _ _ _ _ _)) in Ho. by apply elem_of_nil in Ho.
Qed.

(** C34: a job of the health checks marks endpoints archival only for an archival pass: of whatever
    jobs a run of a service submits, an effect that marks an endpoint goes to the member whose checks
    were relayed or to a supplier on the same backend, for half an hour, and some check of the
    service that is declared archival and switched on was answered there by a response that passed
    the heuristics, met its expectations, was in sync where that is checked and matched no known
    error.  The marks that come from extracting observed responses, also those of health checks, are
    not among these effects. *)
Theorem archival_mark_earned x j cfg cycle infos job e :
  job ∈ service_jobs x j cfg cycle infos -> e ∈ job -> is_mark e = true ->
  exists probed marked n check rs,
    (marked = probed \/ exists grp, grp ∈ groupEndpointsByURL infos /\ probed ∈ grp /\ marked ∈ grp) /\
    endpointSessionActive j probed = true /\ endpointSessionActive j marked = true /\
    (e = ArchivalSet (NewEndpointKey (shc_ServiceID cfg) (ei_Addr marked) RPCType_JSON_RPC) true (30 * minute) \/
     e = QoSArchival (ei_Addr marked) true) /\
    shc_Checks cfg !! n = Some check /\ snd (je_prober j (ei_Addr probed) n) = ProbeAnswered rs /\
    earns_archival (je_probe j) check (sync_allowance cfg) rs.
Proof.
  assert (Mark : forall ep, e ∈ markEndpointArchival (je_probe j) (shc_ServiceID cfg) (ei_Addr ep) ->
    e = ArchivalSet (NewEndpointKey (shc_ServiceID cfg) (ei_Addr ep) RPCType_JSON_RPC) true (30 * minute) \/ e = QoSArchival (ei_Addr ep) true).
  { intros ep. unfold markEndpointArchival. destruct (pe_hasQoS _); rewrite ?elem_of_cons, elem_of_nil; tauto. }
  unfold service_jobs. intros Hj He Hm. assert (I : e ∈ marks job) by by apply elem_of_marks. clear He Hm.
  destruct (backendDedupEnabled x); apply list_elem_of_fmap in Hj as (y & -> & Hy).
  - unfold group_job in I. destruct (je_canceled j 0); [by apply elem_of_nil in I|]. set (r := pick_representative _ _ _) in I.
    destruct (y !! r) as [rep|] eqn:G; [|apply sibling_marks in I as (? & ? & _ & _ & _ & Ho & _); by apply elem_of_nil in Ho].
    destruct (endpointSessionActive j rep) eqn:A;
      [|apply sibling_marks in I as (? & ? & _ & _ & _ & Ho & _); by apply elem_of_nil in Ho].
    destruct (member_marks j (shc_ServiceID cfg) cfg rep true) as [Earn Own]. assert (Hr : rep ∈ y) by by eapply list_elem_of_lookup_2.
    destruct (run_member j (shc_ServiceID cfg) cfg rep true) as [outcomes effects]. cbn [fst snd] in *.
    rewrite marks_app in I. apply elem_of_app in I as [I|I].
    + destruct (Own e I) as (M & o & Ho & Po). destruct (Earn o Ho Po) as (n & check & rs & ? & ? & ?).
      exists rep, rep, n, check, rs. split_and!; auto.
    + destruct (sibling_marks _ _ _ _ _ _ _ _ I) as (sib & o & Hs & As & M & Ho & Po).
      destruct (Earn o Ho Po) as (n & check & rs & ? & ? & ?). exists rep, sib, n, check, rs. split_and!; auto. right. by exists y.
  - unfold endpoint_job in I. destruct (je_canceled j 0); [by apply elem_of_nil in I|].
    destruct (endpointSessionActive j y) eqn:A; cbn [negb] in I; [|by apply elem_of_nil in I].
    destruct (member_marks j (shc_ServiceID cfg) cfg y true) as [Earn Own]. destruct (Own e I) as (M & o & Ho & Po).
    destruct (Earn o Ho Po) as (n & check & rs & ? & ? & ?). exists y, y, n, check, rs. split_and!; auto.
Qed.

(** ** Many ticks

    What one tick of the loop meets: the time, the elector, the order and the answers of the endpoint
    lookups and what the jobs of each service see. *)
Record tick_input := mkTick {
  ti_now : Time;
  ti_elector : option LeaderElector;
  ti_order : gmap string Z -> list string;
  ti_events : list lookup_event;
  ti_env : string -> job_env;
}.

Context `{SliceSort}.

(** The ticks in a row, each with the jobs it submits; the schedule is threaded through. *)
Fixpoint run_ticks (e : HealthCheckExecutor) (s : schedule) (ticks : list tick_input) : list (tick_input * list (list probe_effect)) :=
  match ticks with
  | [] => []
  | ti :: ticks =>
      let '(s', jobs) := RunAllChecksViaProtocol e (ti_elector ti) s (ti_now ti) (ti_order ti) (ti_events ti) (ti_env ti) in
      (ti, jobs) :: run_ticks e s' ticks
  end.

(** A tick of the leader at which a due service [id] has its endpoints resolved, [grp] one of the
    backends, the session of [ep] active, and whose jobs are not cut short. *)
Record serves_tick (e : HealthCheckExecutor) (id : string) (grp : list EndpointInfo) ep (ti : tick_input) : Prop := {
  st_leader : ShouldRunChecks e (ti_elector ti) = true;
  st_group : forall due, is_Some (due !! id) ->
    exists infos, resolveEndpointInfos (ti_order ti due) (ti_events ti) ∅ !! id = Some infos /\ grp ∈ groupEndpointsByURL infos;
  st_active : endpointSessionActive (ti_env ti id) ep = true;
  st_running : forall n, je_canceled (ti_env ti id) n = false;
}.

Lemma submit_grows e env due resolved cfgs st : snd st ⊆ snd (fold_left (submit_jobs e env due resolved) cfgs st).
Proof.
  revert st. induction cfgs as [|cfg cfgs IH]; intros st; [done|]. cbn. etrans; [|apply IH]. destruct st as [seen jobs].
  unfold submit_jobs. destruct (due !! _); [|done]. case_bool_decide; [done|]. cbn. set_solver.
Qed.

Lemma submit_seen e env due resolved cfgs st id : id ∉ ids cfgs -> id ∉ fst st ->
  id ∉ fst (fold_left (submit_jobs e env due resolved) cfgs st).
Proof.
  revert st. induction cfgs as [|cfg cfgs IH]; intros st N Ns; [done|]. cbn in N |- *. apply not_elem_of_cons in N as [N1 N2].
  apply IH; [done|]. destruct st as [seen jobs]. unfold submit_jobs. destruct (due !! _); [|done]. case_bool_decide; [done|]. cbn in *. set_solver.
Qed.

(** The jobs of a due service are submitted. *)
Lemma submit_service e env due resolved cfgs cfg cycle infos : NoDup (ids cfgs) -> cfg ∈ cfgs ->
  due !! shc_ServiceID cfg = Some cycle -> resolved !! shc_ServiceID cfg = Some infos ->
  service_jobs e (env (shc_ServiceID cfg)) cfg cycle infos ⊆ snd (fold_left (submit_jobs e env due resolved) cfgs (∅, [])).
Proof.
  intros Nd [l1 [l2 ->]]%list_elem_of_split Du Re. rewrite fold_left_app. cbn [fold_left].
  unfold ids in Nd. rewrite map_app in Nd. cbn in Nd. apply NoDup_app in Nd as (_ & D1 & _).
  assert (N1 : shc_ServiceID cfg ∉ ids l1) by (intros E; apply (D1 _ E); set_solver).
  pose proof (submit_seen e env due resolved l1 (∅, []) _ N1 ltac:(set_solver)) as Ns.
  destruct (fold_left _ l1 _) as [seen jobs]. cbn [fst] in Ns. etrans; [|apply submit_grows].
  unfold submit_jobs. rewrite Du, Re, bool_decide_eq_false_2 by done. cbn. set_solver.
Qed.

Section Rotation.
Context (e : HealthCheckExecutor) (cfg : ServiceHealthCheckConfig) (grp : list EndpointInfo) (ep : EndpointInfo).
Hypothesis Hnd : NoDup (ids (GetServiceConfigs e)).
Hypothesis Hcfg : cfg ∈ GetServiceConfigs e.
Hypothesis Hon : switched_on (shc_Enabled cfg) = true.
Hypothesis Hdedup : backendDedupEnabled e = true.

Abbreviation id := (shc_ServiceID cfg).
Abbreviation period := (MinCheckInterval (Some e)).

Lemma period_pos : 0 < period.
Proof.
  unfold MinCheckInterval. match goal with |- context [?x <=? 0] => destruct (Z.leb_spec x 0) end; [by vm_compute|done].
Qed.

(** The cycle numbers of consecutive runs are consecutive: the [k]-th run from here has the number
    [k + 1] past the counter. *)
Lemma run_ticks_cycle ticks : forall s k, Forall (serves_tick e id grp ep) ticks ->
  0 <= cycle_of s id -> cycle_of s id + 1 + Z.of_nat k < 2 ^ 64 ->
  (k < List.length (run_times (GetServiceConfigs e) period id s (map ti_now ticks)))%nat ->
  exists ti jobs, (ti, jobs) ∈ run_ticks e s ticks /\ serves_tick e id grp ep ti /\
    group_job (ti_env ti id) id cfg grp (cycle_of s id + 1 + Z.of_nat k) ∈ jobs.
Proof.
  induction ticks as [|ti ticks IH]; intros s k All C0 Cm Hk; [cbn in Hk; lia|]. apply Forall_cons in All as [St All].
  cbn [run_ticks run_times map] in *. unfold RunAllChecksViaProtocol. rewrite (st_leader _ _ _ _ _ St). cbn [negb].
  destruct (GetServiceConfigs e) as [|c0 cs] eqn:Cf; [by apply not_elem_of_nil in Hcfg|]. rewrite <- Cf in *.
  pose proof (dueServices_cycle s (GetServiceConfigs e) (ti_now ti) period cfg Hnd Hcfg Hon period_pos) as D. cbn zeta in D.
  destruct (dueServices s (GetServiceConfigs e) (ti_now ti) period) as [due s'].
  assert (W : wrapu64 (cycle_of s id + 1) = cycle_of s id + 1) by (unfold wrapu64; apply Z.mod_small; lia).
  destruct (elapsed s (ti_now ti) (period ÷ 2) cfg); destruct D as [Du Cy]; rewrite ?W in *; rewrite Du in Hk.
  - destruct k as [|k].
    + eexists ti, _. split_and!; [by left|done|]. destruct (st_group _ _ _ _ _ St due ltac:(by rewrite Du)) as (infos & Re & G).
      eapply (submit_service e (ti_env ti) due _ _ cfg _ infos Hnd Hcfg Du Re). unfold service_jobs. rewrite Hdedup.
      apply list_elem_of_fmap. exists grp. split; [|done]. f_equal. lia.
    + cbv beta iota in Hk. cbn [List.length] in Hk. destruct (IH s' k All ltac:(lia) ltac:(lia) ltac:(lia)) as (ti' & jobs & Hi & S' & Hj).
      exists ti', jobs. split_and!; [by right|done|]. rewrite Cy in Hj. replace (cycle_of s id + 1 + Z.of_nat (S k)) with (cycle_of s id + 1 + 1 + Z.of_nat k) by lia. done.
  - cbv beta iota in Hk. destruct (IH s' k All ltac:(lia) ltac:(lia) ltac:(lia)) as (ti' & jobs & Hi & S' & Hj).
    exists ti', jobs. split_and!; [by right|done|]. by rewrite Cy in Hj.
Qed.

(** C32: every supplier is probed itself in turn: over any stretch of ticks of the leader, from any
    state of the schedule, in which a service runs as often as a backend of it has suppliers, each of
    them carries out a whole run itself: one job of one of these ticks relays every HTTP check that
    is switched on and whose relay can be set up through it.  The service is listed once and switched
    on, deduplication is on, its endpoints are resolved whenever it runs, with this backend among
    them, its jobs are not cut short, the supplier's session stays active, and the 64-bit rotation
    counter does not wrap. *)
Theorem rotation_probes_everyone s ticks i : grp !! i = Some ep -> Forall (serves_tick e id grp ep) ticks ->
  0 <= cycle_of s id -> cycle_of s id + Z.of_nat (List.length grp) < 2 ^ 64 ->
  (List.length grp <= List.length (run_times (GetServiceConfigs e) period id s (map ti_now ticks)))%nat ->
  exists ti jobs job, (ti, jobs) ∈ run_ticks e s ticks /\ job ∈ jobs /\
    forall n check, shc_Checks cfg !! n = Some check -> runs_http check -> switched_on (hcc_Enabled check) = true ->
      built (snd (je_prober (ti_env ti id) (ei_Addr ep) n)) -> Relayed (ei_Addr ep) (buildServicePayload check) ∈ job.
Proof.
  intros L All C0 Cm Runs. pose proof (lookup_lt_Some _ _ _ L) as Li.
  destruct (rotation_covers (cycle_of s id + 1) (List.length grp) i Li) as (k & Hk & Rk).
  destruct (run_ticks_cycle ticks s k All C0 ltac:(lia) ltac:(lia)) as (ti & jobs & Hi & St & Hj).
  eexists ti, jobs, _. split_and!; [exact Hi|exact Hj|]. set (j := ti_env ti id) in *.
  intros n check Ln Hh On Hb. assert (Ai : active_at j grp i = true) by (unfold active_at; rewrite L; apply (st_active _ _ _ _ _ St)).
  destruct (group_job_active j id cfg grp (cycle_of s id + 1 + Z.of_nat k) i (st_running _ _ _ _ _ St) Ai) as (r & rep & Er & G & _ & ->).
  rewrite Rk, (pick_self j grp i Ai) in Er. subst r. rewrite L in G. injection G as <-.
  pose proof (run_member_http j id cfg ep) as R. destruct (run_member j id cfg ep true) as [outcomes effects].
  destruct R as (_ & _ & R & _). specialize (R n check Ln Hh On Hb). set_solver.
Qed.
End Rotation.
End Job.
