(* ===== verification/HealthDemo.v ===== *)
(** * Concrete health checks

    A service with a height check that is switched on, an archival check and one that is switched off,
    two suppliers on one backend, and the instances of the theorems about them. *)

From S2P Require Import Prelude GoStrings Utf8 GoSort Float64 Domain RepKey Signals SelectionProps Json JsonRpc Heuristic HeuristicProps RelayPolicy PoolGuards RpcDetect Leader HealthConfig HealthCheck HealthCycle HealthCycleProps HealthJobProps HealthCheckProps RPCTypes.
From Stdlib Require Import ZArith Lia Bool Ascii String.
From stdpp Require Import base gmap strings fin_maps list.

Open Scope string_scope.
Open Scope Z_scope.
Open Scope list_scope.

#[local] Instance plain_quote : GoQuote := quoted.

(** A JSON-RPC answer with a string result. *)
Definition answer (result : string) : string :=
  "{" +:+ quoted "jsonrpc" +:+ ":" +:+ quoted "2.0" +:+ "," +:+ quoted "id" +:+ ":1," +:+ quoted "result" +:+ ":" +:+ quoted result +:+ "}".

Definition eth_call : string :=
  "{" +:+ quoted "jsonrpc" +:+ ":" +:+ quoted "2.0" +:+ "," +:+ quoted "id" +:+ ":1," +:+ quoted "method" +:+ ":" +:+ quoted "eth_blockNumber" +:+ "}".

Definition demo_check (name : string) (enabled : option bool) (archival sync : bool) (ed : option ErrorDetection) : HealthCheckConfig :=
  mkHealthCheck name "json_rpc" enabled "POST" "/" None eth_call 200 "0x" ed (5 * second) archival sync "critical_error".

Definition zero_balance : ErrorDetection := mkErrorDetection [] [mkErrorPattern (quoted "0x0") "fatal_error"] [].

Definition block_check := demo_check "eth_blockNumber" None false true None.
Definition archival_check := demo_check "eth_archival" None true false (Some zero_balance).
Definition off_check := demo_check "eth_chainId" (Some false) false false None.

Definition demo_service (interval : Duration) (checks : list HealthCheckConfig) : ServiceHealthCheckConfig :=
  mkServiceHealth "eth" interval None (Some 5) checks.
Definition demo_other : ServiceHealthCheckConfig := mkServiceHealth "sol" (10 * second) None None [block_check].

Definition demo_now : Time := 1700000000 * second.
Definition demo_env : probe_env := mkProbeEnv demo_now EndpointKeyBuilder true (Some 1000) true.

Definition reply (result : string) : probe_result :=
  ProbeAnswered [mkResponse (Some (answer result)) 200 "pokt1a-https://node.example.com" (mkRelayMetadata "" "" "") "1"].
Definition demo_job : job_env :=
  mkJobEnv demo_env (fun _ => true) (fun _ => false) (fun _ => true) (fun _ _ => (20 * millisecond, reply "0x3e8")).

Definition first_supplier : EndpointInfo := mkEndpointInfo "pokt1a-https://node.example.com" "https://node.example.com" "" "s1".
Definition second_supplier : EndpointInfo := mkEndpointInfo "pokt1b-https://node.example.com" "https://node.example.com" "" "s1".
Definition demo_group : list EndpointInfo := [first_supplier; second_supplier].

(** ** Scheduling *)

Definition demo_cfgs : list ServiceHealthCheckConfig := [demo_other; demo_service (30 * second) [block_check]].
Definition no_runs : schedule := mkSchedule ∅ ∅.

Lemma demo_cfgs_nodup : NoDup (ids demo_cfgs).
Proof. apply (bool_decide_unpack _). vm_compute. exact I. Qed.

Lemma check_period_witness : exists later,
  run_times demo_cfgs (10 * second) "eth" no_runs (map (fun k => demo_now + k * second) [0; 10; 20; 30; 40]) = demo_now :: later /\
  gaps_within (25 * second) (35 * second) (demo_now :: later) /\ demo_now + 40 * second - List.last (demo_now :: later) 0 < 25 * second.
Proof.
  destruct (check_period demo_cfgs (demo_service (30 * second) [block_check]) (10 * second) demo_cfgs_nodup ltac:(set_solver) ltac:(done)
    ltac:(vm_compute; split; discriminate || done) ltac:(by vm_compute) no_runs demo_now
    (map (fun k => demo_now + k * second) [10; 20; 30; 40]) ltac:(done)) as (later & E & G & L).
  { vm_compute. repeat (split; [split; [discriminate|reflexivity]|]). exact I. }
  exists later. split; [exact E|]. split; [exact G|exact L].
Defined.

Lemma failed_lookup_waits_witness :
  let '(due, s') := dueServices no_runs demo_cfgs demo_now (10 * second) in
  is_Some (due !! "eth") /\ resolveEndpointInfos (map fst (map_to_list due)) [BudgetExpired] ∅ = ∅ /\
  fst (dueServices s' demo_cfgs (demo_now + 10 * second) (10 * second)) !! "eth" = None.
Proof.
  apply (failed_lookup_waits demo_cfgs (demo_service (30 * second) [block_check]) (10 * second) demo_cfgs_nodup ltac:(set_solver) ltac:(done)
    ltac:(vm_compute; split; discriminate || done) ltac:(by vm_compute) no_runs demo_now (demo_now + 10 * second) ltac:(done)).
  vm_compute. split; discriminate || done.
Defined.

Lemma shorter_duplicate_decides_witness :
  is_Some (fst (dueServices (mkSchedule {["eth" := demo_now]} {["eth" := 1]})
    [demo_service (60 * second) [block_check]; demo_service (10 * second) [archival_check]] (demo_now + 10 * second) (10 * second)) !! "eth").
Proof.
  apply (shorter_duplicate_decides (mkSchedule {["eth" := demo_now]} {["eth" := 1]}) (demo_service (60 * second) [block_check])
    (demo_service (10 * second) [archival_check]) (demo_now + 10 * second) (10 * second) demo_now); by vm_compute.
Defined.

(** ** Groups and jobs *)

Lemma backend_groups_partition_witness : concat (groupEndpointsByURL demo_group) ≡ₚ demo_group.
Proof. exact (proj1 (backend_groups_partition demo_group)). Defined.

Lemma outcome_reaches_all_witness :
  Recorded (NewEndpointKey "eth" (ei_Addr first_supplier) 3) (as_health_check (NewRecoverySuccessSignal demo_now (20 * millisecond)))
    ∈ group_job demo_job "eth" (demo_service (30 * second) [block_check]) demo_group 1.
Proof.
  destruct (outcome_reaches_all demo_job "eth" (demo_service (30 * second) [block_check]) demo_group 1 0 ltac:(done) ltac:(done)) as (rep & R & _ & A).
  vm_compute in R. injection R as <-.
  exact (A 0%nat block_check first_supplier eq_refl ltac:(split; discriminate) ltac:(set_solver) eq_refl ltac:(by vm_compute)).
Defined.

(** Three ticks of a process without leader election, a period apart; the service runs at each. *)
Definition demo_executor : HealthCheckExecutor :=
  mkExecutor (Some (mkActiveHealth true 0 0 (mkLeaderConfig "none" 0 0 "") None [demo_service (30 * second) [block_check]] None)) [] None ∅.
Definition demo_infos : list EndpointInfo := [second_supplier; first_supplier].
Definition demo_tick_at (k : Z) : tick_input :=
  mkTick (demo_now + k * second) None (fun _ => ["eth"]) [LookupReturned "eth" (Some demo_infos)] (fun _ => demo_job).
Definition demo_ticks : list tick_input := [demo_tick_at 0; demo_tick_at 30].

Lemma demo_tick_serves k : serves_tick demo_executor "eth" demo_group second_supplier (demo_tick_at k).
Proof.
  split; [by vm_compute| |done|done]. intros due _. exists demo_infos. split; [done|]. apply (bool_decide_unpack _). by vm_compute.
Qed.

Lemma rotation_probes_everyone_witness : exists ti jobs job, (ti, jobs) ∈ run_ticks demo_executor no_runs demo_ticks /\ job ∈ jobs /\
  forall n check, [block_check] !! n = Some check -> runs_http check -> switched_on (hcc_Enabled check) = true ->
    built (snd (je_prober (ti_env ti "eth") (ei_Addr second_supplier) n)) ->
    Relayed (ei_Addr second_supplier) (buildServicePayload check) ∈ job.
Proof.
  apply (rotation_probes_everyone demo_executor (demo_service (30 * second) [block_check]) demo_group second_supplier
    ltac:(apply (bool_decide_unpack _); by vm_compute) ltac:(vm_compute; left) ltac:(done) ltac:(done) no_runs demo_ticks 1).
  - done.
  - apply Forall_cons. split; [apply demo_tick_serves|]. apply Forall_cons. split; [apply demo_tick_serves|apply Forall_nil_2].
  - done.
  - done.
  - by vm_compute.
Defined.

Lemma disabled_check_rewarded_witness :
  Recorded (NewEndpointKey "eth" (ei_Addr first_supplier) 3) (as_health_check (NewRecoverySuccessSignal demo_now 0))
    ∈ group_job demo_job "eth" (demo_service (30 * second) [off_check]) demo_group 1.
Proof.
  refine (proj1 (disabled_check_rewarded demo_job "eth" (demo_service (30 * second) [off_check]) demo_group 1 off_check 0 first_supplier
    _ _ _ _ _ _)); [done|done|done|apply list_elem_of_here|split; discriminate|done].
Defined.

(** ** Outcomes *)

Lemma sync_check_exact_witness : validateSyncCheck (Some 1000) (answer "0x3e3") 5 = SyncPasses <-> 0 < 995 /\ 1000 - 995 <= 5.
Proof. apply sync_check_exact; [by vm_compute|lia|unfold max_int64; lia|unfold max_int64; lia]. Defined.

Definition upper_members : list (string * (string * json)) :=
  Eval vm_compute in match parse (answer "0X1") with Some (JObject ms) => ms | _ => [] end.

Lemma uppercase_hex_unchecked_witness : validateSyncCheck (Some 1000) (answer "0X1") 5 = SyncNotApplicable.
Proof. apply (uppercase_hex_unchecked (answer "0X1") upper_members "0X1" "1"); by vm_compute. Defined.

(** The archival check is relayed through one supplier, and the other one is marked too. *)
Definition archival_service : ServiceHealthCheckConfig := demo_service (30 * second) [archival_check].
Definition archival_job : list probe_effect :=
  List.hd [] (service_jobs demo_executor demo_job archival_service 1 demo_group).

Lemma archival_job_alone : service_jobs demo_executor demo_job archival_service 1 demo_group = [archival_job].
Proof. by vm_compute. Qed.

Lemma second_marked : ArchivalSet (NewEndpointKey "eth" (ei_Addr first_supplier) 3) true (30 * minute) ∈ archival_job.
Proof. apply (proj1 (elem_of_marks _ _)). vm_compute. do 2 right. left. Qed.

Lemma archival_mark_earned_witness :
  relays archival_job = [(ei_Addr second_supplier, buildServicePayload archival_check)] /\
  ArchivalSet (NewEndpointKey "eth" (ei_Addr first_supplier) 3) true (30 * minute) ∈ archival_job /\
  exists n check, [archival_check] !! n = Some check /\ hcc_Archival check = true.
Proof.
  split; [by vm_compute|]. split; [exact second_marked|].
  assert (J : archival_job ∈ service_jobs demo_executor demo_job archival_service 1 demo_group) by (rewrite archival_job_alone; constructor).
  destruct (archival_mark_earned demo_executor demo_job archival_service 1 demo_group archival_job _ J second_marked eq_refl)
    as (probed & marked & n & check & rs & _ & _ & _ & _ & L & _ & A & _).
  exists n, check. split; [exact L|exact A].
Defined.

Lemma archival_mark_survives_witness :
  let '(o, es) := ExecuteCheckViaProtocol demo_env "eth" "a" archival_check 5 second (reply "0x0") in
  is_Some (co_err o) /\ ArchivalSet (NewEndpointKey "eth" "a" 3) false 0 ∉ es ++ fan_outcome demo_env "eth" "b" o.
Proof.
  apply (archival_mark_survives demo_env "eth" "a" "b" archival_check 5 second
    [mkResponse (Some (answer "0x0")) 200 "pokt1a-https://node.example.com" (mkRelayMetadata "" "" "") "1"] "fatal_error"
    ("detected error pattern in response: " +:+ quoted "0x0")); by vm_compute.
Defined.

(** ** Configuration *)

Lemma local_overrides_external_witness :
  block_check ∈ shc_Checks (mergeServiceConfigs (demo_service (60 * second) [off_check]) (demo_service 0 [block_check])).
Proof.
  apply (local_overrides_external (demo_service (60 * second) [off_check]) (demo_service 0 [block_check]) block_check);
    [apply NoDup_singleton|left; set_solver].
Defined.

Definition demo_leader : LeaderElectionConfig := mkLeaderConfig "none" 0 0 "".
Definition external_only : HealthCheckExecutor :=
  mkExecutor (Some (mkActiveHealth true 0 0 (demo_leader) (Some (mkExternalSource "https://rules.example.com" 0 0)) [] None))
    [demo_service (60 * second) [block_check]]
    (Some [("eth", Some (mkHealthOverride (Some false) 0 None None []))]) ∅.

Lemma unified_switch_off_ignored_witness : demo_service (60 * second) [block_check] ∈ GetServiceConfigs external_only.
Proof.
  eapply (unified_switch_off_ignored external_only); [done|done|by eexists|done|done|set_solver|done].
Defined.

Lemma zero_sample_rate_replaced_witness :
  ObservationPipelineConfig_Validate (mkPipeline true f_zero 4 1000) = None /\
  opc_SampleRate (ObservationPipelineConfig_HydrateDefaults (mkPipeline true f_zero 4 1000)) = DefaultObservationPipelineSampleRate.
Proof. apply (zero_sample_rate_replaced (mkPipeline true f_zero 4 1000)); [done|by vm_compute|done|done]. Defined.
