(* ===== verification/ServiceConfig.v ===== *)
(** * Unified service configuration: gateway/unified_service_config.go, protocol/shannon/latency_config.go

    Settings per service over defaults over built-in values.  A pointer to a scalar is an [option]
    (the code never writes through one); a pointer to a section of a service is an [option] of the
    section, and since [GetMergedServiceConfig] writes through these pointers it returns the
    configuration it leaves behind besides the merged copy. *)

From S2P Require Import Prelude GoStrings Utf8 Float64 RepKey Signals Score RepConfig Json RpcDetect Leader HealthConfig Heuristic RelayPolicy.
From Stdlib Require Import ZArith Lia Bool Ascii String.
From stdpp Require Import base gmap strings fin_maps list.

Open Scope string_scope.
Open Scope Z_scope.
Open Scope list_scope.

(** ** Data *)

Abbreviation ServiceType := string (only parsing).
Definition ServiceTypeEVM : ServiceType := "evm".
Definition ServiceTypeSolana : ServiceType := "solana".
Definition ServiceTypeCosmos : ServiceType := "cosmos".
Definition ServiceTypeGeneric : ServiceType := "generic".
Definition ServiceTypePassthrough : ServiceType := "passthrough".

Record ConcurrencyConfig := mkConcurrency {
  cc_MaxParallelEndpoints : Z;
  cc_MaxConcurrentRelays : Z;
  cc_MaxBatchPayloads : Z;
}.

Record LatencyProfileConfig := mkProfile {
  lpc_FastThreshold : Duration;
  lpc_NormalThreshold : Duration;
  lpc_SlowThreshold : Duration;
  lpc_PenaltyThreshold : Duration;
  lpc_SevereThreshold : Duration;
  lpc_FastBonus : float64;
  lpc_SlowPenalty : float64;
  lpc_VerySlowPenalty : float64;
}.

Record ServiceReputationConfig := mkSvcReputation {
  srp_Enabled : option bool;
  srp_InitialScore : option float64;
  srp_MinThreshold : option float64;
  srp_KeyGranularity : string;
  srp_RecoveryTimeout : option Duration;
}.

Record ServiceLatencyConfig := mkSvcLatency {
  slt_Enabled : option bool;
  slt_TargetMs : Z;
  slt_PenaltyWeight : float64;
}.

Record ServiceTieredSelectionConfig := mkSvcTiered {
  stc_Enabled : option bool;
  stc_Tier1Threshold : option float64;
  stc_Tier2Threshold : option float64;
}.

Record ServiceProbationConfig := mkSvcProbation {
  spb_Enabled : option bool;
  spb_Threshold : option float64;
  spb_TrafficPercent : option float64;
  spb_RecoveryMultiplier : option float64;
}.

Record ServiceObservationConfig := mkSvcObservation {
  sob_Enabled : option bool;
  sob_SampleRate : option float64;
}.

Record ServiceConcurrencyConfig := mkSvcConcurrency {
  scc_MaxParallelEndpoints : option Z;
  scc_MaxBatchPayloads : option Z;
}.

Record ServiceTimeoutConfig := mkSvcTimeout { sto_RelayTimeout : option Duration }.

Record ExternalBlockSource := mkBlockSource {
  ebs_URL : string;
  ebs_Type : string;
  ebs_Method : string;
  ebs_Path : string;
  ebs_Interval : Duration;
  ebs_Timeout : Duration;
  ebs_GracePeriod : Duration;
}.

Record ServiceFallbackConfig := mkSvcFallback {
  sfb_Enabled : bool;
  sfb_SendAllTraffic : bool;
  sfb_Endpoints : list (gmap string string);
}.

Record StaticRoute := mkStaticRoute {
  rt_Path : string;
  rt_Methods : list string;
  rt_StatusCode : Z;
  rt_ContentType : string;
  rt_Body : string;
  rt_Headers : gmap string string;
}.

Record ServiceDefaults := mkDefaults {
  sd_Type : ServiceType;
  sd_RPCTypes : list string;
  sd_LatencyProfile : string;
  sd_ReputationConfig : ServiceReputationConfig;
  sd_Latency : ServiceLatencyConfig;
  sd_TieredSelection : ServiceTieredSelectionConfig;
  sd_Probation : ServiceProbationConfig;
  sd_RetryConfig : ServiceRetryConfig;
  sd_ObservationPipeline : ServiceObservationConfig;
  sd_ConcurrencyConfig : ServiceConcurrencyConfig;
  sd_TimeoutConfig : ServiceTimeoutConfig;
  sd_ActiveHealthChecks : ServiceHealthCheckOverride;
  sd_ExternalBlockSources : list ExternalBlockSource;
  sd_StaticRoutes : list StaticRoute;
  sd_MaxOperatorShare : option float64;
  sd_BackendRegistrationWeightCap : option Z;
  sd_CapRetryHedgeSelection : option bool;
  sd_WebsocketRebindOperatorUniform : option bool;
  sd_WebsocketHTTPScoreFloor : option bool;
}.

Record ServiceConfig := mkService {
  svc_ID : string;
  svc_Type : ServiceType;
  svc_RPCTypes : list string;
  svc_RPCTypeFallbacks : gmap string string;
  svc_LatencyProfile : string;
  svc_ReputationConfig : option ServiceReputationConfig;
  svc_Latency : option ServiceLatencyConfig;
  svc_TieredSelection : option ServiceTieredSelectionConfig;
  svc_Probation : option ServiceProbationConfig;
  svc_RetryConfig : option ServiceRetryConfig;
  svc_ObservationPipeline : option ServiceObservationConfig;
  svc_ConcurrencyConfig : option ServiceConcurrencyConfig;
  svc_TimeoutConfig : option ServiceTimeoutConfig;
  svc_Fallback : option ServiceFallbackConfig;
  svc_HealthChecks : option ServiceHealthCheckOverride;
  svc_ExternalBlockSources : list ExternalBlockSource;
  svc_BlockedSuppliers : list string;
  svc_StaticRoutes : list StaticRoute;
  svc_MaxOperatorShare : option float64;
  svc_BackendRegistrationWeightCap : option Z;
  svc_CapRetryHedgeSelection : option bool;
  svc_WebsocketRebindOperatorUniform : option bool;
  svc_WebsocketHTTPScoreFloor : option bool;
}.

(** [us_servicesMu] tells whether the mutex has been made. *)
Record UnifiedServicesConfig := mkUnified {
  us_LatencyProfiles : gmap string LatencyProfileConfig;
  us_Defaults : ServiceDefaults;
  us_Services : list ServiceConfig;
  us_servicesMu : bool;
}.

Definition set_services (c : UnifiedServicesConfig) (l : list ServiceConfig) : UnifiedServicesConfig :=
  mkUnified (us_LatencyProfiles c) (us_Defaults c) l (us_servicesMu c).
Definition set_defaults (c : UnifiedServicesConfig) (d : ServiceDefaults) : UnifiedServicesConfig :=
  mkUnified (us_LatencyProfiles c) d (us_Services c) (us_servicesMu c).

(** [if o == nil { o = d }] *)
Definition or_else {A} (o d : option A) : option A := match o with Some _ => o | None => d end.
Definition or_list {A} (l d : list A) : list A := match l with [] => d | _ => l end.

(** ** Validation *)

Inductive concurrency_error :=
| ParallelRange (n : Z) | RelaysRange (n : Z) | BatchRange (n : Z) | BatchExceedsRelays (batch relays : Z).

Definition ConcurrencyConfig_Validate (cc : ConcurrencyConfig) : option concurrency_error :=
  if (cc_MaxParallelEndpoints cc <? 1) || (10 <? cc_MaxParallelEndpoints cc) then Some (ParallelRange (cc_MaxParallelEndpoints cc))
  else if (cc_MaxConcurrentRelays cc <? 100) || (10000 <? cc_MaxConcurrentRelays cc) then Some (RelaysRange (cc_MaxConcurrentRelays cc))
  else if (cc_MaxBatchPayloads cc <? 1) || (10000 <? cc_MaxBatchPayloads cc) then Some (BatchRange (cc_MaxBatchPayloads cc))
  else if cc_MaxConcurrentRelays cc <? cc_MaxBatchPayloads cc
  then Some (BatchExceedsRelays (cc_MaxBatchPayloads cc) (cc_MaxConcurrentRelays cc))
  else None.

(** [strings.ToUpper]: ASCII as written out, other runes by the tables of package unicode. *)
Class UpperCase := { upper_rune : Z -> Z }.

Definition unicode_to_upper `{UpperCase} (r : Z) : Z :=
  if r <? 128 then (if (97 <=? r) && (r <=? 122) then r - 32 else r) else upper_rune r.
Definition to_upper_u `{UpperCase} (s : string) : string := if is_ascii s then to_upper s else map_runes unicode_to_upper s.

Inductive route_error :=
| PathMalformed (i : Z)
| PathIsRoot (i : Z)
| StatusRange (i : Z) (path : string) (code : Z)
| DuplicatePath (i : Z) (path : string)
| ConflictsAllMethods (i : Z) (path : string)
| DuplicateMethod (i : Z) (key : string).

Definition begins_with_slash (s : string) : bool := match s with String c _ => Ascii.eqb c "/" | EmptyString => false end.

Section Routes.
Context `{UpperCase}.

Definition method_key (path m : string) : string := path +:+ " " +:+ to_upper_u m.

Fixpoint claim_methods (i : Z) (path : string) (methods : list string) (pathMethod : gset string) : gset string + route_error :=
  match methods with
  | [] => inl pathMethod
  | m :: methods =>
      if decide (method_key path m ∈ pathMethod) then inr (DuplicateMethod i (method_key path m))
      else claim_methods i path methods ({[method_key path m]} ∪ pathMethod)
  end.

Fixpoint validate_routes (i : Z) (routes : list StaticRoute) (pathAllMethods pathMethod : gset string) : option route_error :=
  match routes with
  | [] => None
  | rt :: routes =>
      if negb (begins_with_slash (rt_Path rt)) then Some (PathMalformed i)
      else if (rt_Path rt =? "/")%string then Some (PathIsRoot i)
      else if negb (rt_StatusCode rt =? 0) && ((rt_StatusCode rt <? 100) || (599 <? rt_StatusCode rt))
      then Some (StatusRange i (rt_Path rt) (rt_StatusCode rt))
      else match rt_Methods rt with
           | [] => if decide (rt_Path rt ∈ pathAllMethods) then Some (DuplicatePath i (rt_Path rt))
                   else validate_routes (i + 1) routes ({[rt_Path rt]} ∪ pathAllMethods) pathMethod
           | methods =>
               if decide (rt_Path rt ∈ pathAllMethods) then Some (ConflictsAllMethods i (rt_Path rt))
               else match claim_methods i (rt_Path rt) methods pathMethod with
                    | inl pathMethod => validate_routes (i + 1) routes pathAllMethods pathMethod
                    | inr e => Some e
                    end
           end
  end.

Definition validateStaticRoutes (routes : list StaticRoute) : option route_error := validate_routes 0 routes ∅ ∅.

Definition ValidateServiceType (t : ServiceType) : bool :=
  bool_decide (t ∈ [ServiceTypeEVM; ServiceTypeSolana; ServiceTypeCosmos; ServiceTypeGeneric; ServiceTypePassthrough]).

Definition IsBuiltInLatencyProfile (name : string) : bool :=
  bool_decide (name ∈ [LatencyProfileEVM; LatencyProfileSolana; LatencyProfileCosmos; LatencyProfileLLM; LatencyProfileGeneric]).

Inductive unified_error :=
| IdRequired (i : Z)
| DuplicateServiceId (i : Z) (id : string)
| BadServiceType (i : Z) (id : string) (t : ServiceType)
| UnknownProfile (i : Z) (id profile : string)
| BadRoutes (i : Z) (id : string) (e : route_error)
| BadDefaultType (t : ServiceType)
| UnknownDefaultProfile (profile : string)
| BadDefaultRoutes (e : route_error).

Definition known_type (t : ServiceType) : bool := (t =? "")%string || ValidateServiceType t.
Definition known_profile (profiles : gmap string LatencyProfileConfig) (name : string) : bool :=
  (name =? "")%string || bool_decide (is_Some (profiles !! name)) || IsBuiltInLatencyProfile name.

Fixpoint validate_services (profiles : gmap string LatencyProfileConfig) (i : Z) (services : list ServiceConfig) (seenIDs : gset string)
  : option unified_error :=
  match services with
  | [] => None
  | svc :: services =>
      if (svc_ID svc =? "")%string then Some (IdRequired i)
      else if decide (svc_ID svc ∈ seenIDs) then Some (DuplicateServiceId i (svc_ID svc))
      else if negb (known_type (svc_Type svc)) then Some (BadServiceType i (svc_ID svc) (svc_Type svc))
      else if negb (known_profile profiles (svc_LatencyProfile svc)) then Some (UnknownProfile i (svc_ID svc) (svc_LatencyProfile svc))
      else match validateStaticRoutes (svc_StaticRoutes svc) with
           | Some e => Some (BadRoutes i (svc_ID svc) e)
           | None => validate_services profiles (i + 1) services ({[svc_ID svc]} ∪ seenIDs)
           end
  end.

Definition UnifiedServicesConfig_Validate (c : UnifiedServicesConfig) : option unified_error :=
  let d := us_Defaults c in
  match validate_services (us_LatencyProfiles c) 0 (us_Services c) ∅ with
  | Some e => Some e
  | None =>
      if negb (known_type (sd_Type d)) then Some (BadDefaultType (sd_Type d))
      else if negb (known_profile (us_LatencyProfiles c) (sd_LatencyProfile d)) then Some (UnknownDefaultProfile (sd_LatencyProfile d))
      else match validateStaticRoutes (sd_StaticRoutes d) with
           | Some e => Some (BadDefaultRoutes e)
           | None => None
           end
  end.
End Routes.

(** ** Defaults *)

Definition defaultHedgeMaxBatchSize : Z := 10.
Definition DefaultRelayRequestTimeout : Duration := 10 * second.
Definition f70 : float64 := f64_of_Z 70.
Definition f50 : float64 := f64_of_Z 50.
Definition f10 : float64 := f64_of_Z 10.
Definition f2 : float64 := f64_of_Z 2.

Definition hydrate_reputation (x : ServiceReputationConfig) : ServiceReputationConfig :=
  mkSvcReputation (or_else (srp_Enabled x) (Some true)) (or_else (srp_InitialScore x) (Some InitialScore))
    (or_else (srp_MinThreshold x) (Some DefaultMinThreshold)) (or_empty (srp_KeyGranularity x) KeyGranularityEndpoint) (srp_RecoveryTimeout x).
Definition hydrate_latency (x : ServiceLatencyConfig) : ServiceLatencyConfig :=
  mkSvcLatency (or_else (slt_Enabled x) (Some true)) (slt_TargetMs x) (slt_PenaltyWeight x).
Definition hydrate_tiered (x : ServiceTieredSelectionConfig) : ServiceTieredSelectionConfig :=
  mkSvcTiered (or_else (stc_Enabled x) (Some true)) (or_else (stc_Tier1Threshold x) (Some f70)) (or_else (stc_Tier2Threshold x) (Some f50)).
Definition hydrate_probation (x : ServiceProbationConfig) : ServiceProbationConfig :=
  mkSvcProbation (or_else (spb_Enabled x) (Some true)) (or_else (spb_Threshold x) (Some f10))
    (or_else (spb_TrafficPercent x) (Some f10)) (or_else (spb_RecoveryMultiplier x) (Some f2)).
Definition hydrate_retry (x : ServiceRetryConfig) : ServiceRetryConfig :=
  mkRetryConfig (or_else (rt_Enabled x) (Some true)) (or_else (rt_MaxRetries x) (Some 1)) (or_else (rt_RetryOn5xx x) (Some true))
    (or_else (rt_RetryOnTimeout x) (Some true)) (or_else (rt_RetryOnConnection x) (Some true))
    (or_else (rt_MaxRetryLatency x) (Some (500 * millisecond))) (or_else (rt_ConnectTimeout x) (Some (500 * millisecond)))
    (or_else (rt_HedgeDelay x) (Some (500 * millisecond))) (or_else (rt_HedgeMaxBatchSize x) (Some defaultHedgeMaxBatchSize)).
Definition hydrate_observation (x : ServiceObservationConfig) : ServiceObservationConfig :=
  mkSvcObservation (or_else (sob_Enabled x) (Some true)) (or_else (sob_SampleRate x) (Some DefaultObservationPipelineSampleRate)).
Definition hydrate_timeout (x : ServiceTimeoutConfig) : ServiceTimeoutConfig :=
  mkSvcTimeout (or_else (sto_RelayTimeout x) (Some DefaultRelayRequestTimeout)).
Definition hydrate_health (x : ServiceHealthCheckOverride) : ServiceHealthCheckOverride :=
  mkHealthOverride (or_else (sho_Enabled x) (Some true)) (or_zero (sho_Interval x) DefaultHealthCheckInterval)
    (sho_SyncAllowance x) (sho_External x) (sho_Local x).

Definition standard_profile : LatencyProfileConfig :=
  mkProfile (500 * millisecond) (2 * second) (5 * second) (10 * second) (30 * second) DefaultFastBonus DefaultSlowPenalty DefaultVerySlowPenalty.

Definition hydrate_profile (p : LatencyProfileConfig) : LatencyProfileConfig :=
  mkProfile (lpc_FastThreshold p) (lpc_NormalThreshold p) (lpc_SlowThreshold p) (lpc_PenaltyThreshold p) (lpc_SevereThreshold p)
    (or_default (lpc_FastBonus p) DefaultFastBonus) (or_default (lpc_SlowPenalty p) DefaultSlowPenalty) (lpc_VerySlowPenalty p).

Definition hydrate_defaults (d : ServiceDefaults) : ServiceDefaults :=
  mkDefaults (or_empty (sd_Type d) ServiceTypePassthrough) (or_list (sd_RPCTypes d) ["json_rpc"]) (or_empty (sd_LatencyProfile d) "standard")
    (hydrate_reputation (sd_ReputationConfig d)) (hydrate_latency (sd_Latency d)) (hydrate_tiered (sd_TieredSelection d))
    (hydrate_probation (sd_Probation d)) (hydrate_retry (sd_RetryConfig d)) (hydrate_observation (sd_ObservationPipeline d))
    (sd_ConcurrencyConfig d) (hydrate_timeout (sd_TimeoutConfig d)) (hydrate_health (sd_ActiveHealthChecks d))
    (sd_ExternalBlockSources d) (sd_StaticRoutes d) (sd_MaxOperatorShare d) (sd_BackendRegistrationWeightCap d)
    (sd_CapRetryHedgeSelection d) (sd_WebsocketRebindOperatorUniform d) (sd_WebsocketHTTPScoreFloor d).

Definition UnifiedServicesConfig_HydrateDefaults (c : UnifiedServicesConfig) : UnifiedServicesConfig :=
  let profiles := match us_LatencyProfiles c !! "standard" with
                  | Some _ => us_LatencyProfiles c
                  | None => <["standard" := standard_profile]> (us_LatencyProfiles c)
                  end in
  mkUnified (hydrate_profile <$> profiles) (hydrate_defaults (us_Defaults c)) (us_Services c) true.

(** ** Lookups *)

Definition has_id (serviceID : string) (svc : ServiceConfig) : bool := (svc_ID svc =? serviceID)%string.

Definition GetServiceConfig (c : UnifiedServicesConfig) (serviceID : string) : option ServiceConfig := List.find (has_id serviceID) (us_Services c).

Definition GetServiceType (c : UnifiedServicesConfig) (serviceID : string) : ServiceType :=
  match GetServiceConfig c serviceID with
  | Some svc => or_empty (svc_Type svc) (sd_Type (us_Defaults c))
  | None => sd_Type (us_Defaults c)
  end.

Definition GetServiceRPCTypes (c : UnifiedServicesConfig) (serviceID : string) : list string :=
  match GetServiceConfig c serviceID with
  | Some svc => or_list (svc_RPCTypes svc) (sd_RPCTypes (us_Defaults c))
  | None => sd_RPCTypes (us_Defaults c)
  end.

Definition GetConfiguredServiceIDs (c : UnifiedServicesConfig) : list string := map svc_ID (us_Services c).
Definition HasServices (c : UnifiedServicesConfig) : bool := match us_Services c with [] => false | _ => true end.
Definition HasService (c : UnifiedServicesConfig) (serviceID : string) : bool :=
  match GetServiceConfig c serviceID with Some _ => true | None => false end.

Definition GetLatencyProfile (c : UnifiedServicesConfig) (name : string) : option LatencyProfileConfig :=
  match us_LatencyProfiles c !! name with
  | Some profile => Some profile
  | None =>
      match DefaultLatencyProfiles !! name with
      | Some p => Some (mkProfile (lp_FastThreshold p) (lp_NormalThreshold p) (lp_SlowThreshold p) (lp_PenaltyThreshold p) (lp_SevereThreshold p)
                          DefaultFastBonus DefaultSlowPenalty DefaultVerySlowPenalty)
      | None => None
      end
  end.

Definition DefaultMaxOperatorShare : float64 := f64_frac 5 10.
Definition DefaultWebsocketRebindOperatorUniform : bool := true.
Definition DefaultWebsocketHTTPScoreFloor : bool := true.
Definition DefaultCapRetryHedgeSelection : bool := true.

(** The service's setting, else the default one, else the built-in one. *)
Definition setting {A} (c : UnifiedServicesConfig) (serviceID : string) (own : ServiceConfig -> option A) (def : ServiceDefaults -> option A) (builtin : A) : A :=
  default (default builtin (def (us_Defaults c))) (GetServiceConfig c serviceID ≫= own).

Definition GetWebsocketHTTPScoreFloorForService (c : UnifiedServicesConfig) (serviceID : string) : bool :=
  setting c serviceID svc_WebsocketHTTPScoreFloor sd_WebsocketHTTPScoreFloor DefaultWebsocketHTTPScoreFloor.
Definition GetWebsocketRebindOperatorUniformForService (c : UnifiedServicesConfig) (serviceID : string) : bool :=
  setting c serviceID svc_WebsocketRebindOperatorUniform sd_WebsocketRebindOperatorUniform DefaultWebsocketRebindOperatorUniform.
Definition GetDefaultMaxOperatorShare (c : UnifiedServicesConfig) : float64 := default DefaultMaxOperatorShare (sd_MaxOperatorShare (us_Defaults c)).
Definition GetMaxOperatorShareForService (c : UnifiedServicesConfig) (serviceID : string) : float64 :=
  setting c serviceID svc_MaxOperatorShare sd_MaxOperatorShare DefaultMaxOperatorShare.
Definition GetBackendRegistrationWeightCapForService (c : UnifiedServicesConfig) (serviceID : string) : Z :=
  setting c serviceID svc_BackendRegistrationWeightCap sd_BackendRegistrationWeightCap 0.
Definition GetRelayTimeoutForService (c : UnifiedServicesConfig) (serviceID : string) : Duration :=
  setting c serviceID (fun svc => svc_TimeoutConfig svc ≫= sto_RelayTimeout) (fun d => sto_RelayTimeout (sd_TimeoutConfig d)) DefaultRelayRequestTimeout.

(** The process-wide override: 0 unset, 1 on, -1 off. *)
Definition SetRetryHedgeCapOverride (enabled : bool) : Z := if enabled then 1 else -1.

Definition GetCapRetryHedgeSelectionForService (retryHedgeCapOverride : Z) (c : UnifiedServicesConfig) (serviceID : string) : bool :=
  if retryHedgeCapOverride =? 1 then true
  else if retryHedgeCapOverride =? -1 then false
  else setting c serviceID svc_CapRetryHedgeSelection sd_CapRetryHedgeSelection DefaultCapRetryHedgeSelection.

(** ** Merging: the service's section is completed in place, a missing one is copied *)

Definition merge_reputation (d x : ServiceReputationConfig) : ServiceReputationConfig :=
  mkSvcReputation (or_else (srp_Enabled x) (srp_Enabled d)) (or_else (srp_InitialScore x) (srp_InitialScore d))
    (or_else (srp_MinThreshold x) (srp_MinThreshold d)) (or_empty (srp_KeyGranularity x) (srp_KeyGranularity d))
    (or_else (srp_RecoveryTimeout x) (srp_RecoveryTimeout d)).
Definition merge_tiered (d x : ServiceTieredSelectionConfig) : ServiceTieredSelectionConfig :=
  mkSvcTiered (or_else (stc_Enabled x) (stc_Enabled d)) (or_else (stc_Tier1Threshold x) (stc_Tier1Threshold d))
    (or_else (stc_Tier2Threshold x) (stc_Tier2Threshold d)).
Definition merge_probation (d x : ServiceProbationConfig) : ServiceProbationConfig :=
  mkSvcProbation (or_else (spb_Enabled x) (spb_Enabled d)) (or_else (spb_Threshold x) (spb_Threshold d))
    (or_else (spb_TrafficPercent x) (spb_TrafficPercent d)) (or_else (spb_RecoveryMultiplier x) (spb_RecoveryMultiplier d)).
Definition merge_latency (d x : ServiceLatencyConfig) : ServiceLatencyConfig :=
  mkSvcLatency (or_else (slt_Enabled x) (slt_Enabled d))
    (if (slt_TargetMs x =? 0) && (0 <? slt_TargetMs d) then slt_TargetMs d else slt_TargetMs x)
    (if feqb (slt_PenaltyWeight x) f_zero && fgtb (slt_PenaltyWeight d) f_zero then slt_PenaltyWeight d else slt_PenaltyWeight x).
Definition merge_retry (d x : ServiceRetryConfig) : ServiceRetryConfig :=
  mkRetryConfig (or_else (rt_Enabled x) (rt_Enabled d)) (or_else (rt_MaxRetries x) (rt_MaxRetries d))
    (or_else (rt_RetryOn5xx x) (rt_RetryOn5xx d)) (or_else (rt_RetryOnTimeout x) (rt_RetryOnTimeout d))
    (or_else (rt_RetryOnConnection x) (rt_RetryOnConnection d)) (or_else (rt_MaxRetryLatency x) (rt_MaxRetryLatency d))
    (or_else (rt_ConnectTimeout x) (rt_ConnectTimeout d)) (or_else (rt_HedgeDelay x) (rt_HedgeDelay d))
    (or_else (rt_HedgeMaxBatchSize x) (rt_HedgeMaxBatchSize d)).
Definition merge_observation (d x : ServiceObservationConfig) : ServiceObservationConfig :=
  mkSvcObservation (or_else (sob_Enabled x) (sob_Enabled d)) (or_else (sob_SampleRate x) (sob_SampleRate d)).
Definition merge_concurrency (d x : ServiceConcurrencyConfig) : ServiceConcurrencyConfig :=
  mkSvcConcurrency (or_else (scc_MaxParallelEndpoints x) (scc_MaxParallelEndpoints d)) (or_else (scc_MaxBatchPayloads x) (scc_MaxBatchPayloads d)).
Definition merge_timeout (d x : ServiceTimeoutConfig) : ServiceTimeoutConfig := mkSvcTimeout (or_else (sto_RelayTimeout x) (sto_RelayTimeout d)).
Definition merge_health (d x : ServiceHealthCheckOverride) : ServiceHealthCheckOverride :=
  mkHealthOverride (or_else (sho_Enabled x) (sho_Enabled d))
    (if (sho_Interval x =? 0) && (0 <? sho_Interval d) then sho_Interval d else sho_Interval x)
    (or_else (sho_SyncAllowance x) (sho_SyncAllowance d)) (or_else (sho_External x) (sho_External d)) (sho_Local x).

(** What the stored service is after a merge: its own sections completed. *)
Definition completed (d : ServiceDefaults) (s : ServiceConfig) : ServiceConfig :=
  mkService (svc_ID s) (svc_Type s) (svc_RPCTypes s) (svc_RPCTypeFallbacks s) (svc_LatencyProfile s)
    (merge_reputation (sd_ReputationConfig d) <$> svc_ReputationConfig s) (merge_latency (sd_Latency d) <$> svc_Latency s)
    (merge_tiered (sd_TieredSelection d) <$> svc_TieredSelection s) (merge_probation (sd_Probation d) <$> svc_Probation s)
    (merge_retry (sd_RetryConfig d) <$> svc_RetryConfig s) (merge_observation (sd_ObservationPipeline d) <$> svc_ObservationPipeline s)
    (merge_concurrency (sd_ConcurrencyConfig d) <$> svc_ConcurrencyConfig s) (merge_timeout (sd_TimeoutConfig d) <$> svc_TimeoutConfig s)
    (svc_Fallback s) (merge_health (sd_ActiveHealthChecks d) <$> svc_HealthChecks s) (svc_ExternalBlockSources s)
    (svc_BlockedSuppliers s) (svc_StaticRoutes s) (svc_MaxOperatorShare s) (svc_BackendRegistrationWeightCap s)
    (svc_CapRetryHedgeSelection s) (svc_WebsocketRebindOperatorUniform s) (svc_WebsocketHTTPScoreFloor s).

(** The copy that is returned: a copy of the completed service, with the sections it lacks taken
    from the defaults. *)
Definition merged_copy (d : ServiceDefaults) (s : ServiceConfig) : ServiceConfig :=
  let s := completed d s in
  mkService (svc_ID s) (or_empty (svc_Type s) (sd_Type d)) (or_list (svc_RPCTypes s) (sd_RPCTypes d)) (svc_RPCTypeFallbacks s)
    (or_empty (svc_LatencyProfile s) (sd_LatencyProfile d))
    (or_nil (svc_ReputationConfig s) (sd_ReputationConfig d)) (or_nil (svc_Latency s) (sd_Latency d))
    (or_nil (svc_TieredSelection s) (sd_TieredSelection d)) (or_nil (svc_Probation s) (sd_Probation d))
    (or_nil (svc_RetryConfig s) (sd_RetryConfig d)) (or_nil (svc_ObservationPipeline s) (sd_ObservationPipeline d))
    (or_nil (svc_ConcurrencyConfig s) (sd_ConcurrencyConfig d)) (or_nil (svc_TimeoutConfig s) (sd_TimeoutConfig d))
    (svc_Fallback s) (or_nil (svc_HealthChecks s) (sd_ActiveHealthChecks d)) (or_list (svc_ExternalBlockSources s) (sd_ExternalBlockSources d))
    (svc_BlockedSuppliers s) (svc_StaticRoutes s) (svc_MaxOperatorShare s) (svc_BackendRegistrationWeightCap s)
    (svc_CapRetryHedgeSelection s) (svc_WebsocketRebindOperatorUniform s) (svc_WebsocketHTTPScoreFloor s).

Fixpoint update_first {A} (p : A -> bool) (f : A -> A) (l : list A) : list A :=
  match l with
  | [] => []
  | x :: l => if p x then f x :: l else x :: update_first p f l
  end.

Definition GetMergedServiceConfig (c : UnifiedServicesConfig) (serviceID : string) : option ServiceConfig * UnifiedServicesConfig :=
  match GetServiceConfig c serviceID with
  | None => (None, c)
  | Some svc => (Some (merged_copy (us_Defaults c) svc),
                 set_services c (update_first (has_id serviceID) (completed (us_Defaults c)) (us_Services c)))
  end.

(** ** Static responses *)

Definition route_matches (path method : string) (rt : StaticRoute) : bool :=
  (rt_Path rt =? path)%string &&
  match rt_Methods rt with
  | [] => true
  | methods => existsb (fun m => equal_fold m method) methods
  end.

Definition matchStaticRoute (routes : list StaticRoute) (path method : string) : option StaticRoute := List.find (route_matches path method) routes.

Record static_response := mkStaticResponse { sr_body : string; sr_statusCode : Z; sr_headers : gmap string string }.

Definition buildStaticResponse (rt : StaticRoute) : static_response :=
  mkStaticResponse (rt_Body rt) (or_zero (rt_StatusCode rt) 200)
    (<["Content-Type" := or_empty (rt_ContentType rt) "text/plain; charset=utf-8"]> (rt_Headers rt)).

Definition ResolveStaticResponse (c : UnifiedServicesConfig) (serviceID path method : string) : option static_response :=
  match GetServiceConfig c serviceID ≫= (fun svc => matchStaticRoute (svc_StaticRoutes svc) path method) with
  | Some rt => Some (buildStaticResponse rt)
  | None => buildStaticResponse <$> matchStaticRoute (sd_StaticRoutes (us_Defaults c)) path method
  end.

(** ** The sync allowance *)

Definition GetSyncAllowanceForService (c : UnifiedServicesConfig) (serviceID : string) : Z :=
  match (GetServiceConfig c serviceID ≫= svc_HealthChecks) ≫= sho_SyncAllowance with
  | Some n => wrapu64 n
  | None =>
      match sho_SyncAllowance (sd_ActiveHealthChecks (us_Defaults c)) with
      | Some n => if 0 <? n then wrapu64 n else DefaultSyncAllowance
      | None => DefaultSyncAllowance
      end
  end.

Definition empty_override : ServiceHealthCheckOverride := mkHealthOverride None 0 None None [].
Definition with_allowance (h : ServiceHealthCheckOverride) (n : Z) : ServiceHealthCheckOverride :=
  mkHealthOverride (sho_Enabled h) (sho_Interval h) (Some n) (sho_External h) (sho_Local h).

Definition set_health (s : ServiceConfig) (h : option ServiceHealthCheckOverride) : ServiceConfig :=
  mkService (svc_ID s) (svc_Type s) (svc_RPCTypes s) (svc_RPCTypeFallbacks s) (svc_LatencyProfile s) (svc_ReputationConfig s) (svc_Latency s)
    (svc_TieredSelection s) (svc_Probation s) (svc_RetryConfig s) (svc_ObservationPipeline s) (svc_ConcurrencyConfig s) (svc_TimeoutConfig s)
    (svc_Fallback s) h (svc_ExternalBlockSources s) (svc_BlockedSuppliers s) (svc_StaticRoutes s) (svc_MaxOperatorShare s)
    (svc_BackendRegistrationWeightCap s) (svc_CapRetryHedgeSelection s) (svc_WebsocketRebindOperatorUniform s) (svc_WebsocketHTTPScoreFloor s).

(** A service of which only the ID is given. *)
Definition bare_service (id : string) : ServiceConfig :=
  mkService id "" [] ∅ "" None None None None None None None None None None [] [] [] None None None None None.

Definition SetServiceSyncAllowance (c : UnifiedServicesConfig) (serviceID : string) (syncAllowance : Z) : UnifiedServicesConfig :=
  match GetServiceConfig c serviceID with
  | Some _ =>
      set_services c (update_first (has_id serviceID)
        (fun s => set_health s (Some (with_allowance (default empty_override (svc_HealthChecks s)) syncAllowance))) (us_Services c))
  | None => set_services c (us_Services c ++ [set_health (bare_service serviceID) (Some (with_allowance empty_override syncAllowance))])
  end.

(** ** Defaults from the gateway configuration *)

Record ParentConfigDefaults := mkParent {
  pd_TieredSelectionEnabled : bool;
  pd_Tier1Threshold : float64;
  pd_Tier2Threshold : float64;
  pd_ProbationEnabled : bool;
  pd_ProbationThreshold : float64;
  pd_ProbationTrafficPercent : float64;
  pd_ProbationRecoveryMultiplier : float64;
  pd_RetryEnabled : bool;
  pd_MaxRetries : Z;
  pd_RetryOn5xx : bool;
  pd_RetryOnTimeout : bool;
  pd_RetryOnConnection : bool;
  pd_MaxRetryLatency : Duration;
  pd_ConnectTimeout : option Duration;
  pd_HedgeDelay : option Duration;
  pd_HedgeMaxBatchSize : option Z;
  pd_ObservationPipelineEnabled : bool;
  pd_SampleRate : float64;
  pd_HealthChecksEnabled : bool;
  pd_HealthCheckInterval : Duration;
  pd_SyncAllowance : Z;
  pd_LocalHealthChecks : list ServiceHealthCheckConfig;
}.

(** [if v > 0 { o = &v }] *)
Definition if_pos (v : Z) (o : option Z) : option Z := if 0 <? v then Some v else o.
Definition if_fpos (v : float64) (o : option float64) : option float64 := if fgtb v f_zero then Some v else o.
(** [if p != nil && *p > 0 { o = p }] *)
Definition if_set_pos (p o : option Z) : option Z := match p with Some v => if_pos v o | None => o end.

Definition parent_retry (p : ParentConfigDefaults) (x : ServiceRetryConfig) : ServiceRetryConfig :=
  mkRetryConfig (Some (pd_RetryEnabled p)) (if_pos (pd_MaxRetries p) (rt_MaxRetries x)) (Some (pd_RetryOn5xx p)) (Some (pd_RetryOnTimeout p))
    (Some (pd_RetryOnConnection p)) (if_pos (pd_MaxRetryLatency p) (rt_MaxRetryLatency x)) (if_set_pos (pd_ConnectTimeout p) (rt_ConnectTimeout x))
    (if_set_pos (pd_HedgeDelay p) (rt_HedgeDelay x))
    (or_else (pd_HedgeMaxBatchSize p) (or_else (rt_HedgeMaxBatchSize x) (Some defaultHedgeMaxBatchSize))).
Definition parent_tiered (p : ParentConfigDefaults) (x : ServiceTieredSelectionConfig) : ServiceTieredSelectionConfig :=
  mkSvcTiered (Some (pd_TieredSelectionEnabled p)) (if_fpos (pd_Tier1Threshold p) (stc_Tier1Threshold x)) (if_fpos (pd_Tier2Threshold p) (stc_Tier2Threshold x)).
Definition parent_probation (p : ParentConfigDefaults) (x : ServiceProbationConfig) : ServiceProbationConfig :=
  mkSvcProbation (Some (pd_ProbationEnabled p)) (if_fpos (pd_ProbationThreshold p) (spb_Threshold x))
    (if_fpos (pd_ProbationTrafficPercent p) (spb_TrafficPercent x)) (if_fpos (pd_ProbationRecoveryMultiplier p) (spb_RecoveryMultiplier x)).
Definition parent_observation (p : ParentConfigDefaults) (x : ServiceObservationConfig) : ServiceObservationConfig :=
  mkSvcObservation (Some (pd_ObservationPipelineEnabled p)) (if_fpos (pd_SampleRate p) (sob_SampleRate x)).
Definition parent_health (p : ParentConfigDefaults) (x : ServiceHealthCheckOverride) : ServiceHealthCheckOverride :=
  mkHealthOverride (Some (pd_HealthChecksEnabled p)) (if 0 <? pd_HealthCheckInterval p then pd_HealthCheckInterval p else sho_Interval x)
    (if_pos (pd_SyncAllowance p) (sho_SyncAllowance x)) (sho_External x) (sho_Local x).

Definition parent_defaults (p : ParentConfigDefaults) (d : ServiceDefaults) : ServiceDefaults :=
  mkDefaults (sd_Type d) (sd_RPCTypes d) (sd_LatencyProfile d) (sd_ReputationConfig d) (sd_Latency d) (parent_tiered p (sd_TieredSelection d))
    (parent_probation p (sd_Probation d)) (parent_retry p (sd_RetryConfig d)) (parent_observation p (sd_ObservationPipeline d))
    (sd_ConcurrencyConfig d) (sd_TimeoutConfig d) (parent_health p (sd_ActiveHealthChecks d)) (sd_ExternalBlockSources d) (sd_StaticRoutes d)
    (sd_MaxOperatorShare d) (sd_BackendRegistrationWeightCap d) (sd_CapRetryHedgeSelection d) (sd_WebsocketRebindOperatorUniform d)
    (sd_WebsocketHTTPScoreFloor d).

Definition propagate_allowance (c : UnifiedServicesConfig) (localConfig : ServiceHealthCheckConfig) : UnifiedServicesConfig :=
  match shc_SyncAllowance localConfig with
  | Some n => if 0 <? n then SetServiceSyncAllowance c (shc_ServiceID localConfig) n else c
  | None => c
  end.

Definition SetDefaultsFromParent (c : UnifiedServicesConfig) (parent : ParentConfigDefaults) : UnifiedServicesConfig :=
  fold_left propagate_allowance (pd_LocalHealthChecks parent) (set_defaults c (parent_defaults parent (us_Defaults c))).

(** ** Latency of a service *)

Definition buildSimpleLatencyConfig (simpleConfig : ServiceLatencyConfig) (globalLatency : LatencyConfig) : LatencyConfig :=
  let targetDuration := wrap64 (slt_TargetMs simpleConfig * millisecond) in
  let weight := if feqb (slt_PenaltyWeight simpleConfig) f_zero then f_one else slt_PenaltyWeight simpleConfig in
  mkLatencyConfig (default (lc_Enabled globalLatency) (slt_Enabled simpleConfig)) targetDuration (wrap64 (targetDuration * 2)) (wrap64 (targetDuration * 3))
    (wrap64 (targetDuration * 2)) (wrap64 (targetDuration * 3)) (fmul f2 weight) (fmul (f64_frac 5 10) weight) f_zero ∅.

Definition disable_latency (c : LatencyConfig) : LatencyConfig :=
  mkLatencyConfig false (lc_FastThreshold c) (lc_NormalThreshold c) (lc_SlowThreshold c) (lc_PenaltyThreshold c) (lc_SevereThreshold c)
    (lc_FastBonus c) (lc_SlowPenalty c) (lc_VerySlowPenalty c) (lc_ServiceProfiles c).

Definition buildLatencyConfigForService (merged : ServiceConfig) (globalLatency : LatencyConfig) (unifiedConfig : option UnifiedServicesConfig)
  : option LatencyConfig :=
  let enabled := svc_Latency merged ≫= slt_Enabled in
  if negb (default true enabled) then Some (disable_latency globalLatency)
  else
    match svc_Latency merged with
    | Some l => if 0 <? slt_TargetMs l then Some (buildSimpleLatencyConfig l globalLatency) else None
    | None => None
    end ∪
    if (svc_LatencyProfile merged =? "")%string then None
    else match unifiedConfig ≫= (fun c => GetLatencyProfile c (svc_LatencyProfile merged)) with
         | Some p => Some (mkLatencyConfig (default (lc_Enabled globalLatency) enabled) (lpc_FastThreshold p) (lpc_NormalThreshold p)
                             (lpc_SlowThreshold p) (lpc_PenaltyThreshold p) (lpc_SevereThreshold p) (lpc_FastBonus p) (lpc_SlowPenalty p)
                             (lpc_VerySlowPenalty p) ∅)
         | None => None
         end.

(** The reputation settings of a service, as the protocol passes them on at start-up. *)
Definition reputation_settings (merged : ServiceConfig) : option RepConfig.ServiceConfig :=
  match svc_ReputationConfig merged with
  | None => None
  | Some r => Some (mkServiceConfig (srp_KeyGranularity r) (default f_zero (srp_InitialScore r)) (default f_zero (srp_MinThreshold r))
                      (default 0 (srp_RecoveryTimeout r)) (default false (svc_HealthChecks merged ≫= sho_Enabled))
                      (default false (svc_Probation merged ≫= spb_Enabled)))
  end.
