(* ===== verification/ServiceConfigProps.v ===== *)
(** * What the unified service configuration guarantees

    Reading merged settings is repeatable although it completes the stored sections; hydrated
    defaults leave no setting open; validated routes are unambiguous up to one overlap.  Against
    its documentation, a profile given by thresholds alone earns fast responses nothing. *)

From S2P Require Import Prelude GoStrings Utf8 Float64 Rounding RepKey Signals Score RepConfig RepStorage RepService Json RpcDetect Leader HealthConfig Heuristic RelayPolicy ServiceConfig.
From Stdlib Require Import ZArith Lia Bool Ascii String.
From stdpp Require Import base gmap strings fin_maps list.

Open Scope string_scope.
Open Scope Z_scope.
Open Scope list_scope.

(** ** Completing twice is completing once *)

Lemma or_else_idem {A} (x d : option A) : or_else (or_else x d) d = or_else x d.
Proof. by destruct x, d. Qed.
Lemma or_empty_idem x d : or_empty (or_empty x d) d = or_empty x d.
Proof. unfold or_empty. destruct (x =? "")%string eqn:E; [|by rewrite E]. by destruct (d =? "")%string. Qed.
Lemma if_then_idem {A} (test : A -> bool) (x d : A) :
  let y := if test x then d else x in (if test y then d else y) = y.
Proof. cbn. destruct (test x) eqn:E; [by destruct (test d)|by rewrite E]. Qed.
Create Rewrite HintDb config.
Create HintDb config discriminated.
#[local] Hint Rewrite @or_else_idem or_empty_idem : config.

Ltac by_fields x := destruct x; cbn; by autorewrite with config.

Lemma merge_reputation_idem d x : merge_reputation d (merge_reputation d x) = merge_reputation d x.
Proof. unfold merge_reputation. by_fields x. Qed.
Lemma merge_tiered_idem d x : merge_tiered d (merge_tiered d x) = merge_tiered d x.
Proof. unfold merge_tiered. by_fields x. Qed.
Lemma merge_probation_idem d x : merge_probation d (merge_probation d x) = merge_probation d x.
Proof. unfold merge_probation. by_fields x. Qed.
Lemma merge_retry_idem d x : merge_retry d (merge_retry d x) = merge_retry d x.
Proof. unfold merge_retry. by_fields x. Qed.
Lemma merge_observation_idem d x : merge_observation d (merge_observation d x) = merge_observation d x.
Proof. unfold merge_observation. by_fields x. Qed.
Lemma merge_concurrency_idem d x : merge_concurrency d (merge_concurrency d x) = merge_concurrency d x.
Proof. unfold merge_concurrency. by_fields x. Qed.
Lemma merge_timeout_idem d x : merge_timeout d (merge_timeout d x) = merge_timeout d x.
Proof. unfold merge_timeout. by_fields x. Qed.
Lemma merge_latency_idem d x : merge_latency d (merge_latency d x) = merge_latency d x.
Proof.
  unfold merge_latency. cbn [slt_Enabled slt_TargetMs slt_PenaltyWeight]. autorewrite with config. f_equal.
  - apply (if_then_idem (fun v => (v =? 0) && _)).
  - apply (if_then_idem (fun v => feqb v f_zero && _)).
Qed.
Lemma merge_health_idem d x : merge_health d (merge_health d x) = merge_health d x.
Proof.
  unfold merge_health. cbn [sho_Enabled sho_Interval sho_SyncAllowance sho_External sho_Local]. autorewrite with config. f_equal.
  apply (if_then_idem (fun v => (v =? 0) && _)).
Qed.

Lemma fmap_idem {A} (f : A -> A) (o : option A) : (forall x, f (f x) = f x) -> f <$> (f <$> o) = f <$> o.
Proof. intros F. destruct o; cbn; [by rewrite F|done]. Qed.

Lemma completed_idem d s : completed d (completed d s) = completed d s.
Proof.
  unfold completed. cbn.
  rewrite (fmap_idem _ _ (merge_reputation_idem _)), (fmap_idem _ _ (merge_latency_idem _)), (fmap_idem _ _ (merge_tiered_idem _)),
    (fmap_idem _ _ (merge_probation_idem _)), (fmap_idem _ _ (merge_retry_idem _)), (fmap_idem _ _ (merge_observation_idem _)),
    (fmap_idem _ _ (merge_concurrency_idem _)), (fmap_idem _ _ (merge_timeout_idem _)), (fmap_idem _ _ (merge_health_idem _)). done.
Qed.

Lemma merged_completed d s : merged_copy d (completed d s) = merged_copy d s.
Proof. unfold merged_copy. by rewrite completed_idem. Qed.

(** ** Lookups after an update in place *)

Lemma find_update_first {A} (p q : A -> bool) (f : A -> A) l : (forall x, p (f x) = p x) -> (forall x, q (f x) = q x) ->
  (forall x, p x = true -> q x = true -> forall y, p y = q y) \/ (forall x, p x = true -> q x = false) ->
  List.find q (update_first p f l) = match List.find q l with
                                     | Some x => Some (if p x then f x else x)
                                     | None => None
                                     end.
Proof.
  intros Hp Hq D. induction l as [|x l IH]; [done|]. cbn [update_first List.find].
  destruct (p x) eqn:Px; cbn [List.find].
  - rewrite Hq. destruct (q x) eqn:Qx; [by rewrite Px|].
    destruct (List.find q l) as [y|] eqn:E; [|done]. apply List.find_some in E as [_ Qy].
    destruct (p y) eqn:Py; [|done]. destruct D as [D|D]; [by rewrite (D y Py Qy x), Qx in Px|by rewrite (D y Py) in Qy].
  - destruct (q x) eqn:Qx; [by rewrite Px|done].
Qed.

Lemma has_id_true id s : has_id id s = true <-> svc_ID s = id.
Proof. apply String.eqb_eq. Qed.

Lemma get_update c id id' f : (forall s, svc_ID (f s) = svc_ID s) ->
  GetServiceConfig (set_services c (update_first (has_id id) f (us_Services c))) id' =
  if decide (id = id') then f <$> GetServiceConfig c id' else GetServiceConfig c id'.
Proof.
  intros F. unfold GetServiceConfig. cbn [us_Services set_services].
  rewrite find_update_first; [|intros s; unfold has_id; by rewrite F|intros s; unfold has_id; by rewrite F|].
  - destruct (List.find _ _) as [s|] eqn:E; [|by destruct (decide (id = id'))]. apply List.find_some in E as [_ E]. apply has_id_true in E as <-.
    unfold has_id. destruct (decide (id = svc_ID s)) as [->|N]; [by rewrite String.eqb_refl|].
    by rewrite (proj2 (String.eqb_neq _ _)).
  - destruct (decide (id = id')) as [->|N]; [by left|right]. intros s Es%has_id_true. unfold has_id. rewrite Es.
    by apply String.eqb_neq.
Qed.

Lemma merged_step c id id' : GetServiceConfig (snd (GetMergedServiceConfig c id)) id' =
  if decide (id = id') then completed (us_Defaults c) <$> GetServiceConfig c id' else GetServiceConfig c id'.
Proof.
  unfold GetMergedServiceConfig. destruct (GetServiceConfig c id) as [s|] eqn:E; cbn [snd].
  - by rewrite get_update.
  - destruct (decide (id = id')) as [<-|]; [by rewrite E|done].
Qed.

Lemma merged_defaults c id : us_Defaults (snd (GetMergedServiceConfig c id)) = us_Defaults c.
Proof. unfold GetMergedServiceConfig. by destruct (GetServiceConfig c id). Qed.

(** What is read of a service, as far as its completion does not change it. *)
Record reading := mkReading {
  rd_merged : option ServiceConfig;
  rd_type : string;
  rd_rpcTypes : list string;
  rd_timeout : Duration;
  rd_share : float64;
  rd_static : string -> string -> option static_response;
}.

Definition read_service (c : UnifiedServicesConfig) (id : string) : reading :=
  mkReading (fst (GetMergedServiceConfig c id)) (GetServiceType c id) (GetServiceRPCTypes c id) (GetRelayTimeoutForService c id)
    (GetMaxOperatorShareForService c id) (fun path method => ResolveStaticResponse c id path method).

Definition reading_of (d : ServiceDefaults) (o : option ServiceConfig) : reading :=
  mkReading (merged_copy d <$> o) (match o with Some s => or_empty (svc_Type s) (sd_Type d) | None => sd_Type d end)
    (match o with Some s => or_list (svc_RPCTypes s) (sd_RPCTypes d) | None => sd_RPCTypes d end)
    (default (default DefaultRelayRequestTimeout (sto_RelayTimeout (sd_TimeoutConfig d))) (o ≫= fun s => svc_TimeoutConfig s ≫= sto_RelayTimeout))
    (default (default DefaultMaxOperatorShare (sd_MaxOperatorShare d)) (o ≫= svc_MaxOperatorShare))
    (fun path method => match o ≫= (fun s => matchStaticRoute (svc_StaticRoutes s) path method) with
                        | Some rt => Some (buildStaticResponse rt)
                        | None => buildStaticResponse <$> matchStaticRoute (sd_StaticRoutes d) path method
                        end).

Lemma read_service_of c id : read_service c id = reading_of (us_Defaults c) (GetServiceConfig c id).
Proof.
  unfold read_service, reading_of, GetMergedServiceConfig, GetServiceType, GetServiceRPCTypes, GetRelayTimeoutForService,
    GetMaxOperatorShareForService, setting, ResolveStaticResponse.
  by destruct (GetServiceConfig c id).
Qed.

Lemma reading_completed d o : reading_of d (completed d <$> o) = reading_of d o.
Proof.
  destruct o as [s|]; [|done]. unfold reading_of. cbn [fmap option_fmap option_map mbind option_bind]. rewrite merged_completed. cbn. f_equal.
  destruct (svc_TimeoutConfig s) as [[t]|]; [|done]. by destruct t, (sd_TimeoutConfig d) as [[]].
Qed.

(** C28: reading merged settings is repeatable.  [GetMergedServiceConfig] completes the sections of
    the stored service, yet after any series of reads, of this service and of others, every service
    reads as before: merged settings, type, RPC types, relay timeout, operator share and static
    responses. *)
Theorem merges_repeatable c ids id :
  read_service (fold_left (fun c i => snd (GetMergedServiceConfig c i)) ids c) id = read_service c id.
Proof.
  revert c. induction ids as [|i ids IH]; intros c; [done|]. cbn [fold_left]. rewrite IH, !read_service_of, merged_step, merged_defaults.
  destruct (decide (i = id)); [apply reading_completed|done].
Qed.

(** ** Defaults leave nothing open *)

Lemma or_else_some {A} (o : option A) d : or_else o (Some d) = Some (default d o).
Proof. by destruct o. Qed.

Lemma or_zero_idem v d : or_zero (or_zero v d) d = or_zero v d.
Proof. apply (if_then_idem (fun v => v =? 0)). Qed.
Lemma or_default_twice v d : or_default (or_default v d) d = or_default v d.
Proof. apply (if_then_idem (fun v => feqb v f_zero)). Qed.
Lemma or_list_idem {A} (l d : list A) : or_list (or_list l d) d = or_list l d.
Proof. destruct l; [by destruct d|done]. Qed.
#[local] Hint Rewrite @or_list_idem or_zero_idem or_default_twice : config.

Lemma hydrate_defaults_idem d : hydrate_defaults (hydrate_defaults d) = hydrate_defaults d.
Proof.
  unfold hydrate_defaults, hydrate_reputation, hydrate_latency, hydrate_tiered, hydrate_probation, hydrate_retry, hydrate_observation,
    hydrate_timeout, hydrate_health.
  cbn -[or_else or_empty or_list or_zero]. by autorewrite with config.
Qed.

Lemma hydrate_profile_idem p : hydrate_profile (hydrate_profile p) = hydrate_profile p.
Proof. unfold hydrate_profile. cbn -[or_default]. by autorewrite with config. Qed.

(** Every setting that has a default is there. *)
Definition complete_service (m : ServiceConfig) : Prop :=
  svc_Type m <> "" /\ svc_RPCTypes m <> [] /\ svc_LatencyProfile m <> "" /\
  (exists r, svc_ReputationConfig m = Some r /\ is_Some (srp_Enabled r) /\ is_Some (srp_InitialScore r) /\ is_Some (srp_MinThreshold r) /\ srp_KeyGranularity r <> "") /\
  (exists t, svc_TieredSelection m = Some t /\ is_Some (stc_Enabled t) /\ is_Some (stc_Tier1Threshold t) /\ is_Some (stc_Tier2Threshold t)) /\
  (exists p, svc_Probation m = Some p /\ is_Some (spb_Enabled p) /\ is_Some (spb_Threshold p) /\ is_Some (spb_TrafficPercent p) /\ is_Some (spb_RecoveryMultiplier p)) /\
  (exists l, svc_Latency m = Some l /\ is_Some (slt_Enabled l)) /\
  (exists r, svc_RetryConfig m = Some r /\ is_Some (rt_Enabled r) /\ is_Some (rt_MaxRetries r) /\ is_Some (rt_RetryOn5xx r) /\ is_Some (rt_RetryOnTimeout r) /\
    is_Some (rt_RetryOnConnection r) /\ is_Some (rt_MaxRetryLatency r) /\ is_Some (rt_ConnectTimeout r) /\ is_Some (rt_HedgeDelay r) /\ is_Some (rt_HedgeMaxBatchSize r)) /\
  (exists o, svc_ObservationPipeline m = Some o /\ is_Some (sob_Enabled o) /\ is_Some (sob_SampleRate o)) /\
  (exists t, svc_TimeoutConfig m = Some t /\ is_Some (sto_RelayTimeout t)) /\
  (exists h, svc_HealthChecks m = Some h /\ is_Some (sho_Enabled h) /\ sho_Interval h <> 0).

Lemma or_else_is_some {A} (x d : option A) : is_Some d -> is_Some (or_else x d).
Proof. by destruct x. Qed.
Lemma or_empty_nonempty x d : d <> "" -> or_empty x d <> "".
Proof. intros D. unfold or_empty. destruct (String.eqb_spec x ""); done. Qed.
Lemma or_list_nonempty {A} (l d : list A) : d <> [] -> or_list l d <> [].
Proof. by destruct l. Qed.

(** A section of the service completed by the defaults, or the defaults themselves. *)
Lemma section_either {A} (P : A -> Prop) (merge : A -> A -> A) d o : P d -> (forall x, P (merge d x)) ->
  exists y, or_nil (merge d <$> o) d = Some y /\ P y.
Proof. destruct o; cbn; eauto. Qed.

Lemma hydrated_interval x : sho_Interval (hydrate_health x) <> 0.
Proof. cbn. unfold or_zero. destruct (Z.eqb_spec (sho_Interval x) 0); [by vm_compute|done]. Qed.

#[local] Hint Resolve or_else_is_some or_empty_nonempty or_list_nonempty : config.

Ltac section_complete merge := apply (section_either _ merge); [|intros x]; cbn -[or_else or_empty or_zero]; repeat split;
  rewrite ?or_else_some; first [by eauto|by eauto with config].

Lemma hydrated_complete d s : (sho_Interval (sd_ActiveHealthChecks d) = 0 \/ 0 < sho_Interval (sd_ActiveHealthChecks d)) ->
  complete_service (merged_copy (hydrate_defaults d) s).
Proof.
  intros I. unfold complete_service, merged_copy. cbn -[or_else or_empty or_list or_zero hydrate_reputation hydrate_latency hydrate_tiered hydrate_probation
    hydrate_retry hydrate_observation hydrate_timeout hydrate_health].
  split; [by apply or_empty_nonempty, or_empty_nonempty|]. split; [by apply or_list_nonempty, or_list_nonempty|].
  split; [by apply or_empty_nonempty, or_empty_nonempty|].
  split; [section_complete merge_reputation; by repeat apply or_empty_nonempty|].
  split; [section_complete merge_tiered|]. split; [section_complete merge_probation|]. split; [section_complete merge_latency|].
  split; [section_complete merge_retry|]. split; [section_complete merge_observation|]. split; [section_complete merge_timeout|].
  apply (section_either _ merge_health).
  - split; [cbn; rewrite or_else_some; eauto|apply hydrated_interval].
  - intros x. split; [cbn; rewrite !or_else_some; eauto|].
    unfold merge_health. cbn [sho_Interval]. pose proof (hydrated_interval (sd_ActiveHealthChecks d)) as N.
    destruct (Z.eqb_spec (sho_Interval x) 0) as [E|E]; [|done]. cbn [andb].
    rewrite (proj2 (Z.ltb_lt _ _)); [done|]. cbn in *. unfold or_zero in *.
    destruct (Z.eqb_spec (sho_Interval (sd_ActiveHealthChecks d)) 0); [by vm_compute|]. destruct I; lia.
Qed.

Lemma known_profile_mono (m m' : gmap string LatencyProfileConfig) name :
  (forall k, is_Some (m !! k) -> is_Some (m' !! k)) -> known_profile m name = true -> known_profile m' name = true.
Proof.
  intros Hm. unfold known_profile. rewrite !orb_true_iff, !bool_decide_eq_true. intros [[E|E]|E]; [by left; left|left; right; by apply Hm|by right].
Qed.

Lemma validate_services_mono `{UpperCase} m m' services : (forall k, is_Some (m !! k) -> is_Some (m' !! k)) ->
  forall i seen, validate_services m i services seen = None -> validate_services m' i services seen = None.
Proof.
  intros Hm. induction services as [|svc l IH]; intros i seen; [done|]. cbn [validate_services].
  destruct (svc_ID svc =? "")%string; [done|]. destruct (decide _); [done|]. destruct (negb (known_type _)); [done|].
  destruct (known_profile m _) eqn:K; [|done]. rewrite (known_profile_mono _ _ _ Hm K). cbn [negb].
  destruct (validateStaticRoutes _); [done|apply IH].
Qed.

Lemma hydrated_profiles c k : is_Some (us_LatencyProfiles c !! k) \/ k = "standard" ->
  is_Some (us_LatencyProfiles (UnifiedServicesConfig_HydrateDefaults c) !! k).
Proof.
  intros K. cbn [us_LatencyProfiles UnifiedServicesConfig_HydrateDefaults]. rewrite lookup_fmap. apply fmap_is_Some.
  destruct (us_LatencyProfiles c !! "standard") eqn:E.
  - destruct K as [K | ->]; [done|by rewrite E].
  - rewrite lookup_insert_is_Some'. destruct K; [by right|by left].
Qed.

(** Hydrated defaults are a fixpoint, keep a valid configuration valid and leave no setting
    open: what is merged for a service then has every section and every setting that has a default,
    unless the default check interval is negative. *)
Theorem hydration_completes `{UpperCase} c : sho_Interval (sd_ActiveHealthChecks (us_Defaults c)) >= 0 ->
  let h := UnifiedServicesConfig_HydrateDefaults c in
  UnifiedServicesConfig_HydrateDefaults h = h /\
  (UnifiedServicesConfig_Validate c = None -> UnifiedServicesConfig_Validate h = None) /\
  forall id m, fst (GetMergedServiceConfig h id) = Some m -> complete_service m.
Proof.
  intros I h. split_and!.
  - unfold h. unfold UnifiedServicesConfig_HydrateDefaults at 1. destruct (hydrated_profiles c "standard" (or_intror eq_refl)) as [p ->].
    unfold UnifiedServicesConfig_HydrateDefaults. cbn [us_Defaults us_Services us_LatencyProfiles]. rewrite hydrate_defaults_idem. f_equal.
    rewrite <- map_fmap_compose. apply map_fmap_ext. intros k x _. apply hydrate_profile_idem.
  - unfold UnifiedServicesConfig_Validate. destruct (validate_services _ _ (us_Services c) _) eqn:V; [done|].
    change (us_Services h) with (us_Services c). unfold h at 1.
    rewrite (validate_services_mono _ _ _ (fun k K => hydrated_profiles c k (or_introl K)) _ _ V).
    destruct (known_type _) eqn:T; [|done]. destruct (known_profile _ _) eqn:K; [|done]. cbn [negb]. intros R.
    assert (T' : known_type (sd_Type (us_Defaults h)) = true).
    { unfold h. cbn -[or_empty]. unfold or_empty. by destruct (_ =? "")%string. }
    assert (K' : known_profile (us_LatencyProfiles h) (sd_LatencyProfile (us_Defaults h)) = true).
    { unfold h. cbn [us_Defaults UnifiedServicesConfig_HydrateDefaults hydrate_defaults sd_LatencyProfile]. unfold or_empty.
      destruct (sd_LatencyProfile (us_Defaults c) =? "")%string eqn:E.
      - unfold known_profile. rewrite (bool_decide_eq_true_2 _ (hydrated_profiles c "standard" (or_intror eq_refl))). by rewrite orb_true_r.
      - eapply known_profile_mono; [|exact K]. intros k Hk. apply hydrated_profiles. by left. }
    rewrite T', K'. cbn [negb]. exact R.
  - intros id m. unfold GetMergedServiceConfig. destruct (GetServiceConfig h id) as [s|]; [|done]. intros [= <-].
    apply hydrated_complete. lia.
Qed.

(** ** Static routes *)

Lemma fold_upper_byte a b : is_ascii_byte a = true -> is_ascii_byte b = true ->
  fold_rune (byte_val a) = fold_rune (byte_val b) -> upper_ascii a = upper_ascii b.
Proof.
  assert (T : forallb (fun i => forallb (fun j => negb (fold_rune i =? fold_rune j) || Ascii.eqb (upper_ascii (byte_chr i)) (upper_ascii (byte_chr j)))
                (map Z.of_nat (seq 0 128))) (map Z.of_nat (seq 0 128)) = true) by (by vm_compute).
  assert (M : forall c, is_ascii_byte c = true -> In (byte_val c) (map Z.of_nat (seq 0 128))).
  { intros c Hc%Z.ltb_lt. pose proof (byte_val_range c). apply in_map_iff. exists (Z.to_nat (byte_val c)). split; [lia|]. apply in_seq. lia. }
  intros Ha%M Hb%M E. rewrite forallb_forall in T. specialize (T _ Ha). rewrite forallb_forall in T. specialize (T _ Hb).
  rewrite !byte_val_chr, E, Z.eqb_refl in T. cbn in T. by apply Ascii.eqb_eq.
Qed.

Lemma fold_upper a b : is_ascii a = true -> is_ascii b = true -> fold_name a = fold_name b -> to_upper a = to_upper b.
Proof.
  intros Ha Hb. unfold fold_name. rewrite !chunks_ascii, !map_map by done. cbn [chunk_rune].
  revert b Hb. induction a as [|x a IH]; intros [|y b] Hb; try done.
  cbn [is_ascii] in Ha, Hb. apply andb_true_iff in Ha as [Hx Ha]. apply andb_true_iff in Hb as [Hy Hb].
  cbn [list_ascii_of_string map]. intros [= Exy E]. unfold to_upper. cbn [str_map].
  f_equal; [by apply fold_upper_byte|by apply IH].
Qed.

Section RouteProps.
Context `{UpperCase}.
Implicit Types (rt : StaticRoute) (routes : list StaticRoute).

Definition ascii_methods rt : Prop := Forall (fun m => is_ascii m = true) (rt_Methods rt).
Definition matching path method routes : list StaticRoute := List.filter (route_matches path method) routes.
Definition any_method rt : Prop := rt_Methods rt = [].

Lemma key_of path method m : is_ascii m = true -> is_ascii method = true -> equal_fold m method = true ->
  method_key path m = method_key path method.
Proof.
  intros Hm Hr E%bool_decide_eq_true. unfold method_key, to_upper_u. rewrite Hm, Hr. by rewrite (fold_upper m method).
Qed.

Lemma claim_methods_ok i path methods seen seen' : claim_methods i path methods seen = inl seen' ->
  (forall k, k ∈ seen -> k ∈ seen') /\ forall m, m ∈ methods -> method_key path m ∈ seen' /\ method_key path m ∉ seen.
Proof.
  revert seen. induction methods as [|m methods IH]; intros seen; cbn [claim_methods].
  - intros [= ->]. split; [done|]. intros m Hm. by apply elem_of_nil in Hm.
  - destruct (decide _) as [|N]; [done|]. intros [Up Cl]%IH. split; [set_solver|].
    intros m' [-> | Hm]%elem_of_cons; [split; [set_solver|done]|]. destruct (Cl m' Hm). set_solver.
Qed.

(** One step of the validation. *)
Lemma validate_cons i rt routes all meth : validate_routes i (rt :: routes) all meth = None ->
  rt_Path rt ∉ all /\
  ((any_method rt /\ validate_routes (i + 1) routes ({[rt_Path rt]} ∪ all) meth = None) \/
   (~ any_method rt /\ exists meth', claim_methods i (rt_Path rt) (rt_Methods rt) meth = inl meth' /\ validate_routes (i + 1) routes all meth' = None)).
Proof.
  cbn [validate_routes]. destruct (negb _); [done|]. destruct (_ =? "/")%string; [done|]. destruct (_ && _); [done|].
  unfold any_method. destruct (rt_Methods rt) as [|m ms] eqn:Em; destruct (decide _); [done| |done|]; intros V.
  - split; [done|]. by left.
  - destruct (claim_methods _ _ _ _) as [meth'|] eqn:C; [|done]. split; [done|]. right. split; [done|]. eauto.
Qed.

Section Request.
Variables (path method : string).
Hypothesis method_ascii : is_ascii method = true.

Lemma matches_cases rt : ascii_methods rt -> route_matches path method rt = true ->
  rt_Path rt = path /\ (any_method rt \/ exists m, m ∈ rt_Methods rt /\ method_key path m = method_key path method).
Proof.
  intros As. unfold route_matches, any_method. rewrite andb_true_iff, String.eqb_eq. intros [-> M]. split; [done|].
  unfold ascii_methods in As. destruct (rt_Methods rt) as [|m ms]; [by left|right].
  apply existsb_exists in M as (m' & Im & Em). rewrite <- list_elem_of_In in Im. exists m'. split; [done|].
  rewrite Forall_forall in As. apply key_of; [by apply As|done|done].
Qed.

Lemma none_after_all i routes all meth : Forall ascii_methods routes -> validate_routes i routes all meth = None -> path ∈ all -> matching path method routes = [].
Proof.
  revert i all meth. induction routes as [|rt routes IH]; intros i all meth As V Ha; [done|]. inversion_clear As as [|? ? A1 A2].
  apply validate_cons in V as [N V]. cbn [matching List.filter]. destruct (route_matches path method rt) eqn:M.
  - apply matches_cases in M as [Ep _]; [by rewrite Ep in N|done].
  - destruct V as [[_ V]|(_ & meth' & _ & V)]; eapply IH; eauto; set_solver.
Qed.

Lemma any_after_claim i routes all meth : Forall ascii_methods routes -> validate_routes i routes all meth = None -> method_key path method ∈ meth ->
  matching path method routes = [] \/ exists rt, matching path method routes = [rt] /\ any_method rt.
Proof.
  revert i all meth. induction routes as [|rt routes IH]; intros i all meth As V Hm; [by left|]. inversion_clear As as [|? ? A1 A2].
  apply validate_cons in V as [N V]. cbn [matching List.filter]. destruct (route_matches path method rt) eqn:M.
  - apply matches_cases in M as [Ep Cs]; [|done]. rewrite Ep in V. destruct V as [[Any V]|(No & meth' & C & V)].
    + right. exists rt. split; [|done]. f_equal. eapply none_after_all; [done|exact V|set_solver].
    + destruct Cs as [Any|(m & Im & Ek)].
      * done.
      * exfalso. apply claim_methods_ok in C as [_ Cl]. destruct (Cl m Im) as [_ F]. by rewrite Ek in F.
  - destruct V as [[_ V]|(_ & meth' & C & V)]; [by eapply IH; eauto|]. apply claim_methods_ok in C as [Up _]. eapply IH; eauto.
Qed.

(** A request is matched by at most one route that names its method and one that names none, in this order. *)
Lemma matching_shape i routes all meth : Forall ascii_methods routes -> validate_routes i routes all meth = None ->
  matching path method routes = [] \/ (exists rt, matching path method routes = [rt]) \/
  exists rt any, matching path method routes = [rt; any] /\ ~ any_method rt /\ any_method any.
Proof.
  revert i all meth. induction routes as [|rt routes IH]; intros i all meth As V; [by left|]. inversion_clear As as [|? ? A1 A2].
  apply validate_cons in V as [N V]. cbn [matching List.filter]. destruct (route_matches path method rt) eqn:M.
  - apply matches_cases in M as [Ep Cs]; [|done]. rewrite Ep in V. destruct V as [[Any V]|(No & meth' & C & V)].
    + right. left. exists rt. f_equal. eapply none_after_all; [done|exact V|set_solver].
    + destruct Cs as [Any|(m & Im & Ek)]; [done|]. apply claim_methods_ok in C as [_ Cl]. destruct (Cl m Im) as [F _]. rewrite Ek in F.
      destruct (any_after_claim _ _ _ _ A2 V F) as [E|(any & E & Any)]; fold (matching path method routes); rewrite E; eauto 10.
  - destruct V as [[_ V]|(_ & meth' & _ & V)]; by eapply IH; eauto.
Qed.
End Request.

(** Validated routes are unambiguous up to one overlap.  When a set of routes with ASCII
    methods passes validation, a request is matched by no route, by one, or by exactly two: one that
    lists its method and, after it, one for all methods; the first of them answers. *)
Theorem validated_routes_unambiguous routes path method : Forall ascii_methods routes -> is_ascii method = true -> validateStaticRoutes routes = None ->
  matchStaticRoute routes path method = head (matching path method routes) /\
  (matching path method routes = [] \/ (exists rt, matching path method routes = [rt]) \/
   exists rt any, matching path method routes = [rt; any] /\ ~ any_method rt /\ any_method any).
Proof.
  intros As Am V. split; [|by eapply matching_shape].
  unfold matchStaticRoute, matching. clear. induction routes as [|rt routes IH]; [done|]. cbn. by destruct (route_matches path method rt).
Qed.
End RouteProps.

(** The validation sees the overlap in one order only: an all-methods route before a route for one
    of its methods is refused, the same two routes the other way round are accepted. *)
Theorem overlap_depends_on_order `{UpperCase} body1 body2 :
  let get := mkStaticRoute "/info" ["GET"] 0 "" body1 ∅ in
  let any := mkStaticRoute "/info" [] 0 "" body2 ∅ in
  validateStaticRoutes [any; get] = Some (ConflictsAllMethods 1 "/info") /\ validateStaticRoutes [get; any] = None.
Proof. split; reflexivity. Qed.

(** ** The sync allowance *)

Lemma get_set_allowance c id n id' : GetServiceConfig (SetServiceSyncAllowance c id n) id' =
  if decide (id = id')
  then Some (let s := default (bare_service id) (GetServiceConfig c id) in
             set_health s (Some (with_allowance (default empty_override (svc_HealthChecks s)) n)))
  else GetServiceConfig c id'.
Proof.
  unfold SetServiceSyncAllowance. destruct (GetServiceConfig c id) as [s|] eqn:E.
  - rewrite get_update by done. destruct (decide (id = id')) as [<-|]; [by rewrite E|done].
  - unfold GetServiceConfig in *. cbn [us_Services set_services].
    assert (F : forall l x, List.find (has_id id') (l ++ [x]) = match List.find (has_id id') l with Some y => Some y | None => if has_id id' x then Some x else None end).
    { induction l as [|y l IH]; intros x; cbn; [done|]. by destruct (has_id id' y). }
    rewrite F. change (has_id id' (set_health (bare_service id) _)) with (id =? id')%string. destruct (decide (id = id')) as [<-|N].
    + by rewrite E, String.eqb_refl.
    + rewrite (proj2 (String.eqb_neq _ _)) by done. by destruct (List.find (has_id id') (us_Services c)).
Qed.

Lemma set_allowance_defaults c id n : us_Defaults (SetServiceSyncAllowance c id n) = us_Defaults c.
Proof. unfold SetServiceSyncAllowance. by destruct (GetServiceConfig c id). Qed.

(** A sync allowance that is set is read back, changes nothing else of the service and nothing
    of the others. *)
Theorem sync_allowance_roundtrip c id n id' : 0 <= n <= max_int64 ->
  let c' := SetServiceSyncAllowance c id n in
  GetSyncAllowanceForService c' id = n /\
  rd_type (read_service c' id) = rd_type (read_service c id) /\ rd_timeout (read_service c' id) = rd_timeout (read_service c id) /\
  (id' <> id -> read_service c' id' = read_service c id' /\ GetSyncAllowanceForService c' id' = GetSyncAllowanceForService c id').
Proof.
  intros Hn c'. rewrite !read_service_of. unfold c', GetSyncAllowanceForService. rewrite !get_set_allowance, set_allowance_defaults, !decide_True by done.
  split; [|split; [|split]].
  - cbn. apply wrapu64_id. unfold in_uint64, max_int64, max_uint64 in *. lia.
  - cbn. by destruct (GetServiceConfig c id).
  - cbn. by destruct (GetServiceConfig c id).
  - intros N. by rewrite decide_False by done.
Qed.

Lemma propagate_get c l id s : GetServiceConfig c id = Some s -> exists h, GetServiceConfig (propagate_allowance c l) id = Some (set_health s h).
Proof.
  intros E. assert (Self : set_health s (svc_HealthChecks s) = s) by (by destruct s).
  unfold propagate_allowance. destruct (shc_SyncAllowance l) as [n|]; [|exists (svc_HealthChecks s); by rewrite Self].
  destruct (0 <? n); [|exists (svc_HealthChecks s); by rewrite Self]. rewrite get_set_allowance.
  destruct (decide _) as [->|]; [rewrite E; cbn; by eexists|exists (svc_HealthChecks s); by rewrite Self].
Qed.

Lemma propagate_all_get l c id s : GetServiceConfig c id = Some s ->
  exists h, GetServiceConfig (fold_left propagate_allowance l c) id = Some (set_health s h).
Proof.
  revert c s. induction l as [|x l IH]; intros c s E; cbn [fold_left].
  - exists (svc_HealthChecks s). rewrite E. by destruct s.
  - destruct (propagate_get c x id s E) as [h E1]. destruct (IH _ _ E1) as [h' E2]. exists h'. by rewrite E2.
Qed.

Lemma propagate_new l c id : GetServiceConfig c id = None ->
  let o := GetServiceConfig (fold_left propagate_allowance l c) id in o = None \/ exists h, o = Some (set_health (bare_service id) h).
Proof.
  revert c. induction l as [|x l IH]; intros c E; cbn [fold_left]; [by left|].
  destruct (GetServiceConfig (propagate_allowance c x) id) as [s|] eqn:E1; [|by apply IH].
  right. revert E1. unfold propagate_allowance. destruct (shc_SyncAllowance x) as [n|]; [|by rewrite E]. destruct (0 <? n); [|by rewrite E].
  rewrite get_set_allowance. destruct (decide _) as [<-|]; [|by rewrite E]. rewrite E. intros [= <-].
  edestruct (propagate_all_get l (SetServiceSyncAllowance c (shc_ServiceID x) n)) as [h Eh]; [by rewrite get_set_allowance, decide_True by done|].
  rewrite E in Eh. cbn in Eh. by exists h.
Qed.

Lemma propagate_defaults l c : us_Defaults (fold_left propagate_allowance l c) = us_Defaults c /\
  us_LatencyProfiles (fold_left propagate_allowance l c) = us_LatencyProfiles c.
Proof.
  revert c. induction l as [|x l IH]; intros c; [done|]. cbn [fold_left]. destruct (IH (propagate_allowance c x)) as [-> ->].
  unfold propagate_allowance. destruct (shc_SyncAllowance x) as [n|]; [|done]. destruct (0 <? n); [|done].
  unfold SetServiceSyncAllowance. by destruct (GetServiceConfig c _).
Qed.

(** A health check opens a service.  A local health check with a sync allowance for a service
    that is not configured makes it a configured one, with the default RPC types: requests for it
    are no longer turned away. *)
Theorem local_check_opens_service c parent id n local : HasService c id = false -> local ∈ pd_LocalHealthChecks parent ->
  shc_ServiceID local = id -> shc_SyncAllowance local = Some n -> 0 < n ->
  HasService (SetDefaultsFromParent c parent) id = true /\ GetServiceRPCTypes (SetDefaultsFromParent c parent) id = sd_RPCTypes (us_Defaults c).
Proof.
  intros N (l1 & l2 & El)%list_elem_of_split Ei Es Hn. unfold HasService, GetServiceRPCTypes, SetDefaultsFromParent.
  rewrite (proj1 (propagate_defaults _ _)), El, fold_left_app. cbn [fold_left].
  assert (N1 : GetServiceConfig (set_defaults c (parent_defaults parent (us_Defaults c))) id = None).
  { unfold HasService in N. unfold GetServiceConfig in *. cbn. by destruct (List.find _ _). }
  set (c1 := fold_left propagate_allowance l1 _).
  assert (E2 : exists h, GetServiceConfig (propagate_allowance c1 local) id = Some (set_health (bare_service id) h)).
  { unfold propagate_allowance. rewrite Es, (proj2 (Z.ltb_lt _ _) Hn), get_set_allowance, Ei, decide_True by done.
    destruct (propagate_new l1 _ id N1) as [E|[h E]]; fold c1 in E; rewrite E; by eexists. }
  destruct E2 as [h E2]. destruct (propagate_all_get l2 _ _ _ E2) as [h' E3]. by rewrite E3.
Qed.

(** ** Latency profiles at start-up *)

(** What [NewProtocol] hands the reputation service for a service. *)
Definition startup_latency (c : UnifiedServicesConfig) (parent : ParentConfigDefaults) (globalLatency : LatencyConfig) (id : string) : option LatencyConfig :=
  let c := SetDefaultsFromParent c parent in
  match GetMergedServiceConfig c id with
  | (Some merged, c) => buildLatencyConfigForService merged globalLatency (Some c)
  | (None, _) => None
  end.

Lemma startup_profile c parent global id svc p :
  GetServiceConfig c id = Some svc -> svc_Latency svc = None -> slt_Enabled (sd_Latency (us_Defaults c)) <> Some false -> slt_TargetMs (sd_Latency (us_Defaults c)) <= 0 ->
  svc_LatencyProfile svc <> "" -> us_LatencyProfiles c !! svc_LatencyProfile svc = Some p ->
  exists cfg, startup_latency c parent global id = Some cfg /\ lc_FastThreshold cfg = lpc_FastThreshold p /\ lc_FastBonus cfg = lpc_FastBonus p.
Proof.
  intros E L En T Np P. unfold startup_latency, GetMergedServiceConfig, SetDefaultsFromParent.
  destruct (propagate_all_get (pd_LocalHealthChecks parent) (set_defaults c (parent_defaults parent (us_Defaults c))) id svc E) as [h ->].
  destruct (propagate_defaults (pd_LocalHealthChecks parent) (set_defaults c (parent_defaults parent (us_Defaults c)))) as [-> Lp].
  unfold buildLatencyConfigForService, merged_copy, completed. cbn [us_Defaults set_defaults svc_Latency svc_LatencyProfile set_health]. rewrite L.
  cbn [fmap option_fmap option_map or_nil mbind option_bind].
  change (sd_Latency (parent_defaults parent (us_Defaults c))) with (sd_Latency (us_Defaults c)). rewrite (proj2 (Z.ltb_ge _ _)) by done.
  replace (negb (default true (slt_Enabled (sd_Latency (us_Defaults c))))) with false by (by destruct (slt_Enabled _) as [[]|]).
  unfold or_empty. rewrite (proj2 (String.eqb_neq _ _) Np). unfold GetLatencyProfile. cbn [set_services us_LatencyProfiles]. rewrite Lp.
  cbn [set_defaults us_LatencyProfiles]. rewrite P, (proj2 (String.eqb_neq _ _) Np). by eexists.
Qed.

Lemma fmul_zero_bonus x b : is_finite x = true -> feqb b f_zero = true -> feqb (fmul x b) f_zero = true.
Proof. destruct x as [[]|[]| |[] ? ?], b as [[]|[]| |[] ? ?]; done. Qed.

(** C39: a latency profile given by its thresholds alone earns fast responses nothing.  Defaults
    are hydrated only after the protocol has read the profiles, so the fast bonus of such a profile
    is still zero: a fast success leaves the impact on the score at zero, where hydrating first
    would have doubled it. *)
Theorem threshold_profile_no_credit {St} `{RPCTypeEnum} `{!Storage St} c parent global id svc p (s : service St) :
  GetServiceConfig c id = Some svc -> svc_Latency svc = None -> slt_Enabled (sd_Latency (us_Defaults c)) <> Some false -> slt_TargetMs (sd_Latency (us_Defaults c)) <= 0 ->
  svc_LatencyProfile svc <> "" -> us_LatencyProfiles c !! svc_LatencyProfile svc = Some p -> feqb (lpc_FastBonus p) f_zero = true ->
  let base := GetImpact (cf_SignalImpacts (svc_config s)) SignalTypeSuccess in is_finite base = true -> fgtb base f_zero = true ->
  exists cfg hydrated, startup_latency c parent global id = Some cfg /\
    startup_latency (UnifiedServicesConfig_HydrateDefaults c) parent global id = Some hydrated /\ lc_FastBonus hydrated = DefaultFastBonus /\
    forall signal, sig_Type signal = SignalTypeSuccess -> 0 < sig_Latency signal < lpc_FastThreshold p -> lc_Enabled cfg = true ->
      feqb (calculateImpact (SetLatencyProfile s id cfg) id signal) f_zero = true.
Proof.
  intros E L En T Np P Z base Fin Pos. destruct (startup_profile c parent global id svc p E L En T Np P) as (cfg & Ec & Ft & Fb).
  destruct (startup_profile (UnifiedServicesConfig_HydrateDefaults c) parent global id svc (hydrate_profile p)) as (cfg' & Ec' & _ & Fb').
  - done.
  - done.
  - cbn. by destruct (slt_Enabled (sd_Latency (us_Defaults c))) as [[]|].
  - done.
  - done.
  - cbn [us_LatencyProfiles UnifiedServicesConfig_HydrateDefaults]. rewrite lookup_fmap. destruct (_ !! "standard") eqn:S; [by rewrite P|].
    destruct (decide (svc_LatencyProfile svc = "standard")) as [En'|Nn]; [by rewrite En', S in P|]. by rewrite lookup_insert_ne, P by done.
  - exists cfg, cfg'. split; [done|]. split; [done|]. split; [rewrite Fb'; cbn; unfold or_default; by rewrite Z|].
    intros signal St0 Hl Hen. unfold calculateImpact, GetLatencyConfigForService, SetLatencyProfile. cbn [svc_latencyProfiles set_latency_profiles svc_config].
    rewrite lookup_insert_eq, Hen, St0. fold base. rewrite (proj2 (Z.eqb_neq _ _)) by lia. cbn [negb orb].
    unfold CalculateLatencyAwareImpactWithConfig. rewrite (fltb_not_fleb f_zero base) by done. rewrite (proj2 (Z.eqb_neq _ _)), Hen by lia. cbn [negb orb].
    unfold latency_modifier. rewrite Ft, (proj2 (Z.ltb_lt _ _)), Fb by lia. cbn [lir_FinalImpact].
    pose proof (fmul_zero_bonus base (lpc_FastBonus p) Fin Z) as Fz.
    destruct (fgtb (fmul base (lpc_FastBonus p)) f_zero) eqn:G; [|done]. exfalso.
    revert G Fz. unfold fgtb, fltb, feqb. destruct (fmul base (lpc_FastBonus p)) as [[]|[]| |[] ? ?]; done.
Qed.

(** ** What a read leaves behind *)

(** The first defaults stick: after one read, changed defaults no longer reach a setting that a
    section of the service left open, while services without the section follow them. *)
Theorem first_defaults_stick c d2 id svc x v : GetServiceConfig c id = Some svc -> svc_RetryConfig svc = Some x -> rt_MaxRetries x = None ->
  rt_MaxRetries (sd_RetryConfig (us_Defaults c)) = Some v ->
  exists m r, fst (GetMergedServiceConfig (set_defaults (snd (GetMergedServiceConfig c id)) d2) id) = Some m /\
    svc_RetryConfig m = Some r /\ rt_MaxRetries r = Some v.
Proof.
  intros E Ex No Ev. unfold GetMergedServiceConfig at 1.
  change (GetServiceConfig (set_defaults ?c' d2) id) with (GetServiceConfig c' id). rewrite merged_step, decide_True, E by done.
  eexists _, _. split; [done|]. unfold merged_copy, completed. cbn -[or_else]. rewrite Ex. cbn -[or_else]. split; [done|]. cbn -[or_else]. by rewrite No, Ev.
Qed.

(** A route of a service shields its path for its own methods only: the default route of the path
    still answers the others. *)
Theorem default_route_shows_through c id svc rt path method : GetServiceConfig c id = Some svc ->
  matchStaticRoute (svc_StaticRoutes svc) path method = None -> matchStaticRoute (sd_StaticRoutes (us_Defaults c)) path method = Some rt ->
  ResolveStaticResponse c id path method = Some (buildStaticResponse rt).
Proof. intros E N D. unfold ResolveStaticResponse. rewrite E. cbn. by rewrite N, D. Qed.

(** ** A configuration *)

#[export] Instance ascii_upper : UpperCase := {| upper_rune r := r |}.

Definition no_reputation : ServiceReputationConfig := mkSvcReputation None None None "" None.
Definition no_retry : ServiceRetryConfig := mkRetryConfig None None None None None None None None None.
Definition empty_defaults : ServiceDefaults :=
  mkDefaults "" [] "" no_reputation (mkSvcLatency None 0 f_zero) (mkSvcTiered None None None) (mkSvcProbation None None None None) no_retry
    (mkSvcObservation None None) (mkSvcConcurrency None None) (mkSvcTimeout None) empty_override [] [] None None None None None.

(** A profile of the operator, with thresholds only, and a service that names it. *)
Definition quick_profile : LatencyProfileConfig :=
  mkProfile (100 * millisecond) (300 * millisecond) second (2 * second) (5 * second) f_zero f_zero f_zero.
Definition quick_service : ServiceConfig :=
  mkService "eth" "evm" [] ∅ "quick" None None None None None None None None None None [] [] [] None None None None None.
Definition demo_unified : UnifiedServicesConfig := mkUnified {["quick" := quick_profile]} empty_defaults [quick_service] false.

Definition health_check_for (id : string) (n : Z) : ServiceHealthCheckConfig := mkServiceHealth id 0 None (Some n) [].
Definition demo_parent : ParentConfigDefaults :=
  mkParent false f_zero f_zero false f_zero f_zero f_zero true 2 true true true 0 None None None true f_zero true 0 0 [health_check_for "xrplevm" 5].

Lemma hydration_completes_witness : exists m, fst (GetMergedServiceConfig (UnifiedServicesConfig_HydrateDefaults demo_unified) "eth") = Some m /\ complete_service m.
Proof.
  eexists. split; [reflexivity|]. apply (hydration_completes demo_unified ltac:(by vm_compute)) with (id := "eth"). reflexivity.
Defined.

Definition get_info : StaticRoute := mkStaticRoute "/info" ["GET"; "head"] 0 "" "v1" ∅.
Definition any_info : StaticRoute := mkStaticRoute "/info" [] 404 "" "none" ∅.

Lemma validated_routes_unambiguous_witness :
  matchStaticRoute [get_info; any_info] "/info" "HEAD" = Some get_info /\ matching "/info" "HEAD" [get_info; any_info] = [get_info; any_info].
Proof.
  split; [|by vm_compute]. eapply eq_trans; [apply (validated_routes_unambiguous [get_info; any_info] "/info" "HEAD")|by vm_compute].
  - repeat constructor.
  - done.
  - by vm_compute.
Defined.

Lemma sync_allowance_roundtrip_witness : GetSyncAllowanceForService (SetServiceSyncAllowance demo_unified "eth" 12) "eth" = 12.
Proof. apply (sync_allowance_roundtrip demo_unified "eth" 12 "eth"). by vm_compute. Defined.

Lemma local_check_opens_service_witness : HasService (SetDefaultsFromParent demo_unified demo_parent) "xrplevm" = true.
Proof.
  apply (local_check_opens_service demo_unified demo_parent "xrplevm" 5 (health_check_for "xrplevm" 5)); try done. by apply list_elem_of_singleton.
Defined.

Definition fresh_reputation : service MemoryStorage := NewService RepConfig.DefaultConfig (NewMemoryStorage (5 * minute)).

Lemma threshold_profile_no_credit_witness : exists cfg, startup_latency demo_unified demo_parent DefaultLatencyConfig "eth" = Some cfg /\
  feqb (calculateImpact (SetLatencyProfile fresh_reputation "eth" cfg) "eth" (NewSuccessSignal 0 (50 * millisecond))) f_zero = true.
Proof.
  destruct (threshold_profile_no_credit demo_unified demo_parent DefaultLatencyConfig "eth" quick_service quick_profile fresh_reputation) as (cfg & _ & E & _ & _ & F);
    try reflexivity; try discriminate.
  exists cfg. split; [done|]. apply F; [done|by vm_compute|]. revert E. unfold startup_latency. vm_compute. by intros [= <-].
Defined.
