(* ===== verification/RelayTransport.v ===== *)
(** * What a relay goes through: network/http/http_client.go and the account fetcher

    The HTTP client turns what the network did into a body, a status and an error, and counts it.
    The account fetcher caches the accounts whose keys sign the responses and remembers which
    suppliers had none (protocol/shannon/fullnode_account_fetcher.go).  net/http and the cache of
    the accounts are parameters: the first as the outcome of one request, the second as a class. *)

From S2P Require Import Prelude GoStrings ErrorClass.
From Stdlib Require Import ZArith Lia Bool Ascii String.
From stdpp Require Import base gmap strings list.

Open Scope string_scope.
Open Scope Z_scope.

(** ** Errors *)

(** [fmt.Errorf(prefix + "%w", err)] *)
Definition wrap_error (prefix : string) (e : error) : error := mkError (prefix +:+ err_text e) (err_chain e) None.
(** [fmt.Errorf("%w" + suffix, err)] *)
Definition suffix_error (e : error) (suffix : string) : error := mkError (err_text e +:+ suffix) (err_chain e) None.
(** [fmt.Errorf("%w" + sep + "%w", e1, e2)] *)
Definition join_errors (e1 : error) (sep : string) (e2 : error) : error :=
  mkError (err_text e1 +:+ sep +:+ err_text e2) (err_chain e1 ++ err_chain e2) None.
(** [errors.New(msg)], kept in a variable other code compares with *)
Definition new_sentinel (s : sentinel) (msg : string) : error := mkError msg [s] (Some s).
(** [fmt.Errorf(msg)] *)
Definition plain_error (msg : string) : error := mkError msg [] None.

Lemma wrap_error_is prefix e s : errors_Is (wrap_error prefix e) s = errors_Is e s.
Proof. done. Qed.

Lemma suffix_error_is e suffix s : errors_Is (suffix_error e suffix) s = errors_Is e s.
Proof. done. Qed.

Lemma join_errors_is e1 sep e2 s : errors_Is (join_errors e1 sep e2) s = errors_Is e1 s || errors_Is e2 s.
Proof.
  unfold errors_Is, join_errors; cbn. destruct (decide (s ∈ err_chain e1)), (decide (s ∈ err_chain e2));
    repeat first [rewrite bool_decide_eq_true_2 by set_solver | rewrite bool_decide_eq_false_2 by set_solver]; done.
Qed.

(** ** The HTTP client *)

Definition EnsureHTTPSuccess (statusCode : Z) : option error :=
  if (statusCode <? 200) || (300 <=? statusCode)
  then Some (suffix_error (new_sentinel ErrRelayEndpointHTTPError "endpoint returned non 2xx HTTP status code")
               (": " +:+ fmt_int statusCode))
  else None.

(** What became of one request: the URL or the request was not accepted, the exchange failed
    (with the deadline passed or not), the body could not be read, or an answer came. *)
Inductive http_outcome :=
| BadURL (e : error)
| BadRequest (e : error)
| DoFailed (deadlineExceeded : bool) (e : error)
| ReadFailed (statusCode : Z) (e : error)
| Replied (statusCode : Z) (body : string).

(** The counters, uint64 each. *)
Record HTTPClient := mkHTTPClient {
  hc_activeRequests : Z;
  hc_totalRequests : Z;
  hc_timeoutErrors : Z;
  hc_connectionErrors : Z;
}.

Definition begin_request (h : HTTPClient) : HTTPClient :=
  mkHTTPClient (wrapu64 (hc_activeRequests h + 1)) (wrapu64 (hc_totalRequests h + 1)) (hc_timeoutErrors h) (hc_connectionErrors h).
(** [activeRequests.Add(^uint64(0))] *)
Definition end_request (h : HTTPClient) : HTTPClient :=
  mkHTTPClient (wrapu64 (hc_activeRequests h + max_uint64)) (hc_totalRequests h) (hc_timeoutErrors h) (hc_connectionErrors h).

Definition categorizeError (h : HTTPClient) (deadlineExceeded : bool) (e : error) : error * HTTPClient :=
  if deadlineExceeded
  then (wrap_error "request timeout: " e,
        mkHTTPClient (hc_activeRequests h) (hc_totalRequests h) (wrapu64 (hc_timeoutErrors h + 1)) (hc_connectionErrors h))
  else (wrap_error "connection error: " e,
        mkHTTPClient (hc_activeRequests h) (hc_totalRequests h) (hc_timeoutErrors h) (wrapu64 (hc_connectionErrors h + 1))).

Definition SendHTTPRelay (h : HTTPClient) (o : http_outcome) : option string * Z * option error * HTTPClient :=
  let h := begin_request h in
  match o with
  | BadURL e => (None, 0, Some (wrap_error "SHOULD NEVER HAPPEN: invalid URL: " e), end_request h)
  | BadRequest e => (None, 0, Some (wrap_error "failed to create HTTP request: " e), end_request h)
  | DoFailed deadline e =>
      let '(err, h) := categorizeError h deadline e in (None, 0, Some err, end_request h)
  | ReadFailed status e => (None, status, Some (wrap_error "failed to read response body: " e), end_request h)
  | Replied status body => (Some body, status, EnsureHTTPSuccess status, end_request h)
  end.

(** ** Suppliers without a key *)

Definition nilPubkeyRetryInterval : Duration := 15 * minute.

Record invalidatedAccountTracker := mkInvalidated {
  it_addresses : gmap string Time;
  it_nilPubkeys : gmap string Time;
}.

Definition newInvalidatedAccountTracker : invalidatedAccountTracker := mkInvalidated ∅ ∅.

Definition tracker_Track (t : invalidatedAccountTracker) (now : Time) (address : string) : invalidatedAccountTracker :=
  mkInvalidated (<[address := now]> (it_addresses t)) (it_nilPubkeys t).

Definition tracker_TrackNilPubkey (t : invalidatedAccountTracker) (now : Time) (address : string) : invalidatedAccountTracker :=
  mkInvalidated (it_addresses t) (<[address := now]> (it_nilPubkeys t)).

Definition tracker_ShouldRetryNilPubkey (t : invalidatedAccountTracker) (now : Time) (address : string) : bool :=
  match it_nilPubkeys t !! address with
  | Some ts => nilPubkeyRetryInterval <=? time_sub now ts
  | None => true
  end.

Definition tracker_WasRecentlyInvalidated (t : invalidatedAccountTracker) (now : Time) (address : string) : bool :=
  match it_addresses t !! address with
  | Some ts => time_sub now ts <? 5 * minute
  | None => false
  end.

(** ** The account fetcher *)

(** The answer of the full node: the bytes of the account, [None] for a nil account. *)
Record QueryAccountResponse := mkAccountResponse { ar_Account : option string }.

(** The cache of the accounts. *)
Class AccountCache (C : Type) := {
  cache_Get : C -> string -> option (option QueryAccountResponse);
  cache_Set : C -> string -> option QueryAccountResponse -> C;
  cache_Delete : C -> string -> C;
}.

Class AccountCacheLaws (C : Type) `{!AccountCache C} : Prop := {
  cache_get_set : forall c k v, cache_Get (cache_Set c k v) k = Some v;
  cache_get_delete : forall c k, cache_Get (cache_Delete c k) k = None;
}.

#[export] Instance map_AccountCache : AccountCache (gmap string (option QueryAccountResponse)) := {|
  cache_Get := fun c k => c !! k;
  cache_Set := fun c k v => <[k := v]> c;
  cache_Delete := fun c k => delete k c;
|}.

#[export] Instance map_AccountCacheLaws : AccountCacheLaws (gmap string (option QueryAccountResponse)).
Proof. split; intros; cbn; [apply lookup_insert_eq | apply lookup_delete_eq]. Qed.

Record cachingAccountFetcher (C : Type) := mkFetcher {
  af_accountCache : C;
  af_invalidatedTracker : invalidatedAccountTracker;
}.
Arguments mkFetcher {C}. Arguments af_accountCache {C}. Arguments af_invalidatedTracker {C}.

Section Fetcher.
Context {C : Type} `{!AccountCache C}.
Implicit Types (f : cachingAccountFetcher C).

Definition getAccountCacheKey (address : string) : string := "account:" +:+ address.

Definition accountHasValidPubkey (resp : option QueryAccountResponse) : bool :=
  match resp with
  | Some r => match ar_Account r with Some v => negb (v =? "")%string | None => false end
  | None => false
  end.

(** [fetched] is what the full node would answer; it is asked only when the cache has nothing. *)
Definition Account f (address : string) (fetched : result error (option QueryAccountResponse))
  : result error (option QueryAccountResponse) * cachingAccountFetcher C :=
  let cacheKey := getAccountCacheKey address in
  match cache_Get (af_accountCache f) cacheKey with
  | Some resp => (Ok resp, f)
  | None =>
      match fetched with
      | Err e => (Err e, f)
      | Ok resp =>
          (Ok resp, if accountHasValidPubkey resp
                    then mkFetcher (cache_Set (af_accountCache f) cacheKey resp) (af_invalidatedTracker f)
                    else f)
      end
  end.

Definition InvalidateCache f (now : Time) (address : string) : cachingAccountFetcher C :=
  mkFetcher (cache_Delete (af_accountCache f) (getAccountCacheKey address)) (tracker_Track (af_invalidatedTracker f) now address).

Definition WasRecentlyInvalidated f (now : Time) (address : string) : bool :=
  tracker_WasRecentlyInvalidated (af_invalidatedTracker f) now address.

Definition TrackNilPubkey f (now : Time) (address : string) : cachingAccountFetcher C :=
  mkFetcher (af_accountCache f) (tracker_TrackNilPubkey (af_invalidatedTracker f) now address).

Definition ShouldRetryNilPubkey f (now : Time) (address : string) : bool :=
  tracker_ShouldRetryNilPubkey (af_invalidatedTracker f) now address.
End Fetcher.

(** ** Facts *)

(** The number of requests in flight is what it was once a request is over, whatever became of
    it, and the total grew by one. *)
Lemma SendHTTPRelay_counts h o body status err h' :
  SendHTTPRelay h o = (body, status, err, h') -> in_uint64 (hc_activeRequests h) -> 0 <= hc_totalRequests h < max_uint64 ->
  hc_activeRequests h' = hc_activeRequests h /\ hc_totalRequests h' = hc_totalRequests h + 1.
Proof.
  intros Hs Ha Ht. unfold in_uint64, max_uint64 in *.
  assert (hc_activeRequests h' = wrapu64 (wrapu64 (hc_activeRequests h + 1) + max_uint64) /\
          hc_totalRequests h' = wrapu64 (hc_totalRequests h + 1)) as [-> ->].
  { unfold SendHTTPRelay in Hs. destruct o as [| |[]| |]; injection Hs as <- <- <- <-; done. }
  unfold wrapu64, max_uint64. split; [|apply Z.mod_small; lia].
  rewrite Z.add_mod_idemp_l by lia.
  replace (hc_activeRequests h + 1 + (2 ^ 64 - 1)) with (hc_activeRequests h + 1 * 2 ^ 64) by lia.
  rewrite Z.mod_add by lia. apply Z.mod_small. lia.
Qed.

(** An answer is an error exactly when its status is not a 2xx. *)
Lemma replied_error h status body :
  (SendHTTPRelay h (Replied status body)).1.2 = None <-> 200 <= status < 300.
Proof.
  cbn. unfold EnsureHTTPSuccess. destruct (status <? 200) eqn:E1, (300 <=? status) eqn:E2; cbn; split; try done; try lia.
Qed.

Section FetcherFacts.
Context {C : Type} `{!AccountCache C} `{!AccountCacheLaws C}.
Implicit Types (f : cachingAccountFetcher C).

(** Any account with bytes is cached, whether or not it holds a key: once one is fetched, later
    lookups return it whatever the chain has come to say, until the cache is invalidated. *)
Theorem keyless_account_cached f address v later :
  v <> "" -> cache_Get (af_accountCache f) (getAccountCacheKey address) = None ->
  let resp := Some (mkAccountResponse (Some v)) in
  let f' := (Account f address (Ok resp)).2 in
  Account f' address later = (Ok resp, f') /\
  forall now, (Account (InvalidateCache f' now address) address later).1 = later.
Proof.
  intros Hv Hmiss resp f'.
  assert (f' = mkFetcher (cache_Set (af_accountCache f) (getAccountCacheKey address) resp) (af_invalidatedTracker f)) as ->.
  { subst f' resp. unfold Account. rewrite Hmiss. cbn. by rewrite (proj2 (String.eqb_neq v "") Hv). }
  split.
  - unfold Account. cbn [af_accountCache]. by rewrite cache_get_set.
  - intros now. unfold Account. cbn [InvalidateCache af_accountCache]. rewrite cache_get_delete. by destruct later.
Qed.
End FetcherFacts.
