(* ===== verification/ShannonRelay.v ===== *)
(** * The request context of the Shannon protocol: protocol/shannon/context.go

    One service request: its payloads become signed relays to the selected endpoint, the answers
    are validated, analysed and turned into responses, and what happened moves the supplier
    blacklist, the session exhaustion, the reputation scores, the observations and the relay
    metric.  The fields of [requestContext] that never change are [request_config], the others and
    the shared components they point to are [relay_ctx].  The outside (net/http, the signer, the
    SDK's validation and decoding, the clock before and after the exchange) is a [relay_world] per
    relay.  protocol/shannon/observation.go builds the observations. *)

From S2P Require Import Prelude GoStrings Utf8 Float64 Domain RepKey Signals Score RepConfig RepStorage RPCTypes Json Heuristic RelayPolicy ErrorClass PoolGuards ShannonPool TieredSelector RelayTransport ServiceConfig RepService.
From Stdlib Require Import ZArith Lia Bool Ascii String.
From stdpp Require Import base gmap strings list.

Open Scope string_scope.
Open Scope Z_scope.

(** ** Data *)

Record RelayMinerError := mkMinerError {
  me_Codespace : string;
  me_Code : Z;
  me_Message : string;
}.

Record RelayResponse := mkRelayResponse {
  rsp_Payload : string;
  rsp_RelayMinerError : option RelayMinerError;
}.

Record SessionHeader := mkHeader {
  sh_ApplicationAddress : string;
  sh_ServiceId : string;
  sh_SessionId : string;
  sh_SessionStartBlockHeight : Z;
  sh_SessionEndBlockHeight : Z;
}.

(** The session of an endpoint with the parts a relay needs; the application by its address. *)
Record Session := mkFullSession {
  fs_SessionId : string;
  fs_Header : option SessionHeader;
  fs_Application : option string;
}.

(** The endpoint a request was given, with its session. *)
Record selected := mkSelected {
  sel_endpoint : endpoint;
  sel_session : Session;
}.

Definition fallback_Session : Session := mkFullSession "" (Some (mkHeader "" "" "" 0 0)) (Some "").

Definition endpoint_Session (s : selected) : Session :=
  if ep_fallback (sel_endpoint s) then fallback_Session else sel_session s.
Definition Supplier (s : selected) : string := ep_supplier (sel_endpoint s).
Definition sel_Addr (s : selected) : EndpointAddr := endpoint_Addr (sel_endpoint s).

(** A payload with its headers. *)
Record relay_payload := mkRelayPayload {
  rp_payload : Payload;
  rp_Headers : gmap string string;
}.

Record EndpointObservation := mkEndpointObservation {
  eo_EndpointAppAddress : string;
  eo_SessionServiceId : string;
  eo_SessionId : string;
  eo_SessionStartHeight : Z;
  eo_SessionEndHeight : Z;
  eo_HttpResponseStatusCode : Z;
  eo_HttpResponsePayloadSize : Z;
  eo_Supplier : string;
  eo_EndpointUrl : string;
  eo_IsFallbackEndpoint : bool;
  eo_QueryTimestamp : Time;
  eo_ResponseTimestamp : Time;
  eo_Error : option (ShannonEndpointErrorType * string);
  eo_RelayMinerError : option RelayMinerError;
}.

(** One [metrics.RecordRelay]. *)
Record relay_metric := mkRelayMetric {
  mx_domain : string;
  mx_rpcType : string;
  mx_serviceID : string;
  mx_statusCode : string;
  mx_signal : string;
  mx_relayType : string;
  mx_latency : Duration;
}.

(** Load testing: the backend's URL, else the relay miner's. *)
Record LoadTestingConfig := mkLoadTesting {
  lt_BackendServiceURL : option string;
  lt_RelayMinerURL : string;
}.

Record request_config := mkRequestConfig {
  rq_serviceID : string;
  rq_selectedEndpoint : option selected;
  rq_loadTesting : option LoadTestingConfig;
  rq_MaxBatchPayloads : Z;                      (** of the global concurrency configuration *)
  rq_isHedge : bool;
  rq_isRetry : bool;
  rq_isHealthCheck : bool;
  rq_tieredSelector : option TieredSelector;
}.

Record relay_ctx (St C : Type) := mkRelayCtx {
  rx_currentRPCType : Z;
  rx_heuristicRPCType : Z;
  rx_requestError : option string;              (** the details of the internal error *)
  rx_observations : list EndpointObservation;
  rx_relayMinerError : option RelayMinerError;
  rx_services : option UnifiedServicesConfig;
  rx_reputation : option (service St);
  rx_blacklist : option supplierBlacklist;
  rx_exhaustion : option sessionExhaustionTracker;
  rx_fetcher : option (cachingAccountFetcher C); (** [None]: the account client does not cache *)
  rx_http : HTTPClient;
  rx_relays : list relay_metric;
}.
Arguments mkRelayCtx {St C}. Arguments rx_currentRPCType {St C}. Arguments rx_heuristicRPCType {St C}.
Arguments rx_requestError {St C}. Arguments rx_observations {St C}. Arguments rx_relayMinerError {St C}.
Arguments rx_services {St C}. Arguments rx_reputation {St C}. Arguments rx_blacklist {St C}.
Arguments rx_exhaustion {St C}. Arguments rx_fetcher {St C}. Arguments rx_http {St C}. Arguments rx_relays {St C}.

(** What the outside does during one relay. *)
Record relay_world := mkWorld {
  w_start : Time;                                 (** endpointQueryTime *)
  w_end : Time;                                   (** the clock once the exchange is over *)
  w_newRequest : string -> option error;          (** building the HTTP request for the URL *)
  w_embed : option error;                         (** serialising it into the relay request *)
  w_validHeader : SessionHeader -> option error;  (** ValidateBasic of the session header *)
  w_sign : option error;
  w_marshal : result error string;
  w_http : Duration -> string -> string -> string -> gmap string string -> http_outcome;
    (** timeout, URL, method, data, headers *)
  w_validate : bool -> string -> result (error * option RelayResponse) RelayResponse;
    (** whether it is the retry, and the bytes; a failure may carry the response it parsed *)
  w_deserialize : string -> result error (option string * Z);
}.

(** ** Labels of the relay metric *)

Definition SignalOK : string := "ok".
Definition RelayTypeNormal : string := "normal".
Definition RelayTypeProbation : string := "probation".
Definition RelayTypeHedge : string := "hedge".
Definition RelayTypeRetry : string := "retry".
Definition StatusCategoryError : string := "error".
Definition ErrDomain : string := "error".

Definition mapSignalTypeToMetricSignal (t : SignalType) : string :=
  match t with
  | SignalTypeSuccess | SignalTypeRecoverySuccess => SignalOK
  | SignalTypeSlowResponse => "slow"
  | SignalTypeVerySlowResponse => "slow_asf"
  | SignalTypeMinorError => "minor_error"
  | SignalTypeMajorError => "major_error"
  | SignalTypeCriticalError => "critical_error"
  | SignalTypeFatalError => "fatal_error"
  | _ => SignalOK
  end.

Definition GetStatusCodeCategory (statusCode : Z) : string :=
  if (200 <=? statusCode) && (statusCode <? 300) then "200"
  else if (400 <=? statusCode) && (statusCode <? 500) then "4xx"
  else if 500 <=? statusCode then "5xx"
  else "other".

Definition NormalizeRPCType `{UnicodeCase} (rpcType : string) : string := to_lower_u rpcType.

(** ** Requests *)

Definition prepareURLFromPayload (endpointURL : string) (p : Payload) : string :=
  if negb (pl_Path p =? "")%string then endpointURL +:+ pl_Path p else endpointURL.

Definition extractJSONRPCRequestID (payloadData : string) : string :=
  if (payloadData =? "")%string then ""
  else match parse payloadData with
       | None => ""
       | Some v =>
           match as_struct v with
           | None => ""
           | Some ms =>
               let id := raw_field "id" ms in
               if (id =? "")%string || (id =? "null")%string then ""
               else match decode_int id with
                    | Some n => fmt_int n
                    | None => default "" (decode_string id)
                    end
           end
       end.

Definition int32_of (z : Z) : Z := (z + 2 ^ 31) mod 2 ^ 32 - 2 ^ 31.

Definition errSendHTTPRelay_error : error := new_sentinel errSendHTTPRelay "HTTP relay request failed".
Definition errMalformedEndpointPayload_error : error := new_sentinel errMalformedEndpointPayload "endpoint returned malformed payload".
Definition errHeuristicDetectedBackendError_error : error :=
  new_sentinel errHeuristicDetectedBackendError "backend returned error response".
Definition errEndpointNon2XXHTTPStatusCode_error : error :=
  new_sentinel errEndpointNon2XXHTTPStatusCode "endpoint returned non-2xx HTTP status code".

(** [fmt.Errorf("%w %w: %d", errSendHTTPRelay, errEndpointNon2XXHTTPStatusCode, status)] *)
Definition non200_error (status : Z) : error :=
  suffix_error (join_errors errSendHTTPRelay_error " " errEndpointNon2XXHTTPStatusCode_error) (": " +:+ fmt_int status).

Definition response_at (addr : EndpointAddr) : relay_response := mkResponse None 0 addr (mkRelayMetadata "" "" "") "".
Definition body_response (addr : EndpointAddr) (body : option string) (status : Z) : relay_response :=
  mkResponse body status addr (mkRelayMetadata "" "" "") "".

(** What one relay gave, and a payload with what the outside does during its relay. *)
Abbreviation relay_result := (relay_response * option error)%type.
Abbreviation relay_item := (relay_payload * relay_world)%type.

Section Context.
Context {St C : Type} `{RPCTypeEnum} `{!Storage St} `{!AccountCache C}.
Context `{UnicodeCase} `{RPCTypeMembers} `{DomainLib}.
Variable RPCTypeHeader : string. (** [proxy.RPCTypeHeader] *)
Implicit Types (s : relay_ctx St C) (w : relay_world) (cfg : request_config) (sel : selected).

(** ** Fields *)

Definition set_types s (current heuristic : Z) : relay_ctx St C :=
  mkRelayCtx current heuristic (rx_requestError s) (rx_observations s) (rx_relayMinerError s) (rx_services s)
    (rx_reputation s) (rx_blacklist s) (rx_exhaustion s) (rx_fetcher s) (rx_http s) (rx_relays s).
Definition set_request_error s (e : option string) : relay_ctx St C :=
  mkRelayCtx (rx_currentRPCType s) (rx_heuristicRPCType s) e (rx_observations s) (rx_relayMinerError s) (rx_services s)
    (rx_reputation s) (rx_blacklist s) (rx_exhaustion s) (rx_fetcher s) (rx_http s) (rx_relays s).
Definition set_observations s (l : list EndpointObservation) : relay_ctx St C :=
  mkRelayCtx (rx_currentRPCType s) (rx_heuristicRPCType s) (rx_requestError s) l (rx_relayMinerError s) (rx_services s)
    (rx_reputation s) (rx_blacklist s) (rx_exhaustion s) (rx_fetcher s) (rx_http s) (rx_relays s).
Definition set_minerError s (e : option RelayMinerError) : relay_ctx St C :=
  mkRelayCtx (rx_currentRPCType s) (rx_heuristicRPCType s) (rx_requestError s) (rx_observations s) e (rx_services s)
    (rx_reputation s) (rx_blacklist s) (rx_exhaustion s) (rx_fetcher s) (rx_http s) (rx_relays s).
Definition set_config s (c : option UnifiedServicesConfig) : relay_ctx St C :=
  mkRelayCtx (rx_currentRPCType s) (rx_heuristicRPCType s) (rx_requestError s) (rx_observations s) (rx_relayMinerError s) c
    (rx_reputation s) (rx_blacklist s) (rx_exhaustion s) (rx_fetcher s) (rx_http s) (rx_relays s).
Definition set_reputation s (r : option (service St)) : relay_ctx St C :=
  mkRelayCtx (rx_currentRPCType s) (rx_heuristicRPCType s) (rx_requestError s) (rx_observations s) (rx_relayMinerError s) (rx_services s)
    r (rx_blacklist s) (rx_exhaustion s) (rx_fetcher s) (rx_http s) (rx_relays s).
Definition set_blacklist s (b : option supplierBlacklist) : relay_ctx St C :=
  mkRelayCtx (rx_currentRPCType s) (rx_heuristicRPCType s) (rx_requestError s) (rx_observations s) (rx_relayMinerError s) (rx_services s)
    (rx_reputation s) b (rx_exhaustion s) (rx_fetcher s) (rx_http s) (rx_relays s).
Definition set_exhaustion s (e : option sessionExhaustionTracker) : relay_ctx St C :=
  mkRelayCtx (rx_currentRPCType s) (rx_heuristicRPCType s) (rx_requestError s) (rx_observations s) (rx_relayMinerError s) (rx_services s)
    (rx_reputation s) (rx_blacklist s) e (rx_fetcher s) (rx_http s) (rx_relays s).
Definition set_fetcher s (f : option (cachingAccountFetcher C)) : relay_ctx St C :=
  mkRelayCtx (rx_currentRPCType s) (rx_heuristicRPCType s) (rx_requestError s) (rx_observations s) (rx_relayMinerError s) (rx_services s)
    (rx_reputation s) (rx_blacklist s) (rx_exhaustion s) f (rx_http s) (rx_relays s).
Definition set_http s (h : HTTPClient) : relay_ctx St C :=
  mkRelayCtx (rx_currentRPCType s) (rx_heuristicRPCType s) (rx_requestError s) (rx_observations s) (rx_relayMinerError s) (rx_services s)
    (rx_reputation s) (rx_blacklist s) (rx_exhaustion s) (rx_fetcher s) h (rx_relays s).
Definition add_relay_metric s (m : relay_metric) : relay_ctx St C :=
  mkRelayCtx (rx_currentRPCType s) (rx_heuristicRPCType s) (rx_requestError s) (rx_observations s) (rx_relayMinerError s) (rx_services s)
    (rx_reputation s) (rx_blacklist s) (rx_exhaustion s) (rx_fetcher s) (rx_http s) (rx_relays s ++ [m]).

(** ** Observations *)

Definition buildEndpointObservation sel (resp : option relay_response) (rpcType : Z) (queried answered : Time)
  (err : option (ShannonEndpointErrorType * string)) (minerErr : option RelayMinerError) : EndpointObservation :=
  let header := default (mkHeader "" "" "" 0 0) (fs_Header (endpoint_Session sel)) in
  let '(status, size) := match resp with
                         | Some r => (int32_of (rr_HTTPStatusCode r), Z.of_nat (String.length (rr_body r)))
                         | None => (0, 0)
                         end in
  mkEndpointObservation (sh_ApplicationAddress header) (sh_ServiceId header) (sh_SessionId header)
    (sh_SessionStartBlockHeight header) (sh_SessionEndBlockHeight header) status size (Supplier sel)
    (endpoint_GetURL (sel_endpoint sel) rpcType) (ep_fallback (sel_endpoint sel)) queried answered err minerErr.

Definition recordEndpointObservation cfg s (obs : EndpointObservation) : relay_ctx St C :=
  if (0 <? rq_MaxBatchPayloads cfg) && (rq_MaxBatchPayloads cfg <=? Z.of_nat (List.length (rx_observations s))) then s
  else set_observations s (rx_observations s ++ [obs]).

Definition handleInternalError s (msg : string) : relay_response * error * relay_ctx St C :=
  (zero_response, plain_error msg, set_request_error s (Some msg)).

(** ** Sending *)

Definition buildHeaders (p : relay_payload) : gmap string string :=
  let t := pl_RPCType (rp_payload p) in
  if negb (t =? RPCType_UNKNOWN_RPC) then <[RPCTypeHeader := fmt_int t]> (rp_Headers p) else rp_Headers p.

Definition sendHTTPRequest cfg sel s w (p : relay_payload) (url data : string)
  : option string * Z * option error * relay_ctx St C :=
  let relayTimeout := match rx_services s with
                      | Some c => GetRelayTimeoutForService c (rq_serviceID cfg)
                      | None => DefaultRelayRequestTimeout
                      end in
  let '(body, status, err, h) :=
    SendHTTPRelay (rx_http s) (w_http w relayTimeout url (pl_Method (rp_payload p)) data (buildHeaders p)) in
  (body, status,
   (fun e => wrap_error ("error sending request to endpoint " +:+ sel_Addr sel +:+ ": ") (join_errors errSendHTTPRelay_error ": " e)) <$> err,
   set_http s h).

Definition sendFallbackRelay cfg sel s w (p : relay_payload) : relay_response * option error * relay_ctx St C :=
  let addr := sel_Addr sel in
  let url := prepareURLFromPayload (endpoint_GetURL (sel_endpoint sel) (pl_RPCType (rp_payload p))) (rp_payload p) in
  let '(body, status, err, s) := sendHTTPRequest cfg sel s w p url (pl_Data (rp_payload p)) in
  match err with
  | Some e => (response_at addr, Some e, s)
  | None => (body_response addr body status, if negb (status =? 200) then Some (non200_error status) else None, s)
  end.

Definition validateEndpointAndSession cfg sel : result error string :=
  match fs_Application (endpoint_Session sel) with
  | None => Err (plain_error ("sendRelay: nil app on session " +:+ fs_SessionId (endpoint_Session sel) +:+ " for service " +:+ rq_serviceID cfg))
  | Some app => Ok app
  end.

Definition buildUnsignedRelayRequest sel w (p : Payload) : option error :=
  let url := prepareURLFromPayload (PublicURL (sel_endpoint sel)) p in
  match w_newRequest w url with
  | Some e => Some (wrap_error ("error building a JSONRPC HTTP request for url " +:+ url +:+ ": shannonJsonRpcHttpRequest: failed to create a new HTTP request for url " +:+ url +:+ ": ") e)
  | None =>
      (fun e => wrap_error ("error embedding a JSONRPC HTTP request for url " +:+ PublicURL (sel_endpoint sel) +:+ ": ") e) <$> w_embed w
  end.

Definition signRelayRequest sel w : option error :=
  match fs_Header (endpoint_Session sel) with
  | None => Some (plain_error "signRelayRequest: relay request is missing session header")
  | Some h =>
      match w_validHeader w h with
      | Some e => Some (wrap_error "signRelayRequest: relay request session header is invalid: " e)
      | None => w_sign w
      end
  end.

Definition buildAndSignRelayRequest sel w (p : Payload) (app : string) : option error :=
  match buildUnsignedRelayRequest sel w p with
  | Some e => Some e
  | None => wrap_error ("sendRelay: error signing the relay request for app " +:+ app +:+ ": ") <$> signRelayRequest sel w
  end.

(** The types tried when the endpoint has no URL for the requested one. *)
Definition fallbackTypes : list Z := [RPCType_JSON_RPC; RPCType_REST; RPCType_COMET_BFT; RPCType_GRPC].

(** The URL the relay goes to, and the RPC type it is then accounted to. *)
Definition target_url cfg sel s : string * Z :=
  let current := rx_currentRPCType s in
  match rq_loadTesting cfg with
  | Some lt => (default (lt_RelayMinerURL lt) (lt_BackendServiceURL lt), current)
  | None =>
      let url := endpoint_GetURL (sel_endpoint sel) current in
      if negb (url =? "")%string then (url, current)
      else match List.find (fun t => negb (endpoint_GetURL (sel_endpoint sel) t =? "")%string) fallbackTypes with
           | Some t => (endpoint_GetURL (sel_endpoint sel) t, t)
           | None => ("", current)
           end
  end.

Definition trackRelayMinerError s (resp : option RelayResponse) : relay_ctx St C :=
  match resp ≫= rsp_RelayMinerError with
  | None => s
  | Some e => set_minerError s (Some e)
  end.

Definition retryValidationWithCacheInvalidation sel s w (bz : string) (isNilPubkey : bool)
  : option RelayResponse * relay_ctx St C :=
  let supplier := Supplier sel in
  match rx_fetcher s with
  | None => (None, s)
  | Some f =>
      if isNilPubkey && negb (ShouldRetryNilPubkey f (w_end w) supplier) then (None, s)
      else
        let f := InvalidateCache f (w_end w) supplier in
        match w_validate w true bz with
        | Ok resp => (Some resp, set_fetcher s (Some f))
        | Err (e, _) =>
            let f := if isNilPubkey && errors_Is e ErrRelayResponseValidationNilSupplierPubKey
                     then TrackNilPubkey f (w_end w) supplier else f in
            (None, set_fetcher s (Some f))
        end
  end.

(** The error of a response that did not validate. *)
Definition validation_failure sel (bz : string) (e : error) : error :=
  if errors_Is e ErrRelayResponseValidationUnmarshal || errors_Is e ErrRelayResponseValidationBasicValidation
  then wrap_error ("raw_payload: " +:+ bz +:+ ": ") errMalformedEndpointPayload_error
  else wrap_error ("relay: error verifying the relay response for app " +:+ default "" (fs_Application (endpoint_Session sel))
                   +:+ ", endpoint " +:+ PublicURL (sel_endpoint sel) +:+ ": ") e.

Definition validateAndProcessResponse cfg sel s w (bz : string) : result error RelayResponse * relay_ctx St C :=
  match w_validate w false bz with
  | Ok resp => (Ok resp, trackRelayMinerError s (Some resp))
  | Err (e, parsed) =>
      let s := trackRelayMinerError s parsed in
      match isSupplierValidationError (Some e), rx_blacklist s with
      | true, Some b =>
          let '(retried, s) :=
            if isPubkeyRelatedError (Some e)
            then retryValidationWithCacheInvalidation sel s w bz (errors_Is e ErrRelayResponseValidationNilSupplierPubKey)
            else (None, s) in
          match retried with
          | Some resp => (Ok resp, s)
          | None => (Err (validation_failure sel bz e),
                     set_blacklist s (Some (Blacklist b (w_end w) (rq_serviceID cfg) (Supplier sel) (err_text e))))
          end
      | _, _ => (Err (validation_failure sel bz e), s)
      end
  end.

(** The analysis of a validated response, and the relay's metadata on it. *)
Definition process_response sel s w (p : Payload) (resp : RelayResponse) : relay_response * option error :=
  let addr := sel_Addr sel in
  match w_deserialize w (rsp_Payload resp) with
  | Err e => (response_at addr, Some (wrap_error "error deserializing endpoint into a POKTHTTP response: " e))
  | Ok (body, status) =>
      let session := endpoint_Session sel in
      let full := mkResponse body status addr
                    (mkRelayMetadata (default "" (fs_Application session)) (Supplier sel) (fs_SessionId session)) "" in
      let bytes := default "" body in
      let method := payload_method p in
      let verdict := Analyze Heuristic.DefaultConfig bytes status (rx_heuristicRPCType s) method in
      if (200 <=? status) && (status <? 300) && ShouldRetry verdict
      then (body_response addr body status,
            Some (wrap_error ("raw_payload: " +:+ bytes +:+ ": heuristic detected " +:+ Reason verdict +:+ " (method=" +:+ method +:+ "): ")
                    errHeuristicDetectedBackendError_error))
      else (full, None)
  end.

Definition sendProtocolRelay cfg sel s w (p : relay_payload) : relay_response * option error * relay_ctx St C :=
  let addr := sel_Addr sel in
  if ep_fallback (sel_endpoint sel) then sendFallbackRelay cfg sel s w p
  else match validateEndpointAndSession cfg sel with
  | Err e => (response_at addr, Some e, s)
  | Ok app =>
  match buildAndSignRelayRequest sel w (rp_payload p) app with
  | Some e => (response_at addr, Some e, s)
  | None =>
  match w_marshal w with
  | Err e => (response_at addr, Some (wrap_error "SHOULD NEVER HAPPEN: failed to marshal relay request: " e), s)
  | Ok bz =>
      let '(url, rpcType) := target_url cfg sel s in
      let s := set_types s rpcType (rx_heuristicRPCType s) in
      let '(body, status, err, s) := sendHTTPRequest cfg sel s w p url bz in
      match err with
      | Some e => (response_at addr, Some e, s)
      | None =>
          if negb (status =? 200) then (body_response addr body status, Some (non200_error status), s)
          else match rq_loadTesting cfg ≫= lt_BackendServiceURL with
               | Some _ => (body_response "" body status, None, s)
               | None =>
                   match validateAndProcessResponse cfg sel s w (default "" body) with
                   | (Err e, s) => (response_at addr, Some e, s)
                   | (Ok resp, s) => let '(r, e) := process_response sel s w (rp_payload p) resp in (r, e, s)
                   end
               end
      end
  end end end.

Definition executeRelayRequestStrategy cfg sel s w (p : relay_payload) : relay_response * option error * relay_ctx St C :=
  match rq_loadTesting cfg with
  | Some _ => sendProtocolRelay cfg sel s w p
  | None => if ep_fallback (sel_endpoint sel) then sendFallbackRelay cfg sel s w p else sendProtocolRelay cfg sel s w p
  end.

(** ** What a relay says about its endpoint *)

(** The structured rejection, or the phrases of the text. *)
Definition over_serviced s (e : error) : bool :=
  match rx_relayMinerError s with
  | Some me => IsOverServicedRelayMinerError (me_Codespace me) (me_Code me) || IsOverServicedError (err_text e)
  | None => IsOverServicedError (err_text e)
  end.

Definition with_health_check (sig : Signal) (b : bool) : Signal :=
  mkSignal (sig_Type sig) (sig_Timestamp sig) (sig_Latency sig) (sig_Reason sig) b (sig_IsProtocolViolation sig) (sig_Metadata sig).

(** The key the signals of the request go to. *)
Definition endpoint_key cfg sel (r : service St) (rpcType : Z) : EndpointKey :=
  BuildKey (KeyBuilderForService r (rq_serviceID cfg)) (rq_serviceID cfg) (sel_Addr sel) rpcType.

Definition metric_domain sel : string :=
  match extractDomainOrHost (sel_Addr sel) with Ok d => d | Err _ => ErrDomain end.

Definition record_relay cfg sel s (status signal relayType : string) (latency : Duration) : relay_ctx St C :=
  if rq_isHealthCheck cfg then s
  else add_relay_metric s
         (mkRelayMetric (metric_domain sel) (NormalizeRPCType (rpc_String (rx_currentRPCType s))) (rq_serviceID cfg) status signal relayType latency).

(** The supplier's tuple is set aside for the session when it refused to be over-serviced. *)
Definition note_over_serviced cfg sel s w (e : error) : relay_ctx St C :=
  if over_serviced s e
  then set_exhaustion s (Mark (rx_exhaustion s) (w_end w) (rq_serviceID cfg) (fs_SessionId (endpoint_Session sel)) (Supplier sel))
  else s.

Definition supplier_blacklisted cfg sel s w : bool :=
  match rx_blacklist s with
  | Some b => IsBlacklisted b (w_end w) (rq_serviceID cfg) (Supplier sel)
  | None => false
  end.

Definition record_error_signal cfg sel s w (sig : Signal) : relay_ctx St C :=
  match rx_reputation s with
  | Some r =>
      if supplier_blacklisted cfg sel s w then s
      else set_reputation s
             (Some (RecordSignal r (w_end w) (endpoint_key cfg sel r (rx_currentRPCType s)) (with_health_check sig (rq_isHealthCheck cfg))))
  | None => s
  end.

Definition error_relay_type cfg : string :=
  if rq_isHedge cfg then RelayTypeHedge else if rq_isRetry cfg then RelayTypeRetry else RelayTypeNormal.

Definition with_endpoint (r : relay_response) (addr : EndpointAddr) : relay_response :=
  mkResponse (rr_Bytes r) (rr_HTTPStatusCode r) addr (rr_Metadata r) (rr_RequestID r).

Definition handleEndpointError cfg sel s w (original : relay_response) (e : error)
  : relay_response * error * relay_ctx St C :=
  let s := note_over_serviced cfg sel s w e in
  let latency := time_sub (w_end w) (w_start w) in
  let '(errorType, signal) := classifyErrorAsSignal (w_end w) (Some e) latency in
  let s := recordEndpointObservation cfg s
             (buildEndpointObservation sel None (rx_currentRPCType s) (w_start w) (w_end w)
                (Some (errorType, "relay error: " +:+ err_text e)) (rx_relayMinerError s)) in
  let s := record_error_signal cfg sel s w signal in
  let status := match extractHTTPStatusCode e with Some c => GetStatusCodeCategory c | None => StatusCategoryError end in
  let s := record_relay cfg sel s status (mapSignalTypeToMetricSignal (sig_Type signal)) (error_relay_type cfg) latency in
  (with_endpoint original (sel_Addr sel),
   wrap_error ("relay: error sending relay for service " +:+ rq_serviceID cfg +:+ " endpoint " +:+ sel_Addr sel +:+ ": ") e, s).

Definition in_probation cfg (key : EndpointKey) : bool :=
  match rq_tieredSelector cfg with
  | Some ts => pb_Enabled (ts_Probation (tsel_config ts)) && IsInProbation ts key
  | None => false
  end.

(** The signal of an answered relay, its metric label and the relay's kind. *)
Definition success_signal cfg (key : EndpointKey) (status : Z) (now : Time) (latency : Duration) : Signal * string * string :=
  if 500 <=? status then (NewCriticalErrorSignal now "backend_5xx" latency, "critical_error", RelayTypeNormal)
  else if rq_isHedge cfg then (NewSuccessSignal now latency, SignalOK, RelayTypeHedge)
  else if in_probation cfg key then (NewRecoverySuccessSignal now latency, SignalOK, RelayTypeProbation)
  else (NewSuccessSignal now latency, SignalOK, RelayTypeNormal).

Definition recordLatencyPenaltySignalsIfNeeded cfg (r : service St) (now : Time) (key : EndpointKey) (latency : Duration) : service St :=
  match ClassifyLatency latency (GetLatencyConfigForService r (rq_serviceID cfg)) with
  | Some SignalTypeSlowResponse => RecordSignal r now key (with_health_check (NewSlowResponseSignal now latency) (rq_isHealthCheck cfg))
  | Some SignalTypeVerySlowResponse => RecordSignal r now key (with_health_check (NewVerySlowResponseSignal now latency) (rq_isHealthCheck cfg))
  | _ => r
  end.

Definition handleEndpointSuccess cfg sel s w (resp : relay_response) : relay_ctx St C :=
  let status := rr_HTTPStatusCode resp in
  let latency := time_sub (w_end w) (w_start w) in
  let s := recordEndpointObservation cfg s
             (buildEndpointObservation sel (Some resp) (rx_currentRPCType s) (w_start w) (w_end w) None (rx_relayMinerError s)) in
  let '(s, label, relayType) :=
    match rx_reputation s with
    | Some r =>
        let key := endpoint_key cfg sel r (rx_currentRPCType s) in
        let '(signal, label, relayType) := success_signal cfg key status (w_end w) latency in
        let r := RecordSignal r (w_end w) key (with_health_check signal (rq_isHealthCheck cfg)) in
        let r := if negb (500 <=? status) && negb (rq_isHedge cfg)
                 then recordLatencyPenaltySignalsIfNeeded cfg r (w_end w) key latency else r in
        (set_reputation s (Some r), label, relayType)
    | None => (s, if 500 <=? status then "critical_error" else SignalOK,
               if rq_isHedge cfg then RelayTypeHedge else RelayTypeNormal)
    end in
  let relayType := if rq_isRetry cfg && (relayType =? RelayTypeNormal)%string then RelayTypeRetry else relayType in
  record_relay cfg sel s (GetStatusCodeCategory status) label relayType latency.

(** ** One relay, and a request *)

Definition sendSingleRelay cfg sel s w (p : relay_payload) : relay_response * option error * relay_ctx St C :=
  let '(resp, err, s) := executeRelayRequestStrategy cfg sel s w p in
  match err with
  | Some e => let '(resp, e, s) := handleEndpointError cfg sel s w resp e in (resp, Some e, s)
  | None => (resp, None, handleEndpointSuccess cfg sel s w resp)
  end.

(** The tasks of a batch in the order they run; each writes the result of its own index. *)
Fixpoint run_tasks cfg sel s (items : list relay_item) (order : list nat) (results : list relay_result)
  : list relay_result * relay_ctx St C :=
  match order with
  | [] => (results, s)
  | i :: order =>
      match items !! i with
      | Some (p, w) =>
          let '(resp, err, s) := sendSingleRelay cfg sel s w p in
          run_tasks cfg sel s items order (<[i := (resp, err)]> results)
      | None => run_tasks cfg sel s items order results
      end
  end.

Fixpoint findFirstError (results : list relay_result) : option error :=
  match results with
  | [] => None
  | (_, Some e) :: _ => Some e
  | (_, None) :: rest => findFirstError rest
  end.

Definition request_id (p : relay_payload) : string := extractJSONRPCRequestID (pl_Data (rp_payload p)).

(** The response of an index, with the request ID of the payload of that index. *)
Definition labelled (payloads : list relay_payload) (i : nat) (r : relay_result) : relay_response :=
  match payloads !! i with Some p => with_request_id r.1 (request_id p) | None => r.1 end.

Definition convertResultsToResponses s (results : list relay_result) (payloads : list relay_payload) (firstErr : option error)
  : list relay_response * option error * relay_ctx St C :=
  match results with
  | [] => let '(resp, e, s) := handleInternalError s "convertResultsToResponses: no results to convert" in ([resp], Some e, s)
  | _ => (imap (labelled payloads) results, firstErr, s)
  end.

(** [waited]: the error of the task group, if waiting for it failed. *)
Definition handleParallelRelayRequests cfg sel s (items : list relay_item) (order : list nat) (waited : option error)
  : list relay_response * option error * relay_ctx St C :=
  let '(results, s) := run_tasks cfg sel s items order (replicate (List.length items) (zero_response, None)) in
  match waited with
  | Some e => ([], Some e, s)
  | None => convertResultsToResponses s results (items.*1) (findFirstError results)
  end.

(** The batch limit of the service, and the configuration left behind by reading it. *)
Definition max_batch_payloads cfg (c : option UnifiedServicesConfig) : Z * option UnifiedServicesConfig :=
  match c with
  | None => (rq_MaxBatchPayloads cfg, None)
  | Some c =>
      let '(merged, c') := GetMergedServiceConfig c (rq_serviceID cfg) in
      (default (rq_MaxBatchPayloads cfg) (merged ≫= (fun m => svc_ConcurrencyConfig m ≫= scc_MaxBatchPayloads)), Some c')
  end.

Definition HandleServiceRequest cfg s (items : list relay_item) (order : list nat) (waited : option error)
  : list relay_response * option error * relay_ctx St C :=
  let internal s msg := let '(resp, e, s) := handleInternalError s msg in ([resp], Some e, s) in
  match rq_selectedEndpoint cfg with
  | None => internal s ("HandleServiceRequest: no endpoint has been selected on service " +:+ rq_serviceID cfg)
  | Some sel =>
      match items with
      | [] => internal s ("HandleServiceRequest: no payloads provided for service " +:+ rq_serviceID cfg)
      | (p0, w0) :: rest =>
          let t := pl_RPCType (rp_payload p0) in
          let s := if negb (t =? RPCType_UNKNOWN_RPC) then set_types s t (EffectiveRPCType (rp_payload p0)) else s in
          match rest with
          | [] =>
              let '(resp, err, s) := sendSingleRelay cfg sel s w0 p0 in
              ([with_request_id resp (request_id p0)], err, s)
          | _ =>
              let '(limit, services) := max_batch_payloads cfg (rx_services s) in
              let s := set_config s services in
              let n := Z.of_nat (List.length items) in
              if limit <? n
              then internal s ("HandleServiceRequest: batch of payloads larger than allowed: " +:+ fmt_int limit +:+ ", received: " +:+ fmt_int n +:+ " ")
              else handleParallelRelayRequests cfg sel s items order waited
          end
      end
  end.

(** [GetObservations]: the service, the internal error and the observations so far. *)
Definition GetObservations cfg s : string * option string * list EndpointObservation :=
  (rq_serviceID cfg, rx_requestError s, rx_observations s).
End Context.
