(* ===== verification/ShannonRelayProps.v ===== *)
(** * What a Shannon request context guarantees

    Theorems about ShannonRelay.v: which signals a relay records and for whom, what a supplier's
    own fault costs, what becomes of a rejected relay's body, how the responses of a batch line up
    with its payloads, and how many observations survive. *)

From S2P Require Import Prelude GoStrings Utf8 Float64 Domain RepKey Signals Score RepConfig RepStorage RPCTypes Json Heuristic RelayPolicy ErrorClass PoolGuards ShannonPool TieredSelector RelayTransport ServiceConfig ServiceConfigProps RepService ShannonRelay.
From Stdlib Require Import ZArith Lia Bool Ascii String.
From stdpp Require Import base gmap strings list.

Open Scope string_scope.
Open Scope Z_scope.

Section Props.
Context {St C : Type} `{RPCTypeEnum} `{!Storage St} `{!AccountCache C}.
Context `{UnicodeCase} `{RPCTypeMembers} `{DomainLib}.
Variable RPCTypeHeader : string.
Implicit Types (s : relay_ctx St C) (w : relay_world) (cfg : request_config) (sel : selected) (p : relay_payload).

(** ** Sending leaves the accounts alone *)

(** What sending may not touch: everything but the types, the miner's error, the blacklist, the
    fetcher and the HTTP counters. *)
Record kept s s' : Prop := mkKept {
  k_requestError : rx_requestError s' = rx_requestError s;
  k_observations : rx_observations s' = rx_observations s;
  k_services : rx_services s' = rx_services s;
  k_reputation : rx_reputation s' = rx_reputation s;
  k_exhaustion : rx_exhaustion s' = rx_exhaustion s;
  k_relays : rx_relays s' = rx_relays s;
}.

Lemma kept_refl s : kept s s.
Proof. done. Qed.

Lemma kept_trans s1 s2 s3 : kept s1 s2 -> kept s2 s3 -> kept s1 s3.
Proof. intros [] []. split; congruence. Qed.

Lemma kept_track s r : kept s (trackRelayMinerError s r).
Proof. unfold trackRelayMinerError. by destruct (r ≫= rsp_RelayMinerError). Qed.

Lemma kept_retry sel s w bz b : kept s (retryValidationWithCacheInvalidation sel s w bz b).2.
Proof.
  unfold retryValidationWithCacheInvalidation. destruct (rx_fetcher s) as [f|]; [|done].
  destruct (b && _); [done|]. by destruct (w_validate w true bz) as [|[]].
Qed.

Lemma kept_validate cfg sel s w bz : kept s (validateAndProcessResponse cfg sel s w bz).2.
Proof.
  unfold validateAndProcessResponse. destruct (w_validate w false bz) as [r|[e parsed]]; [apply kept_track|].
  pose proof (kept_track s parsed) as Ht. set (s1 := trackRelayMinerError s parsed) in *. clearbody s1.
  destruct (isSupplierValidationError (Some e)); [|exact Ht]. destruct (rx_blacklist s1) as [b|]; [|exact Ht].
  destruct (isPubkeyRelatedError (Some e)); [|by apply (kept_trans s s1)].
  pose proof (kept_retry sel s1 w bz (errors_Is e ErrRelayResponseValidationNilSupplierPubKey)) as Hr.
  destruct (retryValidationWithCacheInvalidation _ _ _ _ _) as [[r|] s2]; [exact (kept_trans _ _ _ Ht Hr)|].
  by apply (kept_trans s s2); [exact (kept_trans _ _ _ Ht Hr)|].
Qed.

Lemma kept_http cfg sel s w p url data : kept s (sendHTTPRequest RPCTypeHeader cfg sel s w p url data).2.
Proof. unfold sendHTTPRequest. by destruct (SendHTTPRelay _ _) as [[[body status] err] h]. Qed.

Lemma kept_fallback cfg sel s w p : kept s (sendFallbackRelay RPCTypeHeader cfg sel s w p).2.
Proof.
  unfold sendFallbackRelay.
  match goal with |- context[sendHTTPRequest ?h ?c ?a ?b ?d ?p ?u ?z] => pose proof (kept_http c a b d p u z) as Hk;
    destruct (sendHTTPRequest h c a b d p u z) as [[[body status] [e|]] s1] end; done.
Qed.

Lemma kept_protocol cfg sel s w p : kept s (sendProtocolRelay RPCTypeHeader cfg sel s w p).2.
Proof.
  unfold sendProtocolRelay. destruct (ep_fallback (sel_endpoint sel)); [apply kept_fallback|].
  destruct (validateEndpointAndSession cfg sel) as [app|]; [|done].
  destruct (buildAndSignRelayRequest sel w (rp_payload p) app); [done|]. destruct (w_marshal w) as [bz|]; [|done].
  destruct (target_url cfg sel s) as [url t].
  match goal with |- context[sendHTTPRequest ?h ?c ?a ?b ?d ?p ?u ?z] => pose proof (kept_http c a b d p u z) as Hk;
    destruct (sendHTTPRequest h c a b d p u z) as [[[body status] err] s1] end.
  assert (kept s s1) as Hs by (destruct Hk; by split). clear Hk. destruct err as [e|]; [exact Hs|]. destruct (negb (status =? 200)); [exact Hs|].
  destruct (rq_loadTesting cfg ≫= lt_BackendServiceURL); [exact Hs|].
  pose proof (kept_validate cfg sel s1 w (default "" body)) as Hv.
  destruct (validateAndProcessResponse cfg sel s1 w (default "" body)) as [[r|e] s2]; [|exact (kept_trans _ _ _ Hs Hv)].
  destruct (process_response sel s2 w (rp_payload p) r). exact (kept_trans _ _ _ Hs Hv).
Qed.

Lemma kept_strategy cfg sel s w p : kept s (executeRelayRequestStrategy RPCTypeHeader cfg sel s w p).2.
Proof.
  unfold executeRelayRequestStrategy. destruct (rq_loadTesting cfg); [apply kept_protocol|].
  destruct (ep_fallback (sel_endpoint sel)); [apply kept_fallback | apply kept_protocol].
Qed.

(** ** The accounts of one relay *)

Definition latency_of w : Duration := time_sub (w_end w) (w_start w).

(** The observations after one more, under the cap. *)
Definition capped_snoc (cap : Z) {A} (l : list A) (x : A) : list A :=
  if (0 <? cap) && (cap <=? Z.of_nat (List.length l)) then l else l ++ [x].

Lemma record_observation_fields cfg s obs :
  rx_observations (recordEndpointObservation cfg s obs) = capped_snoc (rq_MaxBatchPayloads cfg) (rx_observations s) obs /\
  rx_reputation (recordEndpointObservation cfg s obs) = rx_reputation s /\
  rx_blacklist (recordEndpointObservation cfg s obs) = rx_blacklist s /\
  rx_currentRPCType (recordEndpointObservation cfg s obs) = rx_currentRPCType s /\
  rx_exhaustion (recordEndpointObservation cfg s obs) = rx_exhaustion s.
Proof. unfold recordEndpointObservation, capped_snoc. by destruct ((0 <? rq_MaxBatchPayloads cfg) && (rq_MaxBatchPayloads cfg <=? Z.of_nat (List.length (rx_observations s)))). Qed.

Lemma record_relay_fields cfg sel s a b c d :
  rx_observations (record_relay cfg sel s a b c d) = rx_observations s /\
  rx_reputation (record_relay cfg sel s a b c d) = rx_reputation s /\
  rx_blacklist (record_relay cfg sel s a b c d) = rx_blacklist s /\
  rx_exhaustion (record_relay cfg sel s a b c d) = rx_exhaustion s.
Proof. unfold record_relay. by destruct (rq_isHealthCheck cfg). Qed.

Lemma record_error_signal_fields cfg sel s w sig :
  rx_observations (record_error_signal cfg sel s w sig) = rx_observations s /\
  rx_blacklist (record_error_signal cfg sel s w sig) = rx_blacklist s /\
  rx_exhaustion (record_error_signal cfg sel s w sig) = rx_exhaustion s /\
  rx_reputation (record_error_signal cfg sel s w sig) =
    (fun r => if supplier_blacklisted cfg sel s w then r
              else RecordSignal r (w_end w) (endpoint_key cfg sel r (rx_currentRPCType s)) (with_health_check sig (rq_isHealthCheck cfg)))
      <$> rx_reputation s.
Proof. 
  unfold record_error_signal. destruct (rx_reputation s) eqn:Hr; [|by rewrite Hr].
  destruct (supplier_blacklisted cfg sel s w); cbn; by rewrite ?Hr.
 Qed.

Lemma note_over_serviced_fields cfg sel s w e :
  rx_observations (note_over_serviced cfg sel s w e) = rx_observations s /\
  rx_reputation (note_over_serviced cfg sel s w e) = rx_reputation s /\
  rx_blacklist (note_over_serviced cfg sel s w e) = rx_blacklist s /\
  rx_currentRPCType (note_over_serviced cfg sel s w e) = rx_currentRPCType s /\
  rx_relayMinerError (note_over_serviced cfg sel s w e) = rx_relayMinerError s.
Proof. unfold note_over_serviced. by destruct (over_serviced s e). Qed.

Lemma blacklisted_ext cfg sel s s' w : rx_blacklist s' = rx_blacklist s -> supplier_blacklisted cfg sel s' w = supplier_blacklisted cfg sel s w.
Proof. unfold supplier_blacklisted. by intros ->. Qed.

(** What a failed relay leaves behind. *)
Lemma handleEndpointError_fields cfg sel s w o e :
  let sig := (classifyErrorAsSignal (w_end w) (Some e) (latency_of w)).2 in
  let s' := (handleEndpointError cfg sel s w o e).2 in
  rx_reputation s' =
    (fun r => if supplier_blacklisted cfg sel s w then r
              else RecordSignal r (w_end w) (endpoint_key cfg sel r (rx_currentRPCType s)) (with_health_check sig (rq_isHealthCheck cfg)))
      <$> rx_reputation s /\
  rx_blacklist s' = rx_blacklist s /\
  rx_exhaustion s' = rx_exhaustion (note_over_serviced cfg sel s w e) /\
  exists obs, rx_observations s' = capped_snoc (rq_MaxBatchPayloads cfg) (rx_observations s) obs /\
              eo_RelayMinerError obs = rx_relayMinerError s.
Proof.
  cbn zeta. unfold handleEndpointError. fold (latency_of w).
  destruct (note_over_serviced_fields cfg sel s w e) as (Ho & Hr & Hb & Hc & Hm). set (s1 := note_over_serviced cfg sel s w e) in *. clearbody s1.
  destruct (classifyErrorAsSignal (w_end w) (Some e) (latency_of w)) as [ty sig]. cbn [snd].
  match goal with |- context[recordEndpointObservation cfg s1 ?o] => set (obs := o);
    destruct (record_observation_fields cfg s1 obs) as (Ho2 & Hr2 & Hb2 & Hc2 & Hx2); set (s2 := recordEndpointObservation cfg s1 obs) in * end.
  clearbody s2. destruct (record_error_signal_fields cfg sel s2 w sig) as (Ho3 & Hb3 & Hx3 & Hr3).
  set (s3 := record_error_signal cfg sel s2 w sig) in *. clearbody s3. cbn [snd].
  match goal with |- context[record_relay cfg sel s3 ?a ?b ?c ?d] => destruct (record_relay_fields cfg sel s3 a b c d) as (Ho4 & Hr4 & Hb4 & Hx4) end.
  rewrite Hr4, Hr3, Hr2, Hr, Hc2, Hc, (blacklisted_ext cfg sel s s2) by congruence.
  split; [done|]. split; [congruence|]. split; [congruence|]. exists obs. split; [congruence|]. cbn. unfold buildEndpointObservation. cbn. exact Hm.
Qed.

(** What an answered relay leaves behind. *)
Lemma handleEndpointSuccess_fields cfg sel s w resp :
  let s' := handleEndpointSuccess cfg sel s w resp in
  let status := rr_HTTPStatusCode resp in
  rx_reputation s' =
    (fun r =>
       let key := endpoint_key cfg sel r (rx_currentRPCType s) in
       let r1 := RecordSignal r (w_end w) key
                   (with_health_check (success_signal cfg key status (w_end w) (latency_of w)).1.1 (rq_isHealthCheck cfg)) in
       if negb (500 <=? status) && negb (rq_isHedge cfg)
       then recordLatencyPenaltySignalsIfNeeded cfg r1 (w_end w) key (latency_of w) else r1)
      <$> rx_reputation s /\
  rx_exhaustion s' = rx_exhaustion s /\
  exists obs, rx_observations s' = capped_snoc (rq_MaxBatchPayloads cfg) (rx_observations s) obs /\
              eo_RelayMinerError obs = rx_relayMinerError s.
Proof.
  cbn zeta. unfold handleEndpointSuccess. fold (latency_of w).
  match goal with |- context[recordEndpointObservation cfg s ?o] => set (obs := o);
    destruct (record_observation_fields cfg s obs) as (Ho & Hr & Hb & Hc & Hx); set (s2 := recordEndpointObservation cfg s obs) in * end.
  clearbody s2. rewrite Hc, <-Hr. destruct (rx_reputation s2) as [r|] eqn:Hr2.
  - cbn [fmap option_fmap option_map]. destruct (success_signal cfg _ _ _ _) as [[sig label] ty]. cbn [fst].
    match goal with |- context[record_relay cfg sel ?x ?a ?b ?c ?d] => destruct (record_relay_fields cfg sel x a b c d) as (Ho4 & Hr4 & Hb4 & Hx4) end.
    rewrite Hr4, Hx4, Ho4. split; [by rewrite ?Hr2|]. split; [done|]. by exists obs.
  - match goal with |- context[record_relay cfg sel ?x ?a ?b ?c ?d] => destruct (record_relay_fields cfg sel x a b c d) as (Ho4 & Hr4 & Hb4 & Hx4) end.
    rewrite Hr4, Hx4, Ho4. split; [by rewrite ?Hr2|]. split; [done|]. by exists obs.
Qed.

(** ** Signals *)

Definition replay (r : service St) (now : Time) (key : EndpointKey) (sigs : list Signal) : service St :=
  fold_left (fun r sig => RecordSignal r now key sig) sigs r.

Lemma latency_penalty_replay cfg r now key latency :
  exists rest, recordLatencyPenaltySignalsIfNeeded cfg r now key latency = replay r now key rest /\
    (rest = [] \/ exists g, rest = [g] /\ sig_IsHealthCheck g = rq_isHealthCheck cfg /\
                            sig_Type g ∈ [SignalTypeSlowResponse; SignalTypeVerySlowResponse]).
Proof.
  unfold recordLatencyPenaltySignalsIfNeeded.
  destruct (ClassifyLatency latency _) as [[]|]; try (exists []; split; [done | by left]);
    (eexists [_]; split; [reflexivity | right; eexists; split; [reflexivity | split; [done | set_solver]]]).
Qed.

Lemma success_signal_type cfg key status now latency :
  let sig := (success_signal cfg key status now latency).1.1 in
  if 500 <=? status then sig_Type sig = SignalTypeCriticalError
  else sig_Type sig ∈ [SignalTypeSuccess; SignalTypeRecoverySuccess].
Proof.
  unfold success_signal. destruct (500 <=? status); [done|]. destruct (rq_isHedge cfg); [set_solver|].
  destruct (in_probation cfg key); set_solver.
Qed.

(** C10: a relay moves the scores by the signals of one key and no others: none when it failed and
    its supplier is blacklisted, one when it failed otherwise, and when it was answered one
    success (a critical error for a 5xx) followed by at most one latency penalty, never for a
    hedge; all of them carry the request's health-check mark. *)
Theorem relay_signals cfg sel s w p r resp err s' :
  sendSingleRelay RPCTypeHeader cfg sel s w p = (resp, err, s') -> rx_reputation s = Some r ->
  exists key sigs, rx_reputation s' = Some (replay r (w_end w) key sigs) /\
    Forall (fun g => sig_IsHealthCheck g = rq_isHealthCheck cfg) sigs /\
    match err with
    | Some _ => if supplier_blacklisted cfg sel s' w then sigs = [] else exists g, sigs = [g]
    | None =>
        exists g rest, sigs = g :: rest /\
          (if 500 <=? rr_HTTPStatusCode resp then sig_Type g = SignalTypeCriticalError
           else sig_Type g ∈ [SignalTypeSuccess; SignalTypeRecoverySuccess]) /\
          (rest = [] \/ exists h, rest = [h] /\ sig_Type h ∈ [SignalTypeSlowResponse; SignalTypeVerySlowResponse] /\
                                  rr_HTTPStatusCode resp < 500 /\ rq_isHedge cfg = false)
    end.
Proof.
  intros Hs Hr. unfold sendSingleRelay in Hs. pose proof (k_reputation _ _ (kept_strategy cfg sel s w p)) as Hk.
  destruct (executeRelayRequestStrategy RPCTypeHeader cfg sel s w p) as [[resp1 [e|]] s1]; cbn in Hk.
  - pose proof (handleEndpointError_fields cfg sel s1 w resp1 e) as (Hrep & Hbl & _). revert Hs Hrep Hbl.
    destruct (handleEndpointError cfg sel s1 w resp1 e) as [[resp2 e2] s2]. cbn [snd]. intros [= <- <- <-] Hrep Hbl.
    rewrite (blacklisted_ext cfg sel s1 s2) by done. rewrite Hrep, Hk, Hr; cbn.
    exists (endpoint_key cfg sel r (rx_currentRPCType s1)). destruct (supplier_blacklisted cfg sel s1 w).
    + exists []. by repeat constructor.
    + eexists [_]. split; [reflexivity|]. split; [by repeat constructor|]. by eexists.
  - injection Hs as <- <- <-. pose proof (handleEndpointSuccess_fields cfg sel s1 w resp1) as (Hrep & _).
    rewrite Hrep, Hk, Hr; cbn [fmap option_fmap option_map].
    set (key := endpoint_key cfg sel r (rx_currentRPCType s1)). exists key.
    pose proof (success_signal_type cfg key (rr_HTTPStatusCode resp1) (w_end w) (latency_of w)) as Hty.
    set (g := (success_signal cfg key (rr_HTTPStatusCode resp1) (w_end w) (latency_of w)).1.1) in *. clearbody g. cbn zeta in Hty |- *.
    destruct (negb (500 <=? rr_HTTPStatusCode resp1) && negb (rq_isHedge cfg)) eqn:E.
    + apply andb_true_iff in E as [E1%negb_true_iff E2%negb_true_iff].
      destruct (latency_penalty_replay cfg (RecordSignal r (w_end w) key (with_health_check g (rq_isHealthCheck cfg))) (w_end w) key (latency_of w)) as (rest & -> & Hrest).
      exists (with_health_check g (rq_isHealthCheck cfg) :: rest). split; [done|]. split.
      * destruct Hrest as [->|(h & -> & ? & ?)]; by repeat constructor.
      * eexists _, rest. split; [done|]. split; [exact Hty|]. destruct Hrest as [->|(h & -> & _ & ?)]; [by left|]. right. exists h. repeat split; try done; lia.
    + exists [with_health_check g (rq_isHealthCheck cfg)]. split; [done|]. split; [by repeat constructor|].
      eexists _, []. split; [done|]. split; [exact Hty | by left].
Qed.

(** ** A supplier's own fault *)

(** The relay can be built, signed and serialised. *)
Definition prepared cfg sel w p : Prop :=
  exists app bz, validateEndpointAndSession cfg sel = Ok app /\
    buildAndSignRelayRequest sel w (rp_payload p) app = None /\ w_marshal w = Ok bz.

Definition answers w (o : http_outcome) : Prop := forall timeout url method data headers, w_http w timeout url method data headers = o.

(** A 200 from the relay miner is validated. *)
Lemma sendProtocolRelay_validates cfg sel s w p body :
  ep_fallback (sel_endpoint sel) = false -> rq_loadTesting cfg = None -> prepared cfg sel w p -> answers w (Replied 200 body) ->
  exists s1, kept s s1 /\ rx_blacklist s1 = rx_blacklist s /\ rx_fetcher s1 = rx_fetcher s /\ rx_relayMinerError s1 = rx_relayMinerError s /\
    sendProtocolRelay RPCTypeHeader cfg sel s w p =
      match validateAndProcessResponse cfg sel s1 w body with
      | (Err e, s2) => (response_at (sel_Addr sel), Some e, s2)
      | (Ok resp, s2) => let '(r, e) := process_response sel s2 w (rp_payload p) resp in (r, e, s2)
      end.
Proof.
  intros Hf Hl (app & bz & Ha & Hb & Hm) Hw. unfold sendProtocolRelay. rewrite Hf, Ha, Hb, Hm, Hl.
  destruct (target_url cfg sel s) as [url t]. unfold sendHTTPRequest. rewrite Hw. cbn -[validateAndProcessResponse].
  eexists. split; [|split; [|split; [|split; [|reflexivity]]]]; done.
Qed.

Lemma Blacklist_takes b now svc supplier reason :
  0 <= sb_defaultTTL b -> IsBlacklisted (Blacklist b now svc supplier reason) now svc supplier = true.
Proof.
  intros Ht. unfold IsBlacklisted, Blacklist. cbn. rewrite lookup_insert_eq. unfold expired, time_after, time_add. cbn.
  apply negb_true_iff, Z.ltb_ge. lia.
Qed.

(** No second validation can save the relay. *)
Definition not_rescued w (body : string) (e : error) : Prop :=
  isPubkeyRelatedError (Some e) = true -> exists e' parsed, w_validate w true body = Err (e', parsed).

Lemma validate_blacklists cfg sel s w body e parsed b :
  w_validate w false body = Err (e, parsed) -> isSupplierValidationError (Some e) = true -> not_rescued w body e -> rx_blacklist s = Some b ->
  exists s2, validateAndProcessResponse cfg sel s w body = (Err (validation_failure sel body e), s2) /\
    rx_blacklist s2 = Some (Blacklist b (w_end w) (rq_serviceID cfg) (Supplier sel) (err_text e)).
Proof.
  intros Hv Hsup Hno Hb. unfold validateAndProcessResponse. rewrite Hv, Hsup.
  assert (rx_blacklist (trackRelayMinerError s parsed) = Some b) as ->.
  { unfold trackRelayMinerError. by destruct (parsed ≫= rsp_RelayMinerError). }
  destruct (isPubkeyRelatedError (Some e)) eqn:Hp; [|by eexists]. destruct (Hno Hp) as (e' & parsed' & Hr).
  unfold retryValidationWithCacheInvalidation. destruct (rx_fetcher _) as [f|]; [|by eexists].
  destruct (_ && negb _); [by eexists|]. rewrite Hr. by eexists.
Qed.

(** C11: when a response does not validate for a reason of the supplier's own (its signature, its
    key, a malformed response) and no second look at its key saves it, the relay fails, the
    supplier is blacklisted for the service and no score moves. *)
Theorem supplier_fault_spares_scores cfg sel s w p body e parsed b :
  ep_fallback (sel_endpoint sel) = false -> rq_loadTesting cfg = None -> prepared cfg sel w p -> answers w (Replied 200 body) ->
  w_validate w false body = Err (e, parsed) -> isSupplierValidationError (Some e) = true -> not_rescued w body e ->
  rx_blacklist s = Some b -> 0 <= sb_defaultTTL b ->
  exists resp err s', sendSingleRelay RPCTypeHeader cfg sel s w p = (resp, Some err, s') /\ rr_Bytes resp = None /\
    supplier_blacklisted cfg sel s' w = true /\ rx_reputation s' = rx_reputation s.
Proof.
  intros Hf Hl Hp Ha Hv Hsup Hno Hb Ht. unfold sendSingleRelay, executeRelayRequestStrategy. rewrite Hl, Hf.
  destruct (sendProtocolRelay_validates cfg sel s w p body Hf Hl Hp Ha) as (s1 & Hk & Hb1 & _ & _ & ->).
  destruct (validate_blacklists cfg sel s1 w body e parsed b Hv Hsup Hno) as (s2 & Heq & Hb2); [congruence|].
  pose proof (kept_validate cfg sel s1 w body) as Hk2. rewrite Heq in Hk2 |- *. cbn [snd] in Hk2.
  pose proof (handleEndpointError_fields cfg sel s2 w (response_at (sel_Addr sel)) (validation_failure sel body e)) as (Hrep & Hbl & _).
  assert (supplier_blacklisted cfg sel s2 w = true) as Hbs.
  { unfold supplier_blacklisted. rewrite Hb2. by apply Blacklist_takes. }
  revert Hrep Hbl. unfold handleEndpointError.
  destruct (classifyErrorAsSignal _ _ _) as [ty sig]. cbn [snd]. rewrite Hbs. intros Hrep Hbl.
  eexists _, _, _. split; [reflexivity|]. split; [done|]. split; [by rewrite (blacklisted_ext cfg sel s2) by exact Hbl|].
  rewrite Hrep, (k_reputation _ _ Hk2), (k_reputation _ _ Hk). by destruct (rx_reputation s).
Qed.

(** ** Rejected relays *)

(** The same world, with an answer of this status and body. *)
Definition answering w (status : Z) (body : string) : relay_world :=
  mkWorld (w_start w) (w_end w) (w_newRequest w) (w_embed w) (w_validHeader w) (w_sign w) (w_marshal w)
    (fun _ _ _ _ _ => Replied status body) (w_validate w) (w_deserialize w).

(** The error of an answer outside 2xx. *)
Definition rejection sel (status : Z) : error :=
  wrap_error ("error sending request to endpoint " +:+ sel_Addr sel +:+ ": ")
    (join_errors errSendHTTPRelay_error ": "
       (suffix_error (new_sentinel ErrRelayEndpointHTTPError "endpoint returned non 2xx HTTP status code") (": " +:+ fmt_int status))).

Lemma EnsureHTTPSuccess_reject status :
  ~ 200 <= status < 300 ->
  EnsureHTTPSuccess status = Some (suffix_error (new_sentinel ErrRelayEndpointHTTPError "endpoint returned non 2xx HTTP status code") (": " +:+ fmt_int status)).
Proof.
  intros Hs. unfold EnsureHTTPSuccess. destruct (status <? 200) eqn:E1; [done|]. destruct (300 <=? status) eqn:E2; [done|]. exfalso. apply Hs. lia.
Qed.

(** An exchange that is rejected ends the same way whatever the body, and says so. *)
Lemma rejected_strategy cfg sel s w p status body :
  ~ 200 <= status < 300 -> ep_fallback (sel_endpoint sel) = true \/ prepared cfg sel w p ->
  exists s1, executeRelayRequestStrategy RPCTypeHeader cfg sel s (answering w status body) p = (response_at (sel_Addr sel), Some (rejection sel status), s1) /\
    rx_reputation s1 = rx_reputation s /\ rx_blacklist s1 = rx_blacklist s /\ rx_relayMinerError s1 = rx_relayMinerError s /\
    rx_exhaustion s1 = rx_exhaustion s.
Proof.
  intros Hs Hp. pose proof (EnsureHTTPSuccess_reject status Hs) as He.
  assert (forall s0, sendFallbackRelay RPCTypeHeader cfg sel s0 (answering w status body) p = (response_at (sel_Addr sel), Some (rejection sel status), set_http s0 (end_request (begin_request (rx_http s0))))) as Hfb.
  { intros s0. unfold sendFallbackRelay, sendHTTPRequest. cbn [answering w_http SendHTTPRelay]. by rewrite He. }
  assert (ep_fallback (sel_endpoint sel) = false -> exists t, sendProtocolRelay RPCTypeHeader cfg sel s (answering w status body) p =
    (response_at (sel_Addr sel), Some (rejection sel status), set_http (set_types s t (rx_heuristicRPCType s)) (end_request (begin_request (rx_http s))))) as Hpr.
  { intros Hf. destruct Hp as [Hp|(app & bz & Ha & Hb & Hm)]; [congruence|]. unfold sendProtocolRelay. rewrite Hf, Ha. cbn [answering w_marshal].
    replace (buildAndSignRelayRequest sel (answering w status body) (rp_payload p) app) with (buildAndSignRelayRequest sel w (rp_payload p) app) by done.
    rewrite Hb. rewrite Hm. destruct (target_url cfg sel s) as [url t]. exists t. unfold sendHTTPRequest. cbn [answering w_http SendHTTPRelay]. by rewrite He. }
  unfold executeRelayRequestStrategy. destruct (ep_fallback (sel_endpoint sel)) eqn:Hf.
  - assert (sendProtocolRelay RPCTypeHeader cfg sel s (answering w status body) p = sendFallbackRelay RPCTypeHeader cfg sel s (answering w status body) p) as ->
      by (unfold sendProtocolRelay; by rewrite Hf).
    rewrite Hfb. destruct (rq_loadTesting cfg); by eexists.
  - destruct (Hpr eq_refl) as [t ->]. destruct (rq_loadTesting cfg); by eexists.
Qed.

Lemma rejection_critical sel status now latency :
  classifyErrorAsSignal now (Some (rejection sel status)) latency = (SHANNON_ENDPOINT_ERROR_HTTP_NON_2XX_STATUS, NewCriticalErrorSignal now "service_error" latency).
Proof.
  unfold classifyErrorAsSignal, rejection. rewrite !wrap_error_is, !join_errors_is. cbn [switch].
  change (errors_Is errSendHTTPRelay_error errSendHTTPRelay) with true. cbn [orb].
  unfold classifyHttpErrorAsSignal. rewrite wrap_error_is, join_errors_is, suffix_error_is.
  by change (errors_Is (new_sentinel ErrRelayEndpointHTTPError _) ErrRelayEndpointHTTPError) with true.
Qed.

Lemma handleEndpointError_type cfg sel s w o e :
  rx_currentRPCType (handleEndpointError cfg sel s w o e).2 = rx_currentRPCType s.
Proof.
  unfold handleEndpointError. destruct (classifyErrorAsSignal _ _ _) as [ty sig]. cbn [snd].
  unfold record_relay, record_error_signal, recordEndpointObservation, note_over_serviced. by repeat case_match.
Qed.

(** C37: an answer with a status outside 2xx is turned into an error before the code that would keep
    its body: for a fallback endpoint, or a relay that could be built and signed, whatever the body
    says, the response carries none, the relay fails with the same error, the endpoint is charged one
    critical error, or nothing when its supplier is blacklisted at that moment, under the key of the
    RPC type the relay ended with, and whether the supplier's tuple is set aside as over-serviced does
    not depend on the body. *)
Theorem rejected_body_discarded cfg sel s w p status :
  ~ 200 <= status < 300 -> ep_fallback (sel_endpoint sel) = true \/ prepared cfg sel w p ->
  exists err, forall body, exists s',
    sendSingleRelay RPCTypeHeader cfg sel s (answering w status body) p = (response_at (sel_Addr sel), Some err, s') /\
    rx_reputation s' =
      (fun r => if supplier_blacklisted cfg sel s w then r
                else RecordSignal r (w_end w) (endpoint_key cfg sel r (rx_currentRPCType s'))
                       (with_health_check (NewCriticalErrorSignal (w_end w) "service_error" (latency_of w)) (rq_isHealthCheck cfg)))
        <$> rx_reputation s /\
    rx_exhaustion s' = rx_exhaustion (note_over_serviced cfg sel s w (rejection sel status)).
Proof.
  intros Hs Hp.
  eexists. intros body. destruct (rejected_strategy cfg sel s w p status body Hs Hp) as (s1 & Heq & Hr & Hb & Hm & Hx).
  unfold sendSingleRelay. rewrite Heq.
  pose proof (handleEndpointError_fields cfg sel s1 (answering w status body) (response_at (sel_Addr sel)) (rejection sel status)) as (Hrep & _ & Hex & _).
  pose proof (handleEndpointError_type cfg sel s1 (answering w status body) (response_at (sel_Addr sel)) (rejection sel status)) as Hty.
  revert Hrep Hex Hty. unfold latency_of. cbn [answering w_start w_end]. fold (latency_of w). rewrite rejection_critical. cbn [snd].
  unfold handleEndpointError. cbn [answering w_start w_end]. fold (latency_of w). rewrite rejection_critical. cbn [snd]. intros Hrep Hex Hty.
  eexists. split; [reflexivity|]. split.
  - rewrite Hrep, Hty, Hr. unfold supplier_blacklisted. cbn [answering w_end]. by rewrite Hb.
  - rewrite Hex. unfold note_over_serviced, over_serviced. cbn [answering w_end]. rewrite Hm.
    match goal with |- rx_exhaustion (if ?c then _ else _) = rx_exhaustion (if ?d then _ else _) => change d with c; destruct c end; cbn; by rewrite Hx.
Qed.

(** ** Batches *)

(** The contexts the relays of a batch start in, in the order they run. *)
Fixpoint starting_contexts cfg sel s (items : list relay_item) (order : list nat) : list (relay_ctx St C) :=
  match order with
  | [] => []
  | i :: order =>
      s :: starting_contexts cfg sel
             (match items !! i with Some (p, w) => (sendSingleRelay RPCTypeHeader cfg sel s w p).2 | None => s end) items order
  end.

Lemma run_tasks_results cfg sel items order : forall s results,
  NoDup order -> (forall i, i ∈ order -> (i < List.length items)%nat) -> List.length results = List.length items ->
  let results' := (run_tasks RPCTypeHeader cfg sel s items order results).1 in
  List.length results' = List.length items /\
  (forall i, i ∉ order -> results' !! i = results !! i) /\
  (forall k i item, order !! k = Some i -> items !! i = Some item -> exists sk,
     starting_contexts cfg sel s items order !! k = Some sk /\ results' !! i = Some (sendSingleRelay RPCTypeHeader cfg sel sk item.2 item.1).1).
Proof.
  induction order as [|i order IH]; intros s results Hnd Hin Hlen; cbn [run_tasks starting_contexts]; [done|].
  apply NoDup_cons in Hnd as [Hi Hnd]. assert (i < List.length items)%nat as Hlt by (apply Hin; set_solver).
  destruct (lookup_lt_is_Some_2 items i Hlt) as [[p w] Hitem]. rewrite Hitem.
  destruct (sendSingleRelay RPCTypeHeader cfg sel s w p) as [[resp err] s1] eqn:Hsend.
  destruct (IH s1 (<[i := (resp, err)]> results) Hnd) as (Hl & Hout & Hall); [set_solver | by rewrite length_insert |].
  split; [done|]. split.
  - intros j Hj. rewrite Hout by set_solver. apply list_lookup_insert_ne. set_solver.
  - intros [|k] j item Hk Hj; [|by apply (Hall k j)]. injection Hk as ->. rewrite Hitem in Hj. injection Hj as <-.
    exists s. split; [done|]. cbn [fst snd]. rewrite Hsend, Hout by done. apply list_lookup_insert_eq. lia.
Qed.

Lemma findFirstError_spec results :
  match findFirstError results with
  | None => Forall (fun r => r.2 = None) results
  | Some e => exists i resp, results !! i = Some (resp, Some e) /\ forall j r, (j < i)%nat -> results !! j = Some r -> r.2 = None
  end.
Proof.
  induction results as [|[resp [e|]] results IH]; cbn; [constructor | |].
  - exists 0%nat, resp. split; [done | lia].
  - destruct (findFirstError results) as [e|]; [|by constructor]. destruct IH as (i & r & Hi & Hb).
    exists (S i), r. split; [done|]. intros [|j] r' Hj; cbn; [by intros [= <-] | apply Hb; lia].
Qed.

(** C14: in whatever order the relays of a batch run, one after the other, and when waiting for them
    succeeds, the i-th response is what sending the i-th payload gave in the context its predecessors
    left, under that payload's own request ID; the error of the batch is that of the first payload,
    in the order of the batch, whose relay failed, and there is none exactly when all were answered. *)
Theorem batch_responses_aligned cfg sel s items order :
  items <> [] -> order ≡ₚ seq 0 (List.length items) ->
  exists results resps err s', handleParallelRelayRequests RPCTypeHeader cfg sel s items order None = (resps, err, s') /\
    List.length results = List.length items /\ List.length resps = List.length items /\
    (forall k i item, order !! k = Some i -> items !! i = Some item -> exists sk,
       starting_contexts cfg sel s items order !! k = Some sk /\
       results !! i = Some (sendSingleRelay RPCTypeHeader cfg sel sk item.2 item.1).1 /\
       resps !! i = Some (with_request_id (sendSingleRelay RPCTypeHeader cfg sel sk item.2 item.1).1.1 (request_id item.1))) /\
    match err with
    | None => Forall (fun r => r.2 = None) results
    | Some e => exists i resp, results !! i = Some (resp, Some e) /\ forall j r, (j < i)%nat -> results !! j = Some r -> r.2 = None
    end.
Proof.
  intros Hne Hperm. unfold handleParallelRelayRequests.
  destruct (run_tasks_results cfg sel items order s (replicate (List.length items) (zero_response, None))) as (Hl & _ & Hall).
  { rewrite Hperm. apply NoDup_seq. } { intros i Hi. rewrite Hperm in Hi. apply elem_of_seq in Hi. lia. } { apply length_replicate. }
  destruct (run_tasks RPCTypeHeader cfg sel s items order _) as [results s'] eqn:Hrun. cbn [fst] in Hl, Hall.
  unfold convertResultsToResponses. destruct results as [|r0 results0] eqn:Hres; [destruct items; [done | discriminate]|]. rewrite <-Hres in *.
  exists results, (imap (labelled items.*1) results), (findFirstError results), s'. split; [done|]. split; [done|].
  split; [rewrite length_imap; lia|]. split; [|apply findFirstError_spec].
  intros k i item Hk Hi. destruct (Hall k i item Hk Hi) as (sk & Hsk & Hr). exists sk. split; [done|]. split; [done|].
  rewrite list_lookup_imap, Hr. cbn. unfold labelled. by rewrite list_lookup_fmap, Hi.
Qed.

(** ** Observations *)

Lemma sendSingleRelay_observes cfg sel s w p :
  exists obs, rx_observations (sendSingleRelay RPCTypeHeader cfg sel s w p).2 = capped_snoc (rq_MaxBatchPayloads cfg) (rx_observations s) obs.
Proof.
  unfold sendSingleRelay. pose proof (k_observations _ _ (kept_strategy cfg sel s w p)) as Hk.
  destruct (executeRelayRequestStrategy RPCTypeHeader cfg sel s w p) as [[resp1 [e|]] s1]; cbn [snd] in Hk.
  - pose proof (handleEndpointError_fields cfg sel s1 w resp1 e) as (_ & _ & _ & obs & Ho & _). exists obs. rewrite <-Hk, <-Ho.
    by destruct (handleEndpointError cfg sel s1 w resp1 e) as [[]].
  - pose proof (handleEndpointSuccess_fields cfg sel s1 w resp1) as (_ & _ & obs & Ho & _). exists obs. cbn [snd]. congruence.
Qed.

(** The number of observations once [n] more relays have been made. *)
Definition observed (cap : Z) (before n : nat) : nat :=
  if 0 <? cap then Nat.max before (Nat.min (Z.to_nat cap) (before + n)) else (before + n)%nat.

Lemma capped_snoc_length cap {A} (l : list A) x : List.length (capped_snoc cap l x) = observed cap (List.length l) 1.
Proof.
  unfold capped_snoc, observed. destruct (0 <? cap) eqn:E; cbn; [|by rewrite length_app].
  destruct (cap <=? Z.of_nat (List.length l)) eqn:E2; rewrite ?length_app; cbn; lia.
Qed.

Lemma run_tasks_observed cfg sel items order : forall s results,
  (forall i, i ∈ order -> (i < List.length items)%nat) ->
  List.length (rx_observations (run_tasks RPCTypeHeader cfg sel s items order results).2) =
    observed (rq_MaxBatchPayloads cfg) (List.length (rx_observations s)) (List.length order).
Proof.
  induction order as [|i order IH]; intros s results Hin; cbn [run_tasks].
  - unfold observed. cbn. destruct (0 <? rq_MaxBatchPayloads cfg); lia.
  - destruct (lookup_lt_is_Some_2 items i) as [[p w] Hitem]; [apply Hin; set_solver|]. rewrite Hitem.
    destruct (sendSingleRelay_observes cfg sel s w p) as [obs Ho].
    destruct (sendSingleRelay RPCTypeHeader cfg sel s w p) as [[resp err] s1]. cbn [snd] in Ho.
    rewrite IH by set_solver. rewrite Ho, capped_snoc_length. unfold observed. cbn [List.length].
    destruct (0 <? rq_MaxBatchPayloads cfg); lia.
Qed.

(** C38: a batch within the limit of its service is relayed whole, but only as many observations are
    kept as the global limit allows: with a service limit above the global one the rest are dropped. *)
Theorem batch_observations_capped cfg s sel items order :
  rq_selectedEndpoint cfg = Some sel -> (2 <= List.length items)%nat -> order ≡ₚ seq 0 (List.length items) ->
  Z.of_nat (List.length items) <= (max_batch_payloads cfg (rx_services s)).1 -> rx_observations s = [] ->
  let '(resps, err, s') := HandleServiceRequest RPCTypeHeader cfg s items order None in
  List.length resps = List.length items /\
  List.length (rx_observations s') =
    (if 0 <? rq_MaxBatchPayloads cfg then Nat.min (Z.to_nat (rq_MaxBatchPayloads cfg)) (List.length items) else List.length items).
Proof.
  intros Hsel Hlen Hperm Hlim Hobs. unfold HandleServiceRequest. rewrite Hsel. destruct items as [|[p0 w0] [|i1 rest]]; [cbn in Hlen; lia.. |].
  set (items := (p0, w0) :: i1 :: rest) in *.
  match goal with |- context[max_batch_payloads cfg (rx_services ?x)] => set (s0 := x) end.
  assert (rx_services s0 = rx_services s /\ rx_observations s0 = []) as [Hsv Hob].
  { subst s0. by destruct (negb (pl_RPCType (rp_payload p0) =? RPCType_UNKNOWN_RPC)). }
  clearbody s0. rewrite Hsv. destruct (max_batch_payloads cfg (rx_services s)) as [limit services]. cbn [fst] in Hlim.
  rewrite (proj2 (Z.ltb_ge limit (Z.of_nat (List.length items)))) by exact Hlim.
  assert (forall i, i ∈ order -> (i < List.length items)%nat) as Hin.
  { intros i Hi. rewrite Hperm in Hi. apply elem_of_seq in Hi. lia. }
  unfold handleParallelRelayRequests.
  pose proof (run_tasks_observed cfg sel items order (set_config s0 services) (replicate (List.length items) (zero_response, None)) Hin) as Ho.
  destruct (run_tasks_results cfg sel items order (set_config s0 services) (replicate (List.length items) (zero_response, None))) as (Hl & _ & _);
    [rewrite Hperm; apply NoDup_seq | exact Hin | apply length_replicate |].
  destruct (run_tasks RPCTypeHeader cfg sel (set_config s0 services) items order _) as [results s'] eqn:Hrun. cbn [fst snd] in Hl, Ho.
  unfold convertResultsToResponses. destruct results as [|r0 results0]; [cbn in Hl; lia|].
  rewrite length_imap. split; [exact Hl|]. rewrite Ho, Hperm, length_seq. cbn. rewrite Hob. unfold observed. cbn.
  destruct (0 <? rq_MaxBatchPayloads cfg); done.
Qed.

(** ** Suppliers without a key *)

(** A supplier that still has no key after its cache was invalidated is not asked about again for
    the interval: until then nothing is invalidated and the second validation does not happen. *)
Theorem nil_key_rests sel s w bz e parsed f w2 bz2 :
  rx_fetcher s = Some f -> ShouldRetryNilPubkey f (w_end w) (Supplier sel) = true ->
  w_validate w true bz = Err (e, parsed) -> errors_Is e ErrRelayResponseValidationNilSupplierPubKey = true ->
  w_end w <= w_end w2 < w_end w + nilPubkeyRetryInterval ->
  let s1 := (retryValidationWithCacheInvalidation sel s w bz true).2 in
  retryValidationWithCacheInvalidation sel s1 w2 bz2 true = (None, s1).
Proof.
  intros Hf Hs Hv He Ht. cbn zeta.
  assert (exists f', (retryValidationWithCacheInvalidation sel s w bz true).2 = set_fetcher s (Some (TrackNilPubkey f' (w_end w) (Supplier sel)))) as [f' ->].
  { unfold retryValidationWithCacheInvalidation. rewrite Hf, Hs, Hv, He. by eexists. }
  unfold retryValidationWithCacheInvalidation. cbn. unfold ShouldRetryNilPubkey, TrackNilPubkey, tracker_ShouldRetryNilPubkey, tracker_TrackNilPubkey. cbn.
  rewrite lookup_insert_eq. unfold nilPubkeyRetryInterval, minute, second in *.
  rewrite time_sub_exact by (unfold in_int64, min_int64, max_int64; lia).
  rewrite (proj2 (Z.leb_gt _ _)) by lia. done.
Qed.

(** ** What one relay passes to the next *)

(** The miner's error of an earlier relay is never cleared: a relay whose responses carry none is
    observed with the one it found. *)
Theorem miner_error_sticks cfg sel s w p :
  (forall b bz, match w_validate w b bz with
                | Ok r => rsp_RelayMinerError r = None
                | Err (_, Some r) => rsp_RelayMinerError r = None
                | Err (_, None) => True
                end) ->
  let s' := (sendSingleRelay RPCTypeHeader cfg sel s w p).2 in
  exists obs, rx_observations s' = capped_snoc (rq_MaxBatchPayloads cfg) (rx_observations s) obs /\
              eo_RelayMinerError obs = rx_relayMinerError s.
Proof.
  intros Hw. cbn zeta.
  assert (forall s0 bz, rx_relayMinerError (validateAndProcessResponse cfg sel s0 w bz).2 = rx_relayMinerError s0) as Hval.
  { intros s0 bz. unfold validateAndProcessResponse. specialize (Hw false bz). destruct (w_validate w false bz) as [r|[e parsed]].
    - unfold trackRelayMinerError. cbn. by rewrite Hw.
    - assert (trackRelayMinerError s0 parsed = s0) as ->.
      { unfold trackRelayMinerError. destruct parsed as [r|]; cbn; [by rewrite Hw | done]. }
      destruct (isSupplierValidationError (Some e)); [|done]. destruct (rx_blacklist s0); [|done].
      destruct (isPubkeyRelatedError (Some e)); [|done]. unfold retryValidationWithCacheInvalidation.
      destruct (rx_fetcher s0) as [f|]; [|done]. destruct (_ && negb _); [done|]. by destruct (w_validate w true bz) as [|[]]. }
  assert (forall s0, rx_relayMinerError (sendFallbackRelay RPCTypeHeader cfg sel s0 w p).2 = rx_relayMinerError s0) as Hfb.
  { intros s0. unfold sendFallbackRelay, sendHTTPRequest. by destruct (SendHTTPRelay _ _) as [[[? ?] [?|]] ?]. }
  assert (rx_relayMinerError (executeRelayRequestStrategy RPCTypeHeader cfg sel s w p).2 = rx_relayMinerError s) as Hst.
  { assert (rx_relayMinerError (sendProtocolRelay RPCTypeHeader cfg sel s w p).2 = rx_relayMinerError s) as Hpr.
    { unfold sendProtocolRelay. destruct (ep_fallback (sel_endpoint sel)); [apply Hfb|].
      destruct (validateEndpointAndSession cfg sel) as [app|]; [|done].
      destruct (buildAndSignRelayRequest sel w (rp_payload p) app); [done|]. destruct (w_marshal w) as [bz|]; [|done].
      destruct (target_url cfg sel s) as [url t]. unfold sendHTTPRequest.
      destruct (SendHTTPRelay _ _) as [[[body status] [e|]] h]; cbn -[validateAndProcessResponse]; [done|].
      destruct (negb (status =? 200)); [done|]. destruct (rq_loadTesting cfg ≫= lt_BackendServiceURL); [done|].
      match goal with |- context[validateAndProcessResponse ?c ?se ?s0 ?wo ?b] => pose proof (Hval s0 b) as Hv; destruct (validateAndProcessResponse c se s0 wo b) as [[r|e] s2] end; [|exact Hv].
      destruct (process_response sel s2 w (rp_payload p) r). exact Hv. }
    unfold executeRelayRequestStrategy. destruct (rq_loadTesting cfg); [exact Hpr|]. by destruct (ep_fallback (sel_endpoint sel)). }
  unfold sendSingleRelay. pose proof (k_observations _ _ (kept_strategy cfg sel s w p)) as Hk.
  destruct (executeRelayRequestStrategy RPCTypeHeader cfg sel s w p) as [[resp1 [e|]] s1]; cbn [snd] in Hk, Hst.
  - pose proof (handleEndpointError_fields cfg sel s1 w resp1 e) as (_ & _ & _ & obs & Ho & Hm). exists obs. rewrite <-Hk, <-Ho, Hm, Hst.
    by destruct (handleEndpointError cfg sel s1 w resp1 e) as [[]].
  - pose proof (handleEndpointSuccess_fields cfg sel s1 w resp1) as (_ & _ & obs & Ho & Hm). exists obs. cbn [snd]. by rewrite Ho, Hk, Hm, Hst.
Qed.
End Props.

(** ** Witnesses and departures *)

#[local] Instance plain_case : UnicodeCase := {| lower_rune := fun r => r |}.
#[local] Instance one_domain : DomainLib :=
  {| url_hostname := fun _ => Some "node.example.com"; is_ip := fun _ => false; utf8_valid := fun _ => true; etld_plus_one := fun _ => Some "example.com" |}.

Abbreviation account_map := (gmap string (option QueryAccountResponse)).

Definition one_session : Session := mkFullSession "session1" (Some (mkHeader "pokt1app" "eth" "session1" 1 20)) (Some "pokt1app").
Definition one_endpoint : selected :=
  mkSelected (mkEndpoint false "pokt1supplier" {[3 := "https://node.example.com"]} "https://node.example.com" (mkSession "session1" 1 "pokt1app")) one_session.

Definition one_request : request_config := mkRequestConfig "eth" (Some one_endpoint) None 2 false false false None.

Definition fresh_scores : service MemoryStorage := NewService RepConfig.DefaultConfig (NewMemoryStorage (5 * minute)).

Definition one_ctx : relay_ctx MemoryStorage account_map :=
  mkRelayCtx 3 3 None [] None None (Some fresh_scores) (Some newSupplierBlacklist) (Some newSessionExhaustionTracker)
    (Some (mkFetcher ∅ newInvalidatedAccountTracker)) (mkHTTPClient 0 0 0 0) [].

Definition good_body : string := "{" +:+ quoted "jsonrpc" +:+ ":" +:+ quoted "2.0" +:+ "," +:+ quoted "id" +:+ ":1," +:+ quoted "result" +:+ ":" +:+ quoted "0x10" +:+ "}".

(** Everything works: the miner answers 200 and the backend [good_body]. *)
Definition good_world : relay_world :=
  mkWorld (1000 * second) (1001 * second) (fun _ => None) None (fun _ => None) None (Ok "relay")
    (fun _ _ _ _ _ => Replied 200 "response") (fun _ _ => Ok (mkRelayResponse "payload" None)) (fun _ => Ok (Some good_body, 200)).

Definition call (id : string) : relay_payload :=
  mkRelayPayload (mkPayload ("{" +:+ quoted "id" +:+ ":" +:+ id +:+ "}") "POST" "" 3 0 "eth_blockNumber") ∅.

Definition send_one (w : relay_world) := sendSingleRelay "Rpc-Type" one_request one_endpoint one_ctx w (call "1").

Lemma relay_signals_witness :
  exists key sigs, rx_reputation (send_one good_world).2 = Some (replay fresh_scores (1001 * second) key sigs) /\
    Forall (fun g => sig_IsHealthCheck g = false) sigs /\
    match (send_one good_world).1.2 with
    | Some _ => if supplier_blacklisted one_request one_endpoint (send_one good_world).2 good_world then sigs = [] else exists g, sigs = [g]
    | None =>
        exists g rest, sigs = g :: rest /\
          (if 500 <=? rr_HTTPStatusCode (send_one good_world).1.1 then sig_Type g = SignalTypeCriticalError
           else sig_Type g ∈ [SignalTypeSuccess; SignalTypeRecoverySuccess]) /\
          (rest = [] \/ exists h, rest = [h] /\ sig_Type h ∈ [SignalTypeSlowResponse; SignalTypeVerySlowResponse] /\
                                  rr_HTTPStatusCode (send_one good_world).1.1 < 500 /\ false = false)
    end.
Proof.
  apply (relay_signals "Rpc-Type" one_request one_endpoint one_ctx good_world (call "1") fresh_scores (send_one good_world).1.1 (send_one good_world).1.2 (send_one good_world).2);
    [unfold send_one; by destruct (sendSingleRelay _ _ _ _ _ _) as [[]] | reflexivity].
Defined.

Lemma good_prepared w : w_newRequest w = w_newRequest good_world -> w_embed w = None -> w_validHeader w = w_validHeader good_world ->
  w_sign w = None -> w_marshal w = Ok "relay" -> prepared one_request one_endpoint w (call "1").
Proof.
  intros H1 H2 H3 H4 H5. exists "pokt1app", "relay". split; [reflexivity|]. split; [|exact H5].
  unfold buildAndSignRelayRequest, buildUnsignedRelayRequest, signRelayRequest. rewrite H1, H2. cbn. by rewrite H3, H4.
Qed.

Definition bad_signature : error := mkError "invalid signature" [ErrRelayResponseValidationSignatureError] None.

(** The signature is wrong, also with a fresh key. *)
Definition forged_world : relay_world :=
  mkWorld (1000 * second) (1001 * second) (fun _ => None) None (fun _ => None) None (Ok "relay")
    (fun _ _ _ _ _ => Replied 200 "response") (fun _ _ => Err (bad_signature, None)) (fun _ => Ok (Some good_body, 200)).

Lemma supplier_fault_spares_scores_witness :
  exists resp err s', send_one forged_world = (resp, Some err, s') /\ rr_Bytes resp = None /\
    supplier_blacklisted one_request one_endpoint s' forged_world = true /\ rx_reputation s' = Some fresh_scores.
Proof.
  apply (supplier_fault_spares_scores "Rpc-Type" one_request one_endpoint one_ctx forged_world (call "1") "response" bad_signature None newSupplierBlacklist);
    [reflexivity | reflexivity | apply good_prepared; reflexivity | done | reflexivity | reflexivity | intros _; by exists bad_signature, None | reflexivity | done].
Defined.

Definition over_servicing_body : string := "{" +:+ quoted "error" +:+ ":" +:+ quoted "session relay limit reached" +:+ "}".

Lemma rejected_body_discarded_witness :
  exists err, forall body, exists s',
    send_one (answering good_world 429 body) = (response_at "pokt1supplier-https://node.example.com", Some err, s') /\
    rx_reputation s' = Some (RecordSignal fresh_scores (1001 * second) (endpoint_key one_request one_endpoint fresh_scores (rx_currentRPCType s'))
      (with_health_check (NewCriticalErrorSignal (1001 * second) "service_error" second) false)) /\
    rx_exhaustion s' = Some newSessionExhaustionTracker.
Proof.
  destruct (rejected_body_discarded "Rpc-Type" one_request one_endpoint one_ctx good_world (call "1") 429) as [err Herr];
    [lia | right; apply good_prepared; reflexivity |].
  exists err. intros body. destruct (Herr body) as (s' & Hsend & Hrep & Hex). exists s'. split; [exact Hsend|]. split; [exact Hrep|].
  rewrite Hex. vm_compute. reflexivity.
Defined.

(** The text of the rejection would be recognised, had it been looked at. *)
Example over_servicing_recognised : IsOverServicedError over_servicing_body = true.
Proof. vm_compute. reflexivity. Qed.

Definition batch3 : list relay_item := [(call "1", good_world); (call "2", forged_world); (call "3", good_world)].

Lemma batch_responses_aligned_witness :
  exists (results : list relay_result) resps err s', handleParallelRelayRequests "Rpc-Type" one_request one_endpoint one_ctx batch3 [2; 0; 1]%nat None = (resps, err, s') /\
    List.length results = 3%nat /\ List.length resps = 3%nat /\
    match err with
    | None => Forall (fun r : relay_result => r.2 = None) results
    | Some e => exists i resp, results !! i = Some (resp, Some e) /\ forall j (r : relay_result), (j < i)%nat -> results !! j = Some r -> r.2 = None
    end.
Proof.
  destruct (batch_responses_aligned "Rpc-Type" one_request one_endpoint one_ctx batch3 [2; 0; 1]%nat)
    as (results & resps & err & s' & E & L1 & L2 & _ & H); [done|apply (Permutation_app_comm [2]%nat [0; 1]%nat)|].
  by exists results, resps, err, s'.
Defined.

(** A service that allows batches of ten where the gateway's own limit is two. *)
Definition roomy_service : ServiceConfig :=
  ServiceConfig.mkService "eth" "" [] ∅ "" None None None None None None (Some (mkSvcConcurrency None (Some 10))) None None None [] [] [] None None None None None.

Definition roomy_ctx : relay_ctx MemoryStorage account_map := set_config one_ctx (Some (mkUnified ∅ empty_defaults [roomy_service] true)).

Lemma batch_observations_capped_witness :
  let '(resps, err, s') := HandleServiceRequest "Rpc-Type" one_request roomy_ctx batch3 [2; 0; 1]%nat None in
  List.length resps = 3%nat /\ List.length (rx_observations s') = 2%nat.
Proof.
  apply (batch_observations_capped "Rpc-Type" one_request roomy_ctx one_endpoint batch3 [2; 0; 1]%nat);
    [reflexivity | cbn; lia | apply (Permutation_app_comm [2]%nat [0; 1]%nat) | vm_compute; discriminate | reflexivity].
Defined.

(** ** Departures *)

(** The miner says in the structured error that it is over-serviced, and its payload does not
    decode. *)
Definition refusing_world : relay_world :=
  mkWorld (1000 * second) (1001 * second) (fun _ => None) None (fun _ => None) None (Ok "relay")
    (fun _ _ _ _ _ => Replied 200 "response") (fun _ _ => Ok (mkRelayResponse "" (Some (mkMinerError "relayer_proxy" 7 "refused"))))
    (fun _ => Err (plain_error "empty payload")).

(** The structured rejection sets the supplier's tuple aside, and the endpoint is penalised all the
    same: the classifier sees only the text. *)
Theorem structured_rejection_penalised :
  let s' := (send_one refusing_world).2 in
  (IsExhausted (rx_exhaustion s') (1001 * second) "eth" "session1" "pokt1supplier").1 = true /\
  mx_signal <$> rx_relays s' = ["minor_error"].
Proof. vm_compute. split; reflexivity. Qed.

(** A later relay of the same request that merely times out is taken for a refusal too: the miner's
    error of the earlier relay is still there. *)
Theorem earlier_refusal_charged :
  let timeout := mkWorld (1002 * second) (1012 * second) (fun _ => None) None (fun _ => None) None (Ok "relay")
    (fun _ _ _ _ _ => DoFailed true (plain_error "context deadline exceeded")) (fun _ _ => Ok (mkRelayResponse "" None)) (fun _ => Err (plain_error "")) in
  let send s := (sendSingleRelay "Rpc-Type" one_request one_endpoint s timeout (call "2")).2 in
  let exhausted s := (IsExhausted (rx_exhaustion s) (1012 * second) "eth" "session1" "pokt1supplier").1 in
  exhausted (send one_ctx) = false /\
  exhausted (send (set_minerError one_ctx (Some (mkMinerError "relayer_proxy" 7 "refused")))) = true /\
  map eo_RelayMinerError (rx_observations (send (set_minerError one_ctx (Some (mkMinerError "relayer_proxy" 7 "refused"))))) =
    [Some (mkMinerError "relayer_proxy" 7 "refused")].
Proof. vm_compute. repeat split; reflexivity. Qed.

(** Load testing against a backend leaves the response without an endpoint, so that no score should
    move, and yet the selected endpoint is charged for the backend's answer. *)
Theorem load_test_moves_scores :
  let cfg := mkRequestConfig "eth" (Some one_endpoint) (Some (mkLoadTesting (Some "http://backend") "")) 2 false false false None in
  let out := sendSingleRelay "Rpc-Type" cfg one_endpoint one_ctx good_world (call "1") in
  rr_EndpointAddr out.1.1 = "" /\
  match rx_reputation out.2 with Some r => negb (bool_decide (dom (svc_cache r) = ∅)) | None => false end = true.
Proof. vm_compute. split; reflexivity. Qed.

(** A relay miner's 204 is an error although it is a success, under a text that says it is not. *)
Theorem other_success_refused :
  option_map err_text (send_one (answering good_world 204 "")).1.2 =
  Some "relay: error sending relay for service eth endpoint pokt1supplier-https://node.example.com: HTTP relay request failed endpoint returned non-2xx HTTP status code: 204".
Proof. vm_compute. reflexivity. Qed.
