(* ===== verification/Sessions.v ===== *)
(** * Sessions: the full nodes, session rollover and the gateway modes

    protocol/shannon/fullnode_lazy.go and fullnode_cache.go (the sessions, parameters and heights a
    gateway works with), fullnode_session_rollover.go (the window around the end of a session),
    session.go, gateway_mode.go, mode_centralized.go and mode_delegated.go (the sessions a request
    may use).  What the chain answers during an operation is a [chain]; the caches hold what was
    fetched until an entry is dropped.  The protocol uses either full node through the class
    [FullNode]. *)

From S2P Require Import Prelude GoStrings Float64.
From Stdlib Require Import ZArith Lia Bool Ascii String.
From stdpp Require Import base gmap strings list.

Open Scope string_scope.
Open Scope Z_scope.

(** ** Data *)

Record Application := mkApplication {
  app_Address : string;
  app_DelegateeGatewayAddresses : list string;
  app_ServiceConfigs : list string;
}.

(** A session with its header and application, which the chain always sets. *)
Record ChainSession := mkChainSession {
  cs_SessionId : string;
  cs_SessionStartBlockHeight : Z;
  cs_SessionEndBlockHeight : Z;
  cs_Application : Application;
}.

Record SharedParams := mkSharedParams {
  prm_NumBlocksPerSession : Z;
  prm_GracePeriodEndOffsetBlocks : Z;
}.

(** What the chain answers; [None] is an error.  A session is asked for at a height, 0 for now. *)
Record chain := mkChain {
  ch_session : string -> string -> Z -> option ChainSession;
  ch_params : option SharedParams;
  ch_height : option Z;
}.

(** ** Session rollover *)

Record sessionRolloverState := mkRollover {
  ro_sessionRolloverBlocks : Z;
  ro_currentBlockHeight : Z;
  ro_sessionRolloverStart : Z;
  ro_sessionRolloverEnd : Z;
  ro_isInSessionRollover : bool;
}.

Definition newSessionRolloverState (sessionRolloverBlocks : Z) : sessionRolloverState :=
  mkRollover sessionRolloverBlocks 0 0 0 false.

Definition getSessionRolloverState (r : sessionRolloverState) : bool := ro_isInSessionRollover r.

Definition calculateRolloverStatus (blockHeight rolloverStart rolloverEnd : Z) : bool :=
  if (blockHeight =? 0) || (rolloverStart =? 0) || (rolloverEnd =? 0) then false
  else (rolloverStart <=? blockHeight) && (blockHeight <=? rolloverEnd).

Definition updateWithBlockHeight (r : sessionRolloverState) (newHeight : Z) : sessionRolloverState :=
  if newHeight <=? ro_currentBlockHeight r then r
  else mkRollover (ro_sessionRolloverBlocks r) newHeight (ro_sessionRolloverStart r) (ro_sessionRolloverEnd r)
         (calculateRolloverStatus newHeight (ro_sessionRolloverStart r) (ro_sessionRolloverEnd r)).

(** [sessionEnd]: the end height in the header, [None] when there is no header. *)
Definition updateSessionRolloverBoundaries (r : sessionRolloverState) (sessionEnd : option Z) : sessionRolloverState :=
  match sessionEnd with
  | None => r
  | Some sessionEndHeight =>
      let h := ro_currentBlockHeight r in
      let '(rolloverStart, rolloverEnd) :=
        if (ro_sessionRolloverEnd r =? 0) || (ro_sessionRolloverEnd r <? h)
        then (wrap64 (sessionEndHeight - 1), wrap64 (sessionEndHeight + ro_sessionRolloverBlocks r))
        else (ro_sessionRolloverStart r, ro_sessionRolloverEnd r) in
      mkRollover (ro_sessionRolloverBlocks r) h rolloverStart rolloverEnd (calculateRolloverStatus h rolloverStart rolloverEnd)
  end.

(** ** Full nodes *)

(** What the protocol asks of a full node. *)
Class FullNode (F : Type) := {
  fn_GetSession : F -> string -> string -> option ChainSession * F;
  fn_GetSessionWithExtendedValidity : F -> string -> string -> option ChainSession * F;
  fn_IsInSessionRollover : F -> bool;
}.

(** The lazy node asks the chain every time. *)
Record LazyFullNode := mkLazyNode { lz_chain : chain; lz_rolloverState : sessionRolloverState }.

Definition lazy_GetSession (n : LazyFullNode) (serviceID appAddr : string) : option ChainSession * LazyFullNode :=
  match ch_session (lz_chain n) serviceID appAddr 0 with
  | None => (None, n)
  | Some s => (Some s, mkLazyNode (lz_chain n) (updateSessionRolloverBoundaries (lz_rolloverState n) (Some (cs_SessionEndBlockHeight s))))
  end.

Definition lazy_GetSharedParams (n : LazyFullNode) : option SharedParams := ch_params (lz_chain n).
Definition lazy_GetCurrentBlockHeight (n : LazyFullNode) : option Z := ch_height (lz_chain n).

Definition lazy_GetSessionWithExtendedValidity (n : LazyFullNode) (serviceID appAddr : string) : option ChainSession * LazyFullNode :=
  match lazy_GetSession n serviceID appAddr with
  | (None, n) => (None, n)
  | (Some currentSession, n) =>
      match lazy_GetSharedParams n, lazy_GetCurrentBlockHeight n with
      | Some params, Some currentHeight =>
          let prevSessionEndHeight := wrap64 (cs_SessionStartBlockHeight currentSession - 1) in
          if wrap64 (prevSessionEndHeight + prm_GracePeriodEndOffsetBlocks params) <? currentHeight then (Some currentSession, n)
          else match ch_session (lz_chain n) serviceID appAddr prevSessionEndHeight with
               | None => (Some currentSession, n)
               | Some prevSession =>
                   (Some prevSession,
                    mkLazyNode (lz_chain n) (updateSessionRolloverBoundaries (lz_rolloverState n) (Some (cs_SessionEndBlockHeight currentSession))))
               end
      | _, _ => (Some currentSession, n)
      end
  end.

#[export] Instance LazyFullNode_FullNode : FullNode LazyFullNode := {|
  fn_GetSession := lazy_GetSession;
  fn_GetSessionWithExtendedValidity := lazy_GetSessionWithExtendedValidity;
  fn_IsInSessionRollover := fun n => getSessionRolloverState (lz_rolloverState n);
|}.

(** The caching node keeps what it fetched. *)
Record cachingFullNode := mkCachingNode {
  cn_lazy : LazyFullNode;
  cn_sessionCache : gmap string ChainSession;
  cn_sharedParamsCache : option SharedParams;
  cn_blockHeightCache : option Z;
}.

Definition getSessionCacheKey (serviceID appAddr : string) (height : Z) : string :=
  "session:" +:+ serviceID +:+ ":" +:+ appAddr +:+ ":" +:+ fmt_int height.

Definition caching_GetSharedParams (n : cachingFullNode) : option SharedParams * cachingFullNode :=
  match cn_sharedParamsCache n with
  | Some p => (Some p, n)
  | None =>
      match lazy_GetSharedParams (cn_lazy n) with
      | None => (None, n)
      | Some p => (Some p, mkCachingNode (cn_lazy n) (cn_sessionCache n) (Some p) (cn_blockHeightCache n))
      end
  end.

Definition caching_GetCurrentBlockHeight (n : cachingFullNode) : option Z * cachingFullNode :=
  match cn_blockHeightCache n with
  | Some h => (Some h, n)
  | None =>
      match lazy_GetCurrentBlockHeight (cn_lazy n) with
      | None => (None, n)
      | Some h => (Some h, mkCachingNode (cn_lazy n) (cn_sessionCache n) (cn_sharedParamsCache n) (Some h))
      end
  end.

(** Look a session up, else fetch it through the lazy node and keep it. *)
Definition session_or_fetch (n : cachingFullNode) (key : string) (fetch : LazyFullNode -> option ChainSession * LazyFullNode)
  : option ChainSession * cachingFullNode :=
  match cn_sessionCache n !! key with
  | Some s => (Some s, n)
  | None =>
      let '(s, lz) := fetch (cn_lazy n) in
      (s, mkCachingNode lz (match s with Some s => <[key := s]> (cn_sessionCache n) | None => cn_sessionCache n end)
            (cn_sharedParamsCache n) (cn_blockHeightCache n))
  end.

(** The first block of the session that has the block. *)
Definition session_start (currentHeight numBlocksPerSession : Z) : Z :=
  if numBlocksPerSession <=? 0 then currentHeight
  else currentHeight - Z.rem (currentHeight - 1) numBlocksPerSession.

Definition getSessionStartHeight (n : cachingFullNode) (currentHeight : Z) : option Z * cachingFullNode :=
  if currentHeight <=? 0 then (Some currentHeight, n)
  else match caching_GetSharedParams n with
       | (None, n) => (None, n)
       | (Some params, n) => (Some (session_start currentHeight (prm_NumBlocksPerSession params)), n)
       end.

Definition caching_GetSession (n : cachingFullNode) (serviceID appAddr : string) : option ChainSession * cachingFullNode :=
  match caching_GetCurrentBlockHeight n with
  | (None, n) => (None, n)
  | (Some height, n) =>
      let '(start, n) := getSessionStartHeight n height in
      session_or_fetch n (getSessionCacheKey serviceID appAddr (default height start)) (fun lz => lazy_GetSession lz serviceID appAddr)
  end.

Definition gracePeriodScaleDownFactor : float64 := f64_ratio 2 10.

(** [int64(float64(grace) * gracePeriodScaleDownFactor)] *)
Definition scaled_grace (grace : Z) : Z := f64_trunc (fmul (f64_of_Z grace) gracePeriodScaleDownFactor).

Definition caching_GetSessionWithExtendedValidity (n : cachingFullNode) (serviceID appAddr : string)
  : option ChainSession * cachingFullNode :=
  match caching_GetSession n serviceID appAddr with
  | (None, n) => (None, n)
  | (Some currentSession, n) =>
      match caching_GetSharedParams n with
      | (None, n) => (Some currentSession, n)
      | (Some params, n) =>
          match caching_GetCurrentBlockHeight n with
          | (None, n) => (Some currentSession, n)
          | (Some currentHeight, n) =>
              let prevSessionEndHeight := wrap64 (cs_SessionStartBlockHeight currentSession - 1) in
              let grace := prm_GracePeriodEndOffsetBlocks params in
              if wrap64 (prevSessionEndHeight + grace) <? currentHeight then (Some currentSession, n)
              else if wrap64 (prevSessionEndHeight + scaled_grace grace) <? currentHeight then (Some currentSession, n)
              else session_or_fetch n (getSessionCacheKey serviceID appAddr prevSessionEndHeight)
                     (fun lz => lazy_GetSessionWithExtendedValidity lz serviceID appAddr)
          end
      end
  end.

#[export] Instance cachingFullNode_FullNode : FullNode cachingFullNode := {|
  fn_GetSession := caching_GetSession;
  fn_GetSessionWithExtendedValidity := caching_GetSessionWithExtendedValidity;
  fn_IsInSessionRollover := fun n => getSessionRolloverState (lz_rolloverState (cn_lazy n));
|}.

(** ** The sessions of a request *)

(** The errors of setting up a request, as errors.Is finds them. *)
Inductive setup_sentinel :=
| errProtocolContextSetupCentralizedAppFetchErr | errProtocolContextSetupCentralizedAppDelegation
| errProtocolContextSetupCentralizedNoSessions | errProtocolContextSetupCentralizedNoAppsForService
| errProtocolContextSetupGetAppFromHTTPReq | errProtocolContextSetupFetchSession
| errProtocolContextSetupAppDoesNotDelegate | errProtocolContextSetupAppNotStaked
| errProtocolContextSetupNoEndpoints | errRequestContextSetupErrSignerSetup
| errProtocolContextSetupUnsupportedGatewayMode.

#[export] Instance setup_sentinel_eq_dec : EqDecision setup_sentinel.
Proof. solve_decision. Defined.

Abbreviation setup_error := (list setup_sentinel).

Inductive ShannonRequestErrorType :=
| SHANNON_REQUEST_ERROR_INTERNAL
| SHANNON_REQUEST_ERROR_INTERNAL_NO_ENDPOINTS_AVAILABLE
| SHANNON_REQUEST_ERROR_INTERNAL_CENTRALIZED_MODE_APP_FETCH_ERR
| SHANNON_REQUEST_ERROR_INTERNAL_CENTRALIZED_MODE_APP_DELEGATION
| SHANNON_REQUEST_ERROR_INTERNAL_CENTRALIZED_MODE_NO_SESSIONS
| SHANNON_REQUEST_ERROR_INTERNAL_CENTRALIZED_MODE_NO_APPS_FOR_SERVICE
| SHANNON_REQUEST_ERROR_INTERNAL_DELEGATED_GET_APP_HTTP
| SHANNON_REQUEST_ERROR_INTERNAL_DELEGATED_FETCH_APP
| SHANNON_REQUEST_ERROR_INTERNAL_DELEGATED_APP_DOES_NOT_DELEGATE
| SHANNON_REQUEST_ERROR_INTERNAL_SIGNER_SETUP_ERROR.

Definition translateContextSetupErrorToRequestErrorType (err : setup_error) : ShannonRequestErrorType :=
  let has s := bool_decide (s ∈ err) in
  if has errProtocolContextSetupCentralizedAppFetchErr then SHANNON_REQUEST_ERROR_INTERNAL_CENTRALIZED_MODE_APP_FETCH_ERR
  else if has errProtocolContextSetupCentralizedAppDelegation then SHANNON_REQUEST_ERROR_INTERNAL_CENTRALIZED_MODE_APP_DELEGATION
  else if has errProtocolContextSetupCentralizedNoSessions then SHANNON_REQUEST_ERROR_INTERNAL_CENTRALIZED_MODE_NO_SESSIONS
  else if has errProtocolContextSetupCentralizedNoAppsForService then SHANNON_REQUEST_ERROR_INTERNAL_CENTRALIZED_MODE_NO_APPS_FOR_SERVICE
  else if has errProtocolContextSetupGetAppFromHTTPReq then SHANNON_REQUEST_ERROR_INTERNAL_DELEGATED_GET_APP_HTTP
  else if has errProtocolContextSetupFetchSession then SHANNON_REQUEST_ERROR_INTERNAL_DELEGATED_FETCH_APP
  else if has errProtocolContextSetupAppDoesNotDelegate then SHANNON_REQUEST_ERROR_INTERNAL_DELEGATED_APP_DOES_NOT_DELEGATE
  else if has errProtocolContextSetupNoEndpoints then SHANNON_REQUEST_ERROR_INTERNAL_NO_ENDPOINTS_AVAILABLE
  else if has errRequestContextSetupErrSignerSetup then SHANNON_REQUEST_ERROR_INTERNAL_SIGNER_SETUP_ERROR
  else SHANNON_REQUEST_ERROR_INTERNAL.

Definition gatewayHasDelegationForApp (gatewayAddr : string) (app : Application) : bool :=
  bool_decide (gatewayAddr ∈ app_DelegateeGatewayAddresses app).

Definition appIsStakedForService (serviceID : string) (app : Application) : bool :=
  existsb (fun s => (s =? serviceID)%string) (app_ServiceConfigs app).

(** The header of the request that names the app, [None] when the request has no headers. *)
Definition getAppAddrFromHTTPReq (appHeader : option string) : option string :=
  match appHeader with
  | Some a => if (a =? "")%string then None else Some a
  | None => None
  end.

Record gateway := mkGateway {
  gw_addr : string;
  gw_mode : string;
  gw_ownedApps : gmap string (list string);
}.

Definition GatewayModeCentralized : string := "centralized".
Definition GatewayModeDelegated : string := "delegated".
Definition supportedGatewayModes : list string := [GatewayModeCentralized; GatewayModeDelegated].

Section Protocol.
Context {F : Type} `{!FullNode F}.
Implicit Types (p : gateway) (f : F).

(** The session of an app that matches its address and delegates to the gateway. *)
Definition getSession p f (appAddr serviceID : string) : result setup_error ChainSession * F :=
  match fn_GetSession f serviceID appAddr with
  | (None, f) => (Err [errProtocolContextSetupFetchSession], f)
  | (Some s, f) =>
      let app := cs_Application s in
      if negb (appAddr =? app_Address app)%string then (Err [errProtocolContextSetupAppDoesNotDelegate], f)
      else if negb (gatewayHasDelegationForApp (gw_addr p) app) then (Err [errProtocolContextSetupAppDoesNotDelegate], f)
      else (Ok s, f)
  end.

Definition owned_app_session p f (inRollover : bool) (serviceID appAddr : string) : result setup_error ChainSession * F :=
  if inRollover then
    match fn_GetSessionWithExtendedValidity f serviceID appAddr with
    | (Some s, f) => (Ok s, f)
    | (None, f) => getSession p f appAddr serviceID
    end
  else getSession p f appAddr serviceID.

Fixpoint owned_sessions p f (inRollover : bool) (serviceID : string) (apps : list string) : result setup_error (list ChainSession) * F :=
  match apps with
  | [] => (Ok [], f)
  | a :: apps =>
      match owned_app_session p f inRollover serviceID a with
      | (Err e, f) => (Err e, f)
      | (Ok s, f) =>
          match owned_sessions p f inRollover serviceID apps with
          | (Err e, f) => (Err e, f)
          | (Ok l, f) => (Ok (s :: l), f)
          end
      end
  end.

(** The error for a service without apps formats the sentinel with %s: it is not in the chain. *)
Definition getCentralizedGatewayModeActiveSessions p f (serviceID : string) (forceCurrentSession : bool)
  : result setup_error (list ChainSession) * F :=
  match default [] (gw_ownedApps p !! serviceID) with
  | [] => (Err [], f)
  | apps =>
      match owned_sessions p f (negb forceCurrentSession && fn_IsInSessionRollover f) serviceID apps with
      | (Ok [], f) => (Err [errProtocolContextSetupCentralizedNoSessions], f)
      | r => r
      end
  end.

Definition getDelegatedGatewayModeActiveSession p f (serviceID : string) (appHeader : option string) (forceCurrentSession : bool)
  : result setup_error (list ChainSession) * F :=
  match getAppAddrFromHTTPReq appHeader with
  | None => (Err [errProtocolContextSetupGetAppFromHTTPReq], f)
  | Some appAddr =>
      match getSession p f appAddr serviceID with
      | (Err e, f) => (Err e, f)
      | (Ok currentSession, f) =>
          if negb (appIsStakedForService serviceID (cs_Application currentSession)) then (Err [errProtocolContextSetupAppNotStaked], f)
          else if negb forceCurrentSession && fn_IsInSessionRollover f then
            match fn_GetSessionWithExtendedValidity f serviceID appAddr with
            | (None, f) => (Ok [currentSession], f)
            | (Some extendedSession, f) =>
                (Ok (if negb (cs_SessionId extendedSession =? cs_SessionId currentSession)%string
                     then [currentSession; extendedSession] else [currentSession]), f)
            end
          else (Ok [currentSession], f)
      end
  end.

Definition getActiveGatewaySessions p f (serviceID : string) (appHeader : option string) (forceCurrentSession : bool)
  : result setup_error (list ChainSession) * F :=
  if (gw_mode p =? GatewayModeCentralized)%string then getCentralizedGatewayModeActiveSessions p f serviceID forceCurrentSession
  else if (gw_mode p =? GatewayModeDelegated)%string then getDelegatedGatewayModeActiveSession p f serviceID appHeader forceCurrentSession
  else (Err [errProtocolContextSetupUnsupportedGatewayMode], f).
End Protocol.
