(* ===== verification/SessionsProps.v ===== *)
(** * What the choice of sessions guarantees

    Theorems about Sessions.v: the key of a cached session, the rollover window, which sessions a
    request is given, and how old a session may be. *)

From S2P Require Import Prelude GoStrings Float64 Sessions.
From Stdlib Require Import ZArith Lia Bool Ascii String.
From stdpp Require Import base gmap strings list.

Open Scope string_scope.
Open Scope Z_scope.

(** ** The start of a session *)

Lemma session_start_mod h n : 1 <= h -> 0 < n -> session_start h n = h - (h - 1) mod n.
Proof. intros Hh Hn. unfold session_start. rewrite (proj2 (Z.leb_gt _ _)) by lia. rewrite Z.rem_mod_nonneg by lia. done. Qed.

(** The start height that keys the cache is the first block of the session of [h], and the same for
    every block of that session. *)
Theorem session_start_stable h n :
  1 <= h -> 0 < n ->
  let s := session_start h n in
  1 <= s /\ s <= h < s + n /\ (s - 1) mod n = 0 /\ forall h', s <= h' < s + n -> session_start h' n = s.
Proof.
  intros Hh Hn s. pose proof (Z.mod_pos_bound (h - 1) n Hn) as Hb. pose proof (Z.div_mod (h - 1) n ltac:(lia)) as Hd.
  assert (s = n * ((h - 1) / n) + 1) as Hs by (subst s; rewrite session_start_mod by done; lia).
  pose proof (Z.div_pos (h - 1) n ltac:(lia) Hn) as Hp.
  assert (0 <= n * ((h - 1) / n)) as Hnn by (apply Z.mul_nonneg_nonneg; lia).
  split; [lia|]. split; [lia|]. split.
  - rewrite Hs. replace (n * ((h - 1) / n) + 1 - 1) with ((h - 1) / n * n) by lia. apply Z.mod_mul. lia.
  - intros h' Hh'. rewrite session_start_mod by lia. rewrite Hs in Hh' |- *.
    assert ((h' - 1) mod n = h' - 1 - n * ((h - 1) / n)) as ->; [|lia].
    symmetry. apply (Z.mod_unique_pos _ _ ((h - 1) / n)); lia.
Qed.

(** ** Rollover *)

Inductive rollover_event := NewHeight (h : Z) | SessionFetched (sessionEnd : option Z).

Definition rollover_step (r : sessionRolloverState) (e : rollover_event) : sessionRolloverState :=
  match e with
  | NewHeight h => updateWithBlockHeight r h
  | SessionFetched sessionEnd => updateSessionRolloverBoundaries r sessionEnd
  end.

Definition rollover_run (blocks : Z) (events : list rollover_event) : sessionRolloverState :=
  fold_left rollover_step events (newSessionRolloverState blocks).

(** The heights and session ends of a run, in the range the chain uses. *)
Definition event_in_range (e : rollover_event) : Prop :=
  match e with NewHeight h => 0 < h < 2 ^ 62 | SessionFetched (Some x) => 1 < x < 2 ^ 62 | SessionFetched None => True end.

Definition session_ends (events : list rollover_event) : list Z :=
  omap (fun e => match e with SessionFetched x => x | NewHeight _ => None end) events.

Record rollover_ok (blocks : Z) (ends : list Z) (r : sessionRolloverState) : Prop := {
  rok_blocks : ro_sessionRolloverBlocks r = blocks;
  rok_height : 0 <= ro_currentBlockHeight r;
  rok_window : (ro_sessionRolloverStart r = 0 /\ ro_sessionRolloverEnd r = 0 /\ ends = []) \/
               exists x, x ∈ ends /\ 1 < x < 2 ^ 62 /\ ro_sessionRolloverStart r = x - 1 /\ ro_sessionRolloverEnd r = x + blocks;
  rok_cached : ro_isInSessionRollover r = calculateRolloverStatus (ro_currentBlockHeight r) (ro_sessionRolloverStart r) (ro_sessionRolloverEnd r);
}.

Lemma rollover_step_ok blocks ends r e :
  0 <= blocks < 2 ^ 61 -> event_in_range e -> rollover_ok blocks ends r ->
  rollover_ok blocks (ends ++ session_ends [e]) (rollover_step r e).
Proof.
  intros Hbl He [Hb Hh Hw Hc]. destruct e as [h|[x|]]; cbn [rollover_step event_in_range] in *.
  - rewrite app_nil_r. unfold updateWithBlockHeight. destruct (h <=? ro_currentBlockHeight r); [by split|]. split; cbn; [done | lia | done | done].
  - unfold updateSessionRolloverBoundaries. cbn.
    destruct ((ro_sessionRolloverEnd r =? 0) || (ro_sessionRolloverEnd r <? ro_currentBlockHeight r)) eqn:E; split; cbn; try done.
    + right. exists x. rewrite Hb, !wrap64_id by (unfold in_int64, min_int64, max_int64; lia). split; [set_solver | done].
    + apply orb_false_iff in E as [E _]. destruct Hw as [(_ & H2 & _)|(y & Hy & Hw)]; [lia|]. right. exists y. split; [set_solver | done].
  - rewrite app_nil_r. by split.
Qed.

Lemma rollover_run_ok blocks events :
  0 <= blocks < 2 ^ 61 -> Forall event_in_range events -> rollover_ok blocks (session_ends events) (rollover_run blocks events).
Proof.
  intros Hb He. unfold rollover_run. induction events as [|e events IH] using rev_ind; [by repeat split; cbn; auto|].
  rewrite fold_left_app. cbn [fold_left]. apply Forall_app in He as [He1 He2]. unfold session_ends at 1. rewrite omap_app. apply rollover_step_ok; [done | by apply Forall_cons in He2 as [? _] | by apply IH].
Qed.

(** Whatever heights and sessions were seen, the gateway takes itself to be in a rollover
    exactly when some session it fetched ends at most one block ahead or ended at most the
    configured number of blocks ago, for the one session whose window is in force. *)
Theorem rollover_exact blocks events :
  0 <= blocks < 2 ^ 61 -> Forall event_in_range events ->
  let r := rollover_run blocks events in
  getSessionRolloverState r = false /\ session_ends events = [] \/
  exists x, x ∈ session_ends events /\
    (getSessionRolloverState r = true <-> 0 < ro_currentBlockHeight r /\ x - 1 <= ro_currentBlockHeight r <= x + blocks).
Proof.
  intros Hb He r. destruct (rollover_run_ok blocks events Hb He) as [_ Hh Hw Hc]. fold r in Hh, Hw, Hc. unfold getSessionRolloverState. rewrite Hc.
  unfold calculateRolloverStatus. destruct Hw as [(Hs & Hn & Hnil)|(x & Hx & Hr & Hs & Hn)].
  - left. rewrite Hs. split; [|done]. by rewrite orb_true_r.
  - right. exists x. split; [done|]. rewrite Hs, Hn.
    destruct (ro_currentBlockHeight r =? 0) eqn:E1; [cbn; split; [done | lia]|].
    destruct (x - 1 =? 0) eqn:E2; [lia|]. destruct (x + blocks =? 0) eqn:E3; [lia|]. cbn. rewrite andb_true_iff, !Z.leb_le. lia.
Qed.

(** A session fetched while a window is in force is forgotten: unless it is fetched again later,
    its own end is not noticed. *)
Theorem rollover_skipped r x h :
  ro_currentBlockHeight r <= ro_sessionRolloverEnd r -> ro_sessionRolloverEnd r <> 0 -> ro_sessionRolloverEnd r < h ->
  getSessionRolloverState (updateWithBlockHeight (updateSessionRolloverBoundaries r (Some x)) h) = false.
Proof.
  intros Hin He Hh. unfold updateSessionRolloverBoundaries.
  rewrite (proj2 (Z.eqb_neq _ _) He), (proj2 (Z.ltb_ge _ _) Hin). cbn. unfold updateWithBlockHeight. cbn. rewrite (proj2 (Z.leb_gt _ _)) by lia. cbn.
  unfold calculateRolloverStatus. destruct (_ || _ || _); [done|].
  rewrite (proj2 (Z.leb_gt h (ro_sessionRolloverEnd r))) by lia. apply andb_false_r.
Qed.

(** ** The sessions of a request *)

Section Vetting.
Context {F : Type} `{!FullNode F}.
Implicit Types (p : gateway) (f : F).

(** The current sessions of the apps as the node gives them during the request: one lookup per app,
    each at the state the one before it left. *)
Fixpoint current_sessions f (serviceID : string) (apps : list string) : list (option ChainSession) * F :=
  match apps with
  | [] => ([], f)
  | a :: apps =>
      let '(s, f) := fn_GetSession f serviceID a in
      let '(l, f) := current_sessions f serviceID apps in (s :: l, f)
  end.

(** The session is of that app, and the app delegates to the gateway. *)
Definition vetted p (appAddr : string) (s : ChainSession) : Prop :=
  app_Address (cs_Application s) = appAddr /\ gw_addr p ∈ app_DelegateeGatewayAddresses (cs_Application s).

(** The rollover as the request sees it: a centralized gateway asks before the lookups, a delegated
    one after that of the session of the app. *)
Definition rollover_seen p f (serviceID : string) (appHeader : option string) : bool :=
  if (gw_mode p =? GatewayModeCentralized)%string then fn_IsInSessionRollover f
  else match getAppAddrFromHTTPReq appHeader with
       | Some a => fn_IsInSessionRollover (snd (fn_GetSession f serviceID a))
       | None => false
       end.

Lemma getSession_vetted p f appAddr serviceID s f' : getSession p f appAddr serviceID = (Ok s, f') ->
  fn_GetSession f serviceID appAddr = (Some s, f') /\ vetted p appAddr s.
Proof.
  unfold getSession. destruct (fn_GetSession f serviceID appAddr) as [[s0|] f0]; [|done].
  destruct (appAddr =? app_Address (cs_Application s0))%string eqn:Ea; [|done]. cbn [negb].
  destruct (gatewayHasDelegationForApp (gw_addr p) (cs_Application s0)) eqn:Ed; [|done]. cbn [negb]. intros [= <- <-].
  apply String.eqb_eq in Ea. by apply bool_decide_eq_true in Ed.
Qed.

Lemma owned_sessions_vetted p serviceID apps : forall f l f',
  owned_sessions p f false serviceID apps = (Ok l, f') ->
  current_sessions f serviceID apps = (map Some l, f') /\ Forall2 (vetted p) apps l.
Proof.
  induction apps as [|a apps IH]; intros f l f'; cbn; [by intros [= <- <-]|].
  destruct (getSession p f a serviceID) as [[s|e] f1] eqn:E; [|done].
  destruct (owned_sessions p f1 false serviceID apps) as [[l1|e] f2] eqn:E2; [|done]. intros [= <- <-].
  apply getSession_vetted in E as [-> V]. destruct (IH _ _ _ E2) as [-> Vs]. by split; [|constructor].
Qed.

(** C12: a request that insists on the current session, as every websocket does, or that does not see
    the node in a rollover (a centralized gateway looks before its lookups, a delegated one after the
    lookup of the app's session) and gets sessions at all, gets exactly one per app of the gateway
    (centralized) or the one of the app it names (delegated, staked for the service): each is what
    the node returns as the app's current session in this request, one lookup after the other, and
    its app has the address asked for and delegates to the gateway. *)
Theorem current_sessions_vetted p f serviceID appHeader force l f' :
  getActiveGatewaySessions p f serviceID appHeader force = (Ok l, f') ->
  force = true \/ rollover_seen p f serviceID appHeader = false ->
  exists apps, current_sessions f serviceID apps = (map Some l, f') /\ Forall2 (vetted p) apps l /\ apps <> [] /\
    ((gw_mode p = GatewayModeCentralized /\ apps = default [] (gw_ownedApps p !! serviceID)) \/
     (gw_mode p = GatewayModeDelegated /\ exists a, appHeader = Some a /\ apps = [a] /\
        Forall (fun s => appIsStakedForService serviceID (cs_Application s) = true) l)).
Proof.
  unfold getActiveGatewaySessions, rollover_seen. destruct (gw_mode p =? GatewayModeCentralized)%string eqn:Em; intros Hg Hf.
  - unfold getCentralizedGatewayModeActiveSessions in Hg. exists (default [] (gw_ownedApps p !! serviceID)).
    assert (negb force && fn_IsInSessionRollover f = false) as Off by (destruct Hf as [->| ->]; [done|apply andb_false_r]). rewrite Off in Hg.
    destruct (default [] (gw_ownedApps p !! serviceID)) as [|a apps]; [done|].
    destruct (owned_sessions p f false serviceID (a :: apps)) as [[l0|e] f0] eqn:E; [|done].
    apply owned_sessions_vetted in E as [E V]. destruct l0 as [|s l0]; [done|]. injection Hg as <- <-.
    split_and!; [done..|]. left. apply String.eqb_eq in Em. done.
  - destruct (gw_mode p =? GatewayModeDelegated)%string eqn:Ed; [|done].
    unfold getDelegatedGatewayModeActiveSession in Hg. destruct (getAppAddrFromHTTPReq appHeader) as [a|] eqn:Ea; [|done].
    destruct (getSession p f a serviceID) as [[s|e] f1] eqn:Es; [|done]. apply getSession_vetted in Es as [Es V].
    destruct (appIsStakedForService serviceID (cs_Application s)) eqn:Est; [|done]. cbn [negb] in Hg. rewrite Es in Hf. cbn [snd] in Hf.
    assert (negb force && fn_IsInSessionRollover f1 = false) as Off by (destruct Hf as [->| ->]; [done|apply andb_false_r]).
    rewrite Off in Hg. injection Hg as <- <-.
    exists [a]. cbn. rewrite Es. split_and!; [done|by constructor|done|]. right. apply String.eqb_eq in Ed. split; [done|].
    exists a. split; [|split; [done | by repeat constructor]].
    unfold getAppAddrFromHTTPReq in Ea. destruct appHeader as [x|]; [|done]. destruct (x =? "")%string; [done|]. congruence.
Qed.
End Vetting.

(** ** How old a session may be *)

Lemma scaled_grace_small g : 0 <= g <= 100 -> 0 <= scaled_grace g <= g.
Proof.
  intros Hg. assert (forallb (fun k => (0 <=? scaled_grace (Z.of_nat k)) && (scaled_grace (Z.of_nat k) <=? Z.of_nat k)) (seq 0 101) = true) as H
    by (vm_compute; reflexivity).
  rewrite forallb_forall in H. specialize (H (Z.to_nat g)). rewrite Z2Nat.id in H by lia.
  apply andb_true_iff in H as [H1 H2]; [lia|]. apply in_seq. lia.
Qed.

(** A chain at height [h]: sessions of [n] blocks, asked for by any block they have. *)
Record chain_at (c : chain) (serviceID appAddr : string) (h n grace : Z) : Prop := {
  cat_height : ch_height c = Some h;
  cat_params : ch_params c = Some (mkSharedParams n grace);
  cat_now : ch_session c serviceID appAddr 0 = ch_session c serviceID appAddr h;
  cat_session : forall k, 1 <= k <= h -> exists s, ch_session c serviceID appAddr k = Some s /\
    cs_SessionStartBlockHeight s = session_start k n /\ cs_SessionEndBlockHeight s = session_start k n + n - 1;
}.

Lemma session_key_height serviceID appAddr h1 h2 :
  in_int64 h1 -> in_int64 h2 -> getSessionCacheKey serviceID appAddr h1 = getSessionCacheKey serviceID appAddr h2 -> h1 = h2.
Proof.
  unfold getSessionCacheKey. intros H1 H2 E. do 5 apply (inj _) in E. apply (f_equal parse_int) in E. rewrite !parse_fmt_int in E by done. congruence.
Qed.

(** The node after the current session was looked up with nothing cached. *)
Lemma caching_GetSession_fresh c ro serviceID appAddr h n grace :
  chain_at c serviceID appAddr h n grace -> 1 <= h ->
  exists cur ro', ch_session c serviceID appAddr h = Some cur /\
    caching_GetSession (mkCachingNode (mkLazyNode c ro) ∅ None None) serviceID appAddr =
      (Some cur, mkCachingNode (mkLazyNode c ro') {[getSessionCacheKey serviceID appAddr (session_start h n) := cur]} (Some (mkSharedParams n grace)) (Some h)).
Proof.
  intros [Hh Hp Hn Hs] Hrange. destruct (Hs h) as (cur & Hcur & _); [lia|].
  unfold caching_GetSession, caching_GetCurrentBlockHeight, getSessionStartHeight, caching_GetSharedParams, lazy_GetCurrentBlockHeight, lazy_GetSharedParams, session_or_fetch, lazy_GetSession.
  cbn -[session_start getSessionCacheKey updateSessionRolloverBoundaries]. rewrite Hh. cbn -[session_start getSessionCacheKey updateSessionRolloverBoundaries].
  rewrite (proj2 (Z.leb_gt h 0)) by lia. rewrite Hp. cbn -[session_start getSessionCacheKey updateSessionRolloverBoundaries].
  rewrite lookup_empty, Hn, Hcur. by eexists cur, _.
Qed.

(** The previous session, asked for within the grace period. *)
Lemma lazy_extended_previous c ro serviceID appAddr h n grace cur prev :
  chain_at c serviceID appAddr h n grace -> ch_session c serviceID appAddr h = Some cur ->
  wrap64 (wrap64 (cs_SessionStartBlockHeight cur - 1) + grace) <? h = false ->
  ch_session c serviceID appAddr (wrap64 (cs_SessionStartBlockHeight cur - 1)) = Some prev ->
  (lazy_GetSessionWithExtendedValidity (mkLazyNode c ro) serviceID appAddr).1 = Some prev.
Proof.
  intros [Hh Hp Hn Hs] Hcur Hg Hprev. unfold lazy_GetSessionWithExtendedValidity, lazy_GetSession, lazy_GetSharedParams, lazy_GetCurrentBlockHeight.
  cbn -[wrap64 updateSessionRolloverBoundaries]. rewrite Hn, Hcur. cbn -[wrap64 updateSessionRolloverBoundaries]. rewrite Hp, Hh. cbn -[wrap64 updateSessionRolloverBoundaries].
  rewrite Hg, Hprev. done.
Qed.

(** C13: with nothing cached, the session of the extended lookup has the current block, or ended
    within the scaled-down grace period: at most that many blocks ago. *)
Theorem extended_session_recent c ro serviceID appAddr h n grace s node' :
  chain_at c serviceID appAddr h n grace -> n < h < 2 ^ 62 -> 0 < n -> 0 <= grace <= 100 ->
  caching_GetSessionWithExtendedValidity (mkCachingNode (mkLazyNode c ro) ∅ None None) serviceID appAddr = (Some s, node') ->
  cs_SessionStartBlockHeight s <= h <= cs_SessionEndBlockHeight s + scaled_grace grace.
Proof.
  intros Hc Hrange Hpos Hgr. pose proof (scaled_grace_small grace Hgr) as Hsg. pose proof (cat_session _ _ _ _ _ _ Hc) as Hs.
  destruct (session_start_stable h n ltac:(lia) Hpos) as (Hs1 & Hs2 & Hmod & _). cbn zeta in Hs1, Hs2, Hmod.
  destruct (caching_GetSession_fresh c ro serviceID appAddr h n grace Hc ltac:(lia)) as (cur & ro' & Hcur & Hget).
  destruct (Hs h) as (cur' & Hcur' & Hcs & Hce); [lia|]. assert (cur' = cur) as -> by congruence.
  assert (1 < session_start h n) as Hgt.
  { destruct (decide (session_start h n = 1)) as [E|]; [|lia]. rewrite E in Hs2. lia. }
  assert (wrap64 (cs_SessionStartBlockHeight cur - 1) = session_start h n - 1) as Hw by (rewrite wrap64_id; unfold in_int64, min_int64, max_int64; lia).
  unfold caching_GetSessionWithExtendedValidity. rewrite Hget. cbn -[wrap64 scaled_grace session_or_fetch getSessionCacheKey].
  destruct (wrap64 (wrap64 (cs_SessionStartBlockHeight cur - 1) + grace) <? h) eqn:E1; [intros [= <- <-]; lia|].
  destruct (wrap64 (wrap64 (cs_SessionStartBlockHeight cur - 1) + scaled_grace grace) <? h) eqn:E2; [intros [= <- <-]; lia|].
  rewrite Hw in E2 |- *. rewrite wrap64_id in E2 by (unfold in_int64, min_int64, max_int64; lia). unfold session_or_fetch. cbn [cn_sessionCache].
  rewrite lookup_singleton_ne by (intros E; apply session_key_height in E; unfold in_int64, min_int64, max_int64; lia).
  destruct (Hs (session_start h n - 1)) as (prev & Hprev & Hps & Hpe); [lia|].
  pose proof (lazy_extended_previous c ro' serviceID appAddr h n grace cur prev Hc Hcur E1 ltac:(by rewrite Hw)) as Hlz. cbn [cn_lazy].
  destruct (lazy_GetSessionWithExtendedValidity _ _ _) as [s1 lz1]. cbn [fst] in Hlz. subst s1. intros [= <- <-].
  destruct (session_start_stable (session_start h n - 1) n ltac:(lia) Hpos) as (_ & Hp2 & _ & _). cbn zeta in Hp2. rewrite Hps, Hpe.
  assert (session_start (session_start h n - 1) n = session_start h n - n) as ->; [|lia].
  rewrite session_start_mod by lia. replace (session_start h n - 1 - 1) with (session_start h n - 1 + (n - 1) + (-1) * n) by lia.
  rewrite Z.mod_add by lia. rewrite <-Z.add_mod_idemp_l, Hmod by lia. cbn. rewrite Z.mod_small by lia. lia.
Qed.

(** ** Witnesses and departures *)

Lemma rollover_exact_witness :
  let r := rollover_run 4 [NewHeight 5; SessionFetched (Some 20); NewHeight 19] in
  getSessionRolloverState r = false /\ session_ends [NewHeight 5; SessionFetched (Some 20); NewHeight 19] = [] \/
  exists x, x ∈ session_ends [NewHeight 5; SessionFetched (Some 20); NewHeight 19] /\
    (getSessionRolloverState r = true <-> 0 < ro_currentBlockHeight r /\ x - 1 <= ro_currentBlockHeight r <= x + 4).
Proof. apply (rollover_exact 4); [lia | repeat constructor; cbn; lia]. Defined.

(** Sessions of twenty blocks at height 41, for any app, delegating to [gw]. *)
Definition twenty_chain (gw : string) : chain :=
  mkChain (fun _ app k => let start := session_start (if k =? 0 then 41 else k) 20 in
             Some (mkChainSession ("session" +:+ fmt_int start) start (start + 20 - 1) (mkApplication app [gw] ["eth"])))
    (Some (mkSharedParams 20 10)) (Some 41).

Lemma twenty_chain_at gw : chain_at (twenty_chain gw) "eth" "app1" 41 20 10.
Proof.
  split; [done | done | done |]. intros k Hk. eexists. split; [reflexivity|]. cbn -[session_start]. rewrite (proj2 (Z.eqb_neq k 0)) by lia. done.
Qed.

Definition fresh_node (gw : string) : cachingFullNode := mkCachingNode (mkLazyNode (twenty_chain gw) (newSessionRolloverState 4)) ∅ None None.

Lemma extended_session_recent_witness :
  match (caching_GetSessionWithExtendedValidity (fresh_node "gateway") "eth" "app1").1 with
  | Some s => cs_SessionStartBlockHeight s <= 41 <= cs_SessionEndBlockHeight s + scaled_grace 10
  | None => False
  end.
Proof.
  destruct (caching_GetSessionWithExtendedValidity (fresh_node "gateway") "eth" "app1") as [[s|] node'] eqn:E.
  - apply (extended_session_recent (twenty_chain "gateway") (newSessionRolloverState 4) "eth" "app1" 41 20 10 s node');
      [apply twenty_chain_at | lia | lia | lia | exact E].
  - vm_compute in E. discriminate E.
Defined.

(** At the first block of a session the previous one is served. *)
Example previous_session_served :
  option_map cs_SessionId (caching_GetSessionWithExtendedValidity (fresh_node "gateway") "eth" "app1").1 = Some "session21".
Proof. vm_compute. reflexivity. Qed.

Definition two_apps : gateway := mkGateway "gateway" GatewayModeCentralized {["eth" := ["app1"; "app2"]]}.

(** Outside a rollover, without insisting on the current session. *)
Lemma current_sessions_vetted_witness :
  match getActiveGatewaySessions two_apps (fresh_node "gateway") "eth" None false with
  | (Ok l, f') => exists apps, current_sessions (fresh_node "gateway") "eth" apps = (map Some l, f') /\
      Forall2 (vetted two_apps) apps l /\ apps <> [] /\
      ((gw_mode two_apps = GatewayModeCentralized /\ apps = default [] (gw_ownedApps two_apps !! "eth")) \/
       (gw_mode two_apps = GatewayModeDelegated /\ exists a, None = Some a /\ apps = [a] /\
          Forall (fun s => appIsStakedForService "eth" (cs_Application s) = true) l))
  | (Err _, _) => False
  end.
Proof.
  destruct (getActiveGatewaySessions two_apps (fresh_node "gateway") "eth" None false) as [[l|e] f'] eqn:E.
  - apply (current_sessions_vetted two_apps (fresh_node "gateway") "eth" None false l f' E). by right.
  - vm_compute in E. discriminate E.
Defined.

(** A service without apps is reported as an internal error: its own error type is never used,
    because the error is formatted and not wrapped. *)
Theorem no_apps_error_untyped {F} `{!FullNode F} p (f : F) serviceID force :
  default [] (gw_ownedApps p !! serviceID) = [] ->
  match getCentralizedGatewayModeActiveSessions p f serviceID force with
  | (Err e, _) => translateContextSetupErrorToRequestErrorType e = SHANNON_REQUEST_ERROR_INTERNAL
  | (Ok _, _) => False
  end.
Proof. intros H. unfold getCentralizedGatewayModeActiveSessions. by rewrite H. Qed.

(** During a rollover the delegation is not checked: an app that delegates to another gateway is
    served then, and refused at any other time. *)
Theorem rollover_skips_delegation :
  let node inRollover := mkLazyNode (twenty_chain "another gateway") (mkRollover 4 41 39 44 inRollover) in
  (exists l, (getActiveGatewaySessions two_apps (node true) "eth" None false).1 = Ok l /\ List.length l = 2%nat) /\
  (getActiveGatewaySessions two_apps (node false) "eth" None false).1 = Err [errProtocolContextSetupAppDoesNotDelegate].
Proof. split; [eexists; split; [vm_compute; reflexivity | reflexivity] | vm_compute; reflexivity]. Qed.
