(* ===== verification/EvmExtract.v ===== *)
(** * What is read out of EVM requests and responses

    qos/types/extractor.go (the extraction of all data of a response), qos/evm/extractor.go and
    qos/evm/archival_heuristic.go.  Both query JSON with the gjson package, which is the class
    [Gjson]: a function from a document and a path to the value there. *)

From S2P Require Import Prelude GoStrings Utf8 RepKey HealthCheck.
From Stdlib Require Import ZArith Lia Bool Ascii String.
From stdpp Require Import base gmap strings list.

Open Scope string_scope.
Open Scope Z_scope.

(** ** gjson *)

Inductive gjson_type := GNull | GFalse | GNumber | GString | GTrue | GJSON.

#[export] Instance gjson_type_eq_dec : EqDecision gjson_type.
Proof. solve_decision. Defined.

Record gjson_result := mkGResult { g_Type : gjson_type; g_String : string; g_IsObject : bool }.

(** [GetBytes], [None] where [Exists] is false, and [ValidBytes]. *)
Class Gjson := {
  gjson_Get : string -> string -> option gjson_result;
  gjson_Valid : string -> bool;
}.

(** [gjson.GetBytes(json, path).String()] *)
Definition get_string `{Gjson} (json path : string) : string := match gjson_Get json path with Some r => g_String r | None => "" end.

(** The value is there and is not null. *)
Definition has_value `{Gjson} (json path : string) : bool :=
  match gjson_Get json path with Some r => negb (bool_decide (g_Type r = GNull)) | None => false end.

(** ** The data of a response *)

(** The errors by what callers tell apart. *)
Inductive extract_error := ErrInvalidBlockHeightResult | NotDetermined.

Record DataExtractor := mkExtractor {
  dx_ExtractBlockHeight : string -> string -> result extract_error Z;
  dx_ExtractChainID : string -> string -> result extract_error string;
  dx_IsSyncing : string -> string -> result extract_error bool;
  dx_IsArchival : string -> string -> result extract_error bool;
  dx_IsValidResponse : string -> string -> result extract_error bool;
}.

Record extracted := mkExtracted {
  ex_BlockHeight : Z;
  ex_InvalidBlockHeight : bool;
  ex_ChainID : string;
  ex_IsSyncing : bool;
  ex_SyncCheckPerformed : bool;
  ex_IsArchival : bool;
  ex_ArchivalCheckPerformed : bool;
  ex_IsValidResponse : bool;
  ex_Errors : list string; (* the fields that failed *)
}.

Definition ok_or {E A} (r : result E A) (d : A) : A := match r with Ok x => x | Err _ => d end.
Definition failed_field {E A} (name : string) (r : result E A) : list string := match r with Ok _ => [] | Err _ => [name] end.

Record ExtractionConfig := mkExtractionConfig {
  xc_ExtractBlockHeight : bool;
  xc_ExtractChainID : bool;
  xc_CheckSyncStatus : bool;
  xc_CheckArchival : bool;
  xc_ValidateResponse : bool;
}.

Definition DefaultExtractionConfig : ExtractionConfig := mkExtractionConfig true true true true true.

Definition ExtractWithConfig (x : DataExtractor) (request response : string) (c : ExtractionConfig) : extracted :=
  let height := dx_ExtractBlockHeight x request response in let chain := dx_ExtractChainID x request response in
  let syncing := dx_IsSyncing x request response in let archival := dx_IsArchival x request response in
  let valid := dx_IsValidResponse x request response in
  mkExtracted (if xc_ExtractBlockHeight c then ok_or height 0 else 0)
    (xc_ExtractBlockHeight c && match height with Err ErrInvalidBlockHeightResult => true | _ => false end)
    (if xc_ExtractChainID c then ok_or chain "" else "")
    (xc_CheckSyncStatus c && ok_or syncing false) (xc_CheckSyncStatus c && is_ok syncing)
    (xc_CheckArchival c && ok_or archival false) (xc_CheckArchival c && is_ok archival)
    (xc_ValidateResponse c && ok_or valid false)
    ((if xc_ExtractBlockHeight c then failed_field "block_height" height else []) ++
     (if xc_ExtractChainID c then failed_field "chain_id" chain else []) ++
     (if xc_CheckSyncStatus c then failed_field "is_syncing" syncing else []) ++
     (if xc_CheckArchival c then failed_field "is_archival" archival else []) ++
     (if xc_ValidateResponse c then failed_field "is_valid" valid else []))%list.

Definition ExtractAll (x : DataExtractor) (request response : string) : extracted :=
  let height := dx_ExtractBlockHeight x request response in let chain := dx_ExtractChainID x request response in
  let syncing := dx_IsSyncing x request response in let archival := dx_IsArchival x request response in
  let valid := dx_IsValidResponse x request response in
  mkExtracted (ok_or height 0) (match height with Err ErrInvalidBlockHeightResult => true | _ => false end)
    (ok_or chain "") (ok_or syncing false) (is_ok syncing) (ok_or archival false) (is_ok archival) (ok_or valid false)
    (failed_field "block_height" height ++ failed_field "chain_id" chain ++ failed_field "is_syncing" syncing ++
     failed_field "is_archival" archival ++ failed_field "is_valid" valid)%list.

(** ** Block parameters *)

Definition trim_prefix (p s : string) : string := if has_prefix p s then str_drop (String.length p) s else s.
Definition clean_hex (s : string) : string := trim_prefix "0X" (trim_prefix "0x" s).

(** [strconv.ParseUint(s, 16, 64)] *)
Definition parse_hex_uint (s : string) : option Z :=
  if contains_byte "_" s || (s =? "")%string then None else parse_base 16 0 s.

Definition parseBlockNumber (blockParam : string) : option Z := parse_hex_uint (clean_hex blockParam).
Definition parseHexToInt64 (hexStr : string) : option Z := parse_hex_int (clean_hex hexStr).

Definition BlockTagLatest : string := "latest".
Definition BlockTagPending : string := "pending".
Definition BlockTagEarliest : string := "earliest".
Definition BlockTagSafe : string := "safe".
Definition BlockTagFinalized : string := "finalized".
Definition current_tags : list string := [BlockTagLatest; BlockTagPending; BlockTagSafe; BlockTagFinalized].

Record methodBlockParamInfo := mkBlockParam { bp_paramIndex : Z; bp_isObject : bool; bp_objectKey : string }.
Definition at_index (i : Z) : methodBlockParamInfo := mkBlockParam i false "".

Definition evmMethodBlockParams : gmap string methodBlockParamInfo := list_to_map
  [ ("eth_getBalance", at_index 1); ("eth_getTransactionCount", at_index 1); ("eth_getCode", at_index 1);
    ("eth_call", at_index 1); ("eth_estimateGas", at_index 1); ("eth_getStorageAt", at_index 2); ("eth_getProof", at_index 2);
    ("eth_getBlockByNumber", at_index 0); ("eth_getBlockTransactionCountByNumber", at_index 0);
    ("eth_getUncleCountByBlockNumber", at_index 0); ("eth_getUncleByBlockNumberAndIndex", at_index 0);
    ("eth_getTransactionByBlockNumberAndIndex", at_index 0);
    ("eth_getLogs", mkBlockParam 0 true "fromBlock"); ("eth_newFilter", mkBlockParam 0 true "fromBlock") ].

Definition param_path (info : methodBlockParamInfo) : string :=
  "params." +:+ fmt_int (bp_paramIndex info) +:+ (if bp_isObject info then "." +:+ bp_objectKey info else "").

Section Extract.
Context `{Gjson} `{UnicodeCase}.

(** ** The archival heuristic *)

Record ArchivalHeuristicResult := mkArchivalResult {
  ah_RequiresArchival : bool;
  ah_Reason : string;
  ah_RequestedBlock : Z;
  ah_BlockTag : string;
  ah_Method : string;
}.

Definition DefaultArchivalThreshold : Z := 128.
Definition NewArchivalHeuristic (threshold : Z) : Z := if threshold =? 0 then DefaultArchivalThreshold else threshold.

Definition extractBlockParam (requestBody : string) (info : methodBlockParamInfo) : string := get_string requestBody (param_path info).

Definition analyzeBlockParam (threshold : Z) (blockParam : string) (perceivedBlock : Z) (method : string) : ArchivalHeuristicResult :=
  let blockParamLower := to_lower_u blockParam in
  if bool_decide (blockParamLower ∈ current_tags) then mkArchivalResult false "block_tag_current" 0 blockParamLower method
  else if (blockParamLower =? BlockTagEarliest)%string then mkArchivalResult true "block_tag_earliest" 0 BlockTagEarliest method
  else match parseBlockNumber blockParam with
       | None => mkArchivalResult false "block_param_parse_error" 0 "" method
       | Some requestedBlock =>
           if perceivedBlock =? 0 then mkArchivalResult false "no_perceived_block" requestedBlock "" method
           else if (requestedBlock <? perceivedBlock) && (threshold <? perceivedBlock - requestedBlock)
           then mkArchivalResult true "block_behind_threshold" requestedBlock "" method
           else mkArchivalResult false "block_within_threshold" requestedBlock "" method
       end.

Definition IsArchivalRequest (threshold : Z) (requestBody : string) (perceivedBlock : Z) : ArchivalHeuristicResult :=
  if (String.length requestBody <? 10)%nat then mkArchivalResult false "request_too_short" 0 "" ""
  else match gjson_Get requestBody "method" with
       | None => mkArchivalResult false "no_method_field" 0 "" ""
       | Some r =>
           let method := g_String r in
           match evmMethodBlockParams !! method with
           | None => mkArchivalResult false "method_no_block_param" 0 "" method
           | Some blockInfo =>
               let blockParam := extractBlockParam requestBody blockInfo in
               if (blockParam =? "")%string then mkArchivalResult false "no_block_param_defaults_latest" 0 BlockTagLatest method
               else analyzeBlockParam threshold blockParam perceivedBlock method
           end
       end.

(** The detection of the validator: batches are not looked at. *)
Definition archival_requirement (threshold : Z) (requestBody : string) (isBatch : bool) (perceivedBlock : Z) : bool :=
  negb isBatch && ah_RequiresArchival (IsArchivalRequest threshold requestBody perceivedBlock).

(** ** The EVM extractor *)

Definition isMethod (request method : string) : bool := (get_string request "method" =? method)%string.
Definition responseHasNonNullResult (response : string) : bool := has_value response "result".

Definition extractStringResult (response : string) : result extract_error string :=
  if has_value response "error" then Err NotDetermined
  else match gjson_Get response "result" with
       | Some r => if bool_decide (g_Type r = GString) then Ok (g_String r) else Err NotDetermined
       | None => Err NotDetermined
       end.

Definition EVM_ExtractBlockHeight (request response : string) : result extract_error Z :=
  if negb (isMethod request "eth_blockNumber") then Err NotDetermined
  else match extractStringResult response with
       | Err _ => Err (if responseHasNonNullResult response then ErrInvalidBlockHeightResult else NotDetermined)
       | Ok s => match parseHexToInt64 s with Some h => Ok h | None => Err ErrInvalidBlockHeightResult end
       end.

Definition EVM_ExtractChainID (request response : string) : result extract_error string :=
  if negb (isMethod request "eth_chainId") then Err NotDetermined else extractStringResult response.

Definition EVM_IsSyncing (request response : string) : result extract_error bool :=
  if negb (isMethod request "eth_syncing") then Err NotDetermined
  else if has_value response "error" then Err NotDetermined
  else match gjson_Get response "result" with
       | None => Err NotDetermined
       | Some r => match g_Type r with
                   | GFalse => Ok false
                   | GTrue => Ok true
                   | _ => if g_IsObject r then Ok true else Err NotDetermined
                   end
       end.

Definition targetsHistoricalBlock (request method : string) : bool :=
  match evmMethodBlockParams !! method with
  | None => false
  | Some info =>
      match gjson_Get request (param_path info) with
      | None => false
      | Some param =>
          let tag := to_lower_u (g_String param) in
          if (tag =? BlockTagEarliest)%string then true
          else if bool_decide (tag ∈ current_tags) then false
          else match parseBlockNumber (g_String param) with Some _ => true | None => false end
      end
  end.

Definition archivalMethods : list string :=
  ["eth_getBalance"; "eth_getStorageAt"; "eth_getTransactionCount"; "eth_getCode"; "eth_call"].

Definition archivalErrorIndicators : list string :=
  [ "missing trie node"; "metadata is not found"; "pruned"; "ancient block"; "block not found"; "header not found";
    "state not available"; "state histories"; "not fully indexed"; "historical data"; "historical state" ].

Definition EVM_IsArchival (request response : string) : result extract_error bool :=
  if (request =? "")%string then Err NotDetermined
  else
    let method := get_string request "method" in
    if negb (bool_decide (method ∈ archivalMethods)) then Err NotDetermined
    else if has_value response "error" then
      if existsb (str_contains (to_lower_u (get_string response "error.message"))) archivalErrorIndicators then Ok false else Err NotDetermined
    else if has_value response "result" then
      if targetsHistoricalBlock request method then Ok true else Err NotDetermined
    else Err NotDetermined.

Definition EVM_IsValidResponse (request response : string) : result extract_error bool :=
  if (response =? "")%string then Ok false
  else if negb (gjson_Valid response) then Ok false
  else if negb (get_string response "jsonrpc" =? "2.0")%string then Ok false
  else
    let hasResult := match gjson_Get response "result" with Some _ => true | None => false end in
    let hasError := has_value response "error" in
    Ok (hasResult && negb hasError).

Definition EVMDataExtractor : DataExtractor :=
  mkExtractor EVM_ExtractBlockHeight EVM_ExtractChainID EVM_IsSyncing EVM_IsArchival EVM_IsValidResponse.
End Extract.
