(* ===== verification/ObsQueue.v ===== *)
(** * The observation queue: gateway/observation_queue.go, observation_handler.go, qos/types/registry.go

    Sampled responses wait for a worker that extracts their data and hands it to the QoS service.
    The worker pool is third-party: whether it takes a job is an input, and the jobs it took are the
    pending observations, which a worker may process in any order. *)

From S2P Require Import Prelude Score RepConfig RepStorage RepService GoStrings Utf8 GoSort Float64 Domain RepKey Signals SelectionProps Json Heuristic HeuristicProps RelayPolicy BlockConsensus EvmQoS EvmQoSProps PoolGuards RpcDetect Leader HealthConfig HealthCheck HealthCheckProps HealthDemo EvmExtract RPCTypes.
From Stdlib Require Import ZArith Lia Bool Ascii String.
From stdpp Require Import relations base gmap strings fin_maps list.

Open Scope string_scope.
Open Scope Z_scope.
Open Scope list_scope.

(** ** Extractors by service *)

Definition NoOpDataExtractor : DataExtractor :=
  mkExtractor (fun _ _ => Err NotDetermined) (fun _ _ => Err NotDetermined) (fun _ _ => Err NotDetermined) (fun _ _ => Err NotDetermined)
    (fun _ response => Ok (negb (response =? "")%string)).

Record ExtractorRegistry := mkRegistry {
  xr_extractors : gmap string DataExtractor;
  xr_fallback : DataExtractor;
}.

Definition NewExtractorRegistry : ExtractorRegistry := mkRegistry ∅ NoOpDataExtractor.
Definition registry_Register (r : ExtractorRegistry) (serviceID : string) (x : DataExtractor) : ExtractorRegistry :=
  mkRegistry (<[serviceID := x]> (xr_extractors r)) (xr_fallback r).
Definition registry_RegisterMultiple (r : ExtractorRegistry) (xs : gmap string DataExtractor) : ExtractorRegistry :=
  mkRegistry (xs ∪ xr_extractors r) (xr_fallback r).
Definition registry_Get (r : ExtractorRegistry) (serviceID : string) : DataExtractor := default (xr_fallback r) (xr_extractors r !! serviceID).
Definition registry_Has (r : ExtractorRegistry) (serviceID : string) : bool := bool_decide (is_Some (xr_extractors r !! serviceID)).
Definition registry_SetFallback (r : ExtractorRegistry) (x : DataExtractor) : ExtractorRegistry := mkRegistry (xr_extractors r) x.
Definition registry_Count (r : ExtractorRegistry) : nat := size (xr_extractors r).

(** ** The queue *)

Record ObservationQueueConfig := mkQueueConfig {
  oqc_Enabled : bool;
  oqc_SampleRate : float64;
  oqc_WorkerCount : Z;
  oqc_QueueSize : Z;
}.

Definition DefaultObservationSampleRate : float64 := f64_ratio 1 10.
Definition DefaultObservationWorkerCount : Z := 4.
Definition DefaultObservationQueueSize : Z := 1000.

Definition ObservationQueueConfig_HydrateDefaults (c : ObservationQueueConfig) : ObservationQueueConfig :=
  mkQueueConfig (oqc_Enabled c)
    (if feqb (oqc_SampleRate c) f_zero then DefaultObservationSampleRate else oqc_SampleRate c)
    (if oqc_WorkerCount c =? 0 then DefaultObservationWorkerCount else oqc_WorkerCount c)
    (if oqc_QueueSize c =? 0 then DefaultObservationQueueSize else oqc_QueueSize c).

Record QueuedObservation := mkObservation {
  qo_ServiceID : string;
  qo_EndpointAddr : EndpointAddr;
  qo_IsArchivalCheck : bool;
  qo_RequestBody : string;
  qo_ResponseStatusCode : Z;
  qo_ResponseBody : string;
}.

(** What the handler does with extracted data, on the QoS state [Q]. *)
Section Queue.
Context {Q : Type} (handle : Q -> QueuedObservation -> extracted -> Q).

Record ObservationQueue := mkQueue {
  oq_config : ObservationQueueConfig;
  oq_registry : ExtractorRegistry;
  oq_perServiceRates : gmap string float64;
  oq_pending : list QueuedObservation;
  oq_totalQueued : Z;
  oq_totalDropped : Z;
  oq_totalProcessed : Z;
  oq_totalSkipped : Z;
  oq_qos : Q;
}.

Definition NewObservationQueue (config : ObservationQueueConfig) (q : Q) : ObservationQueue :=
  mkQueue (ObservationQueueConfig_HydrateDefaults config) NewExtractorRegistry ∅ [] 0 0 0 0 q.

Definition SetRegistry (q : ObservationQueue) (r : ExtractorRegistry) : ObservationQueue :=
  mkQueue (oq_config q) r (oq_perServiceRates q) (oq_pending q) (oq_totalQueued q) (oq_totalDropped q) (oq_totalProcessed q) (oq_totalSkipped q) (oq_qos q).

Definition SetPerServiceRate (q : ObservationQueue) (serviceID : string) (rate : float64) : ObservationQueue :=
  mkQueue (oq_config q) (oq_registry q) (<[serviceID := rate]> (oq_perServiceRates q)) (oq_pending q)
    (oq_totalQueued q) (oq_totalDropped q) (oq_totalProcessed q) (oq_totalSkipped q) (oq_qos q).

Definition getSampleRate (q : ObservationQueue) (serviceID : string) : float64 :=
  default (oqc_SampleRate (oq_config q)) (oq_perServiceRates q !! serviceID).

(** Offer a job to the pool and count. *)
Definition offer (q : ObservationQueue) (obs : QueuedObservation) (accepted : bool) : bool * ObservationQueue :=
  (accepted,
   mkQueue (oq_config q) (oq_registry q) (oq_perServiceRates q)
     (if accepted then oq_pending q ++ [obs] else oq_pending q)
     (if accepted then oq_totalQueued q + 1 else oq_totalQueued q)
     (if accepted then oq_totalDropped q else oq_totalDropped q + 1) (oq_totalProcessed q) (oq_totalSkipped q) (oq_qos q)).

(** [draw]: the number [rand.Float64] returns. *)
Definition TryQueue (q : ObservationQueue) (obs : QueuedObservation) (draw : float64) (accepted : bool) : bool * ObservationQueue :=
  if negb (oqc_Enabled (oq_config q)) then (false, q)
  else if fgtb draw (getSampleRate q (qo_ServiceID obs)) then
    (false, mkQueue (oq_config q) (oq_registry q) (oq_perServiceRates q) (oq_pending q) (oq_totalQueued q) (oq_totalDropped q)
              (oq_totalProcessed q) (oq_totalSkipped q + 1) (oq_qos q))
  else offer q obs accepted.

Definition queue_Submit (q : ObservationQueue) (obs : QueuedObservation) (accepted : bool) : bool * ObservationQueue :=
  if negb (oqc_Enabled (oq_config q)) then (false, q) else offer q obs accepted.

Definition processObservation (q : ObservationQueue) (obs : QueuedObservation) : ObservationQueue :=
  let data := ExtractAll (registry_Get (oq_registry q) (qo_ServiceID obs)) (qo_RequestBody obs) (qo_ResponseBody obs) in
  mkQueue (oq_config q) (oq_registry q) (oq_perServiceRates q) (oq_pending q) (oq_totalQueued q) (oq_totalDropped q)
    (oq_totalProcessed q + 1) (oq_totalSkipped q) (handle (oq_qos q) obs data).

Definition ProcessSync (q : ObservationQueue) (obs : QueuedObservation) : ObservationQueue :=
  if negb (oqc_Enabled (oq_config q)) then q else processObservation q obs.

Definition set_pending (q : ObservationQueue) (p : list QueuedObservation) : ObservationQueue :=
  mkQueue (oq_config q) (oq_registry q) (oq_perServiceRates q) p (oq_totalQueued q) (oq_totalDropped q) (oq_totalProcessed q) (oq_totalSkipped q) (oq_qos q).

(** What happens to the queue: requests offer observations, workers take pending ones, health checks
    process theirs at once. *)
Inductive queue_event :=
| EvTryQueue (obs : QueuedObservation) (draw : float64) (accepted : bool)
| EvSubmit (obs : QueuedObservation) (accepted : bool)
| EvProcessSync (obs : QueuedObservation)
| EvWorker (i : nat).

Definition queue_step (q : ObservationQueue) (e : queue_event) : ObservationQueue :=
  match e with
  | EvTryQueue obs draw accepted => snd (TryQueue q obs draw accepted)
  | EvSubmit obs accepted => snd (queue_Submit q obs accepted)
  | EvProcessSync obs => ProcessSync q obs
  | EvWorker i => match oq_pending q !! i with
                  | Some obs => processObservation (set_pending q (delete i (oq_pending q))) obs
                  | None => q
                  end
  end.

(** [Stop] waits for the pool: every pending observation is processed. *)
Definition queue_Stop (q : ObservationQueue) : ObservationQueue := fold_left processObservation (oq_pending q) (set_pending q []).

Definition GetMetrics (q : ObservationQueue) : Z * Z * Z * Z := (oq_totalQueued q, oq_totalProcessed q, oq_totalDropped q, oq_totalSkipped q).

(** ** Accounting *)

Definition offered (e : queue_event) : Z := match e with EvTryQueue _ _ _ | EvSubmit _ _ => 1 | _ => 0 end.
Definition synced (e : queue_event) : Z := match e with EvProcessSync _ => 1 | _ => 0 end.

Lemma processed_fold l q : oq_totalProcessed (fold_left processObservation l q) = oq_totalProcessed q + Z.of_nat (List.length l) /\
  oq_totalQueued (fold_left processObservation l q) = oq_totalQueued q /\ oq_totalDropped (fold_left processObservation l q) = oq_totalDropped q /\
  oq_totalSkipped (fold_left processObservation l q) = oq_totalSkipped q.
Proof.
  revert q. induction l as [|x l IH]; intros q; cbn -[Z.of_nat]; [lia|].
  destruct (IH (processObservation q x)) as (-> & -> & -> & ->). cbn -[Z.of_nat]. split_and!; try done. lia.
Qed.

Definition accounted (q : ObservationQueue) (off sync : Z) : Prop :=
  oqc_Enabled (oq_config q) = true /\
  oq_totalQueued q + oq_totalDropped q + oq_totalSkipped q = off /\
  oq_totalProcessed q + Z.of_nat (List.length (oq_pending q)) = oq_totalQueued q + sync.

Lemma accounted_step q e off sync : accounted q off sync -> accounted (queue_step q e) (off + offered e) (sync + synced e).
Proof.
  intros (En & Of & Pr). destruct e as [obs draw acc|obs acc|obs|i]; unfold accounted; cbn -[Z.of_nat].
  - unfold TryQueue. rewrite En. cbn [negb]. destruct (fgtb _ _); [cbn -[Z.of_nat]; split_and!; try done; lia|].
    destruct acc; cbn -[Z.of_nat]; rewrite ?length_app; cbn -[Z.of_nat]; split_and!; try done; lia.
  - unfold queue_Submit. rewrite En. cbn [negb]. destruct acc; cbn -[Z.of_nat]; rewrite ?length_app; cbn -[Z.of_nat]; split_and!; try done; lia.
  - unfold ProcessSync. rewrite En. cbn -[Z.of_nat]. split_and!; try done; lia.
  - destruct (oq_pending q !! i) as [obs|] eqn:L; cbn -[Z.of_nat]; [|split_and!; try done; lia].
    pose proof (lookup_lt_Some _ _ _ L). rewrite length_delete by (by rewrite L). split_and!; try done; lia.
Qed.

Lemma accounted_run events : forall q off sync, accounted q off sync ->
  accounted (fold_left queue_step events q) (fold_left (fun acc e => acc + offered e) events off) (fold_left (fun acc e => acc + synced e) events sync).
Proof. induction events as [|e events IH]; intros q off sync A; [exact A|]. cbn [fold_left]. apply IH. by apply accounted_step. Qed.

(** No observation is lost without a trace: after any sequence of offers, workers and health
    checks on an enabled queue, every observation offered was queued, dropped or skipped and counted
    so exactly once, and once the queue has stopped every queued one has been processed, next to
    those of the health checks. *)
Theorem queue_accounts_for_all config q0 events : oqc_Enabled config = true ->
  let q := fold_left queue_step events (NewObservationQueue config q0) in
  let '(queued, processed, dropped, skipped) := GetMetrics (queue_Stop q) in
  queued + dropped + skipped = zsum offered events /\ processed = queued + zsum synced events.
Proof.
  intros En. cbn zeta. set (q := fold_left _ _ _).
  assert (A : accounted q (zsum offered events) (zsum synced events)).
  { apply accounted_run. unfold accounted. cbn. by rewrite En. }
  destruct A as (_ & Of & Pr). unfold GetMetrics, queue_Stop. destruct (processed_fold (oq_pending q) (set_pending q [])) as (-> & -> & -> & ->).
  cbn -[Z.of_nat]. lia.
Qed.
End Queue.

(** ** From a response to the state of the EVM service

    When a request needs an archival node, what makes an endpoint count as one, and how the
    observations of health checks reach the service: the archival mark of an observation is set
    before the check has passed, and a height of zero is taken for no height. *)

Open Scope string_scope.
Open Scope Z_scope.
Open Scope list_scope.

Section Archival.
Context `{Gjson} `{UnicodeCase}.

(** ** Requests *)

(** C35: a request needs an archival node exactly when its block is deeper than the threshold: for a
    method with a block parameter that is a number, against a known chain tip; the tag earliest
    always does, the tags of the tip never. *)
Theorem archival_request_exact threshold body perceived r info s : (10 <= String.length body)%nat -> 0 < perceived -> 0 <= threshold ->
  gjson_Get body "method" = Some r -> evmMethodBlockParams !! g_String r = Some info ->
  extractBlockParam body info = s -> s <> "" ->
  (ah_RequiresArchival (IsArchivalRequest threshold body perceived) = true <->
    to_lower_u s ∉ current_tags /\
    (to_lower_u s = BlockTagEarliest \/ exists n, parseBlockNumber s = Some n /\ n + threshold < perceived)).
Proof.
  intros Hl Hp Ht Hm Hi Hs Hn. unfold IsArchivalRequest. rewrite (proj2 (Nat.ltb_ge _ _) Hl), Hm, Hi. cbn zeta. rewrite Hs.
  rewrite (proj2 (String.eqb_neq _ _) Hn). unfold analyzeBlockParam. case_bool_decide as T; [cbn; split; [done|tauto]|].
  destruct (String.eqb_spec (to_lower_u s) BlockTagEarliest) as [E|E]; [cbn; tauto|].
  destruct (parseBlockNumber s) as [n|]; [|cbn; split; [done|intros [_ [?|(? & ? & _)]]; congruence]].
  rewrite (proj2 (Z.eqb_neq perceived 0)) by lia.
  assert (D : (n <? perceived) && (threshold <? perceived - n) = true <-> n + threshold < perceived) by (rewrite andb_true_iff, !Z.ltb_lt; lia).
  destruct (_ && _); cbn; split; try done.
  - intros _. split; [done|]. right. exists n. by rewrite <- D.
  - intros [_ [?|(n' & [= <-] & L)]]; [done|]. by apply D in L.
Qed.

(** ** Responses *)

(** User traffic promotes only what it proves: a response makes an endpoint archival exactly when it
    has a result and no error, for one of the five state methods asked at a block that is named by
    number or as the earliest. *)
Theorem archival_promotion_exact request response :
  EVM_IsArchival request response = Ok true <->
    request <> "" /\ get_string request "method" ∈ archivalMethods /\ has_value response "error" = false /\
    has_value response "result" = true /\ targetsHistoricalBlock request (get_string request "method") = true.
Proof.
  unfold EVM_IsArchival. destruct (String.eqb_spec request "") as [E|E]; [split; [done|tauto]|]. case_bool_decide as M; cbn [negb]; [|split; [done|tauto]].
  destruct (has_value response "error"); [destruct (existsb _ _); split; (done || naive_solver)|].
  destruct (has_value response "result"); [|split; [done|naive_solver]].
  destruct (targetsHistoricalBlock _ _); split; (done || naive_solver).
Qed.

(** A request that was routed to archival nodes settles the question: for the five state methods
    a result promotes the endpoint that gave it, and one of the known wordings of missing state
    demotes it. *)
Theorem archival_requests_conclusive threshold request perceived response :
  ah_RequiresArchival (IsArchivalRequest threshold request perceived) = true -> get_string request "method" ∈ archivalMethods ->
  (has_value response "error" = false -> has_value response "result" = true -> EVM_IsArchival request response = Ok true) /\
  (has_value response "error" = true ->
   existsb (str_contains (to_lower_u (get_string response "error.message"))) archivalErrorIndicators = true ->
   EVM_IsArchival request response = Ok false).
Proof.
  intros R M. assert (Ne : request <> "") by (intros ->; done).
  split; intros He Hr; unfold EVM_IsArchival; rewrite (proj2 (String.eqb_neq _ _) Ne), bool_decide_eq_true_2 by done; cbn [negb]; rewrite He, Hr; [|done].
  assert (T : targetsHistoricalBlock request (get_string request "method") = true); [|by rewrite T].
  revert R. unfold IsArchivalRequest, targetsHistoricalBlock, get_string. destruct (_ <? _)%nat; [done|].
  destruct (gjson_Get request "method") as [r|]; [|done]. destruct (evmMethodBlockParams !! g_String r) as [info|]; [|done].
  unfold extractBlockParam, get_string. destruct (gjson_Get request (param_path info)) as [q|]; [|done].
  destruct (_ =? "")%string; [done|]. unfold analyzeBlockParam. case_bool_decide as T; [done|].
  destruct (_ =? BlockTagEarliest)%string; [done|]. by destruct (parseBlockNumber (g_String q)).
Qed.

(** The two catalogues of missing-state errors differ: the heuristics take an error that speaks of
    data that has not been fully indexed for an archival limitation, and the extractor, whose list
    has the wording not fully indexed, leaves the endpoint that sent it archival. *)
Theorem catalogues_differ request response :
  has_value response "error" = true -> to_lower_u (get_string response "error.message") = "logs have not been fully indexed yet" ->
  IsArchivalRelatedError "not been fully indexed" = true /\
  str_contains (to_lower_u (get_string response "error.message")) "not been fully indexed" = true /\
  EVM_IsArchival request response = Err NotDetermined.
Proof.
  intros He Hm. split; [done|]. split; [by rewrite Hm|]. unfold EVM_IsArchival. destruct (request =? "")%string; [done|].
  destruct (negb _); [done|]. by rewrite He, Hm.
Qed.
End Archival.

(** ** Into the EVM service *)

(** The fields the EVM service reads. *)
Definition evm_data (d : extracted) : ExtractedData :=
  mkExtractedData (ex_BlockHeight d) (ex_InvalidBlockHeight d) (ex_IsArchival d) (ex_ArchivalCheckPerformed d).

Section Service.
Context `{RepKey.RPCTypeEnum} `{EVMRPCTypes} `{SliceSort}.

(** DefaultObservationHandler.HandleExtractedData, over the EVM instances. *)
Definition HandleExtractedData (now : Time) (hasSvc : bool) (instances : gmap string serviceState) (obs : QueuedObservation) (d : extracted)
  : gmap string serviceState :=
  match instances !! qo_ServiceID obs with
  | Some ss => <[qo_ServiceID obs := fst (UpdateFromExtractedData ss now hasSvc (qo_EndpointAddr obs) (Some (evm_data d)))]> instances
  | None => instances
  end.

(** The update of [markEndpointArchival] and [clearEndpointArchival] on the local instance. *)
Definition archival_update (isArchival : bool) : ExtractedData := mkExtractedData 0 false isArchival (negb isArchival).

Lemma update_endpoint ss now hasSvc addr d :
  endpoints (fst (UpdateFromExtractedData ss now hasSvc addr (Some d))) !! addr =
  Some (let stored := default zero_endpoint (endpoints ss !! addr) in
        let stored := match extracted_block d with Some n => set_checkBlockNumber stored n | None => stored end in
        if ed_ArchivalCheckPerformed d then set_checkArchival stored (mkCheckArchival (ed_IsArchival d) (time_add now ArchivalStatusTTL)) else stored).
Proof.
  unfold UpdateFromExtractedData. cbn zeta. cbn [fst].
  assert (Ob : forall ss' h, endpoints (observe_block ss' now addr h) = endpoints ss').
  { intros ss' h. unfold observe_block. destruct (blockConsensus ss') as [c|]; [|done]. by destruct (AddObservation c now addr h). }
  destruct (0 <? _); rewrite ?Ob; cbn; by rewrite lookup_insert_eq.
Qed.

(** A passed archival check does not mark the endpoint on its own replica: the update it sends to
    the local service lacks the flag that says an archival check was made, and leaves the archival
    state of the endpoint as it was; the update of a failed check has it and clears the state. *)
Theorem archival_mark_not_local ss now hasSvc addr :
  let state ss' := checkArchival (default zero_endpoint (endpoints ss' !! addr)) in
  state (fst (UpdateFromExtractedData ss now hasSvc addr (Some (archival_update true)))) = state ss /\
  check_isArchivalCapable (state (fst (UpdateFromExtractedData ss now hasSvc addr (Some (archival_update false))))) now = false.
Proof. cbv zeta beta. rewrite !update_endpoint. by cbn. Qed.

(** A block height of zero or below counts as no height: a response whose height can be read but
    is not positive leaves the stored height as it was, where one that cannot be read stores 0 for
    the filter to catch. *)
Theorem zero_height_ignored `{Gjson} `{UnicodeCase} ss now hasSvc addr request response h :
  EVM_ExtractBlockHeight request response = Ok h -> h <= 0 ->
  let state ss' := checkBlockNumber (default zero_endpoint (endpoints ss' !! addr)) in
  state (fst (UpdateFromExtractedData ss now hasSvc addr (Some (evm_data (ExtractAll EVMDataExtractor request response))))) = state ss.
Proof.
  intros E Hh. cbv zeta beta. rewrite update_endpoint. unfold evm_data, ExtractAll, EVMDataExtractor, extracted_block. cbn. rewrite E. cbn.
  rewrite (proj2 (Z.ltb_ge 0 h) Hh). by destruct (is_ok _).
Qed.

Context `{Gjson} `{UnicodeCase} `{RPCTypeMembers} `{RPCTypeConfig} `{DomainLib} `{GoQuote}.

(** The observation a health check hands over. *)
Definition probe_observation (serviceID : string) (addr : EndpointAddr) (check : HealthCheckConfig) (httpStatus : Z) (body : string) : QueuedObservation :=
  mkObservation serviceID addr (hcc_Archival check) (pl_Data (buildServicePayload check)) httpStatus body.

(** C40: a false success marks the endpoint archival although the check fails: the response of a check
    that asks for state at a historical block is extracted before its known errors are looked for,
    and extraction alone sets the archival state of the endpoint, which the failing check then leaves
    in place for half an hour. *)
Theorem false_success_marks_archival env serviceID addr check sa l rs sg e reg config (inst : gmap string serviceState) ss hasSvc :
  switched_on (hcc_Enabled check) = true -> pe_observing env = true -> meets_expectations check rs = true ->
  detectKnownErrors (hcc_ErrorDetection check) (last_status rs) (last_body rs) = Some (sg, e) ->
  ShouldRetry (Analyze Heuristic.DefaultConfig (last_body rs) (last_status rs) (EffectiveRPCType (buildServicePayload check)) (payload_method (buildServicePayload check))) = false ->
  EVM_IsArchival (hcc_Body check) (last_body rs) = Ok true ->
  registry_Get reg serviceID = EVMDataExtractor -> oqc_Enabled config = true -> inst !! serviceID = Some ss -> time_zero < pe_now env ->
  let '(o, es) := ExecuteCheckViaProtocol env serviceID addr check sa l (ProbeAnswered rs) in
  let q := ProcessSync (HandleExtractedData (pe_now env) hasSvc) (SetRegistry (NewObservationQueue config inst) reg)
             (probe_observation serviceID addr check (last_status rs) (last_body rs)) in
  is_Some (co_err o) /\ Observed addr (hcc_Archival check) (buildServicePayload check) (last_status rs) (last_body rs) ∈ es /\
  exists ss' ep, oq_qos q !! serviceID = Some ss' /\ endpoints ss' !! addr = Some ep /\ check_isArchivalCapable (checkArchival ep) (pe_now env) = true.
Proof.
  intros On Ob Me De Sr Ar Rg En Is Tz. unfold ExecuteCheckViaProtocol. rewrite On. cbn [negb].
  fold (meets_expectations check rs). fold (last_status rs). fold (last_body rs). rewrite Sr, Me. cbn [negb].
  assert (Js : exists o, judge_response env serviceID addr check sa l (last_status rs) (last_body rs) = (o, []) /\ is_Some (co_err o)).
  { unfold judge_response. rewrite De. destruct (if _ && _ then _ else _); by eexists. }
  destruct Js as (o & -> & Eo). unfold processObservationSync. rewrite Ob. split; [done|]. split; [set_solver|].
  unfold ProcessSync. cbn [oq_config SetRegistry NewObservationQueue]. cbn [oqc_Enabled ObservationQueueConfig_HydrateDefaults]. rewrite En. cbn [negb].
  unfold processObservation, HandleExtractedData. cbn [oq_qos oq_registry SetRegistry NewObservationQueue qo_ServiceID qo_EndpointAddr qo_RequestBody qo_ResponseBody probe_observation].
  rewrite Is, Rg, lookup_insert_eq. eexists _, _. split; [reflexivity|]. rewrite update_endpoint. split; [reflexivity|].
  unfold ExtractAll, evm_data. cbn -[ArchivalStatusTTL extracted_block]. rewrite Ar. cbn -[ArchivalStatusTTL extracted_block].
  unfold check_isArchivalCapable, archival_isValid. cbn -[ArchivalStatusTTL]. unfold time_is_zero, time_before, time_add.
  assert (0 < ArchivalStatusTTL) by (by vm_compute).
  rewrite (proj2 (Z.eqb_neq _ _)) by lia. cbn [negb]. by apply Z.ltb_lt; lia.
Qed.
End Service.

(** ** Concrete observations

    gjson over the JSON parser for plain paths, a balance request at block 1, and the instances of
    the theorems on archival nodes and the observation queue. *)

Open Scope string_scope.
Open Scope Z_scope.
Open Scope list_scope.

#[local] Existing Instance plain_quote.

Definition g_of (raw : string) (v : json) : gjson_result :=
  match v with
  | JNull => mkGResult GNull "" false
  | JBool b => if b then mkGResult GTrue "true" false else mkGResult GFalse "false" false
  | JNumber lit => mkGResult GNumber lit false
  | JString r => mkGResult GString (unquote r) false
  | JArray _ => mkGResult GJSON raw false
  | JObject _ => mkGResult GJSON raw true
  end.

Fixpoint navigate (path : list string) (raw : string) (v : json) : option gjson_result :=
  match path with
  | [] => Some (g_of raw v)
  | k :: path =>
      match v with
      | JObject ms => match List.find (fun m => (unquote (fst m) =? k)%string) ms with Some (_, (raw', v')) => navigate path raw' v' | None => None end
      | JArray es => match parse_int k with Some i => match es !! Z.to_nat i with Some (raw', v') => navigate path raw' v' | None => None end | None => None end
      | _ => None
      end
  end.

#[export] Instance plain_gjson : Gjson := {|
  gjson_Get doc path := match parse doc with Some v => navigate (split_byte "." path) doc v | None => None end;
  gjson_Valid := json_valid;
|}.


(** eth_getBalance at a block. *)
Definition balance_at (block : string) : string :=
  "{" +:+ quoted "method" +:+ ":" +:+ quoted "eth_getBalance" +:+ "," +:+ quoted "params" +:+ ":[" +:+ quoted "0xab" +:+ "," +:+ quoted block +:+ "]}".

Definition failure (message : string) : string :=
  "{" +:+ quoted "error" +:+ ":{" +:+ quoted "message" +:+ ":" +:+ quoted message +:+ "}}".

Lemma archival_request_exact_witness :
  (ah_RequiresArchival (IsArchivalRequest 128 (balance_at "0x1") 1000) = true) <->
    ((to_lower_u "0x1" ∉ current_tags) /\
    (to_lower_u "0x1" = BlockTagEarliest \/ exists n, parseBlockNumber "0x1" = Some n /\ n + 128 < 1000)).
Proof.
  apply (archival_request_exact 128 (balance_at "0x1") 1000 (mkGResult GString "eth_getBalance" false) (at_index 1) "0x1");
    [vm_compute; lia|lia|lia|by vm_compute|by vm_compute|by vm_compute|discriminate].
Defined.

Lemma archival_requests_conclusive_witness :
  EVM_IsArchival (balance_at "0x1") (answer "0x5") = Ok true /\ EVM_IsArchival (balance_at "0x1") (failure "missing trie node 0xab") = Ok false.
Proof.
  split; [apply (archival_requests_conclusive 128 (balance_at "0x1") 1000 (answer "0x5"))
         |apply (archival_requests_conclusive 128 (balance_at "0x1") 1000 (failure "missing trie node 0xab"))];
    try by vm_compute; apply (bool_decide_unpack _); by vm_compute.
  all: apply (bool_decide_unpack _); by vm_compute.
Defined.

Lemma catalogues_differ_witness :
  EVM_IsArchival (balance_at "0x1") (failure "logs have not been fully indexed yet") = Err NotDetermined.
Proof. apply (catalogues_differ (balance_at "0x1") (failure "logs have not been fully indexed yet")); by vm_compute. Defined.

Definition fresh_state : serviceState := NewSimpleQoSInstance demo_now "eth".

Definition height_request : string := "{" +:+ quoted "method" +:+ ":" +:+ quoted "eth_blockNumber" +:+ "}".

Lemma zero_height_ignored_witness :
  checkBlockNumber (default zero_endpoint
    (endpoints (fst (UpdateFromExtractedData fresh_state demo_now false "a" (Some (evm_data (ExtractAll EVMDataExtractor height_request (answer "0x-5"))))) ) !! "a"))
  = checkBlockNumber (default zero_endpoint (endpoints fresh_state !! "a")).
Proof. apply (zero_height_ignored fresh_state demo_now false "a" height_request (answer "0x-5") (-5)); [by vm_compute|lia]. Defined.

(** An archival check that asks for a balance at block 1 and knows 0x0 for a false success. *)
Definition balance_check : HealthCheckConfig :=
  mkHealthCheck "eth_archival" "json_rpc" None "POST" "/" None (balance_at "0x1") 200 "0x" (Some zero_balance) (5 * second) true false "critical_error".

Definition zero_reply : list relay_response :=
  [mkResponse (Some (answer "0x0")) 200 "pokt1a-https://node.example.com" (mkRelayMetadata "" "" "") "1"].

Definition evm_registry : ExtractorRegistry := registry_Register NewExtractorRegistry "eth" EVMDataExtractor.

Definition demo_config : ObservationQueueConfig := mkQueueConfig true f_one 4 10.

Lemma false_success_marks_archival_witness :
  let '(o, es) := ExecuteCheckViaProtocol demo_env "eth" "a" balance_check 0 second (ProbeAnswered zero_reply) in
  let q := ProcessSync (HandleExtractedData (pe_now demo_env) false) (SetRegistry (NewObservationQueue demo_config {["eth" := fresh_state]}) evm_registry)
             (probe_observation "eth" "a" balance_check (last_status zero_reply) (last_body zero_reply)) in
  is_Some (co_err o) /\
  Observed "a" (hcc_Archival balance_check) (buildServicePayload balance_check) (last_status zero_reply) (last_body zero_reply) ∈ es /\
  exists ss' ep, oq_qos q !! "eth" = Some ss' /\ endpoints ss' !! "a" = Some ep /\ check_isArchivalCapable (checkArchival ep) (pe_now demo_env) = true.
Proof.
  refine (false_success_marks_archival demo_env "eth" "a" balance_check 0 second zero_reply _ _ evm_registry demo_config {["eth" := fresh_state]} fresh_state false
    _ _ _ _ _ _ _ _ _ _).
  - reflexivity.
  - reflexivity.
  - by vm_compute.
  - vm_compute. reflexivity.
  - by vm_compute.
  - by vm_compute.
  - unfold registry_Get, evm_registry, registry_Register. cbn [xr_extractors NewExtractorRegistry]. by rewrite lookup_insert_eq.
  - reflexivity.
  - apply lookup_singleton_eq.
  - by vm_compute.
Defined.

(** ** The queue *)

Definition demo_events : list queue_event :=
  [ EvTryQueue (probe_observation "eth" "a" balance_check 200 (answer "0x5")) f_zero true;
    EvTryQueue (probe_observation "eth" "b" balance_check 200 (answer "0x5")) (f64_ratio 1 2) true;
    EvProcessSync (probe_observation "eth" "a" balance_check 200 (answer "0x0"));
    EvSubmit (probe_observation "eth" "c" balance_check 200 (answer "0x5")) false;
    EvWorker 0 ].

Lemma queue_accounts_for_all_witness :
  let q := fold_left (queue_step (HandleExtractedData demo_now false)) demo_events (NewObservationQueue (mkQueueConfig true f_zero 4 10) ∅) in
  let '(queued, processed, dropped, skipped) := GetMetrics (queue_Stop (HandleExtractedData demo_now false) q) in
  queued + dropped + skipped = 3 /\ processed = queued + 1.
Proof. apply (queue_accounts_for_all (HandleExtractedData demo_now false) (mkQueueConfig true f_zero 4 10) ∅ demo_events). done. Defined.
