(* ===== verification/ChainExtract.v ===== *)
(** * What is read out of Solana and Cosmos responses

    qos/solana/extractor.go and qos/cosmos/extractor.go, the two other implementations of
    DataExtractor (EvmExtract.v has the interface), and the way their data takes into the Solana and
    Cosmos services.  Numbers, truth values and raw text of gjson results are the class
    [GjsonValues]. *)

From S2P Require Import Prelude GoStrings Utf8 Float64 RepKey Json Heuristic EvmQoS SolanaQoS CosmosQoS HealthCheck EvmExtract ObsQueue.
From Stdlib Require Import ZArith Lia Bool Ascii String.
From stdpp Require Import base gmap strings list.

Open Scope string_scope.
Open Scope Z_scope.

(** [Result.Int], [Result.Bool] and [Result.Raw] of the value at a path. *)
Class GjsonValues := {
  gjson_Int : string -> string -> Z;
  gjson_Bool : string -> string -> bool;
  gjson_Raw : string -> string -> string;
}.

Section Extractors.
Context `{UnicodeCase} `{Gjson} `{GjsonValues}.
Implicit Types (request response : string).

Definition is_number (json path : string) : bool :=
  match gjson_Get json path with Some r => bool_decide (g_Type r = GNumber) | None => false end.

(** ** Solana *)

Definition methodGetBlockHeight : string := "getBlockHeight".
Definition methodGetHealth : string := "getHealth".

Definition SOL_ExtractBlockHeight request response : result extract_error Z :=
  if has_value response "error" then Err NotDetermined
  else if negb (has_value response "result") then Err NotDetermined
  else if is_number response "result.blockHeight" then Ok (gjson_Int response "result.blockHeight")
  else if isMethod request methodGetBlockHeight && is_number response "result" then Ok (gjson_Int response "result")
  else Err NotDetermined.

Definition SOL_ExtractChainID request response : result extract_error string :=
  if has_value response "error" then Err NotDetermined
  else if negb (has_value response "result") then Err NotDetermined
  else let core := get_string response "result.solana-core" in
       if negb (core =? "")%string then Ok core else Err NotDetermined.

Definition SOL_IsSyncing request response : result extract_error bool :=
  if negb (isMethod request methodGetHealth) then Err NotDetermined
  else if has_value response "error" then
    let errMsg := to_lower_u (get_string response "error.message") in
    if str_contains errMsg "behind" || str_contains errMsg "unhealthy" then Ok true else Err NotDetermined
  else if negb (has_value response "result") then Err NotDetermined
  else Ok (negb (get_string response "result" =? "ok")%string).

Definition solanaArchivalErrorIndicators : list string :=
  ["slot was skipped"; "block not available"; "slot is not available"; "long-term storage query"; "first available block"; "slot too old"].

Definition SOL_IsArchival request response : result extract_error bool :=
  if has_value response "error" then
    if existsb (str_contains (to_lower_u (get_string response "error.message"))) solanaArchivalErrorIndicators then Ok false else Err NotDetermined
  else if has_value response "result" then Ok true else Err NotDetermined.

Definition SOL_IsValidResponse request response : result extract_error bool :=
  if (response =? "")%string then Ok false
  else if negb (gjson_Valid response) then Ok false
  else if negb (get_string response "jsonrpc" =? "2.0")%string then Ok false
  else Ok (has_value response "result" && negb (has_value response "error")).

Definition SolanaDataExtractor : DataExtractor :=
  mkExtractor SOL_ExtractBlockHeight SOL_ExtractChainID SOL_IsSyncing SOL_IsArchival SOL_IsValidResponse.

(** ** Cosmos *)

Definition jsonrpcEmptyResultType response : string :=
  match gjson_Get response "jsonrpc" with
  | None => ""
  | Some _ =>
      if negb (has_value response "result") then ""
      else let raw := gjson_Raw response "result" in
           if (raw =? "[]")%string then "array" else if (raw =? "{}")%string then "object" else ""
  end.

(** A decimal height at a path, if there is one. *)
Definition decimal_height_at response (path : string) : option Z :=
  let s := get_string response path in if (s =? "")%string then None else parse_int s.

Definition extractCometBFTBlockHeight response : option Z :=
  if has_value response "error" then None else decimal_height_at response "result.sync_info.latest_block_height".
Definition extractCosmosRESTBlockHeight response : option Z := decimal_height_at response "height".

Definition COS_ExtractBlockHeight request response : result extract_error Z :=
  if (response =? "")%string then Err NotDetermined
  else match extractCometBFTBlockHeight response with
       | Some h => Ok h
       | None =>
           match extractCosmosRESTBlockHeight response with
           | Some h => Ok h
           | None => Err (if negb (jsonrpcEmptyResultType response =? "")%string then ErrInvalidBlockHeightResult else NotDetermined)
           end
       end.

Definition COS_ExtractChainID request response : result extract_error string :=
  if (response =? "")%string then Err NotDetermined
  else let network := get_string response "result.node_info.network" in
       if negb (network =? "")%string then Ok network else Err NotDetermined.

Definition COS_IsSyncing request response : result extract_error bool :=
  if (response =? "")%string then Err NotDetermined
  else if has_value response "error" then Err NotDetermined
  else match gjson_Get response "result", gjson_Get response "result.sync_info.catching_up" with
       | Some _, Some _ => Ok (gjson_Bool response "result.sync_info.catching_up")
       | _, _ => Err NotDetermined
       end.

Definition pruningIndicators : list string := ["pruned"; "not available"; "height is not available"; "block not found"; "could not retrieve"].
Definition jsonrpcPruningIndicators : list string := ["pruned"; "not available"; "height is not available"; "block not found"].

Definition COS_IsArchival request response : result extract_error bool :=
  if (response =? "")%string then Err NotDetermined
  else if negb (gjson_Valid response) then Err NotDetermined
  else match gjson_Get response "error" with
       | None => Ok true
       | Some r =>
           if bool_decide (g_Type r = GString) then
             if existsb (str_contains (to_lower_u (g_String r))) pruningIndicators then Ok false else Err NotDetermined
           else if g_IsObject r then
             if existsb (str_contains (to_lower_u (get_string response "error.message"))) jsonrpcPruningIndicators then Ok false else Err NotDetermined
           else Ok true
       end.

Definition COS_IsValidResponse request response : result extract_error bool :=
  if (response =? "")%string then Ok false
  else if negb (gjson_Valid response) then Ok false
  else if has_value response "error" then Ok false
  else if (get_string response "jsonrpc" =? "2.0")%string then Ok (has_value response "result")
  else Ok true.

Definition CosmosDataExtractor : DataExtractor :=
  mkExtractor COS_ExtractBlockHeight COS_ExtractChainID COS_IsSyncing COS_IsArchival COS_IsValidResponse.

(** ** Into the services *)

Definition sol_data (d : extracted) : SolExtracted :=
  mkSolExtracted (ex_BlockHeight d) (ex_InvalidBlockHeight d) (ex_SyncCheckPerformed d) (ex_IsSyncing d).

(** Where a height comes from. *)
Lemma solana_height_source request response h :
  SOL_ExtractBlockHeight request response = Ok h ->
  has_value response "error" = false /\
  ((is_number response "result.blockHeight" = true /\ h = gjson_Int response "result.blockHeight") \/
   (isMethod request methodGetBlockHeight = true /\ is_number response "result" = true /\ h = gjson_Int response "result")).
Proof.
  unfold SOL_ExtractBlockHeight. destruct (has_value response "error"); [done|]. destruct (has_value response "result"); [|done]. cbn [negb].
  destruct (is_number response "result.blockHeight"); [intros [= <-]; auto|].
  destruct (isMethod request methodGetBlockHeight); [|done]. destruct (is_number response "result"); [|done]. intros [= <-]. auto.
Qed.

(** A Solana response that names no block height, to a request that asks for none and is no health
    check (the slot of getSlot, say), leaves the Solana service as it was. *)
Theorem slot_is_no_height q hasSvc addr request response :
  isMethod request methodGetBlockHeight = false -> isMethod request methodGetHealth = false ->
  is_number response "result.blockHeight" = false ->
  sol_UpdateFromExtractedData q hasSvc addr (Some (sol_data (ExtractAll SolanaDataExtractor request response))) = (q, []).
Proof.
  intros Hb Hh Hn. assert (SOL_ExtractBlockHeight request response = Err NotDetermined) as He.
  { unfold SOL_ExtractBlockHeight. destruct (has_value response "error"), (negb (has_value response "result")); try done. by rewrite Hn, Hb. }
  assert (SOL_IsSyncing request response = Err NotDetermined) as Hs by (unfold SOL_IsSyncing; by rewrite Hh).
  unfold ExtractAll. cbn [dx_ExtractBlockHeight dx_IsSyncing SolanaDataExtractor]. rewrite He, Hs. done.
Qed.

(** The health of a Solana endpoint is observed exactly on answers to getHealth: in sync when it
    says ok, behind on any other result or when the error says so. *)
Theorem solana_health_exact request response :
  let d := ExtractAll SolanaDataExtractor request response in
  (ex_SyncCheckPerformed d = true -> isMethod request methodGetHealth = true) /\
  (ex_SyncCheckPerformed d = true -> ex_IsSyncing d = false -> get_string response "result" = "ok" /\ has_value response "error" = false).
Proof.
  cbn. unfold SOL_IsSyncing. destruct (isMethod request methodGetHealth); [|by cbn]. cbn [negb]. split; [done|].
  destruct (has_value response "error"); [by destruct (_ || _)|]. destruct (has_value response "result"); [|done]. cbn.
  intros _ E. apply negb_false_iff, String.eqb_eq in E. done.
Qed.

(** Any Cosmos response without an error field of its own passes for an archival answer. *)
Theorem cosmos_archival_by_default request response :
  response <> "" -> gjson_Valid response = true -> gjson_Get response "error" = None ->
  COS_IsArchival request response = Ok true.
Proof. intros Hr Hv He. unfold COS_IsArchival. by rewrite (proj2 (String.eqb_neq _ _) Hr), Hv, He. Qed.
End Extractors.

(** ** Departures *)

#[local] Instance ascii_only : UnicodeCase := {| lower_rune := fun r => r |}.
#[local] Instance literal_values : GjsonValues := {|
  gjson_Int doc path := default 0 (parse_int (get_string doc path));
  gjson_Bool doc path := (get_string doc path =? "true")%string;
  gjson_Raw doc path := get_string doc path;
|}.

(** The error a Cosmos REST node gives for a pruned height, with its code and message at the top:
    the extractor calls it a valid answer of an archival node. *)
Theorem pruned_rest_error_archival :
  let body := "{" +:+ quoted "code" +:+ ":3," +:+ quoted "message" +:+ ":" +:+ quoted "height 1 is not available, lowest height is 100" +:+ "}" in
  COS_IsArchival "" body = Ok true /\ COS_IsValidResponse "" body = Ok true.
Proof. vm_compute. split; reflexivity. Qed.

(** The height a historical REST query echoes is taken for the tip of the chain. *)
Theorem historical_height_observed :
  let body := "{" +:+ quoted "height" +:+ ":" +:+ quoted "7" +:+ "," +:+ quoted "result" +:+ ":{}}" in
  COS_ExtractBlockHeight "/bank/balances/a?height=7" body = Ok 7.
Proof. vm_compute. reflexivity. Qed.

(** A bare number is a height for getBlockHeight and nothing for getSlot. *)
Example slot_ignored :
  let body := "{" +:+ quoted "jsonrpc" +:+ ":" +:+ quoted "2.0" +:+ "," +:+ quoted "result" +:+ ":250}" in
  let request m := "{" +:+ quoted "method" +:+ ":" +:+ quoted m +:+ "}" in
  SOL_ExtractBlockHeight (request "getBlockHeight") body = Ok 250 /\ SOL_ExtractBlockHeight (request "getSlot") body = Err NotDetermined.
Proof. vm_compute. split; reflexivity. Qed.
